(* ===== verification/_CoqProject ===== *)
-Q . S2P
Prelude.v
Effects.v
Chain.v
UArrayList.v
ULinkList.v
UQueue.v
OicString.v
Base64.v
Fragmentation.v
CaCommon.v
QueueingThread.v
Network.v
BleAdapter.v
CoapOption.v
CoapPdu.v
CoapUri.v
CaMessage.v
ProtocolMessage.v
CoapMessage.v
CoapReceive.v
CoapRoundTrip.v
BlockTransfer.v
BlockUpload.v
BlockSender.v
Retransmission.v
MessageHandler.v
MessageDelivery.v
Strptime.v
Calendar.v
Acl.v
Svr.v
Onboarding.v
PolicyEngine.v
SecureResourceManager.v
Heap.v
Payload.v
PayloadSpec.v
PayloadStore.v
Endpoint.v
Discovery.v
RbTree.v
RbShape.v
RbInsert.v
RbOrder.v
RbRemove.v
RbMap.v
RbChain.v
StackTypes.v
ClientCb.v
Routing.v
ServerRequest.v
ServerTrees.v
Resources.v
Observe.v
Registry.v
RegistryLaws.v
Attributes.v
Requests.v
