(* ===== verification/Prelude.v ===== *)
(** * Verification of the IoTivity C stack

    IoTivity is an implementation of the OCF device-to-device stack.  Its core
    is C, under [resource/csdk] and [resource/c_common]: a connectivity layer
    (transports, fragmentation, CoAP, block-wise transfer, retransmission,
    queues), the stack proper (resources, requests, observers, payloads) and a
    security resource manager that sits between the two and decides which
    requests reach the stack.  This library models the way of a message through
    the three of them as functions, and proves what they compute.

    ** Files, parts and sources

    Paths are below [resource/csdk] unless they start with [c_common].
    Containers, strings and effects, used by everything else:
    - [Prelude]: integers of fixed width, buffers, undefined behaviour,
      tactics and the enumerations shared by the components;
    - [Effects]: computations over a state that allocate and may be undefined;
    - [Heap]: [c_common/oic_malloc/src/oic_malloc.c], counting blocks;
    - [Chain]: singly linked heap chains, the invariant of both lists below;
    - [UArrayList]: [connectivity/common/src/uarraylist.c], with the interface
      [PtrList] through which its users see it;
    - [ULinkList]: [connectivity/common/src/ulinklist.c];
    - [UQueue]: [connectivity/common/src/uqueue.c];
    - [OicString]: [c_common/oic_string/src/oic_string.c].

    Encodings:
    - [Base64]: [security/src/base64.c];
    - [Fragmentation]: [connectivity/src/adapter_util/cafragmentation.c];
    - [CoapOption], [CoapPdu], [CoapUri]: [option.c], [encode.c], [pdu.c],
      [block.c] and [uri.c] of [connectivity/lib/libcoap-4.1.1];
    - [ProtocolMessage], [CoapMessage], [CoapReceive]:
      [connectivity/src/caprotocolmessage.c], its header accessors, its sending
      and its receiving half; [CoapRoundTrip] puts the halves together.

    Connectivity, on the containers:
    - [CaCommon], [CaMessage]: the types of [connectivity/api] and the deep
      copies of [connectivity/common/src/caremotehandler.c];
    - [QueueingThread]: [connectivity/src/caqueueingthread.c];
    - [Network]: [connectivity/src/canetworkconfigurator.c] and
      [connectivity/src/cainterfacecontroller.c];
    - [BleAdapter]: the data path of
      [connectivity/src/bt_le_adapter/caleadapter.c];
    - [BlockTransfer]: [connectivity/src/cablockwisetransfer.c], with
      [BlockUpload] and [BlockSender] about its two ends;
    - [Retransmission]: [connectivity/src/caretransmission.c];
    - [MessageHandler]: [connectivity/src/camessagehandler.c] and the sending
      functions of [connectivity/src/caconnectivitymanager.c], where the parts
      above meet, with [MessageDelivery] about a message's whole way.

    Security resource manager, in the order the code calls them from the
    bottom up:
    - [Strptime]: [security/src/strptime.c];
    - [Calendar]: [security/src/iotvticalendar.c], the PERIOD and RRULE
      validities of an access control entry;
    - [Acl]: the entry types and the three lookups of
      [security/src/aclresource.c], with the interface [AceIterator];
    - [Svr]: the state and accessors of doxm, pstat, acl2 and cred
      ([doxmresource.c], [pstatresource.c], [aclresource.c],
      [credresource.c]) over the class [SvrEnv] of calls to the outside;
    - [Onboarding]: [deviceonboardingstate.c] and the POST handler of pstat;
    - [PolicyEngine]: [policyengine.c] over the class [PolicyEnv];
    - [SecureResourceManager]: the request path of
      [secureresourcemanager.c] over the class [SrmEnv].

    The stack:
    - [Payload]: the representation payloads of [stack/src/ocpayload.c], with
      [PayloadSpec] (well-typed payloads, the blocks they own) and
      [PayloadStore] (a payload is a map);
    - [Endpoint]: [stack/src/ocendpoint.c];
    - [Discovery]: the other payloads of [stack/src/ocpayload.c];
    - [StackTypes]: the types of [include/octypes.h] and the list macros of
      [c_common/utlist.h];
    - [ClientCb]: [stack/src/occlientcb.c];
    - [Routing]: [routing/src/routingutility.c], as an endpoint;
    - [RbTree]: the red-black tree macros of [stack/include/internal/tree.h] on
      pointers, with [RbShape] (the tree that is stored, rotations), [RbInsert]
      and [RbRemove] (keeping the balance), [RbOrder] (finding by key), [RbMap]
      (a tree is a map) and [RbChain] (elements with one key);
    - [ServerRequest]: [stack/src/ocserverrequest.c] over the class
      [ServerEnv], with [ServerTrees] about the trees it keeps its tables in;
    - [Resources]: how [stack/src/ocresource.c] and [stack/src/ocstack.c] find
      the resource a request is for, over the class [StackEnv];
    - [Observe]: [stack/src/ocobserve.c] and the notifications;
    - [Registry]: creating, changing and deleting resources in [ocstack.c],
      over the class [RegistryEnv], with [RegistryLaws] about it;
    - [Attributes]: the properties of the device and the platform in
      [ocresource.c], over the class [AttributeEnv];
    - [Requests]: the path of a request from the network through [ocstack.c]
      and [ocresource.c] to the application and back.

    ** How a message travels

    [CASendRequest] and its like copy a message and put it on the send queue of
    [MessageHandler], block by block if [BlockTransfer] says that it is too
    large.  The send thread turns it into a packet ([CoapMessage]), gives it to
    the adapters that [Network] selects and, if it is confirmable, leaves it with
    [CARetransmissionSentData]: the retransmission thread resends it with doubled
    time-outs until [CARetransmissionReceivedData] sees its answer or the tries
    are used up.  Over Bluetooth LE a packet is cut once more, with the headers of
    [Fragmentation]; on the other side [CALEDataReceiverHandler] keeps a record
    per sender in a [PtrList] until the packet is whole.  A received packet is
    taken apart ([CoapReceive]), dropped if it was seen before, shown to the
    retransmission and the block-wise transfer, and put on the receive queue, from
    which the handlers of the layer above are called.

    ** How a request flows

    [SRMRequestHandler] copies the sender's identity and the path of the URI
    into a request context and asks [CheckPermission].  That reads the
    onboarding state ([GetDos]) and the owners kept in [Svr], grants the
    implicit accesses, and otherwise lets [ProcessAccessRequest] iterate over
    the entries of [Acl] by connection type, by subject and by role; an entry
    counts when it covers the resource, its validity ([Calendar], which reads
    dates with [Strptime]) includes the current time and its permission
    includes the requested one.  The answer is an event: the request handed to
    the stack, or an UNAUTHORIZED response.

    In the stack [HandleCARequests] takes the routing option off ([Routing]),
    [OCHandleRequests] copies the request and [HandleStackRequests] enters it in
    the table of [ServerRequest].  [DetermineResourceHandling] finds the resource
    and [ProcessRequest] calls what is responsible for it, which for an ordinary
    resource is the application's entity handler, after the observer it asks for
    has been entered in [Observe].  The handler answers with [OCDoResponse], whose
    [HandleSingleResponse] or [HandleAggregateResponse] converts the answer, sends
    it and deletes the request.  A notification of [Observe] is a request of its
    own that goes the same way from [ProcessRequest] on.

    ** What the theorems show

    - Access control.  [CheckPermission_spec] and [ProcessAccessRequest_spec]:
      the engine terminates and grants exactly what the declarative relation
      [entitled] and the list specification [acl_allows] say.
      [SRMRequestHandler_decides]: a request has exactly one outcome, also when
      its path is too long to be copied and is decided as the empty one
      (built without [MULTIPLE_OWNER]).
      [acl_iteration_complete]: each lookup, resumed through its save pointer,
      visits the matching entries once and in order.
    - Onboarding.  [SetDosState_refines], [SetDosState_reset] and
      [onboarding_invariant]: the code refines the state machine [dos_edge],
      a reset un-owns the device whatever fails, and every state reached by
      requests for a state, posts to pstat and self-ownership satisfies the
      invariant and is reached along the transitions; [pstat_post_state_change]
      the same through the POST handler, errors included.
    - Secure resources.  [rowner_write_through]: for the owners of pstat and
      acl2 memory and persistent storage change together;
      [SetCredRownerId_no_revert] and [SetMOTStatus_use_after_free]: where they
      do not.
    - Time.  [IsRequestWithinValidTime_period] and
      [IsRequestWithinValidTime_recurring] give the exact set of accepted
      times; [strptime_render_roundtrip] that dates are read back;
      [ParseRecur_initialised] that a rule is parsed without undefined
      behaviour.
    - Delivery.  [coap_message_round_trip]: what is sent is what is received;
      [request_delivered]: a request reaches the handlers of the other stack
      once; [duplicates_dropped]: a second copy of it over IP does not, if it
      has a token; [unanswered_request_reported] and [retransmission_lifecycle]: without an
      answer there are exponential back-off, at most [tryingCount] resends and
      one report.  [CALEDataReceiverHandler_refines] and [ble_transfer]: the
      same over BLE, in any MTU and whatever other senders' packets come in
      between.  [selection_invariant]: the networks in use.
    - Block-wise transfer.  [upload_delivers_payload]: a payload sent in blocks
      is handed out whole and once; [client_block_carries]: what each block of
      the sender holds.
    - Payloads.  [setter_refines_insert] and [set_get_roundtrip]: the setters and
      getters implement a finite map; [payload_well_formed] and
      [payload_no_leak]: payloads stay well typed and no block is lost, whatever
      blocks are refused, but for those of the copies that four of the setters
      do not check ([copied], [int_array_without_memory]); [clone_is_copy].
      [endpoint_string_roundtrip] and [endpoint_list_spec]: endpoints as texts
      and in discovery; [endpoint_parse_safe]: what is copied out of such a text
      stays inside its block.
    - Requests and responses.  [request_answered_once]: a request for a resource
      whose handler answers gets one response, with its token and message id, and
      leaves nothing behind; [response_sent_once]: what one call of the response
      handler sends; [process_depth]: the notifications that a request causes
      cause no others, so that a third level is never entered; [unknown_resource_stays] and
      [aggregate_response_double_free]: where requests leak and where memory is
      freed twice.  [client_requests_released]: everything the requests a client
      adds own is released once, and their contexts are deleted once.  [route_option_transparent]: the routing option is
      invisible to the layers above.
    - Observers.  [observer_added_and_deleted]: who registers is the last of the
      list, is found, and leaves it as it was; [every_fourth_confirmable]: which
      notifications ask for an acknowledgement; [observer_check_never_comes]:
      one that the code means to send and cannot.
    - Resources.  [registry_invariant]: no sequence of calls, whatever the
      allocator answers, is undefined or spoils the list of resources;
      [created_and_deleted]: what creation makes, and that deletion undoes it;
      [attribute_set_get]: the attributes of a resource are a map.
      [empty_version_dangles], [collection_leaks], [deleted_member_stays] and
      [interface_lost]: where memory is freed or lost that should not be.
    - Tables of requests.  [rb_tree_refines_map] and [rbl_tree_refines_lists]: the
      pointer operations of the trees implement finite maps;
      [request_table_refined]: the list [ServerRequest] keeps its requests in is
      what the tree holds, but that the removal of the first of several requests
      with one token is undefined there ([first_at_root_dangling] is why);
      [request_found_by_token]: requests are found by their tokens;
      [first_at_root_dangling], [longer_token_overread] and
      [refused_element_empties_tree]: what goes wrong with equal tokens and with
      tokens of different lengths.
    - Encodings.  Round trips of base64, of CoAP options and of the BLE fragment
      headers, and [b64Decode_memory_safe] on every input.
    - Containers.  Each operation refines the mathematical list, frees what it
      should and fails only when the allocator does.
    - Where memory safety fails: [short_start_packet_out_of_bounds],
      [CARetransmissionReceivedData_oom_dangling] and others.

    ** Conventions, bounds and fuel

    - Integers are [Z]; [u8], [u16], [u32], [u64] are applied where the C type
      wraps, and [size_t] has 64 bits.
    - [ub A] is [option A] with [None] for undefined behaviour: an access
      outside a buffer, a NULL or dangling pointer, an indeterminate value or a
      failed [assert].  Memory safety is a theorem that the result is [Some].
      [M S A] of [Effects] is [ub] with a state, and [zoom] lets an operation on
      a part of the state run on the whole.
    - A nullable pointer argument is an [option].  Where identity matters
      (list nodes, entries resumed from a saved address, requests, observers)
      objects live in a heap or carry their address; elsewhere a pointer is the
      value it owns and a buffer is its contents.
    - An allocation takes an oracle bit, or the next bit of a list that the state
      carries (an empty list answers yes for ever), and theorems quantify over
      them unless they are about the case that there is memory.  [Heap] counts
      the blocks in use, so that "neither leaks nor frees twice" is an equation;
      [in_heap] and [grow] carry it over to states that contain such a count
      ([HasHeap]).
    - A call into code outside the sources, or into a part that is not modelled
      (CBOR, TLS, the application, the transport), is a field of a class;
      theorems that need such a call to behave say so, and each has a concrete
      instance.
    - Loops over a list or a counter recurse on it.  Loops through heap chains
      and save pointers, and the check of the retransmission list, take fuel,
      one more than the number of elements, and the theorems show that this
      is always enough; [recur_loop] takes the length of the rule, which shrinks
      at each round; a loop that starts again after a failed allocation is
      bounded by the allocator's list; the macros that walk a list of the stack
      by its length.  [process_over] follows a request into the requests it
      causes, down to a level that is its argument ([process_upto]: undefined);
      by [process_depth] that level is never entered, whatever it is, once there
      are two above it.
    - A component that keeps objects behind a list of pointers has them in a
      finite map from addresses; [cells] of [UArrayList] and [rep_list] of
      [BleAdapter] relate list and map.  A fresh object gets an address that is
      not in use.
    - Locks are not modelled: each operation runs under its lock in the code,
      and its model is one atomic step.  Log calls are dropped.

    ** Not modelled

    Of the connectivity layer: CoAP over TCP, and the stack run from one thread
    ([SINGLE_THREAD]).  Of the security layer: the CBOR conversions and the
    request handlers of doxm, acl2 and cred (a handler of cred or acl2 is for the
    most part the conversion).  Of the stack: the requests and responses of a
    client ([OCDoRequest], [OCHandleResponse]), the answers of discovery and of
    collections, starting and stopping; gateways and their routing tables; the
    CBOR conversion of payloads.
    Sockets, radios, TLS, SQL, logging and threads are input and output or
    third-party code, the C++, Java and cloud layers are other programs. *)

From stdpp Require Export base list list_numbers option numbers gmap strings.
From Stdlib Require Export ZArith Lia Bool.

#[global] Open Scope Z_scope.

(** ** Fixed-width unsigned integers

    A C unsigned integer of width [w] is its value in [Z]; every place where
    the source lets a result wrap applies [wrap w] explicitly. *)
Definition wrap (w z : Z) : Z := z mod 2 ^ w.

Declare Scope c_scope.
Delimit Scope c_scope with c.
Notation "'u8' x" := (wrap 8 x) (at level 10, x at level 9) : c_scope.
Notation "'u16' x" := (wrap 16 x) (at level 10, x at level 9) : c_scope.
Notation "'u32' x" := (wrap 32 x) (at level 10, x at level 9) : c_scope.
Notation "'u64' x" := (wrap 64 x) (at level 10, x at level 9) : c_scope.
#[global] Open Scope c_scope.

(** Largest value of [size_t] on the 64-bit targets modelled here. *)
Definition SIZE_MAX : Z := 2 ^ 64 - 1.

(** Signed [int] arithmetic: an out-of-range result is undefined. *)
Definition INT_MAX : Z := 2 ^ 31 - 1.
Definition INT_MIN : Z := - 2 ^ 31.
Definition int_result (z : Z) : option Z :=
  if decide (INT_MIN <= z <= INT_MAX) then Some z else None.

Lemma int_result_ok z : INT_MIN <= z <= INT_MAX -> int_result z = Some z.
Proof. intros. unfold int_result. by rewrite decide_True. Qed.

(** C bit operations, named as they read in the sources. *)
Notation "x &&& y" := (Z.land x y) (at level 40, left associativity) : c_scope.
Notation "x ||| y" := (Z.lor x y) (at level 50, left associativity) : c_scope.
Notation "x <<< y" := (Z.shiftl x y) (at level 40, left associativity) : c_scope.
Notation "x >>> y" := (Z.shiftr x y) (at level 40, left associativity) : c_scope.

Create HintDb cwrap.
Create Rewrite HintDb cwrap_rw.

Lemma wrap_range w z : 0 <= w -> 0 <= wrap w z < 2 ^ w.
Proof. intros ?. apply Z.mod_pos_bound, Z.pow_pos_nonneg; lia. Qed.

Lemma wrap_small w z : 0 <= z < 2 ^ w -> wrap w z = z.
Proof. intros ?. by apply Z.mod_small. Qed.

Lemma wrap_wrap w z : 0 <= w -> wrap w (wrap w z) = wrap w z.
Proof. intros ?. apply wrap_small, wrap_range; lia. Qed.

Lemma wrap_land w z : 0 <= w -> wrap w z = Z.land z (Z.ones w).
Proof. intros ?. unfold wrap. by rewrite Z.land_ones by lia. Qed.

Lemma wrap_testbit w z i :
  0 <= w -> Z.testbit (wrap w z) i = (if decide (0 <= i < w) then Z.testbit z i else false).
Proof.
  intros Hw. rewrite wrap_land by done. rewrite Z.land_spec.
  case_decide.
  - by rewrite Z.ones_spec_low, andb_true_r by lia.
  - destruct (decide (i < 0)).
    + by rewrite Z.testbit_neg_r by lia.
    + rewrite Z.ones_spec_high by lia. by rewrite andb_false_r.
Qed.

Lemma wrap_add_l w a b : 0 <= w -> wrap w (wrap w a + b) = wrap w (a + b).
Proof. intros ?. unfold wrap. by rewrite Z.add_mod_idemp_l by (apply Z.pow_nonzero; lia). Qed.

Lemma wrap_sub_add w a k : 0 <= w -> wrap w (wrap w (a - k) + k) = wrap w a.
Proof. intros ?. rewrite wrap_add_l by done. f_equal. lia. Qed.

#[export] Hint Resolve wrap_range wrap_small : cwrap.
#[export] Hint Rewrite wrap_wrap using lia : cwrap_rw.

(** ** Undefined behaviour

    A C operation that may read or write outside an object, follow a NULL or
    dangling pointer, or use an indeterminate value is a partial function:
    [None] is undefined behaviour, [Some r] a defined outcome.  The memory
    safety theorems say that the outcome is [Some _]. *)
Abbreviation ub := option.


Lemma bind_Some_inv {A B} (f : A -> ub B) (m : ub A) (b : B) :
  m ≫= f = Some b -> exists a, m = Some a /\ f a = Some b.
Proof. destruct m; simpl; naive_solver. Qed.

(** ** Enumerations shared by the C components *)

(** [CAResult_t] of [cacommon.h]: the values the modelled code returns. *)
Inductive CAResult_t :=
| CA_STATUS_OK
| CA_STATUS_INVALID_PARAM
| CA_SEND_FAILED
| CA_MEMORY_ALLOC_FAILED
| CA_REQUEST_TIMEOUT
| CA_STATUS_NOT_INITIALIZED
| CA_NOT_SUPPORTED
| CA_STATUS_FAILED
| CA_ADAPTER_NOT_ENABLED
| CA_SERVER_STARTED_ALREADY
| CA_SERVER_NOT_STARTED
| CA_DESTINATION_NOT_REACHABLE
| CA_SOCKET_OPERATION_FAILED
| CA_RECEIVE_FAILED
| CA_DESTINATION_DISCONNECTED
| CA_HANDLE_ERROR_OTHER_MODULE
| CA_CONTINUE_OPERATION.
#[export] Instance CAResult_t_eq_dec : EqDecision CAResult_t.
Proof. solve_decision. Defined.

(** [OCStackResult] of [octypes.h]: the values the modelled code returns. *)
Inductive OCStackResult :=
| OC_STACK_OK
| OC_STACK_ERROR
| OC_STACK_INVALID_PARAM
| OC_STACK_NO_MEMORY
| OC_STACK_NO_RESOURCE
| OC_STACK_FORBIDDEN_REQ
| OC_STACK_INTERNAL_SERVER_ERROR
| OC_STACK_COMM_ERROR
| OC_STACK_DUPLICATE_REQUEST
| OC_STACK_ADAPTER_NOT_ENABLED
| OC_STACK_INVALID_OPTION
| OC_STACK_OBSERVER_NOT_FOUND
| OC_STACK_NO_OBSERVERS
| OC_STACK_RESOURCE_CREATED
| OC_STACK_RESOURCE_DELETED
| OC_STACK_CONTINUE
| OC_STACK_RESOURCE_CHANGED
| OC_STACK_INVALID_URI
| OC_STACK_INVALID_QUERY
| OC_STACK_INVALID_CALLBACK
| OC_STACK_INVALID_METHOD
| OC_STACK_TIMEOUT
| OC_STACK_NOTIMPL
| OC_STACK_RESOURCE_ERROR
| OC_STACK_SLOW_RESOURCE
| OC_STACK_VIRTUAL_DO_NOT_HANDLE
| OC_STACK_UNAUTHORIZED_REQ
| OC_STACK_TOO_LARGE_REQ
| OC_STACK_CONTINUE_OPERATION
| OC_STACK_BAD_ENDPOINT
| OC_STACK_NOT_ACCEPTABLE
| OC_STACK_GATEWAY_TIMEOUT
| OC_STACK_SERVICE_UNAVAILABLE.
#[export] Instance OCStackResult_eq_dec : EqDecision OCStackResult.
Proof. solve_decision. Defined.

(** ** Characters and C strings

    A [char] or [uint8_t] is its code in [Z].  The contents of a C string is
    the list of its characters before the terminating NUL. *)
Definition chars (s : string) : list Z :=
  (fun a => Z.of_N (Ascii.N_of_ascii a)) <$> String.list_ascii_of_string s.

Definition is_byte (z : Z) : Prop := 0 <= z < 256.
#[export] Instance is_byte_dec z : Decision (is_byte z).
Proof. unfold is_byte. apply _. Defined.

(** [memcpy] into and out of a buffer, undefined out of bounds. *)
Definition write_at {A} (b : list A) (off : Z) (s : list A) : ub (list A) :=
  if decide (0 <= off /\ off + Z.of_nat (length s) <= Z.of_nat (length b)) then
    Some (take (Z.to_nat off) b ++ s ++ drop (Z.to_nat off + length s) b)
  else None.

Definition read_at {A} (b : list A) (off n : Z) : ub (list A) :=
  if decide (0 <= off /\ 0 <= n /\ off + n <= Z.of_nat (length b)) then
    Some (take (Z.to_nat n) (drop (Z.to_nat off) b))
  else None.

(** One element of a buffer. *)
Definition byte_at {A} (b : list A) (i : Z) : ub A :=
  if decide (0 <= i) then b !! Z.to_nat i else None.

(** ** Tactics *)

(** Case analysis on the scrutinee of a [match]/[if] of the goal. *)
Ltac case_goal :=
  match goal with
  | |- context [match ?x with _ => _ end] => destruct x eqn:?
  end.

(** The same in a hypothesis. *)
Ltac case_hyp H :=
  match type of H with
  | context [match ?x with _ => _ end] => destruct x eqn:?
  end.

(** Turn the boolean tests of the code into propositions. *)
Ltac bool_to_prop :=
  repeat match goal with
  | H : (_ && _)%bool = true |- _ => apply andb_true_iff in H as [? ?]
  | H : (_ || _)%bool = false |- _ => apply orb_false_iff in H as [? ?]
  | H : negb _ = true |- _ => apply negb_true_iff in H
  | H : negb _ = false |- _ => apply negb_false_iff in H
  | H : bool_decide _ = true |- _ => apply bool_decide_eq_true in H
  | H : bool_decide _ = false |- _ => apply bool_decide_eq_false in H
  | H : (_ =? _) = true |- _ => apply Z.eqb_eq in H
  | H : (_ =? _) = false |- _ => apply Z.eqb_neq in H
  | H : (_ <? _) = true |- _ => apply Z.ltb_lt in H
  | H : (_ <? _) = false |- _ => apply Z.ltb_ge in H
  | H : (_ <=? _) = true |- _ => apply Z.leb_le in H
  | H : (_ <=? _) = false |- _ => apply Z.leb_gt in H
  end.

(** Invert a successful sequence of possibly undefined operations. *)
Ltac bind_inv H :=
  let x := fresh "x" in let Hx := fresh "Hx" in
  apply bind_Some_inv in H as (x & Hx & H).

(** ** List lemmas shared by the containers *)

Lemma lookup_Some_le {A} (l : list A) (n : nat) :
  (n < length l)%nat -> exists x, l !! n = Some x.
Proof. intros H. destruct (lookup_lt_is_Some_2 l n H) as [x ?]. eauto. Qed.

Lemma take_insert_snoc {A} (l : list A) (n : nat) (x : A) :
  (n < length l)%nat -> take (S n) (<[n:=x]> l) = take n l ++ [x].
Proof.
  intros H. rewrite (take_S_r _ _ x).
  - by rewrite take_insert_ge by lia.
  - by apply list_lookup_insert_eq.
Qed.

Lemma filter_all {A} (P : A -> Prop) `{forall x, Decision (P x)} (l : list A) :
  Forall P l -> filter P l = l.
Proof. induction 1; [done|]. rewrite filter_cons_True by done. by f_equal. Qed.

Lemma filter_none {A} (P : A -> Prop) `{forall x, Decision (P x)} (l : list A) :
  Forall (fun x => ~ P x) l -> filter P l = [].
Proof. induction 1; [done|]. by rewrite filter_cons_False. Qed.

(** ** Buffer lemmas *)

Lemma write_at_ok {A} (b s : list A) (off : Z) :
  0 <= off -> off + Z.of_nat (length s) <= Z.of_nat (length b) ->
  write_at b off s = Some (take (Z.to_nat off) b ++ s ++ drop (Z.to_nat off + length s) b).
Proof. intros. unfold write_at. by rewrite decide_True. Qed.

(** Overwriting the middle part of a buffer given in three parts. *)
Lemma write_at_app {A} (pre mid post s : list A) (off : Z) :
  off = Z.of_nat (length pre) -> length s = length mid ->
  write_at (pre ++ mid ++ post) off s = Some (pre ++ s ++ post).
Proof.
  intros -> Hlen. rewrite write_at_ok by (rewrite ?length_app; lia).
  rewrite Nat2Z.id, take_app_length, Hlen. do 3 f_equal.
  by rewrite app_assoc, <- length_app, drop_app_length.
Qed.

Lemma write_at_one {A} (pre post : list A) (m x : A) (off : Z) :
  off = Z.of_nat (length pre) -> write_at (pre ++ m :: post) off [x] = Some (pre ++ x :: post).
Proof. intros ->. by apply (write_at_app pre [m] post [x]). Qed.

Lemma write_at_0 {A} (a : A) r x : write_at (a :: r) 0 [x] = Some (x :: r).
Proof. by apply (write_at_one [] r a x). Qed.

Lemma byte_at_0 {A} (a : A) r : byte_at (a :: r) 0 = Some a.
Proof. done. Qed.

Lemma write_at_length {A} (b s b' : list A) (off : Z) :
  write_at b off s = Some b' -> length b' = length b.
Proof.
  unfold write_at. case_decide; [|done]. intros [= <-].
  rewrite !length_app, length_take, length_drop. lia.
Qed.

Lemma read_at_ok {A} (b : list A) (off n : Z) :
  0 <= off -> 0 <= n -> off + n <= Z.of_nat (length b) ->
  read_at b off n = Some (take (Z.to_nat n) (drop (Z.to_nat off) b)).
Proof. intros. unfold read_at. by rewrite decide_True. Qed.

(** Reading the middle part of a buffer given in three parts. *)
Lemma read_at_app {A} (pre mid post : list A) (off n : Z) :
  off = Z.of_nat (length pre) -> n = Z.of_nat (length mid) ->
  read_at (pre ++ mid ++ post) off n = Some mid.
Proof.
  intros -> ->. rewrite read_at_ok by (rewrite ?length_app; lia).
  by rewrite !Nat2Z.id, drop_app_length, take_app_length.
Qed.

Lemma read_at_prefix {A} (mid post : list A) (n : Z) :
  n = Z.of_nat (length mid) -> read_at (mid ++ post) 0 n = Some mid.
Proof. by apply (read_at_app []). Qed.

Lemma read_at_all {A} (b : list A) (n : Z) :
  n = Z.of_nat (length b) -> read_at b 0 n = Some b.
Proof. intros E. rewrite <- (app_nil_r b) at 1. by apply read_at_prefix. Qed.

(** Overwriting the start of what follows [pre]. *)
Lemma write_at_after {A} (pre post s : list A) (off : Z) :
  off = Z.of_nat (length pre) -> (length s <= length post)%nat ->
  write_at (pre ++ post) off s = Some (pre ++ s ++ drop (length s) post).
Proof.
  intros -> Hs. rewrite <- (take_drop (length s) post) at 1.
  by rewrite (write_at_app pre (take (length s) post)) by (rewrite ?length_take; lia).
Qed.

Lemma write_at_prefix {A} (post s : list A) : (length s <= length post)%nat ->
  write_at post 0 s = Some (s ++ drop (length s) post).
Proof. by apply (write_at_after []). Qed.

Lemma byte_at_app {A} (pre post : list A) (i j : Z) :
  i = Z.of_nat (length pre) + j -> 0 <= j -> byte_at (pre ++ post) i = byte_at post j.
Proof.
  intros -> Hj. unfold byte_at. rewrite !decide_True by lia.
  rewrite lookup_app_r by lia. f_equal. lia.
Qed.

(** ** Bit fields as arithmetic *)

Lemma lor_shiftl_add x n y : 0 <= n -> 0 <= y < 2 ^ n -> Z.lor (Z.shiftl x n) y = x * 2 ^ n + y.
Proof.
  intros Hn Hy. rewrite <- Z.shiftl_mul_pow2 by done.
  assert (Z.land (Z.shiftl x n) y = 0) as Hd.
  { apply Z.bits_inj'. intros i Hi. rewrite Z.land_spec, Z.bits_0.
    destruct (Z.lt_ge_cases i n).
    - by rewrite Z.shiftl_spec_low.
    - destruct (Z.eq_dec y 0) as [->|]; [by rewrite Z.bits_0, andb_false_r|].
      rewrite (Z.bits_above_log2 y i), andb_false_r; [done|lia|].
      apply Z.lt_le_trans with n; [|done]. apply Z.log2_lt_pow2; lia. }
  rewrite <- Z.lxor_lor by done. symmetry. apply Z.add_nocarry_lxor. done.
Qed.

Lemma land_ones_mod x n m : m = Z.ones n -> 0 <= n -> Z.land x m = x mod 2 ^ n.
Proof. intros -> ?. by apply Z.land_ones. Qed.

Lemma shiftr_div x n : 0 <= n -> Z.shiftr x n = x / 2 ^ n.
Proof. apply Z.shiftr_div_pow2. Qed.

Lemma lor_add x n y : 0 <= n -> x mod 2 ^ n = 0 -> 0 <= y < 2 ^ n -> Z.lor x y = x + y.
Proof.
  intros Hn Hx Hy. pose proof (Z.div_mod x (2 ^ n) ltac:(apply Z.pow_nonzero; lia)) as Hd.
  rewrite Hx, Z.add_0_r, Z.mul_comm in Hd.
  rewrite Hd at 1. rewrite <- Z.shiftl_mul_pow2, lor_shiftl_add by done. lia.
Qed.
