(* ===== verification/Effects.v ===== *)
(** * Effects: stateful code as a state monad

    The larger components keep static variables, allocate and may run into
    undefined behaviour.  [M S A] is such a computation over the state [S];
    [None] is undefined behaviour as everywhere.

    Allocations are answered from a list the state carries, [true] for a
    success; once the list is used up they succeed.  Every finite run of an
    allocator is such a list, and an empty list is one that does not fail.  [HasAllocs]
    lets an operation that only allocates run over any state. *)
From S2P Require Import Prelude.

Definition M (S A : Type) : Type := S -> ub (A * S).

#[export] Instance M_ret S : MRet (M S) := fun A a s => Some (a, s).
#[export] Instance M_bind S : MBind (M S) := fun A B f m s =>
  match m s with Some (a, s') => f a s' | None => None end.

(** An operation on values that may be undefined. *)
Definition lift {S A} (x : ub A) : M S A := fun s => match x with Some a => Some (a, s) | None => None end.
Definition undefined {S A} : M S A := fun _ => None.
Definition get {S} : M S S := fun s => Some (s, s).
Definition gets {S A} (f : S -> A) : M S A := fun s => Some (f s, s).
Definition modify {S} (f : S -> S) : M S unit := fun s => Some (tt, f s).

Section Steps.
Context {S : Type}.

Lemma run_ret {A} (a : A) (s : S) : (mret a : M S A) s = Some (a, s).
Proof. done. Qed.

Lemma run_bind {A B} (m : M S A) (f : A -> M S B) (s : S) a s' :
  m s = Some (a, s') -> (m ≫= f) s = f a s'.
Proof. intros E. unfold mbind, M_bind. by rewrite E. Qed.

Lemma run_bind_undef {A B} (m : M S A) (f : A -> M S B) (s : S) :
  m s = None -> (m ≫= f) s = None.
Proof. intros E. unfold mbind, M_bind. by rewrite E. Qed.

Lemma run_bind_inv {A B} (m : M S A) (f : A -> M S B) (s : S) b s'' :
  (m ≫= f) s = Some (b, s'') -> exists a s', m s = Some (a, s') /\ f a s' = Some (b, s'').
Proof. unfold mbind, M_bind. destruct (m s) as [[a s']|]; [|done]. eauto. Qed.

Lemma run_lift {A} (x : ub A) (a : A) (s : S) : x = Some a -> lift x s = Some (a, s).
Proof. by intros ->. Qed.

Lemma run_modify (f : S -> S) s : modify f s = Some (tt, f s).
Proof. done. Qed.

Lemma run_gets {A} (f : S -> A) s : gets f s = Some (f s, s).
Proof. done. Qed.
End Steps.

#[export] Hint Rewrite @run_ret @run_modify @run_gets : cstep.

(** Runs the first step of a computation with a lemma about it. *)
Tactic Notation "step" uconstr(H) := rewrite (run_bind _ _ _ _ _ H).
Tactic Notation "step" uconstr(H) "by" tactic(t) := rewrite (run_bind _ _ _ _ _ H) by t.

(** ** Allocation *)

Class HasAllocs (S : Type) := {
  allocs_of : S -> list bool;
  with_allocs : list bool -> S -> S;
  allocs_of_with l s : allocs_of (with_allocs l s) = l;
  with_allocs_of s : with_allocs (allocs_of s) s = s;
  with_allocs_with l l' s : with_allocs l (with_allocs l' s) = with_allocs l s;
}.

(** The state of an operation that does nothing but allocate. *)
#[export] Program Instance list_HasAllocs : HasAllocs (list bool) := {|
  allocs_of l := l; with_allocs l _ := l |}.
Solve All Obligations with done.

Section Alloc.
Context {S : Type} `{HasAllocs S}.

(** [OICMalloc], [OICCalloc], [OICRealloc], [coap_malloc]: whether the call
    returns a block. *)
Definition alloc : M S bool := fun s =>
  match allocs_of s with [] => Some (true, s) | b :: l => Some (b, with_allocs l s) end.

Lemma alloc_ok s : allocs_of s = [] -> alloc s = Some (true, s).
Proof. intros E. unfold alloc. by rewrite E. Qed.

Lemma alloc_cons b l s : allocs_of s = b :: l -> alloc s = Some (b, with_allocs l s).
Proof. intros E. unfold alloc. by rewrite E. Qed.

(** An operation of a component whose state [T] is a part of [S], on the
    allocator of [S]. *)
Definition zoom {T A} `{HasAllocs T} (part : S -> T) (put : T -> S -> S) (m : M T A) : M S A := fun s =>
  match m (with_allocs (allocs_of s) (part s)) with
  | Some (a, t) => Some (a, with_allocs (allocs_of t) (put t s))
  | None => None
  end.

Lemma run_zoom {T A} `{HasAllocs T} part put (m : M T A) (s : S) a t :
  m (with_allocs (allocs_of s) (part s)) = Some (a, t) ->
  zoom part put m s = Some (a, with_allocs (allocs_of t) (put t s)).
Proof. intros E. unfold zoom. by rewrite E. Qed.

(** Two states that differ in what is left of the allocator's answers. *)
Definition allocated (s s' : S) : Prop := exists l, s' = with_allocs l s.

Lemma allocated_refl s : allocated s s.
Proof. exists (allocs_of s). by rewrite with_allocs_of. Qed.

Lemma allocated_trans s1 s2 s3 : allocated s1 s2 -> allocated s2 s3 -> allocated s1 s3.
Proof. intros [l ->] [l' ->]. exists l'. by rewrite with_allocs_with. Qed.

(** Nothing but allocations, and a defined outcome that satisfies [Q]; with an
    allocator that does not fail the state stays as it is and [R] holds. *)
Definition allocates {A} (m : M S A) (Q R : A -> Prop) : Prop :=
  forall s, exists a s', m s = Some (a, s') /\ allocated s s' /\ Q a /\
    (allocs_of s = [] -> s' = s /\ R a).

Lemma allocates_ret {A} (a : A) (Q R : A -> Prop) : Q a -> R a -> allocates (mret a) Q R.
Proof. intros HQ HR s. exists a, s. split; [done|]. split; [apply allocated_refl|done]. Qed.

Lemma allocates_alloc : allocates alloc (fun _ => True) (fun b => b = true).
Proof.
  intros s. unfold alloc. destruct (allocs_of s) as [|b l] eqn:E.
  - exists true, s. split; [done|]. split; [apply allocated_refl|done].
  - exists b, (with_allocs l s). split; [done|]. split; [by exists l|]. split; [done|]. intros [=].
Qed.

Lemma allocates_bind {A B} (m : M S A) (f : A -> M S B) (Q R : A -> Prop) (Q' R' : B -> Prop) :
  allocates m Q R -> (forall a, Q a -> allocates (f a) Q' (fun b => R a -> R' b)) ->
  allocates (m ≫= f) Q' R'.
Proof.
  intros Hm Hf s. destruct (Hm s) as (a & s1 & E1 & A1 & HQ & Hok).
  destruct (Hf a HQ s1) as (b & s2 & E2 & A2 & HQ' & Hok').
  exists b, s2. rewrite (run_bind _ _ _ _ _ E1). split; [done|].
  split; [by eapply allocated_trans|]. split; [done|].
  intros Hn. destruct (Hok Hn) as [-> HR]. destruct (Hok' Hn) as [-> HR']. auto.
Qed.

Lemma allocates_lift {A B} (x : ub A) a (f : A -> M S B) (Q R : B -> Prop) :
  x = Some a -> allocates (f a) Q R -> allocates (lift x ≫= f) Q R.
Proof. intros -> Hf s. rewrite (run_bind _ _ _ a s) by done. apply Hf. Qed.

Lemma allocates_weaken {A} (m : M S A) (Q R Q' R' : A -> Prop) :
  allocates m Q R -> (forall a, Q a -> Q' a) -> (forall a, Q a -> R a -> R' a) -> allocates m Q' R'.
Proof.
  intros Hm HQ HR s. destruct (Hm s) as (a & s' & E & A1 & Ha & Hok). exists a, s'.
  repeat (split; [by auto|]). intros Hn. destruct (Hok Hn). auto.
Qed.

(** An allocation and the two ways to go on. *)
Lemma allocates_if {A} (k : bool -> M S A) (Q R : A -> Prop) :
  allocates (k true) Q R -> allocates (k false) Q (fun _ => True) -> allocates (alloc ≫= k) Q R.
Proof.
  intros Ht Hf. eapply allocates_bind; [apply allocates_alloc|]. intros [] _.
  - eapply allocates_weaken; [exact Ht|done|auto].
  - eapply allocates_weaken; [exact Hf|done|done].
Qed.
End Alloc.
