(* ===== verification/Chain.v ===== *)
(** * Chain: singly linked nodes in a heap

  Shared by [ULinkList] and [UQueue]: both C containers keep a NULL
  terminated chain of [malloc]ed nodes.  A heap maps a location to a node;
  a location that is absent is unallocated or freed, so reading it is
  undefined behaviour.  [chain h p l] says that following [next] from [p]
  visits exactly the nodes [l], given as (location, payload) pairs. *)
From S2P Require Import Prelude.

Abbreviation loc := N.

Record node (A : Type) := Node { nd_data : A; nd_next : option loc }.
Arguments Node {A} _ _.
Arguments nd_data {A} _.
Arguments nd_next {A} _.

Create HintDb chain.

Section Chain.
Context {A : Type}.
Implicit Types (h : gmap loc (node A)) (p : option loc) (l : list (loc * A)).

Fixpoint chain (h : gmap loc (node A)) (p : option loc) (l : list (loc * A)) : Prop :=
  match l with
  | [] => p = None
  | (a, d) :: l' => p = Some a /\ exists nx, h !! a = Some (Node d nx) /\ chain h nx l'
  end.

(** [while (p->next) p = p->next], from a non-NULL [p]. *)
Fixpoint last_node (h : gmap loc (node A)) (p : loc) (fuel : nat) : ub loc :=
  match fuel with
  | O => None
  | S fuel =>
      n ← h !! p;
      match nd_next n with
      | None => Some p
      | Some q => last_node h q fuel
      end
  end.

(** [while (p->next != NULL && p->next != it) p = p->next]. *)
Fixpoint find_prev (h : gmap loc (node A)) (p it : loc) (fuel : nat) : ub loc :=
  match fuel with
  | O => None
  | S fuel =>
      n ← h !! p;
      match nd_next n with
      | None => Some p
      | Some q => if decide (q = it) then Some p else find_prev h q it fuel
      end
  end.

(** [p->next = nx]. *)
Definition set_next (h : gmap loc (node A)) (p : loc) (nx : option loc)
    : ub (gmap loc (node A)) :=
  n ← h !! p; Some (<[p := Node (nd_data n) nx]> h).

(** ** Structure of chains *)

Lemma chain_nil h p : chain h p [] <-> p = None.
Proof. done. Qed.

Lemma chain_None h l : chain h None l -> l = [].
Proof. destruct l as [|[a d] l]; [done|]. by intros [? _]. Qed.

Lemma chain_det h p l1 l2 : chain h p l1 -> chain h p l2 -> l1 = l2.
Proof.
  revert p l2. induction l1 as [|[a d] l1 IH]; intros p l2 H1 H2.
  - simpl in H1. subst. symmetry. by eapply chain_None.
  - destruct l2 as [|[b e] l2]; [naive_solver|].
    destruct H1 as [-> (n1 & Hn1 & H1)], H2 as [? (n2 & Hn2 & H2)]. simplify_eq.
    f_equal. eauto.
Qed.

Lemma chain_app h p l1 l2 :
  chain h p (l1 ++ l2) <-> exists q, chain h q l2 /\
    (forall l2' h', (forall a, a ∈ l1.*1 -> h' !! a = h !! a) ->
       chain h' q l2' -> chain h' p (l1 ++ l2')).
Proof.
  revert p. induction l1 as [|[a d] l1 IH]; intros p; simpl.
  - split.
    + intros Hc. exists p. split; [done|]. auto.
    + intros (q & Hc & Hrest). apply (Hrest l2 h); done.
  - split.
    + intros [-> (nx & Hnx & (q & Hq & Hrest)%IH)]. exists q. split; [done|].
      intros l2' h' Hh' Hc. split; [done|]. exists nx.
      rewrite Hh' by set_solver. split; [done|]. apply Hrest; set_solver.
    + intros (q & Hc & Hrest). by apply (Hrest l2 h).
Qed.

(** Chains only depend on their own nodes. *)
Lemma chain_frame h h' p l :
  (forall a, a ∈ l.*1 -> h' !! a = h !! a) -> chain h p l -> chain h' p l.
Proof.
  revert p. induction l as [|[a d] l IH]; intros p Hh; simpl; [done|].
  intros [-> (nx & Hnx & Hc)]. split; [done|]. exists nx.
  rewrite Hh by set_solver. split; [done|]. apply IH; set_solver.
Qed.

Lemma chain_lookup h p l a d :
  chain h p l -> (a, d) ∈ l -> exists nx, h !! a = Some (Node d nx).
Proof.
  revert p. induction l as [|[b e] l IH]; intros p; [set_solver|].
  intros [-> (nx & Hnx & Hc)] [?|?]%elem_of_cons; simplify_eq; eauto.
Qed.

Lemma chain_dom h p l a : chain h p l -> a ∈ l.*1 -> is_Some (h !! a).
Proof.
  intros Hc ([? d] & -> & Hin)%list_elem_of_fmap. simpl.
  destruct (chain_lookup _ _ _ _ _ Hc Hin) as [nx ->]. eauto.
Qed.

(** A heap chain never visits a location twice. *)
Lemma chain_NoDup h p l : chain h p l -> NoDup l.*1.
Proof.
  revert p. induction l as [|[a d] l IH]; intros p Hc; [constructor|].
  pose proof Hc as [-> (nx & Hnx & Hc')]. simpl. constructor; [|eauto].
  intros ([a' d'] & Heq & (l1 & l2 & ->)%list_elem_of_split)%list_elem_of_fmap. simpl in Heq. subst a'.
  apply chain_app in Hc' as (q & Hq & _).
  assert (q = Some a) as -> by (by destruct Hq).
  pose proof (chain_det _ _ _ _ Hc Hq) as Heq.
  apply (f_equal length) in Heq. simpl in Heq. rewrite length_app in Heq. simpl in Heq. lia.
Qed.

Lemma chain_length_size h p l : chain h p l -> (length l <= size h)%nat.
Proof.
  intros Hc. rewrite <- (length_fmap fst l).
  rewrite <- size_dom, <- (size_list_to_set (C := gset loc)) by (by eapply chain_NoDup).
  apply subseteq_size, elem_of_subseteq. intros a Ha%elem_of_list_to_set.
  apply elem_of_dom. by eapply chain_dom.
Qed.

(** ** The loops *)

Lemma last_node_spec h (p : loc) l a d fuel :
  chain h (Some p) (l ++ [(a, d)]) -> (length l < fuel)%nat ->
  last_node h p fuel = Some a.
Proof.
  revert p fuel. induction l as [|[b e] l IH]; intros p [|fuel] Hc Hf; try (simpl in Hf; lia).
  - destruct Hc as [? (nx & Hnx & ->)]. simplify_eq. simpl. by rewrite Hnx.
  - destruct Hc as [? (nx & Hnx & Hc)]. simplify_eq. simpl. rewrite Hnx. simpl.
    destruct nx as [q|]; [|apply chain_None in Hc; by destruct l].
    apply IH; [done|]. simpl in Hf. lia.
Qed.

(** The predecessor search stops at the node before [it] when [it] occurs
    after the head, and at the last node otherwise. *)
Lemma find_prev_found h (p : loc) l1 b e it d l2 fuel :
  chain h (Some p) (l1 ++ (b, e) :: (it, d) :: l2) -> (length l1 < fuel)%nat ->
  find_prev h p it fuel = Some b.
Proof.
  intros Hc. pose proof (chain_NoDup _ _ _ Hc) as Hnd. revert p fuel Hc Hnd.
  induction l1 as [|[c f] l1 IH]; intros p [|fuel] Hc Hnd Hf; try (simpl in Hf; lia).
  - destruct Hc as [? (nx & Hnx & [-> _])]. simplify_eq. simpl. rewrite Hnx. simpl.
    by rewrite decide_True.
  - destruct Hc as [? (nx & Hnx & Hc)]. simplify_eq. simpl. rewrite Hnx. simpl.
    destruct nx as [q|]; [|apply chain_None in Hc; by destruct l1].
    simpl in Hnd. apply NoDup_cons in Hnd as [_ Hnd].
    rewrite decide_False.
    + apply IH; [done|done|]. simpl in Hf. lia.
    + intros ->. destruct l1 as [|[c' f'] l1]; destruct Hc as [? _]; simplify_eq.
      * simpl in Hnd. apply NoDup_cons in Hnd as [Hn _]. apply Hn. set_solver.
      * simpl in Hnd. apply NoDup_cons in Hnd as [Hn _]. apply Hn.
        rewrite fmap_app. set_solver.
Qed.

Lemma find_prev_missing h (p : loc) l a d it fuel :
  chain h (Some p) (l ++ [(a, d)]) -> it ∉ (l ++ [(a, d)]).*1 -> (length l < fuel)%nat ->
  find_prev h p it fuel = Some a.
Proof.
  revert p fuel. induction l as [|[b e] l IH]; intros p [|fuel] Hc Hni Hf;
    try (simpl in Hf; lia).
  - destruct Hc as [? (nx & Hnx & ->)]. simplify_eq. simpl. by rewrite Hnx.
  - destruct Hc as [? (nx & Hnx & Hc)]. simplify_eq. simpl. rewrite Hnx. simpl.
    destruct nx as [q|]; [|apply chain_None in Hc; by destruct l].
    rewrite decide_False.
    + apply IH; [done| |simpl in Hf; lia].
      intros Hin. apply Hni. simpl. by apply elem_of_cons; right.
    + intros ->. apply Hni. simpl. apply elem_of_cons; right.
      destruct l as [|[c f] l]; destruct Hc as [? _]; simplify_eq; simpl; apply elem_of_cons; by left.
Qed.

(** ** Updates *)

(** Linking a freshly allocated node at the end. *)
Lemma chain_snoc h p l a d b x :
  chain h p (l ++ [(a, d)]) -> h !! b = None ->
  exists h', set_next (<[b := Node x None]> h) a (Some b) = Some h' /\
    h' = <[a := Node d (Some b)]> (<[b := Node x None]> h) /\
    chain h' p ((l ++ [(a, d)]) ++ [(b, x)]).
Proof.
  intros Hc Hb. pose proof (chain_NoDup _ _ _ Hc) as Hnd. pose proof Hc as Hc0.
  assert (Hab : a <> b).
  { intros ->. destruct (chain_dom h p _ b Hc); [|congruence].
    rewrite fmap_app. set_solver. }
  apply chain_app in Hc as (q & [-> (nx & Ha & ->)] & Hrest).
  unfold set_next. rewrite lookup_insert_ne, Ha by done. simpl.
  eexists. split; [reflexivity|]. split; [reflexivity|].
  rewrite <- app_assoc. apply Hrest.
  - intros c Hc. rewrite fmap_app in Hnd. simpl in Hnd.
    apply NoDup_app in Hnd as (_ & Hnd & _).
    rewrite lookup_insert_ne; [|set_solver].
    rewrite lookup_insert_ne; [done|]. intros ->.
    assert (is_Some (h !! c)) as [? ?]; [|congruence].
    eapply chain_dom; [done|]. rewrite fmap_app. set_solver.
  - simpl. split; [done|]. exists (Some b). rewrite lookup_insert_eq. split; [done|].
    split; [done|]. exists None. rewrite lookup_insert_ne, lookup_insert_eq by done. done.
Qed.

(** Unlinking and freeing the node after [b]. *)
Lemma chain_unlink h p l1 b e it d l2 nx :
  chain h p (l1 ++ (b, e) :: (it, d) :: l2) -> h !! it = Some (Node d nx) ->
  chain (delete it (<[b := Node e nx]> h)) p (l1 ++ (b, e) :: l2).
Proof.
  intros Hc Hit. pose proof (chain_NoDup _ _ _ Hc) as Hnd.
  rewrite fmap_app in Hnd. simpl in Hnd.
  apply NoDup_app in Hnd as (_ & Hd & Hnd).
  apply NoDup_cons in Hnd as [Hb Hnd]. apply NoDup_cons in Hnd as [Hi _].
  apply chain_app in Hc as (q & [-> (nb & Hb' & [-> (ni & Hi' & Hc)])] & Hrest).
  simplify_eq. apply Hrest.
  - intros c Hcin. specialize (Hd _ Hcin).
    rewrite lookup_delete_ne, lookup_insert_ne; [done|set_solver|set_solver].
  - split; [done|]. eexists.
    rewrite lookup_delete_ne, lookup_insert_eq by set_solver. split; [done|].
    eapply chain_frame; [|done]. intros c Hcin.
    rewrite lookup_delete_ne, lookup_insert_ne; [done|set_solver|set_solver].
Qed.

(** Freeing the head. *)
Lemma chain_pop h a d l nx :
  chain h (Some a) ((a, d) :: l) -> h !! a = Some (Node d nx) ->
  chain (delete a h) nx l.
Proof.
  intros Hc Ha. pose proof (chain_NoDup _ _ _ Hc) as Hnd.
  apply NoDup_cons in Hnd as [Hni _].
  destruct Hc as [_ (nx' & ? & Hc)]. simplify_eq.
  eapply chain_frame; [|done]. intros c Hin.
  rewrite lookup_delete_ne; [done|]. set_solver.
Qed.

Lemma chain_push h p l b x :
  chain h p l -> h !! b = None -> chain (<[b := Node x p]> h) (Some b) ((b, x) :: l).
Proof.
  intros Hc Hb. split; [done|]. exists p. rewrite lookup_insert_eq. split; [done|].
  eapply chain_frame; [|done]. intros c Hin. rewrite lookup_insert_ne; [done|].
  intros ->. destruct (chain_dom _ _ _ _ Hc Hin). congruence.
Qed.
End Chain.

#[export] Hint Resolve chain_push chain_pop chain_NoDup chain_length_size : chain.
#[global] Arguments last_node {A} _ _ _ : simpl never.
#[global] Arguments find_prev {A} _ _ _ _ : simpl never.
