(* ===== verification/UArrayList.v ===== *)
(** * UArrayList: the growable pointer array of [connectivity/common]

  Models [resource/csdk/connectivity/common/src/uarraylist.c].  The list
  object is the record [u_arraylist_t]; its heap block [data] is a list of
  slots, so a [malloc]ed slot that was never written ([Indet]) differs from
  a NULL pointer ([Val None]).  A nullable [u_arraylist_t *] argument is an
  [option].  Each allocation takes an oracle bit: [false] when the C
  allocator returns NULL.  Accesses outside the block and reads of an
  indeterminate slot are undefined ([None]).

  The theorems relate every operation to the mathematical list
  [contents l] of the first [length] slots. *)
From S2P Require Import Prelude.

Section UArrayList.
Context {A : Type} `{EqDecision A}.

(** A [void *] slot of the data block. *)
Inductive slot :=
| Indet
| Val (p : option A).

Record u_arraylist_t := {
  data : list slot;
  capacity : Z;
  length_ : Z;
}.

Definition PTR_SIZE : Z := 8.
Definition U_ARRAYLIST_DEFAULT_CAPACITY : Z := 1.

(** No C object is larger than [PTRDIFF_MAX] bytes. *)
Definition PTRDIFF_MAX : Z := 2 ^ 63 - 1.

(** [OICRealloc(ptr, bytes)] for a non-NULL [ptr]: on success a block of
    [bytes / 8] slots that keeps the common prefix.  A request above
    [PTRDIFF_MAX] always fails. *)
Definition realloc_slots (ok : bool) (d : list slot) (bytes : Z) : option (list slot) :=
  if ok && (bytes <=? PTRDIFF_MAX) then
    let n := Z.to_nat (bytes / PTR_SIZE) in
    Some (take n d ++ replicate (n - length d) Indet)
  else None.

(** Reading a slot of the block: out of bounds or indeterminate is UB. *)
Definition read_slot (d : list slot) (i : Z) : ub (option A) :=
  match d !! Z.to_nat i with
  | Some (Val p) => Some p
  | _ => None
  end.

(** Writing a slot of the block: out of bounds is UB. *)
Definition write_slot (d : list slot) (i : Z) (p : option A) : ub (list slot) :=
  if decide (Z.to_nat i < length d)%nat then Some (<[Z.to_nat i := Val p]> d) else None.

(** [memset(data + from, 0, n * sizeof(ptr))]. *)
Definition zero_slots (d : list slot) (from n : Z) : ub (list slot) :=
  if decide (from + n <= Z.of_nat (length d)) then
    Some (take (Z.to_nat from) d ++ replicate (Z.to_nat n) (Val None)
          ++ drop (Z.to_nat (from + n)) d)
  else None.

(** [memmove(&data[dst], &data[src], n * sizeof(ptr))] with [dst <= src]. *)
Definition move_slots (d : list slot) (dst src n : Z) : ub (list slot) :=
  if decide (src + n <= Z.of_nat (length d)) then
    Some (take (Z.to_nat dst) d ++ take (Z.to_nat n) (drop (Z.to_nat src) d)
          ++ drop (Z.to_nat (dst + n)) d)
  else None.

Definition u_arraylist_create (ok1 ok2 : bool) : option u_arraylist_t :=
  if ok1 then
    if ok2 then
      Some {| data := replicate (Z.to_nat U_ARRAYLIST_DEFAULT_CAPACITY) Indet;
              capacity := U_ARRAYLIST_DEFAULT_CAPACITY; length_ := 0 |}
    else None
  else None.

(** Frees the block and the object and stores NULL in [*list]. *)
Definition u_arraylist_free (lst : option (option u_arraylist_t))
    : option (option u_arraylist_t) :=
  match lst with
  | None => None
  | Some None => Some None
  | Some (Some _) => Some None
  end.

Definition u_arraylist_reserve (ok : bool) (lst : option u_arraylist_t) (count : Z)
    : bool * option u_arraylist_t :=
  match lst with
  | Some l =>
      if capacity l <? count then
        match realloc_slots ok (data l) (u64 (count * PTR_SIZE)) with
        | None => (false, Some l)
        | Some tmp => (true, Some {| data := tmp; capacity := count; length_ := length_ l |})
        end
      else (true, Some l)
  | None => (true, None)
  end.

Definition u_arraylist_shrink_to_fit (ok : bool) (lst : option u_arraylist_t)
    : option u_arraylist_t :=
  match lst with
  | None => None
  | Some l =>
      if (length_ l <? capacity l) && (U_ARRAYLIST_DEFAULT_CAPACITY <=? length_ l) then
        match realloc_slots ok (data l) (u64 (length_ l * PTR_SIZE)) with
        | None => Some l
        | Some tmp =>
            Some {| data := tmp; capacity := length_ l; length_ := length_ l |}
        end
      else Some l
  end.

Definition u_arraylist_get (lst : option u_arraylist_t) (index : Z) : ub (option A) :=
  match lst with
  | None => Some None
  | Some l => if index <? length_ l then read_slot (data l) index else Some None
  end.

(** The [for] loop shared by [get_index] and [contains]: [fuel] bounds the
    number of iterations left. *)
Fixpoint find_from (l : u_arraylist_t) (p : option A) (i : Z) (fuel : nat) : ub (option Z) :=
  match fuel with
  | O => Some None
  | S fuel =>
      if i <? length_ l then
        x ← read_slot (data l) i;
        if decide (p = x) then Some (Some i) else find_from l p (i + 1) fuel
      else Some None
  end.

Definition u_arraylist_get_index (lst : option u_arraylist_t) (p : option A)
    : ub (option Z) :=
  match lst, p with
  | None, _ => Some None
  | _, None => Some None
  | Some l, Some _ => find_from l p 0 (S (Z.to_nat (length_ l)))
  end.

Definition u_arraylist_contains (lst : option u_arraylist_t) (p : option A) : ub bool :=
  match lst with
  | None => Some false
  | Some l =>
      r ← find_from l p 0 (S (Z.to_nat (length_ l)));
      Some (match r with Some _ => true | None => false end)
  end.

(** The growth factor of 1.5 in integer arithmetic. *)
Definition grown (cap : Z) : Z := u64 (u64 (cap * 3) + 1) / 2.

Definition u_arraylist_add (ok : bool) (lst : option u_arraylist_t) (p : option A)
    : ub (bool * option u_arraylist_t) :=
  match lst with
  | None => Some (false, None)
  | Some l =>
      let append (l : u_arraylist_t) :=
        d ← write_slot (data l) (length_ l) p;
        Some (true, Some {| data := d; capacity := capacity l;
                            length_ := u64 (length_ l + 1) |}) in
      if capacity l <=? length_ l then
        let new_capacity := grown (capacity l) in
        match realloc_slots ok (data l) (u64 (new_capacity * PTR_SIZE)) with
        | None => Some (false, Some l)
        | Some tmp =>
            d ← zero_slots tmp (capacity l) (u64 (new_capacity - capacity l));
            append {| data := d; capacity := new_capacity; length_ := length_ l |}
        end
      else append l
  end.

Definition u_arraylist_remove (lst : option u_arraylist_t) (index : Z)
    : ub (option A * option u_arraylist_t) :=
  match lst with
  | None => Some (None, None)
  | Some l =>
      if length_ l <=? index then Some (None, Some l)
      else
        removed ← read_slot (data l) index;
        d ← (if index <? u64 (length_ l - 1)
             then move_slots (data l) index (index + 1) (length_ l - index - 1)
             else Some (data l));
        Some (removed, Some {| data := d; capacity := capacity l;
                               length_ := u64 (length_ l - 1) |})
  end.

Definition u_arraylist_length (lst : option u_arraylist_t) : Z :=
  match lst with None => 0 | Some l => length_ l end.

(** The pointers handed to [OICFree] by [u_arraylist_destroy], in order;
    the list object is freed afterwards. *)
Fixpoint destroy_from (l : u_arraylist_t) (i : Z) (fuel : nat) : ub (list (option A)) :=
  match fuel with
  | O => Some []
  | S fuel =>
      if i <? length_ l then
        x ← read_slot (data l) i; rest ← destroy_from l (i + 1) fuel; Some (x :: rest)
      else Some []
  end.

Definition u_arraylist_destroy (lst : option u_arraylist_t) : ub (list (option A)) :=
  match lst with
  | None => Some []
  | Some l => destroy_from l 0 (S (Z.to_nat (length_ l)))
  end.

(** ** Representation invariant *)

(** [rep l xs]: the object [l] is well formed and stores exactly [xs]. *)
Record rep (l : u_arraylist_t) (xs : list (option A)) : Prop := {
  rep_length : length_ l = Z.of_nat (length xs);
  rep_cap_pos : 1 <= capacity l;
  rep_cap_bytes : capacity l * PTR_SIZE <= PTRDIFF_MAX;
  rep_block : length (data l) = Z.to_nat (capacity l);
  rep_fits : Z.of_nat (length xs) <= capacity l;
  rep_vals : take (length xs) (data l) = Val <$> xs;
}.

Lemma rep_slot l xs i x :
  rep l xs -> xs !! i = Some x -> data l !! i = Some (Val x).
Proof.
  intros Hr Hx. pose proof (lookup_lt_Some _ _ _ Hx).
  rewrite <- (lookup_take_lt (data l) (length xs)) by done.
  by rewrite (rep_vals _ _ Hr), list_lookup_fmap, Hx.
Qed.

Lemma rep_read l xs i x :
  rep l xs -> xs !! Z.to_nat i = Some x -> read_slot (data l) i = Some x.
Proof. intros Hr Hx. unfold read_slot. by rewrite (rep_slot _ _ _ _ Hr Hx). Qed.

Lemma rep_read_lt l xs i :
  rep l xs -> 0 <= i < length_ l -> exists x, xs !! Z.to_nat i = Some x /\
    read_slot (data l) i = Some x.
Proof.
  intros Hr Hi. rewrite (rep_length _ _ Hr) in Hi.
  destruct (lookup_Some_le xs (Z.to_nat i)) as [x Hx]; [lia|].
  exists x. split; [done|]. by eapply rep_read.
Qed.

Lemma realloc_slots_ok d bytes : bytes <= PTRDIFF_MAX ->
  exists tmp, realloc_slots true d bytes = Some tmp /\
    length tmp = Z.to_nat (bytes / PTR_SIZE) /\
    forall n, (n <= length d)%nat -> (n <= length tmp)%nat -> take n tmp = take n d.
Proof.
  intros Hb. unfold realloc_slots. rewrite (proj2 (Z.leb_le _ _)) by done.
  eexists. split; [reflexivity|]. split.
  - rewrite length_app, length_take, length_replicate. lia.
  - intros n Hd Ht. rewrite length_app, length_take, length_replicate in Ht.
    rewrite take_app_le by (rewrite length_take; lia).
    rewrite take_take. f_equal. lia.
Qed.

(** A failed reallocation is one the allocator refuses. *)
Lemma realloc_slots_None ok d bytes :
  realloc_slots ok d bytes = None <-> ok = false \/ PTRDIFF_MAX < bytes.
Proof.
  unfold realloc_slots. destruct ok; simpl; [|naive_solver].
  destruct (Z.leb_spec bytes PTRDIFF_MAX); split; try done; [intros [|]; [done|lia]|by right].
Qed.

Lemma bytes_exact c : 0 <= c -> c * PTR_SIZE < 2 ^ 64 -> u64 (c * PTR_SIZE) / PTR_SIZE = c.
Proof.
  intros ??. rewrite wrap_small by (unfold PTR_SIZE, PTRDIFF_MAX in *; lia).
  apply Z.div_mul. unfold PTR_SIZE. lia.
Qed.

(** Replacing the block by a reallocated one of [c] slots keeps [rep]. *)
Lemma rep_resize l xs tmp c :
  rep l xs -> Z.of_nat (length xs) <= c -> 1 <= c -> c * PTR_SIZE <= PTRDIFF_MAX ->
  length tmp = Z.to_nat c ->
  take (length xs) tmp = take (length xs) (data l) ->
  rep {| data := tmp; capacity := c; length_ := length_ l |} xs.
Proof.
  intros Hr ????Htake. destruct Hr.
  constructor; simpl; try done; congruence.
Qed.

(** Appending in place when a slot is free. *)
Lemma rep_append l xs p :
  rep l xs -> Z.of_nat (length xs) < capacity l ->
  exists d, write_slot (data l) (length_ l) p = Some d /\
    rep {| data := d; capacity := capacity l; length_ := u64 (length_ l + 1) |} (xs ++ [p]).
Proof.
  intros Hr Hlt. destruct Hr as [Hlen Hpos Hbytes Hblk Hfit Hvals].
  unfold write_slot. rewrite Hlen, Nat2Z.id.
  rewrite decide_True by lia.
  eexists. split; [reflexivity|].
  constructor; simpl; rewrite ?length_insert, ?length_app; simpl; try lia.
  - rewrite wrap_small; unfold PTR_SIZE, PTRDIFF_MAX in *; lia.
  - replace (length xs + 1)%nat with (S (length xs)) by lia.
    by rewrite take_insert_snoc, Hvals, fmap_app by lia.
Qed.

Lemma grown_spec c :
  1 <= c < 2 ^ 60 -> grown c = (c * 3 + 1) / 2 /\ c < grown c /\ grown c * PTR_SIZE < 2 ^ 64.
Proof.
  intros Hc. unfold grown, PTR_SIZE.
  rewrite !wrap_small; rewrite ?wrap_small; [|lia..].
  pose proof (Z.div_mod (c * 3 + 1) 2). pose proof (Z.mod_pos_bound (c * 3 + 1) 2). lia.
Qed.

(** ** The operations against the list specification *)

Lemma cap_bound l xs : rep l xs -> 1 <= capacity l < 2 ^ 60.
Proof. intros []. unfold PTR_SIZE, PTRDIFF_MAX in *. lia. Qed.

Lemma rep_size l xs : rep l xs -> Z.of_nat (length xs) < 2 ^ 60.
Proof. intros []. unfold PTR_SIZE, PTRDIFF_MAX in *. lia. Qed.

(** Growing the block, when the allocator grants it. *)
Lemma rep_grow l xs tmp :
  rep l xs -> realloc_slots true (data l) (u64 (grown (capacity l) * PTR_SIZE)) = Some tmp ->
  exists d, zero_slots tmp (capacity l) (u64 (grown (capacity l) - capacity l)) = Some d /\
    rep {| data := d; capacity := grown (capacity l); length_ := length_ l |} xs.
Proof.
  intros Hr Htmp. pose proof Hr as [Hlen Hpos Hbytes Hblk Hfit Hvals].
  destruct (grown_spec (capacity l)) as (Hg & Hgt & Hgb); [by eapply cap_bound|].
  assert (Hle : grown (capacity l) * PTR_SIZE <= PTRDIFF_MAX).
  { destruct (decide (PTRDIFF_MAX < u64 (grown (capacity l) * PTR_SIZE))) as [Hbig|Hle].
    - rewrite (proj2 (realloc_slots_None true (data l) _)) in Htmp by (by right). done.
    - rewrite wrap_small in Hle; unfold PTR_SIZE, PTRDIFF_MAX in *; lia. }
  destruct (realloc_slots_ok (data l) (u64 (grown (capacity l) * PTR_SIZE)))
    as (tmp' & Heq & Htl & Htake); [rewrite wrap_small; unfold PTR_SIZE, PTRDIFF_MAX in *; lia|].
  assert (tmp' = tmp) as -> by congruence. rewrite bytes_exact in Htl by lia.
  rewrite (wrap_small 64 (grown (capacity l) - capacity l)) by (unfold PTR_SIZE, PTRDIFF_MAX in *; lia).
  unfold zero_slots. rewrite decide_True by lia. eexists. split; [done|].
  apply (rep_resize l); try done; [lia|lia| |].
  - rewrite !length_app, length_take, length_replicate, length_drop. lia.
  - rewrite take_app_le by (rewrite length_take; lia).
    rewrite take_take, Nat.min_l by lia. apply Htake; lia.
Qed.

Lemma add_rep (ok : bool) (l : u_arraylist_t) (xs : list (option A))
    (p : option A) :
  rep l xs ->
  exists b l', u_arraylist_add ok (Some l) p = Some (b, Some l') /\
    (if b : bool then rep l' (xs ++ [p]) else l' = l) /\
    (length_ l < capacity l -> b = true) /\
    (ok = true -> Z.of_nat (length xs) < 2 ^ 58 -> b = true).
Proof.
  intros Hr. pose proof Hr as [Hlen Hpos Hbytes Hblk Hfit Hvals].
  unfold u_arraylist_add.
  destruct (Z.leb_spec (capacity l) (length_ l)) as [Hfull|Hfree].
  - destruct (realloc_slots ok (data l) _) as [tmp|] eqn:Htmp.
    + assert (ok = true) as ->.
      { destruct ok; [done|]. by rewrite (proj2 (realloc_slots_None false _ _)) in Htmp by (by left). }
      destruct (rep_grow l xs tmp Hr Htmp) as (d & -> & Hr2). simpl.
      destruct (grown_spec (capacity l)) as (_ & Hgt & _); [by eapply cap_bound|].
      eapply (rep_append _ _ p) in Hr2 as (d' & Hd & Hr3); [|simpl; lia].
      simpl in Hd, Hr3. rewrite Hd. simpl. eauto 8.
    + exists false, l. split; [done|]. split; [done|]. split; [lia|]. intros -> Hsmall.
      apply realloc_slots_None in Htmp as [|Hbig]; [done|].
      destruct (grown_spec (capacity l)) as (Hg & Hgt & Hgb); [by eapply cap_bound|].
      rewrite wrap_small in Hbig by (unfold PTR_SIZE, PTRDIFF_MAX in *; lia).
      rewrite Hg in Hbig. unfold PTR_SIZE, PTRDIFF_MAX in *.
      pose proof (Z.mul_div_le (capacity l * 3 + 1) 2). lia.
  - destruct (rep_append l xs p Hr) as (d & -> & Hr2); [lia|]. simpl. eauto 8.
Qed.

(** [u_arraylist_add] on a well-formed list is always defined: it either
    appends exactly [p], or the allocator refused to grow the full block and
    it reports [false] with the list as it was.  A free slot is enough for
    success whatever the allocator answers. *)
Theorem u_arraylist_add_refines (ok : bool) (l : u_arraylist_t) (xs : list (option A))
    (p : option A) :
  rep l xs ->
  exists b l', u_arraylist_add ok (Some l) p = Some (b, Some l') /\
    (if b : bool then rep l' (xs ++ [p]) else l' = l) /\
    (length_ l < capacity l -> b = true) /\
    (ok = true -> Z.of_nat (length xs) < 2 ^ 58 -> b = true).
Proof. apply add_rep. Qed.

Lemma get_rep (l : u_arraylist_t) (xs : list (option A)) (i : Z) :
  rep l xs -> 0 <= i ->
  u_arraylist_get (Some l) i = Some (default None (xs !! Z.to_nat i)).
Proof.
  intros Hr Hi. unfold u_arraylist_get.
  destruct (Z.ltb_spec i (length_ l)).
  - destruct (rep_read_lt l xs i Hr) as (x & Hx & ->); [lia|]. by rewrite Hx.
  - rewrite lookup_ge_None_2; [done|]. rewrite (rep_length _ _ Hr) in *. lia.
Qed.

Lemma move_slots_delete l xs i :
  rep l xs -> 0 <= i -> i < Z.of_nat (length xs) - 1 ->
  exists d, move_slots (data l) i (i + 1) (length_ l - i - 1) = Some d /\
    length d = length (data l) /\
    take (length xs - 1) d = Val <$> delete (Z.to_nat i) xs.
Proof.
  intros [Hlen Hpos Hbytes Hblk Hfit Hvals] Hi Hlt.
  unfold move_slots. rewrite Hlen, decide_True by lia.
  eexists. split; [reflexivity|]. split.
  - rewrite !length_app, !length_take, !length_drop. lia.
  - rewrite delete_take_drop, fmap_app, fmap_take, fmap_drop, <- Hvals.
    replace (Z.to_nat (i + 1)) with (S (Z.to_nat i)) by lia.
    replace (Z.to_nat (Z.of_nat (length xs) - i - 1)) with (length xs - S (Z.to_nat i))%nat
      by lia.
    rewrite take_take, Nat.min_l by lia.
    rewrite skipn_firstn_comm, app_assoc, take_app_le.
    + rewrite take_ge; [done|]. rewrite length_app, !length_take, length_drop. lia.
    + rewrite length_app, !length_take, length_drop. lia.
Qed.

Lemma remove_rep (l : u_arraylist_t) (xs : list (option A)) (i : Z) :
  rep l xs -> 0 <= i ->
  match xs !! Z.to_nat i with
  | Some x => exists l', u_arraylist_remove (Some l) i = Some (x, Some l') /\
                rep l' (delete (Z.to_nat i) xs)
  | None => u_arraylist_remove (Some l) i = Some (None, Some l)
  end.
Proof.
  intros Hr Hi. pose proof Hr as [Hlen Hpos Hbytes Hblk Hfit Hvals].
  unfold u_arraylist_remove. destruct (xs !! Z.to_nat i) as [x|] eqn:Hx.
  - pose proof (lookup_lt_Some _ _ _ Hx) as Hlt.
    rewrite (proj2 (Z.leb_gt _ _)) by lia.
    rewrite (rep_read _ _ _ _ Hr Hx). simpl.
    assert (u64 (length_ l - 1) = length_ l - 1) as ->
      by (apply wrap_small; unfold PTR_SIZE, PTRDIFF_MAX in *; lia).
    assert (length (delete (Z.to_nat i) xs) = length xs - 1)%nat as Hdl
      by (by rewrite length_delete).
    destruct (Z.ltb_spec i (length_ l - 1)).
    + destruct (move_slots_delete l xs i Hr) as (d & -> & Hd & Htake); [lia..|].
      simpl. eexists. split; [reflexivity|].
      constructor; simpl; rewrite ?Hdl; try lia; done || congruence.
    + simpl. eexists. split; [reflexivity|].
      constructor; simpl; rewrite ?Hdl; try lia.
      rewrite delete_take_drop, drop_ge, app_nil_r by lia.
      rewrite fmap_take, <- Hvals, take_take. f_equal. lia.
  - apply lookup_ge_None_1 in Hx. by rewrite (proj2 (Z.leb_le _ _)) by lia.
Qed.

(** [u_arraylist_get] and [u_arraylist_remove] agree with the list: below
    [length] the call returns the stored pointer, and removal closes the gap
    keeping the order of the others; at or past the end both return NULL and
    nothing changes.  Neither ever reads an indeterminate slot. *)
Theorem u_arraylist_get_remove_refine (l : u_arraylist_t) (xs : list (option A)) (i : Z) :
  rep l xs -> 0 <= i ->
  u_arraylist_get (Some l) i = Some (default None (xs !! Z.to_nat i)) /\
  match xs !! Z.to_nat i with
  | Some x => exists l', u_arraylist_remove (Some l) i = Some (x, Some l') /\
                rep l' (delete (Z.to_nat i) xs)
  | None => u_arraylist_remove (Some l) i = Some (None, Some l)
  end.
Proof. intros Hr Hi. split; [by apply get_rep|by apply remove_rep]. Qed.

(** [find_from] is a left-to-right search for the first occurrence. *)
Lemma find_from_spec l xs p fuel i :
  rep l xs -> 0 <= i -> Z.of_nat (length xs) < i + Z.of_nat fuel ->
  find_from l p i fuel =
    Some ((fun r => i + Z.of_nat r.1) <$> list_find (p =.) (drop (Z.to_nat i) xs)).
Proof.
  intros Hr. revert i. induction fuel as [|fuel IH]; intros i Hi Hfuel.
  { rewrite drop_ge by lia. done. }
  simpl. destruct (Z.ltb_spec i (length_ l)).
  - destruct (rep_read_lt l xs i Hr) as (x & Hx & ->); [lia|]. simpl.
    rewrite (drop_S _ _ _ Hx). simpl. case_decide; simpl.
    + by rewrite Z.add_0_r.
    + rewrite IH by lia.
      replace (Z.to_nat (i + 1)) with (S (Z.to_nat i)) by lia.
      destruct (list_find _ _) as [[n y]|]; simpl; [|done]. do 2 f_equal. lia.
  - rewrite drop_ge; [done|]. rewrite (rep_length _ _ Hr) in *. lia.
Qed.

Lemma find_from_all l xs p :
  rep l xs ->
  find_from l p 0 (S (Z.to_nat (length_ l))) =
    Some ((fun r => Z.of_nat r.1) <$> list_find (p =.) xs).
Proof.
  intros Hr. rewrite (find_from_spec _ xs) by (try done; rewrite (rep_length _ _ Hr); lia).
  done.
Qed.

(** [u_arraylist_get_index] finds the first index that holds [p], and
    fails exactly when [p] is not stored. *)
Theorem u_arraylist_get_index_spec (l : u_arraylist_t) (xs : list (option A)) (q : A) :
  rep l xs ->
  u_arraylist_get_index (Some l) (Some q) =
    Some ((fun r => Z.of_nat r.1) <$> list_find (Some q =.) xs).
Proof. intros Hr. by apply find_from_all. Qed.

Lemma u_arraylist_contains_spec l xs p :
  rep l xs -> u_arraylist_contains (Some l) p = Some (bool_decide (p ∈ xs)).
Proof.
  intros Hr. unfold u_arraylist_contains. rewrite (find_from_all _ _ _ Hr). simpl.
  destruct (list_find _ xs) as [[n y]|] eqn:E; simpl; f_equal; symmetry.
  - apply list_find_Some in E as (Hn & <- & _).
    by apply bool_decide_eq_true, list_elem_of_lookup_2 with n.
  - apply list_find_None in E. apply bool_decide_eq_false. intros Hin.
    rewrite Forall_forall in E. by apply (E p).
Qed.

Lemma u_arraylist_create_rep :
  exists l, u_arraylist_create true true = Some l /\ rep l [].
Proof.
  eexists. split; [reflexivity|]. constructor; simpl; try done; lia.
Qed.

(** [u_arraylist_reserve] and [u_arraylist_shrink_to_fit] only change the
    capacity: the stored list is the same whatever the allocator answers. *)
Theorem u_arraylist_capacity_ops_keep_contents
    (ok : bool) (l : u_arraylist_t) (xs : list (option A)) (count : Z) :
  rep l xs -> 0 <= count -> count * PTR_SIZE < 2 ^ 64 ->
  (exists l', (u_arraylist_reserve ok (Some l) count).2 = Some l' /\ rep l' xs /\
     ((u_arraylist_reserve ok (Some l) count).1 = true -> count <= capacity l')) /\
  (exists l', u_arraylist_shrink_to_fit ok (Some l) = Some l' /\ rep l' xs /\
     (ok = true -> xs <> [] -> capacity l' = length_ l')).
Proof.
  intros Hr Hc0 Hc. pose proof Hr as [Hlen Hpos Hbytes Hblk Hfit Hvals].
  assert (Hgen : forall c tmp, realloc_slots ok (data l) (u64 (c * PTR_SIZE)) = Some tmp ->
    1 <= c -> Z.of_nat (length xs) <= c -> c * PTR_SIZE < 2 ^ 64 ->
    rep {| data := tmp; capacity := c; length_ := length_ l |} xs).
  { intros c tmp Htmp ? ? Hc64.
    assert (ok = true /\ u64 (c * PTR_SIZE) <= PTRDIFF_MAX) as [-> Hle].
    { unfold realloc_slots in Htmp. destruct (ok && _) eqn:E; [|done]. by bool_to_prop. }
    rewrite wrap_small in Hle by (unfold PTR_SIZE, PTRDIFF_MAX in *; lia).
    destruct (realloc_slots_ok (data l) (u64 (c * PTR_SIZE))) as (tmp' & Heq & Htl & Htake);
      [rewrite wrap_small; unfold PTR_SIZE, PTRDIFF_MAX in *; lia|].
    rewrite bytes_exact in Htl by lia.
    assert (tmp' = tmp) as -> by congruence.
    apply (rep_resize l); try done. apply Htake; lia. }
  split.
  - unfold u_arraylist_reserve. destruct (Z.ltb_spec (capacity l) count); [|by naive_solver].
    destruct (realloc_slots ok (data l) _) as [tmp|] eqn:E; simpl; [|by naive_solver].
    eexists. split; [done|]. split; [|simpl; lia]. apply Hgen; try done; lia.
  - unfold u_arraylist_shrink_to_fit.
    destruct (_ && _) eqn:Hb.
    + apply andb_true_iff in Hb as [Hb1%Z.ltb_lt Hb2%Z.leb_le].
      unfold U_ARRAYLIST_DEFAULT_CAPACITY in Hb2.
      destruct (realloc_slots ok (data l) _) as [tmp|] eqn:E.
      * eexists. split; [done|]. split; [|done]. apply Hgen; try done; unfold PTR_SIZE, PTRDIFF_MAX in *; lia.
      * eexists. split; [done|]. split; [done|]. intros ->.
        apply realloc_slots_None in E as [|E]; [done|].
        rewrite wrap_small in E; unfold PTR_SIZE, PTRDIFF_MAX in *; lia.
    + eexists. split; [done|]. split; [done|]. intros _ Hne.
      apply andb_false_iff in Hb as [Hb%Z.ltb_ge|Hb%Z.leb_gt]; [lia|].
      unfold U_ARRAYLIST_DEFAULT_CAPACITY in Hb.
      destruct xs; [done|]. simpl in *. lia.
Qed.

Lemma u_arraylist_destroy_all l xs :
  rep l xs -> u_arraylist_destroy (Some l) = Some xs.
Proof.
  intros Hr. unfold u_arraylist_destroy.
  assert (forall fuel i, 0 <= i -> Z.of_nat (length xs) < i + Z.of_nat fuel ->
    destroy_from l i fuel = Some (drop (Z.to_nat i) xs)) as H.
  { induction fuel as [|fuel IH]; intros i Hi Hf; simpl.
    { by rewrite drop_ge by lia. }
    destruct (Z.ltb_spec i (length_ l)).
    - destruct (rep_read_lt l xs i Hr) as (x & Hx & ->); [lia|]. simpl.
      rewrite IH by lia. simpl. rewrite (drop_S _ _ _ Hx).
      do 3 f_equal. lia.
    - rewrite drop_ge; [done|]. rewrite (rep_length _ _ Hr) in *. lia. }
  rewrite H; [done|lia|]. rewrite (rep_length _ _ Hr). lia.
Qed.

(** [count * sizeof(ptr)] in [u_arraylist_reserve] wraps around: asking
    for [2^61 + 1] elements "succeeds" with a one-slot block behind a huge
    capacity, and the second append that follows writes outside it. *)
Theorem u_arraylist_reserve_overflow (a b : A) :
  exists l1 l2 l3, u_arraylist_create true true = Some l1 /\ rep l1 [] /\
    u_arraylist_reserve true (Some l1) (2 ^ 61 + 1) = (true, Some l2) /\
    capacity l2 = 2 ^ 61 + 1 /\ length (data l2) = 1%nat /\
    u_arraylist_add true (Some l2) (Some a) = Some (true, Some l3) /\
    u_arraylist_add true (Some l3) (Some b) = None.
Proof.
  destruct u_arraylist_create_rep as (l1 & Hl1 & Hr). injection Hl1 as <-.
  do 3 eexists. repeat (split; [first [reflexivity|done]|]). vm_compute. reflexivity.
Qed.
End UArrayList.

Arguments slot : clear implicits.
Arguments u_arraylist_t : clear implicits.

(** ** The array-list interface

  What the components that store pointers in a [u_arraylist_t] rely on: a
  representation of a mathematical list, and the refinement laws of the
  operations.  The transport components are proved against this class; the
  instance below discharges it with the implementation above. *)
Class PtrList (L A : Type) := {
pl_rep : L -> list (option A) -> Prop;
pl_length : L -> Z;
pl_get : L -> Z -> ub (option A);
pl_add : bool -> L -> option A -> ub (bool * L);
pl_remove : L -> Z -> ub (option A * L);
pl_length_law l xs : pl_rep l xs -> pl_length l = Z.of_nat (length xs);
pl_get_law l xs i : pl_rep l xs -> 0 <= i -> pl_get l i = Some (default None (xs !! Z.to_nat i));
pl_add_law ok l xs p : pl_rep l xs ->
  exists b l', pl_add ok l p = Some (b, l') /\
    (if b : bool then pl_rep l' (xs ++ [p]) else l' = l) /\
    (ok = true -> Z.of_nat (length xs) < 2 ^ 58 -> b = true);
pl_remove_law l xs i x : pl_rep l xs -> 0 <= i -> xs !! Z.to_nat i = Some x ->
  exists l', pl_remove l i = Some (x, l') /\ pl_rep l' (delete (Z.to_nat i) xs);
pl_size_law l xs : pl_rep l xs -> Z.of_nat (length xs) < 2 ^ 60;
}.

(** Calls on a non-NULL list. *)
Definition arraylist_add {A} (ok : bool) (l : u_arraylist_t A) (p : option A)
  : ub (bool * u_arraylist_t A) :=
'(b, l') ← u_arraylist_add ok (Some l) p; l'' ← l'; Some (b, l'').
Definition arraylist_remove {A} (l : u_arraylist_t A) (i : Z) : ub (option A * u_arraylist_t A) :=
'(x, l') ← u_arraylist_remove (Some l) i; l'' ← l'; Some (x, l'').


Section Instance.
Context {A : Type}.

Lemma arraylist_add_law ok (l : u_arraylist_t A) xs p : rep l xs ->
  exists b l', arraylist_add ok l p = Some (b, l') /\
    (if b : bool then rep l' (xs ++ [p]) else l' = l) /\
    (ok = true -> Z.of_nat (length xs) < 2 ^ 58 -> b = true).
Proof.
  intros Hr. destruct (add_rep ok l xs p Hr) as (b & l' & Hadd & Hb & _ & Hok).
  exists b, l'. unfold arraylist_add. by rewrite Hadd.
Qed.

Lemma arraylist_remove_law (l : u_arraylist_t A) xs i x : rep l xs -> 0 <= i ->
  xs !! Z.to_nat i = Some x ->
  exists l', arraylist_remove l i = Some (x, l') /\ rep l' (delete (Z.to_nat i) xs).
Proof.
  intros Hr Hi Hx. pose proof (remove_rep l xs i Hr Hi) as H. rewrite Hx in H.
  destruct H as (l' & Hrem & Hr'). exists l'. unfold arraylist_remove. by rewrite Hrem.
Qed.

#[export] Instance arraylist_PtrList : PtrList (u_arraylist_t A) A := {|
  pl_rep := rep;
  pl_length l := u_arraylist_length (Some l);
  pl_get l i := u_arraylist_get (Some l) i;
  pl_add := arraylist_add;
  pl_remove := arraylist_remove;
  pl_length_law l xs := rep_length l xs;
  pl_get_law := get_rep;
  pl_add_law := arraylist_add_law;
  pl_remove_law := arraylist_remove_law;
  pl_size_law := rep_size;
|}.
End Instance.

(** ** A list of pointers and the objects they point to

  A component that keeps its objects in a heap and pointers to them in a
  list holds [cells lst h xs]: the pointers of the list, in order and each
  once, with the object every one of them points to. *)
Section Cells.
Context {L K V : Type} `{Countable K} `{PtrList L K}.
Implicit Types (h : gmap K V) (xs : list (K * V)).

Record cells (lst : L) h xs : Prop := {
  cells_list : pl_rep lst (Some <$> xs.*1);
  cells_locs : NoDup xs.*1;
  cells_data : Forall (fun x => h !! x.1 = Some x.2) xs;
}.

Lemma cells_length lst h xs : cells lst h xs -> pl_length lst = Z.of_nat (length xs).
Proof. intros [Hl _ _]. by rewrite (pl_length_law _ _ Hl), !length_fmap. Qed.

Lemma cells_size lst h xs : cells lst h xs -> Z.of_nat (length xs) < 2 ^ 60.
Proof. intros [Hl _ _]. apply pl_size_law in Hl. by rewrite !length_fmap in Hl. Qed.

Lemma cells_get lst h l1 p d l2 i : cells lst h (l1 ++ (p, d) :: l2) ->
  i = Z.of_nat (length l1) -> pl_get lst i = Some (Some p) /\ h !! p = Some d.
Proof.
  intros [Hl _ Hd] ->. rewrite (pl_get_law _ _ _ Hl) by lia. split.
  - by rewrite Nat2Z.id, !fmap_app, lookup_app_r, !length_fmap, Nat.sub_diag
      by (by rewrite !length_fmap).
  - rewrite Forall_app, Forall_cons in Hd. by destruct Hd as (_ & Hd & _).
Qed.

Lemma cells_fresh lst h l1 p d l2 : cells lst h (l1 ++ (p, d) :: l2) ->
  forall x, x ∈ l1 ++ l2 -> x.1 <> p.
Proof.
  intros [_ Hn _] x Hx <-. rewrite fmap_app in Hn. simpl in Hn.
  apply NoDup_app in Hn as (_ & H12 & [Hp _]%NoDup_cons).
  apply elem_of_app in Hx as [Hx|Hx].
  - apply (H12 x.1); [by apply list_elem_of_fmap_2|left].
  - apply Hp. by apply list_elem_of_fmap_2.
Qed.

(** Only the one object changes. *)
Lemma cells_update lst h l1 p d d' l2 : cells lst h (l1 ++ (p, d) :: l2) ->
  cells lst (<[p := d']> h) (l1 ++ (p, d') :: l2).
Proof.
  intros Hc. pose proof (cells_fresh _ _ _ _ _ _ Hc) as Hf. destruct Hc as [Hl Hn Hd].
  split; rewrite ?fmap_app in *; simpl in *; rewrite ?fmap_app in *; simpl in *; try done.
  rewrite Forall_app, Forall_cons in Hd |- *. rewrite !Forall_forall in *.
  destruct Hd as (H1 & _ & H2). simpl. split; [|split; [apply lookup_insert_eq|]];
    intros x Hx; (rewrite lookup_insert_ne; [by auto|]); apply not_eq_sym, Hf, elem_of_app; auto.
Qed.

Lemma cells_remove lst h l1 p d l2 i : cells lst h (l1 ++ (p, d) :: l2) ->
  i = Z.of_nat (length l1) ->
  exists lst', pl_remove lst i = Some (Some p, lst') /\ cells lst' (delete p h) (l1 ++ l2).
Proof.
  intros Hc ->. pose proof (cells_fresh _ _ _ _ _ _ Hc) as Hf.
  destruct Hc as [Hl Hn Hd].
  rewrite fmap_app, fmap_cons, fmap_app, fmap_cons in Hl. rewrite fmap_app, fmap_cons in Hn.
  destruct (pl_remove_law lst _ (Z.of_nat (length l1)) (Some p) Hl) as (lst' & Hrem & Hl').
  { lia. }
  { rewrite Nat2Z.id, lookup_app_r by (by rewrite !length_fmap). by rewrite !length_fmap, Nat.sub_diag. }
  exists lst'. split; [done|]. rewrite Nat2Z.id in Hl'.
  replace (length l1) with (length (Some <$> l1.*1)) in Hl' by by rewrite !length_fmap.
  rewrite delete_middle in Hl'. split.
  - by rewrite !fmap_app.
  - rewrite fmap_app. apply NoDup_app in Hn as (H1 & H12 & [_ H2]%NoDup_cons).
    apply NoDup_app. split; [done|]. split; [|done]. intros x Hx1 Hx2. apply (H12 x Hx1). by right.
  - rewrite Forall_app, Forall_cons in Hd. destruct Hd as (H1 & _ & H2).
    pose proof (proj2 (Forall_app _ l1 l2) (conj H1 H2)) as H12. rewrite Forall_forall in *.
    intros x Hx. rewrite lookup_delete_ne; [by apply H12|]. by apply not_eq_sym, Hf.
Qed.

(** A refused append changes nothing. *)
Lemma cells_append ok lst h xs p d : cells lst h xs -> h !! p = None ->
  exists b lst', pl_add ok lst (Some p) = Some (b, lst') /\
    (if b : bool then cells lst' (<[p := d]> h) (xs ++ [(p, d)])
     else lst' = lst /\ cells lst (<[p := d]> h) xs) /\
    (ok = true -> Z.of_nat (length xs) < 2 ^ 58 -> b = true).
Proof.
  intros [Hl Hn Hd] Hp. destruct (pl_add_law ok lst _ (Some p) Hl) as (b & lst' & Hadd & Hb & Hok).
  exists b, lst'. split; [done|]. rewrite !length_fmap in Hok. split; [|done].
  assert (Hd' : Forall (fun x => <[p := d]> h !! x.1 = Some x.2) xs).
  { eapply Forall_impl; [exact Hd|]. intros x Hx. rewrite lookup_insert_ne; [done|]. congruence. }
  destruct b; [|by subst]. split; rewrite ?fmap_app; simpl; [done| |].
  - apply NoDup_app. split; [done|]. split; [|apply NoDup_singleton].
    intros x Hx ->%list_elem_of_singleton. apply list_elem_of_fmap in Hx as (z & -> & Hz).
    rewrite Forall_forall in Hd. specialize (Hd z Hz). congruence.
  - apply Forall_app. split; [done|]. apply Forall_singleton. simpl. apply lookup_insert_eq.
Qed.
End Cells.

(** ** Concrete instances *)

Definition sample_arraylist : u_arraylist_t Z :=
{| data := [Val (Some 7); Val None; Val (Some 9); Indet]; capacity := 4; length_ := 3 |}.

Lemma sample_arraylist_rep : rep sample_arraylist [Some 7; None; Some 9].
Proof. constructor; simpl; unfold PTR_SIZE, PTRDIFF_MAX; try done; lia. Qed.

Lemma u_arraylist_add_refines_witness :
exists b l', u_arraylist_add true (Some sample_arraylist) (Some 5) = Some (b, Some l') /\
  (if b : bool then rep l' [Some 7; None; Some 9; Some 5] else l' = sample_arraylist) /\
  (length_ sample_arraylist < capacity sample_arraylist -> b = true) /\
  (true = true -> Z.of_nat (length [Some 7; None; Some 9]) < 2 ^ 58 -> b = true).
Proof.
apply (u_arraylist_add_refines true sample_arraylist [Some 7; None; Some 9] (Some 5)).
exact sample_arraylist_rep.
Defined.

Lemma u_arraylist_get_remove_refine_witness :
u_arraylist_get (Some sample_arraylist) 1 = Some None /\
exists l', u_arraylist_remove (Some sample_arraylist) 1 = Some (None, Some l') /\
  rep l' [Some 7; Some 9].
Proof.
apply (u_arraylist_get_remove_refine sample_arraylist [Some 7; None; Some 9] 1).
- exact sample_arraylist_rep.
- lia.
Defined.

Lemma u_arraylist_get_index_spec_witness :
u_arraylist_get_index (Some sample_arraylist) (Some 9) = Some (Some 2).
Proof.
exact (u_arraylist_get_index_spec sample_arraylist [Some 7; None; Some 9] 9
         sample_arraylist_rep).
Defined.

Lemma u_arraylist_capacity_ops_keep_contents_witness :
(exists l', (u_arraylist_reserve true (Some sample_arraylist) 6).2 = Some l' /\
   rep l' [Some 7; None; Some 9] /\
   ((u_arraylist_reserve true (Some sample_arraylist) 6).1 = true -> 6 <= capacity l')) /\
(exists l', u_arraylist_shrink_to_fit true (Some sample_arraylist) = Some l' /\
   rep l' [Some 7; None; Some 9] /\
   (true = true -> [Some 7; None; Some 9] <> [] -> capacity l' = length_ l')).
Proof.
apply (u_arraylist_capacity_ops_keep_contents true sample_arraylist [Some 7; None; Some 9] 6).
- exact sample_arraylist_rep.
- lia.
- unfold PTR_SIZE. lia.
Defined.
