(* ===== verification/ULinkList.v ===== *)
(** * ULinkList: the singly linked list of [connectivity/common]

  Models [resource/csdk/connectivity/common/src/ulinklist.c] over an
  explicit heap of nodes.  Every operation takes the heap and returns it; a
  [u_linklist_t *] or iterator argument is an [option] (NULL is [None]), and
  a call that would follow a NULL or freed pointer is undefined ([None]).
  [alloc] is what the C allocator returns: [None] for NULL, or a location.

  [is_list h ll l]: the header [ll] owns the chain [l] and [size] counts it.
  The theorems show that each operation implements the list operation. *)
From S2P Require Import Prelude Chain.

Section ULinkList.
Context {A : Type}.

Record u_linklist_t := { ll_list : option loc; ll_size : Z }.

Abbreviation node_heap := (gmap loc (node A)).
Implicit Types (h : gmap loc (node A)) (ll : u_linklist_t) (l : list (loc * A)).

(** [ok] is whether the header's allocation succeeds. *)
Definition u_linklist_create (ok : bool) : option u_linklist_t :=
  if ok then Some {| ll_list := None; ll_size := 0 |} else None.

Definition u_linklist_add_head (h : node_heap) (linklist : option u_linklist_t)
    (d : option A) (alloc : option loc)
    : ub (CAResult_t * node_heap * option u_linklist_t) :=
  match linklist, d with
  | None, _ => Some (CA_STATUS_INVALID_PARAM, h, None)
  | Some _, None => Some (CA_STATUS_INVALID_PARAM, h, linklist)
  | Some ll, Some x =>
      match alloc with
      | None => Some (CA_MEMORY_ALLOC_FAILED, h, linklist)
      | Some add_node =>
          size ← int_result (ll_size ll + 1);
          Some (CA_STATUS_OK, <[add_node := Node x (ll_list ll)]> h,
                Some {| ll_list := Some add_node; ll_size := size |})
      end
  end.

Definition u_linklist_add (h : node_heap) (linklist : option u_linklist_t)
    (d : option A) (alloc : option loc)
    : ub (CAResult_t * node_heap * option u_linklist_t) :=
  match linklist, d with
  | None, _ => Some (CA_STATUS_INVALID_PARAM, h, None)
  | Some _, None => Some (CA_STATUS_INVALID_PARAM, h, linklist)
  | Some ll, Some x =>
      match alloc with
      | None => Some (CA_MEMORY_ALLOC_FAILED, h, linklist)
      | Some add_node =>
          let h := <[add_node := Node x None]> h in
          match ll_list ll with
          | None =>
              size ← int_result (ll_size ll + 1);
              Some (CA_STATUS_OK, h,
                    Some {| ll_list := Some add_node; ll_size := size |})
          | Some first =>
              last ← last_node h first (S (size h));
              h' ← set_next h last (Some add_node);
              size ← int_result (ll_size ll + 1);
              Some (CA_STATUS_OK, h',
                    Some {| ll_list := ll_list ll; ll_size := size |})
          end
      end
  end.

(** The [while (size)] loop of [u_linklist_free]: [false] when the list runs
    out of nodes before [size] reaches zero. *)
Fixpoint free_nodes (h : node_heap) (ll : u_linklist_t) (fuel : nat)
    : ub (bool * node_heap * u_linklist_t) :=
  match fuel with
  | O => None
  | S fuel =>
      if decide (ll_size ll = 0) then Some (true, h, ll)
      else
        match ll_list ll with
        | None => Some (false, h, ll)
        | Some p =>
            n ← h !! p;
            size ← int_result (ll_size ll - 1);
            free_nodes (delete p h) {| ll_list := nd_next n; ll_size := size |} fuel
        end
  end.

(** [u_linklist_free(&list)]: the outer [option] is the [**] argument. *)
Definition u_linklist_free (h : node_heap) (linklist : option (option u_linklist_t))
    : ub (CAResult_t * node_heap * option (option u_linklist_t)) :=
  match linklist with
  | None => Some (CA_STATUS_INVALID_PARAM, h, None)
  | Some None => Some (CA_STATUS_OK, h, Some None)
  | Some (Some ll) =>
      '(done, h, ll) ← free_nodes h ll (S (size h));
      if (done : bool) then Some (CA_STATUS_OK, h, Some None)
      else Some (CA_STATUS_FAILED, h, Some (Some ll))
  end.

(** [iter] is the [u_linklist_iterator_t **] argument. *)
Definition u_linklist_remove (h : node_heap) (linklist : option u_linklist_t)
    (iter : option (option loc))
    : ub (CAResult_t * node_heap * option u_linklist_t * option (option loc)) :=
  match linklist, iter with
  | None, _ => Some (CA_STATUS_INVALID_PARAM, h, linklist, iter)
  | Some _, None => Some (CA_STATUS_INVALID_PARAM, h, linklist, iter)
  | Some _, Some None => Some (CA_STATUS_INVALID_PARAM, h, linklist, iter)
  | Some ll, Some (Some it) =>
      if decide (ll_list ll = Some it) then
        n ← h !! it;
        size ← int_result (ll_size ll - 1);
        Some (CA_STATUS_OK, delete it h,
              Some {| ll_list := nd_next n; ll_size := size |},
              Some (nd_next n))
      else
        first ← ll_list ll;
        prev ← find_prev h first it (S (size h));
        pn ← h !! prev;
        match nd_next pn with
        | None => Some (CA_STATUS_FAILED, h, linklist, iter)
        | Some q =>
            qn ← h !! q;
            h' ← set_next h prev (nd_next qn);
            size ← int_result (ll_size ll - 1);
            Some (CA_STATUS_OK, delete it h',
                  Some {| ll_list := ll_list ll; ll_size := size |},
                  Some (nd_next qn))
        end
  end.

Definition u_linklist_length (linklist : option u_linklist_t) : Z :=
  match linklist with None => 0 | Some ll => u32 (ll_size ll) end.

(** The new value of [*iter]. *)
Definition u_linklist_init_iterator (linklist : option u_linklist_t)
    (iter : option (option loc)) : option (option loc) :=
  match linklist, iter with
  | Some ll, Some _ => Some (ll_list ll)
  | _, _ => iter
  end.

Definition u_linklist_get_data (h : node_heap) (iter : option loc) : ub (option A) :=
  match iter with
  | None => Some None
  | Some p => n ← h !! p; Some (Some (nd_data n))
  end.

(** Advances [*iter] and returns the data of the new position. *)
Definition u_linklist_get_next (h : node_heap) (iter : option (option loc))
    : ub (option A * option (option loc)) :=
  match iter with
  | None => Some (None, None)
  | Some None => None
  | Some (Some p) =>
      n ← h !! p;
      match nd_next n with
      | None => Some (None, Some None)
      | Some q => qn ← h !! q; Some (Some (nd_data qn), Some (Some q))
      end
  end.

(** ** Representation and refinement *)

Definition is_list (h : node_heap) (ll : u_linklist_t) (l : list (loc * A)) : Prop :=
  chain h (ll_list ll) l /\ ll_size ll = Z.of_nat (length l) /\ Z.of_nat (length l) <= INT_MAX.

Lemma is_list_size h ll l : is_list h ll l -> (length l <= size h)%nat.
Proof. intros (Hc & _). by eapply chain_length_size. Qed.

(** [u_linklist_add] appends at the tail: NULL arguments and a failed
    allocation leave everything unchanged, otherwise the new list is the old
    one followed by the fresh node. *)
Theorem u_linklist_add_refines (h : node_heap) (ll : u_linklist_t) (l : list (loc * A))
    (x : A) (b : loc) :
  is_list h ll l -> h !! b = None -> Z.of_nat (length l) < INT_MAX ->
  exists h' ll', u_linklist_add h (Some ll) (Some x) (Some b) = Some (CA_STATUS_OK, h', Some ll')
    /\ is_list h' ll' (l ++ [(b, x)]).
Proof.
  intros Hl Hb Hmax. pose proof Hl as (Hc & Hsz & Hle). unfold u_linklist_add.
  destruct (ll_list ll) as [first|] eqn:Hfirst.
  - destruct (exists_last (l := l)) as (l0 & [a d] & ->); [by destruct l|].
    pose proof (is_list_size _ _ _ Hl) as Hlen.
    destruct (chain_snoc _ _ _ _ _ b x Hc Hb) as (h' & Hset & Hh' & Hc').
    rewrite (last_node_spec _ _ l0 a d).
    + simpl. rewrite Hset. simpl. rewrite int_result_ok by (unfold INT_MIN in *; lia).
      simpl. do 2 eexists. split; [reflexivity|]. split; [done|].
      rewrite !length_app in *. simpl in *. unfold INT_MAX in *. lia.
    + eapply chain_frame; [|done]. intros c Hin. rewrite lookup_insert_ne; [done|].
      intros <-. destruct (chain_dom _ _ _ _ Hc Hin). congruence.
    + rewrite map_size_insert_None by done. rewrite length_app in Hlen. simpl in Hlen. lia.
  - apply chain_None in Hc as ->. simpl in Hsz.
    rewrite int_result_ok by (unfold INT_MIN in *; simpl in *; lia). simpl.
    do 2 eexists. split; [reflexivity|]. split; simpl; [|lia].
    split; [done|]. exists None. by rewrite lookup_insert_eq.
Qed.

(** [u_linklist_add_head] pushes the fresh node in front. *)
Theorem u_linklist_add_head_refines (h : node_heap) (ll : u_linklist_t)
    (l : list (loc * A)) (x : A) (b : loc) :
  is_list h ll l -> h !! b = None -> Z.of_nat (length l) < INT_MAX ->
  exists h' ll', u_linklist_add_head h (Some ll) (Some x) (Some b)
      = Some (CA_STATUS_OK, h', Some ll')
    /\ is_list h' ll' ((b, x) :: l).
Proof.
  intros (Hc & Hsz & Hle) Hb Hmax. unfold u_linklist_add_head.
  rewrite int_result_ok by (unfold INT_MIN in *; lia). simpl.
  do 2 eexists. split; [reflexivity|]. split; [by apply chain_push|]. simpl. lia.
Qed.

(** The first node of a chain is one of its nodes. *)
Lemma first_not_later (h : node_heap) first (l0 : list (loc * A)) a d r it :
  chain h (Some first) (l0 ++ (a, d) :: r) -> it ∉ (l0 ++ [(a, d)]).*1 -> first <> it.
Proof.
  intros Hc Hni ->. apply Hni. rewrite fmap_app.
  destruct l0 as [|[c0 e0] l0]; destruct Hc as [? _]; simplify_eq; simpl; left.
Qed.

Lemma NoDup_before (l0 l1 : list (loc * A)) it d :
  NoDup (l0 ++ (it, d) :: l1).*1 -> it ∉ l0.*1.
Proof.
  rewrite fmap_app. simpl. intros (_ & Hn & _)%NoDup_app Hin. apply (Hn it Hin). left.
Qed.

(** The three paths of [u_linklist_remove]: the head, a later node, a node
    that is not there. *)
Definition removed (h : node_heap) (ll : u_linklist_t) (it : loc) (l1 l2 : list (loc * A)) : Prop :=
  exists h' ll', u_linklist_remove h (Some ll) (Some (Some it))
      = Some (CA_STATUS_OK, h', Some ll', Some (fst <$> head l2))
    /\ is_list h' ll' (l1 ++ l2) /\ h' !! it = None.

Lemma remove_head h ll it d l2 : is_list h ll ((it, d) :: l2) -> removed h ll it [] l2.
Proof.
  intros (Hc & Hsz & Hle). simpl in Hsz, Hle. unfold removed, u_linklist_remove.
  rewrite int_result_ok by (unfold INT_MIN, INT_MAX in *; lia).
  pose proof Hc as [Hf (nx & Hit & Hc')]. rewrite decide_True by done. rewrite Hit. simpl.
  assert (nx = fst <$> head l2) as -> by (destruct l2 as [|[c e] l2]; [done|by destruct Hc']).
  do 2 eexists. split; [reflexivity|]. rewrite lookup_delete_eq.
  split; [|done]. split; simpl; [|simpl in *; lia].
  rewrite Hf in Hc. by eapply chain_pop.
Qed.

Lemma remove_later h ll l0 b' e' it d l2 :
  is_list h ll ((l0 ++ [(b', e')]) ++ (it, d) :: l2) -> removed h ll it (l0 ++ [(b', e')]) l2.
Proof.
  intros Hl. pose proof Hl as (Hc & Hsz & Hle). pose proof (is_list_size _ _ _ Hl) as Hlen.
  rewrite !length_app in *. simpl in *. unfold removed, u_linklist_remove.
  rewrite int_result_ok by (unfold INT_MIN, INT_MAX in *; lia).
  rewrite <- app_assoc in Hc |- *. simpl in Hc |- *.
  pose proof (chain_NoDup _ _ _ Hc) as Hnd.
  destruct (ll_list ll) as [first|] eqn:Hfirst; [|apply chain_None in Hc; by destruct l0].
  rewrite decide_False.
  2:{ intros ?. simplify_eq. apply (first_not_later _ _ _ _ _ _ it Hc); [|done].
      apply (NoDup_before _ l2 _ d). by rewrite <- app_assoc. }
  simpl. rewrite (find_prev_found _ _ l0 b' e' it d l2); [|done|lia].
  assert (h !! b' = Some (Node e' (Some it)) /\ exists nx, h !! it = Some (Node d nx) /\
    nx = fst <$> head l2) as (Hb & nx & Hit & ->).
  { apply chain_app in Hc as (q & [-> (nb & Hnb & [-> (nx & Hnx & Hc)])] & _).
    split; [done|]. exists nx. split; [done|]. destruct l2 as [|[c e] l2]; [done|]. by destruct Hc. }
  simpl. unfold set_next. rewrite Hb. simpl. rewrite Hit. simpl.
  do 2 eexists. split; [reflexivity|]. rewrite lookup_delete_eq. split; [|done].
  split; [|rewrite ?length_app; simpl; rewrite ?length_app; simpl; lia].
  by apply chain_unlink with d.
Qed.

Lemma remove_missing h ll l0 a d it : is_list h ll (l0 ++ [(a, d)]) ->
  it ∉ (l0 ++ [(a, d)]).*1 ->
  u_linklist_remove h (Some ll) (Some (Some it)) = Some (CA_STATUS_FAILED, h, Some ll, Some (Some it)).
Proof.
  intros Hl Hni. pose proof Hl as (Hc & Hsz & Hle). pose proof (is_list_size _ _ _ Hl) as Hlen.
  rewrite !length_app in *. simpl in *. unfold u_linklist_remove.
  destruct (ll_list ll) as [first|] eqn:Hfirst; [|apply chain_None in Hc; by destruct l0].
  rewrite decide_False.
  2:{ intros ?. simplify_eq. by apply (first_not_later _ _ _ _ _ _ it Hc). }
  simpl. rewrite (find_prev_missing _ _ l0 a d); [|done|done|lia]. simpl.
  apply chain_app in Hc as (q & [-> (nx & -> & ->)] & _). done.
Qed.

(** removing the node an iterator stands on unlinks and frees exactly
    that node, keeps the order of the others and moves the iterator to the
    node that followed; an iterator that is not in a non-empty list is
    reported as a failure with nothing changed. *)
Theorem u_linklist_remove_refines (h : node_heap) (ll : u_linklist_t)
    (l : list (loc * A)) (it : loc) :
  is_list h ll l ->
  (forall l1 d l2, l = l1 ++ (it, d) :: l2 ->
     exists h' ll', u_linklist_remove h (Some ll) (Some (Some it))
         = Some (CA_STATUS_OK, h', Some ll', Some (fst <$> head l2))
       /\ is_list h' ll' (l1 ++ l2) /\ h' !! it = None) /\
  (it ∉ l.*1 -> l <> [] ->
     u_linklist_remove h (Some ll) (Some (Some it))
       = Some (CA_STATUS_FAILED, h, Some ll, Some (Some it))).
Proof.
  intros Hl. split.
  - intros l1 d l2 ->. destruct l1 as [|x l1']; [by eapply remove_head|].
    destruct (exists_last (l := x :: l1')) as (l0 & [b' e'] & E); [done|].
    rewrite E in Hl |- *. by eapply remove_later.
  - intros Hni Hne. destruct (exists_last (l := l)) as (l0 & [a d] & ->); [done|].
    by apply remove_missing with l0 a d.
Qed.

(** The client loop over an iterator: read the data, move to the next node
    until the iterator is NULL. *)
Fixpoint traverse (h : node_heap) (iter : option loc) (fuel : nat) : ub (list A) :=
  match iter, fuel with
  | None, _ => Some []
  | Some _, O => None
  | Some p, S fuel =>
      x ← u_linklist_get_data h iter;
      d ← x;
      '(_, it) ← u_linklist_get_next h (Some iter);
      iter' ← it;
      rest ← traverse h iter' fuel;
      Some (d :: rest)
  end.

(** the iterator protocol ([init_iterator], then [get_data]/[get_next]
    until NULL) is defined and visits every element exactly once, in list
    order; [size + 1] steps always suffice. *)
Theorem u_linklist_iteration_complete (h : node_heap) (ll : u_linklist_t)
    (l : list (loc * A)) :
  is_list h ll l ->
  exists iter, u_linklist_init_iterator (Some ll) (Some None) = Some iter /\
    traverse h iter (S (length l)) = Some l.*2 /\
    u_linklist_length (Some ll) = Z.of_nat (length l).
Proof.
  intros (Hc & Hsz & Hle). eexists. split; [reflexivity|]. split.
  - clear Hsz Hle. revert Hc. generalize (ll_list ll) as p.
    induction l as [|[a d] l IH]; intros p Hc; simpl in Hc.
    + by subst.
    + destruct Hc as [-> (nx & Hnx & Hc)].
      cbn [traverse u_linklist_get_data u_linklist_get_next]. rewrite Hnx. simpl.
      destruct nx as [q|].
      * destruct l as [|[b e] l]; [done|].
        pose proof Hc as [? (nb & Hnb & _)]. simplify_eq. rewrite Hnb. simpl.
        specialize (IH (Some b) Hc). simpl in IH. by rewrite IH.
      * apply chain_None in Hc as ->. done.
  - simpl. rewrite Hsz. apply wrap_small. unfold INT_MAX in *. lia.
Qed.

Lemma free_nodes_spec h ll l fuel :
  is_list h ll l -> (length l < fuel)%nat ->
  exists h', free_nodes h ll fuel = Some (true, h', {| ll_list := None; ll_size := 0 |}) /\
    forall a, h' !! a = if decide (a ∈ l.*1) then None else h !! a.
Proof.
  revert h ll fuel. induction l as [|[a d] l IH]; intros h ll [|fuel] (Hc & Hsz & Hle) Hf;
    try (simpl in Hf; lia); simpl.
  - destruct ll as [p sz]. simpl in *. subst. rewrite decide_True by done.
    eexists. split; [done|]. intros a. done.
  - rewrite decide_False by (simpl in Hsz; lia).
    pose proof Hc as [Hp (nx & Hnx & _)]. rewrite Hp, Hnx. simpl.
    rewrite int_result_ok by (unfold INT_MIN in *; simpl in *; lia). simpl.
    rewrite Hp in Hc. pose proof (chain_pop _ _ _ _ _ Hc Hnx) as Hc'.
    destruct (IH (delete a h) {| ll_list := nx; ll_size := ll_size ll - 1 |} fuel)
      as (h' & -> & Hh').
    + split; [done|]. simpl in *. lia.
    + simpl in Hf. lia.
    + eexists. split; [done|]. intros c. rewrite Hh', lookup_delete.
      repeat case_decide; subst; set_solver.
Qed.

(** [u_linklist_free] terminates, frees every node of the list and no
    other, and clears the caller's pointer. *)
Theorem u_linklist_free_releases (h : node_heap) (ll : u_linklist_t) (l : list (loc * A)) :
  is_list h ll l ->
  exists h', u_linklist_free h (Some (Some ll)) = Some (CA_STATUS_OK, h', Some None) /\
    (forall a, a ∈ l.*1 -> h' !! a = None) /\
    (forall a, a ∉ l.*1 -> h' !! a = h !! a).
Proof.
  intros Hl. pose proof (is_list_size _ _ _ Hl) as Hlen. unfold u_linklist_free.
  destruct (free_nodes_spec h ll l (S (size h)) Hl) as (h' & -> & Hh'); [lia|]. simpl.
  eexists. split; [done|]. split; intros a Ha; rewrite Hh'.
  - by rewrite decide_True.
  - by rewrite decide_False.
Qed.

(** on an empty list, [u_linklist_remove] with a non-NULL iterator reads
    [linklist->list->next] through the NULL head: undefined behaviour
    instead of the failure code the search is written to return. *)
Theorem u_linklist_remove_empty_undefined (h : node_heap) (it : loc) :
  is_list h {| ll_list := None; ll_size := 0 |} [] /\
  u_linklist_remove h (Some {| ll_list := None; ll_size := 0 |}) (Some (Some it)) = None.
Proof. repeat split; done. Qed.
End ULinkList.

(** ** Concrete instances *)

Definition sample_heap : gmap loc (node Z) :=
<[1%N := Node 10 (Some 2%N)]> (<[2%N := Node 20 (Some 3%N)]> (<[3%N := Node 30 None]> empty)).
Definition sample_linklist : u_linklist_t := {| ll_list := Some 1%N; ll_size := 3 |}.
Definition sample_nodes : list (loc * Z) := [(1%N, 10); (2%N, 20); (3%N, 30)].

Lemma sample_is_list : is_list sample_heap sample_linklist sample_nodes.
Proof.
split; [|split; [done|unfold INT_MAX; simpl; lia]].
split; [done|]. eexists. split; [reflexivity|]. split; [done|].
eexists. split; [reflexivity|]. split; [done|]. eexists. split; [reflexivity|done].
Qed.

Lemma u_linklist_add_refines_witness :
exists h' ll', u_linklist_add sample_heap (Some sample_linklist) (Some 40) (Some 4%N)
    = Some (CA_STATUS_OK, h', Some ll')
  /\ is_list h' ll' (sample_nodes ++ [(4%N, 40)]).
Proof.
apply (u_linklist_add_refines sample_heap sample_linklist sample_nodes 40 4%N).
- exact sample_is_list.
- reflexivity.
- unfold INT_MAX. simpl. lia.
Defined.

Lemma u_linklist_add_head_refines_witness :
exists h' ll', u_linklist_add_head sample_heap (Some sample_linklist) (Some 5) (Some 4%N)
    = Some (CA_STATUS_OK, h', Some ll')
  /\ is_list h' ll' ((4%N, 5) :: sample_nodes).
Proof.
apply (u_linklist_add_head_refines sample_heap sample_linklist sample_nodes 5 4%N).
- exact sample_is_list.
- reflexivity.
- unfold INT_MAX. simpl. lia.
Defined.

Lemma u_linklist_remove_refines_witness :
exists h' ll', u_linklist_remove sample_heap (Some sample_linklist) (Some (Some 2%N))
    = Some (CA_STATUS_OK, h', Some ll', Some (Some 3%N))
  /\ is_list h' ll' [(1%N, 10); (3%N, 30)] /\ h' !! 2%N = None.
Proof.
exact (proj1 (u_linklist_remove_refines sample_heap sample_linklist sample_nodes 2%N
         sample_is_list) [(1%N, 10)] 20 [(3%N, 30)] eq_refl).
Defined.

Lemma u_linklist_iteration_complete_witness :
exists iter, u_linklist_init_iterator (Some sample_linklist) (Some None) = Some iter /\
  traverse sample_heap iter 4 = Some [10; 20; 30] /\
  u_linklist_length (Some sample_linklist) = 3.
Proof.
exact (u_linklist_iteration_complete sample_heap sample_linklist sample_nodes sample_is_list).
Defined.

Lemma u_linklist_free_releases_witness :
exists h', u_linklist_free sample_heap (Some (Some sample_linklist))
    = Some (CA_STATUS_OK, h', Some None) /\
  (forall a, a ∈ sample_nodes.*1 -> h' !! a = None) /\
  (forall a, a ∉ sample_nodes.*1 -> h' !! a = sample_heap !! a).
Proof.
exact (u_linklist_free_releases sample_heap sample_linklist sample_nodes sample_is_list).
Defined.
