(* ===== verification/UQueue.v ===== *)
(** * UQueue: the FIFO message queue of [connectivity/common]

  Models [resource/csdk/connectivity/common/src/uqueue.c] over the node
  heap of [Chain].  [is_queue h q l] relates the header to the queued
  messages, oldest first; the theorems show FIFO behaviour, that [count]
  always equals the number of queued messages, and that [u_queue_reset]
  terminates with an empty queue.  A queue message is the location of a
  [u_queue_message_t]; [u_queue_remove_element] returns the message it
  passes to [OICFree]. *)
From S2P Require Import Prelude Chain.

Section UQueue.
Context {A : Type}.
Abbreviation node_heap := (gmap loc (node A)).

Record u_queue_t := { element : option loc; count : Z }.
Implicit Types (h : node_heap) (q : u_queue_t) (l : list (loc * A)).

Definition NO_MESSAGES : Z := 0.

Definition u_queue_create (ok : bool) : option u_queue_t :=
  if ok then Some {| element := None; count := NO_MESSAGES |} else None.

Definition u_queue_add_element (h : node_heap) (queue : option u_queue_t)
    (message : option A) (alloc : option loc)
    : ub (CAResult_t * node_heap * option u_queue_t) :=
  match queue, message with
  | None, _ => Some (CA_STATUS_FAILED, h, None)
  | Some _, None => Some (CA_STATUS_FAILED, h, queue)
  | Some q, Some m =>
      match alloc with
      | None => Some (CA_MEMORY_ALLOC_FAILED, h, queue)
      | Some e =>
          let h1 := <[e := Node m None]> h in
          match element q with
          | Some ptr =>
              last ← last_node h1 ptr (S (size h1));
              h2 ← set_next h1 last (Some e);
              Some (CA_STATUS_OK, h2,
                    Some {| element := element q; count := u32 (count q + 1) |})
          | None =>
              if decide (count q <> NO_MESSAGES) then
                Some (CA_STATUS_FAILED, delete e h1, queue)
              else
                Some (CA_STATUS_OK, h1,
                      Some {| element := Some e; count := u32 (count q + 1) |})
          end
      end
  end.

Definition u_queue_get_element (h : node_heap) (queue : option u_queue_t)
    : ub (option A * node_heap * option u_queue_t) :=
  match queue with
  | None => Some (None, h, None)
  | Some q =>
      match element q with
      | None => Some (None, h, queue)
      | Some e =>
          n ← h !! e;
          Some (Some (nd_data n), delete e h,
                Some {| element := nd_next n; count := u32 (count q - 1) |})
      end
  end.

(** The last component is the message that is freed, if any. *)
Definition u_queue_remove_element (h : node_heap) (queue : option u_queue_t)
    : ub (CAResult_t * node_heap * option u_queue_t * option A) :=
  match queue with
  | None => Some (CA_STATUS_FAILED, h, None, None)
  | Some q =>
      match element q with
      | None => Some (CA_STATUS_OK, h, queue, None)
      | Some e =>
          n ← h !! e;
          Some (CA_STATUS_OK, delete e h,
                Some {| element := nd_next n; count := u32 (count q - 1) |},
                Some (nd_data n))
      end
  end.

Definition u_queue_get_size (queue : option u_queue_t) : Z :=
  match queue with None => NO_MESSAGES | Some q => count q end.

(** [while (queue->element) u_queue_remove_element(queue)]; the messages
    freed are collected in order. *)
Fixpoint reset_loop (h : node_heap) (q : u_queue_t) (fuel : nat)
    : ub (node_heap * u_queue_t * list A) :=
  match element q, fuel with
  | None, _ => Some (h, q, [])
  | Some _, O => None
  | Some _, S fuel =>
      '(_, h, q', m) ← u_queue_remove_element h (Some q);
      q ← q';
      '(h, q, ms) ← reset_loop h q fuel;
      Some (h, q, option_list m ++ ms)
  end.

Definition u_queue_reset (h : node_heap) (queue : option u_queue_t)
    : ub (CAResult_t * node_heap * option u_queue_t * list A) :=
  match queue with
  | None => Some (CA_STATUS_FAILED, h, None, [])
  | Some q =>
      if decide (count q = NO_MESSAGES) then Some (CA_STATUS_OK, h, queue, [])
      else
        '(h, q, ms) ← reset_loop h q (size h);
        if decide (count q <> NO_MESSAGES) then Some (CA_STATUS_FAILED, h, Some q, ms)
        else Some (CA_STATUS_OK, h, Some q, ms)
  end.

(** On success the header itself is freed ([None]). *)
Definition u_queue_delete (h : node_heap) (queue : option u_queue_t)
    : ub (CAResult_t * node_heap * option u_queue_t * list A) :=
  match queue with
  | None => Some (CA_STATUS_FAILED, h, None, [])
  | Some _ =>
      '(error, h, q, ms) ← u_queue_reset h queue;
      if decide (error <> CA_STATUS_OK) then Some (error, h, q, ms)
      else Some (CA_STATUS_OK, h, None, ms)
  end.

Definition u_queue_get_head (h : node_heap) (queue : option u_queue_t) : ub (option A) :=
  match queue with
  | None => Some None
  | Some q =>
      match element q with
      | None => Some None
      | Some e => n ← h !! e; Some (Some (nd_data n))
      end
  end.

(** ** FIFO refinement *)

Definition is_queue (h : node_heap) (q : u_queue_t) (l : list (loc * A)) : Prop :=
  chain h (element q) l /\ count q = Z.of_nat (length l) /\ Z.of_nat (length l) < 2 ^ 32.

Lemma is_queue_size h q l : is_queue h q l -> (length l <= size h)%nat.
Proof. intros (Hc & _). by eapply chain_length_size. Qed.

Lemma u_queue_create_empty :
  exists q, u_queue_create true = Some q /\ forall h, is_queue h q [].
Proof. eexists. split; [done|]. intros h. repeat split; simpl; lia. Qed.

(** adding a message puts it behind every queued one and bumps the
    count; a NULL message or a failed allocation changes nothing. *)
Theorem u_queue_add_element_refines (h : node_heap) (q : u_queue_t) (l : list (loc * A))
    (m : A) (e : loc) :
  is_queue h q l -> h !! e = None -> Z.of_nat (length l) + 1 < 2 ^ 32 ->
  (exists h' q', u_queue_add_element h (Some q) (Some m) (Some e)
      = Some (CA_STATUS_OK, h', Some q') /\ is_queue h' q' (l ++ [(e, m)])) /\
  u_queue_add_element h (Some q) (Some m) None = Some (CA_MEMORY_ALLOC_FAILED, h, Some q) /\
  u_queue_add_element h (Some q) None (Some e) = Some (CA_STATUS_FAILED, h, Some q).
Proof.
  intros Hq He Hmax. split; [|done]. pose proof Hq as (Hc & Hsz & Hle).
  assert (Hcount : u32 (count q + 1) = Z.of_nat (length (l ++ [(e, m)]))).
  { rewrite length_app. simpl. rewrite wrap_small; lia. }
  assert (Hlen' : Z.of_nat (length (l ++ [(e, m)])) < 2 ^ 32) by (rewrite length_app; simpl; lia).
  unfold u_queue_add_element. destruct (element q) as [first|] eqn:Hfirst.
  - destruct (exists_last (l := l)) as (l0 & [a d] & ->); [by destruct l|].
    pose proof (is_queue_size _ _ _ Hq) as Hlen. rewrite length_app in Hlen. simpl in Hlen.
    destruct (chain_snoc _ _ _ _ _ e m Hc He) as (h' & Hset & Hh' & Hc').
    rewrite (last_node_spec _ _ l0 a d).
    + simpl. rewrite Hset. simpl. do 2 eexists. split; [reflexivity|]. done.
    + eapply chain_frame; [|done]. intros c Hin. rewrite lookup_insert_ne; [done|].
      intros <-. destruct (chain_dom _ _ _ _ Hc Hin). congruence.
    + rewrite map_size_insert_None by done. lia.
  - apply chain_None in Hc as ->. rewrite decide_False by (rewrite Hsz; by intros []).
    do 2 eexists. split; [reflexivity|]. split; [|done].
    split; [done|]. exists None. by rewrite lookup_insert_eq.
Qed.

(** [u_queue_get_element] takes the oldest message, frees its node and
    keeps the rest in order; on an empty queue it returns NULL. *)
Theorem u_queue_get_element_refines (h : node_heap) (q : u_queue_t) (l : list (loc * A)) :
  is_queue h q l ->
  match l with
  | [] => u_queue_get_element h (Some q) = Some (None, h, Some q)
  | (e, m) :: l' =>
      exists h' q', u_queue_get_element h (Some q) = Some (Some m, h', Some q') /\
        is_queue h' q' l' /\ h' !! e = None /\ u_queue_get_head h (Some q) = Some (Some m)
  end.
Proof.
  intros (Hc & Hsz & Hle). destruct l as [|[e m] l']; simpl.
  - simpl in Hc. by rewrite Hc.
  - pose proof Hc as [He (nx & Hnx & _)]. rewrite He, Hnx. simpl.
    do 2 eexists. split; [reflexivity|]. rewrite lookup_delete_eq. split; [|done].
    rewrite He in Hc. split; simpl; [by eapply chain_pop|].
    simpl in *. rewrite wrap_small; lia.
Qed.

Lemma reset_loop_spec h q l fuel :
  is_queue h q l -> (length l <= fuel)%nat ->
  exists h', reset_loop h q fuel = Some (h', {| element := None; count := 0 |}, l.*2) /\
    (forall a, a ∉ l.*1 -> h' !! a = h !! a).
Proof.
  revert h q fuel. induction l as [|[a d] l IH]; intros h q fuel (Hc & Hsz & Hle) Hf.
  - destruct q as [p c]. simpl in *. subst. eexists. by destruct fuel.
  - destruct fuel as [|fuel]; simpl in Hf; [lia|].
    pose proof Hc as [He (nx & Hnx & _)]. simpl. rewrite He, Hnx. simpl.
    destruct (IH (delete a h) {| element := nx; count := u32 (count q - 1) |} fuel)
      as (h' & -> & Hh').
    + rewrite He in Hc. split; simpl; [by eapply chain_pop|]. simpl in *.
      rewrite wrap_small; lia.
    + lia.
    + simpl. eexists. split; [done|]. intros c Hni.
      rewrite Hh', lookup_delete_ne; [done|..]; intros ?; apply Hni; subst;
        [by left|by right].
Qed.

(** [u_queue_delete] terminates on every well-formed queue, frees every
    queued message exactly once in FIFO order, and succeeds. *)
Theorem u_queue_delete_releases (h : node_heap) (q : u_queue_t) (l : list (loc * A)) :
  is_queue h q l ->
  exists h', u_queue_delete h (Some q) = Some (CA_STATUS_OK, h', None, l.*2) /\
    (forall a, a ∉ l.*1 -> h' !! a = h !! a).
Proof.
  intros Hq. pose proof (is_queue_size _ _ _ Hq) as Hlen. pose proof Hq as (Hc & Hsz & _).
  unfold u_queue_delete, u_queue_reset, NO_MESSAGES. case_decide as Hz.
  - destruct l; [|simpl in Hsz; lia]. simpl. eauto.
  - destruct (reset_loop_spec h q l (size h) Hq Hlen) as (h' & -> & Hh'). simpl. eauto.
Qed.
End UQueue.

(** ** Concrete instances *)

Definition sample_queue_heap : gmap loc (node Z) :=
<[1%N := Node 10 (Some 2%N)]> (<[2%N := Node 20 None]> empty).
Definition sample_queue : u_queue_t := {| element := Some 1%N; count := 2 |}.
Definition sample_messages : list (loc * Z) := [(1%N, 10); (2%N, 20)].

Lemma sample_is_queue : is_queue sample_queue_heap sample_queue sample_messages.
Proof.
split; [|split; [done|simpl; lia]]. split; [done|].
eexists. split; [reflexivity|]. split; [done|]. eexists. split; [reflexivity|done].
Qed.

Lemma u_queue_add_element_refines_witness :
(exists h' q', u_queue_add_element sample_queue_heap (Some sample_queue) (Some 30) (Some 3%N)
    = Some (CA_STATUS_OK, h', Some q') /\ is_queue h' q' (sample_messages ++ [(3%N, 30)])) /\
u_queue_add_element sample_queue_heap (Some sample_queue) (Some 30) None
  = Some (CA_MEMORY_ALLOC_FAILED, sample_queue_heap, Some sample_queue) /\
u_queue_add_element sample_queue_heap (Some sample_queue) None (Some 3%N)
  = Some (CA_STATUS_FAILED, sample_queue_heap, Some sample_queue).
Proof.
apply (u_queue_add_element_refines sample_queue_heap sample_queue sample_messages 30 3%N).
- exact sample_is_queue.
- reflexivity.
- simpl. lia.
Defined.

Lemma u_queue_get_element_refines_witness :
exists h' q', u_queue_get_element sample_queue_heap (Some sample_queue)
    = Some (Some 10, h', Some q') /\
  is_queue h' q' [(2%N, 20)] /\ h' !! 1%N = None /\
  u_queue_get_head sample_queue_heap (Some sample_queue) = Some (Some 10).
Proof.
exact (u_queue_get_element_refines sample_queue_heap sample_queue sample_messages
         sample_is_queue).
Defined.

Lemma u_queue_delete_releases_witness :
exists h', u_queue_delete sample_queue_heap (Some sample_queue)
    = Some (CA_STATUS_OK, h', None, [10; 20]) /\
  (forall a, a ∉ sample_messages.*1 -> h' !! a = sample_queue_heap !! a).
Proof.
exact (u_queue_delete_releases sample_queue_heap sample_queue sample_messages
         sample_is_queue).
Defined.
