(* ===== verification/OicString.v ===== *)
(** * OicString: bounded string copies of [c_common]

    Models [resource/c_common/oic_string/src/oic_string.c].  A [char] buffer
    is the list of its bytes; [strlen] and [strncat] are those of the C
    library, with every access outside the buffer undefined ([None]).  A NULL
    pointer argument is [None].  The functions return the pointer they return
    in C ([None] for NULL) with the buffer's new bytes. *)
From S2P Require Import Prelude.

(** ** The C library's functions *)

Fixpoint strlen (b : list Z) : ub Z :=
  match b with
  | [] => None
  | c :: b' => if c =? 0 then Some 0 else n ← strlen b'; Some (n + 1)
  end.

(** The characters [strncat] reads: up to [n], or up to the NUL. *)
Fixpoint src_prefix (n : nat) (b : list Z) : ub (list Z) :=
  match n with
  | O => Some []
  | S n =>
      match b with
      | [] => None
      | c :: b' => if c =? 0 then Some [] else r ← src_prefix n b'; Some (c :: r)
      end
  end.

Definition strncat (dest src : list Z) (n : Z) : ub (list Z) :=
  dl ← strlen dest;
  s ← src_prefix (Z.to_nat n) src;
  if decide (dl + Z.of_nat (length s) < Z.of_nat (length dest)) then
    Some (take (Z.to_nat dl) dest ++ s ++ [0]
          ++ drop (Z.to_nat dl + length s + 1) dest)
  else None.

(** [dest[0] = '\0']. *)
Definition set_nul (b : list Z) : ub (list Z) :=
  match b with [] => None | _ :: b' => Some (0 :: b') end.

(** [strchr], [strncmp] with a prefix and [strstr] on string contents. *)

(** The text after the first [c]. *)
Fixpoint after_char (c : Z) (s : list Z) : option (list Z) :=
  match s with
  | [] => None
  | x :: s' => if x =? c then Some s' else after_char c s'
  end.

Fixpoint has_prefix (p s : list Z) : bool :=
  match p, s with
  | [], _ => true
  | _ :: _, [] => false
  | x :: p', y :: s' => (x =? y) && has_prefix p' s'
  end.

Fixpoint strstr (s p : list Z) : bool :=
  has_prefix p s || match s with [] => false | _ :: s' => strstr s' p end.

(** The contents of a C string in a buffer; undefined without a NUL. *)
Fixpoint contents (b : list Z) : ub (list Z) :=
  match b with
  | [] => None
  | c :: b' => if c =? 0 then Some [] else s ← contents b'; Some (c :: s)
  end.

(** ** The module's functions *)

Definition min (a b : Z) : Z := if a <? b then a else b.

Definition OICStrcpyPartial (dest : option (list Z)) (destSize : Z)
    (source : option (list Z)) (sourceLen : Z) : ub (option (list Z)) :=
  match dest, source with
  | Some d, Some s =>
      if (destSize =? 0) || (sourceLen =? 0) then Some (Some d)
      else d' ← set_nul d; r ← strncat d' s (min (destSize - 1) sourceLen); Some (Some r)
  | _, _ => Some None
  end.

Definition OICStrcatPartial (dest : option (list Z)) (destSize : Z)
    (source : option (list Z)) (sourceLen : Z) : ub (option (list Z)) :=
  match dest, source with
  | Some d, Some s =>
      if (destSize =? 0) || (sourceLen =? 0) then Some (Some d)
      else
        destLen ← strlen d;
        if destSize <=? destLen then Some (Some d)
        else r ← strncat d s (min (destSize - destLen - 1) sourceLen); Some (Some r)
  | _, _ => Some None
  end.

Definition OICStrcpy (dest : option (list Z)) (destSize : Z) (source : option (list Z))
    : ub (option (list Z)) :=
  OICStrcpyPartial dest destSize source (if destSize =? 0 then 0 else destSize - 1).

Definition OICStrcat (dest : option (list Z)) (destSize : Z) (source : option (list Z))
    : ub (option (list Z)) :=
  OICStrcatPartial dest destSize source (if destSize =? 0 then 0 else destSize - 1).

(** [ok] is whether [OICMalloc(length + 1)] succeeds. *)
Definition OICStrdup (ok : bool) (str : option (list Z)) : ub (option (list Z)) :=
  match str with
  | None => Some None
  | Some s =>
      n ← strlen s;
      if ok then Some (Some (take (Z.to_nat (n + 1)) s)) else Some None
  end.

Fixpoint OICStringToLower (str : list Z) : ub (list Z) :=
  match str with
  | [] => None
  | c :: s =>
      if c =? 0 then Some str
      else
        rest ← OICStringToLower s;
        Some ((if (65 <=? c) && (c <=? 90) then c + 32 else c) :: rest)
  end.

(** ** Specification *)

(** [cstr b s]: the buffer [b] holds the C string with contents [s]. *)
Definition cstr (b s : list Z) : Prop := exists t, b = s ++ 0 :: t /\ 0 ∉ s.

Create HintDb cstring.

Lemma strlen_cstr b s : cstr b s -> strlen b = Some (Z.of_nat (length s)).
Proof.
  intros (t & -> & Hn). induction s as [|c s IH]; [done|]. simpl.
  rewrite (proj2 (Z.eqb_neq _ _)) by (intros ->; apply Hn; by left).
  rewrite IH by (by intros ?; apply Hn; right). simpl. f_equal. lia.
Qed.

Lemma src_prefix_cstr b s n : cstr b s -> src_prefix n b = Some (take n s).
Proof.
  intros (t & -> & Hn). revert n Hn. induction s as [|c s IH]; intros [|n] Hn; try done.
  simpl. rewrite (proj2 (Z.eqb_neq _ _)) by (intros ->; apply Hn; by left).
  rewrite IH by (by intros ?; apply Hn; right). done.
Qed.

Lemma cstr_not_nul b s : cstr b s -> 0 ∉ s.
Proof. by intros (t & _ & ?). Qed.

Lemma cstr_length b s : cstr b s -> (length s < length b)%nat.
Proof. intros (t & -> & _). rewrite length_app. simpl. lia. Qed.

#[export] Hint Resolve strlen_cstr src_prefix_cstr cstr_not_nul cstr_length : cstring.

Lemma after_char_split c s r : after_char c s = Some r ->
  exists pre, s = pre ++ c :: r /\ c ∉ pre.
Proof.
  revert r. induction s as [|x s IH]; intros r; simpl; [done|].
  destruct (Z.eqb_spec x c) as [->|Hne].
  - intros [= ->]. exists []. split; [done|]. apply not_elem_of_nil.
  - intros (pre & -> & Hn)%IH. exists (x :: pre). split; [done|]. set_solver.
Qed.


Lemma contents_cstr b s : cstr b s -> contents b = Some s.
Proof.
  intros (t & -> & Hn). induction s as [|c s IH]; [done|]. simpl.
  rewrite (proj2 (Z.eqb_neq _ _)) by (intros ->; set_solver).
  by rewrite IH by set_solver.
Qed.


(** [strncat] with enough room: the result holds the concatenation, the
    buffer keeps its size, and nothing past the new terminator changes. *)
Lemma strncat_spec dest d src s n :
  cstr dest d -> cstr src s -> 0 <= n ->
  (length d + Nat.min (Z.to_nat n) (length s) < length dest)%nat ->
  exists r, strncat dest src n = Some r /\ cstr r (d ++ take (Z.to_nat n) s) /\
    length r = length dest /\
    forall m, (length d + Nat.min (Z.to_nat n) (length s) < m)%nat -> drop m r = drop m dest.
Proof.
  intros Hd Hs Hn Hroom. unfold strncat.
  rewrite (strlen_cstr _ _ Hd). simpl. rewrite (src_prefix_cstr _ _ _ Hs). simpl.
  rewrite length_take, decide_True by lia.
  pose proof Hd as (t & -> & Hnd). rewrite Nat2Z.id.
  rewrite take_app_length.
  eexists. split; [reflexivity|]. split; [|split].
  - exists (drop (length d + Nat.min (Z.to_nat n) (length s) + 1) (d ++ 0 :: t)).
    split; [by rewrite <- app_assoc|].
    intros [?|(i & Hi & _)%elem_of_take]%elem_of_app; [done|].
    by eapply cstr_not_nul, list_elem_of_lookup_2.
  - rewrite !length_app, length_take. simpl. rewrite length_drop, !length_app in *.
    simpl in *. lia.
  - intros m Hm. rewrite drop_app_ge by lia. rewrite drop_app_ge by (rewrite length_take; lia).
    rewrite length_take. change [0] with ([0] ++ []). simpl.
    destruct (m - length d - Nat.min (Z.to_nat n) (length s))%nat as [|k] eqn:Ek; [lia|].
    simpl. rewrite drop_drop. f_equal. lia.
Qed.

Lemma cstr_set_nul b : (0 < length b)%nat ->
  exists b', set_nul b = Some b' /\ cstr b' [] /\ length b' = length b /\
    forall m, (0 < m)%nat -> drop m b' = drop m b.
Proof.
  destruct b as [|c b]; simpl; [lia|]. intros _. eexists. split; [done|]. split.
  - exists b. split; [done|]. apply not_elem_of_nil.
  - split; [done|]. intros [|m] ?; [lia|done].
Qed.

(** What a bounded copy of [s] into a buffer of [sz] bytes leaves there. *)
Definition copied (dest r : list Z) (sz : Z) (s : list Z) : Prop :=
  cstr r s /\ length r = length dest /\ drop (Z.to_nat sz) r = drop (Z.to_nat sz) dest.

Lemma take_min_len {B} (n k : nat) (s : list B) : take (Nat.min n k) s = take n (take k s).
Proof. by rewrite take_take. Qed.

Lemma OICStrcpyPartial_copied (dest src s : list Z) (destSize sourceLen : Z) :
  cstr src s -> 1 <= destSize <= Z.of_nat (length dest) -> 1 <= sourceLen ->
  exists r, OICStrcpyPartial (Some dest) destSize (Some src) sourceLen = Some (Some r) /\
    copied dest r destSize (take (Z.to_nat (Z.min (destSize - 1) sourceLen)) s).
Proof.
  intros Hs Hsz Hsl. unfold OICStrcpyPartial.
  rewrite (proj2 (Z.eqb_neq _ _)), (proj2 (Z.eqb_neq sourceLen _)) by lia. simpl.
  destruct (cstr_set_nul dest) as (d' & -> & Hd' & Hlen & Hdrop); [lia|]. simpl.
  assert (min (destSize - 1) sourceLen = Z.min (destSize - 1) sourceLen) as ->
    by (unfold min; destruct (Z.ltb_spec (destSize - 1) sourceLen); lia).
  destruct (strncat_spec d' [] src s (Z.min (destSize - 1) sourceLen))
    as (r & -> & Hr & Hrl & Hrd); try done; [lia|simpl; lia|].
  simpl. exists r. split; [done|]. split; [done|]. split; [congruence|].
  rewrite Hrd, Hdrop; [done|lia|simpl; lia].
Qed.

(** whenever [destSize] is at least 1 and at most the real size of the
    buffer, [OICStrcpyPartial] stays inside the first [destSize] bytes and
    leaves there the NUL-terminated prefix of the source of at most
    [min(destSize - 1, sourceLen)] characters. *)
Theorem OICStrcpyPartial_spec (dest src s : list Z) (destSize sourceLen : Z) :
  cstr src s -> 1 <= destSize <= Z.of_nat (length dest) -> 1 <= sourceLen ->
  exists r, OICStrcpyPartial (Some dest) destSize (Some src) sourceLen = Some (Some r) /\
    copied dest r destSize (take (Z.to_nat (Z.min (destSize - 1) sourceLen)) s).
Proof. apply OICStrcpyPartial_copied. Qed.

(** appending stays inside [destSize] bytes, keeps the old contents and
    adds as much of the source as fits, NUL-terminated. *)
Theorem OICStrcatPartial_spec (dest src d s : list Z) (destSize sourceLen : Z) :
  cstr dest d -> cstr src s -> Z.of_nat (length d) < destSize <= Z.of_nat (length dest) ->
  1 <= sourceLen ->
  exists r, OICStrcatPartial (Some dest) destSize (Some src) sourceLen = Some (Some r) /\
    copied dest r destSize
      (d ++ take (Z.to_nat (Z.min (destSize - Z.of_nat (length d) - 1) sourceLen)) s).
Proof.
  intros Hd Hs Hsz Hsl. unfold OICStrcatPartial.
  rewrite (proj2 (Z.eqb_neq _ _)), (proj2 (Z.eqb_neq sourceLen _)) by lia. simpl.
  rewrite (strlen_cstr _ _ Hd). simpl. rewrite (proj2 (Z.leb_gt _ _)) by lia.
  set (room := destSize - Z.of_nat (length d) - 1).
  assert (min room sourceLen = Z.min room sourceLen) as ->
    by (unfold min; destruct (Z.ltb_spec room sourceLen); lia).
  destruct (strncat_spec dest d src s (Z.min room sourceLen))
    as (r & -> & Hr & Hrl & Hrd); try done; [lia|lia|].
  simpl. exists r. split; [done|]. split; [done|]. split; [done|]. apply Hrd. lia.
Qed.

(** [OICStrcpy] copies the longest prefix that fits with its terminator
    when the buffer has at least two bytes, but a one-byte buffer is returned
    untouched: nothing terminates it, although the header promises it. *)
Theorem OICStrcpy_spec (dest src s : list Z) (destSize : Z) :
  cstr src s -> 0 <= destSize <= Z.of_nat (length dest) ->
  (2 <= destSize ->
     exists r, OICStrcpy (Some dest) destSize (Some src) = Some (Some r) /\
       copied dest r destSize (take (Z.to_nat (destSize - 1)) s)) /\
  (destSize <= 1 -> OICStrcpy (Some dest) destSize (Some src) = Some (Some dest)).
Proof.
  intros Hs Hsz. unfold OICStrcpy. split; intros Hc.
  - rewrite (proj2 (Z.eqb_neq _ _)) by lia.
    destruct (OICStrcpyPartial_copied dest src s destSize (destSize - 1) Hs) as (r & -> & Hr);
      [lia..|].
    exists r. split; [done|]. by rewrite Z.min_id in Hr.
  - unfold OICStrcpyPartial. destruct (Z.eqb_spec destSize 0) as [->|]; [done|].
    by replace (destSize - 1) with 0 by lia.
Qed.

Definition lower (c : Z) : Z := if (65 <=? c) && (c <=? 90) then c + 32 else c.

Lemma lower_nonzero c : c <> 0 -> lower c <> 0.
Proof. unfold lower. intros ?. destruct (_ && _) eqn:E; bool_to_prop; lia. Qed.

Lemma lower_idem c : lower (lower c) = lower c.
Proof.
  unfold lower. destruct ((65 <=? c) && (c <=? 90)) eqn:E; bool_to_prop; [|by rewrite E].
  destruct ((65 <=? c + 32) && (c + 32 <=? 90)) eqn:E2; bool_to_prop; lia.
Qed.

(** lower-casing is defined on every NUL-terminated buffer, maps each
    character, never moves the terminator, and is idempotent. *)
Theorem OICStringToLower_spec (b s : list Z) :
  cstr b s ->
  exists b', OICStringToLower b = Some b' /\ cstr b' (lower <$> s) /\
    OICStringToLower b' = Some b'.
Proof.
  intros (t & -> & Hn).
  assert (H : forall s, 0 ∉ s -> OICStringToLower (s ++ 0 :: t) = Some ((lower <$> s) ++ 0 :: t)).
  { clear s Hn. induction s as [|c s IH]; intros Hn; [done|]. simpl.
    rewrite (proj2 (Z.eqb_neq _ _)) by (intros ->; apply Hn; by left).
    rewrite IH by (by intros ?; apply Hn; right). done. }
  assert (Hn' : 0 ∉ lower <$> s).
  { intros (c & Hc & Hin)%list_elem_of_fmap. symmetry in Hc. revert Hc. apply lower_nonzero.
    by intros ->. }
  eexists. split; [by apply H|]. split; [by exists t|].
  rewrite H by done. rewrite <- list_fmap_compose. do 2 f_equal.
  apply list_fmap_ext. intros ? ? _. apply lower_idem.
Qed.

(** [OICStrdup] returns an exact terminated copy. *)
Lemma OICStrdup_spec b s :
  cstr b s -> OICStrdup true (Some b) = Some (Some (s ++ [0])).
Proof.
  intros Hs. unfold OICStrdup. rewrite (strlen_cstr _ _ Hs). simpl.
  destruct Hs as (t & -> & _).
  replace (Z.to_nat (Z.of_nat (length s) + 1)) with (length (s ++ [0%Z]))%nat
    by (rewrite length_app; simpl; lia).
  do 2 f_equal. change (0 :: t) with ([0] ++ t). by rewrite app_assoc, take_app_length.
Qed.

(** ** Concrete instances *)

Lemma chars_cstr (s t : list Z) : 0 ∉ s -> cstr (s ++ 0 :: t) s.
Proof. intros ?. by exists t. Qed.

Lemma OICStrcpyPartial_spec_witness :
  exists r, OICStrcpyPartial (Some (replicate 6 1)) 4 (Some [97; 98; 99; 100; 0]) 9 = Some (Some r) /\
    copied (replicate 6 1) r 4 [97; 98; 99].
Proof.
  apply (OICStrcpyPartial_spec (replicate 6 1) [97; 98; 99; 100; 0] [97; 98; 99; 100] 4 9).
  - apply (chars_cstr [97; 98; 99; 100] []). set_solver by lia.
  - simpl. lia.
  - lia.
Defined.

Lemma OICStrcatPartial_spec_witness :
  exists r, OICStrcatPartial (Some [120; 0; 1; 1; 1]) 4 (Some [97; 98; 99; 0]) 9 = Some (Some r) /\
    copied [120; 0; 1; 1; 1] r 4 [120; 97; 98].
Proof.
  apply (OICStrcatPartial_spec [120; 0; 1; 1; 1] [97; 98; 99; 0] [120] [97; 98; 99] 4 9).
  - apply (chars_cstr [120] [1; 1; 1]). set_solver by lia.
  - apply (chars_cstr [97; 98; 99] []). set_solver by lia.
  - simpl. lia.
  - lia.
Defined.

Lemma OICStrcpy_spec_witness :
  (2 <= 1 -> exists r, OICStrcpy (Some [7]) 1 (Some [97; 0]) = Some (Some r) /\
     copied [7] r 1 []) /\
  (1 <= 1 -> OICStrcpy (Some [7]) 1 (Some [97; 0]) = Some (Some [7])).
Proof.
  apply (OICStrcpy_spec [7] [97; 0] [97] 1).
  - apply (chars_cstr [97] []). set_solver by lia.
  - simpl. lia.
Defined.

Lemma OICStringToLower_spec_witness :
  exists b', OICStringToLower [65; 98; 90; 0; 9] = Some b' /\ cstr b' [97; 98; 122] /\
    OICStringToLower b' = Some b'.
Proof.
  apply (OICStringToLower_spec [65; 98; 90; 0; 9] [65; 98; 90]).
  apply (chars_cstr [65; 98; 90] [9]). set_solver by lia.
Defined.
