(* ===== verification/Base64.v ===== *)
(** * Base64: the encoder and decoder of the security layer

    Models [resource/csdk/security/src/base64.c].  Buffers are lists of byte
    codes, accesses outside them are undefined, NULL arguments are [None].
    The main theorems: the encoder computes the textbook encoding [enc_spec],
    the decoder is memory safe on every input, and decoding an encoding gives
    back the bytes. *)
From S2P Require Import Prelude.

Inductive B64Result := B64_OK | B64_INVALID_PARAM | B64_OUTPUT_BUFFER_TOO_SMALL | B64_ERROR.
#[export] Instance B64Result_eq_dec : EqDecision B64Result.
Proof. solve_decision. Defined.

Definition g_b64TransTbl : list Z :=
  Eval vm_compute in
    chars "ABCDEFGHIJKLMNOPQRSTUVWXYZabcdefghijklmnopqrstuvwxyz0123456789+/".

(** The character ['=']. *)
Definition PAD : Z := 61.

(** [in] and [out] point into larger objects: [inp] is what follows [in] in
    its object; the four characters are returned for the caller's [out]. *)
Definition b64EncodeBlk (inp : list Z) (len : Z) : ub (B64Result * list Z) :=
  if len =? 0 then Some (B64_INVALID_PARAM, [])
  else
    in0 ← byte_at inp 0;
    out0 ← byte_at g_b64TransTbl (in0 >>> 2);
    out1 ← (if len =? 1 then byte_at g_b64TransTbl ((in0 &&& 0x03) <<< 4)
            else in1 ← byte_at inp 1;
                 byte_at g_b64TransTbl (((in0 &&& 0x03) <<< 4) ||| ((in1 &&& 0xf0) >>> 4)));
    out2 ← (if len =? 2 then
              in1 ← byte_at inp 1; byte_at g_b64TransTbl ((in1 &&& 0x0f) <<< 2)
            else if 1 <? len then
              in1 ← byte_at inp 1; in2 ← byte_at inp 2;
              byte_at g_b64TransTbl (((in1 &&& 0x0f) <<< 2) ||| ((in2 &&& 0xc0) >>> 6))
            else Some PAD);
    out3 ← (if 2 <? len then in2 ← byte_at inp 2; byte_at g_b64TransTbl (in2 &&& 0x3f)
            else Some PAD);
    Some (B64_OK, [out0; out1; out2; out3]).

(** The [for] loop over the full blocks, [n] of them left to do. *)
Fixpoint encode_loop (inp outBuf : list Z) (i : Z) (n : nat) : ub (B64Result * list Z) :=
  match n with
  | O => Some (B64_OK, outBuf)
  | S n =>
      '(r, blk) ← b64EncodeBlk (drop (Z.to_nat (i * 3)) inp) 3;
      if decide (r <> B64_OK) then Some (B64_INVALID_PARAM, outBuf)
      else out ← write_at outBuf (i * 4) blk; encode_loop inp out (i + 1) n
  end.

Definition b64Encode (inp : option (list Z)) (inLen : Z) (outBuf : option (list Z))
    (outBufSize : Z) (outLen : option Z) : ub (B64Result * option (list Z) * option Z) :=
  match inp, outBuf, outLen with
  | Some inb, Some out, Some _ =>
      let ol := if inLen / 3 * 3 =? inLen then u64 (inLen / 3 * 4)
                else u64 ((inLen / 3 + 1) * 4) in
      let minBufSize := u64 (ol + 1) in
      if outBufSize <? minBufSize then
        Some (B64_OUTPUT_BUFFER_TOO_SMALL, outBuf, Some ol)
      else
        let i := inLen / 3 in
        '(r, out) ← encode_loop inb out 0 (Z.to_nat i);
        if decide (r <> B64_OK) then Some (B64_INVALID_PARAM, Some out, Some ol)
        else
          '(r, out) ←
            (if i * 3 =? inLen then Some (B64_OK, out)
             else
               '(r, blk) ← b64EncodeBlk (drop (Z.to_nat (i * 3)) inb) (inLen - i * 3);
               if decide (r <> B64_OK) then Some (B64_INVALID_PARAM, out)
               else o ← write_at out (i * 4) blk; Some (B64_OK, o));
          if decide (r <> B64_OK) then Some (B64_INVALID_PARAM, Some out, Some ol)
          else out ← write_at out ol [0]; Some (B64_OK, Some out, Some ol)
  | _, _, _ => Some (B64_INVALID_PARAM, outBuf, outLen)
  end.

Definition b64GetVal (c : Z) : Z :=
  if (65 <=? c) && (c <=? 90) then c - 65
  else if (97 <=? c) && (c <=? 122) then c - 97 + 26
  else if (48 <=? c) && (c <=? 57) then c - 48 + 52
  else if 43 =? c then 62
  else if 47 =? c then 63
  else if PAD =? c then 0
  else 0.

(** Is [c] one of the letters the validity check accepts? *)
Definition b64_letter (c : Z) : bool :=
  negb (((c <? 65) || (90 <? c)) && ((c <? 97) || (122 <? c)) && ((c <? 48) || (57 <? c))
        && negb (43 =? c) && negb (47 =? c) && negb (PAD =? c)).

(** The [for] loop of the validity check from index [i], [n] iterations left. *)
Fixpoint valid_loop (inp : list Z) (inLen i : Z) (n : nat) : ub B64Result :=
  match n with
  | O => Some B64_OK
  | S n =>
      c ← byte_at inp i;
      if negb (b64_letter c) then Some B64_ERROR
      else if PAD =? c then
        if i <? u64 (inLen - 2) then Some B64_ERROR
        else if i =? u64 (inLen - 2) then
          c' ← byte_at inp (i + 1);
          if negb (PAD =? c') then Some B64_ERROR else valid_loop inp inLen (i + 1) n
        else valid_loop inp inLen (i + 1) n
      else valid_loop inp inLen (i + 1) n
  end.

Definition isValidB64EncodedString (inp : list Z) (inLen : Z) : ub B64Result :=
  if negb (inLen mod 4 =? 0) then Some B64_ERROR
  else valid_loop inp inLen 0 (Z.to_nat inLen).

(** [out[k] = v] inside the block that starts at [off]. *)
Definition b64DecodeBlk (inp : list Z) (out : list Z) (off : Z) : ub (B64Result * list Z) :=
  in0 ← byte_at inp 0; in1 ← byte_at inp 1; in2 ← byte_at inp 2; in3 ← byte_at inp 3;
  let val := u32 (b64GetVal in0 <<< 18) ||| u32 (b64GetVal in1 <<< 12)
             ||| u32 (b64GetVal in2 <<< 6) ||| b64GetVal in3 in
  out ← write_at out off [(val >>> 16) &&& 0xff];
  out ← (if negb (PAD =? in2) then write_at out (off + 1) [(val >>> 8) &&& 0xff] else Some out);
  out ← (if negb (PAD =? in3) then write_at out (off + 2) [val &&& 0xff] else Some out);
  Some (B64_OK, out).

Fixpoint decode_loop (inp outBuf : list Z) (i : Z) (n : nat) : ub (B64Result * list Z) :=
  match n with
  | O => Some (B64_OK, outBuf)
  | S n =>
      '(r, out) ← b64DecodeBlk (drop (Z.to_nat (i * 4)) inp) outBuf (i * 3);
      if decide (r <> B64_OK) then Some (B64_INVALID_PARAM, out)
      else decode_loop inp out (i + 1) n
  end.

Definition b64Decode (inp : option (list Z)) (inLen : Z) (outBuf : option (list Z))
    (outBufSize : Z) (outLen : option Z) : ub (B64Result * option (list Z) * option Z) :=
  match inp, outBuf, outLen with
  | Some inb, Some out, Some _ =>
      v ← isValidB64EncodedString inb inLen;
      if decide (v <> B64_OK) then Some (B64_INVALID_PARAM, outBuf, outLen)
      else
        let size := u64 (inLen / 4 * 3) in
        size ← (if negb (inLen =? 0) then
                  c1 ← byte_at inb (inLen - 1);
                  c2 ← byte_at inb (inLen - 2);
                  let size := if PAD =? c1 then u64 (size - 1) else size in
                  Some (if PAD =? c2 then u64 (size - 1) else size)
                else Some size);
        (* [minBufSize] and [*outLen] start equal and are decremented together *)
        if outBufSize <? size then Some (B64_OUTPUT_BUFFER_TOO_SMALL, outBuf, Some size)
        else
          '(r, out) ← decode_loop inb out 0 (Z.to_nat (inLen / 4));
          Some (r, Some out, Some size)
  | _, _, _ => Some (B64_INVALID_PARAM, outBuf, outLen)
  end.

(** ** Specification *)

Definition sym (k : Z) : Z := default 0 (g_b64TransTbl !! Z.to_nat k).

(** The textbook encoding, three bytes at a time. *)
Fixpoint enc_spec (l : list Z) : list Z :=
  match l with
  | a :: b :: c :: l' =>
      [sym (a / 4); sym (a mod 4 * 16 + b / 16); sym (b mod 16 * 4 + c / 64); sym (c mod 64)]
      ++ enc_spec l'
  | [a; b] => [sym (a / 4); sym (a mod 4 * 16 + b / 16); sym (b mod 16 * 4); PAD]
  | [a] => [sym (a / 4); sym (a mod 4 * 16); PAD; PAD]
  | [] => []
  end.

Example enc_spec_light :
  enc_spec (chars "light w") = chars "bGlnaHQgdw==".
Proof. reflexivity. Qed.

(** ** The alphabet *)

Definition sym_ok (k : Z) : bool :=
  bool_decide (byte_at g_b64TransTbl k = Some (sym k)) && (b64GetVal (sym k) =? k)
  && negb (PAD =? sym k) && b64_letter (sym k).

Lemma sym_spec k : 0 <= k < 64 ->
  byte_at g_b64TransTbl k = Some (sym k) /\ b64GetVal (sym k) = k /\
  (PAD =? sym k) = false /\ b64_letter (sym k) = true.
Proof.
  intros Hk. assert (forallb sym_ok (seqZ 0 64) = true) as H by (vm_compute; done).
  rewrite forallb_forall in H. specialize (H k).
  rewrite <- list_elem_of_In, elem_of_seqZ in H. specialize (H ltac:(lia)).
  unfold sym_ok in H. bool_to_prop. repeat split; try done. by apply Z.eqb_neq.
Qed.

Create HintDb b64.

(** ** Sextets as arithmetic *)

Lemma sextet0 a : a >>> 2 = a / 4.
Proof. apply (shiftr_div a 2). lia. Qed.

Lemma low2 a : (a &&& 0x03) <<< 4 = a mod 4 * 16.
Proof. rewrite (land_ones_mod a 2), Z.shiftl_mul_pow2 by (reflexivity || lia). reflexivity. Qed.

Lemma sextet1 a b :
  is_byte b -> (a mod 4 * 16) ||| ((b &&& 0xf0) >>> 4) = a mod 4 * 16 + b / 16.
Proof.
  intros Hb. unfold is_byte in Hb. rewrite Z.shiftr_land.
  change (0xf0 >>> 4) with 15. rewrite (land_ones_mod _ 4), shiftr_div by (reflexivity || lia).
  change (2 ^ 4) with 16. rewrite (Z.mod_small (b / 16)) by
    (split; [apply Z.div_pos; lia | apply Z.div_lt_upper_bound; lia]).
  apply (lor_add _ 4); [lia|by apply Z.mod_mul|].
  split; [apply Z.div_pos; lia | apply Z.div_lt_upper_bound; lia].
Qed.

Lemma low4 b : (b &&& 0x0f) <<< 2 = b mod 16 * 4.
Proof. rewrite (land_ones_mod b 4), Z.shiftl_mul_pow2 by (reflexivity || lia). reflexivity. Qed.

Lemma sextet2 b c :
  is_byte c -> (b mod 16 * 4) ||| ((c &&& 0xc0) >>> 6) = b mod 16 * 4 + c / 64.
Proof.
  intros Hc. unfold is_byte in Hc. rewrite Z.shiftr_land.
  change (0xc0 >>> 6) with 3. rewrite (land_ones_mod _ 2), shiftr_div by (reflexivity || lia).
  change (2 ^ 6) with 64. change (2 ^ 2) with 4. rewrite (Z.mod_small (c / 64)) by
    (split; [apply Z.div_pos; lia | apply Z.div_lt_upper_bound; lia]).
  apply (lor_add _ 2); [lia|by apply Z.mod_mul|].
  split; [apply Z.div_pos; lia | apply Z.div_lt_upper_bound; lia].
Qed.

Lemma sextet3 c : c &&& 0x3f = c mod 64.
Proof. apply (land_ones_mod c 6); [reflexivity|lia]. Qed.

#[export] Hint Rewrite sextet0 low2 low4 sextet3 : cwrap_rw.

(** Every index the encoder computes is below 64. *)
Lemma sextets_range a b c : is_byte a -> is_byte b -> is_byte c ->
  0 <= a / 4 < 64 /\ 0 <= a mod 4 * 16 + b / 16 < 64 /\ 0 <= b mod 16 * 4 + c / 64 < 64 /\
  0 <= c mod 64 < 64 /\ 0 <= a mod 4 * 16 < 64 /\ 0 <= b mod 16 * 4 < 64.
Proof. unfold is_byte. intros. repeat split; Z.div_mod_to_equations; lia. Qed.

Lemma encode_blk_spec l n :
  Forall is_byte l -> (1 <= n <= 3)%nat -> (n <= length l)%nat ->
  b64EncodeBlk l (Z.of_nat n) = Some (B64_OK, enc_spec (take n l)).
Proof.
  intros Hb Hn Hlen.
  destruct n as [|[|[|[|n]]]]; try lia; destruct l as [|a [|b [|c l]]]; simpl in Hlen; try lia;
    rewrite ?Forall_cons in Hb; destruct_and?; unfold b64EncodeBlk; simpl;
    autorewrite with cwrap_rw; rewrite ?sextet1, ?sextet2 by done;
    repeat match goal with
    | |- context [byte_at g_b64TransTbl ?k] =>
        let H := fresh in
        assert (byte_at g_b64TransTbl k = Some (sym k)) as H
          by (apply sym_spec; unfold is_byte in *; Z.div_mod_to_equations; lia);
        rewrite H; clear H; simpl
    end; done.
Qed.

Lemma enc_spec_app l1 l2 :
  (exists k, length l1 = 3 * k)%nat -> enc_spec (l1 ++ l2) = enc_spec l1 ++ enc_spec l2.
Proof.
  intros [k Hk]. revert l1 Hk. induction k as [|k IH]; intros l1 Hk.
  - by destruct l1.
  - destruct l1 as [|a [|b [|c l1]]]; simpl in Hk; try lia.
    simpl. rewrite IH by lia. done.
Qed.

Lemma enc_spec_length l : length (enc_spec l) = (4 * ((length l + 2) / 3))%nat.
Proof.
  induction l as [l IH] using (induction_ltof1 _ (@length Z)).
  destruct l as [|a [|b [|c l]]]; try done.
  cbn [enc_spec]. rewrite length_app, (IH l) by (unfold ltof; simpl; lia).
  cbn [length]. replace (S (S (S (length l))) + 2)%nat with (length l + 2 + 1 * 3)%nat by lia.
  rewrite Nat.div_add by lia. lia.
Qed.

Lemma encode_loop_spec n i inp l pre mid post :
  drop (Z.to_nat (i * 3)) inp = l -> 0 <= i -> (3 * n <= length l)%nat -> Forall is_byte l ->
  Z.of_nat (length pre) = i * 4 -> length mid = (4 * n)%nat ->
  encode_loop inp (pre ++ mid ++ post) i n
    = Some (B64_OK, pre ++ enc_spec (take (3 * n) l) ++ post).
Proof.
  revert i l pre mid. induction n as [|n IH]; intros i l pre mid Hdrop Hi Hlen Hb Hpre Hmid.
  - destruct mid; [|done]. done.
  - cbn [encode_loop]. rewrite Hdrop.
    destruct l as [|a [|b [|c l']]]; simpl in Hlen; try lia.
    pose proof (encode_blk_spec (a :: b :: c :: l') 3 Hb ltac:(lia) ltac:(simpl; lia)) as Hblk.
    change (Z.of_nat 3) with 3 in Hblk. rewrite Hblk. cbn [mbind option_bind].
    rewrite decide_False by (intros Hne; by apply Hne).
    destruct mid as [|m0 [|m1 [|m2 [|m3 mid]]]]; simpl in Hmid; try lia.
    change (m0 :: m1 :: m2 :: m3 :: mid) with ([m0; m1; m2; m3] ++ mid).
    rewrite <- app_assoc, (write_at_app pre [m0; m1; m2; m3]); [|lia|reflexivity].
    cbn [mbind option_bind]. rewrite (app_assoc pre).
    rewrite (IH (i + 1) l').
    + replace (3 * S n)%nat with (3 + 3 * n)%nat by lia.
      change (take (3 + 3 * n) (a :: b :: c :: l')) with (a :: b :: c :: take (3 * n) l').
      cbn [enc_spec take]. by rewrite <- !app_assoc.
    + replace (Z.to_nat ((i + 1) * 3)) with (Z.to_nat (i * 3) + 3)%nat by lia.
      by rewrite <- drop_drop, Hdrop.
    + lia.
    + lia.
    + rewrite !Forall_cons in Hb. by destruct_and!.
    + rewrite length_app. simpl. lia.
    + lia.
Qed.

(** The length of the encoding, as the C code computes it. *)
Definition enc_len (n : Z) : Z := (n + 2) / 3 * 4.

Lemma enc_len_code n : 0 <= n < 2 ^ 62 ->
  (if n / 3 * 3 =? n then u64 (n / 3 * 4) else u64 ((n / 3 + 1) * 4)) = enc_len n.
Proof.
  intros Hn. unfold enc_len. rewrite !wrap_small by (Z.div_mod_to_equations; lia).
  destruct (Z.eqb_spec (n / 3 * 3) n); Z.div_mod_to_equations; lia.
Qed.

Lemma enc_spec_lengthZ l : Z.of_nat (length (enc_spec l)) = enc_len (Z.of_nat (length l)).
Proof.
  rewrite enc_spec_length. unfold enc_len. rewrite Nat2Z.inj_mul, Nat2Z.inj_div. lia.
Qed.

(** After the full blocks, the remainder block completes the encoding. *)
Lemma encode_tail_spec xs out (k m : nat) :
  Forall is_byte xs -> (0 <= length xs - 3 * k < 3)%nat -> (3 * k <= length xs)%nat ->
  m = (if decide (length xs = 3 * k)%nat then 0 else 4)%nat ->
  (4 * k + m <= length out)%nat ->
  let n := Z.of_nat (length xs) in let q := Z.of_nat k in
  let done_ := enc_spec (take (3 * k) xs) ++ drop (4 * k) out in
  (if q * 3 =? n then Some (B64_OK, done_)
   else '(r, blk) ← b64EncodeBlk (drop (Z.to_nat (q * 3)) xs) (n - q * 3);
        if decide (r <> B64_OK) then Some (B64_INVALID_PARAM, done_)
        else o ← write_at done_ (q * 4) blk; Some (B64_OK, o))
  = Some (B64_OK, enc_spec xs ++ drop (4 * k + m) out).
Proof.
  intros Hb Hr Hk Hm Hout n q done_.
  assert (Hxs : enc_spec xs = enc_spec (take (3 * k) xs) ++ enc_spec (drop (3 * k) xs)).
  { rewrite <- enc_spec_app, take_drop; [done|]. exists k. rewrite length_take. lia. }
  assert (Hl1 : length (enc_spec (take (3 * k) xs)) = (4 * k)%nat).
  { rewrite enc_spec_length, length_take, Nat.min_l by lia.
    replace (3 * k + 2)%nat with (2 + k * 3)%nat by lia. rewrite Nat.div_add by lia. done. }
  destruct (Z.eqb_spec (q * 3) n) as [He|Hne].
  - rewrite decide_True in Hm by lia. subst m. unfold done_.
    by rewrite Hxs, (drop_ge xs), app_nil_r, Nat.add_0_r by lia.
  - rewrite decide_False in Hm by lia. subst m.
    replace (n - q * 3) with (Z.of_nat (length xs - 3 * k)) by lia.
    replace (Z.to_nat (q * 3)) with (3 * k)%nat by lia.
    rewrite encode_blk_spec; [|by apply Forall_drop|lia|rewrite length_drop; lia].
    cbn [mbind option_bind]. rewrite decide_False by (intros Hx; by apply Hx).
    rewrite (take_ge (drop _ _)) by (rewrite length_drop; lia).
    assert (length (enc_spec (drop (3 * k) xs)) = 4%nat) as Hl2.
    { rewrite enc_spec_length, length_drop.
      assert ((length xs - 3 * k = 1)%nat \/ (length xs - 3 * k = 2)%nat) as [-> | ->] by lia;
        done. }
    unfold done_.
    assert (drop (4 * k) out = take 4 (drop (4 * k) out) ++ drop (4 * k + 4) out) as ->
      by (by rewrite <- drop_drop, take_drop).
    rewrite (write_at_app (enc_spec (take (3 * k) xs)) (take 4 (drop (4 * k) out))).
    + by rewrite Hxs, <- app_assoc.
    + lia.
    + rewrite Hl2, length_take, length_drop. lia.
Qed.

(** [b64Encode] produces the textbook encoding followed by a NUL and
    touches no other byte of the output; a buffer that is too small is
    reported, with the needed length, and left alone. *)
Theorem b64Encode_correct (xs out : list Z) (outBufSize ol0 : Z) :
  Forall is_byte xs -> Z.of_nat (length xs) < 2 ^ 62 ->
  0 <= outBufSize <= Z.of_nat (length out) ->
  b64Encode (Some xs) (Z.of_nat (length xs)) (Some out) outBufSize (Some ol0) =
    if outBufSize <? Z.of_nat (length (enc_spec xs)) + 1 then
      Some (B64_OUTPUT_BUFFER_TOO_SMALL, Some out, Some (Z.of_nat (length (enc_spec xs))))
    else
      Some (B64_OK, Some (enc_spec xs ++ 0 :: drop (length (enc_spec xs) + 1) out),
            Some (Z.of_nat (length (enc_spec xs)))).
Proof.
  intros Hb Hlen Hout. unfold b64Encode. rewrite enc_len_code, enc_spec_lengthZ by lia.
  set (n := Z.of_nat (length xs)) in *. set (ol := enc_len n).
  assert (0 <= ol < 2 ^ 63) as Hol by (unfold ol, enc_len; Z.div_mod_to_equations; lia).
  rewrite (wrap_small 64 (ol + 1)) by lia.
  destruct (Z.ltb_spec outBufSize (ol + 1)) as [|Hroom]; [done|].
  set (q := n / 3). assert (0 <= n - q * 3 < 3) as Hr by (unfold q; Z.div_mod_to_equations; lia).
  assert (0 <= q) as Hq by (unfold q; apply Z.div_pos; lia).
  (* the output as full blocks, remainder block, terminator, rest *)
  set (k := Z.to_nat q). set (m := Z.to_nat (ol - q * 4)).
  assert (Hm : m = if n - q * 3 =? 0 then 0%nat else 4%nat).
  { unfold m, ol, enc_len. destruct (Z.eqb_spec (n - q * 3) 0); Z.div_mod_to_equations; lia. }
  assert (out = [] ++ take (4 * k) out ++ drop (4 * k) out) as Hsplit by (by rewrite take_drop).
  assert (4 * k + m = Z.to_nat ol)%nat as Hkm.
  { rewrite Hm. unfold ol, enc_len, k. destruct (Z.eqb_spec (n - q * 3) 0);
      Z.div_mod_to_equations; lia. }
  rewrite Hsplit at 1. rewrite (encode_loop_spec k 0 xs xs);
    [|done|lia|lia|done|done|rewrite length_take; lia].
  cbn [mbind option_bind]. rewrite decide_False by (intros Hne; by apply Hne).
  assert (m = if decide (length xs = 3 * k)%nat then 0%nat else 4%nat) as Hm'.
  { rewrite Hm. destruct (Z.eqb_spec (n - q * 3) 0); case_decide; lia. }
  pose proof (encode_tail_spec xs out k m Hb ltac:(lia) ltac:(lia) Hm' ltac:(lia)) as Ht.
  cbn zeta in Ht. fold n in Ht. replace (Z.of_nat k) with q in Ht by lia.
  rewrite app_nil_l, Ht.
  cbn [mbind option_bind].
  rewrite decide_False by (intros Hne; by apply Hne).
  assert (Hlo : length (enc_spec xs) = Z.to_nat ol).
  { apply Nat2Z.inj. rewrite enc_spec_lengthZ. fold n. fold ol. lia. }
  rewrite Hkm, write_at_ok by (rewrite ?length_app, ?length_drop, ?Hlo; simpl; lia).
  cbn [mbind option_bind]. do 4 f_equal.
  rewrite <- Hlo, take_app_length. simpl. do 2 f_equal.
  rewrite drop_app_ge by lia. rewrite drop_drop. f_equal. lia.
Qed.

(** ** Decoding *)

Lemma b64GetVal_range c : 0 <= b64GetVal c < 64.
Proof.
  unfold b64GetVal.
  repeat match goal with |- context [if ?b then _ else _] => destruct b eqn:?; bool_to_prop end;
    lia.
Qed.

(** Four sextets packed into 24 bits, and the bytes read back. *)
Lemma packed_val k0 k1 k2 k3 :
  0 <= k0 < 64 -> 0 <= k1 < 64 -> 0 <= k2 < 64 -> 0 <= k3 < 64 ->
  u32 (k0 <<< 18) ||| u32 (k1 <<< 12) ||| u32 (k2 <<< 6) ||| k3
    = k0 * 2 ^ 18 + k1 * 2 ^ 12 + k2 * 2 ^ 6 + k3.
Proof.
  intros ????. rewrite !Z.shiftl_mul_pow2 by lia. rewrite !wrap_small by lia.
  rewrite (lor_add (k0 * 2 ^ 18) 18); [|lia|by apply Z.mod_mul|lia].
  rewrite (lor_add (k0 * 2 ^ 18 + k1 * 2 ^ 12) 12);
    [|lia|apply Z.mod_divide; [lia|exists (k0 * 64 + k1); lia]|lia].
  rewrite (lor_add _ 6);
    [lia|lia|apply Z.mod_divide; [lia|exists (k0 * 2 ^ 12 + k1 * 64 + k2); lia]|lia].
Qed.

Lemma byte2 v : (v >>> 16) &&& 0xff = v / 65536 mod 256.
Proof. rewrite (land_ones_mod _ 8), shiftr_div by (reflexivity || lia). reflexivity. Qed.
Lemma byte1 v : (v >>> 8) &&& 0xff = v / 256 mod 256.
Proof. rewrite (land_ones_mod _ 8), shiftr_div by (reflexivity || lia). reflexivity. Qed.
Lemma byte0 v : v &&& 0xff = v mod 256.
Proof. apply (land_ones_mod _ 8); [reflexivity|lia]. Qed.

(** The three bytes of a full block. *)
Lemma unpack3 a b c : is_byte a -> is_byte b -> is_byte c ->
  let v := a / 4 * 2 ^ 18 + (a mod 4 * 16 + b / 16) * 2 ^ 12
           + (b mod 16 * 4 + c / 64) * 2 ^ 6 + c mod 64 in
  v / 65536 mod 256 = a /\ v / 256 mod 256 = b /\ v mod 256 = c.
Proof.
  intros ? ? ? v. unfold is_byte in *.
  assert (v = a * 65536 + b * 256 + c) as -> by (unfold v; Z.div_mod_to_equations; lia).
  repeat split; Z.div_mod_to_equations; lia.
Qed.

#[local] Arguments Z.eqb : simpl never.
#[local] Arguments sym : simpl never.

Lemma pad_pad : (PAD =? PAD) = true.
Proof. done. Qed.

(** What one block of the decoder writes: the first [n] of its three bytes. *)
Lemma decode_blk_spec l rest pre mid post (n : nat) :
  Forall is_byte l -> length l = n -> (1 <= n <= 3)%nat -> length mid = n ->
  b64DecodeBlk (enc_spec l ++ rest) (pre ++ mid ++ post) (Z.of_nat (length pre))
    = Some (B64_OK, pre ++ l ++ post).
Proof.
  intros Hb Hl Hn Hmid.
  assert (H0 : is_byte 0) by (unfold is_byte; lia).
  assert (Hval0 : b64GetVal PAD = 0) by done.
  destruct n as [|[|[|[|n]]]]; try lia;
    destruct l as [|a [|b [|c [|? l]]]]; simpl in Hl; try lia;
    destruct mid as [|m0 [|m1 [|m2 [|? mid]]]]; simpl in Hmid; try lia;
    rewrite ?Forall_cons in Hb; destruct_and?;
    try (pose proof (sextets_range a 0 0 ltac:(done) H0 H0) as Hrg);
    try (pose proof (sextets_range a b 0 ltac:(done) ltac:(done) H0) as Hrg');
    try (pose proof (sextets_range a b c ltac:(done) ltac:(done) ltac:(done)) as Hrg'');
    destruct_and?; unfold b64DecodeBlk; simpl; rewrite ?Hval0, ?pad_pad;
    repeat match goal with
    | |- context [b64GetVal (sym ?k)] =>
        destruct (sym_spec k) as (_ & -> & _ & _); [lia|]
    | |- context [PAD =? sym ?k] =>
        destruct (sym_spec k) as (_ & _ & -> & _); [lia|]
    end;
    rewrite packed_val, ?byte2, ?byte1, ?byte0 by lia; simpl.
  - pose proof (unpack3 a 0 0 ltac:(done) H0 H0) as (Ha & _ & _).
    rewrite write_at_one by done. simpl. do 3 f_equal. f_equal.
    etransitivity; [|exact Ha]. do 2 f_equal. Z.div_mod_to_equations; lia.
  - pose proof (unpack3 a b 0 ltac:(done) ltac:(done) H0) as (Ha & Hbb & _).
    rewrite write_at_one by done. simpl. rewrite (cons_middle _ pre).
    rewrite app_assoc, write_at_one by (rewrite length_app; simpl; lia). simpl.
    rewrite <- app_assoc. simpl.
    match goal with |- Some (_, _ ++ ?x :: ?y :: _) = _ =>
      assert (x = a) as ->; [|assert (y = b) as ->; [|done]] end.
    + etransitivity; [|exact Ha]. do 2 f_equal. Z.div_mod_to_equations; lia.
    + etransitivity; [|exact Hbb]. do 2 f_equal. Z.div_mod_to_equations; lia.
  - pose proof (unpack3 a b c ltac:(done) ltac:(done) ltac:(done)) as (Ha & Hbb & Hc).
    cbn zeta in *. rewrite Ha, Hbb, Hc.
    rewrite write_at_one by done. simpl. rewrite (cons_middle a pre).
    rewrite app_assoc, write_at_one by (rewrite length_app; simpl; lia). simpl.
    rewrite (cons_middle b), app_assoc, write_at_one
      by (rewrite !length_app; simpl; lia). simpl.
    by rewrite <- !app_assoc.
Qed.

Definition at_ (inp : list Z) (j : Z) : Z := default 0 (inp !! Z.to_nat j).

Lemma byte_at_at inp j : 0 <= j < Z.of_nat (length inp) -> byte_at inp j = Some (at_ inp j).
Proof.
  intros Hj. unfold byte_at, at_. rewrite decide_True by lia.
  destruct (lookup_Some_le inp (Z.to_nat j)) as [c ->]; [lia|done].
Qed.

(** What the validity loop accepts at position [j]. *)
Definition pos_ok (inp : list Z) (inLen j : Z) : Prop :=
  b64_letter (at_ inp j) = true /\
  (at_ inp j = PAD -> inLen - 2 <= j /\ (j = inLen - 2 -> at_ inp (j + 1) = PAD)).

Lemma valid_loop_spec inp inLen i n :
  0 <= i -> i + Z.of_nat n = inLen -> (n = 0%nat \/ 4 <= inLen) -> inLen < 2 ^ 64 ->
  inLen <= Z.of_nat (length inp) ->
  exists r, valid_loop inp inLen i n = Some r /\
    (r = B64_OK <-> forall j, i <= j < inLen -> pos_ok inp inLen j).
Proof.
  intros Hi Hn H4 Hbig Hlen. revert i Hi Hn H4. induction n as [|n IH]; intros i Hi Hn H4.
  { exists B64_OK. split; [done|]. split; [intros _ j Hj; lia|done]. }
  assert (Hstep : forall r, (r = B64_OK <-> forall j, i + 1 <= j < inLen -> pos_ok inp inLen j) ->
    pos_ok inp inLen i -> (r = B64_OK <-> forall j, i <= j < inLen -> pos_ok inp inLen j)).
  { intros r Hr Hpos. rewrite Hr. split; intros H j Hj; [|apply H; lia].
    destruct (decide (j = i)) as [->|]; [done|]. apply H. lia. }
  assert (Hfail : ~ pos_ok inp inLen i ->
    (B64_ERROR = B64_OK <-> forall j, i <= j < inLen -> pos_ok inp inLen j)).
  { intros Hno. split; [done|]. intros H. exfalso. apply Hno, H. lia. }
  destruct (IH (i + 1)) as (r & Hr & Hiff); [lia|lia|lia|].
  cbn [valid_loop]. rewrite (byte_at_at inp i) by (clear - Hi Hn Hlen; lia). cbn [mbind option_bind].
  rewrite (wrap_small 64) by lia. unfold pos_ok in Hstep, Hfail.
  destruct (b64_letter (at_ inp i)) eqn:Hlet; simpl.
  2:{ exists B64_ERROR. split; [done|]. apply Hfail. by intros [? _]. }
  destruct (Z.eqb_spec PAD (at_ inp i)) as [Hp|Hp].
  2:{ exists r. split; [done|]. apply Hstep; [done|]. split; [done|]. congruence. }
  destruct (Z.ltb_spec i (inLen - 2)).
  { exists B64_ERROR. split; [done|]. apply Hfail. intros [_ H'].
    destruct (H' (eq_sym Hp)). lia. }
  destruct (Z.eqb_spec i (inLen - 2)) as [He|].
  - rewrite byte_at_at by lia. simpl. destruct (Z.eqb_spec PAD (at_ inp (i + 1))); simpl.
    + exists r. split; [done|]. apply Hstep; [done|]. split; [done|]. intros _. split; [lia|done].
    + exists B64_ERROR. split; [done|]. apply Hfail. intros [_ H'].
      destruct (H' (eq_sym Hp)) as [_ H'']. specialize (H'' He). congruence.
  - exists r. split; [done|]. apply Hstep; [done|]. split; [done|]. intros _. split; lia.
Qed.

Lemma isValid_spec inp inLen :
  0 <= inLen < 2 ^ 64 -> inLen <= Z.of_nat (length inp) ->
  exists r, isValidB64EncodedString inp inLen = Some r /\
    (r = B64_OK <-> inLen mod 4 = 0 /\ forall j, 0 <= j < inLen -> pos_ok inp inLen j).
Proof.
  intros Hl Hlen. unfold isValidB64EncodedString.
  destruct (Z.eqb_spec (inLen mod 4) 0) as [H4|H4]; simpl.
  - destruct (valid_loop_spec inp inLen 0 (Z.to_nat inLen)) as (r & Hr & Hiff); [lia|lia| |lia|done|].
    + destruct (decide (inLen = 0)); [left; lia|right; Z.div_mod_to_equations; lia].
    + exists r. split; [done|]. rewrite Hiff. naive_solver.
  - exists B64_ERROR. naive_solver.
Qed.

(** Splitting off the last, possibly partial, group of three. *)
Lemma split_last_group (xs : list Z) : xs <> [] ->
  exists ys r k, xs = ys ++ r /\ length ys = (3 * k)%nat /\ (1 <= length r <= 3)%nat.
Proof.
  intros Hne. set (k := ((length xs - 1) / 3)%nat).
  assert (length xs <> 0)%nat by (by destruct xs).
  assert (3 * k <= length xs - 1 < 3 * k + 3)%nat by
    (unfold k; pose proof (Nat.div_mod_eq (length xs - 1) 3);
     pose proof (Nat.mod_upper_bound (length xs - 1) 3); lia).
  exists (take (3 * k) xs), (drop (3 * k) xs), k.
  rewrite take_drop, length_take, length_drop. split; [done|lia].
Qed.

Lemma enc_spec_letters l c :
  Forall is_byte l -> (exists k, length l = 3 * k)%nat -> c ∈ enc_spec l ->
  b64_letter c = true /\ c <> PAD.
Proof.
  intros Hb [k Hk]. revert l Hb Hk. induction k as [|k IH]; intros l Hb Hk.
  { destruct l; [|done]. by intros ?%elem_of_nil. }
  destruct l as [|x [|y [|z l]]]; simpl in Hk; try lia.
  rewrite !Forall_cons in Hb. destruct_and?.
  destruct (sextets_range x y z) as (? & ? & ? & ? & _ & _); [done..|].
  cbn [enc_spec app]. rewrite !elem_of_cons. intros [->|[->|[->|[->|Hin]]]];
    try (match goal with |- context [sym ?q] =>
           destruct (sym_spec q) as (_ & _ & ?%Z.eqb_neq & ?); [lia|by split; [|congruence]] end).
  apply (IH l); [done|lia|done].
Qed.

Lemma at4_0 w x y z : at_ [w; x; y; z] 0 = w. Proof. done. Qed.
Lemma at4_1 w x y z : at_ [w; x; y; z] 1 = x. Proof. done. Qed.
Lemma at4_2 w x y z : at_ [w; x; y; z] 2 = y. Proof. done. Qed.
Lemma at4_3 w x y z : at_ [w; x; y; z] 3 = z. Proof. done. Qed.
#[export] Hint Rewrite at4_0 at4_1 at4_2 at4_3 : cwrap_rw.

Lemma enc_group_pos r j :
  Forall is_byte r -> (1 <= length r <= 3)%nat -> 0 <= j < 4 -> pos_ok (enc_spec r) 4 j.
Proof.
  intros Hb Hr Hj.
  destruct r as [|a [|b [|c [|? r]]]]; simpl in Hr; try lia; rewrite ?Forall_cons in Hb;
    destruct_and?;
    assert (j = 0 \/ j = 1 \/ j = 2 \/ j = 3) as Hj' by lia;
    assert (Hz0 : is_byte 0) by (unfold is_byte; lia);
    try (pose proof (sextets_range a 0 0 ltac:(done) Hz0 Hz0) as Hrg);
    try (pose proof (sextets_range a b 0 ltac:(done) ltac:(done) Hz0) as Hrg');
    try (pose proof (sextets_range a b c ltac:(done) ltac:(done) ltac:(done)) as Hrg'');
    destruct_and?; unfold pos_ok; destruct_or? Hj'; subst j;
    cbn [enc_spec app Z.add Pos.add Pos.succ]; autorewrite with cwrap_rw;
    try (match goal with |- context [sym ?q] =>
           destruct (sym_spec q) as (_ & _ & ?%Z.eqb_neq & ?); [lia|by split; [|congruence]] end);
    (split; [done|]; intros _; split; [lia|done || lia]).
Qed.

(** Positions of a well-formed prefix and of the last group of an encoding. *)
Lemma enc_valid xs tail :
  Forall is_byte xs ->
  forall j, 0 <= j < Z.of_nat (length (enc_spec xs)) ->
    pos_ok (enc_spec xs ++ tail) (Z.of_nat (length (enc_spec xs))) j.
Proof.
  intros Hb j Hj. destruct (decide (xs = [])) as [->|Hne]; [simpl in Hj; lia|].
  destruct (split_last_group xs Hne) as (ys & r & k & -> & Hys & Hr).
  apply Forall_app in Hb as [Hby Hbr].
  rewrite enc_spec_app in * by eauto.
  assert (length (enc_spec r) = 4%nat) as Hlr.
  { rewrite enc_spec_length. destruct (length r) as [|[|[|[|]]]]; try lia; done. }
  rewrite length_app, Hlr in *.
  destruct (decide (j < Z.of_nat (length (enc_spec ys)))) as [Hlt|Hge].
  - destruct (lookup_Some_le (enc_spec ys) (Z.to_nat j)) as [c Hc]; [lia|].
    destruct (enc_spec_letters ys c) as [Hlet Hnp]; [done|eauto| |].
    { by eapply list_elem_of_lookup_2. }
    unfold pos_ok, at_. rewrite <- app_assoc, lookup_app_l, Hc by lia. simpl.
    split; [done|]. done.
  - destruct (enc_group_pos r (j - Z.of_nat (length (enc_spec ys)))) as [Hlet Hpad];
      [done|done|lia|].
    assert (Hat : forall i, Z.of_nat (length (enc_spec ys)) <= i < Z.of_nat (length (enc_spec ys)) + 4 ->
      at_ ((enc_spec ys ++ enc_spec r) ++ tail) i = at_ (enc_spec r) (i - Z.of_nat (length (enc_spec ys)))).
    { intros i Hi. unfold at_. rewrite <- app_assoc, lookup_app_r, lookup_app_l by lia.
      do 2 f_equal. lia. }
    unfold pos_ok. rewrite Hat by lia. split; [done|]. intros Hp.
    destruct (Hpad Hp) as [? Hnext]. split; [lia|]. intros He. rewrite Hat by lia.
    replace (j + 1 - Z.of_nat (length (enc_spec ys)))
      with (j - Z.of_nat (length (enc_spec ys)) + 1) by lia.
    apply Hnext. lia.
Qed.

(** Decoding the blocks of an encoding, the last one possibly partial. *)
Lemma decode_loop_spec xs n : forall i inp rest pre mid post,
  drop (Z.to_nat (i * 4)) inp = enc_spec xs ++ rest -> 0 <= i ->
  Forall is_byte xs -> length (enc_spec xs) = (4 * n)%nat ->
  Z.of_nat (length pre) = i * 3 -> length mid = length xs ->
  decode_loop inp (pre ++ mid ++ post) i n = Some (B64_OK, pre ++ xs ++ post).
Proof.
  revert xs. induction n as [|n IH]; intros xs i inp rest pre mid post Hd Hi Hb Hn Hpre Hmid.
  - rewrite enc_spec_length in Hn.
    destruct xs as [|? xs]; [by destruct mid|].
    exfalso. simpl in Hn. pose proof (Nat.div_str_pos (S (length xs) + 2) 3). simpl in *. lia.
  - assert (exists r xs', xs = r ++ xs' /\ (1 <= length r <= 3)%nat /\
      (xs' = [] \/ length r = 3%nat)) as (r & xs' & -> & Hr & Hcase).
    { destruct xs as [|a [|b [|c xs]]]; [done|..].
      - exists [a], []. split; [done|]. simpl. lia || eauto with lia.
      - exists [a; b], []. split; [done|]. simpl. eauto with lia.
      - exists [a; b; c], xs. simpl. eauto with lia. }
    apply Forall_app in Hb as [Hbr Hbx].
    assert (enc_spec (r ++ xs') = enc_spec r ++ enc_spec xs') as He.
    { destruct Hcase as [->|H3]; [by rewrite !app_nil_r|]. apply enc_spec_app. by exists 1%nat. }
    assert (length (enc_spec r) = 4%nat) as Hlr.
    { rewrite enc_spec_length. destruct (length r) as [|[|[|[|]]]]; try lia; done. }
    rewrite He in Hd, Hn. rewrite length_app in Hn, Hmid. cbn [decode_loop]. rewrite Hd.
    rewrite <- (take_drop (length r) mid), <- app_assoc, <- (app_assoc _ (drop _ _)).
    rewrite <- Hpre, (decode_blk_spec r _ pre _ _ (length r)); [|done|done|lia|rewrite length_take; lia].
    cbn [mbind option_bind]. rewrite decide_False by (intros Hx; by apply Hx).
    rewrite (app_assoc pre).
    destruct Hcase as [->|H3].
    + assert (n = 0%nat) as -> by (simpl in Hn; lia). simpl in Hmid.
      rewrite (drop_ge mid) by lia. simpl. by rewrite app_nil_r, <- app_assoc.
    + rewrite (IH xs' (i + 1) inp rest); [by rewrite <- !app_assoc| |lia|done|lia| |].
      * replace (Z.to_nat ((i + 1) * 4)) with (Z.to_nat (i * 4) + 4)%nat by lia.
        rewrite <- drop_drop, Hd, <- app_assoc. by rewrite <- Hlr, drop_app_length.
      * rewrite length_app. lia.
      * rewrite length_drop. lia.
Qed.

(** The decoder's size computation on an encoding. *)
Lemma decoded_size xs tail :
  Forall is_byte xs -> xs <> [] -> let inp := enc_spec xs ++ tail in
  let n := Z.of_nat (length (enc_spec xs)) in
  n / 4 * 3 - (if PAD =? at_ inp (n - 1) then 1 else 0)
            - (if PAD =? at_ inp (n - 2) then 1 else 0) = Z.of_nat (length xs).
Proof.
  intros Hb Hne. destruct (split_last_group xs Hne) as (ys & r & k & -> & Hys & Hr).
  apply Forall_app in Hb as [_ Hbr].
  assert (length (enc_spec ys) = (4 * k)%nat) as Hly.
  { rewrite enc_spec_length, Hys. replace (3 * k + 2)%nat with (2 + k * 3)%nat by lia.
    rewrite Nat.div_add by lia. done. }
  rewrite enc_spec_app by eauto. cbn zeta. rewrite length_app, Hly.
  assert (length (enc_spec r) = 4%nat) as Hlr.
  { rewrite enc_spec_length. destruct (length r) as [|[|[|[|]]]]; try lia; done. }
  rewrite Hlr. replace (Z.of_nat (4 * k + 4) / 4) with (Z.of_nat k + 1)
    by (Z.div_mod_to_equations; lia).
  assert (Hat : forall i, 0 <= i < 4 ->
    at_ ((enc_spec ys ++ enc_spec r) ++ tail) (Z.of_nat (4 * k) + i) = at_ (enc_spec r) i).
  { intros i Hi. unfold at_. rewrite <- app_assoc, lookup_app_r, lookup_app_l by lia.
    do 2 f_equal. lia. }
  replace (Z.of_nat (4 * k + 4) - 1) with (Z.of_nat (4 * k) + 3) by lia.
  replace (Z.of_nat (4 * k + 4) - 2) with (Z.of_nat (4 * k) + 2) by lia.
  rewrite !Hat by lia. rewrite length_app, Hys.
  destruct r as [|a [|b [|c [|? r]]]]; simpl in Hr; try lia; rewrite ?Forall_cons in Hbr;
    destruct_and?; cbn [enc_spec app]; autorewrite with cwrap_rw;
    try (pose proof (sextets_range a b 0 ltac:(done) ltac:(done) ltac:(unfold is_byte; lia)));
    try (pose proof (sextets_range a b c ltac:(done) ltac:(done) ltac:(done)));
    destruct_and?;
    repeat match goal with
    | |- context [PAD =? sym ?q] => destruct (sym_spec q) as (_ & _ & -> & _); [lia|]
    end; rewrite ?pad_pad; simpl; lia.
Qed.

(** C25: decoding is the inverse of encoding: whatever follows the encoded
    text in the input buffer and whatever the output buffer held, the decoder
    accepts the encoding of [xs], reports the exact length, writes back the
    bytes [xs] and leaves the rest of the output alone. *)
Theorem b64Decode_encode_roundtrip (xs tail out : list Z) (outBufSize ol0 : Z) :
  Forall is_byte xs -> Z.of_nat (length xs) < 2 ^ 60 ->
  Z.of_nat (length xs) <= outBufSize <= Z.of_nat (length out) ->
  b64Decode (Some (enc_spec xs ++ tail)) (Z.of_nat (length (enc_spec xs))) (Some out)
      outBufSize (Some ol0)
    = Some (B64_OK, Some (xs ++ drop (length xs) out), Some (Z.of_nat (length xs))).
Proof.
  intros Hb Hlen Hout. set (inp := enc_spec xs ++ tail). set (n := Z.of_nat (length (enc_spec xs))).
  assert (Hn : n = enc_len (Z.of_nat (length xs))) by apply enc_spec_lengthZ.
  unfold enc_len in Hn.
  assert (0 <= n < 2 ^ 62 /\ n mod 4 = 0) as [Hnb Hn4] by (Z.div_mod_to_equations; lia).
  assert (n <= Z.of_nat (length inp)) as Hni by (unfold inp, n; rewrite length_app; lia).
  unfold b64Decode. destruct (isValid_spec inp n) as (r & -> & Hr); [lia|lia|].
  cbn [mbind option_bind]. rewrite decide_False.
  2:{ intros Hne. apply Hne, Hr. split; [done|]. by apply enc_valid. }
  rewrite (wrap_small 64 (n / 4 * 3)) by (Z.div_mod_to_equations; lia).
  assert (Hsize : (if negb (n =? 0) then
      c1 ← byte_at inp (n - 1); c2 ← byte_at inp (n - 2);
      let size := if PAD =? c1 then u64 (n / 4 * 3 - 1) else n / 4 * 3 in
      Some (if PAD =? c2 then u64 (size - 1) else size)
    else Some (n / 4 * 3)) = Some (Z.of_nat (length xs))).
  { destruct (decide (xs = [])) as [->|Hne]; [done|].
    pose proof (decoded_size xs tail Hb Hne) as Hd. cbn zeta in Hd. fold inp n in Hd.
    assert (0 < length xs)%nat by (destruct xs; [done|simpl; lia]).
    rewrite (proj2 (Z.eqb_neq n 0)) by (Z.div_mod_to_equations; lia). cbn [negb].
    rewrite !byte_at_at by (Z.div_mod_to_equations; lia). cbn [mbind option_bind].
    f_equal. rewrite <- Hd.
    destruct (PAD =? at_ inp (n - 1)), (PAD =? at_ inp (n - 2)); rewrite ?wrap_small; 
      rewrite ?wrap_small; try lia; Z.div_mod_to_equations; lia. }
  cbn [mbind option_bind] in Hsize. rewrite Hsize. cbn [mbind option_bind].
  rewrite (proj2 (Z.ltb_ge _ _)) by lia.
  rewrite <- (take_drop (length xs) out) at 1.
  rewrite <- (app_nil_l (take _ out ++ _)).
  rewrite (decode_loop_spec xs _ 0 inp tail [] (take (length xs) out)); try done.
  - fold n. apply Nat2Z.inj. rewrite Nat2Z.inj_mul, Z2Nat.id by (Z.div_mod_to_equations; lia).
    fold n. Z.div_mod_to_equations; lia.
  - rewrite length_take. lia.
Qed.

(** Bytes the decoder may write for block [b] of [inp]. *)
Definition block_fits (inp : list Z) (size b : Z) : Prop :=
  3 * b + 1 <= size /\ (at_ inp (4 * b + 2) <> PAD -> 3 * b + 2 <= size) /\
  (at_ inp (4 * b + 3) <> PAD -> 3 * b + 3 <= size).

Lemma decode_loop_safe inp n : forall out i,
  0 <= i -> 4 * (i + Z.of_nat n) <= Z.of_nat (length inp) ->
  (forall b, i <= b < i + Z.of_nat n -> block_fits inp (Z.of_nat (length out)) b) ->
  exists out', decode_loop inp out i n = Some (B64_OK, out') /\ length out' = length out.
Proof.
  induction n as [|n IH]; intros out i Hi Hlen Hfit; [by exists out|].
  assert (Hin : forall j, 0 <= j < 4 ->
    byte_at (drop (Z.to_nat (i * 4)) inp) j = Some (at_ inp (4 * i + j))).
  { intros j Hj. unfold byte_at. rewrite decide_True, lookup_drop by lia.
    destruct (lookup_Some_le inp (Z.to_nat (4 * i + j))) as [c Hc]; [lia|].
    unfold at_. rewrite Hc. simpl. rewrite <- Hc. f_equal. lia. }
  assert (Hw : forall (o : list Z) k v, length o = length out -> 0 <= k ->
    k + 1 <= Z.of_nat (length out) -> exists o', write_at o k [v] = Some o' /\ length o' = length out).
  { intros o k v Ho Hk Hle. rewrite write_at_ok by (simpl; lia). eexists. split; [done|].
    rewrite !length_app, length_take, length_drop. simpl. lia. }
  assert (Hblk : exists out', b64DecodeBlk (drop (Z.to_nat (i * 4)) inp) out (i * 3)
      = Some (B64_OK, out') /\ length out' = length out).
  { destruct (Hfit i) as (H1 & H2 & H3); [lia|].
    unfold b64DecodeBlk. rewrite !Hin by lia. cbn [mbind option_bind]. rewrite Z.add_0_r.
    match goal with |- context [write_at out (i * 3) [?v]] =>
      destruct (Hw out (i * 3) v) as (o1 & -> & Ho1); [done|lia|lia|] end.
    cbn [mbind option_bind].
    assert (Hopt : forall (o : list Z) c k v, length o = length out -> 0 <= k ->
      (c <> PAD -> k + 1 <= Z.of_nat (length out)) ->
      exists o', (if negb (PAD =? c) then write_at o k [v] else Some o) = Some o' /\
        length o' = length out).
    { intros o c k v Ho Hk Hle. destruct (Z.eqb_spec PAD c); simpl; [by eauto|].
      apply Hw; [done|done|]. apply Hle. congruence. }
    match goal with |- context [write_at o1 (i * 3 + 1) [?v]] =>
      destruct (Hopt o1 (at_ inp (4 * i + 2)) (i * 3 + 1) v) as (o2 & -> & Ho2);
        [done|lia|intros Hc; specialize (H2 Hc); lia|] end.
    cbn [mbind option_bind].
    match goal with |- context [write_at o2 (i * 3 + 2) [?v]] =>
      destruct (Hopt o2 (at_ inp (4 * i + 3)) (i * 3 + 2) v) as (o3 & -> & Ho3);
        [done|lia|intros Hc; specialize (H3 Hc); lia|] end.
    cbn [mbind option_bind]. eauto. }
  destruct Hblk as (out' & Hout' & Hl'). cbn [decode_loop]. rewrite Hout'.
  cbn [mbind option_bind]. rewrite decide_False by (intros Hx; by apply Hx).
  destruct (IH out' (i + 1)) as (o & Ho & Hlo); [lia|lia| |by exists o; rewrite Hlo].
  intros b Hb. rewrite Hl'. apply Hfit. lia.
Qed.

(** on every input, valid or not, [b64Decode] reads only the first [inLen]
    characters, writes only inside the output buffer, and terminates with one
    of its result codes. *)
Theorem b64Decode_memory_safe (inp out : list Z) (inLen outBufSize ol0 : Z) :
  0 <= inLen < 2 ^ 62 -> inLen <= Z.of_nat (length inp) ->
  0 <= outBufSize <= Z.of_nat (length out) ->
  exists r out' ol, b64Decode (Some inp) inLen (Some out) outBufSize (Some ol0)
      = Some (r, Some out', Some ol) /\ length out' = length out.
Proof.
  intros Hl Hlen Hout. unfold b64Decode.
  destruct (isValid_spec inp inLen) as (r & -> & Hr); [lia|lia|]. cbn [mbind option_bind].
  case_decide as Hok; [by eauto 6|].
  assert (r = B64_OK) as Hrok by (destruct (decide (r = B64_OK)); naive_solver).
  apply Hr in Hrok as [H4 Hpos].
  rewrite (wrap_small 64 (inLen / 4 * 3)) by (Z.div_mod_to_equations; lia).
  destruct (Z.eqb_spec inLen 0) as [->|Hne].
  { cbn [negb mbind option_bind]. change (0 / 4 * 3) with 0.
    rewrite (proj2 (Z.ltb_ge _ _)) by lia. simpl. eauto 6. }
  assert (4 <= inLen) by (Z.div_mod_to_equations; lia).
  cbn [negb]. rewrite !byte_at_at by lia. cbn [mbind option_bind].
  set (p1 := PAD =? at_ inp (inLen - 1)). set (p2 := PAD =? at_ inp (inLen - 2)).
  set (size := if p2 then _ else _).
  assert (size = inLen / 4 * 3 - Z.b2z p1 - Z.b2z p2) as Hsize.
  { unfold size. destruct p1, p2; simpl; rewrite ?wrap_small; rewrite ?wrap_small;
      try lia; Z.div_mod_to_equations; lia. }
  destruct (Z.ltb_spec outBufSize size) as [|Hfit]; [by eauto 6|].
  destruct (decode_loop_safe inp (Z.to_nat (inLen / 4)) out 0) as (out' & -> & Hlo).
  - lia.
  - Z.div_mod_to_equations; lia.
  - intros b Hb. assert (size <= Z.of_nat (length out)) as Hs by lia.
    assert (inLen = 4 * (inLen / 4)) as Hi by (Z.div_mod_to_equations; lia).
    destruct (Z.eq_dec b (inLen / 4 - 1)) as [->|]; unfold block_fits.
    + replace (4 * (inLen / 4 - 1) + 2) with (inLen - 2) by lia.
      replace (4 * (inLen / 4 - 1) + 3) with (inLen - 1) by lia.
      destruct (Hpos (inLen - 2)) as [_ Hp2]; [lia|].
      unfold p1, p2 in Hsize.
      destruct (Z.eqb_spec PAD (at_ inp (inLen - 1))) as [E1|E1];
        destruct (Z.eqb_spec PAD (at_ inp (inLen - 2))) as [E2|E2];
        simpl in Hsize; split_and!; try lia; intros Hc; try congruence.
      destruct (Hp2 (eq_sym E2)) as [_ Hx]. specialize (Hx ltac:(lia)).
      replace (inLen - 2 + 1) with (inLen - 1) in Hx by lia. congruence.
    + destruct p1, p2; simpl in Hsize; lia.
  - cbn [mbind option_bind]. eauto 6.
Qed.

(** ** Concrete instances *)

Lemma b64Encode_correct_witness :
  b64Encode (Some [77; 97]) 2 (Some (replicate 6 1)) 6 (Some 0)
    = Some (B64_OK, Some [84; 87; 69; 61; 0; 1], Some 4).
Proof.
  apply (b64Encode_correct [77; 97] (replicate 6 1) 6 0).
  - repeat constructor; lia.
  - simpl. lia.
  - simpl. lia.
Defined.

Lemma b64Decode_encode_roundtrip_witness :
  b64Decode (Some [84; 87; 69; 61; 0]) 4 (Some (replicate 3 1)) 3 (Some 0)
    = Some (B64_OK, Some [77; 97; 1], Some 2).
Proof.
  apply (b64Decode_encode_roundtrip [77; 97] [0] (replicate 3 1) 3 0).
  - repeat constructor; lia.
  - simpl. lia.
  - simpl. lia.
Defined.

Lemma b64Decode_memory_safe_witness :
  exists r out' ol, b64Decode (Some [84; 61; 61; 61]) 4 (Some (replicate 3 1)) 3 (Some 0)
      = Some (r, Some out', Some ol) /\ length out' = 3%nat.
Proof.
  apply (b64Decode_memory_safe [84; 61; 61; 61] (replicate 3 1) 4 3 0).
  - lia.
  - simpl. lia.
  - simpl. lia.
Defined.
