(* ===== verification/Fragmentation.v ===== *)
(** * Fragmentation: packet headers and fragments of the BLE transport

    Models [resource/csdk/connectivity/src/adapter_util/cafragmentation.c]:
    the two-byte fragment header packed with bit fields, the four-byte payload
    length header, and the splitting of a payload into a first segment and
    MTU-sized remaining segments.  Buffers are byte lists with bounds-checked
    accesses; [~], [<<] and [>>] act on 32-bit [unsigned]. *)
From S2P Require Import Prelude.

Definition CA_SUPPORTED_BLE_MAX_PORT : Z := 127.
Definition CA_SUPPORTED_BLE_MIN_PORT : Z := 1.
Definition CA_BLE_MULTICAST_PORT : Z := 0.
Definition CA_BLE_HEADER_SIZE : Z := 2.
Definition CA_BLE_LENGTH_HEADER_SIZE : Z := 4.

Definition CA_BLE_START_POS : Z := 7.
Definition CA_BLE_START_LEN : Z := 1.
Definition CA_BLE_SOURCE_PORT_POS : Z := 6.
Definition CA_BLE_SOURCE_PORT_LEN : Z := 7.
Definition CA_BLE_SECURE_POS : Z := 7.
Definition CA_BLE_SECURE_LEN : Z := 1.
Definition CA_BLE_DESTINATION_PORT_POS : Z := 6.
Definition CA_BLE_DESTINATION_PORT_LEN : Z := 7.

Definition CA_BLE_PACKET_NOT_START : Z := 0.
Definition CA_BLE_PACKET_START : Z := 1.
Definition CA_BLE_PACKET_NON_SECURE : Z := 0.
Definition CA_BLE_PACKET_SECURE : Z := 1.

(** [~x] and [~0u << k] on a 32-bit unsigned. *)
Definition unot (x : Z) : Z := 2 ^ 32 - 1 - x.
Definition ones_shl (k : Z) : Z := u32 ((2 ^ 32 - 1) <<< k).

(** Returns the new value of [*x]. *)
Definition CASetBits (x p n v : Z) : Z :=
  if p + 1 <? n then x
  else if unot (ones_shl n) <? v then x
  else u8 ((x &&& unot (ones_shl (p - n + 1))) ||| (x &&& ones_shl (p + 1))
           ||| u32 ((v &&& unot (ones_shl n)) <<< (p - n + 1))).

Definition CAGetBits (x p n : Z) : Z := u8 ((x >>> (p + 1 - n)) &&& unot (ones_shl n)).

(** Result, [*midPacketCount], [*remainingLen], [*totalLength]. *)
Definition CAGenerateVariableForFragmentation (dataLength mtuSize : Z)
    : CAResult_t * option (Z * Z * Z) :=
  let dataOnlyLen := u64 (mtuSize - (CA_BLE_HEADER_SIZE + CA_BLE_LENGTH_HEADER_SIZE)) in
  let remainDataSize :=
    if dataLength <? dataOnlyLen then 0 else u64 (dataLength - dataOnlyLen) in
  if mtuSize - CA_BLE_HEADER_SIZE <=? 0 then (CA_STATUS_FAILED, None)
  else
    let midPacketCount := u32 remainDataSize / (mtuSize - CA_BLE_HEADER_SIZE) in
    let remainingLen := u32 remainDataSize mod (mtuSize - CA_BLE_HEADER_SIZE) in
    let remainHeaderSize :=
      u32 (CA_BLE_HEADER_SIZE * u32 (midPacketCount + (if remainingLen =? 0 then 0 else 1))) in
    let totalLength :=
      u64 (dataLength + (CA_BLE_HEADER_SIZE + CA_BLE_LENGTH_HEADER_SIZE) + remainHeaderSize) in
    (CA_STATUS_OK, Some (midPacketCount, remainingLen, totalLength)).

(** Bit fields of one header byte. *)
Definition update_byte (header : list Z) (i p n v : Z) : ub (list Z) :=
  x ← byte_at header i; write_at header i [CASetBits x p n v].

Definition CAGenerateHeader (header : option (list Z)) (type sourcePort secure destPort : Z)
    : ub (CAResult_t * option (list Z)) :=
  match header with
  | None => Some (CA_STATUS_INVALID_PARAM, None)
  | Some h =>
      if (CA_SUPPORTED_BLE_MAX_PORT <? sourcePort) || (sourcePort <? CA_SUPPORTED_BLE_MIN_PORT)
         || (CA_SUPPORTED_BLE_MAX_PORT <? destPort)
      then Some (CA_STATUS_FAILED, header)
      else
        h ← update_byte h 0 CA_BLE_START_POS CA_BLE_START_LEN type;
        h ← update_byte h 0 CA_BLE_SOURCE_PORT_POS CA_BLE_SOURCE_PORT_LEN sourcePort;
        h ← update_byte h 1 CA_BLE_SECURE_POS CA_BLE_SECURE_LEN secure;
        h ← update_byte h 1 CA_BLE_DESTINATION_PORT_POS CA_BLE_DESTINATION_PORT_LEN destPort;
        Some (CA_STATUS_OK, Some h)
  end.

(** The loop of [CAGenerateHeaderPayloadLength] from [idx], [n] rounds left:
    the bytes from the last to the second, then what is left of the length. *)
Fixpoint length_header_loop (h : list Z) (dataLength idx : Z) (n : nat) : ub (list Z * Z) :=
  match n with
  | O => Some (h, dataLength)
  | S n =>
      h ← write_at h (CA_BLE_LENGTH_HEADER_SIZE - idx) [dataLength &&& 0xFF];
      length_header_loop h (dataLength >>> 8) (idx + 1) n
  end.

Definition CAGenerateHeaderPayloadLength (header : option (list Z)) (headerLength dataLength : Z)
    : ub (CAResult_t * option (list Z)) :=
  match header with
  | None => Some (CA_STATUS_INVALID_PARAM, None)
  | Some h =>
      if negb (headerLength =? CA_BLE_LENGTH_HEADER_SIZE) then Some (CA_STATUS_FAILED, header)
      else
        '(h, dataLength) ←
          length_header_loop h dataLength 1 (Z.to_nat (CA_BLE_LENGTH_HEADER_SIZE - 1));
        h ← write_at h 0 [dataLength &&& 0xFF];
        Some (CA_STATUS_OK, Some h)
  end.

Definition CAMakeFirstDataSegment (dataSegment : option (list Z)) (data : list Z)
    (dataLength : Z) (dataHeader lengthHeader : option (list Z))
    : ub (CAResult_t * option (list Z)) :=
  match dataSegment, dataHeader, lengthHeader with
  | Some seg, Some dh, Some lh =>
      hd ← read_at dh 0 CA_BLE_HEADER_SIZE;
      seg ← write_at seg 0 hd;
      ln ← read_at lh 0 CA_BLE_LENGTH_HEADER_SIZE;
      seg ← write_at seg CA_BLE_HEADER_SIZE ln;
      d ← read_at data 0 dataLength;
      seg ← write_at seg (CA_BLE_HEADER_SIZE + CA_BLE_LENGTH_HEADER_SIZE) d;
      Some (CA_STATUS_OK, Some seg)
  | _, _, _ => Some (CA_STATUS_INVALID_PARAM, dataSegment)
  end.

Definition CAMakeRemainDataSegment (dataSegment : option (list Z)) (segmentPayloadLength : Z)
    (sourceData : list Z) (sourceDataLength segmentNum : Z) (dataHeader : option (list Z))
    (mtuSize : Z) : ub (CAResult_t * option (list Z)) :=
  match dataSegment, dataHeader with
  | Some seg, Some dh =>
      let index := u32 ((mtuSize - CA_BLE_HEADER_SIZE - CA_BLE_LENGTH_HEADER_SIZE)
                        + u32 (segmentNum * u32 (mtuSize - CA_BLE_HEADER_SIZE))) in
      if sourceDataLength <? u32 (index + segmentPayloadLength) then
        Some (CA_STATUS_FAILED, dataSegment)
      else
        hd ← read_at dh 0 CA_BLE_HEADER_SIZE;
        seg ← write_at seg 0 hd;
        d ← read_at sourceData index segmentPayloadLength;
        seg ← write_at seg CA_BLE_HEADER_SIZE d;
        Some (CA_STATUS_OK, Some seg)
  | _, _ => Some (CA_STATUS_INVALID_PARAM, dataSegment)
  end.

(** Result with [*startFlag], [*sourcePort], [*secureFlag], [*destPort]. *)
Definition CAParseHeader (header : option (list Z)) : ub (CAResult_t * option (Z * Z * Z * Z)) :=
  match header with
  | None => Some (CA_STATUS_INVALID_PARAM, None)
  | Some h =>
      h0 ← byte_at h 0; h1 ← byte_at h 1;
      Some (CA_STATUS_OK,
            Some (CAGetBits h0 CA_BLE_START_POS CA_BLE_START_LEN,
                  CAGetBits h0 CA_BLE_SOURCE_PORT_POS CA_BLE_SOURCE_PORT_LEN,
                  CAGetBits h1 CA_BLE_SECURE_POS CA_BLE_SECURE_LEN,
                  CAGetBits h1 CA_BLE_DESTINATION_PORT_POS CA_BLE_DESTINATION_PORT_LEN))
  end.

Fixpoint parse_length_loop (h : list Z) (dataLength idx : Z) (n : nat) : ub Z :=
  match n with
  | O => Some dataLength
  | S n =>
      b ← byte_at h (CA_BLE_HEADER_SIZE + idx);
      parse_length_loop h (u32 (dataLength <<< 8) ||| b) (idx + 1) n
  end.

(** [dataLength] is the value [*dataLength] holds on entry. *)
Definition CAParseHeaderPayloadLength (header : option (list Z)) (headerLength dataLength : Z)
    : ub (CAResult_t * Z) :=
  match header with
  | None => Some (CA_STATUS_INVALID_PARAM, dataLength)
  | Some h =>
      if negb (headerLength =? CA_BLE_LENGTH_HEADER_SIZE) then Some (CA_STATUS_FAILED, dataLength)
      else d ← parse_length_loop h dataLength 0 (Z.to_nat headerLength); Some (CA_STATUS_OK, d)
  end.

(** ** The fragment header *)

(** The header bytes in arithmetic form. *)
Definition header_bytes (type sourcePort secure destPort : Z) : list Z :=
  [type * 128 + sourcePort; secure * 128 + destPort].

Definition one_bit (z : Z) : Prop := z = 0 \/ z = 1.

(** The one-byte field layouts used by the header, checked on every byte. *)
Definition set_get_ok (x : Z) : bool :=
  forallb (fun v => (CASetBits x 7 1 v =? v * 128 + x mod 128)
                    && (CAGetBits x 7 1 =? x / 128)) [0; 1]
  && forallb (fun v => (CASetBits x 6 7 v =? x / 128 * 128 + v)
                       && (CAGetBits x 6 7 =? x mod 128)) (seqZ 0 128).

Lemma set_get_all : forallb set_get_ok (seqZ 0 256) = true.
Proof. vm_compute. reflexivity. Qed.

Lemma set_get x : is_byte x -> set_get_ok x = true.
Proof.
  intros Hx. pose proof set_get_all as H. rewrite forallb_forall in H. apply H.
  apply list_elem_of_In, elem_of_seqZ. unfold is_byte in Hx. lia.
Qed.

Lemma flag_bits x v : is_byte x -> one_bit v ->
  CASetBits x 7 1 v = v * 128 + x mod 128 /\ CAGetBits x 7 1 = x / 128.
Proof.
  intros Hx Hv. apply set_get in Hx. unfold set_get_ok in Hx. bool_to_prop.
  match goal with H : forallb _ [0; 1] = true |- _ => rewrite forallb_forall in H;
    specialize (H v) end.
  match goal with H : In v _ -> _ |- _ => assert (Hin : In v [0; 1]) by (simpl; destruct Hv; auto);
    specialize (H Hin) end.
  bool_to_prop. done.
Qed.

Lemma port_bits x v : is_byte x -> 0 <= v < 128 ->
  CASetBits x 6 7 v = x / 128 * 128 + v /\ CAGetBits x 6 7 = x mod 128.
Proof.
  intros Hx Hv. apply set_get in Hx. unfold set_get_ok in Hx. bool_to_prop.
  match goal with H : forallb _ (seqZ 0 128) = true |- _ => rewrite forallb_forall in H;
    specialize (H v) end.
  match goal with H : In v _ -> _ |- _ =>
    assert (Hin : In v (seqZ 0 128)) by (apply list_elem_of_In, elem_of_seqZ; lia);
    specialize (H Hin) end.
  bool_to_prop. done.
Qed.

(** One header byte: flag first, then port. *)
Lemma header_byte x f v : is_byte x -> one_bit f -> 0 <= v < 128 ->
  CASetBits (CASetBits x 7 1 f) 6 7 v = f * 128 + v /\
  CAGetBits (f * 128 + v) 7 1 = f /\ CAGetBits (f * 128 + v) 6 7 = v.
Proof.
  intros Hx Hf Hv. assert (is_byte (f * 128 + x mod 128)) as Hb.
  { unfold is_byte in *. destruct Hf as [-> | ->]; Z.div_mod_to_equations; lia. }
  assert (is_byte (f * 128 + v)) as Hb2 by (unfold is_byte; destruct Hf as [-> | ->]; lia).
  destruct (flag_bits x f Hx Hf) as [-> _].
  destruct (port_bits _ v Hb Hv) as [-> _].
  destruct (flag_bits _ f Hb2 Hf) as [_ ->]. destruct (port_bits _ v Hb2 Hv) as [_ ->].
  destruct Hf as [-> | ->]; Z.div_mod_to_equations; lia.
Qed.

Lemma write_at_1 (a b x : Z) r : write_at (a :: b :: r) 1 [x] = Some (a :: x :: r).
Proof. by apply (write_at_one [a] r b x 1). Qed.
Lemma byte_at_1 (a b : Z) r : byte_at (a :: b :: r) 1 = Some b.
Proof. done. Qed.
Create Rewrite HintDb buf.
Lemma write_at_2 (a b c x : Z) r : write_at (a :: b :: c :: r) 2 [x] = Some (a :: b :: x :: r).
Proof. by apply (write_at_one [a; b] r c x 2). Qed.
Lemma write_at_3 (a b c d x : Z) r :
  write_at (a :: b :: c :: d :: r) 3 [x] = Some (a :: b :: c :: x :: r).
Proof. by apply (write_at_one [a; b; c] r d x 3). Qed.
#[export] Hint Rewrite @write_at_0 write_at_1 write_at_2 write_at_3 @byte_at_0 byte_at_1 : buf.

Ltac unfold_fields :=
  unfold CA_BLE_START_POS, CA_BLE_START_LEN, CA_BLE_SOURCE_PORT_POS, CA_BLE_SOURCE_PORT_LEN,
    CA_BLE_SECURE_POS, CA_BLE_SECURE_LEN, CA_BLE_DESTINATION_PORT_POS,
    CA_BLE_DESTINATION_PORT_LEN in *.

Lemma CAGenerateHeader_bytes h0 h1 rest type sp sec dp :
  is_byte h0 -> is_byte h1 -> one_bit type -> one_bit sec ->
  CA_SUPPORTED_BLE_MIN_PORT <= sp <= CA_SUPPORTED_BLE_MAX_PORT ->
  0 <= dp <= CA_SUPPORTED_BLE_MAX_PORT ->
  CAGenerateHeader (Some (h0 :: h1 :: rest)) type sp sec dp
    = Some (CA_STATUS_OK, Some (header_bytes type sp sec dp ++ rest)).
Proof.
  intros H0 H1 Ht Hs Hsp Hdp. unfold CA_SUPPORTED_BLE_MIN_PORT, CA_SUPPORTED_BLE_MAX_PORT in *.
  unfold CAGenerateHeader.
  rewrite (proj2 (Z.ltb_ge _ sp)), (proj2 (Z.ltb_ge sp _)), (proj2 (Z.ltb_ge _ dp)) by
    (unfold CA_SUPPORTED_BLE_MIN_PORT, CA_SUPPORTED_BLE_MAX_PORT; lia).
  cbn [orb]. unfold update_byte. unfold_fields.
  repeat (autorewrite with buf; cbn [mbind option_bind]).
  destruct (header_byte h0 type sp) as [-> _]; [done|done|lia|].
  destruct (header_byte h1 sec dp) as [-> _]; [done|done|lia|]. done.
Qed.

Lemma CAParseHeader_bytes type sp sec dp rest :
  one_bit type -> one_bit sec -> 0 <= sp < 128 -> 0 <= dp < 128 ->
  CAParseHeader (Some (header_bytes type sp sec dp ++ rest))
    = Some (CA_STATUS_OK, Some (type, sp, sec, dp)).
Proof.
  intros Ht Hs Hsp Hdp. assert (Hz : is_byte 0) by (unfold is_byte; lia).
  unfold CAParseHeader, header_bytes. cbn [app]. autorewrite with buf.
  cbn [mbind option_bind]. unfold_fields.
  destruct (header_byte 0 type sp Hz Ht Hsp) as (_ & -> & ->).
  destruct (header_byte 0 sec dp Hz Hs Hdp) as (_ & -> & ->). done.
Qed.

(** the fragment header round trips: what the sender packs for valid ports
    is what the receiver unpacks, whatever the buffer held before. *)
Theorem ble_header_roundtrip (h0 h1 type sp sec dp : Z) (rest : list Z) :
  is_byte h0 -> is_byte h1 -> one_bit type -> one_bit sec ->
  CA_SUPPORTED_BLE_MIN_PORT <= sp <= CA_SUPPORTED_BLE_MAX_PORT ->
  0 <= dp <= CA_SUPPORTED_BLE_MAX_PORT ->
  exists h, CAGenerateHeader (Some (h0 :: h1 :: rest)) type sp sec dp
      = Some (CA_STATUS_OK, Some h) /\
    CAParseHeader (Some h) = Some (CA_STATUS_OK, Some (type, sp, sec, dp)) /\
    Forall is_byte (take 2 h).
Proof.
  intros H0 H1 Ht Hs Hsp Hdp. eexists. split; [by apply CAGenerateHeader_bytes|].
  unfold CA_SUPPORTED_BLE_MIN_PORT, CA_SUPPORTED_BLE_MAX_PORT in *.
  rewrite CAParseHeader_bytes by (done || lia). split; [done|].
  simpl. repeat constructor; destruct Ht as [-> | ->], Hs as [-> | ->]; lia.
Qed.

(** ** The payload length header *)

#[local] Arguments Z.land : simpl never.
#[local] Arguments Z.lor : simpl never.
#[local] Arguments Z.shiftr : simpl never.
#[local] Arguments Z.shiftl : simpl never.
#[local] Arguments Z.modulo : simpl never.
#[local] Arguments Z.div : simpl never.
#[local] Arguments wrap : simpl never.

Definition length_bytes (n : Z) : list Z :=
  [n / 2 ^ 24 mod 256; n / 2 ^ 16 mod 256; n / 2 ^ 8 mod 256; n mod 256].

Lemma land_byte n : n &&& 0xFF = n mod 256.
Proof. apply (land_ones_mod _ 8); [reflexivity|lia]. Qed.

Lemma CAGenerateHeaderPayloadLength_bytes a b c d n :
  CAGenerateHeaderPayloadLength (Some [a; b; c; d]) CA_BLE_LENGTH_HEADER_SIZE n
    = Some (CA_STATUS_OK, Some (length_bytes n)).
Proof.
  unfold CAGenerateHeaderPayloadLength.
  change (negb (CA_BLE_LENGTH_HEADER_SIZE =? CA_BLE_LENGTH_HEADER_SIZE)) with false.
  change (Z.to_nat (CA_BLE_LENGTH_HEADER_SIZE - 1)) with 3%nat.
  cbn [length_header_loop]. change (CA_BLE_LENGTH_HEADER_SIZE - 1) with 3.
  change (1 + 1) with 2. change (CA_BLE_LENGTH_HEADER_SIZE - 2) with 2.
  change (CA_BLE_LENGTH_HEADER_SIZE - (2 + 1)) with 1.
  repeat (autorewrite with buf; cbn [mbind option_bind]).
  rewrite !land_byte, !Z.shiftr_shiftr by lia. rewrite !shiftr_div by lia. done.
Qed.

Lemma parse_length_bytes h0 h1 n rest :
  0 <= n < 2 ^ 32 ->
  CAParseHeaderPayloadLength (Some (h0 :: h1 :: length_bytes n ++ rest))
    CA_BLE_LENGTH_HEADER_SIZE 0 = Some (CA_STATUS_OK, n).
Proof.
  intros Hn. unfold CAParseHeaderPayloadLength.
  change (negb (CA_BLE_LENGTH_HEADER_SIZE =? CA_BLE_LENGTH_HEADER_SIZE)) with false.
  change (Z.to_nat CA_BLE_LENGTH_HEADER_SIZE) with 4%nat. cbn [parse_length_loop].
  set (l := h0 :: h1 :: length_bytes n ++ rest).
  change (byte_at l (CA_BLE_HEADER_SIZE + 0)) with (Some (n / 2 ^ 24 mod 256)).
  change (byte_at l (CA_BLE_HEADER_SIZE + (0 + 1))) with (Some (n / 2 ^ 16 mod 256)).
  change (byte_at l (CA_BLE_HEADER_SIZE + (0 + 1 + 1))) with (Some (n / 2 ^ 8 mod 256)).
  change (byte_at l (CA_BLE_HEADER_SIZE + (0 + 1 + 1 + 1))) with (Some (n mod 256)).
  clear l. cbn [mbind option_bind]. do 2 f_equal.
  set (b3 := n / 2 ^ 24 mod 256). set (b2 := n / 2 ^ 16 mod 256).
  set (b1 := n / 2 ^ 8 mod 256). set (b0 := n mod 256).
  assert (0 <= b3 < 256 /\ 0 <= b2 < 256 /\ 0 <= b1 < 256 /\ 0 <= b0 < 256) as (?&?&?&?)
    by (repeat split; apply Z.mod_pos_bound; lia).
  assert (Hn' : n = b3 * 2 ^ 24 + b2 * 2 ^ 16 + b1 * 2 ^ 8 + b0)
    by (unfold b3, b2, b1, b0; Z.div_mod_to_equations; lia).
  assert (Hs : forall x y, 0 <= x < 2 ^ 24 -> 0 <= y < 256 ->
    Z.lor (u32 (Z.shiftl x 8)) y = x * 256 + y).
  { intros x y Hx Hy. rewrite wrap_small.
    - by apply lor_shiftl_add.
    - rewrite Z.shiftl_mul_pow2 by lia. lia. }
  change (u32 (0 <<< 8) ||| b3) with (0 ||| b3). rewrite Z.lor_0_l.
  rewrite (Hs b3 b2), (Hs _ b1), (Hs _ b0) by lia. lia.
Qed.

(** the payload length header round trips for every 32-bit length. *)
Theorem ble_length_header_roundtrip (h0 h1 n : Z) (old rest : list Z) :
  length old = 4%nat -> 0 <= n < 2 ^ 32 ->
  exists l, CAGenerateHeaderPayloadLength (Some old) CA_BLE_LENGTH_HEADER_SIZE n
      = Some (CA_STATUS_OK, Some l) /\ Forall is_byte l /\
    CAParseHeaderPayloadLength (Some (h0 :: h1 :: l ++ rest)) CA_BLE_LENGTH_HEADER_SIZE 0
      = Some (CA_STATUS_OK, n).
Proof.
  intros Hold Hn. destruct old as [|a [|b [|c [|d [|]]]]]; try done.
  eexists. split; [apply CAGenerateHeaderPayloadLength_bytes|]. split.
  - repeat constructor; apply Z.mod_pos_bound; lia.
  - by apply parse_length_bytes.
Qed.

(** ** Concrete instances *)

Lemma ble_header_roundtrip_witness :
  exists h, CAGenerateHeader (Some [255; 3; 9]) 1 5 0 7 = Some (CA_STATUS_OK, Some h) /\
    CAParseHeader (Some h) = Some (CA_STATUS_OK, Some (1, 5, 0, 7)) /\
    Forall is_byte (take 2 h).
Proof.
  apply (ble_header_roundtrip 255 3 1 5 0 7 [9]); unfold is_byte, one_bit,
    CA_SUPPORTED_BLE_MIN_PORT, CA_SUPPORTED_BLE_MAX_PORT; lia.
Defined.

Lemma ble_length_header_roundtrip_witness :
  exists l, CAGenerateHeaderPayloadLength (Some [1; 2; 3; 4]) CA_BLE_LENGTH_HEADER_SIZE 70000
      = Some (CA_STATUS_OK, Some l) /\ Forall is_byte l /\
    CAParseHeaderPayloadLength (Some (0 :: 0 :: l ++ [5])) CA_BLE_LENGTH_HEADER_SIZE 0
      = Some (CA_STATUS_OK, 70000).
Proof.
  apply (ble_length_header_roundtrip 0 0 70000 [1; 2; 3; 4] [5]); [reflexivity|lia].
Defined.
