(* ===== verification/CaCommon.v ===== *)
(** * CaCommon: types of the connectivity API

    The types of [resource/csdk/connectivity/api/cacommon.h] that the
    transport and the security components share.  The character arrays of an
    endpoint are the contents of the C strings they hold. *)
From S2P Require Import Prelude.

(** [CATransportAdapter_t] and [CATransportFlags_t] bits. *)
Definition CA_ADAPTER_IP : Z := 1.
Definition CA_ADAPTER_GATT_BTLE : Z := 2.
Definition CA_ADAPTER_RFCOMM_BTEDR : Z := 4.
Definition CA_ADAPTER_REMOTE_ACCESS : Z := 8.
Definition CA_ADAPTER_TCP : Z := 16.
Definition CA_ADAPTER_NFC : Z := 32.
Definition CA_DEFAULT_ADAPTER : Z := 0.
Definition CA_ALL_ADAPTERS : Z := 0xffffffff.
Definition CA_SECURE : Z := 16.
Definition CA_IPV6 : Z := 32.
Definition CA_IPV4 : Z := 64.
Definition CA_IPFAMILY_MASK : Z := CA_IPV6 ||| CA_IPV4.

Record CAEndpoint_t := {
  adapter : Z;
  flags : Z;
  port : Z;
  addr : list Z;
  ifindex : Z;
  remoteId : list Z;
}.
#[export] Instance CAEndpoint_eq_dec : EqDecision CAEndpoint_t.
Proof. solve_decision. Defined.

Definition set_port (p : Z) (e : CAEndpoint_t) : CAEndpoint_t := {|
  adapter := adapter e; flags := flags e; port := p; addr := addr e;
  ifindex := ifindex e; remoteId := remoteId e |}.

(** [CAMethod_t]; any other value of the integer takes the default cases. *)
Definition CA_GET : Z := 1.
Definition CA_POST : Z := 2.
Definition CA_PUT : Z := 3.
Definition CA_DELETE : Z := 4.

(** [CAMessageType_t]. *)
Inductive CAMessageType_t := CA_MSG_CONFIRM | CA_MSG_NONCONFIRM | CA_MSG_ACKNOWLEDGE | CA_MSG_RESET.
#[export] Instance CAMessageType_eq_dec : EqDecision CAMessageType_t.
Proof. solve_decision. Defined.

(** [CAResponseResult_t] values the security code sends. *)
Definition CA_EMPTY : Z := 0.
Definition CA_UNAUTHORIZED_REQ : Z := 401.
Definition CA_INTERNAL_SERVER_ERROR : Z := 500.
Definition CA_NOT_FOUND : Z := 404.

(** [CADataType_t]. *)
Inductive CADataType_t := CA_REQUEST_DATA | CA_RESPONSE_DATA | CA_ERROR_DATA | CA_RESPONSE_FOR_RES.
#[export] Instance CADataType_eq_dec : EqDecision CADataType_t.
Proof. solve_decision. Defined.
