(* ===== verification/QueueingThread.v ===== *)
(** * QueueingThread: a worker thread and its queue

    Models [connectivity/src/caqueueingthread.c].  The queue is the list of the
    messages in it, which is what the operations of [UQueue] refine; the
    allocator answers once for the node of the message and once for its element
    of the queue.  A round of the thread takes one message; waiting and waking
    up are not modelled, nor is what the pool does with the routine it is given. *)
From S2P Require Import Prelude Effects CaCommon.

Section Thread.
Context {A : Type}.

(** [destroy] is whether there is a function for what is left in the queue. *)
Record CAQueueingThread_t := {
  qt_threadPool : bool;
  threadMutex : bool;
  threadCond : bool;
  qt_destroy : bool;
  qt_isStop : bool;
  dataQueue : option (list A);
}.

Definition set_queue (q : option (list A)) (t : CAQueueingThread_t) : CAQueueingThread_t := {|
  qt_threadPool := qt_threadPool t; threadMutex := threadMutex t; threadCond := threadCond t;
  qt_destroy := qt_destroy t; qt_isStop := qt_isStop t; dataQueue := q |}.
Definition set_isStop (b : bool) (t : CAQueueingThread_t) : CAQueueingThread_t := {|
  qt_threadPool := qt_threadPool t; threadMutex := threadMutex t; threadCond := threadCond t;
  qt_destroy := qt_destroy t; qt_isStop := b; dataQueue := dataQueue t |}.

(** The static variable before it is initialised. *)
Definition no_thread : CAQueueingThread_t := {|
  qt_threadPool := false; threadMutex := false; threadCond := false; qt_destroy := false; qt_isStop := false;
  dataQueue := None |}.

Section Effects.
Context {S : Type} `{HasAllocs S}.

(** [handle] is whether there is a pool.  On failure what was made is taken
    back. *)
Definition CAQueueingThreadInitialize (handle destroy : bool) (t : CAQueueingThread_t)
    : M S (CAResult_t * CAQueueingThread_t) :=
  if negb handle then mret (CA_STATUS_INVALID_PARAM, t)
  else
    q ← alloc; m ← alloc; c ← alloc;
    let made b := {| qt_threadPool := true; threadMutex := m && b; threadCond := c && b; qt_destroy := destroy;
                     qt_isStop := true; dataQueue := if q && b then Some [] else None |} in
    mret (if q && m && c then (CA_STATUS_OK, made true) else (CA_MEMORY_ALLOC_FAILED, made false)).

(** [add] is the result of [ca_thread_pool_add_task]. *)
Definition CAQueueingThreadStart (add : CAResult_t) (t : CAQueueingThread_t) : CAResult_t * CAQueueingThread_t :=
  if negb (qt_threadPool t) then (CA_STATUS_INVALID_PARAM, t)
  else if negb (qt_isStop t) then (CA_STATUS_OK, t)
  else (add, set_isStop (negb (bool_decide (add = CA_STATUS_OK))) t).

(** What [u_queue_add_element] returns is not looked at. *)
Definition CAQueueingThreadAddData (data : A) (t : CAQueueingThread_t) : M S (CAResult_t * CAQueueingThread_t) :=
  ok ← alloc;
  if negb ok then mret (CA_MEMORY_ALLOC_FAILED, t)
  else
    match dataQueue t with
    | None => mret (CA_STATUS_OK, t)
    | Some q => ok ← alloc; mret (CA_STATUS_OK, if (ok : bool) then set_queue (Some (q ++ [data])) t else t)
    end.
End Effects.

(** What a round of the thread works on: nothing when it is told to stop or has
    to wait. *)
Definition CAQueueingThreadBaseRoutine (t : CAQueueingThread_t) : option A * CAQueueingThread_t :=
  if qt_isStop t then (None, t)
  else match dataQueue t with Some (x :: q) => (Some x, set_queue (Some q) t) | _ => (None, t) end.

(** The messages that are destroyed, and the thread without its queue.  The
    condition variable is freed and stays set. *)
Definition CAQueueingThreadDestroy (t : CAQueueingThread_t) : list A * CAQueueingThread_t :=
  (default [] (dataQueue t), {|
    qt_threadPool := qt_threadPool t; threadMutex := false; threadCond := threadCond t; qt_destroy := qt_destroy t;
    qt_isStop := qt_isStop t; dataQueue := None |}).

Definition CAQueueingThreadStop (t : CAQueueingThread_t) : CAResult_t * CAQueueingThread_t :=
  (CA_STATUS_OK, set_isStop true t).
End Thread.
Arguments CAQueueingThread_t : clear implicits.

(** ** The order of the messages *)

Section Order.
Context {A S : Type} `{HasAllocs S}.

(** A thread that runs over the messages [q]. *)
Definition running (t : CAQueueingThread_t A) (q : list A) : Prop := qt_isStop t = false /\ dataQueue t = Some q.

(** The messages some rounds take. *)
Fixpoint rounds (n : nat) (t : CAQueueingThread_t A) : list A * CAQueueingThread_t A :=
  match n with
  | O => ([], t)
  | Datatypes.S n =>
      let '(x, t) := CAQueueingThreadBaseRoutine t in
      let '(xs, t) := rounds n t in (option_list x ++ xs, t)
  end.

Fixpoint add_all (xs : list A) (t : CAQueueingThread_t A) : M S (CAQueueingThread_t A) :=
  match xs with
  | [] => mret t
  | x :: xs => '(_, t) ← CAQueueingThreadAddData x t; add_all xs t
  end.

Lemma add_data_ok (x : A) (t : CAQueueingThread_t A) q (s : S) : allocs_of s = [] -> dataQueue t = Some q ->
  CAQueueingThreadAddData x t s = Some ((CA_STATUS_OK, set_queue (Some (q ++ [x])) t), s).
Proof.
  intros Hs Hq. unfold CAQueueingThreadAddData. step (alloc_ok s Hs). cbn [negb]. rewrite Hq. by step (alloc_ok s Hs).
Qed.

Lemma add_all_ok (xs : list A) (t : CAQueueingThread_t A) q (s : S) : allocs_of s = [] -> dataQueue t = Some q ->
  add_all xs t s = Some (set_queue (Some (q ++ xs)) t, s).
Proof.
  intros Hs. revert t q. induction xs as [|x xs IH]; intros t q Hq; cbn [add_all].
  - rewrite app_nil_r. destruct t; simpl in *; by subst.
  - step (add_data_ok x t q s Hs Hq). cbn beta iota. rewrite (IH _ (q ++ [x])) by done. by rewrite <- app_assoc.
Qed.

Lemma rounds_take n (t : CAQueueingThread_t A) q : running t q ->
  rounds n t = (take n q, if decide (n = O) then t else set_queue (Some (drop n q)) t).
Proof.
  revert t q. induction n as [|n IH]; intros t q [Hs Hq]; [done|]. cbn [rounds].
  unfold CAQueueingThreadBaseRoutine. rewrite Hs, Hq. destruct q as [|x q].
  - rewrite (IH t []) by done. rewrite take_nil. case_decide; cbn; destruct t; simpl in *; subst; by rewrite ?drop_nil.
  - rewrite (IH (set_queue (Some q) t) q) by done. cbn. case_decide; [by subst|done].
Qed.
End Order.
