(* ===== verification/Network.v ===== *)
(** * Network: the selected networks and the adapters behind them

    Models [connectivity/src/canetworkconfigurator.c], the list of the networks
    that are in use, and [connectivity/src/cainterfacecontroller.c], which
    keeps the adapters of the transports and passes data, events and errors
    between them and the layers above.

    An adapter is the record of functions it registers, on a world [W] that
    stands for what the adapters keep and what they put on their links.  The
    selected networks are a list of transports, an element of [g_adapterHandler]
    is its index.  Built with [STATEFUL_PROTOCOL_SUPPORTED] where [stateful] is
    true, with the transports for which [built] is true, and with threads. *)
From S2P Require Import Prelude Effects CaCommon QueueingThread.

(** ** State *)

Section Network.
Context {W : Type} (built : Z -> bool) (stateful : bool).

(** [inc/caadapterinterface.h].  A result of [GetnetInfo] is the status, the
    array and the value of its size. *)
Record CAConnectivityHandler_t := {
  startAdapter : option (W -> CAResult_t * W);
  startListenServer : option (W -> CAResult_t * W);
  stopListenServer : option (W -> CAResult_t * W);
  startDiscoveryServer : option (W -> CAResult_t * W);
  sendData : option (CAEndpoint_t -> option (list Z) -> Z -> option CADataType_t -> W -> Z * W);
  sendDataToAll : option (CAEndpoint_t -> option (list Z) -> Z -> option CADataType_t -> W -> Z * W);
  GetnetInfo : option (W -> (CAResult_t * list CAEndpoint_t * Z) * W);
  readData : option (W -> CAResult_t * W);
  stopAdapter : option (W -> CAResult_t * W);
  terminate : option (W -> W);
  cType : Z;
}.

(** The functions of the application are known by their addresses. *)
Record CANetworkCallback_t := { cb_adapter : Z; cb_conn : option Z }.

Record CANetworkCallbackThreadInfo_t := {
  adapterCB : option Z;
  nc_adapter : Z;
  isInterfaceUp : bool;
  connectionCB : option Z;
  nc_endpoint : option CAEndpoint_t;
  isConnected : bool;
}.

Record network := {
  g_selectedNetworkList : option (list Z);
  CASelectedNetwork : Z;
  g_adapterHandler : list CAConnectivityHandler_t;
  g_networkPacketReceivedCallback : bool;
  g_errorHandleCallback : bool;
  g_networkChangeCallbackList : list CANetworkCallback_t;
  g_networkChangeCallbackThread : CAQueueingThread_t CANetworkCallbackThreadInfo_t;
  world : W;
  net_allocs : list bool;
}.

Definition set_selected (l : option (list Z)) (mask : Z) (n : network) : network := {|
  g_selectedNetworkList := l; CASelectedNetwork := mask; g_adapterHandler := g_adapterHandler n;
  g_networkPacketReceivedCallback := g_networkPacketReceivedCallback n;
  g_errorHandleCallback := g_errorHandleCallback n; g_networkChangeCallbackList := g_networkChangeCallbackList n;
  g_networkChangeCallbackThread := g_networkChangeCallbackThread n; world := world n; net_allocs := net_allocs n |}.
Definition set_adapters (l : list CAConnectivityHandler_t) (n : network) : network := {|
  g_selectedNetworkList := g_selectedNetworkList n; CASelectedNetwork := CASelectedNetwork n; g_adapterHandler := l;
  g_networkPacketReceivedCallback := g_networkPacketReceivedCallback n;
  g_errorHandleCallback := g_errorHandleCallback n; g_networkChangeCallbackList := g_networkChangeCallbackList n;
  g_networkChangeCallbackThread := g_networkChangeCallbackThread n; world := world n; net_allocs := net_allocs n |}.
Definition set_callbacks (l : list CANetworkCallback_t) (n : network) : network := {|
  g_selectedNetworkList := g_selectedNetworkList n; CASelectedNetwork := CASelectedNetwork n;
  g_adapterHandler := g_adapterHandler n; g_networkPacketReceivedCallback := g_networkPacketReceivedCallback n;
  g_errorHandleCallback := g_errorHandleCallback n; g_networkChangeCallbackList := l;
  g_networkChangeCallbackThread := g_networkChangeCallbackThread n; world := world n; net_allocs := net_allocs n |}.
Definition set_receivers (packet error : bool) (n : network) : network := {|
  g_selectedNetworkList := g_selectedNetworkList n; CASelectedNetwork := CASelectedNetwork n;
  g_adapterHandler := g_adapterHandler n; g_networkPacketReceivedCallback := packet;
  g_errorHandleCallback := error; g_networkChangeCallbackList := g_networkChangeCallbackList n;
  g_networkChangeCallbackThread := g_networkChangeCallbackThread n; world := world n; net_allocs := net_allocs n |}.
Definition set_change_thread (t : CAQueueingThread_t CANetworkCallbackThreadInfo_t) (n : network) : network := {|
  g_selectedNetworkList := g_selectedNetworkList n; CASelectedNetwork := CASelectedNetwork n;
  g_adapterHandler := g_adapterHandler n; g_networkPacketReceivedCallback := g_networkPacketReceivedCallback n;
  g_errorHandleCallback := g_errorHandleCallback n; g_networkChangeCallbackList := g_networkChangeCallbackList n;
  g_networkChangeCallbackThread := t; world := world n; net_allocs := net_allocs n |}.
Definition set_world (w : W) (n : network) : network := {|
  g_selectedNetworkList := g_selectedNetworkList n; CASelectedNetwork := CASelectedNetwork n;
  g_adapterHandler := g_adapterHandler n; g_networkPacketReceivedCallback := g_networkPacketReceivedCallback n;
  g_errorHandleCallback := g_errorHandleCallback n; g_networkChangeCallbackList := g_networkChangeCallbackList n;
  g_networkChangeCallbackThread := g_networkChangeCallbackThread n; world := w; net_allocs := net_allocs n |}.
Definition set_net_allocs (l : list bool) (n : network) : network := {|
  g_selectedNetworkList := g_selectedNetworkList n; CASelectedNetwork := CASelectedNetwork n;
  g_adapterHandler := g_adapterHandler n; g_networkPacketReceivedCallback := g_networkPacketReceivedCallback n;
  g_errorHandleCallback := g_errorHandleCallback n; g_networkChangeCallbackList := g_networkChangeCallbackList n;
  g_networkChangeCallbackThread := g_networkChangeCallbackThread n; world := world n; net_allocs := l |}.

#[export] Program Instance network_HasAllocs : HasAllocs network := {|
  allocs_of := net_allocs; with_allocs := set_net_allocs |}.
Next Obligation. done. Qed.
Next Obligation. by intros []. Qed.
Next Obligation. done. Qed.

(** The static variables before they are used. *)
Definition no_network (w : W) : network := {|
  g_selectedNetworkList := None; CASelectedNetwork := CA_DEFAULT_ADAPTER; g_adapterHandler := [];
  g_networkPacketReceivedCallback := false; g_errorHandleCallback := false; g_networkChangeCallbackList := [];
  g_networkChangeCallbackThread := no_thread; world := w; net_allocs := [] |}.

(** A call of an adapter's function, if there is one. *)
Definition call {A} (f : option (W -> A * W)) (none : A) : M network A := fun n =>
  match f with
  | Some f => let '(a, w) := f (world n) in Some (a, set_world w n)
  | None => Some (none, n)
  end.

(** ** Adapters *)

Definition CAGetAdapterIndex (t : Z) (n : network) : option CAConnectivityHandler_t :=
  find (fun h => t =? cType h) (g_adapterHandler n).

Definition is_set {A} (o : option A) : bool := match o with Some _ => true | None => false end.

Definition complete_handler (h : CAConnectivityHandler_t) : bool :=
  is_set (startAdapter h) && is_set (startListenServer h) && is_set (stopListenServer h)
  && is_set (startDiscoveryServer h) && is_set (sendData h) && is_set (sendDataToAll h)
  && is_set (GetnetInfo h) && is_set (readData h) && is_set (stopAdapter h) && is_set (terminate h).

Definition CARegisterCallback (handler : CAConnectivityHandler_t) : M network unit :=
  if negb (complete_handler handler) then mret tt
  else
    ok ← alloc;
    if (ok : bool) then modify (fun n => set_adapters (g_adapterHandler n ++ [handler]) n) else mret tt.

Definition CAStartAdapter (transportType : Z) : M network CAResult_t :=
  h ← gets (CAGetAdapterIndex transportType);
  match h with
  | None => mret CA_STATUS_FAILED
  | Some h => call (startAdapter h) CA_STATUS_OK
  end.

Definition CAStopAdapter (transportType : Z) : M network unit :=
  h ← gets (CAGetAdapterIndex transportType);
  match h with
  | None => mret tt
  | Some h => _ ← call (stopAdapter h) CA_STATUS_OK; mret tt
  end.

(** ** The selected networks *)

(** Transports whose case of the [switch] is there in every build. *)
Definition always_known (t : Z) : bool :=
  existsb (Z.eqb t) [CA_ADAPTER_IP; CA_ADAPTER_RFCOMM_BTEDR; CA_ADAPTER_GATT_BTLE; CA_ADAPTER_NFC].
Definition known (t : Z) : bool :=
  always_known t || existsb (Z.eqb t) [CA_ADAPTER_REMOTE_ACCESS; CA_ADAPTER_TCP].

(** [CASelectedNetwork] is set whether or not the list takes the element. *)
Definition CAAddNetworkType (transportType : Z) : M network CAResult_t :=
  l ← gets g_selectedNetworkList;
  l ← (match l with
       | Some l => mret (Some l)
       | None => ok ← alloc; mret (if (ok : bool) then Some [] else None)
       end : M network (option (list Z)));
  match l with
  | None => mret CA_MEMORY_ALLOC_FAILED
  | Some l =>
      _ ← modify (fun n => set_selected (Some l) (CASelectedNetwork n) n);
      if always_known transportType && negb (built transportType) then mret CA_NOT_SUPPORTED
      else if known transportType && built transportType then
        if existsb (Z.eqb transportType) l then mret CA_STATUS_OK
        else
          res ← alloc;
          _ ← modify (fun n => set_selected (Some (if (res : bool) then l ++ [transportType] else l))
                                 (CASelectedNetwork n ||| transportType) n);
          if negb res then mret CA_STATUS_FAILED else CAStartAdapter transportType
      else CAStartAdapter transportType
  end.

(** The list without its first element equal to [t]. *)
Fixpoint remove_type (t : Z) (l : list Z) : list Z :=
  match l with [] => [] | x :: l => if t =? x then l else x :: remove_type t l end.

Definition CARemoveNetworkType (transportType : Z) : M network CAResult_t :=
  l ← gets g_selectedNetworkList;
  match l with
  | None => mret CA_STATUS_FAILED
  | Some l =>
      if negb (existsb (Z.eqb transportType) l) then mret CA_STATUS_FAILED
      else if always_known transportType && negb (built transportType) then mret CA_NOT_SUPPORTED
      else
        _ ← (if known transportType && built transportType then
               modify (fun n => set_selected (Some (remove_type transportType l))
                                  (Z.land (CASelectedNetwork n) (Z.lnot transportType)) n)
             else mret tt : M network unit);
        _ ← CAStopAdapter transportType;
        mret CA_STATUS_OK
  end.

Definition CAGetSelectedNetworkList : M network (option (list Z)) := gets g_selectedNetworkList.
Definition CAGetSelectedNetwork : M network Z := gets CASelectedNetwork.

Definition CATerminateNetworkType : M network CAResult_t :=
  _ ← modify (fun n => set_selected None (CASelectedNetwork n) n); mret CA_STATUS_OK.

(** ** All the selected adapters *)

(** [f] on each selected transport in turn, until one ends the loop. *)
Fixpoint each (l : list Z) (f : Z -> M network (option CAResult_t)) (last : CAResult_t) : M network CAResult_t :=
  match l with
  | [] => mret last
  | t :: l => r ← f t; match r with Some r => mret r | None => each l f last end
  end.

(** The transport is one the endpoint asks for; 0 is any. *)
Definition requested (e : CAEndpoint_t) (t : Z) : bool :=
  negb (Z.land t (if adapter e =? 0 then CA_ALL_ADAPTERS else adapter e) =? 0).

(** What an adapter returns is only logged: it reports errors itself. *)
Definition CASendUnicastData (endpoint : option CAEndpoint_t) (data : option (list Z)) (length : Z)
    (dataType : option CADataType_t) : M network CAResult_t :=
  match endpoint with
  | None => mret CA_STATUS_INVALID_PARAM
  | Some e =>
      l ← CAGetSelectedNetworkList;
      match l with
      | None => mret CA_SEND_FAILED
      | Some l =>
          each l (fun t =>
            if negb (requested e t) then mret None
            else
              h ← gets (CAGetAdapterIndex t);
              match h with
              | None => mret (Some CA_STATUS_INVALID_PARAM)
              | Some h => _ ← call ((fun f => f e data length dataType) <$> sendData h) 0; mret None
              end) CA_STATUS_OK
      end
  end.

Definition CASendMulticastData (endpoint : option CAEndpoint_t) (data : list Z) (length : Z)
    (dataType : option CADataType_t) : M network CAResult_t :=
  match endpoint with
  | None => mret CA_STATUS_INVALID_PARAM
  | Some e =>
      l ← CAGetSelectedNetworkList;
      match l with
      | None => mret CA_SEND_FAILED
      | Some l =>
          each l (fun t =>
            if negb (requested e t) then mret None
            else
              h ← gets (CAGetAdapterIndex t);
              match h with
              | None => mret None
              | Some h =>
                  match sendDataToAll h with
                  | None => mret None
                  | Some f =>
                      ok ← (if length =? 0 then mret false else alloc : M network bool);
                      if negb ok then mret (Some CA_MEMORY_ALLOC_FAILED)
                      else
                        payload ← lift (read_at data 0 length);
                        _ ← call (Some (f e (Some payload) length dataType)) 0; mret None
                  end
              end) CA_STATUS_OK
      end
  end.

(** [res] becomes what a start that works returns. *)
Fixpoint start_each (l : list Z) (f : CAConnectivityHandler_t -> option (W -> CAResult_t * W)) (result : CAResult_t)
    : M network CAResult_t :=
  match l with
  | [] => mret result
  | t :: l =>
      h ← gets (CAGetAdapterIndex t);
      tmp ← (match h with Some h => call (f h) result | None => mret result end : M network CAResult_t);
      start_each l f (if decide (tmp = CA_STATUS_OK) then tmp else result)
  end.

Definition start_all (f : CAConnectivityHandler_t -> option (W -> CAResult_t * W)) : M network CAResult_t :=
  l ← CAGetSelectedNetworkList;
  match l with None => mret CA_STATUS_FAILED | Some l => start_each l f CA_STATUS_FAILED end.

Definition CAStartListeningServerAdapters : M network CAResult_t := start_all startListenServer.
Definition CAStartDiscoveryServerAdapters : M network CAResult_t := start_all startDiscoveryServer.

Definition CAStopListeningServerAdapters : M network CAResult_t :=
  l ← CAGetSelectedNetworkList;
  match l with
  | None => mret CA_STATUS_FAILED
  | Some l => _ ← start_each l stopListenServer CA_STATUS_OK; mret CA_STATUS_OK
  end.

Fixpoint stop_each (l : list Z) : M network unit :=
  match l with [] => mret tt | t :: l => _ ← CAStopAdapter t; stop_each l end.

(** The length of a list that is NULL is 0. *)
Definition CAStopAdapters : M network unit :=
  l ← CAGetSelectedNetworkList;
  _ ← stop_each (default [] l);
  modify (fun n => set_change_thread (CAQueueingThreadStop (g_networkChangeCallbackThread n)).2 n).

(** ** Information about the networks *)

(** What the adapters answer: the status of the last one, the sum of the sizes
    of those that succeed, and the array and size of each. *)
Fixpoint collect (hs : list CAConnectivityHandler_t) (res : CAResult_t) (resSize : Z)
    : M network (CAResult_t * Z * list (list CAEndpoint_t * Z)) :=
  match hs with
  | [] => mret (res, resSize, [])
  | h :: hs =>
      '(res, tempInfo, tempSize, resSize) ←
        (match GetnetInfo h with
         | None => mret (res, [], 0, resSize)
         | Some f =>
             '(r, i, s) ← call (Some f) (CA_STATUS_FAILED, [], 0);
             mret (r, i, s, if decide (r = CA_STATUS_OK) then u64 (resSize + s) else resSize)
         end : M network (CAResult_t * list CAEndpoint_t * Z * Z));
      '(res, resSize, infos) ← collect hs res resSize;
      mret (res, resSize, (tempInfo, tempSize) :: infos)
  end.

(** The arrays one after the other into [resInfo]. *)
Fixpoint copy_infos (infos : list (list CAEndpoint_t * Z)) (resInfo : list (option CAEndpoint_t)) (at_ : Z)
    : ub (list (option CAEndpoint_t)) :=
  match infos with
  | [] => Some resInfo
  | (i, s) :: infos =>
      if s =? 0 then copy_infos infos resInfo at_
      else
        src ← read_at i 0 s;
        resInfo ← write_at resInfo at_ (Some <$> src);
        copy_infos infos resInfo (at_ + s)
  end.

(** [*info] and [*size], where they are set.  [OICCalloc] of no element gives
    NULL. *)
Definition CAGetNetworkInfo : M network (CAResult_t * option (list (option CAEndpoint_t) * Z)) :=
  hs ← gets g_adapterHandler;
  let calloc : M network bool := if bool_decide (hs = []) then mret false else alloc in
  ok ← calloc;
  if negb ok then mret (CA_MEMORY_ALLOC_FAILED, None)
  else
    ok ← calloc;
    if negb ok then mret (CA_MEMORY_ALLOC_FAILED, None)
    else
      '(res, resSize, infos) ← collect hs CA_STATUS_FAILED 0;
      if resSize =? 0 then mret (res, None)
      else
        ok ← alloc;
        if negb ok then mret (CA_MEMORY_ALLOC_FAILED, None)
        else
          r ← lift (copy_infos infos (replicate (Z.to_nat resSize) None) 0);
          mret (CA_STATUS_OK, Some (r, resSize)).

(** [info] and [size] are whether there is a place for the result. *)
Definition CAGetNetworkInformationInternal (info size : bool)
    : M network (CAResult_t * option (list (option CAEndpoint_t) * Z)) :=
  if negb info || negb size then mret (CA_STATUS_INVALID_PARAM, None) else CAGetNetworkInfo.

(** [ip_local] is [CAIPIsLocalEndpoint]. *)
Definition CAIsLocalEndpoint (ip_local : CAEndpoint_t -> bool) (ep : option CAEndpoint_t) : bool :=
  match ep with
  | None => false
  | Some e => if built CA_ADAPTER_IP && negb (Z.land (adapter e) CA_ADAPTER_IP =? 0) then ip_local e else false
  end.

(** ** Changes of state *)

Inductive CANetworkStatus_t := CA_INTERFACE_DOWN | CA_INTERFACE_UP.
#[export] Instance CANetworkStatus_eq_dec : EqDecision CANetworkStatus_t.
Proof. solve_decision. Defined.

Definition same_callback (a : Z) (c : option Z) (cb : CANetworkCallback_t) : bool :=
  (a =? cb_adapter cb) && bool_decide (c = cb_conn cb).

(** The connection callback is compared in every build and kept in some. *)
Definition AddNetworkStateChangedCallback (adapterCB connCB : option Z) : M network CAResult_t :=
  match adapterCB with
  | None => mret CA_STATUS_INVALID_PARAM
  | Some a =>
      if stateful && negb (is_set connCB) then mret CA_STATUS_INVALID_PARAM
      else
        l ← gets g_networkChangeCallbackList;
        if existsb (same_callback a connCB) l then mret CA_STATUS_OK
        else
          ok ← alloc;
          if negb ok then mret CA_MEMORY_ALLOC_FAILED
          else
            _ ← modify (set_callbacks (l ++ [{| cb_adapter := a; cb_conn := if stateful then connCB else None |}]));
            mret CA_STATUS_OK
  end.

Fixpoint remove_callback (a : Z) (c : option Z) (l : list CANetworkCallback_t) : list CANetworkCallback_t :=
  match l with [] => [] | cb :: l => if same_callback a c cb then l else cb :: remove_callback a c l end.

(** NULL is the adapter callback of no element. *)
Definition RemoveNetworkStateChangedCallback (adapterCB connCB : option Z) : M network CAResult_t :=
  _ ← (match adapterCB with
       | None => mret tt
       | Some a => modify (fun n => set_callbacks (remove_callback a connCB (g_networkChangeCallbackList n)) n)
       end : M network unit);
  mret CA_STATUS_OK.

Definition RemoveAllNetworkStateChangedCallback : M network unit := modify (set_callbacks []).

Definition CASetNetworkMonitorCallbacks (adapterCB connCB : option Z) : M network CAResult_t :=
  res ← AddNetworkStateChangedCallback adapterCB connCB;
  mret (if decide (res = CA_STATUS_OK) then CA_STATUS_OK else CA_STATUS_FAILED).

Definition CAUnsetNetworkMonitorCallbacks (adapterCB connCB : option Z) : M network CAResult_t :=
  res ← RemoveNetworkStateChangedCallback adapterCB connCB;
  mret (if decide (res = CA_STATUS_OK) then CA_STATUS_OK else CA_STATUS_FAILED).

(** Onto the queue of the callback thread. *)
Definition add_change (i : CANetworkCallbackThreadInfo_t) : M network unit :=
  t ← gets g_networkChangeCallbackThread;
  '(_, t) ← CAQueueingThreadAddData i t;
  modify (set_change_thread t).

Fixpoint adapter_changed (l : list CANetworkCallback_t) (adapter : Z) (up : bool) : M network unit :=
  match l with
  | [] => mret tt
  | cb :: l =>
      ok ← alloc;
      if negb ok then mret tt
      else
        _ ← add_change {| adapterCB := Some (cb_adapter cb); nc_adapter := adapter; isInterfaceUp := up;
                          connectionCB := None; nc_endpoint := None; isConnected := false |};
        adapter_changed l adapter up
  end.

Definition CAAdapterChangedCallback (adapter : Z) (status : CANetworkStatus_t) : M network unit :=
  l ← gets g_networkChangeCallbackList;
  adapter_changed l adapter (bool_decide (CA_INTERFACE_UP = status)).

Fixpoint connection_changed (l : list CANetworkCallback_t) (e : CAEndpoint_t) (connected : bool) : M network unit :=
  match l with
  | [] => mret tt
  | cb :: l =>
      match cb_conn cb with
      | None => connection_changed l e connected
      | Some c =>
          ok ← alloc;
          if negb ok then mret tt
          else
            clone ← alloc;
            if negb clone then mret tt
            else
              _ ← add_change {| adapterCB := None; nc_adapter := 0; isInterfaceUp := false;
                                connectionCB := Some c; nc_endpoint := Some e; isConnected := connected |};
              connection_changed l e connected
      end
  end.

(** There is none in a build that is not [stateful]. *)
Definition CAConnectionChangedCallback (endpoint : CAEndpoint_t) (connected : bool) : M network unit :=
  l ← gets g_networkChangeCallbackList; connection_changed l endpoint connected.

(** The calls the thread makes. *)
Inductive notification :=
| AdapterStateChanged (cb adapter : Z) (enabled : bool)
| ConnectionStateChanged (cb : Z) (info : option CAEndpoint_t) (connected : bool).

Definition CANetworkChangeCallbackThreadProcess (i : CANetworkCallbackThreadInfo_t) : option notification :=
  match adapterCB i with
  | Some cb => Some (AdapterStateChanged cb (nc_adapter i) (isInterfaceUp i))
  | None =>
      if stateful then (fun cb => ConnectionStateChanged cb (nc_endpoint i) (isConnected i)) <$> connectionCB i
      else None
  end.

(** ** Starting and stopping *)

Definition CASetPacketReceivedCallback (callback : bool) : M network unit :=
  modify (fun n => set_receivers callback (g_errorHandleCallback n) n).
Definition CASetErrorHandleCallback (errorCallback : bool) : M network unit :=
  modify (fun n => set_receivers (g_networkPacketReceivedCallback n) errorCallback n).

Fixpoint register_all (hs : list CAConnectivityHandler_t) : M network unit :=
  match hs with [] => mret tt | h :: hs => _ ← CARegisterCallback h; register_all hs end.

(** [adapters t] is what the initialisation of the transport registers, [add]
    the result of [ca_thread_pool_add_task]. *)
Definition initialized (transportType t : Z) : bool :=
  built t && (negb (Z.land transportType t =? 0) || (CA_DEFAULT_ADAPTER =? transportType)
              || ((t =? CA_ADAPTER_IP) && (transportType =? CA_ALL_ADAPTERS))).

Definition CAInitializeAdapters (adapters : Z -> list CAConnectivityHandler_t) (handle : bool) (add : CAResult_t)
    (transportType : Z) : M network CAResult_t :=
  _ ← register_all (t ← filter (fun t => initialized transportType t)
                          [CA_ADAPTER_IP; CA_ADAPTER_RFCOMM_BTEDR; CA_ADAPTER_GATT_BTLE; CA_ADAPTER_REMOTE_ACCESS;
                           CA_ADAPTER_TCP; CA_ADAPTER_NFC]; adapters t);
  t ← gets g_networkChangeCallbackThread;
  '(res, t) ← CAQueueingThreadInitialize handle true t;
  _ ← modify (set_change_thread t);
  if decide (res <> CA_STATUS_OK) then mret res
  else
    let '(res, t) := CAQueueingThreadStart add t in
    _ ← modify (set_change_thread t); mret res.

Fixpoint terminate_each (hs : list CAConnectivityHandler_t) : M network unit :=
  match hs with
  | [] => mret tt
  | h :: hs => _ ← call ((fun f w => (tt, f w)) <$> terminate h) tt; terminate_each hs
  end.

Definition CATerminateAdapters : M network unit :=
  hs ← gets g_adapterHandler;
  _ ← terminate_each hs;
  _ ← modify (set_adapters []);
  _ ← modify (fun n => set_change_thread (CAQueueingThreadDestroy (g_networkChangeCallbackThread n)).2 n);
  RemoveAllNetworkStateChangedCallback.
End Network.
Arguments CAConnectivityHandler_t : clear implicits.
Arguments network : clear implicits.

(** ** The selection *)

Section Selection.
Context {W : Type} (built : Z -> bool).

(** The transports as bits. *)
Definition mask (l : list Z) : Z := foldr Z.lor 0 l.

(** What the configurator keeps: no transport twice, each one known and in the
    build, and the mask is the transports of the list. *)
Definition selection_ok (n : network W) : Prop :=
  let l := default [] (g_selectedNetworkList n) in
  NoDup l /\ Forall (fun t => known t && built t = true) l /\ CASelectedNetwork n = mask l.

Definition all_types : list Z :=
  [CA_ADAPTER_IP; CA_ADAPTER_RFCOMM_BTEDR; CA_ADAPTER_GATT_BTLE; CA_ADAPTER_NFC; CA_ADAPTER_REMOTE_ACCESS; CA_ADAPTER_TCP].

Lemma known_in t : known t = true -> t ∈ all_types.
Proof.
  unfold known, always_known. rewrite <- existsb_app, existsb_exists. intros (x & Hx & ->%Z.eqb_eq).
  by apply list_elem_of_In.
Qed.

(** Two transports have no bit in common. *)
Lemma known_disjoint t u : known t = true -> known u = true -> t <> u -> Z.land t u = 0.
Proof.
  intros Ht%known_in Hu%known_in Hne.
  assert (forallb (fun t => forallb (fun u => (t =? u) || (Z.land t u =? 0)) all_types) all_types = true) as H by done.
  rewrite forallb_forall in H. specialize (H t ltac:(by apply list_elem_of_In)).
  rewrite forallb_forall in H. specialize (H u ltac:(by apply list_elem_of_In)).
  apply orb_true_iff in H as [->%Z.eqb_eq|H%Z.eqb_eq]; done.
Qed.

Lemma mask_snoc l t : mask (l ++ [t]) = mask l ||| t.
Proof.
  unfold mask. induction l as [|x l IH]; simpl; [by rewrite Z.lor_0_r|]. by rewrite IH, Z.lor_assoc.
Qed.

Lemma mask_remove l t : known t = true -> NoDup l -> Forall (fun t => known t && built t = true) l ->
  t ∈ l -> Z.land (mask l) (Z.lnot t) = mask (remove_type t l).
Proof.
  intros Ht. unfold mask. induction l as [|x l IH]; intros Hd Hk Hin; [by apply elem_of_nil in Hin|].
  apply NoDup_cons in Hd as [Hx Hd]. apply Forall_cons in Hk as [Hxk Hk]. simpl.
  assert (forall u m, known u = true -> t <> u -> Z.land (Z.lor u m) (Z.lnot t) = Z.lor u (Z.land m (Z.lnot t))) as Hkeep.
  { intros u m0 Hu Hne. apply Z.bits_inj'. intros i Hi. rewrite !Z.land_spec, !Z.lor_spec, Z.land_spec, Z.lnot_spec by done.
    pose proof (f_equal (fun z => Z.testbit z i) (known_disjoint t u Ht Hu Hne)) as E. cbn beta in E.
    rewrite Z.land_spec, Z.bits_0 in E. by destruct (Z.testbit t i), (Z.testbit u i), (Z.testbit m0 i). }
  destruct (Z.eqb_spec t x) as [->|Hne].
  - assert (forall l, Forall (fun t => known t && built t = true) l -> x ∉ l ->
      Z.land (foldr Z.lor 0 l) (Z.lnot x) = foldr Z.lor 0 l) as Hfree.
    { clear - Ht Hkeep. induction l as [|y l IH]; intros Hk Hn; [done|]. apply not_elem_of_cons in Hn as [Hy Hn].
      apply Forall_cons in Hk as [Hyk Hk]. simpl. apply andb_true_iff in Hyk as [Hyk _].
      by rewrite Hkeep, IH by done. }
    rewrite <- (Hfree l Hk Hx) at 2. apply Z.bits_inj'. intros i Hi.
    rewrite !Z.land_spec, Z.lor_spec, Z.lnot_spec by done. by destruct (Z.testbit x i), (Z.testbit (foldr _ _ _) i).
  - apply andb_true_iff in Hxk as [Hxk _]. rewrite Hkeep by done. simpl. f_equal.
    apply IH; [done|done|]. apply elem_of_cons in Hin as [->|]; done.
Qed.

Lemma remove_type_subset t l : remove_type t l ⊆ l.
Proof.
  induction l as [|x l IH]; [done|]. simpl. destruct (_ =? _); [by apply list_subseteq_cons|].
  by apply list_subseteq_skip.
Qed.

Lemma remove_type_NoDup t l : NoDup l -> NoDup (remove_type t l).
Proof.
  induction 1 as [|x l Hx Hd IH]; simpl; [constructor|]. destruct (_ =? _); [done|].
  apply NoDup_cons. split; [|done]. intros H. by apply Hx, (remove_type_subset t l).
Qed.

Lemma remove_type_gone t l : NoDup l -> t ∉ remove_type t l.
Proof.
  induction 1 as [|x l Hx Hd IH]; simpl; [apply not_elem_of_nil|]. destruct (Z.eqb_spec t x) as [->|]; [done|].
  by apply not_elem_of_cons.
Qed.

(** Nothing but the world differs. *)
Definition same_but_world (n n' : network W) : Prop := exists w, n' = set_world w n.

Lemma same_refl n : same_but_world n n.
Proof. exists (world n). by destruct n. Qed.

Lemma same_ok n n' : same_but_world n n' -> selection_ok n -> selection_ok n'.
Proof. by intros [w ->]. Qed.

Lemma call_same {A} (f : option (W -> A * W)) none n : exists a n', call f none n = Some (a, n') /\ same_but_world n n'.
Proof.
  unfold call. destruct f as [f|]; [|by exists none, n; split; [|apply same_refl]].
  destruct (f (world n)) as [a w]. exists a, (set_world w n). split; [done|]. by exists w.
Qed.

Lemma start_same t n : exists r n', CAStartAdapter t n = Some (r, n') /\ same_but_world n n'.
Proof.
  unfold CAStartAdapter. step (run_gets _ n). destruct (CAGetAdapterIndex t n); [apply call_same|].
  do 2 eexists. split; [apply run_ret|apply same_refl].
Qed.

Lemma stop_same t n : exists n', CAStopAdapter t n = Some (tt, n') /\ same_but_world n n'.
Proof.
  unfold CAStopAdapter. step (run_gets _ n). destruct (CAGetAdapterIndex t n) as [h|].
  - destruct (call_same (stopAdapter h) CA_STATUS_OK n) as (a & n' & E & Hs). step E. by exists n'.
  - exists n. split; [done|apply same_refl].
Qed.

Lemma add_network_spec t n : selection_ok n -> allocs_of n = [] -> exists r n',
  CAAddNetworkType built t n = Some (r, n') /\ selection_ok n' /\ allocs_of n' = [] /\
  (known t && built t = true -> t ∈ default [] (g_selectedNetworkList n')).
Proof.
  intros Hok Hn. unfold CAAddNetworkType. step (run_gets _ n).
  set (l := default [] (g_selectedNetworkList n)).
  match goal with |- context [(?m ≫= _) n] => assert (m n = Some (Some l, n)) as E end.
  { unfold l. destruct (g_selectedNetworkList n); [done|]. by step (alloc_ok n Hn). }
  step E. cbn beta iota. step (run_modify _ n).
  set (n1 := set_selected _ _ n).
  assert (selection_ok n1) as Hok1 by done. assert (allocs_of n1 = []) as Hn1 by done.
  destruct (always_known t && negb (built t)) eqn:Ea.
  { exists CA_NOT_SUPPORTED, n1. split; [done|]. split; [done|]. split; [done|]. intros Hk.
    apply andb_true_iff in Ea as [_ Ea]. apply andb_true_iff in Hk as [_ Hk]. by rewrite Hk in Ea. }
  destruct (known t && built t) eqn:Ek.
  2: { destruct (start_same t n1) as (r & n' & -> & Hs). exists r, n'. split; [done|].
       split; [by eapply same_ok|]. destruct Hs as [w ->]. done. }
  destruct (existsb (Z.eqb t) l) eqn:El.
  { exists CA_STATUS_OK, n1. split; [done|]. split; [done|]. split; [done|]. intros _.
    rewrite existsb_exists in El. destruct El as (x & Hx & ->%Z.eqb_eq). by apply list_elem_of_In. }
  step (alloc_ok n1 Hn1). step (run_modify _ n1). cbn beta iota.
  set (n2 := set_selected _ _ n1).
  assert (selection_ok n2) as Hok2.
  { destruct Hok as (Hd & Hk & Hm). split; [|split].
    - apply NoDup_app. split; [done|]. split; [|apply NoDup_singleton]. intros x Hin ->%list_elem_of_singleton. assert (existsb (Z.eqb t) l = true) as X; [|by rewrite X in El].
      apply existsb_exists. exists t. split; [by apply list_elem_of_In|apply Z.eqb_refl].
    - apply Forall_app. by repeat constructor.
    - change (CASelectedNetwork n ||| t = mask (l ++ [t])). by rewrite mask_snoc, Hm. }
  cbn [negb]. destruct (start_same t n2) as (r & n' & -> & Hs). exists r, n'. split; [done|].
  split; [by eapply same_ok|]. destruct Hs as [w ->]. split; [done|]. intros _.
  apply elem_of_app. right. by left.
Qed.

Lemma remove_network_spec t n : selection_ok n -> exists r n',
  CARemoveNetworkType built t n = Some (r, n') /\ selection_ok n' /\ net_allocs n' = net_allocs n /\
  t ∉ default [] (g_selectedNetworkList n').
Proof.
  intros Hok. unfold CARemoveNetworkType. step (run_gets _ n). pose proof Hok as (Hd & Hk & Hm).
  destruct (g_selectedNetworkList n) as [l|] eqn:El; cbn [default from_option id] in *.
  2: { exists CA_STATUS_FAILED, n. split; [done|]. split; [done|]. split; [done|]. rewrite El. apply not_elem_of_nil. }
  destruct (existsb (Z.eqb t) l) eqn:Ein; cbn [negb].
  2: { exists CA_STATUS_FAILED, n. split; [done|]. split; [done|]. split; [done|]. rewrite El. intros Hin%list_elem_of_In.
       assert (existsb (Z.eqb t) l = true) as X; [|by rewrite X in Ein].
       apply existsb_exists. exists t. split; [done|apply Z.eqb_refl]. }
  apply existsb_exists in Ein as (x & Hx%list_elem_of_In & <-%Z.eqb_eq).
  pose proof (proj1 (Forall_forall _ _) Hk t Hx) as Ht. apply andb_true_iff in Ht as [Ht Hb].
  rewrite Ht, Hb. cbn [negb andb]. rewrite andb_false_r. step (run_modify _ n). set (n1 := set_selected _ _ n).
  assert (selection_ok n1) as Hok1.
  { split; [by apply remove_type_NoDup|]. split.
    { apply Forall_forall. intros x Hin%remove_type_subset. by apply (proj1 (Forall_forall _ _) Hk). }
    cbn. rewrite Hm. by apply mask_remove. }
  destruct (stop_same t n1) as (n' & E & Hs). step E. exists CA_STATUS_OK, n'. split; [done|].
  split; [by eapply same_ok|]. destruct Hs as [w ->]. split; [done|]. by apply remove_type_gone.
Qed.

(** Networks the application selects and gives up. *)
Inductive selection := Select (t : Z) | Unselect (t : Z).

Fixpoint configure (ops : list selection) : M (network W) unit :=
  match ops with
  | [] => mret tt
  | Select t :: ops => _ ← CAAddNetworkType built t; configure ops
  | Unselect t :: ops => _ ← CARemoveNetworkType built t; configure ops
  end.

(** C18: Whatever networks are selected and given up, and whatever their adapters
    answer, with an allocator that does not fail the list holds no network
    twice and only known ones of the build, and [CASelectedNetwork] is the
    union of the bits of the list. *)
Theorem selection_invariant ops w : exists n',
  configure ops (no_network w) = Some (tt, n') /\ selection_ok n'.
Proof.
  assert (forall n, selection_ok n -> allocs_of n = [] -> exists n', configure ops n = Some (tt, n') /\ selection_ok n')
    as H; [|apply H; [split; [constructor|by split; [constructor|]]|done]].
  induction ops as [|[t|t] ops IH]; intros n Hok Hn; cbn [configure]; [by exists n| |].
  - destruct (add_network_spec t n Hok Hn) as (r & n1 & E & Hok1 & Hn1 & _). step E. by apply IH.
  - destruct (remove_network_spec t n Hok) as (r & n1 & E & Hok1 & Hn1 & _). step E. apply IH; [done|].
    change (net_allocs n1 = []). by rewrite Hn1.
Qed.
End Selection.

(** ** Sending *)

Section Sending.
Context {W : Type}.

(** The data given to the adapters of [ts] in turn. *)
Definition handed (n : network W) (e : CAEndpoint_t) (data : option (list Z)) (len : Z) (ty : option CADataType_t)
    (ts : list Z) (w : W) : W :=
  foldl (fun w t => match h ← CAGetAdapterIndex t n; sendData h with Some f => (f e data len ty w).2 | None => w end) w ts.

(** The transport has an adapter that can send. *)
Definition can_send (n : network W) (t : Z) : Prop := exists h f, CAGetAdapterIndex t n = Some h /\ sendData h = Some f.

Lemma each_hands n e data len ty l w : Forall (can_send n) (filter (fun t => requested e t) l) ->
  each l (fun t =>
    if negb (requested e t) then mret None
    else
      h ← gets (CAGetAdapterIndex t);
      match h with
      | None => mret (Some CA_STATUS_INVALID_PARAM)
      | Some h => _ ← call ((fun f => f e data len ty) <$> sendData h) 0; mret None
      end) CA_STATUS_OK (set_world w n)
  = Some (CA_STATUS_OK, set_world (handed n e data len ty (filter (fun t => requested e t) l) w) n).
Proof.
  revert w. induction l as [|t l IH]; intros w Hl; [done|]. cbn [each]. rewrite filter_cons in Hl |- *.
  destruct (requested e t) eqn:Er; cbn [negb].
  - rewrite decide_True in Hl |- * by done. apply Forall_cons in Hl as [(h & f & Eh & Ef) Hl].
    match goal with |- context [(?m ≫= _) ?s] =>
      assert (m s = Some (None, set_world (f e data len ty w).2 n)) as E end.
    { step (run_gets _ (set_world w n)). change (CAGetAdapterIndex t (set_world w n)) with (CAGetAdapterIndex t n).
      rewrite Eh. cbn beta iota. rewrite Ef. cbn [fmap option_fmap option_map].
      unfold call, mbind, M_bind. cbn [world set_world]. by destruct (f e data len ty w). }
    step E. cbn beta iota. rewrite IH by done. unfold handed. cbn [foldl]. rewrite Eh. cbn [mbind option_bind].
    by rewrite Ef.
  - rewrite decide_False in Hl |- * by (by intros []). step (run_ret _ _). by apply IH.
Qed.

Lemma send_unicast_spec n l e data len ty :
  g_selectedNetworkList n = Some l -> Forall (can_send n) (filter (fun t => requested e t) l) ->
  CASendUnicastData (Some e) data len ty n
  = Some (CA_STATUS_OK, set_world (handed n e data len ty (filter (fun t => requested e t) l) (world n)) n).
Proof.
  intros Hl Hs. unfold CASendUnicastData, CAGetSelectedNetworkList. step (run_gets _ n). rewrite Hl. cbn beta iota.
  pose proof (each_hands n e data len ty l (world n) Hs) as E. by destruct n.
Qed.

(** A message to one endpoint goes, in the order in which the networks were
    selected, once to the adapter of each selected network among those the
    endpoint names (all of them when it names none), and the result is OK
    whatever the adapters return. *)
Theorem unicast_reaches_requested n l e data len ty :
  g_selectedNetworkList n = Some l -> Forall (can_send n) (filter (fun t => requested e t) l) ->
  CASendUnicastData (Some e) data len ty n
  = Some (CA_STATUS_OK, set_world (handed n e data len ty (filter (fun t => requested e t) l) (world n)) n).
Proof. apply send_unicast_spec. Qed.
End Sending.

(** ** Information *)

Section Information.
Context {W : Type}.

(** An adapter says as many endpoints as it gives, and none when it fails. *)
Definition honest (h : CAConnectivityHandler_t W) : Prop :=
  exists f, GetnetInfo h = Some f /\
    forall w, let '(r, i, s) := (f w).1 in s = if decide (r = CA_STATUS_OK) then Z.of_nat (length i) else 0.

(** The endpoints of all adapters one after the other, and the status of the
    last one. *)
Fixpoint answers (hs : list (CAConnectivityHandler_t W)) (res : CAResult_t) (w : W)
    : CAResult_t * list CAEndpoint_t * W :=
  match hs with
  | [] => (res, [], w)
  | h :: hs =>
      match GetnetInfo h with
      | None => answers hs res w
      | Some f =>
          let '((r, i, _), w) := f w in
          let '(res, eps, w) := answers hs r w in
          (res, (if decide (r = CA_STATUS_OK) then i else []) ++ eps, w)
      end
  end.

Lemma copy_infos_spec infos pre : 
  Forall (fun i : list CAEndpoint_t * Z => 0 <= i.2 <= Z.of_nat (length i.1)) infos ->
  copy_infos infos (pre ++ replicate (Z.to_nat (foldr (fun i n => i.2 + n) 0 infos)) None) (Z.of_nat (length pre))
  = Some (pre ++ (Some <$> (i ← infos; take (Z.to_nat i.2) i.1))).
Proof.
  revert pre. induction infos as [|[i s] infos IH]; intros pre Hi; [done|].
  apply Forall_cons in Hi as [Hs Hi]. cbn [fst snd] in Hs. cbn [copy_infos foldr fst snd].
  assert (0 <= foldr (fun (i : list CAEndpoint_t * Z) n => i.2 + n) 0 infos) as Hn.
  { clear - Hi. induction Hi; simpl in *; lia. }
  destruct (Z.eqb_spec s 0) as [->|Hne]; [by apply IH|].
  rewrite read_at_ok by lia. change (drop (Z.to_nat 0) i) with i.
  change (Some ?x ≫= ?f) with (f x). cbn beta.
  rewrite Z2Nat.inj_add, replicate_add by lia.
  assert (length (Some <$> take (Z.to_nat s) i) = Z.to_nat s) as Hlen
    by (rewrite length_fmap, length_take; lia).
  rewrite (write_at_app pre (replicate (Z.to_nat s) None)) by (done || by rewrite length_replicate).
  change (Some ?x ≫= ?f) with (f x). cbn beta. rewrite app_assoc.
  replace (Z.of_nat (length pre) + s) with (Z.of_nat (length (pre ++ (Some <$> take (Z.to_nat s) i))))
    by (rewrite length_app, Hlen; lia).
  rewrite IH by done. rewrite <- app_assoc, <- fmap_app. done.
Qed.

Lemma collect_spec hs res total n : Forall honest hs -> 0 <= total ->
  let '(res', eps, w) := answers hs res (world n) in
  total + Z.of_nat (length eps) < 2 ^ 64 ->
  exists infos, collect hs res total n = Some ((res', total + Z.of_nat (length eps), infos), set_world w n) /\
    Forall (fun i : list CAEndpoint_t * Z => 0 <= i.2 <= Z.of_nat (length i.1)) infos /\
    (i ← infos; take (Z.to_nat i.2) i.1) = eps /\ foldr (fun i n => i.2 + n) 0 infos = Z.of_nat (length eps).
Proof.
  revert res total n. induction hs as [|h hs IH]; intros res total n Hh Ht; cbn [answers collect].
  { intros _. exists []. rewrite Z.add_0_r. split; [by destruct n|done]. }
  apply Forall_cons in Hh as [(f & Hf & Hfs) Hh]. rewrite Hf. specialize (Hfs (world n)).
  destruct (f (world n)) as [[[r i] s] w] eqn:Ef. cbn [fst] in Hfs.
  set (tot := if decide (r = CA_STATUS_OK) then u64 (total + s) else total).
  specialize (IH r tot (set_world w n) Hh). cbn [world set_world] in IH.
  destruct (answers hs r w) as [[res' eps] w']. intros Hsum.
  assert (tot = total + s /\ 0 <= s <= Z.of_nat (length i) /\ take (Z.to_nat s) i = if decide (r = CA_STATUS_OK) then i else [])
    as (Htot & Hs & Hi).
  { subst tot. rewrite length_app in Hsum. destruct (decide (r = CA_STATUS_OK)); subst s.
    - rewrite Nat2Z.id, firstn_all. rewrite wrap_small by lia. split; [done|]. by split; [lia|].
    - split; [lia|]. by split; [lia|]. }
  assert (s = Z.of_nat (length (if decide (r = CA_STATUS_OK) then i else []))) as Hsl.
  { rewrite <- Hi, length_take. lia. }
  destruct (IH ltac:(lia) ltac:(rewrite Htot, Hsl, length_app in *; lia)) as (infos & E & Hok & Hcat & Hsz).
  exists ((i, s) :: infos). match goal with |- context [(?m ≫= _) n] =>
    assert (m n = Some ((r, i, s, tot), set_world w n)) as E1 end.
  { unfold call, mbind, M_bind. by rewrite Ef. }
  step E1. cbn beta iota. step E. cbn beta iota. split; [|split; [|split]].
  - rewrite run_ret. rewrite length_app, Nat2Z.inj_add, <- Hsl, Htot, Z.add_assoc. by destruct n.
  - by apply Forall_cons.
  - rewrite bind_cons. cbn [fst snd]. by rewrite Hi, Hcat.
  - cbn [foldr snd]. rewrite Hsz, length_app, Nat2Z.inj_add. lia.
Qed.

(** The information about the networks is, for an allocator that does not
    fail, the endpoints of all adapters that answer, in the order in which they
    registered; when there is none, the status of the last adapter. *)
Theorem network_info_concatenates n : allocs_of n = [] -> g_adapterHandler n <> [] ->
  Forall honest (g_adapterHandler n) ->
  let '(res, eps, w) := answers (g_adapterHandler n) CA_STATUS_FAILED (world n) in
  Z.of_nat (length eps) < 2 ^ 64 ->
  CAGetNetworkInfo n
  = Some (if decide (eps = []) then (res, None)
          else (CA_STATUS_OK, Some (Some <$> eps, Z.of_nat (length eps))), set_world w n).
Proof.
  intros Hn Hne Hh. pose proof (collect_spec (g_adapterHandler n) CA_STATUS_FAILED 0 n Hh ltac:(done)) as Hc.
  destruct (answers _ _ _) as [[res eps] w]. intros Hl. destruct (Hc Hl) as (infos & E & Hok & Hcat & Hsz). clear Hc.
  unfold CAGetNetworkInfo. step (run_gets _ n). rewrite bool_decide_eq_false_2 by done. cbv zeta.
  step (alloc_ok n Hn). cbn [negb]. step (alloc_ok n Hn). cbn [negb]. step E. cbn beta iota. rewrite Z.add_0_l.
  destruct (decide (eps = [])) as [->|Hi]; [done|].
  rewrite (proj2 (Z.eqb_neq _ _)) by (destruct eps; [done|simpl; lia]).
  assert (allocs_of (set_world w n) = []) as Hw by done. step (alloc_ok (set_world w n) Hw). cbn [negb].
  pose proof (copy_infos_spec infos [] Hok) as Ecp. rewrite Hsz, Hcat in Ecp. cbn [app length] in Ecp.
  change (Z.of_nat 0) with 0 in Ecp. by step (run_lift _ _ _ Ecp).
Qed.
End Information.

(** ** Two adapters to look at *)

(** The world is what the adapters have been given. *)
Definition log := list (Z * option (list Z)).
Definition log_send (t : Z) (e : CAEndpoint_t) (data : option (list Z)) (len : Z) (ty : option CADataType_t) (w : log)
    : Z * log := (len, w ++ [(t, data)]).
Definition example_adapter (t : Z) (eps : list CAEndpoint_t) : CAConnectivityHandler_t log :=
  let ok (w : log) := (CA_STATUS_OK, w) in {|
  startAdapter := Some ok; startListenServer := Some ok; stopListenServer := Some ok; startDiscoveryServer := Some ok;
  sendData := Some (log_send t); sendDataToAll := Some (log_send t);
  GetnetInfo := Some (fun w => ((CA_STATUS_OK, eps, Z.of_nat (length eps)), w)); readData := Some ok;
  stopAdapter := Some ok; terminate := Some (fun w => w); cType := t |}.

Definition example_peer (t : Z) : CAEndpoint_t :=
  {| adapter := t; flags := 0; port := 5683; addr := []; ifindex := 0; remoteId := [] |}.

Definition two_networks : network log :=
  set_selected (Some [CA_ADAPTER_GATT_BTLE; CA_ADAPTER_IP]) (CA_ADAPTER_GATT_BTLE ||| CA_ADAPTER_IP)
    (set_adapters [example_adapter CA_ADAPTER_IP [example_peer CA_ADAPTER_IP];
                   example_adapter CA_ADAPTER_GATT_BTLE [example_peer CA_ADAPTER_GATT_BTLE]] (no_network [])).

Lemma unicast_reaches_requested_witness :
  CASendUnicastData (Some (example_peer CA_DEFAULT_ADAPTER)) (Some [1; 2]) 2 None two_networks
  = Some (CA_STATUS_OK, set_world [(CA_ADAPTER_GATT_BTLE, Some [1; 2]); (CA_ADAPTER_IP, Some [1; 2])] two_networks).
Proof.
  apply (unicast_reaches_requested two_networks [CA_ADAPTER_GATT_BTLE; CA_ADAPTER_IP]
           (example_peer CA_DEFAULT_ADAPTER) (Some [1; 2]) 2 None); [reflexivity|].
  apply Forall_cons; split; [by do 2 eexists|]. apply Forall_cons; split; [by do 2 eexists|apply Forall_nil_2].
Defined.

Lemma network_info_concatenates_witness :
  CAGetNetworkInfo two_networks
  = Some ((CA_STATUS_OK, Some ([Some (example_peer CA_ADAPTER_IP); Some (example_peer CA_ADAPTER_GATT_BTLE)], 2)),
          set_world [] two_networks).
Proof.
  apply (network_info_concatenates two_networks); [reflexivity|discriminate| |reflexivity].
  apply Forall_cons; split; [by eexists|]. apply Forall_cons; split; [by eexists|apply Forall_nil_2].
Defined.

(** The mask without the list: the element does not fit, or the list is gone. *)
Lemma mask_without_element : exists n, CAAddNetworkType (fun _ => true) CA_ADAPTER_IP
    (set_net_allocs [true; false] (no_network ([] : log))) = Some (CA_STATUS_FAILED, n) /\
  g_selectedNetworkList n = Some [] /\ CASelectedNetwork n = CA_ADAPTER_IP.
Proof. eexists. by split; [vm_compute|]. Qed.

Lemma mask_after_termination : exists n, CATerminateNetworkType two_networks = Some (CA_STATUS_OK, n) /\
  g_selectedNetworkList n = None /\ CASelectedNetwork n <> 0.
Proof. eexists. by split. Qed.

(** A callback that is added twice and cannot be removed, without stateful
    protocols. *)
Lemma callback_stays : exists n n' : network log,
  CASetNetworkMonitorCallbacks false (Some 1) (Some 2) (no_network []) = Some (CA_STATUS_OK, n) /\
  CAUnsetNetworkMonitorCallbacks (Some 1) (Some 2) n = Some (CA_STATUS_OK, n') /\
  g_networkChangeCallbackList n' = [{| cb_adapter := 1; cb_conn := None |}].
Proof. do 2 eexists. by split. Qed.
