(* ===== verification/BleAdapter.v ===== *)
(** * BleAdapter: sending and reassembling messages over Bluetooth LE

    Models the data path of
    [resource/csdk/connectivity/src/bt_le_adapter/caleadapter.c]: the send
    threads of the GATT server and client, which cut a message into packets
    with the headers of [Fragmentation], and [CALEDataReceiverHandler], which
    puts the packets of each sender together again.  The list of senders is
    any [PtrList] of addresses; their records are in a heap.  The platform's
    GATT calls are a function from the number of the call to its result.

    [step] is the specification of the receiver: a finite map from sender
    (address and port) to the bytes received so far.  The theorems show that
    the handler refines it, and that what one side sends the other delivers,
    whatever other senders' packets come in between. *)
From S2P Require Import Prelude Chain UArrayList OicString Fragmentation CaCommon.

(** ** Data *)

Definition CA_SUPPORTED_BLE_MTU_SIZE : Z := 517.
Definition CA_DEFAULT_BLE_MTU_SIZE : Z := 20.
Definition CA_DEFAULT_FLAGS : Z := 0.
Definition MAX_ADDR_STR_SIZE_CA : Z := 66.
Definition g_localBLESourcePort : Z := 1.

Record CABLESenderInfo_t := {
  recvDataLen : Z;
  totalDataLen : Z;
  defragData : list Z;
  remoteEndpoint : option CAEndpoint_t;
}.

Inductive CABLEAdapter_t :=
| ADAPTER_EMPTY | ADAPTER_BOTH_CLIENT_SERVER | ADAPTER_CLIENT | ADAPTER_SERVER.

(** A queued packet or message; [led_data] is the buffer. *)
Record CALEData_t := {
  led_remoteEndpoint : option CAEndpoint_t;
  led_data : list Z;
  led_dataLen : Z;
}.

(** The endpoint object, if it can be allocated. *)
Definition CACreateEndpointObject (ok : bool) (flags adapter : Z) (address : option (list Z))
    (port : Z) : ub (option CAEndpoint_t) :=
  if ok then
    a ← match address with
        | None => Some []
        | Some s =>
            cp ← OICStrcpy (Some (replicate (Z.to_nat MAX_ADDR_STR_SIZE_CA) 0))
                   MAX_ADDR_STR_SIZE_CA (Some (s ++ [0]));
            buf ← cp;
            buf ← write_at buf (MAX_ADDR_STR_SIZE_CA - 1) [0];
            contents buf
        end;
    Some (Some {| adapter := adapter; flags := flags; port := port; addr := a;
                  ifindex := 0; remoteId := [] |})
  else Some None.

(** [clone] is what [CACloneEndpoint] returns, [okm] and [okc] whether the
    two allocations succeed; the buffer has one byte more than the data. *)
Definition CACreateLEData (okm okc : bool) (clone : option CAEndpoint_t) (data : list Z)
    (dataLength : Z) : ub (option CALEData_t) :=
  if okm then
    if okc && negb (u32 (dataLength + 1) =? 0) then
      d ← read_at data 0 dataLength;
      buf ← write_at (replicate (Z.to_nat (u32 (dataLength + 1))) 0) 0 d;
      Some (Some {| led_remoteEndpoint := clone; led_data := buf; led_dataLen := dataLength |})
    else Some None
  else Some None.

(** ** Sending *)

Section Sender.
(** The result of the n-th call that hands a packet to the platform. *)
Context (transport : nat -> CAResult_t).

Definition transmit (sent : list (list Z)) (dataSegment : list Z) (len : Z)
    : ub (CAResult_t * list (list Z)) :=
  pkt ← read_at dataSegment 0 len;
  Some (transport (length sent), sent ++ [pkt]).

(** One packet after the first: build it and hand it over. *)
Definition send_segment (g_mtuSize payloadLen index : Z) (d : CALEData_t)
    (dataHeader dataSegment : list Z) (sent : list (list Z))
    : ub (CAResult_t * list Z * list (list Z)) :=
  '(result, seg) ← CAMakeRemainDataSegment (Some dataSegment) payloadLen (led_data d)
                     (led_dataLen d) index (Some dataHeader) g_mtuSize;
  seg ← seg;
  if decide (CA_STATUS_OK <> result) then Some (result, seg, sent)
  else
    '(result, sent) ← transmit sent seg (payloadLen + CA_BLE_HEADER_SIZE);
    Some (result, seg, sent).

(** The [for] loop over the [n] middle packets left, from [index]. *)
Fixpoint send_middle (g_mtuSize index : Z) (d : CALEData_t) (dataHeader dataSegment : list Z)
    (sent : list (list Z)) (n : nat) : ub (CAResult_t * list Z * list (list Z)) :=
  match n with
  | O => Some (CA_STATUS_OK, dataSegment, sent)
  | S n =>
      '(result, seg, sent) ← send_segment g_mtuSize (g_mtuSize - CA_BLE_HEADER_SIZE) index d
                               dataHeader dataSegment sent;
      if decide (CA_STATUS_OK <> result) then Some (result, seg, sent)
      else send_middle g_mtuSize (index + 1) d dataHeader seg sent n
  end.

(** The packets handed to the platform and the result passed to
    [g_errorHandler], if there was an error. *)
Definition sending (result : CAResult_t) (sent : list (list Z))
    : list (list Z) * option CAResult_t :=
  (sent, if decide (CA_STATUS_OK <> result) then Some result else None).

(** The part of the send threads after the MTU is known. *)
Definition send_packets (g_mtuSize : Z) (d : CALEData_t) (ep : CAEndpoint_t)
    : ub (list (list Z) * option CAResult_t) :=
  match CAGenerateVariableForFragmentation (led_dataLen d) g_mtuSize with
  | (CA_STATUS_OK, Some (midPacketCount, remainingLen, totalLength)) =>
      let secureFlag := if flags ep &&& CA_SECURE =? 0 then CA_BLE_PACKET_NON_SECURE
                        else CA_BLE_PACKET_SECURE in
      '(result, dataHeader) ← CAGenerateHeader (Some [0; 0]) CA_BLE_PACKET_START
                                g_localBLESourcePort secureFlag (port ep);
      if decide (CA_STATUS_OK <> result) then Some (sending result [])
      else
      '(result, lengthHeader) ← CAGenerateHeaderPayloadLength (Some [0; 0; 0; 0])
                                  CA_BLE_LENGTH_HEADER_SIZE (led_dataLen d);
      if decide (CA_STATUS_OK <> result) then Some (sending result [])
      else
      let whole := totalLength <? g_mtuSize in
      let length := if whole then u32 totalLength else g_mtuSize in
      let dataLen := if whole then led_dataLen d
                     else u32 (g_mtuSize - CA_BLE_HEADER_SIZE - CA_BLE_LENGTH_HEADER_SIZE) in
      '(result, seg) ← CAMakeFirstDataSegment
                         (Some (replicate (Z.to_nat CA_SUPPORTED_BLE_MTU_SIZE) 0))
                         (led_data d) dataLen dataHeader lengthHeader;
      if decide (CA_STATUS_OK <> result) then Some (sending result [])
      else
      seg ← seg;
      '(result, sent) ← transmit [] seg length;
      if decide (CA_STATUS_OK <> result) then Some (sending result sent)
      else
      '(result, dataHeader) ← CAGenerateHeader dataHeader CA_BLE_PACKET_NOT_START
                                g_localBLESourcePort secureFlag (port ep);
      if decide (CA_STATUS_OK <> result) then Some (sending result sent)
      else
      dataHeader ← dataHeader;
      '(result, seg, sent) ← send_middle g_mtuSize 0 d dataHeader seg sent
                               (Z.to_nat midPacketCount);
      if decide (CA_STATUS_OK <> result) then Some (sending result sent)
      else if negb (remainingLen =? 0) && (g_mtuSize <? totalLength) then
        '(result, _, sent) ← send_segment g_mtuSize remainingLen midPacketCount d dataHeader
                               seg sent;
        Some (sending result sent)
      else Some (sending CA_STATUS_OK sent)
  | (result, _) => Some (sending result [])
  end.

(** [g_mtuSize] is the default or, on the platforms that negotiate it, what
    [CALEServerGetMtuSize] answers. *)
Definition CALEServerSendDataThread (g_mtuSize : Z) (threadData : option CALEData_t)
    : ub (list (list Z) * option CAResult_t) :=
  match threadData with
  | None => Some ([], None)
  | Some d =>
      match led_remoteEndpoint d with
      | None => Some ([], None)
      | Some ep => send_packets g_mtuSize d ep
      end
  end.

(** [negotiation] is the result of [CALEClientSendNegotiationMessage] where
    the platform has to connect first. *)
Definition CALEClientSendDataThread (negotiation : option CAResult_t) (g_mtuSize : Z)
    (threadData : option CALEData_t) : ub (list (list Z) * option CAResult_t) :=
  match threadData with
  | None => Some ([], None)
  | Some d =>
      match led_remoteEndpoint d with
      | None => Some ([], None)
      | Some ep =>
          match negotiation with
          | None | Some CA_STATUS_OK => send_packets g_mtuSize d ep
          | Some res => Some ([], Some res)
          end
      end
  end.
End Sender.

(** ** Receiving *)

(** What the surroundings decide while one packet is handled. *)
Record recv_env := {
  re_running : bool;    (* the receiver handler state *)
  re_callback : bool;   (* g_networkPacketReceivedCallback is registered *)
  re_sender : bool;     (* OICMalloc of the sender information *)
  re_buffer : bool;     (* OICCalloc of the buffer *)
  re_endpoint : bool;   (* CACreateEndpointObject *)
  re_list : bool;       (* growth of the list *)
}.

(** What leaves the adapter. *)
Inductive le_event :=
| network_packet (ep : CAEndpoint_t) (data : list Z)
| decrypt_ssl (dataType : CADataType_t) (ep : CAEndpoint_t) (data : list Z).

Section Receiver.
Context {L : Type} `{PtrList L loc}.
(** [__WITH_DTLS__]. *)
Context (with_dtls : bool).

(** The list of senders ([None]: not created) and the records it points to. *)
Record le_state := {
  senders : option L;
  infos : gmap loc CABLESenderInfo_t;
}.

(** The loop of [CALEGetSenderInfo] from [index], [n] rounds left. *)
Fixpoint get_sender_from (lst : L) (h : gmap loc CABLESenderInfo_t) (leAddress : list Z)
    (port_ index : Z) (n : nat) : ub (option (loc * Z)) :=
  match n with
  | O => Some None
  | S n =>
      let continue := get_sender_from lst h leAddress port_ (index + 1) n in
      p ← pl_get lst index;
      match p with
      | None => continue
      | Some p =>
          info ← h !! p;
          match remoteEndpoint info with
          | None => continue
          | Some e =>
              if has_prefix leAddress (addr e) then
                if port e =? port_ then Some (Some (p, index)) else continue
              else continue
          end
      end
  end.

Definition CALEGetSenderInfo (leAddress : list Z) (port_ : Z) (lst : L)
    (h : gmap loc CABLESenderInfo_t) : ub (option (loc * Z)) :=
  get_sender_from lst h leAddress port_ 0 (Z.to_nat (pl_length lst)).

(** Drops the sender at [index] from the list and frees its record. *)
Definition remove_sender (lst : L) (h : gmap loc CABLESenderInfo_t) (p : loc) (index : Z)
    : ub (L * gmap loc CABLESenderInfo_t) :=
  '(_, lst) ← pl_remove lst index; Some (lst, delete p h).

(** [*senderInfo = i], of a live record. *)
Definition set_info (h : gmap loc CABLESenderInfo_t) (p : loc) (i : CABLESenderInfo_t)
    : ub (gmap loc CABLESenderInfo_t) :=
  _ ← h !! p; Some (<[p := i]> h).

(** The branch [if (!senderInfo)], for a start packet: the record of the new
    sender and its index, or nothing if the packet is dropped. *)
Definition new_sender (e : recv_env) (lst : L) (h : gmap loc CABLESenderInfo_t) (d : CALEData_t)
    (ep : CAEndpoint_t) (secureFlag : Z)
    : ub (L * gmap loc CABLESenderInfo_t * option (loc * Z)) :=
  '(_, totalLength) ← CAParseHeaderPayloadLength (Some (led_data d)) CA_BLE_LENGTH_HEADER_SIZE 0;
  if negb (re_sender e) then Some (lst, h, None)
  else if totalLength =? 0 then Some (lst, h, None)
  else
    let dataOnlyLen := u32 (led_dataLen d - (CA_BLE_HEADER_SIZE + CA_BLE_LENGTH_HEADER_SIZE)) in
    if negb (re_buffer e) || (u32 (totalLength + 1) =? 0) then Some (lst, h, None)
    else
      let flags := if with_dtls && (CA_BLE_PACKET_SECURE =? secureFlag)
                   then CA_DEFAULT_FLAGS ||| CA_SECURE else CA_DEFAULT_FLAGS in
      rep ← CACreateEndpointObject (re_endpoint e) flags CA_ADAPTER_GATT_BTLE (Some (addr ep))
              (port ep);
      match rep with
      | None => Some (lst, h, None)
      | Some rep =>
          if totalLength <? u64 (0 + dataOnlyLen) then Some (lst, h, None)
          else
            body ← read_at (led_data d) (CA_BLE_HEADER_SIZE + CA_BLE_LENGTH_HEADER_SIZE)
                     dataOnlyLen;
            buf ← write_at (replicate (Z.to_nat (u32 (totalLength + 1))) 0) 0 body;
            let newSender := fresh (dom h) in
            let h := <[newSender := {| recvDataLen := u32 (0 + dataOnlyLen);
                         totalDataLen := totalLength; defragData := buf;
                         remoteEndpoint := Some rep |}]> h in
            '(_, lst) ← pl_add (re_list e) lst (Some newSender);
            found ← CALEGetSenderInfo (addr rep) (port rep) lst h;
            match found with
            | None => Some (lst, delete newSender h, None)
            | Some (_, senderIndex) => Some (lst, h, Some (newSender, senderIndex))
            end
      end.

(** The [else] branch: more data for the sender [p]. *)
Definition more_data (lst : L) (h : gmap loc CABLESenderInfo_t) (d : CALEData_t)
    (p : loc) (senderIndex : Z) : ub (L * gmap loc CABLESenderInfo_t * option (loc * Z)) :=
  info ← h !! p;
  let dataOnlyLen := u32 (led_dataLen d - CA_BLE_HEADER_SIZE) in
  if totalDataLen info <? u64 (recvDataLen info + dataOnlyLen) then
    '(lst, h) ← remove_sender lst h p senderIndex; Some (lst, h, None)
  else
    body ← read_at (led_data d) CA_BLE_HEADER_SIZE dataOnlyLen;
    buf ← write_at (defragData info) (recvDataLen info) body;
    h ← set_info h p {| recvDataLen := u32 (recvDataLen info + dataOnlyLen);
          totalDataLen := totalDataLen info; defragData := buf;
          remoteEndpoint := remoteEndpoint info |};
    Some (lst, h, Some (p, senderIndex)).

(** [if (senderInfo->totalDataLen == senderInfo->recvDataLen)]. *)
Definition deliver (e : recv_env) (dataType : CADataType_t) (lst : L)
    (h : gmap loc CABLESenderInfo_t) (p : loc) (senderIndex : Z)
    : ub (L * gmap loc CABLESenderInfo_t * list le_event) :=
  info ← h !! p;
  if totalDataLen info =? recvDataLen info then
    if negb (re_callback e) then
      '(lst, h) ← remove_sender lst h p senderIndex; Some (lst, h, [])
    else
      ep ← remoteEndpoint info;
      data ← read_at (defragData info) 0 (recvDataLen info);
      let ev := if with_dtls && negb (CA_SECURE &&& flags ep =? 0)
                then decrypt_ssl dataType ep data else network_packet ep data in
      '(lst, h) ← remove_sender lst h p senderIndex; Some (lst, h, [ev])
  else Some (lst, h, []).

(** The handler from the lookup of the sender on. *)
Definition handle_packet (e : recv_env) (dataType : CADataType_t) (lst : L)
    (h : gmap loc CABLESenderInfo_t) (d : CALEData_t) (ep : CAEndpoint_t)
    (startFlag secureFlag : Z) : ub (L * gmap loc CABLESenderInfo_t * list le_event) :=
  found ← CALEGetSenderInfo (addr ep) (port ep) lst h;
  '(lst, h, found) ← match found with
    | Some (p, i) =>
        if negb (startFlag =? 0) then
          '(lst, h) ← remove_sender lst h p i; Some (lst, h, None)
        else Some (lst, h, found)
    | None => Some (lst, h, None)
    end;
  '(lst, h, current) ← match found with
    | None => if negb (startFlag =? 0) then new_sender e lst h d ep secureFlag
              else Some (lst, h, None)
    | Some (p, i) => more_data lst h d p i
    end;
  match current with
  | None => Some (lst, h, [])
  | Some (p, i) => deliver e dataType lst h p i
  end.

(** [receiverType] selects the handler state (in [e]) and the data type. *)
Definition CALEDataReceiverHandler (e : recv_env) (receiverType : CABLEAdapter_t)
    (bleData : option CALEData_t) (st : le_state) : ub (le_state * list le_event) :=
  match receiverType with
  | ADAPTER_EMPTY | ADAPTER_BOTH_CLIENT_SERVER => Some (st, [])
  | _ =>
      let dataType := if receiverType is ADAPTER_CLIENT then CA_REQUEST_DATA
                      else CA_RESPONSE_DATA in
      if re_running e then
        match bleData, senders st with
        | None, _ => Some (st, [])
        | Some _, None => Some (st, [])
        | Some d, Some lst =>
            match led_remoteEndpoint d with
            | None => Some (st, [])
            | Some ep =>
                '(_, header) ← CAParseHeader (Some (led_data d));
                '(startFlag, sourcePort, secureFlag, destPort) ← header;
                if negb (destPort =? g_localBLESourcePort)
                   && negb (destPort =? CA_BLE_MULTICAST_PORT) then Some (st, [])
                else
                  '(lst, h, evs) ← handle_packet e dataType lst (infos st) d
                                     (set_port sourcePort ep) startFlag secureFlag;
                  Some ({| senders := Some lst; infos := h |}, evs)
            end
        end
      else Some (st, [])
  end.

(** ** The receiver, specified *)

(** A sender is its address and its port. *)
#[local] Abbreviation key := (list Z * Z)%type.

(** Addresses are of the form XX:XX:XX:XX:XX:XX. *)
Definition BLE_ADDR_LENGTH : nat := 17.

(** What has come in of a message. *)
Record partial := { pt_secure : bool; pt_total : Z; pt_received : list Z }.

(** A packet taken apart. *)
Record fragment := {
  fr_start : bool;
  fr_src : Z;
  fr_secure : bool;
  fr_dst : Z;
  fr_total : Z;
  fr_body : list Z;
}.

Definition bytes_of (f : fragment) : list Z :=
  header_bytes (Z.b2z (fr_start f)) (fr_src f) (Z.b2z (fr_secure f)) (fr_dst f)
  ++ (if fr_start f then length_bytes (fr_total f) else []) ++ fr_body f.

Definition fragment_ok (f : fragment) : Prop :=
  0 <= fr_src f < 128 /\ 0 <= fr_dst f < 128 /\ 0 <= fr_total f < 2 ^ 32 /\
  Z.of_nat (length (fr_body f)) + 6 < 2 ^ 32 - 1.

Definition endpoint_of (k : key) (secure : bool) : CAEndpoint_t := {|
  adapter := CA_ADAPTER_GATT_BTLE;
  flags := if with_dtls && secure then CA_SECURE else CA_DEFAULT_FLAGS;
  port := k.2; addr := k.1; ifindex := 0; remoteId := [] |}.

Definition event_of (dt : CADataType_t) (k : key) (p : partial) : le_event :=
  let ep := endpoint_of k (pt_secure p) in
  if with_dtls && pt_secure p then decrypt_ssl dt ep (pt_received p)
  else network_packet ep (pt_received p).

Definition finish (cb : bool) (dt : CADataType_t) (k : key) (p : partial) (m : gmap key partial)
    : gmap key partial * list le_event :=
  if pt_total p =? Z.of_nat (length (pt_received p))
  then (delete k m, if cb then [event_of dt k p] else []) else (<[k := p]> m, []).

(** A start packet that is dropped; [ok] is whether there is memory for a new
    sender.  A length of all ones has no buffer: [totalDataLen + 1] wraps. *)
Definition start_dropped (ok : bool) (f : fragment) : bool :=
  negb ok || (fr_total f =? 0) || (fr_total f =? 2 ^ 32 - 1)
  || (fr_total f <? Z.of_nat (length (fr_body f))).

(** One packet from address [a]: a start packet replaces what was there, any
    other extends it; too much data drops the message.  [ok] is whether the
    memory for a new sender is there. *)
Definition step (ok cb : bool) (dt : CADataType_t) (a : list Z) (f : fragment)
    (m : gmap key partial) : gmap key partial * list le_event :=
  if negb (fr_dst f =? g_localBLESourcePort) && negb (fr_dst f =? CA_BLE_MULTICAST_PORT)
  then (m, [])
  else
    let k := (a, fr_src f) in
    if fr_start f then
      if start_dropped ok f then (delete k m, [])
      else finish cb dt k {| pt_secure := fr_secure f; pt_total := fr_total f;
                             pt_received := fr_body f |} m
    else
      match m !! k with
      | None => (m, [])
      | Some p =>
          if pt_total p <? Z.of_nat (length (pt_received p ++ fr_body f)) then (delete k m, [])
          else finish cb dt k {| pt_secure := pt_secure p; pt_total := pt_total p;
                                 pt_received := pt_received p ++ fr_body f |} m
      end.

(** ** How a state represents the map *)

Definition info_rep (k : key) (p : partial) (i : CABLESenderInfo_t) : Prop :=
  recvDataLen i = Z.of_nat (length (pt_received p)) /\
  totalDataLen i = pt_total p /\
  Z.of_nat (length (pt_received p)) <= pt_total p < 2 ^ 32 - 1 /\
  (exists rest, defragData i = pt_received p ++ rest /\
     Z.of_nat (length (pt_received p ++ rest)) = pt_total p + 1) /\
  remoteEndpoint i = Some (endpoint_of k (pt_secure p)) /\
  length k.1 = BLE_ADDR_LENGTH.

(** The list points to one record per sender, in the order of [zs]. *)
Record rep_list (lst : L) (h : gmap loc CABLESenderInfo_t) (zs : list (loc * (key * partial)))
    : Prop := {
  rl_list : pl_rep lst (Some <$> zs.*1);
  rl_locs : NoDup zs.*1;
  rl_keys : NoDup zs.*2.*1;
  rl_infos : Forall (fun z => exists i, h !! z.1 = Some i /\ info_rep z.2.1 z.2.2 i) zs;
}.

(** The map has the senders of [zs]. *)
Definition maps (m : gmap key partial) (zs : list (loc * (key * partial))) : Prop :=
  forall k p, m !! k = Some p <-> (k, p) ∈ zs.*2.

Definition reps (lst : L) (h : gmap loc CABLESenderInfo_t) (m : gmap key partial) : Prop :=
  exists zs, rep_list lst h zs /\ maps m zs.

Lemma has_prefix_eq (a b : list Z) : length a = length b -> has_prefix a b = bool_decide (a = b).
Proof.
  revert b. induction a as [|x a IH]; intros [|y b] Hl; simpl in *; try done.
  rewrite IH by lia. destruct (Z.eqb_spec x y) as [->|]; simpl.
  - apply bool_decide_ext. naive_solver.
  - symmetry. apply bool_decide_eq_false_2. naive_solver.
Qed.

(** The lookup on the rest [post] of the list. *)
Lemma get_sender_spec lst h zs a port_ (pre post : list (loc * (key * partial))) :
  rep_list lst h zs -> length a = BLE_ADDR_LENGTH -> zs = pre ++ post ->
  (forall l1 p pt l2, post = l1 ++ (p, ((a, port_), pt)) :: l2 -> (a, port_) ∉ l1.*2.*1 ->
     get_sender_from lst h a port_ (Z.of_nat (length pre)) (length post)
       = Some (Some (p, Z.of_nat (length (pre ++ l1))))) /\
  ((a, port_) ∉ post.*2.*1 ->
     get_sender_from lst h a port_ (Z.of_nat (length pre)) (length post) = Some None).
Proof.
  intros Hr Ha. revert pre. induction post as [|[p [k pt]] post IH]; intros pre Hzs.
  { split; [|done]. intros [|? ?] ? ? ? ?; by simplify_eq. }
  assert (zs = (pre ++ [(p, (k, pt))]) ++ post) as Hzs' by by rewrite <- app_assoc.
  destruct (IH _ Hzs') as [IHf IHn].
  assert (Z.of_nat (length (pre ++ [(p, (k, pt))])) = Z.of_nat (length pre) + 1) as Hlen
    by (rewrite length_app; simpl; lia). rewrite Hlen in IHf, IHn.
  pose proof (rl_infos _ _ _ Hr) as Hi. rewrite Hzs, Forall_app, Forall_cons in Hi.
  destruct Hi as (_ & (i & Hi & Hrep) & _). simpl in Hi, Hrep.
  destruct Hrep as (_ & _ & _ & _ & Hep & Hk).
  simpl length. cbn [get_sender_from].
  rewrite (pl_get_law _ _ _ (rl_list _ _ _ Hr)) by lia.
  rewrite Nat2Z.id, Hzs, !fmap_app, lookup_app_r by (rewrite !length_fmap; lia).
  rewrite !length_fmap, Nat.sub_diag. simpl. rewrite Hi. simpl. rewrite Hep. simpl.
  rewrite has_prefix_eq by congruence. destruct k as [ka kp]. simpl in *.
  split.
  - intros [|[p' [k' pt1]] l1] q pt' l2 E Hni; simplify_eq/=.
    + rewrite bool_decide_eq_true_2, Z.eqb_refl by done. by rewrite app_nil_r.
    + apply not_elem_of_cons in Hni as [Hne Hni].
      rewrite (IHf l1 q pt' l2 eq_refl Hni), <- app_assoc. simpl.
      case_bool_decide; [|done]. destruct (Z.eqb_spec kp port_); [|done]. by subst.
  - intros [Hne Hni]%not_elem_of_cons. rewrite (IHn Hni).
    case_bool_decide; [|done]. destruct (Z.eqb_spec kp port_); [|done]. by subst.
Qed.

Lemma CALEGetSenderInfo_spec lst h zs a port_ :
  rep_list lst h zs -> length a = BLE_ADDR_LENGTH ->
  (forall l1 p pt l2, zs = l1 ++ (p, ((a, port_), pt)) :: l2 ->
     CALEGetSenderInfo a port_ lst h = Some (Some (p, Z.of_nat (length l1)))) /\
  ((a, port_) ∉ zs.*2.*1 -> CALEGetSenderInfo a port_ lst h = Some None).
Proof.
  intros Hr Ha. unfold CALEGetSenderInfo.
  rewrite (pl_length_law _ _ (rl_list _ _ _ Hr)), Nat2Z.id, !length_fmap.
  destruct (get_sender_spec lst h zs a port_ [] zs Hr Ha eq_refl) as [Hf Hn].
  split; [|done]. intros l1 p pt l2 E. apply (Hf l1 p pt l2 E).
  pose proof (rl_keys _ _ _ Hr) as Hk. rewrite E, !fmap_app in Hk.
  apply NoDup_app in Hk as (_ & Hk & _). intros Hin. apply (Hk _ Hin). simpl. left.
Qed.

(** *** Changing the list *)

Lemma remove_sender_spec lst h l1 p kp l2 :
  rep_list lst h (l1 ++ (p, kp) :: l2) ->
  exists lst', remove_sender lst h p (Z.of_nat (length l1)) = Some (lst', delete p h) /\
    rep_list lst' (delete p h) (l1 ++ l2).
Proof.
  intros [Hl Hp Hk Hi]. rewrite !fmap_app in *. simpl in *.
  destruct (pl_remove_law lst _ (Z.of_nat (length l1)) (Some p) Hl) as (lst' & Hrem & Hl').
  { lia. }
  { rewrite Nat2Z.id, lookup_app_r by (by rewrite !length_fmap). by rewrite !length_fmap, Nat.sub_diag. }
  exists lst'. unfold remove_sender. rewrite Hrem. split; [done|].
  rewrite Nat2Z.id in Hl'.
  replace (length l1) with (length (Some <$> l1.*1)) in Hl' by by rewrite !length_fmap.
  rewrite delete_middle in Hl'.
  apply NoDup_app in Hp as (Hp1 & Hp12 & [Hpn Hp2]%NoDup_cons).
  apply NoDup_app in Hk as (Hk1 & Hk12 & [Hkn Hk2]%NoDup_cons).
  split.
  - by rewrite !fmap_app.
  - rewrite fmap_app. apply NoDup_app. split; [done|]. split; [|done].
    intros x H1 H2. apply (Hp12 x H1). by right.
  - rewrite !fmap_app. apply NoDup_app. split; [done|]. split; [|done].
    intros x H1 H2. apply (Hk12 x H1). by right.
  - rewrite Forall_app, Forall_cons in Hi. destruct Hi as (Hi1 & _ & Hi2).
    apply Forall_app. rewrite !Forall_forall in *.
    split; intros z Hz.
    + rewrite lookup_delete_ne; [by apply Hi1|]. intros ->.
      apply (Hp12 z.1); [by apply list_elem_of_fmap_2|left].
    + rewrite lookup_delete_ne; [by apply Hi2|]. intros ->.
      apply Hpn. by apply list_elem_of_fmap_2.
Qed.

Lemma update_sender_spec lst h l1 p k pt pt' i l2 :
  rep_list lst h (l1 ++ (p, (k, pt)) :: l2) -> info_rep k pt' i ->
  rep_list lst (<[p := i]> h) (l1 ++ (p, (k, pt')) :: l2).
Proof.
  intros [Hl Hp Hk Hi] Hrep.
  split; rewrite ?fmap_app in *; simpl in *; rewrite ?fmap_app in *; simpl in *; try done.
  apply NoDup_app in Hp as (Hp1 & Hp12 & [Hpn Hp2]%NoDup_cons).
  rewrite Forall_app, Forall_cons in Hi |- *. destruct Hi as (Hi1 & _ & Hi2).
  rewrite !Forall_forall in *. split; [|split].
  - intros z Hz. rewrite lookup_insert_ne; [by apply Hi1|]. intros ->.
    apply (Hp12 z.1); [by apply list_elem_of_fmap_2|left].
  - exists i. by rewrite lookup_insert_eq.
  - intros z Hz. rewrite lookup_insert_ne; [by apply Hi2|]. intros ->.
    apply Hpn. by apply list_elem_of_fmap_2.
Qed.

Lemma rep_list_frame lst h zs p i : h !! p = None -> rep_list lst h zs ->
  rep_list lst (<[p := i]> h) zs.
Proof.
  intros Hp [Hl Hn Hk Hi]. split; try done. eapply Forall_impl; [exact Hi|].
  intros z (j & Hj & Hr). exists j. rewrite lookup_insert_ne; [done|]. congruence.
Qed.

Lemma append_sender_spec ok lst h zs p k pt i :
  rep_list lst h zs -> h !! p = None -> k ∉ zs.*2.*1 -> info_rep k pt i ->
  exists b lst', pl_add ok lst (Some p) = Some (b, lst') /\
    (if b : bool then rep_list lst' (<[p := i]> h) (zs ++ [(p, (k, pt))])
     else lst' = lst) /\
    (ok = true -> Z.of_nat (length zs) < 2 ^ 58 -> b = true).
Proof.
  intros Hr Hp Hk Hrep. pose proof Hr as [Hl Hn Hkn Hi].
  destruct (pl_add_law ok lst _ (Some p) Hl) as (b & lst' & Hadd & Hb & Hok).
  exists b, lst'. split; [done|]. split; [|by rewrite !length_fmap in Hok].
  destruct b; [|done].
  pose proof (rep_list_frame _ _ _ p i Hp Hr) as [_ _ _ Hi'].
  split; rewrite ?fmap_app; simpl.
  - done.
  - apply NoDup_app. split; [done|]. split; [|by apply NoDup_singleton].
    intros x Hx ->%list_elem_of_singleton. apply list_elem_of_fmap in Hx as (z & -> & Hz).
    rewrite Forall_forall in Hi. destruct (Hi z Hz) as (j & Hj & _). congruence.
  - rewrite ?fmap_app. apply NoDup_app. split; [done|]. split; [|by apply NoDup_singleton].
    intros x Hx ->%list_elem_of_singleton. done.
  - apply Forall_app. split; [done|]. apply Forall_singleton. exists i. simpl.
    by rewrite lookup_insert_eq.
Qed.

(** *** Changing the map *)

Lemma maps_found m (zs : list (loc * (key * partial))) k pt :
  maps m zs -> m !! k = Some pt -> exists l1 p l2, zs = l1 ++ (p, (k, pt)) :: l2.
Proof.
  intros Hm Hk%Hm. apply list_elem_of_fmap in Hk as ([p kp] & ? & Hz). simplify_eq/=.
  apply list_elem_of_split in Hz as (l1 & l2 & ->). eauto.
Qed.

Lemma maps_missing m (zs : list (loc * (key * partial))) k :
  maps m zs -> m !! k = None -> k ∉ zs.*2.*1.
Proof.
  intros Hm Hk (z & -> & Hz)%list_elem_of_fmap.
  destruct z as [k p]. apply Hm in Hz. simpl in Hk. congruence.
Qed.

Lemma maps_delete (m : gmap key partial) (l1 l2 : list (loc * (key * partial))) p k pt :
  NoDup (l1 ++ (p, (k, pt)) :: l2).*2.*1 -> maps m (l1 ++ (p, (k, pt)) :: l2) ->
  maps (delete k m) (l1 ++ l2).
Proof.
  rewrite !fmap_app. simpl. intros (_ & Hk12 & [Hkn _]%NoDup_cons)%NoDup_app Hm k' p'.
  rewrite fmap_app. simpl. destruct (decide (k' = k)) as [->|Hne].
  - rewrite lookup_delete_eq. split; [done|]. intros [Hin|Hin]%elem_of_app; exfalso.
    + apply (Hk12 k); [by apply (list_elem_of_fmap_2 fst) in Hin|left].
    + apply Hkn. by apply (list_elem_of_fmap_2 fst) in Hin.
  - rewrite lookup_delete_ne by done. rewrite (Hm k' p'). rewrite fmap_app. simpl.
    rewrite !elem_of_app, elem_of_cons. naive_solver.
Qed.

Lemma maps_insert (m : gmap key partial) (l1 l2 : list (loc * (key * partial))) p k pt :
  k ∉ (l1 ++ l2).*2.*1 -> maps (delete k m) (l1 ++ l2) ->
  maps (<[k := pt]> m) (l1 ++ (p, (k, pt)) :: l2).
Proof.
  intros Hk Hm k' p'. specialize (Hm k' p'). rewrite fmap_app in Hm |- *. simpl.
  rewrite elem_of_app in Hm |- *. rewrite elem_of_cons.
  destruct (decide (k' = k)) as [->|Hne].
  - rewrite lookup_insert_eq. rewrite lookup_delete_eq in Hm. split; [naive_solver|].
    intros Hin. assert ((k, p') ∈ (l1 ++ l2).*2 -> False) as Hno.
    { intros Hin'. apply Hk. by apply (list_elem_of_fmap_2 fst) in Hin'. }
    rewrite fmap_app, elem_of_app in Hno. naive_solver.
  - rewrite lookup_insert_ne by done. rewrite lookup_delete_ne in Hm by done. naive_solver.
Qed.

(** *** One packet *)

(** A packet as it is queued. *)
Definition packet (ep : CAEndpoint_t) (f : fragment) : CALEData_t := {|
  led_remoteEndpoint := Some ep; led_data := bytes_of f ++ [0];
  led_dataLen := Z.of_nat (length (bytes_of f)) |}.

Lemma CACreateEndpointObject_ok fl ad a port_ :
  length a = BLE_ADDR_LENGTH -> 0 ∉ a ->
  CACreateEndpointObject true fl ad (Some a) port_ = Some (Some {| adapter := ad; flags := fl;
    port := port_; addr := a; ifindex := 0; remoteId := [] |}).
Proof.
  intros Hl Hn. unfold CACreateEndpointObject, OICStrcpy.
  change (MAX_ADDR_STR_SIZE_CA =? 0) with false.
  destruct (OICStrcpyPartial_copied (replicate (Z.to_nat MAX_ADDR_STR_SIZE_CA) 0) (a ++ [0]) a
    MAX_ADDR_STR_SIZE_CA (MAX_ADDR_STR_SIZE_CA - 1)) as (r & -> & (t & -> & _) & Hr & _).
  { by exists []. } { rewrite length_replicate. unfold MAX_ADDR_STR_SIZE_CA. lia. }
  { unfold MAX_ADDR_STR_SIZE_CA. lia. }
  cbn [mbind option_bind].
  rewrite take_ge in Hr |- * by (rewrite Hl; vm_compute; lia).
  rewrite length_app, length_replicate, Hl in Hr.
  change (Z.to_nat MAX_ADDR_STR_SIZE_CA) with 66%nat in Hr. unfold BLE_ADDR_LENGTH in *. simpl in Hr.
  destruct (exists_last (l := t)) as (t' & x & ->); [by intros ->|].
  rewrite length_app in Hr. simpl in Hr.
  replace (a ++ 0 :: t' ++ [x]) with ((a ++ 0 :: t') ++ x :: []) by (by rewrite <- app_assoc).
  rewrite write_at_one by (rewrite length_app; simpl; unfold MAX_ADDR_STR_SIZE_CA; lia).
  cbn [mbind option_bind].
  rewrite (contents_cstr _ a); [done|]. exists (t' ++ [0]). by rewrite <- app_assoc.
Qed.

Lemma bytes_of_start f : fr_start f = true ->
  length (bytes_of f) = (6 + length (fr_body f))%nat.
Proof. intros E. unfold bytes_of. by rewrite E. Qed.

Lemma bytes_of_more f : fr_start f = false ->
  length (bytes_of f) = (2 + length (fr_body f))%nat.
Proof. intros E. unfold bytes_of. by rewrite E. Qed.

Lemma parse_total f : fr_start f = true -> 0 <= fr_total f < 2 ^ 32 ->
  CAParseHeaderPayloadLength (Some (bytes_of f ++ [0])) CA_BLE_LENGTH_HEADER_SIZE 0
    = Some (CA_STATUS_OK, fr_total f).
Proof.
  intros E Ht. unfold bytes_of. rewrite E. unfold header_bytes. cbn [app].
  rewrite <- app_assoc. by apply parse_length_bytes.
Qed.

Lemma read_start_body f : fr_start f = true ->
  read_at (bytes_of f ++ [0]) 6 (Z.of_nat (length (fr_body f))) = Some (fr_body f).
Proof.
  intros E. unfold bytes_of. rewrite E, <- !app_assoc.
  rewrite app_assoc. apply read_at_app; [by rewrite length_app|done].
Qed.

Lemma read_more_body f : fr_start f = false ->
  read_at (bytes_of f ++ [0]) 2 (Z.of_nat (length (fr_body f))) = Some (fr_body f).
Proof.
  intros E. unfold bytes_of. rewrite E, app_nil_l, <- app_assoc. by apply read_at_app.
Qed.

(** The last part of the handler. *)
Lemma deliver_spec e dt lst h l1 p k pt l2 m :
  rep_list lst h (l1 ++ (p, (k, pt)) :: l2) -> k ∉ (l1 ++ l2).*2.*1 ->
  maps (delete k m) (l1 ++ l2) ->
  exists lst' h', deliver e dt lst h p (Z.of_nat (length l1))
      = Some (lst', h', snd (finish (re_callback e) dt k pt m)) /\
    reps lst' h' (fst (finish (re_callback e) dt k pt m)).
Proof.
  intros Hr Hk Hm. pose proof (rl_infos _ _ _ Hr) as Hi.
  rewrite Forall_app, Forall_cons in Hi. destruct Hi as (_ & (i & Hi & Hrep) & _).
  simpl in Hi, Hrep. destruct Hrep as (Hrl & Htl & Hb & (rest & Hdf & Hlen) & Hep & _).
  destruct (remove_sender_spec _ _ _ _ _ _ Hr) as (lst' & Hrem & Hr').
  unfold deliver, finish. rewrite Hi. cbn [mbind option_bind]. rewrite Hrl, Htl.
  destruct (pt_total pt =? _) eqn:Et; simpl.
  - rewrite Hrem. destruct (re_callback e); simpl.
    + rewrite Hep. simpl. rewrite Hdf. rewrite read_at_prefix by done. simpl.
      do 2 eexists. split; [|by exists (l1 ++ l2)]. do 4 f_equal.
      unfold event_of. by destruct with_dtls, (pt_secure pt).
    + do 2 eexists. split; [done|by exists (l1 ++ l2)].
  - do 2 eexists. split; [done|]. eexists. split; [done|by apply maps_insert].
Qed.

Lemma more_data_spec lst h l1 p k pt l2 ep f :
  rep_list lst h (l1 ++ (p, (k, pt)) :: l2) -> fr_start f = false -> fragment_ok f ->
  let pt' := {| pt_secure := pt_secure pt; pt_total := pt_total pt;
                pt_received := pt_received pt ++ fr_body f |} in
  exists lst' h' r, more_data lst h (packet ep f) p (Z.of_nat (length l1)) = Some (lst', h', r) /\
    if pt_total pt <? Z.of_nat (length (pt_received pt ++ fr_body f))
    then r = None /\ rep_list lst' h' (l1 ++ l2)
    else r = Some (p, Z.of_nat (length l1)) /\ rep_list lst' h' (l1 ++ (p, (k, pt')) :: l2).
Proof.
  intros Hr Hst (_ & _ & _ & Hf) pt'. pose proof (rl_infos _ _ _ Hr) as Hi.
  rewrite Forall_app, Forall_cons in Hi. destruct Hi as (_ & (i & Hi & Hrep) & _).
  simpl in Hi, Hrep. destruct Hrep as (Hrl & Htl & Hb & (rest & Hdf & Hlen) & Hep & Hk).
  unfold more_data. rewrite Hi. cbn [mbind option_bind].
  cbn [led_data led_dataLen packet]. rewrite (bytes_of_more f Hst), Hrl, Htl.
  change CA_BLE_HEADER_SIZE with 2.
  replace (Z.of_nat (2 + length (fr_body f)) - 2) with (Z.of_nat (length (fr_body f))) by lia.
  rewrite (wrap_small 32) by lia. rewrite (wrap_small 64) by lia.
  replace (Z.of_nat (length (pt_received pt)) + Z.of_nat (length (fr_body f)))
    with (Z.of_nat (length (pt_received pt ++ fr_body f))) by (rewrite length_app; lia).
  destruct (Z.ltb_spec (pt_total pt) (Z.of_nat (length (pt_received pt ++ fr_body f)))).
  { destruct (remove_sender_spec _ _ _ _ _ _ Hr) as (lst' & Hrem & Hr').
    rewrite Hrem. simpl. do 3 eexists. split; [done|]. done. }
  rewrite length_app in *.
  rewrite (read_more_body f Hst). cbn [mbind option_bind]. rewrite Hdf.
  rewrite write_at_after by lia. cbn [mbind option_bind]. unfold set_info. rewrite Hi. simpl.
  do 3 eexists. split; [done|]. split; [done|].
  eapply update_sender_spec; [done|]. unfold info_rep, pt'. simpl.
  split_and!; try done; rewrite ?length_app; [by rewrite wrap_small by lia|lia|lia|].
  exists (drop (length (fr_body f)) rest).
  split; [by rewrite <- app_assoc|]. rewrite length_app, length_drop, length_app. lia.
Qed.

(** Every allocation for a new sender succeeds. *)
Definition memory_ok (e : recv_env) : Prop :=
  re_sender e = true /\ re_buffer e = true /\ re_endpoint e = true /\ re_list e = true.

(** What [new_sender] may do: [ok] says whether there was memory. *)
Definition new_sender_post (e : recv_env) (lst : L) (h : gmap loc CABLESenderInfo_t)
    (zs : list (loc * (key * partial))) (k : key) (f : fragment)
    (res : ub (L * gmap loc CABLESenderInfo_t * option (loc * Z))) : Prop :=
  exists ok lst' h' r, res = Some (lst', h', r) /\
    (memory_ok e -> Z.of_nat (length zs) < 2 ^ 58 -> ok = true) /\
    if start_dropped ok f then r = None /\ rep_list lst' h' zs
    else exists p, r = Some (p, Z.of_nat (length zs)) /\
      rep_list lst' h' (zs ++ [(p, (k, {| pt_secure := fr_secure f; pt_total := fr_total f;
                                          pt_received := fr_body f |}))]).

Lemma new_sender_dropped e lst h zs k f (ok : bool) :
  rep_list lst h zs -> (memory_ok e -> ok = true) -> start_dropped ok f = true ->
  new_sender_post e lst h zs k f (Some (lst, h, None)).
Proof.
  intros Hr Hok Hd. exists ok, lst, h, None. split; [done|]. split; [by auto|]. by rewrite Hd.
Qed.

(** The new record is a record of the key. *)
Lemma new_info_rep a f : length a = BLE_ADDR_LENGTH -> fragment_ok f ->
  start_dropped true f = false ->
  info_rep (a, fr_src f)
    {| pt_secure := fr_secure f; pt_total := fr_total f; pt_received := fr_body f |}
    {| recvDataLen := u32 (0 + Z.of_nat (length (fr_body f))); totalDataLen := fr_total f;
       defragData := fr_body f ++ drop (length (fr_body f))
         (replicate (Z.to_nat (u32 (fr_total f + 1))) 0);
       remoteEndpoint := Some (endpoint_of (a, fr_src f) (fr_secure f)) |}.
Proof.
  intros Ha (_ & _ & Ht & Hf) Hd. unfold start_dropped in Hd. bool_to_prop.
  unfold info_rep. simpl. split_and!; try done; try lia.
  - by rewrite wrap_small by lia.
  - eexists. split; [done|]. rewrite length_app, length_drop, length_replicate.
    rewrite wrap_small by lia. lia.
Qed.

(** Adding the record to the list and looking its index up again. *)
Lemma add_and_find (ok : bool) lst h zs newp a port_ pt i :
  rep_list lst h zs -> h !! newp = None -> length a = BLE_ADDR_LENGTH ->
  (a, port_) ∉ zs.*2.*1 -> info_rep (a, port_) pt i ->
  let h' := <[newp := i]> h in
  exists b lst', pl_add ok lst (Some newp) = Some (b, lst') /\
    (ok = true -> Z.of_nat (length zs) < 2 ^ 58 -> b = true) /\
    if b : bool
    then CALEGetSenderInfo a port_ lst' h' = Some (Some (newp, Z.of_nat (length zs))) /\
         rep_list lst' h' (zs ++ [(newp, ((a, port_), pt))])
    else CALEGetSenderInfo a port_ lst' h' = Some None /\ rep_list lst' (delete newp h') zs.
Proof.
  intros Hr Hp Ha Hk Hi h'.
  destruct (append_sender_spec ok _ _ _ _ _ _ _ Hr Hp Hk Hi) as (b & lst' & Hadd & Hb & Hok).
  exists b, lst'. split; [done|]. split; [done|]. destruct b; [|subst lst'].
  - split; [|done]. by apply (CALEGetSenderInfo_spec _ _ _ a port_ Hb Ha) with pt [].
  - unfold h'. rewrite delete_insert_id by done. split; [|done].
    by apply (CALEGetSenderInfo_spec _ _ zs a port_ (rep_list_frame _ _ _ _ i Hp Hr) Ha).
Qed.

Lemma start_accepted f : 0 <= fr_total f < 2 ^ 32 -> fr_total f <> 0 ->
  u32 (fr_total f + 1) <> 0 -> Z.of_nat (length (fr_body f)) <= fr_total f ->
  start_dropped true f = false.
Proof.
  intros Ht H0 H1 Hl. unfold start_dropped. rewrite (proj2 (Z.ltb_ge _ _)) by done.
  rewrite !(proj2 (Z.eqb_neq _ _)); [done| |done]. intros E. apply H1. by rewrite E.
Qed.

(** The checks one after the other, then the record. *)
Lemma new_sender_spec e lst h zs ep0 ep f :
  rep_list lst h zs -> fr_start f = true -> fragment_ok f ->
  length (addr ep) = BLE_ADDR_LENGTH -> 0 ∉ addr ep -> port ep = fr_src f ->
  (addr ep, fr_src f) ∉ zs.*2.*1 ->
  new_sender_post e lst h zs (addr ep, fr_src f) f
    (new_sender e lst h (packet ep0 f) ep (Z.b2z (fr_secure f))).
Proof.
  intros Hr Hst Hfok Ha Hn Hport Hk. pose proof Hfok as (_ & _ & Ht & Hf).
  unfold new_sender. cbn [led_data led_dataLen packet].
  rewrite (bytes_of_start f Hst), (parse_total f Hst Ht). cbn [mbind option_bind].
  assert (Hno : ~ memory_ok e -> new_sender_post e lst h zs (addr ep, fr_src f) f
    (Some (lst, h, None))) by (intros ?; by apply new_sender_dropped with false).
  destruct (re_sender e) eqn:E1; cbn [negb]; [|apply Hno; intros (? & ? & ? & _); congruence].
  destruct (Z.eqb_spec (fr_total f) 0) as [E2|E2].
  { apply new_sender_dropped with true; [done..|]. unfold start_dropped. by rewrite E2. }
  destruct (re_buffer e) eqn:E3; cbn [negb orb]; [|apply Hno; intros (? & ? & ? & _); congruence].
  destruct (Z.eqb_spec (u32 (fr_total f + 1)) 0) as [E4|E4].
  { apply new_sender_dropped with true; [done..|].
    assert (fr_total f = 2 ^ 32 - 1) as E by (unfold wrap in E4; Z.div_mod_to_equations; lia).
    unfold start_dropped. by rewrite E. }
  destruct (re_endpoint e) eqn:E5; [|apply Hno; intros (? & ? & ? & _); congruence].
  rewrite CACreateEndpointObject_ok by done. cbn [mbind option_bind].
  set (rep := {| adapter := _ |}).
  assert (rep = endpoint_of (addr ep, fr_src f) (fr_secure f)) as Hrep.
  { unfold rep, endpoint_of. rewrite Hport. f_equal. by destruct with_dtls, (fr_secure f). }
  change (CA_BLE_HEADER_SIZE + CA_BLE_LENGTH_HEADER_SIZE) with 6.
  replace (Z.of_nat (6 + length (fr_body f)) - 6) with (Z.of_nat (length (fr_body f))) by lia.
  rewrite (wrap_small 32 (Z.of_nat _)) by lia. rewrite (wrap_small 64) by lia.
  rewrite Z.add_0_l. destruct (Z.ltb_spec (fr_total f) (Z.of_nat (length (fr_body f)))) as [E6|E6].
  { apply new_sender_dropped with true; [done..|]. unfold start_dropped.
    rewrite (proj2 (Z.ltb_lt _ _)) by done. by rewrite !orb_true_r. }
  rewrite (read_start_body f Hst). cbn [mbind option_bind].
  pose proof (start_accepted f Ht E2 E4 E6) as Hd.
  rewrite write_at_prefix by (rewrite length_replicate, wrap_small by (unfold start_dropped in Hd; bool_to_prop; lia); lia).
  cbn [mbind option_bind]. set (i := {| recvDataLen := _ |}). set (newp := fresh (dom h)).
  assert (Hnew : h !! newp = None) by apply not_elem_of_dom, is_fresh.
  assert (Hrec : info_rep (addr ep, fr_src f) {| pt_secure := fr_secure f;
    pt_total := fr_total f; pt_received := fr_body f |} i).
  { unfold i. rewrite Hrep. by apply new_info_rep. }
  destruct (add_and_find (re_list e) lst h zs newp (addr ep) (fr_src f) _ i Hr Hnew Ha Hk Hrec)
    as (b & lst' & Hadd & Hok & Hb).
  rewrite Hadd. cbn [mbind option_bind].
  change (addr rep) with (addr ep). change (port rep) with (port ep). rewrite Hport.
  destruct b; destruct Hb as [-> Hrl]; cbn [mbind option_bind].
  - exists true. do 3 eexists. split; [done|]. split; [done|]. rewrite Hd. eauto.
  - exists false. do 3 eexists. split; [done|]. split; [|done].
    intros (_ & _ & _ & ?). by apply Hok.
Qed.

(** *** The handler *)

Lemma maps_size m (zs : list (loc * (key * partial))) :
  NoDup zs.*2.*1 -> maps m zs -> length zs = size m.
Proof.
  intros Hk Hm. rewrite <- length_map_to_list, <- (length_fmap snd).
  apply Permutation_length, NoDup_Permutation.
  - by apply (NoDup_fmap_1 fst).
  - apply NoDup_map_to_list.
  - intros [k p]. rewrite elem_of_map_to_list. symmetry. apply Hm.
Qed.

(** From the point where no record has the sender's key. *)
Lemma start_packet_spec e dt lst h zs m ep0 ep f :
  rep_list lst h zs -> maps (delete (addr ep, fr_src f) m) zs ->
  fr_start f = true -> fragment_ok f ->
  length (addr ep) = BLE_ADDR_LENGTH -> 0 ∉ addr ep -> port ep = fr_src f ->
  let k := (addr ep, fr_src f) in
  exists ok lst' h', ('(lst, h, current) ← new_sender e lst h (packet ep0 f) ep (Z.b2z (fr_secure f));
     match current with
     | None => Some (lst, h, [])
     | Some (p, i) => deliver e dt lst h p i
     end) = Some (lst', h', snd (if start_dropped ok f then (delete k m, []) else
       finish (re_callback e) dt k {| pt_secure := fr_secure f; pt_total := fr_total f;
                                      pt_received := fr_body f |} m)) /\
    reps lst' h' (fst (if start_dropped ok f then (delete k m, []) else
       finish (re_callback e) dt k {| pt_secure := fr_secure f; pt_total := fr_total f;
                                      pt_received := fr_body f |} m)) /\
    (memory_ok e -> Z.of_nat (size m) < 2 ^ 58 -> ok = true).
Proof.
  intros Hr Hm Hst Hfok Ha Hn Hport k.
  assert (Hk : k ∉ zs.*2.*1) by (apply (maps_missing _ _ _ Hm), lookup_delete_eq).
  destruct (new_sender_spec e lst h zs ep0 ep f Hr Hst Hfok Ha Hn Hport Hk)
    as (ok & lst' & h' & r & -> & Hok & Hres). cbn [mbind option_bind].
  assert (Hsz : memory_ok e -> Z.of_nat (size m) < 2 ^ 58 -> ok = true).
  { intros Hmem Hlt. apply Hok; [done|]. rewrite (maps_size _ _ (rl_keys _ _ _ Hr) Hm).
    pose proof (map_size_delete (addr ep, fr_src f) m) as Hd.
    destruct (m !! (addr ep, fr_src f)); unfold id in Hd; lia. }
  exists ok. destruct (start_dropped ok f).
  - destruct Hres as [-> Hr']. do 2 eexists. split; [reflexivity|]. split; [|done].
    by exists zs.
  - destruct Hres as (p & -> & Hr').
    destruct (deliver_spec e dt lst' h' zs p k _ [] m Hr') as (lst2 & h2 & -> & Hreps);
      [by rewrite app_nil_r..|].
    do 2 eexists. split; [done|]. by split.
Qed.

Lemma handle_packet_spec e dt lst h m ep0 ep f :
  reps lst h m -> fragment_ok f ->
  length (addr ep) = BLE_ADDR_LENGTH -> 0 ∉ addr ep -> port ep = fr_src f ->
  (fr_dst f =? g_localBLESourcePort) || (fr_dst f =? CA_BLE_MULTICAST_PORT) = true ->
  exists ok lst' h', handle_packet e dt lst h (packet ep0 f) ep (Z.b2z (fr_start f))
        (Z.b2z (fr_secure f))
      = Some (lst', h', snd (step ok (re_callback e) dt (addr ep) f m)) /\
    reps lst' h' (fst (step ok (re_callback e) dt (addr ep) f m)) /\
    (memory_ok e -> Z.of_nat (size m) < 2 ^ 58 -> ok = true).
Proof.
  intros (zs & Hr & Hm) Hfok Ha Hn Hport Hdst. unfold handle_packet, step.
  rewrite <- negb_orb, Hdst. cbn [negb]. set (k := (addr ep, fr_src f)).
  destruct (CALEGetSenderInfo_spec lst h zs (addr ep) (port ep) Hr Ha) as [Hf Hnf].
  rewrite Hport in *. destruct (m !! k) as [pt|] eqn:Ek.
  - destruct (maps_found _ _ _ _ Hm Ek) as (l1 & p & l2 & ->).
    rewrite (Hf _ _ _ _ eq_refl). cbn [mbind option_bind].
    pose proof (maps_delete _ _ _ _ _ _ (rl_keys _ _ _ Hr) Hm) as Hm'.
    destruct (fr_start f) eqn:Hst; cbn [Z.b2z Z.eqb negb].
    + destruct (remove_sender_spec _ _ _ _ _ _ Hr) as (lst' & -> & Hr').
      cbn [mbind option_bind]. by apply start_packet_spec with (l1 ++ l2).
    + cbn [mbind option_bind].
      destruct (more_data_spec lst h l1 p k pt l2 ep0 f Hr Hst Hfok)
        as (lst' & h' & r & -> & Hres). cbn [mbind option_bind]. exists true.
      destruct (pt_total pt <? _).
      * destruct Hres as [-> Hr']. do 2 eexists. split; [done|]. split; [|done].
        by exists (l1 ++ l2).
      * destruct Hres as [-> Hr'].
        destruct (deliver_spec e dt lst' h' l1 p k _ l2 m Hr') as (lst2 & h2 & -> & Hreps);
          [by apply (maps_missing _ _ _ Hm'), lookup_delete_eq|done|].
        do 2 eexists. split; [done|]. by split.
  - rewrite (Hnf (maps_missing _ _ _ Hm Ek)). cbn [mbind option_bind].
    destruct (fr_start f) eqn:Hst; cbn [Z.b2z Z.eqb negb].
    + apply start_packet_spec with zs; try done. by rewrite delete_id.
    + exists true. do 2 eexists. split; [done|]. split; [|done]. by exists zs.
Qed.

(** The whole state represents a map. *)
Definition state_reps (st : le_state) (m : gmap key partial) : Prop :=
  exists lst, senders st = Some lst /\ reps lst (infos st) m.

Definition data_type (receiverType : CABLEAdapter_t) : CADataType_t :=
  if receiverType is ADAPTER_CLIENT then CA_REQUEST_DATA else CA_RESPONSE_DATA.

(** A packet that can come in: from a BLE address, with a header. *)
Definition packet_ok (ep : CAEndpoint_t) (f : fragment) : Prop :=
  length (addr ep) = BLE_ADDR_LENGTH /\ 0 ∉ addr ep /\ fragment_ok f.

Lemma receiver_step e rt st m ep f :
  state_reps st m -> packet_ok ep f -> re_running e = true ->
  rt = ADAPTER_CLIENT \/ rt = ADAPTER_SERVER ->
  exists ok st', CALEDataReceiverHandler e rt (Some (packet ep f)) st
      = Some (st', snd (step ok (re_callback e) (data_type rt) (addr ep) f m)) /\
    state_reps st' (fst (step ok (re_callback e) (data_type rt) (addr ep) f m)) /\
    (memory_ok e -> Z.of_nat (size m) < 2 ^ 58 -> ok = true).
Proof.
  intros (lst & Hs & Hreps) (Ha & Hn & Hfok) Hrun Hrt. pose proof Hfok as (Hsrc & Hd & _).
  unfold CALEDataReceiverHandler. rewrite Hrun, Hs. cbn [led_remoteEndpoint led_data packet].
  assert (Hparse : CAParseHeader (Some (bytes_of f ++ [0])) = Some (CA_STATUS_OK,
    Some (Z.b2z (fr_start f), fr_src f, Z.b2z (fr_secure f), fr_dst f))).
  { unfold bytes_of. rewrite <- app_assoc.
    apply CAParseHeader_bytes; try done; [destruct (fr_start f)|destruct (fr_secure f)];
      unfold one_bit; simpl; lia. }
  rewrite Hparse. cbn [mbind option_bind].
  destruct ((fr_dst f =? g_localBLESourcePort) || (fr_dst f =? CA_BLE_MULTICAST_PORT)) eqn:Ed.
  - destruct (handle_packet_spec e (data_type rt) lst (infos st) m ep (set_port (fr_src f) ep) f)
      as (ok & lst' & h' & Hh & Hr' & Hok); try done.
    rewrite <- negb_orb, Ed. cbn [negb]. exists ok, {| senders := Some lst'; infos := h' |}.
    split; [|split; [by exists lst'|done]].
    destruct Hrt as [-> | ->]; simpl data_type in Hh; rewrite Hh; done.
  - exists true, st. rewrite <- negb_orb, Ed. cbn [negb].
    assert (Hstep : step true (re_callback e) (data_type rt) (addr ep) f m = (m, []))
      by (unfold step; by rewrite <- negb_orb, Ed).
    rewrite Hstep. split; [by destruct Hrt as [-> | ->]|]. split; [by exists lst|done].
Qed.
End Receiver.

(** ** What the sender hands over *)

Definition is_secure (ep : CAEndpoint_t) : bool := negb (flags ep &&& CA_SECURE =? 0).

(** The packets of a message: a start packet with as much as fits beside the
    two headers, then pieces of the MTU less one header. *)
Definition first_fragment (mtu : Z) (ep : CAEndpoint_t) (data : list Z) : fragment := {|
  fr_start := true; fr_src := g_localBLESourcePort; fr_secure := is_secure ep;
  fr_dst := port ep; fr_total := Z.of_nat (length data);
  fr_body := take (Z.to_nat (mtu - 6)) data |}.

Definition more_fragment (ep : CAEndpoint_t) (body : list Z) : fragment := {|
  fr_start := false; fr_src := g_localBLESourcePort; fr_secure := is_secure ep;
  fr_dst := port ep; fr_total := 0; fr_body := body |}.

(** [count] pieces of [n] bytes from [off], then what is left. *)
Fixpoint pieces (n : nat) (rest : list Z) (count : nat) : list (list Z) :=
  match count with
  | O => []
  | S count => take n rest :: pieces n (drop n rest) count
  end.

Definition bodies (mtu : Z) (data : list Z) : list (list Z) :=
  let n := mtu - 2 in
  let rest := drop (Z.to_nat (mtu - 6)) data in
  let count := Z.to_nat (Z.of_nat (length rest) / n) in
  pieces (Z.to_nat n) rest count
  ++ (if Z.of_nat (length rest) mod n =? 0 then [] else [drop (count * Z.to_nat n) rest]).

Definition fragments_of (mtu : Z) (ep : CAEndpoint_t) (data : list Z) : list fragment :=
  first_fragment mtu ep data :: (more_fragment ep <$> bodies mtu data).

Lemma pieces_concat n rest count : (count * n <= length rest)%nat ->
  concat (pieces n rest count) = take (count * n) rest.
Proof.
  revert rest. induction count as [|count IH]; intros rest Hl; [done|]. simpl.
  rewrite IH by (rewrite length_drop; lia).
  replace (n + count * n)%nat with (count * n + n)%nat by lia.
  rewrite <- (take_drop n rest) at 3. rewrite take_app.
  rewrite length_take, Nat.min_l by lia. rewrite take_take, Nat.min_r by lia. do 2 f_equal. lia.
Qed.

Lemma pieces_sizes n rest count : (0 < n)%nat -> (count * n <= length rest)%nat ->
  Forall (fun b => length b = n) (pieces n rest count).
Proof.
  intros Hn. revert rest. induction count as [|count IH]; intros rest Hl; constructor.
  - rewrite length_take. simpl in Hl. lia.
  - apply IH. rewrite length_drop. simpl in Hl. lia.
Qed.

Section Count.
Context (mtu : Z) (data : list Z) (Hmtu : 6 <= mtu <= CA_SUPPORTED_BLE_MTU_SIZE).
Let n := mtu - 2.
Let rest := drop (Z.to_nat (mtu - 6)) data.

Lemma bodies_concat : concat (bodies mtu data) = rest.
Proof.
  unfold bodies. fold n rest. rewrite concat_app.
  set (len := Z.of_nat (length rest)).
  assert (0 <= len / n) by (apply Z.div_pos; lia).
  assert (Hc : (Z.to_nat (len / n) * Z.to_nat n <= length rest)%nat).
  { pose proof (Z.mul_div_le len n). nia. }
  rewrite pieces_concat by done.
  destruct (Z.eqb_spec (len mod n) 0) as [E|E]; simpl; rewrite ?app_nil_r.
  - apply take_ge. assert (len = len / n * n) by (Z.div_mod_to_equations; lia). nia.
  - apply take_drop.
Qed.

Lemma bodies_sizes : Forall (fun b => (0 < length b <= Z.to_nat n)%nat) (bodies mtu data).
Proof.
  unfold bodies. fold n rest. set (len := Z.of_nat (length rest)).
  assert (0 <= len / n) by (apply Z.div_pos; lia).
  assert (Hc : (Z.to_nat (len / n) * Z.to_nat n <= length rest)%nat).
  { pose proof (Z.mul_div_le len n). nia. }
  apply Forall_app. split.
  - eapply Forall_impl; [apply pieces_sizes; [lia|done]|]. simpl. lia.
  - destruct (Z.eqb_spec (len mod n) 0) as [E|E]; [done|]. apply Forall_singleton.
    rewrite length_drop. pose proof (Z.mod_pos_bound len n ltac:(lia)).
    assert (len = len / n * n + len mod n) by (Z.div_mod_to_equations; lia). nia.
Qed.
End Count.

Section Sending.
Context (transport : nat -> CAResult_t) (Htransport : forall n, transport n = CA_STATUS_OK).
Context (mtu : Z) (ep : CAEndpoint_t) (data tail : list Z).
Context (Hmtu : 6 <= mtu <= CA_SUPPORTED_BLE_MTU_SIZE).
Context (Hdata : Z.of_nat (length data) < 2 ^ 32 - 7) (Hport : 0 <= port ep < 128).

#[local] Definition msg : CALEData_t := {|
  led_remoteEndpoint := Some ep; led_data := data ++ tail;
  led_dataLen := Z.of_nat (length data) |}.

#[local] Definition hdr (start : bool) : list Z :=
  header_bytes (Z.b2z start) g_localBLESourcePort (Z.b2z (is_secure ep)) (port ep).

Lemma bytes_of_piece body : bytes_of (more_fragment ep body) = hdr false ++ body.
Proof. done. Qed.

Lemma remain_segment seg n idx (off : nat) :
  length seg = Z.to_nat CA_SUPPORTED_BLE_MTU_SIZE -> 0 <= n <= mtu - 2 -> 0 <= idx ->
  Z.of_nat off = mtu - 6 + idx * (mtu - 2) -> Z.of_nat off + n <= Z.of_nat (length data) ->
  let body := take (Z.to_nat n) (drop off data) in
  CAMakeRemainDataSegment (Some seg) n (data ++ tail) (Z.of_nat (length data)) idx
      (Some (hdr false)) mtu
    = Some (CA_STATUS_OK, Some (hdr false ++ body ++ drop (2 + length body) seg)) /\
  length body = Z.to_nat n.
Proof.
  intros Hseg Hn Hidx Hoff Hlen body. unfold CA_SUPPORTED_BLE_MTU_SIZE in *.
  assert (Hbody : length body = Z.to_nat n)
    by (unfold body; rewrite length_take, length_drop; lia).
  split; [|done]. unfold CAMakeRemainDataSegment.
  change CA_BLE_HEADER_SIZE with 2. change CA_BLE_LENGTH_HEADER_SIZE with 4.
  assert (0 <= idx * (mtu - 2) < 2 ^ 32) by (split; [nia|lia]).
  rewrite (wrap_small 32 (mtu - 2)) by lia. rewrite (wrap_small 32 (idx * _)) by done.
  rewrite (wrap_small 32 (mtu - 2 - 4 + _)) by lia. rewrite wrap_small by lia.
  rewrite (proj2 (Z.ltb_ge _ _)) by lia.
  rewrite (read_at_all (hdr false)) by done. cbn [mbind option_bind].
  rewrite write_at_prefix by (simpl; lia). cbn [mbind option_bind].
  assert (Hread : read_at (data ++ tail) (mtu - 2 - 4 + idx * (mtu - 2)) n = Some body).
  { rewrite <- (take_drop off data), <- (take_drop (Z.to_nat n) (drop off data)), <- !app_assoc.
    apply read_at_app; [|fold body; lia]. rewrite length_take. lia. }
  rewrite Hread. cbn [mbind option_bind].
  rewrite write_at_after by (rewrite ?length_drop; simpl; lia). cbn [mbind option_bind].
  by rewrite drop_drop.
Qed.

Lemma send_segment_spec n idx (off : nat) seg sent :
  length seg = Z.to_nat CA_SUPPORTED_BLE_MTU_SIZE -> 0 <= n <= mtu - 2 -> 0 <= idx ->
  Z.of_nat off = mtu - 6 + idx * (mtu - 2) -> Z.of_nat off + n <= Z.of_nat (length data) ->
  exists seg', length seg' = Z.to_nat CA_SUPPORTED_BLE_MTU_SIZE /\
    send_segment transport mtu n idx msg (hdr false) seg sent
      = Some (CA_STATUS_OK, seg', sent ++ [bytes_of (more_fragment ep
          (take (Z.to_nat n) (drop off data)))]).
Proof.
  intros Hseg Hn Hidx Hoff Hlen.
  destruct (remain_segment seg n idx off Hseg Hn Hidx Hoff Hlen) as [Hr Hbody].
  unfold send_segment. cbn [led_data led_dataLen msg]. rewrite Hr. cbn [mbind option_bind].
  rewrite decide_False by (intros Hne; by apply Hne).
  set (body := take _ _) in *. exists (hdr false ++ body ++ drop (2 + length body) seg).
  split; [unfold CA_SUPPORTED_BLE_MTU_SIZE in *; rewrite !length_app, length_drop; simpl; lia|].
  unfold transmit. rewrite app_assoc.
  rewrite read_at_prefix by (rewrite length_app; simpl; change CA_BLE_HEADER_SIZE with 2; lia).
  cbn [mbind option_bind]. by rewrite Htransport, bytes_of_piece.
Qed.

Lemma send_middle_spec count idx (off : nat) seg sent :
  length seg = Z.to_nat CA_SUPPORTED_BLE_MTU_SIZE -> 0 <= idx ->
  Z.of_nat off = mtu - 6 + idx * (mtu - 2) ->
  Z.of_nat off + Z.of_nat count * (mtu - 2) <= Z.of_nat (length data) ->
  exists seg', length seg' = Z.to_nat CA_SUPPORTED_BLE_MTU_SIZE /\
    send_middle transport mtu idx msg (hdr false) seg sent count
      = Some (CA_STATUS_OK, seg', sent ++ (bytes_of <$> (more_fragment ep <$>
          pieces (Z.to_nat (mtu - 2)) (drop off data) count))).
Proof.
  revert idx off seg sent. induction count as [|count IH]; intros idx off seg sent Hseg Hidx Hoff Hlen.
  { exists seg. simpl. by rewrite app_nil_r. }
  destruct (send_segment_spec (mtu - 2) idx off seg sent Hseg) as (seg1 & Hseg1 & Hsend); [first [lia|nia]..|].
  cbn [send_middle]. change CA_BLE_HEADER_SIZE with 2. rewrite Hsend. cbn [mbind option_bind].
  rewrite decide_False by (intros Hne; by apply Hne).
  edestruct (IH (idx + 1) (off + Z.to_nat (mtu - 2))%nat seg1) as (seg2 & Hseg2 & Hrest);
    [done|first [lia|nia]..|].
  exists seg2. split; [done|]. rewrite Hrest, <- app_assoc. simpl.
  by rewrite <- drop_drop.
Qed.

#[local] Definition left_over : Z := Z.of_nat (length (drop (Z.to_nat (mtu - 6)) data)).

Lemma left_over_eq : left_over = Z.max 0 (Z.of_nat (length data) - (mtu - 6)).
Proof. unfold left_over. rewrite length_drop. lia. Qed.

Lemma fragmentation_variables :
  exists total, CAGenerateVariableForFragmentation (Z.of_nat (length data)) mtu
      = (CA_STATUS_OK, Some (left_over / (mtu - 2), left_over mod (mtu - 2), total)) /\
    (total < mtu -> left_over = 0 /\ total = Z.of_nat (length data) + 6) /\
    (mtu <= total -> mtu - 6 <= Z.of_nat (length data)) /\
    (left_over mod (mtu - 2) <> 0 -> mtu < total).
Proof.
  unfold CAGenerateVariableForFragmentation, CA_SUPPORTED_BLE_MTU_SIZE in *.
  change CA_BLE_HEADER_SIZE with 2. change CA_BLE_LENGTH_HEADER_SIZE with 4.
  rewrite (wrap_small 64 (mtu - _)) by lia.
  set (len := Z.of_nat (length data)) in *.
  pose proof left_over_eq as Hleft. fold len in Hleft.
  set (r := if len <? mtu - (2 + 4) then _ else _).
  assert (r = left_over) as ->.
  { unfold r. destruct (Z.ltb_spec len (mtu - (2 + 4))); [lia|]. rewrite wrap_small by lia. lia. }
  rewrite (proj2 (Z.leb_gt _ _)) by lia. rewrite (wrap_small 32 left_over) by lia.
  assert (0 <= left_over / (mtu - 2) <= left_over) as Hq
    by (split; [apply Z.div_pos; lia|apply Z.div_le_upper_bound; nia]).
  assert (Hq4 : left_over / (mtu - 2) * 4 <= left_over)
    by (pose proof (Z.mul_div_le left_over (mtu - 2)); nia).
  set (c := if left_over mod (mtu - 2) =? 0 then 0 else 1).
  assert (0 <= c <= 1) by (unfold c; destruct (_ =? 0); lia).
  rewrite (wrap_small 32 (_ + c)) by lia. rewrite (wrap_small 32 (2 * _)) by lia.
  rewrite wrap_small by lia. eexists. split; [done|].
  assert (Hzero : left_over = 0 -> left_over / (mtu - 2) = 0 /\ c = 0)
    by (unfold c; intros ->; by rewrite Zmod_0_l, Zdiv_0_l).
  destruct (Z.eq_dec left_over 0) as [E|E].
  { destruct (Hzero E) as [-> ->]. split; [lia|]. split; [lia|]. by rewrite E, Zmod_0_l. }
  split; [lia|]. split; [lia|]. intros Hm.
  assert (c = 1) by (unfold c; by rewrite (proj2 (Z.eqb_neq _ _))). lia.
Qed.

Lemma first_segment n lh : n = Z.min (mtu - 6) (Z.of_nat (length data)) -> length lh = 4%nat ->
  let body := take (Z.to_nat (mtu - 6)) data in
  exists seg', CAMakeFirstDataSegment (Some (replicate (Z.to_nat CA_SUPPORTED_BLE_MTU_SIZE) 0))
      (data ++ tail) n (Some (hdr true)) (Some lh)
    = Some (CA_STATUS_OK, Some ((hdr true ++ lh ++ body) ++ seg')) /\
    length ((hdr true ++ lh ++ body) ++ seg') = Z.to_nat CA_SUPPORTED_BLE_MTU_SIZE /\
    length body = Z.to_nat n.
Proof.
  intros Hn Hlh body. unfold CA_SUPPORTED_BLE_MTU_SIZE in *.
  assert (Hb : length body = Z.to_nat n) by (unfold body; rewrite length_take; lia).
  unfold CAMakeFirstDataSegment.
  rewrite (read_at_all (hdr true)) by done. cbn [mbind option_bind].
  rewrite write_at_prefix by (rewrite length_replicate; simpl; lia). cbn [mbind option_bind].
  rewrite (read_at_all lh) by (by rewrite Hlh). cbn [mbind option_bind].
  rewrite write_at_after by (try done; rewrite length_drop, length_replicate, Hlh; simpl; lia).
  cbn [mbind option_bind].
  assert (read_at (data ++ tail) 0 n = Some body) as ->.
  { rewrite <- (take_drop (Z.to_nat (mtu - 6)) data), <- app_assoc.
    apply read_at_prefix. fold body. lia. }
  cbn [mbind option_bind]. rewrite app_assoc.
  change (CA_BLE_HEADER_SIZE + CA_BLE_LENGTH_HEADER_SIZE) with 6.
  rewrite write_at_after by (rewrite ?length_app, ?length_drop, ?length_replicate, ?Hlh; simpl; lia).
  cbn [mbind option_bind]. rewrite (app_assoc (hdr true ++ lh) body), <- (app_assoc (hdr true) lh body).
  eexists. split; [reflexivity|]. split; [|done].
  rewrite !length_app, !length_drop, length_replicate, Hlh. simpl. lia.
Qed.

(** The packets after the first. *)
Lemma send_rest seg sent total :
  length seg = Z.to_nat CA_SUPPORTED_BLE_MTU_SIZE ->
  (left_over mod (mtu - 2) <> 0 -> mtu < total) ->
  ('(result, seg, sent) ← send_middle transport mtu 0 msg (hdr false) seg sent
                            (Z.to_nat (left_over / (mtu - 2)));
   if decide (CA_STATUS_OK <> result) then Some (sending result sent)
   else if negb (left_over mod (mtu - 2) =? 0) && (mtu <? total) then
     '(result, _, sent) ← send_segment transport mtu (left_over mod (mtu - 2))
                            (left_over / (mtu - 2)) msg (hdr false) seg sent;
     Some (sending result sent)
   else Some (sending CA_STATUS_OK sent))
  = Some (sent ++ (bytes_of <$> (more_fragment ep <$> bodies mtu data)), None).
Proof.
  intros Hseg Hrem. unfold bodies. fold left_over. unfold CA_SUPPORTED_BLE_MTU_SIZE in *.
  destruct (Z.eq_dec left_over 0) as [E|E].
  { rewrite E, Zmod_0_l, Zdiv_0_l. simpl. by rewrite app_nil_r. }
  pose proof left_over_eq as Hmax.
  assert (Hlen : left_over = Z.of_nat (length data) - (mtu - 6)) by lia.
  assert (0 <= left_over / (mtu - 2)) as Hq by (apply Z.div_pos; lia).
  pose proof (Z.div_mod left_over (mtu - 2) ltac:(lia)) as Hdm.
  pose proof (Z.mod_pos_bound left_over (mtu - 2) ltac:(lia)) as Hmb.
  destruct (send_middle_spec (Z.to_nat (left_over / (mtu - 2))) 0 (Z.to_nat (mtu - 6)) seg sent)
    as (seg1 & Hseg1 & ->); [done|lia|lia|rewrite !Z2Nat.id by lia; lia|].
  cbn [mbind option_bind]. rewrite decide_False by (intros Hne; by apply Hne).
  destruct (Z.eqb_spec (left_over mod (mtu - 2)) 0) as [E0|E0]; cbn [negb andb].
  { by rewrite app_nil_r. }
  rewrite (proj2 (Z.ltb_lt _ _)) by auto.
  edestruct (send_segment_spec (left_over mod (mtu - 2)) (left_over / (mtu - 2))
    (Z.to_nat (mtu - 6) + Z.to_nat (left_over / (mtu - 2)) * Z.to_nat (mtu - 2))%nat seg1)
    as (seg2 & _ & Hlast); [done|lia|lia|nia|nia|].
  rewrite Hlast. cbn [mbind option_bind]. unfold sending.
  rewrite decide_False by (intros Hne; by apply Hne).
  rewrite take_ge by (rewrite length_drop; nia).
  by rewrite !fmap_app, app_assoc, drop_drop.
Qed.

Lemma send_packets_spec :
  send_packets transport mtu msg ep = Some (bytes_of <$> fragments_of mtu ep data, None).
Proof.
  destruct fragmentation_variables as (total & Hvars & Hwhole & Hcut & Hrem).
  unfold CA_SUPPORTED_BLE_MTU_SIZE in Hmtu.
  unfold send_packets. cbn [led_data led_dataLen msg]. rewrite Hvars.
  set (sec := if flags ep &&& CA_SECURE =? 0 then _ else _).
  assert (sec = Z.b2z (is_secure ep)) as ->
    by (unfold sec, is_secure; by destruct (flags ep &&& CA_SECURE =? 0)).
  assert (one_bit (Z.b2z (is_secure ep)))
    by (unfold one_bit; destruct (is_secure ep); simpl; lia).
  assert (is_byte 0) by (unfold is_byte; lia).
  rewrite CAGenerateHeader_bytes by (done || unfold one_bit, CA_SUPPORTED_BLE_MIN_PORT,
    CA_SUPPORTED_BLE_MAX_PORT, g_localBLESourcePort, CA_BLE_PACKET_START; lia).
  cbn [mbind option_bind]. rewrite decide_False by (intros Hne; by apply Hne).
  rewrite CAGenerateHeaderPayloadLength_bytes. cbn [mbind option_bind].
  rewrite decide_False by (intros Hne; by apply Hne). rewrite app_nil_r.
  change (header_bytes CA_BLE_PACKET_START g_localBLESourcePort (Z.b2z (is_secure ep)) (port ep))
    with (hdr true).
  set (n := Z.min (mtu - 6) (Z.of_nat (length data))).
  assert ((if total <? mtu then Z.of_nat (length data)
           else u32 (mtu - CA_BLE_HEADER_SIZE - CA_BLE_LENGTH_HEADER_SIZE)) = n) as ->.
  { change (mtu - CA_BLE_HEADER_SIZE - CA_BLE_LENGTH_HEADER_SIZE) with (mtu - 2 - 4).
    destruct (Z.ltb_spec total mtu); [lia|]. rewrite wrap_small by lia. lia. }
  assert ((if total <? mtu then u32 total else mtu) = 6 + n) as ->.
  { destruct (Z.ltb_spec total mtu); [rewrite wrap_small by lia|]; lia. }
  destruct (first_segment n (length_bytes (Z.of_nat (length data))) eq_refl eq_refl)
    as (seg' & -> & Hseg & Hbody).
  cbn [mbind option_bind]. rewrite decide_False by (intros Hne; by apply Hne).
  unfold transmit at 1. rewrite read_at_prefix by (rewrite !length_app; simpl in *; lia).
  cbn [mbind option_bind]. rewrite Htransport, decide_False by (intros Hne; by apply Hne).
  assert (CAGenerateHeader (Some (hdr true)) CA_BLE_PACKET_NOT_START g_localBLESourcePort
    (Z.b2z (is_secure ep)) (port ep) = Some (CA_STATUS_OK, Some (hdr false))) as ->.
  { unfold hdr, header_bytes. rewrite CAGenerateHeader_bytes; [done|..]; try done;
      unfold is_byte, one_bit, g_localBLESourcePort, CA_SUPPORTED_BLE_MIN_PORT,
        CA_SUPPORTED_BLE_MAX_PORT, CA_BLE_PACKET_NOT_START; simpl Z.b2z; try lia.
    destruct (is_secure ep); simpl; lia. }
  cbn [mbind option_bind]. rewrite decide_False by (intros Hne; by apply Hne).
  cbn [mbind option_bind]. by rewrite (send_rest _ _ total Hseg Hrem).
Qed.
End Sending.

(** ** From sender to receiver *)

Section Transfer.
Context {L : Type} `{PtrList L loc} (with_dtls : bool).
#[local] Abbreviation key := (list Z * Z)%type.

(** The handler on a sequence of packets. *)
Fixpoint receive_all (e : recv_env) (rt : CABLEAdapter_t) (ds : list CALEData_t)
    (st : @le_state L) : ub (@le_state L * list le_event) :=
  match ds with
  | [] => Some (st, [])
  | d :: ds =>
      '(st, ev) ← CALEDataReceiverHandler with_dtls e rt (Some d) st;
      '(st, evs) ← receive_all e rt ds st;
      Some (st, ev ++ evs)
  end.

Fixpoint run_steps (dt : CADataType_t) (tr : list (list Z * fragment)) (m : gmap key partial)
    : gmap key partial * list le_event :=
  match tr with
  | [] => (m, [])
  | (a, f) :: tr =>
      let '(m1, ev) := step with_dtls true true dt a f m in
      let '(m2, evs) := run_steps dt tr m1 in
      (m2, ev ++ evs)
  end.

Definition packet_key (x : list Z * fragment) : key := (x.1, fr_src x.2).

Definition event_key (ev : le_event) : key :=
  match ev with
  | network_packet ep _ => (addr ep, port ep)
  | decrypt_ssl _ ep _ => (addr ep, port ep)
  end.

Lemma event_of_key dt k p : event_key (event_of with_dtls dt k p) = k.
Proof. destruct k. unfold event_of. by destruct (_ && _). Qed.

Lemma finish_effect cb dt k p m k' :
  let r := finish with_dtls cb dt k p m in
  (k' <> k -> fst r !! k' = m !! k') /\ Forall (fun ev => event_key ev = k) (snd r) /\
  (size (fst r) <= S (size m))%nat.
Proof.
  unfold finish. destruct (_ =? _); simpl.
  - split; [intros ?; by rewrite lookup_delete_ne|]. split.
    + destruct cb; constructor; [apply event_of_key|constructor].
    + rewrite map_size_delete. destruct (m !! k); unfold id; lia.
  - split; [intros ?; by rewrite lookup_insert_ne|]. split; [constructor|].
    rewrite map_size_insert. destruct (m !! k); unfold id; lia.
Qed.

(** A packet touches its sender only. *)
Lemma step_effect ok cb (dt : CADataType_t) (a : list Z) (f : fragment) m k' :
  let r := step with_dtls ok cb dt a f m in
  (k' <> (a, fr_src f) -> fst r !! k' = m !! k') /\
  Forall (fun ev => event_key ev = (a, fr_src f)) (snd r) /\ (size (fst r) <= S (size m))%nat.
Proof.
  assert (Hdel : forall k, (k' <> k -> fst (delete k m, [] : list le_event) !! k' = m !! k') /\
    (size (delete k m) <= S (size m))%nat).
  { intros k. simpl. split; [intros ?; by rewrite lookup_delete_ne|].
    rewrite map_size_delete. destruct (m !! k); unfold id; lia. }
  unfold step. destruct (_ && _); [simpl; split_and!; [done|constructor|lia]|].
  destruct (fr_start f).
  - destruct (start_dropped ok f); [|apply finish_effect].
    destruct (Hdel (a, fr_src f)). simpl. split_and!; [done|constructor|done].
  - destruct (m !! (a, fr_src f)); [|simpl; split_and!; [done|constructor|lia]].
    destruct (_ <? _); [|apply finish_effect].
    destruct (Hdel (a, fr_src f)). simpl. split_and!; [done|constructor|done].
Qed.

(** What a packet does depends on its sender's entry only. *)
Lemma step_local (dt : CADataType_t) (a : list Z) (f : fragment) (m1 m2 : gmap key partial) :
  m1 !! (a, fr_src f) = m2 !! (a, fr_src f) ->
  snd (step with_dtls true true dt a f m1) = snd (step with_dtls true true dt a f m2) /\
  fst (step with_dtls true true dt a f m1) !! (a, fr_src f)
    = fst (step with_dtls true true dt a f m2) !! (a, fr_src f).
Proof.
  intros E. unfold step. destruct (_ && _); [done|].
  assert (Hfin : forall p, snd (finish with_dtls true dt (a, fr_src f) p m1)
      = snd (finish with_dtls true dt (a, fr_src f) p m2) /\
    fst (finish with_dtls true dt (a, fr_src f) p m1) !! (a, fr_src f)
      = fst (finish with_dtls true dt (a, fr_src f) p m2) !! (a, fr_src f)).
  { intros p. unfold finish. destruct (_ =? _); simpl;
      by rewrite ?lookup_delete_eq, ?lookup_insert_eq. }
  destruct (fr_start f).
  - destruct (start_dropped true f); [|done]. simpl. by rewrite !lookup_delete_eq.
  - rewrite E. destruct (m2 !! (a, fr_src f)) eqn:E2; [|simpl; split; [done|congruence]].
    destruct (_ <? _); [|apply Hfin]. simpl. by rewrite !lookup_delete_eq.
Qed.

(** A sender's messages do not depend on the others' packets. *)
Lemma run_filter dt k tr m1 m2 : m1 !! k = m2 !! k ->
  let r1 := run_steps dt tr m1 in
  let r2 := run_steps dt (filter (fun x => packet_key x = k) tr) m2 in
  fst r1 !! k = fst r2 !! k /\ filter (fun ev => event_key ev = k) (snd r1) = snd r2.
Proof.
  revert m1 m2. induction tr as [|[a f] tr IH]; intros m1 m2 E; [done|].
  pose proof (step_effect true true dt a f m1 k) as (Hne & Hev & _).
  destruct (decide (packet_key (a, f) = k)) as [Hk|Hk];
    [rewrite filter_cons_True by done; simpl in Hk; subst k|rewrite filter_cons_False by done];
    cbn [run_steps].
  - destruct (step_local dt a f m1 m2 E) as [Hs Hf].
    destruct (step _ _ _ _ _ _ m1) as [n1 ev1], (step _ _ _ _ _ _ m2) as [n2 ev2]. simpl in *.
    subst ev2. destruct (IH n1 n2 Hf) as [IH1 IH2].
    destruct (run_steps dt tr n1), (run_steps dt (filter _ tr) n2). simpl in *.
    split; [done|]. by rewrite filter_app, IH2, (filter_all _ _ Hev).
  - destruct (step _ _ _ _ _ _ m1) as [n1 ev1]. simpl in *.
    destruct (IH n1 m2) as [IH1 IH2]; [rewrite Hne by (intros ->; by apply Hk); done|].
    destruct (run_steps dt tr n1), (run_steps dt (filter _ tr) m2). simpl in *.
    split; [done|]. rewrite filter_app, IH2, (filter_none _ ev1); [done|].
    eapply Forall_impl; [exact Hev|]. simpl. intros ev -> Hev'. by apply Hk.
Qed.

(** The rest of a message whose start has come in. *)
Lemma run_bodies (dt : CADataType_t) (a : list Z) ep m bs recv total sec :
  port ep = g_localBLESourcePort ->
  let k := (a, g_localBLESourcePort) in
  m !! k = Some {| pt_secure := sec; pt_total := total; pt_received := recv |} ->
  bs <> [] -> Forall (fun b : list Z => (0 < length b)%nat) bs ->
  total = Z.of_nat (length (recv ++ concat bs)) ->
  let r := run_steps dt ((fun b => (a, more_fragment ep b)) <$> bs) m in
  fst r !! k = None /\
  snd r = [event_of with_dtls dt k {| pt_secure := sec; pt_total := total;
                                      pt_received := recv ++ concat bs |}].
Proof.
  intros Hport k. revert m recv. induction bs as [|b bs IH]; intros m recv Hm Hne Hpos Ht; [done|].
  apply Forall_cons in Hpos as [Hb Hpos]. rewrite concat_cons, app_assoc in Ht |- *.
  rewrite fmap_cons. cbn [run_steps].
  assert (Hstep : step with_dtls true true dt a (more_fragment ep b) m
    = finish with_dtls true dt k {| pt_secure := sec; pt_total := total;
                                    pt_received := recv ++ b |} m).
  { unfold step. cbn [fr_dst fr_src fr_start fr_body more_fragment]. rewrite Hport, Z.eqb_refl.
    cbn [negb andb]. fold k. rewrite Hm. cbn [pt_total pt_received pt_secure].
    rewrite (proj2 (Z.ltb_ge _ _)); [done|]. rewrite Ht, (length_app (recv ++ b)). lia. }
  rewrite Hstep. unfold finish. cbn [pt_total pt_received].
  destruct bs as [|b2 bs'].
  - simpl concat in *. rewrite app_nil_r in *. rewrite (proj2 (Z.eqb_eq _ _)) by done.
    simpl. by rewrite lookup_delete_eq.
  - rewrite (proj2 (Z.eqb_neq _ _)).
    2:{ rewrite Ht, (length_app (recv ++ b)). apply Forall_cons in Hpos as [Hb2 _].
        rewrite concat_cons, (length_app b2). lia. }
    specialize (IH (<[k := {| pt_secure := sec; pt_total := total; pt_received := recv ++ b |}]> m)
      (recv ++ b)).
    destruct (run_steps _ _ _) as [m2 evs]. simpl in IH |- *. apply IH; try done.
    by rewrite lookup_insert_eq.
Qed.

(** A whole message, whatever was there before. *)
Lemma run_message (dt : CADataType_t) (a : list Z) ep m mtu data :
  6 <= mtu <= CA_SUPPORTED_BLE_MTU_SIZE -> port ep = g_localBLESourcePort ->
  0 < Z.of_nat (length data) < 2 ^ 32 - 7 ->
  let k := (a, g_localBLESourcePort) in
  let r := run_steps dt ((fun f => (a, f)) <$> fragments_of mtu ep data) m in
  fst r !! k = None /\
  snd r = [event_of with_dtls dt k {| pt_secure := is_secure ep;
             pt_total := Z.of_nat (length data); pt_received := data |}].
Proof.
  intros Hmtu Hport Hlen k. unfold fragments_of. rewrite fmap_cons. cbn [run_steps].
  set (body := take (Z.to_nat (mtu - 6)) data).
  assert (Hbody : (length body <= length data)%nat) by (unfold body; rewrite length_take; lia).
  assert (Hstep : step with_dtls true true dt a (first_fragment mtu ep data) m
    = finish with_dtls true dt k {| pt_secure := is_secure ep;
        pt_total := Z.of_nat (length data); pt_received := body |} m).
  { unfold step, start_dropped. cbn [fr_dst fr_src fr_start fr_body fr_total fr_secure first_fragment].
    rewrite Hport, Z.eqb_refl. cbn [negb andb orb]. rewrite !(proj2 (Z.eqb_neq _ _)) by lia.
    fold body. by rewrite (proj2 (Z.ltb_ge _ _)) by lia. }
  rewrite Hstep. unfold finish. cbn [pt_total pt_received].
  pose proof (bodies_concat mtu data Hmtu) as Hc.
  pose proof (bodies_sizes mtu data Hmtu) as Hs.
  assert (Hall : body ++ concat (bodies mtu data) = data)
    by (rewrite Hc; apply take_drop).
  destruct (Z.eqb_spec (Z.of_nat (length data)) (Z.of_nat (length body))) as [E|E].
  - assert (bodies mtu data = []) as Hnil.
    { destruct (bodies mtu data) as [|b bs]; [done|]. apply Forall_cons in Hs as [Hb _].
      apply (f_equal length) in Hall. rewrite concat_cons, !length_app in Hall. lia. }
    rewrite Hnil in Hall |- *. simpl in *. rewrite app_nil_r in Hall.
    rewrite lookup_delete_eq. by rewrite Hall.
  - assert (Hne : bodies mtu data <> []).
    { intros Hb. rewrite Hb in Hall. simpl in Hall. rewrite app_nil_r in Hall. by rewrite Hall in E. }
    rewrite <- list_fmap_compose.
    pose proof (run_bodies dt a ep (<[k := {| pt_secure := is_secure ep;
      pt_total := Z.of_nat (length data); pt_received := body |}]> m) (bodies mtu data) body
      (Z.of_nat (length data)) (is_secure ep) Hport (lookup_insert_eq _ _ _) Hne) as Hrun.
    rewrite Hall in Hrun. cbv zeta in Hrun. revert Hrun. unfold compose. cbv beta.
    destruct (run_steps _ _ _) as [m2 evs]. cbn [fst snd app]. intros Hrun.
    apply Hrun; [|done]. eapply Forall_impl; [exact Hs|]. simpl. lia.
Qed.

(** Nothing fails. *)
Definition env_works (e : recv_env) : Prop :=
  re_running e = true /\ re_callback e = true /\ memory_ok e.

Lemma receive_all_run e rt st m (tr : list (CAEndpoint_t * fragment)) :
  state_reps with_dtls st m -> env_works e -> rt = ADAPTER_CLIENT \/ rt = ADAPTER_SERVER ->
  Forall (fun x => packet_ok x.1 x.2) tr ->
  Z.of_nat (size m + length tr) < 2 ^ 58 ->
  let r := run_steps (data_type rt) ((fun x => (addr x.1, x.2)) <$> tr) m in
  exists st', receive_all e rt ((fun x => packet x.1 x.2) <$> tr) st = Some (st', snd r) /\
    state_reps with_dtls st' (fst r).
Proof.
  intros Hreps (Hrun & Hcb & Hmem) Hrt. revert st m Hreps.
  induction tr as [|[ep f] tr IH]; intros st m Hreps Hpk Hsz; [by exists st|].
  apply Forall_cons in Hpk as [Hp Hpk]. simpl in Hp, Hsz. rewrite !fmap_cons.
  destruct (receiver_step with_dtls e rt st m ep f Hreps Hp Hrun Hrt)
    as (ok & st1 & Hstep & Hreps1 & Hok).
  rewrite Hok, Hcb in * by (done || lia). cbn [receive_all run_steps fst snd].
  rewrite Hstep. cbn [mbind option_bind].
  pose proof (step_effect true true (data_type rt) (addr ep) f m ([], 0)) as (_ & _ & Hsize).
  destruct (step _ _ _ _ _ _ m) as [m1 ev]. simpl in Hreps1, Hsize |- *.
  destruct (IH st1 m1 Hreps1 Hpk) as (st2 & Hall & Hreps2); [lia|].
  rewrite Hall. cbn [mbind option_bind].
  destruct (run_steps _ _ m1) as [m2 evs]. simpl in *. by exists st2.
Qed.

(** The packets of one sender, on both sides of the correspondence. *)
Lemma own_packets (k : key) (tr : list (CAEndpoint_t * fragment)) :
  filter (fun x => packet_key x = k) ((fun x => (addr x.1, x.2)) <$> tr)
    = (fun f => (k.1, f)) <$> (filter (fun x => (addr x.1, fr_src x.2) = k) tr).*2.
Proof.
  induction tr as [|[ep f] tr IH]; [done|]. rewrite fmap_cons.
  destruct (decide ((addr ep, fr_src f) = k)) as [<-|Hk].
  - rewrite !filter_cons_True by done. by rewrite IH.
  - by rewrite !filter_cons_False.
Qed.

(** the packet handler refines the map of partial messages: on a state that
    represents a map, every packet with a header from a BLE address is
    handled without undefined behaviour, hands up exactly the message the
    specification completes, and leads to a state that represents the
    specification's next map; memory may run out only where [ok] says so. *)
Theorem CALEDataReceiverHandler_refines (e : recv_env) (rt : CABLEAdapter_t) (st : le_state)
    (m : gmap key partial) (ep : CAEndpoint_t) (f : fragment) :
  state_reps with_dtls st m -> packet_ok ep f -> re_running e = true ->
  rt = ADAPTER_CLIENT \/ rt = ADAPTER_SERVER ->
  exists ok st', CALEDataReceiverHandler with_dtls e rt (Some (packet ep f)) st
      = Some (st', snd (step with_dtls ok (re_callback e) (data_type rt) (addr ep) f m)) /\
    state_reps with_dtls st' (fst (step with_dtls ok (re_callback e) (data_type rt) (addr ep) f m)) /\
    (memory_ok e -> Z.of_nat (size m) < 2 ^ 58 -> ok = true).
Proof. apply receiver_step. Qed.

(** C21: a message sent with any MTU from 6 to the largest supported one is
    delivered whole and once: the packets the send threads hand to the
    platform, arriving in order and mixed with any packets of other senders,
    make the receiver hand up exactly that message for that sender, to the
    decryption if it was marked secure. *)
Theorem ble_transfer (transport : nat -> CAResult_t) (mtu : Z) (dest : CAEndpoint_t)
    (data : list Z) (e : recv_env) (rt : CABLEAdapter_t) (st : le_state) (m : gmap key partial)
    (peer : list Z) (tr : list (CAEndpoint_t * fragment)) :
  (forall n, transport n = CA_STATUS_OK) -> 6 <= mtu <= CA_SUPPORTED_BLE_MTU_SIZE ->
  0 < Z.of_nat (length data) < 2 ^ 32 - 7 -> port dest = g_localBLESourcePort ->
  state_reps with_dtls st m -> env_works e -> rt = ADAPTER_CLIENT \/ rt = ADAPTER_SERVER ->
  Forall (fun x => packet_ok x.1 x.2) tr -> Z.of_nat (size m + length tr) < 2 ^ 58 ->
  let k := (peer, g_localBLESourcePort) in
  let queued := {| led_remoteEndpoint := Some dest; led_data := data ++ [0];
                   led_dataLen := Z.of_nat (length data) |} in
  exists frags,
    CALEServerSendDataThread transport mtu (Some queued) = Some (bytes_of <$> frags, None) /\
    CALEClientSendDataThread transport None mtu (Some queued) = Some (bytes_of <$> frags, None) /\
    ((filter (fun x => (addr x.1, fr_src x.2) = k) tr).*2 = frags ->
     exists st' evs, receive_all e rt ((fun x => packet x.1 x.2) <$> tr) st = Some (st', evs) /\
       filter (fun ev => event_key ev = k) evs
         = [event_of with_dtls (data_type rt) k {| pt_secure := is_secure dest;
              pt_total := Z.of_nat (length data); pt_received := data |}]).
Proof.
  intros Htr Hmtu Hlen Hport Hreps He Hrt Hpk Hsz k queued.
  assert (0 <= port dest < 128) by (rewrite Hport; unfold g_localBLESourcePort; lia).
  assert (Hsend : send_packets transport mtu queued dest
    = Some (bytes_of <$> fragments_of mtu dest data, None)) by (apply send_packets_spec; done || lia).
  exists (fragments_of mtu dest data). split; [done|]. split; [done|]. intros Hown.
  destruct (receive_all_run e rt st m tr Hreps He Hrt Hpk Hsz) as (st' & Hrecv & _).
  do 2 eexists. split; [exact Hrecv|].
  destruct (run_filter (data_type rt) k ((fun x => (addr x.1, x.2)) <$> tr) m m eq_refl)
    as [_ ->].
  rewrite own_packets, Hown. by apply run_message.
Qed.
End Transfer.

(** ** Packets shorter than their headers *)

(** An adapter that has just been started. *)
Definition fresh_list : u_arraylist_t loc := {| data := [Indet]; capacity := 1; length_ := 0 |}.
Definition fresh_adapter : @le_state (u_arraylist_t loc) :=
  {| senders := Some fresh_list; infos := ∅ |}.

(** nothing checks the size of a packet before its headers are read: a
    two-byte packet with the start bit makes the receiver read the length
    header outside the queued buffer. *)
Theorem short_start_packet_out_of_bounds (with_dtls : bool) (e : recv_env) (rt : CABLEAdapter_t)
    (ep : CAEndpoint_t) :
  re_running e = true -> rt = ADAPTER_CLIENT \/ rt = ADAPTER_SERVER ->
  exists d, CACreateLEData true true (Some ep) [129; 1] 2 = Some (Some d) /\
    CALEDataReceiverHandler with_dtls e rt (Some d) fresh_adapter = None.
Proof.
  intros Hrun Hrt. eexists. split; [reflexivity|].
  unfold CALEDataReceiverHandler. rewrite Hrun. by destruct Hrt as [-> | ->].
Qed.

(** ** Concrete instances *)

Lemma fresh_adapter_reps with_dtls : state_reps with_dtls fresh_adapter ∅.
Proof.
  exists fresh_list. split; [done|]. exists []. split.
  - split; simpl; try constructor; simpl; unfold PTR_SIZE, PTRDIFF_MAX; done || lia.
  - intros k p. rewrite lookup_empty. simpl. split; [done|]. by intros ?%not_elem_of_nil.
Qed.

Definition all_works : recv_env := {|
  re_running := true; re_callback := true; re_sender := true; re_buffer := true;
  re_endpoint := true; re_list := true |}.

Definition peer_at (a : string) (secure : bool) : CAEndpoint_t := {|
  adapter := CA_ADAPTER_GATT_BTLE; flags := if secure then CA_SECURE else 0; port := 1;
  addr := chars a; ifindex := 0; remoteId := [] |}.

Definition peer_one : CAEndpoint_t := peer_at "AA:BB:CC:DD:EE:01" true.
Definition peer_two : CAEndpoint_t := peer_at "AA:BB:CC:DD:EE:02" false.

Definition message_one : list Z := seqZ 0 40.

(** Two messages with their packets mixed. *)
Definition mixed_trace : list (CAEndpoint_t * fragment) :=
  match fragments_of 20 peer_one message_one, fragments_of 20 peer_two (seqZ 100 20) with
  | [a1; a2; a3], [b1; b2] =>
      [(peer_one, a1); (peer_two, b1); (peer_one, a2); (peer_two, b2); (peer_one, a3)]
  | _, _ => []
  end.

Definition packet_test (x : CAEndpoint_t * fragment) : bool :=
  let '(ep, f) := x in
  bool_decide (length (addr ep) = BLE_ADDR_LENGTH) && bool_decide (0 ∉ addr ep)
  && (0 <=? fr_src f) && (fr_src f <? 128) && (0 <=? fr_dst f) && (fr_dst f <? 128)
  && (0 <=? fr_total f) && (fr_total f <? 2 ^ 32)
  && (Z.of_nat (length (fr_body f)) + 6 <? 2 ^ 32 - 1).

Lemma packet_test_ok tr : forallb packet_test tr = true ->
  Forall (fun x => packet_ok x.1 x.2) tr.
Proof.
  rewrite forallb_forall. intros Hall. apply Forall_forall. intros [ep f] Hx%list_elem_of_In.
  apply Hall in Hx. unfold packet_test in Hx. bool_to_prop. by split_and!.
Qed.

Lemma mixed_trace_ok : Forall (fun x => packet_ok x.1 x.2) mixed_trace.
Proof. apply packet_test_ok. vm_compute. reflexivity. Qed.

(** Both messages come out, the secure one to the decryption. *)
Example mixed_trace_run :
  snd <$> receive_all true all_works ADAPTER_SERVER ((fun x => packet x.1 x.2) <$> mixed_trace)
    fresh_adapter
  = Some [network_packet (endpoint_of true (addr peer_two, 1) false) (seqZ 100 20);
          decrypt_ssl CA_RESPONSE_DATA (endpoint_of true (addr peer_one, 1) true) message_one].
Proof. vm_compute. reflexivity. Qed.

Lemma ble_transfer_witness :
  let k := (addr peer_one, g_localBLESourcePort) in
  let queued := {| led_remoteEndpoint := Some peer_one; led_data := message_one ++ [0];
                   led_dataLen := 40 |} in
  exists frags,
    CALEServerSendDataThread (fun _ => CA_STATUS_OK) 20 (Some queued) = Some (bytes_of <$> frags, None) /\
    CALEClientSendDataThread (fun _ => CA_STATUS_OK) None 20 (Some queued)
      = Some (bytes_of <$> frags, None) /\
    ((filter (fun x => (addr x.1, fr_src x.2) = k) mixed_trace).*2 = frags ->
     exists st' evs, receive_all true all_works ADAPTER_SERVER
         ((fun x => packet x.1 x.2) <$> mixed_trace) fresh_adapter = Some (st', evs) /\
       filter (fun ev => event_key ev = k) evs
         = [event_of true CA_RESPONSE_DATA k {| pt_secure := true;
              pt_total := 40; pt_received := message_one |}]).
Proof.
  apply (ble_transfer true (fun _ => CA_STATUS_OK) 20 peer_one message_one all_works
    ADAPTER_SERVER fresh_adapter ∅ (addr peer_one) mixed_trace); try done.
  - apply fresh_adapter_reps.
  - by right.
  - apply mixed_trace_ok.
Defined.

Lemma CALEDataReceiverHandler_refines_witness :
  let f := first_fragment 20 peer_two (seqZ 100 20) in
  exists ok st', CALEDataReceiverHandler true all_works ADAPTER_CLIENT (Some (packet peer_two f))
        fresh_adapter
      = Some (st', snd (step true ok true CA_REQUEST_DATA (addr peer_two) f ∅)) /\
    state_reps true st' (fst (step true ok true CA_REQUEST_DATA (addr peer_two) f ∅)) /\
    (memory_ok all_works -> Z.of_nat (size (∅ : gmap (list Z * Z) partial)) < 2 ^ 58 -> ok = true).
Proof.
  refine (CALEDataReceiverHandler_refines true all_works ADAPTER_CLIENT fresh_adapter ∅ peer_two
    (first_fragment 20 peer_two (seqZ 100 20)) _ _ _ _); try done.
  - apply fresh_adapter_reps.
  - pose proof (packet_test_ok [(peer_two, first_fragment 20 peer_two (seqZ 100 20))]) as Hp.
    by apply Forall_inv in Hp.
  - by left.
Defined.

Lemma short_start_packet_out_of_bounds_witness :
  exists d, CACreateLEData true true (Some peer_one) [129; 1] 2 = Some (Some d) /\
    CALEDataReceiverHandler true all_works ADAPTER_SERVER (Some d) fresh_adapter = None.
Proof.
  apply (short_start_packet_out_of_bounds true all_works ADAPTER_SERVER peer_one); [done|by right].
Defined.
