(* ===== verification/CoapOption.v ===== *)
(** * CoapOption: the wire format of CoAP options

    Models [connectivity/lib/libcoap-4.1.1/option.c], [encode.c] and the bit
    vectors of [include/coap/bits.h]: the copy of libcoap the stack is built
    with.  A pointer into a message is the bytes from there on, or an offset
    into them.

    An option is written as one byte with two nibbles, for the distance of its
    number from the number before and for the length of its value, each
    followed by up to two more bytes when it does not fit a nibble, and the
    value.  [option_bytes] is that format as a specification. *)
From S2P Require Import Prelude.

(** ** encode.c *)

Fixpoint fls_loop (i : Z) (fuel : nat) : Z :=
  match fuel with
  | O => 0
  | S fuel => if i =? 0 then 0 else 1 + fls_loop (i >>> 1) fuel
  end.

(** Find last set, of an [unsigned int]. *)
Definition coap_fls (i : Z) : Z := fls_loop i 32.

Definition coap_decode_var_bytes (buf : list Z) (len : Z) : ub Z :=
  bs ← read_at buf 0 len;
  Some (foldl (fun n b => u32 (u32 (n <<< 8) + b)) 0 bs).

(** How many bytes of [val] are written: [n] of the first loop. *)
Fixpoint var_bytes_len (i : Z) (k : nat) : nat :=
  match k with
  | O => 0
  | S k => if i =? 0 then 0 else S (var_bytes_len (i >>> 8) k)
  end.

(** [while (i--)], from the last byte to the first. *)
Fixpoint put_bytes (buf : list Z) (val : Z) (i : nat) : ub (list Z) :=
  match i with
  | O => Some buf
  | S i => buf ← write_at buf (Z.of_nat i) [val &&& 0xff]; put_bytes buf (val >>> 8) i
  end.

Definition coap_encode_var_bytes (buf : list Z) (val : Z) : ub (Z * list Z) :=
  let n := var_bytes_len val 4 in
  buf ← put_bytes buf val n; Some (Z.of_nat n, buf).

(** ** bits.h

    The bit number is a [uint8_t]: a larger one is truncated at the call. *)

Definition bits_setb (vec : list Z) (bit : Z) : ub (Z * list Z) :=
  if Z.of_nat (length vec) <=? u8 bit >>> 3 then Some (-1, vec)
  else
    b ← byte_at vec (u8 bit >>> 3);
    vec ← write_at vec (u8 bit >>> 3) [b ||| (1 <<< (u8 bit &&& 0x07))];
    Some (1, vec).

Definition bits_clrb (vec : list Z) (bit : Z) : ub (Z * list Z) :=
  if Z.of_nat (length vec) <=? u8 bit >>> 3 then Some (-1, vec)
  else
    b ← byte_at vec (u8 bit >>> 3);
    vec ← write_at vec (u8 bit >>> 3) [Z.land b (u8 (Z.lnot (1 <<< (u8 bit &&& 0x07))))];
    Some (1, vec).

Definition bits_getb (vec : list Z) (bit : Z) : ub Z :=
  if Z.of_nat (length vec) <=? u8 bit >>> 3 then Some (-1)
  else
    b ← byte_at vec (u8 bit >>> 3);
    Some (if b &&& (1 <<< (u8 bit &&& 0x07)) =? 0 then 0 else 1).

Definition COAP_MAX_OPT : Z := 63.

(** [coap_option_filter_clear] of a [coap_opt_filter_t]. *)
Definition coap_option_filter_clear : list Z := replicate (Z.to_nat ((COAP_MAX_OPT >>> 3) + 1)) 0.
Definition coap_option_setb (f : list Z) (type : Z) : ub (Z * list Z) := bits_setb f type.
Definition coap_option_getb (f : list Z) (type : Z) : ub Z := bits_getb f type.

(** ** Reading an option *)

Definition COAP_PAYLOAD_START : Z := 0xff.

Record coap_option_t := { delta : Z; vlength : Z; value : Z }.

(** A parser may be undefined, or return 0 ([Some None]). *)
Definition parser_bind {A B} (m : ub (option A)) (k : A -> ub (option B)) : ub (option B) :=
  r ← m; match r with None => Some None | Some a => k a end.
Notation "x <-? m ; k" := (parser_bind m (fun x => k))
  (at level 20, m at level 100, k at level 200, right associativity).
Notation "' p <-? m ; k" := (parser_bind m (fun x => match x with p => k end))
  (at level 20, p pattern, m at level 100, k at level 200, right associativity).

(** [ADVANCE_OPT (opt, length, 1)]: the position and what is left. *)
Definition ADVANCE_OPT (s : Z * Z) : ub (option (Z * Z)) :=
  let '(pos, avail) := s in
  if avail <? 1 then Some None else Some (Some (pos + 1, avail - 1)).

(** The cases 13 and 14 of both switches. *)
Definition add_byte (opt : list Z) (w base : Z) (s : Z * Z) : ub (option (Z * (Z * Z))) :=
  s <-? ADVANCE_OPT s;
  b ← byte_at opt (fst s);
  Some (Some (wrap w (base + b), s)).

Definition parse_delta (opt : list Z) (nibble : Z) (s : Z * Z) : ub (option (Z * (Z * Z))) :=
  if nibble =? 15 then Some None
  else if nibble =? 14 then
    s <-? ADVANCE_OPT s;
    b ← byte_at opt (fst s);
    let d := u16 ((b <<< 8) + 269) in
    if d <? 269 then Some None else add_byte opt 16 d s
  else if nibble =? 13 then add_byte opt 16 13 s
  else Some (Some (nibble, s)).

Definition parse_length (opt : list Z) (nibble : Z) (s : Z * Z) : ub (option (Z * (Z * Z))) :=
  if nibble =? 15 then Some None
  else if nibble =? 14 then
    s <-? ADVANCE_OPT s;
    b ← byte_at opt (fst s);
    add_byte opt 64 (u64 ((b <<< 8) + 269)) s
  else if nibble =? 13 then add_byte opt 64 13 s
  else Some (Some (nibble, s)).

(** The size of the option and the option, [None] where the code returns 0.
    [value] is an offset from [opt]. *)
Definition coap_opt_parse (opt : list Z) (len : Z) : ub (option (Z * coap_option_t)) :=
  if len <? 1 then Some None
  else
    b ← byte_at opt 0;
    '(d, s) <-? parse_delta opt ((b &&& 0xf0) >>> 4) (0, len);
    '(l, s) <-? parse_length opt (b &&& 0x0f) s;
    '(pos, avail) <-? ADVANCE_OPT s;
    if avail <? l then Some None
    else Some (Some (pos + l, {| delta := d; vlength := l; value := pos |})).

(** The accessors of an option that is known to be well formed. *)
Definition coap_opt_delta (opt : list Z) : ub Z :=
  b ← byte_at opt 0;
  let n := (b &&& 0xf0) >>> 4 in
  if n =? 15 then Some 0
  else if n =? 14 then
    b1 ← byte_at opt 1; b2 ← byte_at opt 2; Some (u16 (u16 ((b1 <<< 8) + 269) + b2))
  else if n =? 13 then b1 ← byte_at opt 1; Some (u16 (n + b1))
  else Some n.

(** Where the length of the value goes on, past the extended delta. *)
Definition after_delta (b : Z) : Z :=
  if b &&& 0xf0 =? 0xe0 then 3 else if b &&& 0xf0 =? 0xd0 then 2 else 1.

Definition coap_opt_length (opt : list Z) : ub Z :=
  b ← byte_at opt 0;
  if b &&& 0xf0 =? 0xf0 then Some 0
  else
    let l := b &&& 0x0f in
    let at_ := after_delta b in
    if l =? 15 then Some 0
    else if l =? 14 then
      b1 ← byte_at opt at_; b2 ← byte_at opt (at_ + 1);
      Some (u16 (u16 ((b1 <<< 8) + 269) + b2))
    else if l =? 13 then b1 ← byte_at opt at_; Some (u16 (l + b1))
    else Some l.

(** The offset of the value; [None] is NULL. *)
Definition coap_opt_value (opt : list Z) : ub (option Z) :=
  b ← byte_at opt 0;
  if b &&& 0xf0 =? 0xf0 then Some None
  else if b &&& 0x0f =? 15 then Some None
  else Some (Some (after_delta b
                   + (if b &&& 0x0f =? 14 then 2 else if b &&& 0x0f =? 13 then 1 else 0))).

Definition coap_opt_size (opt : list Z) : ub Z :=
  r ← coap_opt_parse opt SIZE_MAX; Some (match r with None => 0 | Some (n, _) => n end).

(** ** Writing an option *)

(** The first half of [coap_opt_setheader]: [skip], or [None] where the code
    returns 0; the buffer in both cases. *)
Definition put_delta (opt : list Z) (maxlen d : Z) : ub (option Z * list Z) :=
  if d <? 13 then opt ← write_at opt 0 [u8 (d <<< 4)]; Some (Some 0, opt)
  else if d <? 270 then
    if maxlen <? 2 then Some (None, opt)
    else
      opt ← write_at opt 0 [0xd0]; opt ← write_at opt 1 [u8 (d - 13)]; Some (Some 1, opt)
  else if maxlen <? 3 then Some (None, opt)
  else
    opt ← write_at opt 0 [0xe0];
    opt ← write_at opt 1 [((d - 269) >>> 8) &&& 0xff];
    opt ← write_at opt 2 [(d - 269) &&& 0xff];
    Some (Some 2, opt).

Definition or_first (opt : list Z) (x : Z) : ub (list Z) :=
  b ← byte_at opt 0; write_at opt 0 [b ||| x].

(** The second half: [skip + 1], or 0. *)
Definition put_length (opt : list Z) (maxlen skip len : Z) : ub (Z * list Z) :=
  if len <? 13 then opt ← or_first opt (len &&& 0x0f); Some (skip + 1, opt)
  else if len <? 270 then
    if maxlen <? skip + 1 then Some (0, opt)
    else
      opt ← or_first opt 0x0d; opt ← write_at opt (skip + 1) [u8 (len - 13)];
      Some (skip + 2, opt)
  else if maxlen <? skip + 2 then Some (0, opt)
  else
    opt ← or_first opt 0x0e;
    opt ← write_at opt (skip + 1) [((len - 269) >>> 8) &&& 0xff];
    opt ← write_at opt (skip + 2) [(len - 269) &&& 0xff];
    Some (skip + 3, opt).

Definition coap_opt_setheader (opt : list Z) (maxlen d len : Z) : ub (Z * list Z) :=
  if maxlen =? 0 then Some (0, opt)
  else
    '(skip, opt) ← put_delta opt maxlen d;
    match skip with
    | None => Some (0, opt)
    | Some skip => put_length opt maxlen skip len
    end.

(** [val] is what [memcpy] copies, [length] bytes; the assertion that the
    header fits aborts when it fails. *)
Definition coap_opt_encode (opt : list Z) (maxlen d : Z) (val : option (list Z)) (len : Z)
    : ub (Z * list Z) :=
  '(l, opt) ← coap_opt_setheader opt maxlen d len;
  if l <=? maxlen then
    if l =? 0 then Some (0, opt)
    else if maxlen - l <? len then Some (0, opt)
    else
      opt ← match val with
            | Some v => v ← read_at v 0 len; write_at opt l v
            | None => Some opt
            end;
      Some (l + len, opt)
  else None.

(** ** Variable-length integers *)

(** The [k] low bytes of [v], most significant first. *)
Fixpoint be (k : nat) (v : Z) : list Z :=
  match k with O => [] | S k => be k (v >>> 8) ++ [v &&& 0xff] end.

Lemma length_be k v : length (be k v) = k.
Proof. revert v. induction k; intros v; [done|]. simpl. rewrite length_app, IHk. simpl. lia. Qed.

Lemma be_bytes k v : Forall is_byte (be k v).
Proof.
  revert v. induction k; intros v; simpl; [constructor|]. apply Forall_app. split; [done|].
  constructor; [|constructor]. rewrite (land_ones_mod _ 8) by done. apply Z.mod_pos_bound. lia.
Qed.

Lemma put_bytes_spec buf v k : (k <= length buf)%nat -> put_bytes buf v k = Some (be k v ++ drop k buf).
Proof.
  revert buf v. induction k; intros buf v Hk; [done|]. cbn [put_bytes].
  assert (exists x, buf = take k buf ++ x :: drop (S k) buf) as [x Hb].
  { destruct (lookup_Some_le buf k) as [x Hx]; [lia|]. exists x. by rewrite take_drop_middle. }
  rewrite Hb at 1. rewrite write_at_one by (rewrite length_take; lia). cbn [mbind option_bind].
  rewrite IHk by (rewrite length_app, length_take; simpl; lia).
  rewrite drop_app_length' by (rewrite length_take; lia). simpl. by rewrite <- app_assoc.
Qed.

Lemma decode_be k v : (k <= 4)%nat -> 0 <= v < 256 ^ Z.of_nat k ->
  foldl (fun n b => u32 (u32 (n <<< 8) + b)) 0 (be k v) = v.
Proof.
  revert v. induction k; intros v Hk Hv; [simpl in *; lia|].
  rewrite Nat2Z.inj_succ, Z.pow_succ_r in Hv by lia. simpl. rewrite foldl_app. simpl.
  assert (0 <= v >>> 8 < 256 ^ Z.of_nat k).
  { rewrite shiftr_div by lia. split; [apply Z.div_pos|apply Z.div_lt_upper_bound]; lia. }
  rewrite IHk by lia. rewrite shiftr_div, Z.shiftl_mul_pow2, (land_ones_mod _ 8) by done. change (2 ^ 8) with 256.
  assert (256 ^ Z.of_nat k <= 16777216) by (apply (Z.pow_le_mono_r 256 _ 3); lia).
  pose proof (Z.div_mod v 256 ltac:(lia)). pose proof (Z.mod_pos_bound v 256 ltac:(lia)).
  rewrite shiftr_div in * by lia. change (2 ^ 8) with 256 in *.
  rewrite (wrap_small _ (v / 256 * 256)) by lia. rewrite wrap_small by lia. lia.
Qed.

Lemma var_bytes_len_le v k : (var_bytes_len v k <= k)%nat.
Proof. revert v. induction k; intros v; simpl; [lia|]. case_match; [lia|]. specialize (IHk (v >>> 8)). lia. Qed.

Lemma var_bytes_len_fits v k : 0 <= v < 256 ^ Z.of_nat k -> v < 256 ^ Z.of_nat (var_bytes_len v k).
Proof.
  revert v. induction k; intros v Hv; [simpl in *; lia|]. simpl.
  destruct (Z.eqb_spec v 0); [subst; simpl; lia|].
  rewrite Nat2Z.inj_succ, Z.pow_succ_r in Hv |- * by lia.
  assert (v / 256 < 256 ^ Z.of_nat (var_bytes_len (v >>> 8) k)).
  { replace (v / 256) with (v >>> 8) by by rewrite shiftr_div. apply IHk. rewrite shiftr_div by lia.
    split; [apply Z.div_pos|apply Z.div_lt_upper_bound]; lia. }
  pose proof (Z.div_mod v 256 ltac:(lia)). pose proof (Z.mod_pos_bound v 256 ltac:(lia)). lia.
Qed.

(** The number of bytes is the least that holds the value. *)
Lemma var_bytes_len_least v k j : 0 <= v < 256 ^ Z.of_nat j -> (var_bytes_len v k <= j)%nat.
Proof.
  revert v j. induction k; intros v j Hv; simpl; [lia|]. destruct (Z.eqb_spec v 0); [lia|].
  destruct j; [simpl in Hv; lia|]. apply le_n_S, IHk.
  rewrite Nat2Z.inj_succ, Z.pow_succ_r in Hv by lia. rewrite shiftr_div by lia.
  split; [apply Z.div_pos|apply Z.div_lt_upper_bound]; lia.
Qed.

(** What the encoder leaves in a buffer that is long enough. *)
Lemma encode_var_spec buf v : (4 <= length buf)%nat ->
  coap_encode_var_bytes buf v
  = Some (Z.of_nat (var_bytes_len v 4), be (var_bytes_len v 4) v ++ drop (var_bytes_len v 4) buf).
Proof.
  intros Hb. unfold coap_encode_var_bytes. pose proof (var_bytes_len_le v 4).
  by rewrite put_bytes_spec by lia.
Qed.

Lemma decode_var_be k v post : (k <= 4)%nat -> 0 <= v < 256 ^ Z.of_nat k ->
  coap_decode_var_bytes (be k v ++ post) (Z.of_nat k) = Some v.
Proof.
  intros Hk Hv. unfold coap_decode_var_bytes. rewrite read_at_prefix by (by rewrite length_be).
  simpl. by rewrite decode_be.
Qed.

(** an unsigned integer is written in as few bytes as hold it and read back. *)
Theorem coap_var_bytes_roundtrip buf v : (4 <= length buf)%nat -> 0 <= v < 2 ^ 32 ->
  exists n buf', coap_encode_var_bytes buf v = Some (n, buf') /\
    coap_decode_var_bytes buf' n = Some v /\ 0 <= n <= 4 /\
    (forall j, v < 256 ^ Z.of_nat j -> n <= Z.of_nat j).
Proof.
  intros Hb Hv. rewrite encode_var_spec by done. do 2 eexists. split; [reflexivity|].
  pose proof (var_bytes_len_le v 4). split; [|split; [lia|]].
  - apply decode_var_be; [lia|]. split; [lia|]. apply var_bytes_len_fits. simpl. lia.
  - intros j Hj. apply inj_le, var_bytes_len_least. lia.
Qed.

Lemma coap_var_bytes_roundtrip_witness :
  exists n buf', coap_encode_var_bytes [0; 0; 0; 0] 70000 = Some (n, buf') /\
    coap_decode_var_bytes buf' n = Some 70000 /\ 0 <= n <= 4 /\
    (forall j, 70000 < 256 ^ Z.of_nat j -> n <= Z.of_nat j).
Proof. apply (coap_var_bytes_roundtrip [0; 0; 0; 0] 70000); [simpl; lia|lia]. Defined.

(** ** The format *)

Definition ext_nibble (n : Z) : Z := if n <? 13 then n else if n <? 269 then 13 else 14.
Definition ext_bytes (n : Z) : list Z :=
  if n <? 13 then [] else if n <? 269 then [n - 13] else [(n - 269) / 256; (n - 269) mod 256].
Definition option_header (d l : Z) : list Z :=
  (ext_nibble d * 16 + ext_nibble l) :: ext_bytes d ++ ext_bytes l.
Definition option_bytes (d : Z) (v : list Z) : list Z :=
  option_header d (Z.of_nat (length v)) ++ v.

(** Distances are 16 bits; the longest value two more bytes can announce. *)
Definition MAX_DELTA : Z := 65535.
Definition MAX_VLENGTH : Z := 65535 + 269.

(** The writer tests for 270 where the format has 269. *)
Definition delta_ok (d : Z) : Prop := 0 <= d <= MAX_DELTA /\ d <> 269.
Definition vlength_ok (l : Z) : Prop := 0 <= l <= MAX_VLENGTH /\ l <> 269.

Lemma ext_nibble_range n : 0 <= n -> 0 <= ext_nibble n <= 14.
Proof. intros. unfold ext_nibble. repeat case_match; lia. Qed.

Lemma ext_length n : (length (ext_bytes n) <= 2)%nat.
Proof. unfold ext_bytes. repeat case_match; simpl; lia. Qed.

(** Reading and writing a cell of a buffer given as a list of cells. *)
Lemma write_at_cons {A} (a : A) r i x : 0 < i ->
  write_at (a :: r) i [x] = r' ← write_at r (i - 1) [x]; Some (a :: r').
Proof.
  intros Hi. unfold write_at. simpl length.
  destruct (decide (0 <= i - 1 /\ i - 1 + Z.of_nat 1 <= Z.of_nat (length r))).
  - rewrite decide_True by lia. cbn [mbind option_bind].
    replace (Z.to_nat i) with (S (Z.to_nat (i - 1))) by lia. done.
  - by rewrite decide_False by lia.
Qed.

Lemma byte_at_cons {A} (a : A) r i : 0 < i -> byte_at (a :: r) i = byte_at r (i - 1).
Proof.
  intros Hi. unfold byte_at. rewrite !decide_True by lia.
  by replace (Z.to_nat i) with (S (Z.to_nat (i - 1))) by lia.
Qed.

Lemma land_0xff x : x &&& 0xff = x mod 256.
Proof. by rewrite (land_ones_mod _ 8). Qed.

Ltac cells_rw := repeat first
  [rewrite write_at_0 | rewrite byte_at_0 | rewrite write_at_cons by lia | rewrite byte_at_cons by lia
  |progress cbn [mbind option_bind]
  |match goal with |- context [write_at _ (?a - ?b) _] => progress ring_simplify (a - b) end
  |match goal with |- context [byte_at _ (?a - ?b)] => progress ring_simplify (a - b) end].

(** ** Writing *)

Lemma put_delta_spec opt maxlen d : delta_ok d ->
  1 + Z.of_nat (length (ext_bytes d)) <= maxlen -> maxlen <= Z.of_nat (length opt) ->
  put_delta opt maxlen d
  = Some (Some (Z.of_nat (length (ext_bytes d))),
          (ext_nibble d * 16) :: ext_bytes d ++ drop (S (length (ext_bytes d))) opt).
Proof.
  intros [Hd Hne] Hm Ho. unfold put_delta, ext_nibble, ext_bytes, MAX_DELTA in *.
  destruct (Z.ltb_spec d 13); [|destruct (Z.ltb_spec d 269), (Z.ltb_spec d 270); try lia];
    simpl length in *.
  - destruct opt as [|a opt]; [simpl in *; lia|]. cells_rw. simpl.
    rewrite Z.shiftl_mul_pow2, wrap_small by lia. done.
  - destruct opt as [|a [|a1 opt]]; simpl in Ho; try lia. destruct (Z.ltb_spec maxlen 2); [lia|].
    cells_rw. simpl. by rewrite wrap_small by lia.
  - destruct opt as [|a [|a1 [|a2 opt]]]; simpl in Ho; try lia. destruct (Z.ltb_spec maxlen 3); [lia|].
    cells_rw. simpl. rewrite !land_0xff, shiftr_div, (Z.mod_small (_ / _)) by
      (try split; try apply Z.div_pos; try apply Z.div_lt_upper_bound; lia). done.
Qed.

Lemma put_length_spec h skip e r maxlen l : vlength_ok l ->
  h mod 16 = 0 -> skip = Z.of_nat (length e) ->
  1 + skip + Z.of_nat (length (ext_bytes l)) <= maxlen -> maxlen <= 1 + skip + Z.of_nat (length r) ->
  put_length (h :: e ++ r) maxlen skip l
  = Some (1 + skip + Z.of_nat (length (ext_bytes l)),
          (h + ext_nibble l) :: e ++ ext_bytes l ++ drop (length (ext_bytes l)) r).
Proof.
  intros [Hl Hne] Hh -> Hm Hr. unfold put_length, or_first, MAX_VLENGTH in *. cells_rw.
  assert (forall y, 0 <= y < 16 -> h ||| y = h + y) as Hor by (intros; by apply (lor_add _ 4)).
  assert (forall y r x, write_at (e ++ y :: r) (Z.of_nat (length e)) [x] = Some (e ++ x :: r)) as Hw
    by (intros; by apply write_at_one).
  assert (forall a y r x, write_at (e ++ a :: y :: r) (Z.of_nat (length e) + 1) [x]
            = Some (e ++ a :: x :: r)) as Hw2.
  { intros a y r' x. pose proof (write_at_one (e ++ [a]) r' y x (Z.of_nat (length e) + 1)) as E.
    rewrite length_app, <- !app_assoc in E. apply E. simpl. lia. }
  unfold ext_nibble, ext_bytes in *. destruct (Z.ltb_spec l 13); [|destruct (Z.ltb_spec l 269), (Z.ltb_spec l 270); try lia];
    cbn [length] in *.
  - rewrite (land_ones_mod _ 4), Z.mod_small, Hor by (done || lia). cells_rw.
    apply f_equal, f_equal2; [lia|done].
  - destruct (Z.ltb_spec maxlen (Z.of_nat (length e) + 1)); [lia|].
    rewrite Hor by lia. destruct r as [|y r]; [simpl in *; lia|]. cells_rw. rewrite Hw.
    cells_rw. rewrite wrap_small by lia. apply f_equal, f_equal2; [lia|done].
  - destruct (Z.ltb_spec maxlen (Z.of_nat (length e) + 2)); [lia|].
    rewrite Hor by lia. destruct r as [|y [|y' r]]; simpl in Hr; try lia.
    cells_rw. rewrite Hw. cells_rw. rewrite Hw2. cells_rw.
    rewrite !land_0xff, shiftr_div, (Z.mod_small (_ / _)) by
      (try split; try apply Z.div_pos; try apply Z.div_lt_upper_bound; lia).
    apply f_equal, f_equal2; [lia|done].
Qed.

Lemma length_option_header d l :
  length (option_header d l) = S (length (ext_bytes d) + length (ext_bytes l)).
Proof. unfold option_header. simpl. by rewrite length_app. Qed.

Lemma setheader_spec opt maxlen d l : delta_ok d -> vlength_ok l ->
  Z.of_nat (length (option_header d l)) <= maxlen -> maxlen <= Z.of_nat (length opt) ->
  coap_opt_setheader opt maxlen d l
  = Some (Z.of_nat (length (option_header d l)),
          option_header d l ++ drop (length (option_header d l)) opt).
Proof.
  intros Hd Hl Hm Ho. rewrite length_option_header in *. unfold coap_opt_setheader.
  destruct (Z.eqb_spec maxlen 0); [lia|]. rewrite put_delta_spec by (done || lia). cbn [mbind option_bind].
  rewrite put_length_spec; [|done| |done|lia|rewrite length_drop; lia].
  2:{ apply Z.mod_mul. lia. }
  rewrite drop_drop. unfold option_header. simpl. rewrite <- app_assoc.
  apply f_equal, f_equal2; [lia|]. by rewrite Nat.add_comm.
Qed.

(** With room for all of it the option is written, in the given format, and
    nothing behind it is touched. *)
Lemma encode_room opt maxlen d v : delta_ok d -> vlength_ok (Z.of_nat (length v)) ->
  Z.of_nat (length (option_bytes d v)) <= maxlen -> maxlen <= Z.of_nat (length opt) ->
  coap_opt_encode opt maxlen d (Some v) (Z.of_nat (length v))
  = Some (Z.of_nat (length (option_bytes d v)),
          option_bytes d v ++ drop (length (option_bytes d v)) opt).
Proof.
  intros Hd Hv Hm Ho. unfold option_bytes in *. rewrite length_app in *. unfold coap_opt_encode.
  rewrite setheader_spec by (done || lia). cbn [mbind option_bind].
  set (h := option_header d (Z.of_nat (length v))) in *.
  assert (0 < length h)%nat by (unfold h; rewrite length_option_header; lia).
  destruct (Z.leb_spec (Z.of_nat (length h)) maxlen); [|lia].
  destruct (Z.eqb_spec (Z.of_nat (length h)) 0); [lia|].
  destruct (Z.ltb_spec (maxlen - Z.of_nat (length h)) (Z.of_nat (length v))); [lia|].
  rewrite read_at_all by done. cbn [mbind option_bind].
  rewrite write_at_after by (rewrite ?length_drop; lia). cbn [mbind option_bind].
  rewrite drop_drop, <- app_assoc. apply f_equal, f_equal2; [lia|done].
Qed.

(** ** Reading back *)

#[local] Arguments ADVANCE_OPT : simpl never.
#[local] Arguments byte_at : simpl never.
#[local] Arguments wrap : simpl never.

Lemma byte_at_middle {A} (pre : list A) x post i : i = Z.of_nat (length pre) ->
  byte_at (pre ++ x :: post) i = Some x.
Proof. intros ->. by rewrite (byte_at_app _ _ _ 0) by lia. Qed.

Lemma byte_at_middle2 {A} (pre : list A) x y post i : i = Z.of_nat (length pre) + 1 ->
  byte_at (pre ++ x :: y :: post) i = Some y.
Proof. intros ->. by rewrite (byte_at_app _ _ _ 1) by lia. Qed.

Lemma advance_ok pos avail : 1 <= avail -> ADVANCE_OPT (pos, avail) = Some (Some (pos + 1, avail - 1)).
Proof. intros. unfold ADVANCE_OPT. destruct (Z.ltb_spec avail 1); [lia|done]. Qed.

(** What both switches do with [base] for a nibble of 14. *)
Lemma ext_value n : 269 <= n -> ((n - 269) / 256 <<< 8) + 269 + (n - 269) mod 256 = n.
Proof.
  intros. rewrite Z.shiftl_mul_pow2 by lia. pose proof (Z.div_mod (n - 269) 256 ltac:(lia)). lia.
Qed.

Lemma ext_high n m : 269 <= n <= m -> m <= 65535 + 269 -> 0 <= (n - 269) / 256 <<< 8 <= n - 269.
Proof.
  intros. rewrite Z.shiftl_mul_pow2 by lia. pose proof (Z.div_mod (n - 269) 256 ltac:(lia)).
  pose proof (Z.mod_pos_bound (n - 269) 256 ltac:(lia)). lia.
Qed.

Lemma parse_delta_spec pre d post pos avail : 0 <= d <= MAX_DELTA ->
  pos + 1 = Z.of_nat (length pre) -> Z.of_nat (length (ext_bytes d)) <= avail ->
  parse_delta (pre ++ ext_bytes d ++ post) (ext_nibble d) (pos, avail)
  = Some (Some (d, (pos + Z.of_nat (length (ext_bytes d)), avail - Z.of_nat (length (ext_bytes d))))).
Proof.
  intros Hd Hp. unfold parse_delta, add_byte, ext_nibble, ext_bytes, MAX_DELTA in *.
  destruct (Z.ltb_spec d 13); [|destruct (Z.ltb_spec d 269)]; cbn [length app]; intros Ha.
  - destruct (Z.eqb_spec d 15), (Z.eqb_spec d 14), (Z.eqb_spec d 13); try lia.
    apply f_equal, f_equal, f_equal2; [lia|apply f_equal2; lia].
  - simpl. rewrite advance_ok by lia. cbn [parser_bind mbind option_bind fst].
    rewrite byte_at_middle by lia. cbn [mbind option_bind]. rewrite wrap_small by lia.
    apply f_equal, f_equal, f_equal2; [lia|apply f_equal2; lia].
  - pose proof (ext_high d 65535). pose proof (ext_value d).
    simpl. rewrite advance_ok by lia. cbn [parser_bind mbind option_bind fst].
    rewrite byte_at_middle by lia. cbn [mbind option_bind].
    rewrite (wrap_small 16) by lia. destruct (Z.ltb_spec (((d - 269) / 256 <<< 8) + 269) 269); [lia|].
    rewrite advance_ok by lia. cbn [parser_bind mbind option_bind fst].
    rewrite byte_at_middle2 by lia. cbn [mbind option_bind].
    rewrite wrap_small by lia. apply f_equal, f_equal, f_equal2; [lia|apply f_equal2; lia].
Qed.

Lemma parse_length_spec pre l post pos avail : 0 <= l <= MAX_VLENGTH ->
  pos + 1 = Z.of_nat (length pre) -> Z.of_nat (length (ext_bytes l)) <= avail ->
  parse_length (pre ++ ext_bytes l ++ post) (ext_nibble l) (pos, avail)
  = Some (Some (l, (pos + Z.of_nat (length (ext_bytes l)), avail - Z.of_nat (length (ext_bytes l))))).
Proof.
  intros Hd Hp. unfold parse_length, add_byte, ext_nibble, ext_bytes, MAX_VLENGTH in *.
  destruct (Z.ltb_spec l 13); [|destruct (Z.ltb_spec l 269)]; cbn [length app]; intros Ha.
  - destruct (Z.eqb_spec l 15), (Z.eqb_spec l 14), (Z.eqb_spec l 13); try lia.
    apply f_equal, f_equal, f_equal2; [lia|apply f_equal2; lia].
  - simpl. rewrite advance_ok by lia. cbn [parser_bind mbind option_bind fst].
    rewrite byte_at_middle by lia. cbn [mbind option_bind]. rewrite wrap_small by lia.
    apply f_equal, f_equal, f_equal2; [lia|apply f_equal2; lia].
  - pose proof (ext_high l MAX_VLENGTH). unfold MAX_VLENGTH in *. pose proof (ext_value l).
    simpl. rewrite advance_ok by lia. cbn [parser_bind mbind option_bind fst].
    rewrite byte_at_middle by lia. cbn [mbind option_bind].
    rewrite (wrap_small 64) by lia.
    rewrite advance_ok by lia. cbn [parser_bind mbind option_bind fst].
    rewrite byte_at_middle2 by lia. cbn [mbind option_bind].
    rewrite wrap_small by lia. apply f_equal, f_equal, f_equal2; [lia|apply f_equal2; lia].
Qed.

(** The two nibbles of the first byte. *)
Lemma high_nibble a b : 0 <= a < 16 -> 0 <= b < 16 -> ((a * 16 + b) &&& 0xf0) >>> 4 = a.
Proof.
  intros. rewrite Z.shiftr_land, shiftr_div by lia. change (0xf0 >>> 4) with (Z.ones 4).
  rewrite Z.land_ones by lia. rewrite Z.div_add_l, (Z.div_small b), Z.add_0_r by lia.
  apply Z.mod_small. lia.
Qed.

Lemma low_nibble a b : 0 <= b < 16 -> (a * 16 + b) &&& 0x0f = b.
Proof.
  intros. rewrite (land_ones_mod _ 4) by done. change (2 ^ 4) with 16.
  rewrite Z.add_comm, Z.mod_add by lia. by apply Z.mod_small.
Qed.

Definition parsed (d : Z) (v : list Z) : coap_option_t := {|
  delta := d; vlength := Z.of_nat (length v);
  value := Z.of_nat (length (option_header d (Z.of_nat (length v)))) |}.

Lemma parse_bytes d v rest len : 0 <= d <= MAX_DELTA -> Z.of_nat (length v) <= MAX_VLENGTH ->
  Z.of_nat (length (option_bytes d v)) <= len ->
  coap_opt_parse (option_bytes d v ++ rest) len
  = Some (Some (Z.of_nat (length (option_bytes d v)), parsed d v)).
Proof.
  intros Hd Hv. unfold option_bytes, parsed. rewrite length_app. set (l := Z.of_nat (length v)) in *.
  pose proof (ext_nibble_range d ltac:(lia)). pose proof (ext_nibble_range l ltac:(lia)).
  rewrite length_option_header. intros Hlen. unfold coap_opt_parse.
  destruct (Z.ltb_spec len 1); [lia|]. unfold option_header. cbn [app].
  rewrite byte_at_0. cbn [mbind option_bind]. rewrite high_nibble, low_nibble by lia.
  rewrite <- !app_assoc.
  pose proof (parse_delta_spec [ext_nibble d * 16 + ext_nibble l] d (ext_bytes l ++ v ++ rest) 0 len)
    as E. cbn [app] in E. rewrite E by (simpl; lia). cbn [parser_bind mbind option_bind].
  pose proof (parse_length_spec ((ext_nibble d * 16 + ext_nibble l) :: ext_bytes d) l (v ++ rest))
    as E2. cbn [app] in E2. rewrite <- app_assoc in E2 || idtac.
  rewrite E2 by (cbn [length]; lia). cbn [parser_bind mbind option_bind].
  rewrite advance_ok by lia. cbn [parser_bind mbind option_bind].
  match goal with |- context [?a <? l] => destruct (Z.ltb_spec a l); [lia|] end.
  apply f_equal, f_equal, f_equal2; [lia|]. f_equal. lia.
Qed.

(** an option written with enough room is read back: the same distance from
    the option before, the same length, and the value at the offset the reader
    reports; the size both report is the same. *)
Theorem coap_option_roundtrip opt maxlen d v : delta_ok d -> vlength_ok (Z.of_nat (length v)) ->
  Z.of_nat (length (option_bytes d v)) <= maxlen -> maxlen <= Z.of_nat (length opt) ->
  exists size opt' o, coap_opt_encode opt maxlen d (Some v) (Z.of_nat (length v)) = Some (size, opt') /\
    coap_opt_parse opt' size = Some (Some (size, o)) /\
    delta o = d /\ vlength o = Z.of_nat (length v) /\ read_at opt' (value o) (vlength o) = Some v /\
    length opt' = length opt /\ drop (Z.to_nat size) opt' = drop (Z.to_nat size) opt.
Proof.
  intros Hd Hv Hm Ho. rewrite encode_room by done. do 3 eexists. split; [reflexivity|].
  destruct Hd as [Hd _], Hv as [Hv _]. rewrite parse_bytes by lia. split; [reflexivity|].
  cbn [parsed delta vlength value]. do 2 (split; [done|]). unfold option_bytes in *. split.
  - rewrite <- app_assoc. by apply read_at_app.
  - rewrite Nat2Z.id, drop_app_length. split; [|done]. rewrite (length_app _ (drop _ _)), length_drop. lia.
Qed.

Lemma coap_option_roundtrip_witness :
  exists size opt' o,
    coap_opt_encode (replicate 20 0) 20 300 (Some (replicate 14 7)) 14 = Some (size, opt') /\
    coap_opt_parse opt' size = Some (Some (size, o)) /\
    delta o = 300 /\ vlength o = 14 /\ read_at opt' (value o) (vlength o) = Some (replicate 14 7) /\
    length opt' = 20%nat /\ drop (Z.to_nat size) opt' = drop (Z.to_nat size) (replicate 20 0).
Proof.
  apply (coap_option_roundtrip (replicate 20 0) 20 300 (replicate 14 7));
    [split; [unfold MAX_DELTA; lia|lia]|split; [unfold MAX_VLENGTH; simpl; lia|simpl; lia]
    |vm_compute; discriminate|vm_compute; discriminate].
Defined.

(** ** Where the writer differs from the format *)

(** a distance or a length of 269 is written exactly as 13 is, in every buffer:
    the test is for 270 where two more bytes begin at 269, and 269 - 13 wraps
    around in a byte. *)
Theorem coap_opt_setheader_269 opt maxlen d l :
  coap_opt_setheader opt maxlen 269 l = coap_opt_setheader opt maxlen 13 l /\
  coap_opt_setheader opt maxlen d 269 = coap_opt_setheader opt maxlen d 13.
Proof. split; reflexivity. Qed.

(** the room for the second length byte is tested one too low: a value of 13
    to 269 bytes at the last byte of a buffer makes the writer store outside
    the buffer. *)
Theorem coap_opt_setheader_off_by_one d l b : 0 <= d < 13 -> 13 <= l < 270 ->
  coap_opt_setheader [b] 1 d l = None.
Proof.
  intros Hd Hl. unfold coap_opt_setheader, put_delta, put_length, or_first. change (1 =? 0) with false. cbv iota.
  destruct (Z.ltb_spec d 13); [|lia]. cells_rw. destruct (Z.ltb_spec l 13); [lia|].
  destruct (Z.ltb_spec l 270); [|lia]. change (1 <? 0 + 1) with false. cbv iota. cells_rw. done.
Qed.

(** ** Memory safety of the reader *)

Definition in_option (len : Z) (s : Z * Z) : Prop := 0 <= fst s /\ 0 <= snd s /\ fst s + snd s = len.

Lemma byte_at_some (b : list Z) i : Forall is_byte b -> 0 <= i < Z.of_nat (length b) ->
  exists x, byte_at b i = Some x /\ is_byte x.
Proof.
  intros Hb Hi. destruct (lookup_Some_le b (Z.to_nat i)) as [x Hx]; [lia|]. exists x.
  unfold byte_at. rewrite decide_True by lia. split; [done|]. by apply (Forall_lookup_1 _ _ _ _ Hb Hx).
Qed.

Section Safe.
Context (opt : list Z) (len : Z).
Hypothesis bytes : Forall is_byte opt.
Hypothesis room : len < Z.of_nat (length opt).

(** A part of the reader that stays inside the option and yields a number
    below [m]. *)
Definition good (m : Z) (s : Z * Z) (r : ub (option (Z * (Z * Z)))) : Prop :=
  r = Some None \/ exists d s', r = Some (Some (d, s')) /\ in_option len s' /\ fst s <= fst s' /\ 0 <= d < m.

Lemma good_advance m s k : in_option len s ->
  (forall s', in_option len s' -> fst s <= fst s' -> good m s (k s')) ->
  good m s (s' <-? ADVANCE_OPT s; k s').
Proof.
  intros (H1 & H2 & H3) Hk. destruct s as [pos avail]. simpl in *. unfold ADVANCE_OPT.
  destruct (Z.ltb_spec avail 1); [by left|]. apply Hk; unfold in_option; simpl; lia.
Qed.

Lemma good_byte m s s' (k : Z -> ub (option (Z * (Z * Z)))) : in_option len s' ->
  (forall b, is_byte b -> good m s (k b)) -> good m s (b ← byte_at opt (fst s'); k b).
Proof.
  intros (H1 & H2 & H3) Hk. destruct (byte_at_some opt (fst s') bytes) as (b & -> & Hb); [lia|].
  by apply Hk.
Qed.

Lemma good_some m s d s' : in_option len s' -> fst s <= fst s' -> 0 <= d < m ->
  good m s (Some (Some (d, s'))).
Proof. intros. right. by exists d, s'. Qed.

Lemma good_le m s s1 r : fst s <= fst s1 -> good m s1 r -> good m s r.
Proof. intros Hle [->|(d & s' & -> & ? & ? & ?)]; [by left|]. right. exists d, s'. split; [done|]. split; [done|]. lia. Qed.

Lemma add_byte_good w base s : 0 <= w -> in_option len s -> good (2 ^ w) s (add_byte opt w base s).
Proof.
  intros Hw Hs. unfold add_byte. apply good_advance; [done|]. intros s' Hs' Hle.
  apply good_byte; [done|]. intros b _. apply good_some; [done|done|]. by apply wrap_range.
Qed.

Lemma parse_delta_good n s : 0 <= n < 16 -> in_option len s -> good (2 ^ 16) s (parse_delta opt n s).
Proof.
  intros Hn Hs. unfold parse_delta. destruct (n =? 15); [by left|]. destruct (n =? 14).
  - apply good_advance; [done|]. intros s' Hs' Hle. apply good_byte; [done|]. intros b Hb. cbv zeta.
    case_match; [by left|]. apply good_le with s'; [done|]. by apply add_byte_good.
  - destruct (n =? 13); [by apply add_byte_good|]. apply good_some; [done|done|lia].
Qed.

Lemma parse_length_good n s : 0 <= n < 16 -> in_option len s -> good (2 ^ 64) s (parse_length opt n s).
Proof.
  intros Hn Hs. unfold parse_length. destruct (n =? 15); [by left|]. destruct (n =? 14).
  - apply good_advance; [done|]. intros s' Hs' Hle. apply good_byte; [done|]. intros b Hb.
    apply good_le with s'; [done|]. by apply add_byte_good.
  - destruct (n =? 13); [by apply add_byte_good|]. apply good_some; [done|done|lia].
Qed.
End Safe.

Lemma nibble_range b : is_byte b -> 0 <= (b &&& 0xf0) >>> 4 < 16 /\ 0 <= b &&& 0x0f < 16.
Proof.
  intros Hb. rewrite Z.shiftr_land, !(land_ones_mod _ 4) by done. change (2 ^ 4) with 16.
  split; apply Z.mod_pos_bound; lia.
Qed.

(** The reader is defined when one more byte than it is told of may be read,
    and what it reports lies inside what it was told of. *)
Lemma parse_safe opt len : Forall is_byte opt -> len < Z.of_nat (length opt) ->
  coap_opt_parse opt len = Some None \/
  exists n o, coap_opt_parse opt len = Some (Some (n, o)) /\
    0 < value o /\ 0 <= vlength o /\ value o + vlength o = n /\ n <= len /\ 0 <= delta o < 2 ^ 16.
Proof.
  intros Hb Hl. unfold coap_opt_parse. destruct (Z.ltb_spec len 1); [by left|].
  destruct (byte_at_some opt 0 Hb) as (b & -> & Hbb); [lia|]. cbn [mbind option_bind].
  destruct (nibble_range b Hbb) as [Hn1 Hn2].
  destruct (parse_delta_good opt len Hb Hl ((b &&& 0xf0) >>> 4) (0, len)) as
    [->|(d & s & -> & Hs & _ & Hd)]; [done|unfold in_option; simpl; lia|by left|].
  cbn [parser_bind mbind option_bind].
  destruct (parse_length_good opt len Hb Hl (b &&& 0x0f) s) as
    [->|(l & [pos avail] & -> & (Hs1 & Hs2 & Hs3) & _ & Hl2)]; [done|done|by left|].
  cbn [parser_bind mbind option_bind]. simpl in Hs1, Hs2, Hs3. unfold ADVANCE_OPT.
  destruct (Z.ltb_spec avail 1); [by left|]. cbn [parser_bind mbind option_bind].
  destruct (Z.ltb_spec (avail - 1) l); [by left|]. right. do 2 eexists. split; [reflexivity|].
  simpl. lia.
Qed.

(** C24: the reader of options stays inside a message that is followed by one more
    byte, and outside it when there is none: an option that ends where an
    extended delta should begin makes it read one byte past the end. *)
Theorem coap_opt_parse_bounds opt len : Forall is_byte opt -> len < Z.of_nat (length opt) ->
  (exists r, coap_opt_parse opt len = Some r /\
     forall n o, r = Some (n, o) -> 0 < n <= len /\ value o + vlength o = n /\ 0 < value o) /\
  coap_opt_parse [0xd0] 1 = None.
Proof.
  intros Hb Hl. split; [|done]. destruct (parse_safe opt len Hb Hl) as [->|(n & o & -> & H)].
  - by eexists.
  - eexists. split; [done|]. intros n' o' [= <- <-]. lia.
Qed.

Lemma coap_opt_parse_bounds_witness :
  (exists r, coap_opt_parse [0x41; 7; 0] 2 = Some r /\
     forall n o, r = Some (n, o) -> 0 < n <= 2 /\ value o + vlength o = n /\ 0 < value o) /\
  coap_opt_parse [0xd0] 1 = None.
Proof.
  apply (coap_opt_parse_bounds [0x41; 7; 0] 2); [|simpl; lia].
  repeat constructor; unfold is_byte; lia.
Defined.

(** ** The accessors *)

Lemma high_bits a b : 0 <= a < 16 -> 0 <= b < 16 -> (a * 16 + b) &&& 0xf0 = a * 16.
Proof.
  intros Ha Hb. pose proof (high_nibble a b Ha Hb) as E. rewrite shiftr_div in E by lia.
  change (2 ^ 4) with 16 in E.
  assert (((a * 16 + b) &&& 0xf0) mod 16 = 0) as Em.
  { rewrite <- (land_ones_mod _ 4 0xf) by done. by rewrite <- Z.land_assoc, Z.land_0_r. }
  pose proof (Z.div_mod ((a * 16 + b) &&& 0xf0) 16 ltac:(lia)). lia.
Qed.

Lemma after_delta_spec d b : 0 <= d -> 0 <= b < 16 ->
  after_delta (ext_nibble d * 16 + b) = 1 + Z.of_nat (length (ext_bytes d)).
Proof.
  intros Hd Hb. pose proof (ext_nibble_range d Hd). unfold after_delta. rewrite high_bits by lia.
  unfold ext_nibble, ext_bytes in *.
  destruct (Z.ltb_spec d 13); [|destruct (Z.ltb_spec d 269)]; try done.
  destruct (Z.eqb_spec (d * 16) 0xe0), (Z.eqb_spec (d * 16) 0xd0); simpl; lia.
Qed.

Lemma value_spec d v rest : 0 <= d ->
  coap_opt_value (option_bytes d v ++ rest)
  = Some (Some (Z.of_nat (length (option_header d (Z.of_nat (length v)))))).
Proof.
  intros Hd. pose proof (ext_nibble_range d Hd).
  pose proof (ext_nibble_range (Z.of_nat (length v)) ltac:(lia)).
  unfold coap_opt_value, option_bytes. rewrite length_option_header. unfold option_header. cbn [app].
  rewrite byte_at_0. cbn [mbind option_bind]. rewrite high_bits, low_nibble, after_delta_spec by lia.
  destruct (Z.eqb_spec (ext_nibble d * 16) 0xf0); [lia|].
  destruct (Z.eqb_spec (ext_nibble (Z.of_nat (length v))) 15); [lia|].
  do 2 f_equal. set (l := Z.of_nat (length v)) in *. generalize (length (ext_bytes d)) as e. intros e.
  unfold ext_nibble, ext_bytes.
  destruct (Z.ltb_spec l 13); [|destruct (Z.ltb_spec l 269)]; cbn [length Z.eqb Pos.eqb]; [|lia|lia].
  destruct (Z.eqb_spec l 14), (Z.eqb_spec l 13); lia.
Qed.

Lemma length_spec d v rest : 0 <= d -> Z.of_nat (length v) <= 65535 ->
  coap_opt_length (option_bytes d v ++ rest) = Some (Z.of_nat (length v)).
Proof.
  intros Hd Hv. pose proof (ext_nibble_range d Hd).
  pose proof (ext_nibble_range (Z.of_nat (length v)) ltac:(lia)).
  unfold coap_opt_length, option_bytes, option_header. set (l := Z.of_nat (length v)) in *. cbn [app].
  rewrite byte_at_0. cbn [mbind option_bind]. rewrite high_bits, low_nibble, after_delta_spec by lia.
  destruct (Z.eqb_spec (ext_nibble d * 16) 0xf0); [lia|]. rewrite <- !app_assoc.
  generalize dependent (ext_bytes d). intros e. unfold ext_nibble, ext_bytes in *.
  destruct (Z.ltb_spec l 13); [|destruct (Z.ltb_spec l 269)].
  - destruct (Z.eqb_spec l 15), (Z.eqb_spec l 14), (Z.eqb_spec l 13); try lia. done.
  - cbn [Z.eqb Pos.eqb]. change (13 =? 15) with false. change (13 =? 14) with false. change (13 =? 13) with true. cbv iota.
    cbn [app]. rewrite (app_comm_cons e), byte_at_middle by (simpl; lia).
    cbn [mbind option_bind]. rewrite wrap_small by lia. f_equal. lia.
  - change (14 =? 15) with false. change (14 =? 14) with true. cbv iota.
    pose proof (ext_high l 65535). pose proof (ext_value l).
    cbn [app]. rewrite (app_comm_cons e), (byte_at_middle _ _ _ (1 + Z.of_nat (length e))) by (simpl; lia).
    cbn [mbind option_bind]. rewrite byte_at_middle2 by (simpl; lia). cbn [mbind option_bind].
    rewrite (wrap_small 16 (_ + 269)) by lia. rewrite wrap_small by lia. f_equal. lia.
Qed.

Lemma drop_header d v rest :
  drop (Z.to_nat (Z.of_nat (length (option_header d (Z.of_nat (length v)))))) (option_bytes d v ++ rest)
  = v ++ rest.
Proof. unfold option_bytes. by rewrite Nat2Z.id, <- app_assoc, drop_app_length. Qed.
