(* ===== verification/CoapPdu.v ===== *)
(** * CoapPdu: building and reading CoAP messages

    Models [connectivity/lib/libcoap-4.1.1/pdu.c], the option iterator of
    [option.c] and [block.c], for messages over UDP (a build without
    [WITH_TCP]).  [hdr] is the storage of the message, [max_size] bytes, on a
    little-endian target: the first byte holds, from the low bits up, the token
    length, the type and the version.  Pointers into the message are offsets.

    [message] is a message taken apart and [holds] says that a [coap_pdu_t]
    stores it. *)
From S2P Require Import Prelude CoapOption.

Definition COAP_MAX_PDU_SIZE : Z := 1400.
Definition COAP_DEFAULT_VERSION : Z := 1.
Definition UDP_HEADER : Z := 4.

Record coap_pdu_t := {
  max_size : Z;
  hdr : list Z;
  max_delta : Z;
  plength : Z;
  pdata : option Z;
}.

Definition set_hdr (h : list Z) (p : coap_pdu_t) : coap_pdu_t := {|
  max_size := max_size p; hdr := h; max_delta := max_delta p; plength := plength p;
  pdata := pdata p |}.

(** ** The header of [coap_hdr_udp_t] *)

(** Stores [v] in the [w] bits from [sh] of a byte. *)
Definition set_bits (h : list Z) (i sh w v : Z) : ub (list Z) :=
  b ← byte_at h i;
  write_at h i [b mod 2 ^ sh + (v mod 2 ^ w) * 2 ^ sh + b / 2 ^ (sh + w) * 2 ^ (sh + w)].

Definition get_bits (h : list Z) (i sh w : Z) : ub Z :=
  b ← byte_at h i; Some ((b >>> sh) mod 2 ^ w).

Definition udp_token_length (h : list Z) : ub Z := get_bits h 0 0 4.
Definition udp_type (h : list Z) : ub Z := get_bits h 0 4 2.
Definition udp_version (h : list Z) : ub Z := get_bits h 0 6 2.
Definition udp_code (h : list Z) : ub Z := byte_at h 1.
Definition udp_id (h : list Z) : ub Z := b2 ← byte_at h 2; b3 ← byte_at h 3; Some (b2 + 256 * b3).
Definition udp_token (h : list Z) : ub (list Z) := n ← udp_token_length h; read_at h UDP_HEADER n.

Definition set_id (h : list Z) (id : Z) : ub (list Z) := write_at h 2 [id mod 256; (id / 256) mod 256].

(** ** Building *)

(** The block has [sizeof (coap_pdu_t) + size] bytes. *)
Definition coap_pdu_clear2 (size : Z) : ub coap_pdu_t :=
  h ← set_bits (replicate (Z.to_nat size) 0) 0 6 2 COAP_DEFAULT_VERSION;
  Some {| max_size := size; hdr := h; max_delta := 0; plength := UDP_HEADER; pdata := None |}.

(** [ok] is whether [coap_malloc] succeeds. *)
Definition coap_pdu_init2 (ok : bool) (type code id size : Z) : ub (option coap_pdu_t) :=
  if COAP_MAX_PDU_SIZE <? size then None
  else if size <? UDP_HEADER then Some None
  else if negb ok then Some None
  else
    p ← coap_pdu_clear2 size;
    h ← set_id (hdr p) id;
    h ← set_bits h 0 4 2 type;
    h ← write_at h 1 [u8 code];
    Some (Some (set_hdr h p)).

Definition COAP_RESPONSE_CODE (n : Z) : Z := (n / 100 <<< 5) ||| (n mod 100).

Definition coap_add_code (p : coap_pdu_t) (code : Z) : ub coap_pdu_t :=
  h ← write_at (hdr p) 1 [u8 (COAP_RESPONSE_CODE code)]; Some (set_hdr h p).

Definition coap_get_code (p : coap_pdu_t) : ub Z := udp_code (hdr p).

(** [coap_get_token2]: the token, [*token_length] bytes in the header. *)
Definition coap_get_token2 (h : list Z) : ub (list Z) := udp_token h.

Definition coap_add_token2 (pdu : option coap_pdu_t) (len : Z) (data : list Z)
    : ub (Z * option coap_pdu_t) :=
  match pdu with
  | None => Some (0, None)
  | Some p =>
      let HEADERLENGTH := u64 (len + 4) in
      if (8 <? len) || (max_size p <? HEADERLENGTH) then Some (0, pdu)
      else
        h ← set_bits (hdr p) 0 0 4 len;
        t ← read_at data 0 len;
        h ← write_at h UDP_HEADER t;
        Some (1, Some {| max_size := max_size p; hdr := h; max_delta := 0;
                         plength := HEADERLENGTH; pdata := None |})
  end.

Definition no_data (p : coap_pdu_t) : coap_pdu_t := {|
  max_size := max_size p; hdr := hdr p; max_delta := max_delta p; plength := plength p;
  pdata := None |}.

Definition coap_add_option2 (p : coap_pdu_t) (type len : Z) (data : option (list Z))
    : ub (Z * coap_pdu_t) :=
  let p := no_data p in
  if type <? max_delta p then Some (0, p)
  else
    let off := Z.to_nat (plength p) in
    '(optsize, opt) ← coap_opt_encode (drop off (hdr p)) (u64 (max_size p - plength p))
                        (u16 (type - max_delta p)) data len;
    let h := take off (hdr p) ++ opt in
    Some (if optsize =? 0 then (0, set_hdr h p)
          else (optsize, {| max_size := max_size p; hdr := h; max_delta := type;
                            plength := u32 (plength p + optsize); pdata := None |})).

(** [data] is what [memcpy] reads from; the sum is one of [unsigned int]. *)
Definition coap_add_data (p : coap_pdu_t) (len : Z) (data : list Z) : ub (Z * coap_pdu_t) :=
  match pdata p with
  | Some _ => None
  | None =>
      if len =? 0 then Some (1, p)
      else if max_size p <? u32 (u32 (plength p + len) + 1) then Some (0, p)
      else
        h ← write_at (hdr p) (plength p) [COAP_PAYLOAD_START];
        d ← read_at data 0 len;
        h ← write_at h (plength p + 1) d;
        Some (1, {| max_size := max_size p; hdr := h; max_delta := max_delta p;
                    plength := u32 (plength p + u32 (len + 1)); pdata := Some (plength p + 1) |})
  end.

(** The payload, or [None] for NULL and length 0. *)
Definition coap_get_data (p : coap_pdu_t) : ub (option (list Z)) :=
  match pdata p with
  | Some at_ => d ← read_at (hdr p) at_ (plength p - at_); Some (Some d)
  | None => Some None
  end.

(** ** Reading *)

(** The loop of [coap_pdu_parse2] over the options with [next_option_safe]:
    where it stops and what is left, or [None] to drop the message. *)
Fixpoint parse_options (h : list Z) (pos len : Z) (fuel : nat) : ub (option (Z * Z)) :=
  match fuel with
  | O => None
  | S fuel =>
      if len =? 0 then Some (Some (pos, len))
      else
        b ← byte_at h pos;
        if b =? COAP_PAYLOAD_START then Some (Some (pos, len))
        else
          r ← coap_opt_parse (drop (Z.to_nat pos) h) len;
          match r with
          | None => Some None
          | Some (optsize, _) => parse_options h (pos + optsize) (len - optsize) fuel
          end
  end.

(** The end of [coap_pdu_parse2]: [None] to drop the message, or the payload's
    offset. *)
Definition find_data (h : list Z) (pos rest : Z) : ub (option (option Z)) :=
  r ← parse_options h pos rest (S (Z.to_nat rest));
  Some (match r with
        | None => None
        | Some (pos, rest) =>
            if rest =? 0 then Some None else if rest =? 1 then None else Some (Some (pos + 1))
        end).

(** Fills [p] from a packet of [len] bytes; -1, 0 or 1. *)
Definition coap_pdu_parse2 (data : list Z) (len : Z) (p : coap_pdu_t) : ub (Z * coap_pdu_t) :=
  if max_size p <? len then Some (-1, p)
  else
    d0 ← byte_at data 0;
    d1 ← byte_at data 1;
    h ← set_bits (hdr p) 0 6 2 (d0 >>> 6);
    h ← set_bits h 0 4 2 ((d0 >>> 4) &&& 0x03);
    h ← set_bits h 0 0 4 (d0 &&& 0x0f);
    h ← write_at h 1 [d1];
    let fill h data := {| max_size := max_size p; hdr := h; max_delta := max_delta p;
                          plength := u32 len; pdata := data |} in
    let tokenLength := d0 &&& 0x0f in
    if (d1 =? 0) && (negb (len =? UDP_HEADER) || negb (tokenLength =? 0)) then Some (0, fill h None)
    else if (len <? UDP_HEADER + tokenLength) || (8 <? tokenLength) then Some (0, fill h None)
    else
      i ← read_at data 2 2;
      h ← write_at h 2 i;
      body ← read_at data UDP_HEADER (len - UDP_HEADER);
      h ← write_at h UDP_HEADER body;
      r ← find_data h (UDP_HEADER + tokenLength) (len - (tokenLength + UDP_HEADER));
      Some (match r with
            | None => (0, fill h None)
            | Some data => (1, fill h data)
            end).

(** ** The option iterator *)

Record coap_opt_iterator_t := {
  oi_length : Z;
  oi_type : Z;
  oi_bad : bool;
  oi_next : Z;
  oi_filter : option (list Z);
}.

Definition bad_iterator (oi : coap_opt_iterator_t) : coap_opt_iterator_t := {|
  oi_length := oi_length oi; oi_type := oi_type oi; oi_bad := true; oi_next := oi_next oi;
  oi_filter := oi_filter oi |}.

(** The assertion holds after the test before it. *)
Definition coap_option_iterator_init2 (p : coap_pdu_t) (filter : option (list Z))
    : ub coap_opt_iterator_t :=
  token_length ← udp_token_length (hdr p);
  let start := UDP_HEADER + token_length in
  Some (if plength p <=? start then
    {| oi_length := 0; oi_type := 0; oi_bad := true; oi_next := start; oi_filter := None |}
  else
    {| oi_length := plength p - start; oi_type := 0; oi_bad := false; oi_next := start;
       oi_filter := filter |}).

Definition opt_finished (h : list Z) (oi : coap_opt_iterator_t) : ub bool :=
  if oi_bad oi || (oi_length oi =? 0) then Some true
  else b ← byte_at h (oi_next oi); Some (b =? COAP_PAYLOAD_START).

(** The [while (1)] loop. *)
Fixpoint next_loop (h : list Z) (oi : coap_opt_iterator_t) (fuel : nat)
    : ub (option Z * coap_opt_iterator_t) :=
  match fuel with
  | O => None
  | S fuel =>
      let current_opt := oi_next oi in
      r ← coap_opt_parse (drop (Z.to_nat (oi_next oi)) h) (oi_length oi);
      match r with
      | None => Some (None, bad_iterator oi)
      | Some (optsize, o) =>
          let oi := {| oi_length := oi_length oi - optsize; oi_type := u16 (oi_type oi + delta o);
                       oi_bad := oi_bad oi; oi_next := oi_next oi + optsize;
                       oi_filter := oi_filter oi |} in
          match oi_filter oi with
          | None => Some (Some current_opt, oi)
          | Some f =>
              b ← coap_option_getb f (oi_type oi);
              if 0 <? b then Some (Some current_opt, oi)
              else if b <? 0 then Some (None, bad_iterator oi)
              else next_loop h oi fuel
          end
      end
  end.

(** The offset of the next option that passes the filter, or NULL. *)
Definition coap_option_next (h : list Z) (oi : coap_opt_iterator_t)
    : ub (option Z * coap_opt_iterator_t) :=
  fin ← opt_finished h oi;
  if (fin : bool) then Some (None, bad_iterator oi)
  else next_loop h oi (S (Z.to_nat (oi_length oi))).

Definition coap_check_option (p : coap_pdu_t) (type : Z) : ub (option Z) :=
  '(_, f) ← coap_option_setb coap_option_filter_clear (u8 type);
  oi ← coap_option_iterator_init2 p (Some f);
  '(r, _) ← coap_option_next (hdr p) oi;
  Some r.

(** ** block.c *)

Definition COAP_OPTION_BLOCK2 : Z := 23.
Definition COAP_OPTION_BLOCK1 : Z := 27.
Definition COAP_OPTION_SIZE2 : Z := 28.
Definition COAP_OPTION_SIZE1 : Z := 60.

(** [num] has 20 bits, [m] one and [szx] three. *)
Record coap_block_t := { num : Z; m : Z; szx : Z }.
#[export] Instance coap_block_eq_dec : EqDecision coap_block_t.
Proof. solve_decision. Defined.

(** The last byte of the value of an option of length [len]. *)
Definition opt_last (opt : list Z) (len : Z) : ub Z :=
  v ← coap_opt_value opt; v ← v; byte_at opt (v + len - 1).

Definition coap_opt_block_num (opt : list Z) : ub Z :=
  len ← coap_opt_length opt;
  if len =? 0 then Some 0
  else
    n ← (if 1 <? len then v ← coap_opt_value opt; v ← v; coap_decode_var_bytes (drop (Z.to_nat v) opt) (len - 1)
         else Some 0);
    last ← opt_last opt len;
    Some (u32 (n <<< 4) ||| ((last &&& 0xF0) >>> 4)).

(** The return value and [*block]. *)
Definition coap_get_block (p : coap_pdu_t) (type : Z) : ub (bool * coap_block_t) :=
  r ← coap_check_option p type;
  match r with
  | None => Some (false, {| num := 0; m := 0; szx := 0 |})
  | Some at_ =>
      let opt := drop (Z.to_nat at_) (hdr p) in
      len ← coap_opt_length opt;
      last ← (if len =? 0 then Some 0 else opt_last opt len);
      n ← coap_opt_block_num opt;
      Some (true, {| num := wrap 20 n; m := if last &&& 0x08 =? 0 then 0 else 1; szx := last &&& 0x07 |})
  end.

Definition coap_more_blocks (data_len n sz : Z) : bool := u32 ((n + 1) <<< (sz + 4)) <? data_len.

(** The block's part of [data]; [min] is a comparison of [size_t]. *)
Definition coap_add_block (p : coap_pdu_t) (len : Z) (data : list Z) (block_num block_szx : Z)
    : ub (Z * coap_pdu_t) :=
  let start := u32 (block_num <<< (block_szx + 4)) in
  if len <=? start then Some (0, p)
  else coap_add_data p (Z.min (len - start) (1 <<< (block_szx + 4))) (drop (Z.to_nat start) data).

(** ** What a message stores *)

#[local] Arguments option_bytes : simpl never.
#[local] Arguments wrap : simpl never.

Abbreviation hcoap_option := (Z * list Z)%type.

(** Options in the order of their numbers, [prev] the number before. *)
Fixpoint options_ok (prev : Z) (os : list hcoap_option) : Prop :=
  match os with
  | [] => True
  | (k, v) :: os =>
      delta_ok (k - prev) /\ vlength_ok (Z.of_nat (length v)) /\ k <= 65535 /\ options_ok k os
  end.

Fixpoint options_bytes (prev : Z) (os : list hcoap_option) : list Z :=
  match os with
  | [] => []
  | (k, v) :: os => option_bytes (k - prev) v ++ options_bytes k os
  end.

Definition payload_bytes (d : list Z) : list Z :=
  match d with [] => [] | _ => COAP_PAYLOAD_START :: d end.

(** [p] stores [bs] and has written nothing else that counts. *)
Record holds (p : coap_pdu_t) (bs : list Z) (last : Z) : Prop := {
  holds_bytes : exists rest, hdr p = bs ++ rest;
  holds_length : plength p = Z.of_nat (length bs);
  holds_size : max_size p = Z.of_nat (length (hdr p));
  holds_max : max_size p <= COAP_MAX_PDU_SIZE;
  holds_delta : max_delta p = last;
}.

Lemma holds_room p bs last : holds p bs last -> Z.of_nat (length bs) <= max_size p.
Proof. intros [[rest E] _ Hs _ _]. rewrite Hs, E, length_app. lia. Qed.

Lemma option_header_short d l : (1 <= length (option_header d l) <= 5)%nat.
Proof. rewrite length_option_header. pose proof (ext_length d). pose proof (ext_length l). lia. Qed.

Lemma add_option_holds p bs k0 k v : holds p bs k0 -> 0 <= k0 ->
  delta_ok (k - k0) -> k <= 65535 -> vlength_ok (Z.of_nat (length v)) ->
  Z.of_nat (length (bs ++ option_bytes (k - k0) v)) <= max_size p ->
  exists size p', coap_add_option2 p k (Z.of_nat (length v)) (Some v) = Some (size, p') /\
    size <> 0 /\ holds p' (bs ++ option_bytes (k - k0) v) k /\ max_size p' = max_size p /\ pdata p' = None.
Proof.
  intros [[rest E] Hl Hs Hm Hd] Hk0 Hdk Hk Hv. rewrite length_app. intros Hroom.
  pose proof (option_header_short (k - k0) (Z.of_nat (length v))) as Hh.
  unfold coap_add_option2, COAP_MAX_PDU_SIZE in *. simpl. rewrite Hd.
  pose proof Hdk as [[? ?] _]. destruct (Z.ltb_spec k k0); [lia|].
  rewrite Hl, Nat2Z.id, E, drop_app_length, take_app_length.
  rewrite Hs, E, length_app in *. rewrite !wrap_small by (unfold MAX_DELTA in *; lia).
  rewrite encode_room by (try done; lia). cbn [mbind option_bind].
  assert (0 < length (option_bytes (k - k0) v))%nat by (unfold option_bytes; rewrite length_app; lia).
  case_match eqn:Hz; [apply Z.eqb_eq in Hz; lia|].
  do 2 eexists. split; [reflexivity|]. split; [lia|]. split; [|split; [simpl; lia|done]].
  split; cbn [hdr plength max_size max_delta no_data]; rewrite ?length_app, ?length_drop in *;
    unfold COAP_MAX_PDU_SIZE; try lia.
  - eexists. apply app_assoc.
  - rewrite wrap_small; unfold option_bytes in *; rewrite ?length_app in *; lia.
Qed.

(** The loop of the callers over the list of options. *)
Fixpoint add_option_list (p : coap_pdu_t) (options : list hcoap_option) : ub (bool * coap_pdu_t) :=
  match options with
  | [] => Some (true, p)
  | (k, v) :: options =>
      '(ret, p) ← coap_add_option2 p k (Z.of_nat (length v)) (Some v);
      if ret =? 0 then Some (false, p) else add_option_list p options
  end.

Definition last_key (prev : Z) (os : list hcoap_option) : Z := default prev (fst <$> last os).

Lemma last_key_cons prev k v os : last_key prev ((k, v) :: os) = last_key k os.
Proof. unfold last_key. destruct os as [|o os]; [done|]. rewrite last_cons_cons.
  destruct (proj2 (last_is_Some (o :: os))) as [x Hx]; [done|]. by rewrite Hx.
Qed.

Lemma add_option_list_holds p bs k0 os : holds p bs k0 -> 0 <= k0 -> pdata p = None ->
  options_ok k0 os -> Z.of_nat (length (bs ++ options_bytes k0 os)) <= max_size p ->
  exists p', add_option_list p os = Some (true, p') /\
    holds p' (bs ++ options_bytes k0 os) (last_key k0 os) /\ max_size p' = max_size p /\ pdata p' = None.
Proof.
  revert p bs k0. induction os as [|[k v] os IH]; intros p bs k0 Hp Hk0 Hd Hos Hroom;
    cbn [options_bytes options_ok add_option_list] in *.
  - rewrite app_nil_r. by exists p.
  - destruct Hos as (Hdk & Hv & Hk & Hos). pose proof Hdk as [[? ?] _].
    rewrite app_assoc in Hroom.
    destruct (add_option_holds p bs k0 k v) as (size & p1 & -> & Hsz & Hp1 & Hm1 & Hd1); try done.
    { rewrite length_app in Hroom. lia. }
    cbn [mbind option_bind]. destruct (Z.eqb_spec size 0); [done|].
    destruct (IH p1 (bs ++ option_bytes (k - k0) v) k) as (p2 & E2 & Hp2 & Hm2 & Hd2); try done; [lia|lia|].
    rewrite app_assoc, last_key_cons. exists p2. repeat split; try done; congruence || apply Hp2.
Qed.

(** An option list that does not fit is refused: some option is not added. *)
Lemma add_data_holds p bs k d : holds p bs k -> pdata p = None ->
  Z.of_nat (length (bs ++ payload_bytes d)) <= max_size p ->
  exists p', coap_add_data p (Z.of_nat (length d)) d = Some (1, p') /\
    holds p' (bs ++ payload_bytes d) k /\ max_size p' = max_size p /\
    pdata p' = (if decide (d = []) then None else Some (Z.of_nat (length bs) + 1)).
Proof.
  intros Hp Hd. pose proof Hp as [[rest E] Hl Hs Hm Hdl]. unfold coap_add_data, COAP_MAX_PDU_SIZE in *.
  rewrite Hd. destruct d as [|x d]; [rewrite app_nil_r; by exists p|].
  set (w := x :: d). assert (payload_bytes w = COAP_PAYLOAD_START :: w) as -> by done.
  rewrite length_app, length_cons. intros Hroom.
  destruct (Z.eqb_spec (Z.of_nat (length w)) 0) as [Hz|_]; [simpl in Hz; lia|].
  rewrite (wrap_small 32 (plength p + _)), wrap_small by lia.
  destruct (Z.ltb_spec (max_size p) (plength p + Z.of_nat (length w) + 1)); [lia|].
  rewrite Hs, E, length_app in *. destruct rest as [|y rest]; [simpl in *; lia|].
  rewrite write_at_one by done. cbn [mbind option_bind]. rewrite read_at_all by done.
  cbn [mbind option_bind]. simpl in Hroom.
  change (bs ++ COAP_PAYLOAD_START :: rest) with (bs ++ [COAP_PAYLOAD_START] ++ rest).
  rewrite app_assoc, write_at_after by (rewrite ?length_app; simpl; simpl in Hroom; lia).
  rewrite (wrap_small 32 (Z.of_nat (length w) + 1)), (wrap_small 32 (plength p + _))
    by (simpl in *; lia).
  cbn [mbind option_bind]. eexists. split; [reflexivity|]. rewrite decide_False by done.
  split; [|split; [simpl in *; lia|by rewrite Hl]].
  split; cbn [hdr plength max_size max_delta]; unfold COAP_MAX_PDU_SIZE;
    rewrite ?length_app, ?length_drop in *; simpl in *; rewrite ?length_app, ?length_drop in *; try lia.
  eexists. by rewrite <- !app_assoc.
Qed.

(** ** Headers *)

Definition header_bytes (type tkl code id : Z) : list Z :=
  [64 + type * 16 + tkl; code; id mod 256; id / 256].

Definition header_ok (type tkl code id : Z) : Prop :=
  0 <= type < 4 /\ 0 <= tkl < 16 /\ 0 <= code < 256 /\ 0 <= id < 65536.

Lemma set_bits_first b r sh w v : set_bits (b :: r) 0 sh w v
  = Some (b mod 2 ^ sh + (v mod 2 ^ w) * 2 ^ sh + b / 2 ^ (sh + w) * 2 ^ (sh + w) :: r).
Proof. unfold set_bits. rewrite byte_at_0. cbn [mbind option_bind]. by rewrite write_at_0. Qed.

Lemma set_version b r v : 0 <= v < 4 -> set_bits (b :: r) 0 6 2 v
  = Some (b mod 64 + v * 64 + b / 256 * 256 :: r).
Proof. intros. rewrite set_bits_first. by rewrite (Z.mod_small v) by (simpl; lia). Qed.

Lemma set_type b r v : 0 <= v < 4 -> set_bits (b :: r) 0 4 2 v
  = Some (b mod 16 + v * 16 + b / 64 * 64 :: r).
Proof. intros. rewrite set_bits_first. by rewrite (Z.mod_small v) by (simpl; lia). Qed.

Lemma set_token_length b r v : 0 <= v < 16 -> set_bits (b :: r) 0 0 4 v
  = Some (v + b / 16 * 16 :: r).
Proof.
  intros. rewrite set_bits_first. rewrite (Z.mod_small v) by (simpl; lia).
  change (2 ^ 0) with 1. rewrite Z.mod_1_r. do 2 f_equal. change (2 ^ (0 + 4)) with 16. lia.
Qed.

(** The fields of the first byte. *)
Lemma first_byte type tkl : 0 <= type < 4 -> 0 <= tkl < 16 ->
  (64 + type * 16 + tkl) mod 16 = tkl /\ (64 + type * 16 + tkl) / 16 = 4 + type /\
  (64 + type * 16 + tkl) / 64 = 1 /\ (64 + type * 16 + tkl) mod 64 = type * 16 + tkl /\
  (64 + type * 16 + tkl) / 256 = 0.
Proof.
  intros. Z.to_euclidean_division_equations. lia.
Qed.

(** The first byte carries the three fields. *)
Lemma first_byte_fields type tkl r : 0 <= type < 4 -> 0 <= tkl < 16 ->
  let h := 64 + type * 16 + tkl :: r in
  udp_version h = Some 1 /\ udp_type h = Some type /\ udp_token_length h = Some tkl.
Proof.
  intros Ht Hn h. destruct (first_byte type tkl Ht Hn) as (E1 & E2 & E3 & E4 & E5).
  unfold udp_version, udp_type, udp_token_length, get_bits, h. rewrite !byte_at_0.
  cbn [mbind option_bind]. rewrite !shiftr_div by lia. change (2 ^ 6) with 64. change (2 ^ 4) with 16.
  rewrite E2, E3. change (2 ^ 0) with 1. rewrite Z.div_1_r, E1. change (2 ^ 2) with 4.
  repeat split; f_equal. Z.to_euclidean_division_equations. lia.
Qed.

Lemma id_bytes id : 0 <= id < 65536 -> [id mod 256; (id / 256) mod 256] = [id mod 256; id / 256].
Proof. intros. do 2 f_equal. Z.to_euclidean_division_equations. lia. Qed.

Lemma replicate_four {A} (x : A) n : (4 <= n)%nat ->
  replicate n x = x :: x :: x :: x :: replicate (n - 4) x.
Proof. intros. destruct n as [|[|[|[|n]]]]; try lia. simpl. by rewrite Nat.sub_0_r. Qed.

Lemma set_id_bytes a b c d r id : 0 <= id < 65536 ->
  set_id (a :: b :: c :: d :: r) id = Some (a :: b :: id mod 256 :: id / 256 :: r).
Proof.
  intros Hid. unfold set_id. rewrite id_bytes by done.
  apply (write_at_app [a; b] [c; d] r [id mod 256; id / 256]); done.
Qed.

(** The fixed header that [coap_pdu_init2] leaves. *)
Lemma init_header type code id size : header_ok type 0 code id -> UDP_HEADER <= size <= COAP_MAX_PDU_SIZE ->
  exists p, coap_pdu_init2 true type code id size = Some (Some p) /\
    holds p (header_bytes type 0 code id) 0 /\ max_size p = size /\ pdata p = None.
Proof.
  intros (Ht & _ & Hc & Hid) [Hs1 Hs2]. unfold coap_pdu_init2, coap_pdu_clear2, UDP_HEADER in *.
  destruct (Z.ltb_spec COAP_MAX_PDU_SIZE size); [lia|]. destruct (Z.ltb_spec size 4); [lia|].
  cbn [negb]. rewrite replicate_four by lia. rewrite set_version by done.
  cbn [mbind option_bind hdr]. rewrite set_id_bytes by done. cbn [mbind option_bind].
  rewrite set_type by done. cbn [mbind option_bind]. cells_rw. eexists. split; [reflexivity|].
  rewrite (wrap_small 8) by (simpl; lia).
  split; [|done]. split; cbn [set_hdr hdr plength max_size max_delta]; try done.
  - exists (replicate (Z.to_nat size - 4) 0). unfold header_bytes.
    change (0 mod 64 + COAP_DEFAULT_VERSION * 64 + 0 / 256 * 256) with 64.
    change (64 mod 16) with 0. change (64 / 64 * 64) with 64.
    cbn [app]. f_equal. lia.
  - cbn [length]. rewrite length_replicate. lia.
Qed.

Lemma add_token_holds p type code id tok : holds p (header_bytes type 0 code id) 0 ->
  header_ok type 0 code id -> Z.of_nat (length tok) <= 8 -> 4 + Z.of_nat (length tok) <= max_size p ->
  exists p', coap_add_token2 (Some p) (Z.of_nat (length tok)) tok = Some (1, Some p') /\
    holds p' (header_bytes type (Z.of_nat (length tok)) code id ++ tok) 0 /\
    max_size p' = max_size p /\ pdata p' = None.
Proof.
  intros [[rest E] Hl Hs Hm Hd] (Ht & _ & Hc & Hid) Htok Hroom. unfold coap_add_token2, COAP_MAX_PDU_SIZE in *.
  rewrite wrap_small by lia. destruct (Z.ltb_spec 8 (Z.of_nat (length tok))); [lia|].
  destruct (Z.ltb_spec (max_size p) (Z.of_nat (length tok) + 4)); [lia|]. cbn [orb].
  rewrite E in *. unfold header_bytes in *. cbn [app length] in *.
  rewrite set_token_length by lia. cbn [mbind option_bind]. rewrite read_at_all by done.
  cbn [mbind option_bind]. unfold UDP_HEADER.
  match goal with |- context [write_at (?a :: ?b :: ?c :: ?d :: ?r) 4 _] =>
    pose proof (write_at_after [a; b; c; d] r tok 4) as Ew end.
  cbn [app length] in Ew. rewrite Ew by lia. cbn [mbind option_bind].
  eexists. split; [reflexivity|]. split; [|done]. destruct (first_byte type 0 Ht ltac:(lia)) as (_ & E2 & _).
  rewrite E2. split; cbn [hdr plength max_size max_delta length app]; rewrite ?length_app, ?length_drop;
    unfold COAP_MAX_PDU_SIZE; try lia.
  exists (drop (length tok) rest). f_equal. lia.
Qed.

(** ** Reading a message that was written *)

Lemma option_first d v : 0 <= d -> exists b r, option_bytes d v = b :: r /\ b <> COAP_PAYLOAD_START.
Proof.
  intros Hd. unfold option_bytes, option_header. do 2 eexists. split; [reflexivity|].
  pose proof (ext_nibble_range d Hd). pose proof (ext_nibble_range (Z.of_nat (length v)) ltac:(lia)).
  unfold COAP_PAYLOAD_START. lia.
Qed.

Lemma parse_options_spec pre k0 os d rest fuel : 0 <= k0 -> options_ok k0 os -> (length os < fuel)%nat ->
  parse_options (pre ++ options_bytes k0 os ++ payload_bytes d ++ rest) (Z.of_nat (length pre))
    (Z.of_nat (length (options_bytes k0 os ++ payload_bytes d))) fuel
  = Some (Some (Z.of_nat (length (pre ++ options_bytes k0 os)), Z.of_nat (length (payload_bytes d)))).
Proof.
  revert pre k0 fuel. induction os as [|[k v] os IH]; intros pre k0 [|fuel] Hk0 Hos Hf; try (simpl in Hf; lia);
    cbn [options_bytes parse_options].
  - rewrite app_nil_r. cbn [app]. destruct d as [|x d]; [done|].
    set (w := x :: d). assert (payload_bytes w = COAP_PAYLOAD_START :: w) as -> by done.
    destruct (Z.eqb_spec (Z.of_nat (length (COAP_PAYLOAD_START :: w))) 0); [simpl in *; lia|].
    cbn [app]. rewrite byte_at_middle by done. cbn [mbind option_bind]. by rewrite Z.eqb_refl.
  - cbn [options_ok] in Hos. destruct Hos as (Hdk & Hv & Hk & Hos). pose proof Hdk as [[? ?] _].
    destruct (option_first (k - k0) v) as (b & r & Eb & Hb); [done|].
    destruct (Z.eqb_spec (Z.of_nat (length ((option_bytes (k - k0) v ++ options_bytes k os) ++ payload_bytes d))) 0);
      [rewrite Eb in *; simpl in *; lia|].
    rewrite <- !app_assoc. rewrite Eb at 1. cbn [app]. rewrite byte_at_middle by done. cbn [mbind option_bind].
    destruct (Z.eqb_spec b COAP_PAYLOAD_START); [done|]. rewrite Nat2Z.id, drop_app_length.
    destruct Hv as [Hv _]. rewrite parse_bytes by (rewrite ?length_app; lia). cbn [mbind option_bind].
    rewrite <- (Nat2Z.inj_add (length pre)), <- length_app.
    replace (Z.of_nat (length (option_bytes (k - k0) v ++ options_bytes k os ++ payload_bytes d))
             - Z.of_nat (length (option_bytes (k - k0) v)))
      with (Z.of_nat (length (options_bytes k os ++ payload_bytes d))) by (rewrite !length_app; lia).
    rewrite app_assoc, IH by (try done; simpl in Hf; lia). by rewrite <- app_assoc.
Qed.

Definition tail_bytes (os : list hcoap_option) (d : list Z) : list Z :=
  options_bytes 0 os ++ payload_bytes d.

Definition message_bytes (type code id : Z) (tok : list Z) (os : list hcoap_option) (d : list Z)
    : list Z :=
  header_bytes type (Z.of_nat (length tok)) code id ++ tok ++ tail_bytes os d.

Lemma length_message type code id tok os d :
  length (message_bytes type code id tok os d) = (4 + length tok + length (tail_bytes os d))%nat.
Proof. unfold message_bytes. rewrite !length_app. simpl. lia. Qed.

(** [p] stores [bs]: what a reader of [p] sees. *)
Record stores (p : coap_pdu_t) (bs : list Z) : Prop := {
  stores_bytes : exists rest, hdr p = bs ++ rest;
  stores_length : plength p = Z.of_nat (length bs);
}.

Lemma parse_first_byte type tkl b0 r : 0 <= type < 4 -> 0 <= tkl < 16 -> 0 <= b0 < 256 ->
  let d0 := 64 + type * 16 + tkl in
  (h ← set_bits (b0 :: r) 0 6 2 (d0 >>> 6);
   h ← set_bits h 0 4 2 ((d0 >>> 4) &&& 0x03);
   set_bits h 0 0 4 (d0 &&& 0x0f)) = Some (d0 :: r) /\ d0 &&& 0x0f = tkl.
Proof.
  intros Ht Hn Hb d0. destruct (first_byte type tkl Ht Hn) as (E1 & E2 & E3 & E4 & E5).
  assert (d0 &&& 0x0f = tkl) as El by (by rewrite (land_ones_mod _ 4)).
  split; [|done]. rewrite El, !shiftr_div, (land_ones_mod _ 2) by done.
  change (2 ^ 6) with 64. change (2 ^ 4) with 16. change (2 ^ 2) with 4. unfold d0. rewrite E2, E3.
  assert ((4 + type) mod 4 = type) as -> by (Z.to_euclidean_division_equations; lia).
  rewrite set_version by lia. cbn [mbind option_bind]. rewrite set_type by lia.
  cbn [mbind option_bind]. rewrite set_token_length by lia. do 2 f_equal.
  Z.to_euclidean_division_equations. lia.
Qed.

(** The header and the copy of the rest. *)
Lemma parse_head p0 b0 b1 b2 b3 r0 type code id tkl body :
  hdr p0 = b0 :: b1 :: b2 :: b3 :: r0 -> 0 <= b0 < 256 -> header_ok type tkl code id -> code <> 0 ->
  tkl <= 8 -> tkl <= Z.of_nat (length body) -> 4 + Z.of_nat (length body) <= max_size p0 < 2 ^ 32 ->
  (length body <= length r0)%nat ->
  let bs := header_bytes type tkl code id ++ body in
  let h := bs ++ drop (length body) r0 in
  let p x := {| max_size := max_size p0; hdr := h; max_delta := max_delta p0;
                plength := Z.of_nat (length bs); pdata := x |} in
  coap_pdu_parse2 bs (Z.of_nat (length bs)) p0
  = r ← find_data h (4 + tkl) (Z.of_nat (length body) - tkl);
    Some (match r with None => (0, p None) | Some data => (1, p data) end).
Proof.
  intros E0 Hb0 (Ht & Hn & Hc & Hid) Hc0 Hn8 Hnb Hfit Hr bs h p. unfold coap_pdu_parse2.
  assert (Z.of_nat (length bs) = 4 + Z.of_nat (length body)) as Hlen
    by (unfold bs; rewrite length_app; simpl; lia).
  rewrite Hlen, wrap_small, E0 by lia.
  destruct (Z.ltb_spec (max_size p0) (4 + Z.of_nat (length body))); [lia|].
  destruct (parse_first_byte type tkl b0 (b1 :: b2 :: b3 :: r0) Ht Hn Hb0) as [Eh El].
  unfold bs, header_bytes. cbn [app]. cells_rw.
  destruct (set_bits _ 0 6 2 _) as [h1|]; [|done]. cbn [mbind option_bind] in *.
  destruct (set_bits h1 0 4 2 _) as [h2|]; [|done]. cbn [mbind option_bind] in *.
  rewrite Eh. cells_rw. cbv zeta. rewrite El.
  destruct (Z.eqb_spec code 0); [done|]. cbn [andb]. unfold UDP_HEADER.
  destruct (Z.ltb_spec (4 + Z.of_nat (length body)) (4 + tkl)); [lia|].
  destruct (Z.ltb_spec 8 tkl); [lia|]. cbn [orb].
  pose proof (read_at_app [64 + type * 16 + tkl; code] [id mod 256; id / 256] body 2 2 eq_refl eq_refl)
    as Er. cbn [app] in Er. rewrite Er. cbn [mbind option_bind].
  pose proof (write_at_app [64 + type * 16 + tkl; code] [b2; b3] r0 [id mod 256; id / 256] 2 eq_refl
                eq_refl) as Ew. cbn [app] in Ew. rewrite Ew. cbn [mbind option_bind].
  rewrite Z.add_simpl_l.
  pose proof (read_at_app [64 + type * 16 + tkl; code; id mod 256; id / 256] body [] 4
                (Z.of_nat (length body)) eq_refl eq_refl) as Er2.
  rewrite app_nil_r in Er2. cbn [app] in Er2 |- *. rewrite Er2. cbn [mbind option_bind].
  pose proof (write_at_after [64 + type * 16 + tkl; code; id mod 256; id / 256] r0 body 4 eq_refl Hr)
    as Ew2. cbn [app] in Ew2. rewrite Ew2. cbn [mbind option_bind].
  unfold p, h. rewrite Hlen. unfold bs, header_bytes. cbn [app].
  by replace (4 + Z.of_nat (length body) - (tkl + 4)) with (Z.of_nat (length body) - tkl) by lia.
Qed.

Lemma options_longer k os : (length os <= length (options_bytes k os))%nat.
Proof.
  revert k. induction os as [|[k' v] os IH]; intros k; cbn [options_bytes length]; [lia|].
  rewrite length_app. unfold option_bytes at 1. rewrite length_app.
  pose proof (option_header_short (k' - k) (Z.of_nat (length v))). specialize (IH k'). lia.
Qed.

(** Where the payload of a message starts. *)
Definition data_offset (pre : list Z) (os : list hcoap_option) (d : list Z) : option Z :=
  if decide (d = []) then None else Some (Z.of_nat (length (pre ++ options_bytes 0 os)) + 1).

Lemma find_data_spec pre os d rest : options_ok 0 os ->
  find_data (pre ++ tail_bytes os d ++ rest) (Z.of_nat (length pre)) (Z.of_nat (length (tail_bytes os d)))
  = Some (Some (data_offset pre os d)).
Proof.
  intros Hos. unfold find_data. unfold tail_bytes at 1 2. rewrite <- app_assoc.
  pose proof (options_longer 0 os).
  rewrite parse_options_spec by (try done; unfold tail_bytes; rewrite ?length_app; lia).
  cbn [mbind option_bind]. unfold data_offset. do 2 f_equal. destruct d as [|x d]; [done|].
  rewrite decide_False by done. set (w := x :: d).
  destruct (Z.eqb_spec (Z.of_nat (length (payload_bytes w))) 0); [simpl in *; lia|].
  destruct (Z.eqb_spec (Z.of_nat (length (payload_bytes w))) 1); [simpl in *; lia|done].
Qed.

(** Reading the bytes of a message into a fresh [coap_pdu_t]. *)
Lemma parse_message p0 b0 b1 b2 b3 r0 type code id tok os d :
  let bs := message_bytes type code id tok os d in
  let pre := header_bytes type (Z.of_nat (length tok)) code id ++ tok in
  hdr p0 = b0 :: b1 :: b2 :: b3 :: r0 -> 0 <= b0 < 256 -> max_size p0 = Z.of_nat (length (hdr p0)) ->
  header_ok type 0 code id -> code <> 0 -> Z.of_nat (length tok) <= 8 -> options_ok 0 os ->
  Z.of_nat (length bs) <= max_size p0 < 2 ^ 32 ->
  exists p, coap_pdu_parse2 bs (Z.of_nat (length bs)) p0 = Some (1, p) /\
    stores p bs /\ max_size p = max_size p0 /\ pdata p = data_offset pre os d.
Proof.
  intros bs pre E0 Hb0 Hsz (Ht & _ & Hc & Hid) Hc0 Htok Hos Hfit.
  pose proof (length_message type code id tok os d) as Hlen. fold bs in Hlen.
  rewrite E0 in Hsz. cbn [length] in Hsz.
  assert (bs = header_bytes type (Z.of_nat (length tok)) code id ++ tok ++ tail_bytes os d) as Ebs by done.
  rewrite Ebs, (parse_head p0 b0 b1 b2 b3 r0) by
    (try done; try (split; [done|split; [lia|done]]); rewrite ?length_app; lia).
  rewrite (app_assoc _ tok), <- (app_assoc _ (tail_bytes os d)). fold pre.
  replace (4 + Z.of_nat (length tok)) with (Z.of_nat (length pre))
    by (unfold pre; rewrite length_app; simpl; lia).
  replace (Z.of_nat (length (tok ++ tail_bytes os d)) - Z.of_nat (length tok))
    with (Z.of_nat (length (tail_bytes os d))) by (rewrite length_app; lia).
  rewrite find_data_spec by done. cbn [mbind option_bind]. eexists. split; [reflexivity|].
  split; [|done]. split; cbn [hdr plength]; [|done]. eexists. by rewrite <- app_assoc.
Qed.

(** ** Iterating over the options *)

(** The iterator in front of [os], after an option numbered [k0]. *)
Definition iter_at (pre : list Z) (k0 : Z) (os : list hcoap_option) (d : list Z)
    (f : option (list Z)) : coap_opt_iterator_t := {|
  oi_length := Z.of_nat (length (options_bytes k0 os ++ payload_bytes d));
  oi_type := k0; oi_bad := false; oi_next := Z.of_nat (length pre); oi_filter := f |}.

Definition from (pre : list Z) (k0 : Z) (os : list hcoap_option) (d rest : list Z) : list Z :=
  pre ++ options_bytes k0 os ++ payload_bytes d ++ rest.

Lemma from_step pre k0 k v os d rest :
  from (pre ++ option_bytes (k - k0) v) k os d rest = from pre k0 ((k, v) :: os) d rest.
Proof. unfold from. cbn [options_bytes]. by rewrite <- !app_assoc. Qed.

(** One round of the loop: the option is passed, and accepted or not. *)
Lemma next_loop_step pre k0 k v os d rest f fuel : 0 <= k0 -> options_ok k0 ((k, v) :: os) ->
  next_loop (from pre k0 ((k, v) :: os) d rest) (iter_at pre k0 ((k, v) :: os) d f) (S fuel)
  = let oi := iter_at (pre ++ option_bytes (k - k0) v) k os d f in
    match f with
    | None => Some (Some (Z.of_nat (length pre)), oi)
    | Some f =>
        b ← coap_option_getb f k;
        if 0 <? b then Some (Some (Z.of_nat (length pre)), oi)
        else if b <? 0 then Some (None, bad_iterator oi)
        else next_loop (from pre k0 ((k, v) :: os) d rest) oi fuel
    end.
Proof.
  intros Hk0 (Hdk & [Hv _] & Hk & Hos). pose proof Hdk as [[? ?] _]. cbn [next_loop iter_at oi_next oi_length].
  rewrite Nat2Z.id.
  assert (drop (length pre) (from pre k0 ((k, v) :: os) d rest)
          = options_bytes k0 ((k, v) :: os) ++ payload_bytes d ++ rest) as -> by apply drop_app_length.
  cbn [options_bytes].
  rewrite <- !app_assoc, parse_bytes by (rewrite ?length_app; lia). cbn [mbind option_bind].
  cbn [iter_at oi_type oi_bad oi_filter delta parsed].
  replace (u16 (k0 + (k - k0))) with k by (rewrite wrap_small; lia).
  replace (Z.of_nat (length (option_bytes (k - k0) v ++ options_bytes k os ++ payload_bytes d))
           - Z.of_nat (length (option_bytes (k - k0) v)))
    with (Z.of_nat (length (options_bytes k os ++ payload_bytes d))) by (rewrite !length_app; lia).
  replace (Z.of_nat (length pre) + Z.of_nat (length (option_bytes (k - k0) v)))
    with (Z.of_nat (length (pre ++ option_bytes (k - k0) v))) by (rewrite length_app; lia).
  done.
Qed.

Lemma next_loop_end pre k0 d rest f fuel :
  next_loop (from pre k0 [] d rest) (iter_at pre k0 [] d f) (S fuel)
  = Some (None, bad_iterator (iter_at pre k0 [] d f)).
Proof.
  cbn [next_loop iter_at oi_next oi_length options_bytes app]. rewrite Nat2Z.id. unfold from.
  rewrite drop_app_length. cbn [options_bytes app]. destruct d as [|x d]; [done|].
  set (w := x :: d). assert (payload_bytes w = COAP_PAYLOAD_START :: w) as -> by done.
  unfold coap_opt_parse. destruct (Z.ltb_spec (Z.of_nat (length (COAP_PAYLOAD_START :: w))) 1); [simpl in *; lia|].
  cbn [app]. rewrite byte_at_0. done.
Qed.

Lemma not_finished pre k0 k v os d rest f : 0 <= k0 -> options_ok k0 ((k, v) :: os) ->
  opt_finished (from pre k0 ((k, v) :: os) d rest) (iter_at pre k0 ((k, v) :: os) d f) = Some false.
Proof.
  intros Hk0 (Hdk & _). pose proof Hdk as [[? ?] _]. destruct (option_first (k - k0) v) as (b & r & E & Hb); [done|].
  unfold opt_finished, from. cbn [iter_at oi_bad oi_length oi_next orb options_bytes].
  destruct (Z.eqb_spec (Z.of_nat (length ((option_bytes (k - k0) v ++ options_bytes k os) ++ payload_bytes d))) 0);
    [rewrite E in *; simpl in *; lia|].
  rewrite E. cbn [app]. rewrite byte_at_middle by done. cbn [mbind option_bind].
  by destruct (Z.eqb_spec b COAP_PAYLOAD_START).
Qed.

Lemma finished pre k0 d rest f :
  opt_finished (from pre k0 [] d rest) (iter_at pre k0 [] d f) = Some true.
Proof.
  unfold opt_finished, from. cbn [iter_at oi_bad oi_length oi_next orb options_bytes app].
  destruct d as [|x d]; [done|]. set (w := x :: d).
  assert (payload_bytes w = COAP_PAYLOAD_START :: w) as -> by done.
  destruct (Z.eqb_spec (Z.of_nat (length (COAP_PAYLOAD_START :: w))) 0); [done|].
  cbn [app]. by rewrite byte_at_middle.
Qed.

(** Without a filter each call delivers the next option. *)
Lemma option_next_spec pre k0 k v os d rest : 0 <= k0 -> options_ok k0 ((k, v) :: os) ->
  coap_option_next (from pre k0 ((k, v) :: os) d rest) (iter_at pre k0 ((k, v) :: os) d None)
  = Some (Some (Z.of_nat (length pre)), iter_at (pre ++ option_bytes (k - k0) v) k os d None).
Proof.
  intros Hk0 Hos. unfold coap_option_next. rewrite not_finished by done. cbn [mbind option_bind].
  by rewrite next_loop_step.
Qed.

Lemma option_next_end pre k0 d rest f :
  coap_option_next (from pre k0 [] d rest) (iter_at pre k0 [] d f)
  = Some (None, bad_iterator (iter_at pre k0 [] d f)).
Proof. unfold coap_option_next. by rewrite finished. Qed.

(** ** Looking for an option *)

Definition filter_of (type : Z) : list Z :=
  match coap_option_setb coap_option_filter_clear type with Some (_, f) => f | None => [] end.

(** The filter with one number set, on every number a byte holds. *)
Definition filter_table : bool :=
  forallb (fun t => forallb (fun k =>
    bool_decide (coap_option_getb (filter_of (Z.of_nat t)) (Z.of_nat k)
                 = Some (if Nat.ltb 63 k then -1 else if Nat.eqb k t then 1 else 0))) (seq 0 256)) (seq 0 64).

Lemma filter_of_spec type k : 0 <= type <= COAP_MAX_OPT -> 0 <= k < 256 ->
  coap_option_getb (filter_of type) k
  = Some (if COAP_MAX_OPT <? k then -1 else if k =? type then 1 else 0).
Proof.
  intros Ht Hk. unfold COAP_MAX_OPT in *.
  assert (filter_table = true) as Htab by (vm_compute; reflexivity).
  unfold filter_table in Htab. rewrite forallb_forall in Htab.
  specialize (Htab (Z.to_nat type)). rewrite forallb_forall in Htab.
  specialize (Htab ltac:(apply in_seq; lia) (Z.to_nat k) ltac:(apply in_seq; lia)).
  apply bool_decide_eq_true in Htab. rewrite !Z2Nat.id in Htab by lia. rewrite Htab. f_equal.
  destruct (Nat.ltb_spec 63 (Z.to_nat k)), (Z.ltb_spec 63 k); try lia.
  destruct (Nat.eqb_spec (Z.to_nat k) (Z.to_nat type)), (Z.eqb_spec k type); lia.
Qed.

Lemma setb_clear type : 0 <= type <= COAP_MAX_OPT ->
  coap_option_setb coap_option_filter_clear (u8 type) = Some (1, filter_of type).
Proof.
  intros Ht. unfold COAP_MAX_OPT in *.
  assert (forallb (fun t => bool_decide (coap_option_setb coap_option_filter_clear (u8 (Z.of_nat t))
            = Some (1, filter_of (Z.of_nat t)))) (seq 0 64) = true) as Htab by (vm_compute; reflexivity).
  rewrite forallb_forall in Htab. specialize (Htab (Z.to_nat type) ltac:(apply in_seq; lia)).
  apply bool_decide_eq_true in Htab. by rewrite Z2Nat.id in Htab by lia.
Qed.

(** The offset and the value of the first option numbered [type]. *)
Fixpoint find_option (type : Z) (pre : list Z) (k0 : Z) (os : list hcoap_option)
    : option (Z * Z * list Z) :=
  match os with
  | [] => None
  | (k, v) :: os =>
      if k =? type then Some (Z.of_nat (length pre), k0, v)
      else find_option type (pre ++ option_bytes (k - k0) v) k os
  end.

(** No larger number has the same low byte. *)
Definition no_alias (type : Z) (os : list hcoap_option) : Prop :=
  Forall (fun o => COAP_MAX_OPT < o.1 -> o.1 mod 256 <> type) os.

Lemma filter_of_any type k : 0 <= type <= COAP_MAX_OPT -> 0 <= k ->
  coap_option_getb (filter_of type) k
  = Some (if COAP_MAX_OPT <? k mod 256 then -1 else if k mod 256 =? type then 1 else 0).
Proof.
  intros Ht Hk. rewrite <- filter_of_spec by (try done; apply Z.mod_pos_bound; lia).
  unfold coap_option_getb, bits_getb, wrap. change (2 ^ 8) with 256. by rewrite Zmod_mod.
Qed.

Lemma find_option_later type pre k0 os : options_ok k0 os -> type < k0 -> find_option type pre k0 os = None.
Proof.
  revert pre k0. induction os as [|[k v] os IH]; intros pre k0 Hos Ht; [done|].
  destruct Hos as ([[? _] _] & _ & _ & Hos). simpl. destruct (Z.eqb_spec k type); [lia|].
  apply IH; [done|lia].
Qed.

Lemma next_loop_filtered type pre k0 os d rest fuel : 0 <= type <= COAP_MAX_OPT -> 0 <= k0 ->
  options_ok k0 os -> no_alias type os -> (length os < fuel)%nat ->
  exists oi, next_loop (from pre k0 os d rest) (iter_at pre k0 os d (Some (filter_of type))) fuel
    = Some ((fun x => x.1.1) <$> find_option type pre k0 os, oi).
Proof.
  intros Ht. revert pre k0 fuel. induction os as [|[k v] os IH]; intros pre k0 [|fuel] Hk0 Hos Hs Hf;
    try (simpl in Hf; lia).
  - rewrite next_loop_end. by eexists.
  - apply Forall_cons in Hs as [Hk Hs]. simpl in Hk.
    rewrite next_loop_step by done. cbv zeta. pose proof Hos as ([[? ?] _] & _ & _ & Hos').
    rewrite filter_of_any by lia. cbn [mbind option_bind find_option].
    destruct (Z.ltb_spec COAP_MAX_OPT (k mod 256)).
    + assert (COAP_MAX_OPT < k) by (pose proof (Z.mod_le k 256); lia).
      destruct (Z.eqb_spec k type); [lia|]. rewrite find_option_later by (done || lia). by eexists.
    + destruct (Z.eqb_spec (k mod 256) type) as [Hm|Hm].
      * assert (k = type) as -> by (destruct (Z.ltb_spec COAP_MAX_OPT k); [by apply Hk in Hm|];
          unfold COAP_MAX_OPT in *; rewrite Z.mod_small in Hm; lia).
        rewrite Z.eqb_refl. by eexists.
      * destruct (Z.eqb_spec k type) as [->|]; [unfold COAP_MAX_OPT in *; rewrite Z.mod_small in Hm; lia|].
        change (0 <? 0) with false. cbv iota. rewrite <- from_step.
        apply IH; [lia|done|done|simpl in Hf; lia].
Qed.

(** What a reader finds in a message. *)
Lemma check_option_spec p type code id tok os d ty :
  stores p (message_bytes type code id tok os d) -> header_ok type 0 code id ->
  Z.of_nat (length tok) <= 8 -> options_ok 0 os -> no_alias ty os -> 0 <= ty <= COAP_MAX_OPT ->
  coap_check_option p ty
  = Some ((fun x => x.1.1) <$> find_option ty (header_bytes type (Z.of_nat (length tok)) code id ++ tok) 0 os).
Proof.
  intros [[rest E] Hl] (Ht & _) Htok Hos Hs Hty. unfold coap_check_option. rewrite setb_clear by done.
  cbn [mbind option_bind]. unfold coap_option_iterator_init2.
  set (pre := header_bytes type (Z.of_nat (length tok)) code id ++ tok).
  assert (hdr p = from pre 0 os d rest) as Eh.
  { rewrite E. unfold message_bytes, from, pre, tail_bytes. by rewrite <- !app_assoc. }
  assert (udp_token_length (hdr p) = Some (Z.of_nat (length tok))) as ->.
  { rewrite E. apply (first_byte_fields type); lia. }
  cbn [mbind option_bind]. rewrite Hl, length_message. unfold UDP_HEADER.
  destruct (Z.leb_spec (Z.of_nat (4 + length tok + length (tail_bytes os d))) (4 + Z.of_nat (length tok))).
  - pose proof (options_longer 0 os). unfold tail_bytes in *. rewrite length_app in *.
    destruct os; [|simpl in *; lia]. done.
  - match goal with |- context [coap_option_next _ ?oi] =>
      assert (oi = iter_at pre 0 os d (Some (filter_of ty))) as -> end.
    { unfold iter_at, pre, tail_bytes. rewrite length_app. f_equal; simpl; lia. }
    rewrite Eh. unfold coap_option_next. destruct os as [|[k v] os].
    + rewrite finished. done.
    + rewrite not_finished by done. cbn [mbind option_bind]. pose proof (options_longer 0 ((k, v) :: os)).
      destruct (next_loop_filtered ty pre 0 ((k, v) :: os) d rest
        (S (Z.to_nat (oi_length (iter_at pre 0 ((k, v) :: os) d (Some (filter_of ty)))))) Hty ltac:(lia) Hos Hs)
        as (oi & ->); [cbn [iter_at oi_length]; rewrite length_app; lia|]. done.
Qed.

(** ** Block options *)

Definition block_ok (b : coap_block_t) : Prop :=
  0 <= num b < 2 ^ 20 /\ 0 <= m b < 2 /\ 0 <= szx b < 8.

(** What is written for a block, in as few bytes as hold it. *)
Definition block_value (b : coap_block_t) : Z := ((num b <<< 4) ||| (m b <<< 3)) ||| szx b.
Definition block_bytes (b : coap_block_t) : list Z :=
  be (var_bytes_len (block_value b) 4) (block_value b).

Lemma block_value_eq b : block_ok b -> block_value b = num b * 16 + m b * 8 + szx b.
Proof.
  intros (Hn & Hm & Hs). unfold block_value.
  rewrite (Z.shiftl_mul_pow2 (m b)) by lia. change (2 ^ 3) with 8.
  rewrite lor_shiftl_add by (simpl; lia). change (2 ^ 4) with 16.
  rewrite (lor_add _ 3); [lia|lia| |lia]. Z.to_euclidean_division_equations. lia.
Qed.

Lemma block_value_range b : block_ok b -> 0 <= block_value b < 2 ^ 24.
Proof. intros Hb. rewrite block_value_eq by done. destruct Hb as (?&?&?). lia. Qed.

Lemma block_bytes_length b : block_ok b -> (length (block_bytes b) <= 3)%nat.
Proof.
  intros Hb. unfold block_bytes. rewrite length_be. apply var_bytes_len_least.
  by apply block_value_range.
Qed.

(** The last byte of a value, as the readers reach it. *)
Lemma opt_last_spec d v x rest : 0 <= d ->
  opt_last (option_bytes d (v ++ [x]) ++ rest) (Z.of_nat (length (v ++ [x]))) = Some x.
Proof.
  intros Hd. unfold opt_last. rewrite value_spec by done. cbn [mbind option_bind].
  unfold option_bytes. set (h := option_header _ _).
  rewrite <- !app_assoc. rewrite app_assoc. apply byte_at_middle. rewrite !length_app. simpl. lia.
Qed.

Lemma block_num_spec d v x rest n : 0 <= d -> (length v <= 3)%nat -> v = be (length v) n ->
  0 <= n < 256 ^ Z.of_nat (length v) -> 0 <= n < 2 ^ 28 -> is_byte x ->
  coap_opt_block_num (option_bytes d (v ++ [x]) ++ rest) = Some (n * 16 + x / 16).
Proof.
  intros Hd Hl Ev Hn Hn28 Hx. unfold coap_opt_block_num.
  rewrite length_spec by (rewrite ?length_app; simpl; lia). cbn [mbind option_bind].
  destruct (Z.eqb_spec (Z.of_nat (length (v ++ [x]))) 0) as [Hz|_]; [rewrite length_app in Hz; simpl in Hz; lia|].
  rewrite opt_last_spec by done. rewrite length_app in *. cbn [length] in *.
  assert (forall n', n' = n -> Some (u32 (n' <<< 4) ||| ((x &&& 0xF0) >>> 4)) = Some (n * 16 + x / 16)) as Hfin.
  { intros n' ->. rewrite Z.shiftr_land, shiftr_div by lia. change (0xf0 >>> 4) with (Z.ones 4).
    unfold is_byte in Hx. rewrite Z.land_ones, Z.mod_small by
      (try (split; [apply Z.div_pos|apply Z.div_lt_upper_bound]; simpl; lia); lia).
    change (2 ^ 4) with 16. rewrite Z.shiftl_mul_pow2, wrap_small by (simpl; lia). f_equal.
    apply (lor_add _ 4); [lia|apply Z.mod_mul; lia|].
    split; [apply Z.div_pos|apply Z.div_lt_upper_bound]; simpl; lia. }
  destruct (Z.ltb_spec 1 (Z.of_nat (length v + 1))) as [Hlt|Hle].
  - rewrite value_spec by done. cbn [mbind option_bind]. rewrite Nat2Z.id.
    unfold option_bytes. rewrite <- !app_assoc, drop_app_length.
    replace (Z.of_nat (length v + 1) - 1) with (Z.of_nat (length v)) by lia.
    rewrite Ev at 1. rewrite decode_var_be by lia. cbn [mbind option_bind]. by apply Hfin.
  - cbn [mbind option_bind]. apply Hfin. destruct v; [simpl in Hn; lia|simpl in Hle; lia].
Qed.

(** The two low fields, on every byte. *)
Lemma low_fields x : is_byte x ->
  (if x &&& 0x08 =? 0 then 0 else 1) = (x / 8) mod 2 /\ x &&& 0x07 = x mod 8.
Proof.
  intros Hx. unfold is_byte in Hx.
  assert (forallb (fun n => let x := Z.of_nat n in
    ((if x &&& 0x08 =? 0 then 0 else 1) =? (x / 8) mod 2) && (x &&& 0x07 =? x mod 8)) (seq 0 256) = true)
    as Htab by (vm_compute; reflexivity).
  rewrite forallb_forall in Htab. specialize (Htab (Z.to_nat x) ltac:(apply in_seq; lia)).
  cbv zeta in Htab. rewrite Z2Nat.id in Htab by lia. bool_to_prop. done.
Qed.

(** The fields of a block, from its value cut after the last byte. *)
Lemma block_fields b : block_ok b ->
  let x := block_value b mod 256 in
  (block_value b / 256) * 16 + x / 16 = num b /\
  (if x &&& 0x08 =? 0 then 0 else 1) = m b /\ x &&& 0x07 = szx b /\ is_byte x.
Proof.
  intros Hb x. pose proof (block_value_eq b Hb) as Ev. destruct Hb as (Hn & Hm & Hs).
  assert (is_byte x) as Hx by (apply Z.mod_pos_bound; lia).
  destruct (low_fields x Hx) as [-> ->]. unfold x in *. rewrite Ev.
  split; [|split; [|split; [|by rewrite <- Ev]]]; Z.to_euclidean_division_equations; lia.
Qed.

(** [coap_get_block] on an option that carries a block. *)
Definition read_block (opt : list Z) : ub coap_block_t :=
  len ← coap_opt_length opt;
  last ← (if len =? 0 then Some 0 else opt_last opt len);
  n ← coap_opt_block_num opt;
  Some {| num := wrap 20 n; m := if last &&& 0x08 =? 0 then 0 else 1; szx := last &&& 0x07 |}.

Lemma get_block_at p ty at_ : coap_check_option p ty = Some (Some at_) ->
  coap_get_block p ty = b ← read_block (drop (Z.to_nat at_) (hdr p)); Some (true, b).
Proof.
  intros E. unfold coap_get_block, read_block. rewrite E. cbn [mbind option_bind].
  destruct (coap_opt_length _) as [len|]; [|done]. cbn [mbind option_bind].
  destruct (if len =? 0 then _ else _) as [la|]; [|done]. cbn [mbind option_bind].
  by destruct (coap_opt_block_num _).
Qed.

Lemma read_block_spec d b rest : 0 <= d -> block_ok b ->
  read_block (option_bytes d (block_bytes b) ++ rest) = Some b.
Proof.
  intros Hd Hb. pose proof (block_bytes_length b Hb) as Hlen. pose proof (block_value_range b Hb) as Hr.
  destruct (block_fields b Hb) as (En & Em & Es & Hx). pose proof (block_value_eq b Hb) as Ev.
  unfold read_block. rewrite length_spec by lia. cbn [mbind option_bind].
  unfold block_bytes in *. pose proof (var_bytes_len_fits (block_value b) 4 ltac:(simpl; lia)) as Hfit.
  destruct (var_bytes_len (block_value b) 4) as [|k].
  - simpl in Hfit. assert (block_value b = 0) as E0 by lia. cbn [be]. cbn [length].
    change (Z.of_nat 0 =? 0) with true. cbv iota. unfold coap_opt_block_num.
    rewrite (length_spec d []) by (simpl; lia). cbn [mbind option_bind length].
    change (Z.of_nat 0 =? 0) with true. cbv iota. cbn [mbind option_bind].
    destruct b as [n mm sz]. destruct Hb as (?&?&?). simpl in *.
    assert (n = 0 /\ mm = 0 /\ sz = 0) as (-> & -> & ->) by lia. done.
  - cbn [be] in *. rewrite length_app in Hlen. simpl in Hlen. rewrite length_be in Hlen.
    destruct (Z.eqb_spec (Z.of_nat (length (be k (block_value b >>> 8) ++ [block_value b &&& 255]))) 0) as [Hz|_];
      [rewrite length_app in Hz; simpl in Hz; lia|].
    rewrite land_0xff, shiftr_div in * by lia. change (2 ^ 8) with 256 in *.
    rewrite opt_last_spec by done. cbn [mbind option_bind].
    rewrite Nat2Z.inj_succ, Z.pow_succ_r in Hfit by lia.
    assert (0 <= block_value b / 256 < 256 ^ Z.of_nat k) by
      (split; [apply Z.div_pos|apply Z.div_lt_upper_bound]; lia).
    assert (block_value b / 256 < 2 ^ 16) by (apply Z.div_lt_upper_bound; lia).
    rewrite (block_num_spec d _ _ rest (block_value b / 256)); rewrite ?length_be; try done; try lia.
    cbn [mbind option_bind]. rewrite En, Em, Es. destruct Hb as (?&?&?). rewrite wrap_small by done.
    by destruct b.
Qed.

(** The position [find_option] reports. *)
Lemma find_option_at ty pre k0 os at_ kp v rest : find_option ty pre k0 os = Some (at_, kp, v) ->
  exists pre' post, pre ++ options_bytes k0 os ++ rest = pre' ++ option_bytes (ty - kp) v ++ post /\
    at_ = Z.of_nat (length pre').
Proof.
  revert pre k0. induction os as [|[k w] os IH]; intros pre k0; [done|]. cbn [find_option options_bytes].
  destruct (Z.eqb_spec k ty) as [->|]; intros E.
  - simplify_eq. exists pre, (options_bytes ty os ++ rest). by rewrite <- app_assoc.
  - destruct (IH _ _ E) as (pre' & post & E' & ->). exists pre', post. split; [|done].
    rewrite <- E', <- !app_assoc. done.
Qed.

Lemma find_option_prev ty pre k0 os at_ kp v : options_ok k0 os -> 0 <= k0 ->
  find_option ty pre k0 os = Some (at_, kp, v) -> 0 <= ty - kp.
Proof.
  revert pre k0. induction os as [|[k w] os IH]; intros pre k0 Hos Hk0; [done|]. cbn [find_option].
  destruct Hos as ([[? _] _] & _ & _ & Hos). destruct (Z.eqb_spec k ty) as [->|]; intros E.
  - by simplify_eq.
  - by eapply IH; [| |done]; [done|lia].
Qed.

(** Reading the block option of a message. *)
Lemma get_block_spec p type code id tok os d ty :
  stores p (message_bytes type code id tok os d) -> header_ok type 0 code id ->
  Z.of_nat (length tok) <= 8 -> options_ok 0 os -> no_alias ty os -> 0 <= ty <= COAP_MAX_OPT ->
  match find_option ty (header_bytes type (Z.of_nat (length tok)) code id ++ tok) 0 os with
  | None => coap_get_block p ty = Some (false, {| num := 0; m := 0; szx := 0 |})
  | Some (_, _, v) => forall b, block_ok b -> v = block_bytes b -> coap_get_block p ty = Some (true, b)
  end.
Proof.
  intros Hst Hh Htok Hos Hs Hty. pose proof (check_option_spec _ _ _ _ _ _ _ _ Hst Hh Htok Hos Hs Hty) as Hc.
  destruct (find_option ty _ 0 os) as [[[at_ kp] v]|] eqn:E.
  - intros b Hb ->. simpl in Hc. rewrite (get_block_at _ _ _ Hc). pose proof Hst as [[rest Er] _].
    destruct (find_option_at _ _ _ _ _ _ _ (payload_bytes d ++ rest) E) as (pre' & post & Ep & ->).
    pose proof (find_option_prev _ _ _ _ _ _ _ Hos ltac:(lia) E).
    assert (hdr p = pre' ++ option_bytes (ty - kp) (block_bytes b) ++ post) as ->.
    { rewrite Er, <- Ep. unfold message_bytes, tail_bytes. by rewrite <- !app_assoc. }
    rewrite Nat2Z.id, drop_app_length, read_block_spec by done. done.
  - unfold coap_get_block. rewrite Hc. done.
Qed.
