(* ===== verification/CoapUri.v ===== *)
(** * CoapUri: URIs as CoAP options

    Models [connectivity/lib/libcoap-4.1.1/uri.c]: taking a URI apart and
    writing the segments of its path and of its query as options into a buffer.
    Pointers into the URI are offsets; the URI is a buffer that ends with its
    NUL.  [coap_new_uri], [coap_clone_uri] and [coap_hash_path] are not used by
    the stack. *)
From S2P Require Import Prelude CoapOption.

(** ** Characters *)

Definition isdigit (c : Z) : bool := (48 <=? c) && (c <=? 57).
Definition isxdigit (c : Z) : bool :=
  isdigit c || ((65 <=? c) && (c <=? 70)) || ((97 <=? c) && (c <=? 102)).
Definition tolower (c : Z) : Z := if (65 <=? c) && (c <=? 90) then c + 32 else c.
Definition is_in (s : list Z) (c : Z) : bool := existsb (Z.eqb c) s.

Definition SLASH : Z := 47.
Definition QUESTION : Z := 63.
Definition HASH : Z := 35.
Definition PERCENT : Z := 37.
Definition DOT : Z := 46.

(** ** Taking a URI apart *)

Definition COAP_DEFAULT_PORT : Z := 5683.
Definition COAP_DEFAULT_SCHEME : list Z := chars "coap".

(** A [str]: an offset and a length, NULL at first. *)
Record coap_uri_t := {
  uri_host : option (Z * Z);
  uri_port : Z;
  uri_path : option (Z * Z);
  uri_query : option (Z * Z);
}.

Definition empty_uri : coap_uri_t := {|
  uri_host := None; uri_port := COAP_DEFAULT_PORT; uri_path := None; uri_query := None |}.

(** [while (len && go ( *q)) ++q, --len]: the position and what is left. *)
Fixpoint advance_while (s : list Z) (go : Z -> bool) (q : Z) (len : nat) : ub (Z * nat) :=
  match len with
  | O => Some (q, O)
  | S n =>
      c ← byte_at s q;
      if go c then advance_while s go (q + 1) n else Some (q, len)
  end.

(** The two loops that compare with a constant: what is left of it. *)
Fixpoint skip_prefix (s : list Z) (p : Z) (len : nat) (pat : list Z) : ub (Z * nat * list Z) :=
  match pat with
  | [] => Some (p, len, [])
  | x :: pat' =>
      match len with
      | O => Some (p, O, pat)
      | S n =>
          c ← byte_at s p;
          if tolower c =? x then skip_prefix s (p + 1) n pat' else Some (p, len, pat)
      end
  end.

(** [*q = tolower ( *q)] along the host. *)
Fixpoint lower_host (s : list Z) (q : Z) (len : nat) : ub (list Z * Z * nat) :=
  match len with
  | O => Some (s, q, O)
  | S n =>
      c ← byte_at s q;
      if is_in (chars ":/?") c then Some (s, q, len)
      else s ← write_at s q [tolower c]; lower_host s (q + 1) n
  end.

Fixpoint port_value (ds : list Z) (acc : Z) : ub Z :=
  match ds with
  | [] => Some acc
  | d :: ds => x ← int_result (acc * 10); acc ← int_result (x + (d - 48)); port_value ds acc
  end.

(** From [path:]; [p] is where the query is looked for when there is no path. *)
Definition split_path_query (s : list Z) (uri : coap_uri_t) (p q : Z) (len : nat)
    : ub (Z * coap_uri_t * list Z) :=
  match len with
  | O => Some (0, uri, s)
  | S n =>
      c ← byte_at s q;
      '(uri, p, len) ←
        (if c =? SLASH then
           let p := q + 1 in
           '(q, len) ← advance_while s (fun c => negb (c =? QUESTION)) p n;
           Some (if p <? q then
                   ({| uri_host := uri_host uri; uri_port := uri_port uri;
                       uri_path := Some (p, q - p); uri_query := uri_query uri |}, q, len)
                 else (uri, p, len))
         else Some (uri, p, len));
      match len with
      | O => Some (0, uri, s)
      | S n =>
          c ← byte_at s p;
          if c =? QUESTION then
            Some (0, {| uri_host := uri_host uri; uri_port := uri_port uri;
                        uri_path := uri_path uri; uri_query := Some (p + 1, Z.of_nat n) |}, s)
          else Some (-1, uri, s)
      end
  end.

(** The port, when there is one. *)
Definition split_port (s : list Z) (uri : coap_uri_t) (p q : Z) (len : nat)
    : ub (Z * coap_uri_t * list Z) :=
  match len with
  | O => split_path_query s uri p q len
  | S n =>
      c ← byte_at s q;
      if c =? 58 then
        let p := q + 1 in
        '(q, len) ← advance_while s isdigit p n;
        if p <? q then
          ds ← read_at s p (q - p);
          v ← port_value ds 0;
          split_path_query s {| uri_host := uri_host uri; uri_port := u16 v;
            uri_path := uri_path uri; uri_query := uri_query uri |} q q len
        else split_path_query s uri p q len
      else split_path_query s uri p q len
  end.

Definition with_host (h : Z * Z) : coap_uri_t := {|
  uri_host := Some h; uri_port := COAP_DEFAULT_PORT; uri_path := None; uri_query := None |}.

(** The result, [*uri] and the string, whose host is lowered. *)
Definition coap_split_uri (s : list Z) (length : nat) : ub (Z * coap_uri_t * list Z) :=
  c ← byte_at s 0;
  if c =? SLASH then split_path_query s empty_uri 0 0 length
  else
    '(p, len, rest) ← skip_prefix s 0 length COAP_DEFAULT_SCHEME;
    if bool_decide (rest <> []) then Some (-1, empty_uri, s)
    else
      secure ← (match len with O => Some false | S _ => c ← byte_at s p; Some (tolower c =? 115) end);
      let '(p, len) := if secure : bool then (p + 1, pred len) else (p, len) in
      '(p, len, rest) ← skip_prefix s p len (chars "://");
      if bool_decide (rest <> []) then Some (-2, empty_uri, s)
      else
        bracket ← (match len with O => Some false | S _ => c ← byte_at s p; Some (c =? 91) end);
        if (bracket : bool) then
          '(q, len) ← advance_while s (fun c => negb (c =? 93)) p len;
          let p := p + 1 in
          match len with
          | O => Some (-3, empty_uri, s)
          | S n =>
              if p =? q then Some (-3, empty_uri, s)
              else split_port s (with_host (p, q - p)) p (q + 1) n
          end
        else
          '(s, q, len) ← lower_host s p len;
          if p =? q then Some (-3, empty_uri, s)
          else split_port s (with_host (p, q - p)) p q len.

(** ** Segments *)

Definition hexchar_to_dec (c : Z) : Z := if c &&& 0x40 =? 0 then c &&& 0x0F else (c &&& 0x0F) + 9.

(** [length] wraps when a segment ends in the middle of an encoding that what
    follows happens to complete; [fuel] bounds the reads. *)
Fixpoint check_segment (s : list Z) (p len n : Z) (fuel : nat) : ub Z :=
  match fuel with
  | O => None
  | S fuel =>
      if len =? 0 then Some n
      else
        c ← byte_at s p;
        if c =? PERCENT then
          if len <? 2 then Some (-1)
          else
            c1 ← byte_at s (p + 1);
            if isxdigit c1 then
              c2 ← byte_at s (p + 2);
              if isxdigit c2 then check_segment s (p + 3) (u64 (u64 (len - 2) - 1)) (n + 1) fuel
              else Some (-1)
            else Some (-1)
        else check_segment s (p + 1) (len - 1) (n + 1) fuel
  end.

(** The bytes that are written to [buf]. *)
Fixpoint decode_segment (s : list Z) (p len : Z) (fuel : nat) : ub (list Z) :=
  match fuel with
  | O => None
  | S fuel =>
      if len =? 0 then Some []
      else
        let len := len - 1 in
        c ← byte_at s p;
        if c =? PERCENT then
          c1 ← byte_at s (p + 1);
          c2 ← byte_at s (p + 2);
          r ← decode_segment s (p + 3) (u64 (len - 2)) fuel;
          Some (u8 ((hexchar_to_dec c1 <<< 4) + hexchar_to_dec c2) :: r)
        else r ← decode_segment s (p + 1) len fuel; Some (c :: r)
  end.

(** The option's size or -1, and the buffer. *)
Definition make_decoded_option (s : list Z) (p len : Z) (buf : list Z) (buflen : Z) : ub (Z * list Z) :=
  if buflen =? 0 then Some (-1, buf)
  else
    res ← check_segment s p len 0 (S (length s));
    if res <? 0 then Some (-1, buf)
    else
      '(written, buf) ← coap_opt_setheader buf buflen 0 res;
      if written <=? buflen then
        if written =? 0 then Some (-1, buf)
        else if buflen - written <? res then Some (-1, buf)
        else
          d ← decode_segment s p len (S (length s));
          buf ← write_at buf written d;
          Some (written + res, buf)
      else None.

(** ** The iterator over segments *)

Record coap_parse_iterator_t := {
  pi_n : Z;
  pi_pos : Z;
  pi_segment_length : Z;
}.

(** [coap_parse_next] with its separators and delimiters: the segment, or NULL
    at the end. *)
Definition coap_parse_next (s separator delim : list Z) (pi : coap_parse_iterator_t)
    : ub (option coap_parse_iterator_t) :=
  let n := pi_n pi - pi_segment_length pi in
  let pos := pi_pos pi + pi_segment_length pi in
  if n =? 0 then Some None
  else
    c ← byte_at s pos;
    if is_in delim c then Some None
    else
      (* strchr also finds the NUL *)
      let sep c := is_in separator c || (c =? 0) in
      let '(pos, n) := if sep c then (pos + 1, n - 1) else (pos, n) in
      '(p, _) ← advance_while s (fun c => negb (sep c) && negb (is_in delim c)) pos (Z.to_nat n);
      if n =? 0 then Some None
      else Some (Some {| pi_n := n; pi_pos := pos; pi_segment_length := p - pos |}).

(** [struct cnt_str]: where the next option goes, the room left and the number
    of options. *)
Record cnt_str := { cs_pos : Z; cs_length : Z; cs_n : Z; cs_buf : list Z }.

Definition write_option (s : list Z) (p len : Z) (state : cnt_str) : ub cnt_str :=
  two ← read_at s p (Z.min len 2);
  if bool_decide (two = replicate (Z.to_nat (Z.min len 2)) DOT) then Some state
  else
    let at_ := Z.to_nat (cs_pos state) in
    '(res, b) ← make_decoded_option s p len (drop at_ (cs_buf state)) (cs_length state);
    let buf := take at_ (cs_buf state) ++ b in
    Some (if 0 <? res then
      {| cs_pos := cs_pos state + res; cs_length := cs_length state - res; cs_n := cs_n state + 1;
         cs_buf := buf |}
    else {| cs_pos := cs_pos state; cs_length := cs_length state; cs_n := cs_n state; cs_buf := buf |}).

(** Each round passes at least one character. *)
Fixpoint coap_split_path_impl (s separator delim : list Z) (pi : coap_parse_iterator_t)
    (state : cnt_str) (fuel : nat) : ub cnt_str :=
  match fuel with
  | O => None
  | S fuel =>
      r ← coap_parse_next s separator delim pi;
      match r with
      | None => Some state
      | Some pi =>
          state ← write_option s (pi_pos pi) (pi_segment_length pi) state;
          coap_split_path_impl s separator delim pi state fuel
      end
  end.

Definition OC_QUERY_SEPARATOR : list Z := chars "&;".

Definition split_impl (s separator delim : list Z) (p len : Z) (buf : list Z) (buflen : Z) : ub cnt_str :=
  coap_split_path_impl s separator delim {| pi_n := len; pi_pos := p; pi_segment_length := 0 |}
    {| cs_pos := 0; cs_length := buflen; cs_n := 0; cs_buf := buf |} (Z.to_nat len + 2).

(** The number of options, [*buflen] afterwards and the buffer.  [*buflen] is
    what was used here, and what is left in [coap_split_query]. *)
Definition coap_split_path (s : list Z) (p len : Z) (buf : list Z) (buflen : Z)
    : ub (Z * Z * list Z) :=
  tmp ← split_impl s [SLASH] [QUESTION; HASH] p len buf buflen;
  Some (cs_n tmp, buflen - cs_length tmp, cs_buf tmp).

Definition coap_split_query (s : list Z) (p len : Z) (buf : list Z) (buflen : Z)
    : ub (Z * Z * list Z) :=
  tmp ← split_impl s OC_QUERY_SEPARATOR [HASH] p len buf buflen;
  Some (cs_n tmp, cs_length tmp, cs_buf tmp).

(** ** Segments that stand for themselves *)

#[local] Arguments byte_at : simpl never.
#[local] Arguments wrap : simpl never.
#[local] Arguments option_bytes : simpl never.

(** Not empty, no dots in front, nothing to decode, no separator. *)
Record plain (separator delim seg : list Z) : Prop := {
  plain_nonempty : seg <> [];
  plain_dots : take 2 seg <> replicate (Nat.min (length seg) 2) DOT;
  plain_chars : Forall (fun c => c <> 0 /\ c <> PERCENT /\ is_in separator c = false /\
                                 is_in delim c = false) seg;
  plain_length : vlength_ok (Z.of_nat (length seg));
}.

Lemma advance_while_all s go pre mid post :
  s = pre ++ mid ++ post -> Forall (fun c => go c = true) mid ->
  forall n, (length mid <= n)%nat ->
  (n = length mid \/ exists c r, post = c :: r /\ go c = false) ->
  advance_while s go (Z.of_nat (length pre)) n
  = Some (Z.of_nat (length (pre ++ mid)), (n - length mid)%nat).
Proof.
  revert pre. induction mid as [|c mid IH]; intros pre -> Hall n Hn Hstop.
  - rewrite app_nil_r, Nat.sub_0_r. destruct n as [|n]; [done|]. cbn [advance_while app].
    destruct Hstop as [Hs|(c & r & -> & Hc)]; [done|]. rewrite byte_at_middle by done.
    cbn [mbind option_bind]. by rewrite Hc.
  - apply Forall_cons in Hall as [Hc Hall]. destruct n as [|n]; [simpl in Hn; lia|].
    cbn [advance_while app]. rewrite byte_at_middle by done. cbn [mbind option_bind]. rewrite Hc.
    replace (Z.of_nat (length pre) + 1) with (Z.of_nat (length (pre ++ [c])))
      by (rewrite length_app; simpl; lia).
    rewrite (IH (pre ++ [c])).
    + by rewrite <- app_assoc.
    + by rewrite <- app_assoc.
    + done.
    + simpl in Hn. lia.
    + destruct Hstop as [Hs|Hs]; [left; simpl in Hs; lia|by right].
Qed.

Lemma check_segment_plain pre seg post n fuel : Forall (fun c => c <> PERCENT) seg ->
  (length seg < fuel)%nat ->
  check_segment (pre ++ seg ++ post) (Z.of_nat (length pre)) (Z.of_nat (length seg)) n fuel
  = Some (n + Z.of_nat (length seg)).
Proof.
  revert pre n fuel. induction seg as [|c seg IH]; intros pre n [|fuel] Hp Hf; try (simpl in Hf; lia).
  - simpl. f_equal. lia.
  - apply Forall_cons in Hp as [Hc Hp]. cbn [check_segment app].
    destruct (Z.eqb_spec (Z.of_nat (length (c :: seg))) 0) as [Hz|_]; [simpl in Hz; lia|].
    rewrite (byte_at_middle _ _ _ (Z.of_nat (length pre))) by done. cbn [mbind option_bind].
    destruct (Z.eqb_spec c PERCENT); [done|].
    replace (Z.of_nat (length pre) + 1) with (Z.of_nat (length (pre ++ [c])))
      by (rewrite length_app; simpl; lia).
    replace (Z.of_nat (length (c :: seg)) - 1) with (Z.of_nat (length seg)) by (simpl; lia).
    change (c :: seg ++ post) with ([c] ++ seg ++ post). rewrite (app_assoc pre).
    rewrite IH by (try done; simpl in Hf; lia). f_equal. simpl. lia.
Qed.

Lemma decode_segment_plain pre seg post fuel : Forall (fun c => c <> PERCENT) seg ->
  (length seg < fuel)%nat ->
  decode_segment (pre ++ seg ++ post) (Z.of_nat (length pre)) (Z.of_nat (length seg)) fuel = Some seg.
Proof.
  revert pre fuel. induction seg as [|c seg IH]; intros pre [|fuel] Hp Hf; try (simpl in Hf; lia); [done|].
  apply Forall_cons in Hp as [Hc Hp]. cbn [decode_segment app].
  destruct (Z.eqb_spec (Z.of_nat (length (c :: seg))) 0) as [Hz|_]; [simpl in Hz; lia|].
  rewrite (byte_at_middle _ _ _ (Z.of_nat (length pre))) by done. cbn [mbind option_bind].
  destruct (Z.eqb_spec c PERCENT); [done|].
  replace (Z.of_nat (length pre) + 1) with (Z.of_nat (length (pre ++ [c])))
    by (rewrite length_app; simpl; lia).
  replace (Z.of_nat (length (c :: seg)) - 1) with (Z.of_nat (length seg)) by (simpl; lia).
  change (c :: seg ++ post) with ([c] ++ seg ++ post). rewrite (app_assoc pre).
  by rewrite IH by (try done; simpl in Hf; lia).
Qed.

Lemma make_decoded_option_plain pre seg post buf buflen :
  Forall (fun c => c <> PERCENT) seg -> vlength_ok (Z.of_nat (length seg)) ->
  Z.of_nat (length (option_bytes 0 seg)) <= buflen -> buflen <= Z.of_nat (length buf) ->
  make_decoded_option (pre ++ seg ++ post) (Z.of_nat (length pre)) (Z.of_nat (length seg)) buf buflen
  = Some (Z.of_nat (length (option_bytes 0 seg)),
          option_bytes 0 seg ++ drop (length (option_bytes 0 seg)) buf).
Proof.
  intros Hp Hv Hb Hbuf. unfold option_bytes in *. rewrite length_app in *.
  set (h := option_header 0 (Z.of_nat (length seg))) in *.
  assert (0 < length h)%nat by (unfold h; rewrite length_option_header; lia).
  unfold make_decoded_option. destruct (Z.eqb_spec buflen 0); [lia|].
  rewrite check_segment_plain by (try done; rewrite !length_app; lia). cbn [mbind option_bind].
  destruct (Z.ltb_spec (0 + Z.of_nat (length seg)) 0); [lia|]. rewrite Z.add_0_l.
  rewrite setheader_spec by first [done | fold h; lia | split; unfold MAX_DELTA; lia]. fold h.
  cbn [mbind option_bind]. destruct (Z.leb_spec (Z.of_nat (length h)) buflen); [|lia].
  destruct (Z.eqb_spec (Z.of_nat (length h)) 0); [lia|].
  destruct (Z.ltb_spec (buflen - Z.of_nat (length h)) (Z.of_nat (length seg))); [lia|].
  rewrite decode_segment_plain by (try done; rewrite !length_app; lia). cbn [mbind option_bind].
  rewrite write_at_after by (rewrite ?length_drop; lia). cbn [mbind option_bind].
  rewrite drop_drop, <- app_assoc. apply f_equal, f_equal2; [lia|done].
Qed.

(** Segments with a separator between them, and before the first if [lead]. *)
Fixpoint joined (sep : Z) (lead : bool) (segs : list (list Z)) : list Z :=
  match segs with
  | [] => []
  | x :: segs => (if lead then [sep] else []) ++ x ++ joined sep true segs
  end.

Definition segment_bytes (segs : list (list Z)) : list Z := concat (option_bytes 0 <$> segs).

Section Split.
Context (separator delim : list Z) (sep : Z).
Hypothesis sep_in : is_in separator sep = true.
Hypothesis sep_not : is_in delim sep = false.

Lemma parse_next_plain lead x segs pre post pi : plain separator delim x ->
  pi_pos pi + pi_segment_length pi = Z.of_nat (length pre) ->
  pi_n pi - pi_segment_length pi = Z.of_nat (length (joined sep lead (x :: segs))) ->
  let lead_ := if lead then [sep] else [] in
  coap_parse_next (pre ++ joined sep lead (x :: segs) ++ post) separator delim pi
  = Some (Some {| pi_n := Z.of_nat (length (x ++ joined sep true segs));
                  pi_pos := Z.of_nat (length (pre ++ lead_));
                  pi_segment_length := Z.of_nat (length x) |}).
Proof.
  intros [Hne _ Hc _] Hpos Hn lead_. unfold coap_parse_next. cbv zeta. rewrite Hpos, Hn. cbn [joined]. fold lead_.
  destruct x as [|c x]; [done|]. pose proof Hc as [(Hc0 & _ & Hcs & Hcd) _]%Forall_cons.
  destruct (Z.eqb_spec (Z.of_nat (length (lead_ ++ (c :: x) ++ joined sep true segs))) 0) as [Hz|_];
    [rewrite !length_app in Hz; simpl in Hz; lia|].
  set (y := if lead then sep else c).
  assert (exists r, lead_ ++ (c :: x) ++ joined sep true segs = y :: r) as [r Er]
    by (unfold lead_, y; destruct lead; eexists; reflexivity).
  rewrite Er at 1. rewrite <- (app_comm_cons r post y), byte_at_middle by done. cbn [mbind option_bind].
  assert (is_in delim y = false) as -> by (unfold y; by destruct lead).
  assert (is_in separator y || (y =? 0) = lead) as ->.
  { unfold y. destruct lead; [by rewrite sep_in|]. rewrite Hcs. by destruct (Z.eqb_spec c 0). }
  set (w := c :: x) in *.
  assert ((if lead then (Z.of_nat (length pre) + 1, Z.of_nat (length (lead_ ++ w ++ joined sep true segs)) - 1)
           else (Z.of_nat (length pre), Z.of_nat (length (lead_ ++ w ++ joined sep true segs))))
          = (Z.of_nat (length (pre ++ lead_)), Z.of_nat (length (w ++ joined sep true segs)))) as ->.
  { unfold lead_. destruct lead; rewrite !length_app; simpl; apply f_equal2; lia. }
  rewrite Nat2Z.id.
  rewrite (advance_while_all _ _ (pre ++ lead_) w (joined sep true segs ++ post)).
  - cbn [mbind option_bind].
    destruct (Z.eqb_spec (Z.of_nat (length (w ++ joined sep true segs))) 0) as [Hz|_]; [simpl in Hz; lia|].
    do 3 f_equal. rewrite (length_app (pre ++ lead_)). lia.
  - by rewrite <- !app_assoc.
  - eapply Forall_impl; [exact Hc|]. intros z (Hz0 & _ & -> & ->). by destruct (Z.eqb_spec z 0).
  - rewrite length_app. lia.
  - destruct segs as [|z segs]; [left; by rewrite app_nil_r|right]. do 2 eexists.
    split; [reflexivity|]. by rewrite sep_in.
Qed.

Lemma write_option_plain pre x post done rest n : plain separator delim x ->
  Z.of_nat (length (option_bytes 0 x)) <= Z.of_nat (length rest) ->
  write_option (pre ++ x ++ post) (Z.of_nat (length pre)) (Z.of_nat (length x))
    {| cs_pos := Z.of_nat (length done); cs_length := Z.of_nat (length rest); cs_n := n;
       cs_buf := done ++ rest |}
  = Some {| cs_pos := Z.of_nat (length (done ++ option_bytes 0 x));
            cs_length := Z.of_nat (length (drop (length (option_bytes 0 x)) rest)); cs_n := n + 1;
            cs_buf := (done ++ option_bytes 0 x) ++ drop (length (option_bytes 0 x)) rest |}.
Proof.
  intros [Hne Hd Hc Hl] Hr. unfold write_option. cbv zeta. cbn [cs_pos cs_buf cs_length cs_n].
  rewrite read_at_ok by (rewrite ?length_app; lia). cbn [mbind option_bind].
  rewrite !Nat2Z.id, !drop_app_length, take_app_length.
  replace (Z.to_nat (Z.min (Z.of_nat (length x)) 2)) with (Nat.min (length x) 2) by lia.
  rewrite take_app_le by lia. rewrite bool_decide_false.
  2:{ intros E. apply Hd. rewrite <- E. destruct x as [|? [|? ?]]; simpl; rewrite ?Nat.min_0_r; done. }
  rewrite make_decoded_option_plain; try done; try lia.
  2:{ eapply Forall_impl; [exact Hc|]. by intros z (_ & ? & _). }
  cbn [mbind option_bind]. assert (0 < length (option_bytes 0 x))%nat.
  { unfold option_bytes. rewrite length_app, length_option_header. lia. }
  destruct (Z.ltb_spec 0 (Z.of_nat (length (option_bytes 0 x)))); [|lia].
  rewrite <- app_assoc, length_app, length_drop. do 2 f_equal; lia.
Qed.

Lemma split_path_plain lead segs pre post pi done rest n fuel :
  Forall (plain separator delim) segs -> (length segs < fuel)%nat ->
  pi_pos pi + pi_segment_length pi = Z.of_nat (length pre) ->
  pi_n pi - pi_segment_length pi = Z.of_nat (length (joined sep lead segs)) ->
  (length (segment_bytes segs) <= length rest)%nat ->
  coap_split_path_impl (pre ++ joined sep lead segs ++ post) separator delim pi
    {| cs_pos := Z.of_nat (length done); cs_length := Z.of_nat (length rest); cs_n := n;
       cs_buf := done ++ rest |} fuel
  = Some {| cs_pos := Z.of_nat (length (done ++ segment_bytes segs));
            cs_length := Z.of_nat (length (drop (length (segment_bytes segs)) rest));
            cs_n := n + Z.of_nat (length segs);
            cs_buf := (done ++ segment_bytes segs) ++ drop (length (segment_bytes segs)) rest |}.
Proof.
  revert lead pre pi done rest n fuel. induction segs as [|x segs IH];
    intros lead pre pi done rest n [|fuel] Hp Hf Hpos Hn Hroom; try (simpl in Hf; lia).
  - cbn [coap_split_path_impl joined segment_bytes]. unfold coap_parse_next. cbv zeta. rewrite Hn.
    cbn [mbind option_bind]. change (segment_bytes []) with (@nil Z). rewrite app_nil_r. simpl.
    do 2 f_equal. lia.
  - apply Forall_cons in Hp as [Hx Hp]. cbn [coap_split_path_impl].
    rewrite parse_next_plain by done. cbn [mbind option_bind pi_pos pi_segment_length pi_n].
    cbn [joined]. set (lead_ := if lead then [sep] else []).
    assert (segment_bytes (x :: segs) = option_bytes 0 x ++ segment_bytes segs) as Eb by done.
    rewrite Eb, length_app in Hroom.
    replace (pre ++ (lead_ ++ x ++ joined sep true segs) ++ post)
      with ((pre ++ lead_) ++ x ++ joined sep true segs ++ post) by by rewrite <- !app_assoc.
    rewrite write_option_plain by (done || lia). cbn [mbind option_bind].
    rewrite (app_assoc _ x), (IH true ((pre ++ lead_) ++ x)); try done.
    + rewrite Eb, drop_drop, <- length_app, <- (app_assoc done). cbn [length]. do 2 f_equal. lia.
    + simpl in Hf. lia.
    + cbn [pi_pos pi_segment_length]. rewrite (length_app _ x). lia.
    + cbn [pi_n pi_segment_length]. rewrite length_app. lia.
    + rewrite length_drop. lia.
Qed.

Lemma joined_longer lead segs : Forall (plain separator delim) segs ->
  (length segs <= length (joined sep lead segs))%nat.
Proof.
  intros Hp. revert lead. induction Hp as [|x segs Hx Hp IH]; intros lead; [done|]. cbn [joined].
  rewrite !length_app. pose proof (plain_nonempty _ _ _ Hx). specialize (IH true).
  destruct x; [done|]. simpl. lia.
Qed.

Lemma split_impl_plain lead segs pre post buf : Forall (plain separator delim) segs ->
  (length (segment_bytes segs) <= length buf)%nat ->
  split_impl (pre ++ joined sep lead segs ++ post) separator delim (Z.of_nat (length pre))
    (Z.of_nat (length (joined sep lead segs))) buf (Z.of_nat (length buf))
  = Some {| cs_pos := Z.of_nat (length (segment_bytes segs));
            cs_length := Z.of_nat (length buf) - Z.of_nat (length (segment_bytes segs));
            cs_n := Z.of_nat (length segs);
            cs_buf := segment_bytes segs ++ drop (length (segment_bytes segs)) buf |}.
Proof.
  intros Hp Hroom. pose proof (joined_longer lead segs Hp). unfold split_impl.
  rewrite (split_path_plain lead segs pre post _ [] buf) by
    (try done; cbn [pi_pos pi_segment_length pi_n]; lia).
  cbn [app]. rewrite length_drop. do 2 f_equal; lia.
Qed.
End Split.

(** ** A URI with the fixed host of the stack *)

Definition COAP_URI_HEADER : list Z := chars "coap://[::]/".

Lemma split_uri_header rest n :
  coap_split_uri (COAP_URI_HEADER ++ rest) (12 + n)
  = split_path_query (COAP_URI_HEADER ++ rest) (with_host (8, 2)) 8 11 (S n).
Proof. reflexivity. Qed.

(** What [*uri] refers to: the path behind the header and the query behind
    that. *)
Definition uri_of (path : list Z) (query : option (list Z)) : coap_uri_t := {|
  uri_host := Some (8, 2); uri_port := COAP_DEFAULT_PORT;
  uri_path := if decide (path = []) then None else Some (12, Z.of_nat (length path));
  uri_query := match query with
               | None => None
               | Some q => Some (13 + Z.of_nat (length path), Z.of_nat (length q))
               end |}.

Definition query_string (query : option (list Z)) : list Z :=
  match query with None => [] | Some q => QUESTION :: q end.

Lemma split_uri_spec path query post : Forall (fun c => c <> QUESTION) path ->
  let text := path ++ query_string query in
  let s := COAP_URI_HEADER ++ text ++ post in
  coap_split_uri s (length (COAP_URI_HEADER ++ text)) = Some (0, uri_of path query, s).
Proof.
  intros Hp text s. assert (length (COAP_URI_HEADER ++ text) = (12 + length text)%nat) as ->
    by (by rewrite length_app). unfold s. rewrite split_uri_header. fold s.
  cbn [split_path_query]. change (byte_at s 11) with (Some SLASH). cbn [mbind option_bind].
  change (SLASH =? SLASH) with true. cbv iota. cbv zeta.
  change (11 + 1) with (Z.of_nat (length COAP_URI_HEADER)).
  rewrite (advance_while_all _ _ COAP_URI_HEADER path (query_string query ++ post)).
  2:{ unfold s, text. by rewrite <- !app_assoc. }
  2:{ eapply Forall_impl; [exact Hp|]. intros c Hc. by destruct (Z.eqb_spec c QUESTION). }
  2:{ unfold text. rewrite length_app. lia. }
  2:{ destruct query as [q|]; [right; do 2 eexists; split; reflexivity|left].
      unfold text. by rewrite app_nil_r. }
  cbn [mbind option_bind]. change (Z.of_nat (length COAP_URI_HEADER)) with 12.
  assert (Z.of_nat (length (COAP_URI_HEADER ++ path)) = 12 + Z.of_nat (length path)) as ->
    by (rewrite length_app; simpl; lia).
  replace (length text - length path)%nat with (length (query_string query))
    by (unfold text; rewrite length_app; lia).
  unfold uri_of. destruct query as [q|]; cbn [query_string length].
  - assert (byte_at s (12 + Z.of_nat (length path)) = Some QUESTION) as Eb.
    { unfold s, text. rewrite <- app_assoc, app_assoc. cbn [query_string app]. apply byte_at_middle.
      rewrite length_app. simpl. lia. }
    destruct path as [|x path].
    + change (Z.of_nat (length [])) with 0 in *. rewrite Z.add_0_r in *. change (12 <? 12) with false.
      cbv iota. cbn [mbind option_bind]. rewrite Eb. done.
    + destruct (Z.ltb_spec 12 (12 + Z.of_nat (length (x :: path)))); [|simpl in *; lia].
      cbn [mbind option_bind]. rewrite Eb. cbn [mbind option_bind].
      change (QUESTION =? QUESTION) with true. cbv iota. rewrite decide_False by done.
      set (a := Z.of_nat (length (x :: path))). replace (12 + a - 12) with a by lia.
      by replace (12 + a + 1) with (13 + a) by lia.
  - destruct path as [|x path]; [done|].
    destruct (Z.ltb_spec 12 (12 + Z.of_nat (length (x :: path)))); [|simpl in *; lia].
    cbn [mbind option_bind]. rewrite decide_False by done. set (a := Z.of_nat (length (x :: path))).
    by replace (12 + a - 12) with a by lia.
Qed.
