(* ===== verification/CaMessage.v ===== *)
(** * CaMessage: the messages of the connectivity layer

    The request, response and error messages of [api/cacommon.h], the unit
    [CAData_t] of [inc/camessagehandler.h] in which they pass through the
    queues, and the deep copies of
    [connectivity/common/src/caremotehandler.c].  A field that is a pointer is
    an option: a buffer is its bytes, a C string its characters.  The length
    that goes with a buffer is a field of its own, as in the code; a copy that
    reads more than there is is undefined.

    The destroy functions free what a message owns and are left out, as freeing
    a value that is not used again has no effect here. *)
From S2P Require Import Prelude Effects CaCommon.

(** ** Types *)

Definition CA_MAX_HEADER_OPTION_DATA_LENGTH : Z := 1024.
Definition CA_MAX_URI_LENGTH : Z := 512.
Definition CA_MAX_TOKEN_LEN : Z := 8.

(** [CAResponseResult_t] values besides those of [CaCommon]. *)
Definition CA_CREATED : Z := 201.
Definition CA_DELETED : Z := 202.
Definition CA_VALID : Z := 203.
Definition CA_CHANGED : Z := 204.
Definition CA_CONTENT : Z := 205.
Definition CA_CONTINUE : Z := 231.
Definition CA_BAD_REQ : Z := 400.
Definition CA_BAD_OPT : Z := 402.
Definition CA_FORBIDDEN_REQ : Z := 403.
Definition CA_METHOD_NOT_ALLOWED : Z := 405.
Definition CA_NOT_ACCEPTABLE : Z := 406.
Definition CA_REQUEST_ENTITY_INCOMPLETE : Z := 408.
Definition CA_REQUEST_ENTITY_TOO_LARGE : Z := 413.
Definition CA_BAD_GATEWAY : Z := 502.
Definition CA_SERVICE_UNAVAILABLE : Z := 503.
Definition CA_RETRANSMIT_TIMEOUT : Z := 504.
Definition CA_PROXY_NOT_SUPPORTED : Z := 505.

Inductive CAPayloadFormat_t :=
| CA_FORMAT_UNDEFINED
| CA_FORMAT_TEXT_PLAIN
| CA_FORMAT_APPLICATION_LINK_FORMAT
| CA_FORMAT_APPLICATION_XML
| CA_FORMAT_APPLICATION_OCTET_STREAM
| CA_FORMAT_APPLICATION_RDF_XML
| CA_FORMAT_APPLICATION_EXI
| CA_FORMAT_APPLICATION_JSON
| CA_FORMAT_APPLICATION_CBOR
| CA_FORMAT_APPLICATION_VND_OCF_CBOR
| CA_FORMAT_UNSUPPORTED.
#[export] Instance CAPayloadFormat_eq_dec : EqDecision CAPayloadFormat_t.
Proof. solve_decision. Defined.

(** [CATransportProtocolID_t]; 0 is no value of the enumeration. *)
Definition CA_COAP_ID : Z := 2.

(** [optionData] is the whole array, [CA_MAX_HEADER_OPTION_DATA_LENGTH] bytes. *)
Record CAHeaderOption_t := {
  protocolID : Z;
  optionID : Z;
  optionLength : Z;
  optionData : list Z;
}.
#[export] Instance CAHeaderOption_eq_dec : EqDecision CAHeaderOption_t.
Proof. solve_decision. Defined.

Record CARemoteId_t := { id_length : Z; rid : list Z }.
#[export] Instance CARemoteId_eq_dec : EqDecision CARemoteId_t.
Proof. solve_decision. Defined.

(** Built without [ROUTING_GATEWAY].  [dataType] is [None] while it is 0, which
    is no value of the enumeration. *)
Record CAInfo_t := {
  type : CAMessageType_t;
  messageId : Z;
  token : option (list Z);
  tokenLength : Z;
  options : option (list CAHeaderOption_t);
  numOptions : Z;
  payload : option (list Z);
  payloadSize : Z;
  payloadFormat : CAPayloadFormat_t;
  acceptFormat : CAPayloadFormat_t;
  payloadVersion : Z;
  acceptVersion : Z;
  resourceUri : option (list Z);
  identity : CARemoteId_t;
  info_dataType : option CADataType_t;
}.
#[export] Instance CAInfo_eq_dec : EqDecision CAInfo_t.
Proof. solve_decision. Defined.

Record CARequestInfo_t := { method : Z; req_info : CAInfo_t; req_isMulticast : bool }.
Record CAResponseInfo_t := { result : Z; res_info : CAInfo_t; res_isMulticast : bool }.
Record CAErrorInfo_t := { err_result : CAResult_t; err_info : CAInfo_t }.
#[export] Instance CARequestInfo_eq_dec : EqDecision CARequestInfo_t.
Proof. solve_decision. Defined.
#[export] Instance CAResponseInfo_eq_dec : EqDecision CAResponseInfo_t.
Proof. solve_decision. Defined.
#[export] Instance CAErrorInfo_eq_dec : EqDecision CAErrorInfo_t.
Proof. solve_decision. Defined.

Inductive CASendDataType_t := SEND_TYPE_MULTICAST | SEND_TYPE_UNICAST.
#[export] Instance CASendDataType_eq_dec : EqDecision CASendDataType_t.
Proof. solve_decision. Defined.

Record CAData_t := {
  sendType : CASendDataType_t;
  remoteEndpoint : option CAEndpoint_t;
  requestInfo : option CARequestInfo_t;
  responseInfo : option CAResponseInfo_t;
  errorInfo : option CAErrorInfo_t;
  dataType : option CADataType_t;
}.
#[export] Instance CAData_eq_dec : EqDecision CAData_t.
Proof. solve_decision. Defined.

(** ** What zeroed memory holds *)

Definition CA_MAX_ENDPOINT_IDENTITY_LEN : Z := 37.
Definition no_identity : CARemoteId_t :=
  {| id_length := 0; rid := replicate (Z.to_nat CA_MAX_ENDPOINT_IDENTITY_LEN) 0 |}.

Definition zero_info : CAInfo_t := {|
  type := CA_MSG_CONFIRM; messageId := 0; token := None; tokenLength := 0; options := None;
  numOptions := 0; payload := None; payloadSize := 0; payloadFormat := CA_FORMAT_UNDEFINED;
  acceptFormat := CA_FORMAT_UNDEFINED; payloadVersion := 0; acceptVersion := 0;
  resourceUri := None; identity := no_identity; info_dataType := None |}.

Definition zero_option : CAHeaderOption_t := {|
  protocolID := 0; optionID := 0; optionLength := 0;
  optionData := replicate (Z.to_nat CA_MAX_HEADER_OPTION_DATA_LENGTH) 0 |}.

Definition zero_data : CAData_t := {|
  sendType := SEND_TYPE_MULTICAST; remoteEndpoint := None; requestInfo := None;
  responseInfo := None; errorInfo := None; dataType := None |}.

(** ** Setters for the fields the components change *)

Definition set_type (v : CAMessageType_t) (i : CAInfo_t) : CAInfo_t := {|
  type := v; messageId := messageId i; token := token i; tokenLength := tokenLength i;
  options := options i; numOptions := numOptions i; payload := payload i;
  payloadSize := payloadSize i; payloadFormat := payloadFormat i; acceptFormat := acceptFormat i;
  payloadVersion := payloadVersion i; acceptVersion := acceptVersion i;
  resourceUri := resourceUri i; identity := identity i; info_dataType := info_dataType i |}.

Definition set_messageId (v : Z) (i : CAInfo_t) : CAInfo_t := {|
  type := type i; messageId := v; token := token i; tokenLength := tokenLength i;
  options := options i; numOptions := numOptions i; payload := payload i;
  payloadSize := payloadSize i; payloadFormat := payloadFormat i; acceptFormat := acceptFormat i;
  payloadVersion := payloadVersion i; acceptVersion := acceptVersion i;
  resourceUri := resourceUri i; identity := identity i; info_dataType := info_dataType i |}.

Definition set_token (t : option (list Z)) (n : Z) (i : CAInfo_t) : CAInfo_t := {|
  type := type i; messageId := messageId i; token := t; tokenLength := n;
  options := options i; numOptions := numOptions i; payload := payload i;
  payloadSize := payloadSize i; payloadFormat := payloadFormat i; acceptFormat := acceptFormat i;
  payloadVersion := payloadVersion i; acceptVersion := acceptVersion i;
  resourceUri := resourceUri i; identity := identity i; info_dataType := info_dataType i |}.

Definition set_payload (p : option (list Z)) (n : Z) (i : CAInfo_t) : CAInfo_t := {|
  type := type i; messageId := messageId i; token := token i; tokenLength := tokenLength i;
  options := options i; numOptions := numOptions i; payload := p;
  payloadSize := n; payloadFormat := payloadFormat i; acceptFormat := acceptFormat i;
  payloadVersion := payloadVersion i; acceptVersion := acceptVersion i;
  resourceUri := resourceUri i; identity := identity i; info_dataType := info_dataType i |}.

Definition set_resourceUri (u : option (list Z)) (i : CAInfo_t) : CAInfo_t := {|
  type := type i; messageId := messageId i; token := token i; tokenLength := tokenLength i;
  options := options i; numOptions := numOptions i; payload := payload i;
  payloadSize := payloadSize i; payloadFormat := payloadFormat i; acceptFormat := acceptFormat i;
  payloadVersion := payloadVersion i; acceptVersion := acceptVersion i;
  resourceUri := u; identity := identity i; info_dataType := info_dataType i |}.

Definition set_identity (v : CARemoteId_t) (i : CAInfo_t) : CAInfo_t := {|
  type := type i; messageId := messageId i; token := token i; tokenLength := tokenLength i;
  options := options i; numOptions := numOptions i; payload := payload i;
  payloadSize := payloadSize i; payloadFormat := payloadFormat i; acceptFormat := acceptFormat i;
  payloadVersion := payloadVersion i; acceptVersion := acceptVersion i;
  resourceUri := resourceUri i; identity := v; info_dataType := info_dataType i |}.

Definition set_req_info (f : CAInfo_t -> CAInfo_t) (r : CARequestInfo_t) : CARequestInfo_t := {|
  method := method r; req_info := f (req_info r); req_isMulticast := req_isMulticast r |}.
Definition set_res_info (f : CAInfo_t -> CAInfo_t) (r : CAResponseInfo_t) : CAResponseInfo_t := {|
  result := result r; res_info := f (res_info r); res_isMulticast := res_isMulticast r |}.
Definition set_result (v : Z) (r : CAResponseInfo_t) : CAResponseInfo_t := {|
  result := v; res_info := res_info r; res_isMulticast := res_isMulticast r |}.

Definition set_requestInfo (r : option CARequestInfo_t) (d : CAData_t) : CAData_t := {|
  sendType := sendType d; remoteEndpoint := remoteEndpoint d; requestInfo := r;
  responseInfo := responseInfo d; errorInfo := errorInfo d; dataType := dataType d |}.
Definition set_responseInfo (r : option CAResponseInfo_t) (d : CAData_t) : CAData_t := {|
  sendType := sendType d; remoteEndpoint := remoteEndpoint d; requestInfo := requestInfo d;
  responseInfo := r; errorInfo := errorInfo d; dataType := dataType d |}.
Definition set_remoteEndpoint (e : option CAEndpoint_t) (d : CAData_t) : CAData_t := {|
  sendType := sendType d; remoteEndpoint := e; requestInfo := requestInfo d;
  responseInfo := responseInfo d; errorInfo := errorInfo d; dataType := dataType d |}.

(** ** caremotehandler.c *)

Section Clone.
Context {S : Type} `{HasAllocs S}.

Definition CACloneEndpoint (rep : option CAEndpoint_t) : M S (option CAEndpoint_t) :=
  match rep with
  | None => mret None
  | Some e => ok ← alloc; mret (if (ok : bool) then Some e else None)
  end.

(** A field that is copied when it is set and not empty: the copy and its
    length, or [None] when there is no memory. *)
Definition clone_field {A} (b : option (list A)) (len : Z) : M S (option (option (list A) * Z)) :=
  match b with
  | Some b =>
      if 0 <? len then
        ok ← alloc;
        if (ok : bool) then c ← lift (read_at b 0 len); mret (Some (Some c, len)) else mret None
      else mret (Some (None, 0))
  | None => mret (Some (None, 0))
  end.

Definition clone_string (s : option (list Z)) : M S (option (option (list Z))) :=
  match s with
  | Some s => ok ← alloc; mret (if (ok : bool) then Some (Some s) else None)
  | None => mret (Some None)
  end.

(** [None] for [CA_MEMORY_ALLOC_FAILED], where the clone is destroyed;
    [dataType] stays zero. *)
Definition CACloneInfo (info : CAInfo_t) : M S (option CAInfo_t) :=
  t ← clone_field (token info) (tokenLength info);
  match t with
  | None => mret None
  | Some (t, tlen) =>
      o ← clone_field (options info) (numOptions info);
      match o with
      | None => mret None
      | Some (o, olen) =>
          p ← clone_field (payload info) (payloadSize info);
          match p with
          | None => mret None
          | Some (p, plen) =>
              u ← clone_string (resourceUri info);
              match u with
              | None => mret None
              | Some u =>
                  mret (Some {|
                    type := type info; messageId := messageId info; token := t;
                    tokenLength := tlen; options := o; numOptions := olen; payload := p;
                    payloadSize := plen; payloadFormat := payloadFormat info;
                    acceptFormat := acceptFormat info; payloadVersion := payloadVersion info;
                    acceptVersion := acceptVersion info; resourceUri := u;
                    identity := identity info; info_dataType := None |})
              end
          end
      end
  end.

Definition CACloneRequestInfo (rep : option CARequestInfo_t) : M S (option CARequestInfo_t) :=
  match rep with
  | None => mret None
  | Some r =>
      if negb (existsb (Z.eqb (method r)) [CA_GET; CA_POST; CA_PUT; CA_DELETE]) then mret None
      else
        ok ← alloc;
        if (ok : bool) then
          i ← CACloneInfo (req_info r);
          mret (i ← i; Some {| method := method r; req_info := i;
                               req_isMulticast := req_isMulticast r |})
        else mret None
  end.

Definition response_results : list Z :=
  [CA_EMPTY; CA_CREATED; CA_DELETED; CA_VALID; CA_CHANGED; CA_CONTENT; CA_CONTINUE; CA_BAD_REQ;
   CA_UNAUTHORIZED_REQ; CA_BAD_OPT; CA_FORBIDDEN_REQ; CA_NOT_FOUND; CA_METHOD_NOT_ALLOWED;
   CA_NOT_ACCEPTABLE; CA_REQUEST_ENTITY_INCOMPLETE; CA_REQUEST_ENTITY_TOO_LARGE;
   CA_INTERNAL_SERVER_ERROR; CA_BAD_GATEWAY; CA_SERVICE_UNAVAILABLE; CA_RETRANSMIT_TIMEOUT;
   CA_PROXY_NOT_SUPPORTED].

Definition CACloneResponseInfo (rep : option CAResponseInfo_t) : M S (option CAResponseInfo_t) :=
  match rep with
  | None => mret None
  | Some r =>
      if negb (existsb (Z.eqb (result r)) response_results) then mret None
      else
        ok ← alloc;
        if (ok : bool) then
          i ← CACloneInfo (res_info r);
          mret (i ← i; Some {| result := result r; res_info := i;
                               res_isMulticast := res_isMulticast r |})
        else mret None
  end.

(** [cablockwisetransfer.c]: only one of the two messages is copied, the other
    would be shared; none of the callers has both. *)
Definition CACloneCAData (data : CAData_t) : M S (option CAData_t) :=
  ok ← alloc;
  if (ok : bool) then
    clone ← (match requestInfo data with
             | Some r => r ← CACloneRequestInfo (Some r); mret (set_requestInfo r data)
             | None =>
                 match responseInfo data with
                 | Some r => r ← CACloneResponseInfo (Some r); mret (set_responseInfo r data)
                 | None => mret data
                 end
             end : M S CAData_t);
    (match remoteEndpoint data with
     | Some e => e ← CACloneEndpoint (Some e); mret (Some (set_remoteEndpoint e clone))
     | None => mret (Some clone)
     end : M S (option CAData_t))
  else mret None.
End Clone.

(** ** What a copy is *)

Definition copied {A} (b : option (list A)) (len : Z) : option (list A) * Z :=
  match b with
  | Some b => if 0 <? len then (Some (take (Z.to_nat len) b), len) else (None, 0)
  | None => (None, 0)
  end.

Definition field_ok {A} (b : option (list A)) (len : Z) : Prop :=
  match b with Some b => len <= Z.of_nat (length b) | None => True end.

Definition copy_info (i : CAInfo_t) : CAInfo_t := {|
  type := type i; messageId := messageId i;
  token := (copied (token i) (tokenLength i)).1;
  tokenLength := (copied (token i) (tokenLength i)).2;
  options := (copied (options i) (numOptions i)).1;
  numOptions := (copied (options i) (numOptions i)).2;
  payload := (copied (payload i) (payloadSize i)).1;
  payloadSize := (copied (payload i) (payloadSize i)).2;
  payloadFormat := payloadFormat i; acceptFormat := acceptFormat i;
  payloadVersion := payloadVersion i; acceptVersion := acceptVersion i;
  resourceUri := resourceUri i; identity := identity i; info_dataType := None |}.

(** The buffers are as long as the lengths that go with them say. *)
Definition info_ok (i : CAInfo_t) : Prop :=
  field_ok (token i) (tokenLength i) /\ field_ok (options i) (numOptions i) /\
  field_ok (payload i) (payloadSize i).

Definition method_ok (c : Z) : Prop := c ∈ [CA_GET; CA_POST; CA_PUT; CA_DELETE].
Definition result_ok (c : Z) : Prop := c ∈ response_results.

Definition copy_request (r : CARequestInfo_t) : CARequestInfo_t := set_req_info copy_info r.
Definition copy_response (r : CAResponseInfo_t) : CAResponseInfo_t := set_res_info copy_info r.

Definition copy_data (d : CAData_t) : CAData_t :=
  match requestInfo d with
  | Some r => set_requestInfo (Some (copy_request r)) d
  | None => set_responseInfo (copy_response <$> responseInfo d) d
  end.

Definition data_ok (d : CAData_t) : Prop :=
  match requestInfo d with
  | Some r => method_ok (method r) /\ info_ok (req_info r)
  | None =>
      match responseInfo d with
      | Some r => result_ok (result r) /\ info_ok (res_info r)
      | None => True
      end
  end.

Section CloneSpec.
Context {S : Type} `{HasAllocs S}.

(** The copy, or [None]; without failures the copy. *)
Abbreviation copies m c := (allocates (S:=S) m (fun r => r = None \/ r = Some c) (fun r => r = Some c)).

Lemma clone_field_spec {A} (b : option (list A)) len : field_ok b len ->
  copies (clone_field b len) (copied b len).
Proof.
  intros Hb. unfold clone_field, copied. destruct b as [b|]; [|apply allocates_ret; auto].
  destruct (Z.ltb_spec 0 len); [|apply allocates_ret; auto].
  apply allocates_if; [|apply allocates_ret; auto]. simpl in Hb.
  eapply allocates_lift; [apply read_at_ok; lia|]. apply allocates_ret; auto.
Qed.

Lemma clone_string_spec s : copies (clone_string s) s.
Proof.
  unfold clone_string. destruct s; [|apply allocates_ret; auto].
  apply allocates_if; apply allocates_ret; auto.
Qed.

(** One copy after another: a failure of one is a failure of the whole. *)
Lemma copies_step {A B} (m : M S (option A)) (c : A) (k : option A -> M S (option B)) (c' : B) :
  copies m c -> k None = mret None -> copies (k (Some c)) c' -> copies (m ≫= k) c'.
Proof.
  intros Hm Hn Hk. eapply allocates_bind; [exact Hm|]. intros a [->| ->].
  - rewrite Hn. apply allocates_ret; [by left|done].
  - eapply allocates_weaken; [exact Hk|done|auto].
Qed.

Lemma CACloneInfo_copies i : info_ok i -> copies (CACloneInfo i) (copy_info i).
Proof.
  intros (Ht & Ho & Hp). unfold CACloneInfo.
  eapply copies_step; [by apply clone_field_spec|done|]. rewrite (surjective_pairing (copied (token i) _)).
  eapply copies_step; [by apply clone_field_spec|done|]. rewrite (surjective_pairing (copied (options i) _)).
  eapply copies_step; [by apply clone_field_spec|done|]. rewrite (surjective_pairing (copied (payload i) _)).
  eapply copies_step; [by apply clone_string_spec|done|].
  apply allocates_ret; auto.
Qed.

Lemma existsb_eqb c l : existsb (Z.eqb c) l = bool_decide (c ∈ l).
Proof.
  induction l as [|x l IH]; [done|]. simpl. rewrite IH.
  destruct (Z.eqb_spec c x) as [->|].
  - simpl. symmetry. apply bool_decide_eq_true. by left.
  - simpl. apply bool_decide_ext. rewrite elem_of_cons. naive_solver.
Qed.

Lemma CACloneRequestInfo_copies r : method_ok (method r) -> info_ok (req_info r) ->
  copies (CACloneRequestInfo (Some r)) (copy_request r).
Proof.
  intros Hm Hi. unfold CACloneRequestInfo. rewrite existsb_eqb, bool_decide_eq_true_2 by done. cbn [negb].
  apply allocates_if; [|apply allocates_ret; auto].
  eapply copies_step; [by apply CACloneInfo_copies|done|]. apply allocates_ret; auto.
Qed.

Lemma CACloneResponseInfo_copies r : result_ok (result r) -> info_ok (res_info r) ->
  copies (CACloneResponseInfo (Some r)) (copy_response r).
Proof.
  intros Hm Hi. unfold CACloneResponseInfo. rewrite existsb_eqb, bool_decide_eq_true_2 by done. cbn [negb].
  apply allocates_if; [|apply allocates_ret; auto].
  eapply copies_step; [by apply CACloneInfo_copies|done|]. apply allocates_ret; auto.
Qed.

(** What a clone may lack when memory ran out. *)
Definition partial_copy (d c : CAData_t) : Prop :=
  sendType c = sendType d /\ errorInfo c = errorInfo d /\ dataType c = dataType d /\
  (remoteEndpoint c = remoteEndpoint d \/ remoteEndpoint c = None) /\
  (requestInfo c = requestInfo (copy_data d) \/ requestInfo c = None) /\
  (responseInfo c = responseInfo (copy_data d) \/ responseInfo c = None).

Lemma CACloneEndpoint_copies e : copies (CACloneEndpoint (Some e)) e.
Proof. apply allocates_if; apply allocates_ret; auto. Qed.

(** A step that keeps what it could not copy as NULL. *)
Lemma copies_or_null {A B} (m : M S (option A)) (c : A) (k : option A -> M S B) (Q R : B -> Prop) :
  copies m c -> allocates (k (Some c)) Q R -> allocates (k None) Q (fun _ => True) ->
  allocates (m ≫= k) Q R.
Proof.
  intros Hm Hs Hn. eapply allocates_bind; [exact Hm|]. intros a [->| ->].
  - eapply allocates_weaken; [exact Hn|done|done].
  - eapply allocates_weaken; [exact Hs|done|auto].
Qed.

Lemma clone_endpoint_part (d c : CAData_t) :
  partial_copy d c -> remoteEndpoint c = remoteEndpoint d ->
  allocates (match remoteEndpoint d with
             | Some e => e ← CACloneEndpoint (Some e); mret (Some (set_remoteEndpoint e c))
             | None => mret (Some c)
             end : M S (option CAData_t))
    (fun r => r = None \/ exists c', r = Some c' /\ partial_copy d c')
    (fun r => r = Some c).
Proof.
  intros (H1 & H2 & H3 & H4 & H5 & H6) He. destruct (remoteEndpoint d) as [e|] eqn:Ed.
  - eapply copies_or_null; [apply CACloneEndpoint_copies|..]; apply allocates_ret.
    + right. eexists. split; [done|]. repeat split; simpl; try done. by left.
    + f_equal. destruct c; simpl in *; by subst.
    + right. eexists. split; [done|]. repeat split; simpl; try done. by right.
    + done.
  - apply allocates_ret; [|done]. right. exists c. split; [done|]. repeat split; try done. rewrite Ed. auto.
Qed.

Lemma CACloneCAData_copies d : data_ok d ->
  allocates (CACloneCAData d) (fun r => r = None \/ exists c, r = Some c /\ partial_copy d c)
    (fun r => r = Some (copy_data d)).
Proof.
  intros Hd. unfold CACloneCAData. apply allocates_if; [|apply allocates_ret; auto].
  unfold data_ok, copy_data in *.
  eapply (allocates_bind _ _ (fun c => partial_copy d c /\ remoteEndpoint c = remoteEndpoint d)
           (fun c => c = copy_data d)).
  - unfold copy_data. destruct (requestInfo d) as [r|] eqn:Er.
    + destruct Hd. eapply copies_or_null; [by apply CACloneRequestInfo_copies|..]; apply allocates_ret; try done.
      all: split; [|done]; unfold partial_copy, copy_data; rewrite Er; simpl; tauto.
    + destruct (responseInfo d) as [r|] eqn:Es.
      * destruct Hd. eapply copies_or_null; [by apply CACloneResponseInfo_copies|..]; apply allocates_ret; try done.
        all: split; [|done]; unfold partial_copy, copy_data; rewrite Er, Es; simpl; tauto.
      * apply allocates_ret.
        -- split; [|done]. unfold partial_copy, copy_data. rewrite Er, Es. simpl. tauto.
        -- destruct d; simpl in *; by subst.
  - intros c [Hc He]. eapply allocates_weaken; [by apply clone_endpoint_part|done|].
    intros a _ -> ->. done.
Qed.
End CloneSpec.
