(* ===== verification/ProtocolMessage.v ===== *)
(** * ProtocolMessage: the fixed header of a CoAP message

    Models the accessors of
    [resource/csdk/connectivity/src/caprotocolmessage.c] that read the first
    four bytes of a packet through libcoap's [coap_hdr_t], as a little-endian
    target lays its bit fields out: token length in the low half of the first
    byte, then two bits of type and two of version, the code, and the message
    id as it is in memory.  A packet is the bytes of its buffer and the size the
    caller passes. *)
From S2P Require Import Prelude CaCommon CoapPdu.

Definition CA_PDU_MIN_SIZE : Z := 4.

Definition message_type (t : Z) : CAMessageType_t :=
  if t =? 0 then CA_MSG_CONFIRM else if t =? 1 then CA_MSG_NONCONFIRM
  else if t =? 2 then CA_MSG_ACKNOWLEDGE else CA_MSG_RESET.

Definition CAGetMessageTypeFromPduBinaryData (pdu : option (list Z)) (size : Z)
    : ub CAMessageType_t :=
  match pdu with
  | None => Some CA_MSG_NONCONFIRM
  | Some b =>
      if size <? CA_PDU_MIN_SIZE then Some CA_MSG_NONCONFIRM
      else b0 ← byte_at b 0; Some (message_type ((b0 >>> 4) &&& 3))
  end.

Definition CAGetMessageIdFromPduBinaryData (pdu : option (list Z)) (size : Z) : ub Z :=
  match pdu with
  | None => Some 0
  | Some b =>
      if size <? CA_PDU_MIN_SIZE then Some 0
      else b2 ← byte_at b 2; b3 ← byte_at b 3; Some (b2 ||| (b3 <<< 8))
  end.

(** The stack's number for a code byte: 205 for 2.05. *)
Definition CA_RESPONSE_CLASS (c : Z) : Z := (c >>> 5) * 100.
Definition CA_RESPONSE_CODE (c : Z) : Z :=
  CA_RESPONSE_CLASS c + (c - COAP_RESPONSE_CODE (CA_RESPONSE_CLASS c)).

Definition CAGetCodeFromPduBinaryData (pdu : option (list Z)) (size : Z) : ub Z :=
  match pdu with
  | None => Some CA_NOT_FOUND
  | Some b =>
      if size <? CA_PDU_MIN_SIZE then Some CA_NOT_FOUND
      else b1 ← byte_at b 1; Some (CA_RESPONSE_CODE b1)
  end.

(** ** A message taken apart *)

Definition type_code (t : CAMessageType_t) : Z :=
  match t with
  | CA_MSG_CONFIRM => 0 | CA_MSG_NONCONFIRM => 1 | CA_MSG_ACKNOWLEDGE => 2 | CA_MSG_RESET => 3
  end.

(** The first four bytes of a version 1 message. *)
Definition coap_header (t : CAMessageType_t) (tkl code id : Z) : list Z :=
  [64 + type_code t * 16 + tkl; code; id mod 256; id / 256].

(** The codes the accessor maps to [CA_EMPTY], checked on every byte. *)
Lemma code_empty c : is_byte c -> (CA_RESPONSE_CODE c =? CA_EMPTY) = (c =? 0).
Proof.
  intros Hc. assert (H : forallb (fun c => eqb (CA_RESPONSE_CODE c =? CA_EMPTY) (c =? 0))
    (seqZ 0 256) = true) by (vm_compute; reflexivity).
  rewrite forallb_forall in H. apply eqb_prop, H, list_elem_of_In, elem_of_seqZ.
  unfold is_byte in Hc. lia.
Qed.

Lemma coap_header_fields t tkl code id rest size :
  0 <= tkl < 16 -> is_byte code -> 0 <= id < 2 ^ 16 -> CA_PDU_MIN_SIZE <= size ->
  let pdu := Some (coap_header t tkl code id ++ rest) in
  CAGetMessageTypeFromPduBinaryData pdu size = Some t /\
  CAGetMessageIdFromPduBinaryData pdu size = Some id /\
  CAGetCodeFromPduBinaryData pdu size = Some (CA_RESPONSE_CODE code).
Proof.
  intros Ht Hc Hi Hs pdu. unfold CAGetMessageTypeFromPduBinaryData,
    CAGetMessageIdFromPduBinaryData, CAGetCodeFromPduBinaryData, pdu, coap_header.
  rewrite (proj2 (Z.ltb_ge _ _)) by done. cbn [app]. unfold byte_at. simpl.
  split; [|split; [|done]].
  - assert (E : ((64 + type_code t * 16 + tkl) >>> 4) &&& 3 = type_code t).
    { rewrite (land_ones_mod _ 2), shiftr_div by (done || lia).
      destruct t; simpl; Z.div_mod_to_equations; lia. }
    rewrite E. by destruct t.
  - f_equal. rewrite Z.lor_comm, lor_shiftl_add by (try lia; Z.div_mod_to_equations; lia).
    Z.div_mod_to_equations; lia.
Qed.
