(* ===== verification/CoapMessage.v ===== *)
(** * CoapMessage: from a message of the stack to a CoAP message

    Models the sending half of
    [connectivity/src/caprotocolmessage.c]: the options a request or response
    asks for are collected in a list sorted by number (libcoap's
    [coap_list.c]), and the header, token, options and payload are written into
    a [coap_pdu_t].  Built with [WITH_BWT] and without [WITH_TCP], as for IP:
    the options and the payload of a message are added by the block-wise
    transfer, except over BLE.

    [coap_list_t] is a list of nodes in which [None] is a node that has been
    freed and is still linked: reading it is undefined. *)
From S2P Require Import Prelude Effects CaCommon CoapOption CoapPdu CoapUri CaMessage ProtocolMessage.

(** ** Option numbers *)

Definition COAP_OPTION_IF_MATCH : Z := 1.
Definition COAP_OPTION_URI_HOST : Z := 3.
Definition COAP_OPTION_ETAG : Z := 4.
Definition COAP_OPTION_IF_NONE_MATCH : Z := 5.
Definition COAP_OPTION_OBSERVE : Z := 6.
Definition COAP_OPTION_URI_PORT : Z := 7.
Definition COAP_OPTION_LOCATION_PATH : Z := 8.
Definition COAP_OPTION_URI_PATH : Z := 11.
Definition COAP_OPTION_CONTENT_FORMAT : Z := 12.
Definition COAP_OPTION_MAXAGE : Z := 14.
Definition COAP_OPTION_URI_QUERY : Z := 15.
Definition COAP_OPTION_ACCEPT : Z := 17.
Definition COAP_OPTION_LOCATION_QUERY : Z := 20.
Definition COAP_OPTION_PROXY_URI : Z := 35.
Definition COAP_OPTION_PROXY_SCHEME : Z := 39.
Definition CA_OPTION_ACCEPT_VERSION : Z := 2049.
Definition CA_OPTION_CONTENT_VERSION : Z := 2053.

Definition COAP_MEDIATYPE_APPLICATION_CBOR : Z := 60.
Definition COAP_MEDIATYPE_APPLICATION_VND_OCF_CBOR : Z := 10000.

(** ** Option definitions *)

Inductive option_kind := opaque_kind | string_kind | empty_kind | uint_kind.
Record coap_option_def_t := { def_key : Z; def_type : option_kind; def_min : Z; def_max : Z }.

Definition coap_option_def : list coap_option_def_t := [
  {| def_key := COAP_OPTION_IF_MATCH; def_type := opaque_kind; def_min := 0; def_max := 8 |};
  {| def_key := COAP_OPTION_URI_HOST; def_type := string_kind; def_min := 1; def_max := 255 |};
  {| def_key := COAP_OPTION_ETAG; def_type := opaque_kind; def_min := 1; def_max := 8 |};
  {| def_key := COAP_OPTION_IF_NONE_MATCH; def_type := empty_kind; def_min := 0; def_max := 0 |};
  {| def_key := COAP_OPTION_URI_PORT; def_type := uint_kind; def_min := 0; def_max := 2 |};
  {| def_key := COAP_OPTION_LOCATION_PATH; def_type := string_kind; def_min := 0; def_max := 255 |};
  {| def_key := COAP_OPTION_URI_PATH; def_type := string_kind; def_min := 0; def_max := 255 |};
  {| def_key := COAP_OPTION_CONTENT_FORMAT; def_type := uint_kind; def_min := 0; def_max := 2 |};
  {| def_key := COAP_OPTION_MAXAGE; def_type := uint_kind; def_min := 0; def_max := 4 |};
  {| def_key := COAP_OPTION_URI_QUERY; def_type := string_kind; def_min := 1; def_max := 255 |};
  {| def_key := COAP_OPTION_ACCEPT; def_type := uint_kind; def_min := 0; def_max := 2 |};
  {| def_key := COAP_OPTION_LOCATION_QUERY; def_type := string_kind; def_min := 0; def_max := 255 |};
  {| def_key := COAP_OPTION_PROXY_URI; def_type := string_kind; def_min := 1; def_max := 1034 |};
  {| def_key := COAP_OPTION_PROXY_SCHEME; def_type := string_kind; def_min := 1; def_max := 255 |};
  {| def_key := COAP_OPTION_SIZE1; def_type := uint_kind; def_min := 0; def_max := 4 |};
  {| def_key := COAP_OPTION_SIZE2; def_type := uint_kind; def_min := 0; def_max := 4 |};
  {| def_key := COAP_OPTION_OBSERVE; def_type := uint_kind; def_min := 0; def_max := 3 |};
  {| def_key := COAP_OPTION_BLOCK2; def_type := uint_kind; def_min := 0; def_max := 3 |};
  {| def_key := COAP_OPTION_BLOCK1; def_type := uint_kind; def_min := 0; def_max := 3 |} ].

Definition coap_opt_def (key : Z) : option coap_option_def_t :=
  if COAP_MAX_OPT <? key then None else find (fun d => key =? def_key d) coap_option_def.

Definition coap_is_var_bytes (def : coap_option_def_t) : bool :=
  match def_type def with uint_kind => true | _ => false end.

(** The [max] of an option that holds an integer. *)
Definition var_bytes_max (key : Z) : option Z :=
  d ← coap_opt_def key; if coap_is_var_bytes d then Some (def_max d) else None.

(** ** The list of options *)

Abbreviation coap_list_t := (list (option hcoap_option)).

Definition CAOrderOpts (a b : hcoap_option) : Z :=
  if fst a <? fst b then -1 else if fst a =? fst b then 1 else 0.

(** [coap_insert] with [CAOrderOpts]. *)
Fixpoint insert_node (queue : coap_list_t) (node : hcoap_option) : ub coap_list_t :=
  match queue with
  | [] => Some [Some node]
  | None :: _ => None
  | Some q :: queue' =>
      if CAOrderOpts node q <? 0 then Some (Some node :: queue)
      else rest ← insert_node queue' node; Some (Some q :: rest)
  end.

Definition coap_insert (queue : coap_list_t) (node : option hcoap_option) : ub (Z * coap_list_t) :=
  match node with
  | None => Some (0, queue)
  | Some node => queue ← insert_node queue node; Some (1, queue)
  end.

(** [coap_delete] of the node with this number that was inserted last, which
    is the last of them, without unlinking it. *)
Fixpoint free_last (key : Z) (queue : coap_list_t) : coap_list_t :=
  match queue with
  | [] => []
  | Some q :: queue' =>
      if (fst q =? key) && negb (existsb (fun n => match n with Some n => fst n =? key | None => false end) queue')
      then None :: queue' else Some q :: free_last key queue'
  | None :: queue' => None :: free_last key queue'
  end.

Section Alloc.
Context {St : Type} `{HasAllocs St}.

Definition CACreateNewOptionNode (key length : Z) (data : list Z) : M St (option hcoap_option) :=
  ok ← alloc;
  if negb ok then mret None
  else
    value ← lift (match var_bytes_max key with
                  | Some max =>
                      let '(data, len) := if max <? length then (drop (Z.to_nat (length - max)) data, max)
                                          else (data, length) in
                      v ← coap_decode_var_bytes data len;
                      '(n, buf) ← coap_encode_var_bytes (replicate (Z.to_nat (length + 1)) 0) v;
                      read_at buf 0 n
                  | None => read_at data 0 length
                  end);
    ok ← alloc;
    mret (if (ok : bool) then Some (key, value) else None).

(** A new node at its place: what [coap_insert] returns. *)
Definition insert_new (optlist : coap_list_t) (key length : Z) (data : list Z) : M St (Z * coap_list_t) :=
  node ← CACreateNewOptionNode key length data; lift (coap_insert optlist node).

(** ** Options of a URI *)

Definition CA_ENCODE_BUFFER_SIZE : nat := 4.

(** [while (res--)]: the options in [buf] become nodes. *)
Fixpoint insert_segments (target : Z) (buf : list Z) (pBuf used : Z) (optlist : coap_list_t) (res : nat)
    : M St (CAResult_t * coap_list_t) :=
  match res with
  | O => mret (CA_STATUS_OK, optlist)
  | S res =>
      let opt := drop (Z.to_nat pBuf) buf in
      len ← lift (coap_opt_length opt);
      value ← lift (coap_opt_value opt);
      '(ret, optlist) ← (match value with
                         | None => mret (0, optlist)
                         | Some v => insert_new optlist target len (drop (Z.to_nat v) opt)
                         end : M St (Z * coap_list_t));
      if ret <=? 0 then mret (CA_STATUS_INVALID_PARAM, optlist)
      else
        optSize ← lift (coap_opt_size opt);
        if used <? pBuf + optSize then undefined
        else insert_segments target buf (pBuf + optSize) used optlist res
  end.

(** [str] is the URI and [(off, length)] the part; the assertions hold or
    abort. *)
Definition CAParseUriPartial (str : list Z) (off length target : Z) (optlist : coap_list_t)
    : M St (CAResult_t * coap_list_t) :=
  if negb (target =? COAP_OPTION_URI_PATH) && negb (target =? COAP_OPTION_URI_QUERY)
  then mret (CA_NOT_SUPPORTED, optlist)
  else if length =? 0 then mret (CA_STATUS_FAILED, optlist)
  else
    let uriBuffer := replicate (Z.to_nat CA_MAX_URI_LENGTH) 0 in
    '(res, unusedBufferSize, buf) ← lift
      (if target =? COAP_OPTION_URI_PATH then coap_split_path str off length uriBuffer CA_MAX_URI_LENGTH
       else coap_split_query str off length uriBuffer CA_MAX_URI_LENGTH);
    if 0 <? res then
      if unusedBufferSize <? CA_MAX_URI_LENGTH then
        insert_segments target buf 0 (CA_MAX_URI_LENGTH - unusedBufferSize) optlist (Z.to_nat res)
      else undefined
    else mret (CA_STATUS_FAILED, optlist).

(** A part that is present and not empty. *)
Definition parse_part (str : list Z) (part : option (Z * Z)) (target : Z) (optlist : coap_list_t)
    : M St (CAResult_t * coap_list_t) :=
  match part with
  | Some (off, length) =>
      if length =? 0 then mret (CA_STATUS_OK, optlist) else CAParseUriPartial str off length target optlist
  | None => mret (CA_STATUS_OK, optlist)
  end.

(** The result of [coap_split_uri] is not looked at. *)
Definition CAParseURI (uriInfo : list Z) (optlist : coap_list_t) : M St (CAResult_t * coap_list_t) :=
  '(_, uri, uriInfo) ← lift (coap_split_uri uriInfo (pred (length uriInfo)));
  '(ret, optlist) ←
    (if uri_port uri =? COAP_DEFAULT_PORT then mret (1, optlist)
     else
       '(len, portbuf) ← lift (coap_encode_var_bytes (replicate CA_ENCODE_BUFFER_SIZE 0) (uri_port uri));
       insert_new optlist COAP_OPTION_URI_PORT len portbuf : M St (Z * coap_list_t));
  if ret <=? 0 then mret (CA_STATUS_INVALID_PARAM, optlist)
  else
    '(r, optlist) ← parse_part uriInfo (uri_path uri) COAP_OPTION_URI_PATH optlist;
    if decide (r = CA_STATUS_OK) then parse_part uriInfo (uri_query uri) COAP_OPTION_URI_QUERY optlist
    else mret (r, optlist).

(** ** Header options *)

(** When the version node cannot be made the format node is deleted though it
    is in the list already. *)
Definition CAParsePayloadFormatHeadOption (formatOption : Z) (format : CAPayloadFormat_t)
    (versionOption version : Z) (optlist : coap_list_t) : M St (CAResult_t * coap_list_t) :=
  let encode (media : Z) : M St (option hcoap_option) :=
    '(len, encodeBuf) ← lift (coap_encode_var_bytes (replicate CA_ENCODE_BUFFER_SIZE 0) media);
    CACreateNewOptionNode formatOption len encodeBuf in
  encodeNode ← match format with
               | CA_FORMAT_APPLICATION_CBOR => encode COAP_MEDIATYPE_APPLICATION_CBOR
               | CA_FORMAT_APPLICATION_VND_OCF_CBOR => encode COAP_MEDIATYPE_APPLICATION_VND_OCF_CBOR
               | _ => mret None
               end;
  match encodeNode with
  | None => mret (CA_STATUS_INVALID_PARAM, optlist)
  | Some encodeNode =>
      '(ret, optlist) ← lift (coap_insert optlist (Some encodeNode));
      if ret <=? 0 then mret (CA_STATUS_INVALID_PARAM, optlist)
      else if ((versionOption =? CA_OPTION_ACCEPT_VERSION) || (versionOption =? CA_OPTION_CONTENT_VERSION))
              && bool_decide (format = CA_FORMAT_APPLICATION_VND_OCF_CBOR) then
        '(len, versionBuf) ← lift (coap_encode_var_bytes (replicate CA_ENCODE_BUFFER_SIZE 0) version);
        versionNode ← CACreateNewOptionNode versionOption len versionBuf;
        match versionNode with
        | None => mret (CA_STATUS_INVALID_PARAM, free_last formatOption optlist)
        | Some versionNode =>
            '(ret, optlist) ← lift (coap_insert optlist (Some versionNode));
            mret (if ret <=? 0 then CA_STATUS_INVALID_PARAM else CA_STATUS_OK, optlist)
        end
      else mret (CA_STATUS_OK, optlist)
  end.

(** Options that are not copied: those of the URI, and those written from
    fields of the message. *)
Definition skipped_option (id : Z) : bool :=
  existsb (Z.eqb id) [COAP_OPTION_URI_PATH; COAP_OPTION_URI_QUERY; COAP_OPTION_ACCEPT;
                      CA_OPTION_ACCEPT_VERSION; COAP_OPTION_CONTENT_FORMAT; CA_OPTION_CONTENT_VERSION].

Fixpoint insert_options (os : list CAHeaderOption_t) (optlist : coap_list_t)
    : M St (CAResult_t * coap_list_t) :=
  match os with
  | [] => mret (CA_STATUS_OK, optlist)
  | o :: os =>
      if skipped_option (optionID o) then insert_options os optlist
      else
        '(ret, optlist) ← insert_new optlist (optionID o) (optionLength o) (optionData o);
        if ret <=? 0 then mret (CA_STATUS_INVALID_PARAM, optlist) else insert_options os optlist
  end.

(** The results of writing the two formats are not looked at. *)
Definition CAParseHeadOption (info : CAInfo_t) (optlist : coap_list_t) : M St (CAResult_t * coap_list_t) :=
  '(r, optlist) ←
    (match options info with
     | None => mret (if 0 <? numOptions info then CA_STATUS_FAILED else CA_STATUS_OK, optlist)
     | Some os => os ← lift (read_at os 0 (numOptions info)); insert_options os optlist
     end : M St (CAResult_t * coap_list_t));
  if decide (r = CA_STATUS_OK) then
    '(_, optlist) ←
      (if decide (payloadFormat info = CA_FORMAT_UNDEFINED) then mret (CA_STATUS_OK, optlist)
       else CAParsePayloadFormatHeadOption COAP_OPTION_CONTENT_FORMAT (payloadFormat info)
              CA_OPTION_CONTENT_VERSION (payloadVersion info) optlist);
    '(_, optlist) ←
      (if decide (acceptFormat info = CA_FORMAT_UNDEFINED) then mret (CA_STATUS_OK, optlist)
       else CAParsePayloadFormatHeadOption COAP_OPTION_ACCEPT (acceptFormat info)
              CA_OPTION_ACCEPT_VERSION (acceptVersion info) optlist);
    mret (CA_STATUS_OK, optlist)
  else mret (r, optlist).

(** ** The message *)

Definition UINT_MAX : Z := 2 ^ 32 - 1.

(** [ntohs ((unsigned short) COAP_INVALID_TID)]. *)
Definition INVALID_TID : Z := 65535.

(** The loop over the list of options: 0 when an option does not fit. *)
Fixpoint add_options (p : coap_pdu_t) (options : coap_list_t) : ub (bool * coap_pdu_t) :=
  match options with
  | [] => Some (true, p)
  | None :: _ => None
  | Some (k, v) :: options =>
      '(ret, p) ← coap_add_option2 p k (Z.of_nat (length v)) (Some v);
      if ret =? 0 then Some (false, p) else add_options p options
  end.

(** [prng] is the message id the random generator would give. *)
Definition CAGeneratePDUImpl (prng code : Z) (info : CAInfo_t) (endpoint : CAEndpoint_t)
    (options : coap_list_t) : M St (option coap_pdu_t) :=
  if UINT_MAX <? payloadSize info then mret None
  else
    ok ← alloc;
    pdu ← lift (coap_pdu_init2 ok 0 0 INVALID_TID COAP_MAX_PDU_SIZE);
    match pdu with
    | None => mret None
    | Some pdu =>
        let message_id := if messageId info =? 0 then prng else messageId info in
        pdu ← lift (h ← set_id (hdr pdu) message_id;
                    h ← set_bits h 0 4 2 (type_code (type info));
                    coap_add_code (set_hdr h pdu) code);
        pdu ← lift (match token info with
                    | Some t =>
                        if code =? CA_EMPTY then Some pdu
                        else '(_, p) ← coap_add_token2 (Some pdu) (tokenLength info) t; p
                    | None => Some pdu
                    end);
        if negb (adapter endpoint =? CA_ADAPTER_GATT_BTLE) then mret (Some pdu)
        else
          '(ok, pdu) ← lift (add_options pdu options);
          if negb ok then mret None
          else
            (match payload info with
             | Some d =>
                 if 0 <? payloadSize info then
                   '(_, pdu) ← lift (coap_add_data pdu (payloadSize info) d); mret (Some pdu)
                 else mret (Some pdu)
             | None => mret (Some pdu)
             end : M St (option coap_pdu_t))
    end.

(** A message without token, options or payload. *)
Definition must_be_empty (code : Z) (info : CAInfo_t) : bool :=
  bool_decide (type info = CA_MSG_RESET) ||
  ((code =? CA_EMPTY) && bool_decide (type info = CA_MSG_ACKNOWLEDGE)).

(** The message and the list of options, which the caller keeps. *)
Definition CAGeneratePDU (prng code : Z) (info : CAInfo_t) (endpoint : CAEndpoint_t)
    (optlist : coap_list_t) : M St (option coap_pdu_t * coap_list_t) :=
  if must_be_empty code info then
    if negb (code =? CA_EMPTY) then mret (None, optlist)
    else if (0 <? payloadSize info) || bool_decide (payload info <> None)
            || bool_decide (token info <> None) || (0 <? tokenLength info) then mret (None, optlist)
    else pdu ← CAGeneratePDUImpl prng code info endpoint []; mret (pdu, optlist)
  else
    '(r, optlist) ←
      (match resourceUri info with
       | None => mret (CA_STATUS_OK, optlist)
       | Some uri =>
           if CA_MAX_URI_LENGTH <? Z.of_nat (length uri) then mret (CA_STATUS_FAILED, optlist)
           else
             ok ← alloc;
             if negb ok then mret (CA_STATUS_FAILED, optlist)
             else CAParseURI (COAP_URI_HEADER ++ uri ++ [0]) optlist
       end : M St (CAResult_t * coap_list_t));
    if decide (r <> CA_STATUS_OK) then mret (None, optlist)
    else
      '(ret, optlist) ← CAParseHeadOption info optlist;
      if decide (ret <> CA_STATUS_OK) then mret (None, optlist)
      else pdu ← CAGeneratePDUImpl prng code info endpoint optlist; mret (pdu, optlist).
End Alloc.

(** ** Sorted lists of options *)

#[local] Arguments wrap : simpl never.
#[local] Arguments option_bytes : simpl never.

(** Behind the options with the same number. *)
Fixpoint ins (n : hcoap_option) (os : list hcoap_option) : list hcoap_option :=
  match os with
  | [] => [n]
  | q :: os' => if n.1 <? q.1 then n :: os else q :: ins n os'
  end.

Definition ins_all (ns os : list hcoap_option) : list hcoap_option := foldl (fun os n => ins n os) os ns.

Lemma insert_node_spec n os : insert_node (Some <$> os) n = Some (Some <$> ins n os).
Proof.
  induction os as [|q os IH]; [done|]. change (Some <$> q :: os) with (Some q :: (Some <$> os)). cbn [insert_node ins].
  assert ((CAOrderOpts n q <? 0) = (n.1 <? q.1)) as ->.
  { unfold CAOrderOpts. destruct (n.1 <? q.1); [done|]. by destruct (n.1 =? q.1). }
  destruct (n.1 <? q.1); [done|]. by rewrite IH.
Qed.

Lemma ins_all_app ns ns' os : ins_all (ns ++ ns') os = ins_all ns' (ins_all ns os).
Proof. unfold ins_all. apply foldl_app. Qed.

(** Sorted by number, and options with the same number in the order in which
    they were inserted. *)
Inductive sorted_options : list hcoap_option -> Prop :=
| sorted_nil : sorted_options []
| sorted_cons o os : Forall (fun q => o.1 <= q.1) os -> sorted_options os -> sorted_options (o :: os).

Lemma ins_Forall (P : hcoap_option -> Prop) n os : P n -> Forall P os -> Forall P (ins n os).
Proof.
  intros Hn. induction 1 as [|q os Hq Hos IH]; simpl; [by constructor|]. by case_match; repeat constructor.
Qed.

Lemma ins_sorted n os : sorted_options os -> sorted_options (ins n os).
Proof.
  induction 1 as [|q os Hq Hos IH]; simpl; [by repeat constructor|].
  destruct (Z.ltb_spec n.1 q.1).
  - constructor; [|by constructor]. constructor; [lia|]. eapply Forall_impl; [exact Hq|]. simpl. lia.
  - constructor; [|done]. apply ins_Forall; [lia|done].
Qed.

Lemma ins_all_sorted ns os : sorted_options os -> sorted_options (ins_all ns os).
Proof.
  unfold ins_all. revert os. induction ns as [|n ns IH]; intros os Hos; [done|]. by apply IH, ins_sorted.
Qed.

Lemma ins_filter (P : hcoap_option -> Prop) `{forall o, Decision (P o)} n os : sorted_options os ->
  filter P (ins n os) = if decide (P n) then ins n (filter P os) else filter P os.
Proof.
  induction 1 as [|q os Hq Hos IH]; simpl; [rewrite filter_cons; by destruct (decide (P n))|].
  destruct (Z.ltb_spec n.1 q.1) as [Hlt|Hle].
  - rewrite filter_cons. destruct (decide (P n)); [|done].
    assert (Forall (fun x => n.1 < x.1) (filter P (q :: os))) as Hf.
    { apply Forall_forall. intros x Hx%list_elem_of_filter. destruct Hx as [_ Hx].
      rewrite Forall_forall in Hq. apply elem_of_cons in Hx as [-> |Hx]; [done|]. specialize (Hq x Hx). lia. }
    destruct (filter P (q :: os)) as [|x l]; [done|]. apply Forall_cons in Hf as [Hx _]. simpl in *.
    by destruct (Z.ltb_spec n.1 x.1); [|lia].
  - rewrite !filter_cons, IH. destruct (decide (P q)), (decide (P n)); try done.
    simpl. by destruct (Z.ltb_spec n.1 q.1); [lia|].
Qed.

Lemma ins_all_filter (P : hcoap_option -> Prop) `{forall o, Decision (P o)} ns os : sorted_options os ->
  filter P (ins_all ns os) = ins_all (filter P ns) (filter P os).
Proof.
  revert os. induction ns as [|n ns IH]; intros os Hos; [done|].
  change (ins_all (n :: ns) os) with (ins_all ns (ins n os)).
  rewrite IH by by apply ins_sorted. rewrite ins_filter, filter_cons by done. by destruct (decide (P n)).
Qed.

Lemma ins_last n os : Forall (fun q => q.1 <= n.1) os -> ins n os = os ++ [n].
Proof.
  induction 1 as [|q os Hq Hos IH]; [done|]. simpl. destruct (Z.ltb_spec n.1 q.1); [lia|]. by rewrite IH.
Qed.

Lemma ins_all_appended ns os : sorted_options ns -> Forall (fun n => Forall (fun q => q.1 <= n.1) os) ns ->
  ins_all ns os = os ++ ns.
Proof.
  intros Hs. revert os. induction Hs as [|n ns Hn Hns IH]; intros os Hos; [by rewrite app_nil_r|].
  apply Forall_cons in Hos as [Ho Hos]. change (ins_all (n :: ns) os) with (ins_all ns (ins n os)).
  rewrite ins_last by done. rewrite IH; [by rewrite <- app_assoc|].
  rewrite Forall_forall in *. intros x Hx. apply Forall_app. split; [by apply Hos|].
  apply Forall_singleton. by apply Hn.
Qed.

(** The value a node gets: an integer loses its leading zeros, and all but the
    last bytes when there are more than the option may have. *)
Definition node_value (key : Z) (v : list Z) : list Z :=
  match var_bytes_max key with
  | Some max =>
      let v := if max <? Z.of_nat (length v) then drop (length v - Z.to_nat max) v else v in
      let n := foldl (fun n b => u32 (u32 (n <<< 8) + b)) 0 v in be (var_bytes_len n 4) n
  | None => v
  end.

Lemma def_max_range key m : var_bytes_max key = Some m -> 0 <= m <= 4.
Proof.
  unfold var_bytes_max, coap_opt_def. destruct (COAP_MAX_OPT <? key); [done|].
  destruct (find _ coap_option_def) as [d|] eqn:E; [|done]. apply find_some in E as [E _].
  cbn [mbind option_bind]. intros Hm. simpl in E.
  repeat (destruct E as [<-|E]; [cbn in Hm; simplify_eq; lia|]). done.
Qed.

Section NodeSpec.
Context {St : Type} `{HasAllocs St}.

(** The bytes a fold over at most four bytes gives fit into as many. *)
Lemma fold_bytes_small v : Forall is_byte v -> (length v <= 4)%nat ->
  0 <= foldl (fun n b => u32 (u32 (n <<< 8) + b)) 0 v < 256 ^ Z.of_nat (length v).
Proof.
  induction v as [|b v IH] using rev_ind; intros Hb Hl; [simpl; lia|].
  apply Forall_app in Hb as [Hv Hb]. apply Forall_cons in Hb as [Hb _]. unfold is_byte in Hb.
  rewrite length_app in *. simpl in Hl. specialize (IH Hv ltac:(lia)).
  rewrite foldl_app. simpl. set (n := foldl _ 0 v) in *.
  rewrite Nat2Z.inj_add, Z.pow_add_r by lia. change (256 ^ Z.of_nat 1) with 256.
  assert (256 ^ Z.of_nat (length v) <= 16777216) by (apply (Z.pow_le_mono_r 256 _ 3); lia).
  rewrite Z.shiftl_mul_pow2 by lia. change (2 ^ 8) with 256.
  rewrite (wrap_small 32 (n * 256)), wrap_small by lia. lia.
Qed.

Lemma new_node_spec key v (st : St) : allocs_of st = [] -> Forall is_byte v ->
  forall rest, CACreateNewOptionNode key (Z.of_nat (length v)) (v ++ rest) st
  = Some (Some (key, node_value key v), st).
Proof.
  intros Hst Hb rest. unfold CACreateNewOptionNode. step (alloc_ok st Hst). cbn [negb].
  match goal with |- context [lift ?x] => assert (x = Some (node_value key v)) as -> end.
  { unfold node_value. destruct (var_bytes_max key) as [max|] eqn:Em; [|by apply read_at_prefix].
    apply def_max_range in Em.
    set (w := if max <? Z.of_nat (length v) then drop (length v - Z.to_nat max) v else v).
    assert ((if max <? Z.of_nat (length v) then (drop (Z.to_nat (Z.of_nat (length v) - max)) (v ++ rest), max)
             else (v ++ rest, Z.of_nat (length v))) = (w ++ rest, Z.of_nat (length w)) /\
            Forall is_byte w /\ (length w <= length v)%nat) as (-> & Hw & Hwl).
    { unfold w. destruct (Z.ltb_spec max (Z.of_nat (length v))); [|done].
      replace (Z.to_nat (Z.of_nat (length v) - max)) with (length v - Z.to_nat max)%nat by lia.
      rewrite drop_app_le, length_drop by lia. split; [f_equal; lia|].
      split; [by apply Forall_drop|lia]. }
    assert (length w <= 4)%nat as Hw4.
    { unfold w. destruct (Z.ltb_spec max (Z.of_nat (length v))); rewrite ?length_drop; lia. }
    unfold coap_decode_var_bytes. rewrite read_at_prefix by done. cbn [mbind option_bind].
    set (n := foldl _ 0 w). pose proof (fold_bytes_small w Hw Hw4) as Hn. fold n in Hn.
    pose proof (var_bytes_len_least n 4 (length w) Hn) as Hk.
    unfold coap_encode_var_bytes. rewrite put_bytes_spec by (rewrite length_replicate; lia).
    cbn [mbind option_bind]. apply read_at_prefix. by rewrite length_be. }
  step (run_lift _ _ st eq_refl). by step (alloc_ok st Hst).
Qed.

Lemma insert_new_spec os key v rest (st : St) : allocs_of st = [] -> Forall is_byte v ->
  insert_new (Some <$> os) key (Z.of_nat (length v)) (v ++ rest) st
  = Some ((1, Some <$> ins (key, node_value key v) os), st).
Proof.
  intros Hst Hv. unfold insert_new. step (new_node_spec key v st Hst Hv rest).
  unfold coap_insert. by rewrite insert_node_spec.
Qed.
End NodeSpec.

(** ** A URI and its options *)

Definition path_options (segs : list (list Z)) : list hcoap_option :=
  (fun s => (COAP_OPTION_URI_PATH, s)) <$> segs.
Definition query_options (qs : list (list Z)) : list hcoap_option :=
  (fun s => (COAP_OPTION_URI_QUERY, s)) <$> qs.

Abbreviation plain_path := (plain [SLASH] [QUESTION; HASH]).
Abbreviation plain_query := (plain OC_QUERY_SEPARATOR [HASH]).

(** A query with [;] between its parts; none when there are no parts. *)
Definition query_of (qs : list (list Z)) : option (list Z) :=
  match qs with [] => None | _ => Some (joined 59 false qs) end.

Definition uri_text (segs qs : list (list Z)) : list Z :=
  joined SLASH true segs ++ query_string (query_of qs).

(** The bytes of the URI. *)
Definition segments_bytes_ok (segs : list (list Z)) : Prop := Forall (Forall is_byte) segs.

Section UriSpec.
Context {St : Type} `{HasAllocs St}.

Lemma node_value_string target v : target = COAP_OPTION_URI_PATH \/ target = COAP_OPTION_URI_QUERY ->
  node_value target v = v.
Proof. by intros [-> | ->]. Qed.

Lemma opt_size_spec d v rest : 0 <= d <= MAX_DELTA -> Z.of_nat (length v) <= MAX_VLENGTH ->
  coap_opt_size (option_bytes d v ++ rest) = Some (Z.of_nat (length (option_bytes d v))).
Proof.
  intros Hd Hv. unfold coap_opt_size. rewrite parse_bytes; [done|done|done|].
  unfold option_bytes, SIZE_MAX, MAX_VLENGTH in *. rewrite length_app.
  pose proof (option_header_short d (Z.of_nat (length v))). lia.
Qed.

(** The segments of the buffer, as far as the caller thinks it is used. *)
Lemma insert_segments_spec target segs done rest used os (st : St) : allocs_of st = [] ->
  target = COAP_OPTION_URI_PATH \/ target = COAP_OPTION_URI_QUERY ->
  Forall (fun s => Z.of_nat (length s) <= 65535) segs -> segments_bytes_ok segs ->
  insert_segments target (done ++ segment_bytes segs ++ rest) (Z.of_nat (length done)) used (Some <$> os)
    (length segs) st
  = if decide (segs = [] \/ Z.of_nat (length done) + Z.of_nat (length (segment_bytes segs)) <= used) then
      Some ((CA_STATUS_OK, Some <$> ins_all ((fun s => (target, s)) <$> segs) os), st)
    else None.
Proof.
  intros Hst Ht. revert done os. induction segs as [|x segs IH]; intros done os Hl Hb.
  - by rewrite decide_True by (by left).
  - apply Forall_cons in Hl as [Hx Hl]. apply Forall_cons in Hb as [Hbx Hb].
    cbn [insert_segments length]. cbv zeta. rewrite Nat2Z.id.
    assert (segment_bytes (x :: segs) = option_bytes 0 x ++ segment_bytes segs) as Eb by done.
    rewrite Eb, drop_app_length, <- !app_assoc.
    step (run_lift _ _ st (length_spec 0 x _ ltac:(lia) Hx)). step (run_lift _ _ st (value_spec 0 x _ ltac:(lia))).
    cbn beta iota.
    rewrite drop_header.
    step (insert_new_spec os target x _ st Hst Hbx). cbn beta iota. change (1 <=? 0) with false. cbv iota.
    rewrite node_value_string by done.
    step (run_lift _ _ st (opt_size_spec 0 x (segment_bytes segs ++ rest) ltac:(unfold MAX_DELTA; lia)
            ltac:(unfold MAX_VLENGTH; lia))).
    rewrite length_app, Nat2Z.inj_add.
    destruct (Z.ltb_spec used (Z.of_nat (length done) + Z.of_nat (length (option_bytes 0 x)))).
    + rewrite decide_False; [done|]. intros [?|?]; [done|lia].
    + rewrite <- Nat2Z.inj_add, <- length_app, (app_assoc done), IH by done.
      rewrite length_app, Nat2Z.inj_add. destruct (decide (segs = [])) as [->|].
      * rewrite decide_True by (by left). by rewrite decide_True by (right; assert (length (segment_bytes []) = O) as E0 by reflexivity; lia).
      * match goal with |- context [decide (segs = [] \/ ?P)] => destruct (decide P) end.
        -- rewrite decide_True by (right; lia). by rewrite decide_True by (right; lia).
        -- rewrite decide_False by (intros [?|?]; done || lia).
           by rewrite decide_False by (intros [?|?]; done || lia).
Qed.

Lemma segment_bytes_pos segs : segs <> [] -> (0 < length (segment_bytes segs))%nat.
Proof.
  destruct segs as [|x segs]; [done|]. intros _.
  assert (segment_bytes (x :: segs) = option_bytes 0 x ++ segment_bytes segs) as -> by done.
  rewrite length_app. unfold option_bytes. rewrite length_app, length_option_header. lia.
Qed.

Lemma segments_fit segs n : (length (segment_bytes segs) <= n)%nat ->
  Forall (fun s => Z.of_nat (length s) <= Z.of_nat n) segs.
Proof.
  induction segs as [|x segs IH]; [constructor|].
  assert (segment_bytes (x :: segs) = option_bytes 0 x ++ segment_bytes segs) as -> by done.
  unfold option_bytes. rewrite !length_app. intros Hn. constructor; [lia|]. apply IH. lia.
Qed.

Definition MAX_URI : nat := 512.

(** The path: the buffer counts as used only where it is free, so that a path
    that fills more than half of it runs into an assertion. *)
Lemma parse_path_spec segs pre post os (st : St) : allocs_of st = [] -> segs <> [] ->
  Forall plain_path segs -> segments_bytes_ok segs -> (length (segment_bytes segs) <= MAX_URI)%nat ->
  CAParseUriPartial (pre ++ joined SLASH true segs ++ post) (Z.of_nat (length pre))
    (Z.of_nat (length (joined SLASH true segs))) COAP_OPTION_URI_PATH (Some <$> os) st
  = if decide (2 * Z.of_nat (length (segment_bytes segs)) <= CA_MAX_URI_LENGTH)
    then Some ((CA_STATUS_OK, Some <$> ins_all (path_options segs) os), st) else None.
Proof.
  intros Hst Hne Hp Hb Hroom. unfold CAParseUriPartial, MAX_URI, CA_MAX_URI_LENGTH in *.
  pose proof (joined_longer [SLASH] [QUESTION; HASH] SLASH true segs Hp). pose proof (segment_bytes_pos segs Hne).
  assert (0 < length segs)%nat by (destruct segs; [done|simpl; lia]).
  change (negb (COAP_OPTION_URI_PATH =? COAP_OPTION_URI_PATH)) with false. cbn [andb]. cbv iota.
  destruct (Z.eqb_spec (Z.of_nat (length (joined SLASH true segs))) 0); [lia|]. cbv zeta.
  change (COAP_OPTION_URI_PATH =? COAP_OPTION_URI_PATH) with true. cbv iota.
  unfold coap_split_path. set (buf := replicate (Z.to_nat 512) 0).
  change 512 with (Z.of_nat (length buf)) at 1.
  rewrite split_impl_plain by (try done; unfold buf; rewrite ?length_replicate; lia).
  cbn [mbind option_bind cs_n cs_length cs_buf].
  change (Z.of_nat (length buf)) with 512.
  step (run_lift _ _ st eq_refl). cbn beta iota.
  destruct (Z.ltb_spec 0 (Z.of_nat (length segs))); [|lia].
  replace (512 - (512 - Z.of_nat (length (segment_bytes segs)))) with (Z.of_nat (length (segment_bytes segs))) by lia.
  destruct (Z.ltb_spec (Z.of_nat (length (segment_bytes segs))) 512).
  - rewrite Nat2Z.id.
    pose proof (insert_segments_spec COAP_OPTION_URI_PATH segs [] (drop (length (segment_bytes segs)) buf)
      (512 - Z.of_nat (length (segment_bytes segs))) os st Hst ltac:(by left)) as E. cbn [app length] in E.
    change (Z.of_nat 0) with 0 in E. rewrite E by
      first [done | eapply Forall_impl; [by apply (segments_fit segs 512)|simpl; lia]].
    destruct (decide (2 * Z.of_nat (length (segment_bytes segs)) <= 512)).
    + by rewrite decide_True by (right; lia).
    + by rewrite decide_False by (intros [?|?]; done || lia).
  - rewrite decide_False by lia. done.
Qed.

Lemma parse_query_spec qs pre post os (st : St) : allocs_of st = [] -> qs <> [] ->
  Forall plain_query qs -> segments_bytes_ok qs -> (length (segment_bytes qs) <= MAX_URI)%nat ->
  CAParseUriPartial (pre ++ joined 59 false qs ++ post) (Z.of_nat (length pre))
    (Z.of_nat (length (joined 59 false qs))) COAP_OPTION_URI_QUERY (Some <$> os) st
  = Some ((CA_STATUS_OK, Some <$> ins_all (query_options qs) os), st).
Proof.
  intros Hst Hne Hp Hb Hroom. unfold CAParseUriPartial, MAX_URI, CA_MAX_URI_LENGTH in *.
  pose proof (joined_longer OC_QUERY_SEPARATOR [HASH] 59 false qs Hp). pose proof (segment_bytes_pos qs Hne).
  assert (0 < length qs)%nat by (destruct qs; [done|simpl; lia]).
  change (negb (COAP_OPTION_URI_QUERY =? COAP_OPTION_URI_QUERY)) with false. rewrite andb_false_r. cbv iota.
  destruct (Z.eqb_spec (Z.of_nat (length (joined 59 false qs))) 0); [lia|]. cbv zeta.
  change (COAP_OPTION_URI_QUERY =? COAP_OPTION_URI_PATH) with false. cbv iota.
  unfold coap_split_query. set (buf := replicate (Z.to_nat 512) 0).
  change 512 with (Z.of_nat (length buf)) at 1.
  rewrite (split_impl_plain OC_QUERY_SEPARATOR [HASH] 59) by (try done; unfold buf; rewrite ?length_replicate; lia).
  cbn [mbind option_bind cs_n cs_length cs_buf].
  change (Z.of_nat (length buf)) with 512.
  step (run_lift _ _ st eq_refl). cbn beta iota.
  destruct (Z.ltb_spec 0 (Z.of_nat (length qs))); [|lia].
  destruct (Z.ltb_spec (512 - Z.of_nat (length (segment_bytes qs))) 512); [|lia].
  replace (512 - (512 - Z.of_nat (length (segment_bytes qs)))) with (Z.of_nat (length (segment_bytes qs))) by lia.
  rewrite Nat2Z.id.
  pose proof (insert_segments_spec COAP_OPTION_URI_QUERY qs [] (drop (length (segment_bytes qs)) buf)
    (Z.of_nat (length (segment_bytes qs))) os st Hst ltac:(by right)) as E. cbn [app length] in E.
  change (Z.of_nat 0) with 0 in E. rewrite E by
    first [done | eapply Forall_impl; [by apply (segments_fit qs 512)|simpl; lia]].
  by rewrite decide_True by (right; lia).
Qed.

(** Segments and query parts that can be written and fit the buffer. *)
Record uri_ok (segs qs : list (list Z)) : Prop := {
  uri_path_plain : Forall plain_path segs;
  uri_query_plain : Forall plain_query qs;
  uri_path_bytes : segments_bytes_ok segs;
  uri_query_bytes : segments_bytes_ok qs;
  uri_path_fits : (length (segment_bytes segs) <= MAX_URI)%nat;
  uri_query_fits : (length (segment_bytes qs) <= MAX_URI)%nat;
}.

Definition uri_options (segs qs : list (list Z)) : list hcoap_option :=
  path_options segs ++ query_options qs.

Lemma path_no_question segs : Forall plain_path segs ->
  Forall (fun c => c <> QUESTION) (joined SLASH true segs).
Proof.
  generalize true. intros lead Hp. revert lead. induction Hp as [|x segs [_ _ Hx _] Hp IH]; intros lead; [constructor|].
  cbn [joined]. apply Forall_app. split; [destruct lead; by repeat constructor|].
  apply Forall_app. split; [|apply IH]. eapply Forall_impl; [exact Hx|].
  intros c (_ & _ & _ & Hc) ->. done.
Qed.

Lemma joined_nil_inv lead segs : Forall plain_path segs -> joined SLASH lead segs = [] -> segs = [].
Proof.
  intros Hp E. pose proof (joined_longer [SLASH] [QUESTION; HASH] SLASH lead segs Hp) as Hl.
  rewrite E in Hl. by destruct segs; [|simpl in Hl; lia].
Qed.

(** A URI becomes the options of its path and of its query, in their order;
    unless the path takes up more than half of the buffer. *)
Lemma parse_uri_spec segs qs os (st : St) : allocs_of st = [] -> uri_ok segs qs ->
  CAParseURI (COAP_URI_HEADER ++ uri_text segs qs ++ [0]) (Some <$> os) st
  = if decide (2 * Z.of_nat (length (segment_bytes segs)) <= CA_MAX_URI_LENGTH)
    then Some ((CA_STATUS_OK, Some <$> ins_all (uri_options segs qs) os), st) else None.
Proof.
  intros Hst [Hp Hq Hbp Hbq Hfp Hfq]. unfold CAParseURI.
  assert (pred (length (COAP_URI_HEADER ++ uri_text segs qs ++ [0]))
          = length (COAP_URI_HEADER ++ uri_text segs qs)) as -> by (rewrite !length_app; simpl; lia).
  pose proof (split_uri_spec (joined SLASH true segs) (query_of qs) [0] (path_no_question segs Hp)) as Es.
  cbv zeta in Es. fold (uri_text segs qs) in Es. step (run_lift _ _ st Es). cbn beta iota.
  cbn [uri_of uri_port]. change (COAP_DEFAULT_PORT =? COAP_DEFAULT_PORT) with true. cbv iota.
  step (run_ret _ st). cbn beta iota. change (1 <=? 0) with false. cbv iota. cbn [uri_of uri_path uri_query].
  set (s := COAP_URI_HEADER ++ uri_text segs qs ++ [0]).
  assert (forall os,
    parse_part s (match query_of qs with None => None
       | Some q => Some (13 + Z.of_nat (length (joined SLASH true segs)), Z.of_nat (length q)) end)
       COAP_OPTION_URI_QUERY (Some <$> os) st
    = Some ((CA_STATUS_OK, Some <$> ins_all (query_options qs) os), st)) as Eq.
  { intros os'. destruct qs as [|q qs]; [done|]. set (w := q :: qs) in *.
    change (query_of w) with (Some (joined 59 false w)). cbn [parse_part].
    pose proof (joined_longer OC_QUERY_SEPARATOR [HASH] 59 false w Hq).
    destruct (Z.eqb_spec (Z.of_nat (length (joined 59 false w))) 0); [simpl in *; lia|].
    set (pre := COAP_URI_HEADER ++ joined SLASH true segs ++ [QUESTION]).
    assert (s = pre ++ joined 59 false w ++ [0]) as ->.
    { unfold s, pre, uri_text. change (query_of w) with (Some (joined 59 false w)).
      cbn [query_string]. by rewrite <- !app_assoc. }
    assert (13 + Z.of_nat (length (joined SLASH true segs)) = Z.of_nat (length pre)) as ->
      by (unfold pre; rewrite !length_app; simpl; lia).
    by apply parse_query_spec. }
  destruct (decide (joined SLASH true segs = [])) as [Ej|Hj].
  - apply joined_nil_inv in Ej as ->; [|done]. cbn [parse_part]. step (run_ret _ st). cbn beta iota.
    rewrite decide_True by done. rewrite decide_True by done. by apply Eq.
  - assert (segs <> []) as Hne by (by intros ->). cbn [parse_part].
    destruct (Z.eqb_spec (Z.of_nat (length (joined SLASH true segs))) 0); [by destruct (joined SLASH true segs)|].
    change 12 with (Z.of_nat (length COAP_URI_HEADER)).
    assert (s = COAP_URI_HEADER ++ joined SLASH true segs ++ (query_string (query_of qs) ++ [0])) as Es2
      by (unfold s, uri_text; by rewrite <- !app_assoc).
    pose proof (parse_path_spec segs COAP_URI_HEADER (query_string (query_of qs) ++ [0]) os st Hst Hne Hp Hbp Hfp) as E.
    rewrite <- Es2 in E.
    destruct (decide (2 * _ <= CA_MAX_URI_LENGTH)).
    + step E. cbn beta iota. rewrite decide_True by done.
      rewrite Eq. unfold uri_options. by rewrite ins_all_app.
    + by rewrite run_bind_undef.
Qed.
End UriSpec.

(** ** The options of a message *)

Definition option_value (o : CAHeaderOption_t) : list Z :=
  take (Z.to_nat (optionLength o)) (optionData o).

(** The option's length is within its array. *)
Definition header_option_ok (o : CAHeaderOption_t) : Prop :=
  0 <= optionLength o <= Z.of_nat (length (optionData o)) /\ Forall is_byte (optionData o).

Definition message_header_options (info : CAInfo_t) : list CAHeaderOption_t :=
  take (Z.to_nat (numOptions info)) (default [] (options info)).

Record header_options_ok (info : CAInfo_t) : Prop := {
  ho_count : 0 <= numOptions info <= Z.of_nat (length (default [] (options info)));
  ho_options : Forall header_option_ok (message_header_options info);
}.

Definition user_options (info : CAInfo_t) : list hcoap_option :=
  (fun o => (optionID o, node_value (optionID o) (option_value o)))
  <$> filter (fun o => skipped_option (optionID o) = false) (message_header_options info).

Definition format_options (formatOption : Z) (format : CAPayloadFormat_t) (versionOption version : Z)
    : list hcoap_option :=
  match format with
  | CA_FORMAT_APPLICATION_CBOR => [(formatOption, [COAP_MEDIATYPE_APPLICATION_CBOR])]
  | CA_FORMAT_APPLICATION_VND_OCF_CBOR =>
      [(formatOption, [39; 16]); (versionOption, be (var_bytes_len version 4) version)]
  | _ => []
  end.

Definition head_options (info : CAInfo_t) : list hcoap_option :=
  user_options info ++
  format_options COAP_OPTION_CONTENT_FORMAT (payloadFormat info) CA_OPTION_CONTENT_VERSION (payloadVersion info) ++
  format_options COAP_OPTION_ACCEPT (acceptFormat info) CA_OPTION_ACCEPT_VERSION (acceptVersion info).

Section HeadSpec.
Context {St : Type} `{HasAllocs St}.

Lemma insert_options_spec hs os (st : St) : allocs_of st = [] -> Forall header_option_ok hs ->
  insert_options hs (Some <$> os) st
  = Some ((CA_STATUS_OK, Some <$> ins_all
      ((fun o => (optionID o, node_value (optionID o) (option_value o)))
       <$> filter (fun o => skipped_option (optionID o) = false) hs) os), st).
Proof.
  intros Hst Hhs. revert os. induction Hhs as [|o hs [Hl Hb] Hhs IH]; intros os; [done|].
  cbn [insert_options]. rewrite filter_cons. destruct (skipped_option (optionID o)) eqn:E.
  - rewrite decide_False by done. apply IH.
  - rewrite decide_True by done.
    assert (optionData o = option_value o ++ drop (Z.to_nat (optionLength o)) (optionData o)) as Ed
      by (unfold option_value; by rewrite take_drop).
    assert (optionLength o = Z.of_nat (length (option_value o))) as El
      by (unfold option_value; rewrite length_take; lia).
    rewrite Ed, El. step (insert_new_spec os (optionID o) (option_value o) _ st Hst ltac:(by apply Forall_take)).
    cbn beta iota. change (1 <=? 0) with false. cbv iota. apply IH.
Qed.

Lemma encode_buffer v : coap_encode_var_bytes (replicate CA_ENCODE_BUFFER_SIZE 0) v
  = Some (Z.of_nat (length (be (var_bytes_len v 4) v)),
          be (var_bytes_len v 4) v ++ drop (var_bytes_len v 4) (replicate CA_ENCODE_BUFFER_SIZE 0)).
Proof. rewrite encode_var_spec by done. by rewrite length_be. Qed.

Lemma new_encoded_spec key v (st : St) : allocs_of st = [] ->
  (('(len, b) ← lift (coap_encode_var_bytes (replicate CA_ENCODE_BUFFER_SIZE 0) v);
    CACreateNewOptionNode key len b) : M St (option hcoap_option)) st
  = Some (Some (key, node_value key (be (var_bytes_len v 4) v)), st).
Proof.
  intros Hst. step (run_lift _ _ st (encode_buffer v)). cbn beta iota.
  apply new_node_spec; [done|apply be_bytes].
Qed.

Lemma payload_format_spec key f vkey v os (st : St) : allocs_of st = [] ->
  (key = COAP_OPTION_CONTENT_FORMAT /\ vkey = CA_OPTION_CONTENT_VERSION) \/
  (key = COAP_OPTION_ACCEPT /\ vkey = CA_OPTION_ACCEPT_VERSION) ->
  exists r, CAParsePayloadFormatHeadOption key f vkey v (Some <$> os) st
  = Some ((r, Some <$> ins_all (format_options key f vkey v) os), st).
Proof.
  intros Hst Hkey. unfold CAParsePayloadFormatHeadOption. cbv zeta.
  assert (forall n : hcoap_option, coap_insert (Some <$> os) (Some n) = Some (1, Some <$> ins n os)) as Hins.
  { intros n. unfold coap_insert. by rewrite insert_node_spec. }
  destruct f; try by (step (run_ret _ st); eexists).
  - step (new_encoded_spec key COAP_MEDIATYPE_APPLICATION_CBOR st Hst). cbn beta iota.
    step (run_lift _ _ st (Hins _)). cbn beta iota. change (1 <=? 0) with false. cbv iota.
    rewrite bool_decide_false, andb_false_r by done. exists CA_STATUS_OK. do 4 f_equal.
    destruct Hkey as [[-> ->]|[-> ->]]; reflexivity.
  - step (new_encoded_spec key COAP_MEDIATYPE_APPLICATION_VND_OCF_CBOR st Hst). cbn beta iota.
    step (run_lift _ _ st (Hins _)). cbn beta iota. change (1 <=? 0) with false. cbv iota.
    rewrite bool_decide_true by done.
    assert ((vkey =? CA_OPTION_ACCEPT_VERSION) || (vkey =? CA_OPTION_CONTENT_VERSION) = true) as ->
      by (destruct Hkey as [[-> ->]|[-> ->]]; reflexivity).
    cbn [andb]. step (run_lift _ _ st (encode_buffer v)). cbn beta iota.
    step (new_node_spec vkey _ st Hst (be_bytes _ _) _). cbn beta iota.
    set (n1 := (key, _)). unfold coap_insert. rewrite insert_node_spec. cbn [mbind option_bind].
    step (run_lift _ _ st eq_refl). cbn beta iota. change (1 <=? 0) with false. cbv iota.
    exists CA_STATUS_OK. do 4 f_equal. unfold n1. destruct Hkey as [[-> ->]|[-> ->]]; reflexivity.
Qed.

Lemma head_option_spec info os (st : St) : allocs_of st = [] -> header_options_ok info ->
  CAParseHeadOption info (Some <$> os) st
  = Some ((CA_STATUS_OK, Some <$> ins_all (head_options info) os), st).
Proof.
  intros Hst [Hc Ho]. unfold CAParseHeadOption.
  match goal with |- context [(?m ≫= _) st] =>
    assert (m st = Some ((CA_STATUS_OK, Some <$> ins_all (user_options info) os), st)) as E end.
  { unfold user_options, message_header_options in *. destruct (options info) as [hs|]; cbn [default] in *; unfold id in *.
    - rewrite read_at_ok by lia. change (Z.to_nat 0) with O. rewrite drop_0. step (run_lift _ _ st eq_refl).
      by apply insert_options_spec.
    - destruct (Z.ltb_spec 0 (numOptions info)); [simpl in Hc; lia|]. rewrite take_nil. done. }
  step E. cbn beta iota. rewrite decide_True by done. unfold head_options. rewrite !ins_all_app.
  set (os1 := ins_all (user_options info) os).
  assert (forall key f vkey v os',
    (key = COAP_OPTION_CONTENT_FORMAT /\ vkey = CA_OPTION_CONTENT_VERSION) \/
    (key = COAP_OPTION_ACCEPT /\ vkey = CA_OPTION_ACCEPT_VERSION) -> exists r,
    (if decide (f = CA_FORMAT_UNDEFINED) then mret (CA_STATUS_OK, Some <$> os')
     else CAParsePayloadFormatHeadOption key f vkey v (Some <$> os')) st
    = Some ((r, Some <$> ins_all (format_options key f vkey v) os'), st)) as Ef.
  { intros key f vkey v os' Hkey. destruct (decide (f = CA_FORMAT_UNDEFINED)) as [->|].
    - by exists CA_STATUS_OK.
    - by apply payload_format_spec. }
  destruct (Ef COAP_OPTION_CONTENT_FORMAT (payloadFormat info) CA_OPTION_CONTENT_VERSION
              (payloadVersion info) os1 ltac:(by left)) as [r1 E1].
  step E1. cbn beta iota.
  destruct (Ef COAP_OPTION_ACCEPT (acceptFormat info) CA_OPTION_ACCEPT_VERSION (acceptVersion info)
              (ins_all (format_options COAP_OPTION_CONTENT_FORMAT (payloadFormat info)
                 CA_OPTION_CONTENT_VERSION (payloadVersion info)) os1) ltac:(by right)) as [r2 E2].
  step E2. done.
Qed.
End HeadSpec.

(** ** Running out of memory *)

Lemma free_last_spec key v os : Forall (fun o => o.1 < key) os ->
  free_last key ((Some <$> os) ++ [Some (key, v)]) = (Some <$> os) ++ [None].
Proof.
  induction 1 as [|o os Ho Hos IH]; simpl; [by rewrite Z.eqb_refl|].
  destruct (Z.eqb_spec o.1 key); [lia|]. cbn [andb]. f_equal. apply IH.
Qed.

Section Allocations.
Context {St : Type} `{HasAllocs St}.

(** A node whose value is not that of an integer, or one that is known. *)
Lemma new_node_cons l len v data value key (st : St) : allocs_of st = true :: true :: l ->
  CACreateNewOptionNode key len data ([] : list bool) = Some (Some (key, value), v) ->
  CACreateNewOptionNode key len data st = Some (Some (key, value), with_allocs l st).
Proof.
  intros Hst. unfold CACreateNewOptionNode. step (alloc_cons _ _ st Hst). cbn [negb].
  rewrite (run_bind _ _ ([] : list bool) true []) by done. cbn [negb].
  match goal with |- context [lift ?x] => destruct x as [w|] end; [|by rewrite run_bind_undef].
  rewrite (run_bind (lift (Some w)) _ ([] : list bool) w []) by done.
  rewrite (run_bind alloc _ ([] : list bool) true []) by done.
  intros [= -> _]. step (run_lift _ _ _ eq_refl).
  step (alloc_cons true l (with_allocs (true :: l) st) (allocs_of_with _ _)). by rewrite with_allocs_with.
Qed.

Lemma new_node_fails l key len data (st : St) : allocs_of st = false :: l ->
  CACreateNewOptionNode key len data st = Some (None, with_allocs l st).
Proof. intros Hst. unfold CACreateNewOptionNode. by step (alloc_cons _ _ st Hst). Qed.
End Allocations.

(** ** Theorems *)

Section Theorems.
Context {St : Type} `{HasAllocs St}.

(** [CAGeneratePDU] runs into an assertion of [CAParseUriPartial] for every
    message whose path takes up more than half of the 512 bytes of the buffer
    for its options, over any transport: [coap_split_path] reports the bytes it
    has used where the caller expects those that are left. *)
Theorem long_path_aborts prng code info e segs qs (st : St) :
  allocs_of st = [] -> must_be_empty code info = false -> resourceUri info = Some (uri_text segs qs) ->
  uri_ok segs qs -> Z.of_nat (length (uri_text segs qs)) <= CA_MAX_URI_LENGTH ->
  CA_MAX_URI_LENGTH < 2 * Z.of_nat (length (segment_bytes segs)) ->
  CAGeneratePDU prng code info e [] st = None.
Proof.
  intros Hst Hm Hu Hok Hlen Hhalf. unfold CAGeneratePDU. rewrite Hm, Hu.
  destruct (Z.ltb_spec CA_MAX_URI_LENGTH (Z.of_nat (length (uri_text segs qs)))); [lia|].
  apply run_bind_undef. step (alloc_ok st Hst). cbn [negb].
  change (@nil (option hcoap_option)) with (Some <$> @nil hcoap_option).
  rewrite parse_uri_spec by done. by rewrite decide_False by lia.
Qed.

(** when the third allocation fails, [CAParsePayloadFormatHeadOption] frees
    the option of the format, which it has linked into the list already, so
    that the caller is left with a list that holds a freed node. *)
Theorem version_oom_frees_linked_node version os (st : St) :
  allocs_of st = [true; true; false] -> Forall (fun o => o.1 < COAP_OPTION_CONTENT_FORMAT) os ->
  exists st' l, CAParsePayloadFormatHeadOption COAP_OPTION_CONTENT_FORMAT CA_FORMAT_APPLICATION_VND_OCF_CBOR
    CA_OPTION_CONTENT_VERSION version (Some <$> os) st = Some ((CA_STATUS_INVALID_PARAM, l), st') /\
  l = (Some <$> os) ++ [None].
Proof.
  intros Hst Hos. unfold CAParsePayloadFormatHeadOption. cbv zeta.
  set (n := (COAP_OPTION_CONTENT_FORMAT, [39; 16])).
  match goal with |- context [(?m ≫= _) st] =>
    assert (m st = Some (Some n, with_allocs [false] st)) as E end.
  { step (run_lift _ _ st (encode_buffer COAP_MEDIATYPE_APPLICATION_VND_OCF_CBOR)). cbn beta iota.
    by eapply new_node_cons. }
  assert (coap_insert (Some <$> os) (Some n) = Some (1, (Some <$> os) ++ [Some n])) as Ei.
  { unfold coap_insert. rewrite insert_node_spec, ins_last, fmap_app; [done|].
    eapply Forall_impl; [exact Hos|]. simpl. lia. }
  step E. cbn beta iota. step (run_lift _ _ _ Ei). cbn beta iota. change (1 <=? 0) with false. cbv iota.
  rewrite bool_decide_true by done. change ((CA_OPTION_CONTENT_VERSION =? CA_OPTION_ACCEPT_VERSION) ||
    (CA_OPTION_CONTENT_VERSION =? CA_OPTION_CONTENT_VERSION)) with true. cbn [andb].
  step (run_lift _ _ _ (encode_buffer version)). cbn beta iota.
  step (new_node_fails [] _ _ _ (with_allocs [false] st) (allocs_of_with _ _)).
  do 2 eexists. split; [reflexivity|]. by apply free_last_spec.
Qed.
End Theorems.

(** ** A message to look at *)

Definition example_info : CAInfo_t := {|
  type := CA_MSG_CONFIRM; messageId := 4660; token := Some [1; 2; 3]; tokenLength := 3;
  options := Some [{| protocolID := CA_COAP_ID; optionID := COAP_OPTION_OBSERVE; optionLength := 1; optionData := [5] |}];
  numOptions := 1; payload := Some [191; 255]; payloadSize := 2;
  payloadFormat := CA_FORMAT_APPLICATION_VND_OCF_CBOR; acceptFormat := CA_FORMAT_APPLICATION_CBOR;
  payloadVersion := 2048; acceptVersion := 0; resourceUri := Some (uri_text [[97]; [98; 99]] [[120]]);
  identity := no_identity; info_dataType := None |}.

Lemma plain_example sep delim s : s <> [] -> take 2 s <> replicate (Nat.min (length s) 2) DOT ->
  forallb (fun c => negb (c =? 0) && negb (c =? PERCENT) && negb (is_in sep c) && negb (is_in delim c)) s = true ->
  vlength_ok (Z.of_nat (length s)) -> plain sep delim s.
Proof.
  intros H1 H2 H3 H4. split; try done. rewrite forallb_forall in H3. apply Forall_forall. intros c Hc%list_elem_of_In.
  specialize (H3 c Hc). rewrite !andb_true_iff, !negb_true_iff, !Z.eqb_neq in H3. tauto.
Qed.

Lemma example_uri : uri_ok [[97]; [98; 99]] [[120]].
Proof.
  split; try (vm_compute; lia); repeat constructor; try (vm_compute; intuition congruence);
    by (apply plain_example).
Qed.

Definition ble_endpoint : CAEndpoint_t := {|
  adapter := CA_ADAPTER_GATT_BTLE; flags := 0; port := 0; addr := []; ifindex := 0; remoteId := [] |}.

(** 260 bytes of path, where 512 are allowed. *)
Definition long_path : list (list Z) := [replicate 130 97; replicate 130 98].

Definition long_info : CAInfo_t := set_resourceUri (Some (uri_text long_path [])) example_info.

Lemma long_path_uri : uri_ok long_path [].
Proof.
  split; try (vm_compute; lia); [|constructor| |constructor].
  - repeat (apply Forall_cons; split); [by apply plain_example..|constructor].
  - constructor; [by apply Forall_replicate|]. constructor; [by apply Forall_replicate|constructor].
Qed.

Lemma long_path_aborts_witness :
  CAGeneratePDU 0 CA_GET long_info ble_endpoint [] ([] : list bool) = None.
Proof.
  apply (long_path_aborts 0 CA_GET long_info ble_endpoint long_path []);
    [reflexivity|reflexivity|reflexivity|apply long_path_uri|vm_compute; congruence|vm_compute; reflexivity].
Defined.

Lemma version_oom_frees_linked_node_witness : exists st' l,
  CAParsePayloadFormatHeadOption COAP_OPTION_CONTENT_FORMAT CA_FORMAT_APPLICATION_VND_OCF_CBOR
    CA_OPTION_CONTENT_VERSION 2048 (Some <$> [(COAP_OPTION_URI_PATH, [97])]) [true; true; false]
  = Some ((CA_STATUS_INVALID_PARAM, l), st') /\ l = (Some <$> [(COAP_OPTION_URI_PATH, [97])]) ++ [None].
Proof. apply version_oom_frees_linked_node; [reflexivity|repeat constructor]. Defined.
