(* ===== verification/CoapReceive.v ===== *)
(** * CoapReceive: from a CoAP message to a message of the stack

    Models the receiving half of [connectivity/src/caprotocolmessage.c], for
    UDP: reading a packet into a [coap_pdu_t] and its header, token, options
    and payload into a [CAInfo_t].  The path and the query are put together
    into one URI; the options that the stack handles itself are left out, the
    others are copied to an array.

    Some error paths free a field of the message and leave its pointer in
    place.  [po_freed] names those fields; destroying the message again is
    undefined when one of them is set. *)
From S2P Require Import Prelude Effects CaCommon CoapOption CoapPdu CoapUri CaMessage ProtocolMessage CoapMessage.

(** ** Reading a packet *)

Section Parse.
Context {St : Type} `{HasAllocs St}.

(** The message and [*outCode], for [data] of [length] bytes. *)
Definition CAParsePDU (data : list Z) (length : Z) : M St (option (coap_pdu_t * Z)) :=
  ok ← alloc;
  outpdu ← lift (coap_pdu_init2 ok 0 0 INVALID_TID length);
  match outpdu with
  | None => mret None
  | Some outpdu =>
      '(ret, outpdu) ← lift (coap_pdu_parse2 data length outpdu);
      if ret <=? 0 then mret None
      else
        version ← lift (udp_version (hdr outpdu));
        tkl ← lift (udp_token_length (hdr outpdu));
        if negb (version =? COAP_DEFAULT_VERSION) then mret None
        else if CA_MAX_TOKEN_LEN <? tkl then mret None
        else code ← lift (coap_get_code outpdu); mret (Some (outpdu, CA_RESPONSE_CODE code))
  end.
End Parse.

(** ** Options *)

Definition COAP_MEDIATYPE_TEXT_PLAIN : Z := 0.
Definition COAP_MEDIATYPE_APPLICATION_LINK_FORMAT : Z := 40.
Definition COAP_MEDIATYPE_APPLICATION_XML : Z := 41.
Definition COAP_MEDIATYPE_APPLICATION_OCTET_STREAM : Z := 42.
Definition COAP_MEDIATYPE_APPLICATION_RDF_XML : Z := 43.
Definition COAP_MEDIATYPE_APPLICATION_EXI : Z := 47.
Definition COAP_MEDIATYPE_APPLICATION_JSON : Z := 50.

Definition CAConvertFormat (format : Z) : CAPayloadFormat_t :=
  if format =? COAP_MEDIATYPE_TEXT_PLAIN then CA_FORMAT_TEXT_PLAIN
  else if format =? COAP_MEDIATYPE_APPLICATION_LINK_FORMAT then CA_FORMAT_APPLICATION_LINK_FORMAT
  else if format =? COAP_MEDIATYPE_APPLICATION_XML then CA_FORMAT_APPLICATION_XML
  else if format =? COAP_MEDIATYPE_APPLICATION_OCTET_STREAM then CA_FORMAT_APPLICATION_OCTET_STREAM
  else if format =? COAP_MEDIATYPE_APPLICATION_RDF_XML then CA_FORMAT_APPLICATION_RDF_XML
  else if format =? COAP_MEDIATYPE_APPLICATION_EXI then CA_FORMAT_APPLICATION_EXI
  else if format =? COAP_MEDIATYPE_APPLICATION_JSON then CA_FORMAT_APPLICATION_JSON
  else if format =? COAP_MEDIATYPE_APPLICATION_CBOR then CA_FORMAT_APPLICATION_CBOR
  else if format =? COAP_MEDIATYPE_APPLICATION_VND_OCF_CBOR then CA_FORMAT_APPLICATION_VND_OCF_CBOR
  else CA_FORMAT_UNSUPPORTED.

(** The bytes written to [option] before its NUL; none where 0 is returned.
    An integer of no bytes is given one. *)
Definition CAGetOptionData (key : Z) (data : list Z) (len buflen : Z) : ub (list Z) :=
  if buflen =? 0 then Some []
  else if buflen <=? len then Some []
  else
    match var_bytes_max key with
    | Some _ => if len =? 0 then Some [0] else read_at data 0 len
    | None => read_at data 0 len
    end.

(** Options the stack does not copy, besides path and query. *)
Definition block_option (t : Z) : bool :=
  existsb (Z.eqb t) [COAP_OPTION_BLOCK1; COAP_OPTION_BLOCK2; COAP_OPTION_SIZE1; COAP_OPTION_SIZE2].
Definition unsupported_option (t : Z) : bool :=
  existsb (Z.eqb t) [COAP_OPTION_URI_PORT; COAP_OPTION_URI_HOST; COAP_OPTION_ETAG; COAP_OPTION_MAXAGE;
                     COAP_OPTION_PROXY_SCHEME].
Definition uri_option (t : Z) : bool := (t =? COAP_OPTION_URI_PATH) || (t =? COAP_OPTION_URI_QUERY).
Definition counted_option (t : Z) : bool :=
  negb (uri_option t || block_option t || unsupported_option t).

Definition UINT8_MAX : Z := 255.

(** The iterator is passed by value.  One option more than a [uint8_t] counts
    fails an assertion. *)
Fixpoint count_loop (h : list Z) (oi : coap_opt_iterator_t) (n : Z) (fuel : nat) : ub Z :=
  match fuel with
  | O => None
  | S fuel =>
      '(option, oi) ← coap_option_next h oi;
      match option with
      | None => Some n
      | Some _ =>
          if counted_option (oi_type oi) then
            if n <? UINT8_MAX then count_loop h oi (n + 1) fuel else None
          else count_loop h oi n fuel
      end
  end.

Definition CAGetOptionCount (h : list Z) (oi : coap_opt_iterator_t) : ub Z :=
  count_loop h oi 0 (S (Z.to_nat (oi_length oi))).

(** ** The message *)

(** The local variables of the loop over the options: [optionResult] up to
    [optionLength], the flags, [idx] and what is filled in. *)
Record scan := {
  optionResult : list Z;
  isfirstsetflag : bool;
  isQueryBeingProcessed : bool;
  isProxyRequest : bool;
  idx : Z;
  sc_options : list CAHeaderOption_t;
  sc_payloadFormat : CAPayloadFormat_t;
  sc_acceptFormat : CAPayloadFormat_t;
  sc_payloadVersion : Z;
  sc_acceptVersion : Z;
}.

Definition append_uri (text : list Z) (first query : bool) (s : scan) : scan := {|
  optionResult := optionResult s ++ text; isfirstsetflag := first; isQueryBeingProcessed := query;
  isProxyRequest := isProxyRequest s; idx := idx s; sc_options := sc_options s;
  sc_payloadFormat := sc_payloadFormat s; sc_acceptFormat := sc_acceptFormat s;
  sc_payloadVersion := sc_payloadVersion s; sc_acceptVersion := sc_acceptVersion s |}.

(** One element of path or query; [None] where the buffer is too small. *)
Definition add_uri (t : Z) (buf : list Z) (s : scan) : option scan :=
  let room := Z.of_nat (length (optionResult s)) <? CA_MAX_URI_LENGTH in
  let put sep query :=
    let s := append_uri sep true query s in
    if Z.of_nat (length (optionResult s)) + Z.of_nat (length buf) <? CA_MAX_URI_LENGTH
    then Some (append_uri buf true query s) else None in
  if negb (isfirstsetflag s) then put [SLASH] (isQueryBeingProcessed s)
  else if t =? COAP_OPTION_URI_PATH then
    if room then put [SLASH] (isQueryBeingProcessed s) else None
  else if negb (isQueryBeingProcessed s) then if room then put [QUESTION] true else None
  else if room then put [59] true else None.

Definition DEFAULT_VERSION_VALUE : Z := 2048.

(** The integer of an option of two bytes, or the default. *)
Definition option_version (h_value : list Z) (len : Z) : ub Z :=
  if len =? 2 then v ← coap_decode_var_bytes h_value len; Some (u16 v) else Some DEFAULT_VERSION_VALUE.

Definition option_format (buf h_value : list Z) (len : Z) : ub CAPayloadFormat_t :=
  if len =? 1 then b ← byte_at buf 0; Some (CAConvertFormat b)
  else if len =? 2 then v ← coap_decode_var_bytes h_value len; Some (CAConvertFormat (u16 v))
  else Some CA_FORMAT_UNSUPPORTED.

(** The fields that some options set. *)
Definition read_field (t : Z) (buf h_value : list Z) (len : Z) (s : scan) : ub scan :=
  let upd proxy pf af pv av := {|
    optionResult := optionResult s; isfirstsetflag := isfirstsetflag s;
    isQueryBeingProcessed := isQueryBeingProcessed s; isProxyRequest := proxy; idx := idx s;
    sc_options := sc_options s; sc_payloadFormat := pf; sc_acceptFormat := af;
    sc_payloadVersion := pv; sc_acceptVersion := av |} in
  if t =? COAP_OPTION_PROXY_URI then
    Some (upd true (sc_payloadFormat s) (sc_acceptFormat s) (sc_payloadVersion s) (sc_acceptVersion s))
  else if t =? CA_OPTION_ACCEPT_VERSION then
    v ← option_version h_value len;
    Some (upd (isProxyRequest s) (sc_payloadFormat s) (sc_acceptFormat s) (sc_payloadVersion s) v)
  else if t =? COAP_OPTION_ACCEPT then
    f ← option_format buf h_value len;
    Some (upd (isProxyRequest s) (sc_payloadFormat s) f (sc_payloadVersion s) (sc_acceptVersion s))
  else if t =? CA_OPTION_CONTENT_VERSION then
    v ← option_version h_value len;
    Some (upd (isProxyRequest s) (sc_payloadFormat s) (sc_acceptFormat s) v (sc_acceptVersion s))
  else if t =? COAP_OPTION_CONTENT_FORMAT then
    f ← option_format buf h_value len;
    Some (upd (isProxyRequest s) f (sc_acceptFormat s) (sc_payloadVersion s) (sc_acceptVersion s))
  else Some s.

Definition header_option (t : Z) (buf : list Z) : CAHeaderOption_t := {|
  protocolID := CA_COAP_ID; optionID := t; optionLength := Z.of_nat (length buf);
  optionData := buf ++ drop (length buf) (optionData zero_option) |}.

(** The copy to [outInfo->options[idx]]. *)
Definition store_option (count t : Z) (buf : list Z) (s : scan) : ub scan :=
  if (idx s <? count) && (Z.of_nat (length buf) <=? CA_MAX_HEADER_OPTION_DATA_LENGTH) then
    os ← write_at (sc_options s) (idx s) [header_option t buf];
    Some {| optionResult := optionResult s; isfirstsetflag := isfirstsetflag s;
            isQueryBeingProcessed := isQueryBeingProcessed s; isProxyRequest := isProxyRequest s;
            idx := idx s + 1; sc_options := os; sc_payloadFormat := sc_payloadFormat s;
            sc_acceptFormat := sc_acceptFormat s; sc_payloadVersion := sc_payloadVersion s;
            sc_acceptVersion := sc_acceptVersion s |}
  else Some s.

(** One round of the loop, for the option at [at_]; [None] is [goto exit]. *)
Definition scan_option (h : list Z) (count t at_ : Z) (s : scan) : ub (option scan) :=
  let option := drop (Z.to_nat at_) h in
  v ← coap_opt_value option;
  len ← coap_opt_length option;
  buf ← match v with
        | Some v => CAGetOptionData t (drop (Z.to_nat v) option) len COAP_MAX_PDU_SIZE
        | None => if len =? 0 then CAGetOptionData t [] len COAP_MAX_PDU_SIZE else None
        end;
  if bool_decide (buf = []) then Some (Some s)
  else if uri_option t then Some (add_uri t buf s)
  else if block_option t then Some (Some s)
  else if unsupported_option t then Some (Some s)
  else
    s ← read_field t buf (drop (Z.to_nat (default 0 v)) option) len s;
    s ← store_option count t buf s; Some (Some s).

Inductive owned := owns_options | owns_token | owns_payload | owns_uri.
#[export] Instance owned_eq_dec : EqDecision owned.
Proof. solve_decision. Defined.

Record parse_outcome := {
  po_result : CAResult_t;
  po_code : Z;
  po_info : CAInfo_t;
  po_freed : list owned;
}.

(** The contents of a C string in a buffer. *)
Fixpoint until_nul (s : list Z) : list Z :=
  match s with [] => [] | c :: s => if c =? 0 then [] else c :: until_nul s end.

Section GetInfo.
Context {St : Type} `{HasAllocs St}.

(** The loop; [None] for [goto exit], with the variables as they are. *)
Fixpoint scan_loop (h : list Z) (count : Z) (oi : coap_opt_iterator_t) (s : scan) (fuel : nat)
    : M St (bool * scan) :=
  match fuel with
  | O => undefined
  | S fuel =>
      '(option, oi) ← lift (coap_option_next h oi);
      match option with
      | None => mret (true, s)
      | Some at_ =>
          ok ← alloc;
          if negb ok then mret (false, s)
          else
            r ← lift (scan_option h count (oi_type oi) at_ s);
            match r with
            | None => mret (false, s)
            | Some s => scan_loop h count oi s fuel
            end
      end
  end.

(** A copy of the bytes a message holds. *)
Definition duplicate (b : list Z) : M St (option (list Z)) :=
  ok ← alloc; mret (if (ok : bool) then Some b else None).

Definition with_scan (s : scan) (o : option (list CAHeaderOption_t)) (i : CAInfo_t) : CAInfo_t := {|
  type := type i; messageId := messageId i; token := token i; tokenLength := tokenLength i;
  options := o; numOptions := numOptions i; payload := payload i; payloadSize := payloadSize i;
  payloadFormat := sc_payloadFormat s; acceptFormat := sc_acceptFormat s;
  payloadVersion := sc_payloadVersion s; acceptVersion := sc_acceptVersion s;
  resourceUri := resourceUri i; identity := identity i; info_dataType := info_dataType i |}.

Definition set_numOptions (n : Z) (i : CAInfo_t) : CAInfo_t := {|
  type := type i; messageId := messageId i; token := token i; tokenLength := tokenLength i;
  options := options i; numOptions := n; payload := payload i; payloadSize := payloadSize i;
  payloadFormat := payloadFormat i; acceptFormat := acceptFormat i;
  payloadVersion := payloadVersion i; acceptVersion := acceptVersion i;
  resourceUri := resourceUri i; identity := identity i; info_dataType := info_dataType i |}.

Definition start_scan (options : list CAHeaderOption_t) : scan := {|
  optionResult := []; isfirstsetflag := false; isQueryBeingProcessed := false;
  isProxyRequest := false; idx := 0; sc_options := options;
  sc_payloadFormat := CA_FORMAT_UNDEFINED; sc_acceptFormat := CA_FORMAT_UNDEFINED;
  sc_payloadVersion := 0; sc_acceptVersion := 0 |}.

(** From the end of the loop on: token, payload and URI. *)
Definition finish_info (p : coap_pdu_t) (proxyUri : list Z) (code : Z) (s : scan)
    (info : CAInfo_t) : M St parse_outcome :=
  let out r i freed := {| po_result := r; po_code := code; po_info := i; po_freed := freed |} in
  t ← lift (coap_get_token2 (hdr p));
  tok ← (if bool_decide (t = []) then mret (Some None)
         else c ← duplicate t; mret (Some <$> c) : M St (option (option (list Z))));
  match tok with
  | None => mret (out CA_MEMORY_ALLOC_FAILED info [owns_options])
  | Some tok =>
      let info := set_token tok (Z.of_nat (length t)) info in
      d ← lift (coap_get_data p);
      pay ← (match d with
             | None => mret (Some None)
             | Some d => c ← duplicate d; mret (Some <$> c)
             end : M St (option (option (list Z))));
      match pay with
      | None => mret (out CA_MEMORY_ALLOC_FAILED info [owns_options; owns_token])
      | Some pay =>
          let info := set_payload pay (Z.of_nat (length (default [] pay))) info in
          let uri := until_nul (optionResult s) in
          u ← (if negb (bool_decide (uri = [])) then c ← duplicate uri; mret (Some <$> c)
               else if isProxyRequest s && negb (bool_decide (proxyUri = [])) then
                 c ← duplicate proxyUri; mret (Some <$> c)
               else mret (Some None) : M St (option (option (list Z))));
          mret (match u with
                | None => out CA_MEMORY_ALLOC_FAILED info [owns_options; owns_token]
                | Some u => out CA_STATUS_OK (set_resourceUri u info) []
                end)
      end
  end.

(** [proxyUri] is the contents of [g_chproxyUri]. *)
Definition CAGetInfoFromPDU (p : coap_pdu_t) (proxyUri : list Z) : M St parse_outcome :=
  oi ← lift (coap_option_iterator_init2 p None);
  c ← lift (coap_get_code p);
  let code := CA_RESPONSE_CODE c in
  count ← lift (CAGetOptionCount (hdr p) oi);
  t ← lift (udp_type (hdr p));
  id ← lift (udp_id (hdr p));
  let info := set_numOptions count (set_messageId id (set_type (message_type t) zero_info)) in
  let out r i freed := {| po_result := r; po_code := code; po_info := i; po_freed := freed |} in
  options ← (if 0 <? count then
               ok ← alloc; mret (if (ok : bool) then Some (Some (replicate (Z.to_nat count) zero_option)) else None)
             else mret (Some None) : M St (option (option (list CAHeaderOption_t))));
  match options with
  | None => mret (out CA_MEMORY_ALLOC_FAILED info [])
  | Some options =>
      let s := start_scan (default [] options) in
      ok ← alloc;
      if negb ok then mret (out CA_STATUS_FAILED (with_scan s options info) [owns_options])
      else
        '(ok, s) ← scan_loop (hdr p) count oi s (S (Z.to_nat (oi_length oi)));
        let info := with_scan s (if bool_decide (options = None) then None else Some (sc_options s)) info in
        if negb ok then mret (out CA_STATUS_FAILED info [owns_options])
        else finish_info p proxyUri code s info
  end.

(** [CAGetRequestInfoFromPDU] and [CAGetResponseInfoFromPDU], into a zeroed
    message. *)
Definition CAGetRequestInfoFromPDU (p : coap_pdu_t) (proxyUri : list Z)
    : M St (CAResult_t * CARequestInfo_t * list owned) :=
  o ← CAGetInfoFromPDU p proxyUri;
  mret (po_result o, {| method := po_code o; req_info := po_info o; req_isMulticast := false |}, po_freed o).

Definition CAGetResponseInfoFromPDU (p : coap_pdu_t) (proxyUri : list Z)
    : M St (CAResult_t * CAResponseInfo_t * list owned) :=
  o ← CAGetInfoFromPDU p proxyUri;
  mret (po_result o, {| result := po_code o; res_info := po_info o; res_isMulticast := false |}, po_freed o).

Definition CAGetErrorInfoFromPDU (p : coap_pdu_t) (proxyUri : list Z)
    : M St (CAResult_t * CAErrorInfo_t * list owned) :=
  o ← CAGetInfoFromPDU p proxyUri;
  mret (po_result o, {| err_result := CA_STATUS_OK; err_info := po_info o |}, po_freed o).

(** Into an existing message; the packet is the header and what follows. *)
Definition CAGetTokenFromPDU (h : list Z) (i : CAInfo_t) : M St (CAResult_t * CAInfo_t) :=
  t ← lift (coap_get_token2 h);
  if bool_decide (t = []) then mret (CA_STATUS_OK, set_token (token i) 0 i)
  else
    c ← duplicate t;
    mret (match c with
          | None => (CA_MEMORY_ALLOC_FAILED, set_token None (tokenLength i) i)
          | Some t => (CA_STATUS_OK, set_token (Some t) (Z.of_nat (length t)) i)
          end).

(** A Pascal string: the byte before the token is its length. *)
Definition CAGenerateTokenInternal (random : option (list Z)) (tokenLength : Z)
    : M St (CAResult_t * option (list Z)) :=
  if (CA_MAX_TOKEN_LEN <? tokenLength) || (tokenLength =? 0) then mret (CA_STATUS_INVALID_PARAM, None)
  else
    ok ← alloc;
    if negb ok then mret (CA_MEMORY_ALLOC_FAILED, None)
    else
      mret (match random with
            | None => (CA_STATUS_FAILED, None)
            | Some r => (CA_STATUS_OK, Some (tokenLength :: take (Z.to_nat tokenLength) r))
            end).
End GetInfo.

(** [CADestroyInfoInternal] frees the fields that are set. *)
Definition CADestroyInfoInternal (i : CAInfo_t) (freed : list owned) : ub unit :=
  let gone o := bool_decide (o ∈ freed) in
  if (gone owns_token && bool_decide (token i <> None))
     || (gone owns_options && bool_decide (options i <> None))
     || (gone owns_payload && bool_decide (payload i <> None))
     || (gone owns_uri && bool_decide (resourceUri i <> None))
  then None else Some tt.

(** ** What the loops compute on a message taken apart *)

#[local] Arguments wrap : simpl never.
#[local] Arguments option_bytes : simpl never.
#[local] Arguments coap_option_next : simpl never.

Definition option_text (k : Z) (v : list Z) : list Z :=
  match var_bytes_max k with Some _ => if decide (v = []) then [0] else v | None => v end.

(** [scan_option] on an option given as number and value. *)
Definition scan_value (count k : Z) (v : list Z) (s : scan) : ub (option scan) :=
  let buf := option_text k v in
  if bool_decide (buf = []) then Some (Some s)
  else if uri_option k then Some (add_uri k buf s)
  else if block_option k then Some (Some s)
  else if unsupported_option k then Some (Some s)
  else
    s ← read_field k buf v (Z.of_nat (length v)) s;
    s ← store_option count k buf s; Some (Some s).

Fixpoint scan_list (count : Z) (os : list hcoap_option) (s : scan) : ub (bool * scan) :=
  match os with
  | [] => Some (true, s)
  | (k, v) :: os =>
      r ← scan_value count k v s;
      match r with None => Some (false, s) | Some s => scan_list count os s end
  end.

Lemma decode_prefix v rest :
  coap_decode_var_bytes (v ++ rest) (Z.of_nat (length v)) = coap_decode_var_bytes v (Z.of_nat (length v)).
Proof. unfold coap_decode_var_bytes. by rewrite read_at_prefix, read_at_all. Qed.

Lemma read_field_prefix k buf v rest s :
  read_field k buf (v ++ rest) (Z.of_nat (length v)) s = read_field k buf v (Z.of_nat (length v)) s.
Proof. unfold read_field, option_version, option_format. by rewrite !decode_prefix. Qed.

Lemma option_data_spec k v rest : Z.of_nat (length v) < COAP_MAX_PDU_SIZE ->
  CAGetOptionData k (v ++ rest) (Z.of_nat (length v)) COAP_MAX_PDU_SIZE = Some (option_text k v).
Proof.
  intros Hv. unfold CAGetOptionData, option_text. change (COAP_MAX_PDU_SIZE =? 0) with false. cbv iota.
  destruct (Z.leb_spec COAP_MAX_PDU_SIZE (Z.of_nat (length v))); [lia|].
  rewrite read_at_prefix by done. destruct (var_bytes_max k); [|done].
  destruct (decide (v = [])) as [->|]; [done|].
  destruct (Z.eqb_spec (Z.of_nat (length v)) 0); [destruct v; simpl in *; [done|lia]|done].
Qed.

Lemma scan_option_spec pre k0 k v os d rest count s :
  0 <= k - k0 -> Z.of_nat (length v) < COAP_MAX_PDU_SIZE ->
  scan_option (from pre k0 ((k, v) :: os) d rest) count k (Z.of_nat (length pre)) s = scan_value count k v s.
Proof.
  intros Hk Hv. unfold scan_option, from. rewrite Nat2Z.id, drop_app_length. cbn [options_bytes].
  rewrite <- !app_assoc. rewrite value_spec by done. cbn [mbind option_bind].
  rewrite length_spec by (unfold COAP_MAX_PDU_SIZE in *; lia). cbn [mbind option_bind].
  unfold default, id. rewrite !drop_header, option_data_spec by done. cbn [mbind option_bind].
  by rewrite read_field_prefix.
Qed.

Definition short_values (os : list hcoap_option) : Prop :=
  Forall (fun o => Z.of_nat (length o.2) < COAP_MAX_PDU_SIZE) os.

Section Loops.
Context {St : Type} `{HasAllocs St}.

Lemma scan_loop_spec pre k0 os d rest count s fuel (st : St) : allocs_of st = [] -> 0 <= k0 ->
  options_ok k0 os -> short_values os -> (length os < fuel)%nat ->
  scan_loop (from pre k0 os d rest) count (iter_at pre k0 os d None) s fuel st
  = match scan_list count os s with Some r => Some (r, st) | None => None end.
Proof.
  intros Hst. revert pre k0 s fuel. induction os as [|[k v] os IH]; intros pre k0 s [|fuel] Hk0 Hos Hv Hf;
    try (simpl in Hf; lia); cbn [scan_loop scan_list].
  - by rewrite option_next_end.
  - rewrite option_next_spec by done. step (run_lift _ _ st eq_refl). cbn beta iota.
    step (alloc_ok st Hst). cbn [negb iter_at oi_type].
    pose proof Hos as ([[? ?] _] & _ & _ & Hos'). apply Forall_cons in Hv as [Hv Hvs].
    rewrite scan_option_spec by done.
    destruct (scan_value count k v s) as [[s'|]|] eqn:E; cbn [mbind option_bind].
    + step (run_lift _ _ st eq_refl). rewrite <- from_step.
      apply IH; [lia|done|done|simpl in Hf; lia].
    + by step (run_lift _ _ st eq_refl).
    + by rewrite run_bind_undef.
Qed.

Lemma count_loop_spec pre k0 os d rest n fuel : 0 <= k0 -> options_ok k0 os -> (length os < fuel)%nat ->
  0 <= n -> n + Z.of_nat (length (filter (fun o => counted_option o.1 = true) os)) <= UINT8_MAX ->
  count_loop (from pre k0 os d rest) (iter_at pre k0 os d None) n fuel
  = Some (n + Z.of_nat (length (filter (fun o => counted_option o.1 = true) os))).
Proof.
  revert pre k0 n fuel. induction os as [|[k v] os IH]; intros pre k0 n [|fuel] Hk0 Hos Hf Hn Hc;
    try (simpl in Hf; lia); cbn [count_loop].
  - rewrite option_next_end. simpl. f_equal. lia.
  - rewrite option_next_spec by done. cbn [mbind option_bind iter_at oi_type].
    pose proof Hos as ([[? ?] _] & _ & _ & Hos').
    fold (iter_at (pre ++ option_bytes (k - k0) v) k os d None). rewrite <- from_step.
    rewrite filter_cons in *. cbn [fst] in *. destruct (counted_option k) eqn:E.
    + rewrite decide_True in * by done. cbn [length] in *.
      destruct (Z.ltb_spec n UINT8_MAX); [|lia]. rewrite IH by (try done; simpl in Hf; lia). f_equal. lia.
    + rewrite decide_False in * by done. apply IH; try done; simpl in Hf; lia.
Qed.
End Loops.

(** ** The message that is read *)

(** [p] stores this message and knows where its payload is. *)
Record reads (p : coap_pdu_t) (type code id : Z) (tok : list Z) (os : list hcoap_option) (d : list Z)
    : Prop := {
  reads_stores : stores p (message_bytes type code id tok os d);
  reads_data : pdata p = data_offset (header_bytes type (Z.of_nat (length tok)) code id ++ tok) os d;
  reads_header : header_ok type 0 code id;
  reads_token : Z.of_nat (length tok) <= 8;
  reads_options : options_ok 0 os;
}.

Section Reads.
Context {p : coap_pdu_t} {type code id : Z} {tok : list Z} {os : list hcoap_option} {d : list Z}.
Hypothesis Hp : reads p type code id tok os d.

Let pre := header_bytes type (Z.of_nat (length tok)) code id ++ tok.

Lemma reads_hdr : exists rest, hdr p = from pre 0 os d rest.
Proof.
  destruct Hp as [[[rest E] _] _ _ _ _]. exists rest. rewrite E.
  unfold message_bytes, from, tail_bytes, pre. by rewrite <- !app_assoc.
Qed.

Lemma reads_first : exists r, hdr p = 64 + type * 16 + Z.of_nat (length tok) :: code :: id mod 256 :: id / 256 :: r.
Proof. destruct Hp as [[[rest E] _] _ _ _ _]. rewrite E. by eexists. Qed.

Lemma reads_tkl : udp_token_length (hdr p) = Some (Z.of_nat (length tok)).
Proof.
  destruct reads_first as [r ->], Hp as [_ _ (? & _) ? _]. apply (first_byte_fields type); lia.
Qed.

Lemma reads_type : udp_type (hdr p) = Some type.
Proof.
  destruct reads_first as [r ->], Hp as [_ _ (? & _) ? _]. apply (first_byte_fields type); lia.
Qed.

Lemma reads_version : udp_version (hdr p) = Some 1.
Proof.
  destruct reads_first as [r ->], Hp as [_ _ (? & _) ? _].
  apply (first_byte_fields type (Z.of_nat (length tok))); lia.
Qed.

Lemma reads_code : coap_get_code p = Some code.
Proof. unfold coap_get_code, udp_code. by destruct reads_first as [r ->]. Qed.

Lemma reads_id : udp_id (hdr p) = Some id.
Proof.
  unfold udp_id. destruct reads_first as [r ->]. cells_rw. f_equal.
  rewrite Z.add_comm. symmetry. apply Z.div_mod. lia.
Qed.

Lemma reads_token2 : coap_get_token2 (hdr p) = Some tok.
Proof.
  unfold coap_get_token2, udp_token. rewrite reads_tkl. cbn [mbind option_bind].
  destruct reads_hdr as [rest ->]. unfold from, pre. rewrite <- app_assoc.
  by apply (read_at_app (header_bytes type (Z.of_nat (length tok)) code id)).
Qed.

Lemma reads_get_data : coap_get_data p = Some (if decide (d = []) then None else Some d).
Proof.
  unfold coap_get_data. destruct Hp as [Hs -> _ _ _]. unfold data_offset. fold pre.
  destruct (decide (d = [])) as [|Hd]; [done|]. destruct reads_hdr as [rest ->].
  destruct Hs as [_ ->]. unfold from.
  assert (payload_bytes d = COAP_PAYLOAD_START :: d) as Ed by (by destruct d). rewrite Ed.
  assert (message_bytes type code id tok os d = (pre ++ options_bytes 0 os) ++ [COAP_PAYLOAD_START] ++ d) as ->.
  { unfold message_bytes, tail_bytes, pre. rewrite Ed, <- !app_assoc. done. }
  replace (pre ++ options_bytes 0 os ++ (COAP_PAYLOAD_START :: d) ++ rest)
    with (((pre ++ options_bytes 0 os) ++ [COAP_PAYLOAD_START]) ++ d ++ rest) by (rewrite <- !app_assoc; done).
  rewrite read_at_app; [done| |]; rewrite !length_app; simpl; lia.
Qed.

(** The iterator in front of the first option, or one that is at its end. *)
Lemma reads_iterator : exists oi, coap_option_iterator_init2 p None = Some oi /\
  (oi = iter_at pre 0 os d None \/ (os = [] /\ d = [] /\ oi_bad oi = true)).
Proof.
  unfold coap_option_iterator_init2. rewrite reads_tkl. cbn [mbind option_bind].
  pose proof Hp as [[_ ->] _ _ _ _]. rewrite length_message. unfold UDP_HEADER.
  destruct (Z.leb_spec (Z.of_nat (4 + length tok + length (tail_bytes os d))) (4 + Z.of_nat (length tok))).
  - eexists. split; [done|]. right. pose proof (options_longer 0 os). unfold tail_bytes in *.
    rewrite length_app in *. destruct os; [|simpl in *; lia]. destruct d; [done|simpl in *; lia].
  - eexists. split; [done|]. left. unfold iter_at, pre, tail_bytes. rewrite length_app. f_equal; simpl; lia.
Qed.
End Reads.

Lemma option_next_bad h oi : oi_bad oi = true -> coap_option_next h oi = Some (None, bad_iterator oi).
Proof. intros E. unfold coap_option_next, opt_finished. by rewrite E. Qed.

Definition counted (os : list hcoap_option) : list hcoap_option :=
  filter (fun o => counted_option o.1 = true) os.

(** What [CAGetInfoFromPDU] fills in when nothing fails. *)
Definition received_info (type id : Z) (tok d proxyUri : list Z) (count : Z) (s : scan) : CAInfo_t := {|
  CaMessage.type := message_type type; messageId := id;
  token := if decide (tok = []) then None else Some tok; tokenLength := Z.of_nat (length tok);
  options := if decide (count = 0) then None else Some (sc_options s); numOptions := count;
  payload := if decide (d = []) then None else Some d; payloadSize := Z.of_nat (length d);
  payloadFormat := sc_payloadFormat s; acceptFormat := sc_acceptFormat s;
  payloadVersion := sc_payloadVersion s; acceptVersion := sc_acceptVersion s;
  resourceUri := if decide (until_nul (optionResult s) = []) then
                   if isProxyRequest s && negb (bool_decide (proxyUri = [])) then Some proxyUri else None
                 else Some (until_nul (optionResult s));
  identity := no_identity; info_dataType := None |}.

Section Info.
Context {St : Type} `{HasAllocs St}.

Lemma duplicate_ok b (st : St) : allocs_of st = [] -> duplicate b st = Some (Some b, st).
Proof. intros Hst. unfold duplicate. by step (alloc_ok st Hst). Qed.

Lemma finish_info_spec p type code id tok os d proxyUri (st : St) s c info :
  reads p type code id tok os d -> allocs_of st = [] ->
  token info = None -> resourceUri info = None -> payload info = None ->
  exists o, finish_info p proxyUri c s info st = Some (o, st) /\ po_code o = c /\
    po_result o = CA_STATUS_OK /\ po_freed o = [] /\
    po_info o = set_resourceUri
      (if decide (until_nul (optionResult s) = []) then
         if isProxyRequest s && negb (bool_decide (proxyUri = [])) then Some proxyUri else None
       else Some (until_nul (optionResult s)))
      (set_payload (if decide (d = []) then None else Some d) (Z.of_nat (length d))
        (set_token (if decide (tok = []) then None else Some tok) (Z.of_nat (length tok)) info)).
Proof.
  intros Hp Hst H1 H2 H3. unfold finish_info. cbv zeta. step (run_lift _ _ st (reads_token2 Hp)).
  assert ((if bool_decide (tok = []) then mret (Some None)
           else c0 ← duplicate tok; mret (Some <$> c0) : M St (option (option (list Z)))) st
          = Some (Some (if decide (tok = []) then None else Some tok), st)) as Et.
  { destruct (decide (tok = [])) as [->|]; [done|]. rewrite bool_decide_false by done.
    by step (duplicate_ok tok st Hst). }
  step Et. cbn beta iota. step (run_lift _ _ st (reads_get_data Hp)).
  assert ((match (if decide (d = []) then None else Some d) with
           | Some d => c0 ← duplicate d; mret (Some <$> c0)
           | None => mret (Some None)
           end : M St (option (option (list Z)))) st
          = Some (Some (if decide (d = []) then None else Some d), st)) as Ed.
  { destruct (decide (d = [])) as [->|]; [done|]. by step (duplicate_ok d st Hst). }
  step Ed. cbn beta iota.
  assert (length (default [] (if decide (d = []) then None else Some d)) = length d) as ->
    by (by destruct (decide (d = [])) as [->|]).
  match goal with |- context [(?m ≫= _) st] => assert (m st
    = Some (Some (if decide (until_nul (optionResult s) = []) then
         if isProxyRequest s && negb (bool_decide (proxyUri = [])) then Some proxyUri else None
       else Some (until_nul (optionResult s))), st)) as Eu end.
  { destruct (decide (until_nul (optionResult s) = [])) as [->|].
    - rewrite bool_decide_true by done. cbn [negb].  destruct (isProxyRequest s && _); [|done].
      by step (duplicate_ok proxyUri st Hst).
    - rewrite bool_decide_false by done. cbn [negb]. by step (duplicate_ok _ st Hst). }
  step Eu. eexists. split; [reflexivity|]. by cbn.
Qed.

(** Nothing fails: every field from the message. *)
Lemma get_info_spec p type code id tok os d proxyUri (st : St) ok s :
  reads p type code id tok os d -> allocs_of st = [] -> short_values os ->
  Z.of_nat (length (counted os)) <= UINT8_MAX ->
  let count := Z.of_nat (length (counted os)) in
  scan_list count os (start_scan (replicate (length (counted os)) zero_option)) = Some (ok, s) ->
  exists o, CAGetInfoFromPDU p proxyUri st = Some (o, st) /\
    po_code o = CA_RESPONSE_CODE code /\
    if ok : bool then po_result o = CA_STATUS_OK /\ po_freed o = [] /\
                      po_info o = received_info type id tok d proxyUri count s
    else po_result o = CA_STATUS_FAILED /\ po_freed o = [owns_options] /\
         (options (po_info o) = None <-> count = 0).
Proof.
  intros Hp Hst Hv Hc count Hscan. pose proof Hp as [_ _ _ _ Hos].
  unfold CAGetInfoFromPDU. destruct (reads_iterator Hp) as (oi & Ei & Hoi).
  step (run_lift _ _ st Ei). step (run_lift _ _ st (reads_code Hp)). cbv zeta.
  assert (CAGetOptionCount (hdr p) oi = Some count) as Ecount.
  { unfold CAGetOptionCount. destruct (reads_hdr Hp) as [rest ->].
    destruct Hoi as [->|(-> & -> & Hb)].
    - rewrite count_loop_spec; try done; unfold counted in *; try lia.
      cbn [iter_at oi_length]. pose proof (options_longer 0 os). rewrite length_app. lia.
    - cbn [count_loop]. by rewrite option_next_bad. }
  step (run_lift _ _ st Ecount). step (run_lift _ _ st (reads_type Hp)). step (run_lift _ _ st (reads_id Hp)).
  set (info := set_numOptions _ _).
  set (opts := if decide (count = 0) then None else Some (replicate (length (counted os)) zero_option)).
  match goal with |- context [(?m ≫= _) st] => assert (m st = Some (Some opts, st)) as Eo end.
  { unfold opts. destruct (Z.ltb_spec 0 count).
    - step (alloc_ok st Hst). rewrite decide_False by lia. unfold count. by rewrite Nat2Z.id.
    - by rewrite decide_True by lia. }
  step Eo. cbn beta iota. step (alloc_ok st Hst). cbn [negb].
  assert (default [] opts = replicate (length (counted os)) zero_option) as ->.
  { unfold opts. destruct (decide (count = 0)); [|done]. by replace (length (counted os)) with O by lia. }
  assert (scan_loop (hdr p) count oi (start_scan (replicate (length (counted os)) zero_option))
            (S (Z.to_nat (oi_length oi))) st = Some ((ok, s), st)) as El.
  { destruct (reads_hdr Hp) as [rest ->]. destruct Hoi as [->|(-> & -> & Hb)].
    - rewrite scan_loop_spec; try done; try lia; [by rewrite Hscan|].
      cbn [iter_at oi_length]. pose proof (options_longer 0 os). rewrite length_app. lia.
    - cbn [scan_loop]. rewrite option_next_bad by done. simpl in Hscan. by simplify_eq. }
  step El. cbn beta iota.
  assert ((if bool_decide (opts = None) then None else Some (sc_options s))
          = (if decide (count = 0) then None else Some (sc_options s))) as ->
    by (unfold opts; by destruct (decide (count = 0))).
  destruct ok; cbn [negb].
  - destruct (finish_info_spec p type code id tok os d proxyUri st s (CA_RESPONSE_CODE code)
      (with_scan s (if decide (count = 0) then None else Some (sc_options s)) info) Hp Hst)
      as (o & -> & Hcode & Hr & Hf & Hi); [done..|].
    exists o. by rewrite Hi.
  - eexists. split; [reflexivity|]. cbn. split; [done|]. split; [done|]. split; [done|].
    by destruct (decide (count = 0)).
Qed.
End Info.

(** ** What the options leave behind *)

Definition uri_state (s : scan) : list Z * bool * bool :=
  (optionResult s, isfirstsetflag s, isQueryBeingProcessed s).

(** The URI, from the elements of path and query in their order. *)
Fixpoint uri_fold (os : list hcoap_option) (u : list Z * bool * bool) : option (list Z * bool * bool) :=
  match os with
  | [] => Some u
  | (k, v) :: os =>
      if uri_option k && negb (bool_decide (v = [])) then
        let '(text, first, query) := u in
        let s := add_uri k v {|
          optionResult := text; isfirstsetflag := first; isQueryBeingProcessed := query;
          isProxyRequest := false; idx := 0; sc_options := []; sc_payloadFormat := CA_FORMAT_UNDEFINED;
          sc_acceptFormat := CA_FORMAT_UNDEFINED; sc_payloadVersion := 0; sc_acceptVersion := 0 |} in
        match s with Some s => uri_fold os (uri_state s) | None => None end
      else uri_fold os u
  end.

Definition format_value (k : Z) (v : list Z) : CAPayloadFormat_t :=
  default CA_FORMAT_UNSUPPORTED (option_format (option_text k v) v (Z.of_nat (length v))).
Definition version_value (v : list Z) : Z :=
  default DEFAULT_VERSION_VALUE (option_version v (Z.of_nat (length v))).

(** The last option of this number decides. *)
Definition format_after (k : Z) (os : list hcoap_option) (f : CAPayloadFormat_t) : CAPayloadFormat_t :=
  foldl (fun f o => if o.1 =? k then format_value k o.2 else f) f os.
Definition version_after (k : Z) (os : list hcoap_option) (n : Z) : Z :=
  foldl (fun n o => if (o.1 =? k) && negb (bool_decide (o.2 = [])) then version_value o.2 else n) n os.

(** The options that are copied. *)
Definition copied_option (o : hcoap_option) : Prop :=
  counted_option o.1 = true /\ option_text o.1 o.2 <> [] /\
  Z.of_nat (length (option_text o.1 o.2)) <= CA_MAX_HEADER_OPTION_DATA_LENGTH.
#[export] Instance copied_option_dec o : Decision (copied_option o).
Proof. unfold copied_option. apply _. Defined.

Definition stored_options (os : list hcoap_option) : list CAHeaderOption_t :=
  (fun o => header_option o.1 (option_text o.1 o.2)) <$> filter copied_option os.

Record scanned (os : list hcoap_option) (s s' : scan) : Prop := {
  scanned_uri : uri_fold os (uri_state s) = Some (uri_state s');
  scanned_options : sc_options s' = take (Z.to_nat (idx s)) (sc_options s) ++ stored_options os ++
    drop (Z.to_nat (idx s) + length (stored_options os)) (sc_options s);
  scanned_idx : idx s' = idx s + Z.of_nat (length (stored_options os));
  scanned_payload : sc_payloadFormat s' = format_after COAP_OPTION_CONTENT_FORMAT os (sc_payloadFormat s);
  scanned_accept : sc_acceptFormat s' = format_after COAP_OPTION_ACCEPT os (sc_acceptFormat s);
  scanned_pversion : sc_payloadVersion s' = version_after CA_OPTION_CONTENT_VERSION os (sc_payloadVersion s);
  scanned_aversion : sc_acceptVersion s' = version_after CA_OPTION_ACCEPT_VERSION os (sc_acceptVersion s);
  scanned_proxy : isProxyRequest s' = isProxyRequest s ||
    existsb (fun o => (o.1 =? COAP_OPTION_PROXY_URI) && negb (bool_decide (o.2 = []))) os;
}.

Lemma option_text_nil k v : option_text k v = [] -> v = [].
Proof. unfold option_text. destruct (var_bytes_max k); [|done]. by destruct (decide (v = [])). Qed.

Lemma option_text_string k v : var_bytes_max k = None -> option_text k v = v.
Proof. intros E. unfold option_text. by rewrite E. Qed.

Lemma option_text_uint k v m : var_bytes_max k = Some m -> option_text k v <> [].
Proof. intros E. unfold option_text. rewrite E. by destruct (decide (v = [])). Qed.

Lemma add_uri_same k v s : uri_state <$> add_uri k v s
  = uri_state <$> add_uri k v {|
      optionResult := optionResult s; isfirstsetflag := isfirstsetflag s;
      isQueryBeingProcessed := isQueryBeingProcessed s; isProxyRequest := false; idx := 0;
      sc_options := []; sc_payloadFormat := CA_FORMAT_UNDEFINED; sc_acceptFormat := CA_FORMAT_UNDEFINED;
      sc_payloadVersion := 0; sc_acceptVersion := 0 |}.
Proof. unfold add_uri. cbn. repeat case_match; done. Qed.

Lemma add_uri_frame k v s s' : add_uri k v s = Some s' ->
  idx s' = idx s /\ sc_options s' = sc_options s /\ isProxyRequest s' = isProxyRequest s /\
  sc_payloadFormat s' = sc_payloadFormat s /\ sc_acceptFormat s' = sc_acceptFormat s /\
  sc_payloadVersion s' = sc_payloadVersion s /\ sc_acceptVersion s' = sc_acceptVersion s.
Proof. unfold add_uri. intros E. repeat case_match; simplify_eq; done. Qed.

Lemma decode_two a b : is_byte a -> is_byte b -> coap_decode_var_bytes [a; b] 2 = Some (a * 256 + b).
Proof.
  intros Ha Hb. unfold is_byte in *. unfold coap_decode_var_bytes. rewrite read_at_all by done.
  cbn [mbind option_bind foldl]. change (0 <<< 8) with 0. change (u32 0) with 0.
  rewrite Z.add_0_l. rewrite (wrap_small 32 a) by lia. rewrite Z.shiftl_mul_pow2 by lia.
  change (2 ^ 8) with 256. rewrite (wrap_small 32 (a * 256)), wrap_small by lia. done.
Qed.

Lemma version_value_spec v : option_version v (Z.of_nat (length v)) = Some (version_value v).
Proof.
  unfold version_value, option_version. destruct (Z.eqb_spec (Z.of_nat (length v)) 2); [|done].
  unfold coap_decode_var_bytes. by rewrite read_at_all.
Qed.

Lemma format_value_spec k v :
  option_format (option_text k v) v (Z.of_nat (length v)) = Some (format_value k v).
Proof.
  unfold format_value, option_format. destruct (Z.eqb_spec (Z.of_nat (length v)) 1) as [E|].
  - destruct v as [|a [|b v]]; simpl in E; try lia. unfold option_text.
    destruct (var_bytes_max k); [|by rewrite byte_at_0].
    rewrite decide_False by done. by rewrite byte_at_0.
  - destruct (Z.eqb_spec (Z.of_nat (length v)) 2); [|done].
    unfold coap_decode_var_bytes. by rewrite read_at_all.
Qed.

(** One option that is neither path nor query. *)
Record field_read (k : Z) (v : list Z) (s s' : scan) : Prop := {
  fr_uri : uri_state s' = uri_state s;
  fr_options : sc_options s' = sc_options s;
  fr_idx : idx s' = idx s;
  fr_payload : sc_payloadFormat s' = format_after COAP_OPTION_CONTENT_FORMAT [(k, v)] (sc_payloadFormat s);
  fr_accept : sc_acceptFormat s' = format_after COAP_OPTION_ACCEPT [(k, v)] (sc_acceptFormat s);
  fr_pversion : sc_payloadVersion s' = version_after CA_OPTION_CONTENT_VERSION [(k, v)] (sc_payloadVersion s);
  fr_aversion : sc_acceptVersion s' = version_after CA_OPTION_ACCEPT_VERSION [(k, v)] (sc_acceptVersion s);
  fr_proxy : isProxyRequest s' = isProxyRequest s ||
    ((k =? COAP_OPTION_PROXY_URI) && negb (bool_decide (v = [])));
}.

Lemma var_bytes_versions :
  var_bytes_max CA_OPTION_ACCEPT_VERSION = None /\ var_bytes_max CA_OPTION_CONTENT_VERSION = None /\
  var_bytes_max COAP_OPTION_PROXY_URI = None /\ var_bytes_max COAP_OPTION_URI_PATH = None /\
  var_bytes_max COAP_OPTION_URI_QUERY = None.
Proof. done. Qed.

Lemma read_field_spec k v s : option_text k v <> [] ->
  exists s', read_field k (option_text k v) v (Z.of_nat (length v)) s = Some s' /\ field_read k v s s'.
Proof.
  intros Ht. destruct var_bytes_versions as (E1 & E2 & E3 & _). unfold read_field.
  destruct (Z.eqb_spec k COAP_OPTION_PROXY_URI) as [->|N1].
  { rewrite option_text_string in Ht by done. eexists. split; [reflexivity|]. split; try done. cbn.
    rewrite bool_decide_false by done. by destruct (isProxyRequest s). }
  destruct (Z.eqb_spec k CA_OPTION_ACCEPT_VERSION) as [->|N2].
  { rewrite option_text_string in Ht by done. rewrite version_value_spec. eexists.
    split; [reflexivity|]. split; try done; cbn; [by rewrite bool_decide_false|by rewrite orb_false_r]. }
  destruct (Z.eqb_spec k COAP_OPTION_ACCEPT) as [->|N3].
  { rewrite format_value_spec. eexists. split; [reflexivity|]. split; try done; cbn. by rewrite orb_false_r. }
  destruct (Z.eqb_spec k CA_OPTION_CONTENT_VERSION) as [->|N4].
  { rewrite option_text_string in Ht by done. rewrite version_value_spec. eexists.
    split; [reflexivity|]. split; try done; cbn; [by rewrite bool_decide_false|by rewrite orb_false_r]. }
  destruct (Z.eqb_spec k COAP_OPTION_CONTENT_FORMAT) as [->|N5].
  { rewrite format_value_spec. eexists. split; [reflexivity|]. split; try done; cbn. by rewrite orb_false_r. }
  eexists. split; [reflexivity|]. split; try done; unfold format_after, version_after; cbn;
    repeat match goal with |- context [k =? ?c] => destruct (Z.eqb_spec k c); [done|] end; cbn;
    by rewrite ?orb_false_r.
Qed.

Lemma store_option_spec count k buf s : 0 <= idx s ->
  idx s + Z.of_nat (length (if decide (Z.of_nat (length buf) <= CA_MAX_HEADER_OPTION_DATA_LENGTH) then [buf] else [])) <= count ->
  Z.of_nat (length (sc_options s)) = count ->
  exists s', store_option count k buf s = Some s' /\ uri_state s' = uri_state s /\
    sc_payloadFormat s' = sc_payloadFormat s /\ sc_acceptFormat s' = sc_acceptFormat s /\
    sc_payloadVersion s' = sc_payloadVersion s /\ sc_acceptVersion s' = sc_acceptVersion s /\
    isProxyRequest s' = isProxyRequest s /\
    let new := if decide (Z.of_nat (length buf) <= CA_MAX_HEADER_OPTION_DATA_LENGTH)
               then [header_option k buf] else [] in
    idx s' = idx s + Z.of_nat (length new) /\
    sc_options s' = take (Z.to_nat (idx s)) (sc_options s) ++ new ++
                    drop (Z.to_nat (idx s) + length new) (sc_options s).
Proof.
  intros Hi Hc Hlen. unfold store_option.
  destruct (Z.leb_spec (Z.of_nat (length buf)) CA_MAX_HEADER_OPTION_DATA_LENGTH) as [Hb|Hb].
  - rewrite decide_True in Hc by done. rewrite decide_True by done. simpl in Hc. destruct (Z.ltb_spec (idx s) count); [|lia]. cbn [andb].
    rewrite write_at_ok by (simpl; lia). cbn [mbind option_bind]. eexists. split; [reflexivity|]. done.
  - rewrite decide_False in Hc by lia. rewrite decide_False by lia. rewrite andb_false_r. exists s. repeat (split; [done|]).
    split; [simpl; lia|]. cbn [length app]. by rewrite Nat.add_0_r, take_drop.
Qed.

Lemma stored_options_cons o os : stored_options (o :: os) = stored_options [o] ++ stored_options os.
Proof. unfold stored_options. rewrite <- fmap_app, <- filter_app. done. Qed.

Lemma uri_fold_cons o os u : uri_fold (o :: os) u = u' ← uri_fold [o] u; uri_fold os u'.
Proof.
  destruct o as [k v], u as [[text first] query]. cbn [uri_fold].
  destruct (uri_option k && _); [|done]. by destruct (add_uri k v _).
Qed.

Lemma scanned_cons o os s s1 s' : 0 <= idx s -> scanned [o] s s1 -> scanned os s1 s' ->
  idx s + Z.of_nat (length (stored_options (o :: os))) <= Z.of_nat (length (sc_options s)) ->
  scanned (o :: os) s s'.
Proof.
  intros Hi [A1 A2 A3 A4 A5 A6 A7 A8] [B1 B2 B3 B4 B5 B6 B7 B8] Hlen.
  rewrite (stored_options_cons o os) in Hlen. rewrite length_app in Hlen.
  split; rewrite ?(stored_options_cons o os).
  - by rewrite uri_fold_cons, A1.
  - rewrite B2, A2, A3, <- !app_assoc. set (n := Z.to_nat (idx s)) in *.
    replace (Z.to_nat (idx s + Z.of_nat (length (stored_options [o]))))
      with (n + length (stored_options [o]))%nat by lia.
    set (l := sc_options s) in *. set (x := stored_options [o]) in *. set (y := stored_options os) in *.
    assert (length (take n l) = n) as Hn by (rewrite length_take; lia).
    assert (take (n + length x) (take n l ++ x ++ drop (n + length x) l) = take n l ++ x) as ->.
    { rewrite app_assoc, take_app_le by (rewrite length_app; lia). apply take_ge. rewrite length_app; lia. }
    assert (drop (n + length x + length y) (take n l ++ x ++ drop (n + length x) l)
            = drop (n + length x + length y) l) as ->.
    { rewrite app_assoc, drop_app_ge by (rewrite length_app; lia). rewrite length_app, Hn, drop_drop. f_equal. lia. }
    rewrite <- !app_assoc, length_app. do 3 f_equal. f_equal. lia.
  - rewrite B3, A3, length_app. lia.
  - by rewrite B4, A4.
  - by rewrite B5, A5.
  - by rewrite B6, A6.
  - by rewrite B7, A7.
  - rewrite B8, A8. cbn. by rewrite orb_false_r, orb_assoc.
Qed.

(** An option that only the stack looks at changes nothing. *)
Lemma scanned_skip k v s : 
  (uri_option k = false \/ v = []) -> (counted_option k = false \/ option_text k v = []) -> scanned [(k, v)] s s.
Proof.
  intros Hu Hc.
  assert (stored_options [(k, v)] = []) as E.
  { unfold stored_options. rewrite filter_cons_False; [done|]. intros (? & ? & _). simpl in *. by destruct Hc; congruence. }
  assert (forall c, counted_option c = true -> k <> c \/ option_text c v = []) as Hne.
  { intros c Hcc. destruct (Z.eq_dec k c) as [->|]; [|by left]. destruct Hc; [congruence|by right]. }
  split; rewrite ?E; cbn.
  - destruct Hu as [-> | ->]; [done|]. by rewrite bool_decide_true, andb_false_r.
  - by rewrite Nat.add_0_r, take_drop.
  - lia.
  - destruct (Z.eqb_spec k COAP_OPTION_CONTENT_FORMAT) as [->|]; [|done].
    destruct (Hne COAP_OPTION_CONTENT_FORMAT eq_refl) as [?|Ht]; [done|]. by apply (option_text_uint _ _ 2) in Ht.
  - destruct (Z.eqb_spec k COAP_OPTION_ACCEPT) as [->|]; [|done].
    destruct (Hne COAP_OPTION_ACCEPT eq_refl) as [?|Ht]; [done|]. by apply (option_text_uint _ _ 2) in Ht.
  - destruct (Z.eqb_spec k CA_OPTION_CONTENT_VERSION) as [->|]; [|done].
    destruct (Hne CA_OPTION_CONTENT_VERSION eq_refl) as [?| ->%option_text_nil]; done.
  - destruct (Z.eqb_spec k CA_OPTION_ACCEPT_VERSION) as [->|]; [|done].
    destruct (Hne CA_OPTION_ACCEPT_VERSION eq_refl) as [?| ->%option_text_nil]; done.
  - destruct (Z.eqb_spec k COAP_OPTION_PROXY_URI) as [->|]; [|by rewrite orb_false_r].
    destruct (Hne COAP_OPTION_PROXY_URI eq_refl) as [?| ->%option_text_nil]; [done|]. by rewrite orb_false_r.
Qed.

Lemma scan_value_spec count k v s : 0 <= idx s -> Z.of_nat (length (sc_options s)) = count ->
  idx s + Z.of_nat (length (stored_options [(k, v)])) <= count ->
  is_Some (uri_fold [(k, v)] (uri_state s)) ->
  exists s1, scan_value count k v s = Some (Some s1) /\ scanned [(k, v)] s s1.
Proof.
  intros Hi Hlen Hroom Hu. unfold scan_value.
  case_bool_decide as Ht.
  { exists s. split; [done|]. apply scanned_skip; [|by right]. right. by eapply option_text_nil. }
  destruct (uri_option k) eqn:Eu.
  { assert (option_text k v = v) as Ev.
    { apply option_text_string. unfold uri_option in Eu. apply orb_true_iff in Eu as [->%Z.eqb_eq| ->%Z.eqb_eq]; done. }
    rewrite Ev in *. cbn [uri_fold uri_state] in Hu. rewrite Eu, bool_decide_false in Hu by done. cbn [negb andb] in Hu.
    pose proof (add_uri_same k v s) as Es. destruct (add_uri k v _) as [u|] eqn:E1 in Hu; [|by destruct Hu].
    rewrite E1 in Es. destruct (add_uri k v s) as [s1|] eqn:E2; [|done]. cbn in Es. simplify_eq.
    exists s1. split; [done|]. apply add_uri_frame in E2 as (F1 & F2 & F3 & F4 & F5 & F6 & F7).
    assert (counted_option k = false) as Hc by (unfold counted_option; by rewrite Eu).
    assert (scanned [(k, [])] s s) as [G1 G2 G3 G4 G5 G6 G7 G8] by (apply scanned_skip; auto).
    assert (forall c, counted_option c = true -> (k =? c) = false) as Hne
      by (intros c Hcc; apply Z.eqb_neq; congruence).
    assert (stored_options [(k, v)] = []) as Est.
    { unfold stored_options. rewrite filter_cons_False; [done|]. intros (? & _). simpl in *. congruence. }
    split; rewrite ?Est; cbn; rewrite ?Hne by done; rewrite ?orb_false_r; try done.
    - cbn [uri_fold uri_state]. rewrite Eu, bool_decide_false by done. cbn [negb andb].
      rewrite E1. cbn [uri_fold]. unfold uri_state. congruence.
    - by rewrite F2, Nat.add_0_r, take_drop.
    - lia. }
  destruct (block_option k || unsupported_option k) eqn:Eb.
  { exists s. split; [by destruct (block_option k), (unsupported_option k)|].
    apply scanned_skip; [by left|left]. unfold counted_option. by rewrite Eu, <- orb_assoc, Eb. }
  assert (counted_option k = true) as Hc by (unfold counted_option; by rewrite Eu, <- orb_assoc, Eb).
  apply orb_false_iff in Eb as [-> ->].
  destruct (read_field_spec k v s Ht) as (s0 & -> & [R1 R2 R3 R4 R5 R6 R7 R8]). cbn [mbind option_bind].
  assert (stored_options [(k, v)] = if decide (Z.of_nat (length (option_text k v)) <= CA_MAX_HEADER_OPTION_DATA_LENGTH)
            then [header_option k (option_text k v)] else []) as Est.
  { unfold stored_options. rewrite filter_cons. destruct (decide (Z.of_nat _ <= _)).
    - by rewrite decide_True.
    - rewrite decide_False; [done|]. by intros (_ & _ & ?). }
  rewrite Est in Hroom.
  destruct (store_option_spec count k (option_text k v) s0) as (s1 & -> & S1 & S2 & S3 & S4 & S5 & S6 & S7 & S8);
    [lia|rewrite R3; by destruct (decide _)|by rewrite R2|].
  cbn [mbind option_bind]. exists s1. split; [done|].
  split; rewrite ?Est; try congruence.
  - cbn [uri_fold uri_state]. rewrite Eu. cbn [andb]. congruence.
  - rewrite S6, R8. cbn. by rewrite orb_false_r.
Qed.

Lemma scan_list_spec count os s : 0 <= idx s -> Z.of_nat (length (sc_options s)) = count ->
  idx s + Z.of_nat (length (stored_options os)) <= count -> is_Some (uri_fold os (uri_state s)) ->
  exists s', scan_list count os s = Some (true, s') /\ scanned os s s'.
Proof.
  revert s. induction os as [|[k v] os IH]; intros s Hi Hlen Hroom Hu.
  - exists s. split; [done|]. split; try done; cbn.
    + by rewrite Nat.add_0_r, take_drop.
    + lia.
    + by rewrite orb_false_r.
  - rewrite stored_options_cons, length_app in Hroom. rewrite uri_fold_cons in Hu.
    destruct (uri_fold [(k, v)] (uri_state s)) as [u|] eqn:Eu; [|by destruct Hu]. cbn [mbind option_bind] in Hu.
    destruct (scan_value_spec count k v s) as (s1 & E1 & H1); try done; [lia|].
    cbn [scan_list]. rewrite E1. cbn [mbind option_bind]. pose proof H1 as [A1 A2 A3 _ _ _ _ _].
    destruct (IH s1) as (s' & E2 & H2).
    + lia.
    + rewrite A2, !length_app, length_take, length_drop. lia.
    + lia.
    + rewrite A1 in Eu. by simplify_eq.
    + exists s'. split; [done|]. eapply scanned_cons; try done.
      rewrite (stored_options_cons (k, v) os), length_app. lia.
Qed.
