(* ===== verification/CoapRoundTrip.v ===== *)
(** * CoapRoundTrip: what is sent is what is received

    Puts the two halves of [connectivity/src/caprotocolmessage.c] together: the
    bytes [CAGeneratePDU] leaves for a message over BLE, where the options and
    the payload go into the packet at once, and what [CAParsePDU] and
    [CAGetRequestInfoFromPDU] make of them. *)
From S2P Require Import Prelude Effects CaCommon CoapOption CoapPdu CoapUri CaMessage ProtocolMessage CoapMessage CoapReceive.

#[local] Arguments wrap : simpl never.
#[local] Arguments option_bytes : simpl never.

(** ** The packet of a message *)

(** The byte for the number of a method or a result. *)
Definition code_byte (n : Z) : Z := u8 (COAP_RESPONSE_CODE n).

Lemma code_byte_range n : 0 <= code_byte n < 256.
Proof. unfold code_byte. pose proof (wrap_range 8 (COAP_RESPONSE_CODE n)). simpl in *. lia. Qed.

(** Class and detail that fit their bits. *)
Definition code_ok (n : Z) : Prop := 0 <= n < 800 /\ n mod 100 < 32.

Lemma code_byte_inv n : code_ok n -> CA_RESPONSE_CODE (code_byte n) = n /\ (code_byte n = 0 -> n = 0).
Proof.
  intros [Hn Hd].
  assert (H : forallb (fun n => (32 <=? n mod 100) || ((CA_RESPONSE_CODE (code_byte n) =? n)
    && (negb (code_byte n =? 0) || (n =? 0)))) (seqZ 0 800) = true) by (vm_compute; reflexivity).
  rewrite forallb_forall in H. specialize (H n ltac:(apply list_elem_of_In, elem_of_seqZ; lia)).
  destruct (Z.leb_spec 32 (n mod 100)); [lia|]. cbn [orb] in H.
  apply andb_true_iff in H as [H1%Z.eqb_eq H2]. split; [done|]. intros E. rewrite E in H2.
  by apply Z.eqb_eq in H2.
Qed.

Lemma type_code_range t : 0 <= type_code t < 4.
Proof. destruct t; simpl; lia. Qed.

Lemma message_type_code t : message_type (type_code t) = t.
Proof. by destruct t. Qed.

(** The header [CAGeneratePDUImpl] makes of the one that [coap_pdu_init2] leaves. *)
Lemma set_header p t n id : holds p (header_bytes 0 0 0 INVALID_TID) 0 -> 0 <= id < 65536 ->
  exists p', (h ← set_id (hdr p) id; h ← set_bits h 0 4 2 (type_code t);
              coap_add_code (set_hdr h p) n) = Some p' /\
    holds p' (header_bytes (type_code t) 0 (code_byte n) id) 0 /\ max_size p' = max_size p /\
    pdata p' = pdata p.
Proof.
  intros [[rest E] Hl Hs Hm Hd] Hid. rewrite E. unfold header_bytes at 1. cbn [app].
  rewrite set_id_bytes by done. cbn [mbind option_bind].
  rewrite CoapPdu.set_type by apply type_code_range. cbn [mbind option_bind].
  unfold coap_add_code. cbn [set_hdr hdr]. cells_rw. eexists. split; [reflexivity|].
  split; [|done]. split; cbn [set_hdr hdr plength max_size max_delta]; try done.
  - exists rest. unfold header_bytes. cbn [app]. f_equal. change ((64 + 0 * 16 + 0) mod 16) with 0.
    change ((64 + 0 * 16 + 0) / 64 * 64) with 64. lia.
  - rewrite Hs, E. done.
Qed.

(** A token of no bytes needs no buffer. *)
Record token_ok (info : CAInfo_t) (tok : list Z) : Prop := {
  token_short : Z.of_nat (length tok) <= CA_MAX_TOKEN_LEN;
  token_is : token info = Some tok /\ tokenLength info = Z.of_nat (length tok) \/ token info = None /\ tok = [];
}.

Lemma add_token p code id t info tok : token_ok info tok ->
  holds p (header_bytes (type_code t) 0 code id) 0 ->
  header_ok (type_code t) 0 code id -> max_size p = COAP_MAX_PDU_SIZE -> pdata p = None -> forall n, n <> CA_EMPTY ->
  exists p', (match token info with
              | Some t => if n =? CA_EMPTY then Some p
                          else '(_, p) ← coap_add_token2 (Some p) (tokenLength info) t; p
              | None => Some p
              end) = Some p' /\
    holds p' (header_bytes (type_code t) (Z.of_nat (length tok)) code id ++ tok) 0 /\
    max_size p' = COAP_MAX_PDU_SIZE /\ pdata p' = None.
Proof.
  intros [Hs Ht] Hp Hh Hm Hd n Hn. destruct Ht as [[-> ->]|[-> ->]].
  - destruct (Z.eqb_spec n CA_EMPTY); [done|]. unfold CA_MAX_TOKEN_LEN, COAP_MAX_PDU_SIZE in *.
    destruct (add_token_holds p (type_code t) code id tok Hp Hh) as (p' & -> & Hp' & Hm' & Hd'); [lia|lia|].
    cbn [mbind option_bind]. exists p'. repeat (split; [done|]). split; congruence.
  - exists p. rewrite app_nil_r. done.
Qed.

(** ** The bytes of a message *)

Lemma add_options_list p os : add_options p (Some <$> os) = add_option_list p os.
Proof.
  revert p. induction os as [|[k v] os IH]; intros p; [done|].
  change (Some <$> (k, v) :: os) with (Some (k, v) :: (Some <$> os)). cbn [add_options add_option_list].
  destruct (coap_add_option2 _ _ _ _) as [[ret p']|]; [|done]. cbn [mbind option_bind].
  destruct (ret =? 0); [done|]. apply IH.
Qed.

Record payload_ok (info : CAInfo_t) (d : list Z) : Prop := {
  payload_size : payloadSize info = Z.of_nat (length d);
  payload_is : payload info = Some d \/ payload info = None /\ d = [];
}.

(** What the message is given as its id. *)
Definition sent_id (prng : Z) (info : CAInfo_t) : Z :=
  if messageId info =? 0 then prng else messageId info.

Section Generate.
Context {St : Type} `{HasAllocs St}.

Lemma generate_impl prng code info e tok os d (st : St) : allocs_of st = [] ->
  adapter e = CA_ADAPTER_GATT_BTLE -> token_ok info tok -> payload_ok info d -> options_ok 0 os ->
  0 <= sent_id prng info < 65536 -> code <> CA_EMPTY ->
  let bs := message_bytes (type_code (type info)) (code_byte code) (sent_id prng info) tok os d in
  Z.of_nat (length bs) <= COAP_MAX_PDU_SIZE ->
  exists p, CAGeneratePDUImpl prng code info e (Some <$> os) st = Some (Some p, st) /\
    reads p (type_code (type info)) (code_byte code) (sent_id prng info) tok os d.
Proof.
  intros Hst Hble Htok [Hds Hd] Hos Hid Hcode bs Hfit. unfold CAGeneratePDUImpl. cbv zeta.
  pose proof (length_message (type_code (type info)) (code_byte code) (sent_id prng info) tok os d) as Hlen.
  fold bs in Hlen. unfold tail_bytes in Hlen. rewrite length_app in Hlen.
  assert (length d <= length (payload_bytes d))%nat by (destruct d; simpl; lia).
  destruct (Z.ltb_spec UINT_MAX (payloadSize info)); [unfold UINT_MAX, COAP_MAX_PDU_SIZE in *; lia|].
  step (alloc_ok st Hst).
  destruct (init_header 0 0 INVALID_TID COAP_MAX_PDU_SIZE) as (p0 & E0 & Hp0 & Hm0 & Hd0); [done|done|].
  step (run_lift _ _ st E0). cbn beta iota.
  destruct (set_header p0 (type info) code (sent_id prng info) Hp0 Hid) as (p1 & E1 & Hp1 & Hm1 & Hd1).
  step (run_lift _ _ st E1).
  pose proof (type_code_range (type info)) as Ht. pose proof (code_byte_range code) as Hcb.
  destruct (add_token p1 (code_byte code) (sent_id prng info) (type info) info tok Htok Hp1) with (n := code)
    as (p2 & E2 & Hp2 & Hm2 & Hd2); [split; [done|]; split; lia|congruence|congruence|done|].
  step (run_lift _ _ st E2). rewrite Hble, Z.eqb_refl. cbn [negb].
  assert (Z.of_nat (length ((header_bytes (type_code (type info)) (Z.of_nat (length tok)) (code_byte code)
    (sent_id prng info) ++ tok) ++ options_bytes 0 os)) + Z.of_nat (length (payload_bytes d)) <= COAP_MAX_PDU_SIZE)
    as Hroom by (rewrite !length_app; simpl; lia).
  destruct (add_option_list_holds p2 _ 0 os Hp2) as (p3 & E3 & Hp3 & Hm3 & Hd3); [done|done|done|lia|].
  rewrite <- add_options_list in E3. step (run_lift _ _ st E3). cbn [negb].
  destruct (add_data_holds p3 _ _ d Hp3) as (p4 & E4 & Hp4 & Hm4 & Hd4); [done|rewrite length_app; lia|].
  assert (d = [] -> p4 = p3) as Hnil by (intros ->; unfold coap_add_data in E4; rewrite Hd3 in E4; simpl in E4; by simplify_eq).
  assert ((match payload info with
           | Some d => if 0 <? payloadSize info then
               '(_, pdu) ← lift (coap_add_data p3 (payloadSize info) d); mret (Some pdu) else mret (Some p3)
           | None => mret (Some p3)
           end : M St (option coap_pdu_t)) st = Some (Some p4, st)) as ->.
  { rewrite Hds. destruct Hd as [-> |[-> ->]].
    - destruct (Z.ltb_spec 0 (Z.of_nat (length d))).
      + by step (run_lift _ _ st E4).
      + rewrite Hnil by (destruct d; [done|simpl in *; lia]). done.
    - by rewrite Hnil. }
  exists p4. split; [done|]. destruct Htok as [Hts _]. unfold CA_MAX_TOKEN_LEN in *.
  destruct Hp4 as [[rest Er] Hl4 _ _ _]. split; [|unfold data_offset; by rewrite Hd4|split; [done|split; lia]|done|done].
  split; [exists rest|]; [rewrite Er|rewrite Hl4]; unfold message_bytes, tail_bytes; by rewrite <- !app_assoc.
Qed.
End Generate.

(** ** Path and query *)

Abbreviation uri_key := (fun o : hcoap_option => uri_option o.1 = true).

Lemma uri_fold_filter os u : uri_fold os u = uri_fold (filter uri_key os) u.
Proof.
  revert u. induction os as [|[k v] os IH]; intros [[text first] query]; [done|].
  rewrite filter_cons. cbn [uri_fold fst]. destruct (uri_option k) eqn:E.
  - rewrite decide_True by done. cbn [uri_fold]. rewrite E. destruct (true && _); [|apply IH].
    destruct (add_uri k v _); [|done]. apply IH.
  - rewrite decide_False by done. apply IH.
Qed.

Lemma joined_cons sep x segs : joined sep true (x :: segs) = sep :: x ++ joined sep true segs.
Proof. done. Qed.

(** The elements of a path, behind those that are there. *)
Lemma uri_fold_path segs text first os : Forall (fun s => s <> []) segs ->
  Z.of_nat (length (text ++ joined SLASH true segs)) < CA_MAX_URI_LENGTH ->
  uri_fold (path_options segs ++ os) (text, first, false)
  = uri_fold os (text ++ joined SLASH true segs, first || negb (bool_decide (segs = [])), false).
Proof.
  intros Hne. revert text first. induction Hne as [|x segs Hx Hne IH]; intros text first Hlen.
  - cbn [joined path_options app fmap list_fmap]. by rewrite app_nil_r, orb_false_r.
  - rewrite joined_cons, length_app in Hlen. simpl in Hlen. rewrite length_app in Hlen.
    change (path_options (x :: segs) ++ os) with ((COAP_OPTION_URI_PATH, x) :: (path_options segs ++ os)).
    cbn [uri_fold]. change (uri_option COAP_OPTION_URI_PATH) with true.
    rewrite bool_decide_false by done. cbn [negb andb].
    unfold add_uri, append_uri.
    cbn [optionResult isfirstsetflag isQueryBeingProcessed]. change (COAP_OPTION_URI_PATH =? COAP_OPTION_URI_PATH) with true.
    rewrite !length_app. simpl length.
    destruct (Z.ltb_spec (Z.of_nat (length text + 1) + Z.of_nat (length x)) CA_MAX_URI_LENGTH); [|lia].
    destruct (Z.ltb_spec (Z.of_nat (length text)) CA_MAX_URI_LENGTH); [|lia].
    replace (text ++ joined SLASH true (x :: segs)) with (((text ++ [SLASH]) ++ x) ++ joined SLASH true segs)
      by (rewrite joined_cons, <- !app_assoc; done).
    rewrite (bool_decide_false (x :: segs = [])) by done. rewrite orb_true_r.
    transitivity (uri_fold (path_options segs ++ os) ((text ++ [SLASH]) ++ x, true, false)).
    { by destruct first. }
    by rewrite IH by (rewrite !length_app; simpl; lia).
Qed.

Lemma uri_fold_query qs text query os : Forall (fun s => s <> []) qs ->
  Z.of_nat (length (text ++ joined 59 true qs)) < CA_MAX_URI_LENGTH -> query = true \/ qs = [] ->
  uri_fold (query_options qs ++ os) (text, true, query)
  = uri_fold os (text ++ joined 59 true qs, true, query).
Proof.
  intros Hne. revert text. induction Hne as [|x qs Hx Hne IH]; intros text Hlen Hq.
  - cbn [joined query_options app fmap list_fmap]. by rewrite app_nil_r.
  - destruct Hq as [->|?]; [|done]. rewrite joined_cons, length_app in Hlen. simpl in Hlen. rewrite length_app in Hlen.
    change (query_options (x :: qs) ++ os) with ((COAP_OPTION_URI_QUERY, x) :: (query_options qs ++ os)).
    cbn [uri_fold]. change (uri_option COAP_OPTION_URI_QUERY) with true.
    rewrite bool_decide_false by done. cbn [negb andb].
    unfold add_uri, append_uri. cbn [optionResult isfirstsetflag isQueryBeingProcessed negb].
    change (COAP_OPTION_URI_QUERY =? COAP_OPTION_URI_PATH) with false. rewrite !length_app. simpl length.
    destruct (Z.ltb_spec (Z.of_nat (length text)) CA_MAX_URI_LENGTH); [|lia].
    destruct (Z.ltb_spec (Z.of_nat (length text + 1) + Z.of_nat (length x)) CA_MAX_URI_LENGTH); [|lia].
    replace (text ++ joined 59 true (x :: qs)) with (((text ++ [59]) ++ x) ++ joined 59 true qs)
      by (rewrite joined_cons, <- !app_assoc; done).
    apply (IH ((text ++ [59]) ++ x)); [rewrite !length_app; simpl; lia|by left].
Qed.

(** Path and query as they were; without a path the first part of the query
    would take its place. *)
Lemma uri_fold_spec segs qs : Forall (fun s => s <> []) segs -> Forall (fun s => s <> []) qs ->
  segs <> [] \/ qs = [] -> Z.of_nat (length (uri_text segs qs)) < CA_MAX_URI_LENGTH ->
  exists first query, uri_fold (uri_options segs qs) ([], false, false) = Some (uri_text segs qs, first, query).
Proof.
  intros Hs Hq Hne Hlen. unfold uri_options, uri_text in *. rewrite length_app in Hlen.
  rewrite uri_fold_path by (done || (simpl; lia)). simpl ([] ++ _).
  destruct qs as [|q qs]; [cbn [query_of query_string query_options fmap list_fmap uri_fold]; rewrite app_nil_r; by do 2 eexists|].
  destruct Hne as [Hne|]; [|done]. rewrite bool_decide_false by done. simpl (false || _).
  apply Forall_cons in Hq as [Hq Hqs].
  change (query_options (q :: qs)) with ((COAP_OPTION_URI_QUERY, q) :: query_options qs).
  change (query_string (query_of (q :: qs))) with ([QUESTION] ++ q ++ joined 59 true qs) in *.
  rewrite !length_app in Hlen. simpl length in Hlen.
  cbn [uri_fold]. change (uri_option COAP_OPTION_URI_QUERY) with true.
  rewrite bool_decide_false by done. cbn [negb andb].
  unfold add_uri, append_uri. cbn [optionResult isfirstsetflag isQueryBeingProcessed negb].
  change (COAP_OPTION_URI_QUERY =? COAP_OPTION_URI_PATH) with false.
  set (text := joined SLASH true segs) in *. rewrite !length_app. simpl length.
  destruct (Z.ltb_spec (Z.of_nat (length text)) CA_MAX_URI_LENGTH); [|lia].
  destruct (Z.ltb_spec (Z.of_nat (length text + 1) + Z.of_nat (length q)) CA_MAX_URI_LENGTH); [|lia].
  exists true, true. pose proof (uri_fold_query qs ((text ++ [QUESTION]) ++ q) true [] Hqs) as E.
  rewrite app_nil_r in E. etrans; [apply E; [rewrite !length_app; simpl; lia|by left]|].
  cbn [uri_fold]. by rewrite <- !app_assoc.
Qed.

(** ** The options of the packet *)

(** The options of a message in the order in which they are sent. *)
Definition sent_options (segs qs : list (list Z)) (info : CAInfo_t) : list hcoap_option :=
  ins_all (uri_options segs qs ++ head_options info) [].

Lemma uri_options_sorted segs qs : sorted_options (uri_options segs qs).
Proof.
  unfold uri_options, path_options, query_options. induction segs as [|s segs IH].
  - simpl. induction qs as [|q qs IH]; simpl; constructor; [|done].
    apply Forall_fmap, Forall_true. intros x. simpl. lia.
  - simpl. constructor; [|done]. apply Forall_app. split; apply Forall_fmap, Forall_true; intros x;
      simpl; unfold COAP_OPTION_URI_PATH, COAP_OPTION_URI_QUERY; lia.
Qed.

Lemma ins_all_nil_sorted ns : sorted_options ns -> ins_all ns [] = ns.
Proof. intros Hs. rewrite ins_all_appended; [done|done|]. apply Forall_true. constructor. Qed.

(** The filter of what is sent is what is sent of the filter. *)
Lemma sent_filter (P : hcoap_option -> Prop) `{forall o, Decision (P o)} segs qs info :
  filter P (sent_options segs qs info)
  = ins_all (filter P (uri_options segs qs) ++ filter P (head_options info)) [].
Proof. unfold sent_options. rewrite ins_all_filter by constructor. by rewrite <- filter_app. Qed.

Lemma uri_options_keys segs qs : Forall (fun o => uri_option o.1 = true) (uri_options segs qs).
Proof.
  unfold uri_options, path_options, query_options.
  apply Forall_app. split; apply Forall_fmap, Forall_true; intros x; done.
Qed.

(** Options of a header are not skipped ones, or those of the two formats. *)
Lemma user_options_keys info : Forall (fun o => skipped_option o.1 = false) (user_options info).
Proof.
  unfold user_options. apply Forall_fmap, Forall_forall. intros o Ho%list_elem_of_filter. by destruct Ho.
Qed.

Lemma format_options_keys k f vk v : Forall (fun o => o.1 = k \/ o.1 = vk) (format_options k f vk v).
Proof. destruct f; repeat constructor; simpl; by auto. Qed.

Lemma skipped_uri k : skipped_option k = false -> uri_option k = false.
Proof.
  unfold skipped_option, uri_option. cbn [existsb]. rewrite orb_assoc. intros H%orb_false_iff. by destruct H.
Qed.

Lemma head_options_keys info : Forall (fun o => uri_option o.1 = false) (head_options info).
Proof.
  unfold head_options. repeat (apply Forall_app; split).
  - eapply Forall_impl; [apply user_options_keys|]. intros o. apply skipped_uri.
  - eapply Forall_impl; [apply format_options_keys|]. intros o [->| ->]; done.
  - eapply Forall_impl; [apply format_options_keys|]. intros o [->| ->]; done.
Qed.

Lemma sent_uri segs qs info : filter uri_key (sent_options segs qs info) = uri_options segs qs.
Proof.
  rewrite sent_filter, filter_all by apply uri_options_keys.
  rewrite filter_none by (eapply Forall_impl; [apply head_options_keys|]; intros o E; by rewrite E).
  rewrite app_nil_r. apply ins_all_nil_sorted, uri_options_sorted.
Qed.

(** ** Formats *)

Lemma format_after_filter k os f : format_after k os f = format_after k (filter (fun o => o.1 = k) os) f.
Proof.
  revert f. induction os as [|[k' v] os IH]; intros f; [done|]. rewrite filter_cons.
  unfold format_after in *. cbn [foldl fst]. rewrite IH. destruct (Z.eqb_spec k' k) as [->|].
  - rewrite decide_True by done. cbn [foldl fst]. by rewrite Z.eqb_refl.
  - by rewrite decide_False.
Qed.

Lemma version_after_filter k os n : version_after k os n = version_after k (filter (fun o => o.1 = k) os) n.
Proof.
  revert n. induction os as [|[k' v] os IH]; intros n; [done|]. rewrite filter_cons.
  unfold version_after in *. cbn [foldl fst]. rewrite IH. destruct (Z.eqb_spec k' k) as [->|].
  - rewrite decide_True by done. cbn [foldl fst]. by rewrite Z.eqb_refl.
  - by rewrite decide_False.
Qed.

(** The formats that are sent, and the versions with them. *)
Definition carried_format (f : CAPayloadFormat_t) : CAPayloadFormat_t :=
  match f with
  | CA_FORMAT_APPLICATION_CBOR | CA_FORMAT_APPLICATION_VND_OCF_CBOR => f
  | _ => CA_FORMAT_UNDEFINED
  end.
Definition carried_version (f : CAPayloadFormat_t) (v : Z) : Z :=
  match f with
  | CA_FORMAT_APPLICATION_VND_OCF_CBOR =>
      if v =? 0 then 0 else if v <? 256 then DEFAULT_VERSION_VALUE else v
  | _ => 0
  end.

Definition own_format (k vk : Z) (f : CAPayloadFormat_t) (v : Z) (k' : Z) : list hcoap_option :=
  filter (fun o => o.1 = k') (format_options k f vk v).

Lemma sent_format_key segs qs info k :
  skipped_option k = true -> uri_option k = false ->
  filter (fun o => o.1 = k) (sent_options segs qs info)
  = ins_all (own_format COAP_OPTION_CONTENT_FORMAT CA_OPTION_CONTENT_VERSION (payloadFormat info) (payloadVersion info) k ++
      own_format COAP_OPTION_ACCEPT CA_OPTION_ACCEPT_VERSION (acceptFormat info) (acceptVersion info) k) [].
Proof.
  intros Hs Hu. rewrite sent_filter. unfold head_options. rewrite !filter_app.
  rewrite (filter_none _ (uri_options segs qs)), (filter_none _ (user_options info)); [done| |].
  - eapply Forall_impl; [apply user_options_keys|]. intros o E <-. congruence.
  - eapply Forall_impl; [apply uri_options_keys|]. intros o E <-. congruence.
Qed.

Lemma two_bytes v : 256 <= v < 65536 -> be (var_bytes_len v 4) v = [v / 256; v mod 256].
Proof.
  intros Hv. assert (var_bytes_len v 4 = 2%nat) as ->.
  { pose proof (var_bytes_len_least v 4 2 ltac:(simpl; lia)). pose proof (var_bytes_len_fits v 4 ltac:(simpl; lia)) as Hf.
    destruct (var_bytes_len v 4) as [|[|[|n]]]; simpl in Hf; lia. }
  cbn [be app]. rewrite !(land_ones_mod _ 8) by done. change (2 ^ 8) with 256. rewrite shiftr_div by lia. change (2 ^ 8) with 256.
  rewrite (Z.mod_small (v / 256)); [done|]. Z.to_euclidean_division_equations. lia.
Qed.

(** A version below 256 is written in one byte, which the reader does not take. *)
Lemma own_version_value v : 0 <= v < 65536 ->
  (if negb (bool_decide (be (var_bytes_len v 4) v = [])) then version_value (be (var_bytes_len v 4) v) else 0)
  = carried_version CA_FORMAT_APPLICATION_VND_OCF_CBOR v.
Proof.
  intros Hv. cbn [carried_version]. destruct (Z.eqb_spec v 0) as [->|Hz]; [done|].
  destruct (Z.ltb_spec v 256).
  - assert (var_bytes_len v 4 = 1%nat) as ->.
    { pose proof (var_bytes_len_least v 4 1 ltac:(simpl; lia)).
      pose proof (var_bytes_len_fits v 4 ltac:(simpl; lia)) as Hf.
      destruct (var_bytes_len v 4) as [|[|n]]; simpl in Hf; lia. }
    done.
  - rewrite two_bytes by lia. rewrite bool_decide_false by done. cbn [negb]. unfold version_value, option_version.
    change (Z.of_nat (length [v / 256; v mod 256])) with 2. cbn [Z.eqb Pos.eqb].
    rewrite decode_two by (unfold is_byte; Z.to_euclidean_division_equations; lia). cbn [mbind option_bind default].
    unfold id. rewrite wrap_small by (simpl; Z.to_euclidean_division_equations; lia).
    Z.to_euclidean_division_equations. lia.
Qed.

(** What the reader makes of the formats that were sent. *)
Lemma sent_formats segs qs info :
  0 <= payloadVersion info < 65536 -> 0 <= acceptVersion info < 65536 ->
  let os := sent_options segs qs info in
  format_after COAP_OPTION_CONTENT_FORMAT os CA_FORMAT_UNDEFINED = carried_format (payloadFormat info) /\
  format_after COAP_OPTION_ACCEPT os CA_FORMAT_UNDEFINED = carried_format (acceptFormat info) /\
  version_after CA_OPTION_CONTENT_VERSION os 0 = carried_version (payloadFormat info) (payloadVersion info) /\
  version_after CA_OPTION_ACCEPT_VERSION os 0 = carried_version (acceptFormat info) (acceptVersion info).
Proof.
  intros Hp Ha os. unfold os.
  rewrite (format_after_filter COAP_OPTION_CONTENT_FORMAT), (format_after_filter COAP_OPTION_ACCEPT),
    (version_after_filter CA_OPTION_CONTENT_VERSION), (version_after_filter CA_OPTION_ACCEPT_VERSION).
  rewrite !sent_format_key by done.
  split; [|split; [|split]].
  - destruct (payloadFormat info), (acceptFormat info); reflexivity.
  - destruct (payloadFormat info), (acceptFormat info); reflexivity.
  - pose proof (own_version_value _ Hp) as E. destruct (payloadFormat info), (acceptFormat info); first [reflexivity|exact E].
  - pose proof (own_version_value _ Ha) as E. destruct (payloadFormat info), (acceptFormat info); first [reflexivity|exact E].
Qed.

(** ** A message that can be sent *)

Record sendable (prng code : Z) (info : CAInfo_t) (segs qs : list (list Z)) (tok d : list Z) : Prop := {
  snd_token : token_ok info tok;
  snd_payload : payload_ok info d;
  snd_header : header_options_ok info;
  snd_uri : resourceUri info = Some (uri_text segs qs);
  snd_uri_ok : uri_ok segs qs;
  snd_path_half : 2 * Z.of_nat (length (segment_bytes segs)) <= CA_MAX_URI_LENGTH;
  snd_path : segs <> [];
  snd_uri_short : Z.of_nat (length (uri_text segs qs)) < CA_MAX_URI_LENGTH;
  snd_versions : 0 <= payloadVersion info < 65536 /\ 0 <= acceptVersion info < 65536;
  snd_code : code_ok code /\ code <> CA_EMPTY;
  snd_type : type info <> CA_MSG_RESET;
  snd_id : 0 <= sent_id prng info < 65536;
  snd_options : options_ok 0 (sent_options segs qs info);
  snd_count : Z.of_nat (length (counted (sent_options segs qs info))) <= UINT8_MAX;
  snd_fits : Z.of_nat (length (message_bytes 0 0 0 tok (sent_options segs qs info) d)) <= COAP_MAX_PDU_SIZE;
}.

(** The message as the receiver sees it. *)
Definition delivered (prng : Z) (info : CAInfo_t) (segs qs : list (list Z)) (tok d : list Z) : CAInfo_t :=
  let os := sent_options segs qs info in
  let count := length (counted os) in {|
  type := type info; messageId := sent_id prng info;
  token := if decide (tok = []) then None else Some tok; tokenLength := Z.of_nat (length tok);
  options := if decide (Z.of_nat count = 0) then None
             else Some (stored_options os ++ replicate (count - length (stored_options os)) zero_option);
  numOptions := Z.of_nat count;
  payload := if decide (d = []) then None else Some d; payloadSize := Z.of_nat (length d);
  payloadFormat := carried_format (payloadFormat info); acceptFormat := carried_format (acceptFormat info);
  payloadVersion := carried_version (payloadFormat info) (payloadVersion info);
  acceptVersion := carried_version (acceptFormat info) (acceptVersion info);
  resourceUri := Some (uri_text segs qs); identity := no_identity; info_dataType := None |}.

Lemma plain_segments sep delim segs : Forall (plain sep delim) segs -> Forall (fun s => s <> []) segs.
Proof. intros Hs. eapply Forall_impl; [exact Hs|]. intros s Hp. by apply Hp. Qed.

Lemma until_nul_all s : Forall (fun c => c <> 0) s -> until_nul s = s.
Proof. induction 1 as [|c s Hc Hs IH]; [done|]. simpl. destruct (Z.eqb_spec c 0); [done|]. by rewrite IH. Qed.

Lemma joined_no_nul sep delim c lead segs : c <> 0 -> Forall (plain sep delim) segs ->
  Forall (fun c => c <> 0) (joined c lead segs).
Proof.
  intros Hc Hs. revert lead. induction Hs as [|x segs [_ _ Hx _] Hs IH]; intros lead; [constructor|].
  cbn [joined]. apply Forall_app. split; [destruct lead; by repeat constructor|].
  apply Forall_app. split; [|apply IH]. eapply Forall_impl; [exact Hx|]. by intros y (? & _).
Qed.

Lemma uri_text_no_nul segs qs : uri_ok segs qs -> until_nul (uri_text segs qs) = uri_text segs qs.
Proof.
  intros [Hp Hq _ _ _ _]. apply until_nul_all. unfold uri_text. apply Forall_app. split.
  - by eapply joined_no_nul.
  - destruct qs as [|q qs]; [constructor|]. constructor; [done|]. by eapply joined_no_nul.
Qed.

Lemma uri_text_nonempty segs qs : segs <> [] -> uri_text segs qs <> [].
Proof. intros Hs. unfold uri_text. destruct segs as [|x segs]; [done|]. by cbn [joined app]. Qed.

Lemma values_short k os n : Z.of_nat (length (options_bytes k os)) <= n ->
  Forall (fun o => Z.of_nat (length o.2) < n) os.
Proof.
  revert k n. induction os as [|[k' v] os IH]; intros k n Hn; [constructor|]. cbn [options_bytes] in Hn.
  rewrite length_app in Hn. unfold option_bytes in Hn at 1. rewrite length_app in Hn.
  pose proof (option_header_short (k' - k) (Z.of_nat (length v))). constructor; [simpl; lia|].
  apply (IH k'). lia.
Qed.

Lemma short_message ty code id tok os d : Z.of_nat (length (message_bytes ty code id tok os d)) <= COAP_MAX_PDU_SIZE ->
  short_values os.
Proof.
  rewrite length_message. unfold tail_bytes. rewrite length_app. intros Hn. apply (values_short 0). lia.
Qed.

(** What is copied is among what is counted. *)
Lemma stored_count os : (length (stored_options os) <= length (counted os))%nat.
Proof.
  unfold stored_options, counted. rewrite length_fmap. induction os as [|o os IH]; [done|].
  rewrite !filter_cons. destruct (decide (copied_option o)) as [[Hc _]|]; destruct (decide (counted_option o.1 = true));
    simpl; done || lia.
Qed.

Section Messages.
Context {St : Type} `{HasAllocs St}.

Lemma generate_options prng code info e segs qs tok d (st : St) : allocs_of st = [] ->
  sendable prng code info segs qs tok d ->
  CAGeneratePDU prng code info e [] st
  = (pdu ← CAGeneratePDUImpl prng code info e (Some <$> sent_options segs qs info);
     mret (pdu, Some <$> sent_options segs qs info)) st.
Proof.
  intros Hst [Htok Hd Hh Hu Huok Hhalf Hne Hshort Hv [Hc Hce] Hty Hid Hos Hcnt Hfit].
  unfold CAGeneratePDU.
  assert (must_be_empty code info = false) as ->.
  { unfold must_be_empty. rewrite bool_decide_false by done. destruct (Z.eqb_spec code CA_EMPTY); done. }
  rewrite Hu. destruct (Z.ltb_spec CA_MAX_URI_LENGTH (Z.of_nat (length (uri_text segs qs)))); [lia|].
  match goal with |- context [(?m ≫= _) st] =>
    assert (m st = Some ((CA_STATUS_OK, Some <$> ins_all (uri_options segs qs) []), st)) as E end.
  { step (alloc_ok st Hst). cbn [negb]. change (@nil (option hcoap_option)) with (Some <$> @nil hcoap_option) at 1.
    rewrite parse_uri_spec by done. by rewrite decide_True. }
  step E. cbn beta iota. rewrite decide_False by (intros Hn; by apply Hn).
  step (head_option_spec info (ins_all (uri_options segs qs) []) st Hst Hh). cbn beta iota.
  rewrite decide_False by (intros Hn; by apply Hn).
  by rewrite <- ins_all_app.
Qed.

Lemma generate_spec prng code info e segs qs tok d (st : St) : allocs_of st = [] ->
  adapter e = CA_ADAPTER_GATT_BTLE -> sendable prng code info segs qs tok d ->
  exists p, CAGeneratePDU prng code info e [] st = Some ((Some p, Some <$> sent_options segs qs info), st) /\
    reads p (type_code (type info)) (code_byte code) (sent_id prng info) tok (sent_options segs qs info) d.
Proof.
  intros Hst Hble Hs. rewrite (generate_options _ _ _ _ _ _ _ _ st Hst Hs).
  destruct Hs as [Htok Hd Hh Hu Huok Hhalf Hne Hshort Hv [Hc Hce] Hty Hid Hos Hcnt Hfit].
  destruct (generate_impl prng code info e tok (sent_options segs qs info) d st) as (p & Ep & Hp); [done..|].
  step Ep. by exists p.
Qed.

(** On another transport the options and the payload are left to the block-wise
    transfer. *)
Lemma generate_bare prng code info e segs qs tok d (st : St) : allocs_of st = [] ->
  adapter e <> CA_ADAPTER_GATT_BTLE -> sendable prng code info segs qs tok d ->
  exists p, CAGeneratePDU prng code info e [] st = Some ((Some p, Some <$> sent_options segs qs info), st) /\
    reads p (type_code (type info)) (code_byte code) (sent_id prng info) tok [] [].
Proof.
  intros Hst Hble Hs. rewrite (generate_options _ _ _ _ _ _ _ _ st Hst Hs).
  destruct Hs as [Htok [Hds Hd] Hh Hu Huok Hhalf Hne Hshort Hv [Hc Hce] Hty Hid Hos Hcnt Hfit].
  unfold CAGeneratePDUImpl. cbv zeta.
  rewrite length_message in Hfit. unfold tail_bytes in Hfit. rewrite length_app in Hfit.
  assert (length d <= length (payload_bytes d))%nat by (destruct d; simpl; lia).
  destruct (Z.ltb_spec UINT_MAX (payloadSize info)); [unfold UINT_MAX, COAP_MAX_PDU_SIZE in *; lia|].
  pose proof (type_code_range (type info)) as Ht. pose proof (code_byte_range code) as Hcb.
  destruct (init_header 0 0 INVALID_TID COAP_MAX_PDU_SIZE) as (p0 & E0 & Hp0 & Hm0 & Hd0); [done|done|].
  destruct (set_header p0 (type info) code (sent_id prng info) Hp0 Hid) as (p1 & E1 & Hp1 & Hm1 & Hd1).
  destruct (add_token p1 (code_byte code) (sent_id prng info) (type info) info tok Htok Hp1) with (n := code)
    as (p2 & E2 & Hp2 & Hm2 & Hd2); [split; [done|]; split; lia|congruence|congruence|done|].
  match goal with |- context [(?m ≫= _) st] => assert (m st = Some (Some p2, st)) as E end.
  { step (alloc_ok st Hst). step (run_lift _ _ st E0). cbn beta iota. step (run_lift _ _ st E1).
    step (run_lift _ _ st E2). by rewrite (proj2 (Z.eqb_neq _ _)) by done. }
  step E. exists p2. split; [done|]. split; [|done|by repeat split; lia|apply Htok|done].
  destruct Hp2 as [[rest Er] El _ _ _]. split; [exists rest|]; unfold message_bytes; by rewrite ?app_nil_r.
Qed.

Lemma fresh_pdu n : UDP_HEADER <= n <= COAP_MAX_PDU_SIZE ->
  exists p r, coap_pdu_init2 true 0 0 INVALID_TID n = Some (Some p) /\ hdr p = 64 :: 0 :: 255 :: 255 :: r /\
    max_size p = n /\ Z.of_nat (length (hdr p)) = n.
Proof.
  intros Hn. destruct (init_header 0 0 INVALID_TID n) as (p & E & [[r Er] _ Hs _ _] & Hm & _); [done|done|].
  exists p, r. repeat split; [done|done|done|]. lia.
Qed.

(** Reading the bytes of a message. *)
Lemma parse_pdu_spec ty code id tok os d (st : St) : allocs_of st = [] ->
  header_ok ty 0 code id -> code <> 0 -> Z.of_nat (length tok) <= 8 -> options_ok 0 os ->
  let bs := message_bytes ty code id tok os d in
  Z.of_nat (length bs) <= COAP_MAX_PDU_SIZE ->
  exists p, CAParsePDU bs (Z.of_nat (length bs)) st = Some (Some (p, CA_RESPONSE_CODE code), st) /\
    reads p ty code id tok os d.
Proof.
  intros Hst Hh Hc Htok Hos bs Hfit. unfold CAParsePDU. step (alloc_ok st Hst).
  pose proof (length_message ty code id tok os d) as Hlen. fold bs in Hlen.
  destruct (fresh_pdu (Z.of_nat (length bs))) as (p0 & r & E0 & Eh & Hm & Hl); [unfold UDP_HEADER; lia|].
  step (run_lift _ _ st E0). cbn beta iota.
  destruct (parse_message p0 64 0 255 255 r ty code id tok os d) as (p & Ep & Hs & Hmp & Hd); try done;
    [congruence|unfold COAP_MAX_PDU_SIZE in *; fold bs; lia|].
  fold bs in Ep, Hs. step (run_lift _ _ st Ep). cbn beta iota. change (1 <=? 0) with false. cbv iota.
  assert (reads p ty code id tok os d) as Hp by (by split).
  step (run_lift _ _ st (reads_version Hp)). step (run_lift _ _ st (reads_tkl Hp)).
  change (1 =? COAP_DEFAULT_VERSION) with true. cbn [negb]. unfold CA_MAX_TOKEN_LEN.
  destruct (Z.ltb_spec 8 (Z.of_nat (length tok))); [lia|].
  step (run_lift _ _ st (reads_code Hp)). by exists p.
Qed.

Lemma receive_spec p prng code info segs qs tok d proxyUri (st : St) : allocs_of st = [] ->
  sendable prng code info segs qs tok d ->
  reads p (type_code (type info)) (code_byte code) (sent_id prng info) tok (sent_options segs qs info) d ->
  exists o, CAGetInfoFromPDU p proxyUri st = Some (o, st) /\ po_code o = code /\ po_result o = CA_STATUS_OK /\
    po_freed o = [] /\ po_info o = delivered prng info segs qs tok d.
Proof.
  intros Hst [Htok Hd Hh Hu Huok Hhalf Hne Hshort [Hv1 Hv2] [Hc Hce] Hty Hid Hos Hcnt Hfit] Hp.
  set (os := sent_options segs qs info) in *.
  pose proof (plain_segments _ _ _ (uri_path_plain _ _ Huok)) as Hsegs.
  pose proof (plain_segments _ _ _ (uri_query_plain _ _ Huok)) as Hqs.
  destruct (uri_fold_spec segs qs Hsegs Hqs ltac:(by left) Hshort) as (first & query & Hfold).
  rewrite <- (sent_uri segs qs info), <- uri_fold_filter in Hfold. fold os in Hfold.
  pose proof (stored_count os) as Hst2.
  destruct (scan_list_spec (Z.of_nat (length (counted os))) os
    (start_scan (replicate (length (counted os)) zero_option))) as (s & Es & [S1 S2 S3 S4 S5 S6 S7 S8]).
  { done. } { simpl. by rewrite length_replicate. } { simpl. lia. } { by rewrite (Hfold : uri_fold os (uri_state (start_scan _)) = _). }
  rewrite (Hfold : uri_fold os (uri_state (start_scan _)) = _) in S1. injection S1 as S1 _ _.
  assert (short_values os) as Hshv.
  { exact (short_message _ _ _ _ _ _ Hfit). }
  destruct (get_info_spec p _ _ _ _ _ _ proxyUri st true s Hp Hst Hshv Hcnt Es) as (o & Eo & Ec & Er & Ef & Ei).
  exists o. split; [done|]. destruct (code_byte_inv code Hc) as [<- _]. split; [done|]. split; [done|]. split; [done|].
  rewrite Ei. unfold received_info, delivered. fold os.
  destruct (sent_formats segs qs info Hv1 Hv2) as (F1 & F2 & F3 & F4). fold os in F1, F2, F3, F4.
  rewrite S4, S5, S6, S7, <- S1, uri_text_no_nul, S2 by done. cbn [start_scan sc_options idx sc_payloadFormat sc_acceptFormat sc_payloadVersion sc_acceptVersion].
  rewrite F1, F2, F3, F4, message_type_code. change (Z.to_nat 0) with O. cbn [take drop app Nat.add].
  rewrite drop_replicate. 
  destruct (decide (uri_text segs qs = [])) as [Eu|_]; [by apply uri_text_nonempty in Eu|done].
Qed.
End Messages.

(** ** Failing reads *)

Lemma uri_fold_step k v os s : uri_option k = true -> v <> [] ->
  uri_fold ((k, v) :: os) (uri_state s)
  = match add_uri k v s with Some s' => uri_fold os (uri_state s') | None => None end.
Proof.
  intros Hk Hv. pose proof (add_uri_same k v s) as E. unfold uri_state at 1. cbn [uri_fold].
  rewrite Hk, bool_decide_false by done. cbn [negb andb]. fold (uri_state s).
  destruct (add_uri k v s) as [s'|]; match goal with |- context [add_uri k v ?r] => destruct (add_uri k v r) as [s2|] end;
    cbn [fmap option_fmap option_map] in E; try done.
  by assert (uri_state s' = uri_state s2) as -> by congruence.
Qed.

(** A URI that does not fit its buffer ends the loop, wherever it stands. *)
Lemma scan_list_uri_fails count os s : 0 <= idx s -> Z.of_nat (length (sc_options s)) = count ->
  idx s + Z.of_nat (length (stored_options os)) <= count -> uri_fold os (uri_state s) = None ->
  exists s', scan_list count os s = Some (false, s').
Proof.
  revert s. induction os as [|[k v] os IH]; intros s Hi Hlen Hroom Hu; [done|].
  rewrite stored_options_cons, length_app in Hroom. cbn [scan_list].
  destruct (uri_fold [(k, v)] (uri_state s)) as [u|] eqn:Eu.
  - rewrite uri_fold_cons, Eu in Hu. cbn [mbind option_bind] in Hu.
    destruct (scan_value_spec count k v s) as (s1 & -> & [A1 A2 A3 _ _ _ _ _]); try done; [lia|].
    cbn [mbind option_bind]. apply IH.
    + lia.
    + rewrite A2, !length_app, length_take, length_drop. lia.
    + lia.
    + rewrite A1 in Eu. by simplify_eq.
  - exists s. unfold scan_value.
    destruct (decide (uri_option k = true /\ v <> [])) as [[Hk Hv]|Hn].
    + rewrite uri_fold_step in Eu by done. cbn [uri_fold] in Eu.
      assert (option_text k v = v) as -> by
        (apply option_text_string; unfold uri_option in Hk; by apply orb_true_iff in Hk as [->%Z.eqb_eq| ->%Z.eqb_eq]).
      rewrite bool_decide_false, Hk by done. by destruct (add_uri k v s).
    + exfalso. revert Eu. unfold uri_state. cbn [uri_fold].
      destruct (uri_option k) eqn:Hk; [|done]. case_bool_decide; [done|]. naive_solver.
Qed.

Lemma count_loop_overflow pre k0 os d rest n fuel : 0 <= k0 -> options_ok k0 os -> 0 <= n <= UINT8_MAX ->
  UINT8_MAX < n + Z.of_nat (length (counted os)) ->
  count_loop (from pre k0 os d rest) (iter_at pre k0 os d None) n fuel = None.
Proof.
  revert pre k0 n fuel. induction os as [|[k v] os IH]; intros pre k0 n [|fuel] Hk0 Hos Hn Hc; try done.
  - simpl in Hc. lia.
  - cbn [count_loop]. rewrite option_next_spec by done. cbn [mbind option_bind iter_at oi_type].
    pose proof Hos as ([[? ?] _] & _ & _ & Hos').
    fold (iter_at (pre ++ option_bytes (k - k0) v) k os d None). rewrite <- from_step.
    unfold counted in *. rewrite filter_cons in Hc. cbn [fst] in Hc. destruct (counted_option k) eqn:E.
    + rewrite decide_True in Hc by done. cbn [length] in Hc.
      destruct (Z.ltb_spec n UINT8_MAX); [|done]. apply IH; try done; lia.
    + rewrite decide_False in Hc by done. apply IH; try done; lia.
Qed.

(** ** Theorems *)

(** The bytes that go out. *)
Definition packet (p : coap_pdu_t) : list Z := take (Z.to_nat (plength p)) (hdr p).

Lemma reads_packet p ty code id tok os d : reads p ty code id tok os d ->
  packet p = message_bytes ty code id tok os d.
Proof.
  intros [[[rest E] El] _ _ _ _]. unfold packet. rewrite E, El, Nat2Z.id. apply take_app_length.
Qed.

(** A packet that is well formed and fits the buffer. *)
Record packet_ok (type code id : Z) (tok : list Z) (os : list hcoap_option) (d : list Z) : Prop := {
  packet_header : header_ok type 0 code id;
  packet_code : code <> 0;
  packet_token : Z.of_nat (length tok) <= CA_MAX_TOKEN_LEN;
  packet_options : options_ok 0 os;
  packet_fits : Z.of_nat (length (message_bytes type code id tok os d)) <= COAP_MAX_PDU_SIZE;
}.

Section Theorems.
Context {St : Type} `{HasAllocs St}.

(** A packet from the network, into a message. *)
Definition receive (bs proxyUri : list Z) : M St (option parse_outcome) :=
  r ← CAParsePDU bs (Z.of_nat (length bs));
  match r with
  | None => mret None
  | Some (p, _) => o ← CAGetInfoFromPDU p proxyUri; mret (Some o)
  end.

Lemma parse_packet type code id tok os d (st : St) : allocs_of st = [] -> packet_ok type code id tok os d ->
  let bs := message_bytes type code id tok os d in
  exists p, CAParsePDU bs (Z.of_nat (length bs)) st = Some (Some (p, CA_RESPONSE_CODE code), st) /\
    reads p type code id tok os d.
Proof. intros Hst [Hh Hc Ht Ho Hf] bs. by apply parse_pdu_spec. Qed.

(** C5: a request that [CAGeneratePDU] writes for a BLE endpoint is read back
    from its bytes by [CAParsePDU] and [CAGetRequestInfoFromPDU] as the same
    method, type, message id, token, URI and payload; the two formats and their
    versions are the ones that are carried, the options the copied ones in the
    order of their numbers, and nothing is left freed. *)
Theorem coap_message_round_trip prng code info e segs qs tok d proxyUri (st : St) :
  allocs_of st = [] -> adapter e = CA_ADAPTER_GATT_BTLE -> sendable prng code info segs qs tok d ->
  exists p p', CAGeneratePDU prng code info e [] st = Some ((Some p, Some <$> sent_options segs qs info), st) /\
    CAParsePDU (packet p) (Z.of_nat (length (packet p))) st = Some (Some (p', code), st) /\
    CAGetRequestInfoFromPDU p' proxyUri st
    = Some ((CA_STATUS_OK, {| method := code; req_info := delivered prng info segs qs tok d;
                              req_isMulticast := false |}, []), st).
Proof.
  intros Hst Hble Hs. destruct (generate_spec prng code info e segs qs tok d st Hst Hble Hs) as (p & Ep & Hp).
  pose proof Hp as [_ _ Hh Ht Hos]. destruct (code_byte_inv code (proj1 (snd_code _ _ _ _ _ _ _ Hs))) as [Ec Ez].
  destruct (parse_pdu_spec (type_code (type info)) (code_byte code) (sent_id prng info) tok
    (sent_options segs qs info) d st Hst Hh) as (p' & Ep' & Hp'); [|done|done|exact (snd_fits _ _ _ _ _ _ _ Hs)|].
  { intros E. by apply (snd_code _ _ _ _ _ _ _ Hs), Ez. }
  exists p, p'. split; [done|]. rewrite (reads_packet _ _ _ _ _ _ _ Hp). rewrite Ep', Ec. split; [done|].
  destruct (receive_spec p' prng code info segs qs tok d proxyUri st Hst Hs Hp') as (o & Eo & E1 & E2 & E3 & E4).
  unfold CAGetRequestInfoFromPDU. step Eo. by rewrite E1, E2, E3, E4.
Qed.

Lemma failed_info p type code id tok os d proxyUri (st : St) : allocs_of st = [] ->
  packet_ok type code id tok os d -> reads p type code id tok os d ->
  0 < Z.of_nat (length (counted os)) <= UINT8_MAX -> uri_fold os ([], false, false) = None ->
  exists o, CAGetInfoFromPDU p proxyUri st = Some (o, st) /\
    po_result o = CA_STATUS_FAILED /\ CADestroyInfoInternal (po_info o) (po_freed o) = None.
Proof.
  intros Hst Hok Hp Hc Hu. pose proof (stored_count os).
  destruct (scan_list_uri_fails (Z.of_nat (length (counted os))) os
    (start_scan (replicate (length (counted os)) zero_option))) as [s Es]; [done|simpl; by rewrite length_replicate|simpl; lia|done|].
  pose proof (short_message _ _ _ _ _ _ (packet_fits _ _ _ _ _ _ Hok)) as Hv.
  destruct (get_info_spec p _ _ _ _ _ _ proxyUri st false s Hp Hst Hv (proj2 Hc) Es) as (o & Eo & _ & Er & Ef & Ei).
  exists o. split; [done|]. split; [done|].
  unfold CADestroyInfoInternal. rewrite Ef.
  rewrite (bool_decide_true (owns_options ∈ _)) by set_solver.
  rewrite (bool_decide_true (options _ <> None)) by (rewrite Ei; lia). cbn [andb]. by rewrite orb_true_r.
Qed.

(** a packet whose path and query do not fit the buffer for its URI, and
    which has an option the stack copies, is refused with its options freed;
    destroying the message after that, as the callers do, frees them again. *)
Theorem failed_message_double_free type code id tok os d proxyUri (st : St) :
  allocs_of st = [] -> packet_ok type code id tok os d ->
  0 < Z.of_nat (length (counted os)) <= UINT8_MAX -> uri_fold os ([], false, false) = None ->
  exists o, receive (message_bytes type code id tok os d) proxyUri st = Some (Some o, st) /\
    po_result o = CA_STATUS_FAILED /\ CADestroyInfoInternal (po_info o) (po_freed o) = None.
Proof.
  intros Hst Hok Hc Hu. destruct (parse_packet _ _ _ _ _ _ st Hst Hok) as (p & Ep & Hp).
  destruct (failed_info p _ _ _ _ _ _ proxyUri st Hst Hok Hp Hc Hu) as (o & Eo & Hr & Hd).
  exists o. unfold receive. step Ep. cbn beta iota. by step Eo.
Qed.

(** a packet with more than 255 options of the kind the stack copies fails
    an assertion of [CAGetOptionCount]; every byte of it may come from the
    network. *)
Theorem option_count_aborts type code id tok os d proxyUri (st : St) :
  allocs_of st = [] -> packet_ok type code id tok os d -> UINT8_MAX < Z.of_nat (length (counted os)) ->
  receive (message_bytes type code id tok os d) proxyUri st = None.
Proof.
  intros Hst Hok Hc. destruct (parse_packet _ _ _ _ _ _ st Hst Hok) as (p & Ep & Hp). pose proof Hp as [_ _ _ _ Hos].
  unfold receive. step Ep. cbn beta iota. apply run_bind_undef. unfold CAGetInfoFromPDU.
  destruct (reads_iterator Hp) as (oi & Ei & Hoi).
  step (run_lift _ _ st Ei). step (run_lift _ _ st (reads_code Hp)). cbv zeta. apply run_bind_undef.
  unfold CAGetOptionCount. destruct (reads_hdr Hp) as [rest ->].
  destruct Hoi as [->|(-> & _)]; [|simpl in Hc; unfold UINT8_MAX in Hc; lia].
  by rewrite count_loop_overflow by (done || unfold UINT8_MAX in *; lia).
Qed.
End Theorems.

(** ** A message to look at *)

Lemma example_sendable : sendable 0 CA_GET example_info [[97]; [98; 99]] [[120]] [1; 2; 3] [191; 255].
Proof.
  split; try done; try (vm_compute; intuition congruence).
  - split; [done|by left].
  - split; [done|by left].
  - split; [done|]. repeat constructor; vm_compute; intuition congruence.
  - apply example_uri.
Qed.

Lemma coap_message_round_trip_witness : exists p p' : coap_pdu_t,
  CAGeneratePDU 0 CA_GET example_info ble_endpoint [] ([] : list bool)
  = Some ((Some p, Some <$> sent_options [[97]; [98; 99]] [[120]] example_info), []) /\
  CAParsePDU (packet p) (Z.of_nat (length (packet p))) ([] : list bool) = Some (Some (p', CA_GET), []) /\
  CAGetRequestInfoFromPDU p' [] ([] : list bool)
  = Some ((CA_STATUS_OK, {| method := CA_GET;
      req_info := delivered 0 example_info [[97]; [98; 99]] [[120]] [1; 2; 3] [191; 255];
      req_isMulticast := false |}, []), []).
Proof. apply coap_message_round_trip; [reflexivity|reflexivity|apply example_sendable]. Defined.

(** Two path elements of 300 bytes and an option that is copied. *)
Definition overlong : list hcoap_option :=
  [(COAP_OPTION_OBSERVE, [0]); (COAP_OPTION_URI_PATH, replicate 300 97); (COAP_OPTION_URI_PATH, replicate 300 98)].

Lemma overlong_packet : packet_ok 0 1 7 [] overlong [].
Proof. split; vm_compute; intuition congruence. Qed.

Lemma failed_message_double_free_witness : exists o,
  receive (message_bytes 0 1 7 [] overlong []) [] ([] : list bool) = Some (Some o, []) /\
  po_result o = CA_STATUS_FAILED /\ CADestroyInfoInternal (po_info o) (po_freed o) = None.
Proof.
  apply failed_message_double_free;
    [reflexivity|apply overlong_packet|vm_compute; intuition congruence|vm_compute; reflexivity].
Defined.

(** 256 times the option 2048, without a value. *)
Definition many_options : list hcoap_option := replicate 256 (2048, []).

Lemma many_options_ok : options_ok 0 many_options.
Proof.
  unfold many_options. change (replicate 256 (2048, [])) with ((2048, []) :: replicate 255 (2048, @nil Z)).
  cbn [options_ok]. split; [done|]. split; [done|]. split; [done|].
  generalize 255%nat; intros n; induction n as [|n IH]; [done|]. cbn [replicate options_ok]. done.
Qed.

Lemma option_count_aborts_witness :
  receive (message_bytes 0 1 7 [] many_options []) [] ([] : list bool) = None.
Proof.
  apply option_count_aborts; [reflexivity| |vm_compute; reflexivity].
  split; [vm_compute; intuition congruence|done|done|apply many_options_ok|vm_compute; congruence].
Defined.
