(* ===== verification/BlockTransfer.v ===== *)
(** * BlockTransfer: block-wise transfer of large payloads

    Models [connectivity/src/cablockwisetransfer.c] (RFC 7959): a message that
    does not fit a packet is kept in a list and sent block by block, the blocks
    of a received message are put together in a buffer until the last one is
    there.

    The state is [g_context].  The blocks of [dataList] live in that list and
    nowhere else: an element is the address of a [CABlockData_t] with what is
    there, and an address that is not in the list is dangling.  Messages handed
    to the queues and the empty response sent directly are recorded in [out] in
    their order.  A growing list asks the allocator each time, which only adds
    failures.  Locks are not modelled. *)
From S2P Require Import Prelude Effects CaCommon CoapOption CoapPdu CoapUri CaMessage ProtocolMessage CoapMessage CoapReceive.

(** ** State *)

Abbreviation CABlockDataID_t := (list Z).

Record CABlockData_t := {
  block1 : coap_block_t;
  block2 : coap_block_t;
  bd_type : Z;
  blockDataId : CABlockDataID_t;
  sentData : option CAData_t;
  bd_payload : option (list Z);
  payloadLength : Z;
  receivedPayloadLen : Z;
}.

Record CABlockMulticastData_t := {
  mc_token : list Z;
  mc_tokenLength : Z;
  mc_resourceUri : option (list Z);
}.

Inductive block_event :=
| SendThread (d : CAData_t)
| ReceiveThread (d : CAData_t)
| SendResponse (e : option CAEndpoint_t) (r : CAResponseInfo_t).

Record CABlockWiseContext_t := {
  sendThreadFunc : bool;
  receivedThreadFunc : bool;
  dataList : option (list (Z * CABlockData_t));
  multicastDataList : option (list CABlockMulticastData_t);
  blockDataListMutex : bool;
  blockDataSenderMutex : bool;
  multicastDataListMutex : bool;
  out : list block_event;
  bw_allocs : list bool;
}.
Abbreviation Ctx := CABlockWiseContext_t.

Definition set_dataList (l : option (list (Z * CABlockData_t))) (c : Ctx) : Ctx := {|
  sendThreadFunc := sendThreadFunc c; receivedThreadFunc := receivedThreadFunc c; dataList := l;
  multicastDataList := multicastDataList c; blockDataListMutex := blockDataListMutex c;
  blockDataSenderMutex := blockDataSenderMutex c; multicastDataListMutex := multicastDataListMutex c;
  out := out c; bw_allocs := bw_allocs c |}.
Definition set_multicastDataList (l : option (list CABlockMulticastData_t)) (c : Ctx) : Ctx := {|
  sendThreadFunc := sendThreadFunc c; receivedThreadFunc := receivedThreadFunc c; dataList := dataList c;
  multicastDataList := l; blockDataListMutex := blockDataListMutex c;
  blockDataSenderMutex := blockDataSenderMutex c; multicastDataListMutex := multicastDataListMutex c;
  out := out c; bw_allocs := bw_allocs c |}.
Definition set_mutexes (a b m : bool) (c : Ctx) : Ctx := {|
  sendThreadFunc := sendThreadFunc c; receivedThreadFunc := receivedThreadFunc c; dataList := dataList c;
  multicastDataList := multicastDataList c; blockDataListMutex := a; blockDataSenderMutex := b;
  multicastDataListMutex := m; out := out c; bw_allocs := bw_allocs c |}.
Definition set_funcs (s r : bool) (c : Ctx) : Ctx := {|
  sendThreadFunc := s; receivedThreadFunc := r; dataList := dataList c;
  multicastDataList := multicastDataList c; blockDataListMutex := blockDataListMutex c;
  blockDataSenderMutex := blockDataSenderMutex c; multicastDataListMutex := multicastDataListMutex c;
  out := out c; bw_allocs := bw_allocs c |}.
Definition add_out (e : block_event) (c : Ctx) : Ctx := {|
  sendThreadFunc := sendThreadFunc c; receivedThreadFunc := receivedThreadFunc c; dataList := dataList c;
  multicastDataList := multicastDataList c; blockDataListMutex := blockDataListMutex c;
  blockDataSenderMutex := blockDataSenderMutex c; multicastDataListMutex := multicastDataListMutex c;
  out := out c ++ [e]; bw_allocs := bw_allocs c |}.
Definition set_allocs (l : list bool) (c : Ctx) : Ctx := {|
  sendThreadFunc := sendThreadFunc c; receivedThreadFunc := receivedThreadFunc c; dataList := dataList c;
  multicastDataList := multicastDataList c; blockDataListMutex := blockDataListMutex c;
  blockDataSenderMutex := blockDataSenderMutex c; multicastDataListMutex := multicastDataListMutex c;
  out := out c; bw_allocs := l |}.

#[export] Program Instance Ctx_HasAllocs : HasAllocs Ctx := {|
  allocs_of := bw_allocs; with_allocs := set_allocs |}.
Next Obligation. done. Qed.
Next Obligation. by intros []. Qed.
Next Obligation. done. Qed.

(** [g_context] before [CAInitializeBlockWiseTransfer]. *)
Definition g_context : Ctx := {|
  sendThreadFunc := false; receivedThreadFunc := false; dataList := None; multicastDataList := None;
  blockDataListMutex := false; blockDataSenderMutex := false; multicastDataListMutex := false;
  out := []; bw_allocs := [] |}.

(** [OICMalloc] of [n] bytes. *)
Definition OICMalloc (n : Z) : M Ctx bool := if n =? 0 then mret false else alloc.

(** ** Elements of the list *)

Definition entries (c : Ctx) : list (Z * CABlockData_t) := default [] (dataList c).

Definition deref (p : Z) : M Ctx CABlockData_t := fun c =>
  match find (fun e => p =? e.1) (entries c) with Some e => Some (e.2, c) | None => None end.

Definition on_entry (p : Z) (f : CABlockData_t -> CABlockData_t) (l : list (Z * CABlockData_t))
    : list (Z * CABlockData_t) := (fun e => if p =? e.1 then (e.1, f e.2) else e) <$> l.

(** An assignment through the pointer [p]. *)
Definition assign (p : Z) (f : CABlockData_t -> CABlockData_t) : M Ctx unit :=
  _ ← deref p; modify (fun c => set_dataList (on_entry p f <$> dataList c) c).

Definition fresh (l : list (Z * CABlockData_t)) : Z := 1 + foldr (fun e n => Z.max e.1 n) 0 l.

Definition set_block1 (b : coap_block_t) (d : CABlockData_t) : CABlockData_t := {|
  block1 := b; block2 := block2 d; bd_type := bd_type d; blockDataId := blockDataId d;
  sentData := sentData d; bd_payload := bd_payload d; payloadLength := payloadLength d;
  receivedPayloadLen := receivedPayloadLen d |}.
Definition set_block2 (b : coap_block_t) (d : CABlockData_t) : CABlockData_t := {|
  block1 := block1 d; block2 := b; bd_type := bd_type d; blockDataId := blockDataId d;
  sentData := sentData d; bd_payload := bd_payload d; payloadLength := payloadLength d;
  receivedPayloadLen := receivedPayloadLen d |}.
Definition set_bd_type (t : Z) (d : CABlockData_t) : CABlockData_t := {|
  block1 := block1 d; block2 := block2 d; bd_type := t; blockDataId := blockDataId d;
  sentData := sentData d; bd_payload := bd_payload d; payloadLength := payloadLength d;
  receivedPayloadLen := receivedPayloadLen d |}.
Definition set_sentData (s : option CAData_t) (d : CABlockData_t) : CABlockData_t := {|
  block1 := block1 d; block2 := block2 d; bd_type := bd_type d; blockDataId := blockDataId d;
  sentData := s; bd_payload := bd_payload d; payloadLength := payloadLength d;
  receivedPayloadLen := receivedPayloadLen d |}.
Definition set_received (p : option (list Z)) (total received : Z) (d : CABlockData_t) : CABlockData_t := {|
  block1 := block1 d; block2 := block2 d; bd_type := bd_type d; blockDataId := blockDataId d;
  sentData := sentData d; bd_payload := p; payloadLength := total; receivedPayloadLen := received |}.

Definition with_num (n : Z) (b : coap_block_t) : coap_block_t := {| num := n; m := m b; szx := szx b |}.
Definition with_m (v : Z) (b : coap_block_t) : coap_block_t := {| num := num b; m := v; szx := szx b |}.
Definition with_szx (s : Z) (b : coap_block_t) : coap_block_t := {| num := num b; m := m b; szx := s |}.

(** The increment of a 20 bit field. *)
Definition add_num (n : Z) (b : coap_block_t) : coap_block_t := with_num (wrap 20 (num b + n)) b.

Definition BLOCK_SIZE (arg : Z) : Z := 1 <<< (arg + 4).
Definition CA_BLOCK_SIZE_1024_BYTE : Z := 6.
Definition CA_DEFAULT_BLOCK_SIZE : Z := CA_BLOCK_SIZE_1024_BYTE.

Inductive CABlockState_t :=
| CA_BLOCK_UNKNOWN
| CA_OPTION1_RESPONSE
| CA_OPTION1_REQUEST_LAST_BLOCK
| CA_OPTION1_REQUEST_BLOCK
| CA_OPTION2_FIRST_BLOCK
| CA_OPTION2_LAST_BLOCK
| CA_OPTION2_RESPONSE
| CA_OPTION2_REQUEST
| CA_BLOCK_INCOMPLETE
| CA_BLOCK_TOO_LARGE
| CA_BLOCK_RECEIVED_ALREADY.
#[export] Instance CABlockState_eq_dec : EqDecision CABlockState_t.
Proof. solve_decision. Defined.

(** A code that is a request's: the code byte against [CAMethod_t]. *)
Definition is_method (code : Z) : bool :=
  (CA_GET =? code) || (CA_POST =? code) || (CA_PUT =? code) || (CA_DELETE =? code).

(** ** Identifiers *)

Definition port_bytes (portNumber : Z) : list Z := [(portNumber >>> 8) &&& 0xFF; portNumber &&& 0xFF].

(** Token, port and address.  Without a token its bytes would be indeterminate,
    and every use of the identifier compares them. *)
Definition CACreateBlockDatablockId (token : option (list Z)) (tokenLength : Z) (addr : list Z) (portNumber : Z)
    : M Ctx (option CABlockDataID_t) :=
  ok ← alloc;
  if negb ok then mret None
  else
    ok ← alloc;
    if negb ok then mret None
    else
      t ← lift (match token with
                | Some t => read_at t 0 tokenLength
                | None => if tokenLength =? 0 then Some [] else None
                end);
      mret (Some (t ++ port_bytes portNumber ++ addr)).

Definition CABlockidMatches (currData : CABlockData_t) (blockID : CABlockDataID_t) : bool :=
  bool_decide (blockDataId currData = blockID).

(** ** Access by identifier *)

Definition find_block (blockID : CABlockDataID_t) (l : list (Z * CABlockData_t)) : option (Z * CABlockData_t) :=
  find (fun e => CABlockidMatches e.2 blockID) l.

(** The pointer that is returned, or NULL. *)
Definition CAGetBlockDataFromBlockDataList (blockID : CABlockDataID_t) : M Ctx (option Z) :=
  gets (fun c => fst <$> find_block blockID (entries c)).

Definition CAUpdateBlockOptionType (blockID : CABlockDataID_t) (blockType : Z) : M Ctx CAResult_t :=
  p ← CAGetBlockDataFromBlockDataList blockID;
  match p with
  | Some p => _ ← assign p (set_bd_type blockType); mret CA_STATUS_OK
  | None => mret CA_STATUS_FAILED
  end.

Definition CAGetBlockOptionType (blockID : CABlockDataID_t) : M Ctx Z :=
  gets (fun c => match find_block blockID (entries c) with Some e => bd_type e.2 | None => 0 end).

Definition CAGetDataSetFromBlockDataList (blockID : CABlockDataID_t) : M Ctx (option CAData_t) :=
  gets (fun c => match find_block blockID (entries c) with Some e => sentData e.2 | None => None end).

(** The address of the field [blockType] names, as the block's address. *)
Definition CAGetBlockOption (blockID : CABlockDataID_t) (blockType : Z) : M Ctx (option Z) :=
  gets (fun c => if (blockType =? COAP_OPTION_BLOCK2) || (blockType =? COAP_OPTION_BLOCK1)
                 then fst <$> find_block blockID (entries c) else None).

(** Payload and length; the length is left as it was, 0, without an entry. *)
Definition CAGetPayloadFromBlockDataList (blockID : CABlockDataID_t) : M Ctx (option (list Z) * Z) :=
  gets (fun c => match find_block blockID (entries c) with
                 | Some e => (bd_payload e.2, receivedPayloadLen e.2)
                 | None => (None, 0)
                 end).

Definition CAUpdateDataSetFromBlockDataList (blockID : CABlockDataID_t) (sendData : CAData_t) : M Ctx (option Z) :=
  p ← CAGetBlockDataFromBlockDataList blockID;
  match p with
  | None => mret None
  | Some p => clone ← CACloneCAData sendData; _ ← assign p (set_sentData clone); mret (Some p)
  end.

Fixpoint remove_first (blockID : CABlockDataID_t) (l : list (Z * CABlockData_t)) : list (Z * CABlockData_t) :=
  match l with
  | [] => []
  | e :: l => if CABlockidMatches e.2 blockID then l else e :: remove_first blockID l
  end.

(** The first entry with this identifier is removed and freed. *)
Definition CARemoveBlockDataFromList (blockID : CABlockDataID_t) : M Ctx CAResult_t :=
  _ ← modify (fun c => set_dataList (remove_first blockID <$> dataList c) c); mret CA_STATUS_OK.

Definition CARemoveAllBlockDataFromList : M Ctx CAResult_t :=
  _ ← modify (fun c => set_dataList ((fun _ => []) <$> dataList c) c); mret CA_STATUS_OK.

Definition CARemoveBlockDataFromListWithSeed (token : option (list Z)) (tokenLength : Z) (addr : list Z)
    (portNumber : Z) : M Ctx CAResult_t :=
  id ← CACreateBlockDatablockId token tokenLength addr portNumber;
  match id with
  | None => mret CA_STATUS_FAILED
  | Some id => CARemoveBlockDataFromList id
  end.

(** Token and length for an empty message, from the request with its id. *)
Fixpoint find_token (id : Z) (endpoint : CAEndpoint_t) (l : list (Z * CABlockData_t))
    : ub (option (list Z * Z)) :=
  match l with
  | [] => Some None
  | (_, e) :: l =>
      match sentData e with
      | Some d =>
          match requestInfo d with
          | Some r =>
              if messageId (req_info r) =? id then
                se ← remoteEndpoint d;
                if adapter endpoint =? adapter se then
                  match token (req_info r) with
                  | Some t => Some (Some (t, tokenLength (req_info r)))
                  | None => find_token id endpoint l
                  end
                else find_token id endpoint l
              else find_token id endpoint l
          | None => find_token id endpoint l
          end
      | None => find_token id endpoint l
      end
  end.

Definition CAGetTokenFromBlockDataList (pdu : coap_pdu_t) (endpoint : CAEndpoint_t) (responseInfo : CAResponseInfo_t)
    : M Ctx (CAResult_t * CAResponseInfo_t) :=
  id ← lift (udp_id (hdr pdu));
  l ← gets entries;
  t ← lift (find_token id endpoint l);
  match t with
  | None => mret (CA_STATUS_FAILED, responseInfo)
  | Some (t, length) =>
      ok ← OICMalloc length;
      if negb ok then
        mret (CA_MEMORY_ALLOC_FAILED, set_res_info (set_token None length) responseInfo)
      else
        t ← lift (read_at t 0 length);
        mret (CA_STATUS_OK, set_res_info (set_token (Some t) length) responseInfo)
  end.

(** ** Payloads *)

(** The payload and [*payloadLen], which the callers set to 0 before. *)
Definition CAGetPayloadInfo (data : CAData_t) : option (list Z) * Z :=
  let part i := match payload i with Some p => (Some p, payloadSize i) | None => (None, 0) end in
  match requestInfo data with
  | Some r => part (req_info r)
  | None => match responseInfo data with Some r => part (res_info r) | None => (None, 0) end
  end.

Definition CACheckPayloadLength (sendData : CAData_t) : bool :=
  BLOCK_SIZE CA_DEFAULT_BLOCK_SIZE <? snd (CAGetPayloadInfo sendData).

(** The received length against the state: block numbers, the length of a block
    that is not the last one, and the announced length at the last one.  The
    block that is 413 makes [szx] of both options smaller. *)
Fixpoint largest_szx (optionLen : Z) (size : nat) : option Z :=
  if u64 (BLOCK_SIZE (Z.of_nat size) + optionLen) <=? COAP_MAX_PDU_SIZE then Some (Z.of_nat size)
  else match size with O => None | S size => largest_szx optionLen size end.

Definition CACheckBlockErrorType (p : Z) (receivedBlock : coap_block_t) (receivedData : CAData_t) (blockType dataLen : Z)
    : M Ctx CABlockState_t :=
  currData ← deref p;
  let blockPayloadLen := snd (CAGetPayloadInfo receivedData) in
  let size := BLOCK_SIZE (szx receivedBlock) in
  let early :=
    if blockType =? COAP_OPTION_BLOCK1 then
      if negb (receivedPayloadLen currData =? size * num receivedBlock) then
        if num (block1 currData) + 1 <? num receivedBlock then Some CA_BLOCK_INCOMPLETE
        else Some CA_BLOCK_RECEIVED_ALREADY
      else None
    else if blockType =? COAP_OPTION_BLOCK2 then
      if negb (num receivedBlock =? num (block2 currData)) then
        if num (block2 currData) <? num receivedBlock then Some CA_BLOCK_INCOMPLETE
        else Some CA_BLOCK_RECEIVED_ALREADY
      else None
    else None in
  match early with
  | Some s => mret s
  | None =>
      let optionLen := u64 (dataLen - blockPayloadLen) in
      if negb (m receivedBlock =? 0) && negb (blockPayloadLen =? size) then
        if COAP_MAX_PDU_SIZE <? u64 (size + optionLen) then
          _ ← (match largest_szx optionLen (Z.to_nat CA_DEFAULT_BLOCK_SIZE) with
               | Some s => assign p (fun d => set_block1 (with_szx s (block1 d)) (set_block2 (with_szx s (block2 d)) d))
               | None => mret tt
               end : M Ctx unit);
          mret CA_BLOCK_TOO_LARGE
        else mret CA_BLOCK_INCOMPLETE
      else if (m receivedBlock =? 0) && negb (payloadLength currData =? 0)
              && negb (u64 (receivedPayloadLen currData + blockPayloadLen) =? payloadLength currData)
           then mret CA_BLOCK_INCOMPLETE
      else mret CA_BLOCK_UNKNOWN
  end.

(** [memcpy (payload + at_, src, len)]; a NULL payload cannot be written. *)
Definition copy_to (buf : option (list Z)) (at_ : Z) (src : list Z) (len : Z) : ub (list Z) :=
  s ← read_at src 0 len; b ← buf; write_at b at_ s.

(** The stored payload after this block, and [None] out of memory. *)
Definition CAUpdatePayloadData (p : Z) (receivedData : CAData_t) (status : CABlockState_t) (isSizeOption : bool)
    (blockType : Z) : M Ctx CAResult_t :=
  currData ← deref p;
  if decide (status = CA_BLOCK_INCOMPLETE) then mret CA_STATUS_OK
  else
    let '(blockPayload, len) := CAGetPayloadInfo receivedData in
    let blockPayloadLen :=
      if decide (status = CA_BLOCK_TOO_LARGE) then
        BLOCK_SIZE (if blockType =? COAP_OPTION_BLOCK2 then szx (block2 currData) else szx (block1 currData))
      else len in
    let prePayloadLen := receivedPayloadLen currData in
    match blockPayload with
    | None => mret CA_STATUS_OK
    | Some blockPayload =>
        let total := payloadLength currData in
        let received := u64 (prePayloadLen + blockPayloadLen) in
        if negb (total =? 0) then
          buf ← (if isSizeOption then
                   ok ← alloc;
                   if negb ok then mret None
                   else
                     b ← lift (if prePayloadLen =? 0 then Some (replicate (Z.to_nat total) 0)
                               else copy_to (Some (replicate (Z.to_nat total) 0)) 0
                                      (default [] (bd_payload currData)) prePayloadLen);
                     mret (Some (Some b))
                 else mret (Some (bd_payload currData)) : M Ctx (option (option (list Z))));
          match buf with
          | None => _ ← assign p (set_received None total prePayloadLen); mret CA_MEMORY_ALLOC_FAILED
          | Some buf =>
              b ← lift (copy_to buf prePayloadLen blockPayload blockPayloadLen);
              _ ← assign p (set_received (Some b) total received);
              mret CA_STATUS_OK
          end
        else
          let totalPayloadLen := u64 (prePayloadLen + blockPayloadLen) in
          ok ← (match bd_payload currData with
                | None => OICMalloc totalPayloadLen
                | Some _ => if totalPayloadLen =? 0 then undefined else alloc
                end : M Ctx bool);
          if negb ok then mret CA_MEMORY_ALLOC_FAILED
          else
            let old := default [] (bd_payload currData) in
            let newPayload := take (Z.to_nat totalPayloadLen) old ++
                              replicate (Z.to_nat totalPayloadLen - length old) 0 in
            b ← lift (copy_to (Some newPayload) prePayloadLen blockPayload blockPayloadLen);
            _ ← assign p (set_received (Some b) total received);
            mret CA_STATUS_OK
    end.

(** [COAP_OPTION_SIZE1] or [COAP_OPTION_SIZE2] of the message, into
    [payloadLength]. *)
Definition CAIsPayloadLengthInPduWithBlockSizeOption (pdu : coap_pdu_t) (sizeType p : Z) : M Ctx bool :=
  if negb (sizeType =? COAP_OPTION_SIZE1) && negb (sizeType =? COAP_OPTION_SIZE2) then mret false
  else
    option ← lift (coap_check_option pdu sizeType);
    match option with
    | None => mret false
    | Some at_ =>
        n ← lift (let opt := drop (Z.to_nat at_) (hdr pdu) in
                  v ← coap_opt_value opt; v ← v; len ← coap_opt_length opt;
                  coap_decode_var_bytes (drop (Z.to_nat v) opt) len);
        _ ← assign p (fun d => set_received (bd_payload d) n (receivedPayloadLen d) d);
        mret true
    end.

Definition CAUpdatePayloadToCAData (data : CAData_t) (payload : list Z) (payloadLen : Z)
    : M Ctx (CAResult_t * CAData_t) :=
  let realloc (i : CAInfo_t) : M Ctx bool :=
    match CaMessage.payload i with
    | None => OICMalloc payloadLen
    | Some _ => if payloadLen =? 0 then undefined else alloc
    end in
  match dataType data with
  | Some CA_REQUEST_DATA =>
      match requestInfo data with
      | None => mret (CA_STATUS_FAILED, data)
      | Some r =>
          ok ← realloc (req_info r);
          if negb ok then mret (CA_STATUS_FAILED, data)
          else
            b ← lift (read_at payload 0 payloadLen);
            mret (CA_STATUS_OK, set_requestInfo (Some (set_req_info (set_payload (Some b) payloadLen) r)) data)
      end
  | Some CA_RESPONSE_DATA =>
      match responseInfo data with
      | None => mret (CA_STATUS_FAILED, data)
      | Some r =>
          ok ← realloc (res_info r);
          if negb ok then mret (CA_STATUS_FAILED, data)
          else
            b ← lift (read_at payload 0 payloadLen);
            mret (CA_STATUS_OK, set_responseInfo (Some (set_res_info (set_payload (Some b) payloadLen) r)) data)
      end
  | _ => mret (CA_NOT_SUPPORTED, data)
  end.

(** ** New entries *)

(** The request or else the response of a message: its token. *)
Definition data_token (d : CAData_t) : option (list Z) * Z :=
  match requestInfo d with
  | Some r => (token (req_info r), tokenLength (req_info r))
  | None =>
      match responseInfo d with
      | Some r => (token (res_info r), tokenLength (res_info r))
      | None => (None, 0)
      end
  end.

Definition CACreateNewBlockData (sendData : CAData_t) : M Ctx (option Z) :=
  ok ← alloc;
  if negb ok then mret None
  else
    clone ← CACloneCAData sendData;
    match clone with
    | None => mret None
    | Some clone =>
        let '(token, tokenLength) := data_token clone in
        match remoteEndpoint clone with
        | None => mret None
        | Some e =>
            id ← CACreateBlockDatablockId token tokenLength (addr e) (port e);
            match id with
            | None => mret None
            | Some id =>
                list ← gets dataList;
                match list with
                | Some l =>
                    ok ← alloc;
                    if (ok : bool) then
                      let szx0 := {| num := 0; m := 0; szx := CA_DEFAULT_BLOCK_SIZE |} in
                      let p := fresh l in
                      let d := {| block1 := szx0; block2 := szx0; bd_type := 0; blockDataId := id;
                                  sentData := Some clone; bd_payload := None; payloadLength := 0;
                                  receivedPayloadLen := 0 |} in
                      _ ← modify (set_dataList (Some (l ++ [(p, d)]))); mret (Some p)
                    else mret None
                | None => mret None
                end
            end
        end
    end.

Definition multicasts (c : Ctx) : list CABlockMulticastData_t := default [] (multicastDataList c).

(** The first one whose token is the beginning of [token]. *)
Fixpoint find_multicast (token : list Z) (tokenLength : Z) (l : list CABlockMulticastData_t)
    : ub (option CABlockMulticastData_t) :=
  match l with
  | [] => Some None
  | d :: l =>
      if mc_tokenLength d <=? tokenLength then
        a ← read_at token 0 (mc_tokenLength d); b ← read_at (mc_token d) 0 (mc_tokenLength d);
        if decide (a = b) then Some (Some d) else find_multicast token tokenLength l
      else find_multicast token tokenLength l
  end.

Definition CAGetBlockMulticastDataFromListWithSeed (token : option (list Z)) (tokenLength : Z)
    : M Ctx (option CABlockMulticastData_t) :=
  match token with
  | None => mret None
  | Some token => l ← gets multicasts; lift (find_multicast token tokenLength l)
  end.

Definition CACreateNewBlockMulticastData (sendData : CAData_t) : M Ctx bool :=
  match requestInfo sendData with
  | None => mret false
  | Some r =>
      if negb (req_isMulticast r) then mret false
      else
        ok ← alloc;
        if negb ok then mret false
        else
          ok ← OICMalloc (tokenLength (req_info r));
          if negb ok then mret false
          else
            t ← lift (t ← token (req_info r); read_at t 0 (tokenLength (req_info r)));
            u ← clone_string (resourceUri (req_info r));
            match u with
            | None => mret false
            | Some u =>
                list ← gets multicastDataList;
                match list with
                | Some l =>
                    ok ← alloc;
                    if (ok : bool) then
                      _ ← modify (set_multicastDataList (Some (l ++ [{| mc_token := t;
                                    mc_tokenLength := tokenLength (req_info r); mc_resourceUri := u |}])));
                      mret true
                    else mret false
                | None => mret false
                end
            end
  end.

Definition CARemoveAllBlockMulticastDataFromList : M Ctx CAResult_t :=
  _ ← modify (fun c => set_multicastDataList ((fun _ => []) <$> multicastDataList c) c); mret CA_STATUS_OK.

(** The first one that [find_multicast] finds. *)
Fixpoint remove_multicast (token : list Z) (tokenLength : Z) (l : list CABlockMulticastData_t)
    : ub (list CABlockMulticastData_t) :=
  match l with
  | [] => Some []
  | d :: l =>
      if mc_tokenLength d <=? tokenLength then
        a ← read_at token 0 (mc_tokenLength d); b ← read_at (mc_token d) 0 (mc_tokenLength d);
        if decide (a = b) then Some l else l ← remove_multicast token tokenLength l; Some (d :: l)
      else l ← remove_multicast token tokenLength l; Some (d :: l)
  end.

Definition CARemoveBlockMulticastDataFromListWithSeed (token : list Z) (tokenLength : Z) : M Ctx CAResult_t :=
  l ← gets multicasts;
  l ← lift (remove_multicast token tokenLength l);
  _ ← modify (fun c => set_multicastDataList ((fun _ => l) <$> multicastDataList c) c);
  mret CA_STATUS_OK.

(** ** Block options *)

Definition CAHandleBlockErrorResponse (block : coap_block_t) (blockType responseResult : Z)
    : CAResult_t * coap_block_t :=
  if responseResult =? CA_REQUEST_ENTITY_INCOMPLETE then (CA_STATUS_OK, with_num 0 block)
  else if responseResult =? CA_REQUEST_ENTITY_TOO_LARGE then
    (CA_STATUS_OK, with_m 0 (if blockType =? COAP_OPTION_BLOCK1 then add_num 1 block else block))
  else (CA_STATUS_FAILED, block).

(** Both sides send with the smaller block size; the number counts blocks of
    the size that is sent next. *)
Definition CANegotiateBlockSize (currData : CABlockData_t) (block : coap_block_t) (code blockType : Z)
    : CAResult_t * coap_block_t :=
  let isReqMsg := is_method code in
  if blockType =? COAP_OPTION_BLOCK2 then
    let own := szx (block2 currData) in
    (CA_STATUS_OK,
     if negb (own <? szx block) then block
     else if isReqMsg then with_szx own block
     else with_szx own (add_num (BLOCK_SIZE (szx block) / BLOCK_SIZE own - 1) block))
  else if blockType =? COAP_OPTION_BLOCK1 then
    let own := szx (block1 currData) in
    (CA_STATUS_OK,
     if isReqMsg then (if own <? szx block then with_szx own block else block)
     else if szx block <? own then add_num (BLOCK_SIZE own / BLOCK_SIZE (szx block) - 1) block
     else block)
  else (CA_STATUS_FAILED, block).

Definition CAUpdateBlockOptionItems (p : Z) (pdu : coap_pdu_t) (block : coap_block_t) (blockType : Z)
    (status : CABlockState_t) : M Ctx (CAResult_t * coap_block_t) :=
  currData ← deref p;
  c ← lift (udp_code (hdr pdu));
  let code := CA_RESPONSE_CODE c in
  if (CA_REQUEST_ENTITY_INCOMPLETE =? code) || (CA_REQUEST_ENTITY_TOO_LARGE =? code)
  then mret (CAHandleBlockErrorResponse block blockType code)
  else
    let r :=
      match status with
      | CA_OPTION1_RESPONSE =>
          if num block <? num (block1 currData) then None else Some (add_num 1 block)
      | CA_OPTION2_REQUEST => Some (with_m 0 block)
      | CA_OPTION2_RESPONSE =>
          if num block <? num (block2 currData) then None else Some (with_m 0 (add_num 1 block))
      | CA_BLOCK_TOO_LARGE =>
          Some (if blockType =? COAP_OPTION_BLOCK2
                then with_szx (szx (block2 currData)) (with_m 0 (add_num 1 block))
                else with_szx (szx (block1 currData)) block)
      | _ => Some block
      end in
    mret (match r with
          | None => (CA_STATUS_FAILED, block)
          | Some block =>
              match status with
              | CA_BLOCK_INCOMPLETE | CA_BLOCK_TOO_LARGE => (CA_STATUS_OK, block)
              | _ => CANegotiateBlockSize currData block c blockType
              end
          end).

Definition CAUpdateBlockData (p : Z) (block : coap_block_t) (blockType : Z) : M Ctx CAResult_t :=
  if CA_BLOCK_SIZE_1024_BYTE <? szx block then mret CA_STATUS_FAILED
  else
    _ ← assign p (if blockType =? COAP_OPTION_BLOCK2 then set_block2 block else set_block1 block);
    mret CA_STATUS_OK.

(** [int] arithmetic, then a comparison of [size_t]. *)
Definition more_bit (payloadLen : Z) (block : coap_block_t) : ub Z :=
  n ← int_result ((num block + 1) <<< (szx block + 4));
  Some (if u64 n <? payloadLen then 1 else 0).

(** ** Sending *)

(** The identifier to remove when there is no memory; [None] for the one
    [CASendBlockWiseData] passes, the address of a pointer taken for the
    identifier itself, whose length is another pointer. *)
Definition CAAddSendThreadQueue (sendData : CAData_t) (blockID : option CABlockDataID_t) : M Ctx CAResult_t :=
  clone ← CACloneCAData sendData;
  match clone with
  | None =>
      _ ← (match blockID with Some id => CARemoveBlockDataFromList id | None => mret CA_STATUS_OK end : M Ctx CAResult_t);
      mret CA_STATUS_FAILED
  | Some clone =>
      s ← gets sendThreadFunc;
      _ ← (if (s : bool) then modify (add_out (SendThread clone)) else mret tt : M Ctx unit);
      mret CA_STATUS_OK
  end.

Definition CACheckBlockOptionType (p : Z) : M Ctx CAResult_t :=
  currData ← deref p;
  match sentData currData with
  | None => mret CA_STATUS_INVALID_PARAM
  | Some d =>
      if negb (CACheckPayloadLength d) then mret CA_NOT_SUPPORTED
      else
        _ ← assign p (set_bd_type (if bool_decide (requestInfo d = None) then COAP_OPTION_BLOCK2 else COAP_OPTION_BLOCK1));
        mret CA_STATUS_OK
  end.

Definition CACheckBlockDataValidation (sendData : CAData_t) : M Ctx (CAResult_t * option Z) :=
  match responseInfo sendData, remoteEndpoint sendData with
  | Some r, Some e =>
      id ← CACreateBlockDatablockId (token (res_info r)) (tokenLength (res_info r)) (addr e) (port e);
      match id with
      | None => mret (CA_STATUS_FAILED, None)
      | Some id =>
          p ← CAUpdateDataSetFromBlockDataList id sendData;
          mret (match p with Some p => (CA_STATUS_OK, Some p) | None => (CA_STATUS_FAILED, None) end)
      end
  | _, _ => mret (CA_STATUS_FAILED, None)
  end.

(** Messages that are never sent in blocks; a multicast request is recorded. *)
Definition refused_message (sendData : CAData_t) : M Ctx (option CAResult_t) :=
  match requestInfo sendData with
  | Some r =>
      if bool_decide (type (req_info r) = CA_MSG_RESET) then mret (Some CA_NOT_SUPPORTED)
      else if req_isMulticast r then
        d ← CAGetBlockMulticastDataFromListWithSeed (token (req_info r)) (tokenLength (req_info r));
        match d with
        | Some _ => mret (Some CA_NOT_SUPPORTED)
        | None =>
            ok ← CACreateNewBlockMulticastData sendData;
            mret (Some (if (ok : bool) then CA_NOT_SUPPORTED else CA_MEMORY_ALLOC_FAILED))
        end
      else mret None
  | None =>
      match responseInfo sendData with
      | Some r =>
          mret (if bool_decide (type (res_info r) = CA_MSG_RESET) || res_isMulticast r
                then Some CA_NOT_SUPPORTED else None)
      | None => mret None
      end
  end.

Definition CASendBlockWiseData (sendData : CAData_t) : M Ctx CAResult_t :=
  r ← refused_message sendData;
  match r with
  | Some r => mret r
  | None =>
      '(res, currData) ← CACheckBlockDataValidation sendData;
      let go (p : Z) : M Ctx CAResult_t :=
        res ← CACheckBlockOptionType p;
        if decide (res = CA_STATUS_OK) then
          d ← deref p;
          match sentData d with
          | Some s => CAAddSendThreadQueue s None
          | None => mret CA_STATUS_INVALID_PARAM
          end
        else mret res in
      match currData with
      | Some p => go p
      | None =>
          if negb (CACheckPayloadLength sendData) then
            match requestInfo sendData with
            | Some _ =>
                p ← CACreateNewBlockData sendData;
                mret (if bool_decide (p = None) then CA_MEMORY_ALLOC_FAILED else CA_NOT_SUPPORTED)
            | None => mret CA_NOT_SUPPORTED
            end
          else
            p ← CACreateNewBlockData sendData;
            match p with
            | None => mret CA_MEMORY_ALLOC_FAILED
            | Some p => go p
            end
      end
  end.

(** ** Answers to a block *)

Definition answer_type (t : Z) : CAMessageType_t :=
  match message_type t with
  | CA_MSG_CONFIRM => CA_MSG_ACKNOWLEDGE
  | CA_MSG_ACKNOWLEDGE => CA_MSG_CONFIRM
  | _ => CA_MSG_NONCONFIRM
  end.

Definition empty_response (messageId : Z) : CAResponseInfo_t := {|
  result := CA_EMPTY;
  res_info := {|
    type := CA_MSG_ACKNOWLEDGE; CaMessage.messageId := messageId; token := None; tokenLength := 0; options := None;
    numOptions := 0; payload := None; payloadSize := 0; payloadFormat := CA_FORMAT_UNDEFINED;
    acceptFormat := CA_FORMAT_UNDEFINED; payloadVersion := 0; acceptVersion := 0; resourceUri := None;
    identity := no_identity; info_dataType := Some CA_RESPONSE_DATA |};
  res_isMulticast := false |}.

(** [msgType] is the two bits of the header; the message is changed in place. *)
Definition CASendBlockMessage (pdu : coap_pdu_t) (msgType : Z) (blockID : CABlockDataID_t) : M Ctx CAResult_t :=
  p ← CAGetBlockDataFromBlockDataList blockID;
  data ← CAGetDataSetFromBlockDataList blockID;
  match p, data with
  | Some p, Some data =>
      code ← lift (udp_code (hdr pdu));
      id ← lift (udp_id (hdr pdu));
      let sentMsgType := answer_type msgType in
      let answer r := set_responseInfo (Some (set_res_info (fun i => set_type sentMsgType (set_messageId id i)) r)) in
      data' ← (if is_method code then
                 mret (match responseInfo data with
                       | Some r => answer (set_result CA_CONTINUE r) data
                       | None => data
                       end)
               else
                 match requestInfo data with
                 | Some r =>
                     t ← (if bool_decide (message_type msgType = CA_MSG_CONFIRM) then
                            _ ← modify (add_out (SendResponse (remoteEndpoint data)
                                          (empty_response (messageId (req_info r)))));
                            mret CA_MSG_CONFIRM
                          else mret sentMsgType : M Ctx CAMessageType_t);
                     mret (set_requestInfo (Some (set_req_info (fun i => set_type t (set_messageId 0 i)) r)) data)
                 | None =>
                     mret (match responseInfo data with Some r => answer r data | None => data end)
                 end : M Ctx CAData_t);
      _ ← assign p (set_sentData (Some data'));
      CAAddSendThreadQueue data' (Some blockID)
  | _, _ => mret CA_STATUS_FAILED
  end.

(** A copy of the stored message becomes a response with this code. *)
Definition error_response (pdu : coap_pdu_t) (responseResult : Z) (clone : CAData_t) : M Ctx (option CAData_t) :=
  ty ← lift (udp_type (hdr pdu));
  id ← lift (udp_id (hdr pdu));
  match responseInfo clone with
  | Some r =>
      mret (Some (set_requestInfo None (set_responseInfo
        (Some (set_result responseResult (set_res_info (fun i => set_type (answer_type ty) (set_messageId id i)) r))) clone)))
  | None =>
      len ← lift (udp_token_length (hdr pdu));
      ok ← OICMalloc len;
      if negb ok then mret None
      else
        t ← lift (udp_token (hdr pdu));
        ok ← alloc;
        if negb ok then mret None
        else
          mret (Some (set_requestInfo None (set_responseInfo
            (Some {| result := responseResult; res_isMulticast := false;
                     res_info := set_type (answer_type ty) (set_token (Some t) len zero_info) |}) clone)))
  end.

Definition CASendErrorMessage (pdu : coap_pdu_t) (status : CABlockState_t) (responseResult : Z)
    (blockID : CABlockDataID_t) : M Ctx CAResult_t :=
  p ← CAGetBlockDataFromBlockDataList blockID;
  match p with
  | None => mret CA_STATUS_FAILED
  | Some p =>
      data ← deref p;
      match sentData data with
      | None => mret CA_STATUS_FAILED
      | Some sent =>
          clone ← CACloneCAData sent;
          match clone with
          | None => mret CA_MEMORY_ALLOC_FAILED
          | Some clone =>
              r ← error_response pdu responseResult clone;
              match r with
              | None => mret CA_MEMORY_ALLOC_FAILED
              | Some d =>
                  s ← gets sendThreadFunc;
                  _ ← (if (s : bool) then modify (add_out (SendThread d)) else mret tt : M Ctx unit);
                  _ ← (if decide (status = CA_BLOCK_INCOMPLETE) then
                         assign p (fun e => set_block1 (with_num 0 (block1 e)) (set_block2 (with_num 0 (block2 e))
                           (set_received None 0 0 e)))
                       else mret tt : M Ctx unit);
                  mret CA_STATUS_OK
              end
          end
      end
  end.

(** The whole payload goes up with a copy of the last block's message. *)
Definition CAReceiveLastBlock (blockID : CABlockDataID_t) (receivedData : CAData_t) : M Ctx CAResult_t :=
  clone ← CACloneCAData receivedData;
  match clone with
  | None => mret CA_MEMORY_ALLOC_FAILED
  | Some clone =>
      '(fullPayload, fullPayloadLen) ← CAGetPayloadFromBlockDataList blockID;
      '(res, clone) ← (match fullPayload with
                       | Some b => CAUpdatePayloadToCAData clone b fullPayloadLen
                       | None => mret (CA_STATUS_OK, clone)
                       end : M Ctx (CAResult_t * CAData_t));
      if decide (res = CA_STATUS_OK) then
        f ← gets receivedThreadFunc;
        _ ← (if (f : bool) then modify (add_out (ReceiveThread clone)) else mret tt : M Ctx unit);
        mret CA_STATUS_OK
      else mret res
  end.

(** ** Receiving *)

(** What is stored for a block that starts a transfer: the answer to a request
    or the request for the next block.  [proxyUri] is [g_chproxyUri].  A failed
    read of the response leaves freed fields, which are freed again. *)
Definition CACreateNewDataSet (pdu : coap_pdu_t) (endpoint : CAEndpoint_t) (proxyUri : list Z)
    : M Ctx (option CAData_t) :=
  code ← lift (udp_code (hdr pdu));
  len ← lift (udp_token_length (hdr pdu));
  ok ← OICMalloc len;
  if negb ok then mret None
  else
    t ← lift (udp_token (hdr pdu));
    let info := set_token (Some t) len zero_info in
    msgs ← (if is_method code then
              ok ← alloc;
              mret (if (ok : bool) then Some (None, Some {| result := 0; res_info := info; res_isMulticast := false |})
                    else None)
            else
              ok ← alloc;
              if negb ok then mret None
              else
                ok ← alloc;
                if negb ok then mret None
                else
                  '(_, resInfo, freed) ← CAGetResponseInfoFromPDU pdu proxyUri;
                  id ← lift (CAGetMessageIdFromPduBinaryData (Some (hdr pdu)) (u32 (plength pdu)));
                  u ← clone_string (resourceUri (res_info resInfo));
                  _ ← lift (CADestroyInfoInternal (res_info resInfo) freed);
                  mret (Some (Some {| method := CA_GET; req_isMulticast := false;
                                      req_info := set_resourceUri (default None u) (set_messageId id info) |}, None))
            : M Ctx (option (option CARequestInfo_t * option CAResponseInfo_t)));
    match msgs with
    | None => mret None
    | Some (req, res) =>
        ok ← alloc;
        if negb ok then mret None
        else
          e ← CACloneEndpoint (Some endpoint);
          mret (Some {| sendType := SEND_TYPE_UNICAST; remoteEndpoint := e; requestInfo := req; responseInfo := res;
                        errorInfo := None; dataType := None |})
    end.

(** A response need not carry the URI: that of the multicast request with the
    same token is taken. *)
Definition add_multicast_uri (blockDataID : CABlockDataID_t) (cadata : CAData_t) : M Ctx (option CAData_t) :=
  match requestInfo cadata with
  | Some r =>
      match resourceUri (req_info r) with
      | Some _ => mret (Some cadata)
      | None =>
          if UINT8_MAX <? Z.of_nat (length blockDataID) then undefined
          else
            d ← CAGetBlockMulticastDataFromListWithSeed (Some blockDataID) (Z.of_nat (length blockDataID));
            match d with
            | None => mret (Some cadata)
            | Some d =>
                u ← clone_string (mc_resourceUri d);
                mret (match u with
                      | Some (Some u) => Some (set_requestInfo (Some (set_req_info (set_resourceUri (Some u)) r)) cadata)
                      | _ => None
                      end)
            end
      end
  | None => mret (Some cadata)
  end.

Definition CACheckTheExistOfBlockData (blockDataID : CABlockDataID_t) (pdu : coap_pdu_t) (endpoint : CAEndpoint_t)
    (blockType : Z) (proxyUri : list Z) : M Ctx (option Z) :=
  p ← CAGetBlockDataFromBlockDataList blockDataID;
  p ← (match p with
       | Some p => mret (Some p)
       | None =>
           cadata ← CACreateNewDataSet pdu endpoint proxyUri;
           match cadata with
           | None => mret None
           | Some cadata =>
               cadata ← add_multicast_uri blockDataID cadata;
               match cadata with None => mret None | Some cadata => CACreateNewBlockData cadata end
           end
       end : M Ctx (option Z));
  match p with
  | None => mret None
  | Some p =>
      res ← CAUpdateBlockOptionType blockDataID blockType;
      mret (if bool_decide (res = CA_STATUS_OK) then Some p else None)
  end.

Definition CAProcessNextStep (pdu : coap_pdu_t) (receivedData : CAData_t) (blockWiseStatus : CABlockState_t)
    (blockID : CABlockDataID_t) : M Ctx CAResult_t :=
  ty ← lift (udp_type (hdr pdu));
  match blockWiseStatus with
  | CA_OPTION2_FIRST_BLOCK => CAAddSendThreadQueue receivedData (Some blockID)
  | CA_OPTION2_REQUEST =>
      p ← CAGetBlockDataFromBlockDataList blockID;
      data ← CAGetDataSetFromBlockDataList blockID;
      match p, data with
      | Some p, Some data =>
          match responseInfo data with
          | Some r =>
              id ← lift (udp_id (hdr pdu));
              let t := if bool_decide (message_type ty = CA_MSG_CONFIRM) then CA_MSG_ACKNOWLEDGE else CA_MSG_NONCONFIRM in
              let data := set_responseInfo (Some (set_res_info (fun i => set_messageId id (set_type t i)) r)) data in
              _ ← assign p (set_sentData (Some data));
              CAAddSendThreadQueue data (Some blockID)
          | None => mret CA_STATUS_OK
          end
      | _, _ => mret CA_STATUS_FAILED
      end
  | CA_OPTION1_RESPONSE | CA_OPTION2_RESPONSE | CA_OPTION1_REQUEST_BLOCK => CASendBlockMessage pdu ty blockID
  | CA_OPTION2_LAST_BLOCK =>
      res ← CAReceiveLastBlock blockID receivedData;
      if decide (res = CA_STATUS_OK) then CARemoveBlockDataFromList blockID else mret res
  | CA_OPTION1_REQUEST_LAST_BLOCK => CAReceiveLastBlock blockID receivedData
  | CA_BLOCK_INCOMPLETE => CASendErrorMessage pdu blockWiseStatus CA_REQUEST_ENTITY_INCOMPLETE blockID
  | CA_BLOCK_TOO_LARGE =>
      match requestInfo receivedData, responseInfo receivedData with
      | Some _, _ => CASendErrorMessage pdu blockWiseStatus CA_REQUEST_ENTITY_TOO_LARGE blockID
      | None, Some _ => CASendBlockMessage pdu ty blockID
      | None, None => mret CA_STATUS_OK
      end
  | CA_BLOCK_UNKNOWN | CA_BLOCK_RECEIVED_ALREADY => mret CA_STATUS_OK
  end.

(** [goto exit]: the entry is removed. *)
Definition exit_transfer (blockDataID : CABlockDataID_t) (res : CAResult_t) : M Ctx CAResult_t :=
  _ ← CARemoveBlockDataFromList blockDataID; mret res.

(** A step whose failure ends the transfer. *)
Definition or_exit (blockDataID : CABlockDataID_t) (step : M Ctx CAResult_t) (next : M Ctx CAResult_t) : M Ctx CAResult_t :=
  res ← step; if decide (res = CA_STATUS_OK) then next else exit_transfer blockDataID res.

Definition next_step (pdu : coap_pdu_t) (receivedData : CAData_t) (blockDataID : CABlockDataID_t)
    (status : CABlockState_t) : M Ctx CAResult_t :=
  or_exit blockDataID (CAProcessNextStep pdu receivedData status blockDataID) (mret CA_STATUS_OK).

(** The new items of the block option go into the entry. *)
Definition update_block (pdu : coap_pdu_t) (p : Z) (block : coap_block_t) (blockType : Z) (status : CABlockState_t)
    (blockDataID : CABlockDataID_t) (next : M Ctx CAResult_t) : M Ctx CAResult_t :=
  '(res, block) ← CAUpdateBlockOptionItems p pdu block blockType status;
  if decide (res = CA_STATUS_OK) then or_exit blockDataID (CAUpdateBlockData p block blockType) next
  else exit_transfer blockDataID res.

(** The identifier of the packet's sender and token; none out of memory or
    when it is too long. *)
Definition packet_block_id (pdu : coap_pdu_t) (endpoint : CAEndpoint_t) : M Ctx (option CABlockDataID_t) :=
  len ← lift (udp_token_length (hdr pdu));
  t ← lift (udp_token (hdr pdu));
  CACreateBlockDatablockId (Some t) len (addr endpoint) (port endpoint).

Definition CASetNextBlockOption1 (pdu : coap_pdu_t) (endpoint : CAEndpoint_t) (receivedData : CAData_t)
    (block : coap_block_t) (dataLen : Z) (proxyUri : list Z) : M Ctx CAResult_t :=
  id ← packet_block_id pdu endpoint;
  match id with
  | None => mret CA_STATUS_FAILED
  | Some blockDataID =>
      if UINT8_MAX <? Z.of_nat (length blockDataID) then mret CA_STATUS_FAILED
      else
        data ← CACheckTheExistOfBlockData blockDataID pdu endpoint COAP_OPTION_BLOCK1 proxyUri;
        match data with
        | None => exit_transfer blockDataID CA_STATUS_FAILED
        | Some p =>
            code ← lift (udp_code (hdr pdu));
            if is_method code then
              isSizeOption ← CAIsPayloadLengthInPduWithBlockSizeOption pdu COAP_OPTION_SIZE1 p;
              status ← CACheckBlockErrorType p block receivedData COAP_OPTION_BLOCK1 dataLen;
              let next_status b :=
                match status with
                | CA_BLOCK_UNKNOWN | CA_BLOCK_RECEIVED_ALREADY =>
                    if m b =? 0 then CA_OPTION1_REQUEST_LAST_BLOCK else CA_OPTION1_REQUEST_BLOCK
                | s => s
                end in
              if decide (status = CA_BLOCK_RECEIVED_ALREADY) then next_step pdu receivedData blockDataID (next_status block)
              else
                or_exit blockDataID (CAUpdatePayloadData p receivedData status isSizeOption COAP_OPTION_BLOCK1)
                  ('(res, block) ← CAUpdateBlockOptionItems p pdu block COAP_OPTION_BLOCK1 status;
                   if decide (res = CA_STATUS_OK) then
                     or_exit blockDataID (CAUpdateBlockData p block COAP_OPTION_BLOCK1)
                       (next_step pdu receivedData blockDataID (next_status block))
                   else exit_transfer blockDataID res)
            else
              let responseCode := CA_RESPONSE_CODE code in
              if (m block =? 0) && negb (CA_REQUEST_ENTITY_INCOMPLETE =? responseCode)
                 && negb (CA_REQUEST_ENTITY_TOO_LARGE =? responseCode) then
                '(isBlock2, _) ← lift (coap_get_block pdu COAP_OPTION_BLOCK2);
                if (isBlock2 : bool) then
                  _ ← assign p (fun d => set_block1 (with_num 0 (block1 d)) d); mret CA_STATUS_OK
                else
                  _ ← CAReceiveLastBlock blockDataID receivedData; exit_transfer blockDataID CA_STATUS_OK
              else
                '(res, block) ← CAUpdateBlockOptionItems p pdu block COAP_OPTION_BLOCK1 CA_OPTION1_RESPONSE;
                if decide (res = CA_STATUS_OK) then
                  or_exit blockDataID (CAUpdateBlockData p block COAP_OPTION_BLOCK1)
                    (next_step pdu receivedData blockDataID CA_OPTION1_RESPONSE)
                else mret res
        end
  end.

(** A response with BLOCK2: the payload is stored, the last block handed up. *)
Definition receive_block2 (pdu : coap_pdu_t) (receivedData : CAData_t) (block : coap_block_t) (code dataLen p : Z)
    (blockDataID : CABlockDataID_t) : M Ctx CAResult_t :=
  isSizeOption ← CAIsPayloadLengthInPduWithBlockSizeOption pdu COAP_OPTION_SIZE2 p;
  let responseCode := CA_RESPONSE_CODE code in
  status ← (if negb (CA_REQUEST_ENTITY_INCOMPLETE =? responseCode)
               && negb (CA_REQUEST_ENTITY_TOO_LARGE =? responseCode)
            then CACheckBlockErrorType p block receivedData COAP_OPTION_BLOCK2 dataLen
            else mret CA_BLOCK_UNKNOWN : M Ctx CABlockState_t);
  or_exit blockDataID
    (if decide (status = CA_BLOCK_RECEIVED_ALREADY) then mret CA_STATUS_OK
     else CAUpdatePayloadData p receivedData status isSizeOption COAP_OPTION_BLOCK2)
    (if (m block =? 0) && bool_decide (status = CA_BLOCK_UNKNOWN)
     then next_step pdu receivedData blockDataID CA_OPTION2_LAST_BLOCK
     else
       let status := match status with
                     | CA_BLOCK_UNKNOWN | CA_BLOCK_RECEIVED_ALREADY => CA_OPTION2_RESPONSE
                     | s => s
                     end in
       update_block pdu p block COAP_OPTION_BLOCK2 status blockDataID
         (next_step pdu receivedData blockDataID status)).

Definition CASetNextBlockOption2 (pdu : coap_pdu_t) (endpoint : CAEndpoint_t) (receivedData : CAData_t)
    (block : coap_block_t) (dataLen : Z) (proxyUri : list Z) : M Ctx CAResult_t :=
  id ← packet_block_id pdu endpoint;
  match id with
  | None => mret CA_STATUS_FAILED
  | Some blockDataID =>
      if UINT8_MAX <? Z.of_nat (length blockDataID) then mret CA_STATUS_FAILED
      else
        data ← CACheckTheExistOfBlockData blockDataID pdu endpoint COAP_OPTION_BLOCK2 proxyUri;
        match data with
        | None => exit_transfer blockDataID CA_STATUS_FAILED
        | Some p =>
            code ← lift (udp_code (hdr pdu));
            if (num block =? 0) && (code =? CA_GET) && (m block =? 0) then
              update_block pdu p block COAP_OPTION_BLOCK2 CA_BLOCK_UNKNOWN blockDataID
                (next_step pdu receivedData blockDataID CA_OPTION2_FIRST_BLOCK)
            else if is_method code then
              update_block pdu p block COAP_OPTION_BLOCK2 CA_OPTION2_REQUEST blockDataID
                (next_step pdu receivedData blockDataID CA_OPTION2_REQUEST)
            else receive_block2 pdu receivedData block code dataLen p blockDataID
        end
  end.

(** An empty message: whether a transfer goes on.  [receivedData] may be given
    the token of the request it answers. *)
Definition receive_empty (pdu : coap_pdu_t) (endpoint : CAEndpoint_t) (receivedData : CAData_t)
    : M Ctx (CAResult_t * CAData_t) :=
  match responseInfo receivedData with
  | None => undefined
  | Some r =>
      '(res, r) ← (match token (res_info r) with
                   | Some _ => mret (CA_STATUS_OK, r)
                   | None => CAGetTokenFromBlockDataList pdu endpoint r
                   end : M Ctx (CAResult_t * CAResponseInfo_t));
      let receivedData := set_responseInfo (Some r) receivedData in
      if decide (res <> CA_STATUS_OK) then mret (res, receivedData)
      else
        id ← CACreateBlockDatablockId (token (res_info r)) (tokenLength (res_info r)) (addr endpoint) (port endpoint);
        match id with
        | None =>
            mret (if bool_decide (token (res_info r) = None) then CA_REQUEST_TIMEOUT else CA_STATUS_FAILED, receivedData)
        | Some id =>
            p ← CAGetBlockDataFromBlockDataList id;
            more ← (match p with
                    | Some p => d ← deref p; mret (negb (m (block1 d) =? 0) || negb (m (block2 d) =? 0))
                    | None => mret false
                    end : M Ctx bool);
            if (more : bool) then mret (CA_STATUS_OK, receivedData)
            else _ ← CARemoveBlockDataFromList id; mret (CA_NOT_SUPPORTED, receivedData)
        end
  end.

(** A message without block options that may be an error of a transfer. *)
Definition receive_plain (pdu : coap_pdu_t) (endpoint : CAEndpoint_t) (receivedData : CAData_t) (dataLen : Z)
    (proxyUri : list Z) : M Ctx CAResult_t :=
  code ← lift (udp_code (hdr pdu));
  if CA_REQUEST_ENTITY_INCOMPLETE =? CA_RESPONSE_CODE code then
    id ← packet_block_id pdu endpoint;
    match id with
    | None => mret CA_STATUS_FAILED
    | Some blockDataID =>
        p ← CAGetBlockDataFromBlockDataList blockDataID;
        match p with
        | None => mret CA_STATUS_FAILED
        | Some p =>
            data ← deref p;
            q ← CAGetBlockOption blockDataID (bd_type data);
            match q with
            | None => mret CA_STATUS_FAILED
            | Some _ =>
                if bd_type data =? COAP_OPTION_BLOCK2 then
                  res ← CASetNextBlockOption2 pdu endpoint receivedData (block2 data) dataLen proxyUri;
                  mret (if decide (res = CA_STATUS_OK) then CA_STATUS_OK else CA_STATUS_FAILED)
                else if bd_type data =? COAP_OPTION_BLOCK1 then
                  CASetNextBlockOption1 pdu endpoint receivedData (block1 data) dataLen proxyUri
                else mret CA_STATUS_OK
            end
        end
    end
  else
    _ ← (match responseInfo receivedData with
         | Some _ =>
             len ← lift (udp_token_length (hdr pdu)); t ← lift (udp_token (hdr pdu));
             CARemoveBlockDataFromListWithSeed (Some t) len (addr endpoint) (port endpoint)
         | None => mret CA_STATUS_OK
         end : M Ctx CAResult_t);
    mret CA_NOT_SUPPORTED.

Definition CAReceiveBlockWiseData (pdu : coap_pdu_t) (endpoint : CAEndpoint_t) (receivedData : CAData_t) (dataLen : Z)
    (proxyUri : list Z) : M Ctx (CAResult_t * CAData_t) :=
  code ← lift (udp_code (hdr pdu));
  if code =? CA_EMPTY then receive_empty pdu endpoint receivedData
  else
    '(isBlock1, block) ← lift (coap_get_block pdu COAP_OPTION_BLOCK1);
    r1 ← (if (isBlock1 : bool) then CASetNextBlockOption1 pdu endpoint receivedData block dataLen proxyUri
          else mret CA_STATUS_OK : M Ctx CAResult_t);
    if decide (r1 <> CA_STATUS_OK) then mret (r1, receivedData)
    else
      '(isBlock2, block) ← lift (coap_get_block pdu COAP_OPTION_BLOCK2);
      r2 ← (if (isBlock2 : bool) then CASetNextBlockOption2 pdu endpoint receivedData block dataLen proxyUri
            else mret CA_STATUS_OK : M Ctx CAResult_t);
      if decide (r2 <> CA_STATUS_OK) then mret (r2, receivedData)
      else if isBlock1 || isBlock2 then mret (CA_STATUS_OK, receivedData)
      else r ← receive_plain pdu endpoint receivedData dataLen proxyUri; mret (r, receivedData).

(** ** The options of a block *)

Definition CAAddBlockOptionImpl (block : coap_block_t) (blockType : Z) (options : coap_list_t)
    : M Ctx (CAResult_t * coap_list_t) :=
  '(optionLength, buf) ← lift (coap_encode_var_bytes (replicate CA_ENCODE_BUFFER_SIZE 0) (block_value block));
  '(ret, options) ← insert_new options (u8 blockType) optionLength buf;
  mret (if ret <=? 0 then CA_STATUS_INVALID_PARAM else CA_STATUS_OK, options).

Definition CAAddOptionToPDU (pdu : coap_pdu_t) (options : coap_list_t) : M Ctx (CAResult_t * coap_pdu_t) :=
  '(ok, pdu) ← lift (add_options pdu options);
  mret (if (ok : bool) then CA_STATUS_OK else CA_STATUS_FAILED, pdu).

Definition CAAddBlockSizeOption (sizeType dataLength : Z) (options : coap_list_t)
    : M Ctx (CAResult_t * coap_list_t) :=
  if negb (sizeType =? COAP_OPTION_SIZE1) && negb (sizeType =? COAP_OPTION_SIZE2) then mret (CA_STATUS_FAILED, options)
  else
    '(optionLength, value) ← lift (coap_encode_var_bytes (replicate CA_ENCODE_BUFFER_SIZE 0) (u32 dataLength));
    '(ret, options) ← insert_new options sizeType optionLength value;
    mret (if ret <=? 0 then CA_STATUS_INVALID_PARAM else CA_STATUS_OK, options).

(** The result, the packet and the list of options, which grows. *)
Abbreviation option_result := (CAResult_t * coap_pdu_t * coap_list_t)%type.

Definition exit_options (blockID : CABlockDataID_t) (r : option_result) : M Ctx option_result :=
  _ ← CARemoveBlockDataFromList blockID; mret r.

(** One more option, or the end of the transfer. *)
Definition add_block_option (blockID : CABlockDataID_t) (pdu : coap_pdu_t) (options : coap_list_t)
    (step : coap_list_t -> M Ctx (CAResult_t * coap_list_t)) (next : coap_list_t -> M Ctx option_result)
    : M Ctx option_result :=
  '(res, options) ← step options;
  if decide (res = CA_STATUS_OK) then next options else exit_options blockID (res, pdu, options).

(** The list of options goes into the packet, then the rest. *)
Definition put_options (blockID : CABlockDataID_t) (pdu : coap_pdu_t) (options : coap_list_t)
    (next : coap_pdu_t -> M Ctx option_result) : M Ctx option_result :=
  '(res, pdu) ← CAAddOptionToPDU pdu options;
  if decide (res = CA_STATUS_OK) then next pdu else exit_options blockID (res, pdu, options).

(** The size option of a first block. *)
Definition size_option (sizeType n dataLength : Z) (options : coap_list_t) : M Ctx (CAResult_t * coap_list_t) :=
  if n =? 0 then CAAddBlockSizeOption sizeType dataLength options else mret (CA_STATUS_OK, options).

Definition CAAddBlockOption2 (pdu : coap_pdu_t) (info : CAInfo_t) (dataLength : Z) (blockID : CABlockDataID_t)
    (options : coap_list_t) : M Ctx option_result :=
  p ← CAGetBlockOption blockID COAP_OPTION_BLOCK2;
  match p with
  | None => mret (CA_STATUS_FAILED, pdu, options)
  | Some p =>
      code ← lift (udp_code (hdr pdu));
      if negb (is_method code) then
        data ← deref p;
        bit ← lift (more_bit dataLength (block2 data));
        let block := with_m bit (block2 data) in
        _ ← assign p (set_block2 block);
        add_block_option blockID pdu options (size_option COAP_OPTION_SIZE2 (num block) dataLength) (fun options =>
        add_block_option blockID pdu options (CAAddBlockOptionImpl block COAP_OPTION_BLOCK2) (fun options =>
        add_block_option blockID pdu options (fun options =>
          if num (block1 data) =? 0 then mret (CA_STATUS_OK, options)
          else
            '(res, options) ← CAAddBlockOptionImpl (block1 data) COAP_OPTION_BLOCK1 options;
            _ ← (if decide (res = CA_STATUS_OK) then assign p (fun d => set_block1 (with_num 0 (block1 d)) d)
                 else mret tt : M Ctx unit);
            mret (res, options)) (fun options =>
        put_options blockID pdu options (fun pdu =>
          '(ok, pdu) ← lift (coap_add_block pdu dataLength (default [] (CaMessage.payload info)) (num block) (szx block));
          if ok =? 0 then mret (CA_STATUS_FAILED, pdu, options)
          else
            _ ← (if bit =? 0 then CARemoveBlockDataFromList blockID else mret CA_STATUS_OK : M Ctx CAResult_t);
            mret (CA_STATUS_OK, pdu, options)))))
      else
        data ← deref p;
        add_block_option blockID pdu options (CAAddBlockOptionImpl (block2 data) COAP_OPTION_BLOCK2) (fun options =>
        put_options blockID pdu options (fun pdu => mret (CA_STATUS_OK, pdu, options)))
  end.

Definition CAAddBlockOption1 (pdu : coap_pdu_t) (info : CAInfo_t) (dataLength : Z) (blockID : CABlockDataID_t)
    (options : coap_list_t) : M Ctx option_result :=
  p ← CAGetBlockOption blockID COAP_OPTION_BLOCK1;
  match p with
  | None => mret (CA_STATUS_FAILED, pdu, options)
  | Some p =>
      code ← lift (udp_code (hdr pdu));
      let payload := default [] (CaMessage.payload info) in
      if is_method code then
        data ← deref p;
        bit ← lift (more_bit dataLength (block1 data));
        let block := with_m bit (block1 data) in
        _ ← assign p (set_block1 block);
        add_block_option blockID pdu options (size_option COAP_OPTION_SIZE1 (num block) dataLength) (fun options =>
        add_block_option blockID pdu options (CAAddBlockOptionImpl block COAP_OPTION_BLOCK1) (fun options =>
        put_options blockID pdu options (fun pdu =>
          '(ok, pdu) ← lift (coap_add_block pdu dataLength payload (num block) (szx block));
          mret (if ok =? 0 then CA_STATUS_FAILED else CA_STATUS_OK, pdu, options))))
      else
        data ← deref p;
        add_block_option blockID pdu options (CAAddBlockOptionImpl (block1 data) COAP_OPTION_BLOCK1) (fun options =>
        put_options blockID pdu options (fun pdu =>
          '(ok, pdu) ← lift (coap_add_data pdu dataLength payload);
          if ok =? 0 then mret (CA_STATUS_FAILED, pdu, options)
          else
            _ ← (if m (block1 data) =? 0 then CARemoveBlockDataFromList blockID else mret CA_STATUS_OK : M Ctx CAResult_t);
            mret (CA_STATUS_OK, pdu, options)))
  end.

Definition CAUpdateMessageId (pdu : coap_pdu_t) (blockID : CABlockDataID_t) : M Ctx CAResult_t :=
  p ← CAGetBlockDataFromBlockDataList blockID;
  data ← CAGetDataSetFromBlockDataList blockID;
  match p, data with
  | Some p, Some data =>
      id ← lift (udp_id (hdr pdu));
      _ ← (match requestInfo data with
           | Some r => assign p (set_sentData (Some (set_requestInfo (Some (set_req_info (set_messageId id) r)) data)))
           | None => mret tt
           end : M Ctx unit);
      mret CA_STATUS_OK
  | _, _ => mret CA_STATUS_FAILED
  end.

(** A message that is not part of a transfer: all of it in one packet. *)
Definition add_whole (pdu : coap_pdu_t) (info : CAInfo_t) (dataLength : Z) (options : coap_list_t)
    : M Ctx option_result :=
  '(res, pdu) ← CAAddOptionToPDU pdu options;
  if decide (res = CA_STATUS_OK) then
    '(ok, pdu) ← lift (coap_add_data pdu dataLength (default [] (payload info)));
    mret (if ok =? 0 then CA_STATUS_FAILED else CA_STATUS_OK, pdu, options)
  else mret (res, pdu, options).

Definition CAAddBlockOption (pdu : coap_pdu_t) (info : CAInfo_t) (endpoint : CAEndpoint_t) (options : coap_list_t)
    : M Ctx option_result :=
  if UINT_MAX <? payloadSize info then mret (CA_STATUS_INVALID_PARAM, pdu, options)
  else
    let dataLength := match payload info with Some _ => payloadSize info | None => 0 end in
    id ← packet_block_id pdu endpoint;
    match id with
    | None => mret (CA_STATUS_FAILED, pdu, options)
    | Some blockDataID =>
        code ← lift (udp_code (hdr pdu));
        if CA_REQUEST_ENTITY_INCOMPLETE =? CA_RESPONSE_CODE code then mret (CA_STATUS_OK, pdu, options)
        else
          blockType ← CAGetBlockOptionType blockDataID;
          '(res, pdu, options) ←
            (if blockType =? COAP_OPTION_BLOCK2 then CAAddBlockOption2 pdu info dataLength blockDataID options
             else if blockType =? COAP_OPTION_BLOCK1 then CAAddBlockOption1 pdu info dataLength blockDataID options
             else add_whole pdu info dataLength options);
          if decide (res <> CA_STATUS_OK) then mret (res, pdu, options)
          else
            code ← lift (udp_code (hdr pdu));
            p ← CAGetBlockDataFromBlockDataList blockDataID;
            res ← (if is_method code && bool_decide (p <> None) then CAUpdateMessageId pdu blockDataID
                   else mret CA_STATUS_OK : M Ctx CAResult_t);
            mret (res, pdu, options)
    end.

(** ** Starting and stopping *)

(** [oc_mutex_new] may fail like an allocation.  The second failure takes the
    first mutex back, the third one none. *)
Definition CAInitBlockWiseMutexVariables : M Ctx CAResult_t :=
  a ← gets blockDataListMutex; b ← gets blockDataSenderMutex; c ← gets multicastDataListMutex;
  a ← (if (a : bool) then mret true else alloc : M Ctx bool);
  if negb a then mret CA_STATUS_FAILED
  else
    b ← (if (b : bool) then mret true else alloc : M Ctx bool);
    if negb b then _ ← modify (set_mutexes false false false); mret CA_STATUS_FAILED
    else
      c ← (if (c : bool) then mret true else alloc : M Ctx bool);
      _ ← modify (set_mutexes true true c);
      mret (if (c : bool) then CA_STATUS_OK else CA_STATUS_FAILED).

Definition create_list {A} (l : option (list A)) : M Ctx (option (list A)) :=
  match l with
  | Some _ => mret l
  | None => ok ← alloc; mret (if (ok : bool) then Some [] else None)
  end.

(** [u_arraylist_create] makes two allocations, taken for one. *)
Definition CAInitializeBlockWiseTransfer (sendFunc receivedFunc : bool) : M Ctx CAResult_t :=
  _ ← modify (fun c => set_funcs (sendThreadFunc c || sendFunc) (receivedThreadFunc c || receivedFunc) c);
  d ← gets dataList; d ← create_list d; _ ← modify (set_dataList d);
  l ← gets multicastDataList; l ← create_list l; _ ← modify (set_multicastDataList l);
  res ← CAInitBlockWiseMutexVariables;
  if decide (res = CA_STATUS_OK) then mret CA_STATUS_OK
  else _ ← modify (fun c => set_dataList None (set_multicastDataList None c)); mret res.

Definition CATerminateBlockWiseTransfer : M Ctx CAResult_t :=
  _ ← CARemoveAllBlockDataFromList; _ ← modify (set_dataList None);
  _ ← CARemoveAllBlockMulticastDataFromList; _ ← modify (set_multicastDataList None);
  _ ← modify (set_mutexes false false false);
  mret CA_STATUS_OK.
