(* ===== verification/BlockUpload.v ===== *)
(** * BlockUpload: a payload sent in blocks arrives whole

    The two ends of a Block1 transfer over the functions of [BlockTransfer].
    The receiver's entry for the transfer is followed from packet to packet in
    a list with any other entries, which stay as they are; the sender's packets
    carry consecutive slices of the payload, the first one its length, the last
    one no M bit.  Put together: the application is handed the payload once. *)
From S2P Require Import Prelude Effects CaCommon CoapOption CoapPdu CoapUri CaMessage ProtocolMessage CoapMessage CoapReceive BlockTransfer.

#[local] Arguments wrap : simpl never.
#[local] Arguments option_bytes : simpl never.

(** ** One entry among others *)

Definition set_out (o : list block_event) (c : Ctx) : Ctx := {|
  sendThreadFunc := sendThreadFunc c; receivedThreadFunc := receivedThreadFunc c; dataList := dataList c;
  multicastDataList := multicastDataList c; blockDataListMutex := blockDataListMutex c;
  blockDataSenderMutex := blockDataSenderMutex c; multicastDataListMutex := multicastDataListMutex c;
  out := o; bw_allocs := bw_allocs c |}.

(** The address [p] and the identifier are those of one entry. *)
Record entry_at (l1 l2 : list (Z * CABlockData_t)) (p : Z) (id : CABlockDataID_t) : Prop := {
  at_before : Forall (fun e => e.1 <> p) l1;
  at_after : Forall (fun e => e.1 <> p) l2;
  at_id : Forall (fun e => blockDataId e.2 <> id) l1;
}.

(** The context [c] with this list and these events. *)
Definition with_list (c : Ctx) (o : list block_event) (l : list (Z * CABlockData_t)) : Ctx :=
  set_dataList (Some l) (set_out o c).

(** Memory is there and both queues are. *)
Record ready (c : Ctx) : Prop := {
  ready_allocs : bw_allocs c = [];
  ready_send : sendThreadFunc c = true;
  ready_receive : receivedThreadFunc c = true;
}.

Lemma find_skip {A} (f : A -> bool) (l1 l2 : list A) x : Forall (fun e => f e = false) l1 -> f x = true ->
  find f (l1 ++ x :: l2) = Some x.
Proof.
  intros Hl Hx. induction Hl as [|e l1 He Hl IH]; simpl; [by rewrite Hx|by rewrite He].
Qed.

Lemma find_nowhere {A} (f : A -> bool) (l : list A) : Forall (fun e => f e = false) l -> find f l = None.
Proof. induction 1 as [|e l He Hl IH]; simpl; [done|by rewrite He]. Qed.

Lemma on_entry_other p f l : Forall (fun e => e.1 <> p) l -> on_entry p f l = l.
Proof.
  induction 1 as [|e l He Hl IH]; [done|]. cbn [on_entry fmap list_fmap].
  destruct (Z.eqb_spec p e.1); [congruence|]. f_equal. exact IH.
Qed.

Section Entry.
Context {c : Ctx} {l1 l2 : list (Z * CABlockData_t)} {p : Z} {bid : CABlockDataID_t}.
Hypothesis Hat : entry_at l1 l2 p bid.

Let st (o : list block_event) (d : CABlockData_t) : Ctx := with_list c o (l1 ++ (p, d) :: l2).

Lemma matches_other : Forall (fun e => CABlockidMatches e.2 bid = false) l1.
Proof.
  eapply Forall_impl; [apply (at_id _ _ _ _ Hat)|]. intros e He. unfold CABlockidMatches.
  by apply bool_decide_eq_false.
Qed.

Lemma run_deref o d : deref p (st o d) = Some (d, st o d).
Proof.
  unfold deref, st, with_list, entries. cbn [set_dataList dataList default].
  rewrite (find_skip _ l1 l2 (p, d)); [done| |apply Z.eqb_refl].
  eapply Forall_impl; [apply (at_before _ _ _ _ Hat)|]. intros e He. apply Z.eqb_neq. congruence.
Qed.

Lemma run_assign o d f : assign p f (st o d) = Some (tt, st o (f d)).
Proof.
  unfold assign. step (run_deref o d). unfold modify. do 2 f_equal. unfold st, with_list.
  cbn [set_dataList dataList fmap option_fmap option_map]. unfold set_dataList. do 2 f_equal.
  unfold on_entry. rewrite fmap_app, fmap_cons. fold (on_entry p f l1) (on_entry p f l2).
  rewrite !on_entry_other by apply Hat. cbn [fst snd]. by rewrite Z.eqb_refl.
Qed.

Lemma run_find o d : blockDataId d = bid -> find_block bid (entries (st o d)) = Some (p, d).
Proof.
  intros Hd. unfold find_block, entries, st, with_list. cbn [set_dataList dataList default].
  rewrite (find_skip _ l1 l2 (p, d)); [done|apply matches_other|]. unfold CABlockidMatches. simpl.
  by apply bool_decide_eq_true.
Qed.

Lemma run_get o d : blockDataId d = bid -> CAGetBlockDataFromBlockDataList bid (st o d) = Some (Some p, st o d).
Proof. intros Hd. unfold CAGetBlockDataFromBlockDataList, gets. by rewrite run_find. Qed.

Lemma run_dataset o d : blockDataId d = bid -> CAGetDataSetFromBlockDataList bid (st o d) = Some (sentData d, st o d).
Proof. intros Hd. unfold CAGetDataSetFromBlockDataList, gets. by rewrite run_find. Qed.

Lemma run_type o d : blockDataId d = bid -> CAGetBlockOptionType bid (st o d) = Some (bd_type d, st o d).
Proof. intros Hd. unfold CAGetBlockOptionType, gets. by rewrite run_find. Qed.

Lemma run_full o d : blockDataId d = bid ->
  CAGetPayloadFromBlockDataList bid (st o d) = Some ((bd_payload d, receivedPayloadLen d), st o d).
Proof. intros Hd. unfold CAGetPayloadFromBlockDataList, gets. by rewrite run_find. Qed.

Lemma run_option o d t : blockDataId d = bid -> t = COAP_OPTION_BLOCK1 \/ t = COAP_OPTION_BLOCK2 ->
  CAGetBlockOption bid t (st o d) = Some (Some p, st o d).
Proof. intros Hd Ht. unfold CAGetBlockOption, gets. rewrite run_find by done. by destruct Ht as [-> | ->]. Qed.

Lemma run_update_type o d t : blockDataId d = bid ->
  CAUpdateBlockOptionType bid t (st o d) = Some (CA_STATUS_OK, st o (set_bd_type t d)).
Proof.
  intros Hd. unfold CAUpdateBlockOptionType. step (run_get o d Hd). step (run_assign o d _). done.
Qed.

Lemma run_remove o d : blockDataId d = bid ->
  CARemoveBlockDataFromList bid (st o d) = Some (CA_STATUS_OK, with_list c o (l1 ++ l2)).
Proof.
  intros Hd. unfold CARemoveBlockDataFromList. step (run_modify _ (st o d)). rewrite run_ret. do 2 f_equal.
  unfold st, with_list. cbn [set_dataList dataList fmap option_fmap option_map]. unfold set_dataList. do 2 f_equal.
  pose proof matches_other as Hm. clear Hat. induction l1 as [|e l IH]; cbn [remove_first app].
  - unfold CABlockidMatches. simpl. by rewrite bool_decide_true.
  - apply Forall_cons in Hm as [He Hm]. rewrite He. f_equal. by apply IH.
Qed.
End Entry.

(** A list without the identifier. *)
Lemma get_absent c o l id : Forall (fun e => blockDataId e.2 <> id) l ->
  CAGetBlockDataFromBlockDataList id (with_list c o l) = Some (None, with_list c o l).
Proof.
  intros Hl. unfold CAGetBlockDataFromBlockDataList, gets, find_block, entries, with_list.
  cbn [set_dataList dataList default]. rewrite find_nowhere; [done|].
  eapply Forall_impl; [exact Hl|]. intros e He. unfold CABlockidMatches. by apply bool_decide_eq_false.
Qed.

Lemma fresh_new l : Forall (fun e => e.1 <> fresh l) l.
Proof.
  unfold fresh. assert (Forall (fun e => e.1 <= foldr (fun e n => Z.max e.1 n) 0 l) l) as H.
  { induction l as [|e l IH]; constructor; simpl; [lia|]. eapply Forall_impl; [exact IH|]. simpl. lia. }
  eapply Forall_impl; [exact H|]. simpl. lia.
Qed.

Lemma with_list_self c l : dataList c = Some l -> c = with_list c (out c) l.
Proof. destruct c; simpl. by intros ->. Qed.

Lemma allocs_with_list c o l : ready c -> allocs_of (with_list c o l) = [].
Proof. by intros [? _ _]. Qed.

(** ** Options of a packet *)

(** The value of the first option with this number. *)
Definition value_of (ty : Z) (os : list hcoap_option) : option (list Z) :=
  snd <$> find (fun o => o.1 =? ty) os.

Lemma find_option_value ty pre k0 os :
  value_of ty os = (fun x => x.2) <$> find_option ty pre k0 os.
Proof.
  revert pre k0. induction os as [|[k v] os IH]; intros pre k0; [done|]. unfold value_of in *.
  cbn [find find_option fst]. destruct (k =? ty); [done|]. by rewrite <- (IH (pre ++ option_bytes (k - k0) v) k).
Qed.

Section Options.
Context {pdu : coap_pdu_t} {ty code mid : Z} {tok : list Z} {os : list hcoap_option} {d : list Z}.
Hypothesis Hp : reads pdu ty code mid tok os d.

Lemma get_block_present b t : no_alias t os -> 0 <= t <= COAP_MAX_OPT -> block_ok b ->
  value_of t os = Some (block_bytes b) -> coap_get_block pdu t = Some (true, b).
Proof.
  intros Ha Ht Hb Hv. destruct Hp as [Hs _ Hh Htok Hos].
  pose proof (get_block_spec _ _ _ _ _ _ _ _ Hs Hh Htok Hos Ha Ht) as H.
  rewrite (find_option_value t (header_bytes ty (Z.of_nat (length tok)) code mid ++ tok) 0) in Hv.
  destruct (find_option t _ 0 os) as [[[a kp] v]|]; [|done]. simpl in Hv. simplify_eq. by apply H.
Qed.

Lemma get_block_absent t : no_alias t os -> 0 <= t <= COAP_MAX_OPT -> value_of t os = None ->
  exists b, coap_get_block pdu t = Some (false, b).
Proof.
  intros Ha Ht Hv. destruct Hp as [Hs _ Hh Htok Hos].
  pose proof (get_block_spec _ _ _ _ _ _ _ _ Hs Hh Htok Hos Ha Ht) as H.
  rewrite (find_option_value t (header_bytes ty (Z.of_nat (length tok)) code mid ++ tok) 0) in Hv.
  destruct (find_option t _ 0 os) as [[[a kp] v]|]; [done|]. by eexists.
Qed.

(** The number an option of up to four bytes holds. *)
Lemma check_size_present t n : no_alias t os -> 0 <= t <= COAP_MAX_OPT -> 0 <= n < 2 ^ 32 ->
  value_of t os = Some (be (var_bytes_len n 4) n) ->
  exists at_, coap_check_option pdu t = Some (Some at_) /\
    (let opt := drop (Z.to_nat at_) (hdr pdu) in
     v ← coap_opt_value opt; v ← v; len ← coap_opt_length opt;
     coap_decode_var_bytes (drop (Z.to_nat v) opt) len) = Some n.
Proof.
  intros Ha Ht Hn Hv. pose proof Hp as [Hs _ Hh Htok Hos].
  pose proof (check_option_spec _ _ _ _ _ _ _ _ Hs Hh Htok Hos Ha Ht) as Hc.
  set (pre := header_bytes ty (Z.of_nat (length tok)) code mid ++ tok) in *.
  rewrite (find_option_value t pre 0) in Hv. destruct (find_option t pre 0 os) as [[[a kp] v]|] eqn:E; [|done].
  cbn [fmap option_fmap option_map snd] in Hv. apply (inj Some) in Hv. exists a. split; [by rewrite Hc|].
  destruct (reads_hdr Hp) as [rest Er]. unfold from in Er. fold pre in Er.
  destruct (find_option_at _ _ _ _ _ _ _ (payload_bytes d ++ rest) E) as (pre' & post & Ep & ->).
  pose proof (find_option_prev _ _ _ _ _ _ _ Hos ltac:(lia) E) as Hk.
  rewrite Er, Ep. cbv zeta. rewrite Nat2Z.id, drop_app_length.
  assert (length v <= 4)%nat by (rewrite Hv, length_be; apply var_bytes_len_le).
  rewrite value_spec by done. cbn [mbind option_bind]. rewrite length_spec by lia. cbn [mbind option_bind].
  rewrite drop_header, decode_prefix, Hv, length_be. rewrite <- (app_nil_r (be _ _)).
  apply decode_var_be; [apply var_bytes_len_le|]. split; [lia|]. by apply var_bytes_len_fits.
Qed.

Lemma check_absent t : no_alias t os -> 0 <= t <= COAP_MAX_OPT -> value_of t os = None ->
  coap_check_option pdu t = Some None.
Proof.
  intros Ha Ht Hv. pose proof Hp as [Hs _ Hh Htok Hos].
  rewrite (check_option_spec _ _ _ _ _ _ _ _ Hs Hh Htok Hos Ha Ht).
  rewrite (find_option_value t (header_bytes ty (Z.of_nat (length tok)) code mid ++ tok) 0) in Hv.
  by destruct (find_option t _ 0 os) as [[[a kp] v]|].
Qed.
End Options.

(** ** Identifiers and copies *)

Definition block_id (tok : list Z) (e : CAEndpoint_t) : CABlockDataID_t := tok ++ port_bytes (port e) ++ addr e.

Lemma create_id tok e (c : Ctx) : allocs_of c = [] ->
  CACreateBlockDatablockId (Some tok) (Z.of_nat (length tok)) (addr e) (port e) c = Some (Some (block_id tok e), c).
Proof.
  intros Hc. unfold CACreateBlockDatablockId. step (alloc_ok c Hc). cbn [negb]. step (alloc_ok c Hc). cbn [negb].
  by step (run_lift _ _ c (read_at_all tok _ eq_refl)).
Qed.

Lemma packet_id {pdu ty code mid tok os d} e (c : Ctx) : reads pdu ty code mid tok os d -> allocs_of c = [] ->
  packet_block_id pdu e c = Some (Some (block_id tok e), c).
Proof.
  intros Hp Hc. unfold packet_block_id. step (run_lift _ _ c (reads_tkl Hp)).
  step (run_lift _ _ c (reads_token2 Hp : udp_token (hdr pdu) = Some tok)). by apply create_id.
Qed.

Lemma clone_ok d (c : Ctx) : allocs_of c = [] -> data_ok d -> CACloneCAData d c = Some (Some (copy_data d), c).
Proof.
  intros Hc Hd. destruct (CACloneCAData_copies d Hd c) as (r & c' & E & _ & _ & Hr).
  destruct (Hr Hc) as [-> ->]. exact E.
Qed.

Lemma send_ok d bid c o l : ready c -> data_ok d ->
  CAAddSendThreadQueue d bid (with_list c o l) = Some (CA_STATUS_OK, with_list c (o ++ [SendThread (copy_data d)]) l).
Proof.
  intros Hc Hd. unfold CAAddSendThreadQueue.
  step (clone_ok d (with_list c o l) (allocs_with_list _ _ _ Hc) Hd). cbn beta iota.
  step (run_gets sendThreadFunc (with_list c o l)). cbn [with_list set_dataList set_out sendThreadFunc].
  rewrite (ready_send _ Hc). by step (run_modify _ _).
Qed.

(** ** The receiver: one block *)

(** The bytes of a payload that are there, the rest zero. *)
Definition progress (data : list Z) (n : nat) : list Z := take n data ++ replicate (length data - n) 0.

Lemma progress_all data : progress data (length data) = data.
Proof. unfold progress. by rewrite take_ge, Nat.sub_diag, app_nil_r by lia. Qed.

Lemma length_progress data n : (n <= length data)%nat -> length (progress data n) = length data.
Proof. intros. unfold progress. rewrite length_app, length_take, length_replicate. lia. Qed.

(** The next bytes are written behind those that are there. *)
Lemma copy_progress data n d rest : data = take n data ++ d ++ rest -> (n <= length data)%nat ->
  copy_to (Some (progress data n)) (Z.of_nat n) d (Z.of_nat (length d)) = Some (progress data (n + length d)).
Proof.
  intros E Hn. unfold copy_to. rewrite read_at_all by done. cbn [mbind option_bind]. unfold progress.
  assert (length data = n + length d + length rest)%nat as Hl.
  { rewrite E at 1. rewrite !length_app, length_take. lia. }
  replace (length data - n)%nat with (length d + (length data - (n + length d)))%nat by lia.
  rewrite replicate_add. rewrite (write_at_app (take n data) (replicate (length d) 0) _ d);
    [|rewrite length_take; lia|by rewrite length_replicate].
  f_equal. rewrite app_assoc. f_equal.
  assert (take (n + length d) data = take (n + length d) (take n data ++ d ++ rest)) as -> by (by rewrite <- E).
  rewrite app_assoc, take_app_le by (rewrite length_app, length_take; lia).
  symmetry. apply take_ge. rewrite length_app, length_take. lia.
Qed.

(** A request with a payload. *)
Record upload_data (rd : CAData_t) (d : list Z) : Prop := {
  up_request : exists r, requestInfo rd = Some r /\ CaMessage.payload (req_info r) = Some d /\
    payloadSize (req_info r) = Z.of_nat (length d);
  up_response : responseInfo rd = None;
  up_type : dataType rd = Some CA_REQUEST_DATA;
  up_ok : data_ok rd;
}.

Lemma upload_payload rd d : upload_data rd d -> CAGetPayloadInfo rd = (Some d, Z.of_nat (length d)).
Proof. intros [(r & Er & Ep & Es) _ _ _]. unfold CAGetPayloadInfo. by rewrite Er, Ep, Es. Qed.

Lemma method_codes code : is_method code = true ->
  CA_RESPONSE_CODE code <> CA_REQUEST_ENTITY_INCOMPLETE /\ CA_RESPONSE_CODE code <> CA_REQUEST_ENTITY_TOO_LARGE /\
  code <> CA_EMPTY.
Proof.
  unfold is_method. rewrite !orb_true_iff, !Z.eqb_eq. intros [[[<-|<-]|<-]|<-]; done.
Qed.

(** A packet of an upload: the block option [b] and, in the first one, the size. *)
Record upload_packet (pdu : coap_pdu_t) (rd : CAData_t) (ty code mid : Z) (tok : list Z) (os : list hcoap_option)
    (d : list Z) (b : coap_block_t) (size : option Z) : Prop := {
  pk_reads : reads pdu ty code mid tok os d;
  pk_method : is_method code = true;
  pk_block : value_of COAP_OPTION_BLOCK1 os = Some (block_bytes b);
  pk_block_ok : block_ok b;
  pk_block2 : value_of COAP_OPTION_BLOCK2 os = None;
  pk_size : value_of COAP_OPTION_SIZE1 os = (fun n => be (var_bytes_len n 4) n) <$> size;
  pk_alias1 : no_alias COAP_OPTION_BLOCK1 os;
  pk_alias2 : no_alias COAP_OPTION_BLOCK2 os;
  pk_alias3 : no_alias COAP_OPTION_SIZE1 os;
  pk_data : upload_data rd d;
}.

(** The message an entry of the receiver keeps: its answer. *)
Definition answer_data (e : CAEndpoint_t) (r : CAResponseInfo_t) : CAData_t := {|
  sendType := SEND_TYPE_UNICAST; remoteEndpoint := Some e; requestInfo := None; responseInfo := Some r;
  errorInfo := None; dataType := None |}.

Definition continue_with (ty mid : Z) (r : CAResponseInfo_t) : CAResponseInfo_t :=
  set_res_info (fun i => CaMessage.set_type (answer_type ty) (set_messageId mid i)) (set_result CA_CONTINUE r).

(** The last request of an upload, with all of the payload. *)
Definition whole_data (rd : CAData_t) (data : list Z) : CAData_t :=
  set_requestInfo (set_req_info (set_payload (Some data) (Z.of_nat (length data))) <$> requestInfo (copy_data rd))
    (copy_data rd).

Section Step.
Context {c : Ctx} {l1 l2 : list (Z * CABlockData_t)} {p : Z} {bid : CABlockDataID_t}.
Hypothesis Hc : ready c.
Hypothesis Hat : entry_at l1 l2 p bid.

#[local] Abbreviation st o d := (with_list c o (l1 ++ (p, d) :: l2)).

Lemma block_in_order o D rd d k mm s dl : upload_data rd d -> 0 <= s -> 0 <= receivedPayloadLen D ->
  receivedPayloadLen D + Z.of_nat (length d) < 2 ^ 32 ->
  receivedPayloadLen D = BLOCK_SIZE s * k ->
  mm = 1 /\ Z.of_nat (length d) = BLOCK_SIZE s \/
    mm = 0 /\ receivedPayloadLen D + Z.of_nat (length d) = payloadLength D ->
  CACheckBlockErrorType p {| num := k; m := mm; szx := s |} rd COAP_OPTION_BLOCK1 dl (st o D)
  = Some (CA_BLOCK_UNKNOWN, st o D).
Proof.
  intros Hrd Hs H0 Hsmall Hr Hm. unfold CACheckBlockErrorType. step (run_deref (c:=c) Hat o D). cbv zeta.
  rewrite (upload_payload _ _ Hrd). cbn [snd num szx m].
  change (COAP_OPTION_BLOCK1 =? COAP_OPTION_BLOCK1) with true. cbv iota. rewrite Hr, Z.eqb_refl. cbn [negb].
  rewrite <- Hr. destruct Hm as [[-> Hl]|[-> Hl]].
  - rewrite Hl, Z.eqb_refl. done.
  - change (0 =? 0) with true. cbn [negb andb]. rewrite wrap_small by lia. rewrite Hl, Z.eqb_refl.
    cbn [negb]. by rewrite andb_false_r.
Qed.

(** The first block announces the length. *)
Lemma store_first o D rd d rest : upload_data rd d -> receivedPayloadLen D = 0 ->
  payloadLength D = Z.of_nat (length (d ++ rest)) -> d <> [] -> Z.of_nat (length (d ++ rest)) < 2 ^ 32 ->
  CAUpdatePayloadData p rd CA_BLOCK_UNKNOWN true COAP_OPTION_BLOCK1 (st o D)
  = Some (CA_STATUS_OK, st o (set_received (Some (progress (d ++ rest) (length d))) (payloadLength D)
      (Z.of_nat (length d)) D)).
Proof.
  intros Hrd H0 Hl Hd Hlen. unfold CAUpdatePayloadData. step (run_deref (c:=c) Hat o D). rewrite decide_False by done.
  rewrite (upload_payload _ _ Hrd). cbv zeta. rewrite decide_False by done. rewrite H0. rewrite Z.add_0_l.
  rewrite length_app in Hlen, Hl.
  destruct (Z.eqb_spec (payloadLength D) 0); [destruct d; [done|simpl in *; lia]|]. cbn [negb].
  rewrite Z.eqb_refl.
  match goal with |- context [(?x ≫= _) _] => assert (x (st o D)
    = Some (Some (Some (progress (d ++ rest) 0)), st o D)) as E end.
  { step (alloc_ok (st o D) (allocs_with_list _ _ _ Hc)). cbn [negb]. step (run_lift _ _ _ eq_refl).
    rewrite run_ret. do 5 f_equal. unfold progress. rewrite take_0, Nat.sub_0_r, Hl, Nat2Z.inj_add, length_app. simpl. f_equal. lia. }
  step E. cbn beta iota.
  pose proof (copy_progress (d ++ rest) 0 d rest eq_refl ltac:(lia)) as Ec. rewrite Nat.add_0_l in Ec.
  change (Z.of_nat 0) with 0 in Ec. step (run_lift _ _ _ Ec). step (run_assign (c:=c) Hat o D _).
  rewrite wrap_small by lia. done.
Qed.

Lemma store_next o D rd d data n rest : upload_data rd d -> receivedPayloadLen D = Z.of_nat n ->
  bd_payload D = Some (progress data n) -> payloadLength D = Z.of_nat (length data) -> data <> [] ->
  data = take n data ++ d ++ rest -> (n <= length data)%nat -> Z.of_nat (length data) < 2 ^ 32 ->
  CAUpdatePayloadData p rd CA_BLOCK_UNKNOWN false COAP_OPTION_BLOCK1 (st o D)
  = Some (CA_STATUS_OK, st o (set_received (Some (progress data (n + length d))) (payloadLength D)
      (Z.of_nat (n + length d)) D)).
Proof.
  intros Hrd H0 Hb Hl Hne Ed Hn Hlen. unfold CAUpdatePayloadData. step (run_deref (c:=c) Hat o D). rewrite decide_False by done.
  rewrite (upload_payload _ _ Hrd). cbv zeta. rewrite decide_False by done. rewrite H0.
  destruct (Z.eqb_spec (payloadLength D) 0); [destruct data; [done|simpl in *; lia]|]. cbn [negb].
  step (run_ret _ (st o D)). cbn beta iota. rewrite Hb. step (run_lift _ _ _ (copy_progress data n d rest Ed Hn)).
  step (run_assign (c:=c) Hat o D _). rewrite <- Nat2Z.inj_add, wrap_small; [done|].
  assert (length data = n + length d + length rest)%nat as Hl2.
  { rewrite Ed at 1. rewrite !length_app, length_take. lia. } lia.
Qed.

(** The block's size is not larger than the receiver's, so that it stays. *)
Lemma keep_block o D pdu ty code mid tok os d k mm s : reads pdu ty code mid tok os d -> is_method code = true ->
  s <= szx (block1 D) -> s <= CA_BLOCK_SIZE_1024_BYTE ->
  let b := {| num := k; m := mm; szx := s |} in
  CAUpdateBlockOptionItems p pdu b COAP_OPTION_BLOCK1 CA_BLOCK_UNKNOWN (st o D) = Some ((CA_STATUS_OK, b), st o D) /\
  CAUpdateBlockData p b COAP_OPTION_BLOCK1 (st o D) = Some (CA_STATUS_OK, st o (set_block1 b D)).
Proof.
  intros Hp Hcode Hs Hs6 b. destruct (method_codes _ Hcode) as (N1 & N2 & _). split.
  - unfold CAUpdateBlockOptionItems. step (run_deref (c:=c) Hat o D).
    step (run_lift _ _ _ (reads_code Hp : udp_code (hdr pdu) = Some code)). cbv zeta.
    destruct (Z.eqb_spec CA_REQUEST_ENTITY_INCOMPLETE (CA_RESPONSE_CODE code)); [congruence|].
    destruct (Z.eqb_spec CA_REQUEST_ENTITY_TOO_LARGE (CA_RESPONSE_CODE code)); [congruence|]. cbn [orb].
    unfold CANegotiateBlockSize. rewrite Hcode. cbn [b szx].
    change (COAP_OPTION_BLOCK1 =? COAP_OPTION_BLOCK2) with false. change (COAP_OPTION_BLOCK1 =? COAP_OPTION_BLOCK1) with true.
    cbv iota zeta. destruct (Z.ltb_spec (szx (block1 D)) s); [lia|]. done.
  - unfold CAUpdateBlockData. cbn [b szx]. destruct (Z.ltb_spec CA_BLOCK_SIZE_1024_BYTE s); [lia|].
    by step (run_assign (c:=c) Hat o D _).
Qed.

(** SIZE1 of the first block. *)
Lemma size_first o D pdu ty code mid tok os d n : reads pdu ty code mid tok os d -> no_alias COAP_OPTION_SIZE1 os ->
  value_of COAP_OPTION_SIZE1 os = Some (be (var_bytes_len n 4) n) -> 0 <= n < 2 ^ 32 ->
  CAIsPayloadLengthInPduWithBlockSizeOption pdu COAP_OPTION_SIZE1 p (st o D)
  = Some (true, st o (set_received (bd_payload D) n (receivedPayloadLen D) D)).
Proof.
  intros Hp Ha Hv Hn. unfold CAIsPayloadLengthInPduWithBlockSizeOption.
  change (COAP_OPTION_SIZE1 =? COAP_OPTION_SIZE1) with true. cbn [negb andb].
  destruct (check_size_present Hp COAP_OPTION_SIZE1 n Ha ltac:(done) Hn Hv) as (at_ & Ec & En).
  step (run_lift _ _ _ Ec). step (run_lift _ _ _ En). by step (run_assign (c:=c) Hat o D _).
Qed.

Lemma size_next o D pdu ty code mid tok os d : reads pdu ty code mid tok os d -> no_alias COAP_OPTION_SIZE1 os ->
  value_of COAP_OPTION_SIZE1 os = None ->
  CAIsPayloadLengthInPduWithBlockSizeOption pdu COAP_OPTION_SIZE1 p (st o D) = Some (false, st o D).
Proof.
  intros Hp Ha Hv. unfold CAIsPayloadLengthInPduWithBlockSizeOption.
  change (COAP_OPTION_SIZE1 =? COAP_OPTION_SIZE1) with true. cbn [negb andb].
  by step (run_lift _ _ _ (check_absent Hp COAP_OPTION_SIZE1 Ha ltac:(done) Hv)).
Qed.

(** The answer that asks for the next block. *)
Lemma continue_next o D pdu ty code mid tok os d rd e r : reads pdu ty code mid tok os d -> is_method code = true ->
  blockDataId D = bid -> sentData D = Some (answer_data e r) -> info_ok (res_info r) ->
  next_step pdu rd bid CA_OPTION1_REQUEST_BLOCK (st o D)
  = Some (CA_STATUS_OK, st (o ++ [SendThread (copy_data (answer_data e (continue_with ty mid r)))])
      (set_sentData (Some (answer_data e (continue_with ty mid r))) D)).
Proof.
  intros Hp Hcode Hid Hs Hi. unfold next_step, or_exit.
  assert (CAProcessNextStep pdu rd CA_OPTION1_REQUEST_BLOCK bid (st o D)
    = Some (CA_STATUS_OK, st (o ++ [SendThread (copy_data (answer_data e (continue_with ty mid r)))])
      (set_sentData (Some (answer_data e (continue_with ty mid r))) D))) as E.
  { unfold CAProcessNextStep, CASendBlockMessage. step (run_lift _ _ _ (reads_type Hp)). cbn beta iota.
    step (run_get (c:=c) Hat o D Hid). step (run_dataset (c:=c) Hat o D Hid). rewrite Hs. cbn beta iota.
    step (run_lift _ _ _ (reads_code Hp : udp_code (hdr pdu) = Some code)).
    step (run_lift _ _ _ (reads_id Hp)). cbv zeta. rewrite Hcode.
    step (run_ret _ _). step (run_assign (c:=c) Hat o D _). apply (send_ok _ _ c); [done|].
    split; [|done]. apply list_elem_of_In. simpl. tauto. }
  by step E.
Qed.

(** The last block: the message with the whole payload goes up. *)
Lemma hand_up o D pdu ty code mid tok os d rd data : reads pdu ty code mid tok os d -> upload_data rd d ->
  blockDataId D = bid -> data <> [] -> bd_payload D = Some data -> receivedPayloadLen D = Z.of_nat (length data) ->
  next_step pdu rd bid CA_OPTION1_REQUEST_LAST_BLOCK (st o D)
  = Some (CA_STATUS_OK, st (o ++ [ReceiveThread (whole_data rd data)]) D).
Proof.
  intros Hp Hrd Hid Hne Hb Hl. unfold next_step, or_exit.
  assert (CAProcessNextStep pdu rd CA_OPTION1_REQUEST_LAST_BLOCK bid (st o D)
    = Some (CA_STATUS_OK, st (o ++ [ReceiveThread (whole_data rd data)]) D)) as E; [|by step E].
  unfold CAProcessNextStep, CAReceiveLastBlock. step (run_lift _ _ _ (reads_type Hp)). cbn beta iota.
  pose proof Hrd as [(r & Er & Epl & Esz) Ers Ety Hok].
  step (clone_ok rd _ (allocs_with_list _ _ _ Hc) Hok). cbn beta iota.
  step (run_full (c:=c) Hat o D Hid). rewrite Hb, Hl. cbn beta iota.
  assert (CAUpdatePayloadToCAData (copy_data rd) data (Z.of_nat (length data)) (st o D)
    = Some ((CA_STATUS_OK, whole_data rd data), st o D)) as E.
  { unfold CAUpdatePayloadToCAData, whole_data, copy_data. rewrite Er. cbn [set_requestInfo dataType requestInfo].
    rewrite Ety. unfold OICMalloc. destruct (Z.eqb_spec (Z.of_nat (length data)) 0); [by destruct data|].
    destruct (CaMessage.payload (req_info (copy_request r))).
    all: step (alloc_ok _ (allocs_with_list _ _ _ Hc)); cbn [negb]; by step (run_lift _ _ _ (read_at_all data _ eq_refl)). }
  step E. cbn beta iota. rewrite decide_True by done.
  step (run_gets receivedThreadFunc _). cbn [with_list set_dataList set_out receivedThreadFunc].
  rewrite (ready_receive _ Hc). by step (run_modify _ _).
Qed.

Lemma exist_present o D pdu e proxyUri t : blockDataId D = bid ->
  CACheckTheExistOfBlockData bid pdu e t proxyUri (st o D) = Some (Some p, st o (set_bd_type t D)).
Proof.
  intros Hid. unfold CACheckTheExistOfBlockData. step (run_get (c:=c) Hat o D Hid). cbn beta iota.
  step (run_ret _ _). cbn beta iota. by step (run_update_type (c:=c) Hat o D t Hid).
Qed.

(** What is known of the payload before a block: nothing, and the block announces
    the length, or the bytes before the block. *)
Definition known (data : list Z) (n : nat) (size : option Z) (D : CABlockData_t) : Prop :=
  receivedPayloadLen D = Z.of_nat n /\
  match size with
  | Some total => total = Z.of_nat (length data) /\ n = O
  | None => payloadLength D = Z.of_nat (length data) /\ bd_payload D = Some (progress data n)
  end.

(** The entry with this block stored. *)
Definition stored (b : coap_block_t) (data : list Z) (n : nat) (D : CABlockData_t) : CABlockData_t :=
  set_block1 b (set_received (Some (progress data n)) (Z.of_nat (length data)) (Z.of_nat n)
    (set_bd_type COAP_OPTION_BLOCK1 D)).

Lemma store_block o D pdu rd ty code mid tok os d size data n rest b :
  upload_packet pdu rd ty code mid tok os d b size -> d <> [] ->
  known data n size D -> data = take n data ++ d ++ rest -> (n <= length data)%nat ->
  Z.of_nat (length data) < 2 ^ 32 ->
  exists D', CAIsPayloadLengthInPduWithBlockSizeOption pdu COAP_OPTION_SIZE1 p (st o D)
    = Some (bool_decide (size <> None), st o D') /\
    receivedPayloadLen D' = Z.of_nat n /\ payloadLength D' = Z.of_nat (length data) /\ block1 D' = block1 D /\
    CAUpdatePayloadData p rd CA_BLOCK_UNKNOWN (bool_decide (size <> None)) COAP_OPTION_BLOCK1 (st o D')
    = Some (CA_STATUS_OK, st o (set_received (Some (progress data (n + length d))) (Z.of_nat (length data))
        (Z.of_nat (n + length d)) D)).
Proof.
  intros [Hp Hm Hb1 Hbok Hb2 Hs A1 A2 A3 Hrd] Hne [Hn Hk] Ed Hlen Hsmall. destruct size as [total|]; cbn [fmap option_fmap option_map] in Hs.
  - destruct Hk as [-> ->]. simpl in Ed. subst data.
    exists (set_received (bd_payload D) (Z.of_nat (length (d ++ rest))) (receivedPayloadLen D) D).
    rewrite (size_first o D pdu ty code mid tok os d _ Hp A3 Hs ltac:(lia)). do 4 (split; [done|]).
    rewrite (store_first _ _ rd d rest) by done. done.
  - destruct Hk as [Hpl Hbp]. exists D. rewrite (size_next o D pdu ty code mid tok os d Hp A3 Hs). do 4 (split; [done|]).
    assert (data <> []) by (intros ->; destruct n, d; done).
    rewrite (store_next _ _ rd d data n rest) by done. by rewrite Hpl.
Qed.

Lemma accept_block o D pdu rd ty code mid tok os d size data n rest b e r dataLen proxyUri :
  bid = block_id tok e -> (length bid <= 255)%nat ->
  upload_packet pdu rd ty code mid tok os d b size -> d <> [] ->
  known data n size D -> data = take n data ++ d ++ rest -> (n <= length data)%nat ->
  Z.of_nat (length data) < 2 ^ 32 -> Z.of_nat n = BLOCK_SIZE (szx b) * num b ->
  m b = 1 /\ Z.of_nat (length d) = BLOCK_SIZE (szx b) \/ m b = 0 /\ rest = [] ->
  blockDataId D = bid -> sentData D = Some (answer_data e r) -> info_ok (res_info r) ->
  szx b <= szx (block1 D) -> szx b <= CA_BLOCK_SIZE_1024_BYTE ->
  CASetNextBlockOption1 pdu e rd b dataLen proxyUri (st o D)
  = Some (CA_STATUS_OK,
      if m b =? 0 then st (o ++ [ReceiveThread (whole_data rd data)]) (stored b data (n + length d) D)
      else st (o ++ [SendThread (copy_data (answer_data e (continue_with ty mid r)))])
             (set_sentData (Some (answer_data e (continue_with ty mid r))) (stored b data (n + length d) D))).
Proof.
  intros Ebid Hbl Hpk Hne Hk Ed Hn Hsmall Hnum Hlast Hid Hsent Hi Hszx Hszx6.
  pose proof Hpk as [Hp Hm _ (Hbn & Hbm & Hbs) _ _ _ _ _ Hrd].
  unfold CASetNextBlockOption1. step (packet_id e _ Hp (allocs_with_list _ _ _ Hc)). rewrite <- Ebid. cbn beta iota.
  destruct (Z.ltb_spec UINT8_MAX (Z.of_nat (length bid))); [unfold UINT8_MAX in *; lia|].
  step (exist_present o D pdu e proxyUri COAP_OPTION_BLOCK1 Hid). cbn beta iota.
  step (run_lift _ _ _ (reads_code Hp : udp_code (hdr pdu) = Some code)). rewrite Hm.
  set (D0 := set_bd_type COAP_OPTION_BLOCK1 D).
  destruct (store_block o D0 pdu rd ty code mid tok os d size data n rest b Hpk Hne Hk Ed Hn Hsmall)
    as (D1 & E1 & Hr1 & Hl1 & Hb1 & E2).
  step E1. destruct b as [k mm s]. cbn [num m szx] in *.
  assert (length data = n + length d + length rest)%nat as Hlen.
  { rewrite Ed at 1. rewrite !length_app, length_take. lia. }
  pose proof (block_in_order o D1 rd d k mm s dataLen Hrd ltac:(lia) ltac:(lia)) as E3.
  rewrite Hr1, Hl1 in E3. specialize (E3 ltac:(lia) Hnum).
  assert (CACheckBlockErrorType p {| num := k; m := mm; szx := s |} rd COAP_OPTION_BLOCK1 dataLen (st o D1)
          = Some (CA_BLOCK_UNKNOWN, st o D1)) as E3'.
  { apply E3. destruct Hlast as [?|[? ->]]; [by left|right; simpl in *; lia]. }
  step E3'.
  cbn beta iota zeta. rewrite decide_False by done. unfold or_exit at 1. step E2. rewrite decide_True by done.
  destruct (keep_block o (set_received (Some (progress data (n + length d))) (Z.of_nat (length data))
    (Z.of_nat (n + length d)) D0) pdu ty code mid tok os d k mm s Hp Hm Hszx Hszx6) as [E4 E5].
  step E4. cbn beta iota. rewrite decide_True by done. unfold or_exit at 1. step E5. rewrite decide_True by done.
  cbn [m]. destruct Hlast as [[-> _]|[-> ->]].
  - change (1 =? 0) with false. cbv iota. by rewrite (continue_next _ _ pdu ty code mid tok os d rd e r).
  - change (0 =? 0) with true. cbv iota. rewrite (hand_up _ _ pdu ty code mid tok os d rd data); try done.
    + intros ->. destruct n, d; done.
    + simpl. simpl in Hlen. replace (n + length d)%nat with (length data) by lia. by rewrite progress_all.
    + simpl in *. lia.
Qed.
End Step.

(** ** The receiver: a whole transfer *)

(** The message is handled by its first block option alone. *)
Lemma receive_by_option1 pdu rd ty code mid tok os d b size e dataLen proxyUri :
  upload_packet pdu rd ty code mid tok os d b size ->
  exists K : CAResult_t -> M Ctx (CAResult_t * CAData_t),
    (forall c, CAReceiveBlockWiseData pdu e rd dataLen proxyUri c
               = (CASetNextBlockOption1 pdu e rd b dataLen proxyUri ≫= K) c) /\
    forall c, K CA_STATUS_OK c = Some ((CA_STATUS_OK, rd), c).
Proof.
  intros [Hp Hm Hb1 Hbok Hb2 Hs A1 A2 A3 Hrd]. destruct (method_codes _ Hm) as (_ & _ & N).
  eexists. split; intros c.
  - unfold CAReceiveBlockWiseData. step (run_lift _ _ _ (reads_code Hp : udp_code (hdr pdu) = Some code)).
    destruct (Z.eqb_spec code CA_EMPTY); [done|].
    step (run_lift _ _ _ (get_block_present Hp b COAP_OPTION_BLOCK1 A1 ltac:(done) Hbok Hb1)). reflexivity.
  - cbn beta iota. rewrite decide_False by (intros Hn; by apply Hn).
    destruct (get_block_absent Hp COAP_OPTION_BLOCK2 A2 ltac:(done) Hb2) as [b2 Eb2].
    step (run_lift _ _ _ Eb2). cbn beta iota. step (run_ret _ _).
    rewrite decide_False by (intros Hn; by apply Hn). done.
Qed.

(** What is kept for a request that starts a transfer. *)
Definition first_answer (tok : list Z) : CAResponseInfo_t := {|
  result := 0; res_info := set_token (Some tok) (Z.of_nat (length tok)) zero_info; res_isMulticast := false |}.

Definition new_entry (bid : CABlockDataID_t) (d : CAData_t) : CABlockData_t :=
  let szx0 := {| num := 0; m := 0; szx := CA_DEFAULT_BLOCK_SIZE |} in
  {| block1 := szx0; block2 := szx0; bd_type := 0; blockDataId := bid; sentData := Some d; bd_payload := None;
     payloadLength := 0; receivedPayloadLen := 0 |}.

Lemma copy_answer e r : copy_info (res_info r) = res_info r ->
  copy_data (answer_data e r) = answer_data e r.
Proof. intros Hr. unfold copy_data, answer_data. simpl. unfold copy_response, set_res_info. rewrite Hr. by destruct r. Qed.

Lemma copy_first tok ty mid : tok <> [] ->
  copy_info (res_info (first_answer tok)) = res_info (first_answer tok) /\
  copy_info (res_info (continue_with ty mid (first_answer tok))) = res_info (continue_with ty mid (first_answer tok)).
Proof.
  intros Ht. unfold copy_info. simpl. destruct (Z.ltb_spec 0 (Z.of_nat (length tok))); [|by destruct tok; simpl in *; try lia].
  rewrite !Nat2Z.id, firstn_all. done.
Qed.

Lemma first_ok tok : info_ok (res_info (first_answer tok)).
Proof. unfold info_ok. simpl. lia. Qed.

(** The data set of a first block. *)
Lemma new_data_set pdu ty code mid tok os d e proxyUri c o l : ready c -> tok <> [] ->
  reads pdu ty code mid tok os d -> is_method code = true ->
  CACreateNewDataSet pdu e proxyUri (with_list c o l) = Some (Some (answer_data e (first_answer tok)), with_list c o l).
Proof.
  intros Hc Ht Hp Hm. pose proof (allocs_with_list c o l Hc) as Ha. unfold CACreateNewDataSet.
  step (run_lift _ _ _ (reads_code Hp : udp_code (hdr pdu) = Some code)). step (run_lift _ _ _ (reads_tkl Hp)).
  unfold OICMalloc. destruct (Z.eqb_spec (Z.of_nat (length tok)) 0); [by destruct tok|].
  step (alloc_ok _ Ha). cbn [negb]. step (run_lift _ _ _ (reads_token2 Hp : udp_token (hdr pdu) = Some tok)).
  cbv zeta. rewrite Hm.
  match goal with |- context [(?x ≫= _) _] => assert (x (with_list c o l)
    = Some (Some (None, Some (first_answer tok)), with_list c o l)) as E end.
  { by step (alloc_ok _ Ha). }
  step E. cbn beta iota. step (alloc_ok _ Ha). cbn [negb]. unfold CACloneEndpoint.
  match goal with |- context [(?x ≫= _) _] => assert (x (with_list c o l)
    = Some (Some e, with_list c o l)) as E2 end.
  { by step (alloc_ok _ Ha). }
  by step E2.
Qed.

Lemma new_block tok e c o l : ready c -> tok <> [] ->
  CACreateNewBlockData (answer_data e (first_answer tok)) (with_list c o l)
  = Some (Some (fresh l), with_list c o (l ++ [(fresh l, new_entry (block_id tok e) (answer_data e (first_answer tok)))])).
Proof.
  intros Hc Ht. pose proof (allocs_with_list c o l Hc) as Ha. unfold CACreateNewBlockData.
  step (alloc_ok _ Ha). cbn [negb]. destruct (copy_first tok 0 0 Ht) as [Hcopy _].
  assert (data_ok (answer_data e (first_answer tok))) as Hok
    by (split; [apply list_elem_of_In; simpl; tauto|apply first_ok]).
  step (clone_ok (answer_data e (first_answer tok)) _ Ha Hok).
  rewrite copy_answer by done. cbn beta iota.
  unfold data_token. cbn [answer_data requestInfo responseInfo remoteEndpoint first_answer res_info token tokenLength set_token].
  step (create_id tok e _ Ha). cbn beta iota. step (run_gets dataList _). cbn [with_list set_dataList dataList].
  step (alloc_ok _ Ha). by step (run_modify _ _).
Qed.

(** A first block finds no entry and makes one. *)
Lemma start_transfer pdu ty code mid tok os d rd b e dataLen proxyUri c o l : ready c -> tok <> [] ->
  reads pdu ty code mid tok os d -> is_method code = true -> Forall (fun x => blockDataId x.2 <> block_id tok e) l ->
  Z.of_nat (length (block_id tok e)) <= UINT8_MAX ->
  CASetNextBlockOption1 pdu e rd b dataLen proxyUri (with_list c o l)
  = CASetNextBlockOption1 pdu e rd b dataLen proxyUri
      (with_list c o (l ++ [(fresh l, new_entry (block_id tok e) (answer_data e (first_answer tok)))])).
Proof.
  intros Hc Ht Hp Hm Hl Hlen. set (D := new_entry _ _).
  assert (entry_at l [] (fresh l) (block_id tok e)) as Hat by (split; [apply fresh_new|constructor|done]).
  unfold CASetNextBlockOption1. step (packet_id e _ Hp (allocs_with_list c o l Hc)).
  step (packet_id e _ Hp (allocs_with_list c o _ Hc)). cbn beta iota.
  destruct (Z.ltb_spec UINT8_MAX (Z.of_nat (length (block_id tok e)))); [lia|].
  step (exist_present (c:=c) Hat o D pdu e proxyUri COAP_OPTION_BLOCK1 eq_refl).
  assert (CACheckTheExistOfBlockData (block_id tok e) pdu e COAP_OPTION_BLOCK1 proxyUri (with_list c o l)
    = Some (Some (fresh l), with_list c o (l ++ [(fresh l, set_bd_type COAP_OPTION_BLOCK1 D)]))) as E; [|by step E].
  unfold CACheckTheExistOfBlockData. step (get_absent c o l _ Hl). cbn beta iota.
  match goal with |- context [(?x ≫= _) _] => assert (x (with_list c o l)
    = Some (Some (fresh l), with_list c o (l ++ [(fresh l, D)]))) as E end.
  { step (new_data_set pdu ty code mid tok os d e proxyUri c o l Hc Ht Hp Hm). cbn beta iota.
    unfold add_multicast_uri. cbn [answer_data requestInfo]. step (run_ret _ _). cbn beta iota.
    by apply new_block. }
  step E. cbn beta iota. by step (run_update_type (c:=c) Hat o D COAP_OPTION_BLOCK1 eq_refl).
Qed.

(** The block [k] of a payload. *)
Definition block_slice (s k : Z) (data : list Z) : list Z :=
  take (Z.to_nat (BLOCK_SIZE s)) (drop (Z.to_nat (BLOCK_SIZE s * k)) data).

(** A packet as it is received, with the message parsed from it. *)
Record block_packet := {
  pk_pdu : coap_pdu_t;
  pk_message : CAData_t;
  pk_len : Z;
  pk_type : Z;
  pk_code : Z;
  pk_id : Z;
  pk_options : list hcoap_option;
}.

(** Block [k] of the payload: one that is full and followed by more, or the
    last one.  Block 0 says how long the payload is. *)
Definition carries (tok : list Z) (s : Z) (data : list Z) (k : Z) (last : bool) (q : block_packet) : Prop :=
  upload_packet (pk_pdu q) (pk_message q) (pk_type q) (pk_code q) (pk_id q) tok (pk_options q) (block_slice s k data)
    {| num := k; m := if last then 0 else 1; szx := s |}
    (if k =? 0 then Some (Z.of_nat (length data)) else None) /\
  if last then BLOCK_SIZE s * k < Z.of_nat (length data) <= BLOCK_SIZE s * (k + 1)
  else BLOCK_SIZE s * (k + 1) < Z.of_nat (length data).

(** Packets with the blocks from [k] on. *)
Fixpoint upload_from (tok : list Z) (s : Z) (data : list Z) (k : Z) (qs : list block_packet) : Prop :=
  match qs with
  | [] => False
  | [q] => carries tok s data k true q
  | q :: qs => carries tok s data k false q /\ upload_from tok s data (k + 1) qs
  end.

Fixpoint receive_packets (e : CAEndpoint_t) (proxyUri : list Z) (qs : list block_packet) : M Ctx (list CAResult_t) :=
  match qs with
  | [] => mret []
  | q :: qs =>
      '(r, _) ← CAReceiveBlockWiseData (pk_pdu q) e (pk_message q) (pk_len q) proxyUri;
      rs ← receive_packets e proxyUri qs; mret (r :: rs)
  end.

(** What a packet leads to: 2.31 for the ones before the last, the message with
    all of the payload for that. *)
Fixpoint upload_events (tok : list Z) (e : CAEndpoint_t) (data : list Z) (qs : list block_packet) : list block_event :=
  match qs with
  | [] => []
  | [q] => [ReceiveThread (whole_data (pk_message q) data)]
  | q :: qs => SendThread (answer_data e (continue_with (pk_type q) (pk_id q) (first_answer tok))) ::
               upload_events tok e data qs
  end.

(** The entry after the blocks before [k]. *)
Record before_block (tok : list Z) (e : CAEndpoint_t) (s : Z) (data : list Z) (k : Z) (D : CABlockData_t) : Prop := {
  bb_id : blockDataId D = block_id tok e;
  bb_sent : exists r, sentData D = Some (answer_data e r) /\ info_ok (res_info r) /\
    forall ty mid, continue_with ty mid r = continue_with ty mid (first_answer tok);
  bb_szx : s <= szx (block1 D);
  bb_known : known data (Z.to_nat (BLOCK_SIZE s * k)) (if k =? 0 then Some (Z.of_nat (length data)) else None) D;
}.

Lemma BLOCK_SIZE_pos s : 0 <= s -> 0 < BLOCK_SIZE s.
Proof. intros. unfold BLOCK_SIZE. rewrite Z.shiftl_1_l. apply Z.pow_pos_nonneg; lia. Qed.

Lemma slice_split s k data : 0 <= s -> 0 <= k -> BLOCK_SIZE s * k <= Z.of_nat (length data) ->
  let n := Z.to_nat (BLOCK_SIZE s * k) in
  data = take n data ++ block_slice s k data ++ drop (n + Z.to_nat (BLOCK_SIZE s)) data /\
  Z.of_nat (length (block_slice s k data)) = Z.min (BLOCK_SIZE s) (Z.of_nat (length data) - BLOCK_SIZE s * k).
Proof.
  intros Hs Hk Hn n. pose proof (BLOCK_SIZE_pos s Hs). unfold block_slice. fold n. split.
  - rewrite <- drop_drop, !take_drop. done.
  - rewrite length_take, length_drop. unfold n. nia.
Qed.

(** One packet of a transfer in progress. *)
Lemma receive_block c o l p D tok e s data k last q proxyUri :
  ready c -> tok <> [] -> Forall (fun x => x.1 <> p) l -> Forall (fun x => blockDataId x.2 <> block_id tok e) l ->
  Z.of_nat (length (block_id tok e)) <= UINT8_MAX -> 0 <= k -> 0 <= s <= CA_BLOCK_SIZE_1024_BYTE ->
  Z.of_nat (length data) < 2 ^ 32 -> carries tok s data k last q -> before_block tok e s data k D ->
  exists D', CAReceiveBlockWiseData (pk_pdu q) e (pk_message q) (pk_len q) proxyUri (with_list c o (l ++ [(p, D)]))
    = Some ((CA_STATUS_OK, pk_message q),
        with_list c (o ++ [if last then ReceiveThread (whole_data (pk_message q) data)
                           else SendThread (answer_data e (continue_with (pk_type q) (pk_id q) (first_answer tok)))])
          (l ++ [(p, D')])) /\
    (last = false -> before_block tok e s data (k + 1) D') /\ blockDataId D' = block_id tok e.
Proof.
  intros Hc Ht Hp Hl Hid Hk [Hs Hs6] Hsmall [Hpk Hlast] [Hbid (r & Hsent & Hi & Hr) Hszx Hkn].
  assert (entry_at l [] p (block_id tok e)) as Hat by (by split).
  destruct (slice_split s k data Hs Hk) as [Ed Hlen]; [destruct last; pose proof (BLOCK_SIZE_pos s Hs); nia|].
  set (n := Z.to_nat (BLOCK_SIZE s * k)) in *. set (d := block_slice s k data) in *.
  pose proof (BLOCK_SIZE_pos s Hs) as Hpos. assert (Z.of_nat n = BLOCK_SIZE s * k) as Hn by (unfold n; nia).
  set (rest := drop (n + Z.to_nat (BLOCK_SIZE s)) data) in *.
  set (b := {| num := k; m := if last then 0 else 1; szx := s |}) in *.
  assert (d <> []) as Hd by (intros Ed0; rewrite Ed0 in Hlen; simpl in Hlen; destruct last; nia).
  assert (m b = 1 /\ Z.of_nat (length d) = BLOCK_SIZE s \/ m b = 0 /\ rest = []) as Hm.
  { destruct last; [right|left]; (split; [done|]); [apply drop_ge|]; nia. }
  pose proof (accept_block (c:=c) Hc Hat o D (pk_pdu q) (pk_message q) (pk_type q) (pk_code q) (pk_id q) tok (pk_options q) d
    _ data n rest b e r (pk_len q) proxyUri eq_refl ltac:(unfold UINT8_MAX in *; lia) Hpk Hd Hkn Ed
    ltac:(destruct last; nia) Hsmall Hn Hm Hbid Hsent Hi Hszx Hs6) as E.
  destruct (receive_by_option1 _ _ _ _ _ _ _ _ _ _ e (pk_len q) proxyUri Hpk) as (K & EK & HK).
  rewrite EK. step E. rewrite HK. destruct last.
  - eexists. split; [done|]. split; [done|]. exact Hbid.
  - cbn [b m]. change (1 =? 0) with false. cbv iota. rewrite copy_answer, Hr by (by rewrite Hr; apply copy_first).
    eexists. split; [done|]. split; [|exact Hbid]. intros _. split; [exact Hbid| |simpl; lia|].
    + eexists. split; [reflexivity|]. split; [exact (first_ok tok)|done].
    + split; cbn [stored set_block1 set_received receivedPayloadLen payloadLength bd_payload set_sentData].
      * cbn [stored set_block1 set_received receivedPayloadLen set_sentData]. nia.
      * destruct (Z.eqb_spec (k + 1) 0); [lia|]. split; [done|]. cbn. do 2 f_equal. nia.
Qed.

Lemma receive_from c o l p D tok e s data k qs proxyUri :
  ready c -> tok <> [] -> Forall (fun x => x.1 <> p) l -> Forall (fun x => blockDataId x.2 <> block_id tok e) l ->
  Z.of_nat (length (block_id tok e)) <= UINT8_MAX -> 0 <= k -> 0 <= s <= CA_BLOCK_SIZE_1024_BYTE ->
  Z.of_nat (length data) < 2 ^ 32 -> upload_from tok s data k qs -> before_block tok e s data k D ->
  exists D', receive_packets e proxyUri qs (with_list c o (l ++ [(p, D)]))
    = Some (replicate (length qs) CA_STATUS_OK,
        with_list c (o ++ upload_events tok e data qs) (l ++ [(p, D')])) /\ blockDataId D' = block_id tok e.
Proof.
  intros Hc Ht Hp Hl Hid Hk Hs Hsmall. revert o D k Hk.
  induction qs as [|q qs IH]; intros o D k Hk Hq HD; [done|].
  destruct qs as [|q' qs].
  - destruct (receive_block c o l p D tok e s data k true q proxyUri) as (D' & E & _ & Hd); try done.
    exists D'. split; [|done]. cbn [receive_packets]. by step E.
  - destruct Hq as [Hq Hqs].
    destruct (receive_block c o l p D tok e s data k false q proxyUri) as (D1 & E & HD1 & _); try done.
    destruct (IH (o ++ [SendThread (answer_data e (continue_with (pk_type q) (pk_id q) (first_answer tok)))]) D1 (k + 1)
      ltac:(lia) Hqs (HD1 eq_refl)) as (D' & E' & Hd).
    exists D'. split; [|done]. remember (q' :: qs) as qs' eqn:Eqs. cbn [receive_packets]. step E. cbn beta iota.
    step E'. rewrite <- app_assoc. by subst qs'.
Qed.

(** C19: an upload in blocks of any of the sizes, in its order, is handed to the application once, with the payload
    put together from all of the blocks; each block before the last is answered by 2.31 with the block's message id and
    token, and the transfers of other tokens and endpoints stay as they were. *)
Theorem upload_delivers_payload c l tok e s data qs proxyUri :
  ready c -> dataList c = Some l -> tok <> [] -> Forall (fun x => blockDataId x.2 <> block_id tok e) l ->
  Z.of_nat (length (block_id tok e)) <= UINT8_MAX -> 0 <= s <= CA_BLOCK_SIZE_1024_BYTE ->
  Z.of_nat (length data) < 2 ^ 32 -> upload_from tok s data 0 qs ->
  exists D, blockDataId D = block_id tok e /\
    receive_packets e proxyUri qs c = Some (replicate (length qs) CA_STATUS_OK,
      set_dataList (Some (l ++ [(fresh l, D)])) (set_out (out c ++ upload_events tok e data qs) c)).
Proof.
  intros Hc Hl Ht Hf Hid Hs Hsmall Hqs.
  set (D := new_entry (block_id tok e) (answer_data e (first_answer tok))).
  assert (before_block tok e s data 0 D) as HD.
  { split; [done| |simpl; unfold CA_DEFAULT_BLOCK_SIZE; lia|].
    - eexists. split; [reflexivity|]. split; [apply first_ok|done].
    - rewrite Z.mul_0_r. done. }
  destruct (receive_from c (out c) l (fresh l) D tok e s data 0 qs proxyUri) as (D' & E & Hd); try done.
  { apply fresh_new. }
  exists D'. split; [done|]. etrans; [|exact E].
  rewrite (with_list_self c l Hl) at 1. destruct qs as [|q qs]; [done|]. assert (exists last, carries tok s data 0 last q) as [last [Hq _]].
  { destruct qs; [by exists true|]. exists false. apply Hqs. }
  cbn [receive_packets]. pose proof Hq as [Hp Hm _ _ _ _ _ _ _ _].
  destruct (receive_by_option1 _ _ _ _ _ _ _ _ _ _ e (pk_len q) proxyUri Hq) as (K & EK & _).
  unfold mbind, M_bind. rewrite !EK. unfold mbind, M_bind.
  by rewrite (start_transfer (pk_pdu q) (pk_type q) (pk_code q) (pk_id q) tok (pk_options q) (block_slice s 0 data)).
Qed.

(** ** A length that is too small *)

Lemma copy_overflow buf d : (length buf < length d)%nat ->
  copy_to (Some buf) 0 d (Z.of_nat (length d)) = None.
Proof.
  intros Hl. unfold copy_to. rewrite read_at_all by done. cbn [mbind option_bind]. unfold write_at.
  rewrite decide_False; [done|]. lia.
Qed.

(** the length that a first block announces is the size of the buffer, and nothing compares it with the block: one
    byte for a block of 16 is enough to write behind the buffer. *)
Theorem short_size_overflows c l tok e s pdu rd ty code mid os d total dataLen proxyUri :
  ready c -> dataList c = Some l -> tok <> [] -> Forall (fun x => blockDataId x.2 <> block_id tok e) l ->
  Z.of_nat (length (block_id tok e)) <= UINT8_MAX ->
  upload_packet pdu rd ty code mid tok os d {| num := 0; m := 1; szx := s |} (Some total) ->
  Z.of_nat (length d) = BLOCK_SIZE s -> 0 < total < Z.of_nat (length d) ->
  CAReceiveBlockWiseData pdu e rd dataLen proxyUri c = None.
Proof.
  intros Hc Hl Ht Hf Hid Hpk Hd Htot. pose proof Hpk as [Hp Hm _ (_ & _ & Hs & Hs8) _ Hsz _ _ A3 Hrd].
  cbn [szx] in Hs, Hs8. cbn [fmap option_fmap option_map] in Hsz. assert (Z.of_nat (length d) <= 2 ^ 11) as Hsmall.
  { rewrite Hd. unfold BLOCK_SIZE. rewrite Z.shiftl_1_l. apply Z.pow_le_mono_r; lia. }
  rewrite (with_list_self c l Hl).
  destruct (receive_by_option1 _ _ _ _ _ _ _ _ _ _ e dataLen proxyUri Hpk) as (K & EK & _).
  rewrite EK. apply run_bind_undef. rewrite (start_transfer pdu ty code mid tok os d) by done.
  set (D := new_entry _ _). set (bid := block_id tok e) in *.
  assert (entry_at l [] (fresh l) bid) as Hat by (split; [apply fresh_new|constructor|done]).
  unfold CASetNextBlockOption1. step (packet_id e _ Hp (allocs_with_list c (out c) _ Hc)). cbn beta iota.
  destruct (Z.ltb_spec UINT8_MAX (Z.of_nat (length (block_id tok e)))); [unfold bid in *; lia|].
  step (exist_present (c:=c) Hat (out c) D pdu e proxyUri COAP_OPTION_BLOCK1 eq_refl). cbn beta iota.
  step (run_lift _ _ _ (reads_code Hp : udp_code (hdr pdu) = Some code)). rewrite Hm.
  step (size_first (c:=c) Hat (out c) _ pdu ty code mid tok os d total Hp A3 Hsz ltac:(lia)).
  set (D1 := set_received _ _ _ _).
  pose proof (block_in_order (c:=c) Hat (out c) D1 rd d 0 1 s dataLen Hrd Hs ltac:(simpl; lia) ltac:(simpl; lia)
    ltac:(simpl; lia) ltac:(by left)) as E.
  step E. cbn beta iota zeta. rewrite decide_False by done. unfold or_exit at 1. apply run_bind_undef.
  unfold CAUpdatePayloadData. step (run_deref (c:=c) Hat (out c) D1). rewrite decide_False by done.
  rewrite (upload_payload _ _ Hrd). cbv zeta. rewrite decide_False by done. cbn [D1 set_received payloadLength receivedPayloadLen].
  destruct (Z.eqb_spec total 0); [lia|]. cbn [negb set_bd_type receivedPayloadLen D new_entry]. rewrite Z.eqb_refl.
  match goal with |- (?x ≫= _) ?st = _ => assert (x st
    = Some (Some (Some (replicate (Z.to_nat total) 0)), st)) as E2 end.
  { by step (alloc_ok _ (allocs_with_list c (out c) _ Hc)). }
  step E2. cbn beta iota. apply run_bind_undef. rewrite copy_overflow; [done|]. rewrite length_replicate. lia.
Qed.

(** ** A transfer to look at *)

Definition packet_at (ty code mid : Z) (tok : list Z) (os : list hcoap_option) (d : list Z) : coap_pdu_t := {|
  max_size := COAP_MAX_PDU_SIZE; hdr := message_bytes ty code mid tok os d; max_delta := 0;
  plength := Z.of_nat (length (message_bytes ty code mid tok os d));
  pdata := data_offset (header_bytes ty (Z.of_nat (length tok)) code mid ++ tok) os d |}.

Lemma packet_at_reads ty code mid tok os d : header_ok ty 0 code mid -> Z.of_nat (length tok) <= 8 ->
  options_ok 0 os -> reads (packet_at ty code mid tok os d) ty code mid tok os d.
Proof. intros. split; try done. split; [|done]. exists []. by rewrite app_nil_r. Qed.

Definition message_at (e : CAEndpoint_t) (tok d : list Z) : CAData_t := {|
  sendType := SEND_TYPE_UNICAST; remoteEndpoint := Some e;
  requestInfo := Some {| method := CA_PUT; req_isMulticast := false;
    req_info := set_payload (Some d) (Z.of_nat (length d)) (set_token (Some tok) (Z.of_nat (length tok)) zero_info) |};
  responseInfo := None; errorInfo := None; dataType := Some CA_REQUEST_DATA |}.

Lemma message_at_ok e tok d : upload_data (message_at e tok d) d.
Proof.
  split; [by eexists|done|done|]. split; [apply list_elem_of_In; simpl; tauto|].
  unfold info_ok, field_ok. simpl. lia.
Qed.

(** 20 bytes in blocks of 16. *)
Definition upload_bytes : list Z := seqZ 100 20.

Definition upload_example : list block_packet :=
  let q k mm mid size := {|
    pk_pdu := packet_at 0 CA_PUT mid [7; 9] ([(COAP_OPTION_BLOCK1, block_bytes {| num := k; m := mm; szx := 0 |})] ++ size)
                (block_slice 0 k upload_bytes);
    pk_message := message_at ble_endpoint [7; 9] (block_slice 0 k upload_bytes); pk_len := 40; pk_type := 0;
    pk_code := CA_PUT; pk_id := mid;
    pk_options := [(COAP_OPTION_BLOCK1, block_bytes {| num := k; m := mm; szx := 0 |})] ++ size |} in
  [q 0 1 500 [(COAP_OPTION_SIZE1, [20])]; q 1 0 501 []].

Lemma upload_example_ok : upload_from [7; 9] 0 upload_bytes 0 upload_example.
Proof.
  split; (split; [|vm_compute; intuition congruence]);
    (split; [apply packet_at_reads; vm_compute; intuition congruence|done|done|vm_compute; intuition congruence|done|done
      |repeat constructor; vm_compute; intuition congruence..|apply message_at_ok]).
Qed.

Lemma g_context_ready : ready (set_funcs true true (set_dataList (Some []) g_context)).
Proof. by split. Qed.

Lemma upload_delivers_payload_witness : exists D, blockDataId D = block_id [7; 9] ble_endpoint /\
  receive_packets ble_endpoint [] upload_example (set_funcs true true (set_dataList (Some []) g_context))
  = Some ([CA_STATUS_OK; CA_STATUS_OK],
      set_dataList (Some [(1, D)]) (set_out (upload_events [7; 9] ble_endpoint upload_bytes upload_example)
        (set_funcs true true (set_dataList (Some []) g_context)))).
Proof.
  apply (upload_delivers_payload (set_funcs true true (set_dataList (Some []) g_context)) [] [7; 9] ble_endpoint 0
    upload_bytes upload_example []);
    [by split|done|done|constructor|vm_compute; congruence|vm_compute; intuition congruence|done|apply upload_example_ok].
Defined.

(** One byte is announced, sixteen come. *)
Definition short_options : list hcoap_option :=
  [(COAP_OPTION_BLOCK1, block_bytes {| num := 0; m := 1; szx := 0 |}); (COAP_OPTION_SIZE1, [1])].

Lemma short_size_overflows_witness :
  CAReceiveBlockWiseData (packet_at 0 CA_PUT 500 [7; 9] short_options (replicate 16 255)) ble_endpoint
    (message_at ble_endpoint [7; 9] (replicate 16 255)) 40 [] (set_funcs true true (set_dataList (Some []) g_context)) = None.
Proof.
  apply (short_size_overflows _ [] [7; 9] ble_endpoint 0 _ _ 0 CA_PUT 500 short_options (replicate 16 255) 1);
    [by split|done|done|constructor|vm_compute; congruence| |done|done].
  split; [apply packet_at_reads; vm_compute; intuition congruence|done|done|vm_compute; intuition congruence|done|done
    |repeat constructor; vm_compute; intuition congruence..|apply message_at_ok].
Defined.
