(* ===== verification/BlockSender.v ===== *)
(** * BlockSender: the packets of a transfer

    The other end of a transfer over the functions of [BlockTransfer]: what
    [CAAddBlockOption1] and [CAAddBlockOption2] put into the packet for one
    block of the stored message, and how the entry of a client moves on when a
    block is answered. *)
From S2P Require Import Prelude Effects CaCommon CoapOption CoapPdu CoapUri CaMessage ProtocolMessage CoapMessage CoapReceive CoapRoundTrip BlockTransfer BlockUpload.

#[local] Arguments wrap : simpl never.
#[local] Arguments option_bytes : simpl never.

(** ** Options that are put in *)

Lemma value_of_ins k v os : Forall (fun o => o.1 <> k) os -> value_of k (ins (k, v) os) = Some v.
Proof.
  unfold value_of. induction 1 as [|[j w] os Hj Hos IH]; cbn [ins find fst] in *; [by rewrite Z.eqb_refl|].
  destruct (k <? j); cbn [find fst]; [by rewrite Z.eqb_refl|]. destruct (Z.eqb_spec j k); [done|exact IH].
Qed.

Lemma value_of_ins_ne k j v os : j <> k -> value_of k (ins (j, v) os) = value_of k os.
Proof.
  intros Hj. unfold value_of. induction os as [|[i w] os IH]; cbn [ins find fst].
  - by destruct (Z.eqb_spec j k).
  - destruct (j <? i); cbn [find fst].
    + by destruct (Z.eqb_spec j k).
    + destruct (i =? k); [done|exact IH].
Qed.

Lemma value_of_none k os : Forall (fun o => o.1 <> k) os -> value_of k os = None.
Proof.
  intros Hos. unfold value_of. rewrite find_nowhere; [done|]. eapply Forall_impl; [exact Hos|].
  intros o Ho. by apply Z.eqb_neq.
Qed.

Lemma node_value_be key max n : var_bytes_max key = Some max -> 0 <= n < 256 ^ max -> 0 <= max <= 4 ->
  node_value key (be (var_bytes_len n 4) n) = be (var_bytes_len n 4) n.
Proof.
  intros Em Hn Hm. unfold node_value. rewrite Em. cbv zeta.
  pose proof (var_bytes_len_least n 4 (Z.to_nat max)) as Hl. rewrite Z2Nat.id in Hl by lia. specialize (Hl Hn).
  destruct (Z.ltb_spec max (Z.of_nat (length (be (var_bytes_len n 4) n)))) as [Hlt|_]; [rewrite length_be in Hlt; lia|].
  rewrite decode_be; [done|lia|]. split; [lia|]. apply var_bytes_len_fits. split; [lia|].
  eapply Z.lt_le_trans; [apply Hn|]. apply Z.pow_le_mono_r; simpl; lia.
Qed.

Section Options.
Context {c : Ctx}.
Hypothesis Hc : allocs_of c = [].

Lemma add_block_impl b t os : block_ok b -> t = COAP_OPTION_BLOCK1 \/ t = COAP_OPTION_BLOCK2 ->
  CAAddBlockOptionImpl b t (Some <$> os) c = Some ((CA_STATUS_OK, Some <$> ins (t, block_bytes b) os), c).
Proof.
  intros Hb Ht. unfold CAAddBlockOptionImpl. step (run_lift _ _ c (encode_buffer (block_value b))). cbn beta iota.
  assert (u8 t = t) as -> by (by destruct Ht as [-> | ->]).
  step (insert_new_spec os t _ _ c Hc (be_bytes _ _)). cbn beta iota. unfold block_bytes.
  rewrite (node_value_be t 3); [done|by destruct Ht as [-> | ->]| |lia].
  pose proof (block_value_range b Hb). simpl. lia.
Qed.

Lemma add_size_impl t n os : t = COAP_OPTION_SIZE1 \/ t = COAP_OPTION_SIZE2 -> 0 <= n < 2 ^ 32 ->
  CAAddBlockSizeOption t n (Some <$> os) c
  = Some ((CA_STATUS_OK, Some <$> ins (t, be (var_bytes_len n 4) n) os), c).
Proof.
  intros Ht Hn. unfold CAAddBlockSizeOption.
  assert (negb (t =? COAP_OPTION_SIZE1) && negb (t =? COAP_OPTION_SIZE2) = false) as -> by (by destruct Ht as [-> | ->]).
  rewrite wrap_small by lia. step (run_lift _ _ c (encode_buffer n)). cbn beta iota.
  step (insert_new_spec os t _ _ c Hc (be_bytes _ _)). cbn beta iota.
  rewrite (node_value_be t 4); [done|by destruct Ht as [-> | ->]| |lia]. simpl. lia.
Qed.
End Options.

(** ** The slice of a block *)

Lemma add_data_prefix p len data : 0 <= len <= Z.of_nat (length data) ->
  coap_add_data p len data = coap_add_data p len (take (Z.to_nat len) data).
Proof.
  intros Hl. unfold coap_add_data. destruct (pdata p); [done|]. destruct (len =? 0); [done|].
  destruct (_ <? _); [done|]. destruct (write_at _ _ _) as [h|]; [|done]. cbn [mbind option_bind].
  rewrite (read_at_all (take _ _)) by (rewrite length_take; lia). rewrite read_at_ok by lia. by rewrite drop_0.
Qed.

Lemma add_block_holds p bs k0 s k data : holds p bs k0 -> pdata p = None -> 0 <= s < 8 -> 0 <= k < 2 ^ 20 ->
  BLOCK_SIZE s * k < Z.of_nat (length data) -> Z.of_nat (length data) < 2 ^ 32 ->
  Z.of_nat (length (bs ++ payload_bytes (block_slice s k data))) <= max_size p ->
  exists p', coap_add_block p (Z.of_nat (length data)) data k s = Some (1, p') /\
    holds p' (bs ++ payload_bytes (block_slice s k data)) k0 /\ max_size p' = max_size p /\
    pdata p' = (if decide (block_slice s k data = []) then None else Some (Z.of_nat (length bs) + 1)).
Proof.
  intros Hp Hd Hs Hk Hlt Hsmall Hroom. pose proof (BLOCK_SIZE_pos s ltac:(lia)) as Hpos. unfold coap_add_block.
  assert (k <<< (s + 4) = BLOCK_SIZE s * k) as ->.
  { unfold BLOCK_SIZE. rewrite Z.shiftl_1_l, Z.shiftl_mul_pow2 by lia. lia. }
  rewrite wrap_small by nia. cbv zeta. destruct (Z.leb_spec (Z.of_nat (length data)) (BLOCK_SIZE s * k)); [lia|].
  fold (BLOCK_SIZE s). set (len := Z.min _ _).
  destruct (slice_split s k data ltac:(lia) ltac:(lia) ltac:(lia)) as [_ Hl].
  assert (len = Z.of_nat (length (block_slice s k data))) as El by (unfold len; lia).
  rewrite add_data_prefix by (rewrite length_drop; lia).
  assert (take (Z.to_nat len) (drop (Z.to_nat (BLOCK_SIZE s * k)) data) = block_slice s k data) as ->.
  { unfold block_slice. destruct (Z.min_spec (Z.of_nat (length data) - BLOCK_SIZE s * k) (BLOCK_SIZE s)) as [[_ E]|[_ E]];
      unfold len; rewrite E; [|done]. rewrite !take_ge by (rewrite length_drop; lia). done. }
  rewrite El. by apply add_data_holds.
Qed.

(** ** The packet of a block *)

(** The block option for the block [k], and the options with it. *)
Definition sent_block (s : Z) (data : list Z) (k : Z) : coap_block_t := {|
  num := k; m := if BLOCK_SIZE s * (k + 1) <? Z.of_nat (length data) then 1 else 0; szx := s |}.

Definition block_options (t sizeType : Z) (b : coap_block_t) (data : list Z) (os : list hcoap_option) : list hcoap_option :=
  let n := Z.of_nat (length data) in
  ins (t, block_bytes b) (if num b =? 0 then ins (sizeType, be (var_bytes_len n 4) n) os else os).

Lemma sent_block_ok s data k : 0 <= s <= CA_BLOCK_SIZE_1024_BYTE -> 0 <= k < 2 ^ 20 -> block_ok (sent_block s data k).
Proof. unfold CA_BLOCK_SIZE_1024_BYTE. intros. unfold block_ok, sent_block. cbn. case_match; lia. Qed.

Lemma more_bit_spec s data k b : num b = k -> szx b = s -> 0 <= s <= CA_BLOCK_SIZE_1024_BYTE -> 0 <= k < 2 ^ 20 ->
  more_bit (Z.of_nat (length data)) b = Some (m (sent_block s data k)).
Proof.
  unfold CA_BLOCK_SIZE_1024_BYTE. intros <- <- Hs Hk. unfold more_bit.
  assert ((num b + 1) <<< (szx b + 4) = BLOCK_SIZE (szx b) * (num b + 1)) as ->.
  { unfold BLOCK_SIZE. rewrite Z.shiftl_1_l, Z.shiftl_mul_pow2 by lia. lia. }
  assert (0 < BLOCK_SIZE (szx b) <= 2 ^ 10) as Hb.
  { unfold BLOCK_SIZE. rewrite Z.shiftl_1_l. split; [apply Z.pow_pos_nonneg; lia|apply Z.pow_le_mono_r; lia]. }
  rewrite int_result_ok by (unfold INT_MIN, INT_MAX; nia). cbn [mbind option_bind].
  rewrite wrap_small by nia. done.
Qed.

(** A packet with its header and its token, as the options find it. *)
Record started (pdu : coap_pdu_t) (ty code mid : Z) (tok : list Z) : Prop := {
  st_holds : holds pdu (header_bytes ty (Z.of_nat (length tok)) code mid ++ tok) 0;
  st_data : pdata pdu = None;
  st_size : max_size pdu = COAP_MAX_PDU_SIZE;
  st_header : header_ok ty 0 code mid;
  st_token : Z.of_nat (length tok) <= 8;
}.

Lemma started_code pdu ty code mid tok : started pdu ty code mid tok -> udp_code (hdr pdu) = Some code.
Proof. intros [[[rest E] _ _ _ _] _ _ _ _]. unfold udp_code. by rewrite E. Qed.

(** Options and slice, and what the receiver reads. *)
Lemma put_block pdu ty code mid tok os s k data (c : Ctx) : started pdu ty code mid tok -> options_ok 0 os ->
  0 <= s <= CA_BLOCK_SIZE_1024_BYTE -> 0 <= k < 2 ^ 20 ->
  BLOCK_SIZE s * k < Z.of_nat (length data) -> Z.of_nat (length data) < 2 ^ 32 ->
  Z.of_nat (length (message_bytes ty code mid tok os (block_slice s k data))) <= COAP_MAX_PDU_SIZE ->
  exists p1 p2, CAAddOptionToPDU pdu (Some <$> os) c = Some ((CA_STATUS_OK, p1), c) /\
    coap_add_block p1 (Z.of_nat (length data)) data k s = Some (1, p2) /\
    reads p2 ty code mid tok os (block_slice s k data).
Proof.
  intros [Hp Hd Hm Hh Ht] Hos Hs Hk Hlt Hsmall Hfit.
  pose proof (length_message ty code mid tok os (block_slice s k data)) as Hlen.
  unfold message_bytes, tail_bytes in Hfit. rewrite !length_app in Hfit. unfold CA_BLOCK_SIZE_1024_BYTE in *.
  destruct (add_option_list_holds pdu _ 0 os Hp) as (p1 & E1 & Hp1 & Hm1 & Hd1); [done|done|done|rewrite !length_app; lia|].
  destruct (add_block_holds p1 _ _ s k data Hp1 Hd1) as (p2 & E2 & Hp2 & Hm2 & Hd2);
    [lia|lia|done|done|rewrite !length_app; lia|].
  exists p1, p2. rewrite <- add_options_list in E1. split; [|split; [done|]].
  - unfold CAAddOptionToPDU. by step (run_lift _ _ c E1).
  - destruct Hp2 as [[rest Er] Hl _ _ _]. split; try done.
    split; [exists rest; rewrite Er|rewrite Hl]; unfold message_bytes, tail_bytes; by rewrite <- !app_assoc.
Qed.

(** Options the sender of a block gives besides those of the transfer. *)
Record plain_options (os : list hcoap_option) : Prop := {
  pl_none : Forall (fun o => o.1 <> COAP_OPTION_BLOCK1 /\ o.1 <> COAP_OPTION_BLOCK2 /\
                             o.1 <> COAP_OPTION_SIZE1 /\ o.1 <> COAP_OPTION_SIZE2) os;
  pl_small : Forall (fun o => o.1 <= COAP_MAX_OPT) os;
}.

Lemma small_no_alias t os : Forall (fun o => o.1 <= COAP_MAX_OPT) os -> no_alias t os.
Proof. intros Hos. eapply Forall_impl; [exact Hos|]. simpl. lia. Qed.

Lemma block_options_values t sizeType other b data os : plain_options os ->
  t <> sizeType -> t <> other -> sizeType <> other -> t <= COAP_MAX_OPT -> sizeType <= COAP_MAX_OPT ->
  (forall k, k = t \/ k = sizeType \/ k = other -> Forall (fun o => o.1 <> k) os) ->
  let os' := block_options t sizeType b data os in
  value_of t os' = Some (block_bytes b) /\ value_of other os' = None /\
  value_of sizeType os' = (fun n => be (var_bytes_len n 4) n) <$>
    (if num b =? 0 then Some (Z.of_nat (length data)) else None) /\
  Forall (fun o => o.1 <= COAP_MAX_OPT) os'.
Proof.
  intros [_ Hs] N1 N2 N3 L1 L2 Hos os'. unfold os', block_options. cbv zeta.
  set (mid := if num b =? 0 then _ else os).
  assert (forall k, k = t \/ k = other -> Forall (fun o => o.1 <> k) mid) as Hmid.
  { intros k Hk. unfold mid. destruct (num b =? 0); [apply ins_Forall; [simpl; destruct Hk; congruence|]|];
      apply Hos; tauto. }
  split; [apply value_of_ins, Hmid; tauto|]. split; [rewrite value_of_ins_ne by done; apply value_of_none, Hmid; tauto|].
  split.
  - rewrite value_of_ins_ne by done. unfold mid. destruct (num b =? 0).
    + apply value_of_ins, Hos. tauto.
    + apply value_of_none, Hos. tauto.
  - apply ins_Forall; [done|]. unfold mid. destruct (num b =? 0); [apply ins_Forall|]; done.
Qed.

(** [add_block_option] and [put_options] when the step succeeds. *)
Lemma add_block_option_ok bid pdu options step options' next (c c' : Ctx) :
  step options c = Some ((CA_STATUS_OK, options'), c') ->
  add_block_option bid pdu options step next c = next options' c'.
Proof. intros E. unfold add_block_option. by step E. Qed.

Lemma put_options_ok bid pdu options next p1 (c : Ctx) :
  CAAddOptionToPDU pdu options c = Some ((CA_STATUS_OK, p1), c) -> put_options bid pdu options next c = next p1 c.
Proof. intros E. unfold put_options. by step E. Qed.

Lemma size_option_spec sizeType n (data : list Z) os (c : Ctx) : allocs_of c = [] ->
  sizeType = COAP_OPTION_SIZE1 \/ sizeType = COAP_OPTION_SIZE2 -> Z.of_nat (length data) < 2 ^ 32 ->
  size_option sizeType n (Z.of_nat (length data)) (Some <$> os) c
  = Some ((CA_STATUS_OK, Some <$> (if n =? 0 then ins (sizeType, be (var_bytes_len (Z.of_nat (length data)) 4)
              (Z.of_nat (length data))) os else os)), c).
Proof.
  intros Hc Ht Hn. unfold size_option. destruct (n =? 0); [|done]. apply add_size_impl; [done|done|lia].
Qed.

Section Client.
Context {c : Ctx} {l1 l2 : list (Z * CABlockData_t)} {p : Z} {bid : CABlockDataID_t}.
Hypothesis Hc : ready c.
Hypothesis Hat : entry_at l1 l2 p bid.

#[local] Abbreviation st o d := (with_list c o (l1 ++ (p, d) :: l2)).

Lemma client_block o D pdu ty code mid tok info os s k data :
  let b := sent_block s data k in
  let os' := block_options COAP_OPTION_BLOCK1 COAP_OPTION_SIZE1 b data os in
  blockDataId D = bid -> num (block1 D) = k -> szx (block1 D) = s -> 0 <= s <= CA_BLOCK_SIZE_1024_BYTE ->
  0 <= k < 2 ^ 20 -> BLOCK_SIZE s * k < Z.of_nat (length data) -> Z.of_nat (length data) < 2 ^ 32 ->
  CaMessage.payload info = Some data -> is_method code = true -> started pdu ty code mid tok -> options_ok 0 os' ->
  Z.of_nat (length (message_bytes ty code mid tok os' (block_slice s k data))) <= COAP_MAX_PDU_SIZE ->
  exists sent, CAAddBlockOption1 pdu info (Z.of_nat (length data)) bid (Some <$> os) (st o D)
    = Some ((CA_STATUS_OK, sent, Some <$> os'), st o (set_block1 b D)) /\
    reads sent ty code mid tok os' (block_slice s k data).
Proof.
  intros b os' Hid Hk Hs Hs6 Hk20 Hlt Hsmall Hpl Hm Hst Hos Hfit.
  pose proof (sent_block_ok s data k Hs6 Hk20) as Hbok. fold b in Hbok.
  destruct (put_block pdu ty code mid tok os' s k data (st o (set_block1 b D)) Hst Hos Hs6 Hk20 Hlt Hsmall Hfit)
    as (p1 & p2 & E1 & E2 & Hr).
  exists p2. split; [|done]. unfold CAAddBlockOption1.
  step (run_option (c:=c) Hat o D COAP_OPTION_BLOCK1 Hid ltac:(by left)). cbn beta iota.
  step (run_lift _ _ _ (started_code _ _ _ _ _ Hst)). rewrite Hpl. cbv zeta. rewrite Hm.
  step (run_deref (c:=c) Hat o D). step (run_lift _ _ _ (more_bit_spec s data k (block1 D) Hk Hs Hs6 Hk20)).
  assert (with_m (m (sent_block s data k)) (block1 D) = b) as -> by (unfold with_m; by rewrite Hk, Hs).
  step (run_assign (c:=c) Hat o D _).
  erewrite add_block_option_ok by (apply size_option_spec; [by apply allocs_with_list|by left|done]).
  erewrite add_block_option_ok by (apply add_block_impl; [by apply allocs_with_list|done|by left]).
  assert (num b = k) as Eb by done. assert (szx b = s) as Es by done.
  erewrite put_options_ok by exact E1. rewrite Eb, Es. by step (run_lift _ _ _ E2).
Qed.
End Client.

(** ** From the client to the server *)

(** C20: the packet a client sends for block [k] of a request, once parsed, carries that slice of the payload with the
    block's number, an M bit that is 0 at the last slice alone, and the length with the first one: what
    [upload_from] asks of a packet of an upload. *)
Theorem client_block_carries c l1 l2 p e D pdu ty code mid tok info os s k data (st : list bool) :
  let b := sent_block s data k in
  let os' := block_options COAP_OPTION_BLOCK1 COAP_OPTION_SIZE1 b data os in
  ready c -> entry_at l1 l2 p (block_id tok e) -> dataList c = Some (l1 ++ (p, D) :: l2) ->
  blockDataId D = block_id tok e -> num (block1 D) = k -> szx (block1 D) = s -> 0 <= s <= CA_BLOCK_SIZE_1024_BYTE ->
  0 <= k < 2 ^ 20 -> BLOCK_SIZE s * k < Z.of_nat (length data) -> Z.of_nat (length data) < 2 ^ 32 ->
  CaMessage.payload info = Some data -> is_method code = true -> started pdu ty code mid tok ->
  plain_options os -> options_ok 0 os' ->
  Z.of_nat (length (message_bytes ty code mid tok os' (block_slice s k data))) <= COAP_MAX_PDU_SIZE ->
  allocs_of st = [] ->
  exists sent received, CAAddBlockOption1 pdu info (Z.of_nat (length data)) (block_id tok e) (Some <$> os) c
    = Some ((CA_STATUS_OK, sent, Some <$> os'), set_dataList (Some (l1 ++ (p, set_block1 b D) :: l2)) c) /\
    CAParsePDU (packet sent) (Z.of_nat (length (packet sent))) st = Some (Some (received, CA_RESPONSE_CODE code), st) /\
    forall rd len, upload_data rd (block_slice s k data) ->
      carries tok s data k (m b =? 0) {| pk_pdu := received; pk_message := rd; pk_len := len; pk_type := ty;
        pk_code := code; pk_id := mid; pk_options := os' |}.
Proof.
  intros b os' Hc Hat Hl Hid Hk Hs Hs6 Hk20 Hlt Hsmall Hpl Hm Hst Hplain Hos Hfit Hal.
  destruct (client_block (c:=c) Hc Hat (out c) D pdu ty code mid tok info os s k data Hid Hk Hs Hs6 Hk20 Hlt Hsmall Hpl Hm
    Hst Hos Hfit) as (sent & E & Hr).
  destruct (method_codes _ Hm) as (_ & _ & N).
  destruct (parse_pdu_spec ty code mid tok os' (block_slice s k data) st Hal) as (received & Ep & Hr'); [apply Hst|exact N|apply Hst|done|done|].
  exists sent, received. rewrite (reads_packet _ _ _ _ _ _ _ Hr). split; [|split; [done|]].
  - rewrite (with_list_self c _ Hl) at 1. rewrite E. by destruct c.
  - intros rd len Hrd. destruct Hplain as [Hnone Hsm].
    destruct (block_options_values COAP_OPTION_BLOCK1 COAP_OPTION_SIZE1 COAP_OPTION_BLOCK2 b data os)
      as (V1 & V2 & V3 & V4); try done.
    { intros t Ht. eapply Forall_impl; [exact Hnone|]. intros o (?&?&?&?). by destruct Ht as [-> |[-> | ->]]. }
    assert ((if m b =? 0 then 0 else 1) = m b) as Emb by (unfold b, sent_block; cbn; by destruct (_ <? _)).
    split; cbn [pk_pdu pk_message pk_type pk_code pk_id pk_options].
    + rewrite Emb. split; try done; [by apply sent_block_ok|by apply small_no_alias..].
    + unfold b, sent_block. cbn [m]. destruct (Z.ltb_spec (BLOCK_SIZE s * (k + 1)) (Z.of_nat (length data))); cbn; lia.
Qed.

(** ** The client goes on *)

Lemma code_continue code : CA_RESPONSE_CODE code = CA_CONTINUE -> is_method code = false /\ code <> CA_EMPTY.
Proof.
  intros H. split.
  - unfold is_method. repeat match goal with |- context [?a =? code] => destruct (Z.eqb_spec a code) as [<-|] end; done.
  - by intros ->.
Qed.

(** The stored request, as it is sent for the next block. *)
Definition next_request (ty : Z) (r : CARequestInfo_t) : CARequestInfo_t :=
  set_req_info (fun i => CaMessage.set_type (answer_type ty) (set_messageId 0 i)) r.

Section Answer.
Context {c : Ctx} {l1 l2 : list (Z * CABlockData_t)} {p : Z} {bid : CABlockDataID_t}.
Hypothesis Hc : ready c.
Hypothesis Hat : entry_at l1 l2 p bid.

#[local] Abbreviation st o d := (with_list c o (l1 ++ (p, d) :: l2)).

(** The stored request goes out again. *)
Lemma send_next o D pdu ty code mid tok os d rd sent r : reads pdu ty code mid tok os d -> is_method code = false ->
  message_type ty <> CA_MSG_CONFIRM -> blockDataId D = bid -> sentData D = Some sent -> requestInfo sent = Some r ->
  data_ok sent ->
  let sent' := set_requestInfo (Some (next_request ty r)) sent in
  next_step pdu rd bid CA_OPTION1_RESPONSE (st o D)
  = Some (CA_STATUS_OK, st (o ++ [SendThread (copy_data sent')]) (set_sentData (Some sent') D)).
Proof.
  intros Hp Hm Hty Hid Hs Hr Hok sent'. unfold next_step, or_exit.
  assert (CAProcessNextStep pdu rd CA_OPTION1_RESPONSE bid (st o D)
    = Some (CA_STATUS_OK, st (o ++ [SendThread (copy_data sent')]) (set_sentData (Some sent') D))) as E; [|by step E].
  unfold CAProcessNextStep, CASendBlockMessage. step (run_lift _ _ _ (reads_type Hp)). cbn beta iota.
  step (run_get (c:=c) Hat o D Hid). step (run_dataset (c:=c) Hat o D Hid). rewrite Hs. cbn beta iota.
  step (run_lift _ _ _ (reads_code Hp : udp_code (hdr pdu) = Some code)).
  step (run_lift _ _ _ (reads_id Hp)). cbv zeta. rewrite Hm, Hr, bool_decide_false by done.
  match goal with |- (?x ≫= _) _ = _ => assert (x (st o D) = Some (sent', st o D)) as E by done end.
  step E. step (run_assign (c:=c) Hat o D _). apply (send_ok _ _ c); [done|].
  unfold data_ok in *. by rewrite Hr in Hok.
Qed.

(** The number of the next block, with the same block size. *)
Lemma advance_option o D pdu ty code mid tok os d s k : reads pdu ty code mid tok os d ->
  CA_RESPONSE_CODE code = CA_CONTINUE -> is_method code = false -> num (block1 D) = k -> szx (block1 D) = s ->
  0 <= k < 2 ^ 20 - 1 ->
  CAUpdateBlockOptionItems p pdu {| num := k; m := 1; szx := s |} COAP_OPTION_BLOCK1 CA_OPTION1_RESPONSE (st o D)
  = Some ((CA_STATUS_OK, {| num := k + 1; m := 1; szx := s |}), st o D).
Proof.
  intros Hp Hcode Hm Hk Hs Hk20. unfold CAUpdateBlockOptionItems. step (run_deref (c:=c) Hat o D).
  step (run_lift _ _ _ (reads_code Hp : udp_code (hdr pdu) = Some code)). cbv zeta. rewrite Hcode.
  change ((CA_REQUEST_ENTITY_INCOMPLETE =? CA_CONTINUE) || (CA_REQUEST_ENTITY_TOO_LARGE =? CA_CONTINUE)) with false.
  cbv iota. cbn [num]. rewrite Hk, Z.ltb_irrefl. unfold CANegotiateBlockSize. rewrite Hm, Hs.
  unfold add_num, with_num. cbn [num m szx]. rewrite wrap_small by lia.
  change (COAP_OPTION_BLOCK1 =? COAP_OPTION_BLOCK2) with false. change (COAP_OPTION_BLOCK1 =? COAP_OPTION_BLOCK1) with true.
  cbv iota. by rewrite Z.ltb_irrefl.
Qed.

Lemma client_advance {e} o D pdu rd ty code mid tok os d s k sent r dataLen proxyUri :
  bid = block_id tok e -> Z.of_nat (length bid) <= UINT8_MAX -> blockDataId D = bid ->
  reads pdu ty code mid tok os d -> CA_RESPONSE_CODE code = CA_CONTINUE -> is_method code = false ->
  message_type ty <> CA_MSG_CONFIRM -> num (block1 D) = k -> szx (block1 D) = s -> 0 <= k < 2 ^ 20 - 1 -> s <= 6 ->
  sentData D = Some sent -> requestInfo sent = Some r -> data_ok sent ->
  let sent' := set_requestInfo (Some (next_request ty r)) sent in
  CASetNextBlockOption1 pdu e rd {| num := k; m := 1; szx := s |} dataLen proxyUri (st o D)
  = Some (CA_STATUS_OK, st (o ++ [SendThread (copy_data sent')])
      (set_sentData (Some sent') (set_block1 {| num := k + 1; m := 1; szx := s |} (set_bd_type COAP_OPTION_BLOCK1 D)))).
Proof.
  intros Ebid Hlen Hid Hp Hcode Hm Hty Hk Hs Hk20 Hs6 Hsent Hreq Hok sent'. unfold CASetNextBlockOption1.
  step (packet_id e _ Hp (allocs_with_list c o _ Hc)). rewrite <- Ebid. cbn beta iota.
  destruct (Z.ltb_spec UINT8_MAX (Z.of_nat (length bid))); [lia|].
  step (exist_present (c:=c) Hat o D pdu e proxyUri COAP_OPTION_BLOCK1 Hid). cbn beta iota.
  step (run_lift _ _ _ (reads_code Hp : udp_code (hdr pdu) = Some code)). rewrite Hm, Hcode. cbv zeta. cbn [m].
  change (1 =? 0) with false. cbn [andb].
  step (advance_option o (set_bd_type COAP_OPTION_BLOCK1 D) pdu ty code mid tok os d s k Hp Hcode Hm Hk Hs Hk20).
  cbn beta iota. rewrite decide_True by done.
  assert (CAUpdateBlockData p {| num := k + 1; m := 1; szx := s |} COAP_OPTION_BLOCK1 (st o (set_bd_type COAP_OPTION_BLOCK1 D))
    = Some (CA_STATUS_OK, st o (set_block1 {| num := k + 1; m := 1; szx := s |} (set_bd_type COAP_OPTION_BLOCK1 D)))) as E.
  { unfold CAUpdateBlockData. cbn [szx]. destruct (Z.ltb_spec CA_BLOCK_SIZE_1024_BYTE s); [unfold CA_BLOCK_SIZE_1024_BYTE in *; lia|].
    by step (run_assign (c:=c) Hat o _ _). }
  unfold or_exit at 1. step E. rewrite decide_True by done.
  by rewrite (send_next _ _ pdu ty code mid tok os d rd sent r).
Qed.
End Answer.

(** a 2.31 that acknowledges block [k] with the client's block size makes the client send the stored request again,
    with a new message id, for block [k + 1]. *)
Theorem client_goes_on c l1 l2 p e D pdu rd ty code mid tok os d s k sent r dataLen proxyUri :
  ready c -> entry_at l1 l2 p (block_id tok e) -> dataList c = Some (l1 ++ (p, D) :: l2) ->
  blockDataId D = block_id tok e -> Z.of_nat (length (block_id tok e)) <= UINT8_MAX ->
  reads pdu ty code mid tok os d -> CA_RESPONSE_CODE code = CA_CONTINUE -> message_type ty <> CA_MSG_CONFIRM ->
  value_of COAP_OPTION_BLOCK1 os = Some (block_bytes {| num := k; m := 1; szx := s |}) ->
  value_of COAP_OPTION_BLOCK2 os = None -> no_alias COAP_OPTION_BLOCK1 os -> no_alias COAP_OPTION_BLOCK2 os ->
  num (block1 D) = k -> szx (block1 D) = s -> 0 <= k < 2 ^ 20 - 1 -> 0 <= s <= CA_BLOCK_SIZE_1024_BYTE ->
  sentData D = Some sent -> requestInfo sent = Some r -> data_ok sent ->
  let sent' := set_requestInfo (Some (next_request ty r)) sent in
  CAReceiveBlockWiseData pdu e rd dataLen proxyUri c = Some ((CA_STATUS_OK, rd),
    set_dataList (Some (l1 ++ (p, set_sentData (Some sent')
        (set_block1 {| num := k + 1; m := 1; szx := s |} (set_bd_type COAP_OPTION_BLOCK1 D))) :: l2))
      (set_out (out c ++ [SendThread (copy_data sent')]) c)).
Proof.
  intros Hc Hat Hl Hid Hlen Hp Hcode Hty Hb1 Hb2 A1 A2 Hk Hs Hk20 Hs6 Hsent Hreq Hok sent'.
  destruct (code_continue _ Hcode) as [Hm Hne]. unfold CA_BLOCK_SIZE_1024_BYTE in *.
  assert (block_ok {| num := k; m := 1; szx := s |}) as Hbok by (unfold block_ok; cbn; lia).
  rewrite (with_list_self c _ Hl) at 1. unfold CAReceiveBlockWiseData.
  step (run_lift _ _ _ (reads_code Hp : udp_code (hdr pdu) = Some code)).
  destruct (Z.eqb_spec code CA_EMPTY); [done|].
  step (run_lift _ _ _ (get_block_present Hp _ COAP_OPTION_BLOCK1 A1 ltac:(done) Hbok Hb1)). cbn beta iota.
  match goal with |- (?x ≫= _) _ = _ => assert (x (with_list c (out c) (l1 ++ (p, D) :: l2))
    = Some (CA_STATUS_OK, with_list c (out c ++ [SendThread (copy_data sent')])
        (l1 ++ (p, set_sentData (Some sent') (set_block1 {| num := k + 1; m := 1; szx := s |}
          (set_bd_type COAP_OPTION_BLOCK1 D))) :: l2))) as E end.
  { apply (client_advance Hc Hat (out c) D pdu rd ty code mid tok os d s k sent r); done || lia. }
  step E. rewrite decide_False by (intros Hn; by apply Hn).
  destruct (get_block_absent Hp COAP_OPTION_BLOCK2 A2 ltac:(done) Hb2) as [b2 Eb2].
  step (run_lift _ _ _ Eb2). cbn beta iota. step (run_ret _ _).
  rewrite decide_False by (intros Hn; by apply Hn). done.
Qed.

(** ** A smaller block size *)

(** when the server answers block [k] with a smaller block size, the number the client goes on with is the one
    behind the bytes it has sent for block 0 alone; later blocks are sent from too small an offset. *)
Theorem negotiated_offset_iff_first D k mm s code :
  let own := szx (block1 D) in
  is_method code = false -> 0 <= s < own -> own <= CA_BLOCK_SIZE_1024_BYTE -> 0 <= k -> k + 1 + 64 < 2 ^ 20 ->
  exists b, CANegotiateBlockSize D {| num := k + 1; m := mm; szx := s |} code COAP_OPTION_BLOCK1 = (CA_STATUS_OK, b) /\
    szx b = s /\ (BLOCK_SIZE s * num b = BLOCK_SIZE own * (k + 1) <-> k = 0).
Proof.
  intros own Hm Hs Ho Hk Hk20. unfold CA_BLOCK_SIZE_1024_BYTE in *. unfold CANegotiateBlockSize. rewrite Hm. fold own.
  change (COAP_OPTION_BLOCK1 =? COAP_OPTION_BLOCK2) with false. change (COAP_OPTION_BLOCK1 =? COAP_OPTION_BLOCK1) with true.
  cbn [szx]. cbv iota zeta. destruct (Z.ltb_spec s own); [|lia]. eexists. split; [reflexivity|]. split; [done|].
  cbn [add_num with_num num].
  pose proof (BLOCK_SIZE_pos s ltac:(lia)) as Hpos.
  assert (BLOCK_SIZE own = BLOCK_SIZE s * 2 ^ (own - s)) as E.
  { unfold BLOCK_SIZE. rewrite !Z.shiftl_1_l, <- Z.pow_add_r by lia. f_equal. lia. }
  assert (2 <= 2 ^ (own - s) <= 64) as Hq.
  { split; [change 2 with (2 ^ 1) at 1|change 64 with (2 ^ 6)]; apply Z.pow_le_mono_r; lia. }
  set (q := 2 ^ (own - s)) in *. rewrite E.
  replace (BLOCK_SIZE s * q / BLOCK_SIZE s) with q by (rewrite Z.mul_comm, Z.div_mul; lia).
  rewrite wrap_small by lia. split; [|intros ->; lia]. intros Heq. nia.
Qed.

Lemma negotiated_offset_iff_first_witness : exists b,
  CANegotiateBlockSize (new_entry [] (answer_data ble_endpoint (first_answer []))) {| num := 4; m := 1; szx := 5 |} 95
    COAP_OPTION_BLOCK1 = (CA_STATUS_OK, b) /\ szx b = 5 /\ (BLOCK_SIZE 5 * num b = BLOCK_SIZE 6 * 4 <-> 3 = 0).
Proof.
  apply (negotiated_offset_iff_first (new_entry [] (answer_data ble_endpoint (first_answer []))) 3 1 5 95);
    [done|simpl; unfold CA_DEFAULT_BLOCK_SIZE, CA_BLOCK_SIZE_1024_BYTE; lia..].
Defined.

(** ** A client to look at *)

Definition client_request : CAData_t := message_at ble_endpoint [7; 9] upload_bytes.

(** A client that sends [upload_bytes] in blocks of 16, before block [k]. *)
Definition client_entry (k : Z) : CABlockData_t := {|
  block1 := {| num := k; m := 1; szx := 0 |}; block2 := {| num := 0; m := 0; szx := CA_DEFAULT_BLOCK_SIZE |};
  bd_type := COAP_OPTION_BLOCK1; blockDataId := block_id [7; 9] ble_endpoint; sentData := Some client_request;
  bd_payload := None; payloadLength := 0; receivedPayloadLen := 0 |}.

Definition client_context (k : Z) : Ctx := set_funcs true true (set_dataList (Some [(1, client_entry k)]) g_context).

Definition started_at (ty code mid : Z) (tok : list Z) : coap_pdu_t :=
  let bs := header_bytes ty (Z.of_nat (length tok)) code mid ++ tok in {|
  max_size := COAP_MAX_PDU_SIZE; hdr := bs ++ replicate (Z.to_nat COAP_MAX_PDU_SIZE - length bs) 0; max_delta := 0;
  plength := Z.of_nat (length bs); pdata := None |}.

Lemma started_at_ok ty code mid tok : header_ok ty 0 code mid -> Z.of_nat (length tok) <= 8 ->
  started (started_at ty code mid tok) ty code mid tok.
Proof.
  intros Hh Ht. set (bs := header_bytes ty (Z.of_nat (length tok)) code mid ++ tok).
  assert (length bs = 4 + length tok)%nat as Hl by (unfold bs; by rewrite length_app).
  split; try done. split; try done; [by eexists|].
  change (COAP_MAX_PDU_SIZE = Z.of_nat (length (bs ++ replicate (Z.to_nat COAP_MAX_PDU_SIZE - length bs) 0))).
  rewrite length_app, length_replicate. unfold COAP_MAX_PDU_SIZE. lia.
Qed.

Lemma client_entry_at : entry_at [] [] 1 (block_id [7; 9] ble_endpoint).
Proof. split; constructor. Qed.

Lemma client_block_carries_witness :
  let b := sent_block 0 upload_bytes 1 in
  let os' := block_options COAP_OPTION_BLOCK1 COAP_OPTION_SIZE1 b upload_bytes [(COAP_OPTION_URI_PATH, [97])] in
  exists sent received,
    CAAddBlockOption1 (started_at 0 CA_PUT 501 [7; 9]) (req_info {| method := CA_PUT; req_isMulticast := false;
        req_info := set_payload (Some upload_bytes) 20 zero_info |}) 20 (block_id [7; 9] ble_endpoint)
      (Some <$> [(COAP_OPTION_URI_PATH, [97])]) (client_context 1)
    = Some ((CA_STATUS_OK, sent, Some <$> os'),
        set_dataList (Some [(1, set_block1 b (client_entry 1))]) (client_context 1)) /\
    CAParsePDU (packet sent) (Z.of_nat (length (packet sent))) ([] : list bool)
    = Some (Some (received, CA_RESPONSE_CODE CA_PUT), []) /\
    forall rd len, upload_data rd (block_slice 0 1 upload_bytes) ->
      carries [7; 9] 0 upload_bytes 1 (m b =? 0) {| pk_pdu := received; pk_message := rd; pk_len := len; pk_type := 0;
        pk_code := CA_PUT; pk_id := 501; pk_options := os' |}.
Proof.
  apply (client_block_carries (client_context 1) [] [] 1 ble_endpoint (client_entry 1) (started_at 0 CA_PUT 501 [7; 9])
    0 CA_PUT 501 [7; 9] (set_payload (Some upload_bytes) 20 zero_info) [(COAP_OPTION_URI_PATH, [97])] 0 1 upload_bytes []
    ltac:(by split) client_entry_at eq_refl eq_refl eq_refl eq_refl);
    [done|done|vm_compute; reflexivity|vm_compute; reflexivity|reflexivity|reflexivity
    |by apply started_at_ok| |vm_compute; intuition congruence|vm_compute; congruence|reflexivity].
  split; repeat constructor; vm_compute; congruence.
Defined.

(** The answer to the first block. *)
Definition continue_options : list hcoap_option :=
  [(COAP_OPTION_BLOCK1, block_bytes {| num := 0; m := 1; szx := 0 |})].

Lemma client_goes_on_witness :
  let sent' := set_requestInfo (next_request 2 <$> requestInfo client_request) client_request in
  CAReceiveBlockWiseData (packet_at 2 95 500 [7; 9] continue_options []) ble_endpoint zero_data 9 [] (client_context 0)
  = Some ((CA_STATUS_OK, zero_data),
      set_dataList (Some [(1, set_sentData (Some sent')
          (set_block1 {| num := 1; m := 1; szx := 0 |} (set_bd_type COAP_OPTION_BLOCK1 (client_entry 0))))])
        (set_out [SendThread (copy_data sent')] (client_context 0))).
Proof.
  eapply (client_goes_on (client_context 0) [] [] 1 ble_endpoint (client_entry 0) _ zero_data 2 95 500 [7; 9]
    continue_options [] 0 0 client_request _ 9 [] ltac:(by split) client_entry_at eq_refl eq_refl);
    [vm_compute; congruence|apply packet_at_reads; vm_compute; intuition congruence|reflexivity|done|reflexivity|reflexivity
    |repeat constructor; vm_compute; congruence..|done|done|done|done|reflexivity|reflexivity|apply message_at_ok].
Defined.
