(* ===== verification/Retransmission.v ===== *)
(** * Retransmission: confirmable messages until they are acknowledged

    Models [resource/csdk/connectivity/src/caretransmission.c] in its threaded
    build.  The context keeps a list of pointers to the messages waiting for an
    acknowledgement; the messages are in a heap, the list is any [PtrList].
    Each function runs under the context's mutex, so it is one step; the time
    read for the n-th message of a check is [now n].

    [tick] is the specification of one check for one message: resend and back
    off when its time is up, give up after the configured number of tries. *)
From S2P Require Import Prelude Chain UArrayList CaCommon ProtocolMessage.

(** ** Data *)

Definition DEFAULT_ACK_TIMEOUT_SEC : Z := 2.
Definition DEFAULT_RETRANSMISSION_COUNT : Z := 4.
Definition DEFAULT_RETRANSMISSION_TYPE : Z :=
  CA_ADAPTER_IP ||| CA_ADAPTER_RFCOMM_BTEDR ||| CA_ADAPTER_GATT_BTLE.
Definition USECS_PER_MSEC : Z := 1000.
Definition MSECS_PER_SEC : Z := 1000.

(** [rt_dataType] is [None] while it is 0, as in [CAData_t]. *)
Record CARetransmissionData_t := {
  timeStamp : Z;
  timeout : Z;
  triedCount : Z;
  messageId : Z;
  rt_dataType : option CADataType_t;
  rt_endpoint : option CAEndpoint_t;
  rt_pdu : option (list Z);
  rt_size : Z;
}.

Definition set_tried (now : Z) (d : CARetransmissionData_t) : CARetransmissionData_t := {|
  timeStamp := now; timeout := timeout d; triedCount := u8 (triedCount d + 1);
  messageId := messageId d; rt_dataType := rt_dataType d; rt_endpoint := rt_endpoint d;
  rt_pdu := rt_pdu d; rt_size := rt_size d |}.

Record CARetransmissionConfig_t := { supportType : Z; tryingCount : Z }.

(** What the module asks of the outside. *)
Inductive rt_event :=
| data_send (ep : option CAEndpoint_t) (pdu : option (list Z)) (size : Z) (ty : option CADataType_t)
| timeout_callback (ep : option CAEndpoint_t) (pdu : option (list Z)) (size : Z).

(** [randomValue] is the byte [OCGetRandomBytes] wrote, or 0 when it failed. *)
Definition CAGetTimeoutValue (randomValue : Z) : Z :=
  u64 (u64 (DEFAULT_ACK_TIMEOUT_SEC * MSECS_PER_SEC
            + (u64 (MSECS_PER_SEC * randomValue) >>> 8)) * MSECS_PER_SEC).

(** A shift by the width of the type or more is undefined. *)
Definition CACheckTimeout (currentTime : Z) (retData : CARetransmissionData_t) : ub bool :=
  let milliTimeoutValue := timeout retData / USECS_PER_MSEC in
  if triedCount retData <? 64 then
    let timeout := u64 (u64 (milliTimeoutValue <<< triedCount retData) * USECS_PER_MSEC) in
    Some (u64 (timeStamp retData + timeout) <=? currentTime)
  else None.

Section Retransmission.
Context {L : Type} `{PtrList L loc}.

#[local] Abbreviation rt_heap := (gmap loc CARetransmissionData_t).

(** The condition variable is left out; [threadPool], [rt_mutex],
    [dataSendMethod] and [timeoutCallback] are whether they are set. *)
Record CARetransmission_t := {
  threadPool : bool;
  rt_mutex : bool;
  dataSendMethod : bool;
  timeoutCallback : bool;
  config : CARetransmissionConfig_t;
  isStop : bool;
  dataList : option L;
}.

Definition set_list (l : L) (c : CARetransmission_t) : CARetransmission_t := {|
  threadPool := threadPool c; rt_mutex := rt_mutex c; dataSendMethod := dataSendMethod c;
  timeoutCallback := timeoutCallback c; config := config c; isStop := isStop c;
  dataList := Some l |}.

(** [add] is the result of [ca_thread_pool_add_task]. *)
Definition CARetransmissionStart (context : option CARetransmission_t) (add : CAResult_t)
    : CAResult_t :=
  match context with
  | None => CA_STATUS_INVALID_PARAM
  | Some c => if negb (threadPool c) then CA_STATUS_INVALID_PARAM else add
  end.

(** [created] is what [u_arraylist_create] returns; the mutex can be made. *)
Definition CARetransmissionInitialize (context : bool) (handle send callback : bool)
    (cfg : option CARetransmissionConfig_t) (created : option L)
    : CAResult_t * option CARetransmission_t :=
  if negb context then (CA_STATUS_INVALID_PARAM, None)
  else if negb handle then (CA_STATUS_INVALID_PARAM, None)
  else (CA_STATUS_OK, Some {|
    threadPool := handle; rt_mutex := true; dataSendMethod := send; timeoutCallback := callback;
    config := default {| supportType := DEFAULT_RETRANSMISSION_TYPE;
                         tryingCount := DEFAULT_RETRANSMISSION_COUNT |} cfg;
    isStop := false; dataList := created |}).

(** ** The periodic check *)

(** Steps 2 and 3: resend and count. *)
Definition resend_if_due (c : CARetransmission_t) (currentTime : Z) (d : CARetransmissionData_t)
    : ub (CARetransmissionData_t * list rt_event) :=
  due ← CACheckTimeout currentTime d;
  Some (if (due : bool) then
    (set_tried currentTime d,
     if dataSendMethod c then [data_send (rt_endpoint d) (rt_pdu d) (rt_size d) (rt_dataType d)]
     else [])
  else (d, [])).

(** The loop over the list from [i], [n] readings of the clock so far. *)
Fixpoint check_loop (c : CARetransmission_t) (now : nat -> Z) (lst : L) (h : rt_heap)
    (i len : Z) (n fuel : nat) : ub (L * rt_heap * list rt_event) :=
  match fuel with
  | O => None
  | S fuel =>
      if i <? len then
        p ← pl_get lst i;
        match p with
        | None => check_loop c now lst h (u64 (i + 1)) len n fuel
        | Some p =>
            d ← h !! p;
            '(d, ev) ← resend_if_due c (now n) d;
            let h := <[p := d]> h in
            if tryingCount (config c) <=? triedCount d then
              '(removedData, lst) ← pl_remove lst i;
              match removedData with
              | None => Some (lst, h, ev)
              | Some r =>
                  rd ← h !! r;
                  let ev' := if timeoutCallback c
                    then [timeout_callback (rt_endpoint rd) (rt_pdu rd) (rt_size rd)] else [] in
                  '(lst, h, evs) ← check_loop c now lst (delete r h) (u64 (u64 (i - 1) + 1))
                                     (pl_length lst) (S n) fuel;
                  Some (lst, h, ev ++ ev' ++ evs)
              end
            else
              '(lst, h, evs) ← check_loop c now lst h (u64 (i + 1)) len (S n) fuel;
              Some (lst, h, ev ++ evs)
        end
      else Some (lst, h, [])
  end.

(** Every round moves [i] up or shortens the list. *)
Definition CACheckRetransmissionList (context : option CARetransmission_t) (now : nat -> Z)
    (h : rt_heap) : ub (option CARetransmission_t * rt_heap * list rt_event) :=
  match context with
  | None => Some (None, h, [])
  | Some c =>
      match dataList c with
      | None => Some (Some c, h, [])
      | Some lst =>
          let len := pl_length lst in
          '(lst, h, evs) ← check_loop c now lst h 0 len 0 (S (Z.to_nat len));
          Some (Some (set_list lst c), h, evs)
      end
  end.

(** One round of the thread's [while]: the stop flag is read again after the
    wait, and a stopped thread does not look at the list. *)
Definition CARetransmissionBaseRoutine (context : option CARetransmission_t) (now : nat -> Z)
    (h : rt_heap) : ub (option CARetransmission_t * rt_heap * list rt_event) :=
  match context with
  | None => Some (None, h, [])
  | Some c =>
      if isStop c then Some (Some c, h, []) else CACheckRetransmissionList (Some c) now h
  end.

(** ** Sending and receiving *)

(** The first message from [i] with this id and adapter. *)
Fixpoint find_message (lst : L) (h : rt_heap) (id adapter_ i : Z) (n : nat)
    : ub (option (loc * Z)) :=
  match n with
  | O => Some None
  | S n =>
      let continue := find_message lst h id adapter_ (i + 1) n in
      p ← pl_get lst i;
      match p with
      | None => continue
      | Some p =>
          d ← h !! p;
          match rt_endpoint d with
          | None => continue
          | Some e =>
              if (messageId d =? id) && (adapter e =? adapter_) then Some (Some (p, i))
              else continue
          end
      end
  end.

(** Which allocations succeed. *)
Record rt_alloc := { al_data : bool; al_pdu : bool; al_endpoint : bool; al_list : bool }.

Definition CARetransmissionSentData (al : rt_alloc) (now randomValue : Z)
    (context : option CARetransmission_t) (endpoint : option CAEndpoint_t)
    (dataType : option CADataType_t) (pdu : option (list Z)) (size : Z) (h : rt_heap)
    : ub (CAResult_t * option CARetransmission_t * rt_heap) :=
  match context, endpoint, pdu with
  | Some c, Some ep, Some b =>
      if supportType (config c) &&& adapter ep =? 0 then Some (CA_NOT_SUPPORTED, Some c, h)
      else
        type ← CAGetMessageTypeFromPduBinaryData pdu size;
        id ← CAGetMessageIdFromPduBinaryData pdu size;
        if decide (CA_MSG_CONFIRM <> type) then Some (CA_NOT_SUPPORTED, Some c, h)
        else if negb (al_data al) then Some (CA_MEMORY_ALLOC_FAILED, Some c, h)
        else if negb (al_pdu al) then Some (CA_MEMORY_ALLOC_FAILED, Some c, h)
        else
          pduData ← read_at b 0 size;
          if negb (al_endpoint al) then Some (CA_MEMORY_ALLOC_FAILED, Some c, h)
          else
            let retData := {| timeStamp := now; timeout := CAGetTimeoutValue randomValue;
              triedCount := 0; messageId := id; rt_dataType := dataType;
              rt_endpoint := Some ep; rt_pdu := Some pduData; rt_size := size |} in
            match dataList c with
            | None => Some (CA_STATUS_OK, Some c, h)
            | Some lst =>
                dup ← find_message lst h id (adapter ep) 0 (Z.to_nat (pl_length lst));
                match dup with
                | Some _ => Some (CA_STATUS_FAILED, Some c, h)
                | None =>
                    let p := fresh (dom h) in
                    '(_, lst) ← pl_add (al_list al) lst (Some p);
                    Some (CA_STATUS_OK, Some (set_list lst c), <[p := retData]> h)
                end
            end
  | _, _, _ => Some (CA_STATUS_INVALID_PARAM, context, h)
  end.

(** [out] is [retransmissionPdu]: [None] for NULL, else the value of
    [*retransmissionPdu]; [okc] whether the copy can be allocated. *)
Definition CARetransmissionReceivedData (okc : bool) (context : option CARetransmission_t)
    (endpoint : option CAEndpoint_t) (pdu : option (list Z)) (size : Z)
    (out : option (option (list Z))) (h : rt_heap)
    : ub (CAResult_t * option CARetransmission_t * rt_heap * option (option (list Z))) :=
  match context, endpoint, pdu, out with
  | Some c, Some ep, Some _, Some _ =>
      if supportType (config c) &&& adapter ep =? 0 then Some (CA_STATUS_OK, Some c, h, out)
      else
        type ← CAGetMessageTypeFromPduBinaryData pdu size;
        id ← CAGetMessageIdFromPduBinaryData pdu size;
        code ← CAGetCodeFromPduBinaryData pdu size;
        if (negb (bool_decide (CA_MSG_ACKNOWLEDGE = type)) && negb (bool_decide (CA_MSG_RESET = type)))
           || (bool_decide (CA_MSG_RESET = type) && negb (CA_EMPTY =? code))
        then Some (CA_STATUS_OK, Some c, h, out)
        else
          match dataList c with
          | None => Some (CA_STATUS_OK, Some c, h, out)
          | Some lst =>
              found ← find_message lst h id (adapter ep) 0 (Z.to_nat (pl_length lst));
              match found with
              | None => Some (CA_STATUS_OK, Some c, h, out)
              | Some (p, i) =>
                  d ← h !! p;
                  let remove (out : option (option (list Z))) :=
                    '(removedData, lst) ← pl_remove lst i;
                    match removedData with
                    | None => Some (CA_STATUS_FAILED, Some (set_list lst c), h, out)
                    | Some r =>
                        _ ← h !! r;
                        Some (CA_STATUS_OK, Some (set_list lst c), delete r h, out)
                    end in
                  if CA_EMPTY =? code then
                    match rt_pdu d with
                    | None => Some (CA_STATUS_FAILED, Some c, delete p h, out)
                    | Some b =>
                        if negb okc || (rt_size d =? 0)
                        then Some (CA_MEMORY_ALLOC_FAILED, Some c, delete p h, Some None)
                        else copy ← read_at b 0 (rt_size d); remove (Some (Some copy))
                    end
                  else remove out
              end
          end
  | _, _, _, _ => Some (CA_STATUS_INVALID_PARAM, context, h, out)
  end.

(** Sets the stop flag; the thread's answer to the signal is not modelled. *)
Definition CARetransmissionStop (context : option CARetransmission_t)
    : CAResult_t * option CARetransmission_t :=
  match context with
  | None => (CA_STATUS_INVALID_PARAM, None)
  | Some c => (CA_STATUS_OK, Some {|
      threadPool := threadPool c; rt_mutex := rt_mutex c; dataSendMethod := dataSendMethod c;
      timeoutCallback := timeoutCallback c; config := config c; isStop := true;
      dataList := dataList c |})
  end.

(** Frees the messages the list points to from [i], [n] left. *)
Fixpoint free_messages (lst : L) (h : rt_heap) (i : Z) (n : nat) : ub rt_heap :=
  match n with
  | O => Some h
  | S n =>
      p ← pl_get lst i;
      match p with
      | None => free_messages lst h (i + 1) n
      | Some p => _ ← h !! p; free_messages lst (delete p h) (i + 1) n
      end
  end.

Definition CARetransmissionDestroy (context : option CARetransmission_t) (h : rt_heap)
    : ub (CAResult_t * option CARetransmission_t * rt_heap) :=
  match context with
  | None => Some (CA_STATUS_INVALID_PARAM, None, h)
  | Some c =>
      h ← match dataList c with
          | None => Some h
          | Some lst => free_messages lst h 0 (Z.to_nat (pl_length lst))
          end;
      Some (CA_STATUS_OK, Some {|
        threadPool := threadPool c; rt_mutex := false; dataSendMethod := dataSendMethod c;
        timeoutCallback := timeoutCallback c; config := config c; isStop := isStop c;
        dataList := None |}, h)
  end.

(** ** One check, specified *)

(** What one check at time [now] makes of a message: the message, if it stays,
    and the calls. *)
Definition tick (c : CARetransmission_t) (now : Z) (d : CARetransmissionData_t)
    : option CARetransmissionData_t * list rt_event :=
  let due := timeStamp d + timeout d / 1000 * 2 ^ triedCount d * 1000 <=? now in
  let d' := if due then set_tried now d else d in
  let sends := if due && dataSendMethod c
    then [data_send (rt_endpoint d) (rt_pdu d) (rt_size d) (rt_dataType d)] else [] in
  if tryingCount (config c) <=? triedCount d' then
    (None, sends ++ if timeoutCallback c
       then [timeout_callback (rt_endpoint d) (rt_pdu d) (rt_size d)] else [])
  else (Some d', sends).

Fixpoint tick_all (c : CARetransmission_t) (now : nat -> Z) (n : nat)
    (xs : list (loc * CARetransmissionData_t))
    : list (loc * CARetransmissionData_t) * list rt_event :=
  match xs with
  | [] => ([], [])
  | (p, d) :: xs =>
      let '(r, ev) := tick c (now n) d in
      let '(rs, evs) := tick_all c now (S n) xs in
      (match r with Some d' => (p, d') :: rs | None => rs end, ev ++ evs)
  end.

(** The times fit their 64 bits: no wrap-around. *)
Definition times_fit (d : CARetransmissionData_t) : Prop :=
  0 <= timeStamp d /\ 0 <= timeout d /\ 0 <= triedCount d < 64 /\
  timeStamp d + timeout d * 2 ^ triedCount d < 2 ^ 64.

Lemma CACheckTimeout_spec now d : times_fit d ->
  CACheckTimeout now d
    = Some (timeStamp d + timeout d / 1000 * 2 ^ triedCount d * 1000 <=? now).
Proof.
  intros (H1 & H2 & H3 & H4). unfold CACheckTimeout. change USECS_PER_MSEC with 1000.
  rewrite (proj2 (Z.ltb_lt _ _)) by lia. rewrite Z.shiftl_mul_pow2 by lia.
  set (k := 2 ^ triedCount d) in *. assert (0 < k) by (apply Z.pow_pos_nonneg; lia).
  set (q := timeout d / 1000). assert (0 <= q * 1000 <= timeout d)
    by (unfold q; Z.div_mod_to_equations; lia).
  assert (0 <= q * k * 1000 <= timeout d * k) by nia.
  rewrite (wrap_small 64 (q * k)) by lia. rewrite (wrap_small 64 (q * k * 1000)) by lia.
  by rewrite wrap_small by lia.
Qed.

Lemma resend_if_due_spec c now d : times_fit d ->
  exists d' ev, resend_if_due c now d = Some (d', ev) /\
    tick c now d = (if tryingCount (config c) <=? triedCount d' then
      (None, ev ++ if timeoutCallback c
         then [timeout_callback (rt_endpoint d') (rt_pdu d') (rt_size d')] else [])
    else (Some d', ev)).
Proof.
  intros Hd. unfold resend_if_due, tick. rewrite CACheckTimeout_spec by done.
  cbn [mbind option_bind]. destruct (_ <=? now); do 2 eexists; by split.
Qed.

(** The rest [zs] of the list, after [ys]. *)
Lemma check_loop_spec c now lst h ys zs n fuel :
  cells lst h (ys ++ zs) -> Forall (fun x => times_fit x.2) zs -> (length zs < fuel)%nat ->
  exists lst' h', check_loop c now lst h (Z.of_nat (length ys)) (Z.of_nat (length (ys ++ zs))) n fuel
      = Some (lst', h', snd (tick_all c now n zs)) /\
    cells lst' h' (ys ++ fst (tick_all c now n zs)).
Proof.
  revert lst h ys n fuel. induction zs as [|[p d] zs IH]; intros lst h ys n fuel Hc Ht Hf;
    (destruct fuel as [|fuel]; [simpl in Hf; lia|]); cbn [check_loop tick_all].
  { rewrite app_nil_r, Z.ltb_irrefl. do 2 eexists. rewrite app_nil_r in Hc |- *. by split. }
  apply Forall_cons in Ht as [Hd Ht]. simpl in Hd, Hf.
  rewrite (proj2 (Z.ltb_lt _ _)) by (rewrite length_app; simpl; lia).
  destruct (cells_get _ _ _ _ _ _ _ Hc eq_refl) as [-> Hp]. cbn [mbind option_bind].
  rewrite Hp. cbn [mbind option_bind].
  destruct (resend_if_due_spec c (now n) d Hd) as (d' & ev & -> & ->). cbn [mbind option_bind].
  pose proof (cells_update _ _ _ _ _ d' _ Hc) as Hc1.
  pose proof (cells_size _ _ _ Hc) as Hsz. rewrite length_app in Hsz. simpl in Hsz.
  destruct (tryingCount (config c) <=? triedCount d').
  - destruct (cells_remove _ _ _ _ _ _ _ Hc1 eq_refl) as (lst1 & -> & Hc2).
    cbn [mbind option_bind]. rewrite lookup_insert_eq. cbn [mbind option_bind].
    rewrite wrap_sub_add, wrap_small by lia. rewrite (cells_length _ _ _ Hc2).
    destruct (IH lst1 _ ys (S n) fuel Hc2 Ht) as (lst2 & h2 & -> & Hc3); [lia|].
    destruct (tick_all c now (S n) zs) as [rs evs]. cbn [mbind option_bind fst snd].
    do 2 eexists. split; [by rewrite <- app_assoc|done].
  - rewrite wrap_small by lia.
    replace (Z.of_nat (length ys) + 1) with (Z.of_nat (length (ys ++ [(p, d')])))
      by (rewrite length_app; simpl; lia).
    replace (ys ++ (p, d) :: zs) with (ys ++ [(p, d)] ++ zs) by done.
    replace (length (ys ++ [(p, d)] ++ zs)) with (length ((ys ++ [(p, d')]) ++ zs))
      by (rewrite !length_app; simpl; lia).
    replace (ys ++ (p, d') :: zs) with ((ys ++ [(p, d')]) ++ zs) in Hc1 by by rewrite <- app_assoc.
    destruct (IH lst _ (ys ++ [(p, d')]) (S n) fuel Hc1 Ht) as (lst2 & h2 & -> & Hc3); [lia|].
    destruct (tick_all c now (S n) zs) as [rs evs]. cbn [mbind option_bind fst snd].
    do 2 eexists. split; [done|]. by rewrite <- app_assoc in Hc3.
Qed.

(** The context's list holds the messages. *)
Definition context_holds (c : CARetransmission_t) (h : rt_heap)
    (xs : list (loc * CARetransmissionData_t)) : Prop :=
  exists lst, dataList c = Some lst /\ cells lst h xs.

Definition same_settings (c c' : CARetransmission_t) : Prop :=
  config c' = config c /\ dataSendMethod c' = dataSendMethod c /\
  timeoutCallback c' = timeoutCallback c /\ isStop c' = isStop c.

Lemma check_list_spec c now h xs :
  context_holds c h xs -> Forall (fun x => times_fit x.2) xs ->
  exists c' h', CACheckRetransmissionList (Some c) now h
      = Some (Some c', h', snd (tick_all c now 0 xs)) /\
    context_holds c' h' (fst (tick_all c now 0 xs)) /\ same_settings c c'.
Proof.
  intros (lst & Hl & Hc) Ht. unfold CACheckRetransmissionList. rewrite Hl.
  rewrite (cells_length _ _ _ Hc), Nat2Z.id.
  destruct (check_loop_spec c now lst h [] xs 0 (S (length xs)) Hc Ht) as (lst' & h' & Hrun & Hc');
    [lia|]. cbn [length app] in Hrun, Hc'. change (Z.of_nat 0) with 0 in Hrun. rewrite Hrun. cbn [mbind option_bind].
  do 2 eexists. split; [done|]. split; [by exists lst'|done].
Qed.

(** ** The life of a message *)

(** Checks at the times [ts]: every call with the time of its check. *)
Fixpoint run_checks (c : CARetransmission_t) (ts : list Z) (h : rt_heap)
    : ub (CARetransmission_t * rt_heap * list (Z * rt_event)) :=
  match ts with
  | [] => Some (c, h, [])
  | t :: ts =>
      '(c, h, ev) ← CACheckRetransmissionList (Some c) (fun _ => t) h;
      c ← c;
      '(c, h, evs) ← run_checks c ts h;
      Some (c, h, ((fun e => (t, e)) <$> ev) ++ evs)
  end.

(** The checks that resend a message last sent at [prev], with [n] tries left
    and [k] done: each the first one [unit * 2 ^ k] after the one before. *)
Fixpoint due_times (unit prev : Z) (k : nat) (n : nat) (ts : list Z) : list Z :=
  match ts, n with
  | t :: ts, S n' =>
      if prev + unit * 2 ^ Z.of_nat k <=? t then t :: due_times unit t (S k) n' ts
      else due_times unit prev k n ts
  | _, _ => []
  end.

Lemma due_times_length unit prev k n ts : (length (due_times unit prev k n ts) <= n)%nat.
Proof.
  revert prev k n. induction ts as [|t ts IH]; intros prev k [|n]; simpl; try lia.
  destruct (_ <=? t); [simpl; specialize (IH t (S k) n)|specialize (IH prev k (S n))]; lia.
Qed.

(** Successive resends are at least the doubled time apart. *)
Fixpoint spaced (unit prev : Z) (k : nat) (sends : list Z) : Prop :=
  match sends with
  | [] => True
  | t :: sends => prev + unit * 2 ^ Z.of_nat k <= t /\ spaced unit t (S k) sends
  end.

Lemma due_times_spaced unit prev k n ts : spaced unit prev k (due_times unit prev k n ts).
Proof.
  revert prev k n. induction ts as [|t ts IH]; intros prev k [|n]; simpl; try done.
  destruct (Z.leb_spec (prev + unit * 2 ^ Z.of_nat k) t); [by split|done].
Qed.

(** Every check at least [gap] after the one before. *)
Fixpoint apart (gap prev : Z) (ts : list Z) : Prop :=
  match ts with
  | [] => True
  | t :: ts => prev + gap <= t /\ apart gap t ts
  end.

(** With [n] checks far enough apart, every try is used. *)
Lemma due_times_all unit prev k n ts : 0 <= unit -> (n <= length ts)%nat ->
  apart (unit * 2 ^ Z.of_nat (k + n)) prev ts ->
  length (due_times unit prev k n ts) = n.
Proof.
  intros Hu. revert prev k n. induction ts as [|t ts IH]; intros prev k [|n] Hl Ha; simpl in *; try lia.
  destruct Ha as [Ht Ha].
  assert (2 ^ Z.of_nat k <= 2 ^ Z.of_nat (k + S n)) by (apply Z.pow_le_mono_r; lia).
  rewrite (proj2 (Z.leb_le _ _)) by nia. simpl. f_equal. apply IH; [lia|].
  by replace (S k + n)%nat with (k + S n)%nat by lia.
Qed.

(** The events of one message over its life. *)
Definition life_events (d : CARetransmissionData_t) (n : nat) (sends : list Z)
    : list (Z * rt_event) :=
  ((fun t => (t, data_send (rt_endpoint d) (rt_pdu d) (rt_size d) (rt_dataType d))) <$> sends)
  ++ (if decide (length sends = n)
      then [(List.last sends 0, timeout_callback (rt_endpoint d) (rt_pdu d) (rt_size d))] else []).

(** The message after the resends at [sends]. *)
Definition resent (d : CARetransmissionData_t) (sends : list Z) : CARetransmissionData_t := {|
  timeStamp := List.last sends (timeStamp d); timeout := timeout d;
  triedCount := triedCount d + Z.of_nat (length sends); messageId := messageId d;
  rt_dataType := rt_dataType d; rt_endpoint := rt_endpoint d; rt_pdu := rt_pdu d;
  rt_size := rt_size d |}.

Lemma last_cons_default (t : Z) l a b : l <> [] -> List.last (t :: l) a = List.last l b.
Proof.
  revert t a. induction l as [|x l IH]; intros t a Hl; [done|].
  destruct l as [|y l]; [done|]. change (List.last (x :: y :: l) a = List.last (x :: y :: l) b).
  clear. revert x y. induction l as [|z l IH]; intros x y; [done|]. apply (IH y z).
Qed.

Lemma last_cons_self (t : Z) l a : List.last (t :: l) a = List.last l t.
Proof.
  destruct l as [|x l]; [done|]. change (List.last (x :: l) a = List.last (x :: l) t).
  revert x. induction l as [|y l IH]; intros x; [done|]. apply IH.
Qed.

Lemma life_events_cons d d' n t sends :
  rt_endpoint d' = rt_endpoint d -> rt_pdu d' = rt_pdu d -> rt_size d' = rt_size d ->
  rt_dataType d' = rt_dataType d ->
  life_events d (S (S n)) (t :: sends)
    = (t, data_send (rt_endpoint d) (rt_pdu d) (rt_size d) (rt_dataType d)) :: life_events d' (S n) sends.
Proof.
  intros E1 E2 E3 E4. unfold life_events. rewrite E1, E2, E3, E4. cbn [fmap list_fmap app length].
  f_equal. destruct (decide (length sends = S n)) as [E|E].
  - rewrite decide_True by lia. rewrite (last_cons_default t sends 0 0); [done|].
    by intros ->.
  - by rewrite decide_False by lia.
Qed.

(** With nothing to resend nothing happens. *)
Lemma run_checks_empty c h ts : context_holds c h [] ->
  exists c' h', run_checks c ts h = Some (c', h', []) /\ context_holds c' h' [].
Proof.
  revert c h. induction ts as [|t ts IH]; intros c h Hc; cbn [run_checks]; [by exists c, h|].
  destruct (check_list_spec c (fun _ => t) h [] Hc) as (c1 & h1 & -> & Hc1 & _); [constructor|].
  cbn [mbind option_bind]. destruct (IH c1 h1 Hc1) as (c2 & h2 & -> & Hc2).
  by exists c2, h2.
Qed.

(** One check of a message with [n + 1] tries left. *)
Lemma tick_life c t d n : dataSendMethod c = true -> timeoutCallback c = true ->
  0 <= triedCount d < 64 -> tryingCount (config c) = triedCount d + Z.of_nat (S n) ->
  let send := data_send (rt_endpoint d) (rt_pdu d) (rt_size d) (rt_dataType d) in
  tick c t d
    = if timeStamp d + timeout d / 1000 * 1000 * 2 ^ Z.of_nat (Z.to_nat (triedCount d)) <=? t then
        if decide (n = 0%nat)
        then (None, [send; timeout_callback (rt_endpoint d) (rt_pdu d) (rt_size d)])
        else (Some (set_tried t d), [send])
      else (Some d, []).
Proof.
  intros Hs Hcb Htr Hmax send. unfold tick. rewrite Hs, Hcb, Z2Nat.id by lia.
  replace (timeout d / 1000 * 1000 * 2 ^ triedCount d)
    with (timeout d / 1000 * 2 ^ triedCount d * 1000) by ring.
  destruct (_ <=? t); cbn [andb]; [|by rewrite (proj2 (Z.leb_gt _ _)) by lia].
  cbn [set_tried triedCount]. rewrite (wrap_small 8) by lia.
  case_decide; [by rewrite (proj2 (Z.leb_le _ _)) by lia|by rewrite (proj2 (Z.leb_gt _ _)) by lia].
Qed.

Lemma resent_cons d t sends : 0 <= triedCount d < 64 ->
  resent (set_tried t d) sends = resent d (t :: sends).
Proof.
  intros Hd. unfold resent. rewrite last_cons_self. cbn [set_tried timeStamp triedCount timeout
    messageId rt_dataType rt_endpoint rt_pdu rt_size length].
  rewrite wrap_small by lia. by replace (triedCount d + 1 + Z.of_nat (length sends))
    with (triedCount d + Z.of_nat (S (length sends))) by lia.
Qed.

(** A message with [n + 1] tries left. *)
Lemma run_checks_life c h p d n ts :
  context_holds c h [(p, d)] -> dataSendMethod c = true -> timeoutCallback c = true ->
  0 <= timeout d -> 0 <= triedCount d ->
  tryingCount (config c) = triedCount d + Z.of_nat (S n) -> tryingCount (config c) <= 64 ->
  Forall (fun t => 0 <= t /\ t + timeout d * 2 ^ tryingCount (config c) < 2 ^ 64) (timeStamp d :: ts) ->
  let sends := due_times (timeout d / 1000 * 1000) (timeStamp d) (Z.to_nat (triedCount d)) (S n) ts in
  exists c' h', run_checks c ts h = Some (c', h', life_events d (S n) sends) /\
    context_holds c' h' (if decide (length sends = S n) then [] else [(p, resent d sends)]).
Proof.
  revert c h d n. induction ts as [|t ts IH];
    intros c h d n Hc Hs Hcb Hto Htr Hmax H64 Hts; cbn [run_checks due_times].
  { cbn [length]. rewrite decide_False by done. exists c, h. split; [done|].
    unfold resent. simpl. rewrite Z.add_0_r. by destruct d. }
  pose proof Hts as [[Ht0 Hfit] [[Ht Hfit'] Hts']%Forall_cons]%Forall_cons.
  assert (2 ^ triedCount d <= 2 ^ tryingCount (config c)) by (apply Z.pow_le_mono_r; lia).
  assert (times_fit d) as Hd by (unfold times_fit; split_and!; try lia; nia).
  destruct (check_list_spec c (fun _ => t) h [(p, d)] Hc) as (c1 & h1 & -> & Hc1 & Hsame);
    [by apply Forall_singleton|].
  destruct Hsame as (Hcfg & Hs1 & Hcb1 & _). cbn [mbind option_bind tick_all] in Hc1 |- *.
  rewrite (tick_life c t d n Hs Hcb ltac:(lia) Hmax) in Hc1 |- *.
  destruct (timeStamp d + _ <=? t); [case_decide; [subst n|]|]; cbn [fst snd] in Hc1 |- *.
  - destruct (run_checks_empty c1 h1 ts Hc1) as (c2 & h2 & -> & Hc2). cbn [mbind option_bind].
    replace (due_times (timeout d / 1000 * 1000) t (S (Z.to_nat (triedCount d))) 0 ts)
      with (@nil Z) by by destruct ts.
    exists c2, h2. by split.
  - destruct n as [|n]; [done|].
    assert (Htr1 : triedCount (set_tried t d) = triedCount d + 1)
      by (simpl; rewrite wrap_small by lia; lia).
    destruct (IH c1 h1 (set_tried t d) n) as (c2 & h2 & Hrun & Hc2);
      rewrite ?Hcfg, ?Htr1; try done; try congruence; try lia; [by constructor|].
    rewrite Htr1 in Hrun, Hc2. cbn [set_tried timeout timeStamp] in Hrun, Hc2.
    replace (Z.to_nat (triedCount d + 1)) with (S (Z.to_nat (triedCount d))) in Hrun, Hc2 by lia.
    rewrite Hrun. cbn [mbind option_bind]. exists c2, h2.
    rewrite (life_events_cons d (set_tried t d)) by done. split; [done|].
    cbn [length]. rewrite <- resent_cons by lia.
    case_decide; [by rewrite decide_True by lia|by rewrite decide_False by lia].
  - destruct (IH c1 h1 d n) as (c2 & h2 & Hrun & Hc2); rewrite ?Hcfg; try done; try congruence;
      [by constructor|].
    rewrite Hrun. cbn [mbind option_bind]. exists c2, h2. by split.
Qed.

(** ** Finding a message *)

Definition matches (id adapter_ : Z) (d : CARetransmissionData_t) : bool :=
  match rt_endpoint d with
  | Some e => (messageId d =? id) && (adapter e =? adapter_)
  | None => false
  end.

Lemma find_message_spec lst h id ad ys zs :
  cells lst h (ys ++ zs) ->
  (forall l1 p d l2, zs = l1 ++ (p, d) :: l2 -> matches id ad d = true ->
     Forall (fun x => matches id ad x.2 = false) l1 ->
     find_message lst h id ad (Z.of_nat (length ys)) (length zs)
       = Some (Some (p, Z.of_nat (length (ys ++ l1))))) /\
  (Forall (fun x => matches id ad x.2 = false) zs ->
     find_message lst h id ad (Z.of_nat (length ys)) (length zs) = Some None).
Proof.
  revert ys. induction zs as [|[q e] zs IH]; intros ys Hc.
  { split; [|done]. intros [|? ?] ? ? ? ?; by simplify_eq. }
  assert (Hc' : cells lst h ((ys ++ [(q, e)]) ++ zs)) by by rewrite <- app_assoc.
  destruct (IH _ Hc') as [IHf IHn].
  assert (Z.of_nat (length (ys ++ [(q, e)])) = Z.of_nat (length ys) + 1) as Hlen
    by (rewrite length_app; simpl; lia). rewrite Hlen in IHf, IHn.
  destruct (cells_get _ _ _ _ _ _ _ Hc eq_refl) as [Hget Hq].
  cbn [length find_message]. rewrite Hget. cbn [mbind option_bind]. rewrite Hq.
  cbn [mbind option_bind]. unfold matches in *. split.
  - intros [|x l1] p d l2 E Hm Hno; simplify_eq/=.
    + destruct (rt_endpoint d); [|done]. by rewrite Hm, app_nil_r.
    + apply Forall_cons in Hno as [Hx Hno]. simpl in Hx. rewrite (IHf l1 p d l2 eq_refl Hm Hno).
      rewrite <- app_assoc. destruct (rt_endpoint e); [|done]. by rewrite Hx.
  - intros [Hx Hno]%Forall_cons. simpl in Hx. rewrite (IHn Hno).
    destruct (rt_endpoint e); [|done]. by rewrite Hx.
Qed.

(** The search both functions make. *)
Lemma search_spec c h xs id ad lst : dataList c = Some lst -> cells lst h xs ->
  (forall l1 p d l2, xs = l1 ++ (p, d) :: l2 -> matches id ad d = true ->
     Forall (fun x => matches id ad x.2 = false) l1 ->
     find_message lst h id ad 0 (Z.to_nat (pl_length lst)) = Some (Some (p, Z.of_nat (length l1)))) /\
  (Forall (fun x => matches id ad x.2 = false) xs ->
     find_message lst h id ad 0 (Z.to_nat (pl_length lst)) = Some None).
Proof.
  intros _ Hc. rewrite (cells_length _ _ _ Hc), Nat2Z.id.
  exact (find_message_spec lst h id ad [] xs Hc).
Qed.

Definition supported (c : CARetransmission_t) (ep : CAEndpoint_t) : Prop :=
  supportType (config c) &&& adapter ep <> 0.
#[export] Instance supported_dec c ep : Decision (supported c ep).
Proof. unfold supported. apply _. Defined.

(** An answer that ends the retransmission: any ACK, or an empty RESET. *)
Definition acknowledges (t : CAMessageType_t) (code : Z) : Prop :=
  t = CA_MSG_ACKNOWLEDGE \/ t = CA_MSG_RESET /\ code = 0.

Lemma not_ack_test t code : is_byte code -> ~ acknowledges t code ->
  (negb (bool_decide (CA_MSG_ACKNOWLEDGE = t)) && negb (bool_decide (CA_MSG_RESET = t)))
  || (bool_decide (CA_MSG_RESET = t) && negb (CA_EMPTY =? CA_RESPONSE_CODE code)) = true.
Proof.
  intros Hc Hn. rewrite Z.eqb_sym, code_empty by done. unfold acknowledges in Hn.
  destruct t; simpl; try done; [by destruct Hn; left|].
  destruct (Z.eqb_spec code 0); [|done]. destruct Hn. by right.
Qed.

Lemma ack_test t code : is_byte code -> acknowledges t code ->
  (negb (bool_decide (CA_MSG_ACKNOWLEDGE = t)) && negb (bool_decide (CA_MSG_RESET = t)))
  || (bool_decide (CA_MSG_RESET = t) && negb (CA_EMPTY =? CA_RESPONSE_CODE code)) = false.
Proof.
  intros Hc. rewrite Z.eqb_sym, code_empty by done. by intros [-> | [-> ->]].
Qed.

(** What the answer's header fields are. *)
Definition answer (pdu : list Z) (size : Z) (t : CAMessageType_t) (code id : Z) : Prop :=
  CA_PDU_MIN_SIZE <= size /\ is_byte code /\ 0 <= id < 2 ^ 16 /\
  exists tkl rest, 0 <= tkl < 16 /\ pdu = coap_header t tkl code id ++ rest.

Lemma answer_fields pdu size t code id : answer pdu size t code id ->
  CAGetMessageTypeFromPduBinaryData (Some pdu) size = Some t /\
  CAGetMessageIdFromPduBinaryData (Some pdu) size = Some id /\
  CAGetCodeFromPduBinaryData (Some pdu) size = Some (CA_RESPONSE_CODE code) /\ is_byte code.
Proof.
  intros (Hs & Hc & Hi & tkl & rest & Ht & ->).
  destruct (coap_header_fields t tkl code id rest size) as (H1 & H2 & H3); done.
Qed.

(** A stored message is the copy [SentData] made. *)
Definition stored (d : CARetransmissionData_t) (b : list Z) : Prop :=
  rt_pdu d = Some b /\ rt_size d = Z.of_nat (length b) /\ b <> [].

(** [ReceivedData] from the search on, on a match. *)
Lemma received_match okc c h l1 p d l2 ep pdu size t code id out b :
  context_holds c h (l1 ++ (p, d) :: l2) -> supported c ep -> answer pdu size t code id ->
  acknowledges t code -> matches id (adapter ep) d = true -> stored d b ->
  Forall (fun x => matches id (adapter ep) x.2 = false) l1 ->
  (code = 0 -> okc = true) ->
  exists c', CARetransmissionReceivedData okc (Some c) (Some ep) (Some pdu) size (Some out) h
      = Some (CA_STATUS_OK, Some c', delete p h, Some (if code =? 0 then Some b else out)) /\
    context_holds c' (delete p h) (l1 ++ l2) /\ same_settings c c'.
Proof.
  intros (lst & Hl & Hc) Hsup Hans Hack Hm (Hb & Hsz & Hne) Hno Hok.
  destruct (answer_fields _ _ _ _ _ Hans) as (Ht & Hi & Hco & Hbyte).
  unfold CARetransmissionReceivedData. rewrite (proj2 (Z.eqb_neq _ _)) by done.
  rewrite Ht, Hi, Hco. cbn [mbind option_bind]. rewrite (ack_test _ _ Hbyte Hack), Hl.
  destruct (search_spec c h _ id (adapter ep) lst Hl Hc) as [Hf _].
  rewrite (Hf l1 p d l2 eq_refl Hm Hno). cbn [mbind option_bind].
  destruct (cells_get _ _ _ _ _ _ _ Hc eq_refl) as [_ Hp]. rewrite Hp. cbn [mbind option_bind].
  destruct (cells_remove _ _ _ _ _ _ _ Hc eq_refl) as (lst' & Hrem & Hc').
  rewrite Hrem. cbn [mbind option_bind]. rewrite Hp. cbn [mbind option_bind].
  rewrite Z.eqb_sym, code_empty by done. exists (set_list lst' c).
  destruct (Z.eqb_spec code 0) as [E|E].
  - rewrite Hb, (Hok E), Hsz. cbn [negb orb].
    rewrite (proj2 (Z.eqb_neq _ _)) by (destruct b; simpl; [done|lia]).
    rewrite (read_at_all b) by done. cbn [mbind option_bind].
    split; [done|]. split; [by exists lst'|done].
  - split; [done|]. split; [by exists lst'|done].
Qed.

(** [ReceivedData] when there is nothing to end. *)
Lemma received_nothing okc c h xs ep pdu size t code id out :
  context_holds c h xs -> answer pdu size t code id ->
  (~ supported c ep \/ ~ acknowledges t code \/
   Forall (fun x => matches id (adapter ep) x.2 = false) xs) ->
  CARetransmissionReceivedData okc (Some c) (Some ep) (Some pdu) size (Some out) h
    = Some (CA_STATUS_OK, Some c, h, Some out).
Proof.
  intros (lst & Hl & Hc) Hans Hcase.
  destruct (answer_fields _ _ _ _ _ Hans) as (Ht & Hi & Hco & Hbyte).
  unfold CARetransmissionReceivedData. unfold supported in Hcase.
  destruct (Z.eqb_spec (supportType (config c) &&& adapter ep) 0) as [E|E]; [done|].
  rewrite Ht, Hi, Hco. cbn [mbind option_bind].
  destruct (_ || _) eqn:Etest; [done|]. rewrite Hl.
  destruct (search_spec c h _ id (adapter ep) lst Hl Hc) as [_ Hn].
  destruct Hcase as [Hs | [Ha | Hno]]; [by destruct Hs| |by rewrite (Hn Hno)].
  by rewrite (not_ack_test _ _ Hbyte Ha) in Etest.
Qed.

Lemma first_match_split {A} (f : A -> bool) (xs : list A) :
  Exists (fun x => f x = true) xs ->
  exists l1 x l2, xs = l1 ++ x :: l2 /\ f x = true /\ Forall (fun y => f y = false) l1.
Proof.
  induction xs as [|x xs IH]; [by intros ?%Exists_nil|]. intros Hex.
  destruct (f x) eqn:E; [by exists [], x, xs|].
  apply Exists_cons in Hex as [Hx|Hex]; [congruence|].
  destruct (IH Hex) as (l1 & y & l2 & -> & Hy & Hl). exists (x :: l1), y, l2. by repeat constructor.
Qed.

(** ** The theorems *)

(** one check of the list ends and does to every message what [tick] says,
    in list order: messages whose time is up are resent and counted, messages
    out of tries are reported and freed, the others stay as they are. *)
Theorem CACheckRetransmissionList_refines (c : CARetransmission_t) (now : nat -> Z)
    (h : rt_heap) (xs : list (loc * CARetransmissionData_t)) :
  context_holds c h xs -> Forall (fun x => times_fit x.2) xs ->
  exists c' h', CACheckRetransmissionList (Some c) now h
      = Some (Some c', h', snd (tick_all c now 0 xs)) /\
    context_holds c' h' (fst (tick_all c now 0 xs)) /\ same_settings c c'.
Proof. apply check_list_spec. Qed.

(** C22: the life of an unacknowledged message, whatever the times of the
    checks: it is resent at most [tryingCount] times, the k-th time at least
    [timeout * 2 ^ k] (in whole milliseconds) after the time before; it is
    reported and dropped exactly when the tries are used up; and checks far
    enough apart use them all. *)
Theorem retransmission_lifecycle (c : CARetransmission_t) (h : rt_heap) (p : loc)
    (d : CARetransmissionData_t) (n : nat) (ts : list Z) :
  context_holds c h [(p, d)] -> dataSendMethod c = true -> timeoutCallback c = true ->
  0 <= timeout d -> triedCount d = 0 -> tryingCount (config c) = Z.of_nat (S n) ->
  tryingCount (config c) <= 64 ->
  Forall (fun t => 0 <= t /\ t + timeout d * 2 ^ tryingCount (config c) < 2 ^ 64) (timeStamp d :: ts) ->
  let unit := timeout d / 1000 * 1000 in
  exists c' h' sends, run_checks c ts h = Some (c', h', life_events d (S n) sends) /\
    (length sends <= S n)%nat /\ spaced unit (timeStamp d) 0 sends /\
    context_holds c' h' (if decide (length sends = S n) then [] else [(p, resent d sends)]) /\
    ((S n <= length ts)%nat -> apart (unit * 2 ^ Z.of_nat (S n)) (timeStamp d) ts ->
     length sends = S n).
Proof.
  intros Hc Hs Hcb Hto Htr Hmax H64 Hts unit.
  destruct (run_checks_life c h p d n ts Hc Hs Hcb Hto ltac:(lia) ltac:(lia) H64 Hts)
    as (c' & h' & Hrun & Hc').
  rewrite Htr in Hrun, Hc'. fold unit in Hrun, Hc'. change (Z.to_nat 0) with 0%nat in Hrun, Hc'.
  exists c', h', (due_times unit (timeStamp d) 0 (S n) ts).
  split; [done|]. split; [apply due_times_length|]. split; [apply due_times_spaced|].
  split; [done|]. intros Hlen Ha. apply due_times_all; [unfold unit; Z.div_mod_to_equations; lia|done|].
  done.
Qed.

(** an answer ends the retransmission of exactly the message it answers: an
    ACK, or an empty RESET, with the id and the adapter of a stored message
    removes and frees the first such message, hands a copy of it up when the
    answer is empty, and leaves every other message; anything else changes
    nothing. *)
Theorem CARetransmissionReceivedData_acknowledges (okc : bool) (c : CARetransmission_t)
    (h : rt_heap) (xs : list (loc * CARetransmissionData_t)) (ep : CAEndpoint_t)
    (pdu : list Z) (size : Z) (t : CAMessageType_t) (code id : Z) (out : option (list Z)) :
  context_holds c h xs -> answer pdu size t code id ->
  (forall l1 p d l2 b, xs = l1 ++ (p, d) :: l2 -> supported c ep -> acknowledges t code ->
     matches id (adapter ep) d = true -> stored d b ->
     Forall (fun x => matches id (adapter ep) x.2 = false) l1 -> (code = 0 -> okc = true) ->
     exists c', CARetransmissionReceivedData okc (Some c) (Some ep) (Some pdu) size (Some out) h
         = Some (CA_STATUS_OK, Some c', delete p h, Some (if code =? 0 then Some b else out)) /\
       context_holds c' (delete p h) (l1 ++ l2) /\ same_settings c c') /\
  (~ supported c ep \/ ~ acknowledges t code \/
     Forall (fun x => matches id (adapter ep) x.2 = false) xs ->
   CARetransmissionReceivedData okc (Some c) (Some ep) (Some pdu) size (Some out) h
     = Some (CA_STATUS_OK, Some c, h, Some out)).
Proof.
  intros Hc Hans. split.
  - intros l1 p d l2 b -> Hs Ha Hm Hb Hno Hok. by eapply received_match.
  - intros Hcase. by eapply received_nothing.
Qed.

Lemma sent_data_cases (al : rt_alloc) (now rnd : Z) (c : CARetransmission_t)
    (h : rt_heap) (xs : list (loc * CARetransmissionData_t)) (ep : CAEndpoint_t)
    (ty : option CADataType_t) (pdu : list Z) (size : Z) (t : CAMessageType_t) (code id : Z) :
  context_holds c h xs -> answer pdu size t code id -> size <= Z.of_nat (length pdu) ->
  al_data al = true -> al_pdu al = true -> al_endpoint al = true ->
  let sent := CARetransmissionSentData al now rnd (Some c) (Some ep) ty (Some pdu) size h in
  let p := fresh (dom h) in
  let d := {| timeStamp := now; timeout := CAGetTimeoutValue rnd; triedCount := 0;
              messageId := id; rt_dataType := ty; rt_endpoint := Some ep; rt_pdu := Some (take (Z.to_nat size) pdu);
              rt_size := size |} in
  (~ supported c ep \/ t <> CA_MSG_CONFIRM -> sent = Some (CA_NOT_SUPPORTED, Some c, h)) /\
  (supported c ep -> t = CA_MSG_CONFIRM ->
   Exists (fun x => matches id (adapter ep) x.2 = true) xs ->
   sent = Some (CA_STATUS_FAILED, Some c, h)) /\
  (supported c ep -> t = CA_MSG_CONFIRM ->
   Forall (fun x => matches id (adapter ep) x.2 = false) xs ->
   exists c' (b : bool), sent = Some (CA_STATUS_OK, Some c', <[p := d]> h) /\
     context_holds c' (<[p := d]> h) (if b then xs ++ [(p, d)] else xs) /\
     (al_list al = true -> Z.of_nat (length xs) < 2 ^ 58 -> b = true)).
Proof.
  intros (lst & Hl & Hc) Hans Hsz Ha1 Ha2 Ha3 sent p d. pose proof (proj1 Hans) as H4. unfold CA_PDU_MIN_SIZE in H4.
  destruct (answer_fields _ _ _ _ _ Hans) as (Ht & Hi & _).
  unfold sent, CARetransmissionSentData, supported. rewrite Ht, Hi, Ha1, Ha2, Ha3. cbn [negb].
  destruct (Z.eqb_spec (supportType (config c) &&& adapter ep) 0) as [E|E];
    [split; [done|]; split; by intros ?|].
  cbn [mbind option_bind]. split; [intros [Hx|Hx]; [by destruct Hx|by rewrite decide_True]|].
  rewrite read_at_ok by lia. change (drop (Z.to_nat 0) pdu) with pdu. rewrite Hl.
  destruct (search_spec c h xs id (adapter ep) lst Hl Hc) as [Hf Hn].
  split; intros _ ->; (rewrite decide_False by (intros Hx; by apply Hx)); cbn [mbind option_bind].
  - intros Hex. destruct (first_match_split _ xs Hex) as (l1 & [q e] & l2 & -> & Hm & Hno).
    by rewrite (Hf l1 q e l2 eq_refl Hm Hno).
  - intros Hno. rewrite (Hn Hno). cbn [mbind option_bind].
    destruct (cells_append (al_list al) lst h xs p d Hc) as (b & lst' & Hadd & Hb & Hok);
      [apply not_elem_of_dom, is_fresh|].
    fold p. rewrite Hadd. cbn [mbind option_bind]. exists (set_list lst' c), b.
    split; [done|]. split; [|done]. exists lst'. split; [done|].
    destruct b; [done|]. by destruct Hb as [-> Hb].
Qed.

(** a confirmable message on a supported transport is stored exactly when no
    stored message has its id and adapter, with a fresh time-out and no tries;
    a duplicate, another type or another transport is refused with nothing
    changed.  When the list cannot grow the message is lost although the
    answer is OK. *)
Theorem CARetransmissionSentData_spec (al : rt_alloc) (now rnd : Z) (c : CARetransmission_t)
    (h : rt_heap) (xs : list (loc * CARetransmissionData_t)) (ep : CAEndpoint_t)
    (ty : option CADataType_t) (pdu : list Z) (t : CAMessageType_t) (code id : Z) :
  context_holds c h xs -> answer pdu (Z.of_nat (length pdu)) t code id ->
  al_data al = true -> al_pdu al = true -> al_endpoint al = true ->
  let sent := CARetransmissionSentData al now rnd (Some c) (Some ep) ty (Some pdu)
                (Z.of_nat (length pdu)) h in
  let p := fresh (dom h) in
  let d := {| timeStamp := now; timeout := CAGetTimeoutValue rnd; triedCount := 0;
              messageId := id; rt_dataType := ty; rt_endpoint := Some ep; rt_pdu := Some pdu;
              rt_size := Z.of_nat (length pdu) |} in
  (~ supported c ep \/ t <> CA_MSG_CONFIRM -> sent = Some (CA_NOT_SUPPORTED, Some c, h)) /\
  (supported c ep -> t = CA_MSG_CONFIRM ->
   Exists (fun x => matches id (adapter ep) x.2 = true) xs ->
   sent = Some (CA_STATUS_FAILED, Some c, h)) /\
  (supported c ep -> t = CA_MSG_CONFIRM ->
   Forall (fun x => matches id (adapter ep) x.2 = false) xs ->
   exists c' (b : bool), sent = Some (CA_STATUS_OK, Some c', <[p := d]> h) /\
     context_holds c' (<[p := d]> h) (if b then xs ++ [(p, d)] else xs) /\
     (al_list al = true -> Z.of_nat (length xs) < 2 ^ 58 -> b = true)).
Proof.
  intros Hc Hans. pose proof (sent_data_cases al now rnd c h xs ep ty pdu _ t code id Hc Hans ltac:(lia)) as H1.
  by rewrite Nat2Z.id, firstn_all in H1.
Qed.

(** When the copy for the upper layer cannot be allocated, the stored message
    is freed but stays in the list: the next check reads freed memory. *)
Theorem CARetransmissionReceivedData_oom_dangling (c : CARetransmission_t) (h : rt_heap)
    (p : loc) (d : CARetransmissionData_t) (xs : list (loc * CARetransmissionData_t))
    (ep : CAEndpoint_t) (pdu b : list Z) (size id : Z) (t : CAMessageType_t)
    (out : option (list Z)) (now : nat -> Z) :
  context_holds c h ((p, d) :: xs) -> supported c ep -> answer pdu size t 0 id ->
  acknowledges t 0 -> matches id (adapter ep) d = true -> stored d b ->
  CARetransmissionReceivedData false (Some c) (Some ep) (Some pdu) size (Some out) h
    = Some (CA_MEMORY_ALLOC_FAILED, Some c, delete p h, Some None) /\
  CACheckRetransmissionList (Some c) now (delete p h) = None.
Proof.
  intros (lst & Hl & Hc) Hsup Hans Hack Hm (Hb & _).
  destruct (answer_fields _ _ _ _ _ Hans) as (Ht & Hi & Hco & Hbyte).
  destruct (cells_get lst h [] p d xs 0 Hc eq_refl) as [Hget Hp]. split.
  - unfold CARetransmissionReceivedData. rewrite (proj2 (Z.eqb_neq _ _)) by done.
    rewrite Ht, Hi, Hco. cbn [mbind option_bind]. rewrite (ack_test _ _ Hbyte Hack), Hl.
    destruct (search_spec c h _ id (adapter ep) lst Hl Hc) as [Hf _].
    rewrite (Hf [] p d xs eq_refl Hm (Forall_nil_2 _)). cbn [mbind option_bind]. rewrite Hp.
    cbn [mbind option_bind]. rewrite Z.eqb_sym, code_empty by done. simpl. by rewrite Hb.
  - unfold CACheckRetransmissionList. rewrite Hl, (cells_length _ _ _ Hc).
    cbn [check_loop length]. rewrite (proj2 (Z.ltb_lt _ _)) by lia.
    rewrite Hget. cbn [mbind option_bind]. by rewrite lookup_delete_eq.
Qed.
End Retransmission.

(** ** Concrete instances *)

Definition sample_endpoint : CAEndpoint_t := {|
  adapter := CA_ADAPTER_IP; flags := 0; port := 5683; addr := chars "10.0.0.7"; ifindex := 0;
  remoteId := [] |}.

(** A confirmable GET with id 77 and its acknowledgement. *)
Definition sample_pdu : list Z := coap_header CA_MSG_CONFIRM 0 1 77 ++ [181; 97].
Definition sample_ack : list Z := coap_header CA_MSG_ACKNOWLEDGE 0 0 77.

Definition sample_message : CARetransmissionData_t := {|
  timeStamp := 1000; timeout := 2500000; triedCount := 0; messageId := 77;
  rt_dataType := Some CA_REQUEST_DATA; rt_endpoint := Some sample_endpoint;
  rt_pdu := Some sample_pdu; rt_size := 6 |}.

Definition one_pointer : u_arraylist_t loc :=
  {| data := [Val (Some 1%N)]; capacity := 1; length_ := 1 |}.

Definition sample_context : @CARetransmission_t (u_arraylist_t loc) := {|
  threadPool := true; rt_mutex := true; dataSendMethod := true; timeoutCallback := true;
  config := {| supportType := DEFAULT_RETRANSMISSION_TYPE;
               tryingCount := DEFAULT_RETRANSMISSION_COUNT |};
  isStop := false; dataList := Some one_pointer |}.

Definition sample_messages : gmap loc CARetransmissionData_t := {[ 1%N := sample_message ]}.

Lemma sample_context_holds : context_holds sample_context sample_messages [(1%N, sample_message)].
Proof.
  exists one_pointer. split; [done|]. split; [|apply NoDup_singleton|by apply Forall_singleton].
  split; simpl; unfold PTR_SIZE, PTRDIFF_MAX; done || lia.
Qed.

Lemma sample_times_fit : Forall (fun x => times_fit x.2) [(1%N, sample_message)].
Proof. apply Forall_singleton. unfold times_fit. simpl. lia. Qed.

Lemma CACheckRetransmissionList_refines_witness :
  exists c' h', CACheckRetransmissionList (Some sample_context) (fun _ => 2600000) sample_messages
      = Some (Some c', h', [data_send (Some sample_endpoint) (Some sample_pdu) 6 (Some CA_REQUEST_DATA)]) /\
    context_holds c' h' [(1%N, set_tried 2600000 sample_message)] /\ same_settings sample_context c'.
Proof.
  exact (CACheckRetransmissionList_refines sample_context (fun _ => 2600000) sample_messages _
    sample_context_holds sample_times_fit).
Defined.

Lemma retransmission_lifecycle_witness :
  let unit := 2500000 in
  let ts := [1000000; 50000000; 100000000; 150000000; 200000000] in
  exists c' h' sends, run_checks sample_context ts sample_messages
      = Some (c', h', life_events sample_message 4 sends) /\
    (length sends <= 4)%nat /\ spaced unit 1000 0 sends /\
    context_holds c' h' (if decide (length sends = 4%nat) then []
                         else [(1%N, resent sample_message sends)]) /\
    ((4 <= length ts)%nat -> apart (unit * 2 ^ 4) 1000 ts -> length sends = 4%nat).
Proof.
  apply (retransmission_lifecycle sample_context sample_messages 1%N sample_message 3
    [1000000; 50000000; 100000000; 150000000; 200000000]); try done.
  - apply sample_context_holds.
  - repeat constructor; simpl; lia.
Defined.

(** Four resends, then the report. *)
Example lifecycle_run :
  snd <$> run_checks sample_context [1000000; 3000000; 9000000; 20000000; 50000000; 90000000]
    sample_messages
  = Some (life_events sample_message 4 [3000000; 9000000; 20000000; 50000000]).
Proof. vm_compute. reflexivity. Qed.

Lemma sample_ack_answer : answer sample_ack 4 CA_MSG_ACKNOWLEDGE 0 77.
Proof.
  split; [unfold CA_PDU_MIN_SIZE; lia|]. split; [unfold is_byte; lia|]. split; [lia|].
  exists 0, []. split; [lia|done].
Qed.

Lemma CARetransmissionReceivedData_acknowledges_witness :
  exists c', CARetransmissionReceivedData true (Some sample_context) (Some sample_endpoint)
      (Some sample_ack) 4 (Some None) sample_messages
    = Some (CA_STATUS_OK, Some c', delete 1%N sample_messages, Some (Some sample_pdu)) /\
    context_holds c' (delete 1%N sample_messages) [] /\ same_settings sample_context c'.
Proof.
  apply (proj1 (CARetransmissionReceivedData_acknowledges true sample_context sample_messages
    [(1%N, sample_message)] sample_endpoint sample_ack 4 CA_MSG_ACKNOWLEDGE 0 77 None
    sample_context_holds sample_ack_answer) [] 1%N sample_message [] sample_pdu);
    [done|by unfold supported|by left|done|by split|constructor|done].
Defined.

Lemma CARetransmissionSentData_spec_witness :
  let pdu := coap_header CA_MSG_CONFIRM 0 1 78 in
  let al := {| al_data := true; al_pdu := true; al_endpoint := true; al_list := true |} in
  let d := {| timeStamp := 5; timeout := CAGetTimeoutValue 9; triedCount := 0; messageId := 78;
              rt_dataType := Some CA_REQUEST_DATA; rt_endpoint := Some sample_endpoint;
              rt_pdu := Some pdu; rt_size := 4 |} in
  let h' := <[fresh (dom sample_messages) := d]> sample_messages in
  exists c' (b : bool), CARetransmissionSentData al 5 9 (Some sample_context) (Some sample_endpoint)
      (Some CA_REQUEST_DATA) (Some pdu) 4 sample_messages = Some (CA_STATUS_OK, Some c', h') /\
    context_holds c' h' (if b then [(1%N, sample_message); (fresh (dom sample_messages), d)]
                         else [(1%N, sample_message)]) /\
    (true = true -> Z.of_nat (length [(1%N, sample_message)]) < 2 ^ 58 -> b = true).
Proof.
  intros pdu al d h'.
  assert (Hans : answer pdu 4 CA_MSG_CONFIRM 1 78).
  { split; [unfold CA_PDU_MIN_SIZE; lia|]. split; [unfold is_byte; lia|]. split; [lia|].
    exists 0, []. split; [lia|done]. }
  apply (proj2 (proj2 (CARetransmissionSentData_spec al 5 9 sample_context sample_messages
    [(1%N, sample_message)] sample_endpoint (Some CA_REQUEST_DATA) pdu CA_MSG_CONFIRM 1 78
    sample_context_holds Hans eq_refl eq_refl eq_refl)));
    [by unfold supported|done|by apply Forall_singleton].
Defined.

Lemma CARetransmissionReceivedData_oom_dangling_witness :
  CARetransmissionReceivedData false (Some sample_context) (Some sample_endpoint)
      (Some sample_ack) 4 (Some None) sample_messages
    = Some (CA_MEMORY_ALLOC_FAILED, Some sample_context, delete 1%N sample_messages, Some None) /\
  CACheckRetransmissionList (Some sample_context) (fun _ => 7) (delete 1%N sample_messages) = None.
Proof.
  apply (CARetransmissionReceivedData_oom_dangling sample_context sample_messages 1%N
    sample_message [] sample_endpoint sample_ack sample_pdu 4 77 CA_MSG_ACKNOWLEDGE None);
    [apply sample_context_holds|by unfold supported|apply sample_ack_answer|by left|done|by split].
Defined.
