(* ===== verification/MessageHandler.v ===== *)
(** * MessageHandler: messages between the stack and the network

    Models [connectivity/src/camessagehandler.c] in its threaded build with
    [WITH_BWT] and [SINGLE_HANDLE], and the two functions of
    [connectivity/src/caconnectivitymanager.c] through which messages are sent.
    This is where the parts of the connectivity layer meet: a message to be sent
    is copied to the send queue, block by block if it is too large
    ([BlockTransfer]), turned into a packet ([CoapMessage]), given to the
    adapters ([Network]) and kept until it is acknowledged ([Retransmission]); a
    packet that arrives is taken apart ([CoapReceive]) and queued for the
    application's handlers.

    The state holds the state of each part; an operation of a part runs on it
    through [zoom].  What a block-wise transfer hands to the queues it records in
    its own state, from where it is moved to them when the operation is over.
    What a failing function frees and nobody uses again is left out. *)
From S2P Require Import Prelude Effects Chain UArrayList CaCommon QueueingThread Network CoapOption CoapPdu CaMessage ProtocolMessage CoapMessage CoapReceive BlockTransfer Retransmission.

(** ** Data *)

(** [publicKey], [userId] and [attributes] are not read here. *)
Record CASecureEndpoint_t := { sep_endpoint : CAEndpoint_t; sep_identity : CARemoteId_t }.

Definition HISTORYSIZE : Z := 4.

Record CAHistoryItem_t := {
  hi_flags : Z;
  hi_messageId : Z;
  hi_token : list Z;
  hi_tokenLength : Z;
  hi_ifindex : Z;
}.
Record CAHistory_t := { nextIndex : Z; items : list CAHistoryItem_t }.

Definition zero_item : CAHistoryItem_t := {|
  hi_flags := 0; hi_messageId := 0; hi_token := replicate (Z.to_nat CA_MAX_TOKEN_LEN) 0; hi_tokenLength := 0;
  hi_ifindex := 0 |}.
Definition no_history : CAHistory_t := {| nextIndex := 0; items := replicate (Z.to_nat HISTORYSIZE) zero_item |}.

(** What the caller of [CADetachSendMessage] points to. *)
Inductive send_message := MsgRequest (r : CARequestInfo_t) | MsgResponse (r : CAResponseInfo_t).

(** The calls of the application's handlers. *)
Inductive handler_call :=
| RequestHandler (e : option CAEndpoint_t) (r : CARequestInfo_t)
| ResponseHandler (e : option CAEndpoint_t) (r : CAResponseInfo_t)
| ErrorHandler (e : option CAEndpoint_t) (r : CAErrorInfo_t).

(** [caprotocolmessage.c]. *)
Definition CAIsSupportedBlockwiseTransfer (adapter : Z) : bool :=
  negb (Z.land CA_ADAPTER_IP adapter =? 0) || negb (Z.land CA_ADAPTER_NFC adapter =? 0)
  || (CA_DEFAULT_ADAPTER =? adapter).

(** *** Messages of one address family *)

(** [memcmp (item->token, token, n) == 0]. *)
Definition same_token (t : list Z) (u : option (list Z)) (n : Z) : ub bool :=
  if n =? 0 then Some true
  else match u with None => None | Some u => a ← read_at t 0 n; b ← read_at u 0 n; Some (bool_decide (a = b)) end.

Fixpoint in_history (l : list CAHistoryItem_t) (e : CAEndpoint_t) (id : Z) (token : option (list Z)) (n : Z) : ub bool :=
  match l with
  | [] => Some false
  | i :: l =>
      if (id =? hi_messageId i) && (n =? hi_tokenLength i) && (ifindex e =? hi_ifindex i) then
        b ← same_token (hi_token i) token n;
        if (b : bool) then Some true else in_history l e id token n
      else in_history l e id token n
  end.

(** The message that arrived takes the next place; an empty token leaves the
    token that was there. *)
Definition CADropSecondMessage (history : CAHistory_t) (ep : option CAEndpoint_t) (id : Z) (token : option (list Z))
    (tokenLength : Z) : ub (bool * CAHistory_t) :=
  match ep with
  | None => Some (true, history)
  | Some e =>
      if negb (adapter e =? CA_ADAPTER_IP) then Some (false, history)
      else
        let tokenLength := if CA_MAX_TOKEN_LEN <? tokenLength then CA_MAX_TOKEN_LEN else tokenLength in
        ret ← in_history (items history) e id token tokenLength;
        old ← byte_at (items history) (nextIndex history);
        item ← match token with
               | Some t =>
                   if tokenLength =? 0 then Some (hi_token old, hi_tokenLength old)
                   else b ← read_at t 0 tokenLength; b ← write_at (hi_token old) 0 b; Some (b, tokenLength)
               | None => Some (hi_token old, hi_tokenLength old)
               end;
        let new := {| hi_flags := flags e &&& CA_IPFAMILY_MASK; hi_messageId := id; hi_token := item.1;
                      hi_tokenLength := item.2; hi_ifindex := ifindex e |} in
        l ← write_at (items history) (nextIndex history) [new];
        Some (ret, {| nextIndex := if HISTORYSIZE <=? nextIndex history + 1 then 0 else nextIndex history + 1;
                      items := l |})
  end.

(** ** State *)

Section Handler.
Context {L : Type} `{PtrList L loc} {W : Type}.

Record handler := {
  g_isInitialized : bool;
  g_threadPoolHandle : bool;
  g_sendThread : CAQueueingThread_t CAData_t;
  g_receiveThread : CAQueueingThread_t CAData_t;
  g_retransmissionContext : @CARetransmission_t L;
  retransmission_heap : gmap loc CARetransmissionData_t;
  block : Ctx;
  net : network W;
  requestHistory : CAHistory_t;
  g_requestHandler : bool;
  g_responseHandler : bool;
  g_errorHandler : bool;
  calls : list handler_call;
  h_allocs : list bool;
}.

Definition set_running (init pool : bool) (h : handler) : handler := {|
  g_isInitialized := init; g_threadPoolHandle := pool; g_sendThread := g_sendThread h;
  g_receiveThread := g_receiveThread h; g_retransmissionContext := g_retransmissionContext h;
  retransmission_heap := retransmission_heap h; block := block h; net := net h; requestHistory := requestHistory h;
  g_requestHandler := g_requestHandler h; g_responseHandler := g_responseHandler h; g_errorHandler := g_errorHandler h;
  calls := calls h; h_allocs := h_allocs h |}.
Definition set_sendThread (t : CAQueueingThread_t CAData_t) (h : handler) : handler := {|
  g_isInitialized := g_isInitialized h; g_threadPoolHandle := g_threadPoolHandle h; g_sendThread := t;
  g_receiveThread := g_receiveThread h; g_retransmissionContext := g_retransmissionContext h;
  retransmission_heap := retransmission_heap h; block := block h; net := net h; requestHistory := requestHistory h;
  g_requestHandler := g_requestHandler h; g_responseHandler := g_responseHandler h; g_errorHandler := g_errorHandler h;
  calls := calls h; h_allocs := h_allocs h |}.
Definition set_receiveThread (t : CAQueueingThread_t CAData_t) (h : handler) : handler := {|
  g_isInitialized := g_isInitialized h; g_threadPoolHandle := g_threadPoolHandle h; g_sendThread := g_sendThread h;
  g_receiveThread := t; g_retransmissionContext := g_retransmissionContext h;
  retransmission_heap := retransmission_heap h; block := block h; net := net h; requestHistory := requestHistory h;
  g_requestHandler := g_requestHandler h; g_responseHandler := g_responseHandler h; g_errorHandler := g_errorHandler h;
  calls := calls h; h_allocs := h_allocs h |}.
Definition set_retransmission (c : @CARetransmission_t L) (m : gmap loc CARetransmissionData_t) (h : handler) : handler := {|
  g_isInitialized := g_isInitialized h; g_threadPoolHandle := g_threadPoolHandle h; g_sendThread := g_sendThread h;
  g_receiveThread := g_receiveThread h; g_retransmissionContext := c;
  retransmission_heap := m; block := block h; net := net h; requestHistory := requestHistory h;
  g_requestHandler := g_requestHandler h; g_responseHandler := g_responseHandler h; g_errorHandler := g_errorHandler h;
  calls := calls h; h_allocs := h_allocs h |}.
Definition set_block (c : Ctx) (h : handler) : handler := {|
  g_isInitialized := g_isInitialized h; g_threadPoolHandle := g_threadPoolHandle h; g_sendThread := g_sendThread h;
  g_receiveThread := g_receiveThread h; g_retransmissionContext := g_retransmissionContext h;
  retransmission_heap := retransmission_heap h; block := c; net := net h; requestHistory := requestHistory h;
  g_requestHandler := g_requestHandler h; g_responseHandler := g_responseHandler h; g_errorHandler := g_errorHandler h;
  calls := calls h; h_allocs := h_allocs h |}.
Definition set_net (n : network W) (h : handler) : handler := {|
  g_isInitialized := g_isInitialized h; g_threadPoolHandle := g_threadPoolHandle h; g_sendThread := g_sendThread h;
  g_receiveThread := g_receiveThread h; g_retransmissionContext := g_retransmissionContext h;
  retransmission_heap := retransmission_heap h; block := block h; net := n; requestHistory := requestHistory h;
  g_requestHandler := g_requestHandler h; g_responseHandler := g_responseHandler h; g_errorHandler := g_errorHandler h;
  calls := calls h; h_allocs := h_allocs h |}.
Definition set_history (x : CAHistory_t) (h : handler) : handler := {|
  g_isInitialized := g_isInitialized h; g_threadPoolHandle := g_threadPoolHandle h; g_sendThread := g_sendThread h;
  g_receiveThread := g_receiveThread h; g_retransmissionContext := g_retransmissionContext h;
  retransmission_heap := retransmission_heap h; block := block h; net := net h; requestHistory := x;
  g_requestHandler := g_requestHandler h; g_responseHandler := g_responseHandler h; g_errorHandler := g_errorHandler h;
  calls := calls h; h_allocs := h_allocs h |}.
Definition set_handlers (req resp err : bool) (h : handler) : handler := {|
  g_isInitialized := g_isInitialized h; g_threadPoolHandle := g_threadPoolHandle h; g_sendThread := g_sendThread h;
  g_receiveThread := g_receiveThread h; g_retransmissionContext := g_retransmissionContext h;
  retransmission_heap := retransmission_heap h; block := block h; net := net h; requestHistory := requestHistory h;
  g_requestHandler := req; g_responseHandler := resp; g_errorHandler := err;
  calls := calls h; h_allocs := h_allocs h |}.
Definition add_call (c : handler_call) (h : handler) : handler := {|
  g_isInitialized := g_isInitialized h; g_threadPoolHandle := g_threadPoolHandle h; g_sendThread := g_sendThread h;
  g_receiveThread := g_receiveThread h; g_retransmissionContext := g_retransmissionContext h;
  retransmission_heap := retransmission_heap h; block := block h; net := net h; requestHistory := requestHistory h;
  g_requestHandler := g_requestHandler h; g_responseHandler := g_responseHandler h; g_errorHandler := g_errorHandler h;
  calls := calls h ++ [c]; h_allocs := h_allocs h |}.
Definition set_h_allocs (l : list bool) (h : handler) : handler := {|
  g_isInitialized := g_isInitialized h; g_threadPoolHandle := g_threadPoolHandle h; g_sendThread := g_sendThread h;
  g_receiveThread := g_receiveThread h; g_retransmissionContext := g_retransmissionContext h;
  retransmission_heap := retransmission_heap h; block := block h; net := net h; requestHistory := requestHistory h;
  g_requestHandler := g_requestHandler h; g_responseHandler := g_responseHandler h; g_errorHandler := g_errorHandler h;
  calls := calls h; h_allocs := l |}.

#[export] Program Instance handler_HasAllocs : HasAllocs handler := {|
  allocs_of := h_allocs; with_allocs := set_h_allocs |}.
Next Obligation. done. Qed.
Next Obligation. by intros []. Qed.
Next Obligation. done. Qed.

#[local] Abbreviation MH A := (M handler A).

(** ** Operations of the parts *)

Definition networking {A} (m : M (network W) A) : MH A := zoom net set_net m.

Definition queue_send (d : CAData_t) : MH unit :=
  t ← gets g_sendThread; '(_, t) ← CAQueueingThreadAddData d t; modify (set_sendThread t).
Definition queue_receive (d : CAData_t) : MH unit :=
  t ← gets g_receiveThread; '(_, t) ← CAQueueingThreadAddData d t; modify (set_receiveThread t).

Definition CAAddDataToSendThread (data : option CAData_t) : MH unit :=
  match data with None => mret tt | Some d => queue_send d end.
Definition CAAddDataToReceiveThread (data : option CAData_t) : MH unit :=
  match data with None => mret tt | Some d => queue_receive d end.

(** What a block-wise transfer hands out, in its order; [respond] sends an empty
    response. *)
Fixpoint hand_out (respond : option CAEndpoint_t -> CAResponseInfo_t -> MH unit) (l : list block_event) : MH unit :=
  match l with
  | [] => mret tt
  | ev :: l =>
      _ ← match ev with
          | SendThread d => CAAddDataToSendThread (Some d)
          | ReceiveThread d => CAAddDataToReceiveThread (Some d)
          | SendResponse e r => respond e r
          end;
      hand_out respond l
  end.

Definition set_out (l : list block_event) (c : Ctx) : Ctx := {|
  sendThreadFunc := sendThreadFunc c; receivedThreadFunc := receivedThreadFunc c;
  BlockTransfer.dataList := BlockTransfer.dataList c;
  multicastDataList := multicastDataList c; blockDataListMutex := blockDataListMutex c;
  blockDataSenderMutex := blockDataSenderMutex c; multicastDataListMutex := multicastDataListMutex c;
  out := l; bw_allocs := bw_allocs c |}.

Definition blockwise {A} (respond : option CAEndpoint_t -> CAResponseInfo_t -> MH unit) (m : M Ctx A) : MH A :=
  a ← zoom block set_block m;
  evs ← gets (fun h => out (block h));
  _ ← modify (fun h => set_block (set_out [] (block h)) h);
  _ ← hand_out respond evs;
  mret a.

(** Sending starts no response. *)
Definition no_response (e : option CAEndpoint_t) (r : CAResponseInfo_t) : MH unit := undefined.

(** The four answers of the allocator are taken whether they are asked for or
    not, which are as many as are asked for at most. *)
Definition retransmission_sent (now randomValue : Z) (e : CAEndpoint_t) (ty : option CADataType_t) (pdu : list Z) (size : Z)
    : MH CAResult_t :=
  a ← alloc; b ← alloc; c ← alloc; d ← alloc;
  ctx ← gets g_retransmissionContext; m ← gets retransmission_heap;
  '(r, ctx', m) ← lift (CARetransmissionSentData {| al_data := a; al_pdu := b; al_endpoint := c; al_list := d |}
                          now randomValue (Some ctx) (Some e) ty (Some pdu) size m);
  _ ← modify (set_retransmission (default ctx ctx') m);
  mret r.

(** The value of [retransmissionPdu] afterwards. *)
Definition retransmission_received (e : option CAEndpoint_t) (pdu : list Z) (size : Z) : MH (option (list Z)) :=
  ok ← alloc;
  ctx ← gets g_retransmissionContext; m ← gets retransmission_heap;
  '(_, ctx', m, out) ← lift (CARetransmissionReceivedData ok (Some ctx) e (Some pdu) size (Some None) m);
  _ ← modify (set_retransmission (default ctx ctx') m);
  mret (default None out).

Section Environment.
(** [built] and [ip_local] as in [Network], the contents of [g_chproxyUri]. *)
Context (built : Z -> bool) (ip_local : CAEndpoint_t -> bool) (proxyUri : list Z).

Definition CAIsSelectedNetworkAvailable : MH bool :=
  l ← networking CAGetSelectedNetworkList; mret (negb (bool_decide (default [] l = []))).

(** ** From a packet to a message *)

Definition with_identity (i : option CARemoteId_t) (info : CAInfo_t) : CAInfo_t :=
  match i with Some i => set_identity i info | None => info end.

Definition handler_data (ep : CAEndpoint_t) (ty : CADataType_t) (req : option CARequestInfo_t)
    (resp : option CAResponseInfo_t) (err : option CAErrorInfo_t) : CAData_t := {|
  sendType := sendType zero_data; remoteEndpoint := Some ep; requestInfo := req; responseInfo := resp;
  errorInfo := err; dataType := Some ty |}.

(** The message of an error is freed without what it owns. *)
Definition CAGenerateHandlerData (endpoint : CAEndpoint_t) (identity : option CARemoteId_t) (data : coap_pdu_t)
    (dataType : CADataType_t) : MH (option CAData_t) :=
  ok ← alloc;
  if negb ok then mret None
  else
    ep ← CACloneEndpoint (Some endpoint);
    match ep with
    | None => mret None
    | Some ep =>
        match dataType with
        | CA_RESPONSE_DATA =>
            ok ← alloc;
            if negb ok then mret None
            else
              '(result, resInfo, freed) ← CAGetResponseInfoFromPDU data proxyUri;
              if decide (result <> CA_STATUS_OK) then
                _ ← lift (CADestroyInfoInternal (res_info resInfo) freed); mret None
              else
                mret (Some (handler_data ep dataType None (Some (set_res_info (with_identity identity) resInfo)) None))
        | CA_REQUEST_DATA =>
            ok ← alloc;
            if negb ok then mret None
            else
              '(result, reqInfo, freed) ← CAGetRequestInfoFromPDU data proxyUri;
              if decide (result <> CA_STATUS_OK) then
                _ ← lift (CADestroyInfoInternal (req_info reqInfo) freed); mret None
              else
                let info := req_info reqInfo in
                drop ← (if decide (type info <> CA_MSG_CONFIRM) then
                          hist ← gets requestHistory;
                          '(drop, hist) ← lift (CADropSecondMessage hist (Some endpoint) (CaMessage.messageId info)
                                                  (token info) (tokenLength info));
                          _ ← modify (set_history hist); mret drop
                        else mret false : MH bool);
                if (drop : bool) then mret None
                else
                  mret (Some (handler_data ep dataType (Some (set_req_info (with_identity identity) reqInfo)) None None))
        | CA_ERROR_DATA =>
            ok ← alloc;
            if negb ok then mret None
            else
              '(result, errorInfo, freed) ← CAGetErrorInfoFromPDU data proxyUri;
              if decide (result <> CA_STATUS_OK) then mret None
              else
                mret (Some (handler_data ep dataType None None
                  (Some {| err_result := err_result errorInfo; err_info := with_identity identity (err_info errorInfo) |})))
        | CA_RESPONSE_FOR_RES => mret (Some (handler_data ep dataType None None None))
        end
    end.

(** The token of a stored packet into a message; a failed read leaves none. *)
Definition token_from (pdu : list Z) (info : CAInfo_t) : MH CAInfo_t :=
  '(res, info) ← CAGetTokenFromPDU pdu info;
  mret (if decide (res = CA_STATUS_OK) then info else set_token (token info) 0 info).

Definition CATimeoutCallback (endpoint : option CAEndpoint_t) (pdu : option (list Z)) (size : Z) : MH unit :=
  match endpoint, pdu with
  | Some e, Some b =>
      ep ← CACloneEndpoint (Some e);
      match ep with
      | None => mret tt
      | Some ep =>
          ok ← alloc;
          if negb ok then mret tt
          else
            ty ← lift (CAGetMessageTypeFromPduBinaryData pdu size);
            id ← lift (CAGetMessageIdFromPduBinaryData pdu size);
            '(res, info) ← CAGetTokenFromPDU b (set_messageId id (CaMessage.set_type ty zero_info));
            if decide (res <> CA_STATUS_OK) then mret tt
            else
              ok ← alloc;
              if negb ok then mret tt
              else
                _ ← (if CAIsSupportedBlockwiseTransfer (adapter e) then
                       blockwise no_response
                         (CARemoveBlockDataFromListWithSeed (token info) (tokenLength info) (addr e) (port e))
                     else mret CA_STATUS_OK : MH CAResult_t);
                queue_receive {|
                  sendType := SEND_TYPE_UNICAST; remoteEndpoint := Some ep; requestInfo := None;
                  responseInfo := Some {| result := CA_RETRANSMIT_TIMEOUT; res_info := info; res_isMulticast := false |};
                  errorInfo := None; dataType := None |}
      end
  | _, _ => mret tt
  end.

(** ** Errors *)

Definition set_err (r : CAResult_t) (f : CAInfo_t -> CAInfo_t) (e : CAErrorInfo_t) : CAErrorInfo_t :=
  {| err_result := r; err_info := f (err_info e) |}.
Definition set_errorInfo (e : CAErrorInfo_t) (d : CAData_t) : CAData_t := {|
  sendType := sendType d; remoteEndpoint := remoteEndpoint d; requestInfo := requestInfo d;
  responseInfo := responseInfo d; errorInfo := Some e; dataType := dataType d |}.

(** The packet that could not be sent becomes the RESET that ends its
    retransmission. *)
Definition as_reset (h : list Z) : ub (list Z) :=
  h ← set_bits h 0 4 2 (type_code CA_MSG_RESET); write_at h 1 [CA_EMPTY].

Definition CAErrorHandler (endpoint : option CAEndpoint_t) (data : list Z) (dataLen : Z) (res : CAResult_t) : MH unit :=
  match endpoint with
  | None => mret tt
  | Some e =>
      if dataLen =? 0 then mret tt
      else
        pdu ← CAParsePDU data dataLen;
        match pdu with
        | None => mret tt
        | Some (pdu, _) =>
            cadata ← CAGenerateHandlerData e None pdu CA_ERROR_DATA;
            match cadata with
            | None => mret tt
            | Some d =>
                h ← lift (as_reset (hdr pdu));
                retransmissionPdu ← retransmission_received (remoteEndpoint d) h (plength pdu);
                d ← (match retransmissionPdu, errorInfo d with
                     | Some b, Some err => i ← token_from b (err_info err); mret (set_errorInfo (set_err (err_result err) (fun _ => i) err) d)
                     | _, _ => mret d
                     end : MH CAData_t);
                match errorInfo d with
                | None => undefined
                | Some err => queue_receive (set_errorInfo (set_err res (fun i => i) err) d)
                end
            end
        end
  end.

Definition CASendErrorInfo (endpoint : option CAEndpoint_t) (info : option CAInfo_t) (res : CAResult_t) : MH unit :=
  ok ← alloc;
  if negb ok then mret tt
  else
    ep ← CACloneEndpoint endpoint;
    match ep with
    | None => mret tt
    | Some ep =>
        ok ← alloc;
        if negb ok then mret tt
        else
          clone ← (match info with Some i => CACloneInfo i | None => mret None end : MH (option CAInfo_t));
          match clone with
          | None => mret tt
          | Some i => queue_receive (handler_data ep CA_ERROR_DATA None None (Some {| err_result := res; err_info := i |}))
          end
    end.

(** ** Sending *)

(** The packet of a message with the options of its block, if it can have
    one. *)
Definition add_block_options (pdu : coap_pdu_t) (info : CAInfo_t) (e : CAEndpoint_t) (options : coap_list_t)
    : MH (CAResult_t * coap_pdu_t) :=
  if CAIsSupportedBlockwiseTransfer (adapter e) then
    '(res, pdu, _) ← blockwise no_response (CAAddBlockOption pdu info e options); mret (res, pdu)
  else mret (CA_STATUS_OK, pdu).

(** Code and fields of the message, the request before the response. *)
Definition message_of (request_code : CARequestInfo_t -> Z) (d : CAData_t) : option (Z * CAInfo_t) :=
  match requestInfo d, responseInfo d with
  | Some r, _ => Some (request_code r, req_info r)
  | None, Some r => Some (result r, res_info r)
  | None, None => None
  end.

Definition CAProcessMulticastData (prng : Z) (data : CAData_t) : MH CAResult_t :=
  match remoteEndpoint data with
  | None => mret CA_STATUS_INVALID_PARAM
  | Some e =>
      match message_of (fun _ => CA_GET) data with
      | None => mret CA_SEND_FAILED
      | Some (code, info) =>
          '(pdu, options) ← CAGeneratePDU prng code info e [];
          match pdu with
          | None => _ ← CASendErrorInfo (Some e) (Some info) CA_SEND_FAILED; mret CA_SEND_FAILED
          | Some pdu =>
              '(res, pdu) ← add_block_options pdu info e options;
              if decide (res <> CA_STATUS_OK) then _ ← CAErrorHandler (Some e) (hdr pdu) (plength pdu) res; mret res
              else
                res ← networking (CASendMulticastData (Some e) (hdr pdu) (plength pdu) (dataType data));
                if decide (res <> CA_STATUS_OK) then _ ← CAErrorHandler (Some e) (hdr pdu) (plength pdu) res; mret res
                else mret res
          end
      end
  end.

(** [prng], [now] and [randomValue] are what the generator of message ids, the
    clock and the random generator give. *)
Definition CAProcessSendData (prng now randomValue : Z) (data : CAData_t) : MH CAResult_t :=
  match remoteEndpoint data with
  | None => mret CA_STATUS_INVALID_PARAM
  | Some e =>
      match sendType data with
      | SEND_TYPE_UNICAST =>
          match message_of method data with
          | None => mret CA_STATUS_INVALID_PARAM
          | Some (code, info) =>
              '(pdu, options) ← CAGeneratePDU prng code info e [];
              match pdu with
              | None => _ ← CASendErrorInfo (Some e) (Some info) CA_SEND_FAILED; mret CA_SEND_FAILED
              | Some pdu =>
                  '(res, pdu) ← add_block_options pdu info e options;
                  if decide (res <> CA_STATUS_OK) then _ ← CAErrorHandler (Some e) (hdr pdu) (plength pdu) res; mret res
                  else
                    res ← networking (CASendUnicastData (Some e) (Some (hdr pdu)) (plength pdu) (dataType data));
                    if decide (res <> CA_STATUS_OK) then
                      _ ← CAErrorHandler (Some e) (hdr pdu) (plength pdu) res; mret res
                    else
                      res ← retransmission_sent now randomValue e (dataType data) (hdr pdu) (plength pdu);
                      mret (if decide (res <> CA_STATUS_OK /\ res <> CA_NOT_SUPPORTED) then res else CA_STATUS_OK)
              end
          end
      | SEND_TYPE_MULTICAST => _ ← CAProcessMulticastData prng data; mret CA_STATUS_OK
      end
  end.

(** A round of the send thread. *)
Definition CASendThreadProcess (prng now randomValue : Z) : MH unit :=
  t ← gets g_sendThread;
  let '(data, t) := CAQueueingThreadBaseRoutine t in
  _ ← modify (set_sendThread t);
  match data with None => mret tt | Some d => _ ← CAProcessSendData prng now randomValue d; mret tt end.

(** A round of the retransmission thread: the calls it makes are made in their
    order when the list has been looked through. *)
Fixpoint retransmission_events (l : list rt_event) : MH unit :=
  match l with
  | [] => mret tt
  | ev :: l =>
      _ ← match ev with
          | data_send e pdu size ty => _ ← networking (CASendUnicastData e pdu size ty); mret tt
          | timeout_callback e pdu size => CATimeoutCallback e pdu size
          end;
      retransmission_events l
  end.

Definition retransmission_round (now : nat -> Z) : MH unit :=
  ctx ← gets g_retransmissionContext; m ← gets retransmission_heap;
  '(ctx', m, evs) ← lift (CARetransmissionBaseRoutine (Some ctx) now m);
  _ ← modify (set_retransmission (default ctx ctx') m);
  retransmission_events evs.

Definition CAPrepareSendData (endpoint : CAEndpoint_t) (sendData : send_message) (ty : option CADataType_t)
    : MH (option CAData_t) :=
  ok ← alloc;
  if negb ok then mret None
  else
    let send_type (multicast : bool) := if multicast then SEND_TYPE_MULTICAST else SEND_TYPE_UNICAST in
    let finish (cadata : CAData_t) : MH (option CAData_t) :=
      ep ← CACloneEndpoint (Some endpoint);
      mret (ep ← ep; Some {| sendType := sendType cadata; remoteEndpoint := Some ep; requestInfo := requestInfo cadata;
                             responseInfo := responseInfo cadata; errorInfo := None; dataType := ty |}) in
    let of_kind st req resp := {| sendType := st; remoteEndpoint := None; requestInfo := req; responseInfo := resp;
                                  errorInfo := None; dataType := None |} in
    match ty, sendData with
    | Some CA_REQUEST_DATA, MsgRequest r =>
        request ← CACloneRequestInfo (Some r);
        match request with
        | None => mret None
        | Some r => finish (of_kind (send_type (req_isMulticast r)) (Some r) None)
        end
    | Some CA_RESPONSE_DATA, MsgResponse r | Some CA_RESPONSE_FOR_RES, MsgResponse r =>
        response ← CACloneResponseInfo (Some r);
        match response with
        | None => mret None
        | Some r => finish (of_kind (send_type (res_isMulticast r)) None (Some r))
        end
    | Some CA_ERROR_DATA, _ | None, _ => mret None
    | _, _ => undefined
    end.

Definition CADetachSendMessage (endpoint : option CAEndpoint_t) (sendMsg : option send_message)
    (ty : option CADataType_t) : MH CAResult_t :=
  match endpoint, sendMsg with
  | Some e, Some msg =>
      available ← CAIsSelectedNetworkAvailable;
      if negb available then mret CA_STATUS_FAILED
      else
        data ← CAPrepareSendData e msg ty;
        match data with
        | None => mret CA_MEMORY_ALLOC_FAILED
        | Some d =>
            if bool_decide (SEND_TYPE_UNICAST = sendType d) && CAIsLocalEndpoint built ip_local (remoteEndpoint d) then
              _ ← queue_receive d; mret CA_STATUS_OK
            else if CAIsSupportedBlockwiseTransfer (adapter e) then
              res ← blockwise no_response (CASendBlockWiseData d);
              if decide (res = CA_NOT_SUPPORTED) then _ ← queue_send d; mret CA_STATUS_OK else mret res
            else _ ← queue_send d; mret CA_STATUS_OK
        end
  | _, _ => mret CA_STATUS_INVALID_PARAM
  end.

(** ** [caconnectivitymanager.c] *)

Definition set_adapter (t : Z) (e : CAEndpoint_t) : CAEndpoint_t := {|
  adapter := t; flags := flags e; port := port e; addr := addr e; ifindex := ifindex e; remoteId := remoteId e |}.

(** Until one fails. *)
Fixpoint send_each (e : CAEndpoint_t) (msg : option send_message) (ty : option CADataType_t) (types : list Z)
    (ret : CAResult_t) : MH CAResult_t :=
  match types with
  | [] => mret ret
  | t :: types =>
      ret ← CADetachSendMessage (Some (set_adapter t e)) msg ty;
      if decide (ret = CA_STATUS_OK) then send_each e msg ty types ret else mret ret
  end.

Definition CASendMessageMultiAdapter (object : option CAEndpoint_t) (sendMsg : option send_message)
    (ty : option CADataType_t) : MH CAResult_t :=
  cloneEp ← CACloneEndpoint object;
  match cloneEp with
  | None => mret CA_MEMORY_ALLOC_FAILED
  | Some e =>
      send_each e sendMsg ty
        (CA_ADAPTER_IP :: filter (fun t => built t)
           [CA_ADAPTER_GATT_BTLE; CA_ADAPTER_RFCOMM_BTEDR; CA_ADAPTER_NFC; CA_ADAPTER_REMOTE_ACCESS; CA_ADAPTER_TCP])
        CA_STATUS_OK
  end.

Definition any_adapter (e : CAEndpoint_t) : bool := (adapter e =? CA_DEFAULT_ADAPTER) || (adapter e =? CA_ALL_ADAPTERS).

(** A multicast request without an endpoint reads through NULL. *)
Definition CASendRequest (object : option CAEndpoint_t) (request : option CARequestInfo_t) : MH CAResult_t :=
  init ← gets g_isInitialized;
  if negb init then mret CA_STATUS_NOT_INITIALIZED
  else
    let msg := MsgRequest <$> request in
    multi ← (match request with
             | Some r => if req_isMulticast r then e ← lift object; mret (any_adapter e) else mret false
             | None => mret false
             end : MH bool);
    if (multi : bool) then CASendMessageMultiAdapter object msg (Some CA_REQUEST_DATA)
    else CADetachSendMessage object msg (Some CA_REQUEST_DATA).

Definition CASendResponse (object : option CAEndpoint_t) (response : option CAResponseInfo_t) : MH CAResult_t :=
  init ← gets g_isInitialized;
  if negb init then mret CA_STATUS_NOT_INITIALIZED
  else
    match object, response with
    | Some e, Some r =>
        let ty := info_dataType (res_info r) in
        if res_isMulticast r && any_adapter e then CASendMessageMultiAdapter object (Some (MsgResponse r)) ty
        else CADetachSendMessage object (Some (MsgResponse r)) ty
    | _, _ => mret CA_STATUS_INVALID_PARAM
    end.

(** ** Receiving *)

Definition set_sendType (t : CASendDataType_t) (d : CAData_t) : CAData_t := {|
  sendType := t; remoteEndpoint := remoteEndpoint d; requestInfo := requestInfo d; responseInfo := responseInfo d;
  errorInfo := errorInfo d; dataType := dataType d |}.

Definition is_request_code (code : Z) : bool :=
  (CA_GET =? code) || (CA_POST =? code) || (CA_PUT =? code) || (CA_DELETE =? code).

(** An answer ends the retransmission of its request; an empty one has the
    token of the request. *)
Definition match_request (sep : CASecureEndpoint_t) (pdu : coap_pdu_t) (code : Z) (d : CAData_t) : MH CAData_t :=
  retransmissionPdu ← retransmission_received (remoteEndpoint d) (hdr pdu) (plength pdu);
  match retransmissionPdu, responseInfo d with
  | Some b, Some r =>
      if CA_EMPTY =? code then i ← token_from b (res_info r); mret (set_responseInfo (Some (set_res_info (fun _ => i) r)) d)
      else mret d
  | _, _ => mret d
  end.

Definition CAReceivedPacketCallback (sep : CASecureEndpoint_t) (data : list Z) (dataLen : Z) : MH unit :=
  if dataLen =? 0 then mret tt
  else
    p ← CAParsePDU data dataLen;
    match p with
    | None => mret tt
    | Some (pdu, code) =>
        let e := sep_endpoint sep in
        cadata ←
          (if is_request_code code then CAGenerateHandlerData e (Some (sep_identity sep)) pdu CA_REQUEST_DATA
           else
             d ← CAGenerateHandlerData e (Some (sep_identity sep)) pdu CA_RESPONSE_DATA;
             match d with None => mret None | Some d => d ← match_request sep pdu code d; mret (Some d) end
           : MH (option CAData_t));
        match cadata with
        | None => mret tt
        | Some d =>
            let d := set_sendType SEND_TYPE_UNICAST d in
            if CAIsSupportedBlockwiseTransfer (adapter e) then
              '(res, d) ← blockwise (fun e r => _ ← CASendResponse e (Some r); mret tt)
                            (CAReceiveBlockWiseData pdu e d dataLen proxyUri);
              if decide (res = CA_NOT_SUPPORTED \/ res = CA_REQUEST_TIMEOUT) then queue_receive d else mret tt
            else queue_receive d
        end
    end.

(** The handler of the first kind of message that is there and has one. *)
Definition handler_of (h : handler) (td : CAData_t) : option handler_call :=
  match requestInfo td, g_requestHandler h with
  | Some r, true => Some (RequestHandler (remoteEndpoint td) r)
  | _, _ =>
      match responseInfo td, g_responseHandler h with
      | Some r, true => Some (ResponseHandler (remoteEndpoint td) r)
      | _, _ =>
          match errorInfo td, g_errorHandler h with
          | Some r, true => Some (ErrorHandler (remoteEndpoint td) r)
          | _, _ => None
          end
      end
  end.

(** Called from the thread of the application; the queue of the receive thread
    is read whether or not that thread runs. *)
Definition CAHandleRequestResponseCallbacks : MH unit :=
  t ← gets g_receiveThread;
  match dataQueue t with
  | Some (td :: q) =>
      _ ← modify (set_receiveThread (set_queue (Some q) t));
      c ← gets (fun h => handler_of h td);
      match c with Some c => modify (add_call c) | None => mret tt end
  | _ => mret tt
  end.

(** ** Starting and stopping *)

Definition CASetInterfaceCallbacks (req resp err : bool) : MH unit := modify (set_handlers req resp err).

(** What the thread pool answers: its creation and the tasks given to it. *)
Record pool_answers := {
  pool_init : CAResult_t;
  add_send : CAResult_t;
  add_retransmission : CAResult_t;
  add_change : CAResult_t;
}.

Definition or_return (res : CAResult_t) (next : MH CAResult_t) : MH CAResult_t :=
  if decide (res = CA_STATUS_OK) then next else mret res.

(** The thread [get] made and set, or made and set halfway. *)
Definition start_queue (put : CAQueueingThread_t CAData_t -> handler -> handler) (get : handler -> CAQueueingThread_t CAData_t)
    : MH CAResult_t :=
  pool ← gets g_threadPoolHandle; t ← gets get;
  '(res, t) ← CAQueueingThreadInitialize pool true t; _ ← modify (put t); mret res.

(** [created] is the new list of the retransmission. *)
Definition CAInitializeMessageHandler (pool : pool_answers) (created : option L)
    (adapters : Z -> list (CAConnectivityHandler_t W)) (transportType : Z) : MH CAResult_t :=
  _ ← networking (CASetPacketReceivedCallback true);
  _ ← networking (CASetErrorHandleCallback true);
  init ← gets g_isInitialized;
  or_return (pool_init pool) (
    _ ← modify (set_running init true);
    res ← start_queue set_sendThread g_sendThread;
    or_return res (
      t ← gets g_sendThread;
      let '(res, t) := CAQueueingThreadStart (add_send pool) t in
      _ ← modify (set_sendThread t);
      or_return res (
        res ← start_queue set_receiveThread g_receiveThread;
        or_return res (
          let '(res, c) := CARetransmissionInitialize true true true true None created in
          m ← gets retransmission_heap; old ← gets g_retransmissionContext;
          _ ← modify (set_retransmission (default old c) m);
          or_return res (
            res ← blockwise no_response (CAInitializeBlockWiseTransfer true true);
            or_return res (
              ctx ← gets g_retransmissionContext;
              or_return (CARetransmissionStart (Some ctx) (add_retransmission pool))
                (networking (CAInitializeAdapters built adapters true (add_change pool) transportType)))))))).

(** What was never made has no mutex and is not stopped. *)
Definition CATerminateMessageHandler : MH unit :=
  _ ← networking CAStopAdapters;
  ctx ← gets g_retransmissionContext; m ← gets retransmission_heap;
  let ctx := if rt_mutex ctx then default ctx (CARetransmissionStop (Some ctx)).2 else ctx in
  _ ← modify (set_retransmission ctx m);
  t ← gets g_sendThread;
  _ ← (if threadMutex t then modify (set_sendThread (CAQueueingThreadStop t).2) else mret tt : MH unit);
  init ← gets g_isInitialized; _ ← modify (set_running init false);
  _ ← blockwise no_response CATerminateBlockWiseTransfer;
  '(_, ctx', m) ← lift (CARetransmissionDestroy (Some ctx) m);
  _ ← modify (set_retransmission (default ctx ctx') m);
  _ ← modify (fun h => set_sendThread (CAQueueingThreadDestroy (g_sendThread h)).2 h);
  _ ← modify (fun h => set_receiveThread (CAQueueingThreadDestroy (g_receiveThread h)).2 h);
  networking CATerminateAdapters.

Definition CAInitialize (pool : pool_answers) (created : option L) (adapters : Z -> list (CAConnectivityHandler_t W))
    (transportType : Z) : MH CAResult_t :=
  init ← gets g_isInitialized;
  if (init : bool) then mret CA_STATUS_OK
  else
    res ← CAInitializeMessageHandler pool created adapters transportType;
    if decide (res = CA_STATUS_OK) then
      p ← gets g_threadPoolHandle; _ ← modify (set_running true p); mret CA_STATUS_OK
    else _ ← CATerminateMessageHandler; mret res.

Definition CATerminate : MH unit :=
  init ← gets g_isInitialized;
  if negb init then mret tt
  else
    _ ← CATerminateMessageHandler;
    _ ← networking CATerminateNetworkType;
    p ← gets g_threadPoolHandle; modify (set_running false p).

(** An operation of a stack that is running. *)
Definition initialized_only (m : MH CAResult_t) : MH CAResult_t :=
  init ← gets g_isInitialized; if negb init then mret CA_STATUS_NOT_INITIALIZED else m.

Definition CAStartListeningServer : MH CAResult_t := initialized_only (networking CAStartListeningServerAdapters).
Definition CAStopListeningServer : MH CAResult_t := initialized_only (networking CAStopListeningServerAdapters).
Definition CAStartDiscoveryServer : MH CAResult_t := initialized_only (networking CAStartDiscoveryServerAdapters).

Definition CARegisterHandler (req resp err : bool) : MH unit :=
  init ← gets g_isInitialized; if negb init then mret tt else CASetInterfaceCallbacks req resp err.

Definition CAGetNetworkInformation (info size : bool)
    : MH (CAResult_t * option (list (option CAEndpoint_t) * Z)) :=
  init ← gets g_isInitialized;
  if negb init then mret (CA_STATUS_NOT_INITIALIZED, None)
  else networking (CAGetNetworkInformationInternal info size).

(** The first transport of the mask that the build knows, in the order of the
    tests. *)
Definition first_type (mask : Z) : option Z :=
  find (fun t => negb (Z.land mask t =? 0))
    (filter (fun t => (always_known t || built t : bool))
       [CA_ADAPTER_IP; CA_ADAPTER_RFCOMM_BTEDR; CA_ADAPTER_GATT_BTLE; CA_ADAPTER_REMOTE_ACCESS; CA_ADAPTER_TCP;
        CA_ADAPTER_NFC]).

Definition CASelectNetwork (interestedNetwork : Z) : MH CAResult_t :=
  initialized_only
    match first_type interestedNetwork with
    | Some t => networking (CAAddNetworkType built t)
    | None => mret CA_NOT_SUPPORTED
    end.

(** NFC is not among the networks that can be given up. *)
Definition CAUnSelectNetwork (nonInterestedNetwork : Z) : MH CAResult_t :=
  initialized_only
    match first_type nonInterestedNetwork with
    | Some t => if t =? CA_ADAPTER_NFC then mret CA_STATUS_FAILED else networking (CARemoveNetworkType built t)
    | None => mret CA_STATUS_FAILED
    end.

Definition CAHandleRequestResponse : MH CAResult_t :=
  initialized_only (_ ← CAHandleRequestResponseCallbacks; mret CA_STATUS_OK).
End Environment.
End Handler.
Arguments handler : clear implicits.
