(* ===== verification/MessageDelivery.v ===== *)
(** * MessageDelivery: a message from one stack to the handlers of another

    Theorems about [MessageHandler]: what happens to a message between the call
    that sends it and the handler that is called for it, put together from the
    specifications of the parts. *)
From S2P Require Import Prelude Effects Chain UArrayList CaCommon QueueingThread Network CoapOption CoapPdu CoapUri CaMessage ProtocolMessage CoapMessage CoapReceive CoapRoundTrip BlockTransfer BlockUpload Retransmission MessageHandler.

#[local] Arguments wrap : simpl never.

(** ** What a transfer hands out while sending *)

Section Emits.
(** The operation hands out nothing but messages for the send thread. *)
Definition only_sends {A} (m : M Ctx A) : Prop :=
  forall c a c', m c = Some (a, c') -> exists ds, out c' = out c ++ (SendThread <$> ds).

Lemma sends_same {A} (m : M Ctx A) : (forall c a c', m c = Some (a, c') -> out c' = out c) -> only_sends m.
Proof. intros Hm c a c' E. exists []. rewrite (Hm c a c' E). by rewrite app_nil_r. Qed.

Lemma sends_ret {A} (a : A) : only_sends (mret a).
Proof. apply sends_same. by intros c b c' [= _ <-]. Qed.
Lemma sends_lift {A} (x : ub A) : only_sends (lift x).
Proof. apply sends_same. unfold lift. intros c b c' E. destruct x; by simplify_eq. Qed.
Lemma sends_gets {A} (f : Ctx -> A) : only_sends (gets f).
Proof. apply sends_same. by intros c b c' [= _ <-]. Qed.
Lemma sends_undefined {A} : only_sends (@undefined Ctx A).
Proof. by intros c a c'. Qed.
Lemma sends_modify f : (forall c, out (f c) = out c) -> only_sends (modify f).
Proof. intros Hf. apply sends_same. by intros c b c' [= _ <-]. Qed.
Lemma sends_add d : only_sends (modify (add_out (SendThread d))).
Proof. intros c b c' [= _ <-]. by exists [d]. Qed.
Lemma sends_alloc : only_sends (alloc (S:=Ctx)).
Proof. apply sends_same. unfold alloc. intros c b c' E. destruct (allocs_of c); by simplify_eq. Qed.
Lemma sends_bind {A B} (m : M Ctx A) (f : A -> M Ctx B) : only_sends m -> (forall a, only_sends (f a)) -> only_sends (m ≫= f).
Proof.
  intros Hm Hf c b c' E. apply run_bind_inv in E as (a & c1 & E1 & E2).
  destruct (Hm _ _ _ E1) as [ds1 O1]. destruct (Hf _ _ _ _ E2) as [ds2 O2].
  exists (ds1 ++ ds2). by rewrite O2, O1, <- app_assoc, fmap_app.
Qed.
Lemma sends_deref p : only_sends (deref p).
Proof. apply sends_same. unfold deref. intros c b c' E. destruct (find _ _); by simplify_eq. Qed.

Lemma sends_malloc n : only_sends (OICMalloc n).
Proof. unfold OICMalloc. destruct (n =? 0); [apply sends_ret|apply sends_alloc]. Qed.

#[local] Ltac sends :=
  repeat first
    [ apply sends_ret | apply sends_lift | apply sends_gets | apply sends_undefined | apply sends_alloc | apply sends_add
    | apply sends_deref | apply sends_malloc
    | apply sends_modify; done
    | apply sends_bind; [|intros ?]
    | match goal with |- only_sends (match ?x with _ => _ end) => destruct x end
    | match goal with |- only_sends (let _ := _ in _) => cbv zeta end ].

Lemma sends_assign p f : only_sends (assign p f).
Proof. unfold assign. sends. Qed.
Lemma sends_string s : only_sends (clone_string (S:=Ctx) s).
Proof. unfold clone_string. sends. Qed.
Lemma sends_request r : only_sends (CACloneRequestInfo (S:=Ctx) r).
Proof. unfold CACloneRequestInfo, CACloneInfo, clone_field, clone_string. sends. Qed.
Lemma sends_response r : only_sends (CACloneResponseInfo (S:=Ctx) r).
Proof. unfold CACloneResponseInfo, CACloneInfo, clone_field, clone_string. sends. Qed.
Lemma sends_clone d : only_sends (CACloneCAData (S:=Ctx) d).
Proof. unfold CACloneCAData, CACloneEndpoint. repeat (sends; first [apply sends_request | apply sends_response | idtac]). Qed.
Lemma sends_id t n a p : only_sends (CACreateBlockDatablockId t n a p).
Proof. unfold CACreateBlockDatablockId. sends. Qed.

(** Sending a message starts no response of its own. *)
Lemma send_starts_no_response d : only_sends (CASendBlockWiseData d).
Proof.
  unfold CASendBlockWiseData, refused_message, CAGetBlockMulticastDataFromListWithSeed, CACreateNewBlockMulticastData,
    CACheckBlockDataValidation, CAUpdateDataSetFromBlockDataList, CACreateNewBlockData, CACheckBlockOptionType,
    CAAddSendThreadQueue.
  repeat (sends; first [apply sends_clone | apply sends_id | apply sends_assign | apply sends_string
                       | apply sends_request | apply sends_response | idtac]).
Qed.
End Emits.

Section Delivery.
Context {L : Type} `{PtrList L loc} {W : Type}.
#[local] Abbreviation handler := (handler L W).
Context (built : Z -> bool) (ip_local : CAEndpoint_t -> bool) (proxyUri : list Z).

(** ** Steps of the parts *)

(** No allocation fails, and nothing is on its way out of a transfer. *)
Record quiet (h : handler) : Prop := {
  quiet_allocs : allocs_of h = [];
  quiet_net : allocs_of (net h) = [];
  quiet_block : allocs_of (block h) = [];
  quiet_out : out (block h) = [];
}.

Lemma run_networking {A} (m : M (network W) A) (h : handler) a n : quiet h ->
  m (net h) = Some (a, n) -> allocs_of n = [] -> networking m h = Some (a, set_net n h).
Proof.
  intros [Hh Hn _ _] Hm Hn'. unfold networking.
  rewrite (run_zoom net set_net m h a n).
  - f_equal. f_equal. rewrite Hn'. simpl in Hh. destruct h; cbn in *. by rewrite Hh.
  - rewrite Hh. simpl in Hn. destruct (net h) eqn:En; cbn in *. by rewrite <- Hn at 1.
Qed.

Lemma run_queue_send d (h : handler) q : allocs_of h = [] -> dataQueue (g_sendThread h) = Some q ->
  queue_send d h = Some (tt, set_sendThread (set_queue (Some (q ++ [d])) (g_sendThread h)) h).
Proof. intros Hh Hq. unfold queue_send. step (run_gets _ h). by step (add_data_ok d _ q h Hh Hq). Qed.

Lemma run_queue_receive d (h : handler) q : allocs_of h = [] -> dataQueue (g_receiveThread h) = Some q ->
  queue_receive d h = Some (tt, set_receiveThread (set_queue (Some (q ++ [d])) (g_receiveThread h)) h).
Proof. intros Hh Hq. unfold queue_receive. step (run_gets _ h). by step (add_data_ok d _ q h Hh Hq). Qed.

(** What would be done with a response is of no consequence when a message is
    sent. *)
Lemma hand_out_sends respond ds (h : handler) :
  hand_out respond (SendThread <$> ds) h = hand_out no_response (SendThread <$> ds) h.
Proof.
  revert h. induction ds as [|x ds IH]; intros h; [done|]. cbn [fmap list_fmap hand_out].
  unfold mbind, M_bind. by destruct (CAAddDataToSendThread (Some x) h) as [[? ?]|].
Qed.

Lemma sending_needs_no_response respond d (h : handler) : out (block h) = [] ->
  blockwise respond (CASendBlockWiseData d) h = blockwise no_response (CASendBlockWiseData d) h.
Proof.
  intros Ho. unfold blockwise. destruct (zoom block set_block (CASendBlockWiseData d) h) as [[a h1]|] eqn:E.
  - step E. step E. step (run_gets _ h1). step (run_gets _ h1). step (run_modify _ h1). step (run_modify _ h1).
    assert (exists ds, out (block h1) = SendThread <$> ds) as [ds ->].
    { unfold zoom in E. destruct (CASendBlockWiseData d _) as [[b c]|] eqn:Eb; [|done]. injection E as <- <-.
      destruct (send_starts_no_response d _ _ _ Eb) as [ds Eo]. exists ds. cbn. cbn in Eo. by rewrite Eo, Ho. }
    unfold mbind, M_bind. by rewrite hand_out_sends.
  - by rewrite !run_bind_undef by done.
Qed.

(** ** The sender *)

(** The request as it waits in the queue. *)
Definition queued_request (e : CAEndpoint_t) (r : CARequestInfo_t) : CAData_t := {|
  sendType := SEND_TYPE_UNICAST; remoteEndpoint := Some e; requestInfo := Some (copy_request r); responseInfo := None;
  errorInfo := None; dataType := Some CA_REQUEST_DATA |}.

Lemma prepare_request e r (h : handler) : allocs_of h = [] -> method_ok (method r) -> info_ok (req_info r) ->
  req_isMulticast r = false ->
  CAPrepareSendData e (MsgRequest r) (Some CA_REQUEST_DATA) h = Some (Some (queued_request e r), h).
Proof.
  intros Hh Hm Hi Hu. unfold CAPrepareSendData. step (alloc_ok h Hh). cbn [negb]. cbv zeta.
  destruct (CACloneRequestInfo_copies (S:=handler) r Hm Hi h) as (c & h' & E & _ & _ & Hok).
  destruct (Hok Hh) as [-> ->]. step E. cbn beta iota.
  match goal with |- context [(?m ≫= _) h] => assert (m h = Some (Some e, h)) as E2 end.
  { unfold CACloneEndpoint. by step (alloc_ok h Hh). }
  step E2. unfold queued_request, copy_request. cbn. by rewrite Hu.
Qed.

(** A selected network, and the transport without block-wise transfer that is
    never local. *)
Lemma detach_request e r (h : handler) q : quiet h -> adapter e = CA_ADAPTER_GATT_BTLE ->
  method_ok (method r) -> info_ok (req_info r) -> req_isMulticast r = false ->
  default [] (g_selectedNetworkList (net h)) <> [] -> dataQueue (g_sendThread h) = Some q ->
  CADetachSendMessage built ip_local (Some e) (Some (MsgRequest r)) (Some CA_REQUEST_DATA) h
  = Some (CA_STATUS_OK, set_sendThread (set_queue (Some (q ++ [queued_request e r])) (g_sendThread h)) h).
Proof.
  intros Hq He Hm Hi Hu Hs Hd. pose proof (quiet_allocs h Hq) as Hh. unfold CADetachSendMessage.
  match goal with |- context [(?m ≫= _) h] => assert (m h = Some (true, h)) as E end.
  { unfold CAIsSelectedNetworkAvailable.
    assert (networking CAGetSelectedNetworkList h = Some (g_selectedNetworkList (net h), h)) as E.
    { rewrite (run_networking _ h (g_selectedNetworkList (net h)) (net h)); [by destruct h|done|done|apply Hq]. }
    step E. by rewrite bool_decide_eq_false_2. }
  step E. cbn [negb]. step (prepare_request e r h Hh Hm Hi Hu). cbn beta iota.
  assert (CAIsLocalEndpoint built ip_local (Some e) = false) as El.
  { unfold CAIsLocalEndpoint. rewrite He. change (negb (_ =? 0)) with false. by rewrite andb_false_r. }
  cbn [remoteEndpoint sendType queued_request]. rewrite El, andb_false_r, He.
  change (CAIsSupportedBlockwiseTransfer CA_ADAPTER_GATT_BTLE) with false. cbv iota.
  by step (run_queue_send (queued_request e r) h q Hh Hd).
Qed.

(** The packet as the retransmission keeps it. *)
Definition kept (now rnd id : Z) (e : CAEndpoint_t) (ty : option CADataType_t) (p : coap_pdu_t)
    : CARetransmissionData_t := {|
  timeStamp := now; timeout := CAGetTimeoutValue rnd; triedCount := 0; Retransmission.messageId := id;
  rt_dataType := ty; rt_endpoint := Some e; rt_pdu := Some (packet p); rt_size := plength p |}.

Lemma reads_answer p t code id tok os d : reads p (type_code t) code id tok os d -> is_byte code -> 0 <= id < 2 ^ 16 ->
  Z.of_nat (length tok) < 16 -> answer (hdr p) (plength p) t code id /\ plength p <= Z.of_nat (length (hdr p)).
Proof.
  intros Hr Hc Hi Ht. pose proof Hr as [[[rest E] Hl] _ _ _ _].
  split; [|rewrite Hl, E, length_app; lia]. split; [|split; [done|split; [done|]]].
  - rewrite Hl, length_message. unfold CA_PDU_MIN_SIZE. lia.
  - destruct (reads_first Hr) as [r Er]. exists (Z.of_nat (length tok)), r. split; [lia|]. by rewrite Er.
Qed.

Lemma run_retransmission_sent now rnd e ty p t code id tok os d xs (h : handler) : allocs_of h = [] ->
  context_holds (g_retransmissionContext h) (retransmission_heap h) xs ->
  reads p (type_code t) code id tok os d -> is_byte code -> 0 <= id < 2 ^ 16 -> Z.of_nat (length tok) < 16 ->
  exists res c m, retransmission_sent now rnd e ty (hdr p) (plength p) h = Some (res, set_retransmission c m h) /\
    (supported (g_retransmissionContext h) e -> t = CA_MSG_CONFIRM ->
     Forall (fun x => matches id (adapter e) x.2 = false) xs -> Z.of_nat (length xs) < 2 ^ 58 ->
     res = CA_STATUS_OK /\
     context_holds c m (xs ++ [(base.fresh (dom (retransmission_heap h)), kept now rnd id e ty p)])).
Proof.
  intros Hh Hc Hr Hcode Hid Htok. destruct (reads_answer p t code id tok os d Hr Hcode Hid Htok) as [Ha Hsz].
  unfold retransmission_sent. step (alloc_ok h Hh). step (alloc_ok h Hh). step (alloc_ok h Hh). step (alloc_ok h Hh).
  step (run_gets _ h). step (run_gets _ h).
  set (al := {| al_data := true; al_pdu := true; al_endpoint := true; al_list := true |}).
  destruct (sent_data_cases al now rnd _ _ xs e ty (hdr p) (plength p) t code id Hc Ha Hsz eq_refl eq_refl eq_refl)
    as (Hns & Hdup & Hnew). fold (packet p) in Hnew.
  destruct (decide (supported (g_retransmissionContext h) e /\ t = CA_MSG_CONFIRM)) as [[Hs ->]|Hn].
  - destruct (decide (Exists (fun x => matches id (adapter e) x.2 = true) xs)) as [Hex|Hex].
    + step (run_lift _ _ h (Hdup Hs eq_refl Hex)). cbn beta iota. step (run_modify _ h).
      do 3 eexists. split; [apply run_ret|]. intros _ _ Hf. exfalso. apply Exists_exists in Hex as (x & Hx & E).
      rewrite Forall_forall in Hf. by rewrite (Hf x Hx) in E.
    + assert (Forall (fun x => matches id (adapter e) x.2 = false) xs) as Hf.
      { apply Forall_forall. intros x Hx. apply not_true_iff_false. intros E. apply Hex, Exists_exists. by exists x. }
      destruct (Hnew Hs eq_refl Hf) as (c' & b & E & Hc' & Hb). step (run_lift _ _ h E). cbn beta iota.
      step (run_modify _ h). do 3 eexists. split; [apply run_ret|]. intros _ _ _ Hlen. split; [done|].
      by rewrite (Hb eq_refl Hlen) in Hc'.
  - assert (~ supported (g_retransmissionContext h) e \/ t <> CA_MSG_CONFIRM) as Hor.
    { destruct (decide (supported (g_retransmissionContext h) e)); [|by left]. right. intros ->. by apply Hn. }
    step (run_lift _ _ h (Hns Hor)). cbn beta iota. step (run_modify _ h).
    do 3 eexists. split; [apply run_ret|]. intros Hs Ht. by destruct Hor.
Qed.

(** The state after the packet [p] has been given to the adapters. *)
Definition transmitted (h : handler) (e : CAEndpoint_t) (p : coap_pdu_t) (ty : option CADataType_t) (l : list Z) : handler :=
  set_net (set_world (handed (net h) e (Some (hdr p)) (plength p) ty (filter (fun t => requested e t) l) (world (net h)))
             (net h)) h.

(** The settings of a message that an endpoint can be sent. *)
Record can_transmit (h : handler) (e : CAEndpoint_t) (l : list Z) (xs : list (loc * CARetransmissionData_t)) : Prop := {
  ct_quiet : quiet h;
  ct_selected : g_selectedNetworkList (net h) = Some l;
  ct_adapters : Forall (can_send (net h)) (filter (fun t => requested e t) l);
  ct_retransmission : context_holds (g_retransmissionContext h) (retransmission_heap h) xs;
}.

(** A request of which the packet [p] is made, on a transport without
    block-wise transfer. *)
Lemma process_packet prng now rnd e r p options tok os d l xs (h : handler) : can_transmit h e l xs ->
  CAIsSupportedBlockwiseTransfer (adapter e) = false ->
  CAGeneratePDU prng (method r) (copy_info (req_info r)) e [] h = Some ((Some p, options), h) ->
  let id := sent_id prng (req_info r) in 0 <= id < 65536 ->
  reads p (type_code (type (req_info r))) (code_byte (method r)) id tok os d ->
  exists res c m,
    CAProcessSendData proxyUri prng now rnd (queued_request e r) h
    = Some (res, set_retransmission c m (transmitted h e p (Some CA_REQUEST_DATA) l)) /\
    (supported (g_retransmissionContext h) e -> type (req_info r) = CA_MSG_CONFIRM ->
     Forall (fun x => matches id (adapter e) x.2 = false) xs -> Z.of_nat (length xs) < 2 ^ 58 ->
     res = CA_STATUS_OK /\
     context_holds c m (xs ++ [(base.fresh (dom (retransmission_heap h)), kept now rnd id e (Some CA_REQUEST_DATA) p)])).
Proof.
  intros [Hq Hl Ha Hx] He Ep id Hid Hp. pose proof (quiet_allocs h Hq) as Hh.
  set (st := transmitted h e p (Some CA_REQUEST_DATA) l).
  destruct (run_retransmission_sent now rnd e (Some CA_REQUEST_DATA) p (type (req_info r)) (code_byte (method r)) id tok
    os d xs st Hh Hx Hp) as (res & c & m & Er & Hkept).
  { apply code_byte_range. }
  { done. }
  { pose proof (reads_token _ _ _ _ _ _ _ Hp). lia. }
  exists (if decide (res <> CA_STATUS_OK /\ res <> CA_NOT_SUPPORTED) then res else CA_STATUS_OK), c, m. split.
  - unfold CAProcessSendData. cbn [remoteEndpoint sendType message_of requestInfo queued_request copy_request set_req_info
      method req_info]. step Ep. cbn beta iota.
    assert (add_block_options p (copy_info (req_info r)) e options h = Some ((CA_STATUS_OK, p), h)) as Eb
      by (unfold add_block_options; by rewrite He).
    step Eb. cbn beta iota. rewrite decide_False by (intros Hn; by apply Hn).
    assert (networking (CASendUnicastData (Some e) (Some (hdr p)) (plength p) (Some CA_REQUEST_DATA)) h
      = Some (CA_STATUS_OK, st)) as En.
    { apply run_networking; [done|by apply send_unicast_spec|apply Hq]. }
    step En. rewrite decide_False by (intros Hn; by apply Hn). by step Er.
  - intros Hsup Hc Hf Hlen. destruct (Hkept Hsup Hc Hf Hlen) as [-> Hc']. by rewrite decide_False by naive_solver.
Qed.

Lemma process_request prng now rnd e r segs qs tok d l xs (h : handler) : can_transmit h e l xs ->
  adapter e = CA_ADAPTER_GATT_BTLE -> sendable prng (method r) (copy_info (req_info r)) segs qs tok d ->
  let id := sent_id prng (req_info r) in
  exists p res c m,
    CAProcessSendData proxyUri prng now rnd (queued_request e r) h
    = Some (res, set_retransmission c m (transmitted h e p (Some CA_REQUEST_DATA) l)) /\
    reads p (type_code (type (req_info r))) (code_byte (method r)) id tok
      (sent_options segs qs (copy_info (req_info r))) d /\
    (supported (g_retransmissionContext h) e -> type (req_info r) = CA_MSG_CONFIRM ->
     Forall (fun x => matches id (adapter e) x.2 = false) xs -> Z.of_nat (length xs) < 2 ^ 58 ->
     res = CA_STATUS_OK /\
     context_holds c m (xs ++ [(base.fresh (dom (retransmission_heap h)), kept now rnd id e (Some CA_REQUEST_DATA) p)])).
Proof.
  intros Hct He Hs id. pose proof (quiet_allocs h (ct_quiet _ _ _ _ Hct)) as Hh.
  destruct (generate_spec prng (method r) (copy_info (req_info r)) e segs qs tok d h Hh He Hs) as (p & Ep & Hp).
  exists p. edestruct (process_packet prng now rnd e r p) as (res & c & m & Er & Hkept);
    [exact Hct|by rewrite He|exact Ep|exact (snd_id _ _ _ _ _ _ _ Hs)|exact Hp|]. by exists res, c, m.
Qed.

(** A request for a Bluetooth EDR endpoint is sent as its header and token
    alone: its URI, its options and its payload are left to a block-wise
    transfer that this transport does not have. *)
Theorem edr_request_is_bare prng now rnd e r segs qs tok d l xs (h : handler) : can_transmit h e l xs ->
  adapter e = CA_ADAPTER_RFCOMM_BTEDR -> sendable prng (method r) (copy_info (req_info r)) segs qs tok d ->
  exists p res c m,
    CAProcessSendData proxyUri prng now rnd (queued_request e r) h
    = Some (res, set_retransmission c m (transmitted h e p (Some CA_REQUEST_DATA) l)) /\
    packet p = header_bytes (type_code (type (req_info r))) (Z.of_nat (length tok)) (code_byte (method r))
                 (sent_id prng (req_info r)) ++ tok.
Proof.
  intros Hct He Hs. pose proof (quiet_allocs h (ct_quiet _ _ _ _ Hct)) as Hh.
  destruct (generate_bare prng (method r) (copy_info (req_info r)) e segs qs tok d h Hh ltac:(by rewrite He) Hs) as (p & Ep & Hp).
  exists p. edestruct (process_packet prng now rnd e r p) as (res & c & m & Er & _);
    [exact Hct|by rewrite He|exact Ep|exact (snd_id _ _ _ _ _ _ _ Hs)|exact Hp|]. exists res, c, m. split; [done|].
  rewrite (reads_packet _ _ _ _ _ _ _ Hp). unfold message_bytes. by rewrite app_nil_r.
Qed.

(** ** The receiver *)

(** What the handler is given. *)
Definition arrived (prng : Z) (sep : CASecureEndpoint_t) (code : Z) (info : CAInfo_t) (segs qs : list (list Z))
    (tok d : list Z) : CARequestInfo_t := {|
  method := code; req_info := set_identity (sep_identity sep) (delivered prng info segs qs tok d);
  req_isMulticast := false |}.

(** The queue entry of a request. *)
Definition received_request (e : CAEndpoint_t) (r : CARequestInfo_t) : CAData_t := {|
  sendType := SEND_TYPE_UNICAST; remoteEndpoint := Some e; requestInfo := Some r; responseInfo := None;
  errorInfo := None; dataType := Some CA_REQUEST_DATA |}.

Lemma generate_handler_request prng sep p code info segs qs tok d (h : handler) : allocs_of h = [] ->
  adapter (sep_endpoint sep) <> CA_ADAPTER_IP -> sendable prng code info segs qs tok d ->
  reads p (type_code (type info)) (code_byte code) (sent_id prng info) tok (sent_options segs qs info) d ->
  CAGenerateHandlerData proxyUri (sep_endpoint sep) (Some (sep_identity sep)) p CA_REQUEST_DATA h
  = Some (Some (handler_data (sep_endpoint sep) CA_REQUEST_DATA (Some (arrived prng sep code info segs qs tok d)) None None), h).
Proof.
  intros Hh He Hs Hp. unfold CAGenerateHandlerData. step (alloc_ok h Hh). cbn [negb].
  match goal with |- context [(?m ≫= _) h] => assert (m h = Some (Some (sep_endpoint sep), h)) as E end.
  { unfold CACloneEndpoint. by step (alloc_ok h Hh). }
  step E. cbn beta iota. step (alloc_ok h Hh). cbn [negb].
  destruct (receive_spec p prng code info segs qs tok d proxyUri h Hh Hs Hp) as (o & Eo & E1 & E2 & E3 & E4).
  assert (CAGetRequestInfoFromPDU p proxyUri h = Some ((CA_STATUS_OK,
    {| method := code; req_info := delivered prng info segs qs tok d; req_isMulticast := false |}, []), h)) as Er.
  { unfold CAGetRequestInfoFromPDU. step Eo. by rewrite E1, E2, E3, E4. }
  step Er. cbn beta iota. rewrite decide_False by (intros Hn; by apply Hn). cbv zeta. cbn [req_info].
  match goal with |- context [(?m ≫= _) h] => assert (m h = Some (false, h)) as Ed end.
  { destruct (decide _); [|done]. step (run_gets _ h). unfold CADropSecondMessage.
    rewrite (proj2 (Z.eqb_neq _ _)) by done. cbn [negb]. step (run_lift _ _ h eq_refl). cbn beta iota.
    step (run_modify _ h). by destruct h. }
  step Ed. done.
Qed.

Lemma receive_request prng sep p code info segs qs tok d q (h : handler) : allocs_of h = [] ->
  adapter (sep_endpoint sep) = CA_ADAPTER_GATT_BTLE -> is_request_code code = true ->
  sendable prng code info segs qs tok d ->
  reads p (type_code (type info)) (code_byte code) (sent_id prng info) tok (sent_options segs qs info) d ->
  dataQueue (g_receiveThread h) = Some q ->
  CAReceivedPacketCallback built ip_local proxyUri sep (packet p) (Z.of_nat (length (packet p))) h
  = Some (tt, set_receiveThread (set_queue
      (Some (q ++ [received_request (sep_endpoint sep) (arrived prng sep code info segs qs tok d)])) (g_receiveThread h)) h).
Proof.
  intros Hh He Hcode Hs Hp Hd. unfold CAReceivedPacketCallback.
  pose proof Hp as [_ _ Hhd Htok Hos]. destruct (code_byte_inv code (proj1 (snd_code _ _ _ _ _ _ _ Hs))) as [Ec Ez].
  rewrite (reads_packet _ _ _ _ _ _ _ Hp).
  rewrite (proj2 (Z.eqb_neq _ _)) by (rewrite length_message; lia).
  destruct (parse_pdu_spec (type_code (type info)) (code_byte code) (sent_id prng info) tok (sent_options segs qs info) d h Hh Hhd)
    as (p' & Ep & Hp'); [|done|done|exact (snd_fits _ _ _ _ _ _ _ Hs)|].
  { intros E. by apply (snd_code _ _ _ _ _ _ _ Hs), Ez. }
  step Ep. cbn beta iota. rewrite Ec. cbv zeta. rewrite Hcode.
  step (generate_handler_request prng sep p' code info segs qs tok d h Hh ltac:(by rewrite He) Hs Hp'). cbn beta iota.
  rewrite He. change (CAIsSupportedBlockwiseTransfer CA_ADAPTER_GATT_BTLE) with false. cbv iota.
  by apply run_queue_receive.
Qed.

Lemma handle_request e r q (h : handler) : g_requestHandler h = true ->
  dataQueue (g_receiveThread h) = Some (received_request e r :: q) ->
  CAHandleRequestResponseCallbacks h
  = Some (tt, add_call (RequestHandler (Some e) r) (set_receiveThread (set_queue (Some q) (g_receiveThread h)) h)).
Proof.
  intros Hr Hd. unfold CAHandleRequestResponseCallbacks. step (run_gets _ h). rewrite Hd. step (run_modify _ h).
  step (run_gets _ _). unfold handler_of. cbn [requestInfo received_request]. 
  change (g_requestHandler (set_receiveThread _ h)) with (g_requestHandler h). by rewrite Hr.
Qed.

(** ** From end to end *)

(** C6: A request the application hands to its stack for a BLE endpoint is
    queued, turned into one packet by the next round of the send thread and
    given once to the adapters of the networks the endpoint names; when the bytes of
    that packet arrive at a stack whose queue is empty, its request handler is
    called once, with the sender's endpoint and identity and the method, type, message id,
    token, URI, options and payload that were sent.  A confirmable request is
    then the last in the retransmission list of the sender, with the packet
    that was sent, if it is sent again over that transport and no message with
    its id waits there.  The two stacks have memory and empty queues, and the
    request fits a packet ([sendable]). *)
Theorem request_delivered prng now rnd e r segs qs tok d l xs sep (h1 h2 : handler) :
  can_transmit h1 e l xs -> adapter e = CA_ADAPTER_GATT_BTLE -> running (g_sendThread h1) [] -> l <> [] ->
  method_ok (method r) -> info_ok (req_info r) -> req_isMulticast r = false ->
  sendable prng (method r) (copy_info (req_info r)) segs qs tok d ->
  quiet h2 -> dataQueue (g_receiveThread h2) = Some [] -> g_requestHandler h2 = true ->
  adapter (sep_endpoint sep) = CA_ADAPTER_GATT_BTLE ->
  exists p h1' h1'' h2' c m,
    CADetachSendMessage built ip_local (Some e) (Some (MsgRequest r)) (Some CA_REQUEST_DATA) h1 = Some (CA_STATUS_OK, h1') /\
    CASendThreadProcess proxyUri prng now rnd h1' = Some (tt, h1'') /\
    h1'' = set_retransmission c m (transmitted h1 e p (Some CA_REQUEST_DATA) l) /\
    CAReceivedPacketCallback built ip_local proxyUri sep (packet p) (plength p) h2 = Some (tt, h2') /\
    CAHandleRequestResponseCallbacks h2'
    = Some (tt, add_call (RequestHandler (Some (sep_endpoint sep))
                  (arrived prng sep (method r) (copy_info (req_info r)) segs qs tok d)) h2) /\
    (supported (g_retransmissionContext h1) e -> type (req_info r) = CA_MSG_CONFIRM ->
     Forall (fun x => matches (sent_id prng (req_info r)) (adapter e) x.2 = false) xs -> Z.of_nat (length xs) < 2 ^ 58 ->
     context_holds c m (xs ++ [(base.fresh (dom (retransmission_heap h1)),
                                kept now rnd (sent_id prng (req_info r)) e (Some CA_REQUEST_DATA) p)])).
Proof.
  intros Hct He [Hrun Hq] Hl Hm Hi Hu Hs Hq2 Hd2 Hr2 He2. pose proof Hct as [Hq1 Hsel Ha Hx].
  destruct (process_request prng now rnd e r segs qs tok d l xs h1 Hct He Hs) as (p & res & c & m & Ep & Hp & Hkept).
  exists p. do 3 eexists. exists c, m.
  split; [apply (detach_request e r h1 [] Hq1 He Hm Hi Hu ltac:(by rewrite Hsel) Hq)|].
  split; [|split; [done|split; [|split]]].
  - unfold CASendThreadProcess. step (run_gets _ _). unfold CAQueueingThreadBaseRoutine.
    cbn [g_sendThread set_sendThread qt_isStop set_queue dataQueue app]. rewrite Hrun. cbn beta iota.
    step (run_modify _ _).
    assert (forall h : handler, dataQueue (g_sendThread h) = Some [] ->
      set_sendThread (set_queue (Some []) (set_queue (Some [queued_request e r]) (g_sendThread h)))
        (set_sendThread (set_queue (Some [queued_request e r]) (g_sendThread h)) h) = h) as Hback.
    { intros [? ? [] ?] Eq; cbn in *. by rewrite Eq. }
    rewrite Hback by done. by step Ep.
  - replace (plength p) with (Z.of_nat (length (packet p))).
    + apply (receive_request prng sep p (method r) (copy_info (req_info r)) segs qs tok d [] h2); try done; [apply Hq2|].
      unfold method_ok in Hm. rewrite !elem_of_cons in Hm. by destruct Hm as [->|[->|[->|[->|Hm%not_elem_of_nil]]]].
    + rewrite (reads_packet _ _ _ _ _ _ _ Hp). by destruct Hp as [[_ ->] _ _ _ _].
  - rewrite (handle_request (sep_endpoint sep) (arrived prng sep (method r) (copy_info (req_info r)) segs qs tok d) [])
      by done.
    f_equal. f_equal. destruct h2 as [? ? ? []]; cbn in *. by rewrite Hd2.
  - intros. by apply Hkept.
Qed.

(** ** A request that is not answered *)

(** What the handler is told. *)
Definition timed_out (t : CAMessageType_t) (id : Z) (tok : list Z) : CAResponseInfo_t := {|
  result := CA_RETRANSMIT_TIMEOUT; res_isMulticast := false;
  res_info := set_token (if decide (tok = []) then None else Some tok) (Z.of_nat (length tok))
                (set_messageId id (CaMessage.set_type t zero_info)) |}.

Definition received_response (e : CAEndpoint_t) (r : CAResponseInfo_t) : CAData_t := {|
  sendType := SEND_TYPE_UNICAST; remoteEndpoint := Some e; requestInfo := None; responseInfo := Some r;
  errorInfo := None; dataType := None |}.

Lemma token_of_packet tok i (h : handler) bs : allocs_of h = [] -> coap_get_token2 bs = Some tok -> token i = None ->
  CAGetTokenFromPDU bs i h
  = Some ((CA_STATUS_OK, set_token (if decide (tok = []) then None else Some tok) (Z.of_nat (length tok)) i), h).
Proof.
  intros Hh Ht Hi. unfold CAGetTokenFromPDU. step (run_lift _ _ h Ht). destruct (decide (tok = [])) as [->|Hn].
  - rewrite bool_decide_eq_true_2 by done. by rewrite Hi.
  - rewrite bool_decide_eq_false_2 by done. unfold duplicate. 
    match goal with |- context [(?m ≫= _) h] => assert (m h = Some (Some tok, h)) as E end; [by step (alloc_ok h Hh)|].
    by step E.
Qed.

Lemma timeout_queued e p t code id tok os d q (h : handler) : allocs_of h = [] ->
  CAIsSupportedBlockwiseTransfer (adapter e) = false -> reads p (type_code t) code id tok os d ->
  is_byte code -> 0 <= id < 2 ^ 16 -> dataQueue (g_receiveThread h) = Some q ->
  CATimeoutCallback (Some e) (Some (packet p)) (plength p) h
  = Some (tt, set_receiveThread (set_queue (Some (q ++ [received_response e (timed_out t id tok)])) (g_receiveThread h)) h).
Proof.
  intros Hh He Hp Hc Hid Hd. unfold CATimeoutCallback.
  match goal with |- context [(?m ≫= _) h] => assert (m h = Some (Some e, h)) as E end.
  { unfold CACloneEndpoint. by step (alloc_ok h Hh). }
  step E. cbn beta iota. step (alloc_ok h Hh). cbn [negb].
  pose proof (reads_token _ _ _ _ _ _ _ Hp) as Htok.
  assert (reads {| max_size := plength p; hdr := packet p; max_delta := max_delta p; plength := plength p; pdata := pdata p |}
    (type_code t) code id tok os d) as Hpk.
  { destruct Hp as [[[rest Er] El] H2 H3 H4 H5]. split; try done. split; [|done]. exists []. simpl. unfold packet.
    rewrite Er, El, Nat2Z.id, take_app_length. by rewrite app_nil_r. }
  destruct (reads_answer _ t code id tok os d Hpk Hc Hid ltac:(lia)) as [Ha _].
  destruct (answer_fields _ _ _ _ _ Ha) as (E1 & E2 & _). cbn [hdr plength] in E1, E2.
  step (run_lift _ _ h E1). step (run_lift _ _ h E2).
  step (token_of_packet tok (set_messageId id (CaMessage.set_type t zero_info)) h (packet p) Hh (reads_token2 Hpk) eq_refl).
  cbn beta iota. rewrite decide_False by (intros Hn; by apply Hn). step (alloc_ok h Hh). cbn [negb].
  rewrite He. step (run_ret _ h). by apply run_queue_receive.
Qed.

Lemma handle_response e r q (h : handler) : g_responseHandler h = true ->
  dataQueue (g_receiveThread h) = Some (received_response e r :: q) ->
  CAHandleRequestResponseCallbacks h
  = Some (tt, add_call (ResponseHandler (Some e) r) (set_receiveThread (set_queue (Some q) (g_receiveThread h)) h)).
Proof.
  intros Hr Hd. unfold CAHandleRequestResponseCallbacks. step (run_gets _ h). rewrite Hd. step (run_modify _ h).
  step (run_gets _ _). unfold handler_of. cbn [requestInfo responseInfo received_response].
  change (g_responseHandler (set_receiveThread _ h)) with (g_responseHandler h). by rewrite Hr.
Qed.

(** The last try of a stored packet is due. *)
Record last_try (c : @CARetransmission_t L) (now : Z) (x : CARetransmissionData_t) : Prop := {
  lt_running : isStop c = false;
  lt_send : dataSendMethod c = true;
  lt_callback : timeoutCallback c = true;
  lt_fit : times_fit x;
  lt_due : timeStamp x + timeout x / 1000 * 2 ^ triedCount x * 1000 <= now;
  lt_tries : tryingCount (config c) <= triedCount x + 1;
}.

Lemma tick_last c now x : last_try c now x ->
  tick c now x = (None, [data_send (rt_endpoint x) (rt_pdu x) (rt_size x) (rt_dataType x);
                         timeout_callback (rt_endpoint x) (rt_pdu x) (rt_size x)]).
Proof.
  intros [_ Hs Hc (_ & _ & Hf & _) Hd Ht]. unfold tick. rewrite (proj2 (Z.leb_le _ _) Hd), Hs, Hc. cbn [andb].
  rewrite (proj2 (Z.leb_le _ _)); [done|]. cbn [set_tried triedCount]. by rewrite wrap_small by lia.
Qed.

(** C15: When the last try of a request is due, the retransmission thread gives
    its packet to the adapters once more and drops it, and puts a response with
    [CA_RETRANSMIT_TIMEOUT], the endpoint, the message id and the token of the
    request behind what waits in the receive queue.  If nothing does, the next
    round of the receive thread calls the application's response handler with
    it.  This is for a transport without block-wise transfer (not IP or
    NFC), for the only message in the retransmission list, and with memory to
    be had. *)
Theorem unanswered_request_reported now e p ty t code id tok os d a x l q (h : handler) :
  can_transmit h e l [(a, x)] -> CAIsSupportedBlockwiseTransfer (adapter e) = false ->
  reads p (type_code t) code id tok os d -> is_byte code -> 0 <= id < 2 ^ 16 ->
  last_try (g_retransmissionContext h) (now O) x ->
  rt_endpoint x = Some e -> rt_pdu x = Some (packet p) -> rt_size x = plength p -> rt_dataType x = ty ->
  dataQueue (g_receiveThread h) = Some q -> g_responseHandler h = true ->
  exists c m, context_holds c m [] /\
    let st := set_net (set_world (handed (net h) e (Some (packet p)) (plength p) ty (filter (fun t => requested e t) l)
                                   (world (net h))) (net h)) (set_retransmission c m h) in
    let report := received_response e (timed_out t id tok) in
    let h' := set_receiveThread (set_queue (Some (q ++ [report])) (g_receiveThread st)) st in
    retransmission_round now h = Some (tt, h') /\
    (q = [] -> CAHandleRequestResponseCallbacks h' = Some (tt, add_call (ResponseHandler (Some e) (timed_out t id tok)) st)).
Proof.
  intros [Hq Hl Ha Hx] He Hp Hc Hid Ht E1 E2 E3 E4 Hd Hr. pose proof (quiet_allocs h Hq) as Hh.
  assert (Forall (fun y => times_fit y.2) [(a, x)]) as Hfit by (apply Forall_singleton; exact (lt_fit _ _ _ Ht)).
  destruct (check_list_spec _ now _ _ Hx Hfit) as (c & m & Er & Hx' & _).
  cbn [tick_all] in Er, Hx'. rewrite (tick_last _ _ _ Ht) in Er, Hx'. cbn [fst snd] in Er, Hx'.
  rewrite E1, E2, E3, E4, app_nil_r in Er.
  exists c, m. split; [exact Hx'|]. set (st := set_net _ (set_retransmission c m h)). cbv zeta. split.
  - unfold retransmission_round. step (run_gets _ h). step (run_gets _ h).
    assert (CARetransmissionBaseRoutine (Some (g_retransmissionContext h)) now (retransmission_heap h) = Some (Some c, m, _)) as Eb
      by (unfold CARetransmissionBaseRoutine; rewrite (lt_running _ _ _ Ht); exact Er).
    step (run_lift _ _ h Eb). cbn beta iota. step (run_modify _ h). cbn [retransmission_events default from_option].
    assert (networking (CASendUnicastData (Some e) (Some (packet p)) (plength p) ty) (set_retransmission c m h)
      = Some (CA_STATUS_OK, st)) as En.
    { apply run_networking; [by destruct Hq; split|by apply send_unicast_spec|apply Hq]. }
    match goal with |- context [(?k ≫= _) ?s] => assert (k s = Some (tt, st)) as Es by (by step En) end.
    step Es. by step (timeout_queued e p t code id tok os d q st Hh He Hp Hc Hid Hd).
  - intros ->. rewrite (handle_response e (timed_out t id tok) []) by done. f_equal. f_equal. f_equal.
    unfold st. destruct h as [? ? ? []]; cbn in *. by rewrite Hd.
Qed.

(** ** A packet that cannot be read *)

Lemma failed_handler_data sep (ty : CADataType_t) p type code id tok os d (h : handler) : allocs_of h = [] ->
  ty = CA_REQUEST_DATA \/ ty = CA_RESPONSE_DATA ->
  packet_ok type code id tok os d -> reads p type code id tok os d ->
  0 < Z.of_nat (length (counted os)) <= UINT8_MAX -> uri_fold os ([], false, false) = None ->
  CAGenerateHandlerData proxyUri (sep_endpoint sep) (Some (sep_identity sep)) p ty h = None.
Proof.
  intros Hh Hty Hok Hp Hc Hu. unfold CAGenerateHandlerData. step (alloc_ok h Hh). cbn [negb].
  match goal with |- context [(?m ≫= _) h] => assert (m h = Some (Some (sep_endpoint sep), h)) as E end.
  { unfold CACloneEndpoint. by step (alloc_ok h Hh). }
  step E. cbn beta iota. destruct (failed_info p _ _ _ _ _ _ proxyUri h Hh Hok Hp Hc Hu) as (o & Eo & Hr & Hd).
  destruct Hty as [-> | ->]; step (alloc_ok h Hh); cbn [negb].
  - assert (CAGetRequestInfoFromPDU p proxyUri h = Some ((po_result o, {| method := po_code o; req_info := po_info o;
      req_isMulticast := false |}, po_freed o), h)) as Er by (unfold CAGetRequestInfoFromPDU; by step Eo).
    step Er. cbn beta iota. rewrite Hr. cbn [req_info]. apply run_bind_undef. by rewrite Hd.
  - assert (CAGetResponseInfoFromPDU p proxyUri h = Some ((po_result o, {| result := po_code o; res_info := po_info o;
      res_isMulticast := false |}, po_freed o), h)) as Er by (unfold CAGetResponseInfoFromPDU; by step Eo).
    step Er. cbn beta iota. rewrite Hr. cbn [res_info]. apply run_bind_undef. by rewrite Hd.
Qed.

(** C17: One packet, from any sender over any transport, makes the receiving thread
    free memory twice: it is enough that its path and query do not fit the
    buffer for the URI and that it has an option the stack copies. *)
Theorem overlong_packet_double_free sep type code id tok os d (h : handler) : allocs_of h = [] ->
  packet_ok type code id tok os d -> 0 < Z.of_nat (length (counted os)) <= UINT8_MAX ->
  uri_fold os ([], false, false) = None ->
  let bs := message_bytes type code id tok os d in
  CAReceivedPacketCallback built ip_local proxyUri sep bs (Z.of_nat (length bs)) h = None.
Proof.
  intros Hh Hok Hc Hu bs. unfold CAReceivedPacketCallback.
  rewrite (proj2 (Z.eqb_neq _ _)) by (unfold bs; rewrite length_message; lia).
  destruct (parse_packet _ _ _ _ _ _ h Hh Hok) as (p & Ep & Hp). step Ep. cbn beta iota zeta.
  apply run_bind_undef. destruct (is_request_code _).
  - apply (failed_handler_data sep CA_REQUEST_DATA p type code id tok os d h Hh); auto.
  - apply run_bind_undef. apply (failed_handler_data sep CA_RESPONSE_DATA p type code id tok os d h Hh); auto.
Qed.
End Delivery.

(** ** The requests that are remembered *)

Section History.
(** A request that is not confirmable: sender, message id and token. *)
#[local] Abbreviation message := (CAEndpoint_t * Z * list Z)%type.
#[local] Abbreviation key := (Z * Z * list Z)%type.

Definition key_of (x : message) : key := let '(e, id, tok) := x in (id, ifindex e, tok).

(** Over IP and with a token. *)
Definition over_ip (x : message) : Prop :=
  let '(e, _, tok) := x in adapter e = CA_ADAPTER_IP /\ 1 <= Z.of_nat (length tok) <= CA_MAX_TOKEN_LEN.

(** Which of the messages are dropped. *)
Fixpoint dropped (history : CAHistory_t) (l : list message) : ub (list bool) :=
  match l with
  | [] => Some []
  | (e, id, tok) :: l =>
      '(b, history) ← CADropSecondMessage history (Some e) id (Some tok) (Z.of_nat (length tok));
      bs ← dropped history l; Some (b :: bs)
  end.

(** The reference: one of the last [n] messages had the same id, interface and
    token; [seen] is the latest first. *)
Fixpoint repeats (n : nat) (l seen : list key) : list bool :=
  match l with [] => [] | k :: l => bool_decide (k ∈ take n seen) :: repeats n l (k :: seen) end.

(** An item of the ring and the key it is for. *)
Definition holds_key (i : CAHistoryItem_t) (k : option key) : Prop :=
  length (hi_token i) = 8%nat /\
  match k with
  | None => hi_tokenLength i = 0
  | Some (id, ifi, tok) =>
      hi_messageId i = id /\ hi_ifindex i = ifi /\ hi_tokenLength i = Z.of_nat (length tok) /\
      take (length tok) (hi_token i) = tok
  end.

Fixpoint remembers (l : list CAHistoryItem_t) (seen : list key) : Prop :=
  match l with
  | [] => True
  | i :: l => holds_key i (head seen) /\ remembers l (tail seen)
  end.

(** The items, the latest first. *)
Definition recent (x : CAHistory_t) : list CAHistoryItem_t :=
  let n := Z.to_nat (nextIndex x) in rev (drop n (items x) ++ take n (items x)).

Definition matches_item (e : CAEndpoint_t) (id : Z) (tok : list Z) (i : CAHistoryItem_t) : bool :=
  (id =? hi_messageId i) && (Z.of_nat (length tok) =? hi_tokenLength i) && (ifindex e =? hi_ifindex i)
  && bool_decide (take (length tok) (hi_token i) = tok).

Lemma in_history_spec l e id tok : 1 <= Z.of_nat (length tok) <= CA_MAX_TOKEN_LEN ->
  Forall (fun i => length (hi_token i) = 8%nat) l ->
  in_history l e id (Some tok) (Z.of_nat (length tok)) = Some (existsb (matches_item e id tok) l).
Proof.
  unfold CA_MAX_TOKEN_LEN. intros Ht. induction 1 as [|i l Hi Hl IH]; [done|]. cbn [in_history existsb]. unfold matches_item at 1.
  destruct ((id =? hi_messageId i) && _ && _) eqn:E; [|by rewrite IH].
  unfold same_token. rewrite (proj2 (Z.eqb_neq _ _)) by lia. rewrite (read_at_ok (hi_token i)) by lia.
  rewrite (read_at_all tok) by done. cbn [mbind option_bind]. rewrite Nat2Z.id. change (drop (Z.to_nat 0) _) with (hi_token i).
  destruct (bool_decide _); [done|]. exact IH.
Qed.

Lemma remembers_matches l seen e id tok : remembers l seen -> 1 <= Z.of_nat (length tok) ->
  existsb (matches_item e id tok) l = bool_decide (key_of (e, id, tok) ∈ take (length l) seen).
Proof.
  revert seen. induction l as [|i l IH]; intros seen Hr Ht; [done|]. destruct Hr as [[_ Hi] Hr]. cbn [existsb].
  rewrite (IH _ Hr Ht). unfold matches_item. destruct seen as [|[[id' ifi] tok'] seen]; cbn [head tail] in *.
  - rewrite Hi, (proj2 (Z.eqb_neq (Z.of_nat (length tok)) 0)) by lia. rewrite andb_false_r. cbn. by rewrite take_nil.
  - destruct Hi as (<- & <- & -> & Htok). cbn [length take].
    assert (bool_decide (key_of (e, id, tok) ∈ (hi_messageId i, hi_ifindex i, tok') :: take (length l) seen)
      = bool_decide (key_of (e, id, tok) = (hi_messageId i, hi_ifindex i, tok'))
        || bool_decide (key_of (e, id, tok) ∈ take (length l) seen)) as ->.
    { rewrite <- bool_decide_or. apply bool_decide_ext. by rewrite elem_of_cons. }
    f_equal. cbn [key_of]. apply eq_true_iff_eq. rewrite !andb_true_iff, !Z.eqb_eq, !bool_decide_eq_true. split.
    + intros [[[-> Hl] ->] E]. apply Nat2Z.inj in Hl. by rewrite <- E, Hl, Htok.
    + intros [= -> -> ->]. by rewrite Htok.
Qed.

(** The ring after one more item. *)
Definition push (x : CAHistory_t) (i : CAHistoryItem_t) : CAHistory_t := {|
  nextIndex := if HISTORYSIZE <=? nextIndex x + 1 then 0 else nextIndex x + 1;
  items := <[Z.to_nat (nextIndex x) := i]> (items x) |}.

Definition ring (x : CAHistory_t) : Prop := length (items x) = 4%nat /\ 0 <= nextIndex x < HISTORYSIZE.

Lemma recent_push x i : ring x -> ring (push x i) /\ recent (push x i) = i :: take 3 (recent x).
Proof.
  destruct x as [n l]. unfold ring, push, recent, HISTORYSIZE. cbn [items nextIndex]. intros [Hl Hn].
  destruct l as [|a [|b [|c [|d [|]]]]]; try done.
  assert (n = 0 \/ n = 1 \/ n = 2 \/ n = 3) as [->|[->|[->| ->]]] by lia; by repeat split.
Qed.

Lemma recent_items x (P : CAHistoryItem_t -> bool) : existsb P (items x) = existsb P (recent x).
Proof.
  unfold recent. rewrite <- (take_drop (Z.to_nat (nextIndex x)) (items x)) at 1.
  apply eq_true_iff_eq. rewrite !existsb_exists. split; intros (i & Hi & E); exists i; split; try done;
    rewrite <- ?in_rev, in_app_iff in *; rewrite <- ?in_rev, ?in_app_iff in *; naive_solver.
Qed.

Lemma write_one {A} (l : list A) n x : 0 <= n < Z.of_nat (length l) -> write_at l n [x] = Some (<[Z.to_nat n := x]> l).
Proof.
  intros Hn. rewrite write_at_ok by (simpl; lia). f_equal. rewrite insert_take_drop by lia. do 2 f_equal.
  simpl. f_equal. lia.
Qed.

Lemma drop_step x e id tok : ring x -> Forall (fun i => length (hi_token i) = 8%nat) (items x) -> over_ip (e, id, tok) ->
  exists i, CADropSecondMessage x (Some e) id (Some tok) (Z.of_nat (length tok))
    = Some (existsb (matches_item e id tok) (recent x), push x i) /\ holds_key i (Some (key_of (e, id, tok))).
Proof.
  intros [Hl Hn] Hi [He Ht]. unfold CADropSecondMessage. rewrite He, Z.eqb_refl. cbn [negb]. cbv zeta.
  destruct (Z.ltb_spec CA_MAX_TOKEN_LEN (Z.of_nat (length tok))); [lia|].
  rewrite (in_history_spec _ e id tok Ht Hi). cbn [mbind option_bind]. rewrite recent_items.
  unfold HISTORYSIZE in Hn. destruct (lookup_Some_le (items x) (Z.to_nat (nextIndex x))) as [old Ho]; [lia|].
  unfold byte_at. rewrite decide_True, Ho by lia. cbn [mbind option_bind].
  assert (length (hi_token old) = 8%nat) as H8 by (rewrite Forall_lookup in Hi; by apply (Hi _ _ Ho)).
  rewrite (proj2 (Z.eqb_neq _ _)) by lia. rewrite read_at_all by done. cbn [mbind option_bind].
  unfold CA_MAX_TOKEN_LEN in Ht. rewrite write_at_prefix by lia. cbn [mbind option_bind fst snd].
  rewrite write_one by lia. cbn [mbind option_bind]. eexists. split; [reflexivity|].
  split; cbn; [rewrite length_app, length_drop; lia|]. repeat split. apply take_app_length.
Qed.

Lemma remembers_push l seen i k : remembers l seen -> holds_key i (Some k) -> remembers (i :: take 3 l) (k :: seen).
Proof.
  intros Hr Hi. split; [done|]. cbn [tail]. clear - Hr. revert seen Hr. generalize 3%nat as n.
  induction l as [|j l IH]; intros [|n] seen Hr; try done. destruct Hr as [Hj Hr]. split; [done|]. by apply IH.
Qed.

Lemma remembers_tokens l seen : remembers l seen -> Forall (fun i => length (hi_token i) = 8%nat) l.
Proof. revert seen. induction l as [|i l IH]; intros seen Hr; [done|]. destruct Hr as [[Hi _] Hr]. constructor; eauto. Qed.

Lemma dropped_spec l x seen : ring x -> remembers (recent x) seen -> Forall over_ip l ->
  dropped x l = Some (repeats 4 (key_of <$> l) seen).
Proof.
  revert x seen. induction l as [|[[e id] tok] l IH]; intros x seen Hx Hr Hl; [done|].
  apply Forall_cons in Hl as [Hm Hl]. cbn [dropped].
  assert (Forall (fun i => length (hi_token i) = 8%nat) (items x)) as H8.
  { rewrite <- (take_drop (Z.to_nat (nextIndex x)) (items x)). apply remembers_tokens in Hr. unfold recent in Hr.
    apply Forall_rev in Hr. rewrite rev_involutive in Hr. apply Forall_app in Hr as [? ?]. by apply Forall_app. }
  destruct (drop_step x e id tok Hx H8 Hm) as (i & E & Hi). rewrite E. cbn [mbind option_bind].
  destruct (recent_push x i Hx) as [Hx' Hrec].
  rewrite (IH (push x i) (key_of (e, id, tok) :: seen)); [|done| |done].
  - cbn [mbind option_bind]. rewrite fmap_cons. cbn [repeats]. f_equal. f_equal.
    rewrite (remembers_matches _ _ e id tok Hr) by apply Hm.
    replace (length (recent x)) with 4%nat; [done|]. unfold recent. rewrite length_rev, length_app, length_take, length_drop.
    destruct Hx as [-> ?]. unfold HISTORYSIZE in *. lia.
  - rewrite Hrec. by apply remembers_push.
Qed.

(** C16: Of the requests that arrive over IP with a token and are not
    confirmable, those are dropped that have the message id, the interface and
    the token of one of the four that came before it: the ring of [caglobals]
    computes the sliding window.  An empty token is another matter
    ([fresh_history_drops], [stale_token]), and the address family is not
    looked at ([same_family_dropped]). *)
Theorem duplicates_dropped l : Forall over_ip l -> dropped no_history l = Some (repeats 4 (key_of <$> l) []).
Proof. intros Hl. apply dropped_spec; [done| |done]. by repeat split. Qed.

(** The address family is not looked at: a message repeated over IPv4 is
    dropped too. *)
Lemma same_family_dropped : dropped no_history
    (replicate 2 ({| adapter := CA_ADAPTER_IP; flags := CA_IPV4; port := 0; addr := []; ifindex := 1; remoteId := [] |}, 7, [1]))
  = Some [false; true].
Proof. reflexivity. Qed.

(** Before any message has come, one with the id 0, no interface and no token
    is taken for a duplicate. *)
Lemma fresh_history_drops : exists x, CADropSecondMessage no_history
    (Some {| adapter := CA_ADAPTER_IP; flags := CA_IPV4; port := 0; addr := []; ifindex := 0; remoteId := [] |}) 0 None 0
  = Some (true, x).
Proof. by eexists. Qed.

(** An empty token leaves the one of the message that was in its place: a
    message after it with that token is dropped. *)
Definition from_interface : CAEndpoint_t :=
  {| adapter := CA_ADAPTER_IP; flags := CA_IPV4; port := 0; addr := []; ifindex := 1; remoteId := [] |}.
Lemma stale_token : dropped no_history
    [(from_interface, 1, [5]); (from_interface, 2, [5]); (from_interface, 3, [5]); (from_interface, 4, [5]);
     (from_interface, 9, []); (from_interface, 9, [5])]
  = Some [false; false; false; false; false; true].
Proof. reflexivity. Qed.
End History.

(** ** Two stacks to look at *)

Definition idle_thread : CAQueueingThread_t CAData_t := {|
  qt_threadPool := true; threadMutex := true; threadCond := true; qt_destroy := true; qt_isStop := false;
  dataQueue := Some [] |}.

Definition idle (n : network log) : handler (u_arraylist_t loc) log := {|
  g_isInitialized := true; g_threadPoolHandle := true; g_sendThread := idle_thread; g_receiveThread := idle_thread;
  g_retransmissionContext := sample_context; retransmission_heap := sample_messages; block := g_context; net := n;
  requestHistory := no_history; g_requestHandler := true; g_responseHandler := true; g_errorHandler := true;
  calls := []; h_allocs := [] |}.

Lemma idle_quiet n : net_allocs n = [] -> quiet (idle n).
Proof. by split. Qed.

Definition edr_network : network log :=
  set_selected (Some [CA_ADAPTER_RFCOMM_BTEDR]) CA_ADAPTER_RFCOMM_BTEDR
    (set_adapters [example_adapter CA_ADAPTER_RFCOMM_BTEDR []] (no_network [])).

Definition example_request : CARequestInfo_t := {| method := CA_GET; req_info := example_info; req_isMulticast := false |}.
Definition example_sender : CASecureEndpoint_t := {| sep_endpoint := ble_endpoint; sep_identity := no_identity |}.

Lemma idle_can_transmit : can_transmit (idle two_networks) ble_endpoint [CA_ADAPTER_GATT_BTLE; CA_ADAPTER_IP]
  [(1%N, sample_message)].
Proof.
  split; [by apply idle_quiet|done| |apply sample_context_holds]. apply Forall_cons. split; [by do 2 eexists|constructor].
Qed.

Lemma edr_can_transmit : can_transmit (idle edr_network) (set_adapter CA_ADAPTER_RFCOMM_BTEDR ble_endpoint)
  [CA_ADAPTER_RFCOMM_BTEDR] [(1%N, sample_message)].
Proof.
  split; [by apply idle_quiet|done| |apply sample_context_holds]. apply Forall_cons. split; [by do 2 eexists|constructor].
Qed.

Lemma example_copied : sendable 0 CA_GET (copy_info example_info) [[97]; [98; 99]] [[120]] [1; 2; 3] [191; 255].
Proof. exact example_sendable. Qed.

Lemma request_delivered_witness : exists p h1' h1'' h2' c m,
  CADetachSendMessage (fun _ => true) (fun _ => false) (Some ble_endpoint) (Some (MsgRequest example_request))
    (Some CA_REQUEST_DATA) (idle two_networks) = Some (CA_STATUS_OK, h1') /\
  CASendThreadProcess [] 0 1000 0 h1' = Some (tt, h1'') /\
  h1'' = set_retransmission c m (transmitted (idle two_networks) ble_endpoint p (Some CA_REQUEST_DATA)
           [CA_ADAPTER_GATT_BTLE; CA_ADAPTER_IP]) /\
  CAReceivedPacketCallback (fun _ => true) (fun _ => false) [] example_sender (packet p) (plength p) (idle two_networks)
  = Some (tt, h2') /\
  CAHandleRequestResponseCallbacks h2'
  = Some (tt, add_call (RequestHandler (Some ble_endpoint)
      (arrived 0 example_sender CA_GET (copy_info example_info) [[97]; [98; 99]] [[120]] [1; 2; 3] [191; 255]))
      (idle two_networks)).
Proof.
  edestruct (request_delivered (fun _ => true) (fun _ => false) [] 0 1000 0 ble_endpoint example_request
    [[97]; [98; 99]] [[120]] [1; 2; 3] [191; 255] [CA_ADAPTER_GATT_BTLE; CA_ADAPTER_IP] [(1%N, sample_message)]
    example_sender (idle two_networks) (idle two_networks)) as (p & h1' & h1'' & h2' & c & m & E1 & E2 & E3 & E4 & E5 & _).
  - exact idle_can_transmit.
  - reflexivity.
  - split; reflexivity.
  - discriminate.
  - apply elem_of_cons; left; reflexivity.
  - vm_compute; intuition congruence.
  - reflexivity.
  - exact example_copied.
  - apply idle_quiet; reflexivity.
  - reflexivity.
  - reflexivity.
  - reflexivity.
  - exists p, h1', h1'', h2', c, m. split; [exact E1|]. split; [exact E2|]. split; [exact E3|]. split; [exact E4|exact E5].
Defined.

Lemma edr_request_is_bare_witness : exists p res c m,
  CAProcessSendData [] 0 1000 0 (queued_request (set_adapter CA_ADAPTER_RFCOMM_BTEDR ble_endpoint) example_request)
    (idle edr_network)
  = Some (res, set_retransmission c m (transmitted (idle edr_network) (set_adapter CA_ADAPTER_RFCOMM_BTEDR ble_endpoint) p
                 (Some CA_REQUEST_DATA) [CA_ADAPTER_RFCOMM_BTEDR])) /\
  packet p = header_bytes (type_code (type example_info)) 3 (code_byte CA_GET) (sent_id 0 example_info) ++ [1; 2; 3].
Proof.
  apply (edr_request_is_bare [] 0 1000 0 (set_adapter CA_ADAPTER_RFCOMM_BTEDR ble_endpoint) example_request
    [[97]; [98; 99]] [[120]] [1; 2; 3] [191; 255] [CA_ADAPTER_RFCOMM_BTEDR] [(1%N, sample_message)] (idle edr_network)).
  - exact edr_can_transmit.
  - reflexivity.
  - exact example_copied.
Defined.

Lemma overlong_packet_double_free_witness :
  CAReceivedPacketCallback (fun _ => true) (fun _ => false) [] example_sender (message_bytes 0 1 7 [] overlong [])
    (Z.of_nat (length (message_bytes 0 1 7 [] overlong []))) (idle two_networks) = None.
Proof.
  apply (overlong_packet_double_free (fun _ => true) (fun _ => false) [] example_sender 0 1 7 [] overlong []);
    [reflexivity|apply overlong_packet|vm_compute; intuition congruence|vm_compute; reflexivity].
Defined.

Lemma duplicates_dropped_witness :
  dropped no_history [(from_interface, 7, [1; 2]); (from_interface, 8, [1; 2]); (from_interface, 7, [1; 2])]
  = Some [false; false; true].
Proof.
  apply (duplicates_dropped [(from_interface, 7, [1; 2]); (from_interface, 8, [1; 2]); (from_interface, 7, [1; 2])]).
  repeat constructor; discriminate.
Defined.

(** A GET with the token 1 2 3 that has been sent three times again. *)
Definition waiting_packet : coap_pdu_t := packet_at 0 CA_GET 77 [1; 2; 3] [(COAP_OPTION_URI_PATH, [97])] [].
Definition waiting : CARetransmissionData_t := {|
  timeStamp := 1000; timeout := 2500000; triedCount := 3; Retransmission.messageId := 77; rt_dataType := Some CA_REQUEST_DATA;
  rt_endpoint := Some ble_endpoint; rt_pdu := Some (packet waiting_packet); rt_size := plength waiting_packet |}.
Definition waiting_handler : handler (u_arraylist_t loc) log :=
  set_retransmission sample_context {[ 1%N := waiting ]} (idle two_networks).

Lemma waiting_reads : reads waiting_packet (type_code CA_MSG_CONFIRM) CA_GET 77 [1; 2; 3] [(COAP_OPTION_URI_PATH, [97])] [].
Proof. apply packet_at_reads; vm_compute; intuition congruence. Qed.

Lemma waiting_can_transmit : can_transmit waiting_handler ble_endpoint [CA_ADAPTER_GATT_BTLE; CA_ADAPTER_IP] [(1%N, waiting)].
Proof.
  split; [by split|done|exact (ct_adapters _ _ _ _ idle_can_transmit)|].
  exists one_pointer. split; [done|]. split; [|apply NoDup_singleton|by apply Forall_singleton].
  split; simpl; unfold PTR_SIZE, PTRDIFF_MAX; done || lia.
Qed.

Lemma waiting_last_try : last_try (g_retransmissionContext waiting_handler) 20001000 waiting.
Proof. split; try done. Qed.

Lemma unanswered_request_reported_witness : exists c m, context_holds c m [] /\
  let st := set_net (set_world (handed two_networks ble_endpoint (Some (packet waiting_packet)) (plength waiting_packet)
    (Some CA_REQUEST_DATA) [CA_ADAPTER_GATT_BTLE] []) two_networks) (set_retransmission c m waiting_handler) in
  let report := received_response ble_endpoint (timed_out CA_MSG_CONFIRM 77 [1; 2; 3]) in
  let h' := set_receiveThread (set_queue (Some [report]) (g_receiveThread st)) st in
  retransmission_round (fun _ => 20001000) waiting_handler = Some (tt, h') /\
  CAHandleRequestResponseCallbacks h'
    = Some (tt, add_call (ResponseHandler (Some ble_endpoint) (timed_out CA_MSG_CONFIRM 77 [1; 2; 3])) st).
Proof.
  destruct (unanswered_request_reported (fun _ => 20001000) ble_endpoint waiting_packet (Some CA_REQUEST_DATA) CA_MSG_CONFIRM
    CA_GET 77 [1; 2; 3] [(COAP_OPTION_URI_PATH, [97])] [] 1%N waiting [CA_ADAPTER_GATT_BTLE; CA_ADAPTER_IP] [] waiting_handler)
    as (c & m & Hc & Hround & Hhandle).
  - exact waiting_can_transmit.
  - reflexivity.
  - exact waiting_reads.
  - split; vm_compute; congruence.
  - split; vm_compute; congruence.
  - exact waiting_last_try.
  - reflexivity.
  - reflexivity.
  - reflexivity.
  - reflexivity.
  - reflexivity.
  - reflexivity.
  - exists c, m. split; [exact Hc|]. split; [exact Hround|exact (Hhandle eq_refl)].
Defined.
