(* ===== verification/Strptime.v ===== *)
(** * Strptime: the security library's own [strptime]

    Models [resource/csdk/security/src/strptime.c], the date parser that is
    linked when the platform has no [strptime].  The input is the byte buffer
    from the current position, its terminating NUL included; [sscanf] with a
    [%nd] conversion is written out after the C standard (leading white space
    is skipped and does not count, a sign counts as one character).  Reading
    or stepping past the end of the buffer is undefined ([None]).

    [render] prints a calendar time the way the two formats of the access
    rules do; the theorems say that [strptime] reads it back, and that the
    day-of-week it derives is the calendar's for the years 1900 to 2099. *)
From S2P Require Import Prelude.

(** [struct tm]; the fields the module leaves at zero are not represented. *)
Record tm := {
  tm_sec : Z; tm_min : Z; tm_hour : Z; tm_mday : Z;
  tm_mon : Z; tm_year : Z; tm_wday : Z; tm_yday : Z;
}.
#[export] Instance tm_eq_dec : EqDecision tm.
Proof. solve_decision. Defined.

(** [memset(tm, 0, sizeof(struct tm))]. *)
Definition tm_zero : tm := {|
  tm_sec := 0; tm_min := 0; tm_hour := 0; tm_mday := 0;
  tm_mon := 0; tm_year := 0; tm_wday := 0; tm_yday := 0 |}.

Definition set_sec v t := {| tm_sec := v; tm_min := tm_min t; tm_hour := tm_hour t;
  tm_mday := tm_mday t; tm_mon := tm_mon t; tm_year := tm_year t;
  tm_wday := tm_wday t; tm_yday := tm_yday t |}.
Definition set_min v t := {| tm_sec := tm_sec t; tm_min := v; tm_hour := tm_hour t;
  tm_mday := tm_mday t; tm_mon := tm_mon t; tm_year := tm_year t;
  tm_wday := tm_wday t; tm_yday := tm_yday t |}.
Definition set_hour v t := {| tm_sec := tm_sec t; tm_min := tm_min t; tm_hour := v;
  tm_mday := tm_mday t; tm_mon := tm_mon t; tm_year := tm_year t;
  tm_wday := tm_wday t; tm_yday := tm_yday t |}.
Definition set_mday v t := {| tm_sec := tm_sec t; tm_min := tm_min t; tm_hour := tm_hour t;
  tm_mday := v; tm_mon := tm_mon t; tm_year := tm_year t;
  tm_wday := tm_wday t; tm_yday := tm_yday t |}.
Definition set_mon v t := {| tm_sec := tm_sec t; tm_min := tm_min t; tm_hour := tm_hour t;
  tm_mday := tm_mday t; tm_mon := v; tm_year := tm_year t;
  tm_wday := tm_wday t; tm_yday := tm_yday t |}.
Definition set_year v t := {| tm_sec := tm_sec t; tm_min := tm_min t; tm_hour := tm_hour t;
  tm_mday := tm_mday t; tm_mon := tm_mon t; tm_year := v;
  tm_wday := tm_wday t; tm_yday := tm_yday t |}.
Definition set_wday_yday w y t := {| tm_sec := tm_sec t; tm_min := tm_min t;
  tm_hour := tm_hour t; tm_mday := tm_mday t; tm_mon := tm_mon t; tm_year := tm_year t;
  tm_wday := w; tm_yday := y |}.

Definition TM_BASE_YEAR : Z := 1900.

Definition ydays : list Z := [0; 31; 59; 90; 120; 151; 181; 212; 243; 273; 304; 334].

Definition is_leap_year (yy : Z) : bool :=
  let yyyy := yy + TM_BASE_YEAR in
  if Z.rem yyyy 100 =? 0 then Z.rem yyyy 400 =? 0 else Z.rem yyyy 4 =? 0.

(** ** [sscanf(buf, "%nd", &temp)] with [temp] initially 0 *)

Definition isspace (c : Z) : bool := (c =? 32) || ((9 <=? c) && (c <=? 13)).
Definition isdigit (c : Z) : bool := (48 <=? c) && (c <=? 57).

Fixpoint skip_space (b : list Z) : ub (list Z) :=
  match b with
  | [] => None
  | c :: b' => if isspace c then skip_space b' else Some b
  end.

(** The digits of the conversion: at most [w] of them. *)
Fixpoint scan_digits (w : nat) (acc : option Z) (b : list Z) : ub (option Z) :=
  match w with
  | O => Some acc
  | S w =>
      match b with
      | [] => None
      | c :: b' =>
          if isdigit c then scan_digits w (Some (default 0 acc * 10 + (c - 48))) b'
          else Some acc
      end
  end.

Definition sscanf_d (w : nat) (buf : list Z) : ub Z :=
  b ← skip_space buf;
  match b with
  | [] => None
  | c :: b' =>
      if c =? 45 then r ← scan_digits (w - 1) None b'; Some (- default 0 r)
      else if c =? 43 then r ← scan_digits (w - 1) None b'; Some (default 0 r)
      else r ← scan_digits w None b; Some (default 0 r)
  end.

(** [buf += n]. *)
Definition advance (n : nat) (buf : list Z) : ub (list Z) :=
  if decide (n <= length buf)%nat then Some (drop n buf) else None.

(** One numeric directive: scan [w] characters, check the range, store and
    step.  [None] inside is [return NULL]. *)
Definition directive (w : nat) (lo hi : Z) (store : Z -> tm -> tm) (buf : list Z) (t : tm)
    : ub (option (list Z) * tm) :=
  temp ← sscanf_d w buf;
  if (lo <=? temp) && (temp <=? hi) then
    buf' ← advance w buf; Some (Some buf', store temp t)
  else Some (None, t).

Definition conversion (c : Z) (buf : list Z) (t : tm) : ub (option (list Z) * tm) :=
  if c =? 37 (* %% *) then
    match buf with
    | [] => None
    | x :: buf' => if c =? x then Some (Some buf', t) else Some (None, t)
    end
  else if c =? 100 (* d *) then directive 2 1 31 set_mday buf t
  else if c =? 72 (* H *) then directive 2 0 23 set_hour buf t
  else if c =? 77 (* M *) then directive 2 0 59 set_min buf t
  else if c =? 109 (* m *) then directive 2 1 12 (fun v => set_mon (v - 1)) buf t
  else if c =? 83 (* S *) then directive 2 0 59 set_sec buf t
  else if c =? 89 (* Y *) then directive 4 0 9999 (fun v => set_year (v - TM_BASE_YEAR)) buf t
  else Some (None, t).

(** The [while] loop over the format, its NUL excluded. *)
Fixpoint strptime_loop (fmt buf : list Z) (t : tm) : ub (option (list Z) * tm) :=
  match fmt with
  | [] => Some (Some buf, t)
  | c :: fmt' =>
      if c =? 37 then
        match fmt' with
        | [] => Some (None, t)
        | d :: fmt'' =>
            '(r, t) ← conversion d buf t;
            match r with
            | None => Some (None, t)
            | Some buf => strptime_loop fmt'' buf t
            end
        end
      else
        match buf with
        | [] => None
        | x :: buf' => if c =? x then strptime_loop fmt' buf' t else Some (None, t)
        end
  end.

Definition strptime (buf fmt : list Z) : ub (option (list Z) * tm) :=
  '(r, t) ← strptime_loop fmt buf (set_mday 1 tm_zero);
  match r with
  | None => Some (None, t)
  | Some buf =>
      base ← byte_at ydays (tm_mon t);
      let yday := base + (if is_leap_year (tm_year t) && (2 <=? tm_mon t) then 1 else 0)
                  + tm_mday t - 1 in
      let wday := 365 * tm_year t + Z.quot (tm_year t) 4 + yday + 1 in
      let wday := if is_leap_year (tm_year t) then wday - 1 else wday in
      Some (Some buf, set_wday_yday (Z.rem wday 7) yday t)
  end.

(** ** Printing, for the round trip *)

Definition dtFormat : list Z := chars "%Y%m%dT%H%M%S".
Definition dFormat : list Z := chars "%Y%m%d".

Definition digit (n : Z) : Z := 48 + n mod 10.
Definition render2 (n : Z) : list Z := [digit (n / 10); digit n].
Definition render4 (n : Z) : list Z := [digit (n / 1000); digit (n / 100); digit (n / 10); digit n].

Definition render_date (t : tm) : list Z :=
  render4 (tm_year t + TM_BASE_YEAR) ++ render2 (tm_mon t + 1) ++ render2 (tm_mday t).
Definition render_time (t : tm) : list Z :=
  render2 (tm_hour t) ++ render2 (tm_min t) ++ render2 (tm_sec t).

(** The date and the time of day of a calendar time are in range. *)
Definition date_ok (t : tm) : Prop :=
  0 <= tm_year t + TM_BASE_YEAR <= 9999 /\ 0 <= tm_mon t <= 11 /\ 1 <= tm_mday t <= 31.
Definition time_ok (t : tm) : Prop :=
  0 <= tm_hour t <= 23 /\ 0 <= tm_min t <= 59 /\ 0 <= tm_sec t <= 59.

(** ** The calendar, by counting days *)

Definition leap (y : Z) : bool :=
  (y mod 4 =? 0) && (negb (y mod 100 =? 0) || (y mod 400 =? 0)).

Definition month_len (lp : bool) (m : Z) : Z :=
  default 0 ([31; if lp then 29 else 28; 31; 30; 31; 30; 31; 31; 30; 31; 30; 31]
             !! Z.to_nat m).

(** Days of the [n] years from [y]. *)
Fixpoint years_days (y : Z) (n : nat) : Z :=
  match n with
  | O => 0
  | S n => years_days y n + (if leap (y + Z.of_nat n) then 366 else 365)
  end.

(** Days of the first [n] months of a year, leap or not. *)
Fixpoint months_days (lp : bool) (n : nat) : Z :=
  match n with
  | O => 0
  | S n => months_days lp n + month_len lp (Z.of_nat n)
  end.

Lemma is_leap_year_leap yy : is_leap_year yy = leap (yy + 1900) \/ yy + 1900 < 0.
Proof.
  destruct (Z.lt_ge_cases (yy + 1900) 0) as [|Hy]; [by right|left].
  unfold is_leap_year, leap, TM_BASE_YEAR. rewrite !Z.rem_mod_nonneg by lia.
  destruct (Z.eqb_spec ((yy + 1900) mod 100) 0), (Z.eqb_spec ((yy + 1900) mod 400) 0),
    (Z.eqb_spec ((yy + 1900) mod 4) 0); simpl; try done; exfalso; Z.div_mod_to_equations; lia.
Qed.

(** ** Scanning rendered numbers *)

Lemma digit_isdigit n : isdigit (digit n) = true.
Proof.
  unfold isdigit, digit. pose proof (Z.mod_pos_bound n 10).
  rewrite !(proj2 (Z.leb_le _ _)) by lia. done.
Qed.

Lemma digit_not_special n : isspace (digit n) = false /\ (digit n =? 45) = false /\
  (digit n =? 43) = false.
Proof.
  unfold isspace, digit. pose proof (Z.mod_pos_bound n 10).
  repeat split; [|apply Z.eqb_neq; lia..].
  rewrite (proj2 (Z.eqb_neq _ _)), (proj2 (Z.leb_gt _ 13)) by lia. by rewrite andb_false_r.
Qed.

Definition digits_value (l : list Z) (acc : Z) : Z :=
  foldl (fun a c => a * 10 + (c - 48)) acc l.

Lemma scan_digits_all ds acc rest :
  Forall (fun c => isdigit c = true) ds ->
  scan_digits (length ds) (Some acc) (ds ++ rest) = Some (Some (digits_value ds acc)).
Proof.
  intros Hd. revert acc. induction Hd as [|c ds Hc _ IH]; intros acc; [done|].
  simpl. rewrite Hc. apply IH.
Qed.

Lemma sscanf_digits d ds rest :
  Forall (fun c => isdigit c = true) ds ->
  sscanf_d (S (length ds)) (digit d :: ds ++ rest)
    = Some (digits_value ds (digit d - 48)).
Proof.
  intros Hd. unfold sscanf_d. destruct (digit_not_special d) as (H1 & H2 & H3).
  cbn [skip_space]. rewrite H1. cbn [mbind option_bind]. rewrite H2, H3.
  cbn [scan_digits]. rewrite digit_isdigit. simpl.
  by rewrite scan_digits_all by done.
Qed.

Lemma sscanf_render2 n rest : 0 <= n < 100 -> sscanf_d 2 (render2 n ++ rest) = Some n.
Proof.
  intros Hn. unfold render2. change (sscanf_d 2) with (sscanf_d (S (length [digit n]))).
  cbn [app]. change (digit (n / 10) :: digit n :: rest) with (digit (n / 10) :: [digit n] ++ rest).
  rewrite sscanf_digits by (constructor; [apply digit_isdigit|done]).
  unfold digits_value, digit. simpl. f_equal. Z.div_mod_to_equations. lia.
Qed.

Lemma sscanf_render4 n rest : 0 <= n < 10000 -> sscanf_d 4 (render4 n ++ rest) = Some n.
Proof.
  intros Hn. unfold render4.
  change (sscanf_d 4) with (sscanf_d (S (length [digit (n / 100); digit (n / 10); digit n]))).
  cbn [app].
  change (digit (n / 1000) :: digit (n / 100) :: digit (n / 10) :: digit n :: rest)
    with (digit (n / 1000) :: [digit (n / 100); digit (n / 10); digit n] ++ rest).
  rewrite sscanf_digits by (repeat constructor; apply digit_isdigit).
  unfold digits_value, digit. simpl. f_equal. Z.div_mod_to_equations. lia.
Qed.

Lemma advance_app n a b : length a = n -> advance n (a ++ b) = Some b.
Proof.
  intros <-. unfold advance. rewrite decide_True by (rewrite length_app; lia).
  by rewrite drop_app_length.
Qed.

Lemma directive2 lo hi store n rest t :
  0 <= n < 100 -> lo <= n <= hi ->
  directive 2 lo hi store (render2 n ++ rest) t = Some (Some rest, store n t).
Proof.
  intros Hn Hr. unfold directive. rewrite sscanf_render2 by done. cbn [mbind option_bind].
  rewrite !(proj2 (Z.leb_le _ _)) by lia. cbn [andb]. by rewrite advance_app.
Qed.

Lemma directive4 store n rest t :
  0 <= n <= 9999 -> directive 4 0 9999 store (render4 n ++ rest) t = Some (Some rest, store n t).
Proof.
  intros Hn. unfold directive. rewrite sscanf_render4 by lia. cbn [mbind option_bind].
  rewrite !(proj2 (Z.leb_le _ _)) by lia. cbn [andb]. by rewrite advance_app.
Qed.

(** ** The derived fields *)

Lemma yday_base yy m base :
  0 <= yy + 1900 -> 0 <= m <= 11 -> byte_at ydays m = Some base ->
  base + (if is_leap_year yy && (2 <=? m) then 1 else 0)
    = months_days (leap (yy + 1900)) (Z.to_nat m).
Proof.
  intros Hy Hm Hb. destruct (is_leap_year_leap yy) as [Hl|]; [|lia].
  assert (m = 0 \/ m = 1 \/ m = 2 \/ m = 3 \/ m = 4 \/ m = 5 \/ m = 6 \/ m = 7 \/ m = 8 \/
    m = 9 \/ m = 10 \/ m = 11) as Hc by lia.
  repeat destruct Hc as [->|Hc]; try subst m; vm_compute in Hb; injection Hb as <-;
    rewrite Hl; destruct (leap (yy + 1900)); reflexivity.
Qed.

(** Between 1900 and 2099 every fourth year but 1900 is a leap year. *)
Lemma leap_window n : 0 <= n < 200 -> leap (1900 + n) = (n mod 4 =? 0) && negb (n =? 0).
Proof.
  intros Hn. unfold leap.
  destruct (Z.eqb_spec ((1900 + n) mod 4) 0), (Z.eqb_spec ((1900 + n) mod 100) 0),
    (Z.eqb_spec ((1900 + n) mod 400) 0), (Z.eqb_spec (n mod 4) 0), (Z.eqb_spec n 0);
    simpl; try done; exfalso; Z.div_mod_to_equations; lia.
Qed.

Lemma years_days_window n :
  (n <= 200)%nat -> years_days 1900 n
    = 365 * Z.of_nat n + (if decide (n = O) then 0 else (Z.of_nat n - 1) / 4).
Proof.
  induction n as [|n IH]; intros Hn; [done|]. cbn [years_days]. rewrite IH by lia.
  rewrite leap_window by lia. rewrite (decide_False (P := S n = O)) by lia.
  replace (Z.of_nat (S n) - 1) with (Z.of_nat n) by lia.
  destruct (decide (n = O)) as [->|Hn0]; [done|].
  rewrite (proj2 (Z.eqb_neq (Z.of_nat n) 0)) by lia. rewrite andb_true_r.
  destruct (Z.eqb_spec (Z.of_nat n mod 4) 0); Z.div_mod_to_equations; lia.
Qed.

(** Day of the week of a date, 0 for Sunday, by counting days from Monday
    1 January 1900. *)
Definition weekday (year mon mday : Z) : Z :=
  (1 + years_days 1900 (Z.to_nat (year - 1900)) + months_days (leap year) (Z.to_nat mon) + (mday - 1))
    mod 7.

(** What [strptime] derives from the date it parsed. *)
Definition derived (t t' : tm) : Prop :=
  tm_year t' = tm_year t /\ tm_mon t' = tm_mon t /\ tm_mday t' = tm_mday t /\
  tm_yday t' = months_days (leap (tm_year t + 1900)) (Z.to_nat (tm_mon t)) + tm_mday t - 1 /\
  (0 <= tm_year t < 200 ->
   tm_wday t' = weekday (tm_year t + 1900) (tm_mon t) (tm_mday t)).

Lemma months_days_range lp m : 0 <= m <= 11 ->
  0 <= months_days lp (Z.to_nat m) <= (if lp then 335 else 334).
Proof.
  intros Hm. assert (m = 0 \/ m = 1 \/ m = 2 \/ m = 3 \/ m = 4 \/ m = 5 \/ m = 6 \/ m = 7 \/
    m = 8 \/ m = 9 \/ m = 10 \/ m = 11) as Hc by lia.
  repeat destruct Hc as [->|Hc]; try subst m; destruct lp; vm_compute; split; discriminate.
Qed.

Lemma finish_derived t base :
  date_ok t -> byte_at ydays (tm_mon t) = Some base ->
  let yday := base + (if is_leap_year (tm_year t) && (2 <=? tm_mon t) then 1 else 0)
              + tm_mday t - 1 in
  let wday := 365 * tm_year t + Z.quot (tm_year t) 4 + yday + 1 in
  let wday := if is_leap_year (tm_year t) then wday - 1 else wday in
  derived t (set_wday_yday (Z.rem wday 7) yday t).
Proof.
  intros (Hy & Hm & Hd) Hb. unfold TM_BASE_YEAR in Hy.
  rewrite (yday_base (tm_year t) (tm_mon t) base ltac:(lia) Hm Hb). cbn zeta.
  do 4 (split; [done|]). intros Hw. unfold weekday. cbn [tm_wday set_wday_yday].
  pose proof (months_days_range (leap (tm_year t + 1900)) (tm_mon t) Hm) as [Hmd _].
  set (md := months_days _ _) in *.
  replace (tm_year t + 1900 - 1900) with (tm_year t) by lia.
  rewrite years_days_window, Z2Nat.id by lia.
  rewrite Z.quot_div_nonneg by lia.
  assert (is_leap_year (tm_year t) = (tm_year t mod 4 =? 0) && negb (tm_year t =? 0)) as ->.
  { destruct (is_leap_year_leap (tm_year t)) as [->|]; [|lia].
    rewrite <- leap_window by lia. f_equal. lia. }
  rewrite Z.rem_mod_nonneg.
  - f_equal. destruct (decide _) as [Hz|Hz], (Z.eqb_spec (tm_year t mod 4) 0),
      (Z.eqb_spec (tm_year t) 0); simpl; Z.div_mod_to_equations; lia.
  - destruct (Z.eqb_spec (tm_year t) 0), (_ =? _); simpl; Z.div_mod_to_equations; lia.
  - lia.
Qed.

Lemma byte_at_ydays m : 0 <= m <= 11 -> exists base, byte_at ydays m = Some base.
Proof.
  intros Hm. unfold byte_at. rewrite decide_True by lia. apply lookup_lt_is_Some_2. simpl. lia.
Qed.

#[local] Arguments directive : simpl never.
#[local] Opaque render4 render2.

Lemma date_loop t t0 rest fmt :
  date_ok t ->
  strptime_loop (dFormat ++ fmt) (render_date t ++ rest) t0 =
    strptime_loop fmt rest
      (set_mday (tm_mday t) (set_mon (tm_mon t) (set_year (tm_year t) t0))).
Proof.
  intros (Hy & Hm & Hd). unfold render_date. rewrite <- !app_assoc. simpl.
  unfold conversion. simpl. rewrite directive4 by done. simpl.
  rewrite directive2 by lia. simpl. rewrite directive2 by lia. simpl.
  by rewrite !Z.add_simpl_r.
Qed.

Lemma time_loop t t0 rest :
  time_ok t ->
  strptime_loop (chars "T%H%M%S") (84 :: render_time t ++ rest) t0 =
    Some (Some rest, set_sec (tm_sec t) (set_min (tm_min t) (set_hour (tm_hour t) t0))).
Proof.
  intros (Hh & Hm & Hs). unfold render_time. rewrite <- !app_assoc. simpl.
  unfold conversion. simpl. rewrite directive2 by lia. simpl.
  rewrite directive2 by lia. simpl. by rewrite directive2 by lia.
Qed.

Lemma strptime_date t rest :
  date_ok t -> exists t', strptime (render_date t ++ rest) dFormat = Some (Some rest, t') /\
    derived t t' /\ tm_hour t' = 0 /\ tm_min t' = 0 /\ tm_sec t' = 0.
Proof.
  intros Hd. pose proof Hd as (_ & Hm & _). unfold strptime.
  rewrite <- (app_nil_r dFormat), date_loop by done. cbn [strptime_loop mbind option_bind].
  set (t1 := set_mday _ _). assert (Hd1 : date_ok t1) by done.
  destruct (byte_at_ydays (tm_mon t1)) as [base Hb]; [done|].
  rewrite Hb. cbn [mbind option_bind]. eexists. split; [done|].
  split; [|done]. apply (finish_derived t1 base Hd1 Hb).
Qed.

Lemma strptime_date_time t rest :
  date_ok t -> time_ok t ->
  exists t', strptime (render_date t ++ 84 :: render_time t ++ rest) dtFormat
      = Some (Some rest, t') /\
    derived t t' /\ tm_hour t' = tm_hour t /\ tm_min t' = tm_min t /\ tm_sec t' = tm_sec t.
Proof.
  intros Hd Ht. pose proof Hd as (_ & Hm & _). unfold strptime.
  change dtFormat with (dFormat ++ chars "T%H%M%S"). rewrite date_loop by done.
  rewrite time_loop by done. cbn [mbind option_bind].
  set (t1 := set_sec _ _). assert (Hd1 : date_ok t1) by done.
  destruct (byte_at_ydays (tm_mon t1)) as [base Hb]; [done|].
  rewrite Hb. cbn [mbind option_bind]. eexists. split; [done|].
  split; [|done]. apply (finish_derived t1 base Hd1 Hb).
Qed.

(** [strptime] reads back the dates and the date-times that the access
    rules are written with: every field of the time comes back, the position
    returned is just after the text, and the derived day of the year and (for
    1900 to 2099) day of the week are those of the calendar. *)
Theorem strptime_render_roundtrip (t : tm) (rest : list Z) :
  date_ok t ->
  (exists t', strptime (render_date t ++ rest) dFormat = Some (Some rest, t') /\
     derived t t' /\ tm_hour t' = 0 /\ tm_min t' = 0 /\ tm_sec t' = 0) /\
  (time_ok t ->
   exists t', strptime (render_date t ++ 84 :: render_time t ++ rest) dtFormat
       = Some (Some rest, t') /\
     derived t t' /\ tm_hour t' = tm_hour t /\ tm_min t' = tm_min t /\ tm_sec t' = tm_sec t).
Proof. intros Hd. split; [by apply strptime_date|by apply strptime_date_time]. Qed.

#[local] Transparent render4 render2.

(** ** Every successful parse is in range *)

(** The fields set so far are in the ranges the directives check. *)
Definition fields_ok (t : tm) : Prop :=
  -1900 <= tm_year t <= 8099 /\ 0 <= tm_mon t <= 11 /\ 1 <= tm_mday t <= 31 /\
  0 <= tm_hour t <= 23 /\ 0 <= tm_min t <= 59 /\ 0 <= tm_sec t <= 59.

Lemma directive_fields w lo hi store buf t r t' :
  directive w lo hi store buf t = Some (r, t') ->
  (forall v, lo <= v <= hi -> fields_ok t -> fields_ok (store v t)) ->
  fields_ok t -> fields_ok t'.
Proof.
  unfold directive. intros H Hst Ht. bind_inv H.
  destruct (_ && _) eqn:E; [|by simplify_eq]. bind_inv H. simplify_eq.
  bool_to_prop. apply Hst; [lia|done].
Qed.

Lemma conversion_fields c buf t r t' :
  conversion c buf t = Some (r, t') -> fields_ok t -> fields_ok t'.
Proof.
  unfold conversion. intros H Ht. unfold fields_ok, TM_BASE_YEAR in *.
  destruct (c =? 37); [destruct buf; [done|]; case_hyp H; by simplify_eq|].
  repeat (destruct (_ =? _);
    [eapply directive_fields; [exact H| |done]; unfold fields_ok; simpl; lia|]).
  by simplify_eq.
Qed.

Lemma strptime_loop_fields fmt buf t r t' :
  strptime_loop fmt buf t = Some (r, t') -> fields_ok t -> fields_ok t'.
Proof.
  remember (length fmt) as n eqn:Hn.
  revert fmt buf t Hn. induction (lt_wf n) as [n _ IH].
  intros fmt buf t -> H Ht. destruct fmt as [|c fmt]; [by simplify_eq/=|]. simpl in H.
  destruct (c =? 37).
  - destruct fmt as [|d fmt]; [by simplify_eq|].
    bind_inv H. destruct x as [[buf1|] t1]; pose proof (conversion_fields _ _ _ _ _ Hx Ht).
    + eapply IH; [|reflexivity|exact H|done]. simpl. lia.
    + by simplify_eq.
  - destruct buf as [|x buf]; [done|]. destruct (c =? x); [|by simplify_eq].
    eapply IH; [|reflexivity|exact H|done]. simpl. lia.
Qed.

Lemma strptime_fields buf fmt p t :
  strptime buf fmt = Some (Some p, t) -> fields_ok t /\
    0 <= tm_yday t <= (if leap (tm_year t + 1900) then 365 else 364).
Proof.
  unfold strptime. intros H. bind_inv H. destruct x as [[b|] t1]; [|done].
  assert (fields_ok t1) as Hf.
  { eapply strptime_loop_fields; [exact Hx|]. unfold fields_ok. simpl. lia. }
  bind_inv H. simplify_eq. split; [exact Hf|]. cbn [tm_yday set_wday_yday].
  pose proof Hf as (Hy & Hm & Hd & _).
  rewrite (yday_base (tm_year t1) (tm_mon t1) x ltac:(lia) Hm Hx0).
  pose proof (months_days_range (leap (tm_year t1 + 1900)) (tm_mon t1) Hm) as Hr.
  destruct (leap _); lia.
Qed.

(** ** Memory safety *)

(** The characters a format consumes from the buffer. *)
Definition conv_width (c : Z) : nat :=
  if c =? 37 then 1
  else if c =? 89 then 4
  else if (c =? 100) || (c =? 72) || (c =? 77) || (c =? 109) || (c =? 83) then 2
  else 0.

Fixpoint width (fmt : list Z) : nat :=
  match fmt with
  | [] => 0
  | c :: fmt' =>
      if c =? 37 then
        match fmt' with [] => 0 | d :: fmt'' => conv_width d + width fmt'' end
      else S (width fmt')
  end.

Lemma scan_digits_defined w acc s : 0 ∉ s -> is_Some (scan_digits w acc (s ++ [0])).
Proof.
  revert w acc. induction s as [|c s IH]; intros [|w] acc Hn; simpl; try by eexists.
  destruct (isdigit c); [|by eexists]. apply IH. set_solver.
Qed.

Lemma skip_space_defined s : 0 ∉ s -> exists s', skip_space (s ++ [0]) = Some (s' ++ [0]) /\ 0 ∉ s'.
Proof.
  induction s as [|c s IH]; intros Hn; [by exists []|]. simpl.
  destruct (isspace c); [apply IH; set_solver|]. by exists (c :: s).
Qed.

Lemma sscanf_defined w s : 0 ∉ s -> is_Some (sscanf_d w (s ++ [0])).
Proof.
  intros Hn. unfold sscanf_d. destruct (skip_space_defined s Hn) as (s' & -> & Hs').
  cbn [mbind option_bind]. destruct s' as [|c s']; [simpl; destruct w; by eexists|].
  assert (H : forall w' acc l, 0 ∉ l -> exists r, scan_digits w' acc (l ++ [0]) = Some r).
  { intros w' acc l Hl. destruct (scan_digits_defined w' acc l Hl) as [r Hr]. eauto. }
  assert (Hs : 0 ∉ s') by set_solver. cbn [app].
  destruct (c =? 45), (c =? 43);
    first [destruct (H (w - 1)%nat None s' Hs) as [r ->] | change (c :: s' ++ [0]) with ((c :: s') ++ [0]);
      destruct (H w None (c :: s') Hs') as [r ->]]; by eexists.
Qed.

(** The position after a successful step: [n] characters further. *)
Definition stepped (n : nat) (s : list Z) (r : option (list Z)) : Prop :=
  r = None \/ r = Some (drop n s ++ [0]).

Lemma directive_defined w lo hi store s t :
  0 ∉ s -> (w <= length s)%nat ->
  exists r t', directive w lo hi store (s ++ [0]) t = Some (r, t') /\ stepped w s r.
Proof.
  intros Hn Hw. unfold directive. destruct (sscanf_defined w s Hn) as [v ->].
  cbn [mbind option_bind]. destruct (_ && _).
  - unfold advance. rewrite decide_True by (rewrite length_app; lia).
    cbn [mbind option_bind]. rewrite drop_app_le by done. do 2 eexists. split; [done|by right].
  - do 2 eexists. split; [done|by left].
Qed.

Lemma conversion_defined c s t :
  0 ∉ s -> (conv_width c <= length s)%nat ->
  exists r t', conversion c (s ++ [0]) t = Some (r, t') /\ stepped (conv_width c) s r.
Proof.
  intros Hn Hw. unfold conversion, conv_width in *.
  destruct (Z.eqb_spec c 37).
  { destruct s as [|x s]; [simpl in Hw; lia|]. cbn [app].
    destruct (c =? x); do 2 eexists; (split; [done|]); [by right|by left]. }
  destruct (Z.eqb_spec c 100) as [->|]; [by apply directive_defined|].
  destruct (Z.eqb_spec c 72) as [->|]; [by apply directive_defined|].
  destruct (Z.eqb_spec c 77) as [->|]; [by apply directive_defined|].
  destruct (Z.eqb_spec c 109) as [->|]; [by apply directive_defined|].
  destruct (Z.eqb_spec c 83) as [->|]; [by apply directive_defined|].
  destruct (Z.eqb_spec c 89) as [->|]; [by apply directive_defined|].
  do 2 eexists. split; [done|by left].
Qed.

Lemma strptime_loop_defined fmt s t :
  0 ∉ s -> (width fmt <= length s)%nat -> is_Some (strptime_loop fmt (s ++ [0]) t).
Proof.
  remember (length fmt) as n eqn:Hn. revert fmt s t Hn.
  induction (lt_wf n) as [n _ IH]. intros fmt s t -> Hs Hw.
  destruct fmt as [|c fmt]; [by eexists|]. simpl in Hw |- *.
  destruct (c =? 37).
  - destruct fmt as [|d fmt]; [by eexists|].
    destruct (conversion_defined d s t Hs) as (r & t' & -> & Hr); [lia|].
    cbn [mbind option_bind]. destruct Hr as [-> | ->]; [by eexists|].
    eapply IH; [|reflexivity| |rewrite length_drop; lia]; [simpl; lia|].
    intros Hin. apply Hs, (elem_of_subseteq (drop (conv_width d) s)); [|done].
    intros x Hx. apply list_elem_of_lookup_1 in Hx as [i Hi]. rewrite lookup_drop in Hi.
    by eapply list_elem_of_lookup_2.
  - destruct s as [|x s]; [simpl in Hw; lia|]. cbn [app].
    destruct (c =? x); [|by eexists].
    eapply IH; [|reflexivity|set_solver|simpl in Hw; lia]. simpl. lia.
Qed.

Lemma strptime_defined fmt s :
  0 ∉ s -> (width fmt <= length s)%nat -> is_Some (strptime (s ++ [0]) fmt).
Proof.
  intros Hs Hw. unfold strptime.
  destruct (strptime_loop_defined fmt s (set_mday 1 tm_zero) Hs Hw) as [[r t] Hl].
  rewrite Hl. cbn [mbind option_bind]. destruct r as [b|]; [|by eexists].
  apply strptime_loop_fields in Hl; [|unfold fields_ok; simpl; lia].
  destruct Hl as (_ & Hm & _). destruct (byte_at_ydays _ Hm) as [base ->]. by eexists.
Qed.

(** parsing "21000301" gives Tuesday: the weekday formula counts 2100 as a
    leap year, so it is wrong from March 2100 on (1 March 2100 is a Monday). *)
Theorem strptime_weekday_2100 :
  (snd <$> strptime (chars "21000301" ++ [0]) dFormat) ≫= (fun t => Some (tm_wday t)) = Some 2 /\
  weekday 2100 2 1 = 1.
Proof. split; vm_compute; reflexivity. Qed.

(** ** Concrete instances *)

Definition sample_time : tm := {|
  tm_sec := 50; tm_min := 30; tm_hour := 15; tm_mday := 29;
  tm_mon := 5; tm_year := 115; tm_wday := 0; tm_yday := 0 |}.

Lemma strptime_render_roundtrip_witness :
  (exists t', strptime (chars "20150629" ++ [0]) dFormat = Some (Some [0], t') /\
     derived sample_time t' /\ tm_hour t' = 0 /\ tm_min t' = 0 /\ tm_sec t' = 0) /\
  (time_ok sample_time ->
   exists t', strptime (chars "20150629T153050" ++ [0]) dtFormat = Some (Some [0], t') /\
     derived sample_time t' /\ tm_hour t' = 15 /\ tm_min t' = 30 /\ tm_sec t' = 50).
Proof.
  apply (strptime_render_roundtrip sample_time [0]).
  unfold date_ok, TM_BASE_YEAR. simpl. lia.
Defined.
