(* ===== verification/Calendar.v ===== *)
(** * Calendar: access periods and recurrence rules

    Models [resource/csdk/security/src/iotvticalendar.c]: the parsers of the
    PERIOD and RRULE strings of an access control entry and the test that the
    current time lies in them.  String arguments are the contents of the C
    strings; the 50-byte element buffer of [ParseRecur] is an argument, because
    C does not initialise it.  The current local time, which the code reads
    from the C library, is the argument [currentTime].

    The theorems characterise the day difference the code computes (its leap
    year loop counts at most one year) and from it the exact set of times
    [ValidatePeriod] accepts. *)
From S2P Require Import Prelude OicString Strptime.

Inductive IotvtICalResult_t :=
| IOTVTICAL_SUCCESS
| IOTVTICAL_VALID_ACCESS
| IOTVTICAL_INVALID_ACCESS
| IOTVTICAL_INVALID_PARAMETER
| IOTVTICAL_INVALID_RRULE
| IOTVTICAL_INVALID_PERIOD
| IOTVTICAL_ERROR.
#[export] Instance IotvtICalResult_eq_dec : EqDecision IotvtICalResult_t.
Proof. solve_decision. Defined.

Definition NO_WEEKDAY : Z := 0.
Definition SUNDAY : Z := 1.
Definition MONDAY : Z := 2.
Definition TUESDAY : Z := 4.
Definition WEDNESDAY : Z := 8.
Definition THURSDAY : Z := 16.
Definition FRIDAY : Z := 32.
Definition SATURDAY : Z := 64.

Definition FREQ_DAILY : Z := 1.
Definition TM_YEAR_OFFSET : Z := 1900.

Record IotvtICalPeriod_t := { startDateTime : tm; endDateTime : tm }.
Record IotvtICalRecur_t := { freq : Z; until : tm; byDay : Z }.

Definition FREQ : list Z := chars "FREQ".
Definition UNTIL : list Z := chars "UNTIL".
Definition BYDAY : list Z := chars "BYDAY".
Definition DAILY : list Z := chars "DAILY".

(** ** Parsing *)

(** The length up to [endPosition], given as the text after it. *)
Definition CalculateElementLength (startPosition : list Z) (endPosition : option (list Z)) : Z :=
  match endPosition with
  | Some rest => Z.of_nat (length startPosition - length rest) - 1
  | None => Z.of_nat (length startPosition)
  end.

(** The order test of [ParsePeriod]; [timed] is [fmt == dtFormat]. *)
Definition start_after_end (timed : bool) (s e : tm) : bool :=
  (tm_year e <? tm_year s)
  || ((tm_year s =? tm_year e) && (tm_mon e <? tm_mon s))
  || ((tm_year s =? tm_year e) && (tm_mon s =? tm_mon e) && (tm_mday e <? tm_mday s))
  || (timed && (tm_year s =? tm_year e) && (tm_mon s =? tm_mon e)
      && (tm_mday s =? tm_mday e) && (tm_hour e <? tm_hour s))
  || (timed && (tm_year s =? tm_year e) && (tm_mon s =? tm_mon e)
      && (tm_mday s =? tm_mday e) && (tm_hour s =? tm_hour e) && (tm_min e <? tm_min s))
  || (timed && (tm_year s =? tm_year e) && (tm_mon s =? tm_mon e)
      && (tm_mday s =? tm_mday e) && (tm_hour s =? tm_hour e) && (tm_min s =? tm_min e)
      && (tm_sec e <? tm_sec s)).

(** The part of [ParsePeriod] after the choice of the format. *)
Definition parse_period_with (timed : bool) (periodStr endDT : list Z) (period : IotvtICalPeriod_t)
    : ub (IotvtICalResult_t * IotvtICalPeriod_t) :=
  let fmt := if timed then dtFormat else dFormat in
  '(r1, s) ← strptime (periodStr ++ [0]) fmt;
  match r1 with
  | None => Some (IOTVTICAL_INVALID_PERIOD,
                  {| startDateTime := s; endDateTime := endDateTime period |})
  | Some _ =>
      '(r2, e) ← strptime (endDT ++ [0]) fmt;
      let period := {| startDateTime := s; endDateTime := e |} in
      match r2 with
      | None => Some (IOTVTICAL_INVALID_PERIOD, period)
      | Some _ =>
          if start_after_end timed s e then Some (IOTVTICAL_INVALID_PERIOD, period)
          else Some (IOTVTICAL_SUCCESS, period)
      end
  end.

Definition ParsePeriod (periodStr : option (list Z)) (period : option IotvtICalPeriod_t)
    : ub (IotvtICalResult_t * option IotvtICalPeriod_t) :=
  match periodStr, period with
  | Some ps, Some p =>
      match after_char 47 ps with
      | None => Some (IOTVTICAL_INVALID_PERIOD, Some p)
      | Some endDT =>
          let startDTLen := Z.of_nat (length ps - length endDT) - 1 in
          let endDTLen := Z.of_nat (length endDT) in
          if startDTLen =? endDTLen then
            if startDTLen =? 8 then
              '(r, p) ← parse_period_with false ps endDT p; Some (r, Some p)
            else if startDTLen =? 15 then
              '(r, p) ← parse_period_with true ps endDT p; Some (r, Some p)
            else Some (IOTVTICAL_INVALID_PERIOD, Some p)
          else Some (IOTVTICAL_INVALID_PERIOD, Some p)
      end
  | _, _ => Some (IOTVTICAL_INVALID_PARAMETER, period)
  end.

(** [rule] is the contents of the element buffer. *)
Definition ParseDate (rule : list Z) (recur : IotvtICalRecur_t)
    : ub (IotvtICalResult_t * IotvtICalRecur_t) :=
  match after_char 61 rule with
  | None => Some (IOTVTICAL_ERROR, recur)
  | Some date =>
      if Z.of_nat (length date) =? 8 then
        '(r, u) ← strptime (date ++ [0]) dFormat;
        let recur := {| freq := freq recur; until := u; byDay := byDay recur |} in
        match r with
        | Some _ => Some (IOTVTICAL_SUCCESS, recur)
        | None => Some (IOTVTICAL_ERROR, recur)
        end
      else Some (IOTVTICAL_ERROR, recur)
  end.

Definition ParseByDay (rule : list Z) (recur : IotvtICalRecur_t)
    : IotvtICalResult_t * IotvtICalRecur_t :=
  let add (d : string) (mask acc : Z) := if strstr rule (chars d) then acc ||| mask else acc in
  let b := add "SA"%string SATURDAY (add "FR"%string FRIDAY (add "TH"%string THURSDAY
            (add "WE"%string WEDNESDAY (add "TU"%string TUESDAY (add "MO"%string MONDAY
            (add "SU"%string SUNDAY (byDay recur))))))) in
  let recur := {| freq := freq recur; until := until recur; byDay := b |} in
  if b =? NO_WEEKDAY then (IOTVTICAL_ERROR, recur) else (IOTVTICAL_SUCCESS, recur).

(** One element of the rule, once copied into [buf]; the flag is [freqFlag]. *)
Definition parse_element (element : list Z) (recur : IotvtICalRecur_t) (freqFlag : bool)
    : ub (option (IotvtICalRecur_t * bool) * IotvtICalRecur_t) :=
  if strstr element FREQ then
    if strstr element DAILY then
      let recur := {| freq := FREQ_DAILY; until := until recur; byDay := byDay recur |} in
      Some (Some (recur, true), recur)
    else Some (None, recur)
  else if strstr element UNTIL then
    '(r, recur) ← ParseDate element recur;
    if decide (r = IOTVTICAL_SUCCESS) then Some (Some (recur, freqFlag), recur)
    else Some (None, recur)
  else if strstr element BYDAY then
    let '(r, recur) := ParseByDay element recur in
    if decide (r = IOTVTICAL_SUCCESS) then Some (Some (recur, freqFlag), recur)
    else Some (None, recur)
  else Some (Some (recur, freqFlag), recur).

Definition BUF_SIZE : Z := 50.

(** The [while] loop: [startPos] is the rest of the rule, [fuel] bounds the
    number of elements. *)
Fixpoint recur_loop (startPos buf : list Z) (recur : IotvtICalRecur_t) (freqFlag : bool)
    (fuel : nat) : ub (IotvtICalResult_t * IotvtICalRecur_t) :=
  match fuel with
  | O => None
  | S fuel =>
      let endPos := after_char 59 startPos in
      let elementLength := CalculateElementLength startPos endPos in
      if BUF_SIZE <=? elementLength then Some (IOTVTICAL_INVALID_RRULE, recur)
      else
        cp ← OICStrcpyPartial (Some buf) BUF_SIZE (Some (startPos ++ [0])) elementLength;
        buf ← cp;
        element ← contents buf;
        '(r, recur) ← parse_element element recur freqFlag;
        match r with
        | None => Some (IOTVTICAL_INVALID_RRULE, recur)
        | Some (recur, freqFlag) =>
            match endPos with
            | Some rest => recur_loop rest buf recur freqFlag fuel
            | None =>
                if freqFlag then Some (IOTVTICAL_SUCCESS, recur)
                else Some (IOTVTICAL_INVALID_RRULE, recur)
            end
        end
  end.

(** [buf0]: what the uninitialised element buffer holds on entry. *)
Definition ParseRecur (buf0 : list Z) (recurStr : option (list Z))
    (recur : option IotvtICalRecur_t) : ub (IotvtICalResult_t * option IotvtICalRecur_t) :=
  match recurStr, recur with
  | Some rs, Some rc =>
      '(r, rc) ← recur_loop rs buf0 rc false (S (length rs)); Some (r, Some rc)
  | _, _ => Some (IOTVTICAL_INVALID_PARAMETER, recur)
  end.

(** ** Time differences *)

Definition leap_test (y : Z) : bool :=
  (Z.rem y 4 =? 0) && (negb (Z.rem y 100 =? 0) || (Z.rem y 400 =? 0)).

(** The [for] loop of [DiffDays]: the body itself adds [TM_YEAR_OFFSET] to
    the loop variable. *)
Fixpoint leap_loop (y y2 leapDays : Z) (fuel : nat) : Z :=
  match fuel with
  | O => leapDays
  | S fuel =>
      if y <? y2 then
        let y := y + TM_YEAR_OFFSET in
        leap_loop (y + 1) y2 (if leap_test y then leapDays + 1 else leapDays) fuel
      else leapDays
  end.

Definition DiffDays (date1 date2 : tm) : Z :=
  let leapDays :=
    if tm_year date1 <? tm_year date2
    then leap_loop (tm_year date1) (tm_year date2) 0 (Z.to_nat (tm_year date2 - tm_year date1))
    else 0 in
  (365 * tm_year date2 + tm_yday date2 + leapDays)
    - (365 * tm_year date1 + tm_yday date1).

Definition DiffSecs (time1 time2 : tm) : Z :=
  (3600 * tm_hour time2 + 60 * tm_min time2 + tm_sec time2)
    - (3600 * tm_hour time1 + 60 * tm_min time1 + tm_sec time1).

Definition ValidatePeriod (period : option IotvtICalPeriod_t) (currentTime : option tm)
    : IotvtICalResult_t :=
  match period, currentTime with
  | Some p, Some now =>
      let todayIsStartDay := DiffDays (startDateTime p) now =? 0 in
      let todayIsEndDay := DiffDays now (endDateTime p) =? 0 in
      let validStartTime :=
        if todayIsStartDay then 0 <=? DiffSecs (startDateTime p) now else true in
      let validEndTime :=
        if todayIsEndDay then 0 <=? DiffSecs now (endDateTime p) else true in
      let validDay :=
        (0 <=? DiffDays (startDateTime p) now) && (0 <=? DiffDays now (endDateTime p)) in
      if validDay && validStartTime && validEndTime then IOTVTICAL_VALID_ACCESS
      else IOTVTICAL_INVALID_ACCESS
  | _, _ => IOTVTICAL_INVALID_PARAMETER
  end.

Definition empty_period : IotvtICalPeriod_t :=
  {| startDateTime := tm_zero; endDateTime := tm_zero |}.
Definition empty_recur : IotvtICalRecur_t := {| freq := 0; until := tm_zero; byDay := 0 |}.

(** The recurrence part of [IsRequestWithinValidTime]. *)
Definition validate_recur (p : IotvtICalPeriod_t) (recur : IotvtICalRecur_t) (now : tm)
    : IotvtICalResult_t :=
  if (0 <=? DiffSecs (startDateTime p) now) && (0 <=? DiffSecs now (endDateTime p))
     && (0 <=? DiffDays (startDateTime p) now)
  then
    let ret := IOTVTICAL_VALID_ACCESS in
    let ret :=
      if decide (until recur <> tm_zero) then
        if DiffDays now (until recur) <? 0 then IOTVTICAL_INVALID_ACCESS else ret
      else ret in
    if negb (byDay recur =? NO_WEEKDAY) then
      if (1 <<< tm_wday now) &&& byDay recur =? 0 then IOTVTICAL_INVALID_ACCESS else ret
    else ret
  else IOTVTICAL_INVALID_ACCESS.

Definition IsRequestWithinValidTime (buf0 : list Z) (currentTime : tm)
    (periodStr recurStr : option (list Z)) : ub IotvtICalResult_t :=
  match periodStr with
  | None => Some IOTVTICAL_INVALID_PARAMETER
  | Some _ =>
      '(ret, p) ← ParsePeriod periodStr (Some empty_period);
      if decide (ret <> IOTVTICAL_SUCCESS) then Some ret
      else
        p ← p;
        match recurStr with
        | None => Some (ValidatePeriod (Some p) (Some currentTime))
        | Some _ =>
            '(ret, recur) ← ParseRecur buf0 recurStr (Some empty_recur);
            if decide (ret <> IOTVTICAL_SUCCESS) then Some ret
            else recur ← recur; Some (validate_recur p recur currentTime)
        end
  end.

(** ** What the day difference really is *)

(** The derived day of the year is one of the year's days. *)
Definition day_ok (t : tm) : Prop :=
  -1900 <= tm_year t /\
  0 <= tm_yday t <= (if leap (tm_year t + 1900) then 365 else 364).

Lemma leap_test_leap y : 0 <= y -> leap_test y = leap y.
Proof.
  intros Hy. unfold leap_test, leap. by rewrite !Z.rem_mod_nonneg by lia.
Qed.

Lemma leap_loop_mono y y2 n fuel : n <= leap_loop y y2 n fuel.
Proof.
  revert y n. induction fuel as [|fuel IH]; intros y n; simpl; [done|].
  destruct (y <? y2); [|done]. etransitivity; [|apply IH]. destruct (leap_test _); lia.
Qed.

(** The loop counts the leap day of the first year and nothing of the next
    1900 years. *)
Lemma leap_loop_first y y2 fuel :
  -1900 <= y < y2 -> Z.to_nat (y2 - y) = fuel ->
  Z.b2z (leap (y + 1900)) <= leap_loop y y2 0 fuel /\
  (y2 <= y + 1901 -> leap_loop y y2 0 fuel = Z.b2z (leap (y + 1900))).
Proof.
  intros Hy <-. destruct (Z.to_nat (y2 - y)) as [|fuel] eqn:Ef; [lia|].
  cbn [leap_loop]. rewrite (proj2 (Z.ltb_lt _ _)) by lia.
  unfold TM_YEAR_OFFSET. rewrite leap_test_leap by lia.
  replace (if leap (y + 1900) then 0 + 1 else 0) with (Z.b2z (leap (y + 1900)))
    by (by destruct (leap (y + 1900))).
  split; [apply leap_loop_mono|]. intros H2.
  destruct fuel as [|fuel]; [done|]. cbn [leap_loop].
  by rewrite (proj2 (Z.ltb_ge _ _)) by lia.
Qed.

(** [DiffDays] is exact within a year and from one year to the next, and
    ignores every leap day but the first year's beyond. *)
Lemma DiffDays_value a b :
  -1900 <= tm_year a -> tm_year b <= tm_year a + 1901 ->
  DiffDays a b = 365 * (tm_year b - tm_year a) + (tm_yday b - tm_yday a)
    + (if tm_year a <? tm_year b then Z.b2z (leap (tm_year a + 1900)) else 0).
Proof.
  intros Ha Hb. unfold DiffDays. destruct (Z.ltb_spec (tm_year a) (tm_year b)); [|lia].
  destruct (leap_loop_first (tm_year a) (tm_year b) (Z.to_nat (tm_year b - tm_year a)))
    as [_ ->]; lia.
Qed.

(** [b] is 31 December of a leap year and [a] the day after it. *)
Definition day_after_leap_year (a b : tm) : bool :=
  leap (tm_year b + 1900) && (tm_year a =? tm_year b + 1)
    && (tm_yday a =? 0) && (tm_yday b =? 365).

Lemma DiffDays_bounds a b :
  day_ok a -> day_ok b ->
  (tm_year a < tm_year b -> 1 <= DiffDays a b) /\
  (tm_year a = tm_year b -> DiffDays a b = tm_yday b - tm_yday a) /\
  (tm_year b < tm_year a -> DiffDays a b <= 0 /\
     (DiffDays a b = 0 <-> day_after_leap_year a b = true)).
Proof.
  intros [Ha Hya] [Hb Hyb]. unfold DiffDays. split; [|split]; intros Hc.
  - rewrite (proj2 (Z.ltb_lt _ _)) by done.
    destruct (leap_loop_first (tm_year a) (tm_year b) (Z.to_nat (tm_year b - tm_year a)))
      as [Hl _]; [lia|lia|]. destruct (leap (tm_year a + 1900)), (leap (tm_year b + 1900));
      simpl in Hl; lia.
  - rewrite (proj2 (Z.ltb_ge _ _)) by lia. lia.
  - rewrite (proj2 (Z.ltb_ge _ _)) by lia. unfold day_after_leap_year.
    rewrite !andb_true_iff, !Z.eqb_eq.
    destruct (leap (tm_year b + 1900)), (leap (tm_year a + 1900)); lia.
Qed.

Definition secs (t : tm) : Z := 3600 * tm_hour t + 60 * tm_min t + tm_sec t.

(** The order of points in time. *)
Definition not_after (a b : tm) : bool :=
  (tm_year a <? tm_year b)
  || ((tm_year a =? tm_year b) && ((tm_yday a <? tm_yday b)
        || ((tm_yday a =? tm_yday b) && (secs a <=? secs b)))).

(** What the miscounted leap day adds to the order. *)
Definition leap_slip (a b : tm) : bool := day_after_leap_year a b && (secs a <=? secs b).

Lemma bound_test a b :
  day_ok a -> day_ok b ->
  (0 <=? DiffDays a b) && (if DiffDays a b =? 0 then 0 <=? DiffSecs a b else true)
    = not_after a b || leap_slip a b.
Proof.
  intros Ha Hb. destruct (DiffDays_bounds a b Ha Hb) as (Hlt & Heq & Hgt).
  assert (DiffSecs a b = secs b - secs a) as -> by (unfold DiffSecs, secs; lia).
  unfold not_after, leap_slip.
  assert (Hd : day_after_leap_year a b = true -> tm_year a = tm_year b + 1).
  { unfold day_after_leap_year. rewrite !andb_true_iff, !Z.eqb_eq. lia. }
  destruct (day_after_leap_year a b);
    destruct (Z.ltb_spec (tm_year a) (tm_year b)), (Z.eqb_spec (tm_year a) (tm_year b)),
      (Z.ltb_spec (tm_yday a) (tm_yday b)), (Z.eqb_spec (tm_yday a) (tm_yday b)),
      (Z.leb_spec 0 (DiffDays a b)), (Z.eqb_spec (DiffDays a b) 0),
      (Z.leb_spec (secs a) (secs b)), (Z.leb_spec 0 (secs b - secs a));
    simpl; try reflexivity; exfalso; intuition lia.
Qed.

Lemma ValidatePeriod_window (p : IotvtICalPeriod_t) (now : tm) :
  day_ok (startDateTime p) -> day_ok (endDateTime p) -> day_ok now ->
  ValidatePeriod (Some p) (Some now) =
    if (not_after (startDateTime p) now || leap_slip (startDateTime p) now)
       && (not_after now (endDateTime p) || leap_slip now (endDateTime p))
    then IOTVTICAL_VALID_ACCESS else IOTVTICAL_INVALID_ACCESS.
Proof.
  intros Hs He Hn. unfold ValidatePeriod.
  rewrite <- (bound_test _ _ Hs Hn), <- (bound_test _ _ Hn He).
  destruct (0 <=? DiffDays (startDateTime p) now), (0 <=? DiffDays now (endDateTime p)),
    (if DiffDays (startDateTime p) now =? 0 then _ else _),
    (if DiffDays now (endDateTime p) =? 0 then _ else _); reflexivity.
Qed.

(** ** From the strings *)

Lemma strptime_day_ok buf fmt p t : strptime buf fmt = Some (Some p, t) -> day_ok t.
Proof.
  intros H. apply strptime_fields in H as [(Hy & _) Hd]. split; [lia|done].
Qed.

(** A parsed period has real days in it, in order. *)
Lemma ParsePeriod_days ps p0 p :
  ParsePeriod (Some ps) (Some p0) = Some (IOTVTICAL_SUCCESS, Some p) ->
  day_ok (startDateTime p) /\ day_ok (endDateTime p).
Proof.
  unfold ParsePeriod. destruct (after_char 47 ps) as [e|]; [|done].
  assert (H : forall timed r p', parse_period_with timed ps e p0 = Some (r, p') ->
    r = IOTVTICAL_SUCCESS -> day_ok (startDateTime p') /\ day_ok (endDateTime p')).
  { intros timed r p' H ->. unfold parse_period_with in H. bind_inv H.
    destruct x as [[b1|] t1]; [|done]. bind_inv H. destruct x as [[b2|] t2]; [|done].
    case_hyp H; simplify_eq. simpl. split; by eapply strptime_day_ok. }
  intros Hp. destruct (_ =? _); [|done]. destruct (_ =? 8).
  { bind_inv Hp. destruct x. simplify_eq. by eapply H. }
  destruct (_ =? 15); [|done]. bind_inv Hp. destruct x. simplify_eq. by eapply H.
Qed.

(** C23: without a recurrence rule, a request is accepted exactly when the
    period parses and the current time is between its start and its end -
    except on the day after 31 December of a leap year: the day difference
    calls that pair of days equal, so a period that ends then is still open
    the next day until its closing hour, and one that starts on 1 January is
    open the day before from its opening hour on. *)
Theorem IsRequestWithinValidTime_period (buf0 : list Z) (now : tm) (ps : list Z)
    (p : IotvtICalPeriod_t) :
  day_ok now ->
  ParsePeriod (Some ps) (Some empty_period) = Some (IOTVTICAL_SUCCESS, Some p) ->
  IsRequestWithinValidTime buf0 now (Some ps) None = Some
    (if (not_after (startDateTime p) now || leap_slip (startDateTime p) now)
        && (not_after now (endDateTime p) || leap_slip now (endDateTime p))
     then IOTVTICAL_VALID_ACCESS else IOTVTICAL_INVALID_ACCESS).
Proof.
  intros Hn Hp. destruct (ParsePeriod_days _ _ _ Hp) as [Hs He].
  unfold IsRequestWithinValidTime. rewrite Hp. cbn [mbind option_bind].
  rewrite decide_False by (intros H; by apply H).
  by rewrite ValidatePeriod_window.
Qed.

(** ** The parsers are total on strings *)

Lemma parse_period_defined timed ps e p :
  0 ∉ ps -> 0 ∉ e -> (width (if timed : bool then dtFormat else dFormat) <= length ps)%nat ->
  (width (if timed then dtFormat else dFormat) <= length e)%nat ->
  is_Some (parse_period_with timed ps e p).
Proof.
  intros Hps He Hw1 Hw2. unfold parse_period_with.
  destruct (strptime_defined _ ps Hps Hw1) as [[r1 t1] ->]. cbn [mbind option_bind].
  destruct r1; [|by eexists].
  destruct (strptime_defined _ e He Hw2) as [[r2 t2] ->]. cbn [mbind option_bind].
  destruct r2; [|by eexists]. destruct (start_after_end _ _ _); by eexists.
Qed.

Lemma ParsePeriod_defined ps p :
  0 ∉ ps -> is_Some (ParsePeriod (Some ps) (Some p)).
Proof.
  intros Hps. unfold ParsePeriod. destruct (after_char 47 ps) as [e|] eqn:E; [|by eexists].
  apply after_char_split in E as (pre & -> & _).
  rewrite length_app. simpl.
  destruct (Z.eqb_spec (Z.of_nat (length pre + S (length e) - length e) - 1) (Z.of_nat (length e)))
    as [Heq|]; [|by eexists].
  assert (He : 0 ∉ e) by set_solver.
  destruct (Z.eqb_spec (Z.of_nat (length pre + S (length e) - length e) - 1) 8) as [H8|].
  { destruct (parse_period_defined false (pre ++ 47 :: e) e p Hps He) as [[r q] ->];
      [vm_compute width; rewrite length_app; simpl; lia|vm_compute width; lia|by eexists]. }
  destruct (Z.eqb_spec (Z.of_nat (length pre + S (length e) - length e) - 1) 15) as [H15|];
    [|by eexists].
  destruct (parse_period_defined true (pre ++ 47 :: e) e p Hps He) as [[r q] ->];
    [vm_compute width; rewrite length_app; simpl; lia|vm_compute width; lia|by eexists].
Qed.

Lemma parse_element_defined el rc fl : 0 ∉ el -> is_Some (parse_element el rc fl).
Proof.
  intros Hel. unfold parse_element.
  destruct (strstr el FREQ); [destruct (strstr el DAILY); by eexists|].
  destruct (strstr el UNTIL).
  - unfold ParseDate. destruct (after_char 61 el) as [d|] eqn:E.
    + apply after_char_split in E as (pre & -> & _).
      destruct (Z.eqb_spec (Z.of_nat (length d)) 8) as [H8|].
      * destruct (strptime_defined dFormat d) as [[r t] ->];
          [set_solver|vm_compute width; lia|]. cbn [mbind option_bind].
        destruct r; cbn [mbind option_bind]; case_decide; by eexists.
      * cbn [mbind option_bind]. case_decide; by eexists.
    + cbn [mbind option_bind]. case_decide; by eexists.
  - destruct (strstr el BYDAY); [|by eexists].
    destruct (ParseByDay el rc). case_decide; by eexists.
Qed.

(** ** The element buffer *)

(** A 50-byte buffer that holds the string [s]. *)
Definition holds (b s : list Z) : Prop := length b = 50%nat /\ cstr b s.

Lemma copy_element b startPos n :
  length b = 50%nat -> 0 ∉ startPos -> 1 <= n < BUF_SIZE -> n <= Z.of_nat (length startPos) ->
  exists b', OICStrcpyPartial (Some b) BUF_SIZE (Some (startPos ++ [0])) n = Some (Some b') /\
    holds b' (take (Z.to_nat n) startPos).
Proof.
  intros Hb Hs Hn Hl. unfold BUF_SIZE in *.
  destruct (OICStrcpyPartial_copied b (startPos ++ [0]) startPos 50 n) as (b' & Hcp & Hr & Hlen & _);
    [by exists []|lia|lia|].
  exists b'. split; [done|]. split; [congruence|].
  replace (Z.min (50 - 1) n) with n in Hr by lia. done.
Qed.

Lemma element_length startPos :
  0 <= CalculateElementLength startPos (after_char 59 startPos) <= Z.of_nat (length startPos).
Proof.
  unfold CalculateElementLength. destruct (after_char 59 startPos) as [r|] eqn:E; [|lia].
  apply after_char_split in E as (pre & -> & _). rewrite length_app. simpl. lia.
Qed.

Lemma after_char_no_nul c s r : 0 ∉ s -> after_char c s = Some r ->
  0 ∉ r /\ (length r < length s)%nat.
Proof.
  intros Hs (pre & -> & _)%after_char_split. split; [set_solver|].
  rewrite length_app. simpl. lia.
Qed.

(** Once the buffer holds a string, the loop is defined and only that string
    matters, not the bytes behind its terminator. *)
Lemma recur_loop_holds fuel startPos b1 b2 s rc fl :
  0 ∉ startPos -> holds b1 s -> holds b2 s -> (length startPos < fuel)%nat ->
  exists r, recur_loop startPos b1 rc fl fuel = Some r /\
    recur_loop startPos b2 rc fl fuel = Some r.
Proof.
  revert startPos b1 b2 s rc fl. induction fuel as [|fuel IH]; intros startPos b1 b2 s rc fl
    Hs H1 H2 Hf; [lia|]. cbn [recur_loop].
  pose proof (element_length startPos) as Hlen.
  set (n := CalculateElementLength startPos (after_char 59 startPos)) in *.
  destruct (Z.leb_spec BUF_SIZE n) as [|Hn]; [by eauto|].
  assert (exists b1' b2' s', OICStrcpyPartial (Some b1) BUF_SIZE (Some (startPos ++ [0])) n
      = Some (Some b1') /\ OICStrcpyPartial (Some b2) BUF_SIZE (Some (startPos ++ [0])) n
      = Some (Some b2') /\ holds b1' s' /\ holds b2' s') as (b1' & b2' & s' & -> & -> & H1' & H2').
  { destruct (Z.eq_dec n 0) as [->|Hn0]; [by exists b1, b2, s|].
    destruct (copy_element b1 startPos n) as (b1' & Hc1 & Hh1); [apply H1|done|lia|lia|].
    destruct (copy_element b2 startPos n) as (b2' & Hc2 & Hh2); [apply H2|done|lia|lia|].
    eauto 10. }
  cbn [mbind option_bind].
  rewrite (contents_cstr _ _ (proj2 H1')), (contents_cstr _ _ (proj2 H2')).
  cbn [mbind option_bind].
  destruct (parse_element_defined s' rc fl) as [[[[rc' fl']|] rc''] ->];
    [eapply cstr_not_nul, H1'| |]; cbn [mbind option_bind]; [|by eauto].
  destruct (after_char 59 startPos) as [rest|] eqn:E; [|destruct fl'; by eauto].
  destruct (after_char_no_nul _ _ _ Hs E). eapply IH; [done|done|done|lia].
Qed.

Lemma ParseRecur_same (buf1 buf2 rule : list Z) (rc : IotvtICalRecur_t) :
  0 ∉ rule -> length buf1 = 50%nat -> length buf2 = 50%nat ->
  rule <> [] -> head rule <> Some 59 ->
  exists r rc', ParseRecur buf1 (Some rule) (Some rc) = Some (r, Some rc') /\
    ParseRecur buf2 (Some rule) (Some rc) = Some (r, Some rc').
Proof.
  intros Hs Hl1 Hl2 Hne Hhd. unfold ParseRecur.
  assert (exists r, recur_loop rule buf1 rc false (S (length rule)) = Some r /\
    recur_loop rule buf2 rc false (S (length rule)) = Some r) as ([r rc'] & -> & ->);
    [|by eauto].
  cbn [recur_loop]. pose proof (element_length rule) as Hlen.
  set (n := CalculateElementLength rule (after_char 59 rule)) in *.
  destruct (Z.leb_spec BUF_SIZE n) as [|Hn]; [by eauto|].
  assert (1 <= n) as Hn1.
  { unfold n, CalculateElementLength. destruct (after_char 59 rule) as [r|] eqn:E.
    - apply after_char_split in E as ([|x pre] & -> & _); [done|].
      simpl. rewrite length_app. simpl. lia.
    - destruct rule; [done|]. simpl. lia. }
  destruct (copy_element buf1 rule n) as (b1 & -> & H1); [done..|lia|].
  destruct (copy_element buf2 rule n) as (b2 & -> & H2); [done..|lia|].
  cbn [mbind option_bind].
  rewrite (contents_cstr _ _ (proj2 H1)), (contents_cstr _ _ (proj2 H2)). cbn [mbind option_bind].
  destruct (parse_element_defined (take (Z.to_nat n) rule) rc false) as [[[[rc' fl']|] rc''] ->];
    [eapply cstr_not_nul, H1| |]; cbn [mbind option_bind]; [|by eauto].
  destruct (after_char 59 rule) as [rest|] eqn:E; [|destruct fl'; by eauto].
  destruct (after_char_no_nul _ _ _ Hs E). eapply recur_loop_holds; [done|done|done|lia].
Qed.

(** a rule whose first element is not empty is parsed without undefined
    behaviour, and the result never depends on the bytes the uninitialised
    element buffer held. *)
Theorem ParseRecur_initialised (buf1 buf2 rule : list Z) (rc : IotvtICalRecur_t) :
  0 ∉ rule -> length buf1 = 50%nat -> length buf2 = 50%nat ->
  rule <> [] -> head rule <> Some 59 ->
  exists r rc', ParseRecur buf1 (Some rule) (Some rc) = Some (r, Some rc') /\
    ParseRecur buf2 (Some rule) (Some rc) = Some (r, Some rc').
Proof. apply ParseRecur_same. Qed.

(** an empty rule copies nothing into the element buffer, so its verdict is
    whatever the uninitialised 50 bytes happen to spell: the same call accepts
    or rejects, or runs off the buffer when it holds no NUL. *)
Theorem ParseRecur_empty_uninitialised :
  exists buf1 buf2 buf3, length buf1 = 50%nat /\ length buf2 = 50%nat /\ length buf3 = 50%nat /\
    fst <$> ParseRecur buf1 (Some []) (Some empty_recur) = Some IOTVTICAL_SUCCESS /\
    fst <$> ParseRecur buf2 (Some []) (Some empty_recur) = Some IOTVTICAL_INVALID_RRULE /\
    ParseRecur buf3 (Some []) (Some empty_recur) = None.
Proof.
  exists (chars "FREQ=DAILY" ++ replicate 40 0), (replicate 50 0), (replicate 50 1).
  split_and!; vm_compute; reflexivity.
Qed.

(** A rule the parser handles: no NUL inside and a first element. *)
Definition rule_ok (rule : list Z) : Prop :=
  0 ∉ rule /\ rule <> [] /\ head rule <> Some 59.

Lemma ParsePeriod_out ps p0 r p : ParsePeriod (Some ps) (Some p0) = Some (r, p) -> is_Some p.
Proof.
  unfold ParsePeriod. destruct (after_char 47 ps); [|intros [= <- <-]; by eexists].
  destruct (_ =? _); [|intros [= <- <-]; by eexists].
  destruct (_ =? 8); [|destruct (_ =? 15); [|intros [= <- <-]; by eexists]];
    intros H; bind_inv H; destruct x; simplify_eq; by eexists.
Qed.

Lemma IsRequestWithinValidTime_defined buf0 now ps rule :
  length buf0 = 50%nat -> (forall p, ps = Some p -> 0 ∉ p) ->
  (forall r, rule = Some r -> rule_ok r) ->
  is_Some (IsRequestWithinValidTime buf0 now ps rule).
Proof.
  intros Hb Hp Hr. unfold IsRequestWithinValidTime. destruct ps as [ps|]; [|by eexists].
  destruct (ParsePeriod_defined ps empty_period (Hp _ eq_refl)) as [[r p] Hpp].
  destruct (ParsePeriod_out _ _ _ _ Hpp) as [q ->].
  rewrite Hpp. cbn [mbind option_bind]. case_decide; [by eexists|].
  destruct rule as [rl|]; [|by eexists]. destruct (Hr _ eq_refl) as (H0 & Hne & Hhd).
  destruct (ParseRecur_same buf0 buf0 rl empty_recur) as (r2 & rc & -> & _); [done..|].
  cbn [mbind option_bind]. case_decide; by eexists.
Qed.

(** ** Recurring access *)

(** [a]'s day is not after [b]'s. *)
Definition day_le (a b : tm) : bool :=
  (tm_year a <? tm_year b) || ((tm_year a =? tm_year b) && (tm_yday a <=? tm_yday b)).

Lemma day_test a b : day_ok a -> day_ok b ->
  (0 <=? DiffDays a b) = day_le a b || day_after_leap_year a b.
Proof.
  intros Ha Hb. destruct (DiffDays_bounds a b Ha Hb) as (Hlt & Heq & Hgt). unfold day_le.
  assert (Hd : day_after_leap_year a b = true -> tm_year a = tm_year b + 1).
  { unfold day_after_leap_year. rewrite !andb_true_iff, !Z.eqb_eq. lia. }
  destruct (day_after_leap_year a b);
    destruct (Z.ltb_spec (tm_year a) (tm_year b)), (Z.eqb_spec (tm_year a) (tm_year b)),
      (Z.leb_spec (tm_yday a) (tm_yday b)), (Z.leb_spec 0 (DiffDays a b));
    simpl; try reflexivity; exfalso; intuition lia.
Qed.

(** The weekday test, [byDay] being a mask of the days 0 to 6. *)
Definition weekday_allowed (mask d : Z) : bool := (mask =? NO_WEEKDAY) || Z.testbit mask d.

Lemma weekday_test mask d : 0 <= d ->
  ((1 <<< d) &&& mask =? 0) = negb (Z.testbit mask d).
Proof.
  intros Hd. rewrite Z.shiftl_1_l.
  destruct (Z.testbit mask d) eqn:E; simpl.
  - apply Z.eqb_neq. intros H0. apply (f_equal (fun z => Z.testbit z d)) in H0.
    rewrite Z.land_spec, Z.pow2_bits_true, E, Z.bits_0 in H0 by lia. done.
  - apply Z.eqb_eq, Z.bits_inj'. intros i Hi. rewrite Z.land_spec, Z.bits_0.
    rewrite Z.pow2_bits_eqb by lia. destruct (Z.eqb_spec d i) as [->|]; [by rewrite E|done].
Qed.

(** with a recurrence rule, a request is accepted exactly when its time of
    day is between the period's start and end times of day, its day is not
    before the period's first day nor after [UNTIL] (up to the leap-year slip
    of the day difference), and its weekday is in [BYDAY] if there is one. *)
Theorem IsRequestWithinValidTime_recurring (buf0 : list Z) (now : tm) (ps rule : list Z)
    (p : IotvtICalPeriod_t) (rc : IotvtICalRecur_t) :
  day_ok now -> 0 <= tm_wday now -> (until rc = tm_zero \/ day_ok (until rc)) ->
  ParsePeriod (Some ps) (Some empty_period) = Some (IOTVTICAL_SUCCESS, Some p) ->
  ParseRecur buf0 (Some rule) (Some empty_recur) = Some (IOTVTICAL_SUCCESS, Some rc) ->
  IsRequestWithinValidTime buf0 now (Some ps) (Some rule) = Some
    (if (secs (startDateTime p) <=? secs now) && (secs now <=? secs (endDateTime p))
        && (day_le (startDateTime p) now || day_after_leap_year (startDateTime p) now)
        && (bool_decide (until rc = tm_zero)
            || day_le now (until rc) || day_after_leap_year now (until rc))
        && weekday_allowed (byDay rc) (tm_wday now)
     then IOTVTICAL_VALID_ACCESS else IOTVTICAL_INVALID_ACCESS).
Proof.
  intros Hn Hw Hu Hp Hr. destruct (ParsePeriod_days _ _ _ Hp) as [Hs He].
  unfold IsRequestWithinValidTime. rewrite Hp. cbn [mbind option_bind].
  rewrite decide_False by (intros H; by apply H). rewrite Hr. cbn [mbind option_bind].
  rewrite decide_False by (intros H; by apply H). f_equal. unfold validate_recur.
  assert (Hd : forall a b, (0 <=? DiffSecs a b) = (secs a <=? secs b)).
  { intros a b. unfold DiffSecs, secs. apply eq_bool_prop_intro. rewrite !Is_true_true, !Z.leb_le. lia. }
  rewrite !Hd, (day_test _ _ Hs Hn).
  destruct (_ && (_ || _)); cbn [andb]; [|done].
  rewrite weekday_test by done. unfold weekday_allowed, NO_WEEKDAY.
  case_decide as Hz.
  - rewrite bool_decide_eq_false_2 by done. cbn [orb].
    destruct Hu as [|Hu]; [done|]. rewrite <- (day_test _ _ Hn Hu), Z.ltb_antisym.
    destruct (0 <=? DiffDays now (until rc)), (byDay rc =? 0), (Z.testbit _ _); done.
  - rewrite bool_decide_eq_true_2 by (destruct (decide (until rc = tm_zero)); tauto).
    destruct (byDay rc =? 0), (Z.testbit _ _); done.
Qed.

(** ** Concrete instances *)

(** 10:00 on 1 January 2017. *)
Definition new_year_2017 : tm := {|
  tm_sec := 0; tm_min := 0; tm_hour := 10; tm_mday := 1;
  tm_mon := 0; tm_year := 117; tm_wday := 0; tm_yday := 0 |}.

Definition period_2016 : IotvtICalPeriod_t := {|
  startDateTime := {| tm_sec := 0; tm_min := 0; tm_hour := 0; tm_mday := 1;
    tm_mon := 0; tm_year := 116; tm_wday := 5; tm_yday := 0 |};
  endDateTime := {| tm_sec := 0; tm_min := 0; tm_hour := 12; tm_mday := 31;
    tm_mon := 11; tm_year := 116; tm_wday := 6; tm_yday := 365 |} |}.

(** The period ended the day before, and the request is still accepted. *)
Lemma IsRequestWithinValidTime_period_witness :
  not_after new_year_2017 (endDateTime period_2016) = false /\
  IsRequestWithinValidTime (replicate 50 0) new_year_2017
    (Some (chars "20160101T000000/20161231T120000")) None = Some IOTVTICAL_VALID_ACCESS.
Proof.
  split; [reflexivity|].
  apply (IsRequestWithinValidTime_period (replicate 50 0) new_year_2017
    (chars "20160101T000000/20161231T120000") period_2016).
  - unfold day_ok. simpl. lia.
  - vm_compute. reflexivity.
Defined.

Definition weekdays_rule : IotvtICalRecur_t := {| freq := 1; until := tm_zero; byDay := 42 |}.

Definition monday_noon : tm := {|
  tm_sec := 0; tm_min := 0; tm_hour := 12; tm_mday := 6;
  tm_mon := 6; tm_year := 115; tm_wday := 1; tm_yday := 186 |}.

Definition afternoon_period : IotvtICalPeriod_t := {|
  startDateTime := {| tm_sec := 0; tm_min := 0; tm_hour := 10; tm_mday := 26;
    tm_mon := 5; tm_year := 115; tm_wday := 5; tm_yday := 176 |};
  endDateTime := {| tm_sec := 0; tm_min := 0; tm_hour := 17; tm_mday := 26;
    tm_mon := 5; tm_year := 115; tm_wday := 5; tm_yday := 176 |} |}.

Lemma IsRequestWithinValidTime_recurring_witness :
  IsRequestWithinValidTime (replicate 50 7) monday_noon
    (Some (chars "20150626T100000/20150626T170000"))
    (Some (chars "FREQ=DAILY; BYDAY=MO, WE, FR")) = Some IOTVTICAL_VALID_ACCESS.
Proof.
  apply (IsRequestWithinValidTime_recurring (replicate 50 7) monday_noon
    (chars "20150626T100000/20150626T170000") (chars "FREQ=DAILY; BYDAY=MO, WE, FR")
    afternoon_period weekdays_rule).
  - unfold day_ok. simpl. lia.
  - simpl. lia.
  - left. reflexivity.
  - vm_compute. reflexivity.
  - vm_compute. reflexivity.
Defined.

Lemma ParseRecur_initialised_witness :
  exists r rc', ParseRecur (replicate 50 1) (Some (chars "FREQ=DAILY;;BYDAY=MO"))
      (Some empty_recur) = Some (r, Some rc') /\
    ParseRecur (replicate 50 2) (Some (chars "FREQ=DAILY;;BYDAY=MO"))
      (Some empty_recur) = Some (r, Some rc').
Proof.
  apply (ParseRecur_initialised (replicate 50 1) (replicate 50 2)
    (chars "FREQ=DAILY;;BYDAY=MO") empty_recur); [|reflexivity|reflexivity|discriminate|discriminate].
  vm_compute. intros H. repeat (apply elem_of_cons in H as [H|H]; [discriminate|]).
  by apply not_elem_of_nil in H.
Defined.
