(* ===== verification/Acl.v ===== *)
(** * Acl: access control entries and their iteration

    Models the types of [securevirtualresourcetypes.h] that the policy engine
    reads, the UUID comparisons of [srmutility.c] and the three lookup
    functions of [aclresource.c].  The ACE list is the list of its nodes with
    their addresses, because the lookups resume from a saved address; C
    strings are their contents and a NULL pointer is [None].

    [AceIterator] is what the lookups promise the policy engine: successive
    calls visit exactly the matching entries, in list order, each once. *)
From S2P Require Import Prelude Chain.

(** ** Types *)

(** [struct OicUuid]: 16 bytes. *)
Definition OicUuid_t := list Z.
Definition UUID_LENGTH : nat := 16.

Record OicSecRole_t := { role_id : list Z; role_authority : list Z }.
#[export] Instance OicSecRole_eq_dec : EqDecision OicSecRole_t.
Proof. solve_decision. Defined.

Inductive OicSecConntype_t := AUTH_CRYPT | ANON_CLEAR.
#[export] Instance OicSecConntype_eq_dec : EqDecision OicSecConntype_t.
Proof. solve_decision. Defined.

Inductive OicSecAceResourceWildcard_t :=
| NO_WILDCARD | ALL_DISCOVERABLE | ALL_NON_DISCOVERABLE | ALL_RESOURCES.
#[export] Instance OicSecAceResourceWildcard_eq_dec : EqDecision OicSecAceResourceWildcard_t.
Proof. solve_decision. Defined.

Inductive OicSecDiscoverable_t :=
| DISCOVERABLE_NOT_KNOWN | DISCOVERABLE_TRUE | DISCOVERABLE_FALSE.
#[export] Instance OicSecDiscoverable_eq_dec : EqDecision OicSecDiscoverable_t.
Proof. solve_decision. Defined.

(** The fields that decide a match; [rel], [types] and [interfaces] are only
    stored and printed. *)
Record OicSecRsrc_t := { href : option (list Z); wildcard : OicSecAceResourceWildcard_t }.

(** [recurrences] is NULL or the array of [recurrenceLen] strings. *)
Record OicSecValidity_t := {
  period : option (list Z);
  recurrences : option (list (option (list Z)));
}.

(** The subject type with its union. *)
Inductive OicSecAceSubject :=
| OicSecAceUuidSubject (subjectuuid : OicUuid_t)
| OicSecAceRoleSubject (subjectRole : OicSecRole_t)
| OicSecAceConntypeSubject (subjectConn : OicSecConntype_t).

Record OicSecAce_t := {
  subject : OicSecAceSubject;
  resources : list OicSecRsrc_t;
  permission : Z;
  validities : list OicSecValidity_t;
  aceid : Z;
}.

(** [aces]: the nodes from the head, each with its address. *)
Record OicSecAcl_t := { acl_rownerID : OicUuid_t; aces : list (loc * OicSecAce_t) }.

(** ** UUIDs *)

Definition THE_NIL_UUID : OicUuid_t := replicate UUID_LENGTH 0.

Definition UuidCmp (firstId secondId : option OicUuid_t) : bool :=
  match firstId, secondId with
  | Some a, Some b => bool_decide (a = b)
  | _, _ => false
  end.

Definition IsNilUuid (uuid : option OicUuid_t) : bool := UuidCmp uuid (Some THE_NIL_UUID).

(** ** Lookups *)

Implicit Types (savePtr : option loc).

(** [LL_FOREACH(gAcl->aces, ace) if (ace == *savePtr) begin = ace->next]. *)
Fixpoint seek (l : list (loc * OicSecAce_t)) (p : loc) (begin : list (loc * OicSecAce_t))
    : list (loc * OicSecAce_t) :=
  match l with
  | [] => begin
  | (a, _) :: l' => seek l' p (if decide (a = p) then l' else begin)
  end.

Definition begin_from (l : list (loc * OicSecAce_t)) (savePtr : option loc)
    : list (loc * OicSecAce_t) :=
  match savePtr with
  | None => l
  | Some p => seek l p []
  end.

(** [LL_FOREACH(begin, ace) if (...) { *savePtr = ace; return ace; }]. *)
Fixpoint first_match (f : OicSecAce_t -> bool) (l : list (loc * OicSecAce_t))
    : option (loc * OicSecAce_t) :=
  match l with
  | [] => None
  | (a, ace) :: l' => if f ace then Some (a, ace) else first_match f l'
  end.

(** The entry returned and the new [*savePtr], NULL when there is none. *)
Definition lookup_from (f : OicSecAce_t -> bool) (l : list (loc * OicSecAce_t))
    (savePtr : option loc) : option OicSecAce_t * option loc :=
  match first_match f (begin_from l savePtr) with
  | Some (a, ace) => (Some ace, Some a)
  | None => (None, None)
  end.

Definition subject_matches (subjectId : OicUuid_t) (ace : OicSecAce_t) : bool :=
  match subject ace with
  | OicSecAceUuidSubject u => bool_decide (u = subjectId)
  | _ => false
  end.

(** The outer [option] of [savePtr] is the pointer argument itself. *)
Definition GetACLResourceData (gAcl : option OicSecAcl_t) (subjectId : option OicUuid_t)
    (savePtr : option (option loc)) : option OicSecAce_t * option (option loc) :=
  match subjectId, savePtr, gAcl with
  | Some u, Some sp, Some acl =>
      let '(r, sp) := lookup_from (subject_matches u) (aces acl) sp in (r, Some sp)
  | _, _, _ => (None, savePtr)
  end.

(** The inner [for] loop over the asserted roles. *)
Fixpoint role_in (role : OicSecRole_t) (roles : list OicSecRole_t) : bool :=
  match roles with
  | [] => false
  | r :: roles' =>
      (bool_decide (role_id role = role_id r)
       && bool_decide (role_authority role = role_authority r)) || role_in role roles'
  end.

Definition role_matches (roles : list OicSecRole_t) (ace : OicSecAce_t) : bool :=
  match subject ace with
  | OicSecAceRoleSubject role => role_in role roles
  | _ => false
  end.

(** [roles]: NULL or the array of [roleCount] roles. *)
Definition GetACLResourceDataByRoles (gAcl : option OicSecAcl_t)
    (roles : option (list OicSecRole_t)) (savePtr : option (option loc))
    : option OicSecAce_t * option (option loc) :=
  match savePtr, gAcl with
  | Some sp, Some acl =>
      match roles with
      | None => (None, savePtr)
      | Some [] => (None, savePtr)
      | Some rs => let '(r, sp) := lookup_from (role_matches rs) (aces acl) sp in (r, Some sp)
      end
  | _, _ => (None, savePtr)
  end.

Definition conntype_matches (conntype : OicSecConntype_t) (ace : OicSecAce_t) : bool :=
  match subject ace with
  | OicSecAceConntypeSubject c => bool_decide (conntype = c)
  | _ => false
  end.

Definition GetACLResourceDataByConntype (gAcl : option OicSecAcl_t)
    (conntype : OicSecConntype_t) (savePtr : option (option loc))
    : option OicSecAce_t * option (option loc) :=
  match savePtr, gAcl with
  | Some sp, Some acl =>
      let '(r, sp) := lookup_from (conntype_matches conntype) (aces acl) sp in (r, Some sp)
  | _, _ => (None, savePtr)
  end.

(** ** Iteration *)

(** Nodes of a list in memory have distinct addresses. *)
Definition acl_ok (gAcl : option OicSecAcl_t) : Prop :=
  match gAcl with None => True | Some acl => NoDup (aces acl).*1 end.

Definition all_aces (gAcl : option OicSecAcl_t) : list OicSecAce_t :=
  match gAcl with None => [] | Some acl => (aces acl).*2 end.

(** [step] is a lookup; [visits step sp l]: calling it from the saved position
    [sp] until it returns NULL returns the entries [l] in turn. *)
Inductive visits (step : option loc -> option OicSecAce_t * option loc)
    : option loc -> list OicSecAce_t -> Prop :=
| visits_done sp : step sp = (None, None) -> visits step sp []
| visits_step sp ace a l :
    step sp = (Some ace, Some a) -> visits step (Some a) l -> visits step sp (ace :: l).

(** What the policy engine needs of a lookup: from a NULL position it visits
    exactly [sel]. *)
Class AceIterator (step : option loc -> option OicSecAce_t * option loc)
    (sel : list OicSecAce_t) : Prop := {
  iterator_visits : visits step None sel;
}.

Lemma seek_skip l1 l2 p acc : p ∉ l1.*1 -> seek (l1 ++ l2) p acc = seek l2 p acc.
Proof.
  revert acc. induction l1 as [|[a x] l1 IH]; intros acc Hp; [done|]. simpl in Hp |- *.
  rewrite decide_False by set_solver. apply IH. set_solver.
Qed.

Lemma seek_missing l p acc : p ∉ l.*1 -> seek l p acc = acc.
Proof. intros Hp. rewrite <- (app_nil_r l), seek_skip; done. Qed.

Lemma seek_found l1 p x l2 acc :
  NoDup (l1 ++ (p, x) :: l2).*1 -> seek (l1 ++ (p, x) :: l2) p acc = l2.
Proof.
  rewrite fmap_app. simpl. intros (_ & Hd & [Hp _]%NoDup_cons)%NoDup_app.
  rewrite seek_skip by (intros H; apply (Hd _ H); by left).
  simpl. rewrite decide_True by done. by apply seek_missing.
Qed.

Lemma first_match_spec f l :
  match first_match f l with
  | None => Forall (fun e => f e.2 = false) l
  | Some (a, x) => exists l1 l2, l = l1 ++ (a, x) :: l2 /\ f x = true /\
      Forall (fun e => f e.2 = false) l1
  end.
Proof.
  induction l as [|[a x] l IH]; simpl; [constructor|].
  destruct (f x) eqn:E; [by exists [], l|].
  destruct (first_match f l) as [[b y]|].
  - destruct IH as (l1 & l2 & -> & Hy & Hl). exists ((a, x) :: l1), l2. by repeat constructor.
  - by constructor.
Qed.

Lemma filter_aces_none (f : OicSecAce_t -> bool) (l : list (loc * OicSecAce_t)) : Forall (fun e => f e.2 = false) l -> filter (fun a => f a = true) l.*2 = [].
Proof.
  induction 1 as [|[a x] l Hx _ IH]; [done|]. simpl in *.
  rewrite filter_cons_False by congruence. done.
Qed.

(** Resuming after the part [l1] of the list visits the matches of the rest. *)
Lemma lookup_visits f (l1 l2 : list (loc * OicSecAce_t)) sp :
  NoDup (l1 ++ l2).*1 -> begin_from (l1 ++ l2) sp = l2 ->
  visits (lookup_from f (l1 ++ l2)) sp (filter (fun a => f a = true) l2.*2).
Proof.
  remember (length l2) as n eqn:Hn. revert l1 l2 sp Hn.
  induction (lt_wf n) as [n _ IH]. intros l1 l2 sp -> Hnd Hb.
  pose proof (first_match_spec f l2) as Hs.
  destruct (first_match f l2) as [[a x]|] eqn:E.
  - destruct Hs as (m1 & m2 & -> & Hx & Hm1). rewrite fmap_app, filter_app.
    rewrite filter_aces_none by done. simpl. rewrite filter_cons_True by done.
    apply (visits_step _ _ _ a); [unfold lookup_from; by rewrite Hb, E|].
    replace (l1 ++ m1 ++ (a, x) :: m2) with ((l1 ++ m1 ++ [(a, x)]) ++ m2) in *
      by (by rewrite <- !app_assoc).
    eapply (IH (length m2)); [rewrite length_app; simpl; lia|done|done|].
    simpl. rewrite <- !app_assoc in Hnd |- *. rewrite app_assoc in Hnd |- *.
    by apply seek_found.
  - rewrite filter_aces_none by done. constructor. unfold lookup_from. by rewrite Hb, E.
Qed.

Lemma lookup_iterator f (l : list (loc * OicSecAce_t)) : NoDup l.*1 ->
  AceIterator (lookup_from f l) (filter (fun a => f a = true) l.*2).
Proof. intros Hnd. constructor. by apply (lookup_visits f [] l None). Qed.

(** The three lookups as steps on [*savePtr]. *)
Definition by_subject (gAcl : option OicSecAcl_t) (u : OicUuid_t) (sp : option loc)
    : option OicSecAce_t * option loc :=
  let '(r, sp) := GetACLResourceData gAcl (Some u) (Some sp) in (r, default None sp).
Definition by_roles (gAcl : option OicSecAcl_t) (roles : option (list OicSecRole_t))
    (sp : option loc) : option OicSecAce_t * option loc :=
  let '(r, sp) := GetACLResourceDataByRoles gAcl roles (Some sp) in (r, default None sp).
Definition by_conntype (gAcl : option OicSecAcl_t) (c : OicSecConntype_t) (sp : option loc)
    : option OicSecAce_t * option loc :=
  let '(r, sp) := GetACLResourceDataByConntype gAcl c (Some sp) in (r, default None sp).

Lemma visits_ext s1 s2 sp l : (forall p, s1 p = s2 p) -> visits s1 sp l -> visits s2 sp l.
Proof.
  intros He. induction 1 as [sp H|sp ace a l H _ IH].
  - constructor. by rewrite <- He.
  - econstructor; [by rewrite <- He|done].
Qed.

#[export] Instance by_subject_iterator gAcl u : acl_ok gAcl ->
  AceIterator (by_subject gAcl u)
    (filter (fun a => subject_matches u a = true) (all_aces gAcl)).
Proof.
  intros Hok. destruct gAcl as [acl|]; [|by repeat constructor].
  constructor. eapply visits_ext; [|apply lookup_iterator, Hok].
  intros p. unfold by_subject, GetACLResourceData. by destruct (lookup_from _ _ _).
Qed.

#[export] Instance by_conntype_iterator gAcl c : acl_ok gAcl ->
  AceIterator (by_conntype gAcl c)
    (filter (fun a => conntype_matches c a = true) (all_aces gAcl)).
Proof.
  intros Hok. destruct gAcl as [acl|]; [|by repeat constructor].
  constructor. eapply visits_ext; [|apply lookup_iterator, Hok].
  intros p. unfold by_conntype, GetACLResourceDataByConntype. by destruct (lookup_from _ _ _).
Qed.

Lemma role_matches_nil a : role_matches [] a = false.
Proof. unfold role_matches. by destruct (subject a). Qed.

#[export] Instance by_roles_iterator gAcl roles : acl_ok gAcl ->
  AceIterator (by_roles gAcl roles)
    (filter (fun a => role_matches (default [] roles) a = true) (all_aces gAcl)).
Proof.
  intros Hok. assert (Hnil : forall l : list OicSecAce_t,
    filter (fun a => role_matches [] a = true) l = []).
  { induction l as [|a l IH]; [done|]. rewrite filter_cons_False by (by rewrite role_matches_nil).
    done. }
  destruct gAcl as [acl|]; [|constructor; by constructor].
  destruct roles as [[|r rs]|]; simpl default; rewrite ?Hnil; [constructor; by constructor| |
    constructor; by constructor].
  constructor. eapply visits_ext; [|apply lookup_iterator, Hok].
  intros p. unfold by_roles, GetACLResourceDataByRoles. by destruct (lookup_from _ _ _).
Qed.

(** starting with a NULL save pointer, calling [GetACLResourceData] until
    it returns NULL enumerates the entries whose subject is the UUID, in list
    order and each once, and leaves the save pointer NULL; the same holds of
    the lookups by role and by connection type. *)
Theorem acl_iteration_complete (gAcl : option OicSecAcl_t) (u : OicUuid_t)
    (roles : option (list OicSecRole_t)) (c : OicSecConntype_t) :
  acl_ok gAcl ->
  visits (by_subject gAcl u) None (filter (fun a => subject_matches u a = true) (all_aces gAcl)) /\
  visits (by_roles gAcl roles) None
    (filter (fun a => role_matches (default [] roles) a = true) (all_aces gAcl)) /\
  visits (by_conntype gAcl c) None
    (filter (fun a => conntype_matches c a = true) (all_aces gAcl)).
Proof.
  intros Hok. split_and!.
  - by apply by_subject_iterator.
  - by apply by_roles_iterator.
  - by apply by_conntype_iterator.
Qed.

(** ** Concrete instances *)

Definition ace_of (s : OicSecAceSubject) (perm : Z) : OicSecAce_t := {|
  subject := s; resources := [{| href := Some (chars "/a/light"); wildcard := NO_WILDCARD |}];
  permission := perm; validities := []; aceid := perm |}.

Definition uuid_one : OicUuid_t := 1 :: replicate 15 0.

Definition sample_acl : OicSecAcl_t := {|
  acl_rownerID := THE_NIL_UUID;
  aces := [(1%N, ace_of (OicSecAceUuidSubject uuid_one) 2);
           (2%N, ace_of (OicSecAceConntypeSubject ANON_CLEAR) 6);
           (3%N, ace_of (OicSecAceUuidSubject uuid_one) 31)] |}.

Lemma acl_iteration_complete_witness :
  visits (by_subject (Some sample_acl) uuid_one) None
    [ace_of (OicSecAceUuidSubject uuid_one) 2; ace_of (OicSecAceUuidSubject uuid_one) 31] /\
  visits (by_roles (Some sample_acl) None) None [] /\
  visits (by_conntype (Some sample_acl) ANON_CLEAR) None
    [ace_of (OicSecAceConntypeSubject ANON_CLEAR) 6].
Proof.
  apply (acl_iteration_complete (Some sample_acl) uuid_one None ANON_CLEAR).
  unfold acl_ok. simpl. repeat constructor; set_solver.
Defined.
