(* ===== verification/Svr.v ===== *)
(** * Svr: the secure virtual resources doxm, pstat, acl2 and cred

    Models the state that the security resource manager keeps in static
    variables and the accessors through which the other modules use it:
    [doxmresource.c], [pstatresource.c], [aclresource.c] and [credresource.c]
    under [resource/csdk/security/src].  The record [svr] holds the globals,
    the copies last written to persistent storage, and a counter of calls to
    the outside.  The CBOR encoders, the application's persistent storage, the
    TLS adapter and the response transport are the class [SvrEnv]: the outcome
    of the n-th call. *)
From S2P Require Import Prelude Chain Acl.

(** ** Data *)

Inductive OicSecDeviceOnboardingState_t :=
| DOS_RESET | DOS_RFOTM | DOS_RFPRO | DOS_RFNOP | DOS_SRESET | DOS_STATE_COUNT.
#[export] Instance OicSecDeviceOnboardingState_eq_dec : EqDecision OicSecDeviceOnboardingState_t.
Proof. solve_decision. Defined.

Record OicSecDostype_t := { state : OicSecDeviceOnboardingState_t; pending : bool }.

(** [OicSecDpm_t] bits. *)
Definition RESET : Z := 1.
Definition TAKE_OWNER : Z := 2.
Definition VERIFY_SOFTWARE_VERSION : Z := 64.
Definition UPDATE_SOFTWARE : Z := 128.

(** [~x] on [unsigned int]. *)
Definition compl32 (x : Z) : Z := 2 ^ 32 - 1 - x.

Record OicSecPstat_t := {
  dos : OicSecDostype_t;
  isOp : bool;
  cm : Z;
  tmode : Z;  (* tm *)
  om : Z;
  sm : list Z;
  pstat_rownerID : OicUuid_t;
}.

Definition OIC_JUST_WORKS : Z := 0.

(** [OicSecMom_t]: the mode of the multiple owner status. *)
Definition OIC_MULTIPLE_OWNER_DISABLE : Z := 0.
Definition OIC_MULTIPLE_OWNER_ENABLE : Z := 1.

(** The [mom] pointer: NULL, a live object with its mode, or freed. *)
Inductive mom_ptr := MomNull | Mom (mode : Z) | MomFreed.
#[export] Instance mom_ptr_eq_dec : EqDecision mom_ptr.
Proof. solve_decision. Defined.

Record OicSecSubOwner_t := { so_uuid : OicUuid_t; so_status : Z }.
#[export] Instance OicSecSubOwner_eq_dec : EqDecision OicSecSubOwner_t.
Proof. solve_decision. Defined.

Record OicSecDoxm_t := {
  oxm : list Z;
  oxmSel : Z;
  sct : Z;
  owned : bool;
  deviceID : OicUuid_t;
  dpc : bool;
  owner : OicUuid_t;
  subOwners : list OicSecSubOwner_t;
  mom : mom_ptr;
  rownerID : OicUuid_t;
}.
#[export] Instance OicSecDoxm_eq_dec : EqDecision OicSecDoxm_t.
Proof. solve_decision. Defined.

Record svr := {
  gDoxm : option OicSecDoxm_t;
  gPstat : option OicSecPstat_t;
  gAcl : option OicSecAcl_t;
  gCred : bool;                      (* whether [gCred] is not NULL *)
  gRownerId : OicUuid_t;             (* cred's resource owner *)
  otm_handshake : bool;              (* the OTM handshake callback is registered *)
  anon_enabled : bool;               (* the anonymous cipher suite is enabled *)
  stored_doxm : option OicSecDoxm_t;
  stored_pstat : option OicSecPstat_t;
  stored_acl : option OicSecAcl_t;
  stored_cred_rowner : option OicUuid_t;
  tick : nat;
}.

(** ** The outside *)

Inductive svr_type := SVR_DOXM | SVR_PSTAT | SVR_ACL | SVR_CRED.

Class SvrEnv := {
  to_cbor : svr_type -> nat -> OCStackResult;       (* DoxmToCBORPayload, ... *)
  update_ps : svr_type -> nat -> OCStackResult;     (* UpdateSecureResourceInPS *)
  enable_anon_ecdh : nat -> CAResult_t;             (* CAEnableAnonECDHCipherSuite(true) *)
  send_srm_response : nat -> OCStackResult;         (* SendSRMResponse *)
}.

(** ** State monad *)

Definition M (A : Type) : Type := svr -> A * svr.
#[export] Instance M_ret : MRet M := fun A a s => (a, s).
#[export] Instance M_bind : MBind M := fun A B f m s => let '(a, s') := m s in f a s'.

Definition gets {A} (f : svr -> A) : M A := fun s => (f s, s).
Definition modify (f : svr -> svr) : M unit := fun s => (tt, f s).

(** [VERIFY_SUCCESS(TAG, OC_STACK_OK == op, ...)] in a function that returns
    [false] at [exit]. *)
Definition verify (op : M OCStackResult) (k : M bool) : M bool :=
  r ← op; if decide (r = OC_STACK_OK) then k else mret false.

Definition with_doxm (d : OicSecDoxm_t) (s : svr) : svr := {|
  gDoxm := Some d; gPstat := gPstat s; gAcl := gAcl s; gCred := gCred s;
  gRownerId := gRownerId s; otm_handshake := otm_handshake s; anon_enabled := anon_enabled s;
  stored_doxm := stored_doxm s; stored_pstat := stored_pstat s; stored_acl := stored_acl s;
  stored_cred_rowner := stored_cred_rowner s; tick := tick s |}.
Definition with_pstat (p : OicSecPstat_t) (s : svr) : svr := {|
  gDoxm := gDoxm s; gPstat := Some p; gAcl := gAcl s; gCred := gCred s;
  gRownerId := gRownerId s; otm_handshake := otm_handshake s; anon_enabled := anon_enabled s;
  stored_doxm := stored_doxm s; stored_pstat := stored_pstat s; stored_acl := stored_acl s;
  stored_cred_rowner := stored_cred_rowner s; tick := tick s |}.
Definition with_acl (a : OicSecAcl_t) (s : svr) : svr := {|
  gDoxm := gDoxm s; gPstat := gPstat s; gAcl := Some a; gCred := gCred s;
  gRownerId := gRownerId s; otm_handshake := otm_handshake s; anon_enabled := anon_enabled s;
  stored_doxm := stored_doxm s; stored_pstat := stored_pstat s; stored_acl := stored_acl s;
  stored_cred_rowner := stored_cred_rowner s; tick := tick s |}.
Definition with_cred_rowner (u : OicUuid_t) (s : svr) : svr := {|
  gDoxm := gDoxm s; gPstat := gPstat s; gAcl := gAcl s; gCred := gCred s;
  gRownerId := u; otm_handshake := otm_handshake s; anon_enabled := anon_enabled s;
  stored_doxm := stored_doxm s; stored_pstat := stored_pstat s; stored_acl := stored_acl s;
  stored_cred_rowner := stored_cred_rowner s; tick := tick s |}.
Definition with_tls (h e : bool) (s : svr) : svr := {|
  gDoxm := gDoxm s; gPstat := gPstat s; gAcl := gAcl s; gCred := gCred s;
  gRownerId := gRownerId s; otm_handshake := h; anon_enabled := e;
  stored_doxm := stored_doxm s; stored_pstat := stored_pstat s; stored_acl := stored_acl s;
  stored_cred_rowner := stored_cred_rowner s; tick := tick s |}.
Definition next_tick (s : svr) : svr := {|
  gDoxm := gDoxm s; gPstat := gPstat s; gAcl := gAcl s; gCred := gCred s;
  gRownerId := gRownerId s; otm_handshake := otm_handshake s; anon_enabled := anon_enabled s;
  stored_doxm := stored_doxm s; stored_pstat := stored_pstat s; stored_acl := stored_acl s;
  stored_cred_rowner := stored_cred_rowner s; tick := S (tick s) |}.

(** What a successful write leaves in storage: the current resource. *)
Definition store (r : svr_type) (s : svr) : svr := {|
  gDoxm := gDoxm s; gPstat := gPstat s; gAcl := gAcl s; gCred := gCred s;
  gRownerId := gRownerId s; otm_handshake := otm_handshake s; anon_enabled := anon_enabled s;
  stored_doxm := match r with SVR_DOXM => gDoxm s | _ => stored_doxm s end;
  stored_pstat := match r with SVR_PSTAT => gPstat s | _ => stored_pstat s end;
  stored_acl := match r with SVR_ACL => gAcl s | _ => stored_acl s end;
  stored_cred_rowner := match r with
                        | SVR_CRED => if gCred s then Some (gRownerId s) else None
                        | _ => stored_cred_rowner s
                        end;
  tick := tick s |}.

(** Field updates of [gPstat] and [gDoxm]. *)
Definition set_dos (d : OicSecDostype_t) (p : OicSecPstat_t) : OicSecPstat_t := {|
  dos := d; isOp := isOp p; cm := cm p; tmode := tmode p; om := om p; sm := sm p;
  pstat_rownerID := pstat_rownerID p |}.
Definition set_isOp (b : bool) (p : OicSecPstat_t) : OicSecPstat_t := {|
  dos := dos p; isOp := b; cm := cm p; tmode := tmode p; om := om p; sm := sm p;
  pstat_rownerID := pstat_rownerID p |}.
Definition set_cm (c : Z) (p : OicSecPstat_t) : OicSecPstat_t := {|
  dos := dos p; isOp := isOp p; cm := c; tmode := tmode p; om := om p; sm := sm p;
  pstat_rownerID := pstat_rownerID p |}.
Definition set_tm (t : Z) (p : OicSecPstat_t) : OicSecPstat_t := {|
  dos := dos p; isOp := isOp p; cm := cm p; tmode := t; om := om p; sm := sm p;
  pstat_rownerID := pstat_rownerID p |}.
Definition set_om (o : Z) (p : OicSecPstat_t) : OicSecPstat_t := {|
  dos := dos p; isOp := isOp p; cm := cm p; tmode := tmode p; om := o; sm := sm p;
  pstat_rownerID := pstat_rownerID p |}.
Definition set_pstat_rowner (u : OicUuid_t) (p : OicSecPstat_t) : OicSecPstat_t := {|
  dos := dos p; isOp := isOp p; cm := cm p; tmode := tmode p; om := om p; sm := sm p;
  pstat_rownerID := u |}.

Definition set_owned (b : bool) (d : OicSecDoxm_t) : OicSecDoxm_t := {|
  oxm := oxm d; oxmSel := oxmSel d; sct := sct d; owned := b; deviceID := deviceID d;
  dpc := dpc d; owner := owner d; subOwners := subOwners d; mom := mom d;
  rownerID := rownerID d |}.
Definition set_owner (u : OicUuid_t) (d : OicSecDoxm_t) : OicSecDoxm_t := {|
  oxm := oxm d; oxmSel := oxmSel d; sct := sct d; owned := owned d; deviceID := deviceID d;
  dpc := dpc d; owner := u; subOwners := subOwners d; mom := mom d;
  rownerID := rownerID d |}.
Definition set_doxm_rowner (u : OicUuid_t) (d : OicSecDoxm_t) : OicSecDoxm_t := {|
  oxm := oxm d; oxmSel := oxmSel d; sct := sct d; owned := owned d; deviceID := deviceID d;
  dpc := dpc d; owner := owner d; subOwners := subOwners d; mom := mom d;
  rownerID := u |}.
Definition set_deviceID (u : OicUuid_t) (d : OicSecDoxm_t) : OicSecDoxm_t := {|
  oxm := oxm d; oxmSel := oxmSel d; sct := sct d; owned := owned d; deviceID := u;
  dpc := dpc d; owner := owner d; subOwners := subOwners d; mom := mom d;
  rownerID := rownerID d |}.
Definition set_mom (m : mom_ptr) (d : OicSecDoxm_t) : OicSecDoxm_t := {|
  oxm := oxm d; oxmSel := oxmSel d; sct := sct d; owned := owned d; deviceID := deviceID d;
  dpc := dpc d; owner := owner d; subOwners := subOwners d; mom := m;
  rownerID := rownerID d |}.

Definition acl_set_rowner (u : OicUuid_t) (a : OicSecAcl_t) : OicSecAcl_t :=
  {| acl_rownerID := u; aces := aces a |}.

Section Svr.
Context `{SvrEnv}.

(** [*ToCBORPayload] followed by [UpdateSecureResourceInPS]: the first error,
    or success with the resource stored. *)
Definition write_ps (r : svr_type) : M OCStackResult :=
  n ← gets tick;
  modify next_tick;;
  if decide (to_cbor r n <> OC_STACK_OK) then mret (to_cbor r n)
  else if decide (update_ps r n <> OC_STACK_OK) then mret (update_ps r n)
  else modify (store r);; mret OC_STACK_OK.

Definition Pstat_UpdatePersistentStorage : M bool :=
  r ← write_ps SVR_PSTAT; mret (bool_decide (r = OC_STACK_OK)).

(** A NULL [doxm] clears the stored resource without encoding anything. *)
Definition update_only (r : svr_type) : M bool :=
  n ← gets tick;
  modify next_tick;;
  if decide (update_ps r n <> OC_STACK_OK) then mret false
  else modify (store r);; mret true.

Definition Doxm_UpdatePersistentStorage : M bool :=
  d ← gets gDoxm;
  match d with
  | Some _ => r ← write_ps SVR_DOXM; mret (bool_decide (r = OC_STACK_OK))
  | None => update_only SVR_DOXM
  end.

Definition Cred_UpdatePersistentStorage : M bool :=
  c ← gets gCred;
  if (c : bool) then r ← write_ps SVR_CRED; mret (bool_decide (r = OC_STACK_OK))
  else update_only SVR_CRED.

(** ** pstat accessors

    A getter's out-parameter is the current value of the destination, [None]
    for a NULL pointer; it returns the new value. *)

Definition get_out {A B} (g : option A) (f : A -> B) (out : option B) : OCStackResult * option B :=
  match g, out with
  | Some a, Some _ => (OC_STACK_OK, Some (f a))
  | _, _ => (OC_STACK_ERROR, out)
  end.

Definition set_pstat (f : OicSecPstat_t -> OicSecPstat_t) : M OCStackResult :=
  p ← gets gPstat;
  match p with
  | Some p => modify (with_pstat (f p));; mret OC_STACK_OK
  | None => mret OC_STACK_ERROR
  end.

Definition GetPstatRownerId (s : svr) (out : option OicUuid_t) :=
  get_out (gPstat s) pstat_rownerID out.
Definition GetPstatDosS (s : svr) (out : option OicSecDeviceOnboardingState_t) :=
  get_out (gPstat s) (fun p => state (dos p)) out.
Definition GetPstatDosP (s : svr) (out : option bool) :=
  get_out (gPstat s) (fun p => pending (dos p)) out.
Definition GetPstatIsop (s : svr) (out : option bool) := get_out (gPstat s) isOp out.
Definition GetPstatCm (s : svr) (out : option Z) := get_out (gPstat s) cm out.
Definition GetPstatTm (s : svr) (out : option Z) := get_out (gPstat s) tmode out.

Definition IsPstatRowneruuidTheNilUuid (s : svr) : bool :=
  match gPstat s with Some p => IsNilUuid (Some (pstat_rownerID p)) | None => true end.

Definition SetPstatDosS (d : OicSecDeviceOnboardingState_t) : M OCStackResult :=
  set_pstat (fun p => set_dos {| state := d; pending := pending (dos p) |} p).
Definition SetPstatDosP (b : bool) : M OCStackResult :=
  set_pstat (fun p => set_dos {| state := state (dos p); pending := b |} p).
Definition SetPstatIsop (b : bool) : M OCStackResult := set_pstat (set_isOp b).
Definition SetPstatCm (c : Z) : M OCStackResult := set_pstat (set_cm c).
Definition SetPstatTm (t : Z) : M OCStackResult := set_pstat (set_tm t).

(** Writes the owner through and puts the old one back if that fails. *)
Definition SetPstatRownerId (rowneruuid : option OicUuid_t) : M OCStackResult :=
  match rowneruuid with
  | None => mret OC_STACK_INVALID_PARAM
  | Some u =>
      p ← gets gPstat;
      match p with
      | None => mret OC_STACK_NO_RESOURCE
      | Some p =>
          modify (with_pstat (set_pstat_rowner u p));;
          ok ← Pstat_UpdatePersistentStorage;
          if (ok : bool) then mret OC_STACK_OK
          else modify (with_pstat p);; mret OC_STACK_ERROR
      end
  end.

Definition SetPstatSelfOwnership (newROwner : option OicUuid_t) : M OCStackResult :=
  p ← gets gPstat;
  match p, newROwner with
  | None, _ => mret OC_STACK_NO_RESOURCE
  | Some p, Some u =>
      if negb (isOp p) && negb (TAKE_OWNER &&& cm p =? 0) then
        modify (with_pstat (set_pstat_rowner u
          (set_isOp true (set_cm (cm p &&& compl32 TAKE_OWNER) p))));;
        write_ps SVR_PSTAT
      else mret OC_STACK_ERROR
  | Some _, None => mret OC_STACK_ERROR
  end.

(** ** doxm accessors *)

Definition set_doxm (f : OicSecDoxm_t -> OicSecDoxm_t) : M OCStackResult :=
  d ← gets gDoxm;
  match d with
  | Some d => modify (with_doxm (f d));; mret OC_STACK_OK
  | None => mret OC_STACK_ERROR
  end.

Definition GetDoxmDeviceID (s : svr) (out : option OicUuid_t) := get_out (gDoxm s) deviceID out.
Definition GetDoxmDevOwnerId (s : svr) (out : option OicUuid_t) := get_out (gDoxm s) owner out.
Definition GetDoxmIsOwned (s : svr) (out : option bool) := get_out (gDoxm s) owned out.
Definition GetDoxmRownerId (s : svr) (out : option OicUuid_t) := get_out (gDoxm s) rownerID out.

Definition IsDoxmOwned (s : svr) : bool :=
  match gDoxm s with Some d => owned d | None => false end.
Definition IsDoxmDevowneruuidTheNilUuid (s : svr) : bool :=
  match gDoxm s with Some d => IsNilUuid (Some (owner d)) | None => true end.
Definition IsDoxmDeviceuuidTheNilUuid (s : svr) : bool :=
  match gDoxm s with Some d => IsNilUuid (Some (deviceID d)) | None => true end.
Definition IsDoxmRowneruuidTheNilUuid (s : svr) : bool :=
  match gDoxm s with Some d => IsNilUuid (Some (rownerID d)) | None => false end.

Definition SetDoxmIsOwned (b : bool) : M OCStackResult := set_doxm (set_owned b).
Definition SetDoxmDevOwnerId (devowneruuid : option OicUuid_t) : M OCStackResult :=
  match devowneruuid with
  | Some u => set_doxm (set_owner u)
  | None => mret OC_STACK_ERROR
  end.
Definition SetDoxmRownerId (rowneruuid : option OicUuid_t) : M OCStackResult :=
  match rowneruuid with
  | Some u => set_doxm (set_doxm_rowner u)
  | None => mret OC_STACK_ERROR
  end.

(** With [__WITH_DTLS__]: refused on a device owned by another. *)
Definition SetDoxmDeviceID (deviceuuid : option OicUuid_t) : M OCStackResult :=
  match deviceuuid with
  | None => mret OC_STACK_INVALID_PARAM
  | Some u =>
      d ← gets gDoxm;
      match d with
      | None => mret OC_STACK_NO_RESOURCE
      | Some d =>
          if owned d && negb (UuidCmp (Some (deviceID d)) (Some (owner d))) then
            mret OC_STACK_ERROR
          else
            modify (with_doxm (set_deviceID u d));;
            ok ← Doxm_UpdatePersistentStorage;
            mret (if (ok : bool) then OC_STACK_OK else OC_STACK_ERROR)
      end
  end.

Definition SetDoxmSelfOwnership (newROwner : option OicUuid_t) : M OCStackResult :=
  d ← gets gDoxm;
  match d, newROwner with
  | None, _ => mret OC_STACK_NO_RESOURCE
  | Some d, Some u =>
      if negb (owned d) then
        modify (with_doxm (set_doxm_rowner u (set_owner u (set_owned true d))));;
        write_ps SVR_DOXM
      else mret OC_STACK_ERROR
  | Some _, None => mret OC_STACK_ERROR
  end.

(** [LL_FOREACH] over the sub-owners. *)
Definition IsSubOwner (s : svr) (uuid : option OicUuid_t) : bool :=
  match uuid, gDoxm s with
  | Some u, Some d =>
      match subOwners d with
      | [] => false
      | sos =>
          if bool_decide (owner d = u) then false
          else existsb (fun so => bool_decide (so_uuid so = u)) sos
      end
  | _, _ => false
  end.

(** [ok]: whether [OICCalloc] grants the object.  Writing through a freed
    [mom] is undefined. *)
Definition SetMOTStatus (ok enable : bool) (s : svr) : ub (OCStackResult * svr) :=
  match gDoxm s with
  | None => Some (OC_STACK_NO_MEMORY, s)
  | Some d =>
      let mode := if enable then OIC_MULTIPLE_OWNER_ENABLE else OIC_MULTIPLE_OWNER_DISABLE in
      match mom d with
      | MomFreed => None
      | MomNull =>
          if negb enable then Some (OC_STACK_OK, s)
          else if negb ok then Some (OC_STACK_NO_MEMORY, s)
          else
            let '(r, s') := write_ps SVR_DOXM (with_doxm (set_mom (Mom mode) d) s) in
            if decide (r = OC_STACK_OK) then Some (r, s')
            else Some (r, with_doxm (set_mom MomFreed d) s')
      | Mom _ =>
          Some (write_ps SVR_DOXM (with_doxm (set_mom (Mom mode) d) s))
      end
  end.

(** [EnableAnonCipherSuiteIfUnOwnedAndJustWorksSelected]; the out-parameter is
    only set when the suite is enabled, as every caller clears it first. *)
Definition EnableAnonCipherSuiteIfUnOwnedAndJustWorksSelected (enabled : option bool)
    : M (OCStackResult * option bool) :=
  d ← gets gDoxm;
  match d with
  | None => mret (OC_STACK_OK, enabled)
  | Some d =>
      if owned d then mret (OC_STACK_OK, enabled)
      else if oxmSel d =? OIC_JUST_WORKS then
        n ← gets tick;
        modify next_tick;;
        if decide (enable_anon_ecdh n = CA_STATUS_OK) then
          modify (with_tls true true);; mret (OC_STACK_OK, (fun _ => true) <$> enabled)
        else
          e ← gets anon_enabled;
          modify (with_tls true e);; mret (OC_STACK_ERROR, enabled)
      else mret (OC_STACK_OK, enabled)
  end.

(** ** acl2 and cred resource owners *)

Definition SetAclRownerId (newROwner : option OicUuid_t) : M OCStackResult :=
  a ← gets gAcl;
  match a, newROwner with
  | None, _ => mret OC_STACK_NO_RESOURCE
  | Some _, None => mret OC_STACK_INVALID_PARAM
  | Some a, Some u =>
      modify (with_acl (acl_set_rowner u a));;
      r ← write_ps SVR_ACL;
      if decide (r = OC_STACK_OK) then mret OC_STACK_OK
      else modify (with_acl a);; mret r
  end.

Definition GetAclRownerId (s : svr) (out : option OicUuid_t) := get_out (gAcl s) acl_rownerID out.
Definition IsAclRowneruuidTheNilUuid (s : svr) : bool :=
  match gAcl s with Some a => IsNilUuid (Some (acl_rownerID a)) | None => true end.

Definition SetCredRownerId (newROwner : option OicUuid_t) : M OCStackResult :=
  match newROwner with
  | None => mret OC_STACK_INVALID_PARAM
  | Some u =>
      cur ← gets gRownerId;
      if UuidCmp (Some cur) (Some u) then mret OC_STACK_OK
      else
        modify (with_cred_rowner u);;
        ok ← Cred_UpdatePersistentStorage;
        mret (if (ok : bool) then OC_STACK_OK else OC_STACK_ERROR)
  end.

Definition GetCredRownerId (s : svr) (out : option OicUuid_t) : OCStackResult * option OicUuid_t :=
  match out with
  | Some _ => (OC_STACK_OK, Some (gRownerId s))
  | None => (OC_STACK_ERROR, None)
  end.
Definition IsCredRowneruuidTheNilUuid (s : svr) : bool := IsNilUuid (Some (gRownerId s)).

(** ** Comparing doxm resources *)

(** The [for (;;)] over the two sub-owner lists. *)
Fixpoint subowners_equal (l1 l2 : list OicSecSubOwner_t) : bool :=
  match l1, l2 with
  | [], [] => true
  | a :: l1', b :: l2' =>
      if negb (bool_decide (so_uuid a = so_uuid b)) then false
      else if negb (so_status a =? so_status b) then false
      else subowners_equal l1' l2'
  | _, _ => false
  end.

(** Reading the mode through a freed [mom] is undefined. *)
Definition AreDoxmBinMOTPropertyValuesEqual (doxm1 doxm2 : OicSecDoxm_t) : ub bool :=
  if negb (subowners_equal (subOwners doxm1) (subOwners doxm2)) then Some false
  else
    match mom doxm1, mom doxm2 with
    | MomNull, MomNull => Some true
    | MomNull, _ => Some false
    | _, MomNull => Some false
    | Mom m1, Mom m2 => Some (m1 =? m2)
    | _, _ => None
    end.

(** The [for] loop over the [oxm] arrays, of the same length. *)
Fixpoint oxm_equal (l1 l2 : list Z) : bool :=
  match l1, l2 with
  | a :: l1', b :: l2' => if negb (a =? b) then false else oxm_equal l1' l2'
  | _, _ => true
  end.

Definition AreDoxmBinPropertyValuesEqual (doxm1 doxm2 : option OicSecDoxm_t) : ub bool :=
  match doxm1, doxm2 with
  | Some d1, Some d2 =>
      if negb (length (oxm d1) =? length (oxm d2))%nat then Some false
      else if negb (oxm_equal (oxm d1) (oxm d2)) then Some false
      else if negb (oxmSel d1 =? oxmSel d2) then Some false
      else if negb (sct d1 =? sct d2) then Some false
      else if negb (Bool.eqb (owned d1) (owned d2)) then Some false
      else if negb (bool_decide (deviceID d1 = deviceID d2)) then Some false
      else if negb (Bool.eqb (dpc d1) (dpc d2)) then Some false
      else if negb (bool_decide (owner d1 = owner d2)) then Some false
      else if negb (bool_decide (rownerID d1 = rownerID d2)) then Some false
      else AreDoxmBinMOTPropertyValuesEqual d1 d2
  | _, _ => Some false
  end.

(** ** Write-through setters *)

(** What [write_ps] can do: an error leaves everything but the call counter
    alone, success stores the current resource. *)
Lemma write_ps_spec r s :
  (exists e, write_ps r s = (e, next_tick s) /\ e <> OC_STACK_OK) \/
  write_ps r s = (OC_STACK_OK, store r (next_tick s)).
Proof.
  unfold write_ps, gets, modify, mbind, mret, M_bind, M_ret. simpl.
  case_decide as H1; [left; eauto|]. case_decide as H2; [left; eauto|]. by right.
Qed.

(** Storage agrees with memory on the resources that are written through. *)
Definition pstat_synced (s : svr) : Prop :=
  match gPstat s, stored_pstat s with
  | Some p, Some q => pstat_rownerID p = pstat_rownerID q
  | _, _ => True
  end.
Definition acl_synced (s : svr) : Prop :=
  match gAcl s, stored_acl s with
  | Some p, Some q => acl_rownerID p = acl_rownerID q
  | _, _ => True
  end.

(** setting the resource owner of pstat or acl2 is atomic with respect to
    persistent storage: on success memory and storage hold the new owner, and
    on any encoder or storage error both keep the old one. *)
Theorem rowner_write_through (u : OicUuid_t) (s : svr) (p : OicSecPstat_t) (a : OicSecAcl_t) :
  gPstat s = Some p -> gAcl s = Some a ->
  (forall r s', SetPstatRownerId (Some u) s = (r, s') ->
     (r = OC_STACK_OK /\ gPstat s' = Some (set_pstat_rowner u p) /\ stored_pstat s' = gPstat s') \/
     (r = OC_STACK_ERROR /\ gPstat s' = Some p /\ stored_pstat s' = stored_pstat s)) /\
  (forall r s', SetAclRownerId (Some u) s = (r, s') ->
     (r = OC_STACK_OK /\ gAcl s' = Some (acl_set_rowner u a) /\ stored_acl s' = gAcl s') \/
     (r <> OC_STACK_OK /\ gAcl s' = Some a /\ stored_acl s' = stored_acl s)).
Proof.
  intros Hp Ha. split; intros r s'.
  - unfold SetPstatRownerId, Pstat_UpdatePersistentStorage, gets, modify, mbind, mret, M_bind, M_ret.
    rewrite Hp.
    destruct (write_ps_spec SVR_PSTAT (with_pstat (set_pstat_rowner u p) s)) as [(e & -> & He)| ->].
    + rewrite bool_decide_eq_false_2 by done. intros [= <- <-]. right. by simpl.
    + rewrite bool_decide_eq_true_2 by done. intros [= <- <-]. left. by simpl.
  - unfold SetAclRownerId, gets, modify, mbind, mret, M_bind, M_ret. rewrite Ha.
    destruct (write_ps_spec SVR_ACL (with_acl (acl_set_rowner u a) s)) as [(e & -> & He)| ->].
    + rewrite decide_False by done. intros [= <- <-]. right. by simpl.
    + rewrite decide_True by done. intros [= <- <-]. left. by simpl.
Qed.

(** [SetCredRownerId] reports the failure of the write but, unlike what its
    log line says, does not put the old owner back: memory then disagrees with
    storage, and retrying the call answers success without writing. *)
Theorem SetCredRownerId_no_revert (u : OicUuid_t) (s : svr) :
  gCred s = true -> u <> gRownerId s -> to_cbor SVR_CRED (tick s) <> OC_STACK_OK ->
  exists s', SetCredRownerId (Some u) s = (OC_STACK_ERROR, s') /\
    gRownerId s' = u /\ stored_cred_rowner s' = stored_cred_rowner s /\
    SetCredRownerId (Some u) s' = (OC_STACK_OK, s').
Proof.
  intros Hc Hne Hcbor.
  unfold SetCredRownerId, Cred_UpdatePersistentStorage, write_ps, gets, modify, mbind, mret,
    M_bind, M_ret, UuidCmp. simpl.
  rewrite bool_decide_eq_false_2 by done. rewrite Hc. simpl. rewrite decide_True by done. simpl.
  rewrite bool_decide_eq_false_2 by done. eexists. split; [done|]. simpl.
  split; [done|]. split; [done|]. by rewrite bool_decide_eq_true_2.
Qed.

(** when the first [SetMOTStatus(true)] cannot be written to storage, the
    freed [mom] stays in [gDoxm], and the next call writes through it. *)
Theorem SetMOTStatus_use_after_free (enable : bool) (s : svr) (d : OicSecDoxm_t) :
  gDoxm s = Some d -> mom d = MomNull -> update_ps SVR_DOXM (tick s) <> OC_STACK_OK ->
  to_cbor SVR_DOXM (tick s) = OC_STACK_OK ->
  exists r s', SetMOTStatus true true s = Some (r, s') /\ r <> OC_STACK_OK /\
    SetMOTStatus true enable s' = None.
Proof.
  intros Hd Hm Hps Hc. unfold SetMOTStatus. rewrite Hd, Hm. cbn [negb].
  unfold write_ps, gets, modify, mbind, mret, M_bind, M_ret. simpl.
  rewrite Hc. rewrite decide_False by (intros Hx; by apply Hx). rewrite decide_True by done.
  rewrite decide_False by done. do 2 eexists. split; [done|]. by split.
Qed.

(** ** Equality of doxm resources *)

Lemma subowners_equal_spec l1 l2 : subowners_equal l1 l2 = true <-> l1 = l2.
Proof.
  revert l2. induction l1 as [|[u1 t1] l1 IH]; intros [|[u2 t2] l2]; simpl; try done.
  destruct (decide (u1 = u2)) as [->|Hu].
  - rewrite bool_decide_eq_true_2 by done. simpl.
    destruct (Z.eqb_spec t1 t2) as [->|]; simpl; [rewrite IH|]; naive_solver.
  - rewrite bool_decide_eq_false_2 by done. simpl. naive_solver.
Qed.

Lemma oxm_equal_spec l1 l2 : length l1 = length l2 -> (oxm_equal l1 l2 = true <-> l1 = l2).
Proof.
  revert l2. induction l1 as [|a l1 IH]; intros [|b l2] Hl; simpl in *; try done.
  destruct (Z.eqb_spec a b) as [->|]; simpl; [rewrite IH by lia|]; naive_solver.
Qed.

Ltac split_test H :=
  match goal with
  | |- context [if negb ?b then Some false else _] => destruct b eqn:H; cbn [negb]
  end.

(** with [MULTIPLE_OWNER] and no freed [mom], the comparison of two doxm
    resources is defined and true exactly when every property is equal. *)
Theorem AreDoxmBinPropertyValuesEqual_spec (d1 d2 : OicSecDoxm_t) :
  mom d1 <> MomFreed -> mom d2 <> MomFreed ->
  AreDoxmBinPropertyValuesEqual (Some d1) (Some d2) = Some (bool_decide (d1 = d2)).
Proof.
  intros Hm1 Hm2. unfold AreDoxmBinPropertyValuesEqual.
  assert (Hne : forall P : Prop, ~ P -> (d1 = d2 -> P) -> Some false = Some (bool_decide (d1 = d2))
    :> ub bool).
  { intros P HP Himp. rewrite bool_decide_eq_false_2; [done|]. tauto. }
  split_test H1; [|apply (Hne (length (oxm d1) = length (oxm d2)));
    [by apply Nat.eqb_neq|by intros ->]]. apply Nat.eqb_eq in H1.
  split_test H2; [|apply (Hne (oxm d1 = oxm d2));
    [rewrite <- oxm_equal_spec by done; congruence|by intros ->]].
  apply oxm_equal_spec in H2; [|done].
  split_test H3; [|apply (Hne (oxmSel d1 = oxmSel d2)); [by apply Z.eqb_neq|by intros ->]].
  split_test H4; [|apply (Hne (sct d1 = sct d2)); [by apply Z.eqb_neq|by intros ->]].
  split_test H5; [|apply (Hne (owned d1 = owned d2)); [by apply eqb_false_iff|by intros ->]].
  split_test H6; [|apply (Hne (deviceID d1 = deviceID d2));
    [by apply bool_decide_eq_false in H6|by intros ->]].
  split_test H7; [|apply (Hne (dpc d1 = dpc d2)); [by apply eqb_false_iff|by intros ->]].
  split_test H8; [|apply (Hne (owner d1 = owner d2));
    [by apply bool_decide_eq_false in H8|by intros ->]].
  split_test H9; [|apply (Hne (rownerID d1 = rownerID d2));
    [by apply bool_decide_eq_false in H9|by intros ->]].
  bool_to_prop. apply eqb_prop in H5. apply eqb_prop in H7. unfold AreDoxmBinMOTPropertyValuesEqual.
  split_test H10; [|apply (Hne (subOwners d1 = subOwners d2));
    [rewrite <- subowners_equal_spec; congruence|by intros ->]].
  apply subowners_equal_spec in H10.
  assert (Heq : d1 = d2 <-> mom d1 = mom d2).
  { split; [by intros ->|]. destruct d1, d2; simpl in *. congruence. }
  destruct (mom d1) as [|m1|] eqn:E1, (mom d2) as [|m2|] eqn:E2; try done; f_equal.
  - symmetry. by apply bool_decide_eq_true, Heq.
  - symmetry. apply bool_decide_eq_false. by rewrite Heq.
  - symmetry. apply bool_decide_eq_false. by rewrite Heq.
  - destruct (Z.eqb_spec m1 m2); symmetry; [apply bool_decide_eq_true|apply bool_decide_eq_false];
      rewrite Heq; congruence.
Qed.

End Svr.

(** ** Concrete instances *)

(** An environment in which every call succeeds, and one whose storage fails. *)
Definition ok_env : SvrEnv := {|
  to_cbor := fun _ _ => OC_STACK_OK; update_ps := fun _ _ => OC_STACK_OK;
  enable_anon_ecdh := fun _ => CA_STATUS_OK; send_srm_response := fun _ => OC_STACK_OK |}.
Definition full_env : SvrEnv := {|
  to_cbor := fun _ _ => OC_STACK_OK; update_ps := fun _ _ => OC_STACK_ERROR;
  enable_anon_ecdh := fun _ => CA_STATUS_OK; send_srm_response := fun _ => OC_STACK_OK |}.
Definition no_memory_env : SvrEnv := {|
  to_cbor := fun _ _ => OC_STACK_NO_MEMORY; update_ps := fun _ _ => OC_STACK_OK;
  enable_anon_ecdh := fun _ => CA_STATUS_OK; send_srm_response := fun _ => OC_STACK_OK |}.

(** A provisioned device about to become operational. *)
Definition sample_doxm : OicSecDoxm_t := {|
  oxm := [0]; oxmSel := 0; sct := 1; owned := true; deviceID := uuid_one; dpc := false;
  owner := uuid_one; subOwners := [{| so_uuid := THE_NIL_UUID; so_status := 0 |}];
  mom := MomNull; rownerID := uuid_one |}.
Definition sample_pstat : OicSecPstat_t := {|
  dos := {| state := DOS_RFPRO; pending := false |}; isOp := false; cm := 0; tmode := 0;
  om := 4; sm := [4]; pstat_rownerID := uuid_one |}.
Definition owned_acl : OicSecAcl_t := {| acl_rownerID := uuid_one; aces := aces sample_acl |}.
Definition sample_svr : svr := {|
  gDoxm := Some sample_doxm; gPstat := Some sample_pstat; gAcl := Some owned_acl; gCred := true;
  gRownerId := uuid_one; otm_handshake := false; anon_enabled := false; stored_doxm := None;
  stored_pstat := None; stored_acl := None; stored_cred_rowner := None; tick := 0 |}.

Lemma rowner_write_through_witness :
  (forall r s', @SetPstatRownerId full_env (Some THE_NIL_UUID) sample_svr = (r, s') ->
     (r = OC_STACK_OK /\ gPstat s' = Some (set_pstat_rowner THE_NIL_UUID sample_pstat) /\
      stored_pstat s' = gPstat s') \/
     (r = OC_STACK_ERROR /\ gPstat s' = Some sample_pstat /\
      stored_pstat s' = stored_pstat sample_svr)) /\
  (forall r s', @SetAclRownerId full_env (Some THE_NIL_UUID) sample_svr = (r, s') ->
     (r = OC_STACK_OK /\ gAcl s' = Some (acl_set_rowner THE_NIL_UUID owned_acl) /\
      stored_acl s' = gAcl s') \/
     (r <> OC_STACK_OK /\ gAcl s' = Some owned_acl /\ stored_acl s' = stored_acl sample_svr)).
Proof.
  exact (@rowner_write_through full_env THE_NIL_UUID sample_svr sample_pstat owned_acl
           eq_refl eq_refl).
Defined.

Lemma SetCredRownerId_no_revert_witness :
  exists s', @SetCredRownerId no_memory_env (Some THE_NIL_UUID) sample_svr = (OC_STACK_ERROR, s') /\
    gRownerId s' = THE_NIL_UUID /\ stored_cred_rowner s' = stored_cred_rowner sample_svr /\
    @SetCredRownerId no_memory_env (Some THE_NIL_UUID) s' = (OC_STACK_OK, s').
Proof.
  apply (@SetCredRownerId_no_revert no_memory_env THE_NIL_UUID sample_svr);
    [reflexivity|discriminate|discriminate].
Defined.

Lemma SetMOTStatus_use_after_free_witness :
  exists r s', @SetMOTStatus full_env true true sample_svr = Some (r, s') /\ r <> OC_STACK_OK /\
    @SetMOTStatus full_env true false s' = None.
Proof.
  apply (@SetMOTStatus_use_after_free full_env false sample_svr sample_doxm);
    [reflexivity|reflexivity|discriminate|reflexivity].
Defined.

Lemma AreDoxmBinPropertyValuesEqual_spec_witness :
  AreDoxmBinPropertyValuesEqual (Some sample_doxm) (Some (set_owned false sample_doxm))
    = Some false.
Proof.
  exact (AreDoxmBinPropertyValuesEqual_spec sample_doxm (set_owned false sample_doxm)
           ltac:(discriminate) ltac:(discriminate)).
Defined.
