(* ===== verification/Onboarding.v ===== *)
(** * Onboarding: the device onboarding state machine

    Models [resource/csdk/security/src/deviceonboardingstate.c] and the pstat
    POST handler that drives it ([HandlePstatPostRequest] of
    [pstatresource.c]).  The readiness tests read the resources of [Svr]; the
    [Enter*] functions set the server-controlled properties in the source's
    order and stop at the first failure, so a failing environment leaves the
    resources half changed, as the code does.

    [Ready], [dos_step] and [entered] are the abstract state machine of the
    OCF security specification; the theorems show that [SetDosState]
    implements it. *)
From S2P Require Import Prelude Chain Acl Svr.

Section Onboarding.
Context `{SvrEnv}.

(** [None]: the [assert(false)] of the [DOS_STATE_COUNT] case. *)
Definition IsValidStateTransition (oldState newState : OicSecDeviceOnboardingState_t) : ub bool :=
  match newState with
  | DOS_RESET => Some true
  | DOS_RFNOP => Some (bool_decide (DOS_RFPRO = oldState))
  | DOS_RFOTM => Some (bool_decide (DOS_RESET = oldState))
  | DOS_RFPRO =>
      Some (bool_decide (DOS_RFNOP = oldState) || bool_decide (DOS_RFOTM = oldState)
            || bool_decide (DOS_SRESET = oldState))
  | DOS_SRESET =>
      Some (bool_decide (DOS_RFNOP = oldState) || bool_decide (DOS_RFPRO = oldState))
  | DOS_STATE_COUNT => None
  end.

Definition IsReadyToEnterRFNOP (s : svr) : bool :=
  if negb (IsDoxmOwned s) then false
  else if IsDoxmDevowneruuidTheNilUuid s then false
  else if IsDoxmDeviceuuidTheNilUuid s then false
  else
    match GetPstatIsop s (Some false) with
    | (OC_STACK_OK, Some tempBool) =>
        if tempBool then false
        else if IsAclRowneruuidTheNilUuid s then false
        else if IsCredRowneruuidTheNilUuid s then false
        else if IsDoxmRowneruuidTheNilUuid s then false
        else if IsPstatRowneruuidTheNilUuid s then false
        else true
    | _ => false
    end.

Definition IsReadyToEnterRFOTM (s : svr) : bool :=
  if IsDoxmOwned s then false
  else if negb (IsDoxmDevowneruuidTheNilUuid s) then false
  else true.

Definition IsReadyToEnterRFPRO (s : svr) : bool :=
  if negb (IsDoxmOwned s) then false
  else if IsDoxmDevowneruuidTheNilUuid s then false
  else if IsDoxmDeviceuuidTheNilUuid s then false
  else if IsAclRowneruuidTheNilUuid s then false
  else if IsCredRowneruuidTheNilUuid s then false
  else if IsDoxmRowneruuidTheNilUuid s then false
  else if IsPstatRowneruuidTheNilUuid s then false
  else true.

Definition IsReadyToEnterSRESET (s : svr) : bool :=
  if negb (IsDoxmOwned s) then false
  else if IsDoxmDevowneruuidTheNilUuid s then false
  else if IsDoxmDeviceuuidTheNilUuid s then false
  else true.

(** [if (b) x |= bit; else x &= ~bit;]. *)
Definition assign_bit (b : bool) (bit x : Z) : Z :=
  if b then x ||| bit else x &&& compl32 bit.

Definition EnterStateGeneric (isop cmReset cmTakeOwner tmReset tmTakeOwner : bool)
    (newState : OicSecDeviceOnboardingState_t) : M bool :=
  cmv ← gets (fun s => GetPstatCm s (Some 0));
  match cmv with
  | (OC_STACK_OK, Some c) =>
      tmv ← gets (fun s => GetPstatTm s (Some 0));
      match tmv with
      | (OC_STACK_OK, Some t) =>
          verify (SetPstatIsop isop)
          (verify (SetPstatCm (assign_bit cmTakeOwner TAKE_OWNER (assign_bit cmReset RESET c)))
          (verify (SetPstatTm (assign_bit tmTakeOwner TAKE_OWNER (assign_bit tmReset RESET t)))
          (verify (SetPstatDosS newState)
          (mret true))))
      | _ => mret false
      end
  | _ => mret false
  end.

Definition EnterRFNOP : M bool := EnterStateGeneric true false false false false DOS_RFNOP.
Definition EnterRFOTM : M bool := EnterStateGeneric false false true false false DOS_RFOTM.
Definition EnterRFPRO : M bool := EnterStateGeneric false false false false false DOS_RFPRO.

Definition EnterRESET : M bool :=
  verify (SetDoxmIsOwned false)
  (verify (SetDoxmDevOwnerId (Some THE_NIL_UUID))
  (verify (SetAclRownerId (Some THE_NIL_UUID))
  (verify (SetCredRownerId (Some THE_NIL_UUID))
  (verify (SetDoxmRownerId (Some THE_NIL_UUID))
  (verify (SetPstatRownerId (Some THE_NIL_UUID))
  (verify (SetPstatCm 0)
  (verify (SetPstatTm 0)
  (entered ← EnterStateGeneric false true false false true DOS_RESET;
   if (entered : bool) then
     verify ('(r, _) ← EnableAnonCipherSuiteIfUnOwnedAndJustWorksSelected (Some false); mret r)
       (mret true)
   else mret false)))))))).

Definition EnterSRESET : M bool :=
  entered ← EnterStateGeneric false true false false false DOS_SRESET;
  if (entered : bool) then mret true else mret false.

(** The branch shared by every target of [DoStateChange]. *)
Definition enter_if_ready (ready : svr -> bool) (enter : M bool) : M OCStackResult :=
  ok ← gets ready;
  if (ok : bool) then
    done ← enter;
    mret (if (done : bool) then OC_STACK_OK else OC_STACK_INTERNAL_SERVER_ERROR)
  else mret OC_STACK_FORBIDDEN_REQ.

(** [None]: the [assert(false)] of the last case. *)
Definition DoStateChange (newState : OicSecDeviceOnboardingState_t) : ub (M OCStackResult) :=
  match newState with
  | DOS_RESET => Some (
      reset ← EnterRESET;
      if (reset : bool) then enter_if_ready IsReadyToEnterRFOTM EnterRFOTM
      else mret OC_STACK_INTERNAL_SERVER_ERROR)
  | DOS_RFNOP => Some (enter_if_ready IsReadyToEnterRFNOP EnterRFNOP)
  | DOS_RFOTM => Some (enter_if_ready IsReadyToEnterRFOTM EnterRFOTM)
  | DOS_RFPRO => Some (enter_if_ready IsReadyToEnterRFPRO EnterRFPRO)
  | DOS_SRESET => Some (enter_if_ready IsReadyToEnterSRESET EnterSRESET)
  | DOS_STATE_COUNT => None
  end.

Definition GetDos (s : svr) (out : option OicSecDostype_t)
    : OCStackResult * option OicSecDostype_t :=
  match out with
  | None => (OC_STACK_ERROR, None)
  | Some d =>
      match GetPstatDosS s (Some (state d)) with
      | (OC_STACK_OK, Some st) =>
          match GetPstatDosP s (Some (pending d)) with
          | (OC_STACK_OK, Some p) => (OC_STACK_OK, Some {| state := st; pending := p |})
          | _ => (OC_STACK_ERROR, Some {| state := st; pending := pending d |})
          end
      | _ => (OC_STACK_ERROR, Some d)
      end
  end.

(** The part of [SetDosState] between setting and clearing the pending flag. *)
Definition change_pending (desiredState oldState : OicSecDeviceOnboardingState_t)
    : ub (M OCStackResult) :=
  valid ← IsValidStateTransition oldState desiredState;
  if (valid : bool) then
    change ← DoStateChange desiredState;
    Some (
      stateChangeResult ← change;
      mret (match stateChangeResult with
            | OC_STACK_OK => OC_STACK_OK
            | OC_STACK_FORBIDDEN_REQ => OC_STACK_FORBIDDEN_REQ
            | _ => OC_STACK_INTERNAL_SERVER_ERROR
            end))
  else Some (mret OC_STACK_FORBIDDEN_REQ).

Definition SetDosState (desiredState : OicSecDeviceOnboardingState_t) (s : svr)
    : ub (OCStackResult * svr) :=
  match GetPstatDosP s (Some false) with
  | (OC_STACK_OK, Some p) =>
      if (p : bool) then Some (OC_STACK_FORBIDDEN_REQ, s)
      else
        match SetPstatDosP true s with
        | (OC_STACK_OK, s) =>
            match GetPstatDosS s (Some DOS_RESET) with
            | (OC_STACK_OK, Some oldState) =>
                change ← change_pending desiredState oldState;
                let '(ret, s) := change s in
                match SetPstatDosP false s with
                | (OC_STACK_OK, s) => Some (ret, s)
                | (_, s) => Some (OC_STACK_INTERNAL_SERVER_ERROR, s)
                end
            | _ => Some (OC_STACK_INTERNAL_SERVER_ERROR, s)
            end
        | (_, s) => Some (OC_STACK_INTERNAL_SERVER_ERROR, s)
        end
  | _ => Some (OC_STACK_INTERNAL_SERVER_ERROR, s)
  end.

(** ** The pstat POST handler *)

Inductive OCEntityHandlerResult :=
| OC_EH_OK | OC_EH_ERROR | OC_EH_NOT_ACCEPTABLE | OC_EH_BAD_REQ | OC_EH_INTERNAL_SERVER_ERROR.
#[local] Instance OCEntityHandlerResult_eq_dec : EqDecision OCEntityHandlerResult.
Proof. solve_decision. Defined.

(** The outcome of [CBORPayloadToPstatBin]: its result, the parsed pstat
    (NULL when allocation or parsing failed) and [roParsed]. *)
Record parsed_pstat := {
  pp_result : OCStackResult;
  pp_pstat : option OicSecPstat_t;
  pp_roParsed : bool;
}.

(** The [for] loop over the supported operation modes. *)
Definition supported_om (p : OicSecPstat_t) (o : Z) : bool := existsb (fun m => m =? o) (sm p).

(** The properties the handler copies before the state change. *)
Definition copy_writable (new p : OicSecPstat_t) : OicSecPstat_t :=
  set_pstat_rowner (pstat_rownerID new) (set_tm (tmode new) (set_om (om new) p)).

(** The result of the request before the response is sent; [payload]: whether
    the request has one, with the outcome of parsing it. *)
Definition pstat_post_result (payload : option parsed_pstat) (s : svr)
    : ub (OCEntityHandlerResult * svr) :=
  match payload, gPstat s with
  | Some pp, Some p =>
      match pp_pstat pp with
      | None => Some (OC_EH_ERROR, s)
      | Some new =>
          if decide (pp_result pp = OC_STACK_OK) then
            if pp_roParsed pp then Some (OC_EH_NOT_ACCEPTABLE, s)
            else if negb (supported_om p (om new)) then Some (OC_EH_BAD_REQ, s)
            else
              let s := with_pstat (copy_writable new p) s in
              let store_pstat (eh : OCEntityHandlerResult) (s : svr) :=
                let '(ok, s) := Pstat_UpdatePersistentStorage s in
                Some (if (ok : bool) then OC_EH_OK else eh, s) in
              if decide (state (dos new) <> state (dos p)) then
                '(r, s) ← SetDosState (state (dos new)) s;
                match r with
                | OC_STACK_OK => store_pstat OC_EH_OK s
                | OC_STACK_FORBIDDEN_REQ => Some (OC_EH_NOT_ACCEPTABLE, s)
                | _ => Some (OC_EH_INTERNAL_SERVER_ERROR, s)
                end
              else store_pstat OC_EH_ERROR s
          else Some (OC_EH_ERROR, s)
      end
  | _, _ => Some (OC_EH_ERROR, s)
  end.

(** The response code sent, the handler's own result and the new state. *)
Definition HandlePstatPostRequest (payload : option parsed_pstat) (s : svr)
    : ub (OCEntityHandlerResult * OCEntityHandlerResult * svr) :=
  '(eh, s) ← pstat_post_result payload s;
  Some (eh, (if decide (send_srm_response (tick s) = OC_STACK_OK) then OC_EH_OK else OC_EH_ERROR),
        next_tick s).

(** ** The state machine of the specification *)

(** What entering a state by [EnterStateGeneric] makes of pstat. *)
Definition generic (isop cmReset cmTakeOwner tmReset tmTakeOwner : bool)
    (st : OicSecDeviceOnboardingState_t) (p : OicSecPstat_t) : OicSecPstat_t := {|
  dos := {| state := st; pending := pending (dos p) |};
  isOp := isop;
  cm := assign_bit cmTakeOwner TAKE_OWNER (assign_bit cmReset RESET (cm p));
  tmode := assign_bit tmTakeOwner TAKE_OWNER (assign_bit tmReset RESET (tmode p));
  om := om p; sm := sm p; pstat_rownerID := pstat_rownerID p |}.

(** The requirement to enter each state that has one. *)
Definition ready (st : OicSecDeviceOnboardingState_t) (s : svr) : bool :=
  match st with
  | DOS_RFNOP => IsReadyToEnterRFNOP s
  | DOS_RFOTM => IsReadyToEnterRFOTM s
  | DOS_RFPRO => IsReadyToEnterRFPRO s
  | DOS_SRESET => IsReadyToEnterSRESET s
  | _ => false
  end.

Definition entered (st : OicSecDeviceOnboardingState_t) (p : OicSecPstat_t) : OicSecPstat_t :=
  match st with
  | DOS_RFNOP => generic true false false false false DOS_RFNOP p
  | DOS_RFOTM => generic false false true false false DOS_RFOTM p
  | DOS_RFPRO => generic false false false false false DOS_RFPRO p
  | DOS_SRESET => generic false true false false false DOS_SRESET p
  | _ => p
  end.

(** The transitions of the specification, RESET apart. *)
Inductive dos_edge : OicSecDeviceOnboardingState_t -> OicSecDeviceOnboardingState_t -> Prop :=
| edge_reset_rfotm : dos_edge DOS_RESET DOS_RFOTM
| edge_rfotm_rfpro : dos_edge DOS_RFOTM DOS_RFPRO
| edge_rfpro_rfnop : dos_edge DOS_RFPRO DOS_RFNOP
| edge_rfnop_rfpro : dos_edge DOS_RFNOP DOS_RFPRO
| edge_sreset_rfpro : dos_edge DOS_SRESET DOS_RFPRO
| edge_rfnop_sreset : dos_edge DOS_RFNOP DOS_SRESET
| edge_rfpro_sreset : dos_edge DOS_RFPRO DOS_SRESET.

Lemma valid_transition_edge a b : b <> DOS_STATE_COUNT ->
  exists v, IsValidStateTransition a b = Some v /\
    (v = true <-> b = DOS_RESET \/ dos_edge a b).
Proof.
  intros Hb. destruct b; try done; eexists; (split; [reflexivity|]);
    destruct a; vm_compute; split; intros Hx; try done;
    try (by right; constructor); try (by left);
    destruct Hx as [Hx|Hx]; inversion Hx.
Qed.

(** ** Running the operations *)

Ltac run := unfold enter_if_ready, verify, set_pstat, set_doxm, gets, modify, mbind, mret,
  M_bind, M_ret.

Lemma EnterStateGeneric_run a b c d e st s p :
  gPstat s = Some p ->
  EnterStateGeneric a b c d e st s = (true, with_pstat (generic a b c d e st p) s).
Proof.
  intros Hp. unfold EnterStateGeneric, GetPstatCm, GetPstatTm, get_out, SetPstatIsop, SetPstatCm,
    SetPstatTm, SetPstatDosS. run. rewrite Hp. simpl. rewrite Hp. simpl. by rewrite Hp.
Qed.

Lemma with_pstat_twice p q s : with_pstat p (with_pstat q s) = with_pstat p s.
Proof. done. Qed.

Lemma with_pstat_same p s : gPstat s = Some p -> with_pstat p s = s.
Proof. destruct s; simpl. by intros ->. Qed.

(** The readiness tests do not look at the pending flag. *)
Lemma ready_pending st p b s : gPstat s = Some p ->
  ready st (with_pstat (set_dos {| state := state (dos p); pending := b |} p) s) = ready st s.
Proof.
  intros Hp. destruct st; simpl; unfold IsReadyToEnterRFNOP, IsReadyToEnterRFOTM,
    IsReadyToEnterRFPRO, IsReadyToEnterSRESET, GetPstatIsop, get_out,
    IsPstatRowneruuidTheNilUuid; rewrite ?Hp; done.
Qed.

Lemma DoStateChange_run st s p :
  gPstat s = Some p -> st <> DOS_RESET -> st <> DOS_STATE_COUNT ->
  exists m, DoStateChange st = Some m /\
    m s = (if ready st s then (OC_STACK_OK, with_pstat (entered st p) s)
           else (OC_STACK_FORBIDDEN_REQ, s)).
Proof.
  intros Hp H1 H2. destruct st; try done; eexists; (split; [reflexivity|]); run; simpl;
    case_goal; try done; unfold EnterRFNOP, EnterRFOTM, EnterRFPRO, EnterSRESET; run;
    rewrite (EnterStateGeneric_run _ _ _ _ _ _ _ p) by done; done.
Qed.

(** The state with the pending flag set or cleared. *)
Definition with_pending (b : bool) (p : OicSecPstat_t) (s : svr) : svr :=
  with_pstat (set_dos {| state := state (dos p); pending := b |} p) s.

(** [SetDosState] brackets the change with the pending flag. *)
Lemma SetDosState_run st s p change :
  gPstat s = Some p -> pending (dos p) = false ->
  change_pending st (state (dos p)) = Some change ->
  (forall r s' , change (with_pending true p s) = (r, s') -> is_Some (gPstat s')) ->
  exists q, gPstat (change (with_pending true p s)).2 = Some q /\
    SetDosState st s = Some ((change (with_pending true p s)).1,
      with_pending false q (change (with_pending true p s)).2).
Proof.
  intros Hp Hpend Hc Hsome. unfold SetDosState, GetPstatDosP, GetPstatDosS, get_out, SetPstatDosP.
  run. rewrite Hp, Hpend. simpl. rewrite Hc. simpl.
  fold (with_pending true p s). specialize (Hsome (change (with_pending true p s)).1
    (change (with_pending true p s)).2). destruct (change (with_pending true p s)) as [r s'].
  destruct (Hsome eq_refl) as [q Hq]. simpl in Hq |- *. rewrite Hq. eauto.
Qed.

Lemma entered_pending st p :
  st <> DOS_RESET -> st <> DOS_STATE_COUNT -> pending (dos p) = false ->
  let q := entered st (set_dos {| state := state (dos p); pending := true |} p) in
  set_dos {| state := state (dos q); pending := false |} q = entered st p.
Proof.
  intros H1 H2 Hp. destruct st; try done; unfold entered, generic, set_dos; simpl; by rewrite Hp.
Qed.

Lemma SetDosState_away (st : OicSecDeviceOnboardingState_t) (s : svr) (p : OicSecPstat_t) :
  gPstat s = Some p -> pending (dos p) = false -> st <> DOS_RESET -> st <> DOS_STATE_COUNT ->
  (dos_edge (state (dos p)) st -> ready st s = true ->
     SetDosState st s = Some (OC_STACK_OK, with_pstat (entered st p) s)) /\
  (~ (dos_edge (state (dos p)) st /\ ready st s = true) ->
     SetDosState st s = Some (OC_STACK_FORBIDDEN_REQ, s)).
Proof.
  intros Hp Hpend H1 H2.
  destruct (valid_transition_edge (state (dos p)) st H2) as (v & Hv & Hedge).
  set (s1 := with_pending true p s).
  destruct (DoStateChange_run st s1 (set_dos {| state := state (dos p); pending := true |} p))
    as (m & Hm & Hrun); [done..|].
  unfold s1, with_pending in Hrun. rewrite ready_pending in Hrun by done.
  assert (Hback : forall q, with_pstat (set_dos {| state := state (dos p); pending := false |} p) q
    = with_pstat p q).
  { intros q. f_equal. destruct p as [[st0 pd0] ? ? ? ? ? ?]. simpl in Hpend. by subst. }
  unfold SetDosState, GetPstatDosP, GetPstatDosS, get_out, SetPstatDosP. run.
  rewrite Hp, Hpend. simpl. unfold change_pending. rewrite Hv. simpl.
  destruct v; [destruct Hedge as [[|He] _]; [done|done|]|].
  - rewrite Hm. simpl. run. rewrite Hrun. destruct (ready st s) eqn:Hr.
    + split; [intros _ _|intros Hn; by destruct Hn].
      simpl. rewrite with_pstat_twice. by rewrite entered_pending.
    + split; [done|]. intros _. simpl. rewrite with_pstat_twice.
      change (set_dos _ (set_dos _ p)) with (set_dos {| state := state (dos p); pending := false |} p).
      by rewrite Hback, with_pstat_same.
  - split; [intros He; exfalso; assert (false = true) by (apply Hedge; by right); done|].
    intros _. simpl. run. simpl. rewrite with_pstat_twice.
    change (set_dos _ (set_dos _ p)) with (set_dos {| state := state (dos p); pending := false |} p).
    by rewrite Hback, with_pstat_same.
Qed.

(** C3: away from RESET, [SetDosState] is exactly the state machine of the
    specification: it succeeds if and only if the transition is one of its
    edges and the requirements of the target state hold, it then changes pstat
    and nothing else, and a refused request changes nothing at all.  It never
    fails halfway and the pending flag is clear again afterwards. *)
Theorem SetDosState_refines (st : OicSecDeviceOnboardingState_t) (s : svr) (p : OicSecPstat_t) :
  gPstat s = Some p -> pending (dos p) = false -> st <> DOS_RESET -> st <> DOS_STATE_COUNT ->
  (dos_edge (state (dos p)) st -> ready st s = true ->
     SetDosState st s = Some (OC_STACK_OK, with_pstat (entered st p) s)) /\
  (~ (dos_edge (state (dos p)) st /\ ready st s = true) ->
     SetDosState st s = Some (OC_STACK_FORBIDDEN_REQ, s)).
Proof. apply SetDosState_away. Qed.

(** ** RESET *)

(** No call to the outside fails. *)
Definition env_ok : Prop :=
  (forall r n, to_cbor r n = OC_STACK_OK) /\ (forall r n, update_ps r n = OC_STACK_OK) /\
  (forall n, enable_anon_ecdh n = CA_STATUS_OK).

Lemma verify_ok op k s s' : op s = (OC_STACK_OK, s') -> verify op k s = k s'.
Proof. intros Ho. run. rewrite Ho. by rewrite decide_True. Qed.

Lemma verify_err op k s r s' : op s = (r, s') -> r <> OC_STACK_OK -> verify op k s = (false, s').
Proof. intros Ho Hr. run. rewrite Ho. by rewrite decide_False. Qed.

(** [s'] differs from [s] outside doxm and pstat only. *)
Definition same_dp (s s' : svr) : Prop := gDoxm s' = gDoxm s /\ gPstat s' = gPstat s.

Lemma write_ps_env_ok r s : env_ok -> write_ps r s = (OC_STACK_OK, store r (next_tick s)).
Proof.
  intros (Hc & Hu & _). unfold write_ps. run. rewrite Hc, Hu.
  rewrite !decide_False by (intros Hx; by apply Hx). done.
Qed.

Lemma SetAclRownerId_cases u s a : gAcl s = Some a ->
  exists r s', SetAclRownerId (Some u) s = (r, s') /\ same_dp s s' /\
    (r = OC_STACK_OK -> gAcl s' = Some (acl_set_rowner u a)) /\ (env_ok -> r = OC_STACK_OK).
Proof.
  intros Ha. unfold SetAclRownerId. run. rewrite Ha.
  destruct (write_ps_spec SVR_ACL (with_acl (acl_set_rowner u a) s)) as [(e & He & Hne)|He].
  - rewrite He, decide_False by done. do 2 eexists. split; [done|]. split; [done|].
    split; [done|]. intros Hok. rewrite write_ps_env_ok in He by done. congruence.
  - rewrite He, decide_True by done. by do 2 eexists.
Qed.

Lemma update_only_cases r s :
  exists b s', update_only r s = (b, s') /\ same_dp s s' /\ gAcl s' = gAcl s /\
    gRownerId s' = gRownerId s /\ (env_ok -> b = true).
Proof.
  unfold update_only. run. simpl. case_decide as Hd.
  - do 2 eexists. split; [done|]. repeat split. intros (_ & Hu & _). by rewrite Hu in Hd.
  - by do 2 eexists.
Qed.

Lemma SetCredRownerId_cases u s :
  exists r s', SetCredRownerId (Some u) s = (r, s') /\ same_dp s s' /\ gAcl s' = gAcl s /\
    (r = OC_STACK_OK -> gRownerId s' = u) /\ (env_ok -> r = OC_STACK_OK).
Proof.
  unfold SetCredRownerId, Cred_UpdatePersistentStorage, UuidCmp. run.
  case_bool_decide as Hu; [by do 2 eexists|]. simpl. destruct (gCred s); simpl.
  - destruct (write_ps_spec SVR_CRED (with_cred_rowner u s)) as [(e & He & Hne)|He]; rewrite He.
    + rewrite bool_decide_eq_false_2 by done. do 2 eexists. split; [done|]. repeat split; try done.
      intros Hok. rewrite write_ps_env_ok in He by done. congruence.
    + rewrite bool_decide_eq_true_2 by done. by do 2 eexists.
  - destruct (update_only_cases SVR_CRED (with_cred_rowner u s)) as (b & s' & -> & Hdp & Ha & Hr & Hb).
    destruct b; do 2 eexists; (split; [done|]); repeat split; try apply Hdp; try done.
    intros Hok. by specialize (Hb Hok).
Qed.

Lemma SetPstatRownerId_cases u s p : gPstat s = Some p ->
  exists r s', SetPstatRownerId (Some u) s = (r, s') /\ gDoxm s' = gDoxm s /\ gAcl s' = gAcl s /\
    gRownerId s' = gRownerId s /\
    gPstat s' = Some (if decide (r = OC_STACK_OK) then set_pstat_rowner u p else p) /\
    (env_ok -> r = OC_STACK_OK).
Proof.
  intros Hp. unfold SetPstatRownerId, Pstat_UpdatePersistentStorage. run. rewrite Hp.
  destruct (write_ps_spec SVR_PSTAT (with_pstat (set_pstat_rowner u p) s)) as [(e & He & Hne)|He];
    rewrite He.
  - rewrite bool_decide_eq_false_2 by done. do 2 eexists. split; [done|]. repeat split.
    intros Hok. rewrite write_ps_env_ok in He by done. congruence.
  - rewrite bool_decide_eq_true_2 by done. by do 2 eexists.
Qed.

Lemma EnableAnon_cases e s :
  exists r o s', EnableAnonCipherSuiteIfUnOwnedAndJustWorksSelected e s = ((r, o), s') /\
    same_dp s s' /\ gAcl s' = gAcl s /\ gRownerId s' = gRownerId s /\
    (env_ok -> r = OC_STACK_OK).
Proof.
  unfold EnableAnonCipherSuiteIfUnOwnedAndJustWorksSelected. run.
  destruct (gDoxm s) as [d|]; [|by do 3 eexists].
  destruct (owned d); [by do 3 eexists|]. destruct (_ =? _); [|by do 3 eexists].
  case_decide as Hd; do 3 eexists; (split; [done|]); repeat split.
  intros (_ & _ & Ha). by rewrite Ha in Hd.
Qed.

(** What [EnterRESET] leaves behind, whether or not it reached its end: [p]
    is pstat before, [q] after. *)
Definition reset_post (b : bool) (p : OicSecPstat_t) (s' : svr) : Prop :=
  exists d' q, gDoxm s' = Some d' /\ owned d' = false /\ owner d' = THE_NIL_UUID /\
    gPstat s' = Some q /\
    (if b then
       rownerID d' = THE_NIL_UUID /\ gRownerId s' = THE_NIL_UUID /\
       (exists a', gAcl s' = Some a' /\ acl_rownerID a' = THE_NIL_UUID) /\
       q = generic false true false false true DOS_RESET
             (set_tm 0 (set_cm 0 (set_pstat_rowner THE_NIL_UUID p)))
     else
       pending (dos q) = pending (dos p) /\
       ((state (dos q) = state (dos p) /\ isOp q = isOp p) \/
        (state (dos q) = DOS_RESET /\ isOp q = false))).

Lemma EnterRESET_tail s p d a :
  gDoxm s = Some d -> owned d = false -> owner d = THE_NIL_UUID -> rownerID d = THE_NIL_UUID ->
  gPstat s = Some p -> gAcl s = Some a -> acl_rownerID a = THE_NIL_UUID ->
  gRownerId s = THE_NIL_UUID ->
  exists b s',
    verify (SetPstatRownerId (Some THE_NIL_UUID))
      (verify (SetPstatCm 0) (verify (SetPstatTm 0)
       (entered ← EnterStateGeneric false true false false true DOS_RESET;
        if (entered : bool) then
          verify ('(r, _) ← EnableAnonCipherSuiteIfUnOwnedAndJustWorksSelected (Some false); mret r)
            (mret true)
        else mret false))) s = (b, s') /\
    reset_post b p s' /\ (env_ok -> b = true).
Proof.
  intros Hd Hown Howner Hro Hp Ha Har Hcr.
  destruct (SetPstatRownerId_cases THE_NIL_UUID s p Hp) as (r & s1 & Hr & Hd1 & Ha1 & Hc1 & Hp1 & Hok1).
  destruct (decide (r = OC_STACK_OK)) as [->|Hne].
  2:{ exists false, s1. split; [by eapply verify_err|]. split; [|tauto].
      exists d, p. rewrite Hd1. split_and!; try done. by left. }
  rewrite (verify_ok _ _ _ _ Hr).
  erewrite verify_ok by (unfold SetPstatCm; run; by rewrite Hp1).
  erewrite verify_ok by (unfold SetPstatTm; run; simpl; done).
  unfold mbind at 1, M_bind. erewrite EnterStateGeneric_run by done.
  rewrite !with_pstat_twice.
  match goal with |- context [verify _ _ ?s2] => set (s2' := s2) end.
  destruct (EnableAnon_cases (Some false) s2') as (r2 & o & s3 & Hr2 & [Hd3 Hp3] & Ha3 & Hc3 & Hok3).
  assert (Hrun : (('(r, _) ← EnableAnonCipherSuiteIfUnOwnedAndJustWorksSelected (Some false);
    mret r) : M OCStackResult) s2' = (r2, s3)) by (run; by rewrite Hr2).
  destruct (decide (r2 = OC_STACK_OK)) as [->|Hne2].
  - exists true, s3. split; [by rewrite (verify_ok _ _ _ _ Hrun)|]. split; [|done].
    exists d, (generic false true false false true DOS_RESET
      (set_tm 0 (set_cm 0 (set_pstat_rowner THE_NIL_UUID p)))).
    rewrite Hd3, Hp3, Hc3, Ha3. simpl. rewrite Hd1, Ha1, Hc1. split_and!; try done. by exists a.
  - exists false, s3. split; [by eapply verify_err|]. split; [|tauto].
    exists d, (generic false true false false true DOS_RESET
      (set_tm 0 (set_cm 0 (set_pstat_rowner THE_NIL_UUID p)))).
    rewrite Hd3, Hp3. simpl. rewrite Hd1. split_and!; try done. by right.
Qed.

Lemma EnterRESET_cases s d p a :
  gDoxm s = Some d -> gPstat s = Some p -> gAcl s = Some a ->
  exists b s', EnterRESET s = (b, s') /\ reset_post b p s' /\ (env_ok -> b = true).
Proof.
  intros Hd Hp Ha. unfold EnterRESET.
  erewrite verify_ok by (unfold SetDoxmIsOwned; run; by rewrite Hd).
  erewrite verify_ok by (unfold SetDoxmDevOwnerId; run; simpl; done).
  set (d2 := set_owner THE_NIL_UUID _). set (s2 := with_doxm d2 _).
  destruct (SetAclRownerId_cases THE_NIL_UUID s2 a Ha) as (r & s3 & Hr & [Hd3 Hp3] & Ha3 & Hok3).
  simpl in Hd3, Hp3. rewrite Hp in Hp3.
  assert (Hfail : forall s', gDoxm s' = Some d2 -> gPstat s' = Some p -> reset_post false p s').
  { intros s' Hd' Hp'. exists d2, p. split_and!; try done. by left. }
  destruct (decide (r = OC_STACK_OK)) as [->|Hne].
  2:{ exists false, s3. split; [by eapply verify_err|]. split; [auto|tauto]. }
  rewrite (verify_ok _ _ _ _ Hr). specialize (Ha3 eq_refl).
  destruct (SetCredRownerId_cases THE_NIL_UUID s3) as (r4 & s4 & Hr4 & [Hd4 Hp4] & Ha4 & Hc4 & Hok4).
  rewrite Hd3 in Hd4. rewrite Hp3 in Hp4. rewrite Ha3 in Ha4.
  destruct (decide (r4 = OC_STACK_OK)) as [->|Hne].
  2:{ exists false, s4. split; [by eapply verify_err|]. split; [auto|tauto]. }
  rewrite (verify_ok _ _ _ _ Hr4). specialize (Hc4 eq_refl).
  erewrite verify_ok by (unfold SetDoxmRownerId; run; by rewrite Hd4).
  eapply EnterRESET_tail; try reflexivity; simpl; done.
Qed.

Lemma EnterRESET_any s d p : gDoxm s = Some d -> gPstat s = Some p ->
  exists b s', EnterRESET s = (b, s') /\ reset_post b p s' /\
    (env_ok -> is_Some (gAcl s) -> b = true).
Proof.
  intros Hd Hp. destruct (gAcl s) as [a|] eqn:Ha.
  - destruct (EnterRESET_cases s d p a Hd Hp Ha) as (b & s' & Hr & Hpost & Hok). eauto 6.
  - unfold EnterRESET.
    erewrite verify_ok by (unfold SetDoxmIsOwned; run; by rewrite Hd).
    erewrite verify_ok by (unfold SetDoxmDevOwnerId; run; simpl; done).
    set (d2 := set_owner THE_NIL_UUID _). exists false, (with_doxm d2 s). split.
    + eapply verify_err; [unfold SetAclRownerId; run; simpl; by rewrite Ha|done].
    + split; [|by intros _ []]. exists d2, p. split_and!; try done. by left.
Qed.

Lemma SetDosState_to_reset s d p :
  gDoxm s = Some d -> gPstat s = Some p -> pending (dos p) = false ->
  exists r s' d' q, SetDosState DOS_RESET s = Some (r, s') /\
    gDoxm s' = Some d' /\ owned d' = false /\ owner d' = THE_NIL_UUID /\
    gPstat s' = Some q /\ pending (dos q) = false /\
    (env_ok -> is_Some (gAcl s) -> r = OC_STACK_OK) /\
    ((r = OC_STACK_OK /\ state (dos q) = DOS_RFOTM /\ isOp q = false /\ cm q = TAKE_OWNER /\
      tmode q = 0 /\ pstat_rownerID q = THE_NIL_UUID /\ rownerID d' = THE_NIL_UUID /\
      gRownerId s' = THE_NIL_UUID /\
      exists a', gAcl s' = Some a' /\ acl_rownerID a' = THE_NIL_UUID) \/
     (r = OC_STACK_INTERNAL_SERVER_ERROR /\
      ((state (dos q) = state (dos p) /\ isOp q = isOp p) \/
       (state (dos q) = DOS_RESET /\ isOp q = false)))).
Proof.
  intros Hd Hp Hpend.
  set (p1 := set_dos {| state := state (dos p); pending := true |} p).
  destruct (EnterRESET_any (with_pstat p1 s) d p1) as (b & s1 & Hr & Hpost & Hok); [done..|].
  destruct Hpost as (d' & q & Hd' & Hown & Howner & Hq & Hrest).
  unfold SetDosState, GetPstatDosP, GetPstatDosS, get_out, SetPstatDosP. run.
  rewrite Hp, Hpend. simpl. unfold change_pending. simpl. fold p1. run. rewrite Hr.
  destruct b.
  - destruct Hrest as (Hro & Hcr & Hacl & ->).
    assert (IsReadyToEnterRFOTM s1 = true) as ->.
    { unfold IsReadyToEnterRFOTM, IsDoxmOwned, IsDoxmDevowneruuidTheNilUuid, IsNilUuid, UuidCmp.
      by rewrite Hd', Hown, Howner, bool_decide_eq_true_2. }
    unfold EnterRFOTM. erewrite EnterStateGeneric_run by done. simpl.
    do 4 eexists. split; [done|]. split; [done|]. split_and!; try done.
    left. by split_and!.
  - simpl. rewrite Hq. destruct Hrest as [_ Hst].
    do 4 eexists. split; [done|]. split; [done|]. split_and!; try done.
    + intros He Ha. by specialize (Hok He Ha).
    + by right.
Qed.

(** a RESET request is accepted in every state and in every environment:
    the answer is OK or INTERNAL_SERVER_ERROR, never FORBIDDEN, the pending
    flag is clear again and the device is unowned.  If nothing outside fails
    the answer is OK; an OK answer leaves the device in RFOTM, not
    operational, with only TAKE_OWNER in [cm], an empty [tm] and no resource
    owner anywhere.  A failed RESET leaves the onboarding state as it was or
    in RESET. *)
Theorem SetDosState_reset (s : svr) (d : OicSecDoxm_t) (p : OicSecPstat_t) :
  gDoxm s = Some d -> gPstat s = Some p -> pending (dos p) = false ->
  exists r s' d' q, SetDosState DOS_RESET s = Some (r, s') /\
    gDoxm s' = Some d' /\ owned d' = false /\ owner d' = THE_NIL_UUID /\
    gPstat s' = Some q /\ pending (dos q) = false /\
    (env_ok -> is_Some (gAcl s) -> r = OC_STACK_OK) /\
    ((r = OC_STACK_OK /\ state (dos q) = DOS_RFOTM /\ isOp q = false /\ cm q = TAKE_OWNER /\
      tmode q = 0 /\ pstat_rownerID q = THE_NIL_UUID /\ rownerID d' = THE_NIL_UUID /\
      gRownerId s' = THE_NIL_UUID /\
      exists a', gAcl s' = Some a' /\ acl_rownerID a' = THE_NIL_UUID) \/
     (r = OC_STACK_INTERNAL_SERVER_ERROR /\
      ((state (dos q) = state (dos p) /\ isOp q = isOp p) \/
       (state (dos q) = DOS_RESET /\ isOp q = false)))).
Proof. apply SetDosState_to_reset. Qed.

(** ** Reachable states *)

(** In RFNOP the device is operational, no change is pending between
    requests, and doxm and pstat exist. *)
Definition dos_inv (s : svr) : Prop :=
  is_Some (gDoxm s) /\
  exists p, gPstat s = Some p /\ pending (dos p) = false /\ state (dos p) <> DOS_STATE_COUNT /\
    (state (dos p) = DOS_RFNOP -> isOp p = true).

(** How a step that asks for the state [want] may move the onboarding state
    from [a] to [b]: it stays, or the state asked for follows by an edge, or
    RESET was asked for and the device, in RFOTM or stuck in RESET, is without
    an owner in [s']. *)
Definition dos_move (want : option OicSecDeviceOnboardingState_t) (s' : svr) (a b : OicSecDeviceOnboardingState_t) : Prop :=
  a = b \/ (want = Some b /\ dos_edge a b) \/
  (want = Some DOS_RESET /\ (b = DOS_RFOTM \/ b = DOS_RESET) /\
   exists d, gDoxm s' = Some d /\ owned d = false /\ owner d = THE_NIL_UUID).

(** What a step does to [isOp]: the device is operational in RFNOP only, or
    neither it nor the state has changed. *)
Definition op_kept (p q : OicSecPstat_t) : Prop :=
  (isOp q = true -> state (dos q) = DOS_RFNOP) \/ (state (dos q) = state (dos p) /\ isOp q = isOp p).

(** The device becomes its own owner the old way, by [SetPstatSelfOwnership]:
    it is declared operational where it is. *)
Definition takes_itself (p q : OicSecPstat_t) : Prop :=
  isOp p = false /\ TAKE_OWNER &&& cm p <> 0 /\ state (dos q) = state (dos p) /\ isOp q = true.

(** A request to change the state, a POST to pstat, [ConfigSelfOwnership], or
    any activity of the other modules that leaves the onboarding state and
    [isOp] alone; with the state that is asked for. *)
Inductive dos_step (s : svr) : option OicSecDeviceOnboardingState_t -> svr -> Prop :=
| step_set st r s' : st <> DOS_STATE_COUNT -> SetDosState st s = Some (r, s') -> dos_step s (Some st) s'
| step_post pp sent eh s' :
    (forall new, pp_pstat pp = Some new -> state (dos new) <> DOS_STATE_COUNT) ->
    HandlePstatPostRequest (Some pp) s = Some (sent, eh, s') ->
    dos_step s ((fun new => state (dos new)) <$> pp_pstat pp) s'
| step_self u r s' : SetPstatSelfOwnership u s = (r, s') -> dos_step s None s'
| step_other s' p q :
    gPstat s = Some p -> gPstat s' = Some q -> dos q = dos p -> isOp q = isOp p -> is_Some (gDoxm s') ->
    dos_step s None s'.

Definition dos_next (s s' : svr) : Prop := exists want, dos_step s want s'.

Lemma entered_inv st p : st <> DOS_RESET -> st <> DOS_STATE_COUNT ->
  state (dos (entered st p)) = st /\ pending (dos (entered st p)) = pending (dos p) /\
  (isOp (entered st p) = true <-> st = DOS_RFNOP).
Proof. intros H1 H2. destruct st; done. Qed.

(** What a step keeps: the invariant, the moves, [isOp]. *)
Definition dos_kept (want : option OicSecDeviceOnboardingState_t) (p : OicSecPstat_t) (s' : svr) : Prop :=
  dos_inv s' /\ exists q, gPstat s' = Some q /\ dos_move want s' (state (dos p)) (state (dos q)) /\ op_kept p q.

Lemma dos_kept_stay want p q s : dos_inv s -> gPstat s = Some q -> dos q = dos p -> isOp q = isOp p -> dos_kept want p s.
Proof.
  intros Hi Hq Hd Ho. split; [done|]. exists q. split; [done|]. rewrite Hd. split; [by left|]. right. by rewrite Hd.
Qed.

Lemma dos_kept_reset s s' d' p q : gDoxm s' = Some d' -> owned d' = false -> owner d' = THE_NIL_UUID ->
  gPstat s' = Some q -> pending (dos q) = false -> isOp q = false ->
  state (dos q) = DOS_RFOTM \/ state (dos q) = DOS_RESET -> dos_inv s -> dos_kept (Some DOS_RESET) p s'.
Proof.
  intros Hd Hown How Hq Hpend Hop Hst _. split.
  - split; [by eexists|]. exists q. split_and!; [done..| |]; destruct Hst as [-> | ->]; done.
  - exists q. split; [done|]. split; [right; right; split; [done|]; split; [done|by exists d']|]. left. by rewrite Hop.
Qed.

(** A request preserves the invariant and moves along the specification. *)
Lemma SetDosState_inv st s r s' p :
  dos_inv s -> gPstat s = Some p -> st <> DOS_STATE_COUNT -> SetDosState st s = Some (r, s') ->
  dos_kept (Some st) p s'.
Proof.
  intros Hi Hp Hst Hset. pose proof Hi as ([d Hd] & p' & Hp' & Hpend & Hcnt & Hop).
  assert (p' = p) as -> by congruence.
  destruct (decide (st = DOS_RESET)) as [->|Hne].
  - destruct (SetDosState_to_reset s d p Hd Hp Hpend)
      as (r' & s'' & d' & q & Hset' & Hd' & Hown & How & Hq & Hpq & _ & Hcase).
    rewrite Hset in Hset'. simplify_eq.
    destruct Hcase as [(_ & Hq1 & Hq2 & _)|(_ & [(Hq1 & Hq2)|(Hq1 & Hq2)])];
      [by eapply dos_kept_reset; eauto| |by eapply dos_kept_reset; eauto].
    split; [|exists q; split; [done|]; split; [by left|by right]].
    split; [by exists d'|]. exists q. rewrite Hq1, Hq2. by split_and!.
  - destruct (SetDosState_away st s p Hp Hpend Hne Hst) as [Hyes Hno].
    assert (Hdec : (dos_edge (state (dos p)) st /\ ready st s = true) \/
      ~ (dos_edge (state (dos p)) st /\ ready st s = true)).
    { destruct (valid_transition_edge (state (dos p)) st Hst) as ([|] & _ & Hv);
        destruct (ready st s); [left|right; by intros []|right; intros [He _]..].
      - split; [|done]. by destruct Hv as [[|] _].
      - assert (false = true) by (apply Hv; by right). done.
      - assert (false = true) by (apply Hv; by right). done. }
    destruct Hdec as [[He Hr]|Hnot].
    + rewrite Hyes in Hset by done. simplify_eq.
      destruct (entered_inv st p Hne Hst) as (H1 & H2 & H3). split.
      * split; [by exists d|]. exists (entered st p). rewrite H1, H2. split_and!; try done. by apply H3.
      * exists (entered st p). split; [done|]. rewrite H1. split; [right; by left|]. left. rewrite H1. apply H3.
    + rewrite Hno in Hset by done. simplify_eq. by eapply dos_kept_stay.
Qed.

Lemma Pstat_Update_same s :
  gDoxm (Pstat_UpdatePersistentStorage s).2 = gDoxm s /\
  gPstat (Pstat_UpdatePersistentStorage s).2 = gPstat s.
Proof.
  unfold Pstat_UpdatePersistentStorage. run.
  by destruct (write_ps_spec SVR_PSTAT s) as [(e & -> & _)| ->].
Qed.

(** The state part of [dos_inv] does not look at the copied properties. *)
Lemma copy_writable_inv new s p : gPstat s = Some p -> dos_inv s ->
  dos_inv (with_pstat (copy_writable new p) s).
Proof.
  intros Hp (Hd & p' & Hp' & Hrest). assert (p' = p) as -> by congruence.
  split; [done|]. by exists (copy_writable new p).
Qed.

Lemma dos_inv_same s s' : gDoxm s' = gDoxm s -> gPstat s' = gPstat s -> dos_inv s -> dos_inv s'.
Proof. intros H1 H2. unfold dos_inv. by rewrite H1, H2. Qed.

Lemma dos_kept_same want p s s' : gDoxm s' = gDoxm s -> gPstat s' = gPstat s -> dos_kept want p s -> dos_kept want p s'.
Proof. intros H1 H2. unfold dos_kept, dos_inv, dos_move. by rewrite H1, H2. Qed.

Lemma pstat_post_inv pp s eh s' p :
  dos_inv s -> gPstat s = Some p ->
  (forall new, pp_pstat pp = Some new -> state (dos new) <> DOS_STATE_COUNT) ->
  pstat_post_result (Some pp) s = Some (eh, s') ->
  dos_kept ((fun new => state (dos new)) <$> pp_pstat pp) p s'.
Proof.
  intros Hinv Hp Hcnt. unfold pstat_post_result. rewrite Hp.
  assert (Hstay : forall want, dos_kept want p s) by (intros want; by eapply dos_kept_stay).
  destruct (pp_pstat pp) as [new|]; [|by intros [= <- <-]]. cbn [fmap option_fmap option_map].
  case_decide; [|by intros [= <- <-]]. destruct (pp_roParsed pp); [by intros [= <- <-]|].
  destruct (negb (supported_om p (om new))); [by intros [= <- <-]|].
  set (s1 := with_pstat (copy_writable new p) s).
  pose proof (copy_writable_inv new s p Hp Hinv) as Hinv1. fold s1 in Hinv1.
  assert (Hstore : forall eh0 eh1 s2 s3,
    (let '(ok, s3) := Pstat_UpdatePersistentStorage s2 in
     Some (if (ok : bool) then OC_EH_OK else eh0, s3)) = Some (eh1, s3) ->
    gDoxm s3 = gDoxm s2 /\ gPstat s3 = gPstat s2).
  { intros eh0 eh1 s2 s3. pose proof (Pstat_Update_same s2) as Hs.
    destruct (Pstat_UpdatePersistentStorage s2) as [ok s4]. intros [= _ <-]. done. }
  case_decide as Hst.
  - intros Hb. bind_inv Hb. destruct x as [r s2].
    pose proof (SetDosState_inv _ _ _ _ (copy_writable new p) Hinv1 eq_refl (Hcnt _ eq_refl) Hx) as Hk.
    change (dos_kept (Some (state (dos new))) p s2) in Hk.
    assert (Hend : s' = s2 \/ (gDoxm s' = gDoxm s2 /\ gPstat s' = gPstat s2)).
    { destruct r; simplify_eq; try (by left). right. by eapply Hstore. }
    destruct Hend as [->|[H1 H2]]; [done|by eapply dos_kept_same].
  - intros Hb. apply Hstore in Hb as [H1 H2]. eapply dos_kept_same; [done..|].
    by eapply (dos_kept_stay _ p (copy_writable new p)).
Qed.

(** Becoming one's own owner declares the device operational, in any state. *)
Lemma self_ownership_inv u r s s' p : dos_inv s -> gPstat s = Some p -> SetPstatSelfOwnership u s = (r, s') ->
  dos_inv s' /\ exists q, gPstat s' = Some q /\ dos q = dos p /\ (isOp q = isOp p \/ takes_itself p q).
Proof.
  intros Hi Hp. unfold SetPstatSelfOwnership, gets, modify, mbind, mret, M_bind, M_ret. rewrite Hp.
  assert (dos_inv s /\ exists q, gPstat s = Some q /\ dos q = dos p /\ (isOp q = isOp p \/ takes_itself p q)) as Hstay
    by (split; [done|]; exists p; by split_and!; [..|left]).
  destruct u as [u|]; [|by intros [= <- <-]].
  destruct (isOp p) eqn:Ho; cbn [negb andb]; [by intros [= <- <-]|].
  destruct (Z.eqb_spec (TAKE_OWNER &&& cm p) 0) as [|Hcm]; cbn [negb]; [by intros [= <- <-]|].
  set (q := set_pstat_rowner u _). set (s1 := with_pstat q s). intros E.
  assert (gDoxm s' = gDoxm s1 /\ gPstat s' = gPstat s1) as [H1 H2]
    by (destruct (write_ps_spec SVR_PSTAT s1) as [(e & Hw & _)|Hw]; rewrite Hw in E; by injection E as _ <-).
  pose proof Hi as (Hd & p' & Hp' & Hpend & Hcnt & _). assert (p' = p) as -> by congruence. split.
  - split; [by rewrite H1|]. exists q. by rewrite H2.
  - exists q. rewrite H2. split; [done|]. split; [done|]. by right.
Qed.

Lemma dos_step_inv s want s' p : dos_inv s -> gPstat s = Some p -> dos_step s want s' ->
  dos_inv s' /\ exists q, gPstat s' = Some q /\ dos_move want s' (state (dos p)) (state (dos q)) /\
    (op_kept p q \/ want = None /\ takes_itself p q).
Proof.
  intros Hinv Hp Hstep.
  assert (forall w, dos_kept w p s' -> dos_inv s' /\ exists q, gPstat s' = Some q /\
    dos_move w s' (state (dos p)) (state (dos q)) /\ (op_kept p q \/ w = None /\ takes_itself p q)) as Hkept
    by (intros w (Hi & q & Hq & Hm & Hk); split; [done|]; exists q; by split_and!; [..|left]).
  destruct Hstep as [st r s1 Hst Hset|pp sent eh s1 Hcnt Hpost|u r s1 Hself|s1 p' q Hp' Hq Hd Ho Hdx].
  - apply Hkept. by eapply SetDosState_inv.
  - apply Hkept. unfold HandlePstatPostRequest in Hpost. bind_inv Hpost. destruct x as [eh0 s2]. simplify_eq.
    exact (dos_kept_same _ _ s2 _ eq_refl eq_refl (pstat_post_inv _ _ _ _ _ Hinv Hp Hcnt Hx)).
  - destruct (self_ownership_inv u r s s1 p Hinv Hp Hself) as (Hi & q & Hq & Hd & Hcase). split; [done|].
    exists q. split; [done|]. split; [left; by rewrite Hd|]. destruct Hcase as [Ho|Ht]; [left; right; by rewrite Hd|by right].
  - apply Hkept. assert (p' = p) as -> by congruence. eapply dos_kept_stay; try done.
    destruct Hinv as (_ & p' & Hp'' & Hrest). assert (p' = p) as -> by congruence.
    split; [done|]. exists q. by rewrite Hd, Ho.
Qed.

(** C4: whatever sequence of state requests, pstat POSTs, self-ownership
    requests and steps of other modules that leave the onboarding state and
    [isOp] alone is made, and whatever fails outside, no change is left
    pending and a device in RFNOP is operational.  Each step stays in its
    state, or reaches the state it asks for along an edge of the
    specification, or asks for RESET and leaves a device without an owner in
    RFOTM or, when it fails, in RESET.  The device becomes operational outside
    RFNOP in one way only: by [SetPstatSelfOwnership], which leaves the state
    where it is ([SetPstatSelfOwnership_leaves_dos]). *)
Theorem onboarding_invariant (s s' : svr) :
  dos_inv s -> rtc dos_next s s' ->
  dos_inv s' /\ forall want s'' p q, dos_step s' want s'' -> gPstat s' = Some p -> gPstat s'' = Some q ->
    dos_move want s'' (state (dos p)) (state (dos q)) /\ (op_kept p q \/ want = None /\ takes_itself p q).
Proof.
  intros Hinv Hr. assert (dos_inv s') as Hinv'.
  { induction Hr as [|s s1 s2 [want Hstep] _ IH]; [done|]. apply IH.
    pose proof Hinv as (_ & p & Hp & _). by destruct (dos_step_inv s want s1 p Hinv Hp Hstep). }
  split; [done|]. intros want s'' p q Hstep Hp Hq.
  destruct (dos_step_inv s' want s'' p Hinv' Hp Hstep) as (_ & q' & Hq' & Hm).
  by assert (q' = q) as -> by congruence.
Qed.

(** A POST that asks for a state change, up to the change itself. *)
Definition wants_change (pp : parsed_pstat) (new p : OicSecPstat_t) : Prop :=
  pp_result pp = OC_STACK_OK /\ pp_pstat pp = Some new /\ pp_roParsed pp = false /\
  supported_om p (om new) = true /\ state (dos new) <> state (dos p) /\
  state (dos new) <> DOS_RESET /\ state (dos new) <> DOS_STATE_COUNT.

(** a POST to pstat whose state change is not allowed is answered
    NOT_ACCEPTABLE, yet its [om], [tm] and resource owner have already
    replaced the ones in memory, without being stored.  A POST whose change is
    allowed is answered OK even when the new state could not be stored. *)
Theorem pstat_post_state_change (pp : parsed_pstat) (new p : OicSecPstat_t) (s : svr) :
  gPstat s = Some p -> pending (dos p) = false -> wants_change pp new p ->
  let s1 := with_pstat (copy_writable new p) s in
  let st := state (dos new) in
  (~ (dos_edge (state (dos p)) st /\ ready st s1 = true) ->
     pstat_post_result (Some pp) s = Some (OC_EH_NOT_ACCEPTABLE, s1) /\
     stored_pstat s1 = stored_pstat s) /\
  (dos_edge (state (dos p)) st -> ready st s1 = true ->
     exists s', pstat_post_result (Some pp) s = Some (OC_EH_OK, s') /\
       gPstat s' = Some (entered st (copy_writable new p)) /\
       (update_ps SVR_PSTAT (tick s) <> OC_STACK_OK -> stored_pstat s' = stored_pstat s)).
Proof.
  intros Hp Hpend (Hres & Hnew & Hro & Hom & Hst & Hr & Hc). cbn zeta.
  set (s1 := with_pstat (copy_writable new p) s). set (st := state (dos new)).
  assert (Hpost : pstat_post_result (Some pp) s =
    ('(r, s) ← SetDosState st s1;
     match r with
     | OC_STACK_OK =>
         let '(ok, s) := Pstat_UpdatePersistentStorage s in
         Some (if (ok : bool) then OC_EH_OK else OC_EH_OK, s)
     | OC_STACK_FORBIDDEN_REQ => Some (OC_EH_NOT_ACCEPTABLE, s)
     | _ => Some (OC_EH_INTERNAL_SERVER_ERROR, s)
     end)).
  { unfold pstat_post_result. rewrite Hp, Hnew, Hro, Hom. by rewrite !decide_True by done. }
  rewrite Hpost.
  destruct (SetDosState_away st s1 (copy_writable new p) eq_refl Hpend Hr Hc) as [Hyes Hno].
  split.
  - intros Hn. by rewrite Hno by done.
  - intros He Hready. rewrite Hyes by done. cbn [mbind option_bind].
    unfold Pstat_UpdatePersistentStorage. run.
    destruct (write_ps_spec SVR_PSTAT (with_pstat (entered st (copy_writable new p)) s1))
      as [(e & Hw & Hne)|Hw]; rewrite Hw.
    + rewrite bool_decide_eq_false_2 by done. by eexists.
    + rewrite bool_decide_eq_true_2 by done. eexists. split; [done|]. split; [done|].
      intros Hu. exfalso. unfold write_ps in Hw. revert Hw. run. simpl.
      case_decide; [congruence|]. rewrite decide_True by done. congruence.
Qed.

End Onboarding.

(** ** Concrete instances *)

Lemma SetDosState_refines_witness :
  (dos_edge DOS_RFPRO DOS_RFNOP -> ready DOS_RFNOP sample_svr = true ->
     @SetDosState full_env DOS_RFNOP sample_svr
       = Some (OC_STACK_OK, with_pstat (entered DOS_RFNOP sample_pstat) sample_svr)) /\
  (~ (dos_edge DOS_RFPRO DOS_RFNOP /\ ready DOS_RFNOP sample_svr = true) ->
     @SetDosState full_env DOS_RFNOP sample_svr = Some (OC_STACK_FORBIDDEN_REQ, sample_svr)).
Proof.
  apply (@SetDosState_refines full_env DOS_RFNOP sample_svr sample_pstat);
    [reflexivity|reflexivity|discriminate|discriminate].
Defined.

Lemma SetDosState_reset_witness :
  exists r s' d' q, @SetDosState full_env DOS_RESET sample_svr = Some (r, s') /\
    gDoxm s' = Some d' /\ owned d' = false /\ owner d' = THE_NIL_UUID /\
    gPstat s' = Some q /\ pending (dos q) = false /\
    (@env_ok full_env -> is_Some (gAcl sample_svr) -> r = OC_STACK_OK) /\
    ((r = OC_STACK_OK /\ state (dos q) = DOS_RFOTM /\ isOp q = false /\ cm q = TAKE_OWNER /\
      tmode q = 0 /\ pstat_rownerID q = THE_NIL_UUID /\ rownerID d' = THE_NIL_UUID /\
      gRownerId s' = THE_NIL_UUID /\
      exists a', gAcl s' = Some a' /\ acl_rownerID a' = THE_NIL_UUID) \/
     (r = OC_STACK_INTERNAL_SERVER_ERROR /\
      ((state (dos q) = DOS_RFPRO /\ isOp q = false) \/
       (state (dos q) = DOS_RESET /\ isOp q = false)))).
Proof.
  exact (@SetDosState_reset full_env sample_svr sample_doxm sample_pstat eq_refl eq_refl eq_refl).
Defined.

Lemma sample_inv : dos_inv sample_svr.
Proof.
  split; [by eexists|]. exists sample_pstat. by split_and!.
Qed.

Lemma onboarding_invariant_witness :
  dos_inv (with_pstat (entered DOS_RFNOP sample_pstat) sample_svr) /\
  forall want s'' p q, @dos_step ok_env (with_pstat (entered DOS_RFNOP sample_pstat) sample_svr) want s'' ->
    gPstat (with_pstat (entered DOS_RFNOP sample_pstat) sample_svr) = Some p ->
    gPstat s'' = Some q ->
    dos_move want s'' (state (dos p)) (state (dos q)) /\ (op_kept p q \/ want = None /\ takes_itself p q).
Proof.
  apply (@onboarding_invariant ok_env sample_svr).
  - exact sample_inv.
  - apply rtc_once. exists (Some DOS_RFNOP). apply (@step_set ok_env sample_svr DOS_RFNOP OC_STACK_OK);
      [discriminate|vm_compute; reflexivity].
Defined.

(** Asking for RFOTM from RFPRO, with a new resource owner. *)
Definition sample_post : parsed_pstat := {|
  pp_result := OC_STACK_OK;
  pp_pstat := Some {| dos := {| state := DOS_RFOTM; pending := false |}; isOp := false; cm := 0;
    tmode := 1; om := 4; sm := []; pstat_rownerID := THE_NIL_UUID |};
  pp_roParsed := false |}.

Lemma pstat_post_state_change_witness :
  let s1 := with_pstat (set_pstat_rowner THE_NIL_UUID (set_tm 1 sample_pstat)) sample_svr in
  @pstat_post_result ok_env (Some sample_post) sample_svr = Some (OC_EH_NOT_ACCEPTABLE, s1) /\
  stored_pstat s1 = stored_pstat sample_svr.
Proof.
  refine (proj1 (@pstat_post_state_change ok_env sample_post
    {| dos := {| state := DOS_RFOTM; pending := false |}; isOp := false; cm := 0;
       tmode := 1; om := 4; sm := []; pstat_rownerID := THE_NIL_UUID |}
    sample_pstat sample_svr eq_refl eq_refl _) _).
  - unfold wants_change. split_and!; first [reflexivity|discriminate].
  - intros [He _]. inversion He.
Defined.

(** Taking ownership the old way, by [SetPstatSelfOwnership], declares the
    device operational while its onboarding state stays where it was. *)
Lemma SetPstatSelfOwnership_leaves_dos (s : svr) (p : OicSecPstat_t) :
  gPstat s = Some p -> state (dos p) = DOS_RFOTM -> isOp p = false -> cm p = TAKE_OWNER ->
  exists r s' q, @SetPstatSelfOwnership ok_env (Some uuid_one) s = (r, s') /\
    gPstat s' = Some q /\ takes_itself p q /\ state (dos q) = DOS_RFOTM.
Proof.
  intros Hp Hst Hop Hcm. unfold SetPstatSelfOwnership, gets, modify, mbind, mret, M_bind, M_ret.
  rewrite Hp, Hop, Hcm. simpl. do 3 eexists. split; [done|]. split; [done|]. split; [|done].
  split; [done|]. split; [by rewrite Hcm|done].
Qed.
