(* ===== verification/PolicyEngine.v ===== *)
(** * PolicyEngine: who may access what

    Models [resource/csdk/security/src/policyengine.c] on the resources of
    [Svr], the ACE lookups of [Acl] and the validity test of [Calendar].  The
    asserted roles, the attributes of the TLS session and the checks of a
    sub-owner's payload are the class [PolicyEnv], with the build options and
    the current time.  [None] is an undefined outcome: a failed [assert], or an
    undefined parse of a validity string.

    The loops over the ACEs are proved against the [AceIterator] interface;
    the theorems say what [CheckPermission] grants and to whom. *)
From S2P Require Import Prelude Chain OicString Strptime Calendar Acl Svr Onboarding CaCommon.

(** ** Data *)

(** [OicSecSvrType_t]. *)
Definition OIC_RESOURCE_TYPE_ERROR : Z := 0.
Definition OIC_R_ACL_TYPE : Z := 1.
Definition OIC_R_AMACL_TYPE : Z := 2.
Definition OIC_R_CRED_TYPE : Z := 3.
Definition OIC_R_CRL_TYPE : Z := 4.
Definition OIC_R_DOXM_TYPE : Z := 5.
Definition OIC_R_PSTAT_TYPE : Z := 8.
Definition OIC_R_CSR_TYPE : Z := 11.
Definition OIC_R_ACL2_TYPE : Z := 12.
Definition OIC_R_ROLES_TYPE : Z := 13.
Definition OIC_SEC_SVR_TYPE_COUNT : Z := 14.
Definition NOT_A_SVR_RESOURCE : Z := 99.

Definition PERMISSION_ERROR : Z := 0.
Definition PERMISSION_CREATE : Z := 1.
Definition PERMISSION_READ : Z := 2.
Definition PERMISSION_WRITE : Z := 4.
Definition PERMISSION_DELETE : Z := 8.
Definition PERMISSION_NOTIFY : Z := 16.
Definition PERMISSION_FULL_CONTROL : Z := 31.

(** [SRMAccessResponse_t]: bit 0 grants, bit 1 denies, the rest is the reason. *)
Definition ACCESS_GRANTED : Z := 1.
Definition ACCESS_DENIED_INSUFFICIENT_PERMISSION : Z := 6.
Definition ACCESS_DENIED_SUBJECT_NOT_FOUND : Z := 10.
Definition ACCESS_DENIED_RESOURCE_NOT_FOUND : Z := 18.
Definition ACCESS_DENIED_POLICY_ENGINE_ERROR : Z := 34.
Definition ACCESS_DENIED_INVALID_PERIOD : Z := 66.

Definition IsAccessGranted (response : Z) : bool := ACCESS_GRANTED =? response &&& ACCESS_GRANTED.

Definition SUBJECT_ID_TYPE_ERROR : Z := 0.
Definition SUBJECT_ID_TYPE_UUID : Z := 1.

Definition CA_SECURE_ENDPOINT_ATTRIBUTE_ADMINISTRATOR : Z := 1.

Definition WILDCARD_RESOURCE_URI : list Z := chars "*".
Definition WILDCARD_SUBJECT_ID : OicUuid_t := 42 :: replicate 15 0.

(** The part of [CARequestInfo_t] the security code reads. *)
Record CARequestInfo_t := {
  rq_method : Z;
  rq_identity : list Z;            (* info.identity.id *)
  rq_resourceUri : option (list Z); (* info.resourceUri *)
  rq_payload : list Z;
}.

Record SRMRequestContext_t := {
  endPoint : option CAEndpoint_t;
  resourceType : Z;
  resourceUri : list Z;
  requestedPermission : Z;
  response_result : Z;             (* responseInfo.result *)
  responseSent : bool;
  responseVal : Z;
  requestInfo : option CARequestInfo_t;
  secureChannel : bool;
  discoverable : OicSecDiscoverable_t;
  subjectIdType : Z;
  subjectUuid : OicUuid_t;
  payload : list Z;
}.

Definition set_responseVal (v : Z) (c : SRMRequestContext_t) : SRMRequestContext_t := {|
  endPoint := endPoint c; resourceType := resourceType c; resourceUri := resourceUri c;
  requestedPermission := requestedPermission c; response_result := response_result c;
  responseSent := responseSent c; responseVal := v; requestInfo := requestInfo c;
  secureChannel := secureChannel c; discoverable := discoverable c;
  subjectIdType := subjectIdType c; subjectUuid := subjectUuid c; payload := payload c |}.

Class PolicyEnv := {
  with_tls_build : bool;                      (* __WITH_DTLS__ or __WITH_TLS__ *)
  multiple_owner : bool;                      (* MULTIPLE_OWNER *)
  localtime_now : tm;
  stack_garbage : list Z;                     (* ParseRecur's uninitialised buffer *)
  GetEndpointRoles : option CAEndpoint_t -> OCStackResult * list OicSecRole_t;
  CAGetSecureEndpointAttributes : CAEndpoint_t -> option Z;
  IsValidCredentialAccessForSubOwner : OicUuid_t -> list Z -> bool;
  IsValidAclAccessForSubOwner : OicUuid_t -> list Z -> bool;
}.

Definition GetPermissionFromCAMethod_t (method : Z) : Z :=
  if method =? CA_GET then PERMISSION_READ
  else if method =? CA_POST then PERMISSION_WRITE
  else if method =? CA_PUT then PERMISSION_CREATE
  else if method =? CA_DELETE then PERMISSION_DELETE
  else PERMISSION_FULL_CONTROL.

Section PolicyEngine.
Context `{PolicyEnv}.

(** ** Who is asking *)

Definition IsRequestFromDevOwner (s : svr) (context : SRMRequestContext_t) : bool :=
  if IsNilUuid (Some (subjectUuid context)) then false
  else
    match gDoxm s with
    | Some doxm => UuidCmp (Some (owner doxm)) (Some (subjectUuid context))
    | None => false
    end.

Definition IsRequestFromOwnershipTransferSession (context : SRMRequestContext_t) : bool :=
  if with_tls_build then
    match endPoint context with
    | Some ep =>
        match CAGetSecureEndpointAttributes ep with
        | Some allAttributes =>
            negb (allAttributes &&& CA_SECURE_ENDPOINT_ATTRIBUTE_ADMINISTRATOR =? 0)
        | None => false
        end
    | None => false
    end
  else false.

Definition IsRequestFromSubOwner (s : svr) (context : SRMRequestContext_t) : bool :=
  if IsNilUuid (Some (subjectUuid context)) then false
  else IsSubOwner s (Some (subjectUuid context)).

Definition IsValidRequestFromSubOwner (context : SRMRequestContext_t) : bool :=
  let ty := resourceType context in
  if ty =? OIC_R_DOXM_TYPE then PERMISSION_READ =? requestedPermission context
  else if ty =? OIC_R_PSTAT_TYPE then true
  else if ty =? OIC_R_CRED_TYPE then
    IsValidCredentialAccessForSubOwner (subjectUuid context) (payload context)
  else if ty =? OIC_R_ACL_TYPE then
    IsValidAclAccessForSubOwner (subjectUuid context) (payload context)
  else true.

(** The table [GetSvrRownerId], indexed by the resource type. *)
Definition GetSvrRownerId (s : svr) (ty : Z) : OCStackResult * option OicUuid_t :=
  let out := Some THE_NIL_UUID in
  if ty =? OIC_R_ACL_TYPE then GetAclRownerId s out
  else if ty =? OIC_R_CRED_TYPE then GetCredRownerId s out
  else if ty =? OIC_R_DOXM_TYPE then GetDoxmRownerId s out
  else if ty =? OIC_R_PSTAT_TYPE then GetPstatRownerId s out
  else if ty =? OIC_R_ACL2_TYPE then GetAclRownerId s out
  else (OC_STACK_ERROR, out).

(** The comparison shared by the resource owner tests. *)
Definition subject_is (context : SRMRequestContext_t)
    (r : OCStackResult * option OicUuid_t) : bool :=
  if negb (SUBJECT_ID_TYPE_UUID =? subjectIdType context) then false
  else if IsNilUuid (Some (subjectUuid context)) then false
  else if decide (r.1 = OC_STACK_OK) then UuidCmp (Some (subjectUuid context)) r.2 else false.

Definition IsRequestFromResourceOwner (s : svr) (context : SRMRequestContext_t) : bool :=
  if negb (SUBJECT_ID_TYPE_UUID =? subjectIdType context) then false
  else if IsNilUuid (Some (subjectUuid context)) then false
  else if (OIC_R_ACL_TYPE <=? resourceType context)
          && (resourceType context <? OIC_SEC_SVR_TYPE_COUNT) then
    subject_is context (GetSvrRownerId s (resourceType context))
  else false.

Definition IsRequestFromDoxs (s : svr) (context : SRMRequestContext_t) : bool :=
  subject_is context (GetDoxmRownerId s (Some THE_NIL_UUID)).
Definition IsRequestFromAms (s : svr) (context : SRMRequestContext_t) : bool :=
  subject_is context (GetAclRownerId s (Some THE_NIL_UUID)).
Definition IsRequestFromCms (s : svr) (context : SRMRequestContext_t) : bool :=
  subject_is context (GetCredRownerId s (Some THE_NIL_UUID)).

(** ** One entry *)

Definition IsPermissionAllowingRequest (perm request : Z) : bool := request =? request &&& perm.

Definition IsWildCardSubject (subj : option OicUuid_t) : bool :=
  match subj with None => false | Some u => bool_decide (u = WILDCARD_SUBJECT_ID) end.

(** The inner [for] loop over the recurrences of one validity. *)
Fixpoint any_recurrence (period : option (list Z)) (rs : list (option (list Z))) : ub bool :=
  match rs with
  | [] => Some false
  | r :: rs' =>
      v ← IsRequestWithinValidTime stack_garbage localtime_now period r;
      if decide (v = IOTVTICAL_VALID_ACCESS) then Some true else any_recurrence period rs'
  end.

Fixpoint any_validity (vs : list OicSecValidity_t) : ub bool :=
  match vs with
  | [] => Some false
  | v :: vs' =>
      ok ← any_recurrence (period v) (default [] (recurrences v));
      if (ok : bool) then Some true else any_validity vs'
  end.

Definition IsAccessWithinValidTime (ace : option OicSecAce_t) : ub bool :=
  match ace with
  | None => Some true
  | Some a =>
      match validities a with
      | [] => Some true
      | v :: _ =>
          match recurrences v with
          | None => Some false
          | Some _ => any_validity (validities a)
          end
      end
  end.

Fixpoint rsrc_in_list (context : SRMRequestContext_t) (rs : list OicSecRsrc_t) : bool :=
  match rs with
  | [] => false
  | r :: rs' =>
      match href r with
      | None =>
          if negb (bool_decide (NO_WILDCARD = wildcard r)) &&
             (bool_decide (ALL_RESOURCES = wildcard r)
              || bool_decide (ALL_DISCOVERABLE = wildcard r)
                 && bool_decide (DISCOVERABLE_TRUE = discoverable context)
              || bool_decide (ALL_NON_DISCOVERABLE = wildcard r)
                 && bool_decide (DISCOVERABLE_FALSE = discoverable context))
          then true else rsrc_in_list context rs'
      | Some h =>
          if bool_decide (resourceUri context = h) || bool_decide (WILDCARD_RESOURCE_URI = h)
          then true else rsrc_in_list context rs'
      end
  end.

Definition IsResourceInAce (context : option SRMRequestContext_t) (ace : option OicSecAce_t)
    : bool :=
  match context, ace with
  | Some c, Some a => rsrc_in_list c (resources a)
  | _, _ => false
  end.

Definition ProcessMatchingACE (context : SRMRequestContext_t) (currentAce : OicSecAce_t)
    : ub SRMRequestContext_t :=
  let context := set_responseVal ACCESS_DENIED_RESOURCE_NOT_FOUND context in
  if IsResourceInAce (Some context) (Some currentAce) then
    let context := set_responseVal ACCESS_DENIED_INVALID_PERIOD context in
    valid ← IsAccessWithinValidTime (Some currentAce);
    if (valid : bool) then
      let context := set_responseVal ACCESS_DENIED_INSUFFICIENT_PERMISSION context in
      if IsPermissionAllowingRequest (permission currentAce) (requestedPermission context) then
        Some (set_responseVal ACCESS_GRANTED context)
      else Some context
    else Some context
  else Some context.

(** ** The loops over the entries *)

(** [do ... while ((NULL != currentAce) && !IsAccessGranted(...))] over one of
    the lookups; [fuel] bounds the number of calls. *)
Fixpoint ace_loop (step : option loc -> option OicSecAce_t * option loc) (sp : option loc)
    (context : SRMRequestContext_t) (fuel : nat) : ub SRMRequestContext_t :=
  match fuel with
  | O => None
  | S fuel =>
      let '(currentAce, sp) := step sp in
      match currentAce with
      | None => Some context
      | Some ace =>
          context ← ProcessMatchingACE context ace;
          if IsAccessGranted (responseVal context) then Some context
          else ace_loop step sp context fuel
      end
  end.

(** No ACE is returned twice, so this many calls always suffice. *)
Definition ace_fuel (s : svr) : nat := S (length (all_aces (gAcl s))).

Definition ProcessAccessRequest (s : svr) (context : SRMRequestContext_t)
    : ub SRMRequestContext_t :=
  let context := set_responseVal ACCESS_DENIED_SUBJECT_NOT_FOUND context in
  let conntype := if secureChannel context then AUTH_CRYPT else ANON_CLEAR in
  context ← ace_loop (by_conntype (gAcl s) conntype) None context (ace_fuel s);
  context ← (if negb (IsAccessGranted (responseVal context)) then
    ace_loop (by_subject (gAcl s) (subjectUuid context)) None context (ace_fuel s)
  else Some context);
  if with_tls_build && negb (IsAccessGranted (responseVal context)) then
    let '(res, roles) := GetEndpointRoles (endPoint context) in
    if decide (res = OC_STACK_OK) then
      ace_loop (by_roles (gAcl s) (Some roles)) None context (ace_fuel s)
    else Some context
  else Some context.

(** ** The entry point *)

Definition CheckPermission (s : svr) (context : SRMRequestContext_t) : ub SRMRequestContext_t :=
  if (requestedPermission context =? 0)
     || negb (requestedPermission context &&& compl32 PERMISSION_FULL_CONTROL =? 0) then None
  else
    let context := set_responseVal ACCESS_DENIED_POLICY_ENGINE_ERROR context in
    match GetDos s (Some {| state := DOS_RESET; pending := false |}) with
    | (OC_STACK_OK, Some d) =>
        let ty := resourceType context in
        if IsRequestFromDevOwner s context
           && (bool_decide (DOS_RFOTM = state d) || bool_decide (DOS_SRESET = state d))
           && negb (NOT_A_SVR_RESOURCE =? ty)
        then Some (set_responseVal ACCESS_GRANTED context)
        else if IsRequestFromResourceOwner s context
        then Some (set_responseVal ACCESS_GRANTED context)
        else if multiple_owner && IsRequestFromSubOwner s context
        then Some (if IsValidRequestFromSubOwner context
                   then set_responseVal ACCESS_GRANTED context else context)
        else if negb (bool_decide (DOS_RFNOP = state d)) && negb (NOT_A_SVR_RESOURCE =? ty)
                && IsRequestFromOwnershipTransferSession context
        then Some (set_responseVal ACCESS_GRANTED context)
        else if ((OIC_R_DOXM_TYPE =? ty) || (OIC_R_PSTAT_TYPE =? ty) || (OIC_R_CRED_TYPE =? ty)
                 || (OIC_R_ACL_TYPE =? ty)) && IsRequestFromDoxs s context
        then Some (set_responseVal ACCESS_GRANTED context)
        else if (OIC_R_PSTAT_TYPE =? ty) && IsRequestFromAms s context
        then Some (set_responseVal ACCESS_GRANTED context)
        else if (OIC_R_PSTAT_TYPE =? ty) && IsRequestFromCms s context
        then Some (set_responseVal ACCESS_GRANTED context)
        else ProcessAccessRequest s context
    | _ => Some context
    end.

(** ** One entry, specified *)

(** The strings of an entry that the validity test can parse. *)
Definition validity_ok (v : OicSecValidity_t) : Prop :=
  (forall p, period v = Some p -> 0 ∉ p) /\
  Forall (fun r => forall rl, r = Some rl -> rule_ok rl) (default [] (recurrences v)).
Definition ace_ok (a : OicSecAce_t) : Prop := Forall validity_ok (validities a).

(** [a] covers the resource, the time and the permission of the request. *)
Definition ace_allows (c : SRMRequestContext_t) (a : OicSecAce_t) : bool :=
  rsrc_in_list c (resources a)
  && bool_decide (IsAccessWithinValidTime (Some a) = Some true)
  && IsPermissionAllowingRequest (permission a) (requestedPermission c).

Lemma any_recurrence_defined per rs :
  length stack_garbage = 50%nat -> (forall p, per = Some p -> 0 ∉ p) ->
  Forall (fun r => forall rl, r = Some rl -> rule_ok rl) rs -> is_Some (any_recurrence per rs).
Proof.
  intros Hg Hp. induction 1 as [|r rs Hr _ IH]; [by eexists|]. cbn [any_recurrence].
  destruct (IsRequestWithinValidTime_defined stack_garbage localtime_now per r Hg Hp Hr) as [v ->].
  cbn [mbind option_bind]. case_decide; [by eexists|done].
Qed.

Lemma valid_time_defined a : length stack_garbage = 50%nat -> ace_ok a ->
  is_Some (IsAccessWithinValidTime (Some a)).
Proof.
  intros Hg Hok. unfold ace_ok in Hok. unfold IsAccessWithinValidTime.
  destruct (validities a) as [|v vs] eqn:E; [by eexists|].
  destruct (recurrences v); [|by eexists].
  clear E. induction Hok as [|w ws [Hp Hr] _ IH]; [by eexists|]. cbn [any_validity].
  destruct (any_recurrence_defined (period w) (default [] (recurrences w)) Hg Hp Hr) as [b ->].
  cbn [mbind option_bind]. destruct b; [by eexists|done].
Qed.

Lemma rsrc_in_list_responseVal v c rs : rsrc_in_list (set_responseVal v c) rs = rsrc_in_list c rs.
Proof. induction rs as [|r rs IH]; [done|]. cbn [rsrc_in_list]. by rewrite IH. Qed.

Lemma ace_allows_responseVal v c a : ace_allows (set_responseVal v c) a = ace_allows c a.
Proof. unfold ace_allows. by rewrite rsrc_in_list_responseVal. Qed.

Lemma set_responseVal_twice v w c : set_responseVal v (set_responseVal w c) = set_responseVal v c.
Proof. done. Qed.

Lemma process_ace c a : length stack_garbage = 50%nat -> ace_ok a ->
  exists v, ProcessMatchingACE c a = Some (set_responseVal v c) /\
    IsAccessGranted v = ace_allows c a.
Proof.
  intros Hg Hok. unfold ProcessMatchingACE, IsResourceInAce, ace_allows.
  rewrite rsrc_in_list_responseVal. destruct (rsrc_in_list c (resources a)); [|by eexists].
  destruct (valid_time_defined a Hg Hok) as [b Hb]. rewrite Hb. cbn [mbind option_bind].
  destruct b; [rewrite bool_decide_eq_true_2 by done|rewrite bool_decide_eq_false_2 by done;
    by eexists].
  cbn [requestedPermission set_responseVal].
  destruct (IsPermissionAllowingRequest _ _); by eexists.
Qed.

(** ** The loops, against the iterator interface *)

Lemma ace_loop_visits step sp l c fuel :
  visits step sp l -> (length l < fuel)%nat -> length stack_garbage = 50%nat -> Forall ace_ok l ->
  exists v, ace_loop step sp c fuel = Some (set_responseVal v c) /\
    (l = [] -> v = responseVal c) /\
    (IsAccessGranted (responseVal c) = false -> IsAccessGranted v = existsb (ace_allows c) l).
Proof.
  intros Hv. revert c fuel. induction Hv as [sp Hstep|sp a p l Hstep _ IH];
    intros c [|fuel] Hf Hg Hok; [simpl in Hf; lia| |simpl in Hf; lia|].
  - cbn [ace_loop]. rewrite Hstep. exists (responseVal c). split; [by destruct c|done].
  - apply Forall_cons in Hok as [Ha Hl]. cbn [ace_loop]. rewrite Hstep.
    destruct (process_ace c a Hg Ha) as (v & -> & Hgr). cbn [mbind option_bind existsb responseVal set_responseVal].
    destruct (IsAccessGranted v) eqn:E.
    + exists v. split; [done|]. split; [done|]. intros _. by rewrite <- Hgr, E.
    + destruct (IH (set_responseVal v c) fuel) as (w & -> & _ & Hw); [simpl in Hf; lia|done|done|].
      rewrite set_responseVal_twice. exists w. split; [done|]. split; [done|]. intros _.
      rewrite <- Hgr, orb_false_l, (Hw E).
      clear. induction l as [|b l IHl]; [done|]. cbn [existsb].
      by rewrite ace_allows_responseVal, IHl.
Qed.

Lemma existsb_filter (f g : OicSecAce_t -> bool) l :
  existsb g (filter (fun a => f a = true) l) = existsb (fun a => f a && g a) l.
Proof.
  induction l as [|a l IH]; [done|]. cbn [existsb]. destruct (f a) eqn:E.
  - rewrite filter_cons_True by done. cbn [existsb]. by rewrite IH.
  - rewrite filter_cons_False by congruence. by rewrite IH.
Qed.

(** The loop over the lookup that selects by [f], whichever it is. *)
Lemma ace_loop_iterator step f c s :
  AceIterator step (filter (fun a => f a = true) (all_aces (gAcl s))) ->
  length stack_garbage = 50%nat -> Forall ace_ok (all_aces (gAcl s)) ->
  IsAccessGranted (responseVal c) = false ->
  exists v, ace_loop step None c (ace_fuel s) = Some (set_responseVal v c) /\
    IsAccessGranted v = existsb (fun a => f a && ace_allows c a) (all_aces (gAcl s)).
Proof.
  intros [Hv] Hg Hok Hden.
  destruct (ace_loop_visits step None _ c (ace_fuel s) Hv) as (v & Hl & _ & Hgr).
  - unfold ace_fuel. pose proof (length_filter (fun a => f a = true) (all_aces (gAcl s))). lia.
  - done.
  - rewrite Forall_forall in Hok |- *. intros x Hx. apply Hok.
    by apply list_elem_of_filter in Hx as [_ ?].
  - exists v. split; [done|]. rewrite (Hgr Hden). apply existsb_filter.
Qed.

(** ** The access control list decides *)

(** The entry names the channel, the subject or an asserted role. *)
Definition ace_matches (c : SRMRequestContext_t) (a : OicSecAce_t) : bool :=
  conntype_matches (if secureChannel c then AUTH_CRYPT else ANON_CLEAR) a
  || subject_matches (subjectUuid c) a
  || with_tls_build && bool_decide ((GetEndpointRoles (endPoint c)).1 = OC_STACK_OK)
     && role_matches (GetEndpointRoles (endPoint c)).2 a.

Definition acl_allows (s : svr) (c : SRMRequestContext_t) : bool :=
  existsb (fun a => ace_matches c a && ace_allows c a) (all_aces (gAcl s)).

(** The resources are well formed. *)
Definition policy_ok (s : svr) : Prop :=
  acl_ok (gAcl s) /\ Forall ace_ok (all_aces (gAcl s)) /\ length stack_garbage = 50%nat.

Lemma existsb_orb (f g : OicSecAce_t -> bool) l :
  existsb (fun a => f a || g a) l = existsb f l || existsb g l.
Proof.
  induction l as [|a l IH]; [done|]. cbn [existsb]. rewrite IH.
  destruct (f a), (g a), (existsb f l); done.
Qed.

Lemma existsb_eq (f g : OicSecAce_t -> bool) l : (forall a, f a = g a) -> existsb f l = existsb g l.
Proof. intros He. induction l as [|a l IH]; [done|]. cbn [existsb]. by rewrite He, IH. Qed.

Lemma acl_allows_split s c :
  acl_allows s c =
    existsb (fun a => conntype_matches (if secureChannel c then AUTH_CRYPT else ANON_CLEAR) a
                      && ace_allows c a) (all_aces (gAcl s))
    || existsb (fun a => subject_matches (subjectUuid c) a && ace_allows c a) (all_aces (gAcl s))
    || (with_tls_build && bool_decide ((GetEndpointRoles (endPoint c)).1 = OC_STACK_OK)
        && existsb (fun a => role_matches (GetEndpointRoles (endPoint c)).2 a && ace_allows c a)
             (all_aces (gAcl s))).
Proof.
  unfold acl_allows, ace_matches. set (b := with_tls_build && _).
  rewrite (existsb_eq _ (fun a =>
    conntype_matches (if secureChannel c then AUTH_CRYPT else ANON_CLEAR) a && ace_allows c a
    || subject_matches (subjectUuid c) a && ace_allows c a
    || (b && role_matches (GetEndpointRoles (endPoint c)).2 a) && ace_allows c a))
    by (intros a; by rewrite !andb_orb_distrib_l).
  rewrite !existsb_orb. f_equal.
  destruct b; cbn [andb]; [done|]. by induction (all_aces (gAcl s)).
Qed.

Lemma allows_ext f v c l :
  existsb (fun a => f a && ace_allows (set_responseVal v c) a) l
    = existsb (fun a => f a && ace_allows c a) l.
Proof. apply existsb_eq. intros a. by rewrite ace_allows_responseVal. Qed.

Lemma run_process_request s c : policy_ok s ->
  exists v, ProcessAccessRequest s c = Some (set_responseVal v c) /\
    IsAccessGranted v = acl_allows s c.
Proof.
  intros (Hacl & Haces & Hg). rewrite acl_allows_split. unfold ProcessAccessRequest.
  set (c0 := set_responseVal ACCESS_DENIED_SUBJECT_NOT_FOUND c).
  destruct (ace_loop_iterator _ _ c0 s (by_conntype_iterator (gAcl s)
    (if secureChannel c then AUTH_CRYPT else ANON_CLEAR) Hacl) Hg Haces eq_refl) as (v1 & H1 & G1).
  change (secureChannel c0) with (secureChannel c). rewrite H1. cbn [mbind option_bind].
  unfold c0 in *. rewrite set_responseVal_twice in *. cbn [responseVal set_responseVal subjectUuid endPoint].
  rewrite allows_ext in G1.
  rewrite <- G1. destruct (IsAccessGranted v1) eqn:E1; cbn [negb orb].
  { cbn [mbind option_bind]. cbn [responseVal set_responseVal]. rewrite E1.
    cbn [negb]. rewrite andb_false_r. by exists v1. }
  destruct (ace_loop_iterator _ _ (set_responseVal v1 c) s
    (by_subject_iterator (gAcl s) (subjectUuid c) Hacl) Hg Haces E1) as (v2 & H2 & G2).
  rewrite H2. cbn [mbind option_bind]. rewrite set_responseVal_twice.
  cbn [responseVal set_responseVal endPoint].
  rewrite allows_ext in G2.
  rewrite <- G2. destruct (IsAccessGranted v2) eqn:E2; cbn [negb orb].
  { rewrite andb_false_r. by exists v2. }
  rewrite andb_true_r. destruct with_tls_build; cbn [andb]; [|by exists v2].
  destruct (GetEndpointRoles (endPoint c)) as [res roles]. cbn [fst snd].
  case_decide as Hres; [rewrite bool_decide_eq_true_2 by done|
    rewrite bool_decide_eq_false_2 by done; by exists v2].
  destruct (ace_loop_iterator _ _ (set_responseVal v2 c) s
    (by_roles_iterator (gAcl s) (Some roles) Hacl) Hg Haces E2) as (v3 & H3 & G3).
  rewrite H3, set_responseVal_twice. exists v3. split; [done|]. by rewrite G3, allows_ext.
Qed.

(** on a well-formed access control list the three loops terminate, and the
    request is granted if and only if some entry that names the requester - by
    connection type, by subject UUID or by an asserted role - covers the
    resource, the current time and the requested permission. *)
Theorem ProcessAccessRequest_spec (s : svr) (c : SRMRequestContext_t) :
  policy_ok s ->
  exists v, ProcessAccessRequest s c = Some (set_responseVal v c) /\
    IsAccessGranted v = acl_allows s c.
Proof. apply run_process_request. Qed.

(** ** Implicit access *)

(** The requester is identified, not by the nil UUID, and is [u]. *)
Definition names (c : SRMRequestContext_t) (u : OicUuid_t) : Prop :=
  subjectIdType c = SUBJECT_ID_TYPE_UUID /\ u = subjectUuid c /\ u <> THE_NIL_UUID.

(** [u] is the resource owner of the secure virtual resource of type [ty]. *)
Inductive rowner_of (s : svr) (u : OicUuid_t) : Z -> Prop :=
| rowner_acl a : gAcl s = Some a -> acl_rownerID a = u -> rowner_of s u OIC_R_ACL_TYPE
| rowner_acl2 a : gAcl s = Some a -> acl_rownerID a = u -> rowner_of s u OIC_R_ACL2_TYPE
| rowner_cred : gRownerId s = u -> rowner_of s u OIC_R_CRED_TYPE
| rowner_doxm d : gDoxm s = Some d -> rownerID d = u -> rowner_of s u OIC_R_DOXM_TYPE
| rowner_pstat p : gPstat s = Some p -> pstat_rownerID p = u -> rowner_of s u OIC_R_PSTAT_TYPE.

(** Who may do anything to which resource, whatever the ACL says; [st] is the
    onboarding state. *)
Inductive entitled (s : svr) (st : OicSecDeviceOnboardingState_t) (c : SRMRequestContext_t) : Prop :=
| device_owner d :
    st = DOS_RFOTM \/ st = DOS_SRESET -> resourceType c <> NOT_A_SVR_RESOURCE ->
    gDoxm s = Some d -> owner d = subjectUuid c -> owner d <> THE_NIL_UUID -> entitled s st c
| resource_owner u : rowner_of s u (resourceType c) -> names c u -> entitled s st c
| ownership_transfer :
    st <> DOS_RFNOP -> resourceType c <> NOT_A_SVR_RESOURCE ->
    IsRequestFromOwnershipTransferSession c = true -> entitled s st c
| doxs u :
    resourceType c ∈ [OIC_R_DOXM_TYPE; OIC_R_PSTAT_TYPE; OIC_R_CRED_TYPE; OIC_R_ACL_TYPE] ->
    rowner_of s u OIC_R_DOXM_TYPE -> names c u -> entitled s st c
| ams u : resourceType c = OIC_R_PSTAT_TYPE -> rowner_of s u OIC_R_ACL_TYPE -> names c u ->
    entitled s st c
| cms u : resourceType c = OIC_R_PSTAT_TYPE -> rowner_of s u OIC_R_CRED_TYPE -> names c u ->
    entitled s st c.

Lemma IsNilUuid_true u : IsNilUuid (Some u) = bool_decide (u = THE_NIL_UUID).
Proof. done. Qed.

Lemma subject_is_spec c r :
  subject_is c r = true <-> exists u, r = (OC_STACK_OK, Some u) /\ names c u.
Proof.
  unfold subject_is, names, UuidCmp. rewrite IsNilUuid_true.
  destruct (Z.eqb_spec SUBJECT_ID_TYPE_UUID (subjectIdType c)) as [Ht|Ht]; cbn [negb].
  - case_bool_decide as Hn; [split; [done|]; intros (u & -> & _ & -> & Hu); done|].
    destruct r as [r1 [u|]]; cbn [fst snd].
    + case_decide as Hr; [|split; [done|]; by intros (v & [= -> ->] & _)].
      rewrite bool_decide_eq_true. split.
      * intros Hu. exists u. subst r1 u. done.
      * intros (v & Heq & _ & Hv & _). congruence.
    + split; [by case_decide|]. by intros (u & [=] & _).
  - split; [done|]. intros (u & _ & Hid & _). congruence.
Qed.

Lemma getter_rowner s ty u :
  GetSvrRownerId s ty = (OC_STACK_OK, Some u) <-> rowner_of s u ty.
Proof.
  unfold GetSvrRownerId, GetAclRownerId, GetCredRownerId, GetDoxmRownerId, GetPstatRownerId, get_out.
  split.
  - destruct (Z.eqb_spec ty OIC_R_ACL_TYPE) as [->|].
    { destruct (gAcl s) as [a|] eqn:E; [|done]. intros [= <-]. by eapply rowner_acl. }
    destruct (Z.eqb_spec ty OIC_R_CRED_TYPE) as [->|]; [intros [= <-]; by apply rowner_cred|].
    destruct (Z.eqb_spec ty OIC_R_DOXM_TYPE) as [->|].
    { destruct (gDoxm s) as [a|] eqn:E; [|done]. intros [= <-]. by eapply rowner_doxm. }
    destruct (Z.eqb_spec ty OIC_R_PSTAT_TYPE) as [->|].
    { destruct (gPstat s) as [a|] eqn:E; [|done]. intros [= <-]. by eapply rowner_pstat. }
    destruct (Z.eqb_spec ty OIC_R_ACL2_TYPE) as [->|]; [|done].
    destruct (gAcl s) as [a|] eqn:E; [|done]. intros [= <-]. by eapply rowner_acl2.
  - by intros [a -> <-|a -> <-|<-|d -> <-|p -> <-].
Qed.

Lemma resource_owner_spec s c :
  IsRequestFromResourceOwner s c = true <-> exists u, rowner_of s u (resourceType c) /\ names c u.
Proof.
  assert (Hs : subject_is c (GetSvrRownerId s (resourceType c)) = true <->
    exists u, rowner_of s u (resourceType c) /\ names c u).
  { rewrite subject_is_spec. by setoid_rewrite getter_rowner. }
  unfold IsRequestFromResourceOwner. rewrite <- Hs. clear Hs.
  destruct (negb (SUBJECT_ID_TYPE_UUID =? subjectIdType c)) eqn:E1.
  { unfold subject_is. by rewrite E1. }
  destruct (IsNilUuid (Some (subjectUuid c))) eqn:E2.
  { unfold subject_is. by rewrite E1, E2. }
  destruct (_ && _) eqn:E3; [done|]. split; [done|].
  rewrite subject_is_spec. intros (u & Hu%getter_rowner & _). exfalso.
  apply andb_false_iff in E3 as [E3%Z.leb_gt|E3%Z.ltb_ge]; inversion Hu as [? ? ? Hx|? ? ? Hx|? Hx|? ? ? Hx|? ? ? Hx];
    rewrite <- Hx in E3; unfold OIC_R_ACL_TYPE, OIC_R_ACL2_TYPE, OIC_R_CRED_TYPE, OIC_R_DOXM_TYPE,
      OIC_R_PSTAT_TYPE, OIC_SEC_SVR_TYPE_COUNT in E3; lia.
Qed.

Lemma dev_owner_spec s c :
  IsRequestFromDevOwner s c = true <->
  exists d, gDoxm s = Some d /\ owner d = subjectUuid c /\ owner d <> THE_NIL_UUID.
Proof.
  unfold IsRequestFromDevOwner, UuidCmp. rewrite IsNilUuid_true. case_bool_decide as Hn.
  - split; [done|]. intros (d & _ & Ho & Hne). congruence.
  - destruct (gDoxm s) as [d|].
    + rewrite bool_decide_eq_true. split; [intros Ho; exists d; split_and!; congruence|].
      by intros (d' & [= <-] & Ho & _).
    + split; [done|]. by intros (d & ? & _).
Qed.

(** The getters of the three service owners are entries of the table. *)
Lemma service_owner_spec s c ty r :
  r = GetSvrRownerId s ty -> subject_is c r = true <-> exists u, rowner_of s u ty /\ names c u.
Proof. intros ->. rewrite subject_is_spec. by setoid_rewrite getter_rowner. Qed.

(** A request that asks for some of the five permissions and no other bit. *)
Definition permission_ok (c : SRMRequestContext_t) : Prop :=
  requestedPermission c <> 0 /\ requestedPermission c &&& compl32 PERMISSION_FULL_CONTROL = 0.

Lemma acl_allows_responseVal s v c : acl_allows s (set_responseVal v c) = acl_allows s c.
Proof. unfold acl_allows. apply (allows_ext (ace_matches c)). Qed.

(** The tests of [CheckPermission] that grant without an entry. *)
Definition implicitly (s : svr) (st : OicSecDeviceOnboardingState_t) (c : SRMRequestContext_t)
    : bool :=
  let ty := resourceType c in
  (IsRequestFromDevOwner s c && (bool_decide (DOS_RFOTM = st) || bool_decide (DOS_SRESET = st))
   && negb (NOT_A_SVR_RESOURCE =? ty))
  || IsRequestFromResourceOwner s c
  || (negb (bool_decide (DOS_RFNOP = st)) && negb (NOT_A_SVR_RESOURCE =? ty)
      && IsRequestFromOwnershipTransferSession c)
  || (((OIC_R_DOXM_TYPE =? ty) || (OIC_R_PSTAT_TYPE =? ty) || (OIC_R_CRED_TYPE =? ty)
       || (OIC_R_ACL_TYPE =? ty)) && IsRequestFromDoxs s c)
  || ((OIC_R_PSTAT_TYPE =? ty) && IsRequestFromAms s c)
  || ((OIC_R_PSTAT_TYPE =? ty) && IsRequestFromCms s c).

Lemma implicitly_sound s st c : implicitly s st c = true -> entitled s st c.
Proof.
  unfold implicitly. rewrite !orb_true_iff. intros [[[[[E1|E2]|E3]|E4]|E5]|E6].
  - bool_to_prop. apply orb_true_iff in H2. rewrite !bool_decide_eq_true in H2.
    apply dev_owner_spec in H0 as (d & Hd & Ho & Hn).
    eapply device_owner; [naive_solver|congruence|done|done|done].
  - apply resource_owner_spec in E2 as (u & Hu & Hn). by eapply resource_owner.
  - bool_to_prop. by apply ownership_transfer; [congruence..|].
  - apply andb_true_iff in E4 as [Et E4].
    apply (service_owner_spec s c OIC_R_DOXM_TYPE) in E4 as (u & Hu & Hn); [|done].
    eapply doxs; [|done|done]. rewrite !orb_true_iff, !Z.eqb_eq in Et. set_solver.
  - bool_to_prop. apply (service_owner_spec s c OIC_R_ACL_TYPE) in H1 as (u & Hu & Hn); [|done].
    by eapply ams.
  - bool_to_prop. apply (service_owner_spec s c OIC_R_CRED_TYPE) in H1 as (u & Hu & Hn); [|done].
    by eapply cms.
Qed.

Lemma implicitly_complete s st c : entitled s st c -> implicitly s st c = true.
Proof.
  unfold implicitly.
  intros [d Hst Hty Hd Ho Hn|u Hu Hn|Hst Hty Hot|u Hty Hu Hn|u Hty Hu Hn|u Hty Hu Hn].
  - assert (IsRequestFromDevOwner s c = true) as -> by (apply dev_owner_spec; eauto).
    rewrite (proj2 (Z.eqb_neq _ _)) by congruence. destruct Hst as [-> | ->]; simpl; done.
  - assert (IsRequestFromResourceOwner s c = true) as -> by (apply resource_owner_spec; eauto).
    by rewrite !orb_true_r.
  - rewrite (bool_decide_eq_false_2 (DOS_RFNOP = st)), (proj2 (Z.eqb_neq NOT_A_SVR_RESOURCE _)),
      Hot by congruence. by rewrite !orb_true_r.
  - assert (IsRequestFromDoxs s c = true) as ->
      by (apply (service_owner_spec s c OIC_R_DOXM_TYPE); eauto).
    assert ((OIC_R_DOXM_TYPE =? resourceType c) || (OIC_R_PSTAT_TYPE =? resourceType c)
      || (OIC_R_CRED_TYPE =? resourceType c) || (OIC_R_ACL_TYPE =? resourceType c) = true) as ->
      by (rewrite !orb_true_iff, !Z.eqb_eq; set_solver).
    by rewrite !orb_true_r.
  - assert (IsRequestFromAms s c = true) as ->
      by (apply (service_owner_spec s c OIC_R_ACL_TYPE); eauto).
    rewrite Hty. simpl. by rewrite !orb_true_r.
  - assert (IsRequestFromCms s c = true) as ->
      by (apply (service_owner_spec s c OIC_R_CRED_TYPE); eauto).
    rewrite Hty. simpl. by rewrite !orb_true_r.
Qed.

(** Without sub-owners: implicit access, else the entries. *)
Lemma CheckPermission_run s c p :
  multiple_owner = false -> permission_ok c -> gPstat s = Some p ->
  let c0 := set_responseVal ACCESS_DENIED_POLICY_ENGINE_ERROR c in
  CheckPermission s c = if implicitly s (state (dos p)) c
    then Some (set_responseVal ACCESS_GRANTED c0) else ProcessAccessRequest s c0.
Proof.
  intros Hmo [Hp1 Hp2] Hps c0. unfold CheckPermission.
  rewrite (proj2 (Z.eqb_neq _ _)), Hp2 by done. cbn [negb orb Z.eqb].
  unfold GetDos, GetPstatDosS, GetPstatDosP, get_out. rewrite Hps. cbn [state pending].
  fold c0. rewrite Hmo. cbn [andb]. unfold implicitly.
  change (resourceType c0) with (resourceType c).
  change (IsRequestFromDevOwner s c0) with (IsRequestFromDevOwner s c).
  change (IsRequestFromResourceOwner s c0) with (IsRequestFromResourceOwner s c).
  change (IsRequestFromOwnershipTransferSession c0) with (IsRequestFromOwnershipTransferSession c).
  change (IsRequestFromDoxs s c0) with (IsRequestFromDoxs s c).
  change (IsRequestFromAms s c0) with (IsRequestFromAms s c).
  change (IsRequestFromCms s c0) with (IsRequestFromCms s c).
  repeat match goal with
  | |- (if ?b then _ else _) = _ => destruct b; cbn [orb]; [by rewrite ?orb_true_r|]
  end; done.
Qed.

Lemma check_permission s c p :
  multiple_owner = false -> policy_ok s -> permission_ok c -> gPstat s = Some p ->
  exists c', CheckPermission s c = Some c' /\
    (IsAccessGranted (responseVal c') = true <->
     entitled s (state (dos p)) c \/ acl_allows s c = true).
Proof.
  intros Hmo Hok Hperm Hps. rewrite (CheckPermission_run s c p Hmo Hperm Hps). cbv zeta.
  set (c0 := set_responseVal _ c). destruct (implicitly s (state (dos p)) c) eqn:E.
  - eexists. split; [done|]. split; [|done]. intros _. left. by apply implicitly_sound.
  - destruct (run_process_request s c0 Hok) as (v & -> & Hgr). eexists. split; [done|].
    cbn [responseVal set_responseVal]. rewrite Hgr. unfold c0. rewrite acl_allows_responseVal.
    split; [by right|]. intros [He%implicitly_complete|]; [congruence|done].
Qed.

(** C1: without sub-owners, [CheckPermission] always reaches a decision on a
    well-formed device, and it grants the request if and only if the access
    control list allows it or the requester is one of: the device owner in
    RFOTM or SRESET, the resource owner of the addressed resource, an
    ownership transfer session outside RFNOP (all three on secure virtual
    resources only), the DOXS on doxm, pstat, cred and acl, or the AMS or CMS
    on pstat. *)
Theorem CheckPermission_spec (s : svr) (c : SRMRequestContext_t) (p : OicSecPstat_t) :
  multiple_owner = false -> policy_ok s -> permission_ok c -> gPstat s = Some p ->
  exists c', CheckPermission s c = Some c' /\
    (IsAccessGranted (responseVal c') = true <->
     entitled s (state (dos p)) c \/ acl_allows s c = true).
Proof. apply check_permission. Qed.

(** with sub-owners, a sub-owner's request to acl2 is granted whatever
    its payload: the payload check that protects the entries of other owners
    is tied to the type of the older acl resource only. *)
Theorem subowner_acl2_unchecked (s : svr) (c : SRMRequestContext_t) (p : OicSecPstat_t) :
  multiple_owner = true -> permission_ok c -> gPstat s = Some p ->
  IsRequestFromSubOwner s c = true -> resourceType c = OIC_R_ACL2_TYPE ->
  exists c', CheckPermission s c = Some c' /\ responseVal c' = ACCESS_GRANTED.
Proof.
  intros Hmo [Hp1 Hp2] Hps Hso Hty. unfold CheckPermission.
  rewrite (proj2 (Z.eqb_neq _ _)), Hp2 by done. cbn [negb orb Z.eqb].
  unfold GetDos, GetPstatDosS, GetPstatDosP, get_out. rewrite Hps. cbn [state pending].
  set (c0 := set_responseVal _ c).
  change (IsRequestFromSubOwner s c0) with (IsRequestFromSubOwner s c). rewrite Hmo, Hso.
  assert (IsValidRequestFromSubOwner c0 = true) as ->
    by (unfold IsValidRequestFromSubOwner, c0; cbn [resourceType set_responseVal]; by rewrite Hty).
  cbn [andb]. repeat case_match; by eexists.
Qed.

(** an entry whose first validity has no recurrences never matches the
    time, whatever its period: the code denies where its comment says that
    access is valid "if the period or recurrence is not present". *)
Theorem period_without_recurrence_denied (a : OicSecAce_t) (v : OicSecValidity_t)
    (vs : list OicSecValidity_t) (c : SRMRequestContext_t) :
  validities a = v :: vs -> recurrences v = None ->
  IsAccessWithinValidTime (Some a) = Some false /\ ace_allows c a = false.
Proof.
  intros Hv Hr. assert (IsAccessWithinValidTime (Some a) = Some false) as Hf
    by (unfold IsAccessWithinValidTime; by rewrite Hv, Hr).
  split; [done|]. unfold ace_allows. rewrite Hf. rewrite bool_decide_eq_false_2 by done.
  by rewrite andb_false_r.
Qed.

End PolicyEngine.

(** ** Concrete instances *)

(** A TLS build at noon on a Monday, with or without sub-owners; nobody has
    asserted a role. *)
Definition plain_env (subowners : bool) : PolicyEnv := {|
  with_tls_build := true; multiple_owner := subowners; localtime_now := monday_noon;
  stack_garbage := replicate 50 7; GetEndpointRoles := fun _ => (OC_STACK_OK, []);
  CAGetSecureEndpointAttributes := fun _ => None;
  IsValidCredentialAccessForSubOwner := fun _ _ => false;
  IsValidAclAccessForSubOwner := fun _ _ => false |}.

Definition light_request (subj : OicUuid_t) (ty : Z) : SRMRequestContext_t := {|
  endPoint := None; resourceType := ty; resourceUri := chars "/a/light";
  requestedPermission := PERMISSION_WRITE; response_result := 0; responseSent := false;
  responseVal := 0; requestInfo := None; secureChannel := true;
  discoverable := DISCOVERABLE_TRUE; subjectIdType := SUBJECT_ID_TYPE_UUID;
  subjectUuid := subj; payload := [] |}.

Lemma sample_policy_ok b : @policy_ok (plain_env b) sample_svr.
Proof.
  split; [|split; [|reflexivity]].
  - unfold acl_ok. simpl. repeat constructor; set_solver.
  - repeat constructor.
Qed.

Lemma ProcessAccessRequest_spec_witness :
  exists v, @ProcessAccessRequest (plain_env false) sample_svr (light_request uuid_one NOT_A_SVR_RESOURCE)
      = Some (set_responseVal v (light_request uuid_one NOT_A_SVR_RESOURCE)) /\
    IsAccessGranted v = true.
Proof.
  apply (@ProcessAccessRequest_spec (plain_env false) sample_svr
           (light_request uuid_one NOT_A_SVR_RESOURCE)).
  exact (sample_policy_ok false).
Defined.

Lemma CheckPermission_spec_witness :
  exists c', @CheckPermission (plain_env false) sample_svr (light_request uuid_one OIC_R_PSTAT_TYPE)
      = Some c' /\
    (IsAccessGranted (responseVal c') = true <->
     @entitled (plain_env false) sample_svr DOS_RFPRO (light_request uuid_one OIC_R_PSTAT_TYPE) \/
     @acl_allows (plain_env false) sample_svr (light_request uuid_one OIC_R_PSTAT_TYPE) = true).
Proof.
  apply (@CheckPermission_spec (plain_env false) sample_svr
           (light_request uuid_one OIC_R_PSTAT_TYPE) sample_pstat).
  - reflexivity.
  - exact (sample_policy_ok false).
  - split; [discriminate|reflexivity].
  - reflexivity.
Defined.

Definition uuid_two : OicUuid_t := 2 :: replicate 15 0.

(** [sample_svr] with a second owner. *)
Definition shared_svr : svr := with_doxm {|
  oxm := [0]; oxmSel := 0; sct := 1; owned := true; deviceID := uuid_one; dpc := false;
  owner := uuid_one; subOwners := [{| so_uuid := uuid_two; so_status := 1 |}];
  mom := MomNull; rownerID := uuid_one |} sample_svr.

Lemma subowner_acl2_unchecked_witness :
  exists c', @CheckPermission (plain_env true) shared_svr (light_request uuid_two OIC_R_ACL2_TYPE)
      = Some c' /\ responseVal c' = ACCESS_GRANTED.
Proof.
  apply (@subowner_acl2_unchecked (plain_env true) shared_svr
           (light_request uuid_two OIC_R_ACL2_TYPE) sample_pstat).
  - reflexivity.
  - split; [discriminate|reflexivity].
  - reflexivity.
  - vm_compute. reflexivity.
  - reflexivity.
Defined.

Definition always_ace : OicSecAce_t := {|
  subject := OicSecAceUuidSubject uuid_one;
  resources := [{| href := None; wildcard := ALL_RESOURCES |}]; permission := 31;
  validities := [{| period := Some (chars "20000101T000000/20991231T235959"); recurrences := None |}];
  aceid := 1 |}.

Lemma period_without_recurrence_denied_witness :
  @IsAccessWithinValidTime (plain_env false) (Some always_ace) = Some false /\
  @ace_allows (plain_env false) (light_request uuid_one NOT_A_SVR_RESOURCE) always_ace = false.
Proof.
  exact (@period_without_recurrence_denied (plain_env false) always_ace _ _
           (light_request uuid_one NOT_A_SVR_RESOURCE) eq_refl eq_refl).
Defined.
