(* ===== verification/SecureResourceManager.v ===== *)
(** * SecureResourceManager: from a request to its answer

    Models the request path of
    [resource/csdk/security/src/secureresourcemanager.c]: building the request
    context, asking [PolicyEngine] and either handing the request to the stack
    or answering UNAUTHORIZED.  What leaves the component is the list of
    events it causes.  The resource directory of the stack and the outcome of
    [CASendResponse] are the class [SrmEnv].

    The main theorem follows a request from its URI and method to the one
    event it causes. *)
From S2P Require Import Prelude Chain OicString Strptime Calendar Acl Svr Onboarding CaCommon PolicyEngine.

Definition OIC_R_SACL_TYPE : Z := 9.
Definition OIC_R_SVC_TYPE : Z := 10.

Definition OIC_RSRC_ACL_URI := chars "/oic/sec/acl".
Definition OIC_RSRC_ACL2_URI := chars "/oic/sec/acl2".
Definition OIC_RSRC_AMACL_URI := chars "/oic/sec/amacl".
Definition OIC_RSRC_CRED_URI := chars "/oic/sec/cred".
Definition OIC_RSRC_CRL_URI := chars "/oic/sec/crl".
Definition OIC_RSRC_CSR_URI := chars "/oic/sec/csr".
Definition OIC_RSRC_DOXM_URI := chars "/oic/sec/doxm".
Definition OIC_RSRC_PSTAT_URI := chars "/oic/sec/pstat".
Definition OIC_RSRC_ROLES_URI := chars "/oic/sec/roles".
Definition OIC_RSRC_SVC_URI := chars "/oic/sec/svc".
Definition OIC_RSRC_SACL_URI := chars "/oic/sec/sacl".
Definition OIC_RSRC_VER_URI := chars "/oic/sec/ver".
Definition OC_RSRVD_PROV_CRL_URL := chars "/oic/credprov/crl".

Definition MAX_URI_LENGTH : Z := 256.
Definition OC_DISCOVERABLE : Z := 1.

(** ** URIs *)

(** The length up to the query, [strlen] without one. *)
Definition path_length (uri : list Z) : Z :=
  match after_char 63 uri with
  | Some query => Z.of_nat (length uri - length query) - 1
  | None => Z.of_nat (length uri)
  end.

(** [uriLen == strlen(rsrc) && 0 == strncmp(uri, rsrc, strlen(rsrc))]. *)
Definition uri_is (uri : list Z) (uriLen : Z) (rsrc : list Z) : bool :=
  (uriLen =? Z.of_nat (length rsrc)) && has_prefix rsrc uri.

Definition GetSvrTypeFromUri (uri : option (list Z)) : Z :=
  match uri with
  | None => NOT_A_SVR_RESOURCE
  | Some u =>
      let uriLen := path_length u in
      if uri_is u uriLen OIC_RSRC_ACL_URI then OIC_R_ACL_TYPE
      else if uri_is u uriLen OIC_RSRC_ACL2_URI then OIC_R_ACL2_TYPE
      else if uri_is u uriLen OIC_RSRC_AMACL_URI then OIC_R_AMACL_TYPE
      else if uri_is u uriLen OIC_RSRC_CRED_URI then OIC_R_CRED_TYPE
      else if uri_is u uriLen OIC_RSRC_CRL_URI then OIC_R_CRL_TYPE
      else if uri_is u uriLen OIC_RSRC_CSR_URI then OIC_R_CSR_TYPE
      else if uri_is u uriLen OIC_RSRC_DOXM_URI then OIC_R_DOXM_TYPE
      else if uri_is u uriLen OIC_RSRC_PSTAT_URI then OIC_R_PSTAT_TYPE
      else if uri_is u uriLen OIC_RSRC_ROLES_URI then OIC_R_ROLES_TYPE
      else if uri_is u uriLen OIC_RSRC_SVC_URI then OIC_R_SVC_TYPE
      else if uri_is u uriLen OIC_RSRC_SACL_URI then OIC_R_SACL_TYPE
      else NOT_A_SVR_RESOURCE
  end.

Definition security_uris : list (list Z) :=
  [OIC_RSRC_SVC_URI; OIC_RSRC_AMACL_URI; OIC_RSRC_CRL_URI; OIC_RSRC_CRED_URI; OIC_RSRC_CSR_URI;
   OIC_RSRC_ACL_URI; OIC_RSRC_ACL2_URI; OIC_RSRC_DOXM_URI; OIC_RSRC_PSTAT_URI;
   OIC_RSRC_VER_URI; OIC_RSRC_ROLES_URI; OC_RSRVD_PROV_CRL_URL].

Definition SRMIsSecurityResourceURI (uri : option (list Z)) : bool :=
  match uri with
  | None => false
  | Some u => existsb (uri_is u (path_length u)) security_uris
  end.

(** ** Context updates *)

Definition set_uri_type (u : list Z) (ty : Z) (c : SRMRequestContext_t) : SRMRequestContext_t := {|
  endPoint := endPoint c; resourceType := ty; resourceUri := u;
  requestedPermission := requestedPermission c; response_result := response_result c;
  responseSent := responseSent c; responseVal := responseVal c; requestInfo := requestInfo c;
  secureChannel := secureChannel c; discoverable := discoverable c;
  subjectIdType := subjectIdType c; subjectUuid := subjectUuid c; payload := payload c |}.
Definition set_response (r : Z) (sent : bool) (c : SRMRequestContext_t) : SRMRequestContext_t := {|
  endPoint := endPoint c; resourceType := resourceType c; resourceUri := resourceUri c;
  requestedPermission := requestedPermission c; response_result := r;
  responseSent := sent; responseVal := responseVal c; requestInfo := requestInfo c;
  secureChannel := secureChannel c; discoverable := discoverable c;
  subjectIdType := subjectIdType c; subjectUuid := subjectUuid c; payload := payload c |}.
Definition set_discoverable (d : OicSecDiscoverable_t) (c : SRMRequestContext_t)
    : SRMRequestContext_t := {|
  endPoint := endPoint c; resourceType := resourceType c; resourceUri := resourceUri c;
  requestedPermission := requestedPermission c; response_result := response_result c;
  responseSent := responseSent c; responseVal := responseVal c; requestInfo := requestInfo c;
  secureChannel := secureChannel c; discoverable := d;
  subjectIdType := subjectIdType c; subjectUuid := subjectUuid c; payload := payload c |}.
Definition set_secure (b : bool) (c : SRMRequestContext_t) : SRMRequestContext_t := {|
  endPoint := endPoint c; resourceType := resourceType c; resourceUri := resourceUri c;
  requestedPermission := requestedPermission c; response_result := response_result c;
  responseSent := responseSent c; responseVal := responseVal c; requestInfo := requestInfo c;
  secureChannel := b; discoverable := discoverable c;
  subjectIdType := subjectIdType c; subjectUuid := subjectUuid c; payload := payload c |}.
Definition set_request (ep : CAEndpoint_t) (ri : CARequestInfo_t) (perm idType : Z)
    (subj : OicUuid_t) (c : SRMRequestContext_t) : SRMRequestContext_t := {|
  endPoint := Some ep; resourceType := resourceType c; resourceUri := resourceUri c;
  requestedPermission := perm; response_result := response_result c;
  responseSent := responseSent c; responseVal := responseVal c; requestInfo := Some ri;
  secureChannel := secureChannel c; discoverable := discoverable c;
  subjectIdType := idType; subjectUuid := subj; payload := payload c |}.
Definition set_payload (p : list Z) (c : SRMRequestContext_t) : SRMRequestContext_t := {|
  endPoint := endPoint c; resourceType := resourceType c; resourceUri := resourceUri c;
  requestedPermission := requestedPermission c; response_result := response_result c;
  responseSent := responseSent c; responseVal := responseVal c; requestInfo := requestInfo c;
  secureChannel := secureChannel c; discoverable := discoverable c;
  subjectIdType := subjectIdType c; subjectUuid := subjectUuid c; payload := p |}.

(** [ClearRequestContext]: every field is overwritten. *)
Definition ClearRequestContext (c : SRMRequestContext_t) : SRMRequestContext_t := {|
  endPoint := None; resourceType := OIC_RESOURCE_TYPE_ERROR; resourceUri := [];
  requestedPermission := PERMISSION_ERROR; response_result := 0; responseSent := false;
  responseVal := ACCESS_DENIED_POLICY_ENGINE_ERROR; requestInfo := None; secureChannel := false;
  discoverable := DISCOVERABLE_NOT_KNOWN; subjectIdType := SUBJECT_ID_TYPE_ERROR;
  subjectUuid := THE_NIL_UUID; payload := [] |}.

(** What the component does to the outside. *)
Inductive srm_event :=
| call_request_handler (ep : CAEndpoint_t) (ri : CARequestInfo_t)
| send_response (ep : CAEndpoint_t) (result : Z).

Class SrmEnv := {
  FindResourceByUri : list Z -> option Z;    (* the properties of the resource *)
  ca_send_response : CAResult_t;             (* CASendResponse *)
  gRequestHandler : bool;                    (* whether a handler is registered *)
}.

Section SecureResourceManager.
Context `{PolicyEnv} `{SrmEnv}.

Definition SRMSendResponse (context : SRMRequestContext_t) : SRMRequestContext_t * list srm_event :=
  match requestInfo context, endPoint context with
  | Some _, Some ep =>
      let ev := [send_response ep (response_result context)] in
      if decide (CA_STATUS_OK = ca_send_response) then
        (set_response (response_result context) true context, ev)
      else (context, ev)
  | _, _ => (context, [])
  end.

Definition SRMGenerateResponse (context : SRMRequestContext_t)
    : SRMRequestContext_t * list srm_event :=
  if IsAccessGranted (responseVal context) then
    match gRequestHandler, endPoint context, requestInfo context with
    | true, Some ep, Some ri =>
        (set_response (response_result context) true context, [call_request_handler ep ri])
    | _, _, _ =>
        SRMSendResponse (set_response CA_INTERNAL_SERVER_ERROR (responseSent context)
          (set_responseVal ACCESS_DENIED_POLICY_ENGINE_ERROR context))
    end
  else
    SRMSendResponse (set_response CA_UNAUTHORIZED_REQ (responseSent context) context).

(** [resourceUri] is an array of [MAX_URI_LENGTH + 1] bytes: the copy goes
    through a buffer that holds the current contents. *)
Definition SetResourceUriAndType (context : SRMRequestContext_t) : ub SRMRequestContext_t :=
  match requestInfo context with
  | None => Some context
  | Some ri =>
      match rq_resourceUri ri with
      | None => Some context
      | Some uri =>
          let position := path_length uri in
          if MAX_URI_LENGTH <? position then Some context
          else
            let buf := resourceUri context
              ++ replicate (Z.to_nat (MAX_URI_LENGTH + 1) - length (resourceUri context)) 0 in
            cp ← OICStrcpyPartial (Some buf) (MAX_URI_LENGTH + 1) (Some (uri ++ [0])) position;
            buf ← cp;
            u ← contents buf;
            Some (set_uri_type u (GetSvrTypeFromUri (Some u)) context)
      end
  end.

Definition SetDiscoverable (context : SRMRequestContext_t) : SRMRequestContext_t :=
  match FindResourceByUri (resourceUri context) with
  | None => set_discoverable DISCOVERABLE_NOT_KNOWN context
  | Some resourceProperties =>
      if OC_DISCOVERABLE =? resourceProperties &&& OC_DISCOVERABLE
      then set_discoverable DISCOVERABLE_TRUE context
      else set_discoverable DISCOVERABLE_FALSE context
  end.

Definition isRequestOverSecureChannel (ep : CAEndpoint_t) (context : SRMRequestContext_t) : bool :=
  if negb (flags ep &&& CA_SECURE =? 0) then true
  else if SUBJECT_ID_TYPE_UUID =? subjectIdType context then
    if negb (bool_decide (subjectUuid context = THE_NIL_UUID)) then true else false
  else false.

(** [ctx]: the single global context, with what the last request left in it. *)
Definition SRMRequestHandler (s : svr) (ctx : SRMRequestContext_t)
    (ep : option CAEndpoint_t) (ri : option CARequestInfo_t)
    : ub (SRMRequestContext_t * list srm_event) :=
  let ctx := ClearRequestContext ctx in
  match ep, ri with
  | Some ep, Some ri =>
      let ctx := set_request ep ri (GetPermissionFromCAMethod_t (rq_method ri))
                   SUBJECT_ID_TYPE_UUID (take UUID_LENGTH (rq_identity ri)) ctx in
      let ctx := set_secure (isRequestOverSecureChannel ep ctx) ctx in
      ctx ← SetResourceUriAndType ctx;
      let ctx := SetDiscoverable ctx in
      let ctx := set_response CA_INTERNAL_SERVER_ERROR (responseSent ctx) ctx in
      let ctx := if multiple_owner then set_payload (rq_payload ri) ctx else ctx in
      ctx ← CheckPermission s ctx;
      Some (SRMGenerateResponse ctx)
  | _, _ => Some (ctx, [])
  end.

(** ** The context of a request *)

Definition path_of (uri : list Z) : list Z := take (Z.to_nat (path_length uri)) uri.

Definition discoverability (path : list Z) : OicSecDiscoverable_t :=
  match FindResourceByUri path with
  | None => DISCOVERABLE_NOT_KNOWN
  | Some props => if OC_DISCOVERABLE =? props &&& OC_DISCOVERABLE then DISCOVERABLE_TRUE
                  else DISCOVERABLE_FALSE
  end.

(** What [CheckPermission] is asked about a request for [uri]. *)
Definition request_context (ep : CAEndpoint_t) (ri : CARequestInfo_t) (path : list Z) (ty : Z)
    : SRMRequestContext_t := {|
  endPoint := Some ep; resourceType := ty; resourceUri := path;
  requestedPermission := GetPermissionFromCAMethod_t (rq_method ri);
  response_result := CA_INTERNAL_SERVER_ERROR; responseSent := false;
  responseVal := ACCESS_DENIED_POLICY_ENGINE_ERROR; requestInfo := Some ri;
  secureChannel := negb (flags ep &&& CA_SECURE =? 0)
                   || negb (bool_decide (take UUID_LENGTH (rq_identity ri) = THE_NIL_UUID));
  discoverable := discoverability path; subjectIdType := SUBJECT_ID_TYPE_UUID;
  subjectUuid := take UUID_LENGTH (rq_identity ri);
  payload := if multiple_owner then rq_payload ri else [] |}.

(** For any URI: a path that does not fit into the array of the context is not
    copied, and the empty path of an unknown type is asked about. *)
Definition asked_context (ep : CAEndpoint_t) (ri : CARequestInfo_t) (uri : list Z) : SRMRequestContext_t :=
  if MAX_URI_LENGTH <? path_length uri then request_context ep ri [] OIC_RESOURCE_TYPE_ERROR
  else request_context ep ri (path_of uri) (GetSvrTypeFromUri (Some (path_of uri))).

Lemma path_length_range uri : 0 <= path_length uri <= Z.of_nat (length uri).
Proof.
  unfold path_length. destruct (after_char 63 uri) as [q|] eqn:E; [|lia].
  apply after_char_split in E as (pre & -> & _). rewrite length_app. simpl. lia.
Qed.

(** The path is the URI up to the first question mark. *)
Lemma path_of_query p q : 63 ∉ p -> path_of (p ++ 63 :: q) = p /\ path_of p = p.
Proof.
  intros Hp. assert (after_char 63 (p ++ 63 :: q) = Some q /\ after_char 63 p = None) as [H1 H2].
  { induction p as [|c p IH]; [done|]. simpl.
    rewrite (proj2 (Z.eqb_neq _ _)) by (intros ->; set_solver). apply IH. set_solver. }
  unfold path_of, path_length. rewrite H1, H2. split.
  - rewrite take_app_le by (rewrite !length_app; simpl; lia).
    rewrite take_ge; [done|]. rewrite length_app. simpl. lia.
  - by rewrite Nat2Z.id, firstn_all.
Qed.

Lemma SetResourceUriAndType_run ep ri uri c :
  requestInfo c = Some ri -> rq_resourceUri ri = Some uri -> resourceUri c = [] -> 0 ∉ uri ->
  resourceType c = OIC_RESOURCE_TYPE_ERROR -> endPoint c = Some ep ->
  SetResourceUriAndType c = Some (
    if MAX_URI_LENGTH <? path_length uri then c
    else set_uri_type (path_of uri) (GetSvrTypeFromUri (Some (path_of uri))) c).
Proof.
  intros Hri Huri Hc Hnul Hty _. unfold SetResourceUriAndType. rewrite Hri, Huri, Hc.
  destruct (Z.ltb_spec MAX_URI_LENGTH (path_length uri)) as [|Hle]; [done|].
  pose proof (path_length_range uri) as Hr. unfold MAX_URI_LENGTH in *.
  change (Z.to_nat (256 + 1) - length (@nil Z))%nat with 257%nat.
  assert (Hpath : 0 ∉ path_of uri).
  { intros Hin. apply Hnul. unfold path_of in Hin.
    apply elem_of_take in Hin as (i & Hi & _). by eapply list_elem_of_lookup_2. }
  destruct (Z.eq_dec (path_length uri) 0) as [Hz|Hz].
  - assert (Hnil : path_of uri = []) by (unfold path_of; by rewrite Hz).
    rewrite Hz, Hnil. vm_compute (OICStrcpyPartial _ _ _ 0). done.
  - destruct (OICStrcpyPartial_copied (replicate 257 0) (uri ++ [0]) uri 257 (path_length uri))
      as (b & Hb & Hcp & _); [by exists []|rewrite length_replicate; lia|lia|].
    change (([] : list Z) ++ replicate 257 0) with (replicate 257 0).
    change (256 + 1) with 257. rewrite Hb. cbn [mbind option_bind].
    replace (Z.min (257 - 1) (path_length uri)) with (path_length uri) in Hcp by lia.
    by rewrite (contents_cstr _ _ Hcp).
Qed.

Lemma SetDiscoverable_eq c :
  SetDiscoverable c = set_discoverable (discoverability (resourceUri c)) c.
Proof.
  unfold SetDiscoverable, discoverability.
  destruct (FindResourceByUri _); [destruct (_ =? _)|]; reflexivity.
Qed.

Lemma request_context_built s ctx ep ri uri :
  rq_resourceUri ri = Some uri -> 0 ∉ uri ->
  SRMRequestHandler s ctx (Some ep) (Some ri) =
    (c ← CheckPermission s (asked_context ep ri uri);
     Some (SRMGenerateResponse c)).
Proof.
  intros Huri Hnul. unfold SRMRequestHandler.
  erewrite SetResourceUriAndType_run by done. cbn [mbind option_bind].
  assert (Hsec : isRequestOverSecureChannel ep
    (set_request ep ri (GetPermissionFromCAMethod_t (rq_method ri)) SUBJECT_ID_TYPE_UUID
      (take UUID_LENGTH (rq_identity ri)) (ClearRequestContext ctx)) =
    negb (flags ep &&& CA_SECURE =? 0)
      || negb (bool_decide (take UUID_LENGTH (rq_identity ri) = THE_NIL_UUID))).
  { unfold isRequestOverSecureChannel. destruct (negb (flags ep &&& _ =? 0)); [done|].
    cbn [subjectIdType subjectUuid set_request orb]. rewrite Z.eqb_refl. by destruct (negb _). }
  rewrite Hsec, SetDiscoverable_eq. f_equal. f_equal. unfold asked_context, request_context.
  destruct (MAX_URI_LENGTH <? path_length uri), multiple_owner; reflexivity.
Qed.

(** ** The answer *)

(** Every method asks for a non-empty set of permissions. *)
Lemma method_permission m : 
  GetPermissionFromCAMethod_t m <> 0 /\
  GetPermissionFromCAMethod_t m &&& compl32 PERMISSION_FULL_CONTROL = 0.
Proof.
  unfold GetPermissionFromCAMethod_t.
  repeat (destruct (_ =? _); [split; [discriminate|reflexivity]|]).
  split; [discriminate|reflexivity].
Qed.

(** A decided context is the asked one with another [responseVal]. *)
Lemma CheckPermission_same s c c' : policy_ok s ->
  CheckPermission s c = Some c' -> exists v, c' = set_responseVal v c.
Proof.
  intros Hok. unfold CheckPermission. destruct (_ || _); [done|].
  destruct (GetDos _ _) as [[] [d|]]; try (intros [= <-]; by eexists).
  cbn zeta. repeat match goal with
  | |- (if ?b then _ else _) = _ -> _ =>
      destruct b; [intros Heq; injection Heq as <-; first [by eexists | case_match; by eexists]|]
  end.
  destruct (run_process_request s (set_responseVal ACCESS_DENIED_POLICY_ENGINE_ERROR c) Hok)
    as (v & -> & _). intros [= <-]. by eexists.
Qed.

(** C2: built without sub-owners, with a handler registered and the resources
    set up ([policy_ok]), every request with a URI (a C string) causes exactly
    one event.  It is handed to the stack if and only if the policy entitles
    the subject of the TLS session, or the access control list allows it, for
    the path without its query and the permission of the method; otherwise the
    requester is sent UNAUTHORIZED.  A path of more than 256 characters is not
    what is decided on: the empty path of an unknown type is
    ([asked_context], [overlong_uri_counts_as_svr]). *)
Theorem SRMRequestHandler_decides (s : svr) (ctx : SRMRequestContext_t) (ep : CAEndpoint_t)
    (ri : CARequestInfo_t) (uri : list Z) (p : OicSecPstat_t) :
  multiple_owner = false -> gRequestHandler = true -> policy_ok s -> gPstat s = Some p ->
  rq_resourceUri ri = Some uri -> 0 ∉ uri ->
  let c := asked_context ep ri uri in
  exists ctx' ev, SRMRequestHandler s ctx (Some ep) (Some ri) = Some (ctx', [ev]) /\
    (entitled s (state (dos p)) c \/ acl_allows s c = true -> ev = call_request_handler ep ri) /\
    (~ (entitled s (state (dos p)) c \/ acl_allows s c = true) ->
       ev = send_response ep CA_UNAUTHORIZED_REQ) /\
    (path_length uri <= MAX_URI_LENGTH ->
       c = request_context ep ri (path_of uri) (GetSvrTypeFromUri (Some (path_of uri)))).
Proof.
  intros Hmo Hh Hok Hps Huri Hnul c.
  rewrite (request_context_built s ctx ep ri uri Huri Hnul). fold c.
  assert (path_length uri <= MAX_URI_LENGTH ->
    c = request_context ep ri (path_of uri) (GetSvrTypeFromUri (Some (path_of uri)))) as Hshort
    by (intros Hlen; unfold c, asked_context; by rewrite (proj2 (Z.ltb_ge _ _))).
  assert (requestedPermission c = GetPermissionFromCAMethod_t (rq_method ri) /\
    endPoint c = Some ep /\ requestInfo c = Some ri) as (Hpm & Hep & Hri)
    by (unfold c, asked_context; by destruct (MAX_URI_LENGTH <? path_length uri)).
  assert (permission_ok c) as Hperm by (unfold permission_ok; rewrite Hpm; apply method_permission).
  destruct (check_permission s c p Hmo Hok Hperm Hps) as (c' & Hc' & Hgr).
  destruct (CheckPermission_same s c c' Hok Hc') as [v ->].
  rewrite Hc'. cbn [mbind option_bind responseVal set_responseVal] in *.
  unfold SRMGenerateResponse. cbn [responseVal set_responseVal].
  destruct (IsAccessGranted v) eqn:E.
  - rewrite Hh. cbn [endPoint requestInfo set_responseVal]. rewrite Hep, Hri.
    do 2 eexists. split; [done|]. split; [done|]. split; [|done]. intros Hn. destruct Hn. by apply Hgr.
  - unfold SRMSendResponse. cbn [endPoint requestInfo set_responseVal set_response response_result]. rewrite Hep, Hri.
    assert (Hno : ~ (entitled s (state (dos p)) c \/ acl_allows s c = true)) by (rewrite <- Hgr; done).
    case_decide; do 2 eexists; (split; [done|]); split; done.
Qed.

(** a path longer than 256 characters is not looked up: the context keeps
    the empty URI and the type [OIC_RESOURCE_TYPE_ERROR], which is not
    [NOT_A_SVR_RESOURCE], so the device owner in RFOTM or SRESET is let
    through to the stack as if the request were for a security resource. *)
Theorem overlong_uri_counts_as_svr (s : svr) (ctx : SRMRequestContext_t) (ep : CAEndpoint_t)
    (ri : CARequestInfo_t) (uri : list Z) (p : OicSecPstat_t) (d : OicSecDoxm_t) :
  gRequestHandler = true -> gPstat s = Some p -> gDoxm s = Some d ->
  state (dos p) = DOS_RFOTM \/ state (dos p) = DOS_SRESET ->
  owner d = take UUID_LENGTH (rq_identity ri) -> owner d <> THE_NIL_UUID ->
  rq_resourceUri ri = Some uri -> 0 ∉ uri -> MAX_URI_LENGTH < path_length uri ->
  exists ctx', SRMRequestHandler s ctx (Some ep) (Some ri)
      = Some (ctx', [call_request_handler ep ri]) /\
    resourceUri ctx' = [] /\ resourceType ctx' <> NOT_A_SVR_RESOURCE.
Proof.
  intros Hh Hps Hd Hst Hown Hnil Huri Hnul Hlen.
  rewrite (request_context_built s ctx ep ri uri Huri Hnul).
  unfold asked_context. rewrite (proj2 (Z.ltb_lt _ _)) by done.
  unfold CheckPermission. cbn [requestedPermission request_context].
  destruct (method_permission (rq_method ri)) as [Hp1 Hp2].
  rewrite (proj2 (Z.eqb_neq _ _)), Hp2 by done. cbn [negb orb Z.eqb].
  unfold GetDos, GetPstatDosS, GetPstatDosP, get_out. rewrite Hps. cbn [state pending].
  set (c0 := set_responseVal _ _).
  assert (IsRequestFromDevOwner s c0 = true) as ->
    by (apply dev_owner_spec; exists d; split_and!; done).
  assert (bool_decide (DOS_RFOTM = state (dos p)) || bool_decide (DOS_SRESET = state (dos p)) = true)
    as -> by (rewrite orb_true_iff, !bool_decide_eq_true; naive_solver).
  cbn [andb negb]. change (NOT_A_SVR_RESOURCE =? resourceType c0) with false.
  cbn [negb mbind option_bind]. unfold SRMGenerateResponse. cbn [responseVal set_responseVal].
  change (IsAccessGranted ACCESS_GRANTED) with true. rewrite Hh.
  cbn [endPoint requestInfo set_responseVal]. eexists. split; [reflexivity|]. split; [done|].
  discriminate.
Qed.

End SecureResourceManager.

(** ** Concrete instances *)

Definition sample_srm : SrmEnv := {|
  FindResourceByUri := fun _ => Some 1; ca_send_response := CA_STATUS_OK; gRequestHandler := true |}.

Definition secure_endpoint : CAEndpoint_t := {|
  adapter := CA_ADAPTER_IP; flags := CA_SECURE; port := 5684; addr := chars "fe80::1";
  ifindex := 0; remoteId := [] |}.

Definition sample_request (subj : OicUuid_t) (uri : list Z) : CARequestInfo_t := {|
  rq_method := CA_POST; rq_identity := subj ++ replicate 21 0; rq_resourceUri := Some uri;
  rq_payload := [] |}.

Definition cleared : SRMRequestContext_t :=
  request_context (H := plain_env false) (H0 := sample_srm) secure_endpoint
    (sample_request uuid_one []) [] 0.

Lemma SRMRequestHandler_decides_witness :
  let ri := sample_request uuid_one (chars "/oic/sec/pstat?if=oic.if.baseline") in
  let c := @asked_context (plain_env false) sample_srm secure_endpoint ri (chars "/oic/sec/pstat?if=oic.if.baseline") in
  exists ctx' ev, @SRMRequestHandler (plain_env false) sample_srm sample_svr cleared
      (Some secure_endpoint) (Some ri) = Some (ctx', [ev]) /\
    (@entitled (plain_env false) sample_svr DOS_RFPRO c \/
     @acl_allows (plain_env false) sample_svr c = true ->
       ev = call_request_handler secure_endpoint ri) /\
    (~ (@entitled (plain_env false) sample_svr DOS_RFPRO c \/
        @acl_allows (plain_env false) sample_svr c = true) ->
       ev = send_response secure_endpoint CA_UNAUTHORIZED_REQ) /\
    (c = @request_context (plain_env false) sample_srm secure_endpoint ri
             (chars "/oic/sec/pstat") OIC_R_PSTAT_TYPE).
Proof.
  destruct (@SRMRequestHandler_decides (plain_env false) sample_srm sample_svr cleared secure_endpoint
    (sample_request uuid_one (chars "/oic/sec/pstat?if=oic.if.baseline"))
    (chars "/oic/sec/pstat?if=oic.if.baseline") sample_pstat) as (ctx' & ev & H1 & H2 & H3 & H4).
  - reflexivity.
  - reflexivity.
  - exact (sample_policy_ok false).
  - reflexivity.
  - reflexivity.
  - vm_compute. set_solver by lia.
  - exists ctx', ev. split; [exact H1|]. split; [exact H2|]. split; [exact H3|]. apply H4. vm_compute. discriminate.
Defined.

(** The device of [sample_svr], waiting for its owner's onboarding. *)
Definition rfotm_svr : svr :=
  with_pstat (set_dos {| state := DOS_RFOTM; pending := false |} sample_pstat) sample_svr.

Lemma overlong_uri_counts_as_svr_witness :
  let ri := sample_request uuid_one (47 :: replicate 300 97) in
  exists ctx', @SRMRequestHandler (plain_env false) sample_srm rfotm_svr cleared
      (Some secure_endpoint) (Some ri)
      = Some (ctx', [call_request_handler secure_endpoint ri]) /\
    resourceUri ctx' = [] /\ resourceType ctx' <> NOT_A_SVR_RESOURCE.
Proof.
  apply (@overlong_uri_counts_as_svr (plain_env false) sample_srm rfotm_svr cleared secure_endpoint
    (sample_request uuid_one (47 :: replicate 300 97)) (47 :: replicate 300 97)
    (set_dos {| state := DOS_RFOTM; pending := false |} sample_pstat) sample_doxm).
  - reflexivity.
  - reflexivity.
  - reflexivity.
  - by left.
  - reflexivity.
  - discriminate.
  - reflexivity.
  - intros [H|H]%elem_of_cons; [discriminate|]. apply elem_of_replicate in H as [H _]. discriminate.
  - vm_compute. reflexivity.
Defined.

(** The onboarding service owns doxm but not acl2: its implicit access, logged
    as covering acl2, does not. *)
Definition doxs_svr : svr :=
  with_acl {| acl_rownerID := uuid_two; aces := [] |} sample_svr.

(** the onboarding service reaches the old acl resource implicitly and is
    refused acl2, which the branch's log message says it may access. *)
Theorem doxs_has_no_implicit_acl2 :
  let ask (uri : list Z) :=
    snd <$> @SRMRequestHandler (plain_env false) sample_srm doxs_svr cleared
      (Some secure_endpoint) (Some (sample_request uuid_one uri)) in
  ask OIC_RSRC_ACL_URI
    = Some [call_request_handler secure_endpoint (sample_request uuid_one OIC_RSRC_ACL_URI)] /\
  ask OIC_RSRC_ACL2_URI = Some [send_response secure_endpoint CA_UNAUTHORIZED_REQ].
Proof. split; vm_compute; reflexivity. Qed.
