(* ===== verification/Heap.v ===== *)
(** * Heap: the allocation wrappers, counting blocks

    Models [OICMalloc], [OICCalloc] and [OICFree] of
    [c_common/oic_malloc/src/oic_malloc.c] and [OICStrdup] of
    [c_common/oic_string/src/oic_string.c] over a state that holds the answers
    of the allocator and the number of blocks that are in use.  What a pointer
    points to is a value, [None] for NULL, so that every block has one owner;
    the count shows what an operation loses.  An operation [frees] blocks whatever
    the allocator does, [yields] a result when there is memory, and has a [wp]
    under any answers. *)
From S2P Require Import Prelude Effects.

Record heap := {
  hp_allocs : list bool;
  live : Z;
}.

Definition set_answers (l : list bool) (h : heap) : heap := {| hp_allocs := l; live := live h |}.
Definition add_live (n : Z) (h : heap) : heap := {| hp_allocs := hp_allocs h; live := live h + n |}.

#[export] Program Instance heap_HasAllocs : HasAllocs heap := {|
  allocs_of := hp_allocs; with_allocs := set_answers |}.
Next Obligation. done. Qed.
Next Obligation. by intros []. Qed.
Next Obligation. done. Qed.

Definition OICMalloc (size : Z) : M heap bool :=
  if 0 =? size then mret false
  else ok ← alloc; if ok : bool then _ ← modify (add_live 1); mret true else mret false.

(** [calloc] finds that [num * size] is more than an object can have. *)
Definition OICCalloc (num size : Z) : M heap bool :=
  if (0 =? size) || (0 =? num) then mret false
  else
    ok ← alloc;
    if (ok : bool) && (num * size <=? SIZE_MAX) then _ ← modify (add_live 1); mret true else mret false.

(** The pointer is NULL or not. *)
Definition OICFree {A} (ptr : option A) : M heap unit :=
  match ptr with Some _ => modify (add_live (-1)) | None => mret tt end.

(** Texts: Rocq's strings, and the lists of characters of C strings. *)
Class Text (A : Type) := text_length : A -> nat.
#[export] Instance string_Text : Text string := String.length.
#[export] Instance chars_Text : Text (list Z) := @length Z.

(** What is in memory has a size that does not wrap. *)
Definition OICStrdup {A} `{Text A} (str : option A) : M heap (option A) :=
  match str with
  | None => mret None
  | Some s => ok ← OICMalloc (Z.of_nat (text_length s) + 1); mret (if ok : bool then Some s else None)
  end.

(** The block of a pointer. *)
Definition blk {A} (p : option A) : Z := match p with Some _ => 1 | None => 0 end.

(** ** Blocks in use *)

Lemma add_live_0 h : add_live 0 h = h.
Proof. destruct h. unfold add_live. cbn. by rewrite Z.add_0_r. Qed.

Lemma add_live_add a b h : add_live a (add_live b h) = add_live (b + a) h.
Proof. unfold add_live. cbn. f_equal. lia. Qed.

(** [m] releases [n] blocks. *)
Definition frees (m : M heap unit) (n : Z) : Prop := forall h, m h = Some (tt, add_live (- n) h).

Lemma frees_ret : frees (mret tt) 0.
Proof. intros h. change (- 0) with 0. by rewrite add_live_0. Qed.

Lemma frees_bind m k a b : frees m a -> frees k b -> frees (m ≫= fun _ => k) (a + b).
Proof. intros Hm Hk h. rewrite (run_bind _ _ _ _ _ (Hm h)), Hk, add_live_add. do 3 f_equal. lia. Qed.

Lemma frees_eq m a b : frees m a -> a = b -> frees m b.
Proof. by intros ? <-. Qed.

Lemma frees_ptr {A} (p : option A) : frees (OICFree p) (blk p).
Proof. destruct p; [|apply frees_ret]. by intros h. Qed.

(** ** With memory to be had *)

(** [m] returns [a] and takes [n] blocks. *)
Definition yields {A} (m : M heap A) (a : A) (n : Z) : Prop :=
  forall h, hp_allocs h = [] -> m h = Some (a, add_live n h).

Lemma yields_ret {A} (a : A) : yields (mret a) a 0.
Proof. intros h _. by rewrite add_live_0. Qed.

Lemma yields_bind {A B} (m : M heap A) (k : A -> M heap B) a b x y :
  yields m a x -> yields (k a) b y -> yields (m ≫= k) b (x + y).
Proof. intros Hm Hk h Hh. rewrite (run_bind _ _ _ _ _ (Hm h Hh)), Hk by done. by rewrite add_live_add. Qed.

Lemma yields_eq {A} (m : M heap A) a x y : yields m a x -> x = y -> yields m a y.
Proof. by intros ? <-. Qed.

Lemma yields_lift {A} (x : ub A) a : x = Some a -> yields (lift x) a 0.
Proof. intros -> h _. by rewrite add_live_0. Qed.

Lemma yields_frees m n : frees m n -> yields m tt (- n).
Proof. intros H h _. apply H. Qed.

Lemma yields_malloc n : n <> 0 -> yields (OICMalloc n) true 1.
Proof.
  intros Hn h Hh. unfold OICMalloc. destruct (Z.eqb_spec 0 n); [lia|].
  unfold alloc, mbind, M_bind. cbn. by rewrite Hh.
Qed.

Lemma yields_malloc_0 n : n = 0 -> yields (OICMalloc n) false 0.
Proof. intros -> h _. cbn. by rewrite add_live_0. Qed.

Lemma yields_calloc num size : num <> 0 -> size <> 0 -> num * size <= SIZE_MAX -> yields (OICCalloc num size) true 1.
Proof.
  intros Hn Hs Hm h Hh. unfold OICCalloc.
  destruct (Z.eqb_spec 0 size); [lia|]. destruct (Z.eqb_spec 0 num); [lia|].
  unfold alloc, mbind, M_bind. cbn. rewrite Hh. cbn. destruct (Z.leb_spec (num * size) SIZE_MAX); [done|lia].
Qed.

Lemma yields_strdup {A} `{HA : Text A} (s : option A) : yields (OICStrdup s) s (blk s).
Proof.
  destruct s as [s|]; [|apply yields_ret].
  eapply yields_eq; [eapply yields_bind; [apply yields_malloc; lia|apply yields_ret]|done].
Qed.

(** ** Under any answers of the allocator *)

(** [m] is defined from [h] and ends as [Q] says. *)
Definition wp {S A} (m : M S A) (h : S) (Q : A -> S -> Prop) : Prop :=
  match m h with Some (a, h') => Q a h' | None => False end.

(** From [h] to [h'] [n] blocks have been taken, and an allocator that does not
    fail stays one. *)
Definition took (h : heap) (n : Z) (h' : heap) : Prop :=
  live h' = live h + n /\ (hp_allocs h = [] -> hp_allocs h' = []).

Lemma took_refl h : took h 0 h.
Proof. split; [lia|done]. Qed.

Lemma took_trans h a h1 b h2 n : took h a h1 -> took h1 b h2 -> n = a + b -> took h n h2.
Proof. intros [? ?] [? ?] ->. split; [lia|auto]. Qed.

Lemma wp_bind {S A B} (m : M S A) (k : A -> M S B) h Q :
  wp m h (fun a h' => wp (k a) h' Q) -> wp (m ≫= k) h Q.
Proof. unfold wp, mbind, M_bind. by destruct (m h) as [[a h']|]. Qed.

Lemma wp_ret {S A} (a : A) (h : S) (Q : A -> S -> Prop) : Q a h -> wp (mret a) h Q.
Proof. done. Qed.

Lemma wp_mono {S A} (m : M S A) h (Q Q' : A -> S -> Prop) :
  wp m h Q -> (forall a h', Q a h' -> Q' a h') -> wp m h Q'.
Proof. unfold wp. destruct (m h) as [[a h']|]; auto. Qed.

Lemma wp_frees m n h (Q : unit -> heap -> Prop) : frees m n ->
  (forall h', took h (- n) h' -> Q tt h') -> wp m h Q.
Proof. intros E H. unfold wp. rewrite E. apply H. by split. Qed.

Lemma wp_yields {A} (m : M heap A) a n h (Q : A -> heap -> Prop) : yields m a n -> hp_allocs h = [] ->
  (forall h', took h n h' -> Q a h') -> wp m h Q.
Proof. intros E Hh H. unfold wp. rewrite E by done. apply H. by split. Qed.

Lemma wp_lift {S A} (x : ub A) a (h : S) (Q : A -> S -> Prop) : x = Some a -> Q a h -> wp (lift x) h Q.
Proof. by intros ->. Qed.

(** A call that asks for a block: it may be refused. *)
Definition asks (m : M heap bool) : Prop := forall h,
  exists ok h', m h = Some (ok, h') /\ took h (if ok : bool then 1 else 0) h' /\ (hp_allocs h = [] -> ok = true).

Lemma wp_asks m h (Q : bool -> heap -> Prop) : asks m ->
  (forall h', took h 1 h' -> Q true h') ->
  (hp_allocs h <> [] -> forall h', took h 0 h' -> Q false h') -> wp m h Q.
Proof.
  intros Hm Ht Hf. destruct (Hm h) as ([] & h' & E & Hk & Hok); unfold wp; rewrite E; [auto|].
  apply Hf; [|done]. intros Hn. by specialize (Hok Hn).
Qed.

Ltac asks := intros h; unfold alloc, mbind, M_bind; cbn;
  match goal with |- context [hp_allocs h] => destruct (hp_allocs h) as [|[] l] eqn:E; cbn end;
  repeat case_goal; try lia;
  (eexists _, _; split; [reflexivity|]; cbn; split; [split; [cbn; lia|cbn; congruence]|congruence]).

Lemma asks_malloc n : n <> 0 -> asks (OICMalloc n).
Proof. intros Hn. unfold OICMalloc. destruct (Z.eqb_spec 0 n); [lia|]. asks. Qed.

Lemma asks_calloc n size : n <> 0 -> size <> 0 -> n * size <= SIZE_MAX -> asks (OICCalloc n size).
Proof.
  intros Hn Hs Hm. unfold OICCalloc. destruct (Z.eqb_spec 0 size); [lia|]. destruct (Z.eqb_spec 0 n); [lia|].
  apply Z.leb_le in Hm. rewrite Hm. asks.
Qed.

Lemma wp_strdup {A} `{HA : Text A} (s : option A) h (Q : option A -> heap -> Prop) :
  (forall h', took h (blk s) h' -> Q s h') ->
  (hp_allocs h <> [] -> forall h', took h 0 h' -> Q None h') -> wp (OICStrdup s) h Q.
Proof.
  destruct s as [s|]; [|intros H _; apply wp_ret, H, took_refl]. intros Ht Hf. unfold OICStrdup. apply wp_bind.
  apply wp_asks; [apply asks_malloc; lia| |]; intros; apply wp_ret; auto.
Qed.

Lemma took_nil h n h' : took h n h' -> hp_allocs h = [] -> hp_allocs h' = [].
Proof. intros [_ H]. exact H. Qed.

(** ** Components that keep a heap *)

Class HasHeap (S : Type) := {
  heap_of : S -> heap;
  with_heap : heap -> S -> S;
  heap_of_with h s : heap_of (with_heap h s) = h;
  with_heap_of s : with_heap (heap_of s) s = s;
  with_heap_with h h' s : with_heap h (with_heap h' s) = with_heap h s;
}.

Section InHeap.
Context {S : Type} `{HasHeap S}.

Definition in_heap {A} (m : M heap A) : M S A := fun s =>
  match m (heap_of s) with Some (a, h) => Some (a, with_heap h s) | None => None end.

(** The state with [n] more blocks in use. *)
Definition grow (n : Z) (s : S) : S := with_heap (add_live n (heap_of s)) s.

Lemma grow_0 s : grow 0 s = s.
Proof. unfold grow. by rewrite add_live_0, with_heap_of. Qed.

Lemma grow_grow a b s : grow a (grow b s) = grow (b + a) s.
Proof. unfold grow. by rewrite with_heap_with, heap_of_with, add_live_add. Qed.

Lemma run_in_heap {A} (m : M heap A) a h s : m (heap_of s) = Some (a, h) -> in_heap m s = Some (a, with_heap h s).
Proof. intros E. unfold in_heap. by rewrite E. Qed.

Lemma in_heap_frees (m : M heap unit) n s : frees m n -> in_heap m s = Some (tt, grow (- n) s).
Proof. intros E. by apply run_in_heap, E. Qed.

Lemma in_heap_yields {A} (m : M heap A) a n s :
  yields m a n -> hp_allocs (heap_of s) = [] -> in_heap m s = Some (a, grow n s).
Proof. intros E Hs. by apply run_in_heap, E. Qed.

Lemma wp_in_heap {A} (m : M heap A) s (Q : A -> S -> Prop) :
  wp m (heap_of s) (fun a h => Q a (with_heap h s)) -> wp (in_heap m) s Q.
Proof. unfold wp, in_heap. by destruct (m (heap_of s)) as [[a h]|]. Qed.

Lemma wp_run {A} (m : M S A) a s' s (Q : A -> S -> Prop) : m s = Some (a, s') -> Q a s' -> wp m s Q.
Proof. unfold wp. by intros ->. Qed.
End InHeap.
