(* ===== verification/Payload.v ===== *)
(** * Payload: representation payloads

    Models the representation payloads of [csdk/stack/src/ocpayload.c], types in
    [csdk/include/octypes.h]: a payload is a list of named values, a value a
    type and the member of a union, which may be a payload again or an array of
    up to three dimensions.

    A pointer is the value it owns, [None] for NULL; the allocator and the
    number of blocks in use are those of [Heap].  Reading another member than
    the one that was stored, an element past the end of an array or a cell that
    was never written, and following NULL, are undefined. *)
From Stdlib Require Import SpecFloat.
From S2P Require Import Prelude Effects Heap.

Inductive OCRepPayloadPropType :=
  | OCREP_PROP_NULL | OCREP_PROP_INT | OCREP_PROP_DOUBLE | OCREP_PROP_BOOL
  | OCREP_PROP_STRING | OCREP_PROP_BYTE_STRING | OCREP_PROP_OBJECT | OCREP_PROP_ARRAY.

#[export] Instance OCRepPayloadPropType_eq_dec : EqDecision OCRepPayloadPropType.
Proof. solve_decision. Defined.

Record OCByteString := { bytes : option (list Z); len : Z }.

(** [dimensions], [MAX_REP_ARRAY_DEPTH] of them. *)
Definition dims : Type := Z * Z * Z.

(** The members of the union of an array.  A cell of a block that [OICMalloc]
    returned is [None] until it is written. *)
Inductive array_ptr (R : Type) :=
  | iArray (p : option (list (option Z)))
  | dArray (p : option (list (option spec_float)))
  | bArray (p : option (list (option bool)))
  | strArray (p : option (list (option (option string))))
  | ocByteStrArray (p : option (list OCByteString))
  | objArray (p : option (list (option R))).

Arguments iArray {R}. Arguments dArray {R}. Arguments bArray {R}. Arguments strArray {R}.
Arguments ocByteStrArray {R}. Arguments objArray {R}.

Record OCRepPayloadValueArray (R : Type) := {
  arr_type : OCRepPayloadPropType;
  dimensions : dims;
  elems : array_ptr R;
}.

Arguments arr_type {R}. Arguments dimensions {R}. Arguments elems {R}. Arguments Build_OCRepPayloadValueArray {R}.

(** The member that was stored last; [no_member] when the union has only been
    zeroed or what it held has been released. *)
Inductive member (R : Type) :=
  | no_member
  | m_i (i : Z)
  | m_d (d : spec_float)
  | m_b (b : bool)
  | m_str (str : option string)
  | m_ocByteStr (b : OCByteString)
  | m_obj (obj : option R)
  | m_arr (arr : OCRepPayloadValueArray R).

Arguments no_member {R}. Arguments m_i {R}. Arguments m_d {R}. Arguments m_b {R}. Arguments m_str {R}.
Arguments m_ocByteStr {R}. Arguments m_obj {R}. Arguments m_arr {R}.

(** The list [next] is that of the payload. *)
Record OCRepPayloadValue (R : Type) := {
  name : option string;
  type : OCRepPayloadPropType;
  content : member R;
}.

Arguments name {R}. Arguments type {R}. Arguments content {R}. Arguments Build_OCRepPayloadValue {R}.

(** A string list is the list of the values of its nodes. *)
Definition OCStringLL : Type := list (option string).

Inductive OCRepPayload := Rep
  (uri : option string) (types interfaces : OCStringLL)
  (values : list (OCRepPayloadValue OCRepPayload)) (next : option OCRepPayload).

Definition uri '(Rep u _ _ _ _) := u.
Definition types '(Rep _ t _ _ _) := t.
Definition interfaces '(Rep _ _ i _ _) := i.
Definition values '(Rep _ _ _ v _) := v.
Definition next '(Rep _ _ _ _ n) := n.

Definition set_uri u '(Rep _ t i v n) := Rep u t i v n.
Definition set_types t '(Rep u _ i v n) := Rep u t i v n.
Definition set_interfaces i '(Rep u t _ v n) := Rep u t i v n.
Definition set_values v '(Rep u t i _ n) := Rep u t i v n.

Definition value : Type := OCRepPayloadValue OCRepPayload.

(** Sizes of the structures and of the cells of arrays. *)
Definition sizeof_rep : Z := 48.
Definition sizeof_value : Z := 64.
Definition sizeof_string_ll : Z := 16.
Definition sizeof_byte_string : Z := 16.
Definition sizeof_word : Z := 8.

(** ** Arrays *)

Definition MAX_REP_ARRAY_DEPTH : nat := 3.

Fixpoint dim_loop (l : list Z) (total : Z) : Z :=
  match l with
  | [] => total
  | d :: l' => if d =? 0 then total else dim_loop l' (u64 (total * d))
  end.

Definition calcDimTotal (d : dims) : Z :=
  let '(d0, d1, d2) := d in
  if d0 =? 0 then 0 else dim_loop [d0; d1; d2] 1.

(** The first [n] elements of the block [p] points to, for a loop over them. *)
Definition elements {A} (p : option (list A)) (n : Z) : ub (list A) :=
  if n =? 0 then Some []
  else
    match p with
    | Some l => if n <=? Z.of_nat (length l) then Some (take (Z.to_nat n) l) else None
    | None => None
    end.

(** How many cells of [size] bytes a block for [n] of them has: the product
    wraps. *)
Definition cells (size n : Z) : Z := u64 (n * size) / size.

(** The loop [for (i = 0; i < n; ++i)] with an operation on each element, and
    the one that collects what the operation returns. *)
Section Loops.
Context {A B : Type} (f : A -> M heap B).

Fixpoint each_n (n : nat) (l : list A) {struct l} : M heap unit :=
  match n, l with
  | O, _ => mret tt
  | S n', x :: l' => _ ← f x; each_n n' l'
  | S _, [] => undefined
  end.

Fixpoint map_n (n : nat) (l : list A) {struct l} : M heap (list B) :=
  match n, l with
  | O, _ => mret []
  | S n', x :: l' => y ← f x; r ← map_n n' l'; mret (y :: r)
  | S _, [] => undefined
  end.

Definition each (n : Z) (p : option (list A)) : M heap unit :=
  if n =? 0 then mret tt else match p with Some l => each_n (Z.to_nat n) l | None => undefined end.

Definition collect (n : Z) (p : option (list A)) : M heap (list B) :=
  if n =? 0 then mret [] else match p with Some l => map_n (Z.to_nat n) l | None => undefined end.
End Loops.

(** The value of a cell that has been written. *)
Definition written {A} (l : list (option A)) : ub (list A) := mapM id l.

(** ** Releasing *)

Fixpoint OCFreeOCStringLL (ll : OCStringLL) : M heap unit :=
  match ll with
  | [] => mret tt
  | v :: rest => _ ← OCFreeOCStringLL rest; _ ← OICFree v; OICFree (Some tt)
  end.

Section Release.
Context {R : Type} (destroy : R -> M heap unit).

Definition destroy_obj (o : option R) : M heap unit :=
  match o with Some p => destroy p | None => mret tt end.

(** Every block of the array is released, but for arrays of arrays. *)
Definition free_array (a : OCRepPayloadValueArray R) : M heap unit :=
  let dimTotal := calcDimTotal (dimensions a) in
  match arr_type a, elems a with
  | OCREP_PROP_INT, iArray p => OICFree p
  | OCREP_PROP_DOUBLE, dArray p => OICFree p
  | OCREP_PROP_BOOL, bArray p => OICFree p
  | OCREP_PROP_STRING, strArray p =>
      _ ← each (fun c => s ← lift c; OICFree s) dimTotal p; OICFree p
  | OCREP_PROP_BYTE_STRING, ocByteStrArray p =>
      _ ← each (fun b => OICFree (bytes b)) dimTotal p; OICFree p
  | OCREP_PROP_OBJECT, objArray p =>
      _ ← each destroy_obj dimTotal p; OICFree p
  | OCREP_PROP_NULL, _ | OCREP_PROP_ARRAY, _ => mret tt
  | _, _ => undefined
  end.

Definition OCFreeRepPayloadValueContents (val : OCRepPayloadValue R) : M heap unit :=
  match type val, content val with
  | OCREP_PROP_STRING, m_str s => OICFree s
  | OCREP_PROP_BYTE_STRING, m_ocByteStr b => OICFree (bytes b)
  | OCREP_PROP_OBJECT, m_obj o => destroy_obj o
  | OCREP_PROP_ARRAY, m_arr a => free_array a
  | OCREP_PROP_STRING, _ | OCREP_PROP_BYTE_STRING, _ | OCREP_PROP_OBJECT, _ | OCREP_PROP_ARRAY, _ => undefined
  | _, _ => mret tt
  end.

Fixpoint OCFreeRepPayloadValue (l : list (OCRepPayloadValue R)) : M heap unit :=
  match l with
  | [] => mret tt
  | val :: rest =>
      _ ← OICFree (name val); _ ← OCFreeRepPayloadValueContents val;
      _ ← OCFreeRepPayloadValue rest; OICFree (Some tt)
  end.
End Release.

Fixpoint destroy_rep (p : OCRepPayload) : M heap unit :=
  let '(Rep u t i v n) := p in
  _ ← OICFree u;
  _ ← OCFreeOCStringLL t;
  _ ← OCFreeOCStringLL i;
  _ ← OCFreeRepPayloadValue destroy_rep v;
  _ ← match n with Some q => destroy_rep q | None => mret tt end;
  OICFree (Some tt).

Definition OCRepPayloadDestroy (payload : option OCRepPayload) : M heap unit :=
  destroy_obj destroy_rep payload.

(** ** Copying *)

(** [acc] is what has been copied; it is released when a node cannot be had. *)
Fixpoint clone_string_ll (acc : OCStringLL) (ll : OCStringLL) : M heap OCStringLL :=
  match ll with
  | [] => mret acc
  | v :: rest =>
      ok ← OICCalloc 1 sizeof_string_ll;
      if negb ok then _ ← OCFreeOCStringLL acc; mret []
      else s ← OICStrdup v; clone_string_ll (acc ++ [s]) rest
  end.

Definition CloneOCStringLL (ll : OCStringLL) : M heap OCStringLL := clone_string_ll [] ll.

(** NULL arguments are [None].  When the source is empty what [dest] owned is
    released and the pointer to it stays, which no value here stands for. *)
Definition OCByteStringCopy (dest source : option OCByteString) : M heap (bool * option OCByteString) :=
  match dest, source with
  | None, _ => mret (false, None)
  | Some d, None => _ ← OICFree (bytes d); mret (false, Some {| bytes := None; len := 0 |})
  | Some d, Some s =>
      _ ← OICFree (bytes d);
      if len s =? 0 then
        match bytes d with
        | None => mret (true, Some {| bytes := None; len := 0 |})
        | Some _ => undefined
        end
      else
        ok ← OICMalloc (len s);
        if negb ok then mret (false, Some {| bytes := None; len := 0 |})
        else l ← lift (elements (bytes s) (len s)); mret (true, Some {| bytes := Some l; len := len s |})
  end.

(** The copies stop at the first string that cannot be had. *)
Fixpoint copy_strings (l : list (option string)) : M heap (list (option (option string))) :=
  match l with
  | [] => mret []
  | s :: rest =>
      d ← OICStrdup s;
      match d with
      | None => mret (Some None :: replicate (length rest) None)
      | Some _ => r ← copy_strings rest; mret (Some d :: r)
      end
  end.

Definition zero_bytes : OCByteString := {| bytes := None; len := 0 |}.

(** The copies stop at the first one without bytes. *)
Fixpoint copy_byte_strings (l : list OCByteString) : M heap (list OCByteString) :=
  match l with
  | [] => mret []
  | b :: rest =>
      '(_, d) ← OCByteStringCopy (Some zero_bytes) (Some b);
      let d := default zero_bytes d in
      match bytes d with
      | None => mret (d :: replicate (length rest) zero_bytes)
      | Some _ => r ← copy_byte_strings rest; mret (d :: r)
      end
  end.

Section Clone.
Context {R : Type} (clone : R -> M heap (option R)) (destroy : R -> M heap unit).

Definition clone_obj (o : option R) : M heap (option R) :=
  match o with Some p => clone p | None => mret None end.

(** [memcpy] of a block of [cells size n]. *)
Definition copy_cells {A} (size n : Z) (p : option (list A)) : M heap (option (list A)) :=
  ok ← OICMalloc (u64 (n * size));
  if negb ok then mret None else l ← lift (elements p (cells size n)); mret (Some l).

(** The array of [dest], whose structure has been copied from that of
    [source]. *)
Definition OCCopyPropertyValueArray (source : OCRepPayloadValueArray R) : M heap (OCRepPayloadValueArray R) :=
  let dimTotal := calcDimTotal (dimensions source) in
  let put p := Build_OCRepPayloadValueArray (arr_type source) (dimensions source) p in
  match arr_type source, elems source with
  | OCREP_PROP_INT, iArray p => q ← copy_cells sizeof_word dimTotal p; mret (put (iArray q))
  | OCREP_PROP_DOUBLE, dArray p => q ← copy_cells sizeof_word dimTotal p; mret (put (dArray q))
  | OCREP_PROP_BOOL, bArray p => q ← copy_cells 1 dimTotal p; mret (put (bArray q))
  | OCREP_PROP_STRING, strArray p =>
      ok ← OICMalloc (u64 (dimTotal * sizeof_word));
      if negb ok then mret (put (strArray None))
      else if cells sizeof_word dimTotal <? dimTotal then undefined
      else
        l ← lift (elements p dimTotal); l ← lift (written l);
        r ← copy_strings l; mret (put (strArray (Some r)))
  | OCREP_PROP_OBJECT, objArray p | OCREP_PROP_ARRAY, objArray p =>
      ok ← OICMalloc (u64 (dimTotal * sizeof_word));
      if negb ok then mret (put (objArray None))
      else if cells sizeof_word dimTotal <? dimTotal then undefined
      else r ← collect clone_obj dimTotal p; mret (put (objArray (Some r)))
  | OCREP_PROP_BYTE_STRING, ocByteStrArray p =>
      ok ← OICCalloc dimTotal sizeof_byte_string;
      if negb ok then mret (put (ocByteStrArray None))
      else l ← lift (elements p dimTotal); r ← copy_byte_strings l; mret (put (ocByteStrArray (Some r)))
  | OCREP_PROP_NULL, _ => mret source
  | _, _ => undefined
  end.

(** The member of [dest], whose structure has been copied from that of
    [source]. *)
Definition OCCopyPropertyValue (source : OCRepPayloadValue R) : M heap (member R) :=
  match type source, content source with
  | OCREP_PROP_STRING, m_str s => d ← OICStrdup s; mret (m_str d)
  | OCREP_PROP_BYTE_STRING, m_ocByteStr b =>
      ok ← OICMalloc (len b);
      if negb ok then mret (m_ocByteStr {| bytes := None; len := len b |})
      else l ← lift (elements (bytes b) (len b)); mret (m_ocByteStr {| bytes := Some l; len := len b |})
  | OCREP_PROP_OBJECT, m_obj o => d ← clone_obj o; mret (m_obj d)
  | OCREP_PROP_ARRAY, m_arr a => d ← OCCopyPropertyValueArray a; mret (m_arr d)
  | OCREP_PROP_STRING, _ | OCREP_PROP_BYTE_STRING, _ | OCREP_PROP_OBJECT, _ | OCREP_PROP_ARRAY, _ => undefined
  | _, m => mret m
  end.

Fixpoint clone_values (acc l : list (OCRepPayloadValue R)) : M heap (list (OCRepPayloadValue R)) :=
  match l with
  | [] => mret acc
  | val :: rest =>
      ok ← OICCalloc 1 sizeof_value;
      if negb ok then _ ← OCFreeRepPayloadValue destroy acc; mret []
      else
        nm ← OICStrdup (name val);
        m ← OCCopyPropertyValue val;
        clone_values (acc ++ [Build_OCRepPayloadValue nm (type val) m]) rest
  end.

Definition OCRepPayloadValueClone (source : list (OCRepPayloadValue R)) : M heap (list (OCRepPayloadValue R)) :=
  clone_values [] source.
End Clone.

Definition OCRepPayloadCreate : M heap (option OCRepPayload) :=
  ok ← OICCalloc 1 sizeof_rep;
  mret (if ok : bool then Some (Rep None [] [] [] None) else None).

Fixpoint clone_rep (p : OCRepPayload) : M heap (option OCRepPayload) :=
  let '(Rep u t i v n) := p in
  clone ← OCRepPayloadCreate;
  match clone with
  | None => mret None
  | Some _ =>
      u' ← OICStrdup u;
      t' ← CloneOCStringLL t;
      i' ← CloneOCStringLL i;
      v' ← OCRepPayloadValueClone clone_rep destroy_rep v;
      mret (Some (Rep u' t' i' v' None))
  end.

Definition OCRepPayloadClone (payload : option OCRepPayload) : M heap (option OCRepPayload) :=
  clone_obj clone_rep payload.

(** [representation], the key of the payload inside a batch. *)
Definition OC_RSRVD_REPRESENTATION : string := "rep".

(** ** Names *)

(** [strcmp] of a name in the list and one that is not NULL. *)
Definition same_name (a : option string) (b : string) : ub bool :=
  match a with Some a => Some (bool_decide (a = b)) | None => None end.

Fixpoint find_loop (l : list value) (nm : string) : ub (option value) :=
  match l with
  | [] => Some None
  | val :: rest => b ← same_name (name val) nm; if b : bool then Some (Some val) else find_loop rest nm
  end.

Definition OCRepPayloadFindValue (payload : option OCRepPayload) (nm : option string) : ub (option value) :=
  match payload, nm with
  | Some p, Some nm => find_loop (values p) nm
  | _, _ => Some None
  end.

(** The loop, with the position of the value it returns; [l] is not empty. *)
Fixpoint find_and_set_loop (l : list value) (nm : string) (ty : OCRepPayloadPropType)
    : M heap (option nat * list value) :=
  match l with
  | [] => mret (None, [])
  | val :: rest =>
      b ← lift (same_name (name val) nm);
      if b : bool then
        _ ← OCFreeRepPayloadValueContents destroy_rep val;
        mret (Some O, Build_OCRepPayloadValue (name val) ty no_member :: rest)
      else
        match rest with
        | [] =>
            ok ← OICCalloc 1 sizeof_value;
            if negb ok then mret (None, [val])
            else
              n ← OICStrdup (Some nm);
              match n with
              | None => _ ← OICFree (Some tt); mret (None, [val])
              | Some _ => mret (Some 1%nat, [val; Build_OCRepPayloadValue n ty no_member])
              end
        | _ => '(i, r) ← find_and_set_loop rest nm ty; mret (S <$> i, val :: r)
        end
  end.

(** The position of the value and the payload it is in. *)
Definition OCRepPayloadFindAndSetValue (payload : option OCRepPayload) (nm : option string)
    (ty : OCRepPayloadPropType) : M heap (option nat * option OCRepPayload) :=
  match payload, nm with
  | Some p, Some n =>
      match values p with
      | [] =>
          ok ← OICCalloc 1 sizeof_value;
          if negb ok then mret (None, payload)
          else
            d ← OICStrdup nm;
            match d with
            | None => _ ← OICFree (Some tt); mret (None, payload)
            | Some _ => mret (Some O, Some (set_values [Build_OCRepPayloadValue d ty no_member] p))
            end
      | l => '(i, l) ← find_and_set_loop l n ty; mret (i, Some (set_values l p))
      end
  | _, _ => mret (None, payload)
  end.

(** The assignment to a member of the value at a position. *)
Definition store (i : nat) (m : member OCRepPayload) (payload : option OCRepPayload) : option OCRepPayload :=
  (fun p => set_values
     (alter (fun v => Build_OCRepPayloadValue (name v) (type v) m) i (values p)) p) <$> payload.

(** [v] is what the argument points to. *)
Definition OCRepPayloadSetProp (payload : option OCRepPayload) (nm : option string)
    (v : member OCRepPayload) (ty : OCRepPayloadPropType) : M heap (bool * option OCRepPayload) :=
  '(val, payload) ← OCRepPayloadFindAndSetValue payload nm ty;
  match val with
  | None => mret (false, payload)
  | Some i =>
      match ty, v with
      | OCREP_PROP_INT, m_i _ | OCREP_PROP_DOUBLE, m_d _ | OCREP_PROP_BOOL, m_b _
      | OCREP_PROP_OBJECT, m_obj _ | OCREP_PROP_BYTE_STRING, m_ocByteStr _ => mret (true, store i v payload)
      | OCREP_PROP_STRING, m_str s => mret (bool_decide (is_Some s), store i v payload)
      | OCREP_PROP_NULL, _ => mret (true, payload)
      | OCREP_PROP_ARRAY, _ => mret (false, payload)
      | _, _ => undefined
      end
  end.

Definition OCRepPayloadSetNull payload nm := OCRepPayloadSetProp payload nm no_member OCREP_PROP_NULL.
Definition OCRepPayloadSetPropInt payload nm (v : Z) := OCRepPayloadSetProp payload nm (m_i v) OCREP_PROP_INT.
Definition OCRepPayloadSetPropDouble payload nm (v : spec_float) :=
  OCRepPayloadSetProp payload nm (m_d v) OCREP_PROP_DOUBLE.
Definition OCRepPayloadSetPropBool payload nm (v : bool) := OCRepPayloadSetProp payload nm (m_b v) OCREP_PROP_BOOL.
Definition OCRepPayloadSetPropStringAsOwner payload nm (v : option string) :=
  OCRepPayloadSetProp payload nm (m_str v) OCREP_PROP_STRING.
Definition OCRepPayloadSetPropByteStringAsOwner payload nm (v : OCByteString) :=
  OCRepPayloadSetProp payload nm (m_ocByteStr v) OCREP_PROP_BYTE_STRING.
Definition OCRepPayloadSetPropObjectAsOwner payload nm (v : option OCRepPayload) :=
  OCRepPayloadSetProp payload nm (m_obj v) OCREP_PROP_OBJECT.

Definition OCRepPayloadSetPropString payload nm (v : option string) : M heap (bool * option OCRepPayload) :=
  temp ← OICStrdup v;
  '(b, payload) ← OCRepPayloadSetPropStringAsOwner payload nm temp;
  if negb b then _ ← OICFree temp; mret (b, payload) else mret (b, payload).

Definition OCRepPayloadSetPropByteString payload nm (v : OCByteString) : M heap (bool * option OCRepPayload) :=
  '(b, c) ← OCByteStringCopy (Some zero_bytes) (Some v);
  let ocByteStr := default zero_bytes c in
  '(b, payload) ← (if b : bool then OCRepPayloadSetPropByteStringAsOwner payload nm ocByteStr
                   else mret (b, payload));
  if negb b then _ ← OICFree (bytes ocByteStr); mret (b, payload) else mret (b, payload).

Definition OCRepPayloadSetPropObject payload nm (v : option OCRepPayload) : M heap (bool * option OCRepPayload) :=
  temp ← OCRepPayloadClone v;
  '(b, payload) ← OCRepPayloadSetPropObjectAsOwner payload nm temp;
  if negb b then _ ← OCRepPayloadDestroy temp; mret (b, payload) else mret (b, payload).

(** ** Reading: what is written to the result, when the call returns [true] *)

Definition OCRepPayloadIsNull payload nm : ub bool :=
  val ← OCRepPayloadFindValue payload nm;
  Some (match val with None => true | Some v => bool_decide (type v = OCREP_PROP_NULL) end).

Definition OCRepPayloadGetPropInt payload nm : ub (option Z) :=
  val ← OCRepPayloadFindValue payload nm;
  match val with
  | Some v =>
      if decide (type v = OCREP_PROP_INT) then
        match content v with m_i i => Some (Some i) | _ => None end
      else Some None
  | None => Some None
  end.

(** The conversion of an [int64_t]: to the nearest double, ties to even. *)
Definition double_of_int64 (i : Z) : spec_float := binary_normalize 53 1024 i 0 false.

Definition OCRepPayloadGetPropDouble payload nm : ub (option spec_float) :=
  val ← OCRepPayloadFindValue payload nm;
  match val with
  | Some v =>
      if decide (type v = OCREP_PROP_DOUBLE) then
        match content v with m_d d => Some (Some d) | _ => None end
      else if decide (type v = OCREP_PROP_INT) then
        match content v with m_i i => Some (Some (double_of_int64 i)) | _ => None end
      else Some None
  | None => Some None
  end.

Definition OCRepPayloadGetPropBool payload nm : ub (option bool) :=
  val ← OCRepPayloadFindValue payload nm;
  match val with
  | Some v =>
      if decide (type v = OCREP_PROP_BOOL) then
        match content v with m_b b => Some (Some b) | _ => None end
      else Some None
  | None => Some None
  end.

(** A string that cannot be duplicated gives [false]. *)
Definition OCRepPayloadGetPropString payload nm : M heap (option string) :=
  val ← lift (OCRepPayloadFindValue payload nm);
  match val with
  | Some v =>
      if decide (type v = OCREP_PROP_STRING) then
        match content v with m_str s => OICStrdup s | _ => undefined end
      else mret None
  | None => mret None
  end.

(** [ptr]: the argument for the result is not NULL. *)
Definition OCRepPayloadGetPropByteString payload nm (ptr : bool) : M heap (option OCByteString) :=
  val ← lift (OCRepPayloadFindValue payload nm);
  match val with
  | Some v =>
      if decide (type v = OCREP_PROP_BYTE_STRING) then
        if negb ptr then mret None
        else
          match content v with
          | m_ocByteStr b =>
              if len b =? 0 then mret (Some {| bytes := None; len := len b |})
              else
                ok ← OICMalloc (len b);
                if negb ok then mret None
                else l ← lift (elements (bytes b) (len b)); mret (Some {| bytes := Some l; len := len b |})
          | _ => undefined
          end
      else mret None
  | None => mret None
  end.

Definition OCRepPayloadGetPropObject payload nm : M heap (option OCRepPayload) :=
  val ← lift (OCRepPayloadFindValue payload nm);
  match val with
  | Some v =>
      if decide (type v = OCREP_PROP_OBJECT) then
        match content v with m_obj o => OCRepPayloadClone o | _ => undefined end
      else mret None
  | None => mret None
  end.

(** ** Arrays as values *)

Definition set_array payload nm (ty : OCRepPayloadPropType) (array : array_ptr OCRepPayload) (d : dims)
    : M heap (bool * option OCRepPayload) :=
  '(val, payload) ← OCRepPayloadFindAndSetValue payload nm OCREP_PROP_ARRAY;
  match val with
  | None => mret (false, payload)
  | Some i => mret (true, store i (m_arr (Build_OCRepPayloadValueArray ty d array)) payload)
  end.

Definition OCRepPayloadSetIntArrayAsOwner payload nm array := set_array payload nm OCREP_PROP_INT (iArray array).
Definition OCRepPayloadSetDoubleArrayAsOwner payload nm array := set_array payload nm OCREP_PROP_DOUBLE (dArray array).
Definition OCRepPayloadSetBoolArrayAsOwner payload nm array := set_array payload nm OCREP_PROP_BOOL (bArray array).
Definition OCRepPayloadSetStringArrayAsOwner payload nm array :=
  set_array payload nm OCREP_PROP_STRING (strArray array).
Definition OCRepPayloadSetByteStringArrayAsOwner payload nm array :=
  set_array payload nm OCREP_PROP_BYTE_STRING (ocByteStrArray array).
Definition OCRepPayloadSetPropObjectArrayAsOwner payload nm array :=
  set_array payload nm OCREP_PROP_OBJECT (objArray array).

(** When the block cannot be had the value is set to NULL, and when there is
    no array the block stays as it is. *)
Definition OCRepPayloadSetIntArray payload nm (array : option (list (option Z))) (d : dims)
    : M heap (bool * option OCRepPayload) :=
  let dimTotal := calcDimTotal d in
  ok ← OICMalloc (u64 (dimTotal * sizeof_word));
  newArray ← (match ok, array with
              | false, _ => mret None
              | true, None => mret (Some (replicate (Z.to_nat (cells sizeof_word dimTotal)) None))
              | true, Some _ => l ← lift (elements array (cells sizeof_word dimTotal)); mret (Some l)
              end);
  '(b, payload) ← OCRepPayloadSetIntArrayAsOwner payload nm newArray d;
  if negb b then _ ← OICFree newArray; mret (b, payload) else mret (b, payload).

(** The setters of arrays of doubles and booleans. *)
Definition set_copied {A} (size : Z)
    (as_owner : option OCRepPayload -> option string -> option (list A) -> dims -> M heap (bool * option OCRepPayload))
    payload nm (array : option (list A)) (d : dims) : M heap (bool * option OCRepPayload) :=
  let dimTotal := calcDimTotal d in
  if dimTotal =? 0 then mret (false, payload)
  else
    newArray ← copy_cells size dimTotal array;
    match newArray with
    | None => mret (false, payload)
    | Some _ =>
        '(b, payload) ← as_owner payload nm newArray d;
        if negb b then _ ← OICFree newArray; mret (b, payload) else mret (b, payload)
    end.

Definition OCRepPayloadSetDoubleArray := set_copied sizeof_word OCRepPayloadSetDoubleArrayAsOwner.
Definition OCRepPayloadSetBoolArray := set_copied 1 OCRepPayloadSetBoolArrayAsOwner.

(** A string that cannot be duplicated is NULL in the array. *)
Definition OCRepPayloadSetStringArray payload nm (array : option (list (option string))) (d : dims)
    : M heap (bool * option OCRepPayload) :=
  let dimTotal := calcDimTotal d in
  if dimTotal =? 0 then mret (false, payload)
  else
    ok ← OICMalloc (u64 (dimTotal * sizeof_word));
    if negb ok then mret (false, payload)
    else if cells sizeof_word dimTotal <? dimTotal then undefined
    else
      newArray ← collect OICStrdup dimTotal array;
      '(b, payload) ← OCRepPayloadSetStringArrayAsOwner payload nm (Some (Some <$> newArray)) d;
      if negb b then
        _ ← each OICFree dimTotal (Some newArray); _ ← OICFree (Some tt); mret (b, payload)
      else mret (b, payload).

Definition OCRepPayloadSetPropObjectArray payload nm (array : option (list (option OCRepPayload))) (d : dims)
    : M heap (bool * option OCRepPayload) :=
  let dimTotal := calcDimTotal d in
  if dimTotal =? 0 then mret (false, payload)
  else
    ok ← OICMalloc (u64 (dimTotal * sizeof_word));
    if negb ok then mret (false, payload)
    else if cells sizeof_word dimTotal <? dimTotal then undefined
    else
      newArray ← collect OCRepPayloadClone dimTotal array;
      '(b, payload) ← OCRepPayloadSetPropObjectArrayAsOwner payload nm (Some newArray) d;
      if negb b then
        _ ← each OCRepPayloadDestroy dimTotal (Some newArray); _ ← OICFree (Some tt); mret (b, payload)
      else mret (b, payload).

(** The loop that copies byte strings into a new array; [acc] has been copied
    and is released, with the array, when a block cannot be had. *)
Fixpoint dup_byte_strings (n : nat) (acc l : list OCByteString) : M heap (option (list OCByteString)) :=
  match n, l with
  | O, _ => mret (Some acc)
  | S n', b :: rest =>
      if len b =? 0 then dup_byte_strings n' (acc ++ [zero_bytes]) rest
      else
        ok ← OICMalloc (len b);
        if negb ok then
          _ ← each_n (fun b => OICFree (bytes b)) (length acc) acc; _ ← OICFree (Some tt); mret None
        else
          c ← lift (elements (bytes b) (len b));
          dup_byte_strings n' (acc ++ [{| bytes := Some c; len := len b |}]) rest
  | S _, [] => undefined
  end.

Definition OCRepPayloadSetByteStringArray payload nm (array : option (list OCByteString)) (d : dims)
    : M heap (bool * option OCRepPayload) :=
  match array with
  | None => mret (false, payload)
  | Some l =>
      let dimTotal := calcDimTotal d in
      if dimTotal =? 0 then mret (false, payload)
      else
        ok ← OICCalloc dimTotal sizeof_byte_string;
        if negb ok then mret (false, payload)
        else
          newArray ← dup_byte_strings (Z.to_nat dimTotal) [] l;
          match newArray with
          | None => mret (false, payload)
          | Some c =>
              '(b, payload) ← OCRepPayloadSetByteStringArrayAsOwner payload nm newArray d;
              if negb b then
                _ ← each (fun b => OICFree (bytes b)) dimTotal (Some c); _ ← OICFree (Some tt); mret (b, payload)
              else mret (b, payload)
          end
  end.

(** *** Reading arrays: the array and its dimensions, or [false] *)

(** The array that is read, when it is an array of type [ty] and not NULL. *)
Definition find_array {A} payload nm (ty : OCRepPayloadPropType)
    (get : array_ptr OCRepPayload -> ub (option (list A))) : ub (option (option (list A) * dims)) :=
  val ← OCRepPayloadFindValue payload nm;
  match val with
  | Some v =>
      if decide (type v = OCREP_PROP_ARRAY) then
        match content v with
        | m_arr a =>
            if decide (arr_type a = ty) then
              p ← get (elems a);
              Some (match p with Some _ => Some (p, dimensions a) | None => None end)
            else Some None
        | _ => None
        end
      else Some None
  | None => Some None
  end.

(** The getters of arrays of integers and booleans. *)
Definition get_copied {A} (size : Z) (found : ub (option (option (list A) * dims)))
    : M heap (option (list A * dims)) :=
  found ← lift found;
  match found with
  | Some (p, d) =>
      let dimTotal := calcDimTotal d in
      if dimTotal =? 0 then mret None
      else c ← copy_cells size dimTotal p; mret ((fun l => (l, d)) <$> c)
  | None => mret None
  end.

Definition OCRepPayloadGetIntArray payload nm : M heap (option (list (option Z) * dims)) :=
  get_copied sizeof_word
    (find_array payload nm OCREP_PROP_INT (fun e => match e with iArray p => Some p | _ => None end)).

Definition OCRepPayloadGetBoolArray payload nm : M heap (option (list (option bool) * dims)) :=
  get_copied 1
    (find_array payload nm OCREP_PROP_BOOL (fun e => match e with bArray p => Some p | _ => None end)).

(** An array of integers is converted, element by element. *)
Definition OCRepPayloadGetDoubleArray payload nm : M heap (option (list (option spec_float) * dims)) :=
  found ← lift (find_array payload nm OCREP_PROP_INT (fun e => match e with iArray p => Some p | _ => None end));
  match found with
  | Some (p, d) =>
      let dimTotal := calcDimTotal d in
      if dimTotal =? 0 then mret None
      else
        ok ← OICMalloc (u64 (dimTotal * sizeof_word));
        if negb ok then mret None
        else if cells sizeof_word dimTotal <? dimTotal then undefined
        else
          l ← lift (elements p dimTotal);
          mret (Some ((fun c : option Z => double_of_int64 <$> c) <$> (l : list (option Z)), d))
  | None =>
      get_copied sizeof_word
        (find_array payload nm OCREP_PROP_DOUBLE (fun e => match e with dArray p => Some p | _ => None end))
  end.

Definition OCRepPayloadGetStringArray payload nm : M heap (option (list (option string) * dims)) :=
  found ← lift (find_array payload nm OCREP_PROP_STRING (fun e => match e with strArray p => Some p | _ => None end));
  match found with
  | Some (p, d) =>
      let dimTotal := calcDimTotal d in
      if dimTotal =? 0 then mret None
      else
        ok ← OICMalloc (u64 (dimTotal * sizeof_word));
        if negb ok then mret None
        else if cells sizeof_word dimTotal <? dimTotal then undefined
        else l ← collect (fun c => s ← lift c; OICStrdup s) dimTotal p; mret (Some (l, d))
  | None => mret None
  end.

Definition OCRepPayloadGetByteStringArray payload nm : M heap (option (list OCByteString * dims)) :=
  found ← lift (find_array payload nm OCREP_PROP_BYTE_STRING
                  (fun e => match e with ocByteStrArray p => Some p | _ => None end));
  match found with
  | Some (p, d) =>
      let dimTotal := calcDimTotal d in
      if dimTotal =? 0 then mret None
      else
        ok ← OICCalloc dimTotal sizeof_byte_string;
        if negb ok then mret None
        else c ← dup_byte_strings (Z.to_nat dimTotal) [] (default [] p); mret ((fun l => (l, d)) <$> c)
  | None => mret None
  end.

Definition OCRepPayloadGetPropObjectArray payload nm : M heap (option (list (option OCRepPayload) * dims)) :=
  found ← lift (find_array payload nm OCREP_PROP_OBJECT (fun e => match e with objArray p => Some p | _ => None end));
  match found with
  | Some (p, d) =>
      let dimTotal := calcDimTotal d in
      if dimTotal =? 0 then mret None
      else
        ok ← OICMalloc (u64 (dimTotal * sizeof_word));
        if negb ok then mret None
        else if cells sizeof_word dimTotal <? dimTotal then undefined
        else l ← collect OCRepPayloadClone dimTotal p; mret (Some (l, d))
  | None => mret None
  end.

(** ** The payload itself *)

(** [false] leaves the string with the caller. *)
Definition OCRepPayloadAddResourceTypeAsOwner (payload : option OCRepPayload) (resourceType : option string)
    : M heap (bool * option OCRepPayload) :=
  match payload, resourceType with
  | Some p, Some _ =>
      ok ← OICCalloc 1 sizeof_string_ll;
      if negb ok then mret (false, payload)
      else mret (true, Some (set_types (types p ++ [resourceType]) p))
  | _, _ => mret (false, payload)
  end.

Definition OCRepPayloadAddResourceType (payload : option OCRepPayload) (resourceType : option string)
    : M heap (bool * option OCRepPayload) :=
  s ← OICStrdup resourceType; OCRepPayloadAddResourceTypeAsOwner payload s.

Definition OCRepPayloadAddInterfaceAsOwner (payload : option OCRepPayload) (iface : option string)
    : M heap (bool * option OCRepPayload) :=
  match payload, iface with
  | Some p, Some _ =>
      ok ← OICCalloc 1 sizeof_string_ll;
      if negb ok then mret (false, payload)
      else mret (true, Some (set_interfaces (interfaces p ++ [iface]) p))
  | _, _ => mret (false, payload)
  end.

Definition OCRepPayloadAddInterface (payload : option OCRepPayload) (iface : option string)
    : M heap (bool * option OCRepPayload) :=
  s ← OICStrdup iface; OCRepPayloadAddInterfaceAsOwner payload s.

Definition OCRepPayloadSetUri (payload : option OCRepPayload) (u : option string)
    : M heap (bool * option OCRepPayload) :=
  match payload with
  | None => mret (false, payload)
  | Some p =>
      _ ← OICFree (uri p); d ← OICStrdup u;
      mret (bool_decide (is_Some d), Some (set_uri d p))
  end.

(** [child] takes the place after the last payload of the list; what followed
    it is dropped. *)
Fixpoint append_rep (parent : OCRepPayload) (child : OCRepPayload) : OCRepPayload :=
  let '(Rep u t i v n) := parent in
  match n with
  | Some q => Rep u t i v (Some (append_rep q child))
  | None => Rep u t i v (Some (Rep (uri child) (types child) (interfaces child) (values child) None))
  end.

Definition OCRepPayloadAppend (parent child : option OCRepPayload) : ub (option OCRepPayload) :=
  match parent, child with
  | None, _ => Some None
  | Some p, Some c => Some (Some (append_rep p c))
  | Some _, None => None
  end.

(** What [OCRepPayloadSetPropObjectAsOwner] returns is not looked at. *)
Definition OCRepPayloadBatchClone (repPayload : OCRepPayload) : M heap (option OCRepPayload) :=
  newPayload ← OCRepPayloadCreate;
  match newPayload with
  | None => mret None
  | Some n =>
      u ← OICStrdup (uri repPayload);
      let newPayload := Some (set_uri u n) in
      clone ← OCRepPayloadCreate;
      match clone with
      | None => _ ← OCRepPayloadDestroy newPayload; mret None
      | Some _ =>
          t ← CloneOCStringLL (types repPayload);
          i ← CloneOCStringLL (interfaces repPayload);
          v ← OCRepPayloadValueClone clone_rep destroy_rep (values repPayload);
          '(_, newPayload) ← OCRepPayloadSetPropObjectAsOwner newPayload (Some OC_RSRVD_REPRESENTATION)
                               (Some (Rep None t i v None));
          mret newPayload
      end
  end.
