(* ===== verification/PayloadSpec.v ===== *)
(** * PayloadSpec: what a representation payload is, and what it owns

    When a payload is well typed, how many blocks it owns, and what a copy of
    it is, for the theorems about the operations of [Payload]. *)
From Stdlib Require Import SpecFloat.
From S2P Require Import Prelude Effects Heap Payload.

(** ** Specifications

    A property of the payloads inside a value is given by what it says of a
    payload; tying the knot gives the property of payloads. *)

Definition total {A} (f : A -> Z) : list A -> Z :=
  fix go l := match l with [] => 0 | x :: l' => f x + go l' end.

Definition all {A} (P : A -> Prop) : list A -> Prop :=
  fix go l := match l with [] => True | x :: l' => P x /\ go l' end.

Section Inside.
Context {R : Type}.

(** Blocks. *)
Definition blocks_obj (f : R -> Z) (o : option R) : Z := match o with Some p => f p | None => 0 end.

Definition blocks_elems (f : R -> Z) (e : array_ptr R) : Z :=
  match e with
  | iArray p => blk p
  | dArray p => blk p
  | bArray p => blk p
  | strArray p => total (fun c => blk (mjoin c)) (default [] p) + blk p
  | ocByteStrArray p => total (fun b => blk (bytes b)) (default [] p) + blk p
  | objArray p => match p with Some l => total (blocks_obj f) l | None => 0 end + blk p
  end.

Definition blocks_member (f : R -> Z) (m : member R) : Z :=
  match m with
  | m_str s => blk s
  | m_ocByteStr b => blk (bytes b)
  | m_obj o => blocks_obj f o
  | m_arr a => blocks_elems f (elems a)
  | _ => 0
  end.

Definition blocks_value (f : R -> Z) (v : OCRepPayloadValue R) : Z :=
  blk (name v) + blocks_member f (content v) + 1.

(** Types: the member that was stored is the one the type names.  An array has
    as many elements as its dimensions say, and its size is a [size_t]; its strings
    have been written and are not NULL. *)
Definition typed_obj (P : R -> Prop) (o : option R) : Prop := match o with Some p => P p | None => True end.

Definition bytes_ok (b : OCByteString) : Prop := len b = Z.of_nat (length (default [] (bytes b))).

Definition sized {A} (n : Z) (p : option (list A)) : Prop := Z.of_nat (length (default [] p)) = n.

Definition typed_elems (P : R -> Prop) (ty : OCRepPayloadPropType) (n : Z) (e : array_ptr R) : Prop :=
  match ty, e with
  | OCREP_PROP_INT, iArray p => sized n p
  | OCREP_PROP_DOUBLE, dArray p => sized n p
  | OCREP_PROP_BOOL, bArray p => sized n p
  | OCREP_PROP_STRING, strArray p => sized n p /\ all (fun c => is_Some (mjoin c)) (default [] p)
  | OCREP_PROP_BYTE_STRING, ocByteStrArray p => sized n p /\ all bytes_ok (default [] p)
  | OCREP_PROP_OBJECT, objArray p =>
      sized n p /\ match p with Some l => all (typed_obj P) l | None => True end
  | _, _ => False
  end.

Definition typed_array (P : R -> Prop) (a : OCRepPayloadValueArray R) : Prop :=
  calcDimTotal (dimensions a) * sizeof_byte_string <= SIZE_MAX /\
  typed_elems P (arr_type a) (calcDimTotal (dimensions a)) (elems a).

Definition typed_member (P : R -> Prop) (ty : OCRepPayloadPropType) (m : member R) : Prop :=
  match ty, m with
  | OCREP_PROP_NULL, no_member => True
  | OCREP_PROP_INT, m_i _ => True
  | OCREP_PROP_DOUBLE, m_d _ => True
  | OCREP_PROP_BOOL, m_b _ => True
  | OCREP_PROP_STRING, m_str _ => True
  | OCREP_PROP_BYTE_STRING, m_ocByteStr b => bytes_ok b
  | OCREP_PROP_OBJECT, m_obj o => typed_obj P o
  | OCREP_PROP_ARRAY, m_arr a => typed_array P a
  | _, _ => False
  end.

Definition typed_value (P : R -> Prop) (v : OCRepPayloadValue R) : Prop :=
  is_Some (name v) /\ typed_member P (type v) (content v).

(** Copies: blocks without bytes are NULL, and an array of byte strings ends,
    for the code that copies it, with the first empty one. *)
Definition copy_bytes (b : OCByteString) : OCByteString := if len b =? 0 then zero_bytes else b.

Fixpoint copy_until_empty (l : list OCByteString) : list OCByteString :=
  match l with
  | [] => []
  | b :: rest => if len b =? 0 then zero_bytes :: replicate (length rest) zero_bytes else b :: copy_until_empty rest
  end.

(** The copy of a block: NULL when there is nothing in it. *)
Definition copy_block {A} (p : option (list A)) : option (list A) :=
  match p with Some [] => None | _ => p end.

Definition copy_obj (f : R -> R) (o : option R) : option R := match o with Some p => Some (f p) | None => None end.

Definition copy_objs (f : R -> R) : list (option R) -> list (option R) :=
  fix go l := match l with [] => [] | o :: l' => copy_obj f o :: go l' end.

Definition copy_elems (f : R -> R) (e : array_ptr R) : array_ptr R :=
  match e with
  | iArray p => iArray (copy_block p)
  | dArray p => dArray (copy_block p)
  | bArray p => bArray (copy_block p)
  | strArray p => strArray (copy_block p)
  | ocByteStrArray p => ocByteStrArray (copy_block (copy_until_empty <$> p))
  | objArray p => objArray (match p with Some l => copy_block (Some (copy_objs f l)) | None => None end)
  end.

Definition copy_member (f : R -> R) (m : member R) : member R :=
  match m with
  | m_ocByteStr b => m_ocByteStr (copy_bytes b)
  | m_obj o => m_obj (copy_obj f o)
  | m_arr a => m_arr (Build_OCRepPayloadValueArray (arr_type a) (dimensions a) (copy_elems f (elems a)))
  | _ => m
  end.

Definition copy_value (f : R -> R) (v : OCRepPayloadValue R) : OCRepPayloadValue R :=
  Build_OCRepPayloadValue (name v) (type v) (copy_member f (content v)).

Definition copy_values (f : R -> R) : list (OCRepPayloadValue R) -> list (OCRepPayloadValue R) :=
  fix go l := match l with [] => [] | v :: l' => copy_value f v :: go l' end.
End Inside.

Definition blocks_ll (l : OCStringLL) : Z := total (fun s => blk s + 1) l.

(** How many blocks a payload owns, and those that follow it. *)
Fixpoint blocks (p : OCRepPayload) : Z :=
  let '(Rep u t i v n) := p in
  blk u + blocks_ll t + blocks_ll i + total (blocks_value blocks) v +
  match n with Some q => blocks q | None => 0 end + 1.

Fixpoint typed (p : OCRepPayload) : Prop :=
  let '(Rep _ _ _ v n) := p in
  all (typed_value typed) v /\ match n with Some q => typed q | None => True end.

(** A copy does not have what follows the payload. *)
Fixpoint copy (p : OCRepPayload) : OCRepPayload :=
  let '(Rep u t i v _) := p in Rep u t i (copy_values copy v) None.

(** ** Induction *)

Definition holds_inside (P : OCRepPayload -> Prop) (m : member OCRepPayload) : Prop :=
  match m with
  | m_obj o => typed_obj P o
  | m_arr a => match elems a with objArray (Some l) => all (typed_obj P) l | _ => True end
  | _ => True
  end.

Section Induction.
Context (P : OCRepPayload -> Prop)
  (step : forall u t i v n, all (fun x => holds_inside P (content x)) v ->
     match n with Some q => P q | None => True end -> P (Rep u t i v n)).

Fixpoint rep_induction (p : OCRepPayload) : P p.
Proof.
  destruct p as [u t i v n]. apply step.
  - induction v as [|[nm ty m] v IH]; cbn [all]; [done|]. split; [|exact IH].
    destruct m as [|z|d|b|s|b|[q|]|[aty ds e]]; cbn; try done.
    destruct e as [p|p|p|p|p|[l|]]; try done.
    induction l as [|[q|] l IHl]; cbn; [done| |]; (split; [|exact IHl]); [apply rep_induction|done].
  - destruct n as [q|]; [apply rep_induction|done].
Qed.
End Induction.

(** ** Releasing *)

Lemma all_Forall {A} (P : A -> Prop) l : all P l <-> Forall P l.
Proof. induction l as [|x l IH]; cbn; [done|]. by rewrite Forall_cons, IH. Qed.

Lemma all_impl {A} (P Q : A -> Prop) l : all P l -> (forall x, P x -> Q x) -> all Q l.
Proof. rewrite !all_Forall. intros H HPQ. by eapply Forall_impl. Qed.

Lemma all_true {A} (P : A -> Prop) l : (forall x, P x) -> all P l.
Proof. intros H. rewrite all_Forall. by apply Forall_true. Qed.

Lemma total_app {A} (f : A -> Z) l k : total f (l ++ k) = total f l + total f k.
Proof. induction l as [|x l IH]; cbn; [done|]. rewrite IH. lia. Qed.

Lemma frees_each_n {A} (f : A -> M heap unit) (g : A -> Z) l :
  all (fun x => frees (f x) (g x)) l -> frees (each_n f (length l) l) (total g l).
Proof.
  induction l as [|x l IH]; cbn [each_n length all total]; [intros; apply frees_ret|].
  intros [Hx Hl]. apply frees_bind; auto.
Qed.

Lemma frees_each {A} (f : A -> M heap unit) (g : A -> Z) n p : sized n p ->
  all (fun x => frees (f x) (g x)) (default [] p) -> frees (each f n p) (total g (default [] p)).
Proof.
  unfold sized, each. intros Hn Hp. destruct (Z.eqb_spec n 0) as [->|Hne].
  - assert (default [] p = []) as -> by (destruct p as [[|]|]; cbn in *; (done || lia)). apply frees_ret.
  - destruct p as [l|]; cbn in *; [|lia]. rewrite <- Hn, Nat2Z.id. by apply frees_each_n.
Qed.

Lemma frees_ll l : frees (OCFreeOCStringLL l) (blocks_ll l).
Proof.
  induction l as [|s l IH]; [apply frees_ret|]. cbn [OCFreeOCStringLL].
  eapply frees_eq; [repeat apply frees_bind; [apply IH|apply frees_ptr|apply frees_ptr]|]. cbn. unfold blocks_ll. lia.
Qed.

Section Frees.
Context {R : Type} (destroy : R -> M heap unit) (P : R -> Prop) (b : R -> Z).

(** What is known of the payloads inside. *)
Definition frees_obj (o : option R) : Prop := match o with Some p => P p -> frees (destroy p) (b p) | None => True end.

Lemma frees_destroy_obj o : frees_obj o -> typed_obj P o -> frees (destroy_obj destroy o) (blocks_obj b o).
Proof. destruct o; cbn; [auto|]. intros _ _. apply frees_ret. Qed.

Definition frees_inside (m : member R) : Prop :=
  match m with
  | m_obj o => frees_obj o
  | m_arr a => match elems a with objArray (Some l) => all frees_obj l | _ => True end
  | _ => True
  end.

Lemma frees_free_array a : frees_inside (m_arr a) -> typed_array P a ->
  frees (free_array destroy a) (blocks_elems b (elems a)).
Proof.
  destruct a as [ty d e]. unfold typed_array, free_array. cbn [arr_type dimensions elems frees_inside].
  intros Hin [_ Ht]. destruct ty, e as [p|p|p|p|p|p]; cbn in Ht; try done; cbn [blocks_elems]; try apply frees_ptr.
  - destruct Ht as [Hs Hw]. apply frees_bind; [|apply frees_ptr]. apply frees_each; [done|].
    apply (all_impl _ _ _ Hw). intros c [s Hc].
    destruct c as [[x|]|]; [|done|done]. apply (frees_ptr (Some x)).
  - destruct Ht as [Hs Hb]. apply frees_bind; [|apply frees_ptr]. apply frees_each; [done|].
    apply all_true. intros. apply frees_ptr.
  - destruct Ht as [Hs Ho]. apply frees_bind; [|apply frees_ptr].
    replace (match p with Some l => _ | None => _ end) with (total (blocks_obj b) (default [] p)) by by destruct p.
    apply frees_each; [done|]. destruct p as [l|]; cbn in *; [|done]. clear Hs.
    induction l as [|o l IH]; cbn in *; [done|]. destruct Ho, Hin. split; [by apply frees_destroy_obj|auto].
Qed.

Lemma frees_contents v : frees_inside (content v) -> typed_member P (type v) (content v) ->
  frees (OCFreeRepPayloadValueContents destroy v) (blocks_member b (content v)).
Proof.
  destruct v as [nm ty m]. unfold OCFreeRepPayloadValueContents. cbn [content type].
  destruct ty, m; cbn; try done; intros Hin Ht; try apply frees_ret; try apply frees_ptr.
  - by apply frees_destroy_obj.
  - by apply frees_free_array.
Qed.

Lemma frees_values l : all (fun v => frees_inside (content v)) l -> all (typed_value P) l ->
  frees (OCFreeRepPayloadValue destroy l) (total (blocks_value b) l).
Proof.
  induction l as [|v l IH]; [intros; apply frees_ret|]. intros [Hi Hl] [[_ Ht] Htl].
  cbn [OCFreeRepPayloadValue total].
  eapply frees_eq;
    [repeat apply frees_bind; [apply frees_ptr|by apply frees_contents|by apply IH|apply frees_ptr]|].
  unfold blocks_value. cbn. lia.
Qed.
End Frees.

(** The invariants of the payloads inside, from those of all payloads. *)
Lemma destroy_frees p : typed p -> frees (destroy_rep p) (blocks p).
Proof.
  induction p as [u t i v n Hv Hn] using rep_induction.
  cbn [typed destroy_rep]. intros [Htv Htn]. eapply frees_eq.
  - apply frees_bind; [apply frees_ptr|]. apply frees_bind; [apply frees_ll|]. apply frees_bind; [apply frees_ll|].
    apply frees_bind; [apply (frees_values _ typed blocks); [|exact Htv]|]. 
    + apply (all_impl _ _ _ Hv). intros [nm ty m]. by destruct m as [| | | | | |[]|[aty d []]].
    + apply frees_bind; [|apply frees_ptr].
      instantiate (1 := match n with Some q => blocks q | None => 0 end).
      destruct n as [q|]; [by apply Hn|apply frees_ret].
  - cbn [blocks blk]. lia.
Qed.

(** ** Copying, with memory to be had *)

Lemma u64_size n size : 0 <= n -> 0 < size -> n * size <= SIZE_MAX -> u64 (n * size) = n * size.
Proof. intros. apply wrap_small. unfold SIZE_MAX in *. nia. Qed.

Lemma cells_all n size : 0 <= n -> 0 < size -> n * size <= SIZE_MAX -> cells size n = n.
Proof. intros. unfold cells. rewrite u64_size by done. apply Z.div_mul. lia. Qed.

Lemma calcDimTotal_nonneg d : 0 <= calcDimTotal d.
Proof.
  assert (forall l t, 0 <= t -> 0 <= dim_loop l t) as H.
  { induction l as [|x l IH]; intros t Ht; cbn; [done|]. destruct (x =? 0); [done|]. apply IH, wrap_range. lia. }
  destruct d as [[a b] c]. unfold calcDimTotal. destruct (a =? 0); [done|]. by apply H.
Qed.

Lemma elements_all {A} n (p : option (list A)) : sized n p -> elements p n = Some (default [] p).
Proof.
  unfold sized, elements. intros <-. destruct p as [l|]; [|done]. cbn.
  destruct (Z.eqb_spec (Z.of_nat (length l)) 0); [destruct l; [done|cbn in *; lia]|].
  rewrite Z.leb_refl, Nat2Z.id. by rewrite take_ge.
Qed.

(** The copy of a block whose elements are copied one by one. *)
Lemma copy_block_sized {A} n (p : option (list A)) : sized n p ->
  copy_block p = (if n =? 0 then None else Some (default [] p)).
Proof. unfold sized. destruct p as [[|x l]|]; cbn; intros <-; done. Qed.

Lemma yields_copy_cells {A} size n (p : option (list A)) : 0 < size -> n * size <= SIZE_MAX -> sized n p ->
  yields (copy_cells size n p) (copy_block p) (blk (copy_block p)).
Proof.
  intros Hz Hm Hs. assert (0 <= n) by (unfold sized in Hs; lia). unfold copy_cells.
  rewrite u64_size, cells_all, (copy_block_sized n) by done. destruct (Z.eqb_spec n 0) as [->|Hn].
  - eapply yields_eq; [eapply yields_bind; [by apply yields_malloc_0|apply yields_ret]|done].
  - eapply yields_eq; [eapply yields_bind; [apply yields_malloc; nia|]|].
    + eapply yields_bind; [by apply yields_lift, elements_all|apply yields_ret].
    + done.
Qed.

Lemma yields_string_ll acc l : yields (clone_string_ll acc l) (acc ++ l) (blocks_ll l).
Proof.
  revert acc. induction l as [|s l IH]; intros acc; cbn [clone_string_ll].
  - rewrite app_nil_r. apply yields_ret.
  - eapply yields_eq; [eapply yields_bind; [by apply yields_calloc|cbn [negb]]|].
    + eapply yields_bind; [apply yields_strdup|].
      specialize (IH (acc ++ [s])). rewrite <- app_assoc in IH. exact IH.
    + unfold blocks_ll. cbn. lia.
Qed.

Lemma bytes_present b : bytes_ok b -> len b <> 0 -> bytes b = Some (default [] (bytes b)).
Proof. unfold bytes_ok. destruct (bytes b); cbn; [done|]. intros ->. done. Qed.

Lemma bytes_eta b l : bytes b = Some l -> {| bytes := Some l; len := len b |} = b.
Proof. destruct b. by cbn; intros ->. Qed.

Lemma yields_byte_copy b : bytes_ok b ->
  yields (OCByteStringCopy (Some zero_bytes) (Some b)) (true, Some (copy_bytes b)) (blk (bytes (copy_bytes b))).
Proof.
  intros Hb. unfold OCByteStringCopy, copy_bytes. cbn [bytes zero_bytes]. destruct (Z.eqb_spec (len b) 0) as [Hz|Hz].
  - eapply yields_eq; [eapply yields_bind; [apply (yields_frees _ _ (frees_ptr None))|apply yields_ret]|done].
  - pose proof (bytes_present b Hb Hz) as Hp.
    eapply yields_eq; [eapply yields_bind; [apply (yields_frees _ _ (frees_ptr None))|]|].
    + eapply yields_bind; [by apply yields_malloc|]. cbn [negb].
      eapply yields_bind; [by apply yields_lift, elements_all; symmetry|].
      rewrite (bytes_eta b) by done. apply yields_ret.
    + by rewrite Hp.
Qed.

Lemma zeros_blocks k : total (fun b => blk (bytes b)) (replicate k zero_bytes) = 0.
Proof. induction k; cbn; lia. Qed.

Lemma yields_byte_strings l : all bytes_ok l ->
  yields (copy_byte_strings l) (copy_until_empty l) (total (fun b => blk (bytes b)) (copy_until_empty l)).
Proof.
  induction l as [|b l IH]; [intros; apply yields_ret|]. intros [Hb Hl]. cbn [copy_byte_strings copy_until_empty].
  eapply yields_eq; [eapply yields_bind; [by apply yields_byte_copy|]|].
  - cbn beta iota. cbn [default from_option id]. unfold copy_bytes.
    instantiate (1 := if len b =? 0 then 0 else total (fun b => blk (bytes b)) (copy_until_empty l)).
    destruct (Z.eqb_spec (len b) 0) as [Hz|Hz]; [apply yields_ret|]. rewrite (bytes_present b) by done.
    eapply yields_eq; [eapply yields_bind; [by apply IH|apply yields_ret]|lia].
  - unfold copy_bytes. destruct (len b =? 0); cbn; [|lia]. by rewrite zeros_blocks.
Qed.

Lemma yields_strings l : all (fun c => is_Some (mjoin c)) l ->
  exists k, written l = Some k /\ yields (copy_strings k) l (total (fun c => blk (mjoin c)) l).
Proof.
  induction l as [|c l IH]; [intros; exists []; split; [done|apply yields_ret]|].
  intros [[s Hc] Hl]. destruct c as [[x|]|]; [|done|done]. destruct (IH Hl) as (k & E & Hk).
  exists (Some x :: k). split; [unfold written in *; cbn; by rewrite E|]. cbn [copy_strings].
  eapply yields_eq; [eapply yields_bind; [apply yields_strdup|]|].
  - eapply yields_bind; [exact Hk|apply yields_ret].
  - cbn. lia.
Qed.

Section Yields.
Context {R : Type} (clone : R -> M heap (option R)) (destroy : R -> M heap unit)
  (P : R -> Prop) (f : R -> R) (b : R -> Z).

Definition yields_obj (o : option R) : Prop :=
  match o with Some p => P p -> yields (clone p) (Some (f p)) (b (f p)) | None => True end.

Definition yields_inside (m : member R) : Prop :=
  match m with
  | m_obj o => yields_obj o
  | m_arr a => match elems a with objArray (Some l) => all yields_obj l | _ => True end
  | _ => True
  end.

Lemma yields_clone_obj o : yields_obj o -> typed_obj P o ->
  yields (clone_obj clone o) (copy_obj f o) (blocks_obj b (copy_obj f o)).
Proof. destruct o; cbn; [auto|]. intros _ _. apply yields_ret. Qed.

Lemma yields_clone_objs l : all yields_obj l -> all (typed_obj P) l ->
  yields (map_n (clone_obj clone) (length l) l) (copy_objs f l) (total (blocks_obj b) (copy_objs f l)).
Proof.
  induction l as [|o l IH]; [intros; apply yields_ret|]. intros [Ho Hl] [Hto Htl]. cbn [map_n length].
  eapply yields_eq; [eapply yields_bind; [by apply yields_clone_obj|]|].
  - eapply yields_bind; [by apply IH|apply yields_ret].
  - cbn. lia.
Qed.

(** A block for [n] words. *)
Lemma yields_words {A} n (k : bool -> M heap A) x y : n * sizeof_byte_string <= SIZE_MAX -> 0 <= n ->
  (n = 0 -> yields (k false) x y) -> (n <> 0 -> yields (k true) x (y - 1)) ->
  yields (OICMalloc (u64 (n * sizeof_word)) ≫= k) x y.
Proof.
  unfold sizeof_byte_string, sizeof_word. intros Hm H0 Hf Ht. rewrite u64_size by lia.
  destruct (Z.eq_dec n 0) as [->|Hn].
  - eapply yields_eq; [eapply yields_bind; [by apply yields_malloc_0|by apply Hf]|lia].
  - eapply yields_eq; [eapply yields_bind; [apply yields_malloc; lia|by apply Ht]|lia].
Qed.

Lemma word_cells n : n * sizeof_byte_string <= SIZE_MAX -> 0 <= n -> (cells sizeof_word n <? n) = false.
Proof.
  unfold sizeof_byte_string. intros. rewrite cells_all by (unfold sizeof_word; lia). apply Z.ltb_irrefl.
Qed.

(** The cases of an array: [n] elements, in a block of their own. *)
Lemma yields_string_array n p (put : option (list (option (option string))) -> OCRepPayloadValueArray R) :
  n * sizeof_byte_string <= SIZE_MAX -> sized n p -> all (fun c => is_Some (mjoin c)) (default [] p) ->
  yields (ok ← OICMalloc (u64 (n * sizeof_word));
          if negb ok then mret (put None)
          else if cells sizeof_word n <? n then undefined
          else
            l ← lift (elements p n); l ← lift (written l);
            r ← copy_strings l; mret (put (Some r)))
    (put (copy_block p)) (total (fun c => blk (mjoin c)) (default [] (copy_block p)) + blk (copy_block p)).
Proof.
  intros Hm Hs Hst. assert (0 <= n) as H0 by (unfold sized in Hs; lia). rewrite (copy_block_sized n) by done.
  apply yields_words; [done|done| |]; intros Hn.
  - rewrite Hn. apply yields_ret.
  - cbn [negb]. rewrite word_cells by done. destruct (Z.eqb_spec n 0); [done|].
    destruct (yields_strings _ Hst) as (k & E & Hk).
    eapply yields_eq; [eapply yields_bind; [by apply yields_lift, elements_all|]|].
    + eapply yields_bind; [by apply yields_lift|]. eapply yields_bind; [exact Hk|apply yields_ret].
    + cbn. lia.
Qed.

Lemma copy_until_empty_length l : length (copy_until_empty l) = length l.
Proof.
  induction l as [|x l IH]; [done|]. cbn. destruct (len x =? 0); cbn; [by rewrite length_replicate|by rewrite IH].
Qed.

Lemma yields_byte_string_array n p (put : option (list OCByteString) -> OCRepPayloadValueArray R) :
  n * sizeof_byte_string <= SIZE_MAX -> sized n p -> all bytes_ok (default [] p) ->
  let q := copy_block (copy_until_empty <$> p) in
  yields (ok ← OICCalloc n sizeof_byte_string;
          if negb ok then mret (put None)
          else l ← lift (elements p n); r ← copy_byte_strings l; mret (put (Some r)))
    (put q) (total (fun b => blk (bytes b)) (default [] q) + blk q).
Proof.
  intros Hm Hs Hb.
  assert (sized n (copy_until_empty <$> p)) as Hs'.
  { unfold sized in *. rewrite <- Hs. destruct p as [l|]; [|done]. cbn. by rewrite copy_until_empty_length. }
  cbn zeta. rewrite (copy_block_sized n) by done. destruct (Z.eqb_spec n 0) as [Hn|Hn].
  - rewrite Hn. intros h _. cbn. by rewrite add_live_0.
  - eapply yields_eq; [eapply yields_bind; [by apply yields_calloc|cbn [negb]]|].
    + eapply yields_bind; [by apply yields_lift, elements_all|].
      eapply yields_bind; [by apply yields_byte_strings|].
      replace (copy_until_empty (default [] p)) with (default [] (copy_until_empty <$> p)) by by destruct p.
      apply yields_ret.
    + destruct p; cbn; lia.
Qed.

Lemma yields_obj_array n p (put : option (list (option R)) -> OCRepPayloadValueArray R) :
  n * sizeof_byte_string <= SIZE_MAX -> sized n p ->
  match p with Some l => all (typed_obj P) l | None => True end ->
  match p with Some l => all yields_obj l | None => True end ->
  let q := match p with Some l => copy_block (Some (copy_objs f l)) | None => None end in
  yields (ok ← OICMalloc (u64 (n * sizeof_word));
          if negb ok then mret (put None)
          else if cells sizeof_word n <? n then undefined
          else r ← collect (clone_obj clone) n p; mret (put (Some r)))
    (put q) (match q with Some l => total (blocks_obj b) l | None => 0 end + blk q).
Proof.
  intros Hm Hs Ho Hin. assert (0 <= n) as H0 by (unfold sized in Hs; lia). cbn zeta.
  apply yields_words; [done|done| |]; intros Hn.
  - destruct p as [[|x l]|]; unfold sized in Hs; cbn in *; [apply yields_ret|lia|apply yields_ret].
  - cbn [negb]. rewrite word_cells by done. destruct p as [l|]; unfold sized in Hs; cbn in Hs; [|lia].
    unfold collect. destruct (Z.eqb_spec n 0); [done|]. rewrite <- Hs, Nat2Z.id.
    assert (copy_block (Some (copy_objs f l)) = Some (copy_objs f l)) as -> by (destruct l; [cbn in Hs; lia|done]).
    eapply yields_eq; [eapply yields_bind; [by apply yields_clone_objs|apply yields_ret]|]. cbn. lia.
Qed.

Lemma yields_array a : yields_inside (m_arr a) -> typed_array P a ->
  yields (OCCopyPropertyValueArray clone a)
    (Build_OCRepPayloadValueArray (arr_type a) (dimensions a) (copy_elems f (elems a)))
    (blocks_elems b (copy_elems f (elems a))).
Proof.
  destruct a as [ty d e]. unfold typed_array, OCCopyPropertyValueArray. cbn [arr_type dimensions elems yields_inside].
  intros Hin [Hm Ht].
  assert (calcDimTotal d * sizeof_word <= SIZE_MAX /\ calcDimTotal d * 1 <= SIZE_MAX) as [Hw H1]
    by (pose proof (calcDimTotal_nonneg d); unfold sizeof_word, sizeof_byte_string in *; lia).
  destruct ty, e as [p|p|p|p|p|p]; cbn [typed_elems] in Ht; try done; cbn [copy_elems].
  1-3: eapply yields_eq; [eapply yields_bind; [by apply yields_copy_cells|apply yields_ret]|cbn; lia].
  - destruct Ht. by apply (yields_string_array _ _ (fun q => Build_OCRepPayloadValueArray _ _ (strArray q))).
  - destruct Ht. by apply (yields_byte_string_array _ _ (fun q => Build_OCRepPayloadValueArray _ _ (ocByteStrArray q))).
  - destruct Ht. apply (yields_obj_array _ _ (fun q => Build_OCRepPayloadValueArray _ _ (objArray q))); [done..|].
    by destruct p.
Qed.

Lemma yields_contents v : yields_inside (content v) -> typed_member P (type v) (content v) ->
  yields (OCCopyPropertyValue clone v) (copy_member f (content v)) (blocks_member b (copy_member f (content v))).
Proof.
  destruct v as [nm ty m]. unfold OCCopyPropertyValue. cbn [content type].
  destruct ty, m as [|z|d|x|s|y|o|a]; cbn [typed_member yields_inside]; try done; intros Hin Ht; try apply yields_ret.
  - eapply yields_eq; [eapply yields_bind; [apply yields_strdup|apply yields_ret]|cbn; lia].
  - cbn [copy_member]. unfold copy_bytes. destruct (Z.eqb_spec (len y) 0) as [Hz|Hz].
    + rewrite Hz. eapply yields_eq; [eapply yields_bind; [by apply yields_malloc_0|apply yields_ret]|done].
    + pose proof (bytes_present y Ht Hz) as Hp.
      eapply yields_eq; [eapply yields_bind; [by apply yields_malloc|cbn [negb]]|].
      * eapply yields_bind; [by apply yields_lift, elements_all; symmetry|].
        rewrite (bytes_eta y) by done. apply yields_ret.
      * cbn. by rewrite Hp.
  - eapply yields_eq; [eapply yields_bind; [by apply yields_clone_obj|apply yields_ret]|cbn; lia].
  - eapply yields_eq; [eapply yields_bind; [by apply yields_array|apply yields_ret]|cbn; lia].
Qed.

Lemma yields_values acc l : all (fun v => yields_inside (content v)) l -> all (typed_value P) l ->
  yields (clone_values clone destroy acc l) (acc ++ copy_values f l) (total (blocks_value b) (copy_values f l)).
Proof.
  revert acc. induction l as [|v l IH]; intros acc; [intros; cbn; rewrite app_nil_r; apply yields_ret|].
  intros [Hi Hl] [[_ Ht] Htl]. cbn [clone_values].
  eapply yields_eq; [eapply yields_bind; [by apply yields_calloc|cbn [negb]]|].
  - eapply yields_bind; [apply yields_strdup|]. eapply yields_bind; [by apply yields_contents|].
    specialize (IH (acc ++ [copy_value f v]) Hl Htl). rewrite <- app_assoc in IH. exact IH.
  - cbn [copy_values total]. unfold blocks_value at 2. cbn. lia.
Qed.
End Yields.

Lemma clone_yields p : typed p -> yields (clone_rep p) (Some (copy p)) (blocks (copy p)).
Proof.
  induction p as [u t i v n Hv _] using rep_induction. cbn [typed clone_rep]. intros [Htv _].
  eapply yields_eq; [eapply yields_bind|].
  - unfold OCRepPayloadCreate. eapply yields_bind; [by apply yields_calloc|apply yields_ret].
  - cbn beta iota. eapply yields_bind; [apply yields_strdup|].
    eapply yields_bind; [apply (yields_string_ll [] t)|]. eapply yields_bind; [apply (yields_string_ll [] i)|].
    eapply yields_bind; [|apply yields_ret].
    apply (yields_values clone_rep destroy_rep typed copy blocks []); [|exact Htv].
    apply (all_impl _ _ _ Hv). intros [nm ty m]. by destruct m as [| | | | | |[]|[aty d []]].
  - cbn [blocks copy]. cbn [app]. lia.
Qed.

(** ** Copies are well typed *)

Section CopyTyped.
Context (P : OCRepPayload -> Prop) (f : OCRepPayload -> OCRepPayload).

Lemma sized_copy_block {A} n (p : option (list A)) : sized n p -> sized n (copy_block p).
Proof. by destruct p as [[]|]. Qed.

Lemma copy_until_empty_ok l : all bytes_ok l -> all bytes_ok (copy_until_empty l).
Proof.
  induction l as [|b l IH]; [done|]. intros [Hb Hl]. cbn. destruct (len b =? 0); cbn; [|auto].
  split; [done|]. induction (length l); cbn; [done|]. by split.
Qed.

Lemma copy_objs_typed l : all (typed_obj (fun p => P p -> P (f p))) l -> all (typed_obj P) l ->
  all (typed_obj P) (copy_objs f l).
Proof.
  induction l as [|o l IH]; [done|]. intros [H1 Hl] [H2 Hl2]. split; [|by apply IH]. destruct o; cbn in *; auto.
Qed.

Lemma copy_objs_length (l : list (option OCRepPayload)) : length (copy_objs f l) = length l.
Proof. induction l; cbn; auto. Qed.

Lemma copy_member_typed ty m : holds_inside (fun p => P p -> P (f p)) m -> typed_member P ty m ->
  typed_member P ty (copy_member f m).
Proof.
  destruct ty, m as [|z|d|x|s|y|o|a]; cbn; try done.
  - unfold copy_bytes. intros _ Hy. by destruct (len y =? 0).
  - destruct o; cbn; auto.
  - destruct a as [aty d e]. unfold typed_array. cbn [elems dimensions arr_type].
    intros Hin [Hm He]. split; [done|]. destruct aty, e as [p|p|p|p|p|p]; cbn in He |- *; try done;
      try by apply sized_copy_block.
    + destruct He as [Hs Hst]. split; [by apply sized_copy_block|]. by destruct p as [[]|].
    + destruct He as [Hs Hb]. split.
      * apply sized_copy_block. unfold sized in *. destruct p; cbn in *; [by rewrite copy_until_empty_length|done].
      * destruct p as [l|]; [|done]. apply copy_until_empty_ok in Hb. cbn in *. by destruct (copy_until_empty l).
    + destruct He as [Hs Ho]. destruct p as [l|]; [|done]. cbn in Hin. split.
      * apply (sized_copy_block _ (Some (copy_objs f l))). unfold sized in *. cbn in *. by rewrite copy_objs_length.
      * pose proof (copy_objs_typed l Hin Ho). by destruct (copy_objs f l).
Qed.
End CopyTyped.

Lemma copy_typed p : typed p -> typed (copy p).
Proof.
  induction p as [u t i v n Hv _] using rep_induction. cbn [typed copy]. intros [Htv _]. split; [|done].
  induction v as [|x v IH]; [done|]. destruct Hv as [Hx Hv], Htv as [[Hn Ht] Htv].
  split; [|by apply IH]. split; [done|]. by apply copy_member_typed.
Qed.
