(* ===== verification/PayloadStore.v ===== *)
(** * PayloadStore: a representation payload is a map from names to values

    The setters and getters of [Payload] refine a finite map, keep payloads
    well typed with each name once, and neither lose nor share a block. *)
From Stdlib Require Import SpecFloat.
From S2P Require Import Prelude Effects Heap Payload PayloadSpec.

(** ** The map *)

Definition entry : Type := OCRepPayloadPropType * member OCRepPayload.
Definition entry_of (v : value) : entry := (type v, content v).

(** The first value of a name counts. *)
Fixpoint view_values (l : list value) : gmap string entry :=
  match l with
  | [] => ∅
  | v :: rest =>
      match name v with Some n => <[n := entry_of v]> (view_values rest) | None => view_values rest end
  end.

Definition view (p : OCRepPayload) : gmap string entry := view_values (values p).

(** The list with a value in the place of the one of that name, or at the end. *)
Fixpoint put (e : value) (l : list value) : list value :=
  match l with
  | [] => [e]
  | v :: rest => if decide (name v = name e) then e :: rest else v :: put e rest
  end.

Definition well_formed (p : OCRepPayload) : Prop := typed p /\ NoDup (name <$> values p).

(** What the values own. *)
Definition owned (l : list value) : Z := total (blocks_value blocks) l.

Lemma blocks_set_values vs p : blocks (set_values vs p) = blocks p - owned (values p) + owned vs.
Proof. destruct p as [u t i v n]. cbn [set_values blocks values]. unfold owned. lia. Qed.

Lemma typed_set_values vs p : typed p -> all (typed_value typed) vs -> typed (set_values vs p).
Proof. destruct p. cbn. tauto. Qed.

Lemma typed_values p : typed p -> all (typed_value typed) (values p).
Proof. destruct p. cbn. tauto. Qed.

Section Put.
Context (e : value).

Lemma put_same v l : name v = name e -> put e (v :: l) = e :: l.
Proof. intros E. cbn. by rewrite decide_True. Qed.

Lemma put_other v l : name v <> name e -> put e (v :: l) = v :: put e l.
Proof. intros E. cbn. by rewrite decide_False. Qed.

Lemma put_typed l : typed_value typed e -> all (typed_value typed) l -> all (typed_value typed) (put e l).
Proof.
  intros He. induction l as [|v l IH]; cbn; [done|]. intros [Hv Hl]. destruct (decide _); cbn; auto.
Qed.

Lemma put_names l : name <$> put e l = (name <$> l) ++ (if decide (name e ∈ name <$> l) then [] else [name e]).
Proof.
  induction l as [|v l IH]; [done|]. cbn [put fmap list_fmap].
  destruct (decide (name v = name e)) as [E|E].
  - rewrite decide_True by (rewrite <- E; by left). cbn. by rewrite app_nil_r, <- E.
  - cbn. change (list_fmap _ _ name) with (fmap (M := list) name) in *. rewrite IH. f_equal. f_equal.
    destruct (decide (name e ∈ name <$> l)) as [Hin|Hin].
    + by rewrite decide_True by by right.
    + rewrite decide_False; [done|]. rewrite elem_of_cons. intros [Heq|Hl]; [by apply E|done].
Qed.

Lemma put_unique l : NoDup (name <$> l) -> NoDup (name <$> put e l).
Proof.
  intros Hl. rewrite put_names. destruct (decide _) as [|Hn]; [by rewrite app_nil_r|].
  apply NoDup_app. split; [done|]. split; [|apply NoDup_singleton].
  intros x Hx. rewrite list_elem_of_singleton. by intros ->.
Qed.

Lemma view_put n l : name e = Some n -> all (typed_value typed) l ->
  view_values (put e l) = <[n := entry_of e]> (view_values l).
Proof.
  intros Hn. induction l as [|v l IH]; cbn; [by rewrite Hn|]. intros [[[x Hx] _] Hl]. rewrite Hx.
  destruct (decide (Some x = name e)) as [E|E].
  - rewrite Hn in E. injection E as ->. cbn. rewrite Hn. by rewrite insert_insert_eq.
  - cbn. rewrite Hx, (IH Hl). rewrite insert_insert_ne; [done|]. intros ->. apply E. by rewrite Hn.
Qed.
End Put.

(** Another member for the value that was put. *)
Definition with_member (e : value) (m : member OCRepPayload) : value := Build_OCRepPayloadValue (name e) (type e) m.

Lemma owned_put e m l : owned (put (with_member e m) l) =
  owned (put e l) + blocks_member blocks m - blocks_member blocks (content e).
Proof.
  induction l as [|v l IH]; [unfold owned; cbn; unfold blocks_value; cbn; lia|]. cbn [put with_member name].
  destruct (decide (name v = name e)); unfold owned in *; cbn; [unfold blocks_value; cbn; lia|]. rewrite IH. lia.
Qed.

Lemma find_view l n : all (typed_value typed) l ->
  exists v, find_loop l n = Some v /\ view_values l !! n = entry_of <$> v.
Proof.
  induction l as [|v l IH]; cbn; [by exists None|]. intros [[[x Hx] _] Hl]. rewrite Hx. cbn.
  destruct (IH Hl) as (w & E & Hw). case_bool_decide as Hd.
  - subst. exists (Some v). by rewrite lookup_insert_eq.
  - exists w. by rewrite lookup_insert_ne.
Qed.

(** ** Finding the place of a value *)

Definition fresh_value (nm : string) (ty : OCRepPayloadPropType) : value :=
  Build_OCRepPayloadValue (Some nm) ty no_member.

(** The outcome: the place is that of the value that was put, and what it
    held has been released; or nothing has changed. *)
Definition placed (nm : string) (ty : OCRepPayloadPropType) (l : list value) (h : heap)
    (r : option nat * list value) (h' : heap) : Prop :=
  match r.1 with
  | None => r.2 = l /\ took h 0 h' /\ hp_allocs h <> []
  | Some i =>
      (forall m, alter (fun v => Build_OCRepPayloadValue (name v) (type v) m) i r.2
         = put (with_member (fresh_value nm ty) m) l) /\
      r.2 = put (fresh_value nm ty) l /\ took h (owned (put (fresh_value nm ty) l) - owned l) h'
  end.

(** A node and a name for it. *)
Lemma wp_new_value {A} nm (k : bool -> option string -> M heap A) h (Q : A -> heap -> Prop) :
  (forall h', took h 2 h' -> wp (k true (Some nm)) h' Q) ->
  (hp_allocs h <> [] -> forall h', took h 1 h' -> wp (k true None) h' Q) ->
  (hp_allocs h <> [] -> forall h' n, took h 0 h' -> wp (k false n) h' Q) ->
  wp (ok ← OICCalloc 1 sizeof_value; if negb ok then k false None else n ← OICStrdup (Some nm); k true n) h Q.
Proof.
  intros Ht Hn Hf. apply wp_bind. apply wp_asks; [by apply asks_calloc| |]; cbn [negb].
  - intros h1 T1. apply wp_bind. apply wp_strdup.
    + intros h2 T2. apply Ht. by eapply took_trans.
    + intros Hh h2 T2. apply Hn; [|by eapply took_trans]. intros E. destruct T1 as [_ T1]. auto.
  - intros Hh h1 T1. by apply Hf.
Qed.

Lemma frees_inside_all m : frees_inside destroy_rep typed blocks m.
Proof.
  assert (forall o, frees_obj destroy_rep typed blocks o) as H by (intros [q|]; [exact (destroy_frees q)|done]).
  destruct m as [| | | | | |o|[aty d [| | | | |[l|]]]]; cbn; try done. by apply all_true.
Qed.

Lemma find_and_set_loop_wp nm ty l h : l <> [] -> all (typed_value typed) l ->
  wp (find_and_set_loop l nm ty) h (placed nm ty l h).
Proof.
  revert h. induction l as [|v l IH]; [done|]. intros h _ [[[x Hx] Hv] Hl]. cbn [find_and_set_loop].
  apply wp_bind. eapply wp_lift; [rewrite Hx; reflexivity|]. unfold placed.
  case_bool_decide as Hd.
  - subst x. rewrite put_same by done. apply wp_bind. eapply wp_frees.
    + apply frees_contents with (P := typed) (b := blocks); [apply frees_inside_all|done].
    + intros h' T. apply wp_ret. rewrite Hx. cbn [fst snd].
      split; [intros m; by rewrite put_same|]. split; [done|].
      replace (_ - _) with (- blocks_member blocks (content v)); [done|].
      unfold owned. cbn. unfold blocks_value. rewrite Hx. cbn. lia.
  - assert (name v <> Some nm) as Hne by congruence. rewrite put_other by done. destruct l as [|w l].
    + apply (wp_new_value nm (fun ok n => if negb ok then _ else match n with None => _ | Some _ => _ end)); cbn [negb].
      * intros h' T. apply wp_ret. cbn [fst snd].
        split; [intros m; by rewrite put_other|]. split; [done|]. eapply took_trans; [exact T|apply took_refl|]. unfold owned. cbn. unfold blocks_value. cbn. lia.
      * intros Hh h' T. apply wp_bind. eapply wp_frees; [apply (frees_ptr (Some tt))|]. intros h2 T2.
        apply wp_ret. cbn. split; [done|]. split; [by eapply took_trans|done].
      * intros Hh h' _ T. by apply wp_ret.
    + apply wp_bind. eapply wp_mono; [by apply IH|]. intros [[i|] r] h'; unfold placed; cbn [fst snd].
      * intros (Hput & -> & T). apply wp_ret. cbn [fst snd fmap option_fmap option_map].
        split; [|split; [done|]].
        -- intros m. rewrite (put_other _ v) by done. cbn. f_equal. apply Hput.
        -- eapply took_trans; [exact T|apply took_refl|]. unfold owned. cbn [total]. lia.
      * intros (-> & T). by apply wp_ret.
Qed.

Lemma find_and_set_wp nm ty p h : typed p ->
  wp (OCRepPayloadFindAndSetValue (Some p) (Some nm) ty) h
    (fun r h' => exists l, r.2 = Some (set_values l p) /\ placed nm ty (values p) h (r.1, l) h').
Proof.
  intros Hp. apply typed_values in Hp. unfold OCRepPayloadFindAndSetValue. destruct (values p) as [|v l] eqn:E.
  - apply (wp_new_value nm (fun ok n => if negb ok then _ else match n with None => _ | Some _ => _ end)); cbn [negb].
    + intros h' T. apply wp_ret. eexists. split; [done|]. by split.
    + intros Hh h' T. apply wp_bind. eapply wp_frees; [apply (frees_ptr (Some tt))|]. intros h2 T2.
      apply wp_ret. exists (values p). split; [by destruct p|]. rewrite E. split; [done|].
      split; [by eapply took_trans|done].
    + intros Hh h' _ T. apply wp_ret. exists (values p). split; [by destruct p|]. by rewrite E.
  - apply wp_bind. eapply wp_mono; [by apply find_and_set_loop_wp|]. intros [i r] h' Hr. apply wp_ret. by exists r.
Qed.

(** A value of type [ty] with the member [m] is stored, or nothing is. *)
Definition stores (p : OCRepPayload) (nm : string) (ty : OCRepPayloadPropType) (m : member OCRepPayload)
    (h : heap) (b : bool) (q : option OCRepPayload) (h' : heap) : Prop :=
  if b then
    let l := put (Build_OCRepPayloadValue (Some nm) ty m) (values p) in
    q = Some (set_values l p) /\ took h (owned l - owned (values p) - blocks_member blocks m) h'
  else q = Some p /\ took h 0 h' /\ hp_allocs h <> [].

Lemma set_values_values p : set_values (values p) p = p.
Proof. by destruct p. Qed.

Lemma placed_stores nm ty m p h i l h' : placed nm ty (values p) h (Some i, l) h' ->
  stores p nm ty m h true (store i m (Some (set_values l p))) h'.
Proof.
  intros (H1 & Hl & T). cbn [snd] in *. subst l. split.
  - unfold store. f_equal. destruct p as [u t i' v n]. cbn in *. by rewrite H1.
  - eapply took_trans; [exact T|apply took_refl|].
    pose proof (owned_put (fresh_value nm ty) m (values p)) as Ho.
    change (with_member _ m) with (Build_OCRepPayloadValue (Some nm) ty m) in Ho.
    cbn [fresh_value content blocks_member] in Ho. unfold fresh_value in *. lia.
Qed.

Lemma placed_nothing nm ty m p h l h' : placed nm ty (values p) h (None, l) h' ->
  stores p nm ty m h false (Some (set_values l p)) h'.
Proof. intros (Hl & T). cbn in Hl. subst l. rewrite set_values_values. by split. Qed.

(** The setters that have one value to store. *)
Definition storable (ty : OCRepPayloadPropType) (m : member OCRepPayload) : Prop :=
  typed_member typed ty m /\ ty <> OCREP_PROP_ARRAY /\ m <> m_str None.

Lemma set_prop_wp nm ty m p h : typed p -> storable ty m ->
  wp (OCRepPayloadSetProp (Some p) (Some nm) m ty) h (fun r h' => stores p nm ty m h r.1 r.2 h').
Proof.
  intros Hp (Ht & Ha & Hs). apply wp_bind. eapply wp_mono; [by apply find_and_set_wp|].
  intros [[i|] q] h' (l & Hq & Hl); cbn in Hq, Hl; subst q.
  - destruct ty, m as [| | | |[]| | |]; try done; try by apply wp_ret, placed_stores.
    apply wp_ret. destruct Hl as (_ & -> & T). split; [done|].
    eapply took_trans; [exact T|apply took_refl|]. cbn [blocks_member]. unfold fresh_value. lia.
  - apply wp_ret. by apply placed_nothing.
Qed.

Lemma set_array_wp nm ty e d p h : typed p ->
  wp (set_array (Some p) (Some nm) ty e d) h (fun r h' =>
    stores p nm OCREP_PROP_ARRAY (m_arr (Build_OCRepPayloadValueArray ty d e)) h r.1 r.2 h').
Proof.
  intros Hp. apply wp_bind. eapply wp_mono; [by apply find_and_set_wp|].
  intros [[i|] q] h' (l & Hq & Hl); cbn in Hq, Hl; subst q; apply wp_ret;
    [by apply placed_stores|by apply placed_nothing].
Qed.

(** ** The setters that copy their argument *)

Inductive setting :=
  | SetNull
  | SetPropInt (v : Z)
  | SetPropDouble (v : spec_float)
  | SetPropBool (v : bool)
  | SetPropString (v : string)
  | SetPropByteString (v : OCByteString)
  | SetPropObject (v : option OCRepPayload)
  | SetIntArray (l : list (option Z)) (d : dims)
  | SetDoubleArray (l : list (option spec_float)) (d : dims)
  | SetBoolArray (l : list (option bool)) (d : dims)
  | SetStringArray (l : list string) (d : dims)
  | SetByteStringArray (l : list OCByteString) (d : dims)
  | SetPropObjectArray (l : list (option OCRepPayload)) (d : dims).

Definition run_set (payload : option OCRepPayload) (nm : string) (s : setting) : M heap (bool * option OCRepPayload) :=
  match s with
  | SetNull => OCRepPayloadSetNull payload (Some nm)
  | SetPropInt v => OCRepPayloadSetPropInt payload (Some nm) v
  | SetPropDouble v => OCRepPayloadSetPropDouble payload (Some nm) v
  | SetPropBool v => OCRepPayloadSetPropBool payload (Some nm) v
  | SetPropString v => OCRepPayloadSetPropString payload (Some nm) (Some v)
  | SetPropByteString v => OCRepPayloadSetPropByteString payload (Some nm) v
  | SetPropObject v => OCRepPayloadSetPropObject payload (Some nm) v
  | SetIntArray l d => OCRepPayloadSetIntArray payload (Some nm) (Some l) d
  | SetDoubleArray l d => OCRepPayloadSetDoubleArray payload (Some nm) (Some l) d
  | SetBoolArray l d => OCRepPayloadSetBoolArray payload (Some nm) (Some l) d
  | SetStringArray l d => OCRepPayloadSetStringArray payload (Some nm) (Some (Some <$> l)) d
  | SetByteStringArray l d => OCRepPayloadSetByteStringArray payload (Some nm) (Some l) d
  | SetPropObjectArray l d => OCRepPayloadSetPropObjectArray payload (Some nm) (Some l) d
  end.

(** The array is as long as its dimensions say, and not empty. *)
Definition array_fits {A} (l : list A) (d : dims) : Prop :=
  Z.of_nat (length l) = calcDimTotal d /\ l <> [] /\ calcDimTotal d * sizeof_byte_string <= SIZE_MAX.

(** What the caller has to see to. *)
Definition fits (s : setting) : Prop :=
  match s with
  | SetPropByteString b => bytes_ok b
  | SetPropObject o => typed_obj typed o
  | SetIntArray l d => array_fits l d
  | SetDoubleArray l d => array_fits l d
  | SetBoolArray l d => array_fits l d
  | SetStringArray l d => array_fits l d
  | SetByteStringArray l d => array_fits l d /\ all bytes_ok l
  | SetPropObjectArray l d => array_fits l d /\ all (typed_obj typed) l
  | _ => True
  end.

(** Whatever else is refused, [m] comes out as it would with an allocator that
    does not fail. *)
Definition complete {A} (m : M heap A) (h : heap) : Prop := exists answers,
  m h = match m (set_answers [] h) with Some (a, h') => Some (a, set_answers answers h') | None => None end.

Lemma complete_took {A} (m : M heap A) a n h : yields m a n -> complete m h -> exists h', m h = Some (a, h') /\ took h n h'.
Proof.
  intros Hm [l E]. rewrite (Hm (set_answers [] h) eq_refl) in E. eexists. split; [exact E|]. split; [done|].
  intros Hh. rewrite (Hm h Hh) in E. injection E. intros <-. done.
Qed.

Lemma wp_complete {A} (m : M heap A) a n h (Q : A -> heap -> Prop) : yields m a n -> complete m h ->
  (forall h', took h n h' -> Q a h') -> wp m h Q.
Proof. intros Hm Hc H. destruct (complete_took m a n h Hm Hc) as (h' & E & T). unfold wp. rewrite E. auto. Qed.

Lemma yields_complete {A} (m : M heap A) a n h : yields m a n -> hp_allocs h = [] -> complete m h.
Proof. intros Hm Hh. exists []. destruct h as [l x]. cbn in Hh. subst l. by rewrite !Hm. Qed.

(** Four setters do not look whether the copy they make of their argument
    is complete: it is.  For the arrays of pointers that is the loop that fills
    the block, when the block was to be had. *)
Definition copied (s : setting) (h : heap) : Prop :=
  let filled {A B} (f : A -> M heap B) (l : list A) d :=
    forall h1, OICMalloc (u64 (calcDimTotal d * sizeof_word)) h = Some (true, h1) ->
      complete (collect f (calcDimTotal d) (Some l)) h1 in
  match s with
  | SetPropObject v => complete (OCRepPayloadClone v) h
  | SetIntArray l d => complete (OICMalloc (u64 (calcDimTotal d * sizeof_word))) h
  | SetStringArray l d => filled OICStrdup (Some <$> l) d
  | SetPropObjectArray l d => filled OCRepPayloadClone l d
  | _ => True
  end.

Definition array_of (ty : OCRepPayloadPropType) (d : dims) (e : array_ptr OCRepPayload) : entry :=
  (OCREP_PROP_ARRAY, m_arr (Build_OCRepPayloadValueArray ty d e)).

(** The entry of the map. *)
Definition meaning (s : setting) : entry :=
  match s with
  | SetNull => (OCREP_PROP_NULL, no_member)
  | SetPropInt v => (OCREP_PROP_INT, m_i v)
  | SetPropDouble v => (OCREP_PROP_DOUBLE, m_d v)
  | SetPropBool v => (OCREP_PROP_BOOL, m_b v)
  | SetPropString v => (OCREP_PROP_STRING, m_str (Some v))
  | SetPropByteString v => (OCREP_PROP_BYTE_STRING, m_ocByteStr (copy_bytes v))
  | SetPropObject v => (OCREP_PROP_OBJECT, m_obj (copy_obj copy v))
  | SetIntArray l d => array_of OCREP_PROP_INT d (iArray (Some l))
  | SetDoubleArray l d => array_of OCREP_PROP_DOUBLE d (dArray (Some l))
  | SetBoolArray l d => array_of OCREP_PROP_BOOL d (bArray (Some l))
  | SetStringArray l d => array_of OCREP_PROP_STRING d (strArray (Some ((fun s => Some (Some s)) <$> l)))
  | SetByteStringArray l d => array_of OCREP_PROP_BYTE_STRING d (ocByteStrArray (Some (copy_bytes <$> l)))
  | SetPropObjectArray l d => array_of OCREP_PROP_OBJECT d (objArray (Some (copy_objs copy l)))
  end.

Definition value_of (nm : string) (e : entry) : value := Build_OCRepPayloadValue (Some nm) e.1 e.2.

(** What a setter does: it puts the value, or it fails for want of memory and
    leaves the payload, where only a string may have taken the place of what
    was there, as NULL. *)
Definition sets (p : OCRepPayload) (nm : string) (s : setting) (h : heap) (b : bool) (q : option OCRepPayload)
    (h' : heap) : Prop :=
  exists p', q = Some p' /\ took h (blocks p' - blocks p) h' /\
    if b then p' = set_values (put (value_of nm (meaning s)) (values p)) p
    else hp_allocs h <> [] /\
      (p' = p \/ (exists v, s = SetPropString v) /\
                 p' = set_values (put (value_of nm (OCREP_PROP_STRING, m_str None)) (values p)) p).

(** From what a setter that takes its argument over does. *)
Lemma stores_sets p nm s ty m h h1 b q h2 n : meaning s = (ty, m) -> n = blocks_member blocks m ->
  took h n h1 -> stores p nm ty m h1 b q h2 ->
  if b then sets p nm s h b q h2
  else q = Some p /\ took h n h2 /\ hp_allocs h <> [].
Proof.
  intros Hm -> T1. unfold stores, sets. destruct b.
  - intros [-> T2]. eexists. split; [done|]. rewrite Hm. split; [|done].
    eapply took_trans; [exact T1|exact T2|]. rewrite blocks_set_values. lia.
  - intros (-> & T2 & Hh). split; [done|]. split; [eapply took_trans; [done..|lia]|].
    intros E. apply Hh. by apply T1.
Qed.

Lemma sets_nothing p nm s h h' : took h 0 h' -> hp_allocs h <> [] -> sets p nm s h false (Some p) h'.
Proof. intros T Hh. exists p. split; [done|]. split; [by rewrite Z.sub_diag|]. auto. Qed.

(** Releases [n] blocks and returns [a]. *)
Definition frees_then {A} (m : M heap A) (a : A) (n : Z) : Prop := forall h, m h = Some (a, add_live (- n) h).

Lemma frees_then_ret {A} (a : A) : frees_then (mret a) a 0.
Proof. intros h. change (- 0) with 0. by rewrite add_live_0. Qed.

Lemma frees_then_bind {A} m (k : M heap A) a x y : frees m x -> frees_then k a y ->
  frees_then (_ ← m; k) a (x + y).
Proof. intros Hm Hk h. rewrite (run_bind _ _ _ _ _ (Hm h)), Hk, add_live_add. do 3 f_equal. lia. Qed.

Lemma frees_then_one {A} m (a : A) n : frees m n -> frees_then (_ ← m; mret a) a n.
Proof. intros Hm. replace n with (n + 0) by lia. apply frees_then_bind; [done|apply frees_then_ret]. Qed.

(** Copy, store, and release the copy when it could not be stored. *)
Lemma copy_and_store p nm s ty m h n k clean :
  meaning s = (ty, m) -> n = blocks_member blocks m -> typed p ->
  (forall h1, wp k h1 (fun r h2 => stores p nm ty m h1 r.1 r.2 h2)) ->
  (forall b q, frees_then (clean b q) (b, q) n) ->
  forall h1, took h n h1 ->
  wp ('(b, q) ← k; if negb b then clean b q else mret (b, q)) h1
    (fun r h' => sets p nm s h r.1 r.2 h').
Proof.
  intros Hm Hn Hp Hk Hc h1 T1. apply wp_bind. eapply wp_mono; [apply Hk|]. intros [b q] h2 Hs. cbn in Hs.
  pose proof (stores_sets _ _ _ _ _ _ _ _ _ _ _ Hm Hn T1 Hs) as H. destruct b; cbn [negb].
  - by apply wp_ret.
  - destruct H as (-> & T2 & Hh). unfold wp. rewrite Hc. cbn.
    apply sets_nothing; [|done]. eapply took_trans; [exact T2| |].
    + split; [reflexivity|done].
    + lia.
Qed.

(** *** Each setter *)

Lemma set_plain_wp p nm s ty m h : meaning s = (ty, m) -> storable ty m -> blocks_member blocks m = 0 -> typed p ->
  wp (OCRepPayloadSetProp (Some p) (Some nm) m ty) h (fun r h' => sets p nm s h r.1 r.2 h').
Proof.
  intros Hm Hst Hb Hp. eapply wp_mono; [by apply set_prop_wp|]. intros [b q] h' Hs. cbn in Hs |- *.
  pose proof (stores_sets _ _ _ _ _ _ _ _ _ _ _ Hm (eq_sym Hb) (took_refl h) Hs) as H. destruct b; [done|].
  destruct H as (-> & T & Hh). by apply sets_nothing.
Qed.

Lemma set_string_wp p nm v h : typed p ->
  wp (OCRepPayloadSetPropString (Some p) (Some nm) (Some v)) h
    (fun r h' => sets p nm (SetPropString v) h r.1 r.2 h').
Proof.
  intros Hp. apply wp_bind. apply wp_strdup.
  - intros h1 T1. apply (copy_and_store _ _ _ OCREP_PROP_STRING (m_str (Some v)) _ 1 _
      (fun b q => _ ← OICFree (Some v); mret (b, q))); try done.
    intros h2. by apply set_prop_wp.
  - intros Hh h1 T1. apply wp_bind. apply wp_bind. eapply wp_mono; [by apply find_and_set_wp|].
    intros [[i|] q] h2 (l & Hq & Hl); cbn in Hq, Hl; subst q; apply wp_ret; apply wp_bind;
      (eapply wp_frees; [apply (frees_ptr None)|]; intros h3 T3; apply wp_ret).
    + apply (placed_stores _ _ (m_str None)) in Hl. destruct Hl as [E T]. eexists. split; [exact E|].
      split; [|split; [done|]; right; split; [by exists v|done]].
      rewrite blocks_set_values. eapply took_trans; [eapply took_trans; [exact T1|exact T|reflexivity]|exact T3|].
      cbn. lia.
    + destruct Hl as (Hl & T & _). cbn in Hl. subst l. rewrite set_values_values. apply sets_nothing; [|done].
      eapply took_trans; [eapply took_trans; [exact T1|exact T|reflexivity]|exact T3|done].
Qed.

Lemma byte_copy_wp b h (Q : bool * option OCByteString -> heap -> Prop) : bytes_ok b ->
  (forall h', took h (blk (bytes (copy_bytes b))) h' -> Q (true, Some (copy_bytes b)) h') ->
  (hp_allocs h <> [] -> forall h', took h 0 h' -> Q (false, Some zero_bytes) h') ->
  wp (OCByteStringCopy (Some zero_bytes) (Some b)) h Q.
Proof.
  intros Hb Ht Hf. unfold OCByteStringCopy. apply wp_bind. eapply wp_frees; [apply (frees_ptr None)|]. intros h1 T1.
  unfold copy_bytes in Ht. destruct (Z.eqb_spec (len b) 0) as [Hz|Hz]; [by apply wp_ret, Ht|].
  pose proof (bytes_present b Hb Hz) as Hp. apply wp_bind. apply wp_asks; [by apply asks_malloc| |]; cbn [negb].
  - intros h2 T2. apply wp_bind. eapply wp_lift; [by apply elements_all; symmetry|]. apply wp_ret.
    rewrite (bytes_eta b) by done. apply Ht. rewrite Hp. by eapply took_trans.
  - intros Hh h2 T2. apply wp_ret. apply Hf; [|by eapply took_trans].
    intros E. by apply Hh, (took_nil _ _ _ T1).
Qed.

Lemma copy_bytes_ok b : bytes_ok b -> bytes_ok (copy_bytes b).
Proof. unfold copy_bytes. by destruct (len b =? 0). Qed.

Lemma set_byte_string_wp p nm v h : typed p -> bytes_ok v ->
  wp (OCRepPayloadSetPropByteString (Some p) (Some nm) v) h
    (fun r h' => sets p nm (SetPropByteString v) h r.1 r.2 h').
Proof.
  intros Hp Hv. apply wp_bind. apply byte_copy_wp; [done| |].
  - intros h1 T1. cbn [default from_option id].
    apply (copy_and_store _ _ _ OCREP_PROP_BYTE_STRING (m_ocByteStr (copy_bytes v)) _ (blk (bytes (copy_bytes v))) _
      (fun b q => _ ← OICFree (bytes (copy_bytes v)); mret (b, q)));
      try done; [|intros; by apply frees_then_one, frees_ptr].
    intros h2. apply set_prop_wp; [done|]. split; [by apply copy_bytes_ok|done].
  - intros Hh h1 T1. apply wp_bind, wp_ret. cbn [negb]. apply wp_bind. eapply wp_frees; [apply (frees_ptr None)|].
    intros h2 T2. apply wp_ret. apply sets_nothing; [|done]. by eapply took_trans.
Qed.

Lemma copy_obj_typed o : typed_obj typed o -> typed_obj typed (copy_obj copy o).
Proof. destruct o; cbn; [apply copy_typed|done]. Qed.

Lemma clone_opt_yields o : typed_obj typed o ->
  yields (OCRepPayloadClone o) (copy_obj copy o) (blocks_obj blocks (copy_obj copy o)).
Proof. intros Ho. apply (yields_clone_obj _ typed); [|done]. destruct o; cbn; [apply clone_yields|done]. Qed.

Lemma destroy_opt_frees o : typed_obj typed o -> frees (OCRepPayloadDestroy o) (blocks_obj blocks o).
Proof. intros Ho. apply (frees_destroy_obj _ typed); [|done]. destruct o; cbn; [apply destroy_frees|done]. Qed.

Lemma set_object_wp p nm v h : typed p -> typed_obj typed v -> complete (OCRepPayloadClone v) h ->
  wp (OCRepPayloadSetPropObject (Some p) (Some nm) v) h (fun r h' => sets p nm (SetPropObject v) h r.1 r.2 h').
Proof.
  intros Hp Hv Hh. apply wp_bind. eapply wp_complete; [by apply clone_opt_yields|done|]. intros h1 T1.
  apply copy_obj_typed in Hv.
  apply (copy_and_store _ _ _ OCREP_PROP_OBJECT (m_obj (copy_obj copy v)) _ (blocks_obj blocks (copy_obj copy v)) _
    (fun b q => _ ← OCRepPayloadDestroy (copy_obj copy v); mret (b, q)));
    try done; [|intros; by apply frees_then_one, destroy_opt_frees].
  intros h2. by apply set_prop_wp.
Qed.

(** *** Arrays *)

Lemma fits_size {A} (l : list A) d : array_fits l d -> calcDimTotal d <> 0 /\ sized (calcDimTotal d) (Some l).
Proof. intros (H & Hl & _). unfold sized. cbn. split; [destruct l; [done|cbn in *; lia]|done]. Qed.

Lemma fits_cells {A} size (l : list A) d : array_fits l d -> 0 < size <= sizeof_byte_string ->
  cells size (calcDimTotal d) = calcDimTotal d /\ u64 (calcDimTotal d * size) <> 0.
Proof.
  intros Hf Hs. destruct (fits_size l d Hf) as [Hn _]. destruct Hf as (_ & _ & Hm).
  pose proof (calcDimTotal_nonneg d). unfold sizeof_byte_string in *.
  split; [apply cells_all; nia|]. rewrite u64_size; nia.
Qed.

Lemma copy_cells_wp {A} size (l : list A) d h (Q : option (list A) -> heap -> Prop) :
  array_fits l d -> 0 < size <= sizeof_byte_string ->
  (forall h', took h 1 h' -> Q (Some l) h') -> (hp_allocs h <> [] -> forall h', took h 0 h' -> Q None h') ->
  wp (copy_cells size (calcDimTotal d) (Some l)) h Q.
Proof.
  intros Hf Hs Ht Hn. destruct (fits_cells size l d Hf Hs) as [Hc Hu]. destruct (fits_size l d Hf) as [_ Hl].
  apply wp_bind. apply wp_asks; [by apply asks_malloc| |]; cbn [negb].
  - intros h1 T1. apply wp_bind. rewrite Hc. eapply wp_lift; [by apply elements_all|]. apply wp_ret. by apply Ht.
  - intros Hh h1 T1. apply wp_ret. by apply Hn.
Qed.

Lemma set_copied_wp {A} size ty (ctor : option (list A) -> array_ptr OCRepPayload) p nm s l d h :
  meaning s = array_of ty d (ctor (Some l)) -> blocks_elems blocks (ctor (Some l)) = 1 ->
  array_fits l d -> 0 < size <= sizeof_byte_string -> typed p ->
  wp (set_copied size (fun payload nm a => set_array payload nm ty (ctor a)) (Some p) (Some nm) (Some l) d) h
    (fun r h' => sets p nm s h r.1 r.2 h').
Proof.
  intros Hm Hb Hf Hs Hp. unfold set_copied. destruct (fits_size l d Hf) as [Hn _].
  destruct (Z.eqb_spec (calcDimTotal d) 0); [done|]. apply wp_bind. apply copy_cells_wp; [done|done| |].
  - intros h1 T1. eapply (copy_and_store _ _ _ _ _ _ 1 _ (fun b q => _ ← OICFree (Some l); mret (b, q)));
      [done|by rewrite <- Hb|done| |done|done]. intros h2. by apply set_array_wp.
  - intros Hh h1 T1. by apply wp_ret, sets_nothing.
Qed.

Lemma set_int_array_wp p nm l d h : typed p -> array_fits l d ->
  complete (OICMalloc (u64 (calcDimTotal d * sizeof_word))) h ->
  wp (OCRepPayloadSetIntArray (Some p) (Some nm) (Some l) d) h
    (fun r h' => sets p nm (SetIntArray l d) h r.1 r.2 h').
Proof.
  intros Hp Hf Hh. destruct (fits_cells sizeof_word l d Hf) as [Hc Hu]; [done|]. destruct (fits_size l d Hf) as [_ Hl].
  apply wp_bind. eapply wp_complete; [by apply yields_malloc|done|]. intros h1 T1. apply wp_bind. apply wp_bind.
  rewrite Hc. eapply wp_lift; [by apply elements_all|]. apply wp_ret.
  apply (copy_and_store _ _ _ OCREP_PROP_ARRAY (meaning (SetIntArray l d)).2 _ 1 _
    (fun b q => _ ← OICFree (Some l); mret (b, q))); [done..| |done|done].
  intros h2. by apply set_array_wp.
Qed.

(** The loop over the elements of an array. *)
Lemma collect_yields {A B} (f : A -> M heap B) (g : A -> B) (c : B -> Z) (ok : A -> Prop) n (l : list A) :
  (forall x, ok x -> yields (f x) (g x) (c (g x))) -> sized n (Some l) -> all ok l ->
  yields (collect f n (Some l)) (g <$> l) (total c (g <$> l)).
Proof.
  intros Hf Hs Ho. unfold collect, sized in *. cbn in Hs. destruct (Z.eqb_spec n 0) as [->|Hn].
  - destruct l; [|cbn in Hs; lia]. apply yields_ret.
  - rewrite <- Hs, Nat2Z.id. clear Hs Hn. induction l as [|x l IH]; [apply yields_ret|]. destruct Ho as [Hx Hl].
    cbn [map_n length]. eapply yields_eq; [eapply yields_bind; [by apply Hf|]|].
    + eapply yields_bind; [by apply IH|apply yields_ret].
    + cbn. lia.
Qed.

(** A setter that copies element by element: a block, the copies, and the
    array; when it cannot be stored they are released. *)
Lemma set_collected_wp {A B} (f : A -> M heap B) (g : A -> B) (c : B -> Z) (ok : A -> Prop) (rel : B -> M heap unit)
    ty (ctor : list B -> array_ptr OCRepPayload) p nm s l d h :
  (forall x, ok x -> yields (f x) (g x) (c (g x)) /\ frees (rel (g x)) (c (g x))) ->
  meaning s = array_of ty d (ctor (g <$> l)) ->
  blocks_elems blocks (ctor (g <$> l)) = total c (g <$> l) + 1 ->
  typed p -> array_fits l d -> all ok l ->
  (forall h1, OICMalloc (u64 (calcDimTotal d * sizeof_word)) h = Some (true, h1) ->
     complete (collect f (calcDimTotal d) (Some l)) h1) ->
  wp (if calcDimTotal d =? 0 then mret (false, Some p)
      else
        ok ← OICMalloc (u64 (calcDimTotal d * sizeof_word));
        if negb ok then mret (false, Some p)
        else if cells sizeof_word (calcDimTotal d) <? calcDimTotal d then undefined
        else
          newArray ← collect f (calcDimTotal d) (Some l);
          '(b, payload) ← set_array (Some p) (Some nm) ty (ctor newArray) d;
          if negb b then
            _ ← each rel (calcDimTotal d) (Some newArray); _ ← OICFree (Some tt); mret (b, payload)
          else mret (b, payload)) h
    (fun r h' => sets p nm s h r.1 r.2 h').
Proof.
  intros Hf Hm Hb Hp Ha Ho Hh. destruct (fits_cells sizeof_word l d Ha) as [Hc Hu]; [done|].
  destruct (fits_size l d Ha) as [Hn Hl]. destruct (Z.eqb_spec (calcDimTotal d) 0); [done|].
  destruct (asks_malloc _ Hu h) as (ok1 & h1 & E & T1 & Hok). unfold wp. rewrite (run_bind _ _ _ _ _ E).
  destruct ok1; cbn [negb]; [|apply sets_nothing; [done|]; intros Hno; by specialize (Hok Hno)].
  specialize (Hh h1 E). rewrite Hc, Z.ltb_irrefl. apply wp_bind.
  pose proof (collect_yields f g c ok (calcDimTotal d) l (fun x Hx => proj1 (Hf x Hx)) Hl Ho) as Hy.
  eapply wp_complete; [exact Hy|exact Hh|]. intros h2 T2.
  apply (copy_and_store p nm s OCREP_PROP_ARRAY (meaning s).2 h (total c (g <$> l) + 1) _
    (fun b q => _ ← each rel (calcDimTotal d) (Some (g <$> l)); _ ← OICFree (Some tt); mret (b, q)));
    [by rewrite Hm|by rewrite Hm|done| | |].
  - intros h3. rewrite Hm. by apply set_array_wp.
  - intros b q. apply frees_then_bind; [|by apply frees_then_one, frees_ptr].
    refine (frees_each rel c (calcDimTotal d) (Some (g <$> l)) _ _).
    + unfold sized in *. cbn in *. by rewrite length_fmap.
    + cbn. clear -Hf Ho. induction l as [|x l IH]; [done|]. destruct Ho. split; [by apply Hf|by apply IH].
  - eapply took_trans; [exact T1|exact T2|lia].
Qed.

Definition bytes_blk (b : OCByteString) : Z := blk (bytes b).

Lemma dup_byte_strings_wp l : forall acc h (Q : option (list OCByteString) -> heap -> Prop), all bytes_ok l ->
  (forall h', took h (total bytes_blk (copy_bytes <$> l)) h' -> Q (Some (acc ++ (copy_bytes <$> l))) h') ->
  (hp_allocs h <> [] -> forall h', took h (- (total bytes_blk acc + 1)) h' -> Q None h') ->
  wp (dup_byte_strings (length l) acc l) h Q.
Proof.
  induction l as [|b l IH]; intros acc h Q Hl Ht Hf; cbn [dup_byte_strings length].
  - apply wp_ret. rewrite <- (app_nil_r acc). apply Ht, took_refl.
  - destruct Hl as [Hb Hl].
    assert (forall h1, took h (bytes_blk (copy_bytes b)) h1 ->
              wp (dup_byte_strings (length l) (acc ++ [copy_bytes b]) l) h1 Q) as Hrest.
    { intros h1 T1. apply IH; [done| |].
      - intros h2 T2. rewrite <- app_assoc. apply Ht. by eapply took_trans.
      - intros Hh h2 T2. apply Hf; [intros E; by apply Hh, (took_nil _ _ _ T1)|].
        eapply took_trans; [exact T1|exact T2|]. rewrite total_app. cbn. lia. }
    unfold copy_bytes in Hrest. destruct (Z.eqb_spec (len b) 0) as [Hz|Hz]; [apply Hrest, took_refl|].
    pose proof (bytes_present b Hb Hz) as Hp. apply wp_bind. apply wp_asks; [by apply asks_malloc| |]; cbn [negb].
    + intros h1 T1. apply wp_bind. eapply wp_lift; [by apply elements_all; symmetry|].
      rewrite (bytes_eta b) by done. apply Hrest. unfold bytes_blk. by rewrite Hp.
    + intros Hh h1 T1. apply wp_bind. eapply wp_frees.
      { apply (frees_each_n (fun b => OICFree (bytes b)) bytes_blk). apply all_true. intros. apply frees_ptr. }
      intros h2 T2. apply wp_bind. eapply wp_frees; [apply (frees_ptr (Some tt))|]. intros h3 T3. apply wp_ret.
      apply Hf; [done|]. eapply took_trans; [eapply took_trans; [exact T1|exact T2|reflexivity]|exact T3|]. cbn. lia.
Qed.

Lemma set_byte_string_array_wp p nm l d h : typed p -> array_fits l d -> all bytes_ok l ->
  wp (OCRepPayloadSetByteStringArray (Some p) (Some nm) (Some l) d) h
    (fun r h' => sets p nm (SetByteStringArray l d) h r.1 r.2 h').
Proof.
  intros Hp Hf Hb. destruct (fits_size l d Hf) as [Hn Hl]. unfold OCRepPayloadSetByteStringArray.
  destruct (Z.eqb_spec (calcDimTotal d) 0); [done|]. apply wp_bind.
  apply wp_asks; [apply asks_calloc; [done|done|apply Hf]| |]; cbn [negb];
    [|intros Hh h1 T1; by apply wp_ret, sets_nothing].
  intros h1 T1. apply wp_bind. replace (Z.to_nat (calcDimTotal d)) with (length l)
    by (destruct Hf as [<- _]; by rewrite Nat2Z.id).
  apply dup_byte_strings_wp; [done| |].
  - intros h2 T2. cbn [app].
    apply (copy_and_store p nm _ OCREP_PROP_ARRAY (meaning (SetByteStringArray l d)).2 h
      (total bytes_blk (copy_bytes <$> l) + 1) _
      (fun b q => _ ← each (fun b => OICFree (bytes b)) (calcDimTotal d) (Some (copy_bytes <$> l));
                  _ ← OICFree (Some tt); mret (b, q))); [done|done|done| | |].
    + intros h3. by apply set_array_wp.
    + intros b q. apply frees_then_bind; [|by apply frees_then_one, frees_ptr].
      refine (frees_each _ bytes_blk (calcDimTotal d) (Some (copy_bytes <$> l)) _ _).
      * unfold sized in *. cbn in *. by rewrite length_fmap.
      * apply all_true. intros. apply frees_ptr.
    + eapply took_trans; [exact T1|exact T2|lia].
  - intros Hh h2 T2. apply wp_ret, sets_nothing; [by eapply took_trans|].
    intros E. by apply Hh, (took_nil _ _ _ T1).
Qed.

(** ** What a setter does *)

Lemma run_set_wp p nm s h : typed p -> fits s -> copied s h ->
  wp (run_set (Some p) nm s) h (fun r h' => sets p nm s h r.1 r.2 h').
Proof.
  intros Hp Hf Hh. destruct s; cbn [fits copied run_set] in *.
  - apply (set_plain_wp _ _ SetNull); done.
  - apply (set_plain_wp _ _ (SetPropInt v)); done.
  - apply (set_plain_wp _ _ (SetPropDouble v)); done.
  - apply (set_plain_wp _ _ (SetPropBool v)); done.
  - by apply set_string_wp.
  - by apply set_byte_string_wp.
  - apply set_object_wp; auto.
  - apply set_int_array_wp; auto.
  - by apply (set_copied_wp _ _ dArray _ _ (SetDoubleArray l d)).
  - by apply (set_copied_wp _ _ bArray _ _ (SetBoolArray l d)).
  - pose proof Hf as [Hlen [Hne Hm]].
    apply (set_collected_wp OICStrdup id blk (fun o => is_Some o) OICFree _
             (fun l => strArray (Some (Some <$> l))) _ _ (SetStringArray l d) (Some <$> l)); try done; auto.
    + intros x _. split; [apply yields_strdup|apply frees_ptr].
    + cbn. rewrite list_fmap_id, <- list_fmap_compose. done.
    + cbn. f_equal. rewrite list_fmap_id. clear. induction l as [|x l IH]; [done|]. cbn in *. by rewrite IH.
    + split; [by rewrite length_fmap|]. split; [by destruct l|done].
    + clear. induction l; cbn; eauto.
  - destruct Hf. by apply set_byte_string_array_wp.
  - destruct Hf as [Hf Ho].
    apply (set_collected_wp OCRepPayloadClone (copy_obj copy) (blocks_obj blocks) (typed_obj typed)
             OCRepPayloadDestroy _ (fun l => objArray (Some l)) _ _ (SetPropObjectArray l d)); try done; auto.
    intros x Hx. split; [by apply clone_opt_yields|]. by apply destroy_opt_frees, copy_obj_typed.
Qed.

(** With memory to be had every copy is complete. *)
Lemma nil_copied s h : fits s -> hp_allocs h = [] -> copied s h.
Proof.
  intros Hf Hh.
  assert (forall n h1, n <> 0 -> OICMalloc n h = Some (true, h1) -> hp_allocs h1 = []) as Hm.
  { intros n h1 Hn. rewrite (yields_malloc n Hn h Hh). by intros [= <-]. }
  destruct s; cbn [copied fits] in *; try done.
  - by eapply yields_complete; [apply clone_opt_yields|].
  - eapply yields_complete; [apply yields_malloc; by eapply fits_cells|done].
  - intros h1 E. eapply yields_complete; [|by eapply Hm; [eapply (fits_cells sizeof_word l)|]].
    apply (collect_yields OICStrdup id blk (fun o => is_Some o)).
    + intros x _. apply yields_strdup.
    + unfold sized. cbn. rewrite length_fmap. apply Hf.
    + clear. induction l; cbn; eauto.
  - destruct Hf as [Hf Ho]. intros h1 E. eapply yields_complete; [|by eapply Hm; [eapply (fits_cells sizeof_word l)|]].
    by apply (collect_yields OCRepPayloadClone _ (blocks_obj blocks) _ _ _ clone_opt_yields); [apply (fits_size l d)|].
Qed.

Lemma fits_typed {A} (l : list A) d P ty (e : array_ptr OCRepPayload) : array_fits l d ->
  typed_elems P ty (calcDimTotal d) e -> typed_member P OCREP_PROP_ARRAY (array_of ty d e).2.
Proof. intros (_ & _ & Hm) He. by split. Qed.

Lemma meaning_typed s : fits s -> typed_member typed (meaning s).1 (meaning s).2.
Proof.
  destruct s; cbn [fits meaning fst snd]; intros Hf; try done.
  - by apply copy_bytes_ok.
  - by apply copy_obj_typed.
  - by apply (fits_typed l); [|apply (fits_size l d)].
  - by apply (fits_typed l); [|apply (fits_size l d)].
  - by apply (fits_typed l); [|apply (fits_size l d)].
  - apply (fits_typed l); [done|]. cbn. destruct (fits_size l d Hf) as [_ Hs]. unfold sized in *. cbn in *.
    rewrite length_fmap. split; [done|]. clear. induction l; cbn; eauto.
  - destruct Hf as [Hf Hb]. apply (fits_typed l); [done|]. cbn. destruct (fits_size l d Hf) as [_ Hs].
    unfold sized in *. cbn in *. rewrite length_fmap. split; [done|].
    clear -Hb. induction l as [|b l IH]; [done|]. destruct Hb. split; [by apply copy_bytes_ok|auto].
  - destruct Hf as [Hf Ho]. apply (fits_typed l); [done|]. cbn. destruct (fits_size l d Hf) as [_ Hs].
    unfold sized in *. cbn in *. rewrite copy_objs_length. split; [done|].
    clear -Ho. induction l as [|o l IH]; [done|]. destruct Ho. split; [by apply copy_obj_typed|auto].
Qed.

Lemma put_well_formed p nm e : well_formed p -> typed_member typed e.1 e.2 ->
  well_formed (set_values (put (value_of nm e) (values p)) p).
Proof.
  intros [Ht Hn] He. split.
  - apply typed_set_values; [done|]. apply put_typed; [|by apply typed_values]. by split; [eexists|].
  - replace (values (set_values _ p)) with (put (value_of nm e) (values p)) by by destruct p. by apply put_unique.
Qed.

Lemma sets_well_formed p nm s h b q h' : well_formed p -> fits s -> sets p nm s h b q h' ->
  exists p', q = Some p' /\ well_formed p' /\ took h (blocks p' - blocks p) h'.
Proof.
  intros Hw Hf (p' & -> & T & H). exists p'. split; [done|]. split; [|done].
  destruct b; [subst; by apply put_well_formed, meaning_typed|].
  destruct H as (_ & [->|(_ & ->)]); [done|]. by apply put_well_formed.
Qed.

(** ** Scripts of calls *)

Definition script : Type := list (string * setting).

Fixpoint run_script (l : script) (payload : option OCRepPayload) : M heap (option OCRepPayload) :=
  match l with
  | [] => mret payload
  | (nm, s) :: rest => '(_, payload) ← run_set payload nm s; run_script rest payload
  end.

(** A payload is made and the calls are made on it. *)
Definition built (l : script) : M heap (option OCRepPayload) :=
  payload ← OCRepPayloadCreate;
  match payload with Some _ => run_script l payload | None => mret None end.

Definition script_fits (l : script) : Prop := Forall (fun c => fits c.2) l.

(** The copies of the four setters are complete wherever the script has come
    to. *)
Fixpoint script_copied (l : script) (payload : option OCRepPayload) (h : heap) : Prop :=
  match l with
  | [] => True
  | (nm, s) :: rest =>
      copied s h /\
      forall b payload' h', run_set payload nm s h = Some ((b, payload'), h') -> script_copied rest payload' h'
  end.

Definition built_copied (l : script) (h : heap) : Prop :=
  forall payload h', OCRepPayloadCreate h = Some (Some payload, h') -> script_copied l (Some payload) h'.

Lemma run_script_wp l : forall p h, well_formed p -> script_fits l -> script_copied l (Some p) h ->
  wp (run_script l (Some p)) h (fun q h' =>
    exists p', q = Some p' /\ well_formed p' /\ took h (blocks p' - blocks p) h').
Proof.
  induction l as [|[nm s] l IH]; intros p h Hw Hl Hc; cbn [run_script].
  - apply wp_ret. exists p. split; [done|]. split; [done|]. rewrite Z.sub_diag. apply took_refl.
  - inversion Hl as [|? ? Hf Hl']; subst. destruct Hc as [Hc Hrest]. cbn in Hf.
    pose proof (run_set_wp p nm s h (proj1 Hw) Hf Hc) as Hr. unfold wp in Hr.
    destruct (run_set (Some p) nm s h) as [[[b q] h1]|] eqn:E; [|done]. cbn in Hr.
    destruct (sets_well_formed _ _ _ _ _ _ _ Hw Hf Hr) as (p1 & -> & Hw1 & T1).
    specialize (Hrest _ _ _ eq_refl). unfold wp. rewrite (run_bind _ _ _ _ _ E).
    eapply wp_mono; [by apply IH|]. intros q h2 (p2 & -> & Hw2 & T2).
    exists p2. split; [done|]. split; [done|]. eapply took_trans; [exact T1|exact T2|lia].
Qed.

Lemma built_wp l h : script_fits l -> built_copied l h ->
  wp (built l) h (fun q h' =>
    match q with
    | Some p => well_formed p /\ took h (blocks p) h'
    | None => hp_allocs h <> [] /\ took h 0 h'
    end).
Proof.
  intros Hl Hc.
  destruct (asks_calloc 1 sizeof_rep ltac:(done) ltac:(done) ltac:(done) h) as (ok & h1 & E & T1 & Hok).
  assert (OCRepPayloadCreate h = Some (if ok then Some (Rep None [] [] [] None) else None, h1)) as Ec
    by (unfold OCRepPayloadCreate; by rewrite (run_bind _ _ _ _ _ E)).
  unfold wp, built. rewrite (run_bind _ _ _ _ _ Ec). destruct ok.
  - specialize (Hc _ _ Ec).
    eapply wp_mono; [apply run_script_wp; [split; [done|constructor]|done..]|].
    intros q h2 (p & -> & Hw & T2). split; [done|].
    eapply took_trans; [exact T1|exact T2|]. cbn. lia.
  - split; [|done]. intros Hn. by specialize (Hok Hn).
Qed.

(** ** Theorems *)

(** C26: whatever calls of the setters are made on a new representation payload,
    no call reads a member of a union that was not stored or leaves an array,
    and the payload is well typed: each value's type names the member it holds,
    each array is as long as its dimensions say, every value has a name and no
    two have the same.  The allocator may refuse any block but those of the
    copies [built_copied] speaks of: [OCRepPayloadSetPropObject], [-SetIntArray],
    [-SetStringArray] and [-SetPropObjectArray] do not look whether the copy
    they make of their argument is complete
    ([int_array_without_memory] is what comes of it). *)
Theorem payload_well_formed (l : script) (h : heap) : script_fits l -> built_copied l h ->
  wp (built l) h (fun q _ => match q with Some p => well_formed p | None => hp_allocs h <> [] end).
Proof. intros Hl Hc. eapply wp_mono; [by apply built_wp|]. intros [p|] h'; [by intros []|by intros []]. Qed.

(** C27: a payload that is made, filled and destroyed leaves as many blocks in
    use as there were, also when the allocator refuses blocks: every setter
    releases what it replaces and the copy it cannot store, and
    [OCRepPayloadDestroy] releases all that is left.  The allocator may refuse
    the value, its name and the copies the setters look at, not what is missing
    unnoticed from the copies of the four setters of [copied]. *)
Theorem payload_no_leak (l : script) (h : heap) : script_fits l -> built_copied l h ->
  wp (q ← built l; OCRepPayloadDestroy q) h (fun _ h' => live h' = live h).
Proof.
  intros Hl Hc. apply wp_bind. eapply wp_mono; [by apply built_wp|]. intros [p|] h1 [H1 T1].
  - eapply wp_frees; [by apply (destroy_opt_frees (Some p)), H1|]. intros h2 T2. cbn in T2.
    destruct T1, T2. lia.
  - apply wp_ret. destruct T1. lia.
Qed.

(** C28: a setter is an insertion into the map from names to values, the value
    of that name replaced wherever it stands in the list; when memory runs out
    it returns [false] and the map is what it was, but that a string may have
    taken the place of the value as NULL.  For the four setters that do not
    look at their copy ([OCRepPayloadSetPropObject], [-SetIntArray],
    [-SetStringArray], [-SetPropObjectArray]) it is when the copy is complete
    ([copied]); the value may still be refused. *)
Theorem setter_refines_insert (p : OCRepPayload) (nm : string) (s : setting) (h : heap) :
  typed p -> fits s -> copied s h ->
  wp (run_set (Some p) nm s) h (fun r _ =>
    exists p', r.2 = Some p' /\
      if r.1 then view p' = <[nm := meaning s]> (view p)
      else hp_allocs h <> [] /\
        (view p' = view p \/
         (exists v, s = SetPropString v) /\ view p' = <[nm := (OCREP_PROP_STRING, m_str None)]> (view p))).
Proof.
  intros Hp Hf Hc.
  assert (forall e, view (set_values (put (value_of nm e) (values p)) p) = <[nm := e]> (view p)) as Hv.
  { intros e. destruct p as [u t i v n]. unfold view. cbn [values set_values].
    rewrite (view_put _ nm); [|done|by apply (typed_values _ Hp)]. by destruct e. }
  eapply wp_mono; [by apply run_set_wp|]. intros [b q] h' (p' & E & _ & H). cbn in E, H |- *. exists p'.
  split; [done|]. destruct b; [by subst|]. destruct H as (Hh & [->|(Hs & ->)]); (split; [done|]); auto.
Qed.

(** with memory to be had a copy of a well typed payload is the payload
    without what follows it, its empty blocks NULL, in blocks of its own;
    destroying the copy gives all of them back. *)
Theorem clone_is_copy (p : OCRepPayload) (h : heap) : typed p -> hp_allocs h = [] ->
  OCRepPayloadClone (Some p) h = Some (Some (copy p), add_live (blocks (copy p)) h) /\
  (q ← OCRepPayloadClone (Some p); OCRepPayloadDestroy q) h = Some (tt, h).
Proof.
  intros Hp Hh. assert (OCRepPayloadClone (Some p) h = Some (Some (copy p), add_live (blocks (copy p)) h)) as E
    by (apply (clone_yields p Hp h Hh)).
  split; [done|]. rewrite (run_bind _ _ _ _ _ E).
  rewrite (destroy_opt_frees (Some (copy p)) (copy_typed p Hp)), add_live_add. cbn.
  by rewrite Z.add_opp_diag_r, add_live_0.
Qed.

(** ** Reading back *)

Lemma copy_bytes_idem b : copy_bytes (copy_bytes b) = copy_bytes b.
Proof. unfold copy_bytes. destruct (len b =? 0) eqn:E; [done|]. by rewrite E. Qed.

Lemma copy_until_empty_idem l : copy_until_empty (copy_until_empty l) = copy_until_empty l.
Proof.
  induction l as [|b l IH]; [done|]. cbn. destruct (len b =? 0) eqn:E; cbn; [by rewrite length_replicate|].
  by rewrite E, IH.
Qed.

Lemma copy_objs_idem f (l : list (option OCRepPayload)) : all (typed_obj (fun p => f (f p) = f p)) l ->
  copy_objs f (copy_objs f l) = copy_objs f l.
Proof. induction l as [|[p|] l IH]; cbn; [done| |]; intros [H Hl]; by rewrite ?H, IH. Qed.

Lemma copy_member_idem f m : holds_inside (fun p => f (f p) = f p) m ->
  copy_member f (copy_member f m) = copy_member f m.
Proof.
  destruct m as [| | | | |b|o|[ty d e]]; cbn; try done.
  - intros _. by rewrite copy_bytes_idem.
  - destruct o; cbn; [by intros ->|done].
  - intros Hin. do 2 f_equal. destruct e as [p|p|p|p|p|p]; cbn; try (by destruct p as [[]|]).
    + destruct p as [[|b l]|]; [done| |done]. f_equal.
      pose proof (copy_until_empty_idem (b :: l)) as H. cbn [fmap option_fmap option_map].
      destruct (copy_until_empty (b :: l)) eqn:E; [done|]. cbn. cbn in H. by rewrite H.
    + destruct p as [l|]; [|done]. f_equal. cbn in Hin. pose proof (copy_objs_idem f l Hin) as H.
      destruct (copy_objs f l); [done|]. cbn [copy_block]. by rewrite H.
Qed.

Lemma copy_idem p : copy (copy p) = copy p.
Proof.
  induction p as [u t i v n Hv _] using rep_induction. cbn [copy]. f_equal.
  induction v as [|x v IH]; [done|]. destruct Hv as [Hx Hv]. cbn. rewrite IH by done. f_equal.
  unfold copy_value. cbn. by rewrite copy_member_idem.
Qed.

Lemma copy_obj_idem o : copy_obj copy (copy_obj copy o) = copy_obj copy o.
Proof. destruct o; cbn; [by rewrite copy_idem|done]. Qed.

(** The getter that goes with a setter, and what it returns. *)
Definition run_get (payload : option OCRepPayload) (nm : string) (s : setting) : M heap (option setting) :=
  match s with
  | SetNull => b ← lift (OCRepPayloadIsNull payload (Some nm)); mret (if b : bool then Some SetNull else None)
  | SetPropInt _ => r ← lift (OCRepPayloadGetPropInt payload (Some nm)); mret (SetPropInt <$> r)
  | SetPropDouble _ => r ← lift (OCRepPayloadGetPropDouble payload (Some nm)); mret (SetPropDouble <$> r)
  | SetPropBool _ => r ← lift (OCRepPayloadGetPropBool payload (Some nm)); mret (SetPropBool <$> r)
  | SetPropString _ => r ← OCRepPayloadGetPropString payload (Some nm); mret (SetPropString <$> r)
  | SetPropByteString _ => r ← OCRepPayloadGetPropByteString payload (Some nm) true; mret (SetPropByteString <$> r)
  | SetPropObject _ => r ← OCRepPayloadGetPropObject payload (Some nm); mret ((fun p => SetPropObject (Some p)) <$> r)
  | SetIntArray _ _ => r ← OCRepPayloadGetIntArray payload (Some nm); mret ((fun x => SetIntArray x.1 x.2) <$> r)
  | SetDoubleArray _ _ =>
      r ← OCRepPayloadGetDoubleArray payload (Some nm); mret ((fun x => SetDoubleArray x.1 x.2) <$> r)
  | SetBoolArray _ _ => r ← OCRepPayloadGetBoolArray payload (Some nm); mret ((fun x => SetBoolArray x.1 x.2) <$> r)
  | SetStringArray _ _ =>
      r ← OCRepPayloadGetStringArray payload (Some nm);
      mret (x ← r; l ← mapM id x.1; Some (SetStringArray l x.2))
  | SetByteStringArray _ _ =>
      r ← OCRepPayloadGetByteStringArray payload (Some nm); mret ((fun x => SetByteStringArray x.1 x.2) <$> r)
  | SetPropObjectArray _ _ =>
      r ← OCRepPayloadGetPropObjectArray payload (Some nm); mret ((fun x => SetPropObjectArray x.1 x.2) <$> r)
  end.

(** What was stored: copies, without the blocks of empty byte strings and
    without what follows the payloads. *)
Definition stored (s : setting) : setting :=
  match s with
  | SetPropByteString v => SetPropByteString (copy_bytes v)
  | SetPropObject v => SetPropObject (copy_obj copy v)
  | SetByteStringArray l d => SetByteStringArray (copy_bytes <$> l) d
  | SetPropObjectArray l d => SetPropObjectArray (copy_objs copy l) d
  | _ => s
  end.

(** A computation that has a result and takes some blocks. *)
Definition returns {A} (m : M heap A) (a : A) : Prop := exists n, yields m a n.

Lemma returns_ret {A} (a : A) : returns (mret a) a.
Proof. exists 0. apply yields_ret. Qed.

Lemma returns_bind {A B} (m : M heap A) (k : A -> M heap B) a b : returns m a -> returns (k a) b -> returns (m ≫= k) b.
Proof. intros [x Hx] [y Hy]. exists (x + y). by eapply yields_bind. Qed.

Lemma returns_lift {A} (x : ub A) a : x = Some a -> returns (lift x) a.
Proof. exists 0. by apply yields_lift. Qed.

Lemma returns_yields {A} (m : M heap A) a n : yields m a n -> returns m a.
Proof. by exists n. Qed.

Section ReadBack.
Context (p : OCRepPayload) (nm : string).

(** The value of the name, for the getters. *)
Definition has (e : entry) : Prop :=
  exists v, OCRepPayloadFindValue (Some p) (Some nm) = Some (Some v) /\ type v = e.1 /\ content v = e.2.

Lemma view_has e : typed p -> view p !! nm = Some e -> has e.
Proof.
  intros Hp Hv. destruct (find_view (values p) nm (typed_values p Hp)) as (v & E & H).
  unfold view in Hv. rewrite Hv in H. destruct v as [v|]; [|done]. exists v. split; [done|].
  unfold entry_of in H. cbn in H. by injection H as ->.
Qed.

Lemma find_array_has {A} ty d e (get : array_ptr OCRepPayload -> ub (option (list A))) l :
  has (array_of ty d e) -> get e = Some (Some l) ->
  find_array (Some p) (Some nm) ty get = Some (Some (Some l, d)).
Proof.
  intros (v & E & Ht & Hc) Hg. unfold find_array. rewrite E. cbn. rewrite Ht, decide_True by done.
  rewrite Hc. cbn. rewrite decide_True by done. by rewrite Hg.
Qed.

Lemma find_array_other {A} ty ty' d e (get : array_ptr OCRepPayload -> ub (option (list A))) :
  has (array_of ty d e) -> ty <> ty' -> find_array (Some p) (Some nm) ty' get = Some None.
Proof.
  intros (v & E & Ht & Hc) Hty. unfold find_array. rewrite E. cbn. rewrite Ht, decide_True by done.
  rewrite Hc. cbn. by rewrite decide_False.
Qed.

Lemma get_copied_returns {A} size (l : list A) d found : array_fits l d -> 0 < size <= sizeof_byte_string ->
  found = Some (Some (Some l, d)) -> returns (get_copied size found) (Some (l, d)).
Proof.
  intros Hf Hs ->. destruct (fits_size l d Hf) as [Hn Hl]. eapply returns_bind; [by apply returns_lift|]. cbn beta iota zeta.
  destruct (Z.eqb_spec (calcDimTotal d) 0); [done|]. eapply returns_bind.
  - eapply returns_yields, yields_copy_cells; [lia| |exact Hl].
    destruct Hf as (_ & _ & Hm). pose proof (calcDimTotal_nonneg d). unfold sizeof_byte_string in *. nia.
  - destruct l; [by destruct Hf as (_ & ? & _)|]. apply returns_ret.
Qed.

(** The getters that copy element by element. *)
Lemma get_collected_returns {A B} (f : A -> M heap B) (g : A -> B) (c : B -> Z) (ok : A -> Prop) (l : list A) d found :
  (forall x, ok x -> yields (f x) (g x) (c (g x))) -> array_fits l d -> all ok l ->
  found = Some (Some (Some l, d)) ->
  returns (found ← lift found;
           match found with
           | Some (p, d) =>
               if calcDimTotal d =? 0 then mret None
               else
                 ok ← OICMalloc (u64 (calcDimTotal d * sizeof_word));
                 if negb ok then mret None
                 else if cells sizeof_word (calcDimTotal d) <? calcDimTotal d then undefined
                 else l ← collect f (calcDimTotal d) p; mret (Some (l, d))
           | None => mret None
           end) (Some (g <$> l, d)).
Proof.
  intros Hg Hf Ho ->. destruct (fits_size l d Hf) as [Hn Hl]. destruct (fits_cells sizeof_word l d Hf) as [Hc Hu]; [done|].
  eapply returns_bind; [by apply returns_lift|]. cbn beta iota zeta. destruct (Z.eqb_spec (calcDimTotal d) 0); [done|].
  eapply returns_bind; [by eapply returns_yields, yields_malloc|]. cbn [negb]. rewrite Hc, Z.ltb_irrefl.
  eapply returns_bind; [|apply returns_ret]. eapply returns_yields. by eapply collect_yields.
Qed.

Lemma dup_returns l : forall acc, all bytes_ok l ->
  returns (dup_byte_strings (length l) acc l) (Some (acc ++ (copy_bytes <$> l))).
Proof.
  induction l as [|b l IH]; intros acc Hl; cbn [dup_byte_strings length].
  - rewrite app_nil_r. apply returns_ret.
  - destruct Hl as [Hb Hl]. specialize (IH (acc ++ [copy_bytes b]) Hl). rewrite <- app_assoc in IH. cbn in IH |- *.
    unfold copy_bytes at 1 in IH. unfold copy_bytes at 1 in IH. destruct (Z.eqb_spec (len b) 0) as [Hz|Hz].
    + unfold copy_bytes at 1. rewrite Hz. exact IH.
    + eapply returns_bind; [by eapply returns_yields, yields_malloc|]. cbn [negb].
      eapply returns_bind; [by apply returns_lift, elements_all; symmetry|].
      rewrite (bytes_eta b) by by apply bytes_present. unfold copy_bytes at 1.
      destruct (Z.eqb_spec (len b) 0); [done|]. exact IH.
Qed.
End ReadBack.

Lemma has_get {A} p nm ty m (k : option value -> ub A) (a : A) : has p nm (ty, m) ->
  (forall v, type v = ty -> content v = m -> k (Some v) = Some a) ->
  (val ← OCRepPayloadFindValue (Some p) (Some nm); k val) = Some a.
Proof. intros (v & E & Ht & Hc) Hk. rewrite E. cbn. auto. Qed.

Lemma has_run {A} p nm ty m (k : option value -> M heap A) (a : A) : has p nm (ty, m) ->
  (forall v, type v = ty -> content v = m -> returns (k (Some v)) a) ->
  returns (val ← lift (OCRepPayloadFindValue (Some p) (Some nm)); k val) a.
Proof. intros (v & E & Ht & Hc) Hk. eapply returns_bind; [by apply returns_lift|]. auto. Qed.

Lemma returns_map {A B} (m : M heap (option A)) (f : A -> B) a : returns m (Some a) ->
  returns (r ← m; mret (f <$> r)) (Some (f a)).
Proof. intros H. eapply returns_bind; [exact H|apply returns_ret]. Qed.

Lemma get_scalar_returns p nm s : has p nm (meaning s) ->
  match s with SetNull | SetPropInt _ | SetPropDouble _ | SetPropBool _ | SetPropString _ => True | _ => False end ->
  returns (run_get (Some p) nm s) (Some (stored s)).
Proof.
  destruct s; cbn [meaning run_get stored]; intros Hh Hs; try done.
  - eapply returns_bind; [apply returns_lift; by eapply has_get; [eassumption|]; intros v' -> _|apply returns_ret].
  - apply (returns_map _ SetPropInt v), returns_lift. eapply has_get; [eassumption|]. by intros v' -> ->.
  - apply (returns_map _ SetPropDouble v), returns_lift. eapply has_get; [eassumption|]. by intros v' -> ->.
  - apply (returns_map _ SetPropBool v), returns_lift. eapply has_get; [eassumption|]. by intros v' -> ->.
  - apply (returns_map _ SetPropString v). eapply has_run; [eassumption|].
    intros v' -> ->. eapply returns_yields. apply (yields_strdup (Some v)).
Qed.

Lemma get_byte_string_returns p nm v : bytes_ok v -> has p nm (meaning (SetPropByteString v)) ->
  returns (OCRepPayloadGetPropByteString (Some p) (Some nm) true) (Some (copy_bytes v)).
Proof.
  intros Hv Hh. eapply has_run; [exact Hh|]. intros v' -> ->. cbn [negb]. rewrite decide_True by done.
  unfold copy_bytes. destruct (Z.eqb_spec (len v) 0) as [Hz|Hz]; [cbn; apply returns_ret|].
  destruct (Z.eqb_spec (len v) 0); [done|]. eapply returns_bind; [by eapply returns_yields, yields_malloc|]. cbn [negb].
  eapply returns_bind; [by apply returns_lift, elements_all; symmetry|].
  rewrite (bytes_eta v) by by apply bytes_present. apply returns_ret.
Qed.

Lemma get_string_array_returns p nm l d : array_fits l d -> has p nm (meaning (SetStringArray l d)) ->
  returns (OCRepPayloadGetStringArray (Some p) (Some nm)) (Some (Some <$> l, d)).
Proof.
  intros Hf Hh. pose proof Hf as (Hlen & Hne & Hm).
  replace (Some <$> l) with ((default (None : option string)) <$> ((fun s => Some (Some s)) <$> l))
    by by rewrite <- list_fmap_compose.
  apply (get_collected_returns (fun c => s ← lift c; OICStrdup s) (default None) blk (fun c => is_Some c)
           ((fun s => Some (Some s)) <$> l)).
  - intros c [s ->]. replace (blk _) with (0 + blk s) by (cbn; lia).
    eapply yields_bind; [by apply yields_lift|]. apply yields_strdup.
  - split; [by rewrite length_fmap|]. split; [by destruct l|done].
  - clear. induction l; cbn; eauto.
  - by eapply find_array_has; [exact Hh|].
Qed.

Lemma get_byte_string_array_returns p nm l d : array_fits l d -> all bytes_ok l ->
  has p nm (meaning (SetByteStringArray l d)) ->
  returns (OCRepPayloadGetByteStringArray (Some p) (Some nm)) (Some (copy_bytes <$> l, d)).
Proof.
  intros Hf Hb Hh. destruct (fits_size l d Hf) as [Hn Hl]. unfold OCRepPayloadGetByteStringArray.
  eapply returns_bind; [by apply returns_lift; eapply find_array_has; [exact Hh|]|]. cbn beta iota zeta.
  destruct (Z.eqb_spec (calcDimTotal d) 0); [done|].
  eapply returns_bind; [by eapply returns_yields, yields_calloc; [| |apply Hf]|]. cbn [negb default from_option id].
  eapply (returns_bind _ _ (Some (copy_bytes <$> l))); [|apply returns_ret].
  replace (Z.to_nat (calcDimTotal d)) with (length (copy_bytes <$> l))
    by (destruct Hf as [<- _]; by rewrite Nat2Z.id, length_fmap).
  replace (copy_bytes <$> l) with (copy_bytes <$> (copy_bytes <$> l)) at 3.
  - apply (dup_returns (copy_bytes <$> l) []). clear -Hb. induction l as [|b l IH]; [done|].
    destruct Hb. split; [by apply copy_bytes_ok|auto].
  - rewrite <- list_fmap_compose. apply list_fmap_ext. intros. apply copy_bytes_idem.
Qed.

Lemma get_object_array_returns p nm l d : array_fits l d -> all (typed_obj typed) l ->
  has p nm (meaning (SetPropObjectArray l d)) ->
  returns (OCRepPayloadGetPropObjectArray (Some p) (Some nm)) (Some (copy_objs copy l, d)).
Proof.
  intros Hf Ho Hh. pose proof Hf as (Hlen & Hne & Hm).
  replace (copy_objs copy l) with (copy_obj copy <$> copy_objs copy l)
    by (clear; induction l as [|o l IH]; [done|]; cbn; by rewrite copy_obj_idem, IH).
  apply (get_collected_returns OCRepPayloadClone (copy_obj copy) (blocks_obj blocks) (typed_obj typed)
           (copy_objs copy l)).
  - apply clone_opt_yields.
  - split; [by rewrite copy_objs_length|]. split; [by destruct l|done].
  - clear -Ho. induction l as [|o l IH]; [done|]. destruct Ho. split; [by apply copy_obj_typed|auto].
  - by eapply find_array_has; [exact Hh|].
Qed.

Lemma get_returns p nm s : typed p -> fits s -> s <> SetPropObject None -> view p !! nm = Some (meaning s) ->
  returns (run_get (Some p) nm s) (Some (stored s)).
Proof.
  intros Hp Hf Hs Hv. apply view_has in Hv; [|done].
  destruct s; try by apply get_scalar_returns; cbn [fits run_get stored] in *.
  - by apply (returns_map _ SetPropByteString), get_byte_string_returns.
  - destruct v as [q|]; [|done]. apply (returns_map _ (fun p => SetPropObject (Some p)) (copy q)).
    eapply has_run; [exact Hv|]. intros v' -> ->. rewrite decide_True by done.
    pose proof (clone_opt_yields (Some (copy q)) (copy_typed q Hf)) as Hy. cbn [copy_obj] in Hy |- *.
    rewrite copy_idem in Hy. exact (returns_yields _ _ _ Hy).
  - apply (returns_map _ (fun x => SetIntArray x.1 x.2) (l, d)). apply get_copied_returns; [exact Hf|done|].
    by eapply find_array_has; [exact Hv|].
  - apply (returns_map _ (fun x => SetDoubleArray x.1 x.2) (l, d)). eapply returns_bind.
    { apply returns_lift. by eapply find_array_other; [exact Hv|]. }
    apply get_copied_returns; [exact Hf|done|]. by eapply find_array_has; [exact Hv|].
  - apply (returns_map _ (fun x => SetBoolArray x.1 x.2) (l, d)). apply get_copied_returns; [exact Hf|done|].
    by eapply find_array_has; [exact Hv|].
  - eapply returns_bind; [by apply get_string_array_returns|].
    assert (mapM id (Some <$> l) = Some l) as E
      by (clear; induction l as [|x l IH]; [done|]; cbn in *; by rewrite IH).
    cbn. rewrite E. apply returns_ret.
  - destruct Hf. apply (returns_bind _ _ (Some (copy_bytes <$> l, d))); [|apply returns_ret].
    by apply get_byte_string_array_returns.
  - destruct Hf. apply (returns_bind _ _ (Some (copy_objs copy l, d))); [|apply returns_ret].
    by apply get_object_array_returns.
Qed.

(** C29: what was set is read back: with memory to be had the getter of the same
    type returns the value, byte strings and arrays as long as they were and
    payloads as copies, whatever the payload held before; only a NULL object
    cannot be read. *)
Theorem set_get_roundtrip (p : OCRepPayload) (nm : string) (s : setting) (h : heap) :
  typed p -> fits s -> s <> SetPropObject None -> hp_allocs h = [] ->
  exists h', (r ← run_set (Some p) nm s; run_get r.2 nm s) h = Some (Some (stored s), h').
Proof.
  intros Hp Hf Hs Hh. pose proof (run_set_wp p nm s h Hp Hf (nil_copied s h Hf Hh)) as Hw. unfold wp in Hw.
  destruct (run_set (Some p) nm s h) as [[[b q] h1]|] eqn:E; [|done].
  destruct Hw as (p' & Hq & T & H). cbn in Hq. subst q. destruct b; [|by destruct H]. cbn in H.
  rewrite (run_bind _ _ _ _ _ E). cbn [snd].
  destruct (get_returns p' nm s) as [n Hn]; [|done|done| |].
  - subst p'. apply typed_set_values; [done|]. apply put_typed; [|by apply typed_values].
    split; [by eexists|]. by apply meaning_typed.
  - subst p'. destruct p as [u t i v nx]. unfold view. cbn [values set_values].
    rewrite (view_put _ nm); [|done|by apply (typed_values _ Hp)]. rewrite lookup_insert_eq. by destruct (meaning s).
  - exists (add_live n h1). apply Hn. by apply T.
Qed.

(** ** What goes wrong *)

Definition byte_string_array (nm : string) (l : list OCByteString) (d : dims) : OCRepPayload :=
  Rep None [] [] [value_of nm (array_of OCREP_PROP_BYTE_STRING d (ocByteStrArray (Some l)))] None.

Lemma copy_until_empty_cons b l : len b <> 0 -> copy_until_empty (b :: l) = b :: copy_until_empty l.
Proof. intros Hb. cbn [copy_until_empty]. by destruct (Z.eqb_spec (len b) 0). Qed.

(** the copy of an array of byte strings stops at the first empty one, as
    if memory had run out: [OCRepPayloadClone] succeeds, and what follows reads
    back empty. *)
Theorem clone_loses_byte_strings (nm : string) (a b : OCByteString) (h : heap) :
  bytes_ok a -> bytes_ok b -> len a <> 0 -> len b <> 0 -> hp_allocs h = [] ->
  exists h', (q ← OCRepPayloadClone (Some (byte_string_array nm [a; zero_bytes; b] (3, 0, 0)));
              OCRepPayloadGetByteStringArray q (Some nm)) h
    = Some (Some ([a; zero_bytes; zero_bytes], (3, 0, 0)), h').
Proof.
  intros Ha Hb Hna Hnb Hh.
  assert (typed (byte_string_array nm [a; zero_bytes; b] (3, 0, 0))) as Ht
    by (split; [|done]; split; [|done]; split; [by eexists|]; by repeat split).
  assert (copy_elems copy (ocByteStrArray (Some [a; zero_bytes; b]))
          = ocByteStrArray (Some [a; zero_bytes; zero_bytes])) as Ee.
  { unfold copy_elems. cbn [fmap option_fmap option_map]. by rewrite copy_until_empty_cons. }
  assert (copy (byte_string_array nm [a; zero_bytes; b] (3, 0, 0))
          = byte_string_array nm [a; zero_bytes; zero_bytes] (3, 0, 0)) as Ec.
  { change (copy _) with (Rep None [] [] [value_of nm (array_of OCREP_PROP_BYTE_STRING (3, 0, 0)
      (copy_elems copy (ocByteStrArray (Some [a; zero_bytes; b]))))] None). by rewrite Ee. }
  rewrite (run_bind _ _ _ _ _ (clone_yields _ Ht h Hh)), Ec.
  assert (copy_bytes <$> [a; zero_bytes; zero_bytes] = [a; zero_bytes; zero_bytes]) as E
    by (cbn [fmap list_fmap]; unfold copy_bytes at 1; destruct (Z.eqb_spec (len a) 0); done).
  destruct (get_byte_string_array_returns
              (byte_string_array nm [a; zero_bytes; zero_bytes] (3, 0, 0)) nm [a; zero_bytes; zero_bytes] (3, 0, 0))
    as [n Hn]; [done|by repeat split| |].
  - eexists. split; [cbn; by rewrite bool_decide_true|]. cbn [meaning]. by rewrite E.
  - rewrite E in Hn. eexists. apply Hn. done.
Qed.

(** [OCRepPayloadSetStringArray] takes an array with a NULL string and
    returns [true]; the copy of the payload stops there and leaves the rest of
    the array unwritten, so that destroying the copy is undefined. *)
Theorem null_string_clone_undefined (nm a b : string) (h : heap) : hp_allocs h = [] ->
  let array := Some [Some a; None; Some b] in
  let set := payload ← OCRepPayloadCreate; OCRepPayloadSetStringArray payload (Some nm) array (3, 0, 0) in
  (exists q h', set h = Some ((true, q), h')) /\
  (r ← set; q ← OCRepPayloadClone r.2; OCRepPayloadDestroy q) h = None.
Proof.
  intros Hh array set. destruct h as [l n]. cbn in Hh. subst l.
  split; [do 2 eexists|]; destruct nm, a, b; reflexivity.
Qed.

(** [OCRepPayloadAddResourceType] gives the string it duplicated to nobody when
    there is no node for it, or no payload. *)
Theorem add_resource_type_leaks (p : OCRepPayload) (s : string) (l : list bool) (n : Z) :
  OCRepPayloadAddResourceType (Some p) (Some s) {| hp_allocs := true :: false :: l; live := n |}
    = Some ((false, Some p), {| hp_allocs := l; live := n + 1 |}) /\
  OCRepPayloadAddResourceType None (Some s) {| hp_allocs := []; live := n |}
    = Some ((false, None), {| hp_allocs := []; live := n + 1 |}).
Proof. split; destruct s; reflexivity. Qed.

(** [OCRepPayloadSetPropString] with NULL returns [false] and replaces the value
    all the same. *)
Theorem set_null_string_replaces (p : OCRepPayload) (nm : string) (h : heap) : typed p -> hp_allocs h = [] ->
  wp (OCRepPayloadSetPropString (Some p) (Some nm) None) h (fun r _ =>
    r.1 = false /\ exists p', r.2 = Some p' /\ view p' = <[nm := (OCREP_PROP_STRING, m_str None)]> (view p)).
Proof.
  intros Hp Hh. apply wp_bind, wp_ret, wp_bind, wp_bind. eapply wp_mono; [by apply find_and_set_wp|].
  intros [[i|] q] h2 (l & Hq & Hl); cbn in Hq, Hl; subst q.
  - apply wp_ret. cbn [bool_decide negb]. apply wp_bind, wp_ret, wp_ret. split; [done|].
    apply (placed_stores _ _ (m_str None)) in Hl. destruct Hl as [E _]. eexists. split; [exact E|].
    destruct p as [u t i' v n]. unfold view.
    apply (view_put (value_of nm (OCREP_PROP_STRING, m_str None)) nm); [done|by apply (typed_values _ Hp)].
  - by destruct Hl as (_ & _ & ?).
Qed.

(** Without memory [OCRepPayloadSetIntArray] returns [true] and leaves NULL with
    its dimensions; the payload cannot be copied. *)
Theorem int_array_without_memory (nm : string) (x : Z) (n : Z) :
  let set := payload ← OCRepPayloadCreate; OCRepPayloadSetIntArray payload (Some nm) (Some [Some x]) (1, 0, 0) in
  let h := {| hp_allocs := [true; false]; live := n |} in
  (exists q h', set h = Some ((true, q), h')) /\ (r ← set; OCRepPayloadClone r.2) h = None.
Proof. intros set h. split; [do 2 eexists|]; destruct nm; reflexivity. Qed.

(** ** Witnesses *)

Definition inner_rep : OCRepPayload := Rep None [] [] [value_of "k" (OCREP_PROP_INT, m_i 3)] None.

(** The fourth call stores a copy, the last one is refused the place for the
    copy it has made. *)
Definition sample_script : script :=
  [("a", SetPropInt 5); ("b", SetPropString "x"); ("a", SetBoolArray [Some true; Some false] (2, 0, 0));
   ("o", SetPropObject (Some inner_rep)); ("c", SetPropByteString {| bytes := Some [1; 2]; len := 2 |});
   ("b", SetNull); ("s", SetStringArray ["u"; "v"] (2, 0, 0)); ("p", SetPropObject (Some inner_rep))].

Definition sample_heap : heap :=
  {| hp_allocs := [true; true; true; false; true; true; true; true; true; true; true; true; true; true;
                   false; true; true; true; true; true; true; true; true; false];
     live := 7 |}.

Definition sample_rep : OCRepPayload :=
  Rep (Some "/a") [Some "core.light"] [] [value_of "n" (OCREP_PROP_OBJECT, m_obj (Some (Rep None [] [] [] None)))] None.

Lemma sample_fits : script_fits sample_script.
Proof. repeat constructor; cbn; try done; try lia; eauto. Qed.

(** Runs a script and finds every copy complete. *)
Ltac run_copied :=
  repeat (split;
    [first [exact I | eexists; vm_compute; reflexivity
           | intros ? E; vm_compute in E; injection E as <-; eexists; vm_compute; reflexivity]|];
    intros ? ? ? E; vm_compute in E; injection E as <- <- <-);
  exact I.

Lemma sample_copied : built_copied sample_script sample_heap.
Proof.
  intros payload h' E. vm_compute in E. injection E as <- <-. unfold sample_script. cbn [script_copied]. run_copied.
Qed.

(** The last call fails and has released its copy. *)
Example sample_refused : exists q,
  built sample_script sample_heap = Some (q, {| hp_allocs := []; live := 23 |}) /\ blocks_obj blocks q = 16.
Proof. eexists. split; vm_compute; reflexivity. Qed.

Lemma payload_well_formed_witness :
  wp (built sample_script) sample_heap (fun q _ =>
    match q with Some p => well_formed p | None => hp_allocs sample_heap <> [] end).
Proof. apply (payload_well_formed sample_script sample_heap); [apply sample_fits|apply sample_copied]. Defined.

Lemma payload_no_leak_witness :
  wp (q ← built sample_script; OCRepPayloadDestroy q) sample_heap (fun _ h' => live h' = 7).
Proof. apply (payload_no_leak sample_script sample_heap); [apply sample_fits|apply sample_copied]. Defined.

(** The copy of the payload takes three blocks; there is none for the value. *)
Definition refusing_heap : heap := {| hp_allocs := [true; true; true; false]; live := 0 |}.

Lemma setter_refines_insert_witness :
  wp (run_set (Some sample_rep) "o" (SetPropObject (Some inner_rep))) refusing_heap (fun r _ =>
    exists p', r.2 = Some p' /\
      if r.1 then view p' = <["o" := meaning (SetPropObject (Some inner_rep))]> (view sample_rep)
      else hp_allocs refusing_heap <> [] /\
        (view p' = view sample_rep \/
         (exists v, SetPropObject (Some inner_rep) = SetPropString v) /\
         view p' = <["o" := (OCREP_PROP_STRING, m_str None)]> (view sample_rep))).
Proof.
  apply (setter_refines_insert sample_rep "o" (SetPropObject (Some inner_rep)) refusing_heap);
    [repeat split; by eexists..|]. eexists. vm_compute. reflexivity.
Defined.

Lemma clone_is_copy_witness :
  OCRepPayloadClone (Some sample_rep) {| hp_allocs := []; live := 0 |}
    = Some (Some (copy sample_rep), {| hp_allocs := []; live := 7 |}) /\
  (q ← OCRepPayloadClone (Some sample_rep); OCRepPayloadDestroy q) {| hp_allocs := []; live := 0 |}
    = Some (tt, {| hp_allocs := []; live := 0 |}).
Proof. apply (clone_is_copy sample_rep {| hp_allocs := []; live := 0 |}); repeat split; by eexists. Defined.

Lemma set_get_roundtrip_witness : exists h',
  (r ← run_set (Some sample_rep) "n" (SetStringArray ["x"; "y"] (1, 2, 0));
   run_get r.2 "n" (SetStringArray ["x"; "y"] (1, 2, 0))) {| hp_allocs := []; live := 0 |}
    = Some (Some (SetStringArray ["x"; "y"] (1, 2, 0)), h').
Proof.
  apply (set_get_roundtrip sample_rep "n" (SetStringArray ["x"; "y"] (1, 2, 0)) {| hp_allocs := []; live := 0 |});
    repeat split; try done; by eexists.
Defined.

Definition one_byte (z : Z) : OCByteString := {| bytes := Some [z]; len := 1 |}.

Lemma clone_loses_byte_strings_witness : exists h',
  (q ← OCRepPayloadClone (Some (byte_string_array "n" [one_byte 1; zero_bytes; one_byte 2] (3, 0, 0)));
   OCRepPayloadGetByteStringArray q (Some "n")) {| hp_allocs := []; live := 0 |}
    = Some (Some ([one_byte 1; zero_bytes; zero_bytes], (3, 0, 0)), h').
Proof. apply (clone_loses_byte_strings "n" (one_byte 1) (one_byte 2) {| hp_allocs := []; live := 0 |}); done. Defined.

Lemma null_string_clone_undefined_witness :
  let set := payload ← OCRepPayloadCreate;
             OCRepPayloadSetStringArray payload (Some "n") (Some [Some "a"; None; Some "b"]) (3, 0, 0) in
  (exists q h', set {| hp_allocs := []; live := 0 |} = Some ((true, q), h')) /\
  (r ← set; q ← OCRepPayloadClone r.2; OCRepPayloadDestroy q) {| hp_allocs := []; live := 0 |} = None.
Proof. apply (null_string_clone_undefined "n" "a" "b" {| hp_allocs := []; live := 0 |}); done. Defined.
