(* ===== verification/Endpoint.v ===== *)
(** * Endpoint: endpoints as strings

    Models [csdk/stack/src/ocendpoint.c]: the schemes of the transports and the
    strings [scheme://address:port] endpoints are written as in discovery.
    Texts are the contents of C strings, so they hold no NUL.  Built with TCP, Bluetooth EDR, BLE and
    NFC where [tcp], [edr], [le] and [nfc] are true, and with DTLS where
    [secure] is; without HTTP and remote access. *)
From S2P Require Import Prelude Effects OicString Heap CaCommon.

(** ** Flags *)

(** [OCTpsSchemeFlags] *)
Definition OC_NO_TPS : Z := 0.
Definition OC_COAP : Z := 1.
Definition OC_COAPS : Z := 2.
Definition OC_COAP_TCP : Z := 4.
Definition OC_COAPS_TCP : Z := 8.
Definition OC_COAP_RFCOMM : Z := 64.
Definition OC_COAP_GATT : Z := 128.
Definition OC_COAP_NFC : Z := 256.

(** [OCTransportAdapter] and [OCTransportFlags] *)
Definition OC_ADAPTER_IP : Z := 1.
Definition OC_ADAPTER_RFCOMM_BTEDR : Z := 4.
Definition OC_ADAPTER_TCP : Z := 16.
Definition OC_DEFAULT_FLAGS : Z := 0.
Definition OC_FLAG_SECURE : Z := 16.
Definition OC_IP_USE_V6 : Z := 32.
Definition OC_IP_USE_V4 : Z := 64.
Definition OC_MASK_FAMS : Z := OC_IP_USE_V6 ||| OC_IP_USE_V4.

Definition MAX_ADDR_STR_SIZE : Z := 66.
Definition OC_MAX_TPS_STR_SIZE : Z := 12.
Definition OC_MAX_ADDR_STR_SIZE : Z := 46.

Definition COAP_STR : list Z := chars "coap".
Definition COAPS_STR : list Z := chars "coaps".
Definition COAP_TCP_STR : list Z := chars "coap+tcp".
Definition COAPS_TCP_STR : list Z := chars "coaps+tcp".
Definition COAP_RFCOMM_STR : list Z := chars "coap+rfcomm".
Definition OC_ENDPOINT_TPS_TOKEN : list Z := chars "://".
Definition OC_ENDPOINT_ADDR_TOKEN : Z := 58.
Definition OC_ENDPOINT_BRACKET_START : Z := 91.
Definition OC_ENDPOINT_BRACKET_END : Z := 93.

(** The list [next] is that of the discovery payload. *)
Record OCEndpointPayload := {
  tps : option (list Z);
  ep_addr : option (list Z);
  family : Z;
  ep_port : Z;
  pri : Z;
}.

Definition bit (x mask : Z) : bool := negb (x &&& mask =? 0).

(** ** The C library *)

Fixpoint strstr_at (s p : list Z) : option nat :=
  if has_prefix p s then Some O
  else match s with [] => None | _ :: s' => S <$> strstr_at s' p end.

Fixpoint strchr (c : Z) (s : list Z) : option nat :=
  match s with [] => None | x :: s' => if x =? c then Some O else S <$> strchr c s' end.

Fixpoint strrchr (c : Z) (s : list Z) : option nat :=
  match s with
  | [] => None
  | x :: s' =>
      match strrchr c s' with
      | Some i => Some (S i)
      | None => if x =? c then Some O else None
      end
  end.

(** [%d] of a number that is not negative: an [int] has ten digits. *)
Fixpoint dec (fuel : nat) (n : Z) : list Z :=
  match fuel with
  | O => []
  | S f => if n <? 10 then [48 + n] else dec f (n / 10) ++ [48 + n mod 10]
  end.

Definition decimal (n : Z) : list Z := dec 10 n.

Definition isspace (c : Z) : bool := (c =? 32) || ((9 <=? c) && (c <=? 13)).
Definition is_digit (c : Z) : bool := (48 <=? c) && (c <=? 57).

Fixpoint skip_space (s : list Z) : list Z :=
  match s with c :: s' => if isspace c then skip_space s' else s | [] => [] end.

Fixpoint digits (acc : Z) (s : list Z) : Z :=
  match s with c :: s' => if is_digit c then digits (acc * 10 + (c - 48)) s' else acc | [] => acc end.

(** The text [memcpy] or [OICStrcpy] of the bytes [s] leaves in a block of
    [size] zeroed bytes: undefined when [s] does not fit into the block, and
    when no byte is left for the NUL that ends the text. *)
Definition copy_text (size : Z) (s : list Z) : ub (list Z) :=
  b ← write_at (replicate (Z.to_nat size) 0) 0 s;
  _ ← read_at b (Z.of_nat (length s)) 1;
  read_at b 0 (Z.of_nat (length s)).

Definition LONG_MAX : Z := 2 ^ 63 - 1.
Definition LONG_MIN : Z := - 2 ^ 63.

(** [strtol] in base ten: what follows the digits is not looked at. *)
Definition strtol (s : list Z) : Z :=
  let v :=
    match skip_space s with
    | 45 :: s' => - digits 0 s'
    | 43 :: s' => digits 0 s'
    | s' => digits 0 s'
    end in
  Z.max LONG_MIN (Z.min LONG_MAX v).

Section Endpoint.
Context (tcp edr le nfc secure : bool).

(** ** Schemes *)

(** [SelectedNetwork] is what [CAGetSelectedNetwork] returns. *)
Definition OCGetSupportedEndpointFlags (SelectedNetwork givenFlags : Z) (out : option Z) : OCStackResult * option Z :=
  match out with
  | None => (OC_STACK_INVALID_PARAM, None)
  | Some out =>
      let out :=
        if bit givenFlags (OC_COAP ||| OC_COAPS) && bit SelectedNetwork CA_ADAPTER_IP then
          let out := out ||| OC_COAP in if secure then out ||| OC_COAPS else out
        else out in
      let out :=
        if tcp && bit givenFlags (OC_COAP_TCP ||| OC_COAPS_TCP) && bit SelectedNetwork CA_ADAPTER_TCP then
          let out := out ||| OC_COAP_TCP in if secure then out ||| OC_COAPS_TCP else out
        else out in
      let out :=
        if edr && bit givenFlags OC_COAP_RFCOMM && bit SelectedNetwork CA_ADAPTER_RFCOMM_BTEDR
        then out ||| OC_COAP_RFCOMM else out in
      let out :=
        if le && bit givenFlags OC_COAP_GATT && bit SelectedNetwork CA_ADAPTER_GATT_BTLE
        then out ||| OC_COAP_GATT else out in
      let out :=
        if nfc && bit givenFlags OC_COAP_NFC && bit SelectedNetwork CA_ADAPTER_NFC
        then out ||| OC_COAP_NFC else out in
      (OC_STACK_OK, Some out)
  end.

Definition OCGetMatchedTpsFlags (adapter flags : Z) (out : option Z) : OCStackResult * option Z :=
  match out with
  | None => (OC_STACK_INVALID_PARAM, None)
  | Some out =>
      let out :=
        if bit adapter OC_ADAPTER_IP && bit flags (OC_IP_USE_V4 ||| OC_IP_USE_V6) then
          if bit flags OC_FLAG_SECURE then out ||| OC_COAPS else out ||| OC_COAP
        else out in
      let out :=
        if tcp && bit adapter OC_ADAPTER_TCP && bit flags (OC_IP_USE_V4 ||| OC_IP_USE_V6) then
          if bit flags OC_FLAG_SECURE then out ||| OC_COAPS_TCP else out ||| OC_COAP_TCP
        else out in
      let out := if edr && bit adapter OC_ADAPTER_RFCOMM_BTEDR then out ||| OC_COAP_RFCOMM else out in
      let out := if le && bit adapter CA_ADAPTER_GATT_BTLE then out ||| OC_COAP_GATT else out in
      let out := if nfc && bit adapter CA_ADAPTER_NFC then out ||| OC_COAP_NFC else out in
      (OC_STACK_OK, Some out)
  end.

Definition OCGetSupportedTpsFlags (SelectedNetwork : Z) : Z :=
  let ret := OC_NO_TPS in
  let ret :=
    if bit SelectedNetwork CA_ADAPTER_IP then
      let ret := ret ||| OC_COAP in if secure then ret ||| OC_COAPS else ret
    else ret in
  let ret :=
    if tcp && bit SelectedNetwork CA_ADAPTER_TCP then
      let ret := ret ||| OC_COAP_TCP in if secure then ret ||| OC_COAPS_TCP else ret
    else ret in
  let ret := if edr && bit SelectedNetwork CA_ADAPTER_RFCOMM_BTEDR then ret ||| OC_COAP_RFCOMM else ret in
  let ret := if le && bit SelectedNetwork CA_ADAPTER_GATT_BTLE then ret ||| OC_COAP_GATT else ret in
  if nfc && bit SelectedNetwork CA_ADAPTER_NFC then ret ||| OC_COAP_NFC else ret.

Definition ConvertTpsToString (t : Z) : option (list Z) :=
  if t =? OC_COAP then Some COAP_STR
  else if t =? OC_COAPS then Some COAPS_STR
  else if tcp && (t =? OC_COAP_TCP) then Some COAP_TCP_STR
  else if tcp && (t =? OC_COAPS_TCP) then Some COAPS_TCP_STR
  else if edr && (t =? OC_COAP_RFCOMM) then Some COAP_RFCOMM_STR
  else None.

(** The result and the string, when the pointer to it is not NULL. *)
Definition OCConvertTpsToString (t : Z) (out : bool) : M heap (OCStackResult * option (list Z)) :=
  if negb out then mret (OC_STACK_INVALID_PARAM, None)
  else
    s ← OICStrdup (ConvertTpsToString t);
    mret (match s with Some _ => OC_STACK_OK | None => OC_STACK_NO_MEMORY end, s).

(** ** Writing *)

(** [snprintf] into the buffer, which is released when the text does not fit. *)
Definition fill (text : list Z) : M heap (option (list Z)) :=
  if MAX_ADDR_STR_SIZE <=? Z.of_nat (length text) then _ ← OICFree (Some tt); mret None
  else mret (Some text).

Definition addressed (scheme a : list Z) (v4 : bool) (p : Z) : list Z :=
  if v4 then scheme ++ OC_ENDPOINT_TPS_TOKEN ++ a ++ [OC_ENDPOINT_ADDR_TOKEN] ++ decimal p
  else scheme ++ OC_ENDPOINT_TPS_TOKEN ++ [OC_ENDPOINT_BRACKET_START] ++ a
         ++ [OC_ENDPOINT_BRACKET_END; OC_ENDPOINT_ADDR_TOKEN] ++ decimal p.

Definition OCCreateEndpointString (endpoint : option OCEndpointPayload) : M heap (option (list Z)) :=
  match endpoint with
  | None => mret None
  | Some e =>
      ok ← OICCalloc MAX_ADDR_STR_SIZE 1;
      if negb ok then mret None
      else
        t ← lift (tps e);
        if bool_decide (t = COAP_STR) || bool_decide (t = COAPS_STR)
           || tcp && (bool_decide (t = COAP_TCP_STR) || bool_decide (t = COAPS_TCP_STR)) then
          a ← lift (ep_addr e); fill (addressed t a (bit (family e) OC_IP_USE_V4) (ep_port e))
        else if edr && bool_decide (t = COAP_RFCOMM_STR) then
          a ← lift (ep_addr e); fill (t ++ OC_ENDPOINT_TPS_TOKEN ++ a)
        else _ ← OICFree (Some tt); mret None
  end.

Definition OCCreateEndpointStringFromCA (endpoint : option CAEndpoint_t) : M heap (option (list Z)) :=
  match endpoint with
  | None => mret None
  | Some e =>
      match addr e with
      | [] => mret None
      | _ =>
          match OCGetMatchedTpsFlags (adapter e) (flags e) (Some OC_NO_TPS) with
          | (OC_STACK_OK, Some t) =>
              ok ← OICCalloc MAX_ADDR_STR_SIZE 1;
              if negb ok then mret None
              else if (t =? OC_COAP) || (t =? OC_COAPS) || tcp && ((t =? OC_COAP_TCP) || (t =? OC_COAPS_TCP)) then
                if port e =? 0 then _ ← OICFree (Some tt); mret None
                else
                  scheme ← lift (ConvertTpsToString t);
                  fill (addressed scheme (addr e) (bit (flags e) CA_IPV4) (port e))
              else if edr && (t =? OC_COAP_RFCOMM) then
                scheme ← lift (ConvertTpsToString t); fill (scheme ++ OC_ENDPOINT_TPS_TOKEN ++ addr e)
              else _ ← OICFree (Some tt); mret None
          | _ => mret None
          end
      end
  end.

(** ** Reading *)

(** What the scheme says: the adapter, if there is one, and whether the
    endpoint is secure. *)
Definition parse_scheme (t : list Z) : option (Z * bool) :=
  if bool_decide (t = COAP_STR) then Some (OC_ADAPTER_IP, false)
  else if bool_decide (t = COAPS_STR) then Some (OC_ADAPTER_IP, true)
  else if tcp && bool_decide (t = COAP_TCP_STR) then Some (OC_ADAPTER_TCP, false)
  else if tcp && bool_decide (t = COAPS_TCP_STR) then Some (OC_ADAPTER_TCP, true)
  else if edr && bool_decide (t = COAP_RFCOMM_STR) then Some (OC_ADAPTER_RFCOMM_BTEDR, false)
  else None.

Definition set_family (f : Z) (e : OCEndpointPayload) : OCEndpointPayload := {|
  tps := tps e; ep_addr := ep_addr e; family := f; ep_port := ep_port e; pri := pri e |}.

(** The three blocks at the exit. *)
Definition release (tps addr origin : bool) : M heap unit :=
  let block (b : bool) := if b then Some tt else None in
  _ ← OICFree (block origin); _ ← OICFree (block tps); OICFree (block addr).

(** Address and port of [origin], the address between [tokPos] and [tmp];
    [false] where the code goes to its exit. *)
Definition read_address (origin : list Z) (tokPos tmp : Z) (t : list Z) (out : OCEndpointPayload)
    : ub (bool * OCEndpointPayload) :=
  let addrCharsToWrite := u64 (tmp - tokPos) in
  if addrCharsToWrite <? 1 then Some (false, out)
  else if OC_MAX_ADDR_STR_SIZE <=? addrCharsToWrite then Some (false, out)
  else
    src ← read_at origin tokPos addrCharsToWrite;
    a ← copy_text OC_MAX_ADDR_STR_SIZE src;
    match strrchr OC_ENDPOINT_ADDR_TOKEN origin with
    | None => Some (false, out)
    | Some tmp =>
        let p := strtol (drop (S tmp) origin) in
        if p <? 1 then Some (false, out)
        else if 65535 <? p then Some (false, out)
        else Some (true, {| tps := Some t; ep_addr := Some a; family := family out; ep_port := p; pri := pri out |})
    end.

(** The scheme of [origin] ends at [tokPos]. *)
Definition parse_address (origin : list Z) (tokPos : Z) (t : list Z) (isSecure : bool) (out : OCEndpointPayload)
    : ub (bool * OCEndpointPayload) :=
  let '(fam, tokPos, tmp) :=
    match strchr OC_ENDPOINT_BRACKET_START origin with
    | Some _ => (OC_IP_USE_V6, tokPos + 4, strrchr OC_ENDPOINT_BRACKET_END origin)
    | None => (OC_IP_USE_V4, tokPos + 3, strrchr OC_ENDPOINT_ADDR_TOKEN origin)
    end in
  let out := set_family fam out in
  match tmp with
  | None => Some (false, out)
  | Some tmp =>
      let out := if isSecure then set_family (family out ||| OC_FLAG_SECURE) out else out in
      read_address origin tokPos (Z.of_nat tmp) t out
  end.

Definition OCParseEndpointString (endpointStr : option (list Z)) (out : option OCEndpointPayload)
    : M heap (OCStackResult * option OCEndpointPayload) :=
  match endpointStr, out with
  | Some str, Some out =>
      ok ← OICCalloc OC_MAX_TPS_STR_SIZE 1;
      if negb ok then _ ← release false false false; mret (OC_STACK_ERROR, Some out)
      else
        ok ← OICCalloc OC_MAX_ADDR_STR_SIZE 1;
        if negb ok then _ ← release true false false; mret (OC_STACK_ERROR, Some out)
        else
          origin ← OICStrdup (Some str);
          match origin with
          | None => _ ← release true true false; mret (OC_STACK_ERROR, Some out)
          | Some origin =>
              let exit out := _ ← release true true true; mret (OC_STACK_ERROR, Some out) in
              match strstr_at origin OC_ENDPOINT_TPS_TOKEN with
              | None => exit out
              | Some n =>
                  if Z.of_nat n <? 1 then exit out
                  else if OC_MAX_TPS_STR_SIZE <=? Z.of_nat n then exit out
                  else
                    src ← lift (read_at origin 0 (Z.of_nat n));
                    t ← lift (copy_text OC_MAX_TPS_STR_SIZE src);
                    match parse_scheme t with
                    | None => _ ← release true true true; mret (OC_STACK_ADAPTER_NOT_ENABLED, Some out)
                    | Some (parsedAdapter, isSecure) =>
                        if parsedAdapter =? OC_ADAPTER_RFCOMM_BTEDR then
                          a ← lift (copy_text OC_MAX_ADDR_STR_SIZE
                                      (take (Z.to_nat (OC_MAX_ADDR_STR_SIZE - 1)) (drop (n + 3) origin)));
                          _ ← OICFree (Some tt);
                          mret (OC_STACK_OK, Some {| tps := Some t; ep_addr := Some a; family := OC_DEFAULT_FLAGS;
                                                     ep_port := 0; pri := pri out |})
                        else
                          '(b, out) ← lift (parse_address origin (Z.of_nat n) t isSecure out);
                          if b : bool then _ ← OICFree (Some tt); mret (OC_STACK_OK, Some out) else exit out
                    end
              end
          end
  | _, _ => mret (OC_STACK_INVALID_PARAM, out)
  end.
End Endpoint.

(** ** Texts *)

(** A copy into a block that is large enough. *)
Lemma copy_text_fits size s : Z.of_nat (length s) < size -> copy_text size s = Some s.
Proof.
  intros H. unfold copy_text.
  rewrite write_at_prefix by (rewrite length_replicate; lia). cbn [mbind option_bind].
  rewrite (read_at_ok _ (Z.of_nat (length s)) 1)
    by (rewrite ?length_app, ?length_drop, ?length_replicate; lia). cbn [mbind option_bind].
  by apply read_at_prefix.
Qed.

(** And into one that is not. *)
Lemma copy_text_overflow size s : 0 <= size <= Z.of_nat (length s) -> copy_text size s = None.
Proof.
  intros H. unfold copy_text. destruct (write_at _ 0 s) as [b|] eqn:E; [|done].
  apply write_at_length in E. rewrite length_replicate in E. cbn [mbind option_bind].
  replace (read_at b (Z.of_nat (length s)) 1) with (@None (list Z)); [done|].
  unfold read_at. rewrite decide_False; [done|lia].
Qed.

Lemma strchr_app c a b : c ∉ a -> strchr c (a ++ b) = (fun i => (length a + i)%nat) <$> strchr c b.
Proof.
  induction a as [|x a IH]; intros Ha; cbn [app strchr length].
  - destruct (strchr c b); reflexivity.
  - apply not_elem_of_cons in Ha as [Hx Ha]. destruct (Z.eqb_spec x c); [congruence|].
    rewrite (IH Ha). by destruct (strchr c b).
Qed.

Lemma strrchr_none c b : c ∉ b -> strrchr c b = None.
Proof.
  induction b as [|x b IH]; intros Hb; cbn; [done|]. apply not_elem_of_cons in Hb as [Hx Hb].
  rewrite (IH Hb). by destruct (Z.eqb_spec x c).
Qed.

Lemma strrchr_last c a b : c ∉ b -> strrchr c (a ++ c :: b) = Some (length a).
Proof.
  intros Hb. induction a as [|x a IH]; cbn; [by rewrite strrchr_none, Z.eqb_refl|]. by rewrite IH.
Qed.

Lemma strrchr_bound c s i : strrchr c s = Some i -> (i < length s)%nat.
Proof.
  revert i. induction s as [|x s IH]; intros i; cbn; [done|].
  destruct (strrchr c s) as [j|]; [intros [= <-]; specialize (IH j eq_refl); lia|].
  destruct (x =? c); [intros [= <-]; lia|done].
Qed.

Lemma has_prefix_bound p s : has_prefix p s = true -> (length p <= length s)%nat.
Proof.
  revert s. induction p as [|x p IH]; intros [|y s]; cbn; [lia|lia|done|].
  rewrite andb_true_iff. intros [_ H]. apply IH in H. lia.
Qed.

Lemma strstr_at_bound p s i : strstr_at s p = Some i -> (i + length p <= length s)%nat.
Proof.
  revert i. induction s as [|x s IH]; intros i; cbn [strstr_at].
  - destruct (has_prefix p []) eqn:E; [intros [= <-]; by apply has_prefix_bound in E|done].
  - destruct (has_prefix p (x :: s)) eqn:E; [intros [= <-]; by apply has_prefix_bound in E|].
    destruct (strstr_at s p) as [j|]; cbn; [|done]. intros [= <-]. specialize (IH j eq_refl). cbn. lia.
Qed.

Lemma strstr_at_scheme t r : 58 ∉ t -> strstr_at (t ++ OC_ENDPOINT_TPS_TOKEN ++ r) OC_ENDPOINT_TPS_TOKEN = Some (length t).
Proof.
  induction t as [|x t IH]; intros Ht; [done|]. apply not_elem_of_cons in Ht as [Hx Ht].
  cbn [app strstr_at]. replace (has_prefix _ _) with false; [by rewrite (IH Ht)|].
  change OC_ENDPOINT_TPS_TOKEN with [58; 47; 47]. cbn [has_prefix]. symmetry. apply andb_false_intro1, Z.eqb_neq. congruence.
Qed.


Lemma digits_app acc l r : Forall (fun c => is_digit c = true) l -> digits acc (l ++ r) = digits (digits acc l) r.
Proof. intros H. revert acc. induction H as [|c l Hc Hl IH]; intros acc; cbn; [done|]. by rewrite Hc, IH. Qed.

Lemma is_digit_of d : 0 <= d < 10 -> is_digit (48 + d) = true.
Proof. intros. unfold is_digit. rewrite andb_true_iff, !Z.leb_le. lia. Qed.

Lemma dec_spec f n : 0 <= n < 10 ^ Z.of_nat f -> f <> O ->
  Forall (fun c => is_digit c = true) (dec f n) /\ digits 0 (dec f n) = n /\ (length (dec f n) <= f)%nat /\ dec f n <> [].
Proof.
  revert n. induction f as [|f IH]; intros n Hn Hf; [done|]. cbn [dec]. destruct (Z.ltb_spec n 10) as [Hs|Hs].
  - split; [constructor; [apply is_digit_of; lia|constructor]|]. cbn [digits length]. rewrite is_digit_of by lia.
    split; [lia|]. split; [lia|done].
  - destruct f as [|f]; [cbn in Hn; lia|].
    assert (0 <= n / 10 < 10 ^ Z.of_nat (S f)) as Hd.
    { split; [apply Z.div_pos; lia|]. apply Z.div_lt_upper_bound; [lia|].
      rewrite <- Z.pow_succ_r by lia. rewrite <- Nat2Z.inj_succ. apply Hn. }
    destruct (IH (n / 10) Hd) as (H1 & H2 & H3 & _); [done|]. assert (0 <= n mod 10 < 10) by (apply Z.mod_pos_bound; lia).
    split; [|split; [|split]].
    + apply Forall_app. split; [done|]. constructor; [by apply is_digit_of|constructor].
    + rewrite digits_app by done. rewrite H2. cbn [digits]. rewrite is_digit_of by done.
      pose proof (Z.div_mod n 10). lia.
    + rewrite length_app. cbn [length]. lia.
    + by destruct (dec (S f) (n / 10)).
Qed.

Lemma decimal_spec n : 0 <= n <= 65535 ->
  Forall (fun c => is_digit c = true) (decimal n) /\ strtol (decimal n) = n /\ (length (decimal n) <= 10)%nat.
Proof.
  intros Hn. destruct (dec_spec 10 n) as (H1 & H2 & H3 & H4); [cbn; lia|done|]. split; [done|]. split; [|done].
  fold (decimal n) in *. unfold strtol. destruct (decimal n) as [|c l] eqn:E; [done|].
  assert (is_digit c = true) as Hc by by inversion H1. unfold is_digit in Hc. bool_to_prop.
  replace (skip_space (c :: l)) with (c :: l).
  - replace (match c :: l with 45 :: s' => _ | 43 :: s' => _ | s' => digits 0 s' end) with (digits 0 (c :: l)).
    + rewrite H2. unfold LONG_MIN, LONG_MAX. lia.
    + destruct c as [|p|p]; [done| |lia]. by do 6 (destruct p as [p|p|]; try done; try lia).
  - cbn [skip_space]. unfold isspace. destruct (Z.eqb_spec c 32); [lia|].
    by destruct (Z.leb_spec 9 c), (Z.leb_spec c 13); cbn; (reflexivity || lia).
Qed.

Lemma decimal_free c n : 0 <= n <= 65535 -> is_digit c = false -> c ∉ decimal n.
Proof.
  intros Hn Hc Hin. destruct (decimal_spec n Hn) as (H & _). rewrite Forall_forall in H.
  rewrite (H c Hin) in Hc. done.
Qed.

(** As many digits as the power of ten says. *)
Lemma dec_length f (k : nat) n : 0 <= n < 10 ^ Z.of_nat (S k) -> (length (dec f n) <= S k)%nat.
Proof.
  revert k n. induction f as [|f IH]; intros k n Hn; cbn [dec]; [cbn; lia|].
  destruct (Z.ltb_spec n 10); [cbn; lia|]. destruct k as [|k]; [cbn in Hn; lia|].
  rewrite length_app. cbn [length]. specialize (IH k (n / 10)).
  assert (0 <= n / 10 < 10 ^ Z.of_nat (S k)); [|lia].
  split; [apply Z.div_pos; lia|]. apply Z.div_lt_upper_bound; [lia|].
  rewrite <- Z.pow_succ_r by lia. rewrite <- Nat2Z.inj_succ. apply Hn.
Qed.

Lemma decimal_short n : 0 <= n <= 65535 -> (length (decimal n) <= 5)%nat.
Proof. intros. apply (dec_length 10 4). cbn. lia. Qed.

Lemma strchr_none c s : c ∉ s -> strchr c s = None.
Proof. intros H. rewrite <- (app_nil_r s), strchr_app by done. done. Qed.

(** ** Reading what was written *)

Definition fam (v4 : bool) : Z := if v4 then OC_IP_USE_V4 else OC_IP_USE_V6.

(** What stands before the address. *)
Definition before (t : list Z) (v4 : bool) : list Z :=
  t ++ (if v4 then OC_ENDPOINT_TPS_TOKEN else OC_ENDPOINT_TPS_TOKEN ++ [OC_ENDPOINT_BRACKET_START]).
Definition after (v4 : bool) : list Z := if v4 then [] else [OC_ENDPOINT_BRACKET_END].

Lemma addressed_split t a v4 p :
  addressed t a v4 p = (before t v4 ++ a ++ after v4) ++ OC_ENDPOINT_ADDR_TOKEN :: decimal p.
Proof. unfold addressed, before, after. destruct v4; by rewrite <- ?app_assoc. Qed.

(** Where the code finds the address. *)
Lemma address_place t a v4 p : 91 ∉ t -> (v4 = true -> 91 ∉ a) -> 0 <= p <= 65535 ->
  let s := addressed t a v4 p in
  match strchr 91 s with
  | Some _ => (OC_IP_USE_V6, Z.of_nat (length t) + 4, strrchr 93 s)
  | None => (OC_IP_USE_V4, Z.of_nat (length t) + 3, strrchr 58 s)
  end = (fam v4, Z.of_nat (length (before t v4)), Some (length (before t v4 ++ a))).
Proof.
  intros Ht Ha Hp s. subst s.
  assert (91 ∉ decimal p /\ 93 ∉ 58 :: decimal p /\ 58 ∉ decimal p) as (D1 & D2 & D3).
  { split_and!; [by apply decimal_free| |by apply decimal_free].
    apply not_elem_of_cons. split; [done|by apply decimal_free]. }
  rewrite addressed_split. destruct v4; unfold before, after, OC_ENDPOINT_ADDR_TOKEN, OC_ENDPOINT_BRACKET_START.
  - rewrite strchr_none.
    + rewrite app_nil_r, strrchr_last by done. do 2 f_equal. rewrite length_app. cbn. lia.
    + specialize (Ha eq_refl). rewrite !elem_of_app, elem_of_cons. change OC_ENDPOINT_TPS_TOKEN with [58; 47; 47].
      rewrite !elem_of_cons, elem_of_nil. intuition congruence.
  - set (s := _ ++ 58 :: decimal p).
    assert (s = t ++ (OC_ENDPOINT_TPS_TOKEN ++ [91]) ++ a ++ [93] ++ 58 :: decimal p) as E1
      by (subst s; by rewrite <- ?app_assoc).
    assert (s = ((t ++ OC_ENDPOINT_TPS_TOKEN ++ [91]) ++ a) ++ 93 :: 58 :: decimal p) as E2
      by (subst s; by rewrite <- ?app_assoc).
    assert (strchr 91 s = Some (length t + 3)%nat) as -> by (rewrite E1, strchr_app by done; reflexivity).
    assert (strrchr 93 s = Some (length ((t ++ OC_ENDPOINT_TPS_TOKEN ++ [91]) ++ a))) as ->
      by (rewrite E2; by apply strrchr_last).
    do 2 f_equal. rewrite length_app. cbn. lia.
Qed.

Lemma parse_addressed t a v4 p sec out : 91 ∉ t -> (v4 = true -> 91 ∉ a) ->
  (1 <= length a < 46)%nat -> 1 <= p <= 65535 ->
  parse_address (addressed t a v4 p) (Z.of_nat (length t)) t sec out =
    Some (true, {| tps := Some t; ep_addr := Some a;
                   family := if sec : bool then fam v4 ||| OC_FLAG_SECURE else fam v4; ep_port := p; pri := pri out |}).
Proof.
  intros Ht Ha Hl Hp. unfold parse_address, OC_ENDPOINT_BRACKET_START, OC_ENDPOINT_BRACKET_END, OC_ENDPOINT_ADDR_TOKEN.
  rewrite address_place by (done || lia). cbn beta iota zeta. unfold read_address.
  assert (u64 (Z.of_nat (length (before t v4 ++ a)) - Z.of_nat (length (before t v4))) = Z.of_nat (length a)) as ->
    by (rewrite length_app; unfold wrap; rewrite Z.mod_small; lia).
  destruct (Z.ltb_spec (Z.of_nat (length a)) 1); [lia|].
  destruct (Z.leb_spec OC_MAX_ADDR_STR_SIZE (Z.of_nat (length a))) as [H46|H46];
    [unfold OC_MAX_ADDR_STR_SIZE in H46; lia|].
  rewrite addressed_split. rewrite <- (app_assoc (before t v4)), <- (app_assoc a), read_at_app by lia. cbn [mbind option_bind].
  rewrite copy_text_fits by lia. cbn [mbind option_bind].
  rewrite (app_assoc a), (app_assoc (before t v4)). unfold OC_ENDPOINT_ADDR_TOKEN.
  rewrite strrchr_last by (apply decimal_free; [lia|done]).
  change (?x ++ 58 :: decimal p) with (x ++ [58] ++ decimal p).
  rewrite (app_assoc _ [58]), drop_app_length' by (rewrite (length_app _ [58]); cbn; lia).
  destruct (decimal_spec p) as (_ & -> & _); [lia|].
  destruct (Z.ltb_spec p 1); [lia|]. destruct (Z.ltb_spec 65535 p); [lia|]. by destruct sec.
Qed.

Lemma parse_scheme_cases tcp edr t ad sec : parse_scheme tcp edr t = Some (ad, sec) ->
  ad = OC_ADAPTER_RFCOMM_BTEDR /\ sec = false /\ edr = true /\ t = COAP_RFCOMM_STR \/
  ad <> OC_ADAPTER_RFCOMM_BTEDR /\
    bool_decide (t = COAP_STR) || bool_decide (t = COAPS_STR)
      || tcp && (bool_decide (t = COAP_TCP_STR) || bool_decide (t = COAPS_TCP_STR)) = true /\
    91 ∉ t /\ 58 ∉ t /\ (1 <= length t <= 9)%nat.
Proof.
  unfold parse_scheme. intros H.
  assert (forall s : list Z, bool_decide (91 ∉ s) && bool_decide (58 ∉ s) && (1 <=? length s)%nat && (length s <=? 9)%nat = true ->
            91 ∉ s /\ 58 ∉ s /\ (1 <= length s <= 9)%nat) as Hs.
  { intros s. rewrite !andb_true_iff, !bool_decide_eq_true, !Nat.leb_le. tauto. }
  repeat case_bool_decide; destruct tcp, edr; cbn in H; simplify_eq; try (left; done); right;
    (split; [done|]; split; [done|]; by apply Hs).
Qed.

Lemma addressed_length t a v4 p : (length t <= 9)%nat -> (length a < 46)%nat -> 0 <= p <= 65535 ->
  (length (addressed t a v4 p) < 66)%nat.
Proof.
  intros Ht Ha Hp. pose proof (decimal_short p Hp). rewrite addressed_split.
  unfold before, after. change OC_ENDPOINT_TPS_TOKEN with [58; 47; 47].
  destruct v4; rewrite !length_app; cbn [length]; lia.
Qed.

(** What the family of an endpoint says, and its scheme. *)
Definition family_of (v4 sec : bool) : Z := if sec then fam v4 ||| OC_FLAG_SECURE else fam v4.

Lemma create_yields tcp edr e t a v4 sec ad : tps e = Some t -> ep_addr e = Some a ->
  parse_scheme tcp edr t = Some (ad, sec) -> ad <> OC_ADAPTER_RFCOMM_BTEDR ->
  (length a < 46)%nat -> family e = family_of v4 sec -> 0 <= ep_port e <= 65535 ->
  yields (OCCreateEndpointString tcp edr (Some e)) (Some (addressed t a v4 (ep_port e))) 1.
Proof.
  intros Et Ea Hs Had Ha Hf Hp. destruct (parse_scheme_cases _ _ _ _ _ Hs) as [(? & _)|(_ & Hc & _ & _ & Hl)]; [done|].
  cbn [OCCreateEndpointString].
  eapply yields_eq; [eapply yields_bind; [by apply yields_calloc|cbn [negb]]|].
  - eapply yields_bind; [by apply yields_lift|]. rewrite Hc.
    eapply yields_bind; [by apply yields_lift|].
    replace (bit (family e) OC_IP_USE_V4) with v4 by (rewrite Hf; by destruct v4, sec). unfold fill.
    assert (length (addressed t a v4 (ep_port e)) < 66)%nat as Hlen by (apply addressed_length; lia).
    destruct (Z.leb_spec MAX_ADDR_STR_SIZE (Z.of_nat (length (addressed t a v4 (ep_port e))))) as [Hb|Hb];
      [unfold MAX_ADDR_STR_SIZE in Hb; lia|apply yields_ret].
  - done.
Qed.

Lemma parse_yields tcp edr t a v4 sec ad p out : parse_scheme tcp edr t = Some (ad, sec) ->
  ad <> OC_ADAPTER_RFCOMM_BTEDR -> (v4 = true -> 91 ∉ a) -> (1 <= length a < 46)%nat -> 1 <= p <= 65535 ->
  yields (OCParseEndpointString tcp edr (Some (addressed t a v4 p)) (Some out))
    (OC_STACK_OK, Some {| tps := Some t; ep_addr := Some a; family := family_of v4 sec; ep_port := p; pri := pri out |}) 2.
Proof.
  intros Hs Had H91 Ha Hp. destruct (parse_scheme_cases _ _ _ _ _ Hs) as [(? & _)|(_ & _ & H1 & H2 & Hl)]; [done|].
  cbn [OCParseEndpointString].
  eapply yields_eq; [eapply yields_bind; [by apply yields_calloc|cbn [negb]]|].
  - eapply yields_bind; [by apply yields_calloc|cbn [negb]]. eapply yields_bind; [apply yields_strdup|]. cbn beta iota.
    assert (strstr_at (addressed t a v4 p) OC_ENDPOINT_TPS_TOKEN = Some (length t)) as ->
      by (unfold addressed; destruct v4; by apply strstr_at_scheme).
    destruct (Z.ltb_spec (Z.of_nat (length t)) 1); [lia|].
    destruct (Z.leb_spec OC_MAX_TPS_STR_SIZE (Z.of_nat (length t))) as [Hb|Hb]; [unfold OC_MAX_TPS_STR_SIZE in Hb; lia|].
    assert (read_at (addressed t a v4 p) 0 (Z.of_nat (length t)) = Some t) as Et
      by (unfold addressed; destruct v4; by apply read_at_prefix).
    eapply yields_bind; [apply yields_lift, Et|].
    eapply yields_bind; [by apply yields_lift, copy_text_fits|]. rewrite Hs. destruct (Z.eqb_spec ad OC_ADAPTER_RFCOMM_BTEDR); [done|].
    eapply yields_bind; [apply yields_lift, parse_addressed; done|]. cbn beta iota.
    eapply yields_bind; [apply yields_frees, frees_ptr|apply yields_ret].
  - done.
Qed.

(** C30: an endpoint over IP or TCP that is written as a string is read back from
    it: scheme, address, family and port are the same, for every address of at
    most 45 characters, in brackets for IPv6 and without one for IPv4. *)
Theorem endpoint_string_roundtrip (tcp edr v4 sec : bool) (ad : Z) (t a : list Z) (e out : OCEndpointPayload) (h : heap) :
  tps e = Some t -> ep_addr e = Some a -> parse_scheme tcp edr t = Some (ad, sec) ->
  ad <> OC_ADAPTER_RFCOMM_BTEDR -> (1 <= length a < 46)%nat -> (v4 = true -> 91 ∉ a) ->
  family e = family_of v4 sec -> 1 <= ep_port e <= 65535 -> hp_allocs h = [] ->
  (s ← OCCreateEndpointString tcp edr (Some e); OCParseEndpointString tcp edr s (Some out)) h =
    Some ((OC_STACK_OK, Some {| tps := tps e; ep_addr := ep_addr e; family := family e; ep_port := ep_port e;
                                pri := pri out |}), add_live 3 h).
Proof.
  intros Et Ea Hs Had Ha H91 Hf Hp Hh. rewrite Et, Ea, Hf.
  revert h Hh. change (yields (s ← OCCreateEndpointString tcp edr (Some e); OCParseEndpointString tcp edr s (Some out))
    (OC_STACK_OK, Some {| tps := Some t; ep_addr := Some a; family := family_of v4 sec; ep_port := ep_port e; pri := pri out |}) (1 + 2)).
  eapply yields_bind; [eapply create_yields; (done || lia)|by eapply parse_yields].
Qed.

(** Whatever the string is. *)
Lemma read_address_defined s pos tmp t out : 0 <= pos <= 15 -> (tmp < length s)%nat ->
  exists r, read_address s pos (Z.of_nat tmp) t out = Some r.
Proof.
  intros Hpos Htmp. unfold read_address, OC_MAX_ADDR_STR_SIZE, wrap.
  destruct (Z.ltb_spec ((Z.of_nat tmp - pos) mod 2 ^ 64) 1); [by eexists|].
  destruct (Z.leb_spec 46 ((Z.of_nat tmp - pos) mod 2 ^ 64)) as [|Hu]; [by eexists|].
  assert (0 <= Z.of_nat tmp - pos) as Hge.
  { destruct (Z_lt_le_dec (Z.of_nat tmp - pos) 0) as [Hneg|]; [|done].
    rewrite (Z.mod_eq _ (2 ^ 64)) in Hu by lia.
    assert ((Z.of_nat tmp - pos) / 2 ^ 64 = -1) as Eq by (symmetry; apply Z.div_unique_pos with (2 ^ 64 + (Z.of_nat tmp - pos)); lia).
    rewrite Eq in Hu. lia. }
  pose proof (Z.mod_le (Z.of_nat tmp - pos) (2 ^ 64) Hge). rewrite read_at_ok by lia. cbn [mbind option_bind].
  rewrite copy_text_fits by (rewrite length_take, length_drop; lia). cbn [mbind option_bind].
  destruct (strrchr _ s); [|by eexists]. repeat case_goal; by eexists.
Qed.

Lemma parse_address_defined s n t sec out : Z.of_nat n < OC_MAX_TPS_STR_SIZE ->
  exists b out', parse_address s (Z.of_nat n) t sec out = Some (b, out').
Proof.
  unfold OC_MAX_TPS_STR_SIZE. intros Hn. unfold parse_address.
  assert (exists r, (match strchr OC_ENDPOINT_BRACKET_START s with
    | Some _ => (OC_IP_USE_V6, Z.of_nat n + 4, strrchr OC_ENDPOINT_BRACKET_END s)
    | None => (OC_IP_USE_V4, Z.of_nat n + 3, strrchr OC_ENDPOINT_ADDR_TOKEN s) end) = r /\ 0 <= r.1.2 <= 15 /\
    match r.2 with Some i => (i < length s)%nat | None => True end) as ([[f pos] tmp] & -> & Hp & Ht).
  { destruct (strchr _ s); eexists; (split; [done|]; cbn; split; [lia|]);
      match goal with |- context [strrchr ?c s] => destruct (strrchr c s) eqn:E end; by eauto using strrchr_bound. }
  cbn in Hp, Ht. destruct tmp as [tmp|]; [|by do 2 eexists].
  destruct (read_address_defined s pos tmp t
    (if sec then set_family (family (set_family f out) ||| OC_FLAG_SECURE) (set_family f out) else set_family f out))
    as [[b o] E]; [done|done|]. by do 2 eexists.
Qed.

Lemma release_frees a b c : frees (release a b c) ((if a then 1 else 0) + (if b then 1 else 0) + (if c then 1 else 0)).
Proof.
  assert (forall x : bool, blk (if x then Some tt else None) = if x then 1 else 0) as H by by intros [].
  eapply frees_eq; [apply frees_bind; [apply frees_ptr|apply frees_bind; apply frees_ptr]|]. rewrite !H. lia.
Qed.

(** The outcome of reading an endpoint. *)
Definition parsed (h : heap) (r : OCStackResult * option OCEndpointPayload) (h' : heap) : Prop :=
  (r.1 = OC_STACK_OK /\ took h 2 h' /\ exists e, r.2 = Some e /\ is_Some (tps e) /\ is_Some (ep_addr e)) \/
  (r.1 <> OC_STACK_OK /\ took h 0 h').

Lemma fails_parsed (a b c : bool) res out h h1 n : res <> OC_STACK_OK -> took h n h1 ->
  n = (if a then 1 else 0) + (if b then 1 else 0) + (if c then 1 else 0) ->
  wp (_ ← release a b c; mret (res, out)) h1 (parsed h).
Proof.
  intros Hr T ->. apply wp_bind. eapply wp_frees; [apply release_frees|]. intros h2 T2. apply wp_ret.
  right. split; [done|]. eapply took_trans; [exact T|exact T2|]. lia.
Qed.

Lemma read_address_complete s pos tmp t out b out' : read_address s pos tmp t out = Some (b, out') -> b = true ->
  is_Some (tps out') /\ is_Some (ep_addr out').
Proof.
  intros H ->. unfold read_address in H. repeat (bind_inv H || case_match; simplify_eq); split; by eexists.
Qed.

Lemma parse_address_complete s n t sec out out' : parse_address s n t sec out = Some (true, out') ->
  is_Some (tps out') /\ is_Some (ep_addr out').
Proof.
  unfold parse_address. destruct (match strchr _ s with Some _ => _ | None => _ end) as [[f p] [tmp|]]; [|done].
  intros H. by eapply read_address_complete.
Qed.

(** C31: reading an endpoint is defined for every string and whatever the
    allocator answers: no copy reads past the end of the string, none writes
    past the 12 bytes of the block for the scheme or the 46 of that for the
    address, and each leaves room for its NUL ([copy_text] is undefined
    otherwise, [copy_text_overflow]).  It either fills in scheme and address,
    in two blocks, or gives an error and releases what it took. *)
Theorem endpoint_parse_safe (tcp edr : bool) (s : list Z) (out : OCEndpointPayload) (h : heap) :
  wp (OCParseEndpointString tcp edr (Some s) (Some out)) h (parsed h).
Proof.
  cbn [OCParseEndpointString]. apply wp_bind. apply wp_asks; [by apply asks_calloc| |]; cbn [negb];
    [|intros _ h1 T; by apply (fails_parsed false false false _ _ _ _ 0)].
  intros h1 T1. apply wp_bind. apply wp_asks; [by apply asks_calloc| |]; cbn [negb];
    [|intros _ h2 T2; apply (fails_parsed true false false _ _ _ _ 1); [done|by eapply took_trans|done]].
  intros h2 T2. assert (took h 2 h2) as T by by eapply took_trans. clear T1 T2 h1.
  apply wp_bind. apply wp_strdup; [|intros _ h3 T3; apply (fails_parsed true true false _ _ _ _ 2); [done|by eapply took_trans|done]].
  intros h3 T3. assert (took h 3 h3) as Th by by eapply took_trans. clear T T3 h2. cbn beta iota zeta.
  assert (forall res o, res <> OC_STACK_OK -> wp (_ ← release true true true; mret (res, o)) h3 (parsed h)) as Hexit
    by (intros res o Hr; by apply (fails_parsed true true true _ _ _ _ 3)).
  assert (forall e, is_Some (tps e) /\ is_Some (ep_addr e) ->
            wp (_ ← OICFree (Some tt); mret (OC_STACK_OK, Some e)) h3 (parsed h)) as Hok.
  { intros e He. apply wp_bind. eapply wp_frees; [apply (frees_ptr (Some tt))|]. intros h4 T4. apply wp_ret. left.
    split; [done|]. split; [by eapply took_trans|by exists e]. }
  destruct (strstr_at s _) as [n|] eqn:En; [|by apply Hexit]. apply strstr_at_bound in En.
  destruct (Z.of_nat n <? 1); [by apply Hexit|]. destruct (Z.leb_spec OC_MAX_TPS_STR_SIZE (Z.of_nat n)); [by apply Hexit|].
  apply wp_bind. eapply wp_lift; [apply read_at_ok; lia|]. cbn [Z.to_nat drop].
  apply wp_bind. eapply wp_lift; [apply copy_text_fits; rewrite length_take; lia|].
  rewrite Nat2Z.id. change (drop (Z.to_nat 0) s) with s. destruct (parse_scheme tcp edr (take n s)) as [[ad sec]|]; [|by apply Hexit].
  destruct (ad =? OC_ADAPTER_RFCOMM_BTEDR).
  { apply wp_bind. eapply wp_lift; [apply copy_text_fits; rewrite length_take; unfold OC_MAX_ADDR_STR_SIZE; lia|].
    apply Hok. split; by eexists. }
  destruct (parse_address_defined s n (take n s) sec out) as (b & out' & E); [done|].
  apply wp_bind. eapply wp_lift; [exact E|]. cbn beta iota. destruct b; [|by apply Hexit].
  apply Hok. by eapply parse_address_complete.
Qed.

(** An IPv6 endpoint without a port gets the digits of its last group as its
    port: the last colon is looked for in the whole string. *)
Theorem ipv6_without_port (tcp edr : bool) (out : OCEndpointPayload) (h : heap) : hp_allocs h = [] ->
  OCParseEndpointString tcp edr (Some (chars "coap://[fe80::1]")) (Some out) h =
    Some ((OC_STACK_OK, Some {| tps := Some COAP_STR; ep_addr := Some (chars "fe80::1"); family := OC_IP_USE_V6;
                                ep_port := 1; pri := pri out |}), add_live 2 h).
Proof.
  destruct h as [l n]. cbn [hp_allocs]. intros ->.
  replace (add_live 2 _) with {| hp_allocs := []; live := n + 1 + 1 + 1 + -1 |} by (unfold add_live; cbn; f_equal; lia).
  by destruct tcp, edr.
Qed.

(** ** Witnesses *)

Definition sample_endpoint : OCEndpointPayload := {|
  tps := Some COAPS_STR; ep_addr := Some (chars "fe80::1"); family := OC_IP_USE_V6 ||| OC_FLAG_SECURE;
  ep_port := 5684; pri := 1 |}.

Lemma endpoint_string_roundtrip_witness :
  (s ← OCCreateEndpointString true true (Some sample_endpoint);
   OCParseEndpointString true true s (Some sample_endpoint)) {| hp_allocs := []; live := 0 |} =
    Some ((OC_STACK_OK, Some sample_endpoint), {| hp_allocs := []; live := 3 |}).
Proof.
  apply (endpoint_string_roundtrip true true false true OC_ADAPTER_IP COAPS_STR (chars "fe80::1") sample_endpoint
           sample_endpoint {| hp_allocs := []; live := 0 |}); try done; cbn; lia.
Defined.
