(* ===== verification/Discovery.v ===== *)
(** * Discovery: discovery payloads and the smaller payloads

    Models the rest of [csdk/stack/src/ocpayload.c]: string lists and the
    comma-separated texts they are written as, the resources of a discovery
    payload with their endpoints, and the security, introspection, presence
    and diagnostic payloads.  Allocation is that of [Heap]; built as
    [Endpoint]. *)
From S2P Require Import Prelude Effects OicString Heap CaCommon Payload PayloadSpec Endpoint.

(** ** String lists *)

Definition CSV_SEPARATOR : Ascii.ascii := Ascii.Ascii false false true true false true false false.

(** [strtok_r]: the next token and what follows it and its separator. *)
Fixpoint skip_separators (s : string) : string :=
  match s with
  | String c s' => if decide (c = CSV_SEPARATOR) then skip_separators s' else s
  | EmptyString => s
  end.

Fixpoint split_token (s : string) : string * string :=
  match s with
  | String c s' =>
      if decide (c = CSV_SEPARATOR) then (EmptyString, s') else let '(t, r) := split_token s' in (String c t, r)
  | EmptyString => (EmptyString, EmptyString)
  end.

Definition strtok_r (s : string) : option (string * string) :=
  match skip_separators s with
  | EmptyString => None
  | s' => Some (split_token s')
  end.

(** The loop; [n] is enough for the length of the text. *)
Fixpoint token_loop (n : nat) (text : string) (result : OCStringLL) : M heap (option OCStringLL) :=
  match n with
  | O => undefined
  | S n' =>
      match strtok_r text with
      | None => mret (Some result)
      | Some (token, tail) =>
          ok ← OICCalloc 1 sizeof_string_ll;
          if negb ok then _ ← OCFreeOCStringLL result; mret None
          else
            v ← OICStrdup (Some token);
            match v with
            | None => _ ← OCFreeOCStringLL (result ++ [None]); mret None
            | Some _ => token_loop n' tail (result ++ [v])
            end
      end
  end.

(** The copy of the text is released last; NULL is the empty list. *)
Definition OCCreateOCStringLL (text : option string) : M heap OCStringLL :=
  match text with
  | None => mret []
  | Some t =>
      backup ← OICStrdup text;
      match backup with
      | None => mret []
      | Some _ =>
          result ← token_loop (S (String.length t)) t [];
          _ ← OICFree backup; mret (default [] result)
      end
  end.

(** [strlen] and [snprintf] of NULL are undefined.  The buffer has [room] bytes
    before its last one; what would be cut, or be longer than [snprintf] can
    say, leads out of it. *)
Fixpoint join_loop (room : Z) (l : OCStringLL) : ub string :=
  match l with
  | [] => Some EmptyString
  | None :: _ => None
  | Some v :: rest =>
      let sublen := Z.of_nat (String.length v) in
      if (room <? sublen) || (INT_MAX <? sublen) then None
      else
        match rest with
        | [] => Some v
        | _ =>
            if u64 (room - sublen) <? 1 then None
            else r ← join_loop (u64 (u64 (room - sublen) - 1)) rest; Some (v +:+ String CSV_SEPARATOR r)
        end
  end.

Fixpoint texts_length (l : OCStringLL) : ub Z :=
  match l with
  | [] => Some 0
  | None :: _ => None
  | Some v :: rest => n ← texts_length rest; Some (u64 (Z.of_nat (String.length v) + 1 + n))
  end.

Definition OCCreateString (ll : OCStringLL) : M heap (option string) :=
  match ll with
  | [] => mret None
  | _ =>
      n ← lift (texts_length ll);
      let len := u64 (n - 1) in
      ok ← OICMalloc (u64 (len + 1));
      if negb ok then mret None else s ← lift (join_loop len ll); mret (Some s)
  end.

Definition OCResourcePayloadAddStringLL (stringLL : OCStringLL) (value : option string)
    : M heap (bool * OCStringLL) :=
  match value with
  | None => mret (false, stringLL)
  | Some _ =>
      dup ← OICStrdup value;
      match dup with
      | None => mret (false, stringLL)
      | Some _ =>
          ok ← OICCalloc 1 sizeof_string_ll;
          if negb ok then _ ← OICFree dup; mret (false, stringLL) else mret (true, stringLL ++ [dup])
      end
  end.

(** ** Discovery payloads *)

(** What a resource of the stack shows in discovery. *)
Record OCResource := {
  res_uri : option string;
  rsrcType : list (option string);
  rsrcInterface : list (option string);
  resourceProperties : Z;
  endpointType : Z;
}.

Record OCResourcePayload := {
  rp_uri : option string;
  rel : option string;
  anchor : option (list Z);
  rp_types : OCStringLL;
  rp_interfaces : OCStringLL;
  bitmap : Z;
  rp_secure : bool;
  rp_port : Z;
  tcpPort : Z;
  eps : list OCEndpointPayload;
}.

(** The list [next] is that of the payloads. *)
Record OCDiscoveryPayload := {
  sid : option string;
  dp_name : option string;
  dp_type : OCStringLL;
  iface : OCStringLL;
  resources : list OCResourcePayload;
}.

Definition OCDiscoveryPayloadCreate : M heap (option OCDiscoveryPayload) :=
  ok ← OICCalloc 1 56;
  mret (if ok : bool then Some {| sid := None; dp_name := None; dp_type := []; iface := []; resources := [] |}
        else None).

Definition set_resources (l : list OCResourcePayload) (p : OCDiscoveryPayload) : OCDiscoveryPayload := {|
  sid := sid p; dp_name := dp_name p; dp_type := dp_type p; iface := iface p; resources := l |}.

Fixpoint OCDiscoveryEndpointDestroy (l : list OCEndpointPayload) : M heap unit :=
  match l with
  | [] => mret tt
  | e :: rest =>
      _ ← OICFree (tps e); _ ← OICFree (ep_addr e); _ ← OCDiscoveryEndpointDestroy rest; OICFree (Some tt)
  end.

Fixpoint OCEndpointPayloadDestroy (l : list OCEndpointPayload) : M heap unit :=
  match l with
  | [] => mret tt
  | e :: rest =>
      _ ← OICFree (tps e); _ ← OICFree (ep_addr e); _ ← OCEndpointPayloadDestroy rest; OICFree (Some tt)
  end.

Fixpoint OCDiscoveryResourceDestroy (l : list OCResourcePayload) : M heap unit :=
  match l with
  | [] => mret tt
  | r :: rest =>
      _ ← OICFree (rp_uri r); _ ← OICFree (rel r); _ ← OICFree (anchor r);
      _ ← OCFreeOCStringLL (rp_types r); _ ← OCFreeOCStringLL (rp_interfaces r);
      _ ← OCDiscoveryEndpointDestroy (eps r);
      _ ← OCDiscoveryResourceDestroy rest; OICFree (Some tt)
  end.

Fixpoint OCDiscoveryPayloadDestroy (l : list OCDiscoveryPayload) : M heap unit :=
  match l with
  | [] => mret tt
  | p :: rest =>
      _ ← OICFree (sid p); _ ← OCFreeOCStringLL (dp_type p); _ ← OICFree (dp_name p);
      _ ← OCFreeOCStringLL (iface p); _ ← OCDiscoveryResourceDestroy (resources p);
      _ ← OCDiscoveryPayloadDestroy rest; OICFree (Some tt)
  end.

Fixpoint count {A} (i : Z) (l : list A) : Z := match l with [] => i | _ :: l' => count (u64 (i + 1)) l' end.

Definition OCDiscoveryPayloadGetResourceCount (payload : OCDiscoveryPayload) : Z := count 0 (resources payload).
Definition OCEndpointPayloadGetEndpointCount (l : list OCEndpointPayload) : Z := count 0 l.

(** The element at [index], from the one at [i]. *)
Fixpoint nth_from {A} (i index : Z) (l : list A) : option A :=
  match l with
  | [] => None
  | x :: l' => if i =? index then Some x else nth_from (u64 (i + 1)) index l'
  end.

Definition OCDiscoveryPayloadGetResource (payload : OCDiscoveryPayload) (index : Z) : option OCResourcePayload :=
  nth_from 0 index (resources payload).
Definition OCEndpointPayloadGetEndpoint (l : list OCEndpointPayload) (index : Z) : option OCEndpointPayload :=
  nth_from 0 index l.

(** [endpoint] and [res] are lists that are appended, NULL the empty one. *)
Definition OCResourcePayloadAddNewEndpoint (payload : option OCResourcePayload) (endpoint : list OCEndpointPayload)
    : option OCResourcePayload :=
  (fun r => {| rp_uri := rp_uri r; rel := rel r; anchor := anchor r; rp_types := rp_types r;
               rp_interfaces := rp_interfaces r; bitmap := bitmap r; rp_secure := rp_secure r; rp_port := rp_port r;
               tcpPort := tcpPort r; eps := eps r ++ endpoint |}) <$> payload.

Definition OCDiscoveryPayloadAddNewResource (payload : option OCDiscoveryPayload) (res : list OCResourcePayload)
    : option OCDiscoveryPayload :=
  (fun p => set_resources (resources p ++ res) p) <$> payload.

(** *** The endpoints of a resource *)

Section Build.
Context (tcp edr le nfc secure : bool).

Definition OC_DISCOVERABLE : Z := 1.
Definition OC_OBSERVABLE : Z := 2.
Definition OC_NONSECURE : Z := 64.
Definition OC_SECURE : Z := if secure then 16 else 0.
Definition MASK_SECURE_FAMS : Z := OC_FLAG_SECURE ||| OC_MASK_FAMS.
Definition OC_RSRVD_WELL_KNOWN_URI : string := "/oic/res".

(** The loop has the list it has made, the number of its nodes and the position
    of the node [*selfEp] points to. *)
Record ep_state := { headNode : list OCEndpointPayload; epSize : Z; selfEp : option nat }.

(** One [info]: [None] where the code goes to its exit. *)
Definition add_endpoint (resource : OCResource) (devAddr info : CAEndpoint_t) (want_self : bool) (st : ep_state)
    : M heap (option ep_state) :=
  if (bit (CA_ADAPTER_IP ||| CA_ADAPTER_TCP) (adapter info) && (ifindex info =? ifindex devAddr))
     || (adapter info =? CA_ADAPTER_RFCOMM_BTEDR) then
    let matchedTps := default OC_NO_TPS (OCGetMatchedTpsFlags tcp edr le nfc (adapter info) (flags info) (Some OC_NO_TPS)).2 in
    let isSecure := bit (flags info) OC_FLAG_SECURE in
    if bit (endpointType resource) matchedTps
       && (isSecure && bit (resourceProperties resource) OC_SECURE
           || negb isSecure && bit (resourceProperties resource) OC_NONSECURE) then
      ok ← OICCalloc 1 32;
      if negb ok then mret None
      else
        '(ret, t) ← OCConvertTpsToString tcp edr matchedTps true;
        let node a := {| tps := t; ep_addr := a; family := flags info; ep_port := port info; pri := 1 |} in
        if decide (ret = OC_STACK_OK) then
          ok ← OICCalloc MAX_ADDR_STR_SIZE 1;
          if negb ok then _ ← OCDiscoveryEndpointDestroy [node None]; mret None
          else
            let infoFlagsSecureFams := flags info &&& MASK_SECURE_FAMS in
            mret (Some {|
              headNode := headNode st ++ [node (Some (addr info))];
              epSize := u64 (epSize st + 1);
              selfEp := if want_self && (infoFlagsSecureFams &&& flags devAddr =? infoFlagsSecureFams)
                        then Some (length (headNode st)) else selfEp st |})
        else _ ← OCDiscoveryEndpointDestroy [node None]; mret None
    else mret (Some st)
  else mret (Some st).

(** At the exit the nodes are released; what [*selfEp] is stays. *)
Fixpoint endpoint_loop (resource : OCResource) (devAddr : CAEndpoint_t) (want_self : bool) (l : list CAEndpoint_t)
    (st : ep_state) : M heap (bool * ep_state) :=
  match l with
  | [] => mret (true, st)
  | info :: rest =>
      r ← add_endpoint resource devAddr info want_self st;
      match r with
      | Some st => endpoint_loop resource devAddr want_self rest st
      | None =>
          _ ← OCDiscoveryEndpointDestroy (headNode st);
          mret (false, {| headNode := []; epSize := epSize st; selfEp := selfEp st |})
      end
  end.

(** Whether [*listHead] is written, the list, which is also what is returned,
    [*epSize] and [*selfEp].  The last two pointers may be NULL. *)
Definition CreateEndpointPayloadList (resource : option OCResource) (devAddr : option CAEndpoint_t)
    (networkInfo : option (list CAEndpoint_t)) (infoSize : Z) (listHead want_self : bool) (self : option nat)
    : M heap (bool * ep_state) :=
  let st := {| headNode := []; epSize := 0; selfEp := self |} in
  match resource, devAddr, networkInfo, listHead with
  | Some resource, Some devAddr, Some infos, true =>
      if bit (OC_ADAPTER_IP ||| OC_ADAPTER_TCP) (adapter devAddr) then
        l ← lift (elements (Some infos) infoSize);
        endpoint_loop resource devAddr want_self l st
      else mret (true, st)
  | _, _, _, _ => mret (false, st)
  end.

(** A list of names is copied to a string list; [false] with what there is
    when a block cannot be had. *)
Fixpoint copy_names (acc : OCStringLL) (l : list (option string)) : M heap (bool * OCStringLL) :=
  match l with
  | [] => mret (true, acc)
  | v :: rest =>
      ok ← OICCalloc 1 sizeof_string_ll;
      if negb ok then mret (false, acc)
      else
        s ← OICStrdup v;
        match s with None => mret (false, acc ++ [None]) | Some _ => copy_names (acc ++ [s]) rest end
  end.

Definition resource_payload u r a t i b s p tp e : OCResourcePayload := {|
  rp_uri := u; rel := r; anchor := a; rp_types := t; rp_interfaces := i; bitmap := b; rp_secure := s;
  rp_port := p; tcpPort := tp; eps := e |}.

(** The string for the endpoint [self] points to; when that has been released
    it is followed as soon as there is a buffer. *)
Definition anchor_of (e : list OCEndpointPayload) (self : option nat) : M heap (option (list Z)) :=
  match self with
  | None => OCCreateEndpointString tcp edr None
  | Some i =>
      match e !! i with
      | Some x => OCCreateEndpointString tcp edr (Some x)
      | None => ok ← OICCalloc MAX_ADDR_STR_SIZE 1; if ok : bool then undefined else mret None
      end
  end.

(** [tcp_port] counts when built with TCP. *)
Definition OCCopyResource (res : OCResource) (securePort : Z) (networkInfo : option (list CAEndpoint_t)) (infoSize : Z)
    (devAddr : option CAEndpoint_t) (tcp_port : Z) : M heap (option OCResourcePayload) :=
  let fails pl := _ ← OCDiscoveryResourceDestroy [pl]; mret None in
  ok ← OICCalloc 1 64;
  if negb ok then mret None
  else
    '(e, self) ← (match networkInfo, devAddr with
                  | Some _, Some _ =>
                      if infoSize =? 0 then mret ([], None)
                      else
                        '(_, st) ← CreateEndpointPayloadList (Some res) devAddr networkInfo infoSize true true None;
                        mret (headNode st, selfEp st)
                  | _, _ => mret ([], None)
                  end);
    u ← OICStrdup (res_uri res);
    match u with
    | None => fails (resource_payload None None None [] [] 0 false 0 0 e)
    | Some uri =>
        let well_known := bool_decide (uri = OC_RSRVD_WELL_KNOWN_URI) in
        r ← (if well_known then OICStrdup (Some "self") else mret None);
        if well_known && bool_decide (r = None) then fails (resource_payload u None None [] [] 0 false 0 0 e)
        else
          a ← anchor_of e self;
          '(ok, t) ← copy_names [] (rsrcType res);
          if negb ok then fails (resource_payload u r a t [] 0 false 0 0 e)
          else
            '(ok, i) ← copy_names [] (rsrcInterface res);
            if negb ok then fails (resource_payload u r a t i 0 false 0 0 e)
            else
              mret (Some (resource_payload u r a t i
                            (resourceProperties res &&& (OC_OBSERVABLE ||| OC_DISCOVERABLE))
                            (bit (resourceProperties res) OC_SECURE) securePort (if tcp then tcp_port else 0) e))
    end.

Definition OCDiscoveryPayloadAddResource (payload : option OCDiscoveryPayload) (res : OCResource)
    (securePort tcp_port : Z) : M heap (option OCDiscoveryPayload) :=
  r ← OCCopyResource res securePort None 0 None tcp_port;
  mret (OCDiscoveryPayloadAddNewResource payload (match r with Some r => [r] | None => [] end)).

Definition OCDiscoveryPayloadAddResourceWithEps (payload : option OCDiscoveryPayload) (res : OCResource)
    (securePort : Z) (networkInfo : option (list CAEndpoint_t)) (infoSize : Z) (devAddr : option CAEndpoint_t)
    (tcp_port : Z) : M heap (option OCDiscoveryPayload) :=
  r ← OCCopyResource res securePort networkInfo infoSize devAddr tcp_port;
  mret (OCDiscoveryPayloadAddNewResource payload (match r with Some r => [r] | None => [] end)).
End Build.

(** ** The smaller payloads *)

Record OCSecurityPayload := { securityData : list Z; payloadSize : Z }.
Record OCPresencePayload := { sequenceNumber : Z; maxAge : Z; trigger : Z; resourceType : option string }.

(** A payload and the bytes it copies; [OICCalloc] of no bytes is NULL. *)
Definition with_bytes (size_of_payload : Z) (data : option (list Z)) (size : Z) : M heap (option (list Z)) :=
  ok ← OICCalloc 1 size_of_payload;
  if negb ok then mret None
  else
    ok ← OICCalloc 1 size;
    if negb ok then _ ← OICFree (Some tt); mret None
    else l ← lift (elements data size); mret (Some l).

Definition OCSecurityPayloadCreate (data : option (list Z)) (size : Z) : M heap (option OCSecurityPayload) :=
  l ← with_bytes 24 data size; mret ((fun l => {| securityData := l; payloadSize := size |}) <$> l).

Definition OCSecurityPayloadDestroy (payload : option OCSecurityPayload) : M heap unit :=
  match payload with
  | None => mret tt
  | Some p => _ ← OICFree (Some (securityData p)); OICFree (Some tt)
  end.

Definition OCIntrospectionPayloadCreateFromCbor (cborData : option (list Z)) (size : Z) : M heap (option OCByteString) :=
  l ← with_bytes 24 cborData size; mret ((fun l => {| bytes := Some l; len := size |}) <$> l).

Definition OCIntrospectionPayloadDestroy (payload : option OCByteString) : M heap unit :=
  match payload with
  | None => mret tt
  | Some p => _ ← OICFree (bytes p); OICFree (Some tt)
  end.

Definition OCPresencePayloadCreate (seqNum age trig : Z) (rt : option string) : M heap (option OCPresencePayload) :=
  ok ← OICCalloc 1 24;
  if negb ok then mret None
  else
    s ← OICStrdup rt;
    mret (Some {| sequenceNumber := seqNum; maxAge := age; trigger := trig; resourceType := s |}).

Definition OCPresencePayloadDestroy (payload : option OCPresencePayload) : M heap unit :=
  match payload with
  | None => mret tt
  | Some p => _ ← OICFree (resourceType p); OICFree (Some tt)
  end.

(** The payload is its message. *)
Definition OCDiagnosticPayloadCreate (message : option string) : M heap (option (option string)) :=
  match message with
  | None => mret None
  | Some _ =>
      ok ← OICCalloc 1 16;
      if negb ok then mret None else s ← OICStrdup message; mret (Some s)
  end.

Definition OCDiagnosticPayloadDestroy (payload : option (option string)) : M heap unit :=
  match payload with
  | None => mret tt
  | Some m => _ ← OICFree m; OICFree (Some tt)
  end.

(** A payload with its type. *)
Inductive OCPayload :=
  | PAYLOAD_TYPE_REPRESENTATION (p : OCRepPayload)
  | PAYLOAD_TYPE_DISCOVERY (p : list OCDiscoveryPayload)
  | PAYLOAD_TYPE_PRESENCE (p : OCPresencePayload)
  | PAYLOAD_TYPE_DIAGNOSTIC (message : option string)
  | PAYLOAD_TYPE_SECURITY (p : OCSecurityPayload)
  | PAYLOAD_TYPE_INTROSPECTION (cborPayload : OCByteString)
  | PAYLOAD_TYPE_INVALID.

Definition OCPayloadDestroy (payload : option OCPayload) : M heap unit :=
  match payload with
  | None => mret tt
  | Some (PAYLOAD_TYPE_REPRESENTATION p) => OCRepPayloadDestroy (Some p)
  | Some (PAYLOAD_TYPE_DISCOVERY p) => OCDiscoveryPayloadDestroy p
  | Some (PAYLOAD_TYPE_PRESENCE p) => OCPresencePayloadDestroy (Some p)
  | Some (PAYLOAD_TYPE_DIAGNOSTIC m) => OCDiagnosticPayloadDestroy (Some m)
  | Some (PAYLOAD_TYPE_SECURITY p) => OCSecurityPayloadDestroy (Some p)
  | Some (PAYLOAD_TYPE_INTROSPECTION p) => OCIntrospectionPayloadDestroy (Some p)
  | Some PAYLOAD_TYPE_INVALID => OICFree (Some tt)
  end.

(** ** Texts of string lists *)

Fixpoint joined (l : list string) : string :=
  match l with
  | [] => EmptyString
  | [v] => v
  | v :: rest => v +:+ String CSV_SEPARATOR (joined rest)
  end.

(** A text that can be an element: not empty and without separator. *)
Fixpoint separator_free (s : string) : bool :=
  match s with String c s' => negb (bool_decide (c = CSV_SEPARATOR)) && separator_free s' | EmptyString => true end.

Definition element (v : string) : Prop := v <> EmptyString /\ separator_free v = true.

Definition full_length (l : list string) : Z := total (fun v => Z.of_nat (String.length v) + 1) l.

Lemma full_length_nonneg l : 0 <= full_length l.
Proof. unfold full_length. induction l; cbn; lia. Qed.

Lemma u64_int n : 0 <= n <= INT_MAX + 1 -> u64 n = n.
Proof. intros. apply wrap_small. unfold INT_MAX in *. lia. Qed.

Lemma texts_length_spec l : full_length l <= INT_MAX -> texts_length (Some <$> l) = Some (full_length l).
Proof.
  induction l as [|v l IH]; [done|]. unfold full_length. cbn. fold (full_length l). intros H.
  pose proof (full_length_nonneg l). change (list_fmap _ _ Some l) with (Some <$> l). rewrite IH by lia. cbn.
  by rewrite u64_int by lia.
Qed.

Lemma join_loop_spec l : l <> [] -> full_length l <= INT_MAX ->
  join_loop (full_length l - 1) (Some <$> l) = Some (joined l).
Proof.
  induction l as [|v l IH]; [done|]. intros _ H. unfold full_length in *. cbn [total fmap list_fmap join_loop] in *.
  fold (full_length l) in *. pose proof (full_length_nonneg l).
  destruct (Z.ltb_spec (Z.of_nat (String.length v) + 1 + full_length l - 1) (Z.of_nat (String.length v))); [lia|].
  destruct (Z.ltb_spec INT_MAX (Z.of_nat (String.length v))); [lia|]. cbn [orb].
  destruct l as [|w l]; [done|].
  assert (1 <= full_length (w :: l)) by (unfold full_length; cbn; pose proof (full_length_nonneg l); unfold full_length in *; lia).
  replace (Z.of_nat (String.length v) + 1 + full_length (w :: l) - 1 - Z.of_nat (String.length v)) with (full_length (w :: l)) by lia.
  rewrite !u64_int by lia. destruct (Z.ltb_spec (full_length (w :: l)) 1); [lia|].
  rewrite IH by (done || lia). done.
Qed.

Lemma split_token_cons c s : split_token (String c s) =
  if decide (c = CSV_SEPARATOR) then (EmptyString, s) else let '(t, r) := split_token s in (String c t, r).
Proof. done. Qed.

Lemma separator_free_cons c s : separator_free (String c s) = true -> c <> CSV_SEPARATOR /\ separator_free s = true.
Proof.
  change (separator_free (String c s)) with (negb (bool_decide (c = CSV_SEPARATOR)) && separator_free s).
  by rewrite andb_true_iff, negb_true_iff, bool_decide_eq_false.
Qed.

Lemma split_token_element v r : separator_free v = true -> split_token (v +:+ String CSV_SEPARATOR r) = (v, r).
Proof.
  induction v as [|c v IH]; intros Hf.
  - change (EmptyString +:+ ?x) with x. rewrite split_token_cons. by rewrite decide_True.
  - apply separator_free_cons in Hf as [Hc Hv]. change (String c v +:+ ?x) with (String c (v +:+ x)).
    rewrite split_token_cons, decide_False by done. by rewrite (IH Hv).
Qed.

Lemma split_token_last v : separator_free v = true -> split_token v = (v, EmptyString).
Proof.
  induction v as [|c v IH]; intros Hf; [done|]. apply separator_free_cons in Hf as [Hc Hv].
  by rewrite split_token_cons, decide_False, (IH Hv).
Qed.

Lemma skip_none c s : c <> CSV_SEPARATOR -> skip_separators (String c s) = String c s.
Proof.
  intros Hc. change (skip_separators (String c s)) with (if decide (c = CSV_SEPARATOR) then skip_separators s else String c s).
  by rewrite decide_False.
Qed.

Lemma strtok_head c s : c <> CSV_SEPARATOR -> strtok_r (String c s) = Some (split_token (String c s)).
Proof. intros Hc. unfold strtok_r. by rewrite skip_none. Qed.

Lemma strtok_joined v l : element v -> strtok_r (joined (v :: l)) = Some (v, joined l).
Proof.
  intros [Hne Hf]. destruct v as [|c v]; [done|].
  pose proof (separator_free_cons _ _ Hf) as [Hc _].
  destruct l as [|w l].
  - cbn [joined]. rewrite strtok_head by done. by rewrite split_token_last.
  - change (joined (String c v :: w :: l)) with (String c (v +:+ String CSV_SEPARATOR (joined (w :: l)))).
    rewrite strtok_head by done. f_equal. apply (split_token_element (String c v) _ Hf).
Qed.

Lemma append_length a b : String.length (a +:+ b) = (String.length a + String.length b)%nat.
Proof.
  induction a as [|c a IH]; [done|]. change (String c a +:+ b) with (String c (a +:+ b)).
  cbn [String.length]. by rewrite IH.
Qed.

Lemma joined_long l : Forall element l -> (length l <= String.length (joined l))%nat.
Proof.
  induction 1 as [|v l [Hv _] Hl IH]; [cbn; lia|]. destruct v as [|c v]; [done|].
  destruct l as [|w l]; [cbn; lia|].
  change (joined (String c v :: w :: l)) with (String c v +:+ String CSV_SEPARATOR (joined (w :: l))).
  rewrite append_length. cbn [length String.length] in *. lia.
Qed.

Lemma token_loop_yields n l acc : Forall element l -> (length l < n)%nat ->
  yields (token_loop n (joined l) acc) (Some (acc ++ (Some <$> l))) (2 * Z.of_nat (length l)).
Proof.
  revert l acc. induction n as [|n IH]; intros l acc Hl Hn; [lia|]. cbn [token_loop]. destruct Hl as [|v l Hv Hl].
  - cbn. rewrite app_nil_r. apply yields_ret.
  - rewrite strtok_joined by done.
    eapply yields_eq; [eapply yields_bind; [by apply yields_calloc|cbn [negb]]|].
    + eapply yields_bind; [apply yields_strdup|]. cbn beta iota.
      specialize (IH l (acc ++ [Some v]) Hl). rewrite <- app_assoc in IH. apply IH. cbn in Hn. lia.
    + cbn [blk length]. lia.
Qed.

(** a string list that is written as a comma-separated text is read back
    from it: [OCCreateString] stays inside the buffer it measures, and
    [OCCreateOCStringLL] gives the same elements for every list of texts that
    are not empty and have no comma. *)
Theorem string_list_roundtrip (l : list string) (h : heap) :
  l <> [] -> Forall element l -> full_length l <= INT_MAX -> hp_allocs h = [] ->
  (s ← OCCreateString (Some <$> l); OCCreateOCStringLL s) h =
    Some (Some <$> l, add_live (1 + 2 * Z.of_nat (length l)) h).
Proof.
  intros Hne Hl Hlen. revert h.
  change (yields (s ← OCCreateString (Some <$> l); OCCreateOCStringLL s) (Some <$> l) (1 + 2 * Z.of_nat (length l))).
  pose proof (full_length_nonneg l).
  assert (1 <= full_length l) as H1
    by (destruct l as [|v l]; [done|]; unfold full_length; cbn; pose proof (full_length_nonneg l); unfold full_length in *; lia).
  eapply yields_bind.
  - unfold OCCreateString. destruct (Some <$> l) as [|x k] eqn:E; [by destruct l|]. rewrite <- E.
    eapply yields_eq; [eapply yields_bind; [by apply yields_lift, texts_length_spec|]|].
    + cbn zeta. rewrite !u64_int by (rewrite ?u64_int; lia).
      eapply yields_bind; [apply yields_malloc; lia|cbn [negb]].
      eapply yields_bind; [by apply yields_lift, join_loop_spec|apply yields_ret].
    + done.
  - cbn [OCCreateOCStringLL].
    eapply yields_eq; [eapply yields_bind; [apply yields_strdup|]|].
    + cbn beta iota. eapply yields_bind.
      * apply (token_loop_yields _ l []); [done|]. pose proof (joined_long l Hl). lia.
      * eapply yields_bind; [apply yields_frees, frees_ptr|apply yields_ret].
    + cbn. lia.
Qed.

(** ** The endpoints shown for a resource *)

Section Endpoints.
Context (tcp edr le nfc secure : bool) (res : OCResource) (devAddr : CAEndpoint_t).

Definition matched (info : CAEndpoint_t) : Z :=
  default OC_NO_TPS (OCGetMatchedTpsFlags tcp edr le nfc (adapter info) (flags info) (Some OC_NO_TPS)).2.

(** The endpoints of the device that are shown: on the interface the request
    came from, with a scheme the resource has, and as secure as it is. *)
Definition shown (info : CAEndpoint_t) : bool :=
  ((bit (CA_ADAPTER_IP ||| CA_ADAPTER_TCP) (adapter info) && (ifindex info =? ifindex devAddr))
   || (adapter info =? CA_ADAPTER_RFCOMM_BTEDR)) &&
  (bit (endpointType res) (matched info)
   && (bit (flags info) OC_FLAG_SECURE && bit (resourceProperties res) (OC_SECURE secure)
       || negb (bit (flags info) OC_FLAG_SECURE) && bit (resourceProperties res) OC_NONSECURE)).

(** How one is shown. *)
Definition node_of (info : CAEndpoint_t) : OCEndpointPayload := {|
  tps := ConvertTpsToString tcp edr (matched info); ep_addr := Some (addr info); family := flags info;
  ep_port := port info; pri := 1 |}.

(** The endpoint the request came to. *)
Definition is_self (info : CAEndpoint_t) : bool :=
  (flags info &&& MASK_SECURE_FAMS) &&& flags devAddr =? (flags info &&& MASK_SECURE_FAMS).

(** The position of the last one of them, if there is one. *)
Fixpoint last_self (i : nat) (l : list CAEndpoint_t) (r : option nat) : option nat :=
  match l with
  | [] => r
  | info :: rest => last_self (S i) rest (if is_self info then Some i else r)
  end.

Lemma add_endpoint_yields info st : 
  (shown info = true -> is_Some (ConvertTpsToString tcp edr (matched info))) ->
  yields (add_endpoint tcp edr le nfc secure res devAddr info true st)
    (Some (if shown info then
             {| headNode := headNode st ++ [node_of info]; epSize := u64 (epSize st + 1);
                selfEp := if is_self info then Some (length (headNode st)) else selfEp st |}
           else st))
    (if shown info then 3 else 0).
Proof.
  unfold shown, add_endpoint. fold (matched info). intros Hs.
  destruct (_ || _); [|apply yields_ret]. cbn [andb] in *.
  destruct (bit (endpointType res) (matched info) && _); [|apply yields_ret].
  destruct (Hs eq_refl) as [t Ht].
  eapply yields_eq; [eapply yields_bind; [by apply yields_calloc|cbn [negb]]|].
  - eapply yields_bind.
    + unfold OCConvertTpsToString. cbn [negb]. eapply yields_bind; [apply yields_strdup|apply yields_ret].
    + rewrite Ht. cbn beta iota zeta. rewrite decide_True by done.
      eapply yields_bind; [by apply yields_calloc|cbn [negb]].
      unfold node_of, is_self. rewrite Ht. apply yields_ret.
  - rewrite Ht. cbn. lia.
Qed.

(** Every endpoint that is shown has a scheme. *)
Definition schemes (l : list CAEndpoint_t) : Prop :=
  Forall (fun info => shown info = true -> is_Some (ConvertTpsToString tcp edr (matched info))) l.

Definition selected (l : list CAEndpoint_t) : list CAEndpoint_t := filter (fun info => shown info = true) l.

Lemma endpoint_loop_yields l st : schemes l ->
  yields (endpoint_loop tcp edr le nfc secure res devAddr true l st)
    (true, {| headNode := headNode st ++ (node_of <$> selected l);
              epSize := foldl (fun n _ => u64 (n + 1)) (epSize st) (selected l);
              selfEp := last_self (length (headNode st)) (selected l) (selfEp st) |})
    (3 * Z.of_nat (length (selected l))).
Proof.
  intros Hs. revert st. unfold selected. induction Hs as [|info l Hi Hs IH]; intros st.
  - cbn. rewrite app_nil_r. destruct st. apply yields_ret.
  - cbn [endpoint_loop]. rewrite filter_cons. pose proof (add_endpoint_yields info st Hi) as Ha.
    destruct (shown info) eqn:E.
    + rewrite decide_True by done.
      eapply yields_eq; [eapply yields_bind; [exact Ha|cbn beta iota]|].
      * specialize (IH {| headNode := headNode st ++ [node_of info]; epSize := u64 (epSize st + 1);
          selfEp := if is_self info then Some (length (headNode st)) else selfEp st |}).
        cbn [headNode epSize selfEp] in IH. rewrite <- app_assoc, length_app in IH. cbn [length] in IH.
        rewrite Nat.add_1_r in IH. exact IH.
      * cbn [length]. lia.
    + rewrite decide_False by done. eapply yields_eq; [eapply yields_bind; [exact Ha|cbn beta iota; apply IH]|lia].
Qed.

Lemma last_self_valid l : forall i r j, last_self i l r = Some j ->
  r = Some j \/ (i <= j)%nat /\ exists info, l !! (j - i)%nat = Some info /\ is_self info = true.
Proof.
  induction l as [|info l IH]; intros i r j; cbn [last_self]; [by left|]. intros H.
  apply IH in H as [H|(Hj & x & Hx & Hs)].
  - destruct (is_self info) eqn:E; [|by left]. injection H as <-. right. split; [lia|]. exists info.
    by rewrite Nat.sub_diag.
  - right. split; [lia|]. exists x. split; [|done]. by replace (j - i)%nat with (S (j - S i)) by lia.
Qed.

Lemma sizes_count {A} (l : list A) n : foldl (fun n _ => u64 (n + 1)) (u64 n) l = u64 (n + Z.of_nat (length l)).
Proof.
  revert n. induction l as [|x l IH]; intros n; cbn [foldl length]; [f_equal; lia|].
  rewrite wrap_add_l by lia. rewrite IH. f_equal. lia.
Qed.

(** with memory to be had the endpoints a resource shows to a device are
    those of the network information on the interface the request came from
    whose scheme and security the resource has, in their order; the endpoint
    that becomes the anchor is the last of them that the request came to. *)
Theorem endpoint_list_spec (infos : list CAEndpoint_t) (h : heap) :
  bit (OC_ADAPTER_IP ||| OC_ADAPTER_TCP) (adapter devAddr) = true -> schemes infos -> hp_allocs h = [] ->
  exists self,
    CreateEndpointPayloadList tcp edr le nfc secure (Some res) (Some devAddr) (Some infos)
      (Z.of_nat (length infos)) true true None h =
      Some ((true, {| headNode := node_of <$> selected infos; epSize := u64 (Z.of_nat (length (selected infos)));
                      selfEp := self |}), add_live (3 * Z.of_nat (length (selected infos))) h) /\
    forall i, self = Some i -> exists info, selected infos !! i = Some info /\ is_self info = true.
Proof.
  intros Ha Hs Hh. eexists. split.
  - unfold CreateEndpointPayloadList. rewrite Ha.
    rewrite (run_bind _ _ _ _ _ (run_lift _ _ _ (elements_all _ (Some infos) eq_refl))). cbn [default from_option id].
    rewrite (endpoint_loop_yields infos _ Hs h Hh). cbn [headNode epSize selfEp app length].
    change 0 with (u64 0) at 1. rewrite sizes_count. done.
  - intros i Hi. apply last_self_valid in Hi as [Hi|(_ & info & H & Hself)]; [done|].
    rewrite Nat.sub_0_r in H. by exists info.
Qed.
End Endpoints.

(** An endpoint over IP without DTLS. *)
Definition plain_endpoint : CAEndpoint_t := {|
  adapter := CA_ADAPTER_IP; flags := CA_IPV4; port := 5683; addr := chars "1.2.3.4"; ifindex := 2; remoteId := [] |}.

Definition plain_resource : OCResource := {|
  res_uri := Some "/a/light"; rsrcType := [Some "core.light"]; rsrcInterface := []; resourceProperties := OC_NONSECURE;
  endpointType := OC_COAP |}.

(** when memory runs out after the endpoint the request came to has been
    listed, the list is released and the pointer to that endpoint stays: the
    anchor of the resource is made from released memory. *)
Theorem self_endpoint_dangling (tcp edr le nfc secure : bool) (securePort tcp_port n : Z) :
  OCCopyResource tcp edr le nfc secure plain_resource securePort
    (Some [plain_endpoint; plain_endpoint]) 2 (Some plain_endpoint) tcp_port
    {| hp_allocs := [true; true; true; true; false]; live := n |} = None.
Proof.
  by destruct tcp, edr, le, nfc, secure.
Qed.

(** ** Witnesses *)

Lemma string_list_roundtrip_witness :
  (s ← OCCreateString [Some "oic.if.a"; Some "oic.if.b"]; OCCreateOCStringLL s) {| hp_allocs := []; live := 0 |} =
    Some ([Some "oic.if.a"; Some "oic.if.b"], {| hp_allocs := []; live := 5 |}).
Proof.
  apply (string_list_roundtrip ["oic.if.a"; "oic.if.b"] {| hp_allocs := []; live := 0 |});
    [done|repeat constructor; done|vm_compute; done|done].
Defined.

Lemma endpoint_list_spec_witness : exists self,
  CreateEndpointPayloadList false true true false true (Some plain_resource) (Some plain_endpoint)
    (Some [plain_endpoint; plain_endpoint]) 2 true true None {| hp_allocs := []; live := 0 |} =
    Some ((true, {| headNode := node_of false true true false <$> [plain_endpoint; plain_endpoint]; epSize := 2;
                    selfEp := self |}), {| hp_allocs := []; live := 6 |}) /\
  forall i, self = Some i -> exists info, [plain_endpoint; plain_endpoint] !! i = Some info /\
    is_self plain_endpoint info = true.
Proof.
  apply (endpoint_list_spec false true true false true plain_resource plain_endpoint [plain_endpoint; plain_endpoint]
           {| hp_allocs := []; live := 0 |}); [done| |done].
  repeat constructor; by eexists.
Defined.
