(* ===== verification/RbTree.v ===== *)
(** * RbTree: the red-black trees of the stack

    Models the macros of [csdk/stack/include/internal/tree.h]: red-black trees
    whose elements hold the links of the tree ([RB_]), and trees in which the
    elements with one key are chained behind the one in the tree ([RBL_]).  The
    code has each operation twice, for the left and for the right; here a [side]
    says which of the two is meant.  The macros expand to functions over any
    type and comparison; [K] is what the comparison looks at, and a comparison
    may be undefined.

    Elements are in a map from addresses to what is there; an address that is
    not in the map is not allocated.  A loop gets the number of elements as fuel
    and is undefined when that is used up, which the theorems exclude. *)
From S2P Require Import Prelude Effects.

(** ** Elements and heads *)

Inductive rb_color := RB_BLACK | RB_RED.
#[export] Instance rb_color_eq_dec : EqDecision rb_color.
Proof. solve_decision. Defined.

Inductive side := L | R.

Definition opp (sd : side) : side := match sd with L => R | R => L end.

Record RB_ENTRY := {
  rbe_left : option positive;
  rbe_right : option positive;
  rbe_parent : option positive;
  rbe_color : rb_color;
}.

(** [RBL_ENTRY] and the key of an element. *)
Record element (K : Type) := {
  elm_key : K;
  rb_entry : RB_ENTRY;
  rbl_next : option positive;
  rbl_prev : option positive;
}.
Arguments Build_element {K}.
Arguments elm_key {K}.
Arguments rb_entry {K}.
Arguments rbl_next {K}.
Arguments rbl_prev {K}.

(** [RB_HEAD], with the elements there are. *)
Record RB_HEAD (K : Type) := {
  rbh_root : option positive;
  elements : gmap positive (element K);
}.
Arguments Build_RB_HEAD {K}.
Arguments rbh_root {K}.
Arguments elements {K}.

Definition RB_INITIALIZER {K} : RB_HEAD K := {| rbh_root := None; elements := ∅ |}.

Definition entry_child (sd : side) (e : RB_ENTRY) : option positive :=
  match sd with L => rbe_left e | R => rbe_right e end.

Definition entry_set_child (sd : side) (p : option positive) (e : RB_ENTRY) : RB_ENTRY :=
  match sd with
  | L => {| rbe_left := p; rbe_right := rbe_right e; rbe_parent := rbe_parent e; rbe_color := rbe_color e |}
  | R => {| rbe_left := rbe_left e; rbe_right := p; rbe_parent := rbe_parent e; rbe_color := rbe_color e |}
  end.

Definition entry_set_parent (p : option positive) (e : RB_ENTRY) : RB_ENTRY :=
  {| rbe_left := rbe_left e; rbe_right := rbe_right e; rbe_parent := p; rbe_color := rbe_color e |}.

Definition entry_set_color (c : rb_color) (e : RB_ENTRY) : RB_ENTRY :=
  {| rbe_left := rbe_left e; rbe_right := rbe_right e; rbe_parent := rbe_parent e; rbe_color := c |}.

Section Tree.
Context {K : Type}.

Definition with_entry (f : RB_ENTRY -> RB_ENTRY) (x : element K) : element K :=
  {| elm_key := elm_key x; rb_entry := f (rb_entry x); rbl_next := rbl_next x; rbl_prev := rbl_prev x |}.
Definition with_next (p : option positive) (x : element K) : element K :=
  {| elm_key := elm_key x; rb_entry := rb_entry x; rbl_next := p; rbl_prev := rbl_prev x |}.
Definition with_prev (p : option positive) (x : element K) : element K :=
  {| elm_key := elm_key x; rb_entry := rb_entry x; rbl_next := rbl_next x; rbl_prev := p |}.

Definition set_root (p : option positive) (s : RB_HEAD K) : RB_HEAD K :=
  {| rbh_root := p; elements := elements s |}.
Definition set_elements (m : gmap positive (element K)) (s : RB_HEAD K) : RB_HEAD K :=
  {| rbh_root := rbh_root s; elements := m |}.
Definition change (a : positive) (f : element K -> element K) (s : RB_HEAD K) : RB_HEAD K :=
  set_elements (alter f a (elements s)) s.

(** Reading and writing the element a pointer points to. *)
Definition deref (p : option positive) : M (RB_HEAD K) (element K) := fun s =>
  match p ≫= fun a => elements s !! a with Some x => Some (x, s) | None => None end.
Definition store (p : option positive) (f : element K -> element K) : M (RB_HEAD K) unit := fun s =>
  match p with
  | Some a => if decide (is_Some (elements s !! a)) then Some (tt, change a f s) else None
  | None => None
  end.

Definition RB_CHILD (sd : side) (elm : option positive) : M (RB_HEAD K) (option positive) :=
  x ← deref elm; mret (entry_child sd (rb_entry x)).
Definition RB_PARENT (elm : option positive) : M (RB_HEAD K) (option positive) :=
  x ← deref elm; mret (rbe_parent (rb_entry x)).
Definition RB_COLOR (elm : option positive) : M (RB_HEAD K) rb_color :=
  x ← deref elm; mret (rbe_color (rb_entry x)).

Definition set_child (sd : side) (elm p : option positive) : M (RB_HEAD K) unit :=
  store elm (with_entry (entry_set_child sd p)).
Definition set_parent (elm p : option positive) : M (RB_HEAD K) unit :=
  store elm (with_entry (entry_set_parent p)).
Definition set_color (elm : option positive) (c : rb_color) : M (RB_HEAD K) unit :=
  store elm (with_entry (entry_set_color c)).

(** [if (p) ...] *)
Definition unless_null (p : option positive) (m : M (RB_HEAD K) unit) : M (RB_HEAD K) unit :=
  match p with Some _ => m | None => mret tt end.

Definition RB_SET (elm parent : option positive) : M (RB_HEAD K) unit :=
  store elm (with_entry (fun _ =>
    {| rbe_left := None; rbe_right := None; rbe_parent := parent; rbe_color := RB_RED |})).

Definition RB_SET_BLACKRED (black red : option positive) : M (RB_HEAD K) unit :=
  set_color black RB_BLACK;; set_color red RB_RED.

(** Puts [elm] where [old] is below [parent]. *)
Definition replace_child (parent old elm : option positive) : M (RB_HEAD K) unit :=
  match parent with
  | Some _ =>
      l ← RB_CHILD L parent;
      if decide (l = old) then set_child L parent elm else set_child R parent elm
  | None => modify (set_root elm)
  end.

(** [RB_ROTATE_LEFT] and [RB_ROTATE_RIGHT]. *)
Definition RB_ROTATE (sd : side) (elm : option positive) : M (RB_HEAD K) unit :=
  tmp ← RB_CHILD (opp sd) elm;
  inner ← RB_CHILD sd tmp;
  set_child (opp sd) elm inner;;
  unless_null inner (set_parent inner elm);;
  parent ← RB_PARENT elm;
  set_parent tmp parent;;
  replace_child parent elm tmp;;
  set_child sd tmp elm;;
  set_parent elm tmp.

Definition is_red (p : option positive) : M (RB_HEAD K) bool :=
  match p with Some _ => c ← RB_COLOR p; mret (bool_decide (c = RB_RED)) | None => mret false end.

(** [p == NULL || RB_COLOR(p) == RB_BLACK] *)
Definition null_or_black (p : option positive) : M (RB_HEAD K) bool :=
  match p with Some _ => c ← RB_COLOR p; mret (bool_decide (c = RB_BLACK)) | None => mret true end.

Fixpoint insert_color (fuel : nat) (elm : option positive) : M (RB_HEAD K) unit :=
  match fuel with
  | O => undefined
  | S n =>
      parent ← RB_PARENT elm;
      red ← is_red parent;
      if negb red then mret tt
      else
        gparent ← RB_PARENT parent;
        l ← RB_CHILD L gparent;
        let sd := if decide (parent = l) then L else R in
        tmp ← RB_CHILD (opp sd) gparent;
        red ← is_red tmp;
        if (red : bool) then
          set_color tmp RB_BLACK;; RB_SET_BLACKRED parent gparent;; insert_color n gparent
        else
          c ← RB_CHILD (opp sd) parent;
          '(parent, elm) ← (if decide (c = elm) then RB_ROTATE sd parent;; mret (elm, parent)
                            else mret (parent, elm));
          RB_SET_BLACKRED parent gparent;;
          RB_ROTATE (opp sd) gparent;;
          insert_color n elm
  end.

(** The fuel of the loops: how many elements there are. *)
Definition fuel_of (s : RB_HEAD K) : nat := S (size (elements s)).

Definition RB_INSERT_COLOR (elm : option positive) : M (RB_HEAD K) unit :=
  fuel ← gets fuel_of;
  insert_color fuel elm;;
  root ← gets rbh_root;
  set_color root RB_BLACK.

(** The steps of [RB_REMOVE_COLOR] for the sibling [tmp] of the subtree that is
    on side [sd] of [parent]: a red sibling is rotated up, and the next one is
    the sibling. *)
Definition sibling_up (sd : side) (parent tmp : option positive) : M (RB_HEAD K) (option positive) :=
  c ← RB_COLOR tmp;
  if decide (c = RB_RED) then
    RB_SET_BLACKRED tmp parent;; RB_ROTATE sd parent;; RB_CHILD (opp sd) parent
  else mret tmp.

(** The child of the sibling that is farther away is made red. *)
Definition far_up (sd : side) (parent tmp : option positive) : M (RB_HEAD K) (option positive) :=
  far ← RB_CHILD (opp sd) tmp;
  black ← null_or_black far;
  if (black : bool) then
    near ← RB_CHILD sd tmp;
    unless_null near (set_color near RB_BLACK);;
    set_color tmp RB_RED;; RB_ROTATE (opp sd) tmp;; RB_CHILD (opp sd) parent
  else mret tmp.

(** The last rotation. *)
Definition remove_last (sd : side) (parent tmp : option positive) : M (RB_HEAD K) unit :=
  c ← RB_COLOR parent;
  set_color tmp c;;
  set_color parent RB_BLACK;;
  far ← RB_CHILD (opp sd) tmp;
  unless_null far (set_color far RB_BLACK);;
  RB_ROTATE sd parent.

Fixpoint remove_color (fuel : nat) (parent elm : option positive) : M (RB_HEAD K) (option positive) :=
  match fuel with
  | O => undefined
  | S n =>
      black ← null_or_black elm;
      root ← gets rbh_root;
      if negb (black && bool_decide (elm <> root)) then mret elm
      else
        l ← RB_CHILD L parent;
        let sd := if decide (l = elm) then L else R in
        tmp ← RB_CHILD (opp sd) parent;
        tmp ← sibling_up sd parent tmp;
        near ← RB_CHILD sd tmp;
        near_black ← null_or_black near;
        far ← RB_CHILD (opp sd) tmp;
        both_black ← (if (near_black : bool) then null_or_black far else mret false);
        if (both_black : bool) then
          set_color tmp RB_RED;;
          parent' ← RB_PARENT parent;
          remove_color n parent' parent
        else
          tmp ← far_up sd parent tmp;
          remove_last sd parent tmp;;
          gets rbh_root
  end.

Definition RB_REMOVE_COLOR (parent elm : option positive) : M (RB_HEAD K) unit :=
  fuel ← gets fuel_of;
  elm ← remove_color fuel parent elm;
  unless_null elm (set_color elm RB_BLACK).

(** The element farthest to one side. *)
Fixpoint outermost (sd : side) (fuel : nat) (elm : option positive) : M (RB_HEAD K) (option positive) :=
  match fuel with
  | O => undefined
  | S n =>
      next ← RB_CHILD sd elm;
      match next with Some _ => outermost sd n next | None => mret elm end
  end.

(** The loop that tells the ancestors of a change: [RB_AUGMENT] is empty, so
    that nothing is done there. *)
Fixpoint climb (fuel : nat) (elm : option positive) : M (RB_HEAD K) unit :=
  match fuel with
  | O => undefined
  | S n => up ← RB_PARENT elm; match up with Some _ => climb n up | None => mret tt end
  end.

(** Takes [elm] out, whose only child, if any, is [child]. *)
Definition splice (elm child : option positive) : M (RB_HEAD K) (option positive * rb_color) :=
  parent ← RB_PARENT elm;
  color ← RB_COLOR elm;
  unless_null child (set_parent child parent);;
  replace_child parent elm child;;
  mret (parent, color).

(** [elm] takes the place of [old] in the tree. *)
Definition take_place (old elm : option positive) : M (RB_HEAD K) unit :=
  x ← deref old;
  store elm (with_entry (fun _ => rb_entry x));;
  top ← RB_PARENT old;
  replace_child top old elm;;
  l ← RB_CHILD L old;
  set_parent l elm;;
  r ← RB_CHILD R old;
  unless_null r (set_parent r elm).

Definition RB_REMOVE (old : option positive) : M (RB_HEAD K) (option positive) :=
  l ← RB_CHILD L old;
  r ← RB_CHILD R old;
  '(parent, child, color) ← (match l, r with
    | None, child | child, None =>
        '(parent, color) ← splice old child;
        mret (parent, child, color)
    | Some _, Some _ =>
        fuel ← gets fuel_of;
        elm ← outermost L fuel r;
        child ← RB_CHILD R elm;
        '(parent, color) ← splice elm child;
        up ← RB_PARENT elm;
        let parent := if decide (up = old) then elm else parent in
        take_place old elm;;
        unless_null parent (climb fuel parent);;
        mret (parent, child, color)
    end);
  (if decide (color = RB_BLACK) then RB_REMOVE_COLOR parent child else mret tt);;
  mret old.

(** ** Looking up and putting in *)

(** [cmp]: what the macros are given to compare elements with. *)
Variable cmp : K -> K -> ub Z.

(** The loop of [RB_FIND] and [RB_INSERT]: the element that compares equal, or
    the last one compared with and the outcome. *)
Fixpoint search (fuel : nat) (k : K) (parent : option positive) (comp : Z) (tmp : option positive)
    : M (RB_HEAD K) (option positive * option positive * Z) :=
  match tmp with
  | None => mret (None, parent, comp)
  | Some _ =>
      match fuel with
      | O => undefined
      | S n =>
          x ← deref tmp;
          comp ← lift (cmp k (elm_key x));
          if comp <? 0 then tmp' ← RB_CHILD L tmp; search n k tmp comp tmp'
          else if 0 <? comp then tmp' ← RB_CHILD R tmp; search n k tmp comp tmp'
          else mret (tmp, parent, comp)
      end
  end.

Definition RB_FIND (k : K) : M (RB_HEAD K) (option positive) :=
  fuel ← gets fuel_of;
  root ← gets rbh_root;
  '(found, _, _) ← search fuel k None 0 root;
  mret found.

Definition RB_INSERT (elm : positive) : M (RB_HEAD K) (option positive) :=
  x ← deref (Some elm);
  fuel ← gets fuel_of;
  root ← gets rbh_root;
  '(found, parent, comp) ← search fuel (elm_key x) None 0 root;
  match found with
  | Some _ => mret found
  | None =>
      RB_SET (Some elm) parent;;
      match parent with
      | Some _ => set_child (if comp <? 0 then L else R) parent (Some elm)
      | None => modify (set_root (Some elm))
      end;;
      RB_INSERT_COLOR (Some elm);;
      mret None
  end.

(** ** Elements with the same key *)

Definition RBL_INSERT (elm : positive) : M (RB_HEAD K) (option positive) :=
  inserted ← RB_INSERT elm;
  match inserted with
  | None => mret (Some elm)
  | Some i =>
      if decide (i = elm) then mret (Some elm)
      else
        x ← deref inserted;
        store (Some elm) (with_next (rbl_next x));;
        unless_null (rbl_next x) (store (rbl_next x) (with_prev (Some elm)));;
        store (Some elm) (with_prev inserted);;
        store inserted (with_next (Some elm));;
        mret (Some elm)
  end.

Definition RBL_REMOVE (elm : positive) : M (RB_HEAD K) (option positive) :=
  x ← deref (Some elm);
  match rbl_prev x, rbl_next x with
  | Some _, next =>
      store (rbl_prev x) (with_next next);;
      unless_null next (store next (with_prev (rbl_prev x)));;
      mret (Some elm)
  | None, Some _ =>
      let parent := rbe_parent (rb_entry x) in
      let next := rbl_next x in
      store next (with_entry (fun _ => rb_entry x));;
      store next (with_prev None);;
      unless_null parent (
        l ← RB_CHILD L parent;
        if decide (l = Some elm) then set_child L parent next
        else
          r ← RB_CHILD R parent;
          if decide (r = Some elm) then set_child R parent next else mret tt);;
      mret (Some elm)
  | None, None => RB_REMOVE (Some elm)
  end.

(** [OICCalloc] of an element with its key, and [OICFree]. *)
Definition new_element (k : K) : element K :=
  {| elm_key := k;
     rb_entry := {| rbe_left := None; rbe_right := None; rbe_parent := None; rbe_color := RB_BLACK |};
     rbl_next := None; rbl_prev := None |}.
Definition add_element (a : positive) (k : K) : M (RB_HEAD K) unit :=
  modify (fun s => set_elements (<[a := new_element k]> (elements s)) s).
Definition free_element (a : positive) : M (RB_HEAD K) unit :=
  modify (fun s => set_elements (delete a (elements s)) s).
End Tree.
