(* ===== verification/RbShape.v ===== *)
(** * RbShape: what the pointers of a red-black tree stand for

    A tree, the context of a subtree, and when the elements of a head store
    them; what rotating and repainting do to the tree that is stored. *)
From S2P Require Import Prelude Effects RbTree.

(** ** Trees and contexts *)

Inductive tree := Leaf | Node (c : rb_color) (l : tree) (a : positive) (r : tree).

(** A node by its child on side [sd] and the other one. *)
Definition bnode (sd : side) (c : rb_color) (near : tree) (a : positive) (far : tree) : tree :=
  match sd with L => Node c near a far | R => Node c far a near end.

Definition root (t : tree) : option positive := match t with Leaf => None | Node _ _ a _ => Some a end.
Definition color (t : tree) : rb_color := match t with Leaf => RB_BLACK | Node c _ _ _ => c end.

Fixpoint inorder (t : tree) : list positive :=
  match t with Leaf => [] | Node _ l a r => inorder l ++ a :: inorder r end.

(** [frame]: the node above, which the subtree is a child of on side [f_side]. *)
Record frame := Frame { f_side : side; f_color : rb_color; f_addr : positive; f_sibling : tree }.
Abbreviation context := (list frame).

Definition close (f : frame) (t : tree) : tree := bnode (f_side f) (f_color f) t (f_addr f) (f_sibling f).
Fixpoint plug (k : context) (t : tree) : tree := match k with [] => t | f :: k => plug k (close f t) end.

Definition above (k : context) : option positive := f_addr <$> head k.
Definition top (k : context) (p : option positive) : option positive :=
  match last k with Some f => Some (f_addr f) | None => p end.

(** What the fields of a node hold. *)
Definition node_entry (sd : side) (c : rb_color) (near far parent : option positive) : RB_ENTRY :=
  match sd with
  | L => {| rbe_left := near; rbe_right := far; rbe_parent := parent; rbe_color := c |}
  | R => {| rbe_left := far; rbe_right := near; rbe_parent := parent; rbe_color := c |}
  end.

Fixpoint entries (parent : option positive) (t : tree) : list (positive * RB_ENTRY) :=
  match t with
  | Leaf => []
  | Node c l a r => (a, node_entry L c (root l) (root r) parent) :: entries (Some a) l ++ entries (Some a) r
  end.

Fixpoint context_entries (k : context) (hole : option positive) : list (positive * RB_ENTRY) :=
  match k with
  | [] => []
  | Frame sd c a sib :: k =>
      (a, node_entry sd c hole (root sib) (above k)) :: entries (Some a) sib ++ context_entries k (Some a)
  end.

Definition addrs (t : tree) : list positive := (entries None t).*1.
Definition context_addrs (k : context) : list positive := (context_entries k None).*1.

#[global] Arguments addrs : simpl never.
#[global] Arguments context_addrs : simpl never.

Lemma entries_addrs p t : (entries p t).*1 = addrs t.
Proof. unfold addrs. by destruct t. Qed.

Lemma context_entries_addrs k p : (context_entries k p).*1 = context_addrs k.
Proof. unfold context_addrs. by destruct k as [|[sd c a sib] k]. Qed.

Lemma addrs_node c l a r : addrs (Node c l a r) = a :: addrs l ++ addrs r.
Proof. change (a :: (entries (Some a) l ++ entries (Some a) r).*1 = a :: addrs l ++ addrs r). by rewrite fmap_app, !entries_addrs. Qed.

Lemma context_addrs_cons sd c a sib k : context_addrs (Frame sd c a sib :: k) = a :: addrs sib ++ context_addrs k.
Proof.
  change (a :: (entries (Some a) sib ++ context_entries k (Some a)).*1 = a :: addrs sib ++ context_addrs k).
  by rewrite fmap_app, entries_addrs, context_entries_addrs.
Qed.

Lemma entries_bnode p sd c n a f :
  entries p (bnode sd c n a f) ≡ₚ (a, node_entry sd c (root n) (root f) p) :: entries (Some a) n ++ entries (Some a) f.
Proof. destruct sd; cbn; [done|]. f_equiv. apply Permutation_app_comm. Qed.

Lemma root_bnode sd c n a f : root (bnode sd c n a f) = Some a.
Proof. by destruct sd. Qed.

Lemma color_bnode sd c n a f : color (bnode sd c n a f) = c.
Proof. by destruct sd. Qed.

Lemma root_in t b : root t = Some b -> b ∈ addrs t.
Proof. destruct t; cbn; [done|]. intros [= ->]. rewrite addrs_node. set_solver. Qed.

Lemma above_in k b : above k = Some b -> b ∈ context_addrs k.
Proof. destruct k as [|[sd c a sib] k]; cbn; [done|]. intros [= ->]. rewrite context_addrs_cons. set_solver. Qed.

Lemma inorder_addrs t : inorder t ≡ₚ addrs t.
Proof.
  induction t as [|c l IHl a r IHr]; [done|]. rewrite addrs_node. cbn. rewrite <- IHl, <- IHr.
  by rewrite <- Permutation_middle.
Qed.

Lemma top_cons f k p : top (f :: k) p = top k (Some (f_addr f)).
Proof. unfold top. rewrite last_cons. by destruct (last k). Qed.

(** ** Elements that store a tree *)

Section Stored.
Context {K : Type}.
Implicit Types s : RB_HEAD K.

Definition entry s (a : positive) : option RB_ENTRY := rb_entry <$> elements s !! a.

(** What an element holds besides the links of the tree. *)
Definition rest s (a : positive) : option (K * option positive * option positive) :=
  (fun x => (elm_key x, rbl_next x, rbl_prev x)) <$> elements s !! a.
Definition same_rest s s' : Prop := forall a, rest s' a = rest s a.

Definition upd (a : positive) (f : RB_ENTRY -> RB_ENTRY) s : RB_HEAD K := change a (with_entry f) s.

Lemma entry_upd a f s b : entry (upd a f s) b = if decide (a = b) then f <$> entry s b else entry s b.
Proof.
  unfold entry, upd, change. cbn. case_decide as E.
  - subst. rewrite lookup_alter. case_decide; [|done]. by destruct (elements s !! b).
  - by rewrite lookup_alter_ne.
Qed.

Lemma rest_upd a f s : same_rest s (upd a f s).
Proof.
  intros b. unfold rest, upd, change. cbn. rewrite lookup_alter. case_decide; [|done]. subst.
  by destruct (elements s !! b).
Qed.

Lemma same_rest_trans s1 s2 s3 : same_rest s1 s2 -> same_rest s2 s3 -> same_rest s1 s3.
Proof. intros H1 H2 a. by rewrite H2. Qed.

Lemma same_rest_dom s s' : same_rest s s' -> dom (elements s') = dom (elements s).
Proof.
  intros H. apply set_eq. intros a. rewrite !elem_of_dom. specialize (H a). unfold rest in H.
  destruct (elements s !! a), (elements s' !! a); try done; by split; intros [? ?].
Qed.

Lemma same_rest_fuel s s' : same_rest s s' -> fuel_of s' = fuel_of s.
Proof. intros H. unfold fuel_of. rewrite <- !size_dom. by rewrite (same_rest_dom _ _ H). Qed.

(** Running the accesses. *)
Lemma deref_at a x s : elements s !! a = Some x -> deref (Some a) s = Some (x, s).
Proof. intros E. unfold deref. cbn. by rewrite E. Qed.

Lemma run_field {A} (f : RB_ENTRY -> A) a e s :
  entry s a = Some e -> (x ← deref (Some a); mret (f (rb_entry x))) s = Some (f e, s).
Proof.
  intros E. unfold entry in E. destruct (elements s !! a) as [x|] eqn:Ex; [|done]. injection E as <-.
  by rewrite (run_bind _ _ _ _ _ (deref_at a x s Ex)).
Qed.

Lemma run_child sd a e s : entry s a = Some e -> RB_CHILD sd (Some a) s = Some (entry_child sd e, s).
Proof. apply (run_field (entry_child sd)). Qed.
Lemma run_parent a e s : entry s a = Some e -> RB_PARENT (Some a) s = Some (rbe_parent e, s).
Proof. apply (run_field rbe_parent). Qed.
Lemma run_color a e s : entry s a = Some e -> RB_COLOR (Some a) s = Some (rbe_color e, s).
Proof. apply (run_field rbe_color). Qed.

Lemma run_store a f s : is_Some (entry s a) -> store (Some a) (with_entry f) s = Some (tt, upd a f s).
Proof.
  intros Hs. unfold store. rewrite decide_True; [done|]. unfold entry in Hs. by rewrite fmap_is_Some in Hs.
Qed.

Definition stored s (l : list (positive * RB_ENTRY)) : Prop := Forall (fun x => entry s x.1 = Some x.2) l.

Lemma stored_cons s a e l : stored s ((a, e) :: l) <-> entry s a = Some e /\ stored s l.
Proof. unfold stored. by rewrite Forall_cons. Qed.
Lemma stored_app s l1 l2 : stored s (l1 ++ l2) <-> stored s l1 /\ stored s l2.
Proof. unfold stored. by rewrite Forall_app. Qed.
#[global] Instance stored_perm s : Proper ((≡ₚ) ==> iff) (stored s).
Proof. intros l l' E. unfold stored. by rewrite E. Qed.

Lemma stored_upd a f s l : a ∉ l.*1 -> stored s l -> stored (upd a f s) l.
Proof.
  intros Ha Hl. apply Forall_forall. intros [b e] Hb. rewrite entry_upd. rewrite decide_False.
  - eapply (proj1 (Forall_forall _ _) Hl); done.
  - intros ->. apply Ha. apply list_elem_of_fmap. by exists (b, e).
Qed.

Lemma stored_root p s l : stored s l -> stored (set_root p s) l.
Proof. done. Qed.

(** [zip s k t]: the head stores [t] in the context [k]. *)
Definition pieces (k : context) (t : tree) : list (positive * RB_ENTRY) :=
  entries (above k) t ++ context_entries k (root t).
Definition zip s (k : context) (t : tree) : Prop :=
  rbh_root s = top k (root t) /\ NoDup (addrs t ++ context_addrs k) /\ stored s (pieces k t).
Definition holds s (t : tree) : Prop := zip s [] t.

Lemma pieces_addrs k t : (pieces k t).*1 = addrs t ++ context_addrs k.
Proof. unfold pieces. by rewrite fmap_app, entries_addrs, context_entries_addrs. Qed.

Lemma pieces_close f k t : pieces k (close f t) ≡ₚ pieces (f :: k) t.
Proof.
  destruct f as [sd c a sib]. unfold pieces, close. cbn. rewrite entries_bnode, root_bnode.
  cbn. rewrite <- app_assoc. by rewrite <- Permutation_middle.
Qed.

Lemma zip_close s f k t : zip s k (close f t) <-> zip s (f :: k) t.
Proof.
  unfold zip. rewrite top_cons, (pieces_close f k t). rewrite <- !pieces_addrs, (pieces_close f k t).
  by rewrite (root_bnode (f_side f) _ _ _ _ : root (close f t) = _).
Qed.

Lemma zip_plug s k t : holds s (plug k t) <-> zip s k t.
Proof. revert t. induction k as [|f k IH]; intros t; [done|]. cbn. by rewrite IH, zip_close. Qed.
End Stored.

(** ** Moving subtrees *)

Lemma child_near sd c n f p : entry_child sd (node_entry sd c n f p) = n.
Proof. by destruct sd. Qed.
Lemma child_far sd c n f p : entry_child (opp sd) (node_entry sd c n f p) = f.
Proof. by destruct sd. Qed.
Lemma set_near sd q c n f p : entry_set_child sd q (node_entry sd c n f p) = node_entry sd c q f p.
Proof. by destruct sd. Qed.
Lemma set_far sd q c n f p : entry_set_child (opp sd) q (node_entry sd c n f p) = node_entry sd c n q p.
Proof. by destruct sd. Qed.
Lemma parent_node sd c n f p : rbe_parent (node_entry sd c n f p) = p.
Proof. by destruct sd. Qed.
Lemma color_node sd c n f p : rbe_color (node_entry sd c n f p) = c.
Proof. by destruct sd. Qed.
Lemma set_parent_node sd q c n f p : entry_set_parent q (node_entry sd c n f p) = node_entry sd c n f q.
Proof. by destruct sd. Qed.
Lemma set_color_node sd d c n f p : entry_set_color d (node_entry sd c n f p) = node_entry sd d n f p.
Proof. by destruct sd. Qed.
Lemma node_entry_opp sd c n f p : node_entry (opp sd) c n f p = node_entry sd c f n p.
Proof. by destruct sd. Qed.
Lemma bnode_opp sd c n a f : bnode (opp sd) c n a f = bnode sd c f a n.
Proof. by destruct sd. Qed.
Lemma opp_opp sd : opp (opp sd) = sd.
Proof. by destruct sd. Qed.

Create Rewrite HintDb rb.
#[export] Hint Rewrite child_near child_far set_near set_far parent_node color_node set_parent_node set_color_node
  node_entry_opp bnode_opp opp_opp : rb.
#[export] Hint Rewrite root_bnode color_bnode : rb.

Lemma addrs_bnode sd c n a f : addrs (bnode sd c n a f) ≡ₚ a :: addrs n ++ addrs f.
Proof. rewrite <- (entries_addrs None), entries_bnode. cbn. by rewrite fmap_app, !entries_addrs. Qed.

Lemma inorder_rotate sd cx cy A x B y C dx dy :
  inorder (bnode sd cx A x (bnode sd cy B y C)) = inorder (bnode sd dy (bnode sd dx A x B) y C).
Proof. destruct sd; cbn; by rewrite <- app_assoc. Qed.

Section Moves.
Context {K : Type}.
Implicit Types s : RB_HEAD K.

(** The root of [t] gets another parent. *)
Definition reparent (t : tree) (q : option positive) s : RB_HEAD K :=
  match root t with Some b => upd b (entry_set_parent q) s | None => s end.

(** What is below [k] is now [q]. *)
Definition fill (k : context) (q : option positive) s : RB_HEAD K :=
  match k with [] => set_root q s | f :: _ => upd (f_addr f) (entry_set_child (f_side f) q) s end.

Lemma rest_reparent t q s : same_rest s (reparent t q s).
Proof. unfold reparent. destruct (root t); [apply rest_upd|done]. Qed.
Lemma rest_fill k q s : same_rest s (fill k q s).
Proof. destruct k; [done|apply rest_upd]. Qed.

Lemma stored_reparent_ne t q s l : (forall b, root t = Some b -> b ∉ l.*1) -> stored s l -> stored (reparent t q s) l.
Proof. unfold reparent. intros Hb. destruct (root t); [apply stored_upd; auto|done]. Qed.
Lemma stored_fill_ne k q s l : (forall b, above k = Some b -> b ∉ l.*1) -> stored s l -> stored (fill k q s) l.
Proof. destruct k; [done|]. intros Hb. apply stored_upd, Hb. done. Qed.
Lemma entry_reparent t q s a : a ∉ addrs t -> entry (reparent t q s) a = entry s a.
Proof.
  unfold reparent. destruct (root t) eqn:E; [|done]. intros Ha. rewrite entry_upd, decide_False; [done|].
  intros ->. apply Ha. by apply root_in.
Qed.
Lemma entry_fill k q s a : a ∉ context_addrs k -> entry (fill k q s) a = entry s a.
Proof.
  destruct k as [|[sd c b sib] k]; [done|]. rewrite context_addrs_cons. cbn. intros Ha.
  rewrite entry_upd, decide_False; [done|]. set_solver.
Qed.

Lemma stored_reparent t q p s : NoDup (addrs t) -> stored s (entries p t) -> stored (reparent t q s) (entries q t).
Proof.
  destruct t as [|c l a r]; [done|]. rewrite addrs_node, NoDup_cons. intros [Ha _]. unfold reparent.
  cbn [root entries]. rewrite !stored_cons. intros [Ea Hr]. split.
  - by rewrite entry_upd, decide_True, Ea.
  - apply stored_upd; [|done]. by rewrite fmap_app, !entries_addrs.
Qed.

Lemma stored_fill k p q s : NoDup (context_addrs k) -> stored s (context_entries k p) ->
  stored (fill k q s) (context_entries k q).
Proof.
  destruct k as [|[sd c a sib] k]; [done|]. rewrite context_addrs_cons, NoDup_cons. intros [Ha _].
  cbn [fill context_entries f_addr f_side]. rewrite !stored_cons. intros [Ea Hr]. split.
  - rewrite entry_upd, decide_True, Ea by done. cbn. by autorewrite with rb.
  - apply stored_upd; [|done]. by rewrite fmap_app, entries_addrs, context_entries_addrs.
Qed.

Lemma root_fill k p q s : rbh_root s = top k p -> rbh_root (fill k q s) = top k q.
Proof. destruct k as [|f k]; [done|]. rewrite !top_cons. done. Qed.

Lemma run_reparent t q s p : stored s (entries p t) -> unless_null (root t) (set_parent (root t) q) s = Some (tt, reparent t q s).
Proof.
  destruct t as [|c l a r]; [done|]. cbn [entries root]. rewrite stored_cons. intros [Ea _].
  unfold unless_null, set_parent. rewrite run_store by (by rewrite Ea). done.
Qed.

Lemma run_replace k x q s : x ∉ context_addrs k -> stored s (context_entries k (Some x)) ->
  replace_child (above k) (Some x) q s = Some (tt, fill k q s).
Proof.
  destruct k as [|[sd c a sib] k]; [done|]. rewrite context_addrs_cons. intros Hx. cbn [context_entries].
  rewrite stored_cons. intros [Ea _]. cbn [above head fmap option_fmap option_map f_addr replace_child].
  step (run_child L a _ s Ea). unfold set_child. destruct sd; cbn.
  - rewrite decide_True, run_store by (by rewrite ?Ea). done.
  - rewrite decide_False, run_store; [done|by rewrite Ea|]. intros E. apply root_in in E. set_solver.
Qed.
End Moves.

(** ** Keeping addresses apart *)

Definition apart (l l' : list positive) : Prop := forall b, b ∈ l -> b ∈ l' -> False.

Lemma apart_cons l y l' : apart l (y :: l') <-> y ∉ l /\ apart l l'.
Proof. unfold apart. setoid_rewrite elem_of_cons. naive_solver. Qed.
Lemma apart_app l l1 l2 : apart l (l1 ++ l2) <-> apart l l1 /\ apart l l2.
Proof. unfold apart. setoid_rewrite elem_of_app. naive_solver. Qed.
Lemma NoDup_apart l l' : NoDup (l ++ l') <-> NoDup l /\ apart l l' /\ NoDup l'.
Proof. apply NoDup_app. Qed.

(** Splits what is known to be different into facts about two things each. *)
Ltac distinct H :=
  rewrite ?context_addrs_cons in H; repeat (rewrite addrs_bnode in H || rewrite addrs_node in H);
  cbn [app] in H; rewrite <- ?app_assoc in H; cbn [app] in H; rewrite <- ?app_assoc in H; cbn [app] in H;
  repeat match goal with
  | H : NoDup (_ :: _) |- _ => apply NoDup_cons in H as [? ?]
  | H : NoDup (_ ++ _) |- _ => apply NoDup_apart in H as (? & ? & ?)
  | H : _ ∉ _ :: _ |- _ => apply not_elem_of_cons in H as [? ?]
  | H : _ ∉ _ ++ _ |- _ => apply not_elem_of_app in H as [? ?]
  | H : apart _ (_ :: _) |- _ => apply apart_cons in H as [? ?]
  | H : apart _ (_ ++ _) |- _ => apply apart_app in H as [? ?]
  end.

Ltac elsewhere :=
  rewrite ?entries_addrs, ?context_entries_addrs;
  repeat first [apply not_elem_of_cons; split | apply not_elem_of_app; split];
  first
    [ assumption
    | congruence
    | intros ?; match goal with H : apart ?l ?l', H1 : _ ∈ ?l, H2 : _ ∈ ?l' |- False => exact (H _ H1 H2) end
    | intros ->; contradiction ].

(** A list of entries that an assignment does not touch. *)
Ltac untouched :=
  repeat first
    [ apply stored_upd; [elsewhere|]
    | apply stored_reparent_ne; [intros ? ?%root_in; elsewhere|]
    | apply stored_fill_ne; [intros ? ?%above_in; elsewhere|] ].

(** The entry of a node after a few assignments. *)
Ltac entry_of :=
  repeat first
    [ rewrite entry_reparent by elsewhere
    | rewrite entry_fill by elsewhere
    | rewrite entry_upd, decide_True by done
    | rewrite entry_upd, decide_False by elsewhere
    | match goal with E : entry _ _ = _ |- _ => rewrite E end ];
  cbn [fmap option_fmap option_map]; autorewrite with rb.

Section Rotate.
Context {K : Type}.
Implicit Types s : RB_HEAD K.

Lemma NoDup_perm (l l' : list positive) : l ≡ₚ l' -> NoDup l -> NoDup l'.
Proof. by intros ->. Qed.

Lemma rotate_NoDup sd cx cy A x B y C l : NoDup (addrs (bnode sd cx A x (bnode sd cy B y C)) ++ l) ->
  NoDup (addrs (bnode sd cy (bnode sd cx A x B) y C) ++ l).
Proof. apply NoDup_perm. rewrite !addrs_bnode. cbn. solve_Permutation. Qed.

Lemma rotate_zip sd k cx cy A x B y C s :
  zip s k (bnode sd cx A x (bnode sd cy B y C)) ->
  exists s', RB_ROTATE sd (Some x) s = Some (tt, s') /\
    zip s' k (bnode sd cy (bnode sd cx A x B) y C) /\ same_rest s s'.
Proof.
  intros (Hr & Hd & Hs). unfold pieces in Hs. rewrite root_bnode in Hr, Hs.
  rewrite entries_bnode, entries_bnode, root_bnode in Hs.
  rewrite !stored_app, stored_cons, stored_app, stored_cons, stored_app in Hs.
  destruct Hs as ((Ex & HA & Ey & HB & HC) & Hk).
  generalize (rotate_NoDup _ _ _ _ _ _ _ _ _ Hd). distinct Hd. intros Hd.
  set (s1 := upd x (entry_set_child (opp sd) (root B)) s). set (s2 := reparent B (Some x) s1).
  set (s3 := upd y (entry_set_parent (above k)) s2). set (s4 := fill k (Some y) s3).
  set (s5 := upd y (entry_set_child sd (Some x)) s4). exists (upd x (entry_set_parent (Some y)) s5).
  assert (stored s3 (context_entries k (Some x))) as Hk3 by (unfold s3, s2, s1; untouched; done).
  split; [|split; [split; [|split]|]].
  - unfold RB_ROTATE. step (run_child (opp sd) x _ s Ex). autorewrite with rb.
    step (run_child sd y _ s Ey). autorewrite with rb.
    unfold set_child, set_parent at 2. step (run_store x _ s ltac:(by rewrite Ex)). fold s1.
    step (run_reparent B (Some x) s1 (Some y) ltac:(unfold s1; untouched; done)). fold s2.
    assert (entry s2 x = Some (node_entry sd cx (root A) (root B) (above k))) as E2 by (unfold s2, s1; entry_of; done).
    step (run_parent x _ s2 E2). autorewrite with rb.
    assert (entry s2 y = Some (node_entry sd cy (root B) (root C) (Some x))) as E2' by (unfold s2, s1; entry_of; done).
    unfold set_parent at 1.
    step (run_store y _ s2 ltac:(by rewrite E2')). fold s3.
    step (run_replace k x (Some y) s3 ltac:(elsewhere) Hk3). fold s4.
    assert (is_Some (entry s4 y)) as E4 by (unfold s4, s3; entry_of; done).
    step (run_store y _ s4 E4). fold s5.
    assert (is_Some (entry s5 x)) as E5 by (unfold s5, s4, s3; entry_of; done).
    by apply run_store.
  - rewrite root_bnode. apply (root_fill k (Some x)). unfold s3, s2, s1, reparent. by destruct (root B).
  - done.
  - unfold pieces. rewrite entries_bnode, entries_bnode, !root_bnode.
    rewrite !stored_app, stored_cons, stored_app, stored_cons, stored_app. split_and!; unfold s5, s4, s3, s2, s1.
    + entry_of. done.
    + entry_of. done.
    + untouched. done.
    + untouched. apply (stored_reparent B (Some x) (Some y)); [done|]. by untouched.
    + by untouched.
    + untouched. apply (stored_fill k (Some x)); [done|]. by untouched.
  - intros a. unfold s5, s4, s3, s2, s1. by rewrite 2!rest_upd, rest_fill, rest_upd, rest_reparent, rest_upd.
Qed.
End Rotate.

(** ** Looking at and painting nodes *)

Section Focus.
Context {K : Type}.
Implicit Types s : RB_HEAD K.

(** The other child of the node above is in focus. *)
Lemma zip_swap s sd c a sib k t : zip s (Frame sd c a sib :: k) t <-> zip s (Frame (opp sd) c a t :: k) sib.
Proof. rewrite <- !zip_close. unfold close. cbn. by rewrite bnode_opp. Qed.

Lemma zip_down s sd c n a f k : zip s k (bnode sd c n a f) <-> zip s (Frame sd c a f :: k) n.
Proof. apply (zip_close s (Frame sd c a f)). Qed.

Lemma zip_entry s k sd c n a f : zip s k (bnode sd c n a f) -> entry s a = Some (node_entry sd c (root n) (root f) (above k)).
Proof.
  intros (_ & _ & Hs). unfold pieces in Hs. rewrite entries_bnode in Hs. cbn [app] in Hs.
  by apply stored_cons in Hs as [? _].
Qed.

Lemma zip_above s sd c a sib k t : zip s (Frame sd c a sib :: k) t ->
  entry s a = Some (node_entry sd c (root t) (root sib) (above k)).
Proof. rewrite <- zip_down. apply zip_entry. Qed.

Lemma zip_roots s f k t : zip s (f :: k) t -> root t <> root (f_sibling f) \/ t = Leaf /\ f_sibling f = Leaf.
Proof.
  destruct f as [sd c a sib]. intros (_ & Hd & _). cbn. distinct Hd.
  destruct t as [|c1 l1 b1 r1], sib as [|c2 l2 b2 r2]; [by right|by left|by left|]. left. cbn. intros [= ->].
  rewrite !addrs_node in *. match goal with H : apart _ _ |- _ => apply (H b2) end; set_solver.
Qed.

Lemma paint_zip s k sd c d n a f : zip s k (bnode sd c n a f) ->
  exists s', set_color (Some a) d s = Some (tt, s') /\ zip s' k (bnode sd d n a f) /\ same_rest s s'.
Proof.
  intros Hz. pose proof (zip_entry _ _ _ _ _ _ _ Hz) as Ea. destruct Hz as (Hr & Hd & Hs).
  exists (upd a (entry_set_color d) s). split; [apply run_store; by rewrite Ea|]. split; [|apply rest_upd].
  unfold pieces in Hs. rewrite entries_bnode in Hs. rewrite stored_app, stored_cons, stored_app in Hs.
  destruct Hs as ((_ & Hn & Hf) & Hk). split; [|split].
  - by rewrite root_bnode in Hr |- *.
  - revert Hd. apply NoDup_perm. by rewrite !addrs_bnode.
  - distinct Hd. unfold pieces. rewrite entries_bnode, stored_app, stored_cons, stored_app.
    rewrite root_bnode in Hk |- *. split_and!; [entry_of; done|by untouched..].
Qed.

(** The fuel is enough for the way up and for the way down. *)
Lemma stored_size s (l : list (positive * RB_ENTRY)) : NoDup l.*1 -> stored s l -> (length l <= size (elements s))%nat.
Proof.
  intros Hd Hs. rewrite <- (length_fmap fst), <- (size_list_to_set (C := gset positive)) by exact Hd.
  rewrite <- size_dom. apply subseteq_size. intros a. rewrite elem_of_list_to_set, list_elem_of_fmap, elem_of_dom.
  intros ([b e] & -> & Hb). pose proof (proj1 (Forall_forall _ _) Hs _ Hb) as E. cbn in E. unfold entry in E. cbn.
  destruct (elements s !! b); [by eexists|done].
Qed.

Fixpoint height (t : tree) : nat := match t with Leaf => 0 | Node _ l _ r => S (height l `max` height r) end.

Lemma height_entries p t : (height t <= length (entries p t))%nat.
Proof.
  revert p. induction t as [|c l IHl a r IHr]; intros p; [done|]. cbn. rewrite length_app.
  specialize (IHl (Some a)). specialize (IHr (Some a)). lia.
Qed.

Lemma context_length k p : (length k <= length (context_entries k p))%nat.
Proof.
  revert p. induction k as [|[sd c a sib] k IH]; intros p; [done|]. cbn. rewrite length_app. specialize (IH (Some a)). lia.
Qed.

Lemma zip_fuel s k t : zip s k t -> (height t + length k < fuel_of s)%nat.
Proof.
  intros (_ & Hd & Hs). rewrite <- pieces_addrs in Hd. pose proof (stored_size _ _ Hd Hs) as Hl.
  unfold pieces in Hl. rewrite length_app in Hl. unfold fuel_of.
  pose proof (height_entries (above k) t). pose proof (context_length k (root t)). lia.
Qed.
End Focus.

(** ** Balance *)

(** Red nodes have black children and there are [n] black ones on each way down. *)
Inductive balanced : nat -> tree -> Prop :=
| balanced_leaf : balanced 0 Leaf
| balanced_red n l a r : balanced n l -> balanced n r -> color l = RB_BLACK -> color r = RB_BLACK ->
    balanced n (Node RB_RED l a r)
| balanced_black n l a r : balanced n l -> balanced n r -> balanced (S n) (Node RB_BLACK l a r).

Definition red_black (t : tree) : Prop := color t = RB_BLACK /\ exists n, balanced n t.

Lemma bnode_red n sd l a r : balanced n l -> balanced n r -> color l = RB_BLACK -> color r = RB_BLACK ->
  balanced n (bnode sd RB_RED l a r).
Proof. destruct sd; by constructor. Qed.
Lemma bnode_black n sd l a r : balanced n l -> balanced n r -> balanced (S n) (bnode sd RB_BLACK l a r).
Proof. destruct sd; by constructor. Qed.

(** Black trees with [n] black nodes on each way down fit into the context, and
    red ones if it allows them. *)
Definition takes_red (k : context) : Prop := match k with [] => False | f :: _ => f_color f = RB_BLACK end.

Inductive fits : nat -> context -> Prop :=
| fits_top n : fits n []
| fits_red n sd a sib k : balanced n sib -> color sib = RB_BLACK -> fits n k -> takes_red k ->
    fits n (Frame sd RB_RED a sib :: k)
| fits_black n sd a sib k : balanced n sib -> fits (S n) k -> fits n (Frame sd RB_BLACK a sib :: k).

Lemma fits_plug n k t : fits n k -> balanced n t -> color t = RB_BLACK \/ takes_red k -> red_black (plug k t).
Proof.
  intros Hk. revert t. induction Hk as [n|n sd a sib k Hs Hc Hk IH Hr|n sd a sib k Hs Hk IH]; intros t Ht Hct; cbn.
  - destruct Hct; [|done]. split; [done|by exists n].
  - apply IH; [|by right]. destruct Hct; [|done]. by apply bnode_red.
  - apply IH; [by apply bnode_black|left; apply color_bnode].
Qed.

Lemma inorder_bnode sd c d l a r : inorder (bnode sd c l a r) = inorder (bnode sd d l a r).
Proof. by destruct sd. Qed.

Lemma inorder_close f t t' : inorder t = inorder t' -> inorder (close f t) = inorder (close f t').
Proof. destruct f as [[] c a sib]; cbn; by intros ->. Qed.

Lemma inorder_plug k t t' : inorder t = inorder t' -> inorder (plug k t) = inorder (plug k t').
Proof. revert t t'. induction k as [|f k IH]; intros t t' E; cbn; [done|]. by apply IH, inorder_close. Qed.

(** What is to the left and to the right of the subtree. *)
Fixpoint left_of (k : context) : list positive :=
  match k with
  | [] => []
  | Frame L _ _ _ :: k => left_of k
  | Frame R _ a sib :: k => left_of k ++ inorder sib ++ [a]
  end.
Fixpoint right_of (k : context) : list positive :=
  match k with
  | [] => []
  | Frame L _ a sib :: k => a :: inorder sib ++ right_of k
  | Frame R _ _ _ :: k => right_of k
  end.

Lemma inorder_plug_split k t : inorder (plug k t) = left_of k ++ inorder t ++ right_of k.
Proof.
  revert t. induction k as [|[[] c a sib] k IH]; intros t; cbn.
  - by rewrite app_nil_r.
  - rewrite IH. cbn. by rewrite <- !app_assoc.
  - rewrite IH. cbn. by rewrite <- !app_assoc.
Qed.

Lemma inorder_context k : left_of k ++ right_of k ≡ₚ context_addrs k.
Proof.
  induction k as [|[sd c a sib] k IH]; [done|]. rewrite context_addrs_cons, <- IH, <- inorder_addrs.
  destruct sd; cbn; solve_Permutation.
Qed.

Lemma left_of_app k1 k : left_of (k1 ++ k) = left_of k ++ left_of k1.
Proof. induction k1 as [|[[] c a sib] k1 IH]; cbn; [by rewrite app_nil_r|done|by rewrite IH, <- app_assoc]. Qed.
Lemma right_of_app k1 k : right_of (k1 ++ k) = right_of k1 ++ right_of k.
Proof. induction k1 as [|[[] c a sib] k1 IH]; cbn; [done|by rewrite IH, <- app_assoc|done]. Qed.

Lemma context_addrs_app k1 k : context_addrs (k1 ++ k) ≡ₚ context_addrs k1 ++ context_addrs k.
Proof. rewrite <- !inorder_context, left_of_app, right_of_app. solve_Permutation. Qed.
Lemma addrs_plug k t : addrs (plug k t) ≡ₚ addrs t ++ context_addrs k.
Proof. rewrite <- !inorder_addrs, inorder_plug_split, <- inorder_context. solve_Permutation. Qed.
