(* ===== verification/RbInsert.v ===== *)
(** * RbInsert: putting an element into a red-black tree

    [RB_INSERT_COLOR] restores the balance of a tree with a red node, and
    [RB_FIND] and [RB_INSERT] find their way by the order of the keys. *)
From S2P Require Import Prelude Effects RbTree RbShape.

Lemma as_bnode sd t : t <> Leaf -> exists c n a f, t = bnode sd c n a f.
Proof. destruct t as [|c l a r]; [done|]. intros _. destruct sd; [by exists c, l, a, r|by exists c, r, a, l]. Qed.

Lemma balanced_bnode n sd c l a r : balanced n (bnode sd c l a r) ->
  exists m, balanced m l /\ balanced m r /\ n = (if decide (c = RB_BLACK) then S m else m) /\
    (c = RB_RED -> color l = RB_BLACK /\ color r = RB_BLACK).
Proof.
  intros H. assert (exists m, balanced m l /\ balanced m r /\ n = (if decide (c = RB_BLACK) then S m else m) /\
    (c = RB_RED -> color l = RB_BLACK /\ color r = RB_BLACK)); [|done].
  destruct sd; cbn in H; inversion H; subst; eexists; split_and!; done.
Qed.

Lemma bnode_not_leaf sd c n a f : bnode sd c n a f <> Leaf.
Proof. by destruct sd. Qed.

Lemma run_seq {S A} (m1 m2 : M S unit) (m3 : M S A) s s' :
  (m1;; m2) s = Some (tt, s') -> (m1;; m2;; m3) s = m3 s'.
Proof.
  intros E. apply run_bind_inv in E as ([] & s1 & E1 & E2). rewrite (run_bind _ _ _ _ _ E1).
  by rewrite (run_bind _ _ _ _ _ E2).
Qed.

(** A place in a balanced tree. *)
Lemma plug_fits k t n : balanced n (plug k t) -> color (plug k t) = RB_BLACK ->
  exists m, fits m k /\ balanced m t /\ (color t = RB_BLACK \/ takes_red k).
Proof.
  intros Hb Hc. revert t Hb Hc. induction k as [|[sd c a sib] k IH]; intros t Hb Hc.
  - exists n. split; [constructor|]. auto.
  - destruct (IH _ Hb Hc) as (m & Hk & Hm & Hr). unfold close in Hm, Hr. cbn in Hm, Hr. rewrite color_bnode in Hr.
    apply balanced_bnode in Hm as (m' & Ht & Hs & -> & Hred). exists m'. destruct c; cbn in Hk |- *.
    + split; [by constructor|]. auto.
    + destruct Hred as [? ?]; [done|]. split; [constructor; try done; by destruct Hr|]. auto.
Qed.

Section Colors.
Context {K : Type}.
Implicit Types s : RB_HEAD K.

Lemma run_is_red s k t : zip s k t -> is_red (root t) s = Some (bool_decide (color t = RB_RED), s).
Proof.
  destruct t as [|c n a f]; [done|]. change (Node c n a f) with (bnode L c n a f). intros Hz.
  unfold is_red. rewrite root_bnode. step (run_color a _ s (zip_entry _ _ _ _ _ _ _ Hz)).
  by rewrite color_node, color_bnode.
Qed.

Lemma run_null_or_black s k t : zip s k t -> null_or_black (root t) s = Some (bool_decide (color t = RB_BLACK), s).
Proof.
  destruct t as [|c n a f]; [done|]. change (Node c n a f) with (bnode L c n a f). intros Hz.
  unfold null_or_black. rewrite root_bnode. step (run_color a _ s (zip_entry _ _ _ _ _ _ _ Hz)).
  by rewrite color_node, color_bnode.
Qed.

Lemma run_is_red_above s f k t : zip s (f :: k) t ->
  is_red (Some (f_addr f)) s = Some (bool_decide (f_color f = RB_RED), s).
Proof.
  intros Hz. apply zip_close in Hz. pose proof (run_is_red s k _ Hz) as E. unfold close in E.
  by rewrite root_bnode, color_bnode in E.
Qed.

Lemma set_blackred_zip s sdg cg g unc sdp cp p sib k t : zip s (Frame sdp cp p sib :: Frame sdg cg g unc :: k) t ->
  exists s', RB_SET_BLACKRED (Some p) (Some g) s = Some (tt, s') /\
    zip s' (Frame sdp RB_BLACK p sib :: Frame sdg RB_RED g unc :: k) t /\ same_rest s s'.
Proof.
  intros Hz. rewrite <- zip_down in Hz. destruct (paint_zip _ _ _ _ RB_BLACK _ _ _ Hz) as (s1 & E1 & Z1 & R1).
  rewrite <- zip_down in Z1. destruct (paint_zip _ _ _ _ RB_RED _ _ _ Z1) as (s2 & E2 & Z2 & R2).
  exists s2. unfold RB_SET_BLACKRED. step E1. split; [exact E2|]. split; [|by eapply same_rest_trans].
  by rewrite !zip_down in Z2.
Qed.

(** Which side the code takes: that on which the subtree is. *)
Lemma side_taken s sd c a sib k t : zip s (Frame sd c a sib :: k) t -> t <> Leaf ->
  RB_CHILD L (Some a) s = Some (if sd then root t else root sib, s) /\
  (if decide (root t = (if sd then root t else root sib)) then L else R) = sd.
Proof.
  intros Hz Ht. rewrite (run_child L a _ s (zip_above _ _ _ _ _ _ _ Hz)). split; [by destruct sd|].
  destruct (zip_roots _ _ _ _ Hz) as [Hn|[? _]]; [|done]. cbn in Hn. destruct sd; [by rewrite decide_True|by rewrite decide_False].
Qed.

(** Two red nodes on one side of a black one: the rotation there. *)
Lemma outer_zip s sd k p sib g unc t : zip s (Frame sd RB_RED p sib :: Frame sd RB_BLACK g unc :: k) t ->
  exists s', (RB_SET_BLACKRED (Some p) (Some g);; RB_ROTATE (opp sd) (Some g)) s = Some (tt, s') /\
    zip s' (Frame sd RB_BLACK p (bnode sd RB_RED sib g unc) :: k) t /\ same_rest s s'.
Proof.
  intros Hz. destruct (set_blackred_zip _ _ _ _ _ _ _ _ _ _ _ Hz) as (s1 & E1 & Z1 & R1).
  rewrite <- !zip_down in Z1. rewrite <- (bnode_opp sd RB_RED), <- (bnode_opp sd RB_BLACK) in Z1.
  destruct (rotate_zip _ _ _ _ _ _ _ _ _ _ Z1) as (s2 & E2 & Z2 & R2). exists s2. step E1. split; [exact E2|].
  split; [|by eapply same_rest_trans]. rewrite !bnode_opp in Z2. by rewrite zip_down in Z2.
Qed.

(** On different sides: the rotation that brings them to one. *)
Lemma inner_zip s sd k p sib l a r : zip s (Frame (opp sd) RB_RED p sib :: k) (bnode sd RB_RED l a r) ->
  exists s', RB_ROTATE sd (Some p) s = Some (tt, s') /\
    zip s' (Frame sd RB_RED a r :: k) (bnode sd RB_RED sib p l) /\ same_rest s s'.
Proof.
  intros Hz. rewrite <- zip_down, bnode_opp in Hz.
  destruct (rotate_zip _ _ _ _ _ _ _ _ _ _ Hz) as (s1 & E1 & Z1 & R1). exists s1. by rewrite <- zip_down.
Qed.

(** What [m] does to the stored tree: it ends, with a balanced tree of the nodes
    [l] and the rest of the elements as before. *)
Definition restores (m : M (RB_HEAD K) unit) (l : list positive) s : Prop :=
  exists s' t, m s = Some (tt, s') /\ holds s' t /\ same_rest s s' /\ inorder t = l /\ exists n, balanced n t.

Lemma restores_step (m1 m : M (RB_HEAD K) unit) l s s1 :
  m s = m1 s1 -> same_rest s s1 -> restores m1 l s1 -> restores m l s.
Proof.
  intros E R1 (s2 & t & E2 & H2 & R2 & Ht). exists s2, t. rewrite E. split; [done|]. split; [done|].
  split; [by eapply same_rest_trans|done].
Qed.

Lemma insert_color_end s k t a fuel : root t = Some a -> zip s k t -> k = [] \/ takes_red k ->
  insert_color (S fuel) (Some a) s = Some (tt, s).
Proof.
  intros Ha Hz Hk. destruct t as [|c l b r]; [done|]. injection Ha as ->. change (Node c l a r) with (bnode L c l a r) in Hz.
  cbn [insert_color]. step (run_parent a _ s (zip_entry _ _ _ _ _ _ _ Hz)). rewrite parent_node.
  destruct k as [|f k]; [done|]. destruct Hk as [|Hk]; [done|]. cbn in Hk.
  change (above (f :: k)) with (Some (f_addr f)). step (run_is_red_above _ _ _ _ Hz).
  by rewrite bool_decide_false by (by rewrite Hk).
Qed.

(** The red node has a red parent [p] below a black [g]. *)
Section Step.
Variables (s : RB_HEAD K) (sdp sd : side) (l r sib unc : tree) (a p g : positive) (k : context) (fuel : nat).
Let t := bnode sd RB_RED l a r.
Hypothesis Hz : zip s (Frame sdp RB_RED p sib :: Frame sd RB_BLACK g unc :: k) t.

Let Hp : zip s (Frame sd RB_BLACK g unc :: k) (bnode sdp RB_RED t p sib) := proj2 (zip_down _ _ _ _ _ _ _) Hz.

(** The code up to the test of the uncle's color. *)
Lemma insert_color_start : insert_color (S fuel) (Some a) s =
  (if bool_decide (color unc = RB_RED) then
     set_color (root unc) RB_BLACK;; RB_SET_BLACKRED (Some p) (Some g);; insert_color fuel (Some g)
   else
     c ← RB_CHILD (opp sd) (Some p);
     '(parent, elm) ← (if decide (c = Some a) then RB_ROTATE sd (Some p);; mret (Some a, Some p)
                       else mret (Some p, Some a));
     RB_SET_BLACKRED parent (Some g);;
     RB_ROTATE (opp sd) (Some g);;
     insert_color fuel elm) s.
Proof.
  cbn [insert_color]. step (run_parent a _ s (zip_entry _ _ _ _ _ _ _ Hz)). rewrite parent_node.
  change (above (Frame sdp RB_RED p sib :: Frame sd RB_BLACK g unc :: k)) with (Some p).
  step (run_is_red_above _ _ _ _ Hz). cbn [f_color]. rewrite bool_decide_true by done. cbn [negb].
  step (run_parent p _ s (zip_above _ _ _ _ _ _ _ Hz)). rewrite parent_node.
  change (above (Frame sd RB_BLACK g unc :: k)) with (Some g).
  destruct (side_taken _ _ _ _ _ _ _ Hp) as [E1 E2]; [by destruct sdp|]. step E1. rewrite root_bnode in E2.
  rewrite root_bnode, E2. step (run_child (opp sd) g _ s (zip_above _ _ _ _ _ _ _ Hp)). rewrite child_far.
  by step (run_is_red _ _ _ (proj1 (zip_swap _ _ _ _ _ _ _) Hp)).
Qed.

Lemma insert_color_uncle : color unc = RB_RED ->
  exists s' l' b r', unc = bnode L RB_RED l' b r' /\
    insert_color (S fuel) (Some a) s = insert_color fuel (Some g) s' /\ same_rest s s' /\
    zip s' k (bnode sd RB_RED (bnode sdp RB_BLACK t p sib) g (bnode L RB_BLACK l' b r')).
Proof.
  intros Hc. rewrite insert_color_start, bool_decide_true by done. destruct unc as [|c l' b r'] eqn:Eu; [done|].
  cbn in Hc. subst c. change (Node RB_RED l' b r') with (bnode L RB_RED l' b r') in *.
  pose proof Hp as Z. rewrite zip_swap in Z. destruct (paint_zip _ _ _ _ RB_BLACK _ _ _ Z) as (s1 & E1 & Z1 & R1).
  rewrite zip_swap, opp_opp, zip_down in Z1. destruct (set_blackred_zip _ _ _ _ _ _ _ _ _ _ _ Z1) as (s2 & E2 & Z2 & R2).
  exists s2, l', b, r'. rewrite root_bnode. step E1. step E2. split; [done|]. split; [done|].
  split; [by eapply same_rest_trans|]. by rewrite <- !zip_down in Z2.
Qed.

Lemma insert_color_rotate n : color unc = RB_BLACK -> balanced n l -> balanced n r -> color l = RB_BLACK ->
  color r = RB_BLACK -> balanced n sib -> color sib = RB_BLACK ->
  exists s' t1 a1 t2 b, insert_color (S fuel) (Some a) s = insert_color fuel (Some b) s' /\ same_rest s s' /\
    zip s' (Frame sd RB_BLACK a1 (bnode sd RB_RED t2 g unc) :: k) t1 /\ root t1 = Some b /\
    balanced n t1 /\ balanced n t2 /\ color t2 = RB_BLACK /\
    inorder (bnode sd RB_BLACK t1 a1 (bnode sd RB_RED t2 g unc)) = inorder (bnode sd RB_BLACK (bnode sdp RB_RED t p sib) g unc).
Proof.
  intros Hc Hl Hr Hlc Hrc Hs Hsc. rewrite insert_color_start, bool_decide_false by (by rewrite Hc).
  pose proof (zip_above _ _ _ _ _ _ _ Hz) as Ep. rewrite (run_bind _ _ _ _ _ (run_child (opp sd) p _ s Ep)).
  assert (sdp = sd \/ sdp = opp sd) as [E|E] by (destruct sdp, sd; auto).
  - pose proof Hz as Hz'. rewrite E in Hz', Ep |- *. rewrite child_far. destruct (zip_roots _ _ _ _ Hz') as [Hn|[Hn _]];
      [|by apply bnode_not_leaf in Hn]. cbn in Hn. unfold t in Hn. rewrite root_bnode in Hn. rewrite decide_False by done.
    destruct (outer_zip _ _ _ _ _ _ _ _ Hz') as (s1 & E1 & Z1 & R1). exists s1, t, p, sib, a.
    split; [|split_and!; try done].
    + step (run_ret _ _). by apply run_seq.
    + apply root_bnode.
    + by apply bnode_red.
    + apply inorder_rotate.
  - pose proof Hz as Hz'. rewrite E in Hz', Ep |- *. rewrite child_near. unfold t. rewrite root_bnode, decide_True by done.
    destruct (inner_zip _ _ _ _ _ _ _ _ Hz') as (s1 & E1 & Z1 & R1).
    destruct (outer_zip _ _ _ _ _ _ _ _ Z1) as (s2 & E2 & Z2 & R2).
    exists s2, (bnode sd RB_RED sib p l), a, r, p. split; [|split_and!; try done].
    + rewrite (run_bind _ _ s (Some a, Some p) s1) by (by step E1). by apply run_seq.
    + by eapply same_rest_trans.
    + apply root_bnode.
    + by apply bnode_red.
    + rewrite bnode_opp. etransitivity; [apply (inorder_rotate sd RB_BLACK RB_RED _ _ _ _ _ RB_RED RB_BLACK)|].
      apply (inorder_close (Frame sd RB_BLACK g unc)). symmetry. apply inorder_rotate.
Qed.
End Step.

(** Wherever the red node is, the tree is balanced again. *)
Lemma insert_color_restores fuel : forall s k sd l a r n,
  zip s k (bnode sd RB_RED l a r) -> balanced n l -> balanced n r -> color l = RB_BLACK -> color r = RB_BLACK ->
  fits n k -> (length k < fuel)%nat ->
  restores (insert_color fuel (Some a)) (inorder (plug k (bnode sd RB_RED l a r))) s.
Proof.
  induction fuel as [|fuel IH]; intros s k sd l a r n Hz Hl Hr Hlc Hrc Hk Hf; [lia|].
  pose proof (bnode_red n sd l a r Hl Hr Hlc Hrc) as Ht. destruct Hk as [n|n sdp p sib k Hs Hsc Hk Hred|n sdp p sib k Hs Hk].
  - exists s, (bnode sd RB_RED l a r). rewrite (insert_color_end s [] (bnode sd RB_RED l a r)); [|apply root_bnode|done|by left].
    split_and!; try done. by exists n.
  - destruct Hk as [n|n ? g unc k|n sdg g unc k Hu Hk]; [done|by cbn in Hred|]. clear Hred.
    assert (exists l' r', bnode sd RB_RED l a r = bnode sdg RB_RED l' a r' /\ balanced n l' /\ balanced n r' /\
      color l' = RB_BLACK /\ color r' = RB_BLACK) as (l' & r' & E & Hl' & Hr' & Hlc' & Hrc').
    { destruct sd, sdg; first [by exists l, r|by exists r, l]. }
    rewrite E in Hz, Ht |- *. cbn in Hf. destruct (color unc) eqn:Hc.
    + destruct (insert_color_rotate _ _ _ _ _ _ _ _ _ _ _ fuel Hz n) as (s1 & t1 & a1 & t2 & b & E1 & R1 & Z1 & Hb & H1 & H2 & Hc2 & Ei); [done..|].
      eapply restores_step; [exact E1|exact R1|]. destruct fuel as [|fuel]; [lia|].
      exists s1, (plug (Frame sdg RB_BLACK a1 (bnode sdg RB_RED t2 g unc) :: k) t1).
      rewrite (insert_color_end s1 _ t1 _ fuel Hb Z1) by (by right). split; [done|]. split; [by apply zip_plug|].
      split; [done|]. split; [by apply (inorder_plug k (close _ t1) (close _ (close _ _)))|]. eapply fits_plug; [|exact H1|by right].
      apply fits_black; [by apply bnode_red|done].
    + destruct (insert_color_uncle _ _ _ _ _ _ _ _ _ _ _ fuel Hz Hc) as (s1 & l2 & b & r2 & -> & E1 & R1 & Z1).
      eapply restores_step; [exact E1|exact R1|]. apply balanced_bnode in Hu as (m & Hl2 & Hr2 & Hn & _).
      rewrite decide_False in Hn by done. subst m.
      assert (inorder (plug k (bnode sdg RB_RED (bnode sdp RB_BLACK (bnode sdg RB_RED l' a r') p sib) g (bnode L RB_BLACK l2 b r2))) =
        inorder (plug (Frame sdp RB_RED p sib :: Frame sdg RB_BLACK g (bnode L RB_RED l2 b r2) :: k) (bnode sdg RB_RED l' a r'))) as <-.
      { apply (inorder_plug k _ (close _ (close _ _))). unfold close. cbn. by destruct sdg, sdp. }
      eapply IH; [exact Z1|by apply bnode_black|by apply bnode_black|apply color_bnode|apply color_bnode|done|lia].
  - exists s, (plug (Frame sdp RB_BLACK p sib :: k) (bnode sd RB_RED l a r)).
    rewrite (insert_color_end s _ _ _ fuel (root_bnode _ _ _ _ _) Hz) by (by right). split; [done|].
    split; [by apply zip_plug|]. split; [done|]. split; [done|]. eapply fits_plug; [by apply fits_black|done|by right].
Qed.

Lemma insert_color_top s k a : zip s k (Node RB_RED Leaf a Leaf) -> fits 0 k ->
  exists s' t, RB_INSERT_COLOR (Some a) s = Some (tt, s') /\ holds s' t /\ same_rest s s' /\
    inorder t = inorder (plug k (Node RB_RED Leaf a Leaf)) /\ red_black t.
Proof.
  intros Hz Hk. assert (length k < fuel_of s)%nat as Hf by (pose proof (zip_fuel _ _ _ Hz); lia).
  destruct (insert_color_restores (fuel_of s) s k L Leaf a Leaf 0 Hz) as (s1 & t & E1 & H1 & R1 & Ei & n & Hn);
    [by constructor..|done|done|done|done|].
  unfold RB_INSERT_COLOR. step (run_gets _ _). step E1. step (run_gets _ _).
  destruct H1 as (Hr & H1). rewrite Hr. destruct t as [|c l b r].
  { change (inorder Leaf) with (@nil positive) in Ei. rewrite inorder_plug_split in Ei. by destruct (left_of k). }
  destruct (paint_zip s1 [] L c RB_BLACK l b r) as (s2 & E2 & Z2 & R2); [by split|].
  exists s2, (Node RB_BLACK l b r). split; [exact E2|]. split; [exact Z2|]. split; [by eapply same_rest_trans|].
  split; [exact Ei|]. split; [done|]. inversion Hn; subst; eexists; by constructor.
Qed.

(** A new node below the tree. *)
Lemma attach_zip s k a : zip s k Leaf -> is_Some (entry s a) -> a ∉ context_addrs k ->
  exists s', (RB_SET (Some a) (above k);;
      match above k with
      | Some _ => set_child (match k with f :: _ => f_side f | [] => L end) (above k) (Some a)
      | None => modify (set_root (Some a))
      end) s = Some (tt, s') /\ zip s' k (Node RB_RED Leaf a Leaf) /\ same_rest s s'.
Proof.
  intros (Hr & Hd & Hs) He Ha. cbn [root] in Hr. cbn [addrs app] in Hd. unfold pieces in Hs. cbn in Hs, Hd.
  set (s1 := upd a (fun _ => {| rbe_left := None; rbe_right := None; rbe_parent := above k; rbe_color := RB_RED |}) s).
  assert (stored s1 (context_entries k None)) as H1 by (unfold s1; by untouched).
  exists (fill k (Some a) s1). split; [|split; [split; [|split]|]].
  - unfold RB_SET. step (run_store a _ s He). fold s1. destruct k as [|[sd c b sib] k]; [done|].
    apply stored_cons in H1 as [Eb _]. apply run_store. by eexists.
  - by apply (root_fill k None).
  - change (addrs (Node RB_RED Leaf a Leaf)) with [a]. by constructor.
  - unfold pieces. cbn. rewrite stored_cons. split; [|by apply (stored_fill k None)].
    rewrite entry_fill by done. unfold s1. destruct He as [e He]. rewrite entry_upd, decide_True, He by done. done.
  - intros b. rewrite rest_fill. apply rest_upd.
Qed.
End Colors.
