(* ===== verification/RbOrder.v ===== *)
(** * RbOrder: finding and inserting by key

    [RB_FIND] and [RB_INSERT] find their way through a red-black tree by the
    order of the keys.  A comparison orders keys when it agrees with the order
    of some numbers they stand for. *)
From stdpp Require Import sorting.
From S2P Require Import Prelude Effects RbTree RbShape RbInsert.

(** What the trees rely on in a comparison, on the keys that [key_ok] allows. *)
Class KeyOrder {K : Type} (cmp : K -> K -> ub Z) := {
  key_ok : K -> Prop;
  key_value : K -> Z;
  cmp_values x y : key_ok x -> key_ok y -> exists z, cmp x y = Some z /\ Z.sgn z = Z.sgn (key_value x - key_value y);
}.

Section Order.
Context {K : Type} (cmp : K -> K -> ub Z) `{KeyOrder K cmp}.
Implicit Types s : RB_HEAD K.

Definition value_at s (a : positive) : Z := default 0 ((fun x => key_value (elm_key x)) <$> elements s !! a).
Definition keyed s (a : positive) : Prop := exists x, elements s !! a = Some x /\ key_ok (elm_key x).

Definition ordered s (l : list positive) : Prop :=
  Forall (keyed s) l /\ StronglySorted (fun a b => value_at s a < value_at s b) l.

(** A head that holds a red-black tree with the elements [l] in their order. *)
Definition search_tree s (l : list positive) : Prop :=
  exists t, holds s t /\ red_black t /\ inorder t = l /\ ordered s l.

Lemma key_at_rest s a : option_map elm_key (elements s !! a) = option_map (fun x => x.1.1) (rest s a).
Proof. unfold rest. by destruct (elements s !! a). Qed.

Lemma value_at_rest s s' a : rest s' a = rest s a -> value_at s' a = value_at s a.
Proof.
  unfold rest, value_at. destruct (elements s !! a), (elements s' !! a); cbn; try done. by intros [= -> _ _].
Qed.

Lemma keyed_rest s s' a : rest s' a = rest s a -> keyed s a -> keyed s' a.
Proof.
  unfold rest. intros E (x & Ex & Hx). rewrite Ex in E. cbn in E. destruct (elements s' !! a) as [y|] eqn:Ey; [|done].
  injection E as E _ _. exists y. by rewrite E.
Qed.

Lemma ordered_rest s s' l : same_rest s s' -> ordered s l -> ordered s' l.
Proof.
  intros R [Hk Ho]. split.
  - eapply Forall_impl; [exact Hk|]. intros a. apply keyed_rest, R.
  - induction Ho as [|a l Hl IH Ha]; constructor.
    + apply IH. by apply Forall_cons in Hk as [_ ?].
    + eapply Forall_impl; [exact Ha|]. intros b. by rewrite !(value_at_rest s s' _ (R _)).
Qed.

(** The way down has led to [k]: what is to its left is smaller and what is to
    its right is greater, and [comp] is the outcome of the last comparison. *)
Record hole_for s (v : Z) (k : context) (comp : Z) : Prop := {
  hole_left : Forall (fun a => value_at s a < v) (left_of k);
  hole_right : Forall (fun a => v < value_at s a) (right_of k);
  hole_side : forall f, head k = Some f -> f_side f = if comp <? 0 then L else R;
}.

Lemma compare_at s (k : K) a : key_ok k -> keyed s a ->
  exists x z, elements s !! a = Some x /\ cmp k (elm_key x) = Some z /\ Z.sgn z = Z.sgn (key_value k - value_at s a).
Proof.
  intros Hk (x & Ex & Hx). destruct (cmp_values k (elm_key x) Hk Hx) as (z & Ez & Hz). exists x, z.
  unfold value_at. by rewrite Ex.
Qed.

Lemma ordered_node s k c l a r : ordered s (inorder (plug k (Node c l a r))) ->
  keyed s a /\ Forall (fun b => value_at s b < value_at s a) (inorder l) /\
  Forall (fun b => value_at s a < value_at s b) (inorder r).
Proof.
  intros [Hk Ho]. rewrite inorder_plug_split in Hk, Ho. cbn in Hk, Ho. rewrite !Forall_app, Forall_cons in Hk.
  apply StronglySorted_app_1_r, StronglySorted_app_1_l in Ho. split; [tauto|]. split.
  - apply Forall_forall. intros b Hb. by apply (StronglySorted_app_1_elem_of (fun a b => value_at s a < value_at s b) _ _ b a Ho Hb), list_elem_of_here.
  - by apply StronglySorted_app_1_r, StronglySorted_cons in Ho as [? _].
Qed.

Lemma hole_go_left s v k c a r comp z : hole_for s v k comp -> z < 0 -> v < value_at s a ->
  Forall (fun b => value_at s a < value_at s b) (inorder r) -> hole_for s v (Frame L c a r :: k) z.
Proof.
  intros [Hl Hr _] Hz Hv Ho. split; [done| |].
  - cbn. rewrite Forall_cons, Forall_app. split_and!; [done| |done]. eapply Forall_impl; [exact Ho|]. cbn. lia.
  - intros f [= <-]. cbn. by rewrite (proj2 (Z.ltb_lt _ _)).
Qed.

Lemma hole_go_right s v k c a l comp z : hole_for s v k comp -> 0 < z -> value_at s a < v ->
  Forall (fun b => value_at s b < value_at s a) (inorder l) -> hole_for s v (Frame R c a l :: k) z.
Proof.
  intros [Hl Hr _] Hz Hv Ho. split; [|done|].
  - cbn. rewrite !Forall_app. split_and!; [done| |by repeat constructor]. eapply Forall_impl; [exact Ho|]. cbn. lia.
  - intros f [= <-]. cbn. by rewrite (proj2 (Z.ltb_ge _ _)) by lia.
Qed.

Lemma search_zip s (k0 : K) t : key_ok k0 -> forall k fuel comp,
  zip s k t -> ordered s (inorder (plug k t)) -> (height t <= fuel)%nat -> hole_for s (key_value k0) k comp ->
  (exists a p c, search cmp fuel k0 (above k) comp (root t) s = Some ((Some a, p, c), s) /\
    a ∈ inorder t /\ value_at s a = key_value k0) \/
  (exists k' c, search cmp fuel k0 (above k) comp (root t) s = Some ((None, above k', c), s) /\
    plug k' Leaf = plug k t /\ hole_for s (key_value k0) k' c).
Proof.
  intros H0. induction t as [|c l IHl a r IHr]; intros k fuel comp Hz Ho Hf Hh.
  - right. exists k, comp. by destruct fuel.
  - destruct fuel as [|fuel]; cbn in Hf; [lia|]. destruct (ordered_node _ _ _ _ _ _ Ho) as (Ha & Hl & Hr).
    destruct (compare_at s k0 a H0 Ha) as (x & z & Ex & Ez & Hs). change (Node c l a r) with (bnode L c l a r) in Hz.
    pose proof (zip_entry _ _ _ _ _ _ _ Hz) as Ea. cbn [search root]. step (deref_at a x s Ex).
    step (run_lift _ z s Ez). destruct (Z.ltb_spec z 0) as [Hz0|Hz0]; [|destruct (Z.ltb_spec 0 z) as [Hz1|Hz1]].
    + step (run_child L a _ s Ea). rewrite child_near.
      destruct (IHl (Frame L c a r :: k) fuel z) as [(b & p & c' & E & Hb & Hv)|(k' & c' & E & Ep & Hh')];
        [by rewrite <- zip_down|done|lia|apply (hole_go_left _ _ _ _ _ _ comp); (done || lia)| |].
      * left. exists b, p, c'. split; [exact E|]. split; [|done]. cbn. rewrite elem_of_app. by left.
      * right. by exists k', c'.
    + step (run_child R a _ s Ea). change (entry_child R (node_entry L c (root l) (root r) (above k))) with (root r).
      destruct (IHr (Frame R c a l :: k) fuel z) as [(b & p & c' & E & Hb & Hv)|(k' & c' & E & Ep & Hh')];
        [by apply (zip_down _ R)|done|lia|apply (hole_go_right _ _ _ _ _ _ comp); (done || lia)| |].
      * left. exists b, p, c'. split; [exact E|]. split; [|done]. cbn. rewrite elem_of_app, elem_of_cons. by right; right.
      * right. by exists k', c'.
    + left. exists a, (above k), z. split; [done|]. split; [|lia]. cbn. rewrite elem_of_app, elem_of_cons. by right; left.
Qed.

(** ** What is found *)

(** The element with the value [v]. *)
Definition with_value s (v : Z) (l : list positive) : option positive := find (fun a => value_at s a =? v) l.

Lemma with_value_none s v l1 l2 : Forall (fun a => value_at s a < v) l1 -> Forall (fun a => v < value_at s a) l2 ->
  with_value s v (l1 ++ l2) = None.
Proof.
  intros H1 H2. assert (Forall (fun a => value_at s a <> v) (l1 ++ l2)) as Hf.
  { apply Forall_app. split; eapply Forall_impl; [exact H1| |exact H2|]; cbn; lia. }
  induction Hf as [|a l Ha Hl IH]; [done|]. unfold with_value. cbn. by rewrite (proj2 (Z.eqb_neq _ _)).
Qed.

Lemma with_value_some s a l : ordered s l -> a ∈ l -> with_value s (value_at s a) l = Some a.
Proof.
  intros [_ Ho] Ha. induction Ho as [|b l Hl IH Hb]; [by apply elem_of_nil in Ha|]. unfold with_value. cbn.
  apply elem_of_cons in Ha as [->|Ha]; [by rewrite Z.eqb_refl|]. rewrite Forall_forall in Hb. specialize (Hb a Ha).
  rewrite (proj2 (Z.eqb_neq _ _)) by lia. by apply IH.
Qed.

Lemma hole_top s v : hole_for s v [] 0.
Proof. by split. Qed.

Lemma find_run s l (k : K) : search_tree s l -> key_ok k -> RB_FIND cmp k s = Some (with_value s (key_value k) l, s).
Proof.
  intros (t & Hz & _ & <- & Ho) Hk. unfold RB_FIND. step (run_gets _ _). step (run_gets _ _).
  pose proof (zip_fuel _ _ _ Hz) as Hf. pose proof Hz as (Hr & _). rewrite Hr.
  destruct (search_zip s k t Hk [] (fuel_of s) 0 Hz Ho) as [(a & p & c & E & Ha & Hv)|(k' & c & E & Ep & Hh)];
    [lia|apply hole_top| |].
  - cbn in E |- *. step E. by rewrite <- Hv, with_value_some.
  - cbn in E |- *. step E. cbn in Ep. rewrite <- Ep, inorder_plug_split, with_value_none; [done|apply Hh|apply Hh].
Qed.

(** ** What is put in *)

Lemma ordered_insert s l1 l2 a : ordered s (l1 ++ l2) -> keyed s a -> Forall (fun b => value_at s b < value_at s a) l1 ->
  Forall (fun b => value_at s a < value_at s b) l2 -> ordered s (l1 ++ a :: l2).
Proof.
  intros [Hk Ho] Ha H1 H2. apply Forall_app in Hk as [? ?]. split; [by apply Forall_app; split; [|constructor]|].
  apply StronglySorted_app in Ho as (Hx & Ho1 & Ho2). apply StronglySorted_app. split; [|by split; [|constructor]].
  intros b c Hb Hc. apply elem_of_cons in Hc as [->|Hc]; [|by apply Hx]. by apply (proj1 (Forall_forall _ _) H1).
Qed.

(** An element is put in its place, unless one with its value is there. *)
Lemma insert_run s l a x : search_tree s l -> elements s !! a = Some x -> key_ok (elm_key x) -> a ∉ l ->
  (exists b, RB_INSERT cmp a s = Some (Some b, s) /\ with_value s (value_at s a) l = Some b) \/
  (exists s' l1 l2, RB_INSERT cmp a s = Some (None, s') /\ l = l1 ++ l2 /\ search_tree s' (l1 ++ a :: l2) /\
    same_rest s s' /\ with_value s (value_at s a) l = None).
Proof.
  intros (t & Hz & (Hc & n & Hb) & <- & Ho) Ex Hk Ha.
  assert (key_value (elm_key x) = value_at s a) as Hv by (unfold value_at; by rewrite Ex).
  unfold RB_INSERT. pose proof (zip_fuel _ _ _ Hz) as Hf. pose proof Hz as (Hr & _). 
  destruct (search_zip s (elm_key x) t Hk [] (fuel_of s) 0 Hz Ho) as [(b & p & c & E & Hb' & Hv')|(k' & c & E & Ep & Hh)];
    [lia|apply hole_top| |].
  - left. exists b. split; [|rewrite <- Hv, <- Hv'; by apply with_value_some].
    step (deref_at a x s Ex). step (run_gets _ _). step (run_gets _ _). rewrite Hr. cbn in E |- *. by step E.
  - right. cbn in Ep. rewrite <- Ep in Ha, Ho, Hb. rewrite inorder_plug_split in Ha, Ho. cbn in Ha, Ho.
    apply not_elem_of_app in Ha as [Ha1 Ha2]. destruct (plug_fits k' Leaf n Hb) as (m & Hk' & Hm & _); [by rewrite Ep|].
    assert (zip s k' Leaf) as Hz' by (apply zip_plug; by rewrite Ep).
    destruct (attach_zip s k' a Hz') as (s1 & E1 & Z1 & R1); [unfold entry; rewrite Ex; by eexists| |].
    { rewrite <- (inorder_context k'). by apply not_elem_of_app. }
    inversion Hm. subst m. destruct (insert_color_top s1 k' a Z1 Hk') as (s2 & t2 & E2 & H2 & R2 & Ei & B2).
    pose proof (same_rest_trans _ _ _ R1 R2) as HR. rewrite inorder_plug_split in Ei. cbn in Ei.
    exists s2, (left_of k'), (right_of k'). split_and!; [|by rewrite <- Ep, inorder_plug_split| |done|].
    + step (deref_at a x s Ex). step (run_gets _ _). step (run_gets _ _). rewrite Hr. cbn in E |- *. step E.
      cbn beta iota. assert (match above k' with
        | Some _ => set_child (if c <? 0 then L else R) (above k') (Some a)
        | None => modify (set_root (Some a)) end = match above k' with
        | Some _ => set_child (match k' with f :: _ => f_side f | [] => L end) (above k') (Some a)
        | None => modify (set_root (Some a)) end) as -> by (destruct k' as [|f k']; [done|]; cbn; by rewrite (hole_side _ _ _ _ Hh f)).
      rewrite (run_seq _ _ _ _ _ E1). by step E2.
    + exists t2. split; [done|]. split; [done|]. split; [done|]. apply (ordered_rest s); [done|].
      apply ordered_insert; [done|by exists x|rewrite <- Hv; apply Hh|rewrite <- Hv; apply Hh].
    + rewrite <- Ep, inorder_plug_split. rewrite <- Hv. apply with_value_none; apply Hh.
Qed.
End Order.
