(* ===== verification/RbRemove.v ===== *)
(** * RbRemove: taking an element out of a red-black tree

    [RB_REMOVE_COLOR] restores the balance of a tree in which one way down has
    a black node too few. *)
From S2P Require Import Prelude Effects RbTree RbShape RbInsert.

Definition paint (c : rb_color) (t : tree) : tree := match t with Leaf => Leaf | Node _ l a r => Node c l a r end.

Lemma paint_bnode d sd c l a r : paint d (bnode sd c l a r) = bnode sd d l a r.
Proof. by destruct sd. Qed.
Lemma inorder_paint d t : inorder (paint d t) = inorder t.
Proof. by destruct t. Qed.
Lemma paint_black_id t : color t = RB_BLACK -> paint RB_BLACK t = t.
Proof. destruct t; [done|]. by intros [= ->]. Qed.

Ltac inorder_by_sides sd := destruct sd; cbn; by rewrite <- ?app_assoc; cbn; rewrite <- ?app_assoc.

Lemma inorder_last_red sd c t p A w B1 b B2 :
  inorder (bnode sd c (bnode sd RB_BLACK t p A) w (bnode sd RB_BLACK B1 b B2)) =
  inorder (bnode sd c t p (bnode sd RB_BLACK A w (bnode sd RB_RED B1 b B2))).
Proof. inorder_by_sides sd. Qed.

Lemma inorder_last_black sd c t p A1 a A2 w B :
  inorder (bnode sd c (bnode sd RB_BLACK t p A1) a (bnode sd RB_BLACK A2 w B)) =
  inorder (bnode sd c t p (bnode sd RB_BLACK (bnode sd RB_RED A1 a A2) w B)).
Proof. inorder_by_sides sd. Qed.

(** A subtree with one black node too few, which it gets when it is red and is
    painted black. *)
Definition short (n : nat) (t : tree) : Prop :=
  color t = RB_BLACK /\ balanced n t \/ color t = RB_RED /\ balanced (S n) (paint RB_BLACK t).

Section Remove.
Context {K : Type}.
Implicit Types s : RB_HEAD K.

Lemma run_color_zip s k sd c l a r : zip s k (bnode sd c l a r) -> RB_COLOR (Some a) s = Some (c, s).
Proof. intros Hz. rewrite (run_color a _ s (zip_entry _ _ _ _ _ _ _ Hz)). by rewrite color_node. Qed.

Lemma zip_far s sd c p sib k t : zip s (Frame sd c p sib :: k) t -> RB_CHILD (opp sd) (Some p) s = Some (root sib, s).
Proof. intros Hz. rewrite (run_child _ p _ s (zip_above _ _ _ _ _ _ _ Hz)). by rewrite child_far. Qed.

Lemma bnode_opp_eq sd c l a r : bnode sd c l a r = bnode (opp sd) c r a l.
Proof. by rewrite bnode_opp. Qed.

(** Painting the sibling. *)
Lemma paint_sibling s sd c p sdw d e A w B k t : zip s (Frame sd c p (bnode sdw d A w B) :: k) t ->
  exists s', set_color (Some w) e s = Some (tt, s') /\ zip s' (Frame sd c p (bnode sdw e A w B) :: k) t /\ same_rest s s'.
Proof.
  intros Hz. rewrite zip_swap in Hz. destruct (paint_zip _ _ _ _ e _ _ _ Hz) as (s1 & E1 & Z1 & R1).
  exists s1. rewrite zip_swap, opp_opp in Z1. done.
Qed.

Lemma paint_above s sd c d p sib k t : zip s (Frame sd c p sib :: k) t ->
  exists s', set_color (Some p) d s = Some (tt, s') /\ zip s' (Frame sd d p sib :: k) t /\ same_rest s s'.
Proof.
  intros Hz. rewrite <- zip_down in Hz. destruct (paint_zip _ _ _ _ d _ _ _ Hz) as (s1 & E1 & Z1 & R1).
  exists s1. by rewrite zip_down in Z1.
Qed.

Lemma sibling_up_red s sd p A w B k t : zip s (Frame sd RB_BLACK p (bnode sd RB_RED A w B) :: k) t ->
  exists s', sibling_up sd (Some p) (Some w) s = Some (root A, s') /\
    zip s' (Frame sd RB_RED p A :: Frame sd RB_BLACK w B :: k) t /\ same_rest s s'.
Proof.
  intros Hz. destruct (paint_sibling _ _ _ _ _ _ RB_BLACK _ _ _ _ _ Hz) as (s1 & E1 & Z1 & R1).
  destruct (paint_above _ _ _ RB_RED _ _ _ _ Z1) as (s2 & E2 & Z2 & R2). rewrite <- zip_down in Z2.
  destruct (rotate_zip _ _ _ _ _ _ _ _ _ _ Z2) as (s3 & E3 & Z3 & R3). rewrite !zip_down in Z3.
  exists s3. split; [|split; [done|by eauto using same_rest_trans]]. unfold sibling_up, RB_SET_BLACKRED.
  pose proof Hz as Hw. rewrite zip_swap in Hw. step (run_color_zip _ _ _ _ _ _ _ Hw). rewrite decide_True by done.
  rewrite (run_bind _ _ s tt s2) by (by step E1). step E3. apply (zip_far _ _ _ _ _ _ _ Z3).
Qed.

Lemma sibling_up_black s sd c p A w B k t : zip s (Frame sd c p (bnode sd RB_BLACK A w B) :: k) t ->
  sibling_up sd (Some p) (Some w) s = Some (Some w, s).
Proof.
  intros Hz. unfold sibling_up. rewrite zip_swap in Hz. step (run_color_zip _ _ _ _ _ _ _ Hz). by rewrite decide_False.
Qed.

Lemma far_up_red s sd c p A w B k t : zip s (Frame sd c p (bnode sd RB_BLACK A w B) :: k) t -> color B = RB_RED ->
  far_up sd (Some p) (Some w) s = Some (Some w, s).
Proof.
  intros Hz Hc. rewrite zip_swap in Hz. unfold far_up. rewrite zip_down in Hz. step (zip_far _ _ _ _ _ _ _ Hz).
  rewrite zip_swap in Hz. step (run_null_or_black _ _ _ Hz). by rewrite bool_decide_false by (by rewrite Hc).
Qed.

Lemma far_up_black s sd c p A1 a A2 w B k t :
  zip s (Frame sd c p (bnode sd RB_BLACK (bnode sd RB_RED A1 a A2) w B) :: k) t -> color B = RB_BLACK ->
  exists s', far_up sd (Some p) (Some w) s = Some (Some a, s') /\
    zip s' (Frame sd c p (bnode sd RB_BLACK A1 a (bnode sd RB_RED A2 w B)) :: k) t /\ same_rest s s'.
Proof.
  intros Hz Hc. pose proof Hz as Hw. rewrite zip_swap, zip_down in Hw. unfold far_up. step (zip_far _ _ _ _ _ _ _ Hw).
  pose proof Hw as HB. rewrite zip_swap in HB. step (run_null_or_black _ _ _ HB). rewrite bool_decide_true by done.
  step (run_child sd w _ s (zip_above _ _ _ _ _ _ _ Hw)). rewrite child_near, root_bnode.
  destruct (paint_zip _ _ _ _ RB_BLACK _ _ _ Hw) as (s1 & E1 & Z1 & R1). step E1.
  destruct (paint_above _ _ _ RB_RED _ _ _ _ Z1) as (s2 & E2 & Z2 & R2). step E2.
  rewrite <- zip_down, (bnode_opp_eq sd RB_RED), (bnode_opp_eq sd RB_BLACK) in Z2.
  destruct (rotate_zip _ _ _ _ _ _ _ _ _ _ Z2) as (s3 & E3 & Z3 & R3). step E3.
  rewrite zip_swap, opp_opp, !bnode_opp in Z3. exists s3. split; [|split; [done|by eauto using same_rest_trans]].
  rewrite (zip_far _ _ _ _ _ _ _ Z3). by rewrite root_bnode.
Qed.

Lemma remove_last_run s sd c p A w b B1 B2 k t :
  zip s (Frame sd c p (bnode sd RB_BLACK A w (bnode sd RB_RED B1 b B2)) :: k) t ->
  exists s', remove_last sd (Some p) (Some w) s = Some (tt, s') /\
    zip s' k (bnode sd c (bnode sd RB_BLACK t p A) w (bnode sd RB_BLACK B1 b B2)) /\ same_rest s s'.
Proof.
  intros Hz. unfold remove_last. pose proof Hz as Hp. rewrite <- zip_down in Hp. step (run_color_zip _ _ _ _ _ _ _ Hp).
  destruct (paint_sibling _ _ _ _ _ _ c _ _ _ _ _ Hz) as (s1 & E1 & Z1 & R1). step E1.
  destruct (paint_above _ _ _ RB_BLACK _ _ _ _ Z1) as (s2 & E2 & Z2 & R2). step E2.
  pose proof Z2 as Hw. rewrite zip_swap, zip_down in Hw. step (zip_far _ _ _ _ _ _ _ Hw). rewrite root_bnode.
  rewrite zip_swap in Hw. destruct (paint_zip _ _ _ _ RB_BLACK _ _ _ Hw) as (s3 & E3 & Z3 & R3). step E3.
  rewrite zip_swap, opp_opp, <- zip_down, zip_swap, opp_opp, <- zip_down in Z3.
  destruct (rotate_zip _ _ _ _ _ _ _ _ _ _ Z3) as (s4 & E4 & Z4 & R4).
  exists s4. split; [exact E4|]. split; [done|]. by eauto 6 using same_rest_trans.
Qed.

(** [m] ends with a node to paint black, which makes the tree a balanced one of
    the nodes [l]; the rest of the elements is as before. *)
Definition repainted (m : M (RB_HEAD K) (option positive)) (l : list positive) s : Prop :=
  exists s' k t, m s = Some (root t, s') /\ zip s' k t /\ same_rest s s' /\
    inorder (plug k t) = l /\ red_black (plug k (paint RB_BLACK t)).

Lemma repainted_step (m1 m : M (RB_HEAD K) (option positive)) l l1 s s1 :
  m s = m1 s1 -> same_rest s s1 -> l1 = l -> repainted m1 l1 s1 -> repainted m l s.
Proof.
  intros E R1 -> (s2 & k & t & E2 & Z2 & R2 & Ht). exists s2, k, t. rewrite E. split; [done|]. split; [done|].
  split; [by eapply same_rest_trans|done].
Qed.

(** What [remove_color] does with a black sibling. *)
Definition sibling_black (n : nat) (sd : side) (parent tmp : option positive) : M (RB_HEAD K) (option positive) :=
  near ← RB_CHILD sd tmp;
  near_black ← null_or_black near;
  far ← RB_CHILD (opp sd) tmp;
  both_black ← (if (near_black : bool) then null_or_black far else mret false);
  if (both_black : bool) then
    set_color tmp RB_RED;;
    parent' ← RB_PARENT parent;
    remove_color n parent' parent
  else
    tmp ← far_up sd parent tmp;
    remove_last sd parent tmp;;
    gets rbh_root.

Section Sibling.
Variables (s : RB_HEAD K) (sd : side) (c : rb_color) (p w : positive) (A B t : tree) (k : context) (fuel : nat).
Hypothesis Hz : zip s (Frame sd c p (bnode sd RB_BLACK A w B) :: k) t.

Let Hw : zip s (Frame sd RB_BLACK w B :: Frame (opp sd) c p t :: k) A.
Proof. rewrite zip_swap, zip_down in Hz. exact Hz. Qed.

Lemma sibling_black_start : sibling_black fuel sd (Some p) (Some w) s =
  (if bool_decide (color A = RB_BLACK) && bool_decide (color B = RB_BLACK) then
     set_color (Some w) RB_RED;; parent' ← RB_PARENT (Some p); remove_color fuel parent' (Some p)
   else tmp ← far_up sd (Some p) (Some w); remove_last sd (Some p) tmp;; gets rbh_root) s.
Proof.
  unfold sibling_black. step (run_child sd w _ s (zip_above _ _ _ _ _ _ _ Hw)). rewrite child_near.
  step (run_null_or_black _ _ _ Hw). step (zip_far _ _ _ _ _ _ _ Hw).
  destruct (bool_decide (color A = RB_BLACK)); [|done]. pose proof Hw as HB. rewrite zip_swap in HB.
  by step (run_null_or_black _ _ _ HB).
Qed.

Lemma sibling_both_black : color A = RB_BLACK -> color B = RB_BLACK ->
  exists s', sibling_black fuel sd (Some p) (Some w) s = remove_color fuel (above k) (Some p) s' /\
    zip s' k (bnode sd c t p (bnode sd RB_RED A w B)) /\ same_rest s s'.
Proof.
  intros HA HB. rewrite sibling_black_start, !bool_decide_true by done. cbn [andb].
  destruct (paint_sibling _ _ _ _ _ _ RB_RED _ _ _ _ _ Hz) as (s1 & E1 & Z1 & R1). exists s1. step E1.
  step (run_parent p _ s1 (zip_above _ _ _ _ _ _ _ Z1)). rewrite parent_node. split; [done|]. by rewrite zip_down.
Qed.

Lemma sibling_last n : ~ (color A = RB_BLACK /\ color B = RB_BLACK) -> balanced n A -> balanced n B ->
  exists s' A' w' B', sibling_black fuel sd (Some p) (Some w) s = Some (rbh_root s', s') /\
    zip s' k (bnode sd c (bnode sd RB_BLACK t p A') w' B') /\ same_rest s s' /\
    balanced n A' /\ balanced (S n) B' /\ color B' = RB_BLACK /\
    inorder (bnode sd c (bnode sd RB_BLACK t p A') w' B') = inorder (bnode sd c t p (bnode sd RB_BLACK A w B)).
Proof.
  intros Hc HA HB. rewrite sibling_black_start.
  assert (bool_decide (color A = RB_BLACK) && bool_decide (color B = RB_BLACK) = false) as -> by
    (rewrite <- bool_decide_and; by apply bool_decide_false).
  destruct (color B) eqn:EB.
  - destruct (color A) eqn:EA; [naive_solver|]. destruct (as_bnode sd A) as (d & A1 & a & A2 & ->); [by intros ->|].
    rewrite color_bnode in EA. subst d. apply balanced_bnode in HA as (m & H1 & H2 & Hn & Hred).
    rewrite decide_False in Hn by done. subst m. destruct Hred as [? ?]; [done|].
    destruct (far_up_black _ _ _ _ _ _ _ _ _ _ _ Hz EB) as (s1 & E1 & Z1 & R1). step E1.
    destruct (remove_last_run _ _ _ _ _ _ _ _ _ _ _ Z1) as (s2 & E2 & Z2 & R2). step E2.
    exists s2, A1, a, (bnode sd RB_BLACK A2 w B). split; [done|]. split; [done|]. split; [by eapply same_rest_trans|].
    split; [done|]. split; [by apply bnode_black|]. split; [apply color_bnode|]. apply inorder_last_black.
  - destruct (as_bnode sd B) as (d & B1 & b & B2 & ->); [by intros ->|]. rewrite color_bnode in EB. subst d.
    apply balanced_bnode in HB as (m & H1 & H2 & Hn & Hred). rewrite decide_False in Hn by done. subst m.
    step (far_up_red _ _ _ _ _ _ _ _ _ Hz (color_bnode _ _ _ _ _)).
    destruct (remove_last_run _ _ _ _ _ _ _ _ _ _ _ Hz) as (s2 & E2 & Z2 & R2). step E2.
    exists s2, A, w, (bnode sd RB_BLACK B1 b B2). split; [done|]. split; [done|]. split; [done|].
    split; [done|]. split; [by apply bnode_black|]. split; [apply color_bnode|].
    apply inorder_last_red.
Qed.
End Sibling.

(** Where a node of color [c] over subtrees with [S n] black nodes fits. *)
Definition place (c : rb_color) (n : nat) (k : context) : Prop :=
  match c with RB_RED => fits (S n) k /\ takes_red k | RB_BLACK => fits (S (S n)) k end.

Definition enough (fuel : nat) (t : tree) (k : context) : Prop :=
  color t = RB_RED /\ (0 < fuel)%nat \/ (length k < fuel)%nat.

Definition recolors (fuel : nat) : Prop := forall s k t n,
  zip s k t -> short n t -> fits (S n) k -> enough fuel t k ->
  repainted (remove_color fuel (above k) (root t)) (inorder (plug k t)) s.

Lemma short_bnode n sd c t p A w B : balanced n t -> color t = RB_BLACK -> balanced n A -> balanced n B ->
  color A = RB_BLACK -> color B = RB_BLACK ->
  short (if decide (c = RB_BLACK) then S n else n) (bnode sd c t p (bnode sd RB_RED A w B)).
Proof.
  intros Ht Hc HA HB HAc HBc. pose proof (bnode_red n sd A w B HA HB HAc HBc) as Hw. destruct c.
  - rewrite decide_True by done. left. split; [apply color_bnode|by apply bnode_black].
  - rewrite decide_False by done. right. rewrite paint_bnode. split; [apply color_bnode|by apply bnode_black].
Qed.

Lemma sibling_black_ends fuel s sd c p w A B k t n : recolors fuel ->
  zip s (Frame sd c p (bnode sd RB_BLACK A w B) :: k) t -> balanced n t -> color t = RB_BLACK ->
  balanced n A -> balanced n B -> place c n k -> (c = RB_RED /\ (0 < fuel)%nat \/ (length k < fuel)%nat) ->
  repainted (sibling_black fuel sd (Some p) (Some w)) (inorder (plug k (bnode sd c t p (bnode sd RB_BLACK A w B)))) s.
Proof.
  intros IH Hz Ht Htc HA HB Hp Hf.
  destruct (decide (color A = RB_BLACK /\ color B = RB_BLACK)) as [[HAc HBc]|Hc].
  - destruct (sibling_both_black _ _ _ _ _ _ _ _ _ fuel Hz HAc HBc) as (s1 & E1 & Z1 & R1).
    eapply repainted_step; [exact E1|exact R1|..].
    2: rewrite <- (root_bnode sd c t p (bnode sd RB_RED A w B));
       apply (IH s1 k _ (if decide (c = RB_BLACK) then S n else n) Z1); [by apply short_bnode| |].
    + apply inorder_plug. by destruct sd.
    + destruct c; [rewrite decide_True by done; exact Hp|rewrite decide_False by done; apply Hp].
    + unfold enough. by rewrite color_bnode.
  - destruct (sibling_last _ _ _ _ _ _ _ _ _ fuel Hz n Hc HA HB) as (s1 & A' & w' & B' & E1 & Z1 & R1 & HA' & HB' & HBc & Ei).
    assert (red_black (plug k (bnode sd c (bnode sd RB_BLACK t p A') w' B'))) as Hrb.
    { destruct c; cbn in Hp.
      - eapply fits_plug; [exact Hp|apply bnode_black; [by apply bnode_black|done]|left; apply color_bnode].
      - eapply fits_plug; [apply Hp|apply bnode_red; [by apply bnode_black|done|apply color_bnode|done]|by right; apply Hp]. }
    exists s1, [], (plug k (bnode sd c (bnode sd RB_BLACK t p A') w' B')). pose proof Z1 as Z. apply zip_plug in Z.
    rewrite E1. split; [do 2 f_equal; exact (proj1 Z)|]. split; [exact Z|]. split; [done|]. split; [by apply (inorder_plug k)|].
    cbn. by rewrite paint_black_id by apply Hrb.
Qed.

(** A subtree below the root is not the root. *)
Lemma top_in f k p : exists b, top (f :: k) p = Some b /\ b ∈ context_addrs (f :: k).
Proof.
  revert f p. induction k as [|g k IH]; intros [sd c a sib] p; rewrite context_addrs_cons.
  - exists a. split; [done|]. by left.
  - rewrite top_cons. destruct (IH g (Some a)) as (b & E & Hb). exists b. split; [exact E|]. right. apply elem_of_app. by right.
Qed.

Lemma zip_not_top s f k t : zip s (f :: k) t -> root t <> rbh_root s.
Proof.
  intros (Hr & Hd & _). rewrite Hr. destruct (top_in f k (root t)) as (b & -> & Hb). intros E%root_in.
  apply NoDup_apart in Hd as (_ & Hd & _). by apply (Hd b).
Qed.

Lemma remove_color_start fuel s sd c p sib k t n : zip s (Frame sd c p sib :: k) t -> color t = RB_BLACK ->
  balanced (S n) sib ->
  remove_color (S fuel) (Some p) (root t) s = (tmp ← sibling_up sd (Some p) (root sib); sibling_black fuel sd (Some p) tmp) s.
Proof.
  intros Hz Hc Hs. cbn [remove_color]. step (run_null_or_black _ _ _ Hz). step (run_gets _ _).
  rewrite !bool_decide_true by (done || by eapply zip_not_top). cbn [andb negb].
  assert (sib <> Leaf) as Hl by (intros ->; inversion Hs).
  destruct (zip_roots _ _ _ _ Hz) as [Hn|[_ ?]]; [|done]. cbn in Hn.
  step (run_child L p _ s (zip_above _ _ _ _ _ _ _ Hz)).
  assert ((if decide (entry_child L (node_entry sd c (root t) (root sib) (above k)) = root t) then L else R) = sd) as ->
    by (destruct sd; cbn; [by rewrite decide_True|by rewrite decide_False]).
  by step (zip_far _ _ _ _ _ _ _ Hz).
Qed.

Lemma remove_color_ends fuel : recolors fuel.
Proof.
  induction fuel as [|fuel IH]; intros s k t n Hz Ht Hk Hf; [destruct Hf; lia|].
  destruct Ht as [[Hc Ht]|[Hc Ht]].
  2: { exists s, k, t. cbn [remove_color]. step (run_null_or_black _ _ _ Hz). rewrite bool_decide_false by (by rewrite Hc).
       step (run_gets _ _). split_and!; try done. eapply fits_plug; [exact Hk|exact Ht|by left; destruct t]. }
  destruct Hf as [[Hc' _]|Hf]; [by rewrite Hc in Hc'|]. destruct k as [|[sd c p sib] k].
  - exists s, [], t. cbn [remove_color]. step (run_null_or_black _ _ _ Hz). step (run_gets _ _).
    rewrite (bool_decide_false (root t <> rbh_root s)) by (rewrite (proj1 Hz); auto). rewrite andb_false_r.
    split_and!; try done. cbn. rewrite paint_black_id by done. split; [done|by exists n].
  - cbn in Hf. assert (balanced (S n) sib /\ place c n k /\ (c = RB_RED -> color sib = RB_BLACK)) as (Hs & Hp & Hred)
      by (inversion Hk; subst; by split_and!).
    destruct (as_bnode sd sib) as (d & A & w & B & ->); [by intros ->; inversion Hs|].
    change (above (Frame sd c p (bnode sd d A w B) :: k)) with (Some p).
    pose proof (remove_color_start fuel _ _ _ _ _ _ _ n Hz Hc Hs) as E. rewrite root_bnode in E.
    apply balanced_bnode in Hs as (m & HA & HB & Hm & Hdred). destruct d.
    + rewrite decide_True in Hm by done. injection Hm as <-.
      rewrite (run_bind _ _ _ _ _ (sibling_up_black _ _ _ _ _ _ _ _ _ Hz)) in E.
      eapply (repainted_step _ _ _ _ _ s); [exact E|done|reflexivity|].
      apply (sibling_black_ends fuel s sd c p w A B k t n); try done. right; lia.
    + rewrite decide_False in Hm by done. subst m. destruct c; [|by rewrite color_bnode in Hred; discriminate Hred].
      destruct Hdred as [HAc HBc]; [done|].
      destruct (sibling_up_red _ _ _ _ _ _ _ _ Hz) as (s1 & E1 & Z1 & R1). rewrite (run_bind _ _ _ _ _ E1) in E.
      destruct (as_bnode sd A) as (d & A1 & a & A2 & ->); [by intros ->; inversion HA|]. rewrite color_bnode in HAc. subst d.
      rewrite root_bnode in E. apply balanced_bnode in HA as (m & HA1 & HA2 & Hm & _). rewrite decide_True in Hm by done.
      injection Hm as <-. eapply repainted_step; [exact E|exact R1| |].
      2: { apply (sibling_black_ends fuel s1 sd RB_RED p a A1 A2 (Frame sd RB_BLACK w B :: k) t n); try done.
           - split; [by constructor|done].
           - left; split; [done|lia]. }
      apply (inorder_plug k (close (Frame sd RB_BLACK w B) _) (close _ t)). symmetry. apply inorder_rotate.
Qed.

(** The result of an operation that leaves a red-black tree of [l]. *)
Definition rebalanced (s s' : RB_HEAD K) (l : list positive) : Prop :=
  exists t, holds s' t /\ red_black t /\ inorder t = l /\ same_rest s s'.

Lemma remove_color_run s k t n : zip s k t -> short n t -> fits (S n) k ->
  exists s', RB_REMOVE_COLOR (above k) (root t) s = Some (tt, s') /\ rebalanced s s' (inorder (plug k t)).
Proof.
  intros Hz Ht Hk. pose proof (zip_fuel _ _ _ Hz) as Hf.
  destruct (remove_color_ends (fuel_of s) s k t n Hz Ht Hk) as (s1 & k1 & t1 & E1 & Z1 & R1 & Ei & Hrb); [right; lia|].
  unfold RB_REMOVE_COLOR. step (run_gets _ _). step E1. destruct t1 as [|c l a r].
  - exists s1. split; [done|]. exists (plug k1 Leaf). split; [by apply zip_plug|done].
  - change (Node c l a r) with (bnode L c l a r) in *. destruct (paint_zip _ _ _ _ RB_BLACK _ _ _ Z1) as (s2 & E2 & Z2 & R2).
    exists s2. split; [exact E2|]. exists (plug k1 (bnode L RB_BLACK l a r)). split; [by apply zip_plug|].
    split; [done|]. split; [|by eapply same_rest_trans]. rewrite <- Ei. by apply inorder_plug.
Qed.

Lemma splice_zip s k sd c a t : zip s k (bnode sd c Leaf a t) ->
  exists s', splice (Some a) (root t) s = Some ((above k, c), s') /\ zip s' k t /\ same_rest s s' /\
    entry s' a = entry s a.
Proof.
  intros Hz. pose proof (zip_entry _ _ _ _ _ _ _ Hz) as Ea. destruct Hz as (Hr & Hd & Hs).
  unfold pieces in Hs. rewrite entries_bnode, !stored_app, stored_cons, stored_app, root_bnode in Hs.
  destruct Hs as ((_ & _ & Ht) & Hk). rewrite root_bnode in Hr. distinct Hd.
  set (s1 := reparent t (above k) s). assert (stored s1 (context_entries k (Some a))) as Hk1 by (unfold s1; by untouched).
  exists (fill k (root t) s1). split; [|split; [split; [|split]|split]].
  - unfold splice. step (run_parent a _ s Ea). rewrite parent_node. step (run_color a _ s Ea). rewrite color_node.
    step (run_reparent t (above k) s _ Ht). fold s1. step (run_replace k a (root t) s1 ltac:(elsewhere) Hk1). done.
  - apply (root_fill k (Some a)). unfold s1, reparent. by destruct (root t).
  - by apply NoDup_apart.
  - apply stored_app. split; [|by apply (stored_fill k (Some a))]. unfold s1. untouched. by apply (stored_reparent t _ (Some a)).
  - intros b. unfold s1. by rewrite rest_fill, rest_reparent.
  - unfold s1. by rewrite entry_fill, entry_reparent.
Qed.

Lemma take_place_zip s k c l a r e : zip s k (bnode L c l a r) -> l <> Leaf -> is_Some (entry s e) ->
  e ∉ a :: addrs l ++ addrs r ++ context_addrs k ->
  exists s', take_place (Some a) (Some e) s = Some (tt, s') /\ zip s' k (bnode L c l e r) /\ same_rest s s'.
Proof.
  intros Hz Hl He Hne. pose proof (zip_entry _ _ _ _ _ _ _ Hz) as Ea. destruct Hz as (Hr & Hd & Hs).
  unfold pieces in Hs. rewrite entries_bnode, !stored_app, stored_cons, stored_app, root_bnode in Hs.
  destruct Hs as ((_ & HsL & HsR) & Hk). rewrite root_bnode in Hr.
  assert (NoDup (addrs (bnode L c l e r) ++ context_addrs k)) as Hd'.
  { rewrite addrs_bnode in Hd |- *. cbn [app] in Hd |- *. rewrite <- app_assoc in Hd |- *.
    apply NoDup_cons in Hd as [_ Hd]. apply not_elem_of_cons in Hne as [_ Hne]. by constructor. }
  generalize Hd'. distinct Hd. intros Hnew.
  set (s1 := upd e (fun _ => node_entry L c (root l) (root r) (above k)) s). set (s2 := fill k (Some e) s1).
  set (s3 := reparent l (Some e) s2). exists (reparent r (Some e) s3).
  assert (entry s2 a = Some (node_entry L c (root l) (root r) (above k))) as E2 by (unfold s2, s1; entry_of; done).
  assert (entry s3 a = Some (node_entry L c (root l) (root r) (above k))) as E3 by (unfold s3; entry_of; done).
  split; [|split; [split; [|split]|]].
  - unfold take_place. pose proof Ea as Ea'. unfold entry in Ea'. destruct (elements s !! a) as [x|] eqn:Ex; [|done]. injection Ea' as Ea'.
    step (deref_at a x s Ex). rewrite Ea'. step (run_store e _ s He). fold s1.
    assert (entry s1 a = Some (node_entry L c (root l) (root r) (above k))) as E1 by (unfold s1; entry_of; done).
    step (run_parent a _ s1 E1). rewrite parent_node.
    step (run_replace k a (Some e) s1 ltac:(elsewhere) ltac:(unfold s1; untouched; done)). fold s2.
    step (run_child L a _ s2 E2). rewrite child_near.
    assert (stored s2 (entries (Some a) l)) as Hl2 by (unfold s2, s1; by untouched).
    pose proof (run_reparent l (Some e) s2 (Some a) Hl2) as El. destruct (root l) eqn:Erl; [|by destruct l].
    cbn [unless_null] in El. step El. fold s3. step (run_child R a _ s3 E3).
    apply (run_reparent r (Some e) s3 (Some a)). unfold s3, s2, s1. by untouched.
  - rewrite root_bnode. unfold s3, reparent. assert (rbh_root s2 = top k (Some e)) as Hr2 by (by apply (root_fill k (Some a))).
    by destruct (root r), (root l).
  - done.
  - unfold pieces. rewrite entries_bnode, !stored_app, stored_cons, stored_app, root_bnode. unfold s3, s2, s1. split_and!.
    + destruct He as [en He]. entry_of. done.
    + apply stored_reparent_ne; [intros ? ?%root_in; elsewhere|]. apply (stored_reparent l _ (Some a)); [done|]. by untouched.
    + apply (stored_reparent r _ (Some a)); [done|]. by untouched.
    + untouched. apply (stored_fill k (Some a)); [done|]. by untouched.
  - intros b. unfold s3, s2, s1. by rewrite 2!rest_reparent, rest_fill, rest_upd.
Qed.

(** ** The next element takes its place *)

Lemma plug_app k1 k t : plug (k1 ++ k) t = plug k (plug k1 t).
Proof. revert t. induction k1 as [|f k1 IH]; intros t; [done|]. apply IH. Qed.

Lemma zip_app s k1 k t : zip s (k1 ++ k) t <-> zip s k (plug k1 t).
Proof. by rewrite <- !zip_plug, plug_app. Qed.

(** The way down to the left. *)
Lemma outermost_zip s t : forall k fuel, zip s k t -> t <> Leaf -> (height t <= fuel)%nat ->
  exists k1 c e er, t = plug k1 (bnode L c Leaf e er) /\ left_of k1 = [] /\
    outermost L fuel (root t) s = Some (Some e, s).
Proof.
  induction t as [|c l IHl a r IHr]; intros k fuel Hz Ht Hf; [done|]. destruct fuel as [|fuel]; cbn in Hf; [lia|].
  change (Node c l a r) with (bnode L c l a r) in *. cbn [outermost]. rewrite root_bnode.
  step (run_child L a _ s (zip_entry _ _ _ _ _ _ _ Hz)). rewrite child_near. destruct (root l) as [b|] eqn:El.
  - destruct (IHl (Frame L c a r :: k) fuel) as (k1 & c1 & e & er & E & Hl & Ho);
      [by rewrite <- zip_down|by intros ->|lia|].
    exists (k1 ++ [Frame L c a r]), c1, e, er. split; [by rewrite plug_app, <- E|]. split; [|exact Ho].
    clear -Hl. induction k1 as [|[[] ? ? ?] k1 IH]; cbn in *; [done|by apply IH|]. by apply app_nil in Hl as [_ [_ ?]%app_nil].
  - exists [], c, a, r. by destruct l.
Qed.

Lemma climb_zip s k : forall t fuel, zip s k t -> (length k < fuel)%nat ->
  unless_null (above k) (climb fuel (above k)) s = Some (tt, s).
Proof.
  induction k as [|[sd c a sib] k IH]; intros t fuel Hz Hf; [done|]. cbn [above head fmap option_fmap option_map f_addr unless_null].
  destruct fuel as [|fuel]; cbn in Hf; [lia|]. cbn [climb]. step (run_parent a _ s (zip_above _ _ _ _ _ _ _ Hz)). rewrite parent_node.
  rewrite <- zip_down in Hz. specialize (IH _ fuel Hz ltac:(lia)). by destruct (above k).
Qed.

Lemma fits_rename n k1 sd c a e sib k : fits n (k1 ++ Frame sd c a sib :: k) -> fits n (k1 ++ Frame sd c e sib :: k).
Proof.
  revert n. induction k1 as [|[sd' c' a' sib'] k1 IH]; intros n Hk; cbn in *; inversion Hk; subst; constructor; auto.
  by destruct k1.
Qed.

Lemma balanced_short n t : balanced n t -> short n t.
Proof. intros Ht. inversion Ht; subst; [left|right|left]; split; try done. by constructor. Qed.

(** ** Removing *)

(** After a node of color [c] with the only child [t] was taken out. *)
Lemma remove_rest_run s k sd c a t n : zip s k t -> fits n k -> balanced n (bnode sd c Leaf a t) ->
  c = RB_BLACK \/ takes_red k ->
  exists s', (if decide (c = RB_BLACK) then RB_REMOVE_COLOR (above k) (root t) else mret tt) s = Some (tt, s') /\
    rebalanced s s' (inorder (plug k t)).
Proof.
  intros Hz Hk Hb Hc. apply balanced_bnode in Hb as (m & Hl & Ht & Hn & Hred). inversion Hl. subst m. destruct c.
  - rewrite decide_True in Hn by done. subst n. rewrite decide_True by done. apply (remove_color_run s k t 0 Hz); [by apply balanced_short|done].
  - rewrite decide_False in Hn by done. subst n. rewrite decide_False by done. exists s. split; [done|]. exists (plug k t). split; [by apply zip_plug|].
    split; [|done]. eapply fits_plug; [exact Hk|exact Ht|]. left. by apply Hred.
Qed.

Lemma rebalanced_trans s s1 s2 l : same_rest s s1 -> rebalanced s1 s2 l -> rebalanced s s2 l.
Proof. intros R1 (t & H & Hb & E & R2). exists t. split_and!; try done. by eapply same_rest_trans. Qed.

(** A node with at most one child. *)
Lemma remove_edge s k sd c a t : zip s k (bnode sd c Leaf a t) -> red_black (plug k (bnode sd c Leaf a t)) ->
  exists s', ('(parent, color) ← splice (Some a) (root t);
      (if decide (color = RB_BLACK) then RB_REMOVE_COLOR parent (root t) else mret tt)) s = Some (tt, s') /\
    rebalanced s s' (inorder (plug k t)).
Proof.
  intros Hz (Hc & n & Hb). destruct (plug_fits _ _ _ Hb Hc) as (m & Hk & Hm & Hr). rewrite color_bnode in Hr.
  destruct (splice_zip _ _ _ _ _ _ Hz) as (s1 & E1 & Z1 & R1 & _). step E1.
  destruct (remove_rest_run s1 k sd c a t m Z1 Hk Hm Hr) as (s2 & E2 & B2). exists s2. split; [exact E2|].
  by eapply rebalanced_trans.
Qed.

(** A node with two children. *)
Section Two.
Variables (s : RB_HEAD K) (k : context) (c : rb_color) (l r : tree) (a : positive).
Hypothesis Hz : zip s k (bnode L c l a r).
Hypothesis Hrb : red_black (plug k (bnode L c l a r)).
Hypothesis Hl : l <> Leaf.
Hypothesis Hr : r <> Leaf.

Lemma remove_two : exists s', (
    fuel ← gets fuel_of;
    elm ← outermost L fuel (root r);
    child ← RB_CHILD R elm;
    '(parent, color) ← splice elm child;
    up ← RB_PARENT elm;
    let parent := if decide (up = Some a) then elm else parent in
    take_place (Some a) elm;;
    unless_null parent (climb fuel parent);;
    (if decide (color = RB_BLACK) then RB_REMOVE_COLOR parent child else mret tt)) s = Some (tt, s') /\
  rebalanced s s' (left_of k ++ inorder l ++ inorder r ++ right_of k).
Proof.
  assert (zip s (Frame R c a l :: k) r) as HzR by (by apply (zip_down _ R)).
  pose proof (zip_fuel _ _ _ HzR) as Hf. cbn in Hf.
  destruct (outermost_zip s r _ (fuel_of s) HzR Hr) as (k1 & ce & e & er & Er & Hk1 & Ho); [lia|].
  set (kk := k1 ++ Frame R c a l :: k). assert (zip s kk (bnode L ce Leaf e er)) as Hze by (apply zip_app; by rewrite <- Er).
  step (run_gets _ _). step Ho. step (run_child R e _ s (zip_entry _ _ _ _ _ _ _ Hze)).
  change (entry_child R (node_entry L ce (root Leaf) (root er) (above kk))) with (root er).
  destruct (splice_zip _ _ _ _ _ _ Hze) as (s1 & E1 & Z1 & R1 & Ee). step E1.
  rewrite (zip_entry _ _ _ _ _ _ _ Hze) in Ee. step (run_parent e _ s1 Ee). rewrite parent_node.
  cbn beta iota zeta. unfold kk in Z1. rewrite zip_app in Z1.
  assert (zip s1 k (bnode L c l a (plug k1 er))) as Z1' by (by rewrite (zip_down _ R) in Z1 || by apply (zip_down _ R) in Z1).
  destruct (take_place_zip s1 k c l a (plug k1 er) e Z1' Hl) as (s2 & E2 & Z2 & R2); [by rewrite Ee| |].
  { pose proof Hze as (_ & Hd & _). unfold kk in Hd.
    rewrite addrs_bnode, context_addrs_app, context_addrs_cons in Hd. apply NoDup_cons in Hd as [Hd _]. clear -Hd.
    rewrite addrs_plug. revert Hd. rewrite ?not_elem_of_cons, ?not_elem_of_app, ?not_elem_of_cons, ?not_elem_of_app. tauto. }
  set (kk' := k1 ++ Frame R c e l :: k). assert (zip s2 kk' er) as Z2' by (apply zip_app; by apply (zip_down _ R)).
  assert ((if decide (above kk = Some a) then Some e else above kk) = above kk') as ->.
  { pose proof Hze as (_ & Hd & _). apply NoDup_apart in Hd as (_ & _ & Hd). unfold kk in Hd |- *. rewrite context_addrs_app in Hd.
    unfold kk'. clear -Hd. destruct k1 as [|[sd c1 b sib] k1]; cbn; [by rewrite decide_True|]. rewrite decide_False; [done|].
    intros [= ->]. rewrite !context_addrs_cons in Hd. apply NoDup_cons in Hd as [Hd _]. apply Hd. rewrite ?elem_of_app, elem_of_cons. tauto. }
  step E2. assert (fuel_of s2 = fuel_of s) as <- by (transitivity (fuel_of s1); by apply same_rest_fuel).
  pose proof (zip_fuel _ _ _ Z2') as Hf2. step (climb_zip s2 kk' er (fuel_of s2) Z2' ltac:(lia)).
  assert (plug k (bnode L c l a r) = plug kk (bnode L ce Leaf e er)) as Ep by (unfold kk; by rewrite plug_app, <- Er).
  rewrite Ep in Hrb. destruct Hrb as (Hc & n & Hb). destruct (plug_fits _ _ _ Hb Hc) as (m & Hk & Hm & Hre).
  destruct (remove_rest_run s2 kk' L ce e er m Z2') as (s3 & E3 & B3); [by eapply fits_rename|done| |].
  { rewrite color_bnode in Hre. destruct Hre as [|Hre]; [by left|right]. revert Hre. unfold kk, kk'. by destruct k1. }
  exists s3. split; [exact E3|]. apply (rebalanced_trans s s2); [by eapply same_rest_trans|]. revert B3.
  assert (inorder (plug kk' er) = left_of k ++ inorder l ++ inorder r ++ right_of k) as ->; [|done].
  rewrite Er. unfold kk'. rewrite !inorder_plug_split, left_of_app, right_of_app, Hk1. cbn. rewrite app_nil_r, <- !app_assoc.
  done.
Qed.
End Two.

(** Goes on after the first part of [RB_REMOVE]. *)
Lemma remove_finish (m : M (RB_HEAD K) (option positive * option positive * rb_color)) (a : positive) s s1 s2 parent child color :
  m s = Some (parent, child, color, s1) ->
  (if decide (color = RB_BLACK) then RB_REMOVE_COLOR parent child else mret tt) s1 = Some (tt, s2) ->
  ('(parent, child, color) ← m;
   (if decide (color = RB_BLACK) then RB_REMOVE_COLOR parent child else mret tt);; mret (Some a)) s = Some (Some a, s2).
Proof. intros E1 E2. step E1. by step E2. Qed.

Lemma remove_zip s k c l a r : zip s k (bnode L c l a r) -> red_black (plug k (bnode L c l a r)) ->
  exists s', RB_REMOVE (Some a) s = Some (Some a, s') /\
    rebalanced s s' (left_of k ++ inorder l ++ inorder r ++ right_of k).
Proof.
  intros Hz Hrb. pose proof (zip_entry _ _ _ _ _ _ _ Hz) as Ea. unfold RB_REMOVE.
  step (run_child L a _ s Ea). step (run_child R a _ s Ea).
  change (entry_child L (node_entry L c (root l) (root r) (above k))) with (root l).
  change (entry_child R (node_entry L c (root l) (root r) (above k))) with (root r).
  destruct l as [|cl ll al lr]; [|destruct r as [|cr rl ar rr]].
  - destruct (remove_edge _ _ _ _ _ _ Hz Hrb) as (s1 & E & B1). rewrite inorder_plug_split in B1.
    exists s1. split; [|exact B1]. apply run_bind_inv in E as ([p col] & s0 & E1 & E2).
    eapply remove_finish; [|exact E2]. cbn [root]. by step E1.
  - rewrite <- (bnode_opp L) in Hz, Hrb. destruct (remove_edge _ _ _ _ _ _ Hz Hrb) as (s1 & E & B1).
    rewrite inorder_plug_split in B1. exists s1. split; [|by rewrite app_nil_l].
    apply run_bind_inv in E as ([p col] & s0 & E1 & E2). eapply remove_finish; [|exact E2]. cbn [root] in E1 |- *. by step E1.
  - destruct (remove_two _ _ _ _ _ _ Hz Hrb) as (s1 & E & B1); [done..|]. exists s1. split; [|exact B1].
    apply run_bind_inv in E as (fuel & s2 & E1 & E). apply run_bind_inv in E as (elm & s3 & E2 & E).
    apply run_bind_inv in E as (child & s4 & E3 & E). apply run_bind_inv in E as ([parent color] & s5 & E4 & E).
    apply run_bind_inv in E as (up & s6 & E5 & E). cbn beta iota zeta in E. apply run_bind_inv in E as ([] & s7 & E6 & E).
    apply run_bind_inv in E as ([] & s8 & E7 & E). eapply remove_finish; [|exact E]. cbn [root] in *.
    step E1. step E2. step E3. step E4. step E5. step E6. by step E7.
Qed.
End Remove.
