(* ===== verification/RbMap.v ===== *)
(** * RbMap: a red-black tree is a finite map

    Any sequence of insertions, lookups and removals gives what a finite map
    from the values of the keys to the elements gives, and ends. *)
From stdpp Require Import sorting.
From S2P Require Import Prelude Effects RbTree RbShape RbInsert RbOrder RbRemove.

Lemma node_in t a : a ∈ inorder t -> exists k c l r, t = plug k (bnode L c l a r).
Proof.
  induction t as [|c l IHl b r IHr]; cbn; [by intros ?%elem_of_nil|].
  rewrite elem_of_app, elem_of_cons. intros [Ha|[->|Ha]].
  - destruct (IHl Ha) as (k & c' & l' & r' & ->). exists (k ++ [Frame L c b r]), c', l', r'. by rewrite plug_app.
  - by exists [], c, l, r.
  - destruct (IHr Ha) as (k & c' & l' & r' & ->). exists (k ++ [Frame R c b l]), c', l', r'. by rewrite plug_app.
Qed.

Lemma split_unique {A} (l1 l2 m1 m2 : list A) x : NoDup (l1 ++ x :: l2) ->
  l1 ++ x :: l2 = m1 ++ x :: m2 -> l1 = m1 /\ l2 = m2.
Proof.
  revert m1. induction l1 as [|y l1 IH]; intros [|z m1] Hd E; cbn in *.
  - by injection E.
  - injection E as -> ->. apply NoDup_cons in Hd as [Hd _]. destruct Hd. apply elem_of_app. right. by left.
  - injection E as -> E. apply NoDup_cons in Hd as [Hd _]. destruct Hd. apply elem_of_app. right. by left.
  - injection E as -> E. apply NoDup_cons in Hd as [_ Hd]. destruct (IH m1 Hd E) as [-> ->]. done.
Qed.

Section Map.
Context {K : Type} (cmp : K -> K -> ub Z) `{KeyOrder K cmp}.
Implicit Types s : RB_HEAD K.

Lemma search_tree_NoDup s l : search_tree cmp s l -> NoDup l.
Proof. intros (t & (_ & Hd & _) & _ & <- & _). rewrite inorder_addrs. by apply NoDup_apart in Hd as [? _]. Qed.

Lemma ordered_without s l1 a l2 : ordered cmp s (l1 ++ a :: l2) -> ordered cmp s (l1 ++ l2).
Proof.
  intros [Hk Ho]. apply Forall_app in Hk as [H1 H2]. apply Forall_cons in H2 as [_ H2]. split; [by apply Forall_app|].
  apply StronglySorted_app in Ho as (Hx & H3 & H4). apply StronglySorted_app. split; [|split; [done|]].
  - intros x y Hx1 Hy. apply Hx; [done|]. by right.
  - by apply StronglySorted_cons in H4 as [_ ?].
Qed.

Lemma ordered_around s l1 a l2 : ordered cmp s (l1 ++ a :: l2) ->
  Forall (fun b => value_at cmp s b < value_at cmp s a) l1 /\ Forall (fun b => value_at cmp s a < value_at cmp s b) l2.
Proof.
  intros [_ Ho]. apply StronglySorted_app in Ho as (Hx & _ & Ho). split; [|by apply StronglySorted_cons in Ho as [? _]].
  apply Forall_forall. intros b Hb. apply Hx; [done|]. by left.
Qed.

Lemma remove_run s l1 a l2 : search_tree cmp s (l1 ++ a :: l2) ->
  exists s', RB_REMOVE (Some a) s = Some (Some a, s') /\ search_tree cmp s' (l1 ++ l2) /\ same_rest s s'.
Proof.
  intros Ht. pose proof (search_tree_NoDup _ _ Ht) as Hd. destruct Ht as (t & Hz & Hrb & Ei & Ho).
  destruct (node_in t a) as (k & c & l & r & ->); [rewrite Ei; apply elem_of_app; right; by left|].
  rewrite inorder_plug_split in Ei. cbn in Ei. rewrite app_assoc, <- app_assoc in Ei.
  assert (l1 ++ a :: l2 = (left_of k ++ inorder l) ++ a :: inorder r ++ right_of k) as E.
  { rewrite <- Ei. by rewrite <- !app_assoc. }
  rewrite zip_plug in Hz. destruct (remove_zip _ _ _ _ _ _ Hz Hrb) as (s1 & E1 & t & Ht & Hb & Ei1 & R1).
  exists s1. split; [exact E1|]. split; [|done]. destruct (split_unique _ _ _ _ _ Hd E) as [-> ->].
  exists t. split; [done|]. split; [done|]. split; [by rewrite Ei1, <- app_assoc|].
  apply (ordered_rest cmp s); [done|]. by apply (ordered_without s _ a).
Qed.

(** Allocating and freeing elements that are not in the tree. *)
Lemma search_tree_elements s l (m : gmap positive (element K)) : search_tree cmp s l ->
  (forall a, a ∈ l -> m !! a = elements s !! a) -> search_tree cmp (set_elements m s) l.
Proof.
  intros (t & (Hr & Hd & Hs) & Hb & <- & Hk & Ho) Hm. exists t. split; [|split; [done|split; [done|]]].
  - split; [done|]. split; [done|]. apply Forall_forall. intros [a e] Ha. pose proof (proj1 (Forall_forall _ _) Hs _ Ha) as E.
    unfold entry in *. cbn in *. rewrite Hm; [done|]. rewrite inorder_addrs, <- (app_nil_r (addrs t)). 
    change [] with (context_addrs []). rewrite <- pieces_addrs. apply list_elem_of_fmap. by exists (a, e).
  - split.
    + apply Forall_forall. intros a Ha. destruct (proj1 (Forall_forall _ _) Hk _ Ha) as (x & Ex & Hx). exists x. cbn. by rewrite Hm.
    + assert (forall a, a ∈ inorder t -> value_at cmp (set_elements m s) a = value_at cmp s a) as Hv
        by (intros a Ha; unfold value_at; cbn; by rewrite Hm).
      clear -Ho Hv. induction Ho as [|a l Hl IH Ha]; constructor.
      * apply IH. intros b Hb. apply Hv. by right.
      * apply Forall_forall. intros b Hb. pose proof (proj1 (Forall_forall _ _) Ha _ Hb). rewrite (Hv a (list_elem_of_here _ _)), (Hv b (list_elem_of_further _ _ _ Hb)). done.
Qed.

(** ** Operations and their specification *)

Inductive tree_op :=
| Insert (a : positive) (k : K)    (* a new element with the key [k] *)
| Find (k : K)
| Remove (k : K).                  (* and free the element *)

Definition tree_run (o : tree_op) : M (RB_HEAD K) (option positive) :=
  match o with
  | Insert a k => add_element a k;; RB_INSERT cmp a
  | Find k => RB_FIND cmp k
  | Remove k =>
      found ← RB_FIND cmp k;
      match found with
      | Some a => removed ← RB_REMOVE found; free_element a;; mret removed
      | None => mret None
      end
  end.

Definition map_run (o : tree_op) (m : gmap Z positive) : option positive * gmap Z positive :=
  match o with
  | Insert a k => match m !! key_value k with Some b => (Some b, m) | None => (None, <[key_value k := a]> m) end
  | Find k => (m !! key_value k, m)
  | Remove k => (m !! key_value k, delete (key_value k) m)
  end.

Definition op_key (o : tree_op) : K := match o with Insert _ k | Find k | Remove k => k end.
Definition op_new (o : tree_op) : list positive := match o with Insert a _ => [a] | _ => [] end.

Fixpoint tree_runs (os : list tree_op) : M (RB_HEAD K) (list (option positive)) :=
  match os with [] => mret [] | o :: os => r ← tree_run o; rs ← tree_runs os; mret (r :: rs) end.

Fixpoint map_runs (os : list tree_op) (m : gmap Z positive) : list (option positive) * gmap Z positive :=
  match os with
  | [] => ([], m)
  | o :: os => let '(r, m) := map_run o m in let '(rs, m) := map_runs os m in (r :: rs, m)
  end.

(** The tree has the elements [l] in the order of their keys, and they are those
    of the map. *)
Definition implements s (m : gmap Z positive) : Prop :=
  exists l, search_tree cmp s l /\ forall v, m !! v = with_value cmp s v l.

Lemma with_value_ext s s' v l : (forall a, a ∈ l -> value_at cmp s' a = value_at cmp s a) ->
  with_value cmp s' v l = with_value cmp s v l.
Proof.
  intros Hv. induction l as [|a l IH]; [done|]. unfold with_value in *. cbn. rewrite Hv by (by left).
  case_match; [done|]. apply IH. intros b Hb. apply Hv. by right.
Qed.

Lemma with_value_insert s v l1 a l2 : ordered cmp s (l1 ++ a :: l2) ->
  with_value cmp s v (l1 ++ a :: l2) = if decide (v = value_at cmp s a) then Some a else with_value cmp s v (l1 ++ l2).
Proof.
  intros Ho. case_decide as E.
  - subst v. apply with_value_some; [done|]. apply elem_of_app. right. by left.
  - clear Ho. unfold with_value. induction l1 as [|b l1 IH]; cbn; [by rewrite (proj2 (Z.eqb_neq _ _))|].
    case_match; [done|exact IH].
Qed.

Lemma with_value_split s v l a : with_value cmp s v l = Some a -> exists l1 l2, l = l1 ++ a :: l2 /\ value_at cmp s a = v.
Proof.
  unfold with_value. intros E. apply find_some in E as [Ha Hv]. apply list_elem_of_In, list_elem_of_split in Ha as (l1 & l2 & ->).
  exists l1, l2. split; [done|]. by apply Z.eqb_eq.
Qed.

(** The state in which a new element was allocated. *)
Definition added (a : positive) (k : K) s : RB_HEAD K := set_elements (<[a := new_element k]> (elements s)) s.

Lemma added_tree s l a k : search_tree cmp s l -> elements s !! a = None ->
  search_tree cmp (added a k s) l /\ a ∉ l /\ elements (added a k s) !! a = Some (new_element k) /\
  value_at cmp (added a k s) a = key_value k /\
  forall v, with_value cmp (added a k s) v l = with_value cmp s v l.
Proof.
  intros Ht Ha. assert (elements (added a k s) !! a = Some (new_element k)) as Ea by apply lookup_insert_eq.
  assert (a ∉ l) as Hal.
  { intros Hb. destruct Ht as (t & _ & _ & <- & Ho & _). rewrite Forall_forall in Ho.
    destruct (Ho a Hb) as (x & Ex & _). by rewrite Ha in Ex. }
  assert (forall b, b ∈ l -> elements (added a k s) !! b = elements s !! b) as Hs1
    by (intros b Hb; apply lookup_insert_ne; by intros ->).
  split_and!; [by apply search_tree_elements|done|done|unfold value_at; by rewrite Ea|].
  intros v. apply with_value_ext. intros b Hb. unfold value_at. by rewrite Hs1.
Qed.

Lemma implements_insert s m a k : implements s m -> key_ok k -> elements s !! a = None ->
  exists s' r, tree_run (Insert a k) s = Some (r, s') /\ (r, snd (map_run (Insert a k) m)) = map_run (Insert a k) m /\
    implements s' (snd (map_run (Insert a k) m)) /\ dom (elements s') ⊆ {[a]} ∪ dom (elements s) /\
    (r <> None -> s' = added a k s).
Proof.
  intros (l & Ht & Hm) Hk Ha. destruct (added_tree s l a k Ht Ha) as (Ht1 & Hal & Ea & Hv & Hw).
  set (s1 := added a k s) in *. assert (forall v, with_value cmp s1 v l = m !! v) as Hm1 by (intros v; by rewrite Hw, Hm).
  assert (dom (elements s1) = {[a]} ∪ dom (elements s)) as Hd by apply dom_insert_L.
  cbn [tree_run map_run]. destruct (insert_run cmp s1 l a (new_element k) Ht1) as [(b & E & Eb)|(s2 & l1 & l2 & E & -> & Ht2 & R2 & En)];
    [done..| |]; rewrite Hv, Hm1 in *.
  - rewrite Eb. exists s1, (Some b). split_and!; [exact E|done| |by rewrite Hd|done]. exists l. by split.
  - rewrite En. exists s2, None. split_and!; [exact E|done| |by rewrite (same_rest_dom _ _ R2), Hd|done]. exists (l1 ++ a :: l2).
    split; [done|]. intros v. rewrite with_value_insert by (by destruct Ht2 as (? & _ & _ & <- & ?)).
    assert (forall b, value_at cmp s2 b = value_at cmp s1 b) as Hv2 by (intros b; apply value_at_rest, R2).
    rewrite Hv2, Hv, (with_value_ext s1 s2) by auto. rewrite Hm1. cbn [snd].
    case_decide as Hvk; [subst v; apply lookup_insert_eq|by apply lookup_insert_ne].
Qed.

Lemma implements_find s m k : implements s m -> key_ok k -> RB_FIND cmp k s = Some (m !! key_value k, s).
Proof. intros (l & Ht & Hm) Hk. rewrite (find_run cmp s l k Ht Hk). by rewrite Hm. Qed.

Lemma implements_remove s m k : implements s m -> key_ok k ->
  exists s', tree_run (Remove k) s = Some (m !! key_value k, s') /\ implements s' (delete (key_value k) m) /\
    dom (elements s') ⊆ dom (elements s).
Proof.
  intros Hi Hk. cbn [tree_run]. step (implements_find s m k Hi Hk). destruct Hi as (l & Ht & Hm).
  destruct (m !! key_value k) as [a|] eqn:E; [|by exists s; split; [done|]; split; [exists l; by rewrite delete_id|]].
  rewrite Hm in E. destruct (with_value_split _ _ _ _ E) as (l1 & l2 & -> & Hv).
  pose proof (search_tree_NoDup _ _ Ht) as Hd. assert (ordered cmp s (l1 ++ a :: l2)) as Ho by (by destruct Ht as (? & _ & _ & <- & ?)).
  destruct (remove_run _ _ _ _ Ht) as (s1 & E1 & Ht1 & R1). step E1. set (s2 := set_elements (delete a (elements s1)) s1).
  assert (forall b, b ∈ l1 ++ l2 -> elements s2 !! b = elements s1 !! b) as Hs2.
  { intros b Hb. apply lookup_delete_ne. intros <-. apply NoDup_app in Hd as (_ & Hx & Hd). apply NoDup_cons in Hd as [Hd _].
    apply elem_of_app in Hb as [Hb|Hb]; [|done]. apply (Hx a Hb). by left. }
  exists s2. split; [done|]. split; [|unfold s2; cbn; rewrite dom_delete_L, (same_rest_dom _ _ R1); set_solver].
  exists (l1 ++ l2). split; [by apply search_tree_elements|]. intros v.
  rewrite (with_value_ext s1 s2) by (intros b Hb; unfold value_at; by rewrite Hs2).
  rewrite (with_value_ext s s1) by (intros b _; apply value_at_rest, R1).
  pose proof (Hm v) as Hmv. rewrite with_value_insert in Hmv by done. rewrite Hv in Hmv. case_decide as Hvk.
  - subst v. rewrite lookup_delete_eq. symmetry. rewrite <- Hv. destruct (ordered_around _ _ _ _ Ho). by apply with_value_none.
  - by rewrite lookup_delete_ne.
Qed.

Lemma implements_initial : implements RB_INITIALIZER ∅.
Proof.
  exists []. split; [|intros v; apply lookup_empty]. exists Leaf. split.
  - split; [done|]. split; [apply NoDup_nil_2|constructor].
  - split; [split; [done|exists 0%nat; constructor]|]. split; [done|]. split; constructor.
Qed.

Lemma runs_implement os : forall s m, implements s m -> Forall (fun o => key_ok (op_key o)) os -> NoDup (os ≫= op_new) ->
  (forall a, a ∈ os ≫= op_new -> elements s !! a = None) ->
  exists s', tree_runs os s = Some (fst (map_runs os m), s') /\ implements s' (snd (map_runs os m)).
Proof.
  induction os as [|o os IH]; intros s m Hi Hk Hd Hn; [by exists s|]. apply Forall_cons in Hk as [Ho Hk].
  cbn [mbind list_bind] in Hd, Hn. apply NoDup_app in Hd as (_ & Hx & Hd).
  assert (exists s1, tree_run o s = Some (fst (map_run o m), s1) /\ implements s1 (snd (map_run o m)) /\
    dom (elements s1) ⊆ list_to_set (op_new o) ∪ dom (elements s)) as (s1 & E1 & Hi1 & Hd1).
  { destruct o as [a k|k|k]; cbn [op_key op_new list_to_set] in *.
    - destruct (implements_insert s m a k Hi Ho) as (s1 & r & E & Er & Hi1 & Hd1 & _); [apply Hn; set_solver|].
      exists s1. rewrite <- Er in Hi1 |- *. split; [exact E|]. split; [exact Hi1|]. set_solver.
    - exists s. split; [by apply implements_find|]. split; [exact Hi|]. set_solver.
    - destruct (implements_remove s m k Hi Ho) as (s1 & E & Hi1 & Hd1). exists s1. split; [exact E|]. split; [exact Hi1|]. set_solver. }
  destruct (IH s1 _ Hi1 Hk Hd) as (s2 & E2 & Hi2).
  { intros a Ha. apply not_elem_of_dom. intros Hin. apply Hd1, elem_of_union in Hin as [Hin|Hin].
    - apply elem_of_list_to_set in Hin. by apply (Hx a Hin).
    - apply elem_of_dom in Hin as [x Ex]. rewrite Hn in Ex; [done|]. apply elem_of_app. by right. }
  exists s2. cbn [tree_runs map_runs]. step E1. step E2. destruct (map_run o m) as [r m1]. cbn [fst snd] in *.
  by destruct (map_runs os m1).
Qed.

(** C36: whatever is inserted, looked up and removed, in any order, the operations
    end, without undefined behaviour, and return what those of a finite map
    return: an element that compares equal to one of the tree is not put in. *)
Theorem rb_tree_refines_map (os : list tree_op) :
  Forall (fun o => key_ok (op_key o)) os -> NoDup (os ≫= op_new) ->
  exists s, tree_runs os RB_INITIALIZER = Some (fst (map_runs os ∅), s) /\ implements s (snd (map_runs os ∅)).
Proof. intros Hk Hd. apply runs_implement; [apply implements_initial|done|done|by intros a _]. Qed.

(** an element with a key that is in the tree is not put in; taking it out
    nevertheless makes the tree an empty one, and nothing is found in it any
    more. *)
Theorem refused_element_empties_tree s m a k b : implements s m -> elements s !! a = None -> key_ok k ->
  m !! key_value k = Some b ->
  exists s', (add_element a k;; RB_INSERT cmp a) s = Some (Some b, s') /\
    exists s'', RB_REMOVE (Some a) s' = Some (Some a, s'') /\ forall k', RB_FIND cmp k' s'' = Some (None, s'').
Proof.
  intros Hi Ha Hk Hb. exists (added a k s). set (s1 := added a k s). split.
  - destruct (implements_insert s m a k Hi Hk Ha) as (s2 & r & E & Er & _ & _ & Hs). cbn [map_run] in Er. rewrite Hb in Er.
    injection Er as ->. rewrite Hs in E by done. exact E.
  - assert (entry s1 a = Some {| rbe_left := None; rbe_right := None; rbe_parent := None; rbe_color := RB_BLACK |}) as En
      by (unfold entry, s1, added; cbn; by rewrite lookup_insert_eq).
    exists (set_root None s1). split; [|done]. unfold RB_REMOVE. step (run_child L a _ s1 En). step (run_child R a _ s1 En).
    cbn [entry_child rbe_left rbe_right].
    eapply (remove_finish _ a s1 (set_root None s1) (set_root None s1) None None RB_BLACK); [|done].
    unfold splice. rewrite (run_bind _ _ s1 (None, RB_BLACK) (set_root None s1)); [done|].
    step (run_parent a _ s1 En). by step (run_color a _ s1 En).
Qed.
End Map.
