(* ===== verification/RbChain.v ===== *)
(** * RbChain: elements with the same key

    [RBL_INSERT] puts an element whose key is in the tree behind the one that is
    there.  Together they implement a map from the values of the keys to lists:
    the first of a list is the one in the tree and the last to come is second.
    Taking out a first one that has others behind it is another matter. *)
From S2P Require Import Prelude Effects RbTree RbShape RbInsert RbOrder RbRemove RbMap.

Section Chain.
Context {K : Type} (cmp : K -> K -> ub Z) `{KeyOrder K cmp}.
Implicit Types s : RB_HEAD K.

(** [next] and [prev] of the elements [xs], the first after [prev]. *)
Fixpoint linked s (prev : option positive) (xs : list positive) : Prop :=
  match xs with
  | [] => True
  | x :: xs => exists e, elements s !! x = Some e /\ rbl_prev e = prev /\ rbl_next e = head xs /\ linked s (Some x) xs
  end.

(** The elements of the map [m] are in the tree, those after the first of a list
    linked to it. *)
Definition grouped s (m : gmap Z (list positive)) : Prop :=
  exists l, search_tree cmp s l /\ (forall v, m !! v ≫= head = with_value cmp s v l) /\
    forall v xs, m !! v = Some xs ->
      xs <> [] /\ NoDup xs /\ linked s None xs /\ Forall (fun x => value_at cmp s x = v) xs.

(** Changes that leave the tree and the keys alone. *)
Definition same_tree s s' : Prop :=
  rbh_root s' = rbh_root s /\
  forall a, (fun x => (elm_key x, rb_entry x)) <$> elements s' !! a = (fun x => (elm_key x, rb_entry x)) <$> elements s !! a.

Lemma same_tree_trans s1 s2 s3 : same_tree s1 s2 -> same_tree s2 s3 -> same_tree s1 s3.
Proof. intros [E1 H1] [E2 H2]. split; [by rewrite E2|]. intros a. by rewrite H2. Qed.

Lemma same_tree_change s a (f : element K -> element K) :
  (forall x, elm_key (f x) = elm_key x /\ rb_entry (f x) = rb_entry x) -> same_tree s (change a f s).
Proof.
  intros Hf. split; [done|]. intros b. unfold change. cbn. rewrite lookup_alter. case_decide; [|done]. subst.
  destruct (elements s !! b) as [x|]; [|done]. cbn. by destruct (Hf x) as [-> ->].
Qed.

Lemma same_tree_value s s' a : same_tree s s' -> value_at cmp s' a = value_at cmp s a.
Proof. intros [_ H1]. specialize (H1 a). unfold value_at. destruct (elements s !! a), (elements s' !! a); cbn in *; try done. by injection H1 as -> _. Qed.

Lemma same_tree_search s s' l : same_tree s s' -> search_tree cmp s l -> search_tree cmp s' l.
Proof.
  intros Hs (t & (Hr & Hd & Hst) & Hb & <- & Hk & Ho). pose proof Hs as [Er He]. exists t.
  split; [split; [by rewrite Er|split; [done|]]|split; [done|split; [done|split]]].
  - eapply Forall_impl; [exact Hst|]. intros [a e] E. unfold entry in *. cbn in *. specialize (He a).
    destruct (elements s !! a), (elements s' !! a); cbn in *; try done. by injection He as _ ->.
  - eapply Forall_impl; [exact Hk|]. intros a (x & Ex & Hx). specialize (He a). rewrite Ex in He.
    destruct (elements s' !! a) as [y|] eqn:Ey; [|done]. injection He as E _. exists y. by rewrite E.
  - clear -Ho Hs. induction Ho as [|a l Hl IH Ha]; constructor; [exact IH|].
    eapply Forall_impl; [exact Ha|]. intros b. by rewrite !(same_tree_value s s').
Qed.

Lemma linked_ext s s' prev xs : (forall x, x ∈ xs -> elements s' !! x = elements s !! x) -> linked s prev xs -> linked s' prev xs.
Proof.
  revert prev. induction xs as [|x xs IH]; intros prev He; cbn; [done|]. intros (e & Ex & Hp & Hn & Hl).
  exists e. rewrite He by (by left). split_and!; try done. apply IH; [|done]. intros y Hy. apply He. by right.
Qed.

Lemma linked_elem s prev xs x : linked s prev xs -> x ∈ xs -> is_Some (elements s !! x).
Proof.
  revert prev. induction xs as [|y xs IH]; intros prev Hl Hx; [by apply elem_of_nil in Hx|].
  destruct Hl as (e & Ey & _ & _ & Hl). apply elem_of_cons in Hx as [->|Hx]; [by exists e|by eapply IH].
Qed.

(** Elements of different lists are different. *)
Lemma grouped_apart s m v w xs ys a : grouped s m -> m !! v = Some xs -> m !! w = Some ys -> a ∈ xs -> a ∈ ys -> v = w.
Proof.
  intros (l & _ & _ & Hg) Hv Hw Ha Hb. destruct (Hg v xs Hv) as (_ & _ & _ & Hx). destruct (Hg w ys Hw) as (_ & _ & _ & Hy).
  rewrite Forall_forall in Hx, Hy. by rewrite <- (Hx a Ha), <- (Hy a Hb).
Qed.

Lemma run_store_at s a f : is_Some (elements s !! a) -> store (Some a) f s = Some (tt, change a f s).
Proof. intros Ha. unfold store. by rewrite decide_True. Qed.

Lemma change_eq s a f x : elements s !! a = Some x -> elements (change a f s) !! a = Some (f x).
Proof. intros E. unfold change. cbn. by rewrite lookup_alter_eq, E. Qed.
Lemma change_ne s a b f : a <> b -> elements (change a f s) !! b = elements s !! b.
Proof. apply lookup_alter_ne. Qed.
Lemma change_some s a b f : is_Some (elements s !! b) -> is_Some (elements (change a f s) !! b).
Proof. unfold change. cbn. rewrite lookup_alter. case_decide; [subst|done]. intros [x ->]. by eexists. Qed.

(** Linking [a] behind [b]. *)
Definition link_behind (a b : positive) (next : option positive) s : RB_HEAD K :=
  let s1 := change a (with_next next) s in
  change b (with_next (Some a)) (change a (with_prev (Some b))
    (match next with Some c => change c (with_prev (Some a)) s1 | None => s1 end)).

Lemma link_behind_tree a b next s : same_tree s (link_behind a b next s).
Proof.
  unfold link_behind. destruct next as [c|].
  all: repeat (eapply same_tree_trans; [|apply same_tree_change; by intros []]).
  all: done.
Qed.

Lemma link_behind_dom a b next s : dom (elements (link_behind a b next s)) = dom (elements s).
Proof. unfold link_behind, change. destruct next; cbn; by rewrite ?dom_alter_L. Qed.

Section Link.
Variables (s : RB_HEAD K) (a b : positive) (fs : list positive) (xa : element K).
Hypothesis Ha : elements s !! a = Some xa.
Hypothesis Hl : linked s None (b :: fs).
Hypothesis Hd : NoDup (a :: b :: fs).

Let next := head fs.

Lemma link_behind_run :
  (x ← deref (Some b);
   store (Some a) (with_next (rbl_next x));;
   unless_null (rbl_next x) (store (rbl_next x) (with_prev (Some a)));;
   store (Some a) (with_prev (Some b));;
   store (Some b) (with_next (Some a));;
   mret (Some a)) s = Some (Some a, link_behind a b next s).
Proof.
  destruct Hl as (xb & Eb & _ & En & Hf). step (deref_at b xb s Eb). rewrite En.
  step (run_store_at s a _ (mk_is_Some _ _ Ha)). unfold link_behind, next. destruct fs as [|c fs']; cbn [head unless_null] in *.
  - step (run_ret _ _). step (run_store_at _ a _ ltac:(apply change_some; by eexists)).
    by step (run_store_at _ b _ ltac:(do 2 apply change_some; by eexists)).
  - destruct Hf as (xc & Ec & _). step (run_store_at _ c _ ltac:(apply change_some; by eexists)).
    step (run_store_at _ a _ ltac:(do 2 apply change_some; by eexists)).
    by step (run_store_at _ b _ ltac:(do 3 apply change_some; by eexists)).
Qed.

Lemma link_behind_other x : x ∉ a :: b :: fs -> elements (link_behind a b next s) !! x = elements s !! x.
Proof.
  rewrite !not_elem_of_cons. intros (Hxa & Hxb & Hxf). unfold link_behind, next. destruct fs as [|c fs']; cbn [head].
  - by rewrite !change_ne by congruence.
  - apply not_elem_of_cons in Hxf as [Hxc _]. by rewrite !change_ne by congruence.
Qed.

Lemma link_behind_linked : linked (link_behind a b next s) None (b :: a :: fs).
Proof.
  rewrite !NoDup_cons, not_elem_of_cons in Hd. destruct Hd as ((Hab & Haf) & Hbf & Hdf).
  destruct Hl as (xb & Eb & Hp & En & Hf). unfold link_behind, next. destruct fs as [|c fs']; cbn [head linked].
  - assert (elements (change a (with_next None) s) !! a = Some (with_next None xa)) as E1 by (by apply change_eq).
    pose proof (change_eq _ a (with_prev (Some b)) _ E1) as E2.
    eexists. split; [apply change_eq; rewrite !change_ne by congruence; exact Eb|]. split; [exact Hp|]. split; [done|].
    eexists. split; [rewrite change_ne by congruence; exact E2|done].
  - apply not_elem_of_cons in Haf as [Hac Haf]. apply not_elem_of_cons in Hbf as [Hbc Hbf]. apply NoDup_cons in Hdf as [Hcf Hdf].
    destruct Hf as (xc & Ec & _ & Enc & Hf). cbn [head] in *.
    assert (elements (change a (with_next (Some c)) s) !! a = Some (with_next (Some c) xa)) as E1 by (by apply change_eq).
    eexists. split; [apply change_eq; rewrite !change_ne by congruence; exact Eb|]. split; [exact Hp|]. split; [done|].
    eexists. split; [rewrite change_ne by congruence; apply change_eq; rewrite change_ne by congruence; exact E1|]. split; [done|]. split; [done|].
    eexists. split; [rewrite 2!change_ne by congruence; apply change_eq; rewrite change_ne by congruence; exact Ec|]. split; [done|].
    split; [exact Enc|]. eapply linked_ext; [|exact Hf]. intros x Hx. rewrite !change_ne; [done|..]; intros ->; contradiction.
Qed.
End Link.

Lemma linked_rest s s' prev xs : same_rest s s' -> linked s prev xs -> linked s' prev xs.
Proof.
  intros HR. revert prev. induction xs as [|x xs IH]; intros prev; cbn; [done|]. intros (e & Ex & Hp & Hn & Hl).
  specialize (HR x). unfold rest in HR. rewrite Ex in HR. destruct (elements s' !! x) as [e'|]; [|done].
  injection HR as _ En Ep. exists e'. rewrite Ep, En. auto.
Qed.

Lemma grouped_ext s s' m l : search_tree cmp s' l -> (forall v, m !! v ≫= head = with_value cmp s' v l) ->
  (forall v xs, m !! v = Some xs -> xs <> [] /\ NoDup xs /\ linked s None xs /\ Forall (fun x => value_at cmp s x = v) xs) ->
  (forall v xs, m !! v = Some xs -> linked s None xs -> linked s' None xs) ->
  (forall v xs x, m !! v = Some xs -> x ∈ xs -> value_at cmp s' x = value_at cmp s x) -> grouped s' m.
Proof.
  intros Ht Hh Hg Hl Hv. exists l. split; [done|]. split; [done|]. intros v xs Hm. destruct (Hg v xs Hm) as (Hn & Hd & Hk & Hx).
  split_and!; [done|done|by eapply Hl|]. apply Forall_forall. intros x Hin. rewrite (Hv v xs x Hm Hin).
  by apply (proj1 (Forall_forall _ _) Hx).
Qed.

Lemma grouped_add s m a k : grouped s m -> elements s !! a = None -> grouped (added a k s) m.
Proof.
  intros (l & Ht & Hm & Hg) Ha. destruct (added_tree cmp s l a k Ht Ha) as (Ht1 & _ & _ & _ & Hw).
  assert (forall v xs x, m !! v = Some xs -> x ∈ xs -> elements (added a k s) !! x = elements s !! x) as Hx1.
  { intros v xs x Hv Hx. destruct (Hg v xs Hv) as (_ & _ & Hk & _). destruct (linked_elem _ _ _ _ Hk Hx) as [e Ex].
    apply lookup_insert_ne. intros ->. by rewrite Ha in Ex. }
  apply (grouped_ext s (added a k s) m l); [done|intros v; by rewrite Hw|exact Hg| |].
  - intros v xs Hv Hk. eapply linked_ext; [|exact Hk]. intros x Hx. by eapply Hx1.
  - intros v xs x Hv Hx. unfold value_at. by rewrite (Hx1 v xs x).
Qed.

(** ** Putting an element in *)

Definition put_in (a : positive) (v : Z) (m : gmap Z (list positive)) : gmap Z (list positive) :=
  match m !! v with Some (b :: fs) => <[v := b :: a :: fs]> m | _ => <[v := [a]]> m end.

Lemma grouped_insert_new s m a l1 l2 :
  (forall v xs, m !! v = Some xs -> xs <> [] /\ NoDup xs /\ linked s None xs /\ Forall (fun x => value_at cmp s x = v) xs) ->
  search_tree cmp s (l1 ++ a :: l2) ->
  (forall v, m !! v ≫= head = with_value cmp s v (l1 ++ l2)) -> m !! value_at cmp s a = None -> linked s None [a] ->
  grouped s (<[value_at cmp s a := [a]]> m).
Proof.
  intros Hg Ht Hm Hn Ha. exists (l1 ++ a :: l2). split; [done|].
  assert (ordered cmp s (l1 ++ a :: l2)) as Ho by (by destruct Ht as (? & _ & _ & <- & ?)). split.
  - intros v. rewrite with_value_insert by done. rewrite <- Hm. case_decide as Hv.
    + subst v. by rewrite lookup_insert_eq.
    + by rewrite lookup_insert_ne.
  - intros v xs. destruct (decide (v = value_at cmp s a)) as [->|Hv].
    + rewrite lookup_insert_eq. intros [= <-]. split_and!; [done|apply NoDup_singleton|done|by constructor].
    + rewrite lookup_insert_ne by done. apply Hg.
Qed.

Lemma grouped_link s1 m a b fs xa v0 : grouped s1 m -> elements s1 !! a = Some xa -> value_at cmp s1 a = v0 ->
  (forall v xs, m !! v = Some xs -> a ∉ xs) -> m !! v0 = Some (b :: fs) ->
  grouped (link_behind a b (head fs) s1) (<[v0 := b :: a :: fs]> m).
Proof.
  intros Hg1 Ea Hv Hfresh Em. pose proof Hg1 as (l & Ht & Hm & Hgs). destruct (Hgs _ _ Em) as (_ & Hd & Hlk & Hval).
  assert (NoDup (a :: b :: fs)) as Hd' by (constructor; [by eapply Hfresh|done]).
  pose proof (link_behind_tree a b (head fs) s1) as Hst. exists l. split; [by eapply same_tree_search|]. split.
  + intros v. rewrite (with_value_ext cmp s1) by (intros c _; by apply same_tree_value). rewrite <- Hm.
    destruct (decide (v = v0)) as [->|Hne]; [by rewrite lookup_insert_eq, Em|by rewrite lookup_insert_ne].
  + intros v xs. destruct (decide (v = v0)) as [->|Hne].
    * rewrite lookup_insert_eq. intros [= <-]. split_and!; [done| | |].
      -- by apply (NoDup_perm (a :: b :: fs)); [apply Permutation_swap|].
      -- by apply (link_behind_linked s1 a b fs xa).
      -- apply Forall_forall. intros c Hc. rewrite (same_tree_value s1) by done. apply elem_of_cons in Hc as [->|Hc].
         { apply (proj1 (Forall_forall _ _) Hval). by left. }
         apply elem_of_cons in Hc as [->|Hc]; [done|]. apply (proj1 (Forall_forall _ _) Hval). by right.
    * rewrite lookup_insert_ne by done. intros Hvx. destruct (Hgs v xs Hvx) as (Hn & Hdx & Hlx & Hx). split_and!; try done.
      -- eapply linked_ext; [|exact Hlx]. intros x Hx'. apply (link_behind_other s1 a b fs); try done. apply not_elem_of_cons; split; [intros ->|intros Hin].
         { by apply (Hfresh v xs). }
         by destruct Hne; eapply (grouped_apart s1 m v _ xs _ x).
      -- eapply Forall_impl; [exact Hx|]. intros c. by rewrite (same_tree_value s1).
Qed.

Lemma grouped_insert s m a k : grouped s m -> key_ok k -> elements s !! a = None ->
  exists s', (add_element a k;; RBL_INSERT cmp a) s = Some (Some a, s') /\ grouped s' (put_in a (key_value k) m) /\
    dom (elements s') = {[a]} ∪ dom (elements s).
Proof.
  intros Hg Hk Ha. pose proof (grouped_add s m a k Hg Ha) as Hg1. set (s1 := added a k s) in *.
  assert (elements s1 !! a = Some (new_element k)) as Ea by apply lookup_insert_eq.
  assert (value_at cmp s1 a = key_value k) as Hv by (unfold value_at; by rewrite Ea).
  assert ((add_element a k;; RBL_INSERT cmp a) s = RBL_INSERT cmp a s1) as E0 by done. rewrite E0. clear E0.
  pose proof Hg1 as (l & Ht & Hm & Hgs).
  assert (forall v xs, m !! v = Some xs -> a ∉ xs) as Hfresh.
  { intros v xs Hvx Hin. destruct Hg as (? & _ & _ & Hg0). destruct (Hg0 v xs Hvx) as (_ & _ & Hlk & _).
    destruct (linked_elem _ _ _ _ Hlk Hin) as [y Ey]. by rewrite Ha in Ey. }
  assert (a ∉ l) as Hal.
  { intros Hin. assert (ordered cmp s1 l) as Ho by (by destruct Ht as (? & _ & _ & <- & ?)).
    pose proof (Hm (value_at cmp s1 a)) as E. rewrite (with_value_some cmp s1 a l Ho Hin) in E.
    destruct (m !! value_at cmp s1 a) as [[|b fs]|] eqn:Em; [done| |done]. injection E as ->. apply (Hfresh _ _ Em). by left. }
  unfold RBL_INSERT. destruct (insert_run cmp s1 l a _ Ht Ea Hk Hal) as [(b & E & Eb)|(s2 & l1 & l2 & E & -> & Ht2 & R2 & En)];
    rewrite Hv, <- Hm in *.
  - destruct (m !! key_value k) as [[|b' fs]|] eqn:Em; [done| |done]. injection Eb as ->.
    destruct (Hgs _ _ Em) as (_ & Hd & Hlk & Hval). step E. rewrite decide_False by (intros ->; apply (Hfresh _ _ Em); by left).
    assert (NoDup (a :: b :: fs)) as Hd' by (constructor; [by eapply Hfresh|done]).
    exists (link_behind a b (head fs) s1). split; [by apply (link_behind_run s1 a b fs (new_element k))|].
    unfold put_in. rewrite Em. split; [by apply (grouped_link s1 m a b fs (new_element k))|]. rewrite link_behind_dom. apply dom_insert_L.
  - step E. exists s2. split; [done|]. split; [|rewrite (same_rest_dom _ _ R2); apply dom_insert_L]. unfold put_in. destruct (m !! key_value k) as [[|b fs]|] eqn:Em.
    + by destruct (Hgs _ _ Em).
    + done.
    + assert (value_at cmp s2 a = key_value k) as Hv2 by (rewrite <- Hv; apply value_at_rest, R2). rewrite <- Hv2.
      assert (forall v, m !! v ≫= head = with_value cmp s2 v (l1 ++ l2)) as Hm2.
      { intros v. rewrite Hm. symmetry. apply with_value_ext. intros c _. apply value_at_rest, R2. }
      apply (grouped_insert_new s2 m a l1 l2); [|done|done|by rewrite Hv2|].
      * intros v xs Hvx. destruct (Hgs v xs Hvx) as (Hne & Hdx & Hlx & Hx). split_and!; try done; [by eapply linked_rest|].
        eapply Forall_impl; [exact Hx|]. intros c <-. apply value_at_rest, R2.
      * eapply linked_rest; [exact R2|]. by exists (new_element k).
Qed.

(** ** Taking an element out *)

Definition unlink_after (p : positive) (next : option positive) s : RB_HEAD K :=
  let s1 := change p (with_next next) s in
  match next with Some c => change c (with_prev (Some p)) s1 | None => s1 end.

Lemma unlink_after_tree p next s : same_tree s (unlink_after p next s).
Proof.
  unfold unlink_after. destruct next as [c|].
  all: repeat (eapply same_tree_trans; [|apply same_tree_change; by intros []]).
  all: done.
Qed.

Section Unlink.
Variables (s : RB_HEAD K) (p a : positive) (post : list positive).

Lemma unlink_after_other x : x ∉ p :: post -> elements (unlink_after p (head post) s) !! x = elements s !! x.
Proof.
  rewrite not_elem_of_cons. intros [Hxp Hxf]. unfold unlink_after. destruct post as [|c r]; cbn [head].
  - by rewrite change_ne by congruence.
  - apply not_elem_of_cons in Hxf as [Hxc _]. by rewrite !change_ne by congruence.
Qed.

Lemma unlink_after_linked q : forall prev, NoDup (q ++ p :: a :: post) -> linked s prev (q ++ p :: a :: post) ->
  linked (unlink_after p (head post) s) prev (q ++ p :: post).
Proof.
  induction q as [|x q IH]; cbn [app]; intros prev Hd Hl.
  - destruct Hl as (e & Ep & Hp & _ & ea & Ea & _ & Hn & Hl). apply NoDup_cons in Hd as [Hd1 Hd].
    apply not_elem_of_cons in Hd1 as [_ Hd1]. apply NoDup_cons in Hd as [_ Hd]. unfold unlink_after.
    destruct post as [|c r]; cbn [head linked].
    + eexists. by split; [by apply change_eq|].
    + apply not_elem_of_cons in Hd1 as [Hpc Hpr]. apply NoDup_cons in Hd as [Hcr _]. destruct Hl as (ec & Ec & _ & Hnc & Hl).
      eexists. split; [rewrite change_ne by congruence; by apply change_eq|]. split; [done|]. split; [done|].
      eexists. split; [apply change_eq; rewrite change_ne by congruence; exact Ec|]. split; [done|]. split; [exact Hnc|].
      eapply linked_ext; [|exact Hl]. intros x Hx. rewrite !change_ne; [done|..]; intros ->; contradiction.
  - destruct Hl as (e & Ex & Hp & Hn & Hl). apply NoDup_cons in Hd as [Hx Hd]. cbn [linked]. exists e.
    split; [|split; [done|split; [|by apply IH]]].
    + rewrite unlink_after_other; [done|]. revert Hx. rewrite !not_elem_of_app, !not_elem_of_cons. tauto.
    + rewrite Hn. by destruct q.
Qed.

Lemma linked_at q : forall prev, linked s prev (q ++ p :: a :: post) ->
  exists ea ep, elements s !! a = Some ea /\ elements s !! p = Some ep /\ rbl_prev ea = Some p /\ rbl_next ea = head post /\
    linked s (Some a) post.
Proof.
  induction q as [|x q IH]; intros prev; [|intros (_ & _ & _ & _ & Hl); by eapply IH].
  intros (ep & Ep & _ & _ & ea & Ea & Hp & Hn & Hl). by exists ea, ep.
Qed.

(** An element that is not the first. *)
Lemma unlink_run q : NoDup (q ++ p :: a :: post) -> linked s None (q ++ p :: a :: post) ->
  RBL_REMOVE a s = Some (Some a, unlink_after p (head post) s).
Proof.
  intros Hd Hl. destruct (linked_at _ _ Hl) as (ea & ep & Ea & Ep & Hp & Hn & Hlp). unfold RBL_REMOVE.
  step (deref_at a ea s Ea). rewrite Hp, Hn. step (run_store_at s p _ (mk_is_Some _ _ Ep)). unfold unlink_after.
  destruct post as [|c r]; cbn [head unless_null]; [done|]. destruct Hlp as (ec & Ec & _).
  by step (run_store_at _ c _ ltac:(apply change_some; by eexists)).
Qed.
End Unlink.

Lemma free_grouped s m a : grouped s m -> (forall v xs, m !! v = Some xs -> a ∉ xs) ->
  grouped (set_elements (delete a (elements s)) s) m.
Proof.
  intros (l & Ht & Hm & Hg) Ha. set (s1 := set_elements _ s).
  assert (forall b, b <> a -> elements s1 !! b = elements s !! b) as Hs1 by (intros b Hb; by apply lookup_delete_ne).
  assert (forall b, b ∈ l -> b <> a) as Hl1.
  { intros b Hb ->. assert (ordered cmp s l) as Ho by (by destruct Ht as (? & _ & _ & <- & ?)).
    pose proof (Hm (value_at cmp s a)) as E. rewrite (with_value_some cmp s a l Ho Hb) in E.
    destruct (m !! value_at cmp s a) as [[|b fs]|] eqn:Em; [done| |done]. injection E as ->. apply (Ha _ _ Em). by left. }
  apply (grouped_ext s s1 m l); [apply search_tree_elements; auto| |exact Hg| |].
  - intros v. rewrite Hm. symmetry. apply with_value_ext. intros b Hb. unfold value_at. by rewrite Hs1 by auto.
  - intros v xs Hv Hk. eapply linked_ext; [|exact Hk]. intros x Hx. apply Hs1. intros ->. by apply (Ha v xs).
  - intros v xs x Hv Hx. unfold value_at. rewrite Hs1; [done|]. intros ->. by apply (Ha v xs).
Qed.

Lemma grouped_unlink s m v q p a post : grouped s m -> m !! v = Some (q ++ p :: a :: post) ->
  grouped (unlink_after p (head post) s) (<[v := q ++ p :: post]> m).
Proof.
  intros Hg Em. pose proof Hg as (l & Ht & Hm & Hgs). destruct (Hgs _ _ Em) as (_ & Hd & Hlk & Hval).
  pose proof (unlink_after_tree p (head post) s) as Hst. exists l. split; [by eapply same_tree_search|]. split.
  - intros w. rewrite (with_value_ext cmp s) by (intros c _; by apply same_tree_value). rewrite <- Hm.
    destruct (decide (w = v)) as [->|Hne]; [rewrite lookup_insert_eq, Em|by rewrite lookup_insert_ne].
    by destruct q.
  - intros w xs. destruct (decide (w = v)) as [->|Hne].
    + rewrite lookup_insert_eq. intros [= <-]. split; [by destruct q|]. split; [|split].
      * assert (NoDup (a :: q ++ p :: post)) as Hd' by (by apply (NoDup_perm (q ++ p :: a :: post)); [solve_Permutation|]).
        by apply NoDup_cons in Hd' as [_ ?].
      * by apply (unlink_after_linked s p a post).
      * apply Forall_forall. intros c Hc. rewrite (same_tree_value s) by done. apply (proj1 (Forall_forall _ _) Hval).
        revert Hc. rewrite !elem_of_app, !elem_of_cons. tauto.
    + rewrite lookup_insert_ne by done. intros Hvx. destruct (Hgs w xs Hvx) as (Hn & Hdx & Hlx & Hx). split_and!; try done.
      * eapply linked_ext; [|exact Hlx]. intros x Hx'. apply unlink_after_other. intros Hin. destruct Hne.
        eapply (grouped_apart s m w _ xs _ x); [done|done|exact Em|done|]. revert Hin. rewrite elem_of_app, !elem_of_cons. tauto.
      * eapply Forall_impl; [exact Hx|]. intros c. by rewrite (same_tree_value s).
Qed.

Lemma grouped_remove_last s m v a : grouped s m -> m !! v = Some [a] ->
  exists s', RBL_REMOVE a s = Some (Some a, s') /\ grouped s' (delete v m) /\ dom (elements s') = dom (elements s).
Proof.
  intros (l & Ht & Hm & Hgs) Em. destruct (Hgs _ _ Em) as (_ & _ & (ea & Ea & Hp & Hn & _) & Hval). cbn in Hn.
  apply Forall_cons in Hval as [Hval _]. cbn beta in Hval. pose proof (Hm v) as Hv. rewrite Em in Hv. symmetry in Hv.
  destruct (with_value_split _ _ _ _ _ Hv) as (l1 & l2 & -> & _).
  assert (ordered cmp s (l1 ++ a :: l2)) as Ho by (by destruct Ht as (? & _ & _ & <- & ?)).
  destruct (remove_run cmp s l1 a l2 Ht) as (s1 & E1 & Ht1 & R1). exists s1. split.
  { unfold RBL_REMOVE. step (deref_at a ea s Ea). by rewrite Hp, Hn. }
  split; [|by apply same_rest_dom]. exists (l1 ++ l2). split; [done|]. split.
  - intros w. rewrite (with_value_ext cmp s s1) by (intros b _; apply value_at_rest, R1).
    pose proof (Hm w) as Hw. rewrite with_value_insert in Hw by done. rewrite Hval in Hw. case_decide as Hwv.
    + subst w. rewrite lookup_delete_eq. symmetry. rewrite <- Hval. destruct (ordered_around _ _ _ _ _ Ho). by apply with_value_none.
    + by rewrite lookup_delete_ne.
  - intros w xs Hw. apply lookup_delete_Some in Hw as [_ Hw]. destruct (Hgs w xs Hw) as (? & ? & Hl & Hx). split_and!; try done.
    + by eapply linked_rest.
    + eapply Forall_impl; [exact Hx|]. intros b <-. apply value_at_rest, R1.
Qed.

(** ** Operations and their specification *)

Inductive list_op :=
| Add (a : positive) (k : K)    (* a new element with the key [k] *)
| First (k : K)
| Done (a : positive) (k : K).  (* take the element [a] with the key [k] out and free it *)

Definition rbl_run (o : list_op) : M (RB_HEAD K) (option positive) :=
  match o with
  | Add a k => add_element a k;; RBL_INSERT cmp a
  | First k => RB_FIND cmp k
  | Done a k => r ← RBL_REMOVE a; free_element a;; mret r
  end.

(** Taking out the first of several is left out. *)
Definition lists_run (o : list_op) (m : gmap Z (list positive)) : option (option positive * gmap Z (list positive)) :=
  match o with
  | Add a k => Some (Some a, put_in a (key_value k) m)
  | First k => Some (m !! key_value k ≫= head, m)
  | Done a k =>
      match m !! key_value k with
      | None => None
      | Some [b] => if decide (a = b) then Some (Some a, delete (key_value k) m) else None
      | Some xs => if decide (head xs <> Some a /\ a ∈ xs) then
                     Some (Some a, <[key_value k := filter (fun x => x <> a) xs]> m) else None
      end
  end.

Definition list_op_key (o : list_op) : K := match o with Add _ k | First k | Done _ k => k end.
Definition list_op_new (o : list_op) : list positive := match o with Add a _ => [a] | _ => [] end.

Fixpoint rbl_runs (os : list list_op) : M (RB_HEAD K) (list (option positive)) :=
  match os with [] => mret [] | o :: os => r ← rbl_run o; rs ← rbl_runs os; mret (r :: rs) end.

Fixpoint lists_runs (os : list list_op) (m : gmap Z (list positive)) : option (list (option positive) * gmap Z (list positive)) :=
  match os with
  | [] => Some ([], m)
  | o :: os => '(r, m) ← lists_run o m; '(rs, m) ← lists_runs os m; Some (r :: rs, m)
  end.

Lemma unlink_after_dom p next s : dom (elements (unlink_after p next s)) = dom (elements s).
Proof. unfold unlink_after, change. destruct next; cbn; by rewrite ?dom_alter_L. Qed.

Lemma split_later (a : positive) xs : head xs <> Some a -> a ∈ xs -> exists q p post, xs = q ++ p :: a :: post.
Proof.
  intros Hh Hin. apply list_elem_of_split in Hin as (l1 & post & ->). destruct l1 as [|p q] using rev_ind; [done|].
  exists q, p, post. by rewrite <- app_assoc.
Qed.

Lemma filter_without (a : positive) (q : list positive) p post : NoDup (q ++ p :: a :: post) ->
  filter (fun x => x <> a) (q ++ p :: a :: post) = q ++ p :: post.
Proof.
  intros Hd. assert (NoDup (a :: q ++ p :: post)) as Hd' by (by apply (NoDup_perm (q ++ p :: a :: post)); [solve_Permutation|]).
  apply NoDup_cons in Hd' as [Ha _]. apply not_elem_of_app in Ha as [Hq Ha]. apply not_elem_of_cons in Ha as [Hp Hs].
  assert (forall l : list positive, a ∉ l -> filter (fun x => x <> a) l = l) as Hf.
  { intros l. induction l as [|x l IH]; [done|]. rewrite not_elem_of_cons. intros [Hx Hl]. rewrite filter_cons_True by congruence. by rewrite IH. }
  rewrite filter_app, Hf by done. rewrite filter_cons_True by congruence. rewrite filter_cons_False by auto. by rewrite Hf.
Qed.

Lemma grouped_done s m a k r m' : grouped s m -> lists_run (Done a k) m = Some (r, m') ->
  exists s', rbl_run (Done a k) s = Some (r, s') /\ grouped s' m' /\ dom (elements s') ⊆ dom (elements s).
Proof.
  intros Hg E. cbn [lists_run rbl_run] in *. destruct (m !! key_value k) as [xs|] eqn:Em; [|done].
  assert (exists s1, RBL_REMOVE a s = Some (Some a, s1) /\ r = Some a /\ grouped s1 m' /\ dom (elements s1) = dom (elements s) /\
    forall v ys, m' !! v = Some ys -> a ∉ ys) as (s1 & E1 & -> & Hg1 & Hd1 & Hn1).
  { destruct xs as [|b [|c xs]]; [by case_decide as H0; [destruct H0 as [_ ?%elem_of_nil]|]| |].
    - case_decide; [|done]. subst b. injection E as <- <-. destruct (grouped_remove_last s m _ a Hg Em) as (s1 & E1 & Hg1 & Hd1).
      exists s1. split_and!; try done. intros v ys Hy Hin. apply lookup_delete_Some in Hy as [Hne Hy].
      destruct Hne. eapply (grouped_apart s m _ v); [done|exact Em|exact Hy|by left|done].
    - set (xs' := b :: c :: xs) in *. case_decide as Ha; [|done]. destruct Ha as [Hh Hin]. injection E as <- <-.
      destruct (split_later a xs' Hh Hin) as (q & p & post & Ex). rewrite Ex in Em |- *.
      pose proof Hg as (_ & _ & _ & Hgs). destruct (Hgs _ _ Em) as (_ & Hd & Hl & _). rewrite filter_without by done.
      exists (unlink_after p (head post) s). split; [by apply (unlink_run s p a post q)|]. split; [done|].
      split; [by apply (grouped_unlink s m _ q p a)|]. split; [apply unlink_after_dom|]. intros v ys. rewrite lookup_insert.
      case_decide as Hv; [intros [= <-]|intros Hy Hya; destruct Hv; eapply (grouped_apart s m _ v); [done|exact Em|exact Hy| |exact Hya]].
      + assert (NoDup (a :: q ++ p :: post)) as Hd' by (by apply (NoDup_perm (q ++ p :: a :: post)); [solve_Permutation|]).
        by apply NoDup_cons in Hd' as [? _].
      + rewrite elem_of_app, !elem_of_cons. tauto. }
  step E1. eexists. split; [done|]. split; [by apply free_grouped|]. cbn. rewrite dom_delete_L, Hd1. set_solver.
Qed.

Lemma grouped_initial : grouped RB_INITIALIZER ∅.
Proof.
  destruct (implements_initial cmp) as (l & Ht & Hm). exists l. split; [done|]. split; [|done].
  intros v. by rewrite <- Hm.
Qed.

Lemma grouped_run o s m r m' : grouped s m -> key_ok (list_op_key o) -> (forall a, a ∈ list_op_new o -> elements s !! a = None) ->
  lists_run o m = Some (r, m') ->
  exists s', rbl_run o s = Some (r, s') /\ grouped s' m' /\ dom (elements s') ⊆ list_to_set (list_op_new o) ∪ dom (elements s).
Proof.
  intros Hg Hk Hn E. destruct o as [a k|k|a k]; cbn [list_op_new list_op_key] in *.
  - injection E as <- <-. destruct (grouped_insert s m a k Hg Hk) as (s1 & E1 & Hg1 & Hd1); [apply Hn; by left|].
    exists s1. split; [exact E1|]. split; [done|]. rewrite Hd1. set_solver.
  - injection E as <- <-. exists s. destruct Hg as (l & Ht & Hm & Hgs). split.
    { cbn [rbl_run]. rewrite (find_run cmp s l k Ht Hk). by rewrite <- Hm. }
    split; [by exists l|]. set_solver.
  - destruct (grouped_done s m a k r m' Hg E) as (s1 & E1 & Hg1 & Hd1). exists s1. split; [done|]. split; [done|]. set_solver.
Qed.

Lemma grouped_runs os : forall s m rs m', grouped s m -> Forall (fun o => key_ok (list_op_key o)) os ->
  NoDup (os ≫= list_op_new) -> (forall a, a ∈ os ≫= list_op_new -> elements s !! a = None) ->
  lists_runs os m = Some (rs, m') -> exists s', rbl_runs os s = Some (rs, s') /\ grouped s' m'.
Proof.
  induction os as [|o os IH]; intros s m rs m' Hg Hk Hd Hn E; [injection E as <- <-; by exists s|].
  apply Forall_cons in Hk as [Ho Hk]. cbn [mbind list_bind] in Hd, Hn. apply NoDup_app in Hd as (_ & Hx & Hd).
  cbn [lists_runs] in E. apply bind_Some_inv in E as ([r m1] & E1 & E). apply bind_Some_inv in E as ([rs2 m2] & E2 & E).
  injection E as <- <-. destruct (grouped_run o s m r m1 Hg Ho) as (s1 & Er & Hg1 & Hd1); [|done|].
  { intros a Ha. apply Hn, elem_of_app. by left. }
  destruct (IH s1 m1 rs2 m2 Hg1 Hk Hd) as (s2 & Ers & Hg2); [|done|].
  { intros a Ha. apply not_elem_of_dom. intros Hin. apply Hd1, elem_of_union in Hin as [Hin|Hin].
    - apply elem_of_list_to_set in Hin. by apply (Hx a Hin).
    - apply elem_of_dom in Hin as [y Ey]. rewrite Hn in Ey; [done|]. apply elem_of_app. by right. }
  exists s2. split; [|done]. cbn [rbl_runs]. step Er. by step Ers.
Qed.

(** C38: a tree with chains is a map from keys to lists: the first element with a
    key is the one that is found, the others are behind it with the last to
    come in front, and any of them is taken out, as long as it is not the first
    with others behind it.  All operations end without undefined behaviour. *)
Theorem rbl_tree_refines_lists (os : list list_op) rs m :
  Forall (fun o => key_ok (list_op_key o)) os -> NoDup (os ≫= list_op_new) -> lists_runs os ∅ = Some (rs, m) ->
  exists s, rbl_runs os RB_INITIALIZER = Some (rs, s) /\ grouped s m.
Proof. intros Hk Hd E. eapply grouped_runs; [apply grouped_initial|done|done|by intros a _|done]. Qed.

(** when the first element with a key is at the root of the tree and is taken
    out and freed while others are behind it, the root keeps its address, and
    every later lookup reads the freed element. *)
Theorem first_at_root_dangling s m k a b xs : grouped s m -> m !! key_value k = Some (a :: b :: xs) -> rbh_root s = Some a ->
  exists s', rbl_run (Done a k) s = Some (Some a, s') /\ rbh_root s' = Some a /\ elements s' !! a = None /\
    forall k', rbl_run (First k') s' = None.
Proof.
  intros (l & (t & (Hr & _ & Hs) & _) & _ & Hg) Em Hroot. destruct (Hg _ _ Em) as (_ & Hdx & Hl & _).
  destruct Hl as (ea & Ea & Hp & Hn & eb & Eb & _). cbn [head] in Hn.
  assert (rbe_parent (rb_entry ea) = None) as Hpar.
  { rewrite Hroot in Hr. destruct t as [|c lt a' rt]; [done|]. injection Hr as <-. apply stored_cons in Hs as [E _].
    unfold entry in E. rewrite Ea in E. by injection E as ->. }
  apply NoDup_cons in Hdx as [Hab _]. apply not_elem_of_cons in Hab as [Hab _].
  set (s1 := change b (with_prev None) (change b (with_entry (fun _ => rb_entry ea)) s)).
  exists (set_elements (delete a (elements s1)) s1). split; [|split; [exact Hroot|split; [apply lookup_delete_eq|]]].
  - cbn [rbl_run]. unfold RBL_REMOVE. rewrite (run_bind _ _ s (Some a) s1); [done|].
    step (deref_at a ea s Ea). rewrite Hp, Hn, Hpar. step (run_store_at s b _ (mk_is_Some _ _ Eb)).
    by step (run_store_at _ b _ ltac:(apply change_some; by eexists)).
  - intros k'. cbn [rbl_run]. unfold RB_FIND, fuel_of. step (run_gets _ _). step (run_gets _ _).
    change (rbh_root (set_elements (delete a (elements s1)) s1)) with (rbh_root s). rewrite Hroot.
    apply run_bind_undef. cbn [search]. apply run_bind_undef. unfold deref. cbn [mbind option_bind].
    change (elements (set_elements (delete a (elements s1)) s1)) with (delete a (elements s1)). by rewrite lookup_delete_eq.
Qed.
End Chain.
