(* ===== verification/StackTypes.v ===== *)
(** * StackTypes: types and lists the stack core shares

    Models the enumerations and structures of [csdk/include/octypes.h] that the
    stack core passes around, and the macros of [c_common/utlist.h] that append
    to and delete from its singly linked lists.  Built with [WITH_PRESENCE]. *)
From S2P Require Import Prelude CaCommon CaMessage.

Inductive OCMethod :=
| OC_REST_NOMETHOD
| OC_REST_GET
| OC_REST_PUT
| OC_REST_POST
| OC_REST_DELETE
| OC_REST_OBSERVE
| OC_REST_OBSERVE_ALL
| OC_REST_PRESENCE
| OC_REST_DISCOVER.
#[export] Instance OCMethod_eq_dec : EqDecision OCMethod.
Proof. solve_decision. Defined.

Inductive OCPayloadFormat :=
| OC_FORMAT_CBOR
| OC_FORMAT_VND_OCF_CBOR
| OC_FORMAT_JSON
| OC_FORMAT_UNDEFINED
| OC_FORMAT_UNSUPPORTED.
#[export] Instance OCPayloadFormat_eq_dec : EqDecision OCPayloadFormat.
Proof. solve_decision. Defined.

Inductive OCQualityOfService := OC_LOW_QOS | OC_MEDIUM_QOS | OC_HIGH_QOS | OC_NA_QOS.
#[export] Instance OCQualityOfService_eq_dec : EqDecision OCQualityOfService.
Proof. solve_decision. Defined.

Inductive OCMode := OC_CLIENT | OC_SERVER | OC_CLIENT_SERVER | OC_GATEWAY.
#[export] Instance OCMode_eq_dec : EqDecision OCMode.
Proof. solve_decision. Defined.

(** The endpoint of the connectivity layer with the data for routing. *)
Record OCDevAddr := {
  dev_endpoint : CAEndpoint_t;
  routeData : list Z;
}.
#[export] Instance OCDevAddr_eq_dec : EqDecision OCDevAddr.
Proof. solve_decision. Defined.

(** The same members and the same room for data as in the connectivity layer;
    the code copies one as the other. *)
Notation OCHeaderOption := CAHeaderOption_t.
Definition MAX_HEADER_OPTIONS : Z := 50.
Definition MAX_URI_LENGTH : Z := 256.
Definition MAX_QUERY_LENGTH : Z := 256.

(** ** Tokens *)

(** [memcmp] of two pointers, equal or not: both have [n] bytes. *)
Definition memcmp_eq (a b : option (list Z)) (n : Z) : ub bool :=
  match a, b with
  | Some x, Some y => x' ← read_at x 0 n; y' ← read_at y 0 n; Some (bool_decide (x' = y'))
  | _, _ => None
  end.

Lemma memcmp_prefix x y : (length y <= length x)%nat ->
  memcmp_eq (Some x) (Some y) (Z.of_nat (length y)) = Some (bool_decide (take (length y) x = y)).
Proof.
  intros Hl. unfold memcmp_eq, read_at. rewrite !decide_True by lia. cbn.
  by rewrite !drop_0, !Nat2Z.id, firstn_all.
Qed.

Lemma memcmp_same x y : length x = length y ->
  memcmp_eq (Some x) (Some y) (Z.of_nat (length y)) = Some (bool_decide (x = y)).
Proof. intros Hl. rewrite memcmp_prefix by lia. by rewrite <- Hl, firstn_all. Qed.

(** ** Linked lists

    A list whose nodes are told apart by their addresses; the head is NULL
    when the list is empty. *)
Class Node (A : Type) := node_addr : A -> positive.

Section Lists.
Context {A : Type} `{Node A}.

Definition addrs (l : list A) : list positive := node_addr <$> l.

Definition LL_APPEND (l : list A) (x : A) : list A := l ++ [x].

(** A node that is not in the list is not found; the macro reads the first. *)
Fixpoint unlink (del : positive) (l : list A) : list A :=
  match l with
  | [] => []
  | x :: l' => if decide (node_addr x = del) then l' else x :: unlink del l'
  end.

Definition LL_DELETE (l : list A) (del : positive) : ub (list A) :=
  match l with [] => None | _ => Some (unlink del l) end.

Definition node_at (a : positive) (l : list A) : option A := find (fun x => bool_decide (node_addr x = a)) l.

(** A change of the node at an address. *)
Definition on_addr (a : positive) (f : A -> A) (l : list A) : list A :=
  (fun x => if decide (node_addr x = a) then f x else x) <$> l.

(** An address that no node of the list has. *)
Definition new_address (l : list A) : positive := fresh (list_to_set (addrs l) : gset positive).

Lemma new_address_fresh l : new_address l ∉ addrs l.
Proof. unfold new_address. pose proof (is_fresh (list_to_set (addrs l) : gset positive)). set_solver. Qed.

Lemma unlink_missing a l : a ∉ addrs l -> unlink a l = l.
Proof.
  induction l as [|x l IH]; [done|]. cbn. intros Hn.
  rewrite decide_False by (intros <-; apply Hn; left). f_equal. apply IH. intros Hx. apply Hn. by right.
Qed.

Lemma unlink_middle l x r : node_addr x ∉ addrs l -> unlink (node_addr x) (l ++ x :: r) = l ++ r.
Proof.
  induction l as [|y l IH]; cbn; intros Hn; [by rewrite decide_True|].
  rewrite decide_False by (intros E; apply Hn; rewrite <- E; left). f_equal. apply IH. intros Hx. apply Hn. by right.
Qed.

Lemma LL_DELETE_middle l x r : node_addr x ∉ addrs l -> LL_DELETE (l ++ x :: r) (node_addr x) = Some (l ++ r).
Proof. intros Hn. unfold LL_DELETE. rewrite unlink_middle by done. by destruct l. Qed.

Lemma node_at_middle l x r : node_addr x ∉ addrs l -> node_at (node_addr x) (l ++ x :: r) = Some x.
Proof.
  unfold node_at. induction l as [|y l IH]; cbn; intros Hn; [by rewrite bool_decide_true|].
  rewrite bool_decide_false by (intros E; apply Hn; rewrite <- E; left). apply IH. intros Hx. apply Hn. by right.
Qed.

Lemma node_at_there a l x : node_at a l = Some x -> a ∈ addrs l.
Proof.
  unfold node_at. induction l as [|c l IH]; [done|]. cbn. case_bool_decide as E; [intros _; rewrite <- E; left|].
  intros Hx. right. by apply IH.
Qed.

Lemma node_at_addr a l x : node_at a l = Some x -> node_addr x = a /\ x ∈ l.
Proof.
  unfold node_at. induction l as [|c l IH]; [done|]. cbn. case_bool_decide as E; [intros [= <-]; split; [done|left]|].
  intros Hx. destruct (IH Hx). split; [done|by right].
Qed.

Lemma node_at_in l x : NoDup (addrs l) -> x ∈ l -> node_at (node_addr x) l = Some x.
Proof.
  intros Hd (l1 & l2 & ->)%list_elem_of_split. apply node_at_middle.
  unfold addrs in Hd. rewrite fmap_app, fmap_cons in Hd. apply NoDup_app in Hd as (_ & Hd & _).
  intros Hx. apply (Hd _ Hx). left.
Qed.

Lemma on_addr_addrs a f l : (forall x, node_addr (f x) = node_addr x) -> addrs (on_addr a f l) = addrs l.
Proof.
  intros Hf. unfold addrs, on_addr. rewrite <- list_fmap_compose. apply list_fmap_ext. intros _ c _. unfold compose.
  case_decide; [apply Hf|done].
Qed.

Lemma on_addr_at a f l x : (forall x, node_addr (f x) = node_addr x) -> node_at a l = Some x ->
  node_at a (on_addr a f l) = Some (f x).
Proof.
  intros Hf. unfold node_at, on_addr. induction l as [|c l IH]; [done|]. cbn. case_bool_decide as E.
  - intros [= ->]. by rewrite decide_True, Hf, bool_decide_true by done.
  - by rewrite decide_False, bool_decide_false by done.
Qed.

Lemma on_addr_other a f l : a ∉ addrs l -> on_addr a f l = l.
Proof.
  unfold on_addr. induction l as [|c l IH]; [done|]. cbn. intros Hn. rewrite decide_False by (intros <-; apply Hn; left).
  f_equal. apply IH. intros Hx. apply Hn. by right.
Qed.

Lemma on_addr_ext a f g l x : NoDup (addrs l) -> node_at a l = Some x -> f x = g x -> on_addr a f l = on_addr a g l.
Proof.
  intros Hd E Hfg. unfold on_addr. apply list_fmap_ext. intros i y Hy. case_decide as Ea; [|done].
  apply list_elem_of_lookup_2 in Hy. rewrite <- Ea, (node_at_in l y Hd Hy) in E. by inversion E.
Qed.

Lemma on_addr_id a l : on_addr a (fun x => x) l = l.
Proof. unfold on_addr. transitivity (id <$> l); [|apply list_fmap_id]. apply list_fmap_ext. intros i y _. by case_decide. Qed.

Lemma on_addr_twice a f g l : (forall x, node_addr (f x) = node_addr x) ->
  on_addr a g (on_addr a f l) = on_addr a (fun x => g (f x)) l.
Proof.
  intros Hf. unfold on_addr. rewrite <- list_fmap_compose. apply list_fmap_ext. intros i y _. unfold compose.
  cbn beta. destruct (decide (node_addr y = a)); [by rewrite Hf, decide_True|by rewrite decide_False].
Qed.

Lemma on_addr_middle f l x r : NoDup (addrs (l ++ x :: r)) -> on_addr (node_addr x) f (l ++ x :: r) = l ++ f x :: r.
Proof.
  unfold addrs. rewrite fmap_app, fmap_cons. intros (_ & Hd & Hr)%NoDup_app. apply NoDup_cons in Hr as [Hr _].
  unfold on_addr. rewrite fmap_app, fmap_cons, decide_True by done.
  pose proof (on_addr_other (node_addr x) f l) as E1. pose proof (on_addr_other (node_addr x) f r Hr) as E2.
  unfold on_addr in E1, E2. rewrite E1, E2; [done|]. intros Hx. apply (Hd _ Hx). left.
Qed.

Lemma on_addr_last f l x : node_addr x ∉ addrs l -> on_addr (node_addr x) f (l ++ [x]) = l ++ [f x].
Proof.
  intros Hn. pose proof (on_addr_other (node_addr x) f l Hn) as E. unfold on_addr in *.
  rewrite fmap_app, E. cbn. by rewrite decide_True.
Qed.

Lemma addrs_app l r : addrs (l ++ r) = addrs l ++ addrs r.
Proof. apply fmap_app. Qed.
End Lists.
