(* ===== verification/ClientCb.v ===== *)
(** * ClientCb: the callbacks of the requests a client has sent

    Models [csdk/stack/src/occlientcb.c]: [g_cbList], the list of requests that
    wait for responses, each with its token, the application's callback, the
    time until which it waits and what has to be released with it.  Built with
    [WITH_PRESENCE].  The clock stands still during an operation.  The functions
    of the application that delete a context only show in [cl_events]. *)
From S2P Require Import Prelude Effects OicString Heap CaCommon CaMessage StackTypes.

(** [timeOut] has [PresenceTimeOutSize] entries. *)
Record OCPresence := {
  presence_TTL : Z;
  timeOut : option (list Z);
  TTLlevel : Z;
}.

(** [conType] is never set and never read. *)
Record ClientCB := {
  cb_addr : positive;
  callBack : Z;
  context : Z;
  deleteCallback : option Z;
  cb_type : CAMessageType_t;
  cb_token : option (list Z);
  cb_tokenLength : Z;
  cb_options : option (list CAHeaderOption_t);
  cb_numOptions : Z;
  cb_payload : option (list Z);
  cb_payloadSize : Z;
  cb_payloadFormat : CAPayloadFormat_t;
  handle : option positive;
  cb_method : OCMethod;
  sequenceNumber : Z;
  cb_requestUri : option (list Z);
  cb_devAddr : option OCDevAddr;
  presence : option OCPresence;
  interestingPresenceResourceType : list (option (list Z));
  TTL : Z;
}.

#[export] Instance ClientCB_Node : Node ClientCB := cb_addr.

Record OCCallbackData := { cbd_context : Z; cb : Z; cd : option Z }.

(** [ContextDeleted f c]: the application's [f] is called with [c]. *)
Inductive client_event := ContextDeleted (f c : Z).

Record client := {
  cl_heap : heap;
  g_cbList : list ClientCB;
  cl_now : Z;
  cl_events : list client_event;
}.

Definition set_cl_heap (h : heap) (s : client) : client :=
  {| cl_heap := h; g_cbList := g_cbList s; cl_now := cl_now s; cl_events := cl_events s |}.
Definition set_cbList (l : list ClientCB) (s : client) : client :=
  {| cl_heap := cl_heap s; g_cbList := l; cl_now := cl_now s; cl_events := cl_events s |}.
Definition add_events (es : list client_event) (s : client) : client :=
  {| cl_heap := cl_heap s; g_cbList := g_cbList s; cl_now := cl_now s; cl_events := cl_events s ++ es |}.

#[export] Program Instance client_HasHeap : HasHeap client := {| heap_of := cl_heap; with_heap := set_cl_heap |}.
Next Obligation. done. Qed.
Next Obligation. by intros []. Qed.
Next Obligation. done. Qed.

(** ** Deleting *)

(** The block of a token starts before the token.  *)
Definition CADestroyToken (token : option (list Z)) : M heap unit := OICFree token.

Definition call_deleter (f : option Z) (c : Z) : M client unit :=
  match f with Some f => modify (add_events [ContextDeleted f c]) | None => mret tt end.

Fixpoint free_types (l : list (option (list Z))) : M heap unit :=
  match l with
  | [] => mret tt
  | name :: l' => _ ← OICFree name; _ ← OICFree (Some tt); free_types l'
  end.

Definition free_presence (p : option OCPresence) : M heap unit :=
  match p with Some p => _ ← OICFree (timeOut p); OICFree (Some p) | None => mret tt end.

Definition free_members (cbNode : ClientCB) : M heap unit :=
  _ ← CADestroyToken (cb_token cbNode);
  _ ← OICFree (cb_devAddr cbNode);
  _ ← OICFree (handle cbNode);
  _ ← OICFree (cb_requestUri cbNode);
  _ ← OICFree (cb_options cbNode);
  _ ← OICFree (cb_payload cbNode);
  _ ← free_presence (presence cbNode);
  if decide (cb_method cbNode = OC_REST_PRESENCE) then free_types (interestingPresenceResourceType cbNode)
  else mret tt.

Definition DeleteClientCBInternal (cbNode : ClientCB) : M client unit :=
  l ← gets g_cbList;
  l' ← lift (LL_DELETE l (cb_addr cbNode));
  _ ← modify (set_cbList l');
  _ ← in_heap (free_members cbNode);
  _ ← call_deleter (deleteCallback cbNode) (context cbNode);
  in_heap (OICFree (Some cbNode)).

Definition timed_out (now : Z) (cbNode : ClientCB) : bool := negb (TTL cbNode =? 0) && (TTL cbNode <? now).

Definition CheckAndDeleteTimedOutCB (cbNode : ClientCB) : M client unit :=
  now ← gets cl_now;
  if timed_out now cbNode then DeleteClientCBInternal cbNode else mret tt.

Fixpoint delete_if_there (cbNode : positive) (l : list ClientCB) : M client unit :=
  match l with
  | [] => mret tt
  | out :: l' => if decide (cb_addr out = cbNode) then DeleteClientCBInternal out else delete_if_there cbNode l'
  end.

Definition DeleteClientCB (cbNode : option positive) : M client unit :=
  match cbNode with
  | None => mret tt
  | Some a => l ← gets g_cbList; delete_if_there a l
  end.

Fixpoint delete_each (l : list ClientCB) : M client unit :=
  match l with [] => mret tt | out :: l' => _ ← DeleteClientCBInternal out; delete_each l' end.

Definition DeleteClientCBList : M client unit :=
  l ← gets g_cbList; _ ← delete_each l; modify (set_cbList []).

(** ** Looking up

    The three loops take what they look for as a test of a node, which may be
    undefined, and go over the nodes the list has at the start; only the node
    at hand is ever deleted. *)
Fixpoint find_cb (hit : ClientCB -> ub bool) (l : list ClientCB) : M client (option positive) :=
  match l with
  | [] => mret None
  | out :: l' =>
      b ← lift (hit out);
      if b : bool then mret (Some (cb_addr out)) else _ ← CheckAndDeleteTimedOutCB out; find_cb hit l'
  end.

(** The token of a node is compared with as many bytes as are asked for. *)
Definition token_hit (token : list Z) (tokenLength : Z) (cbNode : ClientCB) : ub bool :=
  memcmp_eq (cb_token cbNode) (Some token) tokenLength.

Definition GetClientCBUsingToken (token : option (list Z)) (tokenLength : Z) : M client (option positive) :=
  match token with
  | Some t =>
      if (CA_MAX_TOKEN_LEN <? tokenLength) || (tokenLength <=? 0) then mret None
      else l ← gets g_cbList; find_cb (token_hit t tokenLength) l
  | None => mret None
  end.

Definition GetClientCBUsingHandle (h : option positive) : M client (option positive) :=
  match h with
  | Some _ => l ← gets g_cbList; find_cb (fun out => Some (bool_decide (handle out = h))) l
  | None => mret None
  end.

Definition GetClientCBUsingUri (requestUri : option (list Z)) : M client (option positive) :=
  match requestUri with
  | Some u => l ← gets g_cbList; find_cb (fun out => Some (bool_decide (cb_requestUri out = Some u))) l
  | None => mret None
  end.

(** ** Adding *)

Definition sizeof_ClientCB : Z := 224.
Definition sizeof_resource_type : Z := 16.
Definition sizeof_header_option : Z := 1032.

Definition set_types (l : list (option (list Z))) (c : ClientCB) : ClientCB := {|
  cb_addr := cb_addr c; callBack := callBack c; context := context c; deleteCallback := deleteCallback c;
  cb_type := cb_type c; cb_token := cb_token c; cb_tokenLength := cb_tokenLength c; cb_options := cb_options c;
  cb_numOptions := cb_numOptions c; cb_payload := cb_payload c; cb_payloadSize := cb_payloadSize c;
  cb_payloadFormat := cb_payloadFormat c; handle := handle c; cb_method := cb_method c;
  sequenceNumber := sequenceNumber c; cb_requestUri := cb_requestUri c; cb_devAddr := cb_devAddr c;
  presence := presence c; interestingPresenceResourceType := l; TTL := TTL c |}.

Definition InsertResourceTypeFilter (cbNode : positive) (resourceTypeName : list Z) : M client OCStackResult :=
  ok ← in_heap (OICMalloc sizeof_resource_type);
  if negb ok then mret OC_STACK_NO_MEMORY
  else
    _ ← modify (fun s => set_cbList (on_addr cbNode (fun c =>
          set_types (interestingPresenceResourceType c ++ [Some resourceTypeName]) c) (g_cbList s)) s);
    mret OC_STACK_OK.

(** A block with a copy of the first [n] entries of [src]: [None] when there is
    no memory, [Some None] when there is nothing to copy. *)
Definition copy_array {A} (src : option (list A)) (n num size : Z) : M heap (option (option (list A))) :=
  match src with
  | Some l =>
      if n =? 0 then mret (Some None)
      else
        ok ← OICCalloc num size;
        if ok : bool then v ← lift (read_at l 0 n); mret (Some (Some v)) else mret None
  | None => mret (Some None)
  end.

(** What [AddClientCB] takes over from its caller. *)
Record moved := {
  mv_token : option (list Z);
  mv_handle : option positive;
  mv_devAddr : option OCDevAddr;
  mv_requestUri : option (list Z);
}.

Definition ttl_of (method : OCMethod) (ttl : Z) : Z :=
  match method with OC_REST_PRESENCE | OC_REST_OBSERVE | OC_REST_OBSERVE_ALL => 0 | _ => ttl end.

(** The new node, appended; [inr] is the error it returns, after which
    [*clientCB] has the value of the second component. *)
Definition new_node (clientCB : option positive) (cbData : OCCallbackData) (type : CAMessageType_t) (mv : moved)
    (tokenLength : Z) (options : option (list CAHeaderOption_t)) (numOptions : Z) (payload : option (list Z))
    (payloadSize : Z) (payloadFormat : CAPayloadFormat_t) (method : OCMethod) (ttl : Z)
    : M client (positive + option positive) :=
  ok ← in_heap (OICMalloc sizeof_ClientCB);
  if negb ok then mret (inr None)
  else
    opts ← in_heap (copy_array options numOptions numOptions sizeof_header_option);
    match opts with
    | None => _ ← in_heap (OICFree (Some tt)); mret (inr clientCB)
    | Some opts =>
        pl ← in_heap (copy_array payload payloadSize 1 payloadSize);
        match pl with
        | None => _ ← in_heap (OICFree opts); _ ← in_heap (OICFree (Some tt)); mret (inr clientCB)
        | Some pl =>
            l ← gets g_cbList;
            let node := {|
              cb_addr := new_address l; callBack := cb cbData; context := cbd_context cbData;
              deleteCallback := cd cbData; cb_type := type; cb_token := mv_token mv; cb_tokenLength := tokenLength;
              cb_options := opts; cb_numOptions := if opts then numOptions else 0;
              cb_payload := pl; cb_payloadSize := if pl then payloadSize else 0;
              cb_payloadFormat := payloadFormat; handle := mv_handle mv; cb_method := method;
              sequenceNumber := 0; cb_requestUri := mv_requestUri mv; cb_devAddr := mv_devAddr mv;
              presence := None; interestingPresenceResourceType := []; TTL := ttl_of method ttl |} in
            _ ← modify (set_cbList (LL_APPEND l node)); mret (inl (cb_addr node))
        end
    end.

(** The node found takes the place of the new one, whose parts are released. *)
Definition join_node (a : positive) (cbData : OCCallbackData) (mv : moved) : M client (option positive) :=
  _ ← call_deleter (cd cbData) (cbd_context cbData);
  _ ← in_heap (CADestroyToken (mv_token mv));
  _ ← in_heap (OICFree (mv_handle mv));
  _ ← in_heap (OICFree (mv_requestUri mv));
  _ ← in_heap (OICFree (mv_devAddr mv));
  l ← gets g_cbList;
  node ← lift (node_at a l);
  mret (handle node).

Definition add_type (a : positive) (method : OCMethod) (resourceTypeName : option (list Z)) : M client OCStackResult :=
  match resourceTypeName with
  | Some t =>
      if decide (method = OC_REST_PRESENCE) then InsertResourceTypeFilter a t
      else _ ← in_heap (OICFree resourceTypeName); mret OC_STACK_OK
  | None => mret OC_STACK_OK
  end.

(** Of the pointers to pointers [clientCB] and [handle] the values before are
    given, and those after returned with the result. *)
Definition AddClientCB (clientCB : option (option positive)) (cbData : option OCCallbackData) (type : CAMessageType_t)
    (token : option (list Z)) (tokenLength : Z) (options : option (list CAHeaderOption_t)) (numOptions : Z)
    (payload : option (list Z)) (payloadSize : Z) (payloadFormat : CAPayloadFormat_t)
    (hnd : option (option positive)) (method : OCMethod) (devAddr : option OCDevAddr)
    (requestUri resourceTypeName : option (list Z)) (ttl : Z)
    : M client (OCStackResult * option positive * option positive) :=
  match clientCB, cbData, hnd with
  | Some out, Some data, Some h =>
      if CA_MAX_TOKEN_LEN <? tokenLength then mret (OC_STACK_INVALID_PARAM, out, h)
      else
        let mv := {| mv_token := token; mv_handle := h; mv_devAddr := devAddr; mv_requestUri := requestUri |} in
        found ← (if decide (method = OC_REST_PRESENCE) then GetClientCBUsingUri requestUri else mret None);
        match found with
        | None =>
            r ← new_node out data type mv tokenLength options numOptions payload payloadSize payloadFormat method ttl;
            match r with
            | inl a => res ← add_type a method resourceTypeName; mret (res, Some a, h)
            | inr out' => mret (OC_STACK_NO_MEMORY, out', h)
            end
        | Some a =>
            h' ← join_node a data mv;
            res ← add_type a method resourceTypeName; mret (res, Some a, h')
        end
  | _, _, _ => mret (OC_STACK_INVALID_PARAM, default None clientCB, default None hnd)
  end.

(** ** Blocks of a node *)

Definition types_blocks (l : list (option (list Z))) : Z := foldr (fun n a => blk n + 1 + a) 0 l.

Definition presence_blocks (p : option OCPresence) : Z :=
  match p with Some p => blk (timeOut p) + 1 | None => 0 end.

(** What a node owns beside its types, and all it owns. *)
Definition members (c : ClientCB) : Z :=
  blk (cb_token c) + blk (cb_devAddr c) + blk (handle c) + blk (cb_requestUri c) + blk (cb_options c) +
  blk (cb_payload c) + presence_blocks (presence c).
Definition owned (c : ClientCB) : Z := members c + types_blocks (interestingPresenceResourceType c) + 1.
Definition owned_all (l : list ClientCB) : Z := foldr (fun c a => owned c + a) 0 l.

(** Only a request for presence has types to filter by. *)
Definition types_ok (c : ClientCB) : Prop := interestingPresenceResourceType c = [] \/ cb_method c = OC_REST_PRESENCE.

Record list_ok (l : list ClientCB) : Prop := {
  ok_addrs : NoDup (addrs l);
  ok_types : Forall types_ok l;
}.

(** Blocks in use that are not the list's. *)
Definition others (s : client) : Z := live (cl_heap s) - owned_all (g_cbList s).

Definition events_of (c : ClientCB) : list client_event :=
  match deleteCallback c with Some f => [ContextDeleted f (context c)] | None => [] end.

(** The list is [l] now, and the nodes [ds] have been deleted. *)
Definition gone (ds l : list ClientCB) (s : client) : client :=
  set_cbList l (grow (- owned_all ds) (add_events (flat_map events_of ds) s)).

Lemma owned_all_app l r : owned_all (l ++ r) = owned_all l + owned_all r.
Proof. unfold owned_all. induction l as [|x l IH]; cbn [foldr app]; lia. Qed.

Lemma gone_nil s : gone [] (g_cbList s) s = s.
Proof.
  destruct s as [h l n es]. unfold gone. cbn [owned_all foldr flat_map]. change (- 0) with 0.
  rewrite grow_0. unfold add_events, set_cbList. cbn. by rewrite app_nil_r.
Qed.

Lemma gone_gone ds l ds' l' s : gone ds' l' (gone ds l s) = gone (ds ++ ds') l' s.
Proof.
  destruct s as [h l0 n es]. unfold gone, grow, add_events, set_cbList, set_cl_heap, add_live. cbn.
  rewrite owned_all_app, flat_map_app, app_assoc. do 2 f_equal. lia.
Qed.

Lemma others_gone ds l s : owned_all (g_cbList s) = owned_all ds + owned_all l -> others (gone ds l s) = others s.
Proof. intros E. unfold others, gone, grow, add_live. cbn [g_cbList cl_heap set_cbList with_heap client_HasHeap set_cl_heap live heap_of add_events]. rewrite E. lia. Qed.

Lemma frees_free_types l : frees (free_types l) (types_blocks l).
Proof.
  induction l as [|n l IH]; [apply frees_ret|]. eapply frees_eq.
  - cbn [free_types]. apply frees_bind; [apply frees_ptr|]. apply frees_bind; [apply frees_ptr|exact IH].
  - unfold types_blocks. cbn [foldr blk]. lia.
Qed.

Lemma frees_presence p : frees (free_presence p) (presence_blocks p).
Proof. destruct p as [p|]; [|apply frees_ret]. apply frees_bind; [apply frees_ptr|]. apply (frees_ptr (Some p)). Qed.

Lemma frees_members c : types_ok c ->
  frees (free_members c) (members c + types_blocks (interestingPresenceResourceType c)).
Proof.
  intros Ht. eapply frees_eq.
  - unfold free_members, CADestroyToken. do 6 (apply frees_bind; [apply frees_ptr|]).
    apply frees_bind; [apply frees_presence|].
    instantiate (1 := types_blocks (interestingPresenceResourceType c)).
    destruct Ht as [E|E]; [|rewrite decide_True by done; apply frees_free_types].
    rewrite E. case_decide; apply frees_ret.
  - unfold members. lia.
Qed.

Lemma run_deleter c s :
  call_deleter (deleteCallback c) (context c) s = Some (tt, add_events (events_of c) s).
Proof.
  unfold call_deleter, events_of. destruct (deleteCallback c); [done|]. destruct s. unfold add_events. cbn.
  by rewrite app_nil_r.
Qed.

Lemma delete_run l c r s : g_cbList s = l ++ c :: r -> cb_addr c ∉ addrs l -> types_ok c ->
  DeleteClientCBInternal c s = Some (tt, gone [c] (l ++ r) s).
Proof.
  intros E Hn Ht. unfold DeleteClientCBInternal. step (run_gets g_cbList s).
  assert (LL_DELETE (g_cbList s) (cb_addr c) = Some (l ++ r)) as D by (rewrite E; by apply LL_DELETE_middle).
  step (run_lift _ _ s D). step (run_modify _ s).
  step (in_heap_frees _ _ _ (frees_members c Ht)). step (run_deleter c _).
  rewrite (in_heap_frees _ _ _ (frees_ptr (Some c))). destruct s as [h l0 n es].
  unfold gone, grow, add_events, set_cbList, set_cl_heap, add_live. unfold owned_all, owned.
  cbn [foldr blk flat_map set_cbList set_cl_heap with_heap client_HasHeap heap_of cl_heap g_cbList cl_now cl_events
    hp_allocs live].
  unfold set_cl_heap. cbn [g_cbList cl_now cl_events cl_heap hp_allocs live].
  rewrite app_nil_r. do 4 f_equal. lia.
Qed.

(** ** Lookups *)

(** The nodes before the first that satisfies [h], and from it on. *)
Fixpoint before (h : ClientCB -> bool) (l : list ClientCB) : list ClientCB :=
  match l with [] => [] | c :: l' => if h c then [] else c :: before h l' end.
Fixpoint from (h : ClientCB -> bool) (l : list ClientCB) : list ClientCB :=
  match l with [] => [] | c :: l' => if h c then l else from h l' end.

Lemma before_from h l : before h l ++ from h l = l.
Proof. induction l as [|c l IH]; cbn; [done|]. destruct (h c); [done|]. cbn. by rewrite IH. Qed.

Definition expired (now : Z) (l : list ClientCB) : list ClientCB := List.filter (timed_out now) l.
Definition waiting (now : Z) (l : list ClientCB) : list ClientCB := List.filter (fun c => negb (timed_out now c)) l.

Lemma owned_split now l : owned_all l = owned_all (expired now l) + owned_all (waiting now l).
Proof.
  unfold owned_all, expired, waiting. induction l as [|c l IH]; [done|]. cbn [List.filter foldr].
  destruct (timed_out now c); cbn [negb foldr]; lia.
Qed.

(** What a search leaves of the list. *)
Definition searched (now : Z) (h : ClientCB -> bool) (l : list ClientCB) : list ClientCB :=
  waiting now (before h l) ++ from h l.

Lemma check_run l c r s : g_cbList s = l ++ c :: r -> cb_addr c ∉ addrs l -> types_ok c ->
  CheckAndDeleteTimedOutCB c s =
    Some (tt, if timed_out (cl_now s) c then gone [c] (l ++ r) s else s).
Proof.
  intros E Hn Ht. unfold CheckAndDeleteTimedOutCB. step (run_gets cl_now s).
  destruct (timed_out (cl_now s) c); [by apply (delete_run l c r)|done].
Qed.

Lemma list_ok_remove l c r : list_ok (l ++ c :: r) -> list_ok (l ++ r) /\ cb_addr c ∉ addrs l /\ types_ok c.
Proof.
  intros [Ha Ht]. rewrite addrs_app in Ha. apply NoDup_app in Ha as (Hl & Hd & Hr).
  apply NoDup_cons in Hr as [Hc Hr]. apply Forall_app in Ht as [Htl Htr]. apply Forall_cons in Htr as [Htc Htr].
  split; [split|split].
  - rewrite addrs_app. apply NoDup_app. split; [done|]. split; [|done]. intros x Hx Hx'. apply (Hd x Hx). by right.
  - by apply Forall_app.
  - intros Hx. apply (Hd _ Hx). left.
  - done.
Qed.

Lemma find_cb_run hit h todo : Forall (fun c => hit c = Some (h c)) todo ->
  forall kept s, g_cbList s = kept ++ todo -> list_ok (kept ++ todo) ->
  find_cb hit todo s = Some (cb_addr <$> head (from h todo),
    gone (expired (cl_now s) (before h todo)) (kept ++ searched (cl_now s) h todo) s).
Proof.
  induction todo as [|c todo IH]; intros Hh kept s E Hok.
  - cbn. by rewrite <- E, gone_nil.
  - apply Forall_cons in Hh as [Hc Hh]. destruct (list_ok_remove _ _ _ Hok) as (Hok' & Hn & Ht).
    cbn [find_cb]. step (run_lift _ _ s Hc). unfold searched. cbn [before from]. destruct (h c).
    + cbn. by rewrite <- E, gone_nil.
    + step (check_run _ _ _ _ E Hn Ht). unfold expired, waiting. cbn [List.filter].
      destruct (timed_out (cl_now s) c); cbn [negb].
      * rewrite (IH Hh kept (gone [c] (kept ++ todo) s)) by done. by rewrite gone_gone.
      * rewrite (cons_middle c kept todo), app_assoc in E, Hok.
        rewrite (IH Hh (kept ++ [c]) s E Hok). by rewrite <- app_assoc.
Qed.

Lemma waiting_sublist now l : waiting now l `sublist_of` l.
Proof. induction l as [|c l IH]; [done|]. cbn. destruct (negb _); [by apply sublist_skip|by apply sublist_cons]. Qed.

Lemma list_ok_sublist l l' : l' `sublist_of` l -> list_ok l -> list_ok l'.
Proof.
  intros Hs [Ha Ht]. split.
  - eapply sublist_NoDup; [exact Ha|]. clear -Hs.
    induction Hs; [done|by apply sublist_skip|by apply sublist_cons].
  - clear Ha. induction Hs; [done| |]; apply Forall_cons in Ht as [Hc Ht]; auto.
Qed.

Lemma searched_ok now h l : list_ok l -> list_ok (searched now h l).
Proof.
  apply list_ok_sublist. rewrite <- (before_from h l) at 2. apply sublist_app; [apply waiting_sublist|done].
Qed.

Lemma owned_searched now h l : owned_all l = owned_all (expired now (before h l)) + owned_all (searched now h l).
Proof.
  unfold searched. rewrite owned_all_app, Z.add_assoc, <- owned_split, <- owned_all_app. by rewrite before_from.
Qed.

Lemma from_head h l c r : from h l = c :: r -> h c = true.
Proof. induction l as [|x l IH]; cbn; [done|]. destruct (h x) eqn:E; [intros [= -> _]; done|done]. Qed.

(** One search: what it returns and what it leaves. *)
Lemma search_run hit h s : list_ok (g_cbList s) -> Forall (fun c => hit c = Some (h c)) (g_cbList s) ->
  find_cb hit (g_cbList s) s = Some (cb_addr <$> head (from h (g_cbList s)),
    gone (expired (cl_now s) (before h (g_cbList s))) (searched (cl_now s) h (g_cbList s)) s).
Proof. intros Hok Hh. by apply (find_cb_run hit h _ Hh [] s). Qed.

Lemma node_at_searched now h l c r : list_ok l -> from h l = c :: r ->
  node_at (cb_addr c) (searched now h l) = Some c.
Proof.
  intros Hok E. pose proof (ok_addrs _ (searched_ok now h l Hok)) as Ha. unfold searched in *. rewrite E in *.
  apply (node_at_middle (waiting now (before h l)) c r). rewrite addrs_app in Ha. apply NoDup_app in Ha as (_ & Hd & _).
  intros Hx. apply (Hd _ Hx). left.
Qed.

(** ** Adding: who owns what afterwards *)

Definition copyable {A} (src : option (list A)) (n num size : Z) : Prop :=
  match src with
  | Some l => n = 0 \/ (0 < n <= Z.of_nat (length l) /\ num <> 0 /\ size <> 0 /\ num * size <= SIZE_MAX)
  | None => True
  end.

Lemma wp_copy_array {A} (src : option (list A)) n num size h Q : copyable src n num size ->
  (forall v h', took h (blk v) h' -> Q (Some v) h') ->
  (hp_allocs h <> [] -> forall h', took h 0 h' -> Q None h') -> wp (copy_array src n num size) h Q.
Proof.
  unfold copy_array. intros Hc Ht Hf. destruct src as [l|]; [|apply wp_ret, Ht, took_refl].
  destruct (Z.eqb_spec n 0) as [->|Hn]; [apply wp_ret, Ht, took_refl|].
  destruct Hc as [?|(Hl & Hnum & Hs & Hm)]; [done|]. apply wp_bind, wp_asks; [by apply asks_calloc| |].
  - intros h' Hk. eapply wp_bind, wp_lift; [unfold read_at; by rewrite decide_True by lia|].
    apply wp_ret. by apply Ht.
  - intros Hne h' Hk. by apply wp_ret, Hf.
Qed.

Definition moved_blocks (mv : moved) : Z :=
  blk (mv_token mv) + blk (mv_handle mv) + blk (mv_devAddr mv) + blk (mv_requestUri mv).

(** [n] blocks have become the list's or have been released; an allocator that
    does not fail stays one. *)
Definition gave (s : client) (n : Z) (s' : client) : Prop :=
  others s' = others s - n /\ (hp_allocs (cl_heap s) = [] -> hp_allocs (cl_heap s') = []).

Lemma gave_trans s a s1 b s2 n : gave s a s1 -> gave s1 b s2 -> n = a + b -> gave s n s2.
Proof. intros [? ?] [? ?] ->. split; [lia|auto]. Qed.

Lemma gave_heap s n h' : took (cl_heap s) (- n) h' -> gave s n (set_cl_heap h' s).
Proof. intros [E Ha]. split; [|exact Ha]. unfold others. cbn [cl_heap g_cbList set_cl_heap]. lia. Qed.

Lemma gave_search now h s :
  gave s 0 (gone (expired now (before h (g_cbList s))) (searched now h (g_cbList s)) s).
Proof. split; [|done]. rewrite others_gone; [lia|apply owned_searched]. Qed.

Lemma wp_free_in {A} (p : option A) s (Q : unit -> client -> Prop) :
  (forall s', gave s (blk p) s' -> g_cbList s' = g_cbList s -> Q tt s') -> wp (in_heap (OICFree p)) s Q.
Proof.
  intros H. apply wp_in_heap. eapply wp_frees; [apply frees_ptr|]. intros h' Hk. apply H; [|done].
  by apply gave_heap.
Qed.

Lemma wp_asks_in m s (Q : bool -> client -> Prop) : asks m ->
  (forall s', gave s (-1) s' -> g_cbList s' = g_cbList s -> Q true s') ->
  (hp_allocs (cl_heap s) <> [] -> forall s', gave s 0 s' -> g_cbList s' = g_cbList s -> Q false s') ->
  wp (in_heap m) s Q.
Proof.
  intros Hm Ht Hf. apply wp_in_heap, wp_asks; [done| |].
  - intros h' Hk. apply Ht; [by apply (gave_heap s (-1))|done].
  - intros Hne h' Hk. apply Hf; [done|by apply (gave_heap s 0)|done].
Qed.

Lemma on_node_middle f l c r : list_ok (l ++ c :: r) -> on_addr (cb_addr c) f (l ++ c :: r) = l ++ f c :: r.
Proof. intros [Ha _]. exact (on_addr_middle f l c r Ha). Qed.

Lemma node_at_split a l c : node_at a l = Some c -> cb_addr c = a /\ exists l1 l2, l = l1 ++ c :: l2.
Proof.
  unfold node_at. induction l as [|x l IH]; [done|]. cbn. case_bool_decide as E.
  - intros [= ->]. split; [done|]. by exists [], l.
  - intros H. destruct (IH H) as (Ea & l1 & l2 & ->). split; [done|]. by exists (x :: l1), l2.
Qed.

(** The node [out] points to holds [h]. *)
Definition holds (out : option positive) (h : option positive) (l : list ClientCB) : Prop :=
  exists a c, out = Some a /\ node_at a l = Some c /\ handle c = h.

Lemma node_at_first (l : list ClientCB) c r :
  list_ok (l ++ c :: r) -> node_at (cb_addr c) (l ++ c :: r) = Some c.
Proof.
  intros [Ha _]. rewrite addrs_app in Ha. apply NoDup_app in Ha as (_ & Hd & _).
  apply (node_at_middle l c r). intros Hx. apply (Hd _ Hx). left.
Qed.

Lemma types_blocks_snoc l t : types_blocks (l ++ [Some t]) = types_blocks l + 2.
Proof. unfold types_blocks. induction l as [|n l IH]; cbn [foldr app blk]; lia. Qed.

Lemma wp_add_type a c method rtype s (Q : OCStackResult -> client -> Prop) :
  list_ok (g_cbList s) -> node_at a (g_cbList s) = Some c -> (method = OC_REST_PRESENCE -> cb_method c = method) ->
  (forall s', gave s (blk rtype) s' -> list_ok (g_cbList s') -> holds (Some a) (handle c) (g_cbList s') -> Q OC_STACK_OK s') ->
  (hp_allocs (cl_heap s) <> [] -> method = OC_REST_PRESENCE ->
    forall s', gave s 0 s' -> g_cbList s' = g_cbList s -> Q OC_STACK_NO_MEMORY s') ->
  wp (add_type a method rtype) s Q.
Proof.
  intros Hok Hn Hm Hq Hf. unfold add_type. destruct rtype as [t|].
  2: { apply wp_ret, Hq; [by split; [cbn; lia|]|done|by exists a, c]. }
  case_decide as Em.
  2: { apply wp_bind, (wp_free_in (Some t)). intros s' G E. apply wp_ret, Hq; [done|by rewrite E|].
       exists a, c. by rewrite E. }
  unfold InsertResourceTypeFilter. apply wp_bind, wp_asks_in; [by apply asks_malloc| |].
  2: { intros Hne s' G E. apply wp_ret. by apply Hf. }
  intros s' G E. cbn [negb]. apply wp_bind. eapply wp_run; [apply run_modify|]. apply wp_ret.
  destruct (node_at_split _ _ _ Hn) as (<- & l1 & l2 & El). rewrite E, El. rewrite El in Hok.
  rewrite (on_node_middle _ _ _ _ Hok). set (c' := set_types _ c).
  assert (list_ok (l1 ++ c' :: l2)) as Hok'.
  { destruct Hok as [Ha Ht]. split.
    - rewrite addrs_app in Ha |- *. exact Ha.
    - apply Forall_app in Ht as [Ht1 Ht2]. apply Forall_cons in Ht2 as [_ Ht2]. apply Forall_app. split; [done|].
      apply Forall_cons. split; [|done]. right. cbn. by rewrite Hm. }
  apply Hq; [|done|exists (cb_addr c), c'; split; [done|]; split; [by apply (node_at_first l1 c' l2)|done]].
  destruct G as [G Gh]. split; [|exact Gh]. unfold others in *. rewrite E, El in G. rewrite El.
  cbn [g_cbList set_cbList cl_heap blk] in *. rewrite !owned_all_app in G. rewrite !owned_all_app.
  assert (owned c' = owned c + 2) as Eo.
  { unfold owned, members, c', set_types. cbn [interestingPresenceResourceType cb_token cb_devAddr handle cb_requestUri
      cb_options cb_payload presence]. rewrite types_blocks_snoc. lia. }
  unfold owned_all in *. cbn [foldr] in *. rewrite Eo. lia.
Qed.

Section Adding.
Context (data : OCCallbackData) (type : CAMessageType_t) (mv : moved) (tokenLength numOptions payloadSize : Z).
Context (options : option (list CAHeaderOption_t)) (payload : option (list Z)) (payloadFormat : CAPayloadFormat_t).
Context (method : OCMethod) (rtype : option (list Z)) (ttl : Z) (out : option positive).
Hypothesis Hoptions : copyable options numOptions numOptions sizeof_header_option.
Hypothesis Hpayload : copyable payload payloadSize 1 payloadSize.

Lemma list_ok_append l c : list_ok l -> cb_addr c ∉ addrs l -> types_ok c -> list_ok (l ++ [c]).
Proof.
  intros [Ha Ht] Hn Hc. split.
  - rewrite addrs_app. apply NoDup_app. split; [done|]. split; [|apply NoDup_singleton].
    intros x Hx Hx'. apply list_elem_of_singleton in Hx'. by subst x.
  - apply Forall_app. split; [done|]. by constructor.
Qed.

Lemma wp_copy_in {A} (src : option (list A)) n num size s Q : copyable src n num size ->
  (forall v s', gave s (- blk v) s' -> g_cbList s' = g_cbList s -> Q (Some v) s') ->
  (hp_allocs (cl_heap s) <> [] -> forall s', gave s 0 s' -> g_cbList s' = g_cbList s -> Q None s') ->
  wp (in_heap (copy_array src n num size)) s Q.
Proof.
  intros Hc Ht Hf. apply wp_in_heap, wp_copy_array; [done| |].
  - intros v h' Hk. apply Ht; [|done]. apply gave_heap. by rewrite Z.opp_involutive.
  - intros Hne h' Hk. apply Hf; [done|by apply (gave_heap s 0)|done].
Qed.

Ltac settle := unfold gave in *; cbn [blk] in *; destruct_and?; split; [lia|tauto].

Lemma wp_new_node s (Q : positive + option positive -> client -> Prop) : list_ok (g_cbList s) ->
  (forall c s', gave s (moved_blocks mv) s' -> list_ok (g_cbList s') -> node_at (cb_addr c) (g_cbList s') = Some c ->
    handle c = mv_handle mv -> cb_method c = method -> g_cbList s' = g_cbList s ++ [c] -> Q (inl (cb_addr c)) s') ->
  (hp_allocs (cl_heap s) <> [] -> forall o s', o = None \/ o = out -> gave s 0 s' -> g_cbList s' = g_cbList s ->
    Q (inr o) s') ->
  wp (new_node out data type mv tokenLength options numOptions payload payloadSize payloadFormat method ttl) s Q.
Proof.
  intros Hok Hq Hf. unfold new_node. apply wp_bind, wp_asks_in; [by apply asks_malloc| |].
  2: { intros Hne s1 G1 E1. apply wp_ret. apply Hf; auto. }
  intros s1 G1 E1. cbn [negb]. apply wp_bind, wp_copy_in; [done| |].
  2: { intros Hne s2 G2 E2. apply wp_bind, (wp_free_in (Some tt)). intros s3 G3 E3. apply wp_ret, Hf; [|by right|settle|congruence].
       intros E. apply Hne. by apply G1. }
  intros opts s2 G2 E2. apply wp_bind, wp_copy_in; [done| |].
  2: { intros Hne s3 G3 E3. apply wp_bind, (wp_free_in opts). intros s4 G4 E4.
       apply wp_bind, (wp_free_in (Some tt)). intros s5 G5 E5. apply wp_ret, Hf; [|by right|settle|congruence].
       intros E. apply Hne. by apply G2, G1. }
  intros pl s3 G3 E3. apply wp_bind. eapply wp_run; [apply run_gets|]. cbn zeta.
  set (c := {| cb_addr := _ |}). apply wp_bind. eapply wp_run; [apply run_modify|]. apply wp_ret.
  assert (g_cbList s3 = g_cbList s) as E by congruence.
  assert (list_ok (g_cbList s3 ++ [c])) as Hok'.
  { rewrite E. apply list_ok_append; [done| |by left]. unfold c. cbn [cb_addr]. rewrite E. apply new_address_fresh. }
  apply Hq; [|done|by apply (node_at_first _ c [])|done|done|by rewrite <- E].
  assert (owned c = moved_blocks mv + blk opts + blk pl + 1) as Eo by (unfold owned, members, moved_blocks, c; cbn; lia).
  unfold gave in *. cbn [hp_allocs cl_heap set_cbList]. destruct_and?. split; [|tauto]. unfold others in *.
  cbn [cl_heap set_cbList g_cbList]. unfold LL_APPEND. rewrite owned_all_app. unfold owned_all in *. cbn [foldr].
  rewrite Eo. lia.
Qed.

Lemma wp_join_node a c s (Q : option positive -> client -> Prop) : node_at a (g_cbList s) = Some c ->
  (forall s', gave s (moved_blocks mv) s' -> g_cbList s' = g_cbList s -> Q (handle c) s') ->
  wp (join_node a data mv) s Q.
Proof.
  intros Hn Hq. unfold join_node. apply wp_bind.
  assert (exists s1, call_deleter (cd data) (cbd_context data) s = Some (tt, s1) /\ gave s 0 s1 /\ g_cbList s1 = g_cbList s)
    as (s1 & E1 & G1 & L1).
  { unfold call_deleter. destruct (cd data); eexists; (split; [reflexivity|]); (split; [|done]); (split; [|done]);
      unfold others; cbn [cl_heap g_cbList add_events]; lia. }
  eapply wp_run; [exact E1|]. unfold CADestroyToken.
  apply wp_bind, wp_free_in. intros s2 G2 L2. apply wp_bind, wp_free_in. intros s3 G3 L3.
  apply wp_bind, wp_free_in. intros s4 G4 L4. apply wp_bind, wp_free_in. intros s5 G5 L5.
  apply wp_bind. eapply wp_run; [apply run_gets|].
  assert (g_cbList s5 = g_cbList s) as L by congruence. rewrite L.
  apply wp_bind. eapply wp_lift; [exact Hn|]. apply wp_ret, Hq; [|done].
  unfold moved_blocks. settle.
Qed.

Lemma wp_presence_node s (Q : option positive -> client -> Prop) : list_ok (g_cbList s) ->
  (method = OC_REST_PRESENCE ->
    Forall (fun c => cb_requestUri c = mv_requestUri mv -> cb_method c = OC_REST_PRESENCE) (g_cbList s)) ->
  (forall s', gave s 0 s' -> list_ok (g_cbList s') -> Q None s') ->
  (forall c s', gave s 0 s' -> list_ok (g_cbList s') -> node_at (cb_addr c) (g_cbList s') = Some c ->
    cb_method c = OC_REST_PRESENCE -> Q (Some (cb_addr c)) s') ->
  wp (if decide (method = OC_REST_PRESENCE) then GetClientCBUsingUri (mv_requestUri mv) else mret None) s Q.
Proof.
  intros Hok Hp Hnone Hsome. assert (gave s 0 s) as G0 by (split; [lia|done]).
  case_decide as Em; [|by apply wp_ret, Hnone]. unfold GetClientCBUsingUri.
  destruct (mv_requestUri mv) as [u|]; [|by apply wp_ret, Hnone].
  apply wp_bind. eapply wp_run; [apply run_gets|].
  set (h := fun c => bool_decide (cb_requestUri c = Some u)).
  eapply wp_run; [apply (search_run _ h s Hok); by apply List.Forall_forall|].
  set (s1 := gone _ _ _). assert (gave s 0 s1) as G by apply gave_search.
  assert (list_ok (g_cbList s1)) as Hok1 by apply (searched_ok _ _ _ Hok).
  destruct (from h (g_cbList s)) as [|c r] eqn:Ef; [by apply Hnone|]. cbn [head fmap option_fmap option_map].
  apply Hsome; [done|done|by apply (node_at_searched _ h _ c r)|].
  apply (proj1 (List.Forall_forall _ _) (Hp Em) c).
  - rewrite <- (before_from h (g_cbList s)), Ef. apply in_or_app. right. by left.
  - apply from_head in Ef. unfold h in Ef. by apply bool_decide_eq_true in Ef.
Qed.

Definition add_call : M client (OCStackResult * option positive * option positive) :=
  AddClientCB (Some out) (Some data) type (mv_token mv) tokenLength options numOptions payload payloadSize payloadFormat
    (Some (mv_handle mv)) method (mv_devAddr mv) (mv_requestUri mv) rtype ttl.

(** whatever the allocator does, a call that succeeds has taken over or
    released the token, the handle, the address, the URI and the type, and the
    handle it returns is that of the node it returns.  A call that fails has
    taken over nothing, unless it is a request for presence, which may fail
    when the rest already belongs to the list. *)
Theorem AddClientCB_ownership s : list_ok (g_cbList s) -> tokenLength <= CA_MAX_TOKEN_LEN ->
  (method = OC_REST_PRESENCE ->
    Forall (fun c => cb_requestUri c = mv_requestUri mv -> cb_method c = OC_REST_PRESENCE) (g_cbList s)) ->
  wp add_call s (fun '(res, out', h') s' => list_ok (g_cbList s') /\
    ((res = OC_STACK_OK /\ gave s (moved_blocks mv + blk rtype) s' /\ holds out' h' (g_cbList s')) \/
     (res = OC_STACK_NO_MEMORY /\ hp_allocs (cl_heap s) <> [] /\
       (((out' = None \/ out' = out) /\ gave s 0 s') \/
        (method = OC_REST_PRESENCE /\ is_Some out' /\ gave s (moved_blocks mv) s'))))).
Proof.
  intros Hok Ht Hp. unfold add_call, AddClientCB. destruct (Z.ltb_spec CA_MAX_TOKEN_LEN tokenLength); [lia|].
  assert ({| mv_token := mv_token mv; mv_handle := mv_handle mv; mv_devAddr := mv_devAddr mv;
    mv_requestUri := mv_requestUri mv |} = mv) as -> by (by destruct mv).
  apply wp_bind, wp_presence_node; [done|done| |].
  - intros s1 G1 Hok1. apply wp_bind, wp_new_node; [done| |].
    + intros c s2 G2 Hok2 Hn Hh Hm _. apply wp_bind, (wp_add_type _ c); [done|done|done| |].
      * intros s3 G3 Hok3 Hold. apply wp_ret. split; [done|]. left. rewrite <- Hh. split; [done|]. split; [|done]. settle.
      * intros Hne Em s3 G3 E3. apply wp_ret. rewrite E3. split; [done|]. right. split; [done|].
        split; [intros E; apply Hne, G2, G1, E|]. right. split; [done|]. split; [done|]. settle.
    + intros Hne o s2 Ho G2 E2. apply wp_ret. rewrite E2. split; [done|]. right. split; [done|].
      split; [intros E; apply Hne, G1, E|]. left. split; [done|]. settle.
  - intros c s1 G1 Hok1 Hn Hm. apply wp_bind, (wp_join_node _ c); [done|]. intros s2 G2 E2.
    apply wp_bind, (wp_add_type _ c); [by rewrite E2|by rewrite E2|congruence| |].
    + intros s3 G3 Hok3 Hold. apply wp_ret. split; [done|]. left. split; [done|]. split; [|done]. settle.
    + intros Hne Em s3 G3 E3. apply wp_ret. rewrite E3, E2. split; [done|]. right. split; [done|].
      split; [intros E; apply Hne, G2, G1, E|]. right. split; [done|]. split; [done|]. settle.
Qed.
End Adding.

(** ** Looking up and deleting *)

Lemma delete_if_there_run a l s : g_cbList s = l -> list_ok l ->
  delete_if_there a l s = Some (tt, match node_at a l with Some c => gone [c] (unlink a l) s | None => s end).
Proof.
  intros E Hok. assert (forall k r, l = k ++ r -> a ∉ addrs k ->
    delete_if_there a r s = Some (tt, match node_at a r with Some c => gone [c] (k ++ unlink a r) s | None => s end)) as H.
  { intros k r. revert k. induction r as [|c r IH]; intros k El Hk; [done|]. cbn [delete_if_there].
    unfold node_at. cbn [find unlink]. change (node_addr c) with (cb_addr c).
    case_decide as Ec.
    - rewrite bool_decide_true by done. subst a. rewrite El in E, Hok. destruct (list_ok_remove _ _ _ Hok) as (_ & Hn & Ht).
      by apply delete_run.
    - rewrite bool_decide_false by done. rewrite (cons_middle c k r), app_assoc in El.
      rewrite (IH _ El); [by rewrite <- app_assoc|]. rewrite addrs_app. intros Hx.
      apply elem_of_app in Hx as [Hx|Hx]; [done|]. apply list_elem_of_singleton in Hx. by subst a. }
  apply (H [] l eq_refl). apply not_elem_of_nil.
Qed.

Lemma delete_each_run l k s : g_cbList s = l ++ k -> list_ok (l ++ k) -> delete_each l s = Some (tt, gone l k s).
Proof.
  revert s. induction l as [|c l IH]; intros s E Hok.
  - cbn in E |- *. by rewrite <- E, gone_nil.
  - destruct (list_ok_remove [] _ _ Hok) as (Hok' & Hn & Ht). cbn [delete_each].
    step (delete_run [] c (l ++ k) s E Hn Ht). cbn [app]. rewrite (IH (gone [c] (l ++ k) s) eq_refl Hok'). by rewrite gone_gone.
Qed.

Definition has_token (t : list Z) (c : ClientCB) : bool := bool_decide (cb_token c = Some t).

(** The tokens the stack generates are all of one length. *)
Definition tokens_of_length (n : nat) (l : list ClientCB) : Prop :=
  Forall (fun c => exists t, cb_token c = Some t /\ length t = n) l.

Lemma token_hits t l : tokens_of_length (length t) l ->
  Forall (fun c => token_hit t (Z.of_nat (length t)) c = Some (has_token t c)) l.
Proof.
  intros H. induction H as [|c l (t' & Et & El) _ IH]; constructor; [|done].
  unfold token_hit, has_token. rewrite Et, memcmp_same by done. f_equal. by apply bool_decide_ext; split; [intros ->|intros [= ->]].
Qed.

(** a search by token returns the first request with that token, releases
    those it passes over whose time is up, and no others. *)
Theorem GetClientCBUsingToken_spec (t : list Z) (s : client) : list_ok (g_cbList s) ->
  (0 < Z.of_nat (length t) <= CA_MAX_TOKEN_LEN) -> tokens_of_length (length t) (g_cbList s) ->
  GetClientCBUsingToken (Some t) (Z.of_nat (length t)) s =
    Some (cb_addr <$> find (has_token t) (g_cbList s),
      gone (expired (cl_now s) (before (has_token t) (g_cbList s))) (searched (cl_now s) (has_token t) (g_cbList s)) s).
Proof.
  intros Hok Hl Ht. unfold GetClientCBUsingToken.
  destruct (Z.ltb_spec CA_MAX_TOKEN_LEN (Z.of_nat (length t))); [lia|].
  destruct (Z.leb_spec (Z.of_nat (length t)) 0); [lia|]. cbn [orb].
  step (run_gets g_cbList s). rewrite (search_run _ _ s Hok (token_hits t _ Ht)). do 3 f_equal.
  induction (g_cbList s) as [|c l IH]; [done|]. cbn. destruct (has_token t c); [done|]. apply IH.
  - apply (list_ok_sublist (c :: l)); [by apply sublist_cons|done].
  - by apply Forall_cons in Ht as [_ Ht].
Qed.

(** the search compares only as many bytes as it is given: a response with
    any part of the token of the first waiting request counts as its answer. *)
Theorem short_token_matches (p q : list Z) c l (s : client) : 0 < Z.of_nat (length p) <= CA_MAX_TOKEN_LEN ->
  g_cbList s = c :: l -> cb_token c = Some (p ++ q) ->
  GetClientCBUsingToken (Some p) (Z.of_nat (length p)) s = Some (Some (cb_addr c), s).
Proof.
  intros Hl E Et. unfold GetClientCBUsingToken. destruct (Z.ltb_spec CA_MAX_TOKEN_LEN (Z.of_nat (length p))); [lia|].
  destruct (Z.leb_spec (Z.of_nat (length p)) 0); [lia|]. cbn [orb]. step (run_gets g_cbList s). rewrite E.
  cbn [find_cb]. assert (token_hit p (Z.of_nat (length p)) c = Some true) as H'.
  { unfold token_hit. rewrite Et, memcmp_prefix by (rewrite length_app; lia). by rewrite take_app_length, bool_decide_true. }
  by step (run_lift _ _ s H').
Qed.

(** ** What leaves the list *)

(** The nodes [ds] have left the list: all that was theirs is released, and
    what deletes their contexts has been called, once for each and in order. *)
Record left_list (ds : list ClientCB) (s s' : client) : Prop := {
  left_members : g_cbList s ≡ₚ ds ++ g_cbList s';
  left_sublist : g_cbList s' `sublist_of` g_cbList s;
  left_events : cl_events s' = cl_events s ++ flat_map events_of ds;
  left_others : others s' = others s;
  left_answers : hp_allocs (cl_heap s') = hp_allocs (cl_heap s);
}.

Lemma left_refl s : left_list [] s s.
Proof. split; [done|done|by rewrite app_nil_r|done..]. Qed.

Lemma left_gone ds l s : g_cbList s ≡ₚ ds ++ l -> l `sublist_of` g_cbList s -> left_list ds s (gone ds l s).
Proof.
  intros Hp Hs. split; [done|done|done| |done]. apply others_gone. rewrite <- owned_all_app.
  clear Hs. unfold owned_all. induction Hp; cbn [foldr]; lia.
Qed.

Lemma expired_waiting now l : l ≡ₚ expired now l ++ waiting now l.
Proof.
  unfold expired, waiting. induction l as [|c l IH]; [done|]. cbn. destruct (timed_out now c); cbn.
  - by constructor.
  - rewrite IH at 1. apply Permutation_middle.
Qed.

Lemma searched_sublist now h l : searched now h l `sublist_of` l.
Proof. unfold searched. rewrite <- (before_from h l) at 3. apply sublist_app; [apply waiting_sublist|done]. Qed.

Lemma search_left hit h s : list_ok (g_cbList s) -> Forall (fun c => hit c = Some (h c)) (g_cbList s) ->
  exists r ds s', find_cb hit (g_cbList s) s = Some (r, s') /\ left_list ds s s'.
Proof.
  intros Hok Hh. eexists _, _, _. split; [by apply (search_run hit h)|]. apply left_gone.
  - unfold searched. rewrite app_assoc, <- expired_waiting. by rewrite before_from.
  - apply searched_sublist.
Qed.

(** ** What the application is told *)

(** The calls of the functions that delete contexts, made and still to come. *)
Definition told (s : client) : list client_event := cl_events s ++ flat_map events_of (g_cbList s).

Definition deleter (f : option Z) (c : Z) : list client_event :=
  match f with Some f => [ContextDeleted f c] | None => [] end.

(** *** A request that is added *)

Record request := {
  rq_data : OCCallbackData;
  rq_type : CAMessageType_t;
  rq_moved : moved;
  rq_options : option (list CAHeaderOption_t);
  rq_numOptions : Z;
  rq_payload : option (list Z);
  rq_payloadSize : Z;
  rq_payloadFormat : CAPayloadFormat_t;
  rq_method : OCMethod;
  rq_resourceType : option (list Z);
  rq_ttl : Z;
}.

(** The call of [OCDoRequest], which has no node yet. *)
Definition add_request (r : request) : M client (OCStackResult * option positive * option positive) :=
  add_call (rq_data r) (rq_type r) (rq_moved r) (Z.of_nat (length (default [] (mv_token (rq_moved r)))))
    (rq_numOptions r) (rq_payloadSize r) (rq_options r) (rq_payload r) (rq_payloadFormat r) (rq_method r)
    (rq_resourceType r) (rq_ttl r) None.

Definition request_events (r : request) : list client_event := deleter (cd (rq_data r)) (cbd_context (rq_data r)).

Section Told.
Context (n : nat) (P : list Z -> Prop).

(** A token of the length the stack generates, and, of the URIs [P] that
    presence is asked of, only a request for presence. *)
Definition node_ok (c : ClientCB) : Prop :=
  (exists t, cb_token c = Some t /\ length t = n) /\
  (forall u, cb_requestUri c = Some u -> P u -> cb_method c = OC_REST_PRESENCE).

(** [es] are to be told, or have been, in addition. *)
Definition tells (es : list client_event) (s s' : client) : Prop :=
  told s' ≡ₚ told s ++ es /\ (Forall node_ok (g_cbList s) -> Forall node_ok (g_cbList s')).

Lemma tells_refl s : tells [] s s.
Proof. split; [by rewrite app_nil_r|done]. Qed.

Lemma tells_trans es es' s1 s2 s3 : tells es s1 s2 -> tells es' s2 s3 -> tells (es ++ es') s1 s3.
Proof. intros [Hp Hn] [Hp' Hn']. split; [by rewrite Hp', Hp, app_assoc|auto]. Qed.

Lemma tells_nothing es s1 s2 s3 : tells [] s1 s2 -> tells es s2 s3 -> tells es s1 s3.
Proof. apply (tells_trans []). Qed.

Lemma tells_then es s1 s2 s3 : tells es s1 s2 -> tells [] s2 s3 -> tells es s1 s3.
Proof. intros H H'. rewrite <- (app_nil_r es). by eapply tells_trans. Qed.

Lemma tells_in_heap {A} (m : M heap A) a s s' : in_heap m s = Some (a, s') -> tells [] s s'.
Proof.
  unfold in_heap. destruct (m (heap_of s)) as [[a' h]|]; [|done]. intros [= _ <-].
  split; [by rewrite app_nil_r|done].
Qed.

Lemma tells_deleter f c u s s' : call_deleter f c s = Some (u, s') -> tells (deleter f c) s s'.
Proof.
  unfold call_deleter, deleter. destruct f as [f|]; [|intros [= _ <-]; apply tells_refl].
  intros [= _ <-]. split; [|done]. unfold told. cbn [cl_events g_cbList add_events].
  rewrite <- !app_assoc. apply Permutation_app_head, Permutation_app_comm.
Qed.

Lemma tells_append c s : node_ok c -> tells (events_of c) s (set_cbList (LL_APPEND (g_cbList s) c) s).
Proof.
  intros Hc. split.
  - unfold told, LL_APPEND. cbn [cl_events g_cbList set_cbList]. rewrite flat_map_app. cbn [flat_map].
    by rewrite app_nil_r, app_assoc.
  - intros Hl. apply Forall_app. by split; [|constructor].
Qed.

Lemma tells_types a f s : tells [] s (set_cbList (on_addr a (fun c => set_types (f c) c) (g_cbList s)) s).
Proof.
  unfold tells, told. cbn [cl_events g_cbList set_cbList]. rewrite app_nil_r. split.
  - apply Permutation_app_head. unfold on_addr. rewrite !flat_map_concat_map, List.map_map.
    erewrite List.map_ext; [done|]. intros c. by case_decide.
  - unfold on_addr. intros Hl. apply Forall_fmap. eapply Forall_impl; [exact Hl|]. intros c Hc. cbn.
    by case_decide.
Qed.

Lemma tells_left ds s s' : left_list ds s s' -> tells [] s s'.
Proof.
  intros [Hp Hs He _ _]. unfold tells, told. rewrite app_nil_r, He. split.
  - rewrite Hp, flat_map_app. by rewrite app_assoc.
  - intros Hl. clear -Hl Hs. induction Hs; [done| |]; apply Forall_cons in Hl as [Hc Hl]; auto.
Qed.

Record request_ok (r : request) : Prop := {
  rq_token_ok : exists t, mv_token (rq_moved r) = Some t /\ length t = n;
  rq_uri_ok : forall u, mv_requestUri (rq_moved r) = Some u -> (P u <-> rq_method r = OC_REST_PRESENCE);
  rq_presence_ok : rq_method r = OC_REST_PRESENCE -> is_Some (mv_requestUri (rq_moved r));
  rq_options_ok : copyable (rq_options r) (rq_numOptions r) (rq_numOptions r) sizeof_header_option;
  rq_payload_ok : copyable (rq_payload r) (rq_payloadSize r) 1 (rq_payloadSize r);
}.

(** Follows a run that was defined to its steps. *)
Ltac follow :=
  repeat match goal with
  | H : (_ ≫= _) _ = Some _ |- _ => apply run_bind_inv in H as (? & ? & ? & H)
  | H : in_heap _ _ = Some _ |- _ => apply tells_in_heap in H
  | H : call_deleter _ _ _ = Some _ |- _ => apply tells_deleter in H
  | H : gets _ _ = Some _ |- _ => injection H as ? ?; subst
  | H : modify _ _ = Some _ |- _ => injection H as ? ?; subst
  | H : (mret _ : M client _) _ = Some _ |- _ => injection H as ? ?; subst
  | H : lift ?x _ = Some _ |- _ => unfold lift in H; destruct x eqn:?; [injection H as ? ?; subst|discriminate H]
  end.

Lemma add_type_tells a method rtype res s s' : add_type a method rtype s = Some (res, s') -> tells [] s s'.
Proof.
  unfold add_type, InsertResourceTypeFilter. intros E. destruct rtype as [t|]; [|follow; apply tells_refl].
  case_decide; [|by follow]. apply run_bind_inv in E as (ok & s1 & E1 & E). apply tells_in_heap in E1.
  destruct ok; cbn [negb] in E; follow; [|done]. eapply tells_then; [exact E1|apply tells_types].
Qed.

Lemma join_node_tells a data mv h s s' : join_node a data mv s = Some (h, s') ->
  tells (deleter (cd data) (cbd_context data)) s s'.
Proof. unfold join_node, CADestroyToken. intros E. follow. do 4 (eapply tells_then; [|eassumption]). done. Qed.

Lemma new_node_tells r o s s' : request_ok r ->
  new_node None (rq_data r) (rq_type r) (rq_moved r) (Z.of_nat (length (default [] (mv_token (rq_moved r)))))
    (rq_options r) (rq_numOptions r) (rq_payload r) (rq_payloadSize r) (rq_payloadFormat r) (rq_method r) (rq_ttl r) s
    = Some (o, s') ->
  tells (if o is inl _ then request_events r else []) s s' /\ (forall p, o = inr p -> p = None).
Proof.
  intros Hr. unfold new_node. intros E. apply run_bind_inv in E as (ok & s1 & E1 & E). apply tells_in_heap in E1.
  destruct ok; cbn [negb] in E; [|follow; by split; [|intros p [= <-]]].
  apply run_bind_inv in E as (opts & s2 & E2 & E). apply tells_in_heap in E2.
  pose proof (tells_then _ _ _ _ E1 E2) as E12. destruct opts as [opts|].
  2: { follow. split; [by eapply tells_then|by intros p [= <-]]. }
  apply run_bind_inv in E as (pl & s3 & E3 & E). apply tells_in_heap in E3.
  pose proof (tells_then _ _ _ _ E12 E3) as E13. destruct pl as [pl|]; follow.
  - split; [|done]. eapply tells_nothing; [exact E13|].
    match goal with |- context [LL_APPEND _ ?c] => apply (tells_append c) end.
    destruct Hr as [Ht Hu _ _ _]. split; [exact Ht|]. intros u Eu. by apply Hu.
  - split; [|by intros p [= <-]]. by do 2 (eapply tells_then; [|eassumption]).
Qed.

(** The list takes the request, and will call its function or has called it,
    just when the call returns a node. *)
Lemma add_request_tells r res out h s s' : request_ok r -> list_ok (g_cbList s) ->
  add_request r s = Some ((res, out, h), s') -> tells (if out is Some _ then request_events r else []) s s'.
Proof.
  intros Hr Hok. unfold add_request, add_call, AddClientCB. case_match; [intros E; follow; apply tells_refl|].
  assert ({| mv_token := mv_token (rq_moved r); mv_handle := mv_handle (rq_moved r);
    mv_devAddr := mv_devAddr (rq_moved r); mv_requestUri := mv_requestUri (rq_moved r) |} = rq_moved r) as ->
    by by destruct (rq_moved r).
  intros E. apply run_bind_inv in E as (found & s1 & Ef & E).
  assert (tells [] s s1) as T1.
  { case_decide; [|follow; apply tells_refl]. unfold GetClientCBUsingUri in Ef.
    destruct (mv_requestUri (rq_moved r)) as [u|]; [|follow; apply tells_refl].
    rewrite (run_bind _ _ _ _ _ (run_gets g_cbList s)) in Ef.
    destruct (search_left (fun out => Some (bool_decide (cb_requestUri out = Some u)))
      (fun out => bool_decide (cb_requestUri out = Some u)) s Hok) as (a & ds & s2 & Es & Hl);
      [by apply List.Forall_forall|].
    rewrite Es in Ef. injection Ef as _ <-. by eapply tells_left. }
  eapply tells_nothing; [exact T1|]. destruct found as [a|].
  - apply run_bind_inv in E as (h' & s2 & Ej & E). apply join_node_tells in Ej.
    apply run_bind_inv in E as (res' & s3 & Ea & E). apply add_type_tells in Ea. follow. by eapply tells_then.
  - apply run_bind_inv in E as (o & s2 & En & E). apply (new_node_tells r o s1 s2 Hr) in En as [En Ho].
    destruct o as [a|p].
    + apply run_bind_inv in E as (res' & s3 & Ea & E). apply add_type_tells in Ea. follow. by eapply tells_then.
    + follow. by rewrite (Ho _ eq_refl).
Qed.

(** ** Any sequence of calls *)

Definition client_ok (s : client) : Prop := list_ok (g_cbList s) /\ Forall node_ok (g_cbList s).

Lemma nodes_tokens l : Forall node_ok l -> tokens_of_length n l.
Proof. intros H. eapply Forall_impl; [exact H|]. by intros c []. Qed.

(** A request the list took, with the result the caller got: the type to
    filter by stays with a caller to whom a lack of memory is reported. *)
Definition taken_blocks (e : request * OCStackResult) : Z :=
  moved_blocks (rq_moved e.1) + if decide (e.2 = OC_STACK_OK) then blk (rq_resourceType e.1) else 0.

Definition all_blocks (log : list (request * OCStackResult)) : Z := foldr (fun e a => taken_blocks e + a) 0 log.

(** From [s] to [s'] the list took [log]; it would have taken all of [rs]
    from an allocator that does not fail. *)
Record session (rs : list request) (log : list (request * OCStackResult)) (s s' : client) : Prop := {
  session_ok : client_ok s';
  session_blocks : others s' = others s - all_blocks log;
  session_events : told s' ≡ₚ told s ++ flat_map (fun e => request_events e.1) log;
  session_memory : hp_allocs (cl_heap s) = [] ->
    hp_allocs (cl_heap s') = [] /\ log = (fun r => (r, OC_STACK_OK)) <$> rs;
}.

Lemma session_trans rs log s1 s2 rs' log' s3 : session rs log s1 s2 -> session rs' log' s2 s3 ->
  session (rs ++ rs') (log ++ log') s1 s3.
Proof.
  intros [_ Hb He Hm] [Ho' Hb' He' Hm']. split; [done| | |].
  - rewrite Hb', Hb. unfold all_blocks. rewrite foldr_app. clear. induction log as [|e log IH]; cbn [foldr]; lia.
  - by rewrite He', He, flat_map_app, app_assoc.
  - intros Hh. destruct (Hm Hh) as [Hh2 ->]. destruct (Hm' Hh2) as [Hh3 ->]. by rewrite fmap_app.
Qed.

Lemma left_session ds s s' : client_ok s -> left_list ds s s' -> session [] [] s s'.
Proof.
  intros [Hok Hn] Hl. destruct (tells_left _ _ _ Hl) as [He Hn'].
  destruct Hl as [_ Hs _ Ho Ha]. split; [by split; [by eapply list_ok_sublist|auto]|cbn; lia|done|].
  intros Hh. by rewrite Ha.
Qed.

Definition taken (r : request) (res : OCStackResult) (out : option positive) : list (request * OCStackResult) :=
  match out with Some _ => [(r, res)] | None => [] end.

Lemma add_session r s : 0 < Z.of_nat n <= CA_MAX_TOKEN_LEN -> request_ok r -> client_ok s ->
  exists res out h s', add_request r s = Some ((res, out, h), s') /\ session [r] (taken r res out) s s'.
Proof.
  intros Hn Hr [Hok Hs]. pose proof Hr as [[t [Et El]] Hu Hp Ho Hpl].
  assert (wp (add_request r) s (fun '(res, out', h') s' => list_ok (g_cbList s') /\
    ((res = OC_STACK_OK /\ gave s (moved_blocks (rq_moved r) + blk (rq_resourceType r)) s' /\
      holds out' h' (g_cbList s')) \/
     (res = OC_STACK_NO_MEMORY /\ hp_allocs (cl_heap s) <> [] /\
       (((out' = None \/ out' = None) /\ gave s 0 s') \/
        (rq_method r = OC_REST_PRESENCE /\ is_Some out' /\ gave s (moved_blocks (rq_moved r)) s')))))) as Hw.
  { unfold add_request. apply AddClientCB_ownership; [done..|rewrite Et; cbn; lia|].
    intros Em. destruct (Hp Em) as [u Eu]. eapply Forall_impl; [exact Hs|]. intros c [_ Hc] Ec.
    apply (Hc u); [congruence|]. by apply Hu. }
  unfold wp in Hw. destruct (add_request r s) as [[[[res out] h] s']|] eqn:E; [|done].
  exists res, out, h, s'. split; [done|]. destruct (add_request_tells _ _ _ _ _ _ Hr Hok E) as [He Hs'].
  destruct Hw as [Hok' Hcases]. split; [by split; [|auto]| | |].
  - destruct Hcases as [(-> & [G _] & (a & c & -> & _))|(-> & _ & [([-> | ->] & [G _])|(_ & [a ->] & [G _])])];
      unfold all_blocks, taken_blocks; cbn [taken foldr fst snd]; repeat case_decide; try done; cbn [blk] in *; lia.
  - destruct out; cbn; by rewrite ?app_nil_r in *.
  - intros Hh. destruct Hcases as [(-> & [_ G] & (a & c & -> & _))|(_ & Hne & _)]; [|done]. by split; [apply G|].
Qed.

Inductive client_op :=
| add (r : request)
| by_token (t : list Z)
| by_handle (h : option positive)
| by_uri (u : option (list Z))
| delete (a : option positive)
| delete_all
| time_passes (now : Z).

Definition set_now (n : Z) (s : client) : client :=
  {| cl_heap := cl_heap s; g_cbList := g_cbList s; cl_now := n; cl_events := cl_events s |}.

(** What the list took. *)
Definition run_client_op (o : client_op) : M client (list (request * OCStackResult)) :=
  match o with
  | add r => '(res, out, _) ← add_request r; mret (taken r res out)
  | by_token t => _ ← GetClientCBUsingToken (Some t) (Z.of_nat (length t)); mret []
  | by_handle h => _ ← GetClientCBUsingHandle h; mret []
  | by_uri u => _ ← GetClientCBUsingUri u; mret []
  | delete a => _ ← DeleteClientCB a; mret []
  | delete_all => _ ← DeleteClientCBList; mret []
  | time_passes n => _ ← modify (set_now n); mret []
  end.

Fixpoint run_client (os : list client_op) : M client (list (request * OCStackResult)) :=
  match os with
  | [] => mret []
  | o :: os' => log ← run_client_op o; log' ← run_client os'; mret (log ++ log')
  end.

(** The requests that are added. *)
Definition added (o : client_op) : list request := match o with add r => [r] | _ => [] end.

Definition op_ok (o : client_op) : Prop :=
  match o with add r => request_ok r | by_token t => length t = n | _ => True end.

Lemma list_left s : client_ok s ->
  exists s', DeleteClientCBList s = Some (tt, s') /\ left_list (g_cbList s) s s' /\ g_cbList s' = [].
Proof.
  intros [Hok _]. unfold DeleteClientCBList. rewrite (run_bind _ _ _ _ _ (run_gets g_cbList s)).
  assert (g_cbList s = g_cbList s ++ []) as E by (by rewrite app_nil_r). rewrite E in Hok.
  rewrite (run_bind _ _ _ _ _ (delete_each_run _ [] s E Hok)).
  exists (gone (g_cbList s) [] s). split; [done|]. split; [|done].
  apply left_gone; [by rewrite app_nil_r|apply sublist_nil_l].
Qed.

Lemma node_left a s : client_ok s -> exists ds s', DeleteClientCB a s = Some (tt, s') /\ left_list ds s s'.
Proof.
  intros [Hok _]. destruct a as [a|]; [|exists [], s; by split; [|apply left_refl]].
  cbn [DeleteClientCB]. rewrite (run_bind _ _ _ _ _ (run_gets g_cbList s)), (delete_if_there_run a _ s eq_refl Hok).
  destruct (node_at a (g_cbList s)) as [c|] eqn:En; [|exists [], s; by split; [|apply left_refl]].
  destruct (node_at_split _ _ _ En) as (<- & l1 & l2 & El). rewrite El in Hok.
  destruct (list_ok_remove _ _ _ Hok) as (_ & Hc & _).
  assert (unlink (cb_addr c) (l1 ++ c :: l2) = l1 ++ l2) as Eu by exact (unlink_middle l1 c l2 Hc). rewrite El, Eu.
  eexists _, _. split; [done|]. apply left_gone; rewrite El; [by rewrite <- Permutation_middle|].
  apply sublist_app; [done|by apply sublist_cons].
Qed.

Lemma search_session hit h s : client_ok s -> Forall (fun c => hit c = Some (h c)) (g_cbList s) ->
  exists s', (_ ← (l ← gets g_cbList; find_cb hit l); mret [] : M client (list (request * OCStackResult))) s
    = Some ([], s') /\ session [] [] s s'.
Proof.
  intros Hok Hh. destruct (search_left hit h s (proj1 Hok) Hh) as (r & ds & s' & E & Hl). exists s'.
  assert ((l ← gets g_cbList; find_cb hit l) s = Some (r, s')) as Eg by exact E.
  rewrite (run_bind _ _ _ _ _ Eg). by split; [|eapply left_session].
Qed.

Lemma op_session o s : 0 < Z.of_nat n <= CA_MAX_TOKEN_LEN -> op_ok o -> client_ok s ->
  exists log s', run_client_op o s = Some (log, s') /\ session (added o) log s s'.
Proof.
  intros Hn Ho Hok.
  assert (exists s', (mret [] : M client (list (request * OCStackResult))) s = Some ([], s') /\ session [] [] s s') as H0
    by (exists s; by split; [|eapply left_session, left_refl]).
  destruct o as [r|t|h|u|a| |now]; cbn [run_client_op added].
  - destruct (add_session r s Hn Ho Hok) as (res & out & h & s' & E & Hs). exists (taken r res out), s'.
    by rewrite (run_bind _ _ _ _ _ E).
  - exists []. cbn in Ho. unfold GetClientCBUsingToken. rewrite Ho.
    destruct (Z.ltb_spec CA_MAX_TOKEN_LEN (Z.of_nat n)); [lia|]. destruct (Z.leb_spec (Z.of_nat n) 0); [lia|].
    cbn [orb]. rewrite <- Ho. apply (search_session _ (has_token t)); [done|].
    apply token_hits. rewrite Ho. apply nodes_tokens. by destruct Hok.
  - exists []. destruct h as [h|]; [|exact H0].
    by apply (search_session _ (fun out => bool_decide (handle out = Some h))), List.Forall_forall.
  - exists []. destruct u as [u|]; [|exact H0].
    by apply (search_session _ (fun out => bool_decide (cb_requestUri out = Some u))), List.Forall_forall.
  - destruct (node_left a s Hok) as (ds & s' & E & Hl). exists [], s'. rewrite (run_bind _ _ _ _ _ E).
    by split; [|eapply left_session].
  - destruct (list_left s Hok) as (s' & E & Hl & _). exists [], s'. rewrite (run_bind _ _ _ _ _ E).
    by split; [|eapply left_session].
  - exists [], (set_now now s). split; [done|]. apply (left_session []); [done|].
    destruct (left_refl s) as [Hp Hs' He Hot Ha]. by split.
Qed.

Lemma run_client_session os : forall s, 0 < Z.of_nat n <= CA_MAX_TOKEN_LEN -> Forall op_ok os -> client_ok s ->
  exists log s', run_client os s = Some (log, s') /\ session (flat_map added os) log s s'.
Proof.
  induction os as [|o os IH]; intros s Hn Hos Hok.
  - exists [], s. by split; [|eapply left_session, left_refl].
  - apply Forall_cons in Hos as [Ho Hos]. destruct (op_session o s Hn Ho Hok) as (log & s1 & E1 & S1).
    destruct (IH s1 Hn Hos (session_ok _ _ _ _ S1)) as (log' & s2 & E2 & S2).
    exists (log ++ log'), s2. cbn [run_client flat_map].
    rewrite (run_bind _ _ _ _ _ E1), (run_bind _ _ _ _ _ E2). split; [done|]. by eapply session_trans.
Qed.
End Told.

(** C33: requests are added, looked up, deleted and timed out in any order, and
    the list is cleared at the end.  Then every block of the requests the list
    had and of those it took from its callers has been released, and the
    application's function for the context of each has been called exactly
    once; when memory is to be had it took every request.  The tokens are all of one
    length, as the stack generates them, and no request but one for presence
    has a URI that presence is asked of ([presence_joins_other_request] leaks). *)
Theorem client_requests_released (n : nat) (P : list Z -> Prop) (os : list client_op) (s : client) :
  0 < Z.of_nat n <= CA_MAX_TOKEN_LEN -> Forall (op_ok n P) os -> client_ok n P s ->
  exists log s', (log ← run_client os; _ ← DeleteClientCBList; mret log) s = Some (log, s') /\
    g_cbList s' = [] /\
    live (cl_heap s') = live (cl_heap s) - owned_all (g_cbList s) - all_blocks log /\
    cl_events s' ≡ₚ cl_events s ++ flat_map events_of (g_cbList s) ++ flat_map (fun e => request_events e.1) log /\
    (hp_allocs (cl_heap s) = [] -> log = (fun r => (r, OC_STACK_OK)) <$> flat_map added os).
Proof.
  intros Hn Hos Hok. destruct (run_client_session n P os s Hn Hos Hok) as (log & s1 & E1 & [Ok1 B1 T1 M1]).
  destruct (list_left n P s1 Ok1) as (s2 & E2 & L2 & N2). exists log, s2.
  rewrite (run_bind _ _ _ _ _ E1), (run_bind _ _ _ _ _ E2). do 2 (split; [done|]).
  destruct (tells_left n P _ _ _ L2) as [T2 _]. destruct L2 as [_ _ _ O2 _]. split; [|split].
  - unfold others in *. rewrite N2 in O2. cbn in O2. lia.
  - unfold told in *. rewrite N2 in T2. cbn [flat_map] in T2. rewrite !app_nil_r in T2.
    by rewrite T2, T1, app_assoc.
  - intros Hh. apply (M1 Hh).
Qed.

Lemma wp_frees_in m n s (Q : unit -> client -> Prop) : frees m n ->
  (forall s', gave s n s' -> g_cbList s' = g_cbList s -> Q tt s') -> wp (in_heap m) s Q.
Proof.
  intros Hm H. apply wp_in_heap. eapply wp_frees; [exact Hm|]. intros h' Hk. apply H; [|done]. by apply gave_heap.
Qed.

Lemma wp_deleter f c s (Q : unit -> client -> Prop) :
  (forall s', gave s 0 s' -> g_cbList s' = g_cbList s -> Q tt s') -> wp (call_deleter f c) s Q.
Proof.
  intros H. unfold call_deleter. destruct f; (eapply wp_run; [reflexivity|]); apply H; try done; (split; [|done]);
    unfold others; cbn [cl_heap g_cbList add_events]; lia.
Qed.

(** Deleting the only node when it is not one for presence. *)
Lemma wp_delete_last c s (Q : unit -> client -> Prop) : cb_method c <> OC_REST_PRESENCE -> g_cbList s = [c] ->
  (forall s', others s' = others s + types_blocks (interestingPresenceResourceType c) -> g_cbList s' = [] -> Q tt s') ->
  wp DeleteClientCBList s Q.
Proof.
  intros Hm E Hq. assert (frees (free_members c) (members c)) as Hf.
  { eapply frees_eq.
    - unfold free_members, CADestroyToken. do 6 (apply frees_bind; [apply frees_ptr|]).
      apply frees_bind; [apply frees_presence|]. rewrite decide_False by done. apply frees_ret.
    - unfold members. lia. }
  unfold DeleteClientCBList. apply wp_bind. eapply wp_run; [apply run_gets|]. rewrite E. cbn [delete_each].
  apply wp_bind, wp_bind. unfold DeleteClientCBInternal. apply wp_bind. eapply wp_run; [apply run_gets|]. rewrite E.
  apply wp_bind. eapply wp_lift; [apply (LL_DELETE_middle [] c []); apply not_elem_of_nil|].
  apply wp_bind. eapply wp_run; [apply run_modify|]. apply wp_bind, (wp_frees_in _ _ _ _ Hf). intros s1 G1 L1.
  apply wp_bind, wp_deleter. intros s2 G2 L2. apply (wp_free_in (Some c)). intros s3 G3 L3. apply wp_ret.
  eapply wp_run; [apply run_modify|]. apply Hq; [|done]. destruct G1 as [G1 _], G2 as [G2 _], G3 as [G3 _].
  cbn [g_cbList set_cbList app] in L1. rewrite L1 in L2. rewrite L2 in L3. cbn [blk] in G3.
  unfold others in *. rewrite L1 in G1. rewrite L1, L2 in G2. rewrite L2, L3 in G3. rewrite E.
  cbn [g_cbList cl_heap set_cbList] in *. unfold owned_all in *. cbn [foldr app] in *. unfold owned. lia.
Qed.

(** A request for presence is added to any request with its URI.  When that is
    not one for presence, the type to filter by is never released. *)
Theorem presence_joins_other_request c u data type mv tokenLength options numOptions payload payloadSize payloadFormat
    t ttl out s :
  g_cbList s = [c] -> cb_requestUri c = Some u -> cb_method c <> OC_REST_PRESENCE ->
  interestingPresenceResourceType c = [] -> mv_requestUri mv = Some u -> tokenLength <= CA_MAX_TOKEN_LEN ->
  hp_allocs (cl_heap s) = [] ->
  wp (_ ← add_call data type mv tokenLength numOptions payloadSize options payload payloadFormat
        OC_REST_PRESENCE (Some t) ttl out; DeleteClientCBList) s
    (fun _ s' => g_cbList s' = [] /\ others s' = others s - (moved_blocks mv + 1) + 2).
Proof.
  intros El Eu Em Et Emv Ht Hh. unfold add_call, AddClientCB.
  destruct (Z.ltb_spec CA_MAX_TOKEN_LEN tokenLength); [lia|]. rewrite decide_True by done. cbn zeta.
  assert (GetClientCBUsingUri (mv_requestUri mv) s = Some (Some (cb_addr c), s)) as Ef.
  { rewrite Emv. unfold GetClientCBUsingUri. step (run_gets g_cbList s). rewrite El. cbn [find_cb].
    rewrite Eu, bool_decide_true by done. done. }
  assert ({| mv_token := mv_token mv; mv_handle := mv_handle mv; mv_devAddr := mv_devAddr mv;
    mv_requestUri := mv_requestUri mv |} = mv) as -> by (by destruct mv).
  apply wp_bind, wp_bind. eapply wp_run; [exact Ef|]. cbn beta iota.
  apply wp_bind, (wp_join_node data mv _ c); [rewrite El; cbn; by rewrite bool_decide_true|]. intros s1 G1 L1.
  apply wp_bind. unfold add_type, InsertResourceTypeFilter. rewrite decide_True by done.
  apply wp_bind, wp_asks_in; [by apply asks_malloc| |intros Hne; exfalso; by apply Hne, G1].
  intros s2 G2 L2. cbn [negb]. apply wp_bind. eapply wp_run; [apply run_modify|]. apply wp_ret, wp_ret.
  set (c' := set_types [Some t] c).
  assert (on_addr (cb_addr c) (fun c => set_types (interestingPresenceResourceType c ++ [Some t]) c) (g_cbList s2) = [c']) as ->.
  { rewrite L2, L1, El. cbn. rewrite decide_True by done. by rewrite Et. }
  apply (wp_delete_last c'); [done|done|]. intros s3 O3 L3. split; [done|]. rewrite O3.
  destruct G1 as [G1 _], G2 as [G2 _]. unfold others in *. rewrite L2, L1, El in G2. rewrite L1, El in G1. rewrite El.
  assert (owned c' = owned c + 2) as Eo by (unfold owned, members, c', set_types; cbn; rewrite Et; cbn; lia).
  cbn [g_cbList cl_heap set_cbList]. unfold owned_all in *. cbn [foldr] in *. rewrite Eo. cbn. lia.
Qed.

(** ** At concrete inputs *)

Definition sample_cb (a : positive) (tok : list Z) (method : OCMethod) (ttl : Z) : ClientCB := {|
  cb_addr := a; callBack := 1; context := Zpos a; deleteCallback := Some 7; cb_type := CA_MSG_CONFIRM;
  cb_token := Some tok; cb_tokenLength := 8; cb_options := None; cb_numOptions := 0; cb_payload := None;
  cb_payloadSize := 0; cb_payloadFormat := CA_FORMAT_UNDEFINED; handle := Some a; cb_method := method;
  sequenceNumber := 0; cb_requestUri := Some (chars "/a"); cb_devAddr := None; presence := None;
  interestingPresenceResourceType := []; TTL := ttl |}.

Definition token_1 : list Z := [1;2;3;4;5;6;7;8].
Definition token_2 : list Z := [8;7;6;5;4;3;2;1].

Definition sample_client : client := {|
  cl_heap := {| hp_allocs := []; live := 20 |};
  g_cbList := [sample_cb 1 token_1 OC_REST_GET 50; sample_cb 2 token_2 OC_REST_OBSERVE 0];
  cl_now := 100; cl_events := [] |}.

Lemma sample_client_ok : list_ok (g_cbList sample_client).
Proof.
  split; [by apply (bool_decide_unpack _); vm_compute|].
  repeat constructor; by left.
Qed.

Lemma sample_client_tokens : tokens_of_length 8 (g_cbList sample_client).
Proof. constructor; [by exists token_1|]. constructor; [by exists token_2|constructor]. Qed.

Lemma GetClientCBUsingToken_spec_witness :
  GetClientCBUsingToken (Some token_2) 8 sample_client =
    Some (Some 2%positive, gone [sample_cb 1 token_1 OC_REST_GET 50] [sample_cb 2 token_2 OC_REST_OBSERVE 0] sample_client).
Proof.
  etransitivity; [apply (GetClientCBUsingToken_spec token_2 sample_client sample_client_ok)|].
  - vm_compute. by split.
  - exact sample_client_tokens.
  - vm_compute. reflexivity.
Defined.

Lemma short_token_matches_witness :
  GetClientCBUsingToken (Some [1]) 1 sample_client = Some (Some 1%positive, sample_client).
Proof.
  apply (short_token_matches [1] [2;3;4;5;6;7;8] (sample_cb 1 token_1 OC_REST_GET 50)
    [sample_cb 2 token_2 OC_REST_OBSERVE 0] sample_client); [vm_compute; by split|reflexivity|reflexivity].
Defined.

Definition sample_moved : moved := {|
  mv_token := Some token_1; mv_handle := Some 3%positive; mv_devAddr := None; mv_requestUri := Some (chars "/b") |}.

Lemma AddClientCB_ownership_witness :
  wp (add_call {| cbd_context := 0; cb := 1; cd := Some 7 |} CA_MSG_CONFIRM sample_moved 8 0 0 None None
        CA_FORMAT_UNDEFINED OC_REST_PRESENCE (Some (chars "t")) 0 None) sample_client
    (fun '(res, out', h') s' => list_ok (g_cbList s') /\
      ((res = OC_STACK_OK /\ gave sample_client (moved_blocks sample_moved + 1) s' /\ holds out' h' (g_cbList s')) \/
       (res = OC_STACK_NO_MEMORY /\ hp_allocs (cl_heap sample_client) <> [] /\
         (((out' = None \/ out' = None) /\ gave sample_client 0 s') \/ (OC_REST_PRESENCE = OC_REST_PRESENCE /\
            is_Some out' /\ gave sample_client (moved_blocks sample_moved) s'))))).
Proof.
  apply (AddClientCB_ownership {| cbd_context := 0; cb := 1; cd := Some 7 |} CA_MSG_CONFIRM sample_moved 8 0 0 None None
    CA_FORMAT_UNDEFINED OC_REST_PRESENCE (Some (chars "t")) 0 None I I sample_client sample_client_ok).
  - by vm_compute.
  - intros _. repeat constructor; intros H; discriminate H.
Defined.

(** Presence is asked of one URI. *)
Definition presence_uri (u : list Z) : Prop := u = chars "/oic/ad".

Definition sample_request (method : OCMethod) (u : string) (rtype : option (list Z)) : request := {|
  rq_data := {| cbd_context := 5; cb := 1; cd := Some 8 |}; rq_type := CA_MSG_CONFIRM;
  rq_moved := {| mv_token := Some token_1; mv_handle := Some 3%positive; mv_devAddr := None;
                 mv_requestUri := Some (chars u) |};
  rq_options := None; rq_numOptions := 0; rq_payload := Some [1; 2]; rq_payloadSize := 2;
  rq_payloadFormat := CA_FORMAT_APPLICATION_CBOR; rq_method := method; rq_resourceType := rtype; rq_ttl := 300 |}.

Lemma sample_request_ok method u rtype : (presence_uri (chars u) <-> method = OC_REST_PRESENCE) ->
  request_ok 8 presence_uri (sample_request method u rtype).
Proof.
  intros Hp. split; cbn.
  - by exists token_1.
  - by intros ? [= <-].
  - by eexists.
  - done.
  - right. vm_compute. by repeat split.
Qed.

Definition sample_session : list client_op :=
  [add (sample_request OC_REST_GET "/b" None); by_token token_2;
   add (sample_request OC_REST_PRESENCE "/oic/ad" (Some (chars "t")));
   add (sample_request OC_REST_PRESENCE "/oic/ad" (Some (chars "u"))); time_passes 200; by_uri (Some (chars "/b"))].

Lemma client_requests_released_witness :
  exists log s', (log ← run_client sample_session; _ ← DeleteClientCBList; mret log) sample_client = Some (log, s') /\
    g_cbList s' = [] /\
    live (cl_heap s') = 20 - owned_all (g_cbList sample_client) - all_blocks log /\
    cl_events s' ≡ₚ cl_events sample_client ++ flat_map events_of (g_cbList sample_client) ++ flat_map (fun e => request_events e.1) log /\
    (hp_allocs (cl_heap sample_client) = [] -> log = (fun r => (r, OC_STACK_OK)) <$> flat_map added sample_session).
Proof.
  apply (client_requests_released 8 presence_uri sample_session sample_client).
  - vm_compute. by split.
  - assert (forall P : Prop, P -> forall method, method = OC_REST_PRESENCE -> (P <-> method = OC_REST_PRESENCE)) as Hy
      by (by intros; split).
    repeat (apply Forall_cons; split); [apply sample_request_ok; split; intros E; discriminate E|done| | |done|done|constructor];
      by apply sample_request_ok, Hy.
  - split; [exact sample_client_ok|]. repeat constructor; try (by eexists); intros u [= <-]; discriminate.
Defined.
