(* ===== verification/Routing.v ===== *)
(** * Routing: the header option that carries gateway and endpoint identifiers

    Models [csdk/routing/src/routingutility.c] built as an endpoint ([ROUTING_EP]):
    how the option [RM_OPTION_MESSAGE_SWITCHING] is written, read, added to an
    outgoing message and taken off an incoming one.  The identifiers are stored
    least significant byte first.  An [int8_t] that is assigned more than 127
    wraps. *)
From S2P Require Import Prelude Effects Heap CaCommon CaMessage StackTypes.

Definition DEFAULT_ROUTE_OPTION_LEN : Z := 1.
Definition MIN_ROUTE_OPTION_LEN : Z := 5.
Definition ACK_MESSAGE_TYPE : Z := 64.
Definition RST_MESSAGE_TYPE : Z := 128.
Definition NORMAL_MESSAGE_TYPE : Z := 192.
Definition GATEWAY_ID_LENGTH : Z := 4.
Definition ENDPOINT_ID_LENGTH : Z := 2.
Definition RM_OPTION_MESSAGE_SWITCHING : Z := 65524.

(** [MSGType] *)
Definition NOR : Z := 0.
Definition ACK : Z := 1.
Definition RST : Z := 2.

Record RMRouteOption_t := {
  srcGw : Z;
  destGw : Z;
  mSeqNum : Z;
  srcEp : Z;
  destEp : Z;
  msgType : Z;
}.
#[export] Instance RMRouteOption_eq_dec : EqDecision RMRouteOption_t.
Proof. solve_decision. Defined.

Definition zero_route : RMRouteOption_t :=
  {| srcGw := 0; destGw := 0; mSeqNum := 0; srcEp := 0; destEp := 0; msgType := 0 |}.

(** The bytes of an integer in memory, and back. *)
Fixpoint le_bytes (n : nat) (z : Z) : list Z :=
  match n with O => [] | S n' => u8 z :: le_bytes n' (z >>> 8) end.
Fixpoint le_value (l : list Z) : Z :=
  match l with [] => 0 | b :: l' => b + 256 * le_value l' end.

Definition int8 (z : Z) : Z := (z + 128) mod 256 - 128.

Definition set_data (id len : Z) (data : list Z) (o : CAHeaderOption_t) : CAHeaderOption_t :=
  {| protocolID := protocolID o; optionID := id; optionLength := len; optionData := data |}.

(** ** The option *)

Definition type_byte (msgType : Z) : Z :=
  if msgType =? ACK then ACK_MESSAGE_TYPE else if msgType =? RST then RST_MESSAGE_TYPE else NORMAL_MESSAGE_TYPE.

Definition address_length (gw ep : Z) : Z :=
  (if gw =? 0 then 0 else GATEWAY_ID_LENGTH) + (if ep =? 0 then 0 else ENDPOINT_ID_LENGTH).

(** Gateway and endpoint, each when it is not zero. *)
Definition address_bytes (gw ep : Z) : list Z :=
  (if gw =? 0 then [] else le_bytes 4 gw) ++ (if ep =? 0 then [] else le_bytes 2 ep).

(** The bytes [tempData] is filled with from its start to its end. *)
Definition route_bytes (v : RMRouteOption_t) : list Z :=
  let dLen := address_length (destGw v) (destEp v) in
  let sLen := address_length (srcGw v) (srcEp v) in
  if (dLen =? 0) && (sLen =? 0) then [type_byte (msgType v)]
  else
    type_byte (msgType v) :: dLen :: address_bytes (destGw v) (destEp v) ++
    sLen :: address_bytes (srcGw v) (srcEp v) ++ le_bytes 2 (mSeqNum v).

Definition RMCreateRouteOption (optValue : option RMRouteOption_t) (options : CAHeaderOption_t)
    : M heap (OCStackResult * CAHeaderOption_t) :=
  match optValue with
  | None => mret (OC_STACK_INVALID_PARAM, options)
  | Some v =>
      let dLen := address_length (destGw v) (destEp v) in
      let sLen := address_length (srcGw v) (srcEp v) in
      let totalLength := if (dLen =? 0) && (sLen =? 0) then DEFAULT_ROUTE_OPTION_LEN
                         else MIN_ROUTE_OPTION_LEN + dLen + sLen in
      ok ← OICCalloc totalLength 1;
      if negb ok then mret (OC_STACK_NO_MEMORY, options)
      else
        data ← lift (write_at (optionData options) 0 (route_bytes v));
        _ ← OICFree (Some tt);
        mret (OC_STACK_OK, set_data RM_OPTION_MESSAGE_SWITCHING totalLength data options)
  end.

(** Reads [n] bytes at [count]; what the option's length says is not looked at. *)
Definition field (o : CAHeaderOption_t) (count n : Z) : ub Z := le_value <$> read_at (optionData o) count n.

(** An address at [count]: its length, the gateway and the endpoint, which stay
    as they are when they are not there, and where it ends. *)
Definition read_address (o : CAHeaderOption_t) (count gw ep : Z) : ub (Z * Z * Z) :=
  len ← field o count 1;
  let count := count + 1 in
  if 0 <? len then
    gw' ← field o count GATEWAY_ID_LENGTH;
    let count := count + GATEWAY_ID_LENGTH in
    if GATEWAY_ID_LENGTH <? len then
      ep' ← field o count ENDPOINT_ID_LENGTH; Some (gw', ep', count + ENDPOINT_ID_LENGTH)
    else Some (gw', ep, count)
  else Some (gw, ep, count).

Definition read_type (mType old : Z) : Z :=
  if mType =? ACK_MESSAGE_TYPE then ACK
  else if mType =? RST_MESSAGE_TYPE then RST else if mType =? NORMAL_MESSAGE_TYPE then NOR else old.

Definition RMParseRouteOption (options : CAHeaderOption_t) (optValue : option RMRouteOption_t)
    : ub (OCStackResult * option RMRouteOption_t) :=
  match optValue with
  | None => Some (OC_STACK_INVALID_PARAM, None)
  | Some v =>
      if optionLength options =? 0 then Some (OC_STACK_ERROR, optValue)
      else
        mType ← field options 0 1;
        let t := read_type mType (msgType v) in
        if optionLength options =? DEFAULT_ROUTE_OPTION_LEN then
          Some (OC_STACK_OK, Some {| srcGw := srcGw v; destGw := destGw v; mSeqNum := mSeqNum v; srcEp := srcEp v;
            destEp := destEp v; msgType := t |})
        else
          '(dg, de, count) ← read_address options DEFAULT_ROUTE_OPTION_LEN (destGw v) (destEp v);
          '(sg, se, count) ← read_address options count (srcGw v) (srcEp v);
          seq ← field options count 2;
          Some (OC_STACK_OK, Some {| srcGw := sg; destGw := dg; mSeqNum := seq; srcEp := se; destEp := de; msgType := t |})
  end.

(** ** The options of a message *)

Fixpoint index_loop (options : list CAHeaderOption_t) (i : Z) (n : nat) (index : Z) : ub Z :=
  match n with
  | O => Some index
  | S n' =>
      o ← byte_at options i;
      if optionID o =? RM_OPTION_MESSAGE_SWITCHING then Some (int8 i) else index_loop options (i + 1) n' index
  end.

Definition RMGetRouteOptionIndex (options : option (list CAHeaderOption_t)) (numOptions index : Z) : ub Z :=
  match options with
  | None => Some index
  | Some l => index_loop l 0 (Z.to_nat numOptions) index
  end.

Inductive RMMessage := RequestMessage (r : CARequestInfo_t) | ResponseMessage (r : CAResponseInfo_t).

Definition info_of (m : RMMessage) : CAInfo_t :=
  match m with RequestMessage r => req_info r | ResponseMessage r => res_info r end.

Definition set_options (os : option (list CAHeaderOption_t)) (n : Z) (i : CAInfo_t) : CAInfo_t := {|
  type := type i; messageId := messageId i; token := token i; tokenLength := tokenLength i;
  options := os; numOptions := n; payload := payload i; payloadSize := payloadSize i;
  payloadFormat := payloadFormat i; acceptFormat := acceptFormat i; payloadVersion := payloadVersion i;
  acceptVersion := acceptVersion i; resourceUri := resourceUri i; identity := identity i;
  info_dataType := info_dataType i |}.

Definition set_accept (f : CAPayloadFormat_t) (i : CAInfo_t) : CAInfo_t := {|
  type := type i; messageId := messageId i; token := token i; tokenLength := tokenLength i;
  options := options i; numOptions := numOptions i; payload := payload i; payloadSize := payloadSize i;
  payloadFormat := payloadFormat i; acceptFormat := f; payloadVersion := payloadVersion i;
  acceptVersion := acceptVersion i; resourceUri := resourceUri i; identity := identity i;
  info_dataType := info_dataType i |}.

Definition set_message_options (os : option (list CAHeaderOption_t)) (n : Z) (m : RMMessage) : RMMessage :=
  match m with
  | RequestMessage r => RequestMessage (set_req_info (set_options os n) r)
  | ResponseMessage r => ResponseMessage (set_res_info (set_options os n) r)
  end.

(** An empty acknowledgement or reset is sent as a message with a type in the
    option; [doPost] says that a client has to send it as a POST request. *)
Definition empty_message (mode : OCMode) (m : RMMessage) : RMMessage * option Z * bool :=
  match m with
  | RequestMessage _ => (m, None, false)
  | ResponseMessage r =>
      let content := ResponseMessage (set_result CA_CONTENT (set_res_info (set_type CA_MSG_NONCONFIRM) r)) in
      if negb (result r =? CA_EMPTY) then (m, None, false)
      else
        match type (res_info r) with
        | CA_MSG_ACKNOWLEDGE =>
            if decide (mode = OC_SERVER) then (content, Some ACK, false) else (m, Some ACK, true)
        | CA_MSG_RESET => (content, Some RST, false)
        | _ => (m, None, false)
        end
  end.

(** An outcome: the message, whether a POST is needed, and whether the array of
    options the message still points to has been freed. *)
Record added := { ad_result : OCStackResult; ad_message : RMMessage; ad_post : bool; ad_dangling : bool }.

Definition add_failed (r : OCStackResult) (m : RMMessage) : added :=
  {| ad_result := r; ad_message := m; ad_post := false; ad_dangling := false |}.

(** The array with room for one more option. *)
Definition grown_options (os : option (list CAHeaderOption_t)) (n : Z) : ub (list CAHeaderOption_t) :=
  match os with
  | Some l => l' ← read_at l 0 n; Some (l' ++ [zero_option])
  | None => if n =? 0 then Some [zero_option] else None
  end.

(** The first six bytes of the destination, when there is one. *)
Definition destination_of (destination : option (list Z)) (v : RMRouteOption_t) : ub (Z * Z) :=
  match destination with
  | None => Some (destGw v, destEp v)
  | Some d => gw ← read_at d 0 4; ep ← read_at d 4 2; Some (le_value gw, le_value ep)
  end.

(** A response looks at the first byte of the destination before anything else. *)
Definition for_endpoint (destination : option (list Z)) (m : RMMessage) : ub bool :=
  match m, destination with
  | RequestMessage _, _ => Some false
  | ResponseMessage _, None => None
  | ResponseMessage r, Some d => d0 ← byte_at d 0; Some ((d0 =? 0) && (result r =? CA_EMPTY))
  end.

(** Writes the option at [index] of [optionPtr]; [n] is the number of options
    before. *)
Definition write_route (m m' : RMMessage) (post : bool) (v : RMRouteOption_t) (optionPtr : list CAHeaderOption_t)
    (o : CAHeaderOption_t) (index n : Z) : M heap added :=
  '(res, o') ← RMCreateRouteOption (Some v) o;
  match res with
  | OC_STACK_OK =>
      optionPtr' ← lift (write_at optionPtr index [o']);
      if n =? index then
        _ ← OICFree (options (info_of m));
        mret {| ad_result := OC_STACK_OK; ad_message := set_message_options (Some optionPtr') (u8 (n + 1)) m';
                ad_post := post; ad_dangling := false |}
      else
        mret {| ad_result := OC_STACK_OK; ad_message := set_message_options (Some optionPtr') n m';
                ad_post := post; ad_dangling := false |}
  | _ =>
      _ ← OICFree (Some optionPtr);
      mret {| ad_result := res; ad_message := m'; ad_post := post; ad_dangling := negb (n =? index) |}
  end.

Definition sizeof_header_option : Z := 1032.

Definition RMAddInfo (mode : OCMode) (destination : option (list Z)) (m : RMMessage) : M heap added :=
  skip ← lift (for_endpoint destination m);
  if skip : bool then mret (add_failed OC_STACK_OK m)
  else
    let n := numOptions (info_of m) in
    index ← lift (RMGetRouteOptionIndex (options (info_of m)) n (-1));
    let present := -1 <? index in
    let index := if present then index else int8 n in
    ok ← (if present then mret true else OICCalloc (n + 1) sizeof_header_option);
    if negb ok then mret (add_failed OC_STACK_NO_MEMORY m)
    else
      optionPtr ← lift (if present then options (info_of m) else grown_options (options (info_of m)) n);
      o ← lift (byte_at optionPtr index);
      '(res, route) ← lift (if n =? index then Some (OC_STACK_OK, Some zero_route)
                            else RMParseRouteOption o (Some zero_route));
      match res, route with
      | OC_STACK_OK, Some v =>
          let '(m', t, post) := empty_message mode m in
          '(gw, ep) ← lift (destination_of destination v);
          write_route m m' post {| srcGw := srcGw v; destGw := gw; mSeqNum := mSeqNum v; srcEp := srcEp v;
            destEp := ep; msgType := default (msgType v) t |} optionPtr o index n
      | _, _ => mret (add_failed OC_STACK_ERROR m)
      end.

(** The source of the option at [o], written over the start of [routeData]. *)
Definition take_source (o : CAHeaderOption_t) (routeData : list Z) : ub (list Z) :=
  if DEFAULT_ROUTE_OPTION_LEN <? optionLength o then
    dLen ← field o DEFAULT_ROUTE_OPTION_LEN 1;
    let count := 1 + DEFAULT_ROUTE_OPTION_LEN + dLen in
    sLen ← field o count 1;
    let count := count + 1 in
    if 0 <? sLen then
      gw ← read_at (optionData o) count GATEWAY_ID_LENGTH;
      routeData ← write_at routeData 0 gw;
      if GATEWAY_ID_LENGTH <? sLen then
        ep ← read_at (optionData o) (count + GATEWAY_ID_LENGTH) ENDPOINT_ID_LENGTH;
        write_at routeData GATEWAY_ID_LENGTH ep
      else Some routeData
    else Some routeData
  else Some routeData.

(** The loop that moves the options after [i] down, [n] of them. *)
Fixpoint move_options (l : list CAHeaderOption_t) (i : Z) (n : nat) : ub (list CAHeaderOption_t) :=
  match n with
  | O => Some l
  | S n' => o ← byte_at l (i + 1); l' ← write_at l i [o]; move_options l' (i + 1) n'
  end.

(** Returns the options, their number and the endpoint's [routeData]. *)
Definition RMUpdateInfo (os : option (list CAHeaderOption_t)) (n : Z) (routeData : list Z)
    : M heap (OCStackResult * option (list CAHeaderOption_t) * Z * list Z) :=
  match os with
  | None => mret (OC_STACK_INVALID_PARAM, os, n, routeData)
  | Some l =>
      if n <=? 0 then mret (OC_STACK_ERROR, os, n, routeData)
      else
        routeIndex ← lift (RMGetRouteOptionIndex os n (-1));
        if routeIndex <=? -1 then mret (OC_STACK_OK, os, n, routeData)
        else
          o ← lift (byte_at l routeIndex);
          routeData' ← lift (take_source o routeData);
          l' ← lift (move_options l routeIndex (Z.to_nat (n - 1 - routeIndex)));
          if n - 1 =? 0 then _ ← OICFree os; mret (OC_STACK_OK, None, 0, routeData')
          else mret (OC_STACK_OK, Some l', n - 1, routeData')
  end.

(** ** Bytes and addresses *)

Lemma length_le_bytes n z : length (le_bytes n z) = n.
Proof. revert z. induction n as [|n IH]; intros z; [done|]. cbn. by rewrite IH. Qed.

Lemma le_value_bytes n z : 0 <= z < 2 ^ (8 * Z.of_nat n) -> le_value (le_bytes n z) = z.
Proof.
  revert z. induction n as [|n IH]; intros z Hz; [cbn in *; lia|]. cbn [le_bytes le_value].
  rewrite shiftr_div by lia. change (2 ^ 8) with 256. unfold wrap. change (2 ^ 8) with 256.
  rewrite IH.
  - pose proof (Z.div_mod z 256). lia.
  - split; [apply Z.div_pos; lia|]. apply Z.div_lt_upper_bound; [lia|].
    replace (256 * 2 ^ (8 * Z.of_nat n)) with (2 ^ (8 * Z.of_nat (S n))); [lia|].
    change 256 with (2 ^ 8). rewrite <- Z.pow_add_r by lia. f_equal. lia.
Qed.

Record address_ok (gw ep : Z) : Prop := {
  gw_range : 0 <= gw < 2 ^ 32;
  ep_range : 0 <= ep < 2 ^ 16;
  ep_has_gw : ep <> 0 -> gw <> 0;
}.

Lemma length_address gw ep : Z.of_nat (length (address_bytes gw ep)) = address_length gw ep.
Proof.
  unfold address_bytes, address_length, GATEWAY_ID_LENGTH, ENDPOINT_ID_LENGTH. rewrite length_app.
  destruct (gw =? 0), (ep =? 0); rewrite ?length_le_bytes; reflexivity.
Qed.

Lemma address_length_range gw ep : 0 <= address_length gw ep <= 6.
Proof. unfold address_length, GATEWAY_ID_LENGTH, ENDPOINT_ID_LENGTH. destruct (gw =? 0), (ep =? 0); lia. Qed.

Lemma field_at o pre mid post count n : optionData o = pre ++ mid ++ post ->
  count = Z.of_nat (length pre) -> n = Z.of_nat (length mid) -> field o count n = Some (le_value mid).
Proof. intros E Hc Hn. unfold field. rewrite E, (read_at_app pre mid post count n) by done. done. Qed.

Lemma field_byte o pre b post count : optionData o = pre ++ b :: post -> count = Z.of_nat (length pre) ->
  field o count 1 = Some b.
Proof. intros E Hc. rewrite (field_at o pre [b] post) by done. cbn. f_equal. lia. Qed.

Lemma read_address_at o pre gw ep post : address_ok gw ep ->
  optionData o = pre ++ address_length gw ep :: address_bytes gw ep ++ post ->
  read_address o (Z.of_nat (length pre)) 0 0 = Some (gw, ep, Z.of_nat (length pre) + 1 + address_length gw ep).
Proof.
  intros [Hg He Hge] E. unfold read_address. rewrite (field_byte _ _ _ _ _ E eq_refl). cbn [mbind option_bind].
  unfold address_length, address_bytes, GATEWAY_ID_LENGTH, ENDPOINT_ID_LENGTH in *.
  destruct (Z.eqb_spec gw 0) as [->|Hg0].
  { destruct (Z.eqb_spec ep 0) as [->|He0]; [|by specialize (Hge He0)]. cbn. do 2 f_equal; lia. }
  assert (field o (Z.of_nat (length pre) + 1) 4 = Some gw) as Eg.
  { rewrite (field_at o (pre ++ [4 + (if ep =? 0 then 0 else 2)]) (le_bytes 4 gw) ((if ep =? 0 then [] else le_bytes 2 ep) ++ post)).
    - by rewrite le_value_bytes.
    - rewrite E. by rewrite <- !app_assoc.
    - rewrite length_app. cbn. lia.
    - by rewrite length_le_bytes. }
  destruct (Z.eqb_spec ep 0) as [->|He0].
  - cbn -[field]. rewrite Eg. cbn. do 2 f_equal; lia.
  - cbn -[field]. rewrite Eg. cbn -[field].
    rewrite (field_at o (pre ++ 6 :: le_bytes 4 gw) (le_bytes 2 ep) post).
    + rewrite le_value_bytes by done. cbn. do 2 f_equal; lia.
    + rewrite E, <- !app_assoc. done.
    + rewrite length_app. cbn [length]. rewrite length_le_bytes. lia.
    + by rewrite length_le_bytes.
Qed.

(** ** Writing and reading the option *)

Record route_ok (v : RMRouteOption_t) : Prop := {
  dest_ok : address_ok (destGw v) (destEp v);
  src_ok : address_ok (srcGw v) (srcEp v);
  seq_range : 0 <= mSeqNum v < 2 ^ 16;
  type_range : 0 <= msgType v <= 2;
}.

Definition no_addresses (v : RMRouteOption_t) : bool :=
  (address_length (destGw v) (destEp v) =? 0) && (address_length (srcGw v) (srcEp v) =? 0).

(** The sequence number is not sent when there is no address. *)
Definition sent (v : RMRouteOption_t) : RMRouteOption_t := {|
  srcGw := srcGw v; destGw := destGw v; mSeqNum := if no_addresses v then 0 else mSeqNum v; srcEp := srcEp v;
  destEp := destEp v; msgType := msgType v |}.

Definition route_length (v : RMRouteOption_t) : Z := Z.of_nat (length (route_bytes v)).

Lemma route_length_eq v : route_length v =
  if no_addresses v then 1
  else MIN_ROUTE_OPTION_LEN + address_length (destGw v) (destEp v) + address_length (srcGw v) (srcEp v).
Proof.
  unfold route_length, route_bytes, no_addresses. destruct (_ && _); [done|]. cbn [length].
  rewrite !length_app. cbn [length]. rewrite length_app, length_le_bytes, !Nat2Z.inj_succ, !Nat2Z.inj_add, !Nat2Z.inj_succ.
  rewrite Nat2Z.inj_add, !length_address. unfold MIN_ROUTE_OPTION_LEN. lia.
Qed.

Lemma route_length_range v : 1 <= route_length v <= 17.
Proof.
  rewrite route_length_eq. pose proof (address_length_range (destGw v) (destEp v)).
  pose proof (address_length_range (srcGw v) (srcEp v)). unfold MIN_ROUTE_OPTION_LEN. destruct (no_addresses v); lia.
Qed.

(** An option with the array it is declared with. *)
Definition full_option (o : CAHeaderOption_t) : Prop :=
  Z.of_nat (length (optionData o)) = CA_MAX_HEADER_OPTION_DATA_LENGTH.

Definition with_route (v : RMRouteOption_t) (o : CAHeaderOption_t) : CAHeaderOption_t :=
  set_data RM_OPTION_MESSAGE_SWITCHING (route_length v) (route_bytes v ++ drop (length (route_bytes v)) (optionData o)) o.

Lemma create_option_yields v o : full_option o -> yields (RMCreateRouteOption (Some v) o) (OC_STACK_OK, with_route v o) 0.
Proof.
  intros Hf. unfold RMCreateRouteOption. cbn zeta. fold (no_addresses v).
  change (if no_addresses v then DEFAULT_ROUTE_OPTION_LEN else
    MIN_ROUTE_OPTION_LEN + address_length (destGw v) (destEp v) + address_length (srcGw v) (srcEp v))
    with (if no_addresses v then 1 else
    MIN_ROUTE_OPTION_LEN + address_length (destGw v) (destEp v) + address_length (srcGw v) (srcEp v)).
  rewrite <- route_length_eq. pose proof (route_length_range v) as Hr.
  eapply yields_eq; [eapply yields_bind; [apply yields_calloc; [lia|lia|unfold SIZE_MAX; lia]|]|].
  - cbn [negb]. eapply yields_bind.
    + apply yields_lift. apply write_at_prefix. unfold full_option, CA_MAX_HEADER_OPTION_DATA_LENGTH, route_length in *. lia.
    + eapply yields_bind; [apply yields_frees, frees_ptr|apply yields_ret].
  - cbn. lia.
Qed.

Lemma read_type_byte t old : 0 <= t <= 2 -> read_type (type_byte t) old = t.
Proof.
  intros Ht. assert (t = 0 \/ t = 1 \/ t = 2) as [-> | [-> | ->]] by lia; reflexivity.
Qed.

Lemma parse_created v o : route_ok v -> RMParseRouteOption (with_route v o) (Some zero_route) =
  Some (OC_STACK_OK, Some (sent v)).
Proof.
  intros [Hd Hs Hq Ht]. unfold RMParseRouteOption.
  assert (optionLength (with_route v o) = route_length v) as -> by done.
  pose proof (route_length_range v) as Hr. destruct (Z.eqb_spec (route_length v) 0); [lia|].
  set (rest := drop (length (route_bytes v)) (optionData o)).
  assert (optionData (with_route v o) = route_bytes v ++ rest) as Ed by done.
  unfold route_bytes in Ed. fold (no_addresses v) in Ed. pose proof (route_length_eq v) as Hl. unfold sent.
  destruct (no_addresses v) eqn:Ena.
  - rewrite (field_byte _ [] (type_byte (msgType v)) rest 0 Ed eq_refl). cbn [mbind option_bind].
    rewrite Hl. cbn. rewrite read_type_byte by done.
    unfold no_addresses, address_length, GATEWAY_ID_LENGTH, ENDPOINT_ID_LENGTH in Ena.
    destruct v as [sg dg sq se de mt]; cbn in *. destruct (Z.eqb_spec dg 0), (Z.eqb_spec de 0), (Z.eqb_spec sg 0), (Z.eqb_spec se 0);
      try discriminate Ena. by subst.
  - rewrite (field_byte _ [] (type_byte (msgType v)) _ 0 Ed eq_refl). cbn [mbind option_bind].
    assert (route_length v =? DEFAULT_ROUTE_OPTION_LEN = false) as ->.
    { pose proof (address_length_range (destGw v) (destEp v)). pose proof (address_length_range (srcGw v) (srcEp v)).
      unfold DEFAULT_ROUTE_OPTION_LEN, MIN_ROUTE_OPTION_LEN in *. lia. }
    assert (optionData (with_route v o) = [type_byte (msgType v)] ++ address_length (destGw v) (destEp v) ::
      address_bytes (destGw v) (destEp v) ++ address_length (srcGw v) (srcEp v) :: address_bytes (srcGw v) (srcEp v) ++
      le_bytes 2 (mSeqNum v) ++ rest) as Ed' by (rewrite Ed; cbn [app]; rewrite <- !app_assoc; cbn [app]; by rewrite <- !app_assoc).
    clear Ed. rename Ed' into Ed. change DEFAULT_ROUTE_OPTION_LEN with (Z.of_nat (length [type_byte (msgType v)])).
    cbn [destGw destEp srcGw srcEp mSeqNum msgType zero_route].
    rewrite (read_address_at _ [type_byte (msgType v)] _ _ _ Hd Ed). cbn [mbind option_bind].
    set (pre := type_byte (msgType v) :: address_length (destGw v) (destEp v) :: address_bytes (destGw v) (destEp v)).
    assert (Z.of_nat (length [type_byte (msgType v)]) + 1 + address_length (destGw v) (destEp v) = Z.of_nat (length pre)) as ->
      by (unfold pre; cbn [length]; rewrite <- length_address; lia).
    assert (optionData (with_route v o) = pre ++ address_length (srcGw v) (srcEp v) :: address_bytes (srcGw v) (srcEp v) ++
      le_bytes 2 (mSeqNum v) ++ rest) as Es by (by rewrite Ed).
    rewrite (read_address_at _ pre _ _ _ Hs Es). cbn [mbind option_bind].
    rewrite (field_at _ (pre ++ address_length (srcGw v) (srcEp v) :: address_bytes (srcGw v) (srcEp v))
      (le_bytes 2 (mSeqNum v)) rest).
    + cbn [mbind option_bind]. rewrite le_value_bytes by done. rewrite read_type_byte by done. done.
    + rewrite Ed. rewrite <- app_assoc. done.
    + rewrite length_app. cbn [length]. rewrite <- length_address. lia.
    + by rewrite length_le_bytes.
Qed.

(** what is written into the option is what is read out of it, byte for byte,
    when an endpoint is only named together with its gateway; the sequence
    number is lost when no address is given. *)
Theorem route_option_roundtrip v o h : route_ok v -> full_option o -> hp_allocs h = [] ->
  exists o', RMCreateRouteOption (Some v) o h = Some ((OC_STACK_OK, o'), h) /\
    optionID o' = RM_OPTION_MESSAGE_SWITCHING /\ full_option o' /\
    RMParseRouteOption o' (Some zero_route) = Some (OC_STACK_OK, Some (sent v)).
Proof.
  intros Hv Hf Hh. exists (with_route v o). rewrite (create_option_yields v o Hf h Hh), add_live_0. split; [done|].
  split; [done|]. split; [|by apply parse_created].
  pose proof (route_length_range v). unfold full_option, with_route, set_data, route_length in *. cbn [optionData].
  rewrite length_app, length_drop. unfold CA_MAX_HEADER_OPTION_DATA_LENGTH in *. lia.
Qed.

(** an endpoint named without a gateway is read back as a gateway. *)
Theorem endpoint_without_gateway_misread ep o h : 0 < ep < 2 ^ 16 -> full_option o -> hp_allocs h = [] ->
  let v := {| srcGw := 0; destGw := 0; mSeqNum := 0; srcEp := 0; destEp := ep; msgType := NOR |} in
  exists o', RMCreateRouteOption (Some v) o h = Some ((OC_STACK_OK, o'), h) /\
    exists v', RMParseRouteOption o' (Some zero_route) = Some (OC_STACK_OK, Some v') /\ destGw v' = ep /\ destEp v' = 0.
Proof.
  intros He Hf Hh v. exists (with_route v o). rewrite (create_option_yields v o Hf h Hh), add_live_0. split; [done|].
  unfold full_option, CA_MAX_HEADER_OPTION_DATA_LENGTH in Hf.
  assert (route_bytes v = [192; 2; u8 ep; u8 (ep >>> 8); 0; 0; 0]) as Eb.
  { unfold route_bytes, address_length, address_bytes, v. cbn [destGw destEp srcGw srcEp msgType mSeqNum].
    destruct (Z.eqb_spec ep 0); [lia|]. done. }
  assert (optionData (with_route v o) = [192; 2; u8 ep; u8 (ep >>> 8); 0; 0; 0] ++ drop 7 (optionData o)) as Ed
    by (cbn [with_route set_data optionData]; by rewrite Eb).
  destruct (drop 7 (optionData o)) as [|x [|y rest]] eqn:Er.
  1,2: apply (f_equal (@length Z)) in Er; rewrite length_drop in Er; cbn in Er; lia.
  eexists. unfold RMParseRouteOption.
  assert (optionLength (with_route v o) = 7) as El by (cbn [with_route set_data optionLength]; unfold route_length; by rewrite Eb).
  rewrite El. change (7 =? 0) with false. cbn iota.
  rewrite (field_byte _ [] 192 _ 0 Ed eq_refl). cbn [mbind option_bind].
  assert (read_address (with_route v o) DEFAULT_ROUTE_OPTION_LEN 0 0 = Some (ep, 0, 6)) as A1.
  { unfold read_address. rewrite (field_byte _ [192] 2 _ DEFAULT_ROUTE_OPTION_LEN Ed eq_refl). cbn -[field].
    rewrite (field_at _ [192; 2] [u8 ep; u8 (ep >>> 8); 0; 0] ([0] ++ x :: y :: rest)
      (DEFAULT_ROUTE_OPTION_LEN + 1) GATEWAY_ID_LENGTH Ed eq_refl eq_refl).
    pose proof (le_value_bytes 2 ep ltac:(cbn; lia)) as Ev. cbn -[wrap Z.mul] in Ev |- *. do 2 f_equal. f_equal. lia. }
  assert (read_address (with_route v o) 6 0 0 = Some (0, 0, 7)) as A2.
  { unfold read_address. by rewrite (field_byte _ [192; 2; u8 ep; u8 (ep >>> 8); 0; 0] 0 _ 6 Ed eq_refl). }
  change (7 =? DEFAULT_ROUTE_OPTION_LEN) with false. cbn [destGw destEp srcGw srcEp zero_route].
  rewrite A1. cbn [mbind option_bind]. rewrite A2. cbn [mbind option_bind].
  rewrite (field_at _ [192; 2; u8 ep; u8 (ep >>> 8); 0; 0; 0] [x; y] rest 7 2 Ed eq_refl eq_refl).
  by split.
Qed.

(** ** Messages *)

Definition not_route (o : CAHeaderOption_t) : Prop := optionID o <> RM_OPTION_MESSAGE_SWITCHING.

Lemma index_none pre l x : Forall not_route l ->
  index_loop (pre ++ l) (Z.of_nat (length pre)) (length l) x = Some x.
Proof.
  intros H. revert pre. induction H as [|o l Ho _ IH]; intros pre; [done|]. cbn [index_loop length].
  rewrite (byte_at_app pre (o :: l) _ 0), byte_at_0 by lia. cbn [mbind option_bind].
  unfold not_route in Ho. rewrite (proj2 (Z.eqb_neq _ _) Ho). specialize (IH (pre ++ [o])).
  rewrite <- app_assoc in IH. cbn [app] in IH. rewrite <- IH. f_equal. rewrite length_app. cbn. lia.
Qed.

Lemma index_loop_at pre o l n x : index_loop (pre ++ o :: l) (Z.of_nat (length pre)) (S n) x =
  if optionID o =? RM_OPTION_MESSAGE_SWITCHING then Some (int8 (Z.of_nat (length pre)))
  else index_loop (pre ++ o :: l) (Z.of_nat (length pre) + 1) n x.
Proof. cbn [index_loop]. by rewrite (byte_at_app pre (o :: l) (Z.of_nat (length pre)) 0) by lia. Qed.

Lemma index_last pre l o x : Forall not_route l -> optionID o = RM_OPTION_MESSAGE_SWITCHING ->
  index_loop (pre ++ l ++ [o]) (Z.of_nat (length pre)) (S (length l)) x = Some (int8 (Z.of_nat (length pre + length l))).
Proof.
  intros H Ho. revert pre. induction H as [|o' l Hn _ IH]; intros pre; cbn [length app].
  - rewrite index_loop_at, Ho, Z.eqb_refl. do 2 f_equal. lia.
  - rewrite index_loop_at. unfold not_route in Hn. rewrite (proj2 (Z.eqb_neq _ _) Hn). specialize (IH (pre ++ [o'])).
    rewrite <- app_assoc in IH. cbn [app] in IH.
    replace (Z.of_nat (length pre) + 1) with (Z.of_nat (length (pre ++ [o']))) by (rewrite length_app; cbn; lia).
    rewrite IH, length_app. cbn [length]. do 2 f_equal. lia.
Qed.

Lemma int8_small z : -128 <= z < 128 -> int8 z = z.
Proof. intros Hz. unfold int8. rewrite Z.mod_small; lia. Qed.

Lemma take_source_none v o rd : srcGw v = 0 -> srcEp v = 0 -> take_source (with_route v o) rd = Some rd.
Proof.
  intros Eg Ee. unfold take_source. assert (optionLength (with_route v o) = route_length v) as -> by done.
  pose proof (route_length_eq v) as Hl. unfold route_length in Hl |- *.
  set (rest := drop (length (route_bytes v)) (optionData o)).
  assert (optionData (with_route v o) = route_bytes v ++ rest) as Ed by done.
  unfold route_bytes in Ed. fold (no_addresses v) in Ed. destruct (no_addresses v).
  - by rewrite Hl.
  - destruct (Z.ltb_spec DEFAULT_ROUTE_OPTION_LEN (Z.of_nat (length (route_bytes v)))); [|done].
    assert (optionData (with_route v o) =
      (type_byte (msgType v) :: address_length (destGw v) (destEp v) :: address_bytes (destGw v) (destEp v)) ++
      0 :: le_bytes 2 (mSeqNum v) ++ rest) as Es.
    { rewrite Ed, Eg, Ee. cbn [app]. rewrite <- app_assoc. cbn [app]. rewrite <- ?app_assoc. done. }
    rewrite (field_byte _ [type_byte (msgType v)] (address_length (destGw v) (destEp v)) _ DEFAULT_ROUTE_OPTION_LEN Es eq_refl).
    cbn [mbind option_bind]. rewrite (field_byte _ _ 0 _ _ Es); [done|].
    cbn [length]. rewrite <- length_address. unfold DEFAULT_ROUTE_OPTION_LEN. lia.
Qed.

(** The options of a message: as many as it says, none of them for routing, and
    room for one more in what counts them. *)
Record plain_options (os : option (list CAHeaderOption_t)) (n : Z) : Prop := {
  plain_length : n = Z.of_nat (length (default [] os));
  plain_few : n < 128;
  plain_ids : Forall not_route (default [] os);
}.

Lemma zero_option_full : full_option zero_option.
Proof. by vm_compute. Qed.

Lemma add_yields mode d m gw ep : for_endpoint (Some d) m = Some false -> empty_message mode m = (m, None, false) ->
  plain_options (options (info_of m)) (numOptions (info_of m)) ->
  read_at d 0 4 = Some gw -> read_at d 4 2 = Some ep ->
  let v := {| srcGw := 0; destGw := le_value gw; mSeqNum := 0; srcEp := 0; destEp := le_value ep; msgType := NOR |} in
  yields (RMAddInfo mode (Some d) m)
    {| ad_result := OC_STACK_OK;
       ad_message := set_message_options
         (Some (default [] (options (info_of m)) ++ [with_route v zero_option])) (numOptions (info_of m) + 1) m;
       ad_post := false; ad_dangling := false |} (1 - blk (options (info_of m))).
Proof.
  intros Hfor Hempty [Hn Hf Hp] Eg Ee v. unfold RMAddInfo. rewrite Hfor.
  set (os := options (info_of m)) in *. set (n := numOptions (info_of m)) in *.
  eapply yields_eq; [eapply yields_bind; [by apply yields_lift|]|]; [cbn iota|].
  - eapply yields_bind; [apply yields_lift|].
    { instantiate (1 := -1). destruct os as [l|]; [|done]. cbn [RMGetRouteOptionIndex]. rewrite Hn, Nat2Z.id.
      by apply (index_none []). }
    cbn zeta. change (-1 <? -1) with false. cbn iota.
    rewrite (int8_small n) by lia.
    eapply yields_bind; [apply yields_calloc; unfold sizeof_header_option, SIZE_MAX; lia|]. cbn [negb].
    eapply yields_bind; [apply yields_lift|].
    { instantiate (1 := default [] os ++ [zero_option]). unfold grown_options. destruct os as [l|]; cbn in Hn |- *; [|by rewrite Hn].
      by rewrite read_at_all. }
    eapply yields_bind; [apply yields_lift; rewrite (byte_at_app (default [] os) [zero_option] n 0) by lia; reflexivity|].
    rewrite Z.eqb_refl. eapply yields_bind; [by apply yields_lift|]. rewrite Hempty. cbn beta iota zeta.
    eapply yields_bind; [apply yields_lift; unfold destination_of; rewrite Eg; cbn [mbind option_bind]; by rewrite Ee|].
    cbn beta iota. unfold write_route. cbn [msgType zero_route default srcGw mSeqNum srcEp].
    eapply yields_bind; [apply (create_option_yields v zero_option zero_option_full)|]. cbn beta iota.
    eapply yields_bind; [apply yields_lift; by apply (write_at_one (default [] os) [])|].
    rewrite Z.eqb_refl. eapply yields_bind; [apply yields_frees, frees_ptr|].
    unfold wrap. rewrite Z.mod_small by lia. apply yields_ret.
  - fold os. lia.
Qed.

(** C34: the option a client adds to a request is taken off again by the stack that
    receives it: the other options are as before, and the address of the
    sender is not touched. *)
Theorem route_option_transparent mode d r gw ep rd h :
  plain_options (options (req_info r)) (numOptions (req_info r)) ->
  read_at d 0 4 = Some gw -> read_at d 4 2 = Some ep -> hp_allocs h = [] ->
  exists a h' os' h'', RMAddInfo mode (Some d) (RequestMessage r) h = Some (a, h') /\ ad_result a = OC_STACK_OK /\
    RMUpdateInfo (options (info_of (ad_message a))) (numOptions (info_of (ad_message a))) rd h' =
      Some ((OC_STACK_OK, os', numOptions (req_info r), rd), h'') /\
    take (Z.to_nat (numOptions (req_info r))) (default [] os') = default [] (options (req_info r)) /\
    (os' = None <-> numOptions (req_info r) = 0).
Proof.
  intros Hpl Eg Ee Hh. pose proof (add_yields mode d (RequestMessage r) gw ep eq_refl eq_refl Hpl Eg Ee h Hh) as Ea.
  cbn zeta in Ea.
  match type of Ea with _ = Some (?a, ?h1) => set (ad := a) in Ea; set (h' := h1) in Ea end.
  exists ad, h', (if numOptions (req_info r) =? 0 then None else options (info_of (ad_message ad))),
    (if numOptions (req_info r) =? 0 then add_live (-1) h' else h'). split; [done|].
  split; [done|]. destruct Hpl as [Hn Hf Hp].
  unfold ad. cbn [ad_message info_of set_message_options req_info set_req_info options numOptions set_options].
  set (l := default [] (options (req_info r))) in *. set (n := numOptions (req_info r)) in *.
  set (o' := with_route _ zero_option). unfold RMUpdateInfo.
  destruct (Z.leb_spec (n + 1) 0); [lia|].
  assert (RMGetRouteOptionIndex (Some (l ++ [o'])) (n + 1) (-1) = Some n) as Ei.
  { cbn [RMGetRouteOptionIndex]. replace (Z.to_nat (n + 1)) with (S (length l)) by lia.
    etransitivity; [apply (index_last [] l o' (-1) Hp eq_refl)|]. cbn [length Nat.add].
    rewrite int8_small by lia. by rewrite Hn. }
  step (run_lift _ _ _ Ei). destruct (Z.leb_spec n (-1)); [lia|].
  assert (byte_at (l ++ [o']) n = Some o') as Eb by (by rewrite (byte_at_app l [o'] n 0) by lia).
  assert (take_source o' rd = Some rd) as Et by (by apply take_source_none).
  step (run_lift _ _ _ Eb). step (run_lift _ _ _ Et).
  replace (n + 1 - 1 - n) with 0 by lia. assert (move_options (l ++ [o']) n (Z.to_nat 0) = Some (l ++ [o'])) as Em by done.
  step (run_lift _ _ _ Em). replace (n + 1 - 1) with n by lia.
  destruct (Z.eqb_spec n 0) as [E0|Hn0].
  - step (frees_ptr (Some (l ++ [o'])) _). rewrite E0. split; [done|]. split; [|done].
    destruct l; [done|cbn in Hn; lia].
  - split; [done|]. split; [|by split]. rewrite Hn, Nat2Z.id. exact (take_app_length l [o']).
Qed.

(** the index of the option is kept in a signed byte: a message with more
    than 127 options and none for routing makes the code look before the array. *)
Theorem many_options_out_of_bounds mode d r l h : options (req_info r) = Some l -> Forall not_route l ->
  numOptions (req_info r) = Z.of_nat (length l) -> 128 <= numOptions (req_info r) < 256 -> hp_allocs h = [] ->
  RMAddInfo mode d (RequestMessage r) h = None.
Proof.
  intros El Hp En Hn Hh. unfold RMAddInfo. cbn [for_endpoint info_of]. rewrite El.
  rewrite (run_bind _ _ h false h eq_refl).
  assert (RMGetRouteOptionIndex (Some l) (numOptions (req_info r)) (-1) = Some (-1)) as Ei.
  { cbn [RMGetRouteOptionIndex]. rewrite En, Nat2Z.id. by apply (index_none []). }
  step (run_lift _ _ h Ei). cbn zeta. change (-1 <? -1) with false. cbn iota.
  assert (int8 (numOptions (req_info r)) < 0) as Hi.
  { unfold int8. rewrite <- (Z.mod_unique (numOptions (req_info r) + 128) 256 1 (numOptions (req_info r) - 128)); lia. }
  assert (yields (OICCalloc (numOptions (req_info r) + 1) sizeof_header_option) true 1) as Ec
    by (apply yields_calloc; unfold sizeof_header_option, SIZE_MAX; lia).
  step (Ec h Hh). cbn [negb].
  assert (grown_options (Some l) (numOptions (req_info r)) = Some (l ++ [zero_option])) as Eg
    by (unfold grown_options; by rewrite read_at_all).
  step (run_lift _ _ _ Eg). apply run_bind_undef. unfold lift, byte_at. by rewrite decide_False by lia.
Qed.

(** ** At concrete inputs *)

Definition no_failure : heap := {| hp_allocs := []; live := 0 |}.

Definition sample_route : RMRouteOption_t :=
  {| srcGw := 0x01020304; destGw := 7; mSeqNum := 300; srcEp := 0; destEp := 513; msgType := RST |}.

Lemma route_option_roundtrip_witness :
  exists o', RMCreateRouteOption (Some sample_route) zero_option no_failure = Some ((OC_STACK_OK, o'), no_failure) /\
    optionID o' = RM_OPTION_MESSAGE_SWITCHING /\ full_option o' /\
    RMParseRouteOption o' (Some zero_route) = Some (OC_STACK_OK, Some (sent sample_route)).
Proof.
  apply (route_option_roundtrip sample_route zero_option no_failure); [|exact zero_option_full|reflexivity].
  split; [split|split| |]; unfold sample_route, RST; cbn; lia.
Defined.

Lemma endpoint_without_gateway_misread_witness :
  exists o', RMCreateRouteOption (Some {| srcGw := 0; destGw := 0; mSeqNum := 0; srcEp := 0; destEp := 9; msgType := NOR |})
      zero_option no_failure = Some ((OC_STACK_OK, o'), no_failure) /\
    exists v', RMParseRouteOption o' (Some zero_route) = Some (OC_STACK_OK, Some v') /\ destGw v' = 9 /\ destEp v' = 0.
Proof.
  apply (endpoint_without_gateway_misread 9 zero_option no_failure); [lia|exact zero_option_full|reflexivity].
Defined.

Definition sample_request (os : option (list CAHeaderOption_t)) (n : Z) : CARequestInfo_t :=
  {| method := 1; req_info := set_options os n zero_info; req_isMulticast := false |}.

Definition sample_destination : list Z := [1;0;0;0;2;0] ++ replicate 60 0.

Lemma route_option_transparent_witness :
  exists a h' os' h'', RMAddInfo OC_CLIENT (Some sample_destination)
      (RequestMessage (sample_request (Some [zero_option]) 1)) no_failure = Some (a, h') /\ ad_result a = OC_STACK_OK /\
    RMUpdateInfo (options (info_of (ad_message a))) (numOptions (info_of (ad_message a))) sample_destination h' =
      Some ((OC_STACK_OK, os', 1, sample_destination), h'') /\
    take 1 (default [] os') = [zero_option] /\ (os' = None <-> 1 = 0).
Proof.
  apply (route_option_transparent OC_CLIENT sample_destination (sample_request (Some [zero_option]) 1) [1;0;0;0] [2;0]
    sample_destination no_failure).
  - split; [reflexivity|cbn; lia|]. constructor; [by vm_compute|constructor].
  - reflexivity.
  - reflexivity.
  - reflexivity.
Defined.

Lemma many_options_out_of_bounds_witness :
  RMAddInfo OC_CLIENT (Some sample_destination)
    (RequestMessage (sample_request (Some (replicate 128 zero_option)) 128)) no_failure = None.
Proof.
  apply (many_options_out_of_bounds OC_CLIENT (Some sample_destination) (sample_request (Some (replicate 128 zero_option)) 128)
    (replicate 128 zero_option) no_failure).
  - reflexivity.
  - apply Forall_replicate. by vm_compute.
  - reflexivity.
  - cbn. lia.
  - reflexivity.
Defined.
