(* ===== verification/ServerRequest.v ===== *)
(** * ServerRequest: the requests a server works on and the responses to them

    Models [csdk/stack/src/ocserverrequest.c]: the table of requests, the
    table of partial responses, and how a response of the application becomes
    one of the connectivity layer.  Built with [WITH_PRESENCE] and as a routing
    endpoint, without remote access.  The tables are red-black trees ([RbTree]).
    Here the contents of a table are a list in order of insertion, to which
    [table_insert] adds and from which [table_remove] takes; the latter is
    undefined where [RBL_REMOVE] does not take an element out of the tree
    properly.  [ServerTrees.request_table_refined] shows that the tree of
    requests does what these do when the tokens have one length.  What a
    table finds is a member of the class [ServerEnv], as are the conversion
    of payloads to CBOR and the sending of a response. *)
From S2P Require Import Prelude Effects OicString Heap CaCommon CaMessage StackTypes Payload Discovery Routing.

(** ** Types *)

Inductive OCEntityHandlerResult :=
| OC_EH_OK | OC_EH_ERROR | OC_EH_SLOW | OC_EH_RESOURCE_CREATED | OC_EH_RESOURCE_DELETED | OC_EH_VALID
| OC_EH_CHANGED | OC_EH_CONTENT | OC_EH_BAD_REQ | OC_EH_UNAUTHORIZED_REQ | OC_EH_BAD_OPT | OC_EH_FORBIDDEN
| OC_EH_RESOURCE_NOT_FOUND | OC_EH_METHOD_NOT_ALLOWED | OC_EH_NOT_ACCEPTABLE | OC_EH_TOO_LARGE
| OC_EH_UNSUPPORTED_MEDIA_TYPE | OC_EH_INTERNAL_SERVER_ERROR | OC_EH_BAD_GATEWAY | OC_EH_SERVICE_UNAVAILABLE
| OC_EH_RETRANSMIT_TIMEOUT.
#[export] Instance OCEntityHandlerResult_eq_dec : EqDecision OCEntityHandlerResult.
Proof. solve_decision. Defined.

Definition OC_SPEC_VERSION_VALUE : Z := 2048.
Definition DEFAULT_VERSION_VALUE : Z := 2048.
Definition MAX_SEQUENCE_NUMBER : Z := 0xFFFFFF.
Definition COAP_OPTION_OBSERVE : Z := 6.
Definition CA_HEADER_OPTION_ID_LOCATION_PATH : Z := 8.
Definition COAP_OPTION_CONTENT_FORMAT : Z := 12.
Definition COAP_OPTION_CONTENT_VERSION : Z := 2053.
Definition COAP_MEDIATYPE_APPLICATION_VND_OCF_CBOR : Z := 10000.

(** [CAPayloadFormat_t] as the integers the code compares with. *)
Definition CA_FORMAT_APPLICATION_VND_OCF_CBOR_value : Z := 9.
Definition CA_FORMAT_UNSUPPORTED_value : Z := 10.

(** [OCEHResponseHandler]: the two functions that are ever stored. *)
Inductive response_handler := HandleSingle | HandleAggregate.

(** [resourceUrl] and [query] are what the arrays hold before the NUL. *)
Record OCServerRequest := {
  sr_addr : positive;
  sr_method : OCMethod;
  sr_acceptFormat : OCPayloadFormat;
  sr_acceptVersion : Z;
  resourceUrl : list Z;
  query : list Z;
  qos : OCQualityOfService;
  observationOption : Z;
  observeResult : OCStackResult;
  numResponses : Z;
  ehResponseHandler : response_handler;
  sr_devAddr : OCDevAddr;
  requestToken : option (list Z);
  sr_tokenLength : Z;
  coapID : Z;
  delayedResNeeded : Z;
  numRcvdVendorSpecificHeaderOptions : Z;
  rcvdVendorSpecificHeaderOptions : list OCHeaderOption;
  requestComplete : bool;
  slowFlag : bool;
  notificationFlag : bool;
  sr_payloadFormat : OCPayloadFormat;
  sr_payloadSize : Z;
  sr_payload : list Z;
}.
#[export] Instance OCServerRequest_Node : Node OCServerRequest := sr_addr.

Record OCServerResponse := {
  sp_addr : positive;
  sp_payload : option OCPayload;
  sp_requestHandle : positive;
}.
#[export] Instance OCServerResponse_Node : Node OCServerResponse := sp_addr.

(** [sendVendorSpecificHeaderOptions] is the whole array,
    [MAX_HEADER_OPTIONS] entries; [eh_resourceUri] is what its array holds
    before the NUL. *)
Record OCEntityHandlerResponse := {
  requestHandle : option positive;
  ehResult : OCEntityHandlerResult;
  eh_payload : option OCPayload;
  numSendVendorSpecificHeaderOptions : Z;
  sendVendorSpecificHeaderOptions : list OCHeaderOption;
  eh_resourceUri : list Z;
}.

(** ** State *)

(** A response handed to the connectivity layer. *)
Record sent_response := { to_endpoint : OCDevAddr; to_send : CAResponseInfo_t }.

Record server := {
  sv_heap : heap;
  requests : list OCServerRequest;
  responses : list OCServerResponse;
  sv_sent : list sent_response;
}.

Definition set_sv_heap (h : heap) (s : server) : server :=
  {| sv_heap := h; requests := requests s; responses := responses s; sv_sent := sv_sent s |}.
Definition set_requests (l : list OCServerRequest) (s : server) : server :=
  {| sv_heap := sv_heap s; requests := l; responses := responses s; sv_sent := sv_sent s |}.
Definition set_responses (l : list OCServerResponse) (s : server) : server :=
  {| sv_heap := sv_heap s; requests := requests s; responses := l; sv_sent := sv_sent s |}.
Definition add_sent (r : sent_response) (s : server) : server :=
  {| sv_heap := sv_heap s; requests := requests s; responses := responses s; sv_sent := sv_sent s ++ [r] |}.

#[export] Program Instance server_HasHeap : HasHeap server := {| heap_of := sv_heap; with_heap := set_sv_heap |}.
Next Obligation. done. Qed.
Next Obligation. by intros []. Qed.
Next Obligation. done. Qed.

(** [find_request l token tokenLength] and [find_response l request] are
    [RB_FIND]; [convert_payload] is [OCConvertPayload] and takes a block for
    what it returns; [send_result] is what [CASendResponse] returns. *)
Class ServerEnv := {
  find_request : list OCServerRequest -> option (list Z) -> Z -> ub (option positive);
  find_response : list OCServerResponse -> positive -> ub (option positive);
  convert_payload : OCPayload -> OCPayloadFormat -> OCStackResult * option (list Z) * Z;
  send_result : server -> OCDevAddr -> CAResponseInfo_t -> CAResult_t;
}.

(** ** The two tables *)

Section Server.
Context `{ServerEnv}.

Definition sizeof_OCServerRequest : Z := 52448.
Definition sizeof_OCServerResponse : Z := 56.

(** A new copy in an array of [size] bytes: what fits before the last one. *)
Definition array_text (size : Z) (s : list Z) : list Z := take (Z.to_nat (size - 1)) s.

(** The token of a request, in a block of its own. *)
Definition copy_token (token : option (list Z)) (tokenLength : Z) : M heap (option (option (list Z))) :=
  match token with
  | Some t =>
      if tokenLength =? 0 then mret (Some None)
      else
        ok ← OICMalloc tokenLength;
        if ok : bool then v ← lift (read_at t 0 tokenLength); mret (Some (Some v)) else mret None
  | None => mret (Some None)
  end.

(** The payload, when there is one. *)
Definition copy_body (body : option (list Z)) (bodySize : Z) : ub (option (list Z)) :=
  match body with
  | Some b => if bodySize =? 0 then Some None else v ← read_at b 0 bodySize; Some (Some v)
  | None => Some None
  end.

(** [RBL_INSERT] and [RBL_REMOVE] on what the tree of requests holds.  Requests
    with one token are chained behind the first of them, which alone is linked
    into the tree.  Taking the first one out while others are behind it puts the
    next one in its place, but neither the root nor the children of the place
    are told: they go on pointing to the element that is then freed
    ([RbChain.first_at_root_dangling]).  The table is not described after
    that: the removal is undefined. *)
Definition same_token (r q : OCServerRequest) : bool := bool_decide (requestToken r = requestToken q).

Definition table_insert (r : OCServerRequest) (l : list OCServerRequest) : list OCServerRequest := l ++ [r].

Definition table_remove (r : OCServerRequest) (l : list OCServerRequest) : ub (list OCServerRequest) :=
  match List.filter (same_token r) l with
  | q :: _ :: _ => if decide (sr_addr q = sr_addr r) then None else Some (unlink (sr_addr r) l)
  | _ => Some (unlink (sr_addr r) l)
  end.

(** No other request with its token is behind it, or it is behind another. *)
Definition removable (r : OCServerRequest) (l : list OCServerRequest) : Prop :=
  table_remove r l = Some (unlink (sr_addr r) l).

Definition zero_options : list OCHeaderOption := replicate (Z.to_nat MAX_HEADER_OPTIONS) zero_option.

(** [request] is the value of the pointer before; the second component the
    value after. *)
Definition AddServerRequest (request : option (option positive)) (coapMessageID delayedRes : Z) (notification : bool)
    (method : OCMethod) (numRcvd observation : Z) (q : OCQualityOfService) (queryText : option (list Z))
    (rcvd : option (list OCHeaderOption)) (format : OCPayloadFormat) (body : option (list Z))
    (token : option (list Z)) (tokenLength : Z) (url : option (list Z)) (bodySize : Z) (accept : OCPayloadFormat)
    (version : Z) (devAddr : option OCDevAddr) : M server (OCStackResult * option positive) :=
  match request, devAddr with
  | Some _, Some dev =>
      ok ← in_heap (OICCalloc 1 (sizeof_OCServerRequest + (if bodySize =? 0 then 1 else bodySize) - 1));
      if negb ok then mret (OC_STACK_NO_MEMORY, None)
      else
        options ← lift (match rcvd with Some l => read_at l 0 MAX_HEADER_OPTIONS | None => Some zero_options end);
        data ← lift (copy_body body bodySize);
        copied ← in_heap (copy_token token tokenLength);
        match copied with
        | None => _ ← in_heap (OICFree (Some tt)); mret (OC_STACK_NO_MEMORY, None)
        | Some tok =>
            l ← gets requests;
            let node := {|
              sr_addr := new_address l; sr_method := method; sr_acceptFormat := accept; sr_acceptVersion := version;
              resourceUrl := array_text MAX_URI_LENGTH (default [] url);
              query := array_text MAX_QUERY_LENGTH (default [] queryText); qos := q; observationOption := observation;
              observeResult := OC_STACK_ERROR; numResponses := 1; ehResponseHandler := HandleSingle; sr_devAddr := dev;
              requestToken := tok; sr_tokenLength := tokenLength; coapID := coapMessageID;
              delayedResNeeded := delayedRes; numRcvdVendorSpecificHeaderOptions := numRcvd;
              rcvdVendorSpecificHeaderOptions := options; requestComplete := false; slowFlag := false; notificationFlag := notification;
              sr_payloadFormat := match data with Some _ => format | None => OC_FORMAT_CBOR end;
              sr_payloadSize := match data with Some _ => bodySize | None => 0 end; sr_payload := default [0] data |} in
            _ ← modify (set_requests (table_insert node l));
            mret (OC_STACK_OK, Some (sr_addr node))
        end
  | _, _ => mret (OC_STACK_INVALID_PARAM, default None request)
  end.

Definition GetServerRequestUsingToken (token : option (list Z)) (tokenLength : Z) : M server (option positive) :=
  match token with
  | None => mret None
  | Some _ => l ← gets requests; lift (find_request l token tokenLength)
  end.

(** A request that is in use is in the table; any other pointer dangles. *)
Definition request_at (a : positive) : M server OCServerRequest := l ← gets requests; lift (node_at a l).

Definition DeleteServerRequest (serverRequest : option positive) : M server unit :=
  match serverRequest with
  | None => mret tt
  | Some a =>
      r ← request_at a;
      l ← gets requests;
      l ← lift (table_remove r l);
      _ ← modify (set_requests l);
      _ ← in_heap (OICFree (requestToken r));
      in_heap (OICFree (Some r))
  end.

Definition AddServerResponse (handle : positive) : M server (OCStackResult * option positive) :=
  ok ← in_heap (OICCalloc 1 sizeof_OCServerResponse);
  if negb ok then mret (OC_STACK_NO_MEMORY, None)
  else
    l ← gets responses;
    let node := {| sp_addr := new_address l; sp_payload := None; sp_requestHandle := handle |} in
    _ ← modify (set_responses (l ++ [node])); mret (OC_STACK_OK, Some (sp_addr node)).

Definition GetServerResponseUsingHandle (handle : option positive) : M server (option positive) :=
  match handle with
  | None => mret None
  | Some a => l ← gets responses; lift (find_response l a)
  end.

Definition response_at (a : positive) : M server OCServerResponse := l ← gets responses; lift (node_at a l).

Definition DeleteServerResponse (serverResponse : option positive) : M server unit :=
  match serverResponse with
  | None => mret tt
  | Some a =>
      r ← response_at a;
      _ ← modify (fun s => set_responses (unlink a (responses s)) s);
      in_heap (OICFree (Some r))
  end.

(** ** Conversions *)

Definition OCToCAPayloadFormat (ocFormat : OCPayloadFormat) : CAPayloadFormat_t :=
  match ocFormat with
  | OC_FORMAT_UNDEFINED => CA_FORMAT_UNDEFINED
  | OC_FORMAT_CBOR => CA_FORMAT_APPLICATION_CBOR
  | OC_FORMAT_VND_OCF_CBOR => CA_FORMAT_APPLICATION_VND_OCF_CBOR
  | _ => CA_FORMAT_UNSUPPORTED
  end.

Definition ConvertEHResultToCAResult (result : OCEntityHandlerResult) (method : OCMethod) : Z :=
  match result with
  | OC_EH_RESOURCE_CREATED => match method with OC_REST_POST | OC_REST_PUT => CA_CREATED | _ => CA_BAD_REQ end
  | OC_EH_RESOURCE_DELETED => match method with OC_REST_POST | OC_REST_DELETE => CA_DELETED | _ => CA_BAD_REQ end
  | OC_EH_SLOW => CA_CONTENT
  | OC_EH_OK | OC_EH_CHANGED | OC_EH_CONTENT =>
      match method with
      | OC_REST_POST | OC_REST_PUT | OC_REST_DELETE => CA_CHANGED
      | OC_REST_GET => CA_CONTENT
      | _ => CA_BAD_REQ
      end
  | OC_EH_VALID => CA_VALID
  | OC_EH_UNAUTHORIZED_REQ => CA_UNAUTHORIZED_REQ
  | OC_EH_BAD_OPT => CA_BAD_OPT
  | OC_EH_FORBIDDEN => CA_FORBIDDEN_REQ
  | OC_EH_RESOURCE_NOT_FOUND => CA_NOT_FOUND
  | OC_EH_METHOD_NOT_ALLOWED => CA_METHOD_NOT_ALLOWED
  | OC_EH_NOT_ACCEPTABLE => CA_NOT_ACCEPTABLE
  | OC_EH_INTERNAL_SERVER_ERROR => CA_INTERNAL_SERVER_ERROR
  | OC_EH_SERVICE_UNAVAILABLE => CA_SERVICE_UNAVAILABLE
  | OC_EH_RETRANSMIT_TIMEOUT => CA_RETRANSMIT_TIMEOUT
  | _ => CA_BAD_REQ
  end.

Definition CAResultToOCResult (caResult : CAResult_t) : OCStackResult :=
  match caResult with
  | CA_STATUS_OK => OC_STACK_OK
  | CA_STATUS_INVALID_PARAM => OC_STACK_INVALID_PARAM
  | CA_ADAPTER_NOT_ENABLED => OC_STACK_ADAPTER_NOT_ENABLED
  | CA_SERVER_STARTED_ALREADY => OC_STACK_OK
  | CA_SERVER_NOT_STARTED => OC_STACK_ERROR
  | CA_DESTINATION_NOT_REACHABLE | CA_SOCKET_OPERATION_FAILED | CA_SEND_FAILED | CA_RECEIVE_FAILED
  | CA_DESTINATION_DISCONNECTED | CA_HANDLE_ERROR_OTHER_MODULE => OC_STACK_COMM_ERROR
  | CA_MEMORY_ALLOC_FAILED => OC_STACK_NO_MEMORY
  | CA_REQUEST_TIMEOUT => OC_STACK_TIMEOUT
  | CA_STATUS_FAILED => OC_STACK_ERROR
  | CA_NOT_SUPPORTED => OC_STACK_NOTIMPL
  | CA_CONTINUE_OPERATION => OC_STACK_CONTINUE_OPERATION
  | _ => OC_STACK_ERROR
  end.

(** ** The options of a response *)

Definition option_id_data (id : Z) (data : list Z) : ub OCHeaderOption :=
  d ← write_at (optionData zero_option) 0 data;
  Some {| protocolID := CA_COAP_ID; optionID := id; optionLength := Z.of_nat (length data); optionData := d |}.

(** The application's version and format, and whether they are set. *)
Record content_options := { co_version : Z; co_format : Z; versionSet : bool; formatSet : bool }.

Definition no_content_options : content_options := {|
  co_version := OC_SPEC_VERSION_VALUE; co_format := COAP_MEDIATYPE_APPLICATION_VND_OCF_CBOR;
  versionSet := false; formatSet := false |}.

Definition two_bytes (o : OCHeaderOption) : ub Z :=
  lo ← byte_at (optionData o) 0; hi ← byte_at (optionData o) 1; Some (u16 ((hi <<< 8) + lo)).

Definition look_at_option (o : OCHeaderOption) (c : content_options) : ub content_options :=
  if optionID o =? COAP_OPTION_CONTENT_VERSION then
    v ← two_bytes o;
    Some {| co_version := v; co_format := co_format c; versionSet := true; formatSet := formatSet c |}
  else if optionID o =? COAP_OPTION_CONTENT_FORMAT then
    if optionLength o =? 1 then
      f ← byte_at (optionData o) 0;
      Some {| co_version := co_version c; co_format := f; versionSet := versionSet c; formatSet := true |}
    else if optionLength o =? 2 then
      f ← two_bytes o;
      Some {| co_version := co_version c; co_format := f; versionSet := versionSet c; formatSet := true |}
    else
      Some {| co_version := co_version c; co_format := CA_FORMAT_UNSUPPORTED_value; versionSet := versionSet c;
              formatSet := false |}
  else Some c.

(** The loop over the array: [n] entries from [i] on. *)
Fixpoint look_at_options (l : list OCHeaderOption) (i : Z) (n : nat) (c : content_options) : ub content_options :=
  match n with
  | O => Some c
  | S n' => o ← byte_at l i; c ← look_at_option o c; look_at_options l (i + 1) n' c
  end.

(** How many options the version and format still need. *)
Definition added_options (c : content_options) : Z :=
  if negb (versionSet c) && negb (formatSet c) then 2
  else if (formatSet c && (CA_FORMAT_APPLICATION_VND_OCF_CBOR_value =? co_format c) && negb (versionSet c))
          || (versionSet c && negb (formatSet c)) then 1
  else 0.

Definition observing (r : OCServerRequest) : bool :=
  bool_decide (observeResult r = OC_STACK_OK) && negb (observationOption r =? MAX_SEQUENCE_NUMBER + 1).

(** The number of options, and what the application set. *)
Definition count_options (r : OCServerRequest) (eh : OCEntityHandlerResponse) : ub (Z * content_options) :=
  let n := numSendVendorSpecificHeaderOptions eh in
  let n := if observing r then u8 (n + 1) else n in
  let n := if eh_resourceUri eh then n else u8 (n + 1) in
  match eh_payload eh with
  | Some _ =>
      c ← look_at_options (sendVendorSpecificHeaderOptions eh) 0 (Z.to_nat n) no_content_options;
      Some (u8 (n + added_options c), c)
  | None => Some (n, no_content_options)
  end.

Definition be_bytes4 (z : Z) : list Z :=
  [u8 (z >>> 24); u8 (z >>> 16); u8 (z >>> 8); u8 z].

(** The options that follow the application's. *)
Definition content_tail (c : content_options) : ub (list OCHeaderOption) :=
  if negb (versionSet c) && negb (formatSet c) then
    v ← option_id_data COAP_OPTION_CONTENT_VERSION (le_bytes 2 (co_version c));
    f ← option_id_data COAP_OPTION_CONTENT_FORMAT (le_bytes 2 (co_format c));
    Some [v; f]
  else if formatSet c && (CA_FORMAT_APPLICATION_VND_OCF_CBOR_value =? co_format c) && negb (versionSet c) then
    v ← option_id_data COAP_OPTION_CONTENT_VERSION (le_bytes 2 (co_version c)); Some [v]
  else if versionSet c && (OC_SPEC_VERSION_VALUE <=? co_version c) && negb (formatSet c) then
    f ← option_id_data COAP_OPTION_CONTENT_FORMAT (le_bytes 2 (co_format c)); Some [f]
  else Some [].

(** The array of [n] options, zero where nothing is written.  [None] in the
    result stands for a URI that is too long. *)
Definition fill_options (r : OCServerRequest) (eh : OCEntityHandlerResponse) (c : content_options) (n : Z)
    : ub (option (list OCHeaderOption)) :=
  let arr := replicate (Z.to_nat n) zero_option in
  observe ← (if observing r then
               o ← option_id_data COAP_OPTION_OBSERVE (be_bytes4 (observationOption r)); Some [o]
             else Some []);
  arr ← write_at arr 0 observe;
  let p := Z.of_nat (length observe) in
  vendor ← read_at (sendVendorSpecificHeaderOptions eh) 0 (numSendVendorSpecificHeaderOptions eh);
  arr ← write_at arr p vendor;
  let p := p + Z.of_nat (length vendor) in
  let uri := eh_resourceUri eh in
  if CA_MAX_HEADER_OPTION_DATA_LENGTH <? Z.of_nat (length uri) + 1 then Some None
  else
    location ← (match uri with
                | [] => Some []
                | _ => o ← option_id_data CA_HEADER_OPTION_ID_LOCATION_PATH (uri ++ [0]); Some [o]
                end);
    arr ← write_at arr p location;
    let p := p + Z.of_nat (length location) in
    tail ← (match eh_payload eh with Some _ => content_tail c | None => Some [] end);
    arr ← write_at arr p tail;
    Some (Some arr).

(** ** Sending *)

(** The identifier that is set to 0 for a slow response is set again to that of
    the request further on. *)
Definition response_type (r : OCServerRequest) : CAMessageType_t :=
  let high := bool_decide (qos r = OC_HIGH_QOS) in
  if notificationFlag r && high then CA_MSG_CONFIRM
  else if notificationFlag r && negb high then CA_MSG_NONCONFIRM
  else if negb (notificationFlag r) && negb (slowFlag r) && high then CA_MSG_ACKNOWLEDGE
  else if negb (notificationFlag r) && slowFlag r && high then CA_MSG_CONFIRM
  else CA_MSG_NONCONFIRM.

Definition sizeof_CAHeaderOption : Z := 1032.

(** [OCSendResponse] changes the response it is given, as [RMAddInfo] does; the
    last component says that its options have been freed. *)
Definition OCSendResponse (mode : OCMode) (object : OCDevAddr) (responseInfo : CAResponseInfo_t)
    : M server (OCStackResult * CAResponseInfo_t * bool) :=
  a ← in_heap (RMAddInfo mode (Some (routeData object)) (ResponseMessage responseInfo));
  match ad_message a with
  | RequestMessage _ => undefined
  | ResponseMessage info =>
      match ad_result a with
      | OC_STACK_OK =>
          let info := set_res_info (set_accept CA_FORMAT_UNDEFINED) info in
          _ ← modify (add_sent {| to_endpoint := object; to_send := info |});
          s ← get;
          let result := send_result s object info in
          mret (if decide (result = CA_STATUS_OK) then OC_STACK_OK else CAResultToOCResult result, info, false)
      | r => mret (r, info, ad_dangling a)
      end
  end.

(** [CAConnTypes]: IP, GATT, RFCOMM, NFC and TCP. *)
Definition CAConnTypes : list Z := [1; 2; 4; 32; 16].
Definition all_adapters : Z := 55.

Definition with_adapter (a : Z) (e : OCDevAddr) : OCDevAddr := {|
  dev_endpoint := {| adapter := a; flags := flags (dev_endpoint e); port := port (dev_endpoint e);
    addr := addr (dev_endpoint e); ifindex := ifindex (dev_endpoint e); remoteId := remoteId (dev_endpoint e) |};
  routeData := routeData e |}.

(** The loop over the transports: the last result is looked at again when
    nothing is sent.  The options the response points to must not have been freed. *)
Fixpoint send_on (mode : OCMode) (types : list Z) (a : Z) (endpoint : OCDevAddr) (info : CAResponseInfo_t)
    (freed : bool) (temp result : OCStackResult) : M server (OCStackResult * CAResponseInfo_t * bool) :=
  match types with
  | [] => mret (result, info, freed)
  | t :: types' =>
      '(temp, info, freed) ←
        (if a &&& t =? 0 then mret (temp, info, freed)
         else if freed then undefined else OCSendResponse mode (with_adapter (a &&& t) endpoint) info);
      send_on mode types' a endpoint info freed temp (if decide (temp = OC_STACK_OK) then result else temp)
  end.

(** ** Responses of the application *)

Definition is_presence (p : OCPayload) : bool := match p with PAYLOAD_TYPE_PRESENCE _ => true | _ => false end.
Definition is_diagnostic (p : OCPayload) : bool := match p with PAYLOAD_TYPE_DIAGNOSTIC _ => true | _ => false end.

(** Payload, size, format, version and result of the response. *)
Record body := { b_payload : option (list Z); b_size : Z; b_format : CAPayloadFormat_t; b_version : Z; b_result : Z }.

Definition no_body (result : Z) : body :=
  {| b_payload := None; b_size := 0; b_format := CA_FORMAT_UNDEFINED; b_version := 0; b_result := result |}.

Definition body_format (r : OCServerRequest) : CAPayloadFormat_t :=
  match OCToCAPayloadFormat (sr_acceptFormat r) with
  | CA_FORMAT_UNDEFINED => CA_FORMAT_APPLICATION_CBOR
  | f => f
  end.

Definition body_version (r : OCServerRequest) : Z :=
  match sr_acceptFormat r with
  | OC_FORMAT_VND_OCF_CBOR => if sr_acceptVersion r =? 0 then DEFAULT_VERSION_VALUE else sr_acceptVersion r
  | _ => 0
  end.

Definition convert_body (r : OCServerRequest) (p : option OCPayload) (result : Z) : M server (OCStackResult + body) :=
  match p with
  | None => mret (inr (no_body result))
  | Some p =>
      match sr_acceptFormat r with
      | OC_FORMAT_UNDEFINED | OC_FORMAT_CBOR | OC_FORMAT_VND_OCF_CBOR =>
          let '(res, out, size) := convert_payload p (sr_acceptFormat r) in
          _ ← in_heap (modify (add_live (blk out)));
          match res with
          | OC_STACK_OK =>
              let typed := negb (is_diagnostic p) && (0 <? size) in
              mret (inr {| b_payload := out; b_size := size;
                           b_format := if typed then body_format r else CA_FORMAT_UNDEFINED;
                           b_version := if typed then body_version r else 0; b_result := result |})
          | res => mret (inl res)
          end
      | _ => mret (inr (no_body CA_NOT_ACCEPTABLE))
      end
  end.

(** The token is copied into an array of [CA_MAX_TOKEN_LEN + 1] bytes. *)
Definition response_token (r : OCServerRequest) : ub (list Z) :=
  t ← (match requestToken r with
       | Some t => read_at t 0 (sr_tokenLength r)
       | None => if sr_tokenLength r =? 0 then Some [] else None
       end);
  write_at (replicate (Z.to_nat (CA_MAX_TOKEN_LEN + 1)) 0) 0 t.

Definition response_info (r : OCServerRequest) (tok : list Z) (os : option (list OCHeaderOption)) (n : Z) (b : body)
    (multicast : bool) : CAResponseInfo_t := {|
  result := b_result b;
  res_info := {|
    CaMessage.type := response_type r; CaMessage.messageId := coapID r; CaMessage.token := Some tok;
    CaMessage.tokenLength := sr_tokenLength r; CaMessage.options := os; CaMessage.numOptions := n; CaMessage.payload := b_payload b; CaMessage.payloadSize := b_size b;
    CaMessage.payloadFormat := b_format b; CaMessage.acceptFormat := CA_FORMAT_UNDEFINED; CaMessage.payloadVersion := b_version b;
    CaMessage.acceptVersion := 0; CaMessage.resourceUri := Some (resourceUrl r); CaMessage.identity := no_identity;
    CaMessage.info_dataType := Some CA_RESPONSE_DATA |};
  res_isMulticast := multicast |}.

(** [free_options]: the array has been freed before or not. *)
Definition free_options (freed : bool) (os : option (list OCHeaderOption)) : M heap unit :=
  if freed then undefined else OICFree os.

Definition OC_MASK_SCOPE : Z := 0xF.
Definition OC_SCOPE_LINK : Z := 2.

Definition OCToCATransportFlags (f : Z) : Z :=
  let f := if f &&& (CA_IPV6 ||| CA_IPV4) =? 0 then f ||| CA_IPV6 ||| CA_IPV4 else f in
  if f &&& OC_MASK_SCOPE =? 0 then f ||| OC_SCOPE_LINK else f.

Definition CopyDevAddrToEndpoint (e : OCDevAddr) : OCDevAddr :=
  {| dev_endpoint := {| adapter := adapter (dev_endpoint e); flags := OCToCATransportFlags (flags (dev_endpoint e));
       port := port (dev_endpoint e); addr := addr (dev_endpoint e); ifindex := ifindex (dev_endpoint e);
       remoteId := remoteId (dev_endpoint e) |};
     routeData := routeData e |}.

(** What is left after the response has been built: it is sent on every
    transport asked for, and the request is done with. *)
Definition send_and_finish (mode : OCMode) (a : positive) (r : OCServerRequest) (info : CAResponseInfo_t)
    (p : option (list Z)) : M server OCStackResult :=
  let endpoint := CopyDevAddrToEndpoint (sr_devAddr r) in
  let adapters := if adapter (dev_endpoint endpoint) =? 0 then all_adapters else adapter (dev_endpoint endpoint) in
  '(result, info, freed) ← send_on mode CAConnTypes adapters endpoint info false OC_STACK_OK OC_STACK_OK;
  _ ← in_heap (OICFree p);
  _ ← in_heap (free_options freed (options (res_info info)));
  _ ← DeleteServerRequest (Some a);
  mret result.

Definition HandleSingleResponse (mode : OCMode) (ehResponse : option OCEntityHandlerResponse) : M server OCStackResult :=
  match ehResponse with
  | None => mret OC_STACK_ERROR
  | Some eh =>
      match requestHandle eh with
      | None => mret OC_STACK_ERROR
      | Some a =>
          r ← request_at a;
          tok ← lift (response_token r);
          '(n, c) ← lift (count_options r eh);
          ok ← (if n =? 0 then mret true else in_heap (OICCalloc n sizeof_CAHeaderOption));
          if negb ok then mret OC_STACK_NO_MEMORY
          else
            filled ← lift (if n =? 0 then Some (Some None) else
                             o ← fill_options r eh c n; Some (option_map Some o));
            match filled with
            | None => _ ← in_heap (OICFree (Some tt)); mret OC_STACK_INVALID_URI
            | Some os =>
                b ← convert_body r (eh_payload eh) (ConvertEHResultToCAResult (ehResult eh) (sr_method r));
                match b with
                | inl res => _ ← in_heap (OICFree os); mret res
                | inr b =>
                    let multicast := match eh_payload eh with Some p => is_presence p | None => false end in
                    send_and_finish mode a r (response_info r tok os n b multicast) (b_payload b)
                end
            end
      end
  end.

(** ** Responses from several resources *)

Definition set_response_payload (p : option OCPayload) (a : positive) (l : list OCServerResponse) : list OCServerResponse :=
  (fun r => if decide (sp_addr r = a) then
              {| sp_addr := sp_addr r; sp_payload := p; sp_requestHandle := sp_requestHandle r |} else r) <$> l.

Definition one_less (r : OCServerRequest) : OCServerRequest := {|
  sr_addr := sr_addr r; sr_method := sr_method r; sr_acceptFormat := sr_acceptFormat r;
  sr_acceptVersion := sr_acceptVersion r; resourceUrl := resourceUrl r; query := query r; qos := qos r;
  observationOption := observationOption r; observeResult := observeResult r; numResponses := u8 (numResponses r - 1);
  ehResponseHandler := ehResponseHandler r; sr_devAddr := sr_devAddr r; requestToken := requestToken r;
  sr_tokenLength := sr_tokenLength r; coapID := coapID r; delayedResNeeded := delayedResNeeded r;
  numRcvdVendorSpecificHeaderOptions := numRcvdVendorSpecificHeaderOptions r;
  rcvdVendorSpecificHeaderOptions := rcvdVendorSpecificHeaderOptions r; requestComplete := requestComplete r; slowFlag := slowFlag r;
  notificationFlag := notificationFlag r; sr_payloadFormat := sr_payloadFormat r; sr_payloadSize := sr_payloadSize r;
  sr_payload := sr_payload r |}.

(** The payload of the fragment is added to what has been collected; the lists
    of the two representations are joined. *)
Definition collect (sp : OCServerResponse) (newPayload : option OCRepPayload) : ub (option OCPayload) :=
  match sp_payload sp with
  | None => Some (option_map PAYLOAD_TYPE_REPRESENTATION newPayload)
  | Some (PAYLOAD_TYPE_REPRESENTATION old) =>
      p ← OCRepPayloadAppend (Some old) newPayload; Some (option_map PAYLOAD_TYPE_REPRESENTATION p)
  | Some _ => None
  end.

Definition with_payload (p : option OCPayload) (eh : OCEntityHandlerResponse) : OCEntityHandlerResponse := {|
  requestHandle := requestHandle eh; ehResult := OC_EH_OK; eh_payload := p;
  numSendVendorSpecificHeaderOptions := numSendVendorSpecificHeaderOptions eh;
  sendVendorSpecificHeaderOptions := sendVendorSpecificHeaderOptions eh; eh_resourceUri := eh_resourceUri eh |}.

(** The fragment is put with the others, and the last one is answered. *)
Definition add_fragment (mode : OCMode) (a sp : positive) (eh : OCEntityHandlerResponse) (p : OCRepPayload)
    : M server OCStackResult :=
  newPayload ← in_heap (OCRepPayloadBatchClone p);
  resp ← response_at sp;
  collected ← lift (collect resp newPayload);
  _ ← modify (fun s => set_responses (set_response_payload collected sp (responses s)) s);
  _ ← modify (fun s => set_requests (on_addr a one_less (requests s)) s);
  r ← request_at a;
  if numResponses r =? 0 then
    stackRet ← HandleSingleResponse mode (Some (with_payload collected eh));
    _ ← DeleteServerRequest (Some a);
    _ ← DeleteServerResponse (Some sp);
    mret stackRet
  else mret OC_STACK_OK.

Definition HandleAggregateResponse (mode : OCMode) (ehResponse : option OCEntityHandlerResponse) : M server OCStackResult :=
  match ehResponse with
  | Some eh =>
      match eh_payload eh with
      | None => mret OC_STACK_INVALID_PARAM
      | Some p =>
          found ← GetServerResponseUsingHandle (requestHandle eh);
          match requestHandle eh with
          | None => mret OC_STACK_ERROR
          | Some a =>
              '(res, sp) ← (match found with
                            | Some sp => mret (OC_STACK_OK, Some sp)
                            | None => AddServerResponse a
                            end);
              match res, sp with
              | OC_STACK_OK, Some sp =>
                  match p with
                  | PAYLOAD_TYPE_REPRESENTATION p => add_fragment mode a sp eh p
                  | _ => mret OC_STACK_ERROR
                  end
              | res, _ => mret res
              end
          end
      end
  | None => mret OC_STACK_INVALID_PARAM
  end.

(** [OCDoResponse] of [ocstack.c]. *)
Definition OCDoResponse (mode : OCMode) (ehResponse : option OCEntityHandlerResponse) : M server OCStackResult :=
  match ehResponse with
  | Some eh =>
      match requestHandle eh with
      | Some a =>
          r ← request_at a;
          match ehResponseHandler r with
          | HandleSingle => HandleSingleResponse mode ehResponse
          | HandleAggregate => HandleAggregateResponse mode ehResponse
          end
      | None => mret OC_STACK_INVALID_PARAM
      end
  | None => mret OC_STACK_INVALID_PARAM
  end.

(** ** The options fit into their array *)

(** A response as the application fills it in: the array is as declared, and
    there is room in it for the options the stack adds. *)
Record response_ok (eh : OCEntityHandlerResponse) : Prop := {
  vendor_array : Z.of_nat (length (sendVendorSpecificHeaderOptions eh)) = MAX_HEADER_OPTIONS;
  vendor_full : Forall full_option (sendVendorSpecificHeaderOptions eh);
  vendor_few : 0 <= numSendVendorSpecificHeaderOptions eh <= MAX_HEADER_OPTIONS - 2;
  uri_array : Z.of_nat (length (eh_resourceUri eh)) < MAX_URI_LENGTH;
}.

Definition written (id : Z) (data : list Z) : OCHeaderOption := {|
  protocolID := CA_COAP_ID; optionID := id; optionLength := Z.of_nat (length data);
  optionData := data ++ drop (length data) (optionData zero_option) |}.

Lemma option_id_data_ok id data : Z.of_nat (length data) <= CA_MAX_HEADER_OPTION_DATA_LENGTH ->
  option_id_data id data = Some (written id data).
Proof.
  intros Hl. unfold option_id_data. rewrite write_at_prefix; [done|].
  pose proof zero_option_full as Hf. unfold full_option in Hf. lia.
Qed.

Definition observe_part (r : OCServerRequest) : list OCHeaderOption :=
  if observing r then [written COAP_OPTION_OBSERVE (be_bytes4 (observationOption r))] else [].
Definition location_part (eh : OCEntityHandlerResponse) : list OCHeaderOption :=
  match eh_resourceUri eh with
  | [] => []
  | uri => [written CA_HEADER_OPTION_ID_LOCATION_PATH (uri ++ [0])]
  end.
Definition tail_part (c : content_options) : list OCHeaderOption :=
  let v := written COAP_OPTION_CONTENT_VERSION (le_bytes 2 (co_version c)) in
  let f := written COAP_OPTION_CONTENT_FORMAT (le_bytes 2 (co_format c)) in
  if negb (versionSet c) && negb (formatSet c) then [v; f]
  else if formatSet c && (CA_FORMAT_APPLICATION_VND_OCF_CBOR_value =? co_format c) && negb (versionSet c) then [v]
  else if versionSet c && (OC_SPEC_VERSION_VALUE <=? co_version c) && negb (formatSet c) then [f]
  else [].

(** An option that is counted and not written: the application gives a version
    older than the specification's and no format. *)
Definition empty_part (c : content_options) : list OCHeaderOption :=
  if versionSet c && negb (formatSet c) && negb (OC_SPEC_VERSION_VALUE <=? co_version c) then [zero_option] else [].

Lemma tail_length c : Z.of_nat (length (tail_part c ++ empty_part c)) = added_options c.
Proof.
  unfold tail_part, empty_part, added_options. destruct (versionSet c), (formatSet c),
    (OC_SPEC_VERSION_VALUE <=? co_version c), (CA_FORMAT_APPLICATION_VND_OCF_CBOR_value =? co_format c); reflexivity.
Qed.

Lemma content_tail_ok c : content_tail c = Some (tail_part c).
Proof.
  unfold content_tail, tail_part. repeat case_goal; rewrite ?option_id_data_ok by (rewrite ?length_le_bytes; done); done.
Qed.

Lemma look_at_total l i n c : Forall full_option l -> 0 <= i -> i + Z.of_nat n <= Z.of_nat (length l) ->
  exists c', look_at_options l i n c = Some c'.
Proof.
  intros Hl. revert i c. induction n as [|n IH]; intros i c Hi Hn; [by exists c|]. cbn [look_at_options].
  destruct (lookup_Some_le l (Z.to_nat i)) as [o Ho]; [lia|]. unfold byte_at. rewrite decide_True, Ho by done.
  cbn [mbind option_bind]. assert (full_option o) as Hf by (by eapply Forall_lookup_1 in Ho).
  assert (exists c', look_at_option o c = Some c') as (c' & ->); [|apply IH; lia].
  assert (exists x y l', optionData o = x :: y :: l') as (x & y & l' & Ed).
  { unfold full_option, CA_MAX_HEADER_OPTION_DATA_LENGTH in Hf. destruct (optionData o) as [|x [|y l']]; cbn in Hf; [lia|lia|eauto]. }
  unfold look_at_option, two_bytes. rewrite Ed. cbn. repeat case_goal; eauto.
Qed.

Lemma write_at_pad {A} (pre mid : list A) n x k : n = k + Z.of_nat (length mid) -> 0 <= k ->
  write_at (pre ++ replicate (Z.to_nat n) x) (Z.of_nat (length pre)) mid = Some ((pre ++ mid) ++ replicate (Z.to_nat k) x).
Proof.
  intros -> Hk. rewrite write_at_after; [|done|rewrite length_replicate; lia]. rewrite <- app_assoc. do 3 f_equal.
  rewrite drop_replicate. f_equal. lia.
Qed.

Lemma observe_ok r : (if observing r then o ← option_id_data COAP_OPTION_OBSERVE (be_bytes4 (observationOption r)); Some [o]
  else Some []) = Some (observe_part r).
Proof. unfold observe_part. destruct (observing r); [|done]. by rewrite option_id_data_ok. Qed.

Lemma location_ok eh : Z.of_nat (length (eh_resourceUri eh)) < MAX_URI_LENGTH ->
  match eh_resourceUri eh with
  | [] => Some []
  | _ => o ← option_id_data CA_HEADER_OPTION_ID_LOCATION_PATH (eh_resourceUri eh ++ [0]); Some [o]
  end = Some (location_part eh).
Proof.
  unfold location_part, MAX_URI_LENGTH. intros Hu. destruct (eh_resourceUri eh) as [|x u] eqn:E; [done|].
  rewrite option_id_data_ok; [done|]. rewrite length_app. unfold CA_MAX_HEADER_OPTION_DATA_LENGTH. cbn [length] in *. lia.
Qed.

Definition tail_written (eh : OCEntityHandlerResponse) (c : content_options) : list OCHeaderOption :=
  match eh_payload eh with Some _ => tail_part c | None => [] end.
Definition tail_empty (eh : OCEntityHandlerResponse) (c : content_options) : list OCHeaderOption :=
  match eh_payload eh with Some _ => empty_part c | None => [] end.

Lemma tail_empty_zero eh c : tail_empty eh c = replicate (length (tail_empty eh c)) zero_option.
Proof. unfold tail_empty, empty_part. destruct (eh_payload eh); [|done]. by destruct (_ && _). Qed.

Lemma fill_ok r eh c : response_ok eh ->
  let vendor := take (Z.to_nat (numSendVendorSpecificHeaderOptions eh)) (sendVendorSpecificHeaderOptions eh) in
  fill_options r eh c (Z.of_nat (length (observe_part r)) + numSendVendorSpecificHeaderOptions eh +
      Z.of_nat (length (location_part eh)) + Z.of_nat (length (tail_written eh c ++ tail_empty eh c))) =
    Some (Some (observe_part r ++ vendor ++ location_part eh ++ tail_written eh c ++ tail_empty eh c)).
Proof.
  intros [Ha Hf Hv Hu] vendor. set (n0 := numSendVendorSpecificHeaderOptions eh) in *. unfold MAX_HEADER_OPTIONS in *.
  assert (Z.of_nat (length vendor) = n0) as Hlv by (unfold vendor; rewrite length_take; lia).
  unfold fill_options. fold n0. rewrite observe_ok. cbn [mbind option_bind].
  pose proof (write_at_pad [] (observe_part r)) as W. cbn [app length] in W.
  set (k3 := Z.of_nat (length (tail_empty eh c))). set (k2 := k3 + Z.of_nat (length (tail_written eh c))).
  set (k1 := k2 + Z.of_nat (length (location_part eh))). set (k0 := k1 + n0).
  rewrite length_app, Nat2Z.inj_add.
  rewrite (W _ zero_option k0) by (unfold k0, k1, k2, k3; lia). cbn [mbind option_bind].
  assert (read_at (sendVendorSpecificHeaderOptions eh) 0 n0 = Some vendor) as -> by (rewrite read_at_ok by lia; by rewrite drop_0).
  cbn [mbind option_bind]. rewrite (write_at_pad (observe_part r) vendor k0 zero_option k1) by (unfold k0, k1, k2, k3; lia).
  cbn [mbind option_bind].
  destruct (Z.ltb_spec CA_MAX_HEADER_OPTION_DATA_LENGTH (Z.of_nat (length (eh_resourceUri eh)) + 1)).
  { unfold CA_MAX_HEADER_OPTION_DATA_LENGTH, MAX_URI_LENGTH in *. lia. }
  pose proof (location_ok eh Hu) as Hloc. rewrite Hloc. cbn [mbind option_bind].
  rewrite <- Nat2Z.inj_add, <- length_app.
  rewrite (write_at_pad (observe_part r ++ vendor) (location_part eh) k1 zero_option k2) by (unfold k1, k2, k3; lia).
  cbn [mbind option_bind]. rewrite <- Nat2Z.inj_add, <- length_app.
  assert (match eh_payload eh with Some _ => content_tail c | None => Some [] end = Some (tail_written eh c)) as ->
    by (unfold tail_written; destruct (eh_payload eh); [apply content_tail_ok|done]).
  cbn [mbind option_bind].
  rewrite (write_at_pad ((observe_part r ++ vendor) ++ location_part eh) (tail_written eh c) k2 zero_option k3) by (unfold k2, k3; lia).
  cbn [mbind option_bind]. unfold k3. rewrite Nat2Z.id, <- tail_empty_zero. by rewrite <- !app_assoc.
Qed.

Definition total_options (r : OCServerRequest) (eh : OCEntityHandlerResponse) (c : content_options) : Z :=
  Z.of_nat (length (observe_part r)) + numSendVendorSpecificHeaderOptions eh + Z.of_nat (length (location_part eh)) +
  (match eh_payload eh with Some _ => added_options c | None => 0 end).

Lemma count_ok r eh : response_ok eh -> exists c, count_options r eh = Some (total_options r eh c, c).
Proof.
  intros [Ha Hf Hv Hu]. unfold MAX_HEADER_OPTIONS, total_options in *. set (n0 := numSendVendorSpecificHeaderOptions eh) in *.
  set (n1 := Z.of_nat (length (observe_part r)) + n0 + Z.of_nat (length (location_part eh))).
  assert (0 <= n1 <= 50) as Hn1 by (unfold n1, observe_part, location_part; destruct (observing r), (eh_resourceUri eh); cbn; lia).
  unfold count_options. fold n0.
  assert ((if eh_resourceUri eh then if observing r then u8 (n0 + 1) else n0 else u8 ((if observing r then u8 (n0 + 1) else n0) + 1)) = n1) as ->.
  { unfold n1, observe_part, location_part. destruct (observing r), (eh_resourceUri eh); cbn [length];
      rewrite ?(wrap_small 8 (n0 + 1)) by lia; rewrite ?(wrap_small 8) by lia; lia. }
  destruct (eh_payload eh); [|exists no_content_options; do 2 f_equal; lia].
  destruct (look_at_total (sendVendorSpecificHeaderOptions eh) 0 (Z.to_nat n1) no_content_options) as (c & E); [done|lia|lia|].
  exists c. rewrite E. cbn [mbind option_bind]. rewrite wrap_small; [done|].
  unfold added_options. repeat case_goal; lia.
Qed.

Lemma total_written r eh c : total_options r eh c = Z.of_nat (length (observe_part r)) +
  numSendVendorSpecificHeaderOptions eh + Z.of_nat (length (location_part eh)) +
  Z.of_nat (length (tail_written eh c ++ tail_empty eh c)).
Proof. unfold total_options, tail_written, tail_empty. destruct (eh_payload eh); [by rewrite tail_length|done]. Qed.

(** the number of options a response is given is the number that are written
    into its array, whatever the application asks for: the observe option, the
    application's own, the location, the version and the format.  There is one
    case in which an option is counted that is not written. *)
Theorem response_options_fit r eh : response_ok eh ->
  exists c, count_options r eh = Some (total_options r eh c, c) /\
    fill_options r eh c (total_options r eh c) = Some (Some (observe_part r ++
      take (Z.to_nat (numSendVendorSpecificHeaderOptions eh)) (sendVendorSpecificHeaderOptions eh) ++ location_part eh ++
      tail_written eh c ++ tail_empty eh c)).
Proof.
  intros Hok. destruct (count_ok r eh Hok) as (c & E). exists c. split; [done|]. rewrite total_written. by apply fill_ok.
Qed.

(** What is counted and what is filled in. *)
Lemma counted_and_filled r eh : response_ok eh ->
  exists n c arr, count_options r eh = Some (n, c) /\ fill_options r eh c n = Some (Some arr) /\ 0 <= n < 100.
Proof.
  intros Hok. destruct (count_ok r eh Hok) as (c & E). exists (total_options r eh c), c. eexists. split; [done|].
  split; [rewrite total_written; by apply fill_ok|]. destruct Hok as [Ha Hf Hv Hu]. unfold MAX_HEADER_OPTIONS in *.
  assert (0 <= added_options c <= 2) by (unfold added_options; repeat case_goal; lia).
  unfold total_options, observe_part, location_part. destruct (observing r), (eh_resourceUri eh), (eh_payload eh); cbn [length]; lia.
Qed.

(** ** The table of requests *)

Definition token_ok (tok : option (list Z)) (n : Z) : Prop :=
  match tok with Some t => 0 <= n <= Z.of_nat (length t) | None => True end.

Lemma yields_copy_token tok n : token_ok tok n ->
  exists v, yields (copy_token tok n) (Some v) (blk v) /\ v = (t ← tok; if n =? 0 then None else Some (take (Z.to_nat n) t)).
Proof.
  destruct tok as [t|]; [|exists None; split; [apply yields_ret|done]]. cbn. intros Hn.
  destruct (Z.eqb_spec n 0) as [->|Hn0]; [exists None; split; [apply yields_ret|done]|].
  exists (Some (take (Z.to_nat n) t)). split; [|done].
  eapply yields_eq; [eapply yields_bind; [by apply yields_malloc|]|].
  - eapply yields_bind; [apply (yields_lift _ (take (Z.to_nat n) t)); rewrite read_at_ok by lia; by rewrite drop_0|apply yields_ret].
  - cbn. lia.
Qed.

Lemma request_at_run a r s : node_at a (requests s) = Some r -> request_at a s = Some (r, s).
Proof. intros E. unfold request_at. step (run_gets requests s). by rewrite (run_lift _ _ _ E). Qed.

Lemma unlink_last {A} `{Node A} (l : list A) x : node_addr x ∉ addrs l -> unlink (node_addr x) (l ++ [x]) = l.
Proof. intros Hn. rewrite unlink_middle by done. apply app_nil_r. Qed.

Lemma table_remove_some r l l' : table_remove r l = Some l' -> l' = unlink (sr_addr r) l.
Proof. unfold table_remove. repeat case_match; by intros [= <-]. Qed.

(** The request that came last can leave, whatever is in front of it. *)
Lemma removable_last (l : list OCServerRequest) r : sr_addr r ∉ addrs l -> removable r (l ++ [r]).
Proof.
  intros Hn. unfold removable, table_remove. rewrite List.filter_app.
  destruct (List.filter (same_token r) l) as [|q l'] eqn:E; [cbn; by destruct (same_token r r)|].
  assert (sr_addr q <> sr_addr r) as Hq.
  { intros Eq. apply Hn. rewrite <- Eq. apply list_elem_of_fmap_2, list_elem_of_In.
    assert (In q (List.filter (same_token r) l)) as Hin by (rewrite E; by left). by apply filter_In in Hin as [? _]. }
  cbn [app]. destruct (l' ++ _); [done|]. by rewrite decide_False.
Qed.

(** Nor does any other harm while no two requests have one token. *)
Lemma removable_alone r l : (length (List.filter (same_token r) l) <= 1)%nat -> removable r l.
Proof. unfold removable, table_remove. by destruct (List.filter _ l) as [|q [|q' l']]; cbn; intros; [..|lia]. Qed.

(** A handle that is returned is that of a request in the table. *)
Lemma added_request_inv id delayed notif method nr obs q qt os fmt body tok n url size acc ver dev s res a s' :
  AddServerRequest (Some None) id delayed notif method nr obs q qt os fmt body tok n url size acc ver dev s =
    Some ((res, Some a), s') ->
  exists r, node_at a (requests s') = Some r /\ notificationFlag r = notif.
Proof.
  unfold AddServerRequest. destruct dev as [dev|]; [|intros E; by inversion E]. intros E.
  apply run_bind_inv in E as (ok & s1 & E1 & E). destruct ok; cbn [negb] in E; [|by inversion E].
  apply run_bind_inv in E as (options & s2 & _ & E). apply run_bind_inv in E as (data & s3 & _ & E).
  apply run_bind_inv in E as (copied & s4 & _ & E). destruct copied as [tk|].
  - apply run_bind_inv in E as (l & s5 & _ & E). cbn zeta in E. apply run_bind_inv in E as (u & s6 & E6 & E).
    rewrite run_modify in E6. injection E6 as _ <-. rewrite run_ret in E. injection E as <- <- <-.
    eexists. split; [exact (node_at_middle l _ [] (new_address_fresh l))|reflexivity].
  - apply run_bind_inv in E as (u & s6 & _ & E). by inversion E.
Qed.

(** a request that is added can be found under the handle returned, waits
    for one response and owns a copy of its token; deleting it leaves
    everything as it was. *)
Theorem server_request_added_and_deleted id delayed notif method nr obs q qt fmt tok n url acc ver dev (s : server) :
  token_ok tok n -> hp_allocs (sv_heap s) = [] ->
  exists a r s', AddServerRequest (Some None) id delayed notif method nr obs q qt None fmt None tok n url 0 acc ver (Some dev) s =
      Some ((OC_STACK_OK, Some a), s') /\
    request_at a s' = Some (r, s') /\ a ∉ addrs (requests s) /\ requests s' = requests s ++ [r] /\
    numResponses r = 1 /\ requestToken r = (t ← tok; if n =? 0 then None else Some (take (Z.to_nat n) t)) /\
    DeleteServerRequest (Some a) s' = Some (tt, s).
Proof.
  intros Ht Hs. destruct (yields_copy_token tok n Ht) as (v & Hv & Ev). unfold AddServerRequest.
  assert (yields (OICCalloc 1 (sizeof_OCServerRequest + (if 0 =? 0 then 1 else 0) - 1)) true 1) as Hc
    by (apply yields_calloc; unfold sizeof_OCServerRequest, SIZE_MAX; cbn; lia).
  change (hp_allocs (heap_of s) = []) in Hs. step (in_heap_yields _ _ _ s Hc Hs). cbn [negb].
  rewrite (run_bind _ _ _ zero_options _ eq_refl). rewrite (run_bind _ _ _ None _ eq_refl).
  assert (hp_allocs (heap_of (grow 1 s)) = []) as Hs' by exact Hs. step (in_heap_yields _ _ _ (grow 1 s) Hv Hs'). step (run_gets requests _). cbn zeta.
  set (r := {| sr_addr := _ |}). step (run_modify _ _).
  assert (sr_addr r ∉ addrs (requests s)) as Hn by apply new_address_fresh.
  exists (sr_addr r), r. eexists. split; [reflexivity|].
  assert (node_at (sr_addr r) (requests s ++ [r]) = Some r) as Hat by by apply (node_at_middle (requests s) r []).
  split; [|split; [exact Hn|]]; [by apply request_at_run|].
  split; [done|]. split; [done|]. split; [by rewrite <- Ev|].
  unfold DeleteServerRequest. match goal with |- context [mbind _ _ ?s] => step (request_at_run _ r s Hat) end.
  step (run_gets requests _). cbn [requests grow set_requests with_heap server_HasHeap set_sv_heap table_insert].
  match goal with |- context [mbind _ (lift _) ?x] => step (run_lift _ _ x (removable_last (requests s) r Hn)) end.
  step (run_modify _ _). step (in_heap_frees _ _ _ (frees_ptr (requestToken r))).
  rewrite (in_heap_frees _ _ _ (frees_ptr (Some r))). do 2 f_equal.
  destruct s as [h l rs se]. unfold grow, set_requests, with_heap, server_HasHeap, set_sv_heap, add_live.
  cbn [requests responses sv_sent sv_heap heap_of hp_allocs live requestToken r].
  assert (unlink (sr_addr r) (l ++ [r]) = l) as -> by exact (unlink_last l r Hn). f_equal. destruct h as [al lv]. cbn. f_equal. lia.
Qed.

(** ** A response is sent once and the request is done with *)

Lemma result_not_empty x m : ConvertEHResultToCAResult x m <> CA_EMPTY.
Proof. by destruct x, m. Qed.

(** What [convert_body] makes of a payload that can be converted. *)
Definition body_of (r : OCServerRequest) (p : option OCPayload) (result : Z) : body :=
  match p with
  | None => no_body result
  | Some p =>
      match sr_acceptFormat r with
      | OC_FORMAT_UNDEFINED | OC_FORMAT_CBOR | OC_FORMAT_VND_OCF_CBOR =>
          let '(_, out, size) := convert_payload p (sr_acceptFormat r) in
          let typed := negb (is_diagnostic p) && (0 <? size) in
          {| b_payload := out; b_size := size; b_format := if typed then body_format r else CA_FORMAT_UNDEFINED;
             b_version := if typed then body_version r else 0; b_result := result |}
      | _ => no_body CA_NOT_ACCEPTABLE
      end
  end.

(** The conversion of what is sent does not fail. *)
Definition converts (r : OCServerRequest) (p : option OCPayload) : Prop :=
  match p with Some p => fst (fst (convert_payload p (sr_acceptFormat r))) = OC_STACK_OK | None => True end.

Lemma convert_body_run r p z s : converts r p ->
  convert_body r p z s = Some (inr (body_of r p z), grow (blk (b_payload (body_of r p z))) s).
Proof.
  intros Hc. unfold convert_body, body_of. destruct p as [p|]; [|cbn [no_body b_payload blk]; by rewrite grow_0].
  cbn in Hc. destruct (sr_acceptFormat r); try (cbn [no_body b_payload blk]; by rewrite grow_0);
    destruct (convert_payload p _) as [[res out] size]; cbn in Hc; subst res; reflexivity.
Qed.

Lemma body_result r p z : z <> CA_EMPTY -> b_result (body_of r p z) <> CA_EMPTY.
Proof. intros Hz. unfold body_of. destruct p; [|done]. destruct (sr_acceptFormat r); try done; by destruct (convert_payload _ _) as [[] ?]. Qed.

(** The option for routing that a response to an endpoint gets. *)
Definition routed (d : list Z) : OCHeaderOption := with_route
  {| srcGw := 0; destGw := le_value (take 4 d); mSeqNum := 0; srcEp := 0; destEp := le_value (take 2 (drop 4 d)); msgType := NOR |} zero_option.

Definition routed_info (d : list Z) (info : CAResponseInfo_t) : CAResponseInfo_t :=
  set_res_info (set_accept CA_FORMAT_UNDEFINED) (set_res_info
    (set_options (Some (default [] (options (res_info info)) ++ [routed d])) (numOptions (res_info info) + 1)) info).

(** The connectivity layer takes what it is given. *)
Definition takes_all : Prop := forall s e i, send_result s e i = CA_STATUS_OK.

Lemma send_run mode e info s : result info <> CA_EMPTY -> (6 <= length (routeData e))%nat ->
  plain_options (options (res_info info)) (numOptions (res_info info)) -> takes_all -> hp_allocs (sv_heap s) = [] ->
  OCSendResponse mode e info s = Some ((OC_STACK_OK, routed_info (routeData e) info, false),
    grow (1 - blk (options (res_info info))) (add_sent {| to_endpoint := e; to_send := routed_info (routeData e) info |} s)).
Proof.
  intros Hr Hd Hp Ht Hs. unfold OCSendResponse. set (d := routeData e) in *.
  assert (for_endpoint (Some d) (ResponseMessage info) = Some false) as Hf.
  { unfold for_endpoint. destruct d as [|x d']; [cbn in Hd; lia|]. rewrite byte_at_0. cbn [mbind option_bind].
    rewrite (proj2 (Z.eqb_neq _ _) Hr), andb_false_r. done. }
  assert (empty_message mode (ResponseMessage info) = (ResponseMessage info, None, false)) as He
    by (unfold empty_message; by rewrite (proj2 (Z.eqb_neq _ _) Hr)).
  assert (read_at d 0 4 = Some (take 4 d)) as E1 by (rewrite read_at_ok by lia; by rewrite drop_0).
  assert (read_at d 4 2 = Some (take 2 (drop 4 d))) as E2 by (by rewrite read_at_ok by lia).
  change (hp_allocs (heap_of s) = []) in Hs.
  step (in_heap_yields _ _ _ s (add_yields mode d (ResponseMessage info) _ _ Hf He Hp E1 E2) Hs).
  cbn [ad_message ad_result set_message_options]. fold (routed d). step (run_modify _ _). unfold get. rewrite run_bind with (a := _) (s' := _) by reflexivity.
  rewrite Ht, decide_True by done. reflexivity.
Qed.

Lemma send_on_skip mode t ts a e i f r s : a &&& t = 0 ->
  send_on mode (t :: ts) a e i f OC_STACK_OK r s = send_on mode ts a e i f OC_STACK_OK r s.
Proof. intros Et. cbn [send_on]. rewrite Et, Z.eqb_refl, (run_bind _ _ _ _ _ (run_ret _ _)). by rewrite decide_True. Qed.

Lemma send_on_one mode e info s : adapter (dev_endpoint e) ∈ CAConnTypes -> result info <> CA_EMPTY ->
  (6 <= length (routeData e))%nat -> plain_options (options (res_info info)) (numOptions (res_info info)) -> takes_all ->
  hp_allocs (sv_heap s) = [] ->
  send_on mode CAConnTypes (adapter (dev_endpoint e)) e info false OC_STACK_OK OC_STACK_OK s =
    Some ((OC_STACK_OK, routed_info (routeData e) info, false),
      grow (1 - blk (options (res_info info))) (add_sent {| to_endpoint := e; to_send := routed_info (routeData e) info |} s)).
Proof.
  intros Ha Hr Hd Hp Ht Hs. pose proof (send_run mode e info s Hr Hd Hp Ht Hs) as E.
  assert (with_adapter (adapter (dev_endpoint e) &&& adapter (dev_endpoint e)) e = e) as Ew
    by (rewrite Z.land_diag; by destruct e as [[] ?]).
  assert (forall ts s', adapter (dev_endpoint e) <> 0 -> s' = s ->
    send_on mode (adapter (dev_endpoint e) :: ts) (adapter (dev_endpoint e)) e info false OC_STACK_OK OC_STACK_OK s' =
      send_on mode ts (adapter (dev_endpoint e)) e (routed_info (routeData e) info) false OC_STACK_OK OC_STACK_OK
        (grow (1 - blk (options (res_info info))) (add_sent {| to_endpoint := e; to_send := routed_info (routeData e) info |} s))) as Hhit.
  { intros ts s' Hn ->. cbn [send_on]. rewrite Ew, Z.land_diag, (proj2 (Z.eqb_neq _ _) Hn), (run_bind _ _ _ _ _ E).
    by rewrite decide_True. }
  unfold CAConnTypes in *. rewrite !elem_of_cons, elem_of_nil in Ha.
  destruct Ha as [Ea|[Ea|[Ea|[Ea|[Ea|[]]]]]]; rewrite Ea in Hhit |- *;
    repeat rewrite send_on_skip by done; rewrite Hhit by done; repeat rewrite send_on_skip by done; done.
Qed.

(** A request that came from one transport, with its route and its token. *)
Record answerable (r : OCServerRequest) : Prop := {
  ans_adapter : adapter (dev_endpoint (sr_devAddr r)) ∈ CAConnTypes;
  ans_route : (6 <= length (routeData (sr_devAddr r)))%nat;
  ans_token : Z.of_nat (length (default [] (requestToken r))) = sr_tokenLength r;
  ans_short : sr_tokenLength r <= CA_MAX_TOKEN_LEN;
}.

Lemma response_token_run r : answerable r -> exists tok, response_token r = Some tok /\
  take (Z.to_nat (sr_tokenLength r)) tok = default [] (requestToken r).
Proof.
  intros [_ _ Ht Hs]. unfold response_token, CA_MAX_TOKEN_LEN in *. set (t := default [] (requestToken r)) in *.
  assert ((match requestToken r with
           | Some t => read_at t 0 (sr_tokenLength r)
           | None => if sr_tokenLength r =? 0 then Some [] else None
           end) = Some t) as ->.
  { subst t. destruct (requestToken r) as [t|]; cbn in *; [by rewrite <- Ht, read_at_all|by rewrite <- Ht]. }
  cbn [mbind option_bind]. rewrite write_at_prefix by (rewrite length_replicate; lia). eexists. split; [done|].
  by rewrite <- Ht, Nat2Z.id, take_app_length.
Qed.

(** The options of a response, in their order. *)
Definition all_options (r : OCServerRequest) (eh : OCEntityHandlerResponse) (c : content_options) : list OCHeaderOption :=
  observe_part r ++ take (Z.to_nat (numSendVendorSpecificHeaderOptions eh)) (sendVendorSpecificHeaderOptions eh) ++
    location_part eh ++ tail_written eh c ++ tail_empty eh c.

Definition vendor_plain (eh : OCEntityHandlerResponse) : Prop :=
  Forall not_route (take (Z.to_nat (numSendVendorSpecificHeaderOptions eh)) (sendVendorSpecificHeaderOptions eh)).

Lemma all_options_plain r eh c : response_ok eh -> vendor_plain eh ->
  Forall not_route (all_options r eh c) /\ Z.of_nat (length (all_options r eh c)) = total_options r eh c /\
  total_options r eh c < 100.
Proof.
  intros [Ha Hf Hv Hu] Hp. unfold all_options, MAX_HEADER_OPTIONS in *. split; [|split].
  - repeat apply Forall_app_2; [|done|..].
    + unfold observe_part. by destruct (observing r); repeat constructor.
    + unfold location_part. by destruct (eh_resourceUri eh); repeat constructor.
    + unfold tail_written, tail_part. destruct (eh_payload eh); [|done]. by repeat case_goal; repeat constructor.
    + unfold tail_empty, empty_part. destruct (eh_payload eh); [|done]. by case_goal; repeat constructor.
  - rewrite total_written, !length_app, length_take. lia.
  - assert (0 <= added_options c <= 2) by (unfold added_options; repeat case_goal; lia).
    unfold total_options, observe_part, location_part. destruct (observing r), (eh_resourceUri eh), (eh_payload eh); cbn [length]; lia.
Qed.

(** The array of options, when there are any. *)
Definition option_array (l : list OCHeaderOption) : option (list OCHeaderOption) := match l with [] => None | _ => Some l end.

Lemma option_array_default l : default [] (option_array l) = l.
Proof. by destruct l. Qed.

Lemma plain_array l : Forall not_route l -> Z.of_nat (length l) < 128 -> plain_options (option_array l) (Z.of_nat (length l)).
Proof. intros Hl Hn. split; by rewrite ?option_array_default. Qed.

Lemma set_requests_grow l n s : set_requests l (grow n s) = grow n (set_requests l s).
Proof. done. Qed.

Lemma delete_request_run a r s : node_at a (requests s) = Some r -> removable r (requests s) ->
  DeleteServerRequest (Some a) s = Some (tt, grow (- blk (requestToken r) - 1) (set_requests (unlink a (requests s)) s)).
Proof.
  intros Hn Hr. unfold DeleteServerRequest. step (request_at_run a r s Hn). step (run_gets requests s).
  step (run_lift _ _ s Hr). step (run_modify _ _). apply node_at_addr in Hn as [<- _].
  step (in_heap_frees _ _ _ (frees_ptr (requestToken r))). rewrite (in_heap_frees _ _ _ (frees_ptr (Some r))).
  rewrite grow_grow. do 3 f_equal.
Qed.

Lemma finish_run mode a r info s : node_at a (requests s) = Some r -> removable r (requests s) -> answerable r -> result info <> CA_EMPTY ->
  plain_options (options (res_info info)) (numOptions (res_info info)) -> takes_all -> hp_allocs (sv_heap s) = [] ->
  send_and_finish mode a r info (payload (res_info info)) s = Some (OC_STACK_OK,
    grow (- blk (options (res_info info)) - blk (payload (res_info info)) - blk (requestToken r) - 1)
      (set_requests (unlink a (requests s)) (add_sent {| to_endpoint := CopyDevAddrToEndpoint (sr_devAddr r);
         to_send := routed_info (routeData (sr_devAddr r)) info |} s))).
Proof.
  intros Hn Hrm [Ha Hd _ _] Hr Hp Ht Hs. unfold send_and_finish. set (e := CopyDevAddrToEndpoint (sr_devAddr r)).
  change (adapter (dev_endpoint (sr_devAddr r))) with (adapter (dev_endpoint e)) in Ha.
  change (routeData (sr_devAddr r)) with (routeData e) in *.
  destruct (Z.eqb_spec (adapter (dev_endpoint e)) 0) as [E0|_].
  { exfalso. revert Ha. rewrite E0. unfold CAConnTypes. rewrite !elem_of_cons, elem_of_nil. lia. }
  step (send_on_one mode e info s Ha Hr Hd Hp Ht Hs). cbn beta iota.
  set (s1 := add_sent _ s). step (in_heap_frees _ _ _ (frees_ptr (payload (res_info info)))).
  set (os' := options (res_info (routed_info (routeData e) info))). unfold free_options.
  step (in_heap_frees _ _ _ (frees_ptr os')).
  match goal with |- context [(DeleteServerRequest _ ≫= _) ?x] => step (delete_request_run a r x Hn Hrm) end.
  rewrite run_ret. do 2 f_equal.
  rewrite !set_requests_grow, !grow_grow. f_equal. unfold os'. cbn [routed_info set_res_info res_info set_accept set_options options blk]. lia.
Qed.

(** The array is filled, unless there is nothing to put in it. *)
Lemma filled_array r eh c : response_ok eh -> vendor_plain eh ->
  (if total_options r eh c =? 0 then Some (Some None)
   else o ← fill_options r eh c (total_options r eh c); Some (option_map Some o)) = Some (Some (option_array (all_options r eh c))).
Proof.
  intros Hok Hp. destruct (all_options_plain r eh c Hok Hp) as (_ & Hl & _).
  destruct (Z.eqb_spec (total_options r eh c) 0) as [E0|H0].
  - rewrite E0 in Hl. destruct (all_options r eh c); [done|cbn in Hl; lia].
  - pose proof (fill_ok r eh c Hok) as Ef. cbn zeta in Ef. rewrite <- total_written in Ef. rewrite Ef. cbn.
    fold (all_options r eh c). destruct (all_options r eh c) eqn:E; [cbn in Hl; lia|done].
Qed.

(** The response that is sent. *)
Definition sent_of (r : OCServerRequest) (eh : OCEntityHandlerResponse) (tok : list Z) (c : content_options) : sent_response :=
  let b := body_of r (eh_payload eh) (ConvertEHResultToCAResult (ehResult eh) (sr_method r)) in
  {| to_endpoint := CopyDevAddrToEndpoint (sr_devAddr r);
     to_send := routed_info (routeData (sr_devAddr r))
       (response_info r tok (option_array (all_options r eh c)) (total_options r eh c) b
          (match eh_payload eh with Some p => is_presence p | None => false end)) |}.

Lemma single_response_run mode eh a r tok c s : requestHandle eh = Some a -> node_at a (requests s) = Some r ->
  removable r (requests s) -> response_ok eh ->
  vendor_plain eh -> converts r (eh_payload eh) -> answerable r -> takes_all -> hp_allocs (sv_heap s) = [] ->
  response_token r = Some tok -> count_options r eh = Some (total_options r eh c, c) ->
  HandleSingleResponse mode (Some eh) s = Some (OC_STACK_OK,
    grow (- blk (requestToken r) - 1) (set_requests (unlink a (requests s)) (add_sent (sent_of r eh tok c) s))).
Proof.
  intros Ea Hn Hrm Hok Hp Hc Hans Ht Hs Etok Ec. destruct (all_options_plain r eh c Hok Hp) as (Hopt & Hlen & Hfew).
  unfold sent_of. set (n := total_options r eh c) in *. set (os := option_array (all_options r eh c)).
  set (z := ConvertEHResultToCAResult (ehResult eh) (sr_method r)). set (b := body_of r (eh_payload eh) z).
  set (mc := match eh_payload eh with Some p => is_presence p | None => false end). cbn zeta.
  set (info := response_info r tok os n b mc).
  unfold HandleSingleResponse. rewrite Ea. step (request_at_run a r s Hn). step (run_lift _ _ s Etok).
  step (run_lift _ _ s Ec). cbn beta iota. change (hp_allocs (heap_of s) = []) in Hs.
  assert ((if n =? 0 then mret true else in_heap (OICCalloc n sizeof_CAHeaderOption)) s = Some (true, grow (blk os) s)) as Hcal.
  { unfold os. destruct (Z.eqb_spec n 0) as [E0|H0].
    - destruct (all_options r eh c); [|cbn in Hlen; lia]. change (Some (true, s) = Some (true, grow 0 s)). by rewrite grow_0.
    - destruct (all_options r eh c); [cbn in Hlen; lia|].
      assert (yields (OICCalloc n sizeof_CAHeaderOption) true 1) as Hy
        by (apply yields_calloc; unfold sizeof_CAHeaderOption, SIZE_MAX; cbn in Hlen; lia).
      exact (in_heap_yields _ _ _ s Hy Hs). }
  step Hcal. cbn [negb]. step (run_lift _ _ _ (filled_array r eh c Hok Hp)). cbn beta iota. fold os z mc.
  step (convert_body_run r (eh_payload eh) z (grow (blk os) s) Hc). fold b. cbn beta iota. fold info.
  change (b_payload b) with (CaMessage.payload (res_info info)) at 2. rewrite grow_grow.
  rewrite (finish_run mode a r info); [|done|done|done|by apply body_result, result_not_empty| |done|done].
  - do 2 f_equal. change (requests (grow ?k s)) with (requests s).
    change (add_sent ?x (grow ?k s)) with (grow k (add_sent x s)). rewrite set_requests_grow, grow_grow. f_equal.
    cbn [info response_info res_info CaMessage.options CaMessage.payload]. lia.
  - cbn [info response_info res_info CaMessage.options CaMessage.numOptions]. unfold os. rewrite <- Hlen. apply plain_array; [done|lia].
Qed.

(** C8: a response of the application to a request that came from one transport
    is sent there once, under the identifier and token of the request and with
    the type its quality of service asks for; the request leaves the table and
    what it and the response took is given back.  This holds of a request that
    the tree gives up properly ([removable]: it is not the first of several
    with its token), a response whose payload is converted and whose options
    hold no routing option, with memory to be had and a connectivity layer
    that takes what it is given. *)
Theorem response_sent_once mode eh a r s : requestHandle eh = Some a -> node_at a (requests s) = Some r ->
  removable r (requests s) -> response_ok eh ->
  vendor_plain eh -> converts r (eh_payload eh) -> answerable r -> takes_all -> hp_allocs (sv_heap s) = [] ->
  exists sent c, HandleSingleResponse mode (Some eh) s = Some (OC_STACK_OK,
      grow (- blk (requestToken r) - 1) (set_requests (unlink a (requests s)) (add_sent sent s))) /\
    to_endpoint sent = CopyDevAddrToEndpoint (sr_devAddr r) /\
    let b := body_of r (eh_payload eh) (ConvertEHResultToCAResult (ehResult eh) (sr_method r)) in
    let i := res_info (to_send sent) in
    result (to_send sent) = b_result b /\ CaMessage.messageId i = coapID r /\ CaMessage.type i = response_type r /\
    CaMessage.tokenLength i = sr_tokenLength r /\
    option_map (take (Z.to_nat (sr_tokenLength r))) (CaMessage.token i) = Some (default [] (requestToken r)) /\
    CaMessage.payload i = b_payload b /\ count_options r eh = Some (total_options r eh c, c) /\
    CaMessage.options i = Some (all_options r eh c ++ [routed (routeData (sr_devAddr r))]).
Proof.
  intros Ea Hn Hrm Hok Hp Hc Hans Ht Hs. destruct (response_token_run r Hans) as (tok & Etok & Htok).
  destruct (count_ok r eh Hok) as (c & Ec). exists (sent_of r eh tok c), c.
  split; [by apply single_response_run|]. split; [done|]. cbn zeta. repeat (split; [done|]).
  split; [cbn; by rewrite Htok|]. split; [done|]. split; [done|].
  unfold sent_of. cbn. by rewrite option_array_default.
Qed.

(** ** The last fragment of a response *)

Lemma in_heap_requests {A} (m : M heap A) s x s' : in_heap m s = Some (x, s') -> requests s' = requests s.
Proof. unfold in_heap. destruct (m (heap_of s)) as [[a h]|]; [|done]. by intros [= _ <-]. Qed.

Lemma send_requests mode e i s x s' : OCSendResponse mode e i s = Some (x, s') -> requests s' = requests s.
Proof.
  intros E. apply run_bind_inv in E as (a & s1 & E1 & E). apply in_heap_requests in E1. rewrite <- E1.
  destruct (ad_message a); [done|]. destruct (ad_result a); cbn in E; by inversion E.
Qed.

Lemma send_on_requests mode ts a e i f t r s x s' : send_on mode ts a e i f t r s = Some (x, s') -> requests s' = requests s.
Proof.
  revert i f t r s. induction ts as [|y ts IH]; intros i f t r s E; [by inversion E|].
  apply run_bind_inv in E as ([[t' i'] f'] & s1 & E1 & E). apply IH in E. rewrite E.
  destruct (a &&& y =? 0); [by inversion E1|]. destruct f; [done|]. by apply send_requests in E1.
Qed.

Lemma delete_inv a s s' : NoDup (addrs (requests s)) -> DeleteServerRequest (Some a) s = Some (tt, s') ->
  a ∉ addrs (requests s').
Proof.
  intros Hd E. apply run_bind_inv in E as (r & s1 & E1 & E). apply run_bind_inv in E1 as (l & s0 & E0 & E1).
  inversion E0. subst l s0. apply run_bind_inv in E as (l & s5 & E5 & E). inversion E5. subst l s5.
  apply run_bind_inv in E as (l' & s6 & E6 & E). unfold lift in E6.
  destruct (table_remove r (requests s1)) as [l''|] eqn:Erm; [|done]. inversion E6. subst l'' s6.
  apply table_remove_some in Erm. apply run_bind_inv in E as (u & s2 & E2 & E). inversion E2. subst s2.
  apply run_bind_inv in E as (u' & s3 & E3 & E). apply in_heap_requests in E3, E. rewrite E, E3. cbn [requests set_requests].
  unfold lift in E1. destruct (node_at a (requests s)) as [r'|] eqn:En; [|done]. inversion E1. subst r' s1.
  rewrite Erm. apply node_at_addr in En as [<- _]. change (sr_addr r) with (node_addr r). set (a := node_addr r). clearbody a.
  clear -Hd. induction (requests s) as [|c l IH]; cbn in *; [apply not_elem_of_nil|].
  apply NoDup_cons in Hd as [Hc Hd]. case_decide as Ec; [by subst a|].
  intros Hx. apply elem_of_cons in Hx as [->|Hx]; [done|]. by apply (IH Hd).
Qed.

Lemma finish_inv mode a r i p s x s' : NoDup (addrs (requests s)) ->
  send_and_finish mode a r i p s = Some (x, s') -> a ∉ addrs (requests s').
Proof.
  intros Hd E. unfold send_and_finish in E. apply run_bind_inv in E as ([[res i'] f] & s1 & E1 & E).
  apply send_on_requests in E1. apply run_bind_inv in E as (u2 & s2 & E2 & E). apply in_heap_requests in E2.
  apply run_bind_inv in E as (u3 & s3 & E3 & E). apply in_heap_requests in E3.
  apply run_bind_inv in E as ([] & s4 & E4 & E). inversion E. subst x s'. apply (delete_inv a s3); [|done].
  by rewrite E3, E2, E1.
Qed.

Lemma convert_body_inv r p z s x s' : convert_body r p z s = Some (x, s') -> converts r p ->
  requests s' = requests s /\ exists b, x = inr b.
Proof.
  unfold convert_body, converts. intros E Hc. destruct p as [p|]; [|inversion E; eauto].
  destruct (convert_payload p (sr_acceptFormat r)) as [[res out] size]. cbn in Hc. subst res.
  destruct (sr_acceptFormat r);
    first [apply run_bind_inv in E as (u & s1 & E1 & E); apply in_heap_requests in E1; inversion E; subst; eauto
          |inversion E; subst; eauto].
Qed.

(** A response is sent and its request deleted, unless there is no memory for
    the options. *)
Lemma single_deletes mode eh a r s x s' : requestHandle eh = Some a -> node_at a (requests s) = Some r ->
  NoDup (addrs (requests s)) -> response_ok eh -> converts r (eh_payload eh) ->
  HandleSingleResponse mode (Some eh) s = Some (x, s') -> a ∉ addrs (requests s') \/ x = OC_STACK_NO_MEMORY.
Proof.
  intros Ea Hn Hd Hok Hc E. unfold HandleSingleResponse in E. rewrite Ea in E.
  rewrite (run_bind _ _ _ _ _ (request_at_run a r s Hn)) in E.
  apply run_bind_inv in E as (tok & s1 & E1 & E). unfold lift in E1. destruct (response_token r); inversion E1. subst s1.
  destruct (counted_and_filled r eh Hok) as (n & c & arr & Ec & Ef & Hn0). rewrite Ec in E.
  rewrite (run_bind _ _ _ _ _ (run_lift _ _ s eq_refl)) in E. cbn beta iota in E.
  apply run_bind_inv in E as (ok & s2 & E2 & E).
  assert (requests s2 = requests s) as R2 by (destruct (n =? 0); [by inversion E2|by apply in_heap_requests in E2]).
  destruct ok; cbn [negb] in E; [left|right; by inversion E].
  assert (exists os, (if n =? 0 then Some (Some None) else o ← fill_options r eh c n; Some (option_map Some o)) = Some (Some os)) as (os & Eos).
  { rewrite Ef. destruct (n =? 0); cbn; eauto. }
  rewrite Eos in E. rewrite (run_bind _ _ _ _ _ (run_lift _ _ s2 eq_refl)) in E. cbn beta iota in E.
  apply run_bind_inv in E as (b & s3 & E3 & E). destruct (convert_body_inv _ _ _ _ _ _ E3 Hc) as (R3 & b' & ->).
  apply (finish_inv _ _ _ _ _ _ _ _ ltac:(rewrite R3, R2; exact Hd) E).
Qed.

(** No payload fails to be converted. *)
Definition always_converts : Prop := forall p f, fst (fst (convert_payload p f)) = OC_STACK_OK.

Lemma delete_gone a s : a ∉ addrs (requests s) -> DeleteServerRequest (Some a) s = None.
Proof.
  intros Hn. unfold DeleteServerRequest. apply run_bind_undef. unfold request_at. step (run_gets requests s). unfold lift.
  destruct (node_at a (requests s)) eqn:E; [|done]. by apply node_at_there in E.
Qed.

Lemma one_less_last a r s : node_at a (requests s) = Some r -> NoDup (addrs (requests s)) ->
  let s' := set_requests (on_addr a one_less (requests s)) s in
  node_at a (requests s') = Some (one_less r) /\ NoDup (addrs (requests s')).
Proof. intros Hn Hd s'. split; [by apply on_addr_at|]. unfold s'. cbn [requests set_requests]. by rewrite on_addr_addrs. Qed.

(** C32: the last response of a resource that answers for several never succeeds:
    when there is memory for it [HandleSingleResponse] answers and deletes the
    request, and [HandleAggregateResponse] deletes it again. *)
Theorem aggregate_response_double_free mode eh a r p s : requestHandle eh = Some a ->
  eh_payload eh = Some (PAYLOAD_TYPE_REPRESENTATION p) -> node_at a (requests s) = Some r ->
  numResponses r = 1 -> NoDup (addrs (requests s)) -> response_ok eh -> always_converts ->
  HandleAggregateResponse mode (Some eh) s = None \/
  exists s', HandleAggregateResponse mode (Some eh) s = Some (OC_STACK_NO_MEMORY, s').
Proof.
  intros Ea Ep Hn H1 Hd Hok Hc. destruct (HandleAggregateResponse mode (Some eh) s) as [[x s']|] eqn:E; [right|by left].
  exists s'. do 2 f_equal. unfold HandleAggregateResponse in E. rewrite Ep, Ea in E.
  apply run_bind_inv in E as (found & s1 & E1 & E). apply run_bind_inv in E1 as (l & s0 & E0 & E1). inversion E0. subst l s0.
  unfold lift in E1. destruct (find_response _ _); inversion E1. subst s1. clear E0 E1.
  apply run_bind_inv in E as ([res sp] & s2 & E2 & E).
  assert (requests s2 = requests s /\ (res = OC_STACK_OK /\ is_Some sp \/ res = OC_STACK_NO_MEMORY)) as [R2 Hres].
  { destruct found as [sp'|]; [inversion E2; split; [done|]; left; split; [done|by eexists]|].
    apply run_bind_inv in E2 as (ok & s3 & E3 & E2). apply in_heap_requests in E3.
    destruct ok; cbn [negb] in E2; inversion E2; (split; [first [exact E3|by subst]|]); [left; split; [done|by eexists]|by right]. }
  destruct Hres as [[-> [sp' ->]]| ->]; [|by inversion E]. cbn beta iota in E.
  apply run_bind_inv in E as (q & s3 & E3 & E). apply in_heap_requests in E3.
  apply run_bind_inv in E as (resp & s4 & E4 & E). apply run_bind_inv in E4 as (l & s0 & E0 & E4). inversion E0. subst l s0.
  unfold lift in E4. destruct (node_at sp' _); inversion E4. subst s4. clear E0 E4.
  apply run_bind_inv in E as (collected & s5 & E5 & E). unfold lift in E5. destruct (collect resp q); inversion E5. subst s5.
  rewrite (run_bind _ _ _ _ _ (run_modify _ _)), (run_bind _ _ _ _ _ (run_modify _ _)) in E.
  set (s6 := set_responses _ s3) in E. assert (requests s6 = requests s) as R6 by (cbn; congruence).
  rewrite <- R6 in Hn, Hd. destruct (one_less_last a r s6 Hn Hd) as [Hn7 Hd7]. set (s7 := set_requests _ s6) in *.
  rewrite (run_bind _ _ _ _ _ (request_at_run a (one_less r) s7 Hn7)) in E. cbn [numResponses one_less] in E. rewrite H1 in E.
  change (u8 (1 - 1) =? 0) with true in E. cbn iota in E. apply run_bind_inv in E as (y & s8 & E8 & E).
  assert (response_ok (with_payload collected eh)) as Hok' by (destruct Hok as [Ha Hf Hv Hu]; by split).
  assert (converts (one_less r) (eh_payload (with_payload collected eh))) as Hc'
    by (cbn [eh_payload with_payload]; destruct collected; [apply Hc|done]).
  destruct (single_deletes mode (with_payload collected eh) a (one_less r) s7 y s8 Ea Hn7 Hd7 Hok' Hc' E8) as [Hgone| ->].
  - rewrite (run_bind_undef _ _ _ (delete_gone a s8 Hgone)) in E. done.
  - apply run_bind_inv in E as ([] & s9 & _ & E). apply run_bind_inv in E as ([] & s10 & _ & E). by inversion E.
Qed.
End Server.

(** ** At concrete inputs *)

#[local] Instance sample_env : ServerEnv := {|
  find_request l t n := Some (sr_addr <$> find (fun r => bool_decide (requestToken r = t)) l);
  find_response l a := Some (sp_addr <$> find (fun r => bool_decide (sp_requestHandle r = a)) l);
  convert_payload _ _ := (OC_STACK_OK, Some [160], 1);
  send_result _ _ _ := CA_STATUS_OK |}.

Definition sample_dev : OCDevAddr := {|
  dev_endpoint := {| adapter := 1; flags := 32; port := 5683; addr := chars "fe80::1"; ifindex := 0; remoteId := [] |};
  routeData := replicate 66 0 |}.

Definition sample_server_request : OCServerRequest := {|
  sr_addr := 1; sr_method := OC_REST_GET; sr_acceptFormat := OC_FORMAT_VND_OCF_CBOR; sr_acceptVersion := 2048;
  resourceUrl := chars "/c"; query := chars "if=oic.if.b"; qos := OC_LOW_QOS; observationOption := 2;
  observeResult := OC_STACK_ERROR; numResponses := 1; ehResponseHandler := HandleAggregate; sr_devAddr := sample_dev;
  requestToken := Some [1;2;3;4;5;6;7;8]; sr_tokenLength := 8; coapID := 77; delayedResNeeded := 0;
  numRcvdVendorSpecificHeaderOptions := 0; rcvdVendorSpecificHeaderOptions := zero_options; requestComplete := false; slowFlag := false;
  notificationFlag := false; sr_payloadFormat := OC_FORMAT_CBOR; sr_payloadSize := 0; sr_payload := [0] |}.

Definition sample_server (l : list OCServerRequest) : server :=
  {| sv_heap := {| hp_allocs := []; live := 2 |}; requests := l; responses := []; sv_sent := [] |}.

Definition sample_eh (vendor : list OCHeaderOption) (n : Z) : OCEntityHandlerResponse := {|
  requestHandle := Some 1%positive; ehResult := OC_EH_OK;
  eh_payload := Some (PAYLOAD_TYPE_REPRESENTATION (Rep None [] [] [] None)); numSendVendorSpecificHeaderOptions := n;
  sendVendorSpecificHeaderOptions := vendor; eh_resourceUri := [] |}.

Lemma sample_eh_ok : response_ok (sample_eh zero_options 0).
Proof.
  split; [reflexivity| |by vm_compute; split|by vm_compute]. apply Forall_replicate. exact zero_option_full.
Qed.

Lemma response_options_fit_witness :
  exists c, count_options sample_server_request (sample_eh zero_options 0) =
      Some (total_options sample_server_request (sample_eh zero_options 0) c, c) /\
    fill_options sample_server_request (sample_eh zero_options 0) c
        (total_options sample_server_request (sample_eh zero_options 0) c) =
      Some (Some (observe_part sample_server_request ++ take 0 zero_options ++ location_part (sample_eh zero_options 0) ++
        tail_written (sample_eh zero_options 0) c ++ tail_empty (sample_eh zero_options 0) c)).
Proof. apply (response_options_fit sample_server_request (sample_eh zero_options 0) sample_eh_ok). Defined.

Lemma server_request_added_and_deleted_witness :
  exists a r s', AddServerRequest (Some None) 5 0 false OC_REST_GET 0 2 OC_LOW_QOS None None OC_FORMAT_UNDEFINED None
      (Some [1;2]) 2 (Some (chars "/a")) 0 OC_FORMAT_CBOR 0 (Some sample_dev) (sample_server []) =
        Some ((OC_STACK_OK, Some a), s') /\
    request_at a s' = Some (r, s') /\ a ∉ addrs (requests (sample_server [])) /\ requests s' = requests (sample_server []) ++ [r] /\
    numResponses r = 1 /\ requestToken r = Some [1;2] /\ DeleteServerRequest (Some a) s' = Some (tt, sample_server []).
Proof.
  apply (server_request_added_and_deleted 5 0 false OC_REST_GET 0 2 OC_LOW_QOS None OC_FORMAT_UNDEFINED (Some [1;2]) 2
    (Some (chars "/a")) OC_FORMAT_CBOR 0 sample_dev (sample_server [])); [by vm_compute; split|reflexivity].
Defined.

Lemma aggregate_response_double_free_witness :
  HandleAggregateResponse OC_SERVER (Some (sample_eh zero_options 0)) (sample_server [sample_server_request]) = None \/
  exists s', HandleAggregateResponse OC_SERVER (Some (sample_eh zero_options 0)) (sample_server [sample_server_request]) =
    Some (OC_STACK_NO_MEMORY, s').
Proof.
  apply (aggregate_response_double_free OC_SERVER (sample_eh zero_options 0) 1%positive sample_server_request
    (Rep None [] [] [] None) (sample_server [sample_server_request])).
  - reflexivity.
  - reflexivity.
  - reflexivity.
  - reflexivity.
  - apply NoDup_singleton.
  - exact sample_eh_ok.
  - intros p f. reflexivity.
Defined.

Lemma response_sent_once_witness :
  exists sent c, HandleSingleResponse OC_SERVER (Some (sample_eh zero_options 0)) (sample_server [sample_server_request]) =
      Some (OC_STACK_OK, grow (-2) (set_requests [] (add_sent sent (sample_server [sample_server_request])))) /\
    to_endpoint sent = CopyDevAddrToEndpoint sample_dev /\ result (to_send sent) = CA_CONTENT /\
    CaMessage.messageId (res_info (to_send sent)) = 77 /\ CaMessage.type (res_info (to_send sent)) = CA_MSG_NONCONFIRM /\
    CaMessage.tokenLength (res_info (to_send sent)) = 8 /\
    option_map (take 8) (CaMessage.token (res_info (to_send sent))) = Some [1;2;3;4;5;6;7;8] /\
    CaMessage.payload (res_info (to_send sent)) = Some [160] /\
    count_options sample_server_request (sample_eh zero_options 0) = Some (total_options sample_server_request (sample_eh zero_options 0) c, c) /\
    CaMessage.options (res_info (to_send sent)) =
      Some (all_options sample_server_request (sample_eh zero_options 0) c ++ [routed (replicate 66 0)]).
Proof.
  assert (response_ok (sample_eh zero_options 0)) as Hok by exact sample_eh_ok.
  assert (vendor_plain (sample_eh zero_options 0)) as Hv by constructor.
  assert (answerable sample_server_request) as Ha by (split; [left|vm_compute; lia|reflexivity|by vm_compute]).
  assert takes_all as Ht by (intros s e i; reflexivity).
  vm_cast_no_check (response_sent_once OC_SERVER (sample_eh zero_options 0) 1%positive sample_server_request
    (sample_server [sample_server_request]) eq_refl eq_refl eq_refl Hok Hv eq_refl Ha Ht eq_refl).
Defined.

(** Behind another request with its token it can leave as well; as the first of
    two it can not. *)
Definition second_request : OCServerRequest := {|
  sr_addr := 2; sr_method := OC_REST_GET; sr_acceptFormat := OC_FORMAT_VND_OCF_CBOR; sr_acceptVersion := 2048;
  resourceUrl := chars "/d"; query := []; qos := OC_LOW_QOS; observationOption := 2;
  observeResult := OC_STACK_ERROR; numResponses := 1; ehResponseHandler := HandleSingle; sr_devAddr := sample_dev;
  requestToken := Some [1;2;3;4;5;6;7;8]; sr_tokenLength := 8; coapID := 78; delayedResNeeded := 0;
  numRcvdVendorSpecificHeaderOptions := 0; rcvdVendorSpecificHeaderOptions := zero_options; requestComplete := false; slowFlag := false;
  notificationFlag := false; sr_payloadFormat := OC_FORMAT_CBOR; sr_payloadSize := 0; sr_payload := [0] |}.

Example second_leaves : DeleteServerRequest (Some 2%positive) (sample_server [sample_server_request; second_request]) =
  Some (tt, grow (-2) (sample_server [sample_server_request])).
Proof. vm_compute. reflexivity. Qed.

Example first_of_two_does_not :
  DeleteServerRequest (Some 1%positive) (sample_server [sample_server_request; second_request]) = None.
Proof. vm_compute. reflexivity. Qed.

(** With memory to be had it is the double free. *)
Example last_fragment_undefined :
  HandleAggregateResponse OC_SERVER (Some (sample_eh zero_options 0)) (sample_server [sample_server_request]) = None.
Proof. vm_compute. reflexivity. Qed.

(** The same response from a resource that answers alone is sent. *)
Example single_response_example : match HandleSingleResponse OC_SERVER (Some (sample_eh zero_options 0))
    (sample_server [sample_server_request]) with
  | Some (res, s) => (res, requests s, length (sv_sent s), live (sv_heap s)) = (OC_STACK_OK, [], 1%nat, 0)
  | None => False
  end.
Proof. vm_compute. reflexivity. Qed.

(** The number of the format is compared with a value of [CAPayloadFormat_t]:
    when the application says that its payload has the OCF format, the version
    is not added. *)
Example ocf_format_gets_no_version : (fst <$> count_options sample_server_request
    (sample_eh (written COAP_OPTION_CONTENT_FORMAT (le_bytes 2 COAP_MEDIATYPE_APPLICATION_VND_OCF_CBOR) ::
       replicate 49 zero_option) 1)) = Some 1 /\
  (fst <$> count_options sample_server_request
    (sample_eh (written COAP_OPTION_CONTENT_FORMAT [CA_FORMAT_APPLICATION_VND_OCF_CBOR_value] ::
       replicate 49 zero_option) 1)) = Some 2.
Proof. vm_compute. by split. Qed.

(** All entries of the array used and an observe option: the loop looks behind
    the array. *)
Example full_array_out_of_bounds : count_options
  {| sr_addr := 1; sr_method := OC_REST_GET; sr_acceptFormat := OC_FORMAT_CBOR; sr_acceptVersion := 0; resourceUrl := [];
     query := []; qos := OC_LOW_QOS; observationOption := 2; observeResult := OC_STACK_OK; numResponses := 1;
     ehResponseHandler := HandleSingle; sr_devAddr := sample_dev; requestToken := None; sr_tokenLength := 0; coapID := 0;
     delayedResNeeded := 0; numRcvdVendorSpecificHeaderOptions := 0; rcvdVendorSpecificHeaderOptions := zero_options;
     requestComplete := false; slowFlag := false; notificationFlag := true; sr_payloadFormat := OC_FORMAT_CBOR; sr_payloadSize := 0; sr_payload := [0] |}
  (sample_eh zero_options 50) = None.
Proof. vm_compute. reflexivity. Qed.
