(* ===== verification/ServerTrees.v ===== *)
(** * ServerTrees: the trees that hold the requests and responses of a server

    The comparisons with which [csdk/stack/src/ocserverrequest.c] builds its
    trees out of the macros of [RbTree], and what the lookups of [ServerEnv] are
    when they are those trees. *)
From S2P Require Import Prelude Effects RbTree RbShape RbOrder RbMap RbChain.
From S2P Require Import CaCommon StackTypes ServerRequest.

(** [memcmp]: both have [n] bytes; what it returns counts as negative, zero or
    positive only. *)
Fixpoint bytes_compare (x y : list Z) : Z :=
  match x, y with a :: x, b :: y => if a =? b then bytes_compare x y else a - b | _, _ => 0 end.

Definition memcmp (a b : option (list Z)) (n : Z) : ub Z :=
  match a, b with
  | Some x, Some y => x' ← read_at x 0 n; y' ← read_at y 0 n; Some (bytes_compare x' y')
  | _, _ => None
  end.

(** What the comparison of requests looks at. *)
Record token_key := { tk_token : option (list Z); tk_length : Z }.

Definition RBRequestTokenCmp (target treeNode : token_key) : ub Z :=
  memcmp (tk_token target) (tk_token treeNode) (tk_length target).

Definition request_key (r : OCServerRequest) : token_key :=
  {| tk_token := requestToken r; tk_length := sr_tokenLength r |}.

(** The comparison of responses follows their handles to the requests [l]. *)
Definition RBResponseTokenCmp (l : list OCServerRequest) (target treeNode : positive) : ub Z :=
  x ← node_at target l; y ← node_at treeNode l;
  memcmp (requestToken x) (requestToken y) (sr_tokenLength x).

(** ** Tokens of one length are ordered *)

(** The bytes as the digits of a number. *)
Fixpoint number (l : list Z) : Z :=
  match l with [] => 0 | b :: l => b * 256 ^ Z.of_nat (length l) + number l end.

Lemma number_bounds l : Forall is_byte l -> 0 <= number l < 256 ^ Z.of_nat (length l).
Proof.
  induction 1 as [|b l Hb Hl IH]; cbn [number length]; [done|]. rewrite Nat2Z.inj_succ, Z.pow_succ_r by lia.
  unfold is_byte in Hb. nia.
Qed.

Lemma bytes_compare_number x : forall y, length x = length y -> Forall is_byte x -> Forall is_byte y ->
  Z.sgn (bytes_compare x y) = Z.sgn (number x - number y).
Proof.
  induction x as [|a x IH]; intros [|b y] Hl Hx Hy; try done. cbn in Hl. injection Hl as Hl.
  apply Forall_cons in Hx as [Ha Hx]. apply Forall_cons in Hy as [Hb Hy]. cbn [bytes_compare number]. rewrite Hl.
  destruct (Z.eqb_spec a b) as [->|Hab].
  - rewrite (IH y Hl Hx Hy). f_equal. lia.
  - pose proof (number_bounds x Hx) as H1. pose proof (number_bounds y Hy) as H2. rewrite Hl in H1.
    destruct (Z.lt_total a b) as [?|[?|?]]; [|done|].
    + rewrite !Z.sgn_neg; [done|nia|lia].
    + rewrite !Z.sgn_pos; [done|nia|lia].
Qed.

Lemma number_inj x y : length x = length y -> Forall is_byte x -> Forall is_byte y -> number x = number y -> x = y.
Proof.
  revert y. induction x as [|a x IH]; intros [|b y] Hl Hx Hy E; try done. cbn in Hl. injection Hl as Hl.
  apply Forall_cons in Hx as [Ha Hx]. apply Forall_cons in Hy as [Hb Hy]. cbn [number] in E. rewrite Hl in E.
  pose proof (number_bounds x Hx) as H1. pose proof (number_bounds y Hy) as H2. rewrite Hl in H1.
  assert (a = b) as -> by nia. f_equal. apply IH; try done. lia.
Qed.

Lemma memcmp_whole x y n : length x = n -> length y = n -> memcmp (Some x) (Some y) (Z.of_nat n) = Some (bytes_compare x y).
Proof.
  intros Hx Hy. unfold memcmp, read_at. rewrite !decide_True by lia. cbn [mbind option_bind]. rewrite !drop_0, !Nat2Z.id.
  by rewrite <- Hx at 1; rewrite <- Hy, !firstn_all.
Qed.

Definition token_ok (n : nat) (k : token_key) : Prop :=
  exists t, tk_token k = Some t /\ length t = n /\ Forall is_byte t /\ tk_length k = Z.of_nat n.

Definition token_number (k : token_key) : Z := number (default [] (tk_token k)).

Program Definition token_order (n : nat) : KeyOrder RBRequestTokenCmp := {|
  key_ok := token_ok n;
  key_value := token_number;
|}.
Next Obligation.
  intros n x y (t & Et & Ht & Hb & En) (u & Eu & Hu & Hc & Em). unfold RBRequestTokenCmp, token_number.
  rewrite Et, Eu, En. exists (bytes_compare t u). split; [by apply memcmp_whole|].
  cbn. apply bytes_compare_number; congruence.
Qed.

Definition handle_token (l : list OCServerRequest) (a : positive) : token_key :=
  from_option request_key {| tk_token := None; tk_length := 0 |} (node_at a l).

Program Definition handle_order (n : nat) (l : list OCServerRequest) : KeyOrder (RBResponseTokenCmp l) := {|
  key_ok a := is_Some (node_at a l) /\ token_ok n (handle_token l a);
  key_value a := token_number (handle_token l a);
|}.
Next Obligation.
  intros n l x y [[r Er] Hx] [[q Eq] Hy]. unfold RBResponseTokenCmp, handle_token in *. rewrite Er, Eq in *. cbn in *.
  exact (@cmp_values _ _ (token_order n) (request_key r) (request_key q) Hx Hy).
Qed.

(** ** What the trees find *)

Section Requests.
Variable n : nat.
#[local] Existing Instance token_order.

(** The tree after the requests [l] were added in their order, and what is found
    there. *)
Definition request_tree (l : list OCServerRequest) : M (RB_HEAD token_key) (list (option positive)) :=
  rbl_runs RBRequestTokenCmp ((fun r => Add (sr_addr r) (request_key r)) <$> l).

Definition tree_find_request (l : list OCServerRequest) (token : option (list Z)) (tokenLength : Z) : ub (option positive) :=
  '(_, s) ← request_tree l RB_INITIALIZER;
  '(found, _) ← RB_FIND RBRequestTokenCmp {| tk_token := token; tk_length := tokenLength |} s;
  Some found.

Lemma lists_runs_add (l : list OCServerRequest) : forall m, exists rs m',
  lists_runs RBRequestTokenCmp (H := token_order n) ((fun r => Add (sr_addr r) (request_key r)) <$> l) m = Some (rs, m') /\
  forall v, m' !! v ≫= head = match m !! v ≫= head with
    | Some a => Some a
    | None => sr_addr <$> find (fun r => token_number (request_key r) =? v) l
    end.
Proof.
  induction l as [|r l IH]; intros m; [exists [], m; split; [done|]; intros v; by destruct (m !! v ≫= head)|].
  cbn [fmap list_fmap lists_runs lists_run]. cbn [mbind option_bind]. set (v0 := token_number (request_key r)).
  destruct (IH (put_in (sr_addr r) v0 m)) as (rs & m' & E & Hm). change (key_value (request_key r)) with v0. rewrite E.
  eexists _, m'. split; [done|]. intros v. rewrite Hm. cbn [find]. unfold put_in. fold v0.
  destruct (Z.eqb_spec v0 v) as [<-|Hv].
  - destruct (m !! v0) as [[|b fs]|]; by rewrite lookup_insert_eq.
  - by destruct (m !! v0) as [[|b fs]|]; rewrite lookup_insert_ne.
Qed.

Lemma find_ext_in {A} (f g : A -> bool) l : (forall x, x ∈ l -> f x = g x) -> find f l = find g l.
Proof.
  intros He. induction l as [|x l IH]; [done|]. cbn. rewrite He by (by left). by rewrite IH by (intros y Hy; apply He; by right).
Qed.

Lemma tree_find_by_token (l : list OCServerRequest) (t : list Z) :
  NoDup (sr_addr <$> l) -> Forall (fun r => token_ok n (request_key r)) l -> length t = n -> Forall is_byte t ->
  tree_find_request l (Some t) (Z.of_nat n) = Some (sr_addr <$> find (fun r => bool_decide (requestToken r = Some t)) l).
Proof.
  intros Hd Hk Ht Hb. destruct (lists_runs_add l ∅) as (rs & m & E & Hm).
  assert (token_ok n {| tk_token := Some t; tk_length := Z.of_nat n |}) as Hok by (by exists t).
  set (os := (fun r => Add (sr_addr r) (request_key r)) <$> l) in E.
  assert (os ≫= list_op_new = sr_addr <$> l) as En by (unfold os; clear; induction l as [|r l IH]; cbn; [done|by rewrite <- IH]).
  destruct (grouped_runs RBRequestTokenCmp (H := token_order n) os RB_INITIALIZER ∅ rs m (grouped_initial _)) as (s & Es & Hg);
    [by apply Forall_fmap|by rewrite En|by intros a _|exact E|].
  unfold tree_find_request, request_tree. fold os. rewrite Es. cbn [mbind option_bind].
  pose proof Hg as (ls & Hs & Hv & _). rewrite (find_run _ s ls _ Hs Hok). cbn [mbind option_bind]. f_equal. rewrite <- Hv, Hm.
  rewrite lookup_empty. cbn [mbind option_bind]. f_equal. apply find_ext_in. intros r Hr.
  destruct (proj1 (Forall_forall _ _) Hk r Hr) as (u & Eu & Hu & Hub & _). cbn in Eu. unfold token_number at 1. cbn [request_key tk_token].
  rewrite Eu. change (key_value _) with (number t). cbn [default]. unfold id. apply eq_true_iff_eq.
  rewrite bool_decide_eq_true, Z.eqb_eq. split; intros Heq.
  - f_equal. apply number_inj; [congruence|done|done|done].
  - by injection Heq as ->.
Qed.

(** C39: requests whose tokens have one length are found by their token, the one
    that was added first, and looking for any such token is well defined. *)
Theorem request_found_by_token (l : list OCServerRequest) (t : list Z) :
  NoDup (sr_addr <$> l) -> Forall (fun r => token_ok n (request_key r)) l -> length t = n -> Forall is_byte t ->
  tree_find_request l (Some t) (Z.of_nat n) = Some (sr_addr <$> find (fun r => bool_decide (requestToken r = Some t)) l).
Proof. apply tree_find_by_token. Qed.

(** ** The table of requests is its tree *)

(** The requests with one token, in their order. *)
Definition with_number (v : Z) (l : list OCServerRequest) : list positive :=
  sr_addr <$> List.filter (fun r => token_number (request_key r) =? v) l.

(** The tree [s] holds the requests [l]: of those with one token the first is in
    the tree and the others are chained behind it. *)
Definition tree_holds (s : RB_HEAD token_key) (l : list OCServerRequest) : Prop :=
  NoDup (sr_addr <$> l) /\ Forall (fun r => token_ok n (request_key r)) l /\
  (forall a, is_Some (elements s !! a) -> a ∈ sr_addr <$> l) /\
  exists m, grouped RBRequestTokenCmp (H := token_order n) s m /\
    forall v, default [] (m !! v) ≡ₚ with_number v l /\ m !! v ≫= head = head (with_number v l).

Inductive table_op :=
| AddRequest (r : OCServerRequest)
| FindRequest (t : list Z)
| DeleteRequest (a : positive).

(** What [AddServerRequest], [GetServerRequestUsingToken] and
    [DeleteServerRequest] do with the list of requests; a new request has an
    address that is not in use and a token of [n] bytes. *)
Definition table_run (o : table_op) (l : list OCServerRequest) : option (option positive * list OCServerRequest) :=
  match o with
  | AddRequest r => if decide (sr_addr r ∈ sr_addr <$> l) then None else Some (Some (sr_addr r), table_insert r l)
  | FindRequest t => Some (sr_addr <$> find (fun r => bool_decide (requestToken r = Some t)) l, l)
  | DeleteRequest a => r ← node_at a l; l ← table_remove r l; Some (Some a, l)
  end.

(** And with the tree. *)
Definition table_tree_run (o : table_op) : M (RB_HEAD token_key) (option positive) :=
  match o with
  | AddRequest r => add_element (sr_addr r) (request_key r);; RBL_INSERT RBRequestTokenCmp (sr_addr r)
  | FindRequest t => RB_FIND RBRequestTokenCmp {| tk_token := Some t; tk_length := Z.of_nat n |}
  | DeleteRequest a => r ← RBL_REMOVE a; free_element a;; mret r
  end.

Definition table_op_ok (o : table_op) : Prop :=
  match o with
  | AddRequest r => token_ok n (request_key r)
  | FindRequest t => length t = n /\ Forall is_byte t
  | DeleteRequest _ => True
  end.

Lemma with_number_snoc v l r : with_number v (l ++ [r]) =
  with_number v l ++ (if token_number (request_key r) =? v then [sr_addr r] else []).
Proof. unfold with_number. rewrite List.filter_app, fmap_app. cbn. by destruct (_ =? v). Qed.

Lemma with_number_in v l a : a ∈ with_number v l -> a ∈ sr_addr <$> l.
Proof.
  intros (r & -> & Hr%list_elem_of_In)%list_elem_of_fmap. apply filter_In in Hr as [Hr _].
  by apply list_elem_of_fmap_2, list_elem_of_In.
Qed.

Lemma with_number_find v l : head (with_number v l) = sr_addr <$> find (fun r => token_number (request_key r) =? v) l.
Proof. unfold with_number. induction l as [|r l IH]; [done|]. cbn. by destruct (_ =? v). Qed.

Lemma token_number_same r q : token_ok n (request_key r) -> token_ok n (request_key q) ->
  (token_number (request_key q) =? token_number (request_key r)) = same_token r q.
Proof.
  intros (t & Et & Ht & Hb & _) (u & Eu & Hu & Hc & _). cbn in Et, Eu. unfold token_number, same_token. cbn [request_key tk_token].
  rewrite Et, Eu. cbn [default]. unfold id. apply eq_true_iff_eq. rewrite Z.eqb_eq, bool_decide_eq_true. split; intros E.
  - f_equal. symmetry. apply number_inj; [congruence|done|done|done].
  - by injection E as ->.
Qed.

Lemma same_token_filter r l : token_ok n (request_key r) -> Forall (fun q => token_ok n (request_key q)) l ->
  sr_addr <$> List.filter (same_token r) l = with_number (token_number (request_key r)) l.
Proof.
  intros Hr Hl. unfold with_number. f_equal. induction Hl as [|q l Hq Hl IH]; [done|]. cbn [List.filter].
  by rewrite token_number_same, IH.
Qed.

Lemma holds_add s l r : tree_holds s l -> token_ok n (request_key r) -> sr_addr r ∉ sr_addr <$> l ->
  exists s', table_tree_run (AddRequest r) s = Some (Some (sr_addr r), s') /\ tree_holds s' (l ++ [r]).
Proof.
  intros (Hd & Hk & Hdom & m & Hg & Hm) Hr Hn. set (v0 := token_number (request_key r)).
  destruct (grouped_insert RBRequestTokenCmp (H := token_order n) s m (sr_addr r) (request_key r) Hg Hr) as (s' & E & Hg' & Hd').
  { apply eq_None_not_Some. intros Hs. by apply Hn, Hdom. }
  exists s'. split; [exact E|]. unfold tree_holds. rewrite fmap_app. cbn [fmap list_fmap].
  split; [apply NoDup_app; split; [done|]; split; [|apply NoDup_singleton]; intros x Hx ->%list_elem_of_singleton; by apply Hn|].
  split; [by apply Forall_app; split; [|constructor]|]. split.
  { intros a Ha%elem_of_dom. rewrite Hd' in Ha. apply elem_of_union in Ha as [->%elem_of_singleton|Ha%elem_of_dom];
      apply elem_of_app; [right; by left|left; by apply Hdom]. }
  exists (put_in (sr_addr r) v0 m). split; [exact Hg'|]. intros v. destruct (Hm v) as [Hp Hh]. rewrite with_number_snoc. fold v0.
  unfold put_in. destruct (Z.eqb_spec v0 v) as [<-|Hv].
  - destruct (m !! v0) as [[|b xs]|]; cbn [default mbind option_bind] in Hp, Hh; unfold id in Hp; rewrite lookup_insert_eq;
      cbn [default mbind option_bind]; unfold id; destruct (with_number v0 l) as [|c ys]; try done.
    injection Hh as ->. apply Permutation_cons_inv in Hp. cbn [app]. split; [|done]. apply perm_skip. rewrite Hp.
    apply Permutation_cons_append.
  - rewrite app_nil_r. by destruct (m !! v0) as [[|b xs]|]; rewrite lookup_insert_ne.
Qed.

Lemma holds_find s l t : tree_holds s l -> length t = n -> Forall is_byte t ->
  table_tree_run (FindRequest t) s = Some (sr_addr <$> find (fun r => bool_decide (requestToken r = Some t)) l, s).
Proof.
  intros (Hd & Hk & Hdom & m & Hg & Hm) Ht Hb. set (k := {| tk_token := Some t; tk_length := Z.of_nat n |}).
  assert (token_ok n k) as Hok by (by exists t).
  destruct (grouped_run RBRequestTokenCmp (H := token_order n) (First k) s m _ _ Hg Hok ltac:(by intros a ?%elem_of_nil) eq_refl)
    as (s' & E & _ & _).
  pose proof Hg as (ls & Hs & Hv & _). cbn [table_tree_run]. fold k. rewrite (find_run _ s ls _ Hs Hok). do 2 f_equal.
  rewrite <- Hv, (proj2 (Hm _)), with_number_find. f_equal. apply find_ext_in. intros r Hr.
  destruct (proj1 (Forall_forall _ _) Hk r Hr) as (u & Eu & Hu & Hub & _). cbn in Eu. unfold token_number at 1. cbn [request_key tk_token].
  rewrite Eu. change (key_value k) with (number t). cbn [default]. unfold id. apply eq_true_iff_eq.
  rewrite bool_decide_eq_true, Z.eqb_eq. split; intros Heq.
  - f_equal. apply number_inj; [congruence|done|done|done].
  - by injection Heq as ->.
Qed.

Lemma with_number_app v l1 l2 : with_number v (l1 ++ l2) = with_number v l1 ++ with_number v l2.
Proof. unfold with_number. by rewrite List.filter_app, fmap_app. Qed.

Lemma with_number_cons v r l : with_number v (r :: l) =
  (if token_number (request_key r) =? v then [sr_addr r] else []) ++ with_number v l.
Proof. unfold with_number. cbn. by destruct (_ =? v). Qed.

(** Which requests can leave, as the chains see it. *)
Lemma table_remove_chain r l1 l2 l' : token_ok n (request_key r) ->
  Forall (fun q => token_ok n (request_key q)) (l1 ++ r :: l2) -> sr_addr r ∉ sr_addr <$> l1 ->
  table_remove r (l1 ++ r :: l2) = Some l' ->
  l' = l1 ++ l2 /\ (with_number (token_number (request_key r)) l1 = [] -> with_number (token_number (request_key r)) l2 = []).
Proof.
  intros Hr Hl Hn E. set (v0 := token_number (request_key r)). split.
  { rewrite (table_remove_some _ _ _ E). exact (unlink_middle l1 r l2 Hn). }
  intros H1. unfold table_remove in E. pose proof (same_token_filter r _ Hr Hl) as Hf. fold v0 in Hf.
  rewrite with_number_app, with_number_cons in Hf. fold v0 in Hf. rewrite H1, Z.eqb_refl in Hf. cbn [app] in Hf.
  destruct (List.filter (same_token r) (l1 ++ r :: l2)) as [|q [|q' fs]]; [done|by injection Hf as _ <-|].
  cbn in Hf. injection Hf as Hq Hf. by rewrite decide_True in E.
Qed.

Lemma freed_gone a s x s' : (r ← RBL_REMOVE (K := token_key) a; free_element a;; mret r) s = Some (x, s') ->
  elements s' !! a = None.
Proof.
  intros (r & s1 & _ & E)%run_bind_inv. apply run_bind_inv in E as (u & s2 & E2 & E). injection E as _ <-.
  injection E2 as _ <-. apply lookup_delete_eq.
Qed.

Lemma filter_absent (a : positive) (l : list positive) : a ∉ l -> filter (fun x => x <> a) l = l.
Proof.
  induction l as [|x l IH]; [done|]. rewrite not_elem_of_cons. intros [Hx Hl]. rewrite filter_cons_True by congruence.
  by rewrite IH.
Qed.

(** The chains after a request has left. *)
Lemma chains_done a v0 k (m : gmap Z (list positive)) (W1 W2 : list positive) :
  key_value (KeyOrder := token_order n) k = v0 -> a ∉ W1 -> a ∉ W2 -> (W1 = [] -> W2 = []) ->
  default [] (m !! v0) ≡ₚ W1 ++ a :: W2 -> m !! v0 ≫= head = head (W1 ++ a :: W2) ->
  exists m', lists_run RBRequestTokenCmp (H := token_order n) (Done a k) m = Some (Some a, m') /\
    default [] (m' !! v0) ≡ₚ W1 ++ W2 /\ m' !! v0 ≫= head = head (W1 ++ W2) /\ forall v, v <> v0 -> m' !! v = m !! v.
Proof.
  intros Ek H1 H2 He Hp Hh. cbn [lists_run]. rewrite Ek. destruct (m !! v0) as [xs|] eqn:Em; cbn [default mbind option_bind] in *; unfold id in *.
  2: { apply Permutation_nil_l in Hp. by destruct W1. }
  destruct W1 as [|b W1].
  - rewrite He in * by done. apply Permutation_singleton_r in Hp as ->. rewrite decide_True by done. eexists. split; [done|].
    rewrite lookup_delete_eq. split; [done|]. split; [done|]. intros v Hv. by apply lookup_delete_ne.
  - destruct xs as [|c [|d xs]]; [done| |].
    { apply Permutation_length in Hp. cbn in Hp. rewrite length_app in Hp. cbn in Hp. lia. }
    injection Hh as ->. rewrite decide_True.
    2: { split; [intros [= ->]; apply H1; by left|]. rewrite Hp. apply elem_of_app. right. by left. }
    eexists. split; [done|]. rewrite lookup_insert_eq. cbn [default mbind option_bind]. unfold id. split.
    + rewrite Hp, filter_app, (filter_cons_False _ a W2) by (intros Hx; by apply Hx).
      rewrite (filter_absent a (b :: W1) H1), (filter_absent a W2 H2). done.
    + split; [rewrite filter_cons_True; [done|intros ->; apply H1; by left]|]. intros v Hv. by apply lookup_insert_ne.
Qed.

Lemma holds_delete s l a r l' : tree_holds s l -> node_at a l = Some r -> table_remove r l = Some l' ->
  exists s', table_tree_run (DeleteRequest a) s = Some (Some a, s') /\ tree_holds s' l'.
Proof.
  intros (Hd & Hk & Hdom & m & Hg & Hm) Ha Hrm. apply node_at_addr in Ha as [<- Hin].
  change (node_addr r) with (sr_addr r). apply list_elem_of_split in Hin as (l1 & l2 & ->).
  pose proof Hk as [Hk1 [Hr Hk2]%Forall_cons]%Forall_app. rewrite fmap_app in Hd. cbn [fmap list_fmap] in Hd.
  apply NoDup_app in Hd as (Hd1 & Hx & Hd2). apply NoDup_cons in Hd2 as [H2 Hd2].
  assert (sr_addr r ∉ sr_addr <$> l1) as H1 by (intros Hin; apply (Hx _ Hin); by left).
  destruct (table_remove_chain r l1 l2 l' Hr Hk H1 Hrm) as [-> He]. set (v0 := token_number (request_key r)) in *.
  destruct (Hm v0) as [Hp Hh]. rewrite with_number_app, with_number_cons in Hp, Hh. fold v0 in Hp, Hh. rewrite Z.eqb_refl in Hp, Hh.
  destruct (chains_done (sr_addr r) v0 (request_key r) m (with_number v0 l1) (with_number v0 l2)) as (m' & Em & Hp' & Hh' & Ho);
    [done|by intros ?%with_number_in|by intros ?%with_number_in|done|done|done|].
  destruct (grouped_done RBRequestTokenCmp (H := token_order n) s m _ _ _ m' Hg Em) as (s' & Es & Hg' & Hd').
  exists s'. split; [exact Es|]. pose proof (freed_gone (sr_addr r) s _ s' Es) as Hgone. unfold tree_holds. rewrite fmap_app.
  split; [apply NoDup_app; split; [done|]; split; [intros x Hx1 Hx2; apply (Hx x Hx1); by right|done]|].
  split; [by apply Forall_app|]. split.
  { intros x Hs. assert (is_Some (elements s !! x)) as Hs' by (apply elem_of_dom, Hd', elem_of_dom; exact Hs).
    specialize (Hdom x Hs'). rewrite fmap_app in Hdom. cbn [fmap list_fmap] in Hdom.
    apply elem_of_app in Hdom as [Hx1|Hx2]; apply elem_of_app; [by left|]. apply elem_of_cons in Hx2 as [->|Hx2]; [|by right].
    rewrite Hgone in Hs. by destruct Hs. }
  exists m'. split; [exact Hg'|]. intros v. rewrite with_number_app. destruct (decide (v = v0)) as [->|Hv]; [done|].
  rewrite Ho by done. destruct (Hm v) as [Hpv Hhv]. rewrite with_number_app, with_number_cons in Hpv, Hhv. fold v0 in Hpv, Hhv.
  by rewrite (proj2 (Z.eqb_neq v0 v)) in Hpv, Hhv by congruence.
Qed.

Lemma tree_holds_initial : tree_holds RB_INITIALIZER [].
Proof.
  split; [apply NoDup_nil_2|]. split; [constructor|]. split; [by intros a [x Hx]|].
  exists ∅. split; [apply grouped_initial|]. intros v. by rewrite lookup_empty.
Qed.

(** One operation. *)
Lemma request_table_step (o : table_op) s l res l' : tree_holds s l -> table_op_ok o -> table_run o l = Some (res, l') ->
  exists s', table_tree_run o s = Some (res, s') /\ tree_holds s' l'.
Proof.
  intros Hs Ho E. destruct o as [r|t|a]; cbn [table_run] in E.
  - case_decide; [done|]. injection E as <- <-. by apply holds_add.
  - injection E as <- <-. destruct Ho. exists s. split; [by apply holds_find|done].
  - apply bind_Some_inv in E as (r & Er & E). apply bind_Some_inv in E as (l1 & El & E). injection E as <- <-.
    by apply (holds_delete s l a r).
Qed.

Fixpoint table_runs (os : list table_op) (l : list OCServerRequest) : option (list (option positive) * list OCServerRequest) :=
  match os with
  | [] => Some ([], l)
  | o :: os => '(r, l) ← table_run o l; '(rs, l) ← table_runs os l; Some (r :: rs, l)
  end.

Fixpoint table_tree_runs (os : list table_op) : M (RB_HEAD token_key) (list (option positive)) :=
  match os with [] => mret [] | o :: os => r ← table_tree_run o; rs ← table_tree_runs os; mret (r :: rs) end.

(** C37: the table of requests, to which [table_insert] adds at the end and from
    which [table_remove] takes, is what the red-black tree with its chains
    holds: for tokens of one length, adding, looking for and deleting requests
    in the tree ends without undefined behaviour, returns what the list
    returns, and leaves a tree that holds the requests of the list.  Deleting
    the first of several requests with one token is left out: [table_remove]
    is undefined there. *)
Theorem request_table_refined (os : list table_op) rs l : Forall table_op_ok os -> table_runs os [] = Some (rs, l) ->
  exists s, table_tree_runs os RB_INITIALIZER = Some (rs, s) /\ tree_holds s l.
Proof.
  assert (forall s l0, tree_holds s l0 -> Forall table_op_ok os -> table_runs os l0 = Some (rs, l) ->
    exists s', table_tree_runs os s = Some (rs, s') /\ tree_holds s' l) as H; [|by apply H, tree_holds_initial].
  revert rs. induction os as [|o os IH]; intros rs s l0 Hs Ho E; cbn [table_runs table_tree_runs] in *.
  { injection E as <- <-. by exists s. }
  apply Forall_cons in Ho as [Ho Hos]. apply bind_Some_inv in E as ([r l1] & E1 & E). apply bind_Some_inv in E as ([rs2 l2] & E2 & E).
  injection E as <- <-. destruct (request_table_step o s l0 r l1 Hs Ho E1) as (s1 & Er & Hs1).
  destruct (IH rs2 s1 l1 Hs1 Hos E2) as (s2 & Ers & Hs2). exists s2. split; [|done]. step Er. by step Ers.
Qed.

(** A server whose requests are in the tree. *)
Definition with_request_tree (e : ServerEnv) : ServerEnv := {|
  find_request := tree_find_request;
  find_response := find_response;
  convert_payload := convert_payload;
  send_result := send_result;
|}.

Lemma tree_absent (e : ServerEnv) (l : list OCServerRequest) (t : list Z) :
  NoDup (sr_addr <$> l) -> Forall (fun r => token_ok n (request_key r)) l -> length t = n -> Forall is_byte t ->
  Forall (fun r => requestToken r <> Some t) l ->
  find_request (ServerEnv := with_request_tree e) l (Some t) (Z.of_nat n) = Some None.
Proof.
  intros Hd Hk Ht Hb Hn. cbn [find_request with_request_tree]. rewrite tree_find_by_token by done. f_equal.
  induction Hn as [|r l Hr Hn IH]; [done|]. cbn. rewrite bool_decide_false by done. apply IH; [by inversion Hd|by inversion Hk].
Qed.
End Requests.

(** ** Where the trees are not safe *)

(** Looking for a longer token than that of the element at the root. *)
Lemma find_overread s a x t u : rbh_root s = Some a -> elements s !! a = Some x ->
  tk_token (elm_key x) = Some u -> (length u < length t)%nat ->
  RB_FIND RBRequestTokenCmp {| tk_token := Some t; tk_length := Z.of_nat (length t) |} s = None.
Proof.
  intros Hr Ex Eu Hl. unfold RB_FIND, fuel_of. step (run_gets _ _). step (run_gets _ _). rewrite Hr.
  apply run_bind_undef. cbn [search]. step (deref_at a x s Ex). apply run_bind_undef. unfold lift, RBRequestTokenCmp, memcmp.
  cbn [tk_token tk_length]. rewrite Eu.
  assert (read_at u 0 (Z.of_nat (length t)) = None) as -> by (unfold read_at; rewrite decide_False by lia; done).
  by destruct (read_at t _ _).
Qed.

Lemma add_first n k a : token_ok n k -> exists s x,
  rbl_run RBRequestTokenCmp (Add a k) RB_INITIALIZER = Some (Some a, s) /\ rbh_root s = Some a /\
  elements s !! a = Some x /\ elm_key x = k.
Proof.
  intros Hk. pose proof (implements_initial RBRequestTokenCmp (H := token_order n)) as (l & Ht & Hm).
  destruct (added_tree RBRequestTokenCmp (H := token_order n) _ l a k Ht (lookup_empty a)) as (Ht1 & Hal & Ea & _).
  set (s0 := added a k RB_INITIALIZER) in *. assert (l = []) as ->.
  { destruct Ht as (t & (Hr & _) & _ & <- & _). by destruct t. }
  destruct (insert_run RBRequestTokenCmp (H := token_order n) s0 [] a _ Ht1 Ea Hk Hal) as [(b & _ & Eb)|(s1 & l1 & l2 & E & El & Ht2 & R1 & _)]; [done|].
  symmetry in El. apply app_nil in El as [-> ->]. destruct Ht2 as (t & (Hr & _) & _ & Ei & _).
  assert (root t = Some a) as Et.
  { destruct t as [|c tl b tr]; [done|]. cbn in Ei |- *. destruct (inorder tl) as [|? [|? ?]]; cbn in Ei; by injection Ei as ->. }
  specialize (R1 a). unfold rest in R1. rewrite Ea in R1. destruct (elements s1 !! a) as [x|] eqn:Ex; [|done].
  exists s1, x. split; [|split; [by rewrite Hr|split; [done|by injection R1]]].
  cbn [rbl_run]. change ((add_element a k;; RBL_INSERT RBRequestTokenCmp a) RB_INITIALIZER) with (RBL_INSERT RBRequestTokenCmp a s0).
  unfold RBL_INSERT. by step E.
Qed.

(** C40: while a request is waiting, looking for a token that is longer than the
    one of the request compares bytes behind the end of the latter. *)
Theorem longer_token_overread (r : OCServerRequest) (u t : list Z) : requestToken r = Some u ->
  sr_tokenLength r = Z.of_nat (length u) -> Forall is_byte u -> (length u < length t)%nat ->
  tree_find_request [r] (Some t) (Z.of_nat (length t)) = None.
Proof.
  intros Eu El Hb Hl. destruct (add_first (length u) (request_key r) (sr_addr r)) as (s & x & E & Hr & Ex & Ek); [by exists u|].
  assert (request_tree [r] RB_INITIALIZER = Some ([Some (sr_addr r)], s)) as Er
    by (unfold request_tree; cbn [fmap list_fmap rbl_runs]; by step E).
  unfold tree_find_request. rewrite Er. cbn [mbind option_bind].
  by rewrite (find_overread s (sr_addr r) x t u) by (done || by rewrite Ek).
Qed.

(** ** At concrete inputs *)

Definition sample_key (b : Z) : token_key := {| tk_token := Some [b]; tk_length := 1 |}.

Lemma sample_key_ok b : is_byte b -> token_ok 1 (sample_key b).
Proof. intros Hb. exists [b]. split_and!; try done. by constructor. Qed.

Ltac sample_keys := repeat constructor; apply sample_key_ok; unfold is_byte; lia.

(** Seven insertions, a key that is there already, and removals of a leaf, of a
    node with two children and of a key that is not there. *)
Definition sample_ops : list (tree_op (K := token_key)) :=
  [Insert 1 (sample_key 10); Insert 2 (sample_key 20); Insert 3 (sample_key 30); Insert 4 (sample_key 40);
   Insert 5 (sample_key 50); Insert 6 (sample_key 60); Insert 7 (sample_key 70); Insert 8 (sample_key 40);
   Remove (sample_key 70); Remove (sample_key 20); Remove (sample_key 99); Find (sample_key 40)].

Lemma rb_tree_refines_map_witness : exists s,
  tree_runs RBRequestTokenCmp sample_ops RB_INITIALIZER =
    Some ([None; None; None; None; None; None; None; Some 4; Some 7; Some 2; None; Some 4]%positive, s).
Proof.
  destruct (rb_tree_refines_map RBRequestTokenCmp (H := token_order 1) sample_ops) as (s & E & _).
  - unfold sample_ops. sample_keys.
  - apply (bool_decide_unpack _). vm_compute. exact I.
  - exists s. rewrite E. vm_compute. reflexivity.
Defined.

(** Three with one key of which the second and then the third leave. *)
Definition sample_list_ops : list (list_op (K := token_key)) :=
  [Add 1 (sample_key 10); Add 2 (sample_key 20); Add 3 (sample_key 10); Add 4 (sample_key 10);
   Done 3 (sample_key 10); First (sample_key 10); Done 4 (sample_key 10); Done 1 (sample_key 10); First (sample_key 10)].

Lemma rbl_tree_refines_lists_witness : exists s,
  rbl_runs RBRequestTokenCmp sample_list_ops RB_INITIALIZER =
    Some ([Some 1; Some 2; Some 3; Some 4; Some 3; Some 1; Some 4; Some 1; None]%positive, s).
Proof.
  destruct (rbl_tree_refines_lists RBRequestTokenCmp (H := token_order 1) sample_list_ops
    [Some 1; Some 2; Some 3; Some 4; Some 3; Some 1; Some 4; Some 1; None]%positive {[ 20 := [2%positive] ]}) as (s & E & _).
  - unfold sample_list_ops. sample_keys.
  - apply (bool_decide_unpack _). vm_compute. exact I.
  - vm_compute. reflexivity.
  - by exists s.
Defined.

Definition sample_pair : list (list_op (K := token_key)) := [Add 1 (sample_key 10); Add 2 (sample_key 10)].
Definition sample_pair_tree : RB_HEAD token_key :=
  match rbl_runs RBRequestTokenCmp sample_pair RB_INITIALIZER with Some (_, s) => s | None => RB_INITIALIZER end.

Lemma sample_pair_grouped : grouped RBRequestTokenCmp (H := token_order 1) sample_pair_tree {[ 10 := [1; 2]%positive ]}.
Proof.
  destruct (grouped_runs RBRequestTokenCmp (H := token_order 1) sample_pair RB_INITIALIZER ∅ [Some 1; Some 2]%positive
    {[ 10 := [1; 2]%positive ]} (grouped_initial _)) as (s & E & Hg).
  - unfold sample_pair. sample_keys.
  - apply (bool_decide_unpack _). vm_compute. exact I.
  - by intros a _.
  - vm_compute. reflexivity.
  - unfold sample_pair_tree. by rewrite E.
Qed.

Lemma first_at_root_dangling_witness :
  (rbl_run RBRequestTokenCmp (Done 1 (sample_key 10));; rbl_run RBRequestTokenCmp (First (sample_key 10))) sample_pair_tree = None.
Proof.
  destruct (first_at_root_dangling RBRequestTokenCmp (H := token_order 1) sample_pair_tree {[ 10 := [1; 2]%positive ]} (sample_key 10) 1 2 []
    sample_pair_grouped) as (s & E & _ & _ & Hf); [vm_compute; reflexivity..|].
  rewrite (run_bind _ _ _ _ _ E). apply Hf.
Defined.

Definition waiting (a : positive) (t : list Z) : OCServerRequest := {|
  sr_addr := a; sr_method := OC_REST_GET; sr_acceptFormat := OC_FORMAT_VND_OCF_CBOR; sr_acceptVersion := 2048;
  resourceUrl := chars "/c"; query := []; qos := OC_LOW_QOS; observationOption := 2; observeResult := OC_STACK_ERROR;
  numResponses := 1; ehResponseHandler := HandleSingle; sr_devAddr := sample_dev; requestToken := Some t;
  sr_tokenLength := Z.of_nat (length t); coapID := 77; delayedResNeeded := 0; numRcvdVendorSpecificHeaderOptions := 0;
  rcvdVendorSpecificHeaderOptions := zero_options; requestComplete := false; slowFlag := false; notificationFlag := false;
  sr_payloadFormat := OC_FORMAT_CBOR; sr_payloadSize := 0; sr_payload := [0] |}.

Lemma waiting_ok a t : Forall is_byte t -> token_ok (length t) (request_key (waiting a t)).
Proof. intros Ht. by exists t. Qed.

Lemma request_found_by_token_witness :
  tree_find_request [waiting 1 [1; 2]; waiting 2 [9; 9]; waiting 3 [1; 2]] (Some [9; 9]) 2 = Some (Some 2%positive).
Proof.
  etransitivity; [apply (request_found_by_token 2 [waiting 1 [1; 2]; waiting 2 [9; 9]; waiting 3 [1; 2]] [9; 9])|].
  - apply (bool_decide_unpack _). vm_compute. exact I.
  - repeat constructor; apply waiting_ok; repeat constructor; unfold is_byte; lia.
  - reflexivity.
  - repeat constructor; unfold is_byte; lia.
  - reflexivity.
Defined.

Lemma longer_token_overread_witness : tree_find_request [waiting 1 [7]] (Some [7; 7]) 2 = None.
Proof.
  apply (longer_token_overread (waiting 1 [7]) [7] [7; 7]); [reflexivity|reflexivity| |cbn; lia].
  repeat constructor; unfold is_byte; lia.
Defined.

Lemma refused_element_empties_tree_witness :
  exists s s', RB_REMOVE (Some 2%positive) s = Some (Some 2%positive, s') /\ elements s' !! 1%positive <> None /\
    RB_FIND RBRequestTokenCmp (sample_key 10) s' = Some (None, s').
Proof.
  destruct (runs_implement RBRequestTokenCmp (H := token_order 1) [Insert 1 (sample_key 10)] RB_INITIALIZER ∅) as (s & E & Hi);
    [apply implements_initial|sample_keys|apply (bool_decide_unpack _); vm_compute; exact I|by intros a _|].
  assert (s = match tree_runs RBRequestTokenCmp [Insert 1 (sample_key 10)] RB_INITIALIZER with Some (_, s) => s | None => RB_INITIALIZER end) as Es
    by (by rewrite E).
  destruct (refused_element_empties_tree RBRequestTokenCmp (H := token_order 1) s _ 2 (sample_key 10) 1 Hi) as (s1 & E1 & s2 & E2 & Hf);
    [rewrite Es; vm_compute; reflexivity|apply sample_key_ok; unfold is_byte; lia|vm_compute; reflexivity|].
  exists s1, s2. split; [exact E2|]. split; [|apply Hf].
  assert (RB_REMOVE (Some 2%positive) s1 = Some (Some 2%positive, s2)) as E3 by exact E2.
  subst s. vm_compute in E1. injection E1 as <-. vm_compute in E3. injection E3 as <-. vm_compute. discriminate.
Defined.

(** Three requests, two with one token, of which the second leaves before the
    first. *)
Definition request_with (a : positive) (tok : list Z) : OCServerRequest := {|
  sr_addr := a; sr_method := OC_REST_GET; sr_acceptFormat := OC_FORMAT_CBOR; sr_acceptVersion := 0; resourceUrl := [];
  query := []; qos := OC_LOW_QOS; observationOption := 2; observeResult := OC_STACK_ERROR; numResponses := 1;
  ehResponseHandler := HandleSingle; sr_devAddr := sample_dev; requestToken := Some tok;
  sr_tokenLength := Z.of_nat (length tok); coapID := 0; delayedResNeeded := 0; numRcvdVendorSpecificHeaderOptions := 0;
  rcvdVendorSpecificHeaderOptions := []; requestComplete := false; slowFlag := false; notificationFlag := false;
  sr_payloadFormat := OC_FORMAT_CBOR; sr_payloadSize := 0; sr_payload := [0] |}.

Definition sample_table_ops : list table_op :=
  [AddRequest (request_with 1 [10]); AddRequest (request_with 2 [20]); AddRequest (request_with 3 [10]);
   FindRequest [10]; DeleteRequest 3; FindRequest [20]; DeleteRequest 1; FindRequest [10];
   AddRequest (request_with 1 [30]); FindRequest [30]].

Lemma request_table_refined_witness : exists s,
  table_tree_runs 1 sample_table_ops RB_INITIALIZER =
    Some ([Some 1; Some 2; Some 3; Some 1; Some 3; Some 2; Some 1; None; Some 1; Some 1]%positive, s) /\
  tree_holds 1 s [request_with 2 [20]; request_with 1 [30]].
Proof.
  apply request_table_refined; [|vm_compute; reflexivity].
  unfold sample_table_ops. repeat constructor; try done; (eexists; split; [reflexivity|]); split_and!; try done;
    repeat constructor; unfold is_byte; lia.
Defined.
