(* ===== verification/Resources.v ===== *)
(** * Resources: the server side of the stack and how a request finds its resource

    Models the parts of [csdk/stack/src/ocresource.c] and
    [csdk/stack/src/ocstack.c] that look up resources and decide how a request
    is handled: [FindResourceByUri], [GetTypeOfVirtualURI],
    [DetermineResourceHandling], the request handed to the application and what
    its result becomes; with them [GetTicks] and the state that the files about
    observers and requests share.  Built with [WITH_PRESENCE], without gateway
    and message queue; the transports are members of [StackEnv]. *)
From S2P Require Import Prelude Effects Heap CaCommon CaMessage StackTypes Payload Endpoint Discovery ServerRequest.

(** ** Resources and their observers *)

(** The pointer [next] is the order of the list that holds the observer. *)
Record ResourceObserver := {
  ro_addr : positive;
  observeId : Z;
  resUri : list Z;
  ro_query : option (list Z);
  ro_token : option (list Z);
  ro_tokenLength : Z;
  ro_devAddr : OCDevAddr;
  ro_qos : OCQualityOfService;
  failedCommCount : Z;
  lowQosCount : Z;
  forceHighQos : Z;
  ro_TTL : Z;
  ro_acceptFormat : OCPayloadFormat;
  ro_acceptVersion : Z;
}.
#[export] Instance ResourceObserver_Node : Node ResourceObserver := ro_addr.

(** The name and the value of an attribute.  [attrValue] is a [void *]: a text or
    a list of texts, by the name of the attribute. *)
Inductive attr_value :=
| NoValue
| TextValue (s : string)
| ListValue (l : OCStringLL).

Record OCAttribute := {
  attrName : option string;
  attrValue : attr_value;
}.

(** A type and an interface of the lists [rsrcType] and [rsrcInterface] is its
    name.  The members of a collection are pointers to resources, of which
    nothing is known here.  [None] in the list of attributes is a node that has
    been freed and that a pointer still leads to.  A handler is a number, with
    its parameter, [None] for NULL. *)
Record OCResource := {
  rs_addr : positive;
  rs_uri : option (list Z);
  rsrcType : list string;
  rsrcInterface : list string;
  rsrcAttributes : list (option OCAttribute);
  rsrcChildResourcesHead : list positive;
  entityHandler : option Z;
  rs_properties : Z;
  observersHead : list ResourceObserver;
  sequenceNum : Z;
  endpointType : Z;
}.
#[export] Instance OCResource_Node : Node OCResource := rs_addr.

(** The number of [defaultResourceEHandler]. *)
Definition defaultResourceEHandler : Z := 0.

Definition set_observers (l : list ResourceObserver) (r : OCResource) : OCResource := {|
  rs_addr := rs_addr r; rs_uri := rs_uri r; rsrcType := rsrcType r; rsrcInterface := rsrcInterface r;
  rsrcAttributes := rsrcAttributes r; rsrcChildResourcesHead := rsrcChildResourcesHead r;
  entityHandler := entityHandler r; rs_properties := rs_properties r; observersHead := l;
  sequenceNum := sequenceNum r; endpointType := endpointType r |}.
Definition set_sequenceNum (n : Z) (r : OCResource) : OCResource := {|
  rs_addr := rs_addr r; rs_uri := rs_uri r; rsrcType := rsrcType r; rsrcInterface := rsrcInterface r;
  rsrcAttributes := rsrcAttributes r; rsrcChildResourcesHead := rsrcChildResourcesHead r;
  entityHandler := entityHandler r; rs_properties := rs_properties r; observersHead := observersHead r;
  sequenceNum := n; endpointType := endpointType r |}.

(** ** State *)

(** The answers of [OCGetRandomBytes] for one byte, [None] for a failure; the
    clock of libcoap in ticks, an [unsigned int]; [presenceResource]; requests the
    stack has sent in place of an acknowledgement. *)
Record stack := {
  st_server : server;
  headResource : list OCResource;
  st_random : list (option Z);
  coap_clock : Z;
  presence_handle : option positive;
  presenceTTL : Z;
  st_posted : list (OCDevAddr * CARequestInfo_t);
}.

Definition set_server (v : server) (s : stack) : stack := {|
  st_server := v; headResource := headResource s; st_random := st_random s; coap_clock := coap_clock s;
  presence_handle := presence_handle s; presenceTTL := presenceTTL s; st_posted := st_posted s |}.
Definition set_resources (l : list OCResource) (s : stack) : stack := {|
  st_server := st_server s; headResource := l; st_random := st_random s; coap_clock := coap_clock s;
  presence_handle := presence_handle s; presenceTTL := presenceTTL s; st_posted := st_posted s |}.
Definition set_random (l : list (option Z)) (s : stack) : stack := {|
  st_server := st_server s; headResource := headResource s; st_random := l; coap_clock := coap_clock s;
  presence_handle := presence_handle s; presenceTTL := presenceTTL s; st_posted := st_posted s |}.

Definition add_posted (e : OCDevAddr) (r : CARequestInfo_t) (s : stack) : stack := {|
  st_server := st_server s; headResource := headResource s; st_random := st_random s; coap_clock := coap_clock s;
  presence_handle := presence_handle s; presenceTTL := presenceTTL s; st_posted := st_posted s ++ [(e, r)] |}.

Definition stack_heap (s : stack) : heap := sv_heap (st_server s).
Definition set_stack_heap (h : heap) (s : stack) : stack := set_server (set_sv_heap h (st_server s)) s.

#[export] Program Instance stack_HasHeap : HasHeap stack := {| heap_of := stack_heap; with_heap := set_stack_heap |}.
Next Obligation. done. Qed.
Next Obligation. by intros [[] ?]. Qed.
Next Obligation. done. Qed.

(** An operation on the tables of requests and responses. *)
Definition in_server {A} (m : M server A) : M stack A := fun s =>
  match m (st_server s) with Some (a, v) => Some (a, set_server v s) | None => None end.

Definition resource_at (a : positive) : M stack OCResource := l ← gets headResource; lift (node_at a l).
Definition on_resource (a : positive) (f : OCResource -> OCResource) : M stack unit :=
  modify (fun s => set_resources (on_addr a f (headResource s)) s).

(** An observer is reached through its resource; one that has been deleted is
    not there. *)
Definition observer_at (res o : positive) : M stack ResourceObserver :=
  r ← resource_at res; lift (node_at o (observersHead r)).
Definition on_observer (res o : positive) (f : ResourceObserver -> ResourceObserver) : M stack unit :=
  _ ← observer_at res o; on_resource res (fun r => set_observers (on_addr o f (observersHead r)) r).

(** The nodes of the two kinds of lists. *)
Definition observers_of (res : positive) : M stack (list positive) := r ← resource_at res; mret (addrs (observersHead r)).
Definition all_resources : M stack (list positive) := l ← gets headResource; mret (addrs l).

Definition set_observeResult (x : OCStackResult) (r : OCServerRequest) : OCServerRequest := {|
  sr_addr := sr_addr r; sr_method := sr_method r; sr_acceptFormat := sr_acceptFormat r;
  sr_acceptVersion := sr_acceptVersion r; resourceUrl := resourceUrl r; query := query r; qos := qos r;
  observationOption := observationOption r; observeResult := x; numResponses := numResponses r;
  ehResponseHandler := ehResponseHandler r; sr_devAddr := sr_devAddr r; requestToken := requestToken r;
  sr_tokenLength := sr_tokenLength r; coapID := coapID r; delayedResNeeded := delayedResNeeded r;
  numRcvdVendorSpecificHeaderOptions := numRcvdVendorSpecificHeaderOptions r;
  rcvdVendorSpecificHeaderOptions := rcvdVendorSpecificHeaderOptions r; requestComplete := requestComplete r;
  slowFlag := slowFlag r; notificationFlag := notificationFlag r; sr_payloadFormat := sr_payloadFormat r;
  sr_payloadSize := sr_payloadSize r; sr_payload := sr_payload r |}.
Definition set_observation (x : Z) (r : OCServerRequest) : OCServerRequest := {|
  sr_addr := sr_addr r; sr_method := sr_method r; sr_acceptFormat := sr_acceptFormat r;
  sr_acceptVersion := sr_acceptVersion r; resourceUrl := resourceUrl r; query := query r; qos := qos r;
  observationOption := x; observeResult := observeResult r; numResponses := numResponses r;
  ehResponseHandler := ehResponseHandler r; sr_devAddr := sr_devAddr r; requestToken := requestToken r;
  sr_tokenLength := sr_tokenLength r; coapID := coapID r; delayedResNeeded := delayedResNeeded r;
  numRcvdVendorSpecificHeaderOptions := numRcvdVendorSpecificHeaderOptions r;
  rcvdVendorSpecificHeaderOptions := rcvdVendorSpecificHeaderOptions r; requestComplete := requestComplete r;
  slowFlag := slowFlag r; notificationFlag := notificationFlag r; sr_payloadFormat := sr_payloadFormat r;
  sr_payloadSize := sr_payloadSize r; sr_payload := sr_payload r |}.
Definition set_flags (complete slow : bool) (r : OCServerRequest) : OCServerRequest := {|
  sr_addr := sr_addr r; sr_method := sr_method r; sr_acceptFormat := sr_acceptFormat r;
  sr_acceptVersion := sr_acceptVersion r; resourceUrl := resourceUrl r; query := query r; qos := qos r;
  observationOption := observationOption r; observeResult := observeResult r; numResponses := numResponses r;
  ehResponseHandler := ehResponseHandler r; sr_devAddr := sr_devAddr r; requestToken := requestToken r;
  sr_tokenLength := sr_tokenLength r; coapID := coapID r; delayedResNeeded := delayedResNeeded r;
  numRcvdVendorSpecificHeaderOptions := numRcvdVendorSpecificHeaderOptions r;
  rcvdVendorSpecificHeaderOptions := rcvdVendorSpecificHeaderOptions r; requestComplete := complete;
  slowFlag := slow; notificationFlag := notificationFlag r; sr_payloadFormat := sr_payloadFormat r;
  sr_payloadSize := sr_payloadSize r; sr_payload := sr_payload r |}.

(** A change of a request in the table. *)
Definition on_request (a : positive) (f : OCServerRequest -> OCServerRequest) : M stack unit :=
  in_server (_ ← request_at a; modify (fun s => set_requests (on_addr a f (requests s)) s)).

(** ** Going over a list while it may change

    [LL_FOREACH]: the pointer [next] of a node is followed after the body has
    run.  The body returns what it carries on, or what ends the loop.  A body
    that adds nodes without end would make the loop endless: the model goes as
    far as the list was long at the start and is undefined beyond. *)
Section Walk.
Context {St A B : Type} (nodes : M St (list positive)) (body : A -> positive -> M St (A + B)).

Fixpoint next_addr (a : positive) (l : list positive) : ub (option positive) :=
  match l with [] => None | x :: l' => if decide (x = a) then Some (head l') else next_addr a l' end.

Fixpoint walk (fuel : nat) (acc : A) (out : option positive) : M St (A + B) :=
  match out with
  | None => mret (inl acc)
  | Some o =>
      match fuel with
      | O => undefined
      | S fuel' =>
          x ← body acc o;
          match x with
          | inr b => mret (inr b)
          | inl acc' => l ← nodes; next ← lift (next_addr o l); walk fuel' acc' next
          end
      end
  end.

Definition LL_FOREACH (acc : A) : M St (A + B) := l ← nodes; walk (length l) acc (head l).

(** The body on each of a list of nodes. *)
Fixpoint each (acc : A) (l : list positive) : M St (A + B) :=
  match l with
  | [] => mret (inl acc)
  | o :: l' => x ← body acc o; match x with inr b => mret (inr b) | inl acc' => each acc' l' end
  end.

Lemma next_addr_middle pre o l : o ∉ pre -> next_addr o (pre ++ o :: l) = Some (head l).
Proof.
  induction pre as [|p pre IH]; cbn; intros Hn; [by rewrite decide_True|].
  rewrite decide_False by (intros ->; apply Hn; left). apply IH. intros Hx. apply Hn. by right.
Qed.

(** With a body that leaves the nodes as they are, the loop is over when the
    list is. *)
Lemma foreach_each (Inv : St -> Prop) L acc s : NoDup L -> Inv s ->
  (forall s, Inv s -> nodes s = Some (L, s)) ->
  (forall acc o s x s', o ∈ L -> Inv s -> body acc o s = Some (x, s') -> Inv s') ->
  LL_FOREACH acc s = each acc L s.
Proof.
  intros Hd Hs Hnodes Hbody. unfold LL_FOREACH. rewrite (run_bind _ _ _ _ _ (Hnodes s Hs)).
  assert (forall l pre acc s, L = pre ++ l -> Inv s -> walk (length l) acc (head l) s = each acc l s) as Hw.
  { clear s Hs acc. induction l as [|o l IH]; intros pre acc s E Hs; [done|]. cbn.
    destruct (body acc o s) as [[x s']|] eqn:Eb; [|by rewrite !run_bind_undef].
    rewrite !(run_bind _ _ _ _ _ Eb). destruct x as [acc'|b]; [|done].
    assert (Inv s') as Hs' by (eapply Hbody; [|done|exact Eb]; rewrite E; apply elem_of_app; right; left).
    rewrite (run_bind _ _ _ _ _ (Hnodes s' Hs')). rewrite E in Hd. apply NoDup_app in Hd as (_ & Hd & _).
    rewrite E, next_addr_middle by (intros Hx; apply (Hd _ Hx); left).
    rewrite (run_bind _ _ _ _ _ (run_lift _ _ _ eq_refl)). apply (IH (pre ++ [o])); [|done].
    by rewrite <- app_assoc. }
  by apply (Hw L []).
Qed.
End Walk.

(** ** The world around the stack *)

Definition OC_REQUEST_FLAG : Z := 2.
Definition OC_OBSERVE_FLAG : Z := 4.

(** [OCPayloadType] as far as it is passed. *)
Inductive payload_type := REPRESENTATION | SECURITY.

Record OCEntityHandlerRequest := {
  eh_resource : option positive;
  eh_request : option positive;
  eh_method : OCMethod;
  eh_devAddr : OCDevAddr;
  eh_query : option (list Z);
  eh_body : option OCPayload;
  numRcvdOptions : Z;
  rcvdOptions : option (list OCHeaderOption);
  obs_action : Z;
  obs_id : Z;
  eh_messageID : Z;
}.

(** The handlers of the application, which may call the stack; the parser of
    payloads, which rests on the CBOR library; what [CASendRequest] returns; and
    the parts of the stack that answer by themselves: [HandleVirtualResource]
    once it has seen to observers, [HandleKeepAliveRequest] and
    [DefaultCollectionEntityHandler]. *)
Class StackEnv := {
  stack_server :: ServerEnv;
  stack_mode : OCMode;
  with_tcp : bool;
  with_edr : bool;
  with_le : bool;
  with_nfc : bool;
  parse_payload : OCPayloadFormat -> payload_type -> list Z -> M heap (OCStackResult * option OCPayload);
  entity_handler : Z -> Z -> OCEntityHandlerRequest -> M stack OCEntityHandlerResult;
  default_device_handler : option (Z -> OCEntityHandlerRequest -> list Z -> M stack OCEntityHandlerResult);
  request_result : stack -> OCDevAddr -> CARequestInfo_t -> CAResult_t;
  virtual_response : positive -> option positive -> M stack OCStackResult;
  keepalive_response : positive -> option positive -> M stack OCStackResult;
  collection_handler : Z -> OCEntityHandlerRequest -> M stack OCStackResult;
}.

(** ** Time *)

Definition UINT32_MAX : Z := 2 ^ 32 - 1.
Definition COAP_TICKS_PER_SECOND : Z := 1024.
Definition MILLISECONDS_PER_SECOND : Z := 1000.

(** [coap_tick_t] is an [unsigned int], as is the product in the guard. *)
Definition GetTicks (now milliSeconds : Z) : Z :=
  if milliSeconds <=? u32 ((UINT32_MAX - now) * MILLISECONDS_PER_SECOND) / COAP_TICKS_PER_SECOND
  then u32 (now + u32 (milliSeconds * COAP_TICKS_PER_SECOND) / MILLISECONDS_PER_SECOND)
  else UINT32_MAX.

(** ** Finding a resource *)

(** [strcmp] reads the URI of each resource on the way. *)
Fixpoint find_uri (u : list Z) (l : list OCResource) : ub (option OCResource) :=
  match l with
  | [] => Some None
  | r :: l' => x ← rs_uri r; if decide (x = u) then Some (Some r) else find_uri u l'
  end.

Definition FindResourceByUri (uri : option (list Z)) : M stack (option positive) :=
  match uri with
  | None => mret None
  | Some u => l ← gets headResource; r ← lift (find_uri u l); mret (rs_addr <$> r)
  end.

Definition findResource (resource : positive) : M stack (option positive) :=
  l ← gets headResource; mret (if decide (resource ∈ addrs l) then Some resource else None).

Inductive OCVirtualResources :=
| OC_UNKNOWN_URI | OC_WELL_KNOWN_URI | OC_DEVICE_URI | OC_PLATFORM_URI | OC_RESOURCE_TYPES_URI | OC_PRESENCE
| OC_KEEPALIVE_RESOURCE_URI | OC_INTROSPECTION_URI | OC_INTROSPECTION_PAYLOAD_URI.
#[export] Instance OCVirtualResources_eq_dec : EqDecision OCVirtualResources.
Proof. solve_decision. Defined.

Definition OC_RSRVD_PRESENCE_URI : string := "/oic/ad".

(** The comparisons in their order. *)
Definition virtual_uris (tcp : bool) : list (string * OCVirtualResources) :=
  [(OC_RSRVD_WELL_KNOWN_URI, OC_WELL_KNOWN_URI); ("/oic/d"%string, OC_DEVICE_URI); ("/oic/p"%string, OC_PLATFORM_URI);
   ("/oic/res/types/d"%string, OC_RESOURCE_TYPES_URI); ("/introspection"%string, OC_INTROSPECTION_URI);
   ("/introspection/payload"%string, OC_INTROSPECTION_PAYLOAD_URI); (OC_RSRVD_PRESENCE_URI, OC_PRESENCE)] ++
  (if tcp then [("/oic/ping"%string, OC_KEEPALIVE_RESOURCE_URI)] else []).

Inductive ResourceHandling :=
| OC_RESOURCE_VIRTUAL | OC_RESOURCE_NOT_COLLECTION_WITH_ENTITYHANDLER
| OC_RESOURCE_NOT_COLLECTION_DEFAULT_ENTITYHANDLER | OC_RESOURCE_COLLECTION_WITH_ENTITYHANDLER
| OC_RESOURCE_COLLECTION_DEFAULT_ENTITYHANDLER | OC_RESOURCE_DEFAULT_DEVICE_ENTITYHANDLER | OC_RESOURCE_NOT_SPECIFIED.
#[export] Instance ResourceHandling_eq_dec : EqDecision ResourceHandling.
Proof. solve_decision. Defined.

Section Resources.
Context `{StackEnv}.

Definition GetTypeOfVirtualURI (uriInRequest : list Z) : OCVirtualResources :=
  match find (fun p => bool_decide (chars p.1 = uriInRequest)) (virtual_uris with_tcp) with
  | Some p => p.2
  | None => OC_UNKNOWN_URI
  end.

Definition CheckRequestsEndpoint (reqDevAddr : option OCDevAddr) (resTpsFlags : Z) : OCStackResult :=
  match reqDevAddr with
  | None => OC_STACK_INVALID_PARAM
  | Some d =>
      match OCGetMatchedTpsFlags with_tcp with_edr with_le with_nfc (adapter (dev_endpoint d)) (flags (dev_endpoint d)) (Some OC_NO_TPS) with
      | (OC_STACK_OK, t) => if bit (default OC_NO_TPS t) resTpsFlags then OC_STACK_OK else OC_STACK_BAD_ENDPOINT
      | (result, _) => result
      end
  end.

(** The handling and the resource, which keep their values where the code does
    not set them. *)
Definition DetermineResourceHandling (request : positive) (handling : ResourceHandling) (resource : option positive)
    : M stack (OCStackResult * ResourceHandling * option positive) :=
  r ← in_server (request_at request);
  if decide (GetTypeOfVirtualURI (resourceUrl r) <> OC_UNKNOWN_URI) then
    l ← gets headResource; mret (OC_STACK_OK, OC_RESOURCE_VIRTUAL, head (addrs l))
  else if decide (resourceUrl r = []) then mret (OC_STACK_NO_RESOURCE, OC_RESOURCE_NOT_SPECIFIED, resource)
  else
    resourcePtr ← FindResourceByUri (Some (resourceUrl r));
    match resourcePtr with
    | None =>
        match default_device_handler with
        | Some _ => mret (OC_STACK_OK, OC_RESOURCE_DEFAULT_DEVICE_ENTITYHANDLER, None)
        | None => mret (OC_STACK_NO_RESOURCE, OC_RESOURCE_NOT_SPECIFIED, None)
        end
    | Some a =>
        res ← resource_at a;
        match CheckRequestsEndpoint (Some (sr_devAddr r)) (endpointType res) with
        | OC_STACK_OK =>
            let own := bool_decide (entityHandler res <> Some defaultResourceEHandler) in
            mret (OC_STACK_OK,
                  match bool_decide (rsrcChildResourcesHead res <> []), own with
                  | true, true => OC_RESOURCE_COLLECTION_WITH_ENTITYHANDLER
                  | true, false => OC_RESOURCE_COLLECTION_DEFAULT_ENTITYHANDLER
                  | false, true => OC_RESOURCE_NOT_COLLECTION_WITH_ENTITYHANDLER
                  | false, false => OC_RESOURCE_NOT_COLLECTION_DEFAULT_ENTITYHANDLER
                  end, Some a)
        | result => mret (result, handling, Some a)
        end
    end.

(** ** Requests to the application *)

Definition FormOCEntityHandlerRequest (request : option positive) (method : OCMethod) (endpoint : OCDevAddr)
    (resource : option positive) (queryBuf : option (list Z)) (payloadType : payload_type) (payloadFormat : OCPayloadFormat)
    (payload : option (list Z)) (payloadSize numVendorOptions : Z) (vendorOptions : option (list OCHeaderOption))
    (observeAction observeID messageID : Z) : M stack (OCStackResult * OCEntityHandlerRequest) :=
  let formed p n os := {|
    eh_resource := resource; eh_request := request; eh_method := method; eh_devAddr := endpoint; eh_query := queryBuf;
    eh_body := p; numRcvdOptions := n; rcvdOptions := os; obs_action := observeAction; obs_id := observeID;
    eh_messageID := messageID |} in
  match payload with
  | Some p =>
      if payloadSize =? 0 then mret (OC_STACK_OK, formed None numVendorOptions vendorOptions)
      else
        bytes ← lift (read_at p 0 payloadSize);
        '(res, body) ← in_heap (parse_payload payloadFormat payloadType bytes);
        mret (if decide (res = OC_STACK_OK) then (OC_STACK_OK, formed body numVendorOptions vendorOptions)
              else (OC_STACK_ERROR, formed body 0 None))
  | None => mret (OC_STACK_OK, formed None numVendorOptions vendorOptions)
  end.

Definition OC_OBSERVE_REGISTER : Z := 0.
Definition OC_OBSERVE_DEREGISTER : Z := 1.
Definition OC_OBSERVE_NO_OPTION : Z := 2.

Definition EHRequest (ty : payload_type) (request : positive) (resource : option positive)
    : M stack (OCStackResult * OCEntityHandlerRequest) :=
  r ← in_server (request_at request);
  FormOCEntityHandlerRequest (Some request) (sr_method r) (sr_devAddr r) resource (Some (query r)) ty (sr_payloadFormat r)
    (Some (sr_payload r)) (sr_payloadSize r) (numRcvdVendorSpecificHeaderOptions r)
    (Some (rcvdVendorSpecificHeaderOptions r))
    (if notificationFlag r then OC_OBSERVE_NO_OPTION else observationOption r) 0 (coapID r).

Definition EntityHandlerCodeToOCStackCode (ehResult : OCEntityHandlerResult) : OCStackResult :=
  match ehResult with
  | OC_EH_OK | OC_EH_CONTENT | OC_EH_VALID => OC_STACK_OK
  | OC_EH_SLOW => OC_STACK_SLOW_RESOURCE
  | OC_EH_FORBIDDEN => OC_STACK_FORBIDDEN_REQ
  | OC_EH_INTERNAL_SERVER_ERROR => OC_STACK_INTERNAL_SERVER_ERROR
  | OC_EH_RESOURCE_CREATED => OC_STACK_RESOURCE_CREATED
  | OC_EH_RESOURCE_DELETED => OC_STACK_RESOURCE_DELETED
  | OC_EH_CHANGED => OC_STACK_RESOURCE_CHANGED
  | OC_EH_RESOURCE_NOT_FOUND => OC_STACK_NO_RESOURCE
  | OC_EH_BAD_REQ => OC_STACK_INVALID_QUERY
  | OC_EH_UNAUTHORIZED_REQ => OC_STACK_UNAUTHORIZED_REQ
  | OC_EH_BAD_OPT => OC_STACK_INVALID_OPTION
  | OC_EH_METHOD_NOT_ALLOWED => OC_STACK_INVALID_METHOD
  | OC_EH_NOT_ACCEPTABLE => OC_STACK_NOT_ACCEPTABLE
  | OC_EH_TOO_LARGE => OC_STACK_TOO_LARGE_REQ
  | OC_EH_SERVICE_UNAVAILABLE => OC_STACK_SERVICE_UNAVAILABLE
  | OC_EH_RETRANSMIT_TIMEOUT => OC_STACK_COMM_ERROR
  | _ => OC_STACK_ERROR
  end.
End Resources.

(** [incrementSequenceNumber] of [ocstack.c], on a number. *)
Definition OC_OFFSET_SEQUENCE_NUMBER : Z := 0.
Definition incrementSequenceNumber (n : Z) : Z :=
  let n := u32 (n + 1) in if n =? MAX_SEQUENCE_NUMBER then OC_OFFSET_SEQUENCE_NUMBER + 1 else n.

(** ** Long time-outs never come *)

(** Whatever the clock says, a time-out of more than 4194303 ms gets the last
    tick there is. *)
Lemma GetTicks_long now ms : 4194303 < ms -> GetTicks now ms = UINT32_MAX.
Proof.
  intros Hm. unfold GetTicks, COAP_TICKS_PER_SECOND. destruct (Z.leb_spec ms (u32 ((UINT32_MAX - now) * MILLISECONDS_PER_SECOND) / 1024)); [|done].
  pose proof (wrap_range 32 ((UINT32_MAX - now) * MILLISECONDS_PER_SECOND) ltac:(lia)) as Hr.
  assert (u32 ((UINT32_MAX - now) * MILLISECONDS_PER_SECOND) / 1024 <= 4294967295 / 1024) by (apply Z.div_le_mono; lia).
  change (4294967295 / 1024) with 4194303 in *. lia.
Qed.

Lemma GetTicks_range now ms : 0 <= now < 2 ^ 32 -> 0 <= GetTicks now ms < 2 ^ 32.
Proof. intros Hn. unfold GetTicks. case_match; [apply wrap_range; lia|unfold UINT32_MAX; lia]. Qed.

(** A time-out short of that comes when it should, while the product of the
    guard does not wrap. *)
Lemma GetTicks_short now ms : 0 <= ms -> 0 <= now < 2 ^ 32 -> (UINT32_MAX - now) * 1000 < 2 ^ 32 ->
  ms * 1024 <= (UINT32_MAX - now) * 1000 -> GetTicks now ms = now + ms * 1024 / 1000.
Proof.
  intros Hm Hn Hw Hg. unfold GetTicks, MILLISECONDS_PER_SECOND, COAP_TICKS_PER_SECOND, UINT32_MAX in *.
  rewrite (wrap_small 32 ((2 ^ 32 - 1 - now) * 1000)) by lia.
  destruct (Z.leb_spec ms ((2 ^ 32 - 1 - now) * 1000 / 1024)) as [_|Hx].
  - rewrite (wrap_small 32 (ms * 1024)) by lia. apply wrap_small.
    assert (ms * 1024 / 1000 <= (2 ^ 32 - 1 - now) * 1000 / 1000) by (apply Z.div_le_mono; lia).
    rewrite Z.div_mul in * by lia. pose proof (Z.div_pos (ms * 1024) 1000). lia.
  - assert (ms <= (2 ^ 32 - 1 - now) * 1000 / 1024) by (apply Z.div_le_lower_bound; lia). lia.
Qed.
