(* ===== verification/Observe.v ===== *)
(** * Observe: who observes a resource, and telling them

    Models [csdk/stack/src/ocobserve.c], with [IsObservationIdExisting] and
    [GetObserverFromResourceList] of [ocresource.c] and [OCStackFeedBack],
    [OCNotifyAllObservers] and [OCNotifyListOfObservers] of [ocstack.c].  A
    notification is a request of its own that goes through the handler of the
    resource; what handles it ([ProcessRequest]) is a variable here and is put
    in by the file about requests. *)
From S2P Require Import Prelude Effects OicString Heap CaCommon CaMessage StackTypes Payload Endpoint Discovery ServerRequest Resources.

Definition MAX_OBSERVER_FAILED_COMM : Z := 2.
Definition MAX_OBSERVER_NON_COUNT : Z := 3.
Definition MAX_OBSERVER_TTL_SECONDS : Z := 60 * 60 * 24.
Definition observer_ttl (now : Z) : Z := GetTicks now (MAX_OBSERVER_TTL_SECONDS * MILLISECONDS_PER_SECOND).
Definition sizeof_ResourceObserver : Z := 248.
Definition MAX_OBSERVE_AGE : Z := 0x2FFFF.
Definition OC_PRESENCE_TRIGGER_DELETE : Z := 2.
Definition OC_ACTIVE : Z := 4.

Definition set_lowQosCount (n : Z) (o : ResourceObserver) : ResourceObserver := {|
  ro_addr := ro_addr o; observeId := observeId o; resUri := resUri o; ro_query := ro_query o; ro_token := ro_token o;
  ro_tokenLength := ro_tokenLength o; ro_devAddr := ro_devAddr o; ro_qos := ro_qos o;
  failedCommCount := failedCommCount o; lowQosCount := n; forceHighQos := forceHighQos o; ro_TTL := ro_TTL o;
  ro_acceptFormat := ro_acceptFormat o; ro_acceptVersion := ro_acceptVersion o |}.
Definition set_TTL (t : Z) (o : ResourceObserver) : ResourceObserver := {|
  ro_addr := ro_addr o; observeId := observeId o; resUri := resUri o; ro_query := ro_query o; ro_token := ro_token o;
  ro_tokenLength := ro_tokenLength o; ro_devAddr := ro_devAddr o; ro_qos := ro_qos o;
  failedCommCount := failedCommCount o; lowQosCount := lowQosCount o; forceHighQos := forceHighQos o; ro_TTL := t;
  ro_acceptFormat := ro_acceptFormat o; ro_acceptVersion := ro_acceptVersion o |}.
Definition set_failures (failed force : Z) (o : ResourceObserver) : ResourceObserver := {|
  ro_addr := ro_addr o; observeId := observeId o; resUri := resUri o; ro_query := ro_query o; ro_token := ro_token o;
  ro_tokenLength := ro_tokenLength o; ro_devAddr := ro_devAddr o; ro_qos := ro_qos o;
  failedCommCount := failed; lowQosCount := lowQosCount o; forceHighQos := force; ro_TTL := ro_TTL o;
  ro_acceptFormat := ro_acceptFormat o; ro_acceptVersion := ro_acceptVersion o |}.

(** ** Quality of service *)

(** The observer after, and the quality of service. *)
Definition DetermineObserverQoS (method : OCMethod) (o : ResourceObserver) (appQoS : OCQualityOfService)
    : OCQualityOfService * ResourceObserver :=
  let decidedQoS := if decide (appQoS = OC_NA_QOS) then ro_qos o else appQoS in
  if decide (appQoS = OC_HIGH_QOS) then (decidedQoS, o)
  else if (negb (forceHighQos o =? 0) || (MAX_OBSERVER_NON_COUNT <=? lowQosCount o)) &&
          bool_decide (method <> OC_REST_PRESENCE)
  then (OC_HIGH_QOS, set_lowQosCount 0 o)
  else (decidedQoS, set_lowQosCount (u8 (lowQosCount o + 1)) o).

(** ** The option of an observation *)

(** The options after the new one, and what [caHdrOpt] points to. *)
Definition CreateObserveHeaderOption (caHdrOpt : option (option (list CAHeaderOption_t))) (ocHdrOpt : option (list OCHeaderOption))
    (numOptions observeFlag : Z) : M heap (OCStackResult * option (option (list CAHeaderOption_t))) :=
  match caHdrOpt with
  | None => mret (OC_STACK_INVALID_PARAM, None)
  | Some old =>
      if (0 <? numOptions) && bool_decide (ocHdrOpt = None) then mret (OC_STACK_INVALID_PARAM, Some old)
      else
        ok ← OICCalloc (numOptions + 1) sizeof_CAHeaderOption;
        if negb ok then mret (OC_STACK_NO_MEMORY, Some old)
        else
          data ← lift (write_at (optionData zero_option) 0 [observeFlag]);
          rest ← lift (match ocHdrOpt with
                       | Some l => if numOptions =? 0 then Some [] else read_at l 0 numOptions
                       | None => Some []
                       end);
          mret (OC_STACK_OK, Some (Some ({| protocolID := CA_COAP_ID; optionID := COAP_OPTION_OBSERVE;
                                            optionLength := 1; optionData := data |} :: rest)))
  end.

Definition is_observe (o : CAHeaderOption_t) : bool :=
  (protocolID o =? CA_COAP_ID) && (optionID o =? COAP_OPTION_OBSERVE).

(** The loop over [c] copies the same option every time. *)
Fixpoint shift_loop (i : Z) (n : nat) (l : list CAHeaderOption_t) : ub (list CAHeaderOption_t) :=
  match n with
  | O => Some l
  | S n' => o ← byte_at l (i + 1); l' ← write_at l i [o]; shift_loop i n' l'
  end.

Fixpoint observe_loop (i : Z) (n : nat) (l : list CAHeaderOption_t) : ub (option Z * list CAHeaderOption_t) :=
  match n with
  | O => Some (None, l)
  | S n' =>
      o ← byte_at l i;
      if is_observe o then
        v ← byte_at (optionData o) 0; l' ← shift_loop i n' l; Some (Some v, l')
      else observe_loop (i + 1) n' l
  end.

(** [observationOption], the options and their number after. *)
Definition GetObserveHeaderOption (observationOption : option Z) (options : option (list CAHeaderOption_t)) (numOptions : option Z)
    : ub (OCStackResult * option Z * option (list CAHeaderOption_t) * option Z) :=
  match observationOption with
  | None => Some (OC_STACK_INVALID_PARAM, None, options, numOptions)
  | Some old =>
      match options, numOptions with
      | Some l, Some n =>
          '(found, l') ← observe_loop 0 (Z.to_nat n) l;
          Some (match found with
                | Some v => (OC_STACK_OK, Some v, Some l', Some (n - 1))
                | None => (OC_STACK_OK, Some old, Some l', Some n)
                end)
      | _, _ => Some (OC_STACK_OK, Some old, options, numOptions)
      end
  end.

Section Observe.
Context `{StackEnv} (ProcessRequest : ResourceHandling -> option positive -> positive -> M stack OCStackResult).

(** ** Notifications *)

(** The request that stands for a notification. *)
Definition add_notification (o : ResourceObserver) (sequence : Z) (q : OCQualityOfService)
    : M stack (OCStackResult * option positive) :=
  in_server (AddServerRequest (Some None) 0 0 true OC_REST_GET 0 sequence q (ro_query o) None OC_FORMAT_UNDEFINED None
    (ro_token o) (ro_tokenLength o) (Some (resUri o)) 0 (ro_acceptFormat o) (ro_acceptVersion o) (Some (ro_devAddr o))).

Definition renew (res o : positive) : M stack unit :=
  now ← gets coap_clock; on_observer res o (set_TTL (observer_ttl now)).

Definition SendObserveNotification (res observer : positive) (sequence : Z) (q : OCQualityOfService) : M stack OCStackResult :=
  o ← observer_at res observer;
  '(result, request) ← add_notification o sequence q;
  match request with
  | None => mret result
  | Some r =>
      _ ← on_request r (set_observeResult OC_STACK_OK);
      match result with
      | OC_STACK_OK =>
          '(result, handling, resource) ← DetermineResourceHandling r OC_RESOURCE_VIRTUAL None;
          match result with
          | OC_STACK_OK => result ← ProcessRequest handling resource r; _ ← renew res observer; mret result
          | result => mret result
          end
      | result => mret result
      end
  end.

(** A response of the stack itself, for the presence of a resource and for a
    list of observers. *)
Definition stack_response (request : positive) (p : OCPayload) (uri : list Z) : OCEntityHandlerResponse := {|
  requestHandle := Some request; ehResult := OC_EH_OK; eh_payload := Some p;
  numSendVendorSpecificHeaderOptions := 0; sendVendorSpecificHeaderOptions := zero_options;
  eh_resourceUri := array_text MAX_URI_LENGTH uri |}.

(** [None] for the early return without memory. *)
Definition notify_presence (res observer : positive) (age trigger : Z) (rt : option string) (q : OCQualityOfService)
    : M stack (option OCStackResult) :=
  o ← observer_at res observer;
  r ← resource_at res;
  '(result, request) ← add_notification o (sequenceNum r) q;
  match result, request with
  | OC_STACK_OK, Some request =>
      p ← in_heap (OCPresencePayloadCreate (sequenceNum r) age trigger rt);
      match p with
      | None => mret None
      | Some p =>
          result ← in_server (OCDoResponse stack_mode (Some (stack_response request (PAYLOAD_TYPE_PRESENCE p) (resUri o))));
          _ ← in_heap (OCPresencePayloadDestroy (Some p));
          mret (Some result)
      end
  | OC_STACK_OK, None => undefined
  | result, _ => mret (Some result)
  end.

Record notify_state := { nt_qos : OCQualityOfService; nt_error : bool; nt_result : OCStackResult }.

(** One turn of the loop; the quality of service is carried to the next. *)
Definition notify_one (method : OCMethod) (res : positive) (age trigger : Z) (rt : option string)
    (st : notify_state) (observer : positive) : M stack (notify_state + OCStackResult) :=
  let fail q (result : OCStackResult) := inl {|
    nt_qos := q; nt_error := nt_error st || bool_decide (result <> OC_STACK_OK); nt_result := result |} in
  if decide (method = OC_REST_PRESENCE) then
    x ← notify_presence res observer age trigger rt (nt_qos st);
    mret (match x with None => inr OC_STACK_NO_MEMORY | Some result => fail (nt_qos st) result end)
  else
    o ← observer_at res observer;
    let '(q, o') := DetermineObserverQoS method o (nt_qos st) in
    _ ← on_observer res observer (fun _ => o');
    r ← resource_at res;
    result ← SendObserveNotification res observer (sequenceNum r) q;
    mret (fail q result).

Definition SendAllObserverNotification (method : OCMethod) (resPtr : option positive) (age trigger : Z)
    (rt : option string) (q : OCQualityOfService) : M stack OCStackResult :=
  match resPtr with
  | None => mret OC_STACK_INVALID_PARAM
  | Some res =>
      r ← resource_at res;
      match observersHead r with
      | [] => mret OC_STACK_NO_OBSERVERS
      | _ =>
          x ← LL_FOREACH (observers_of res) (notify_one method res age trigger rt)
                {| nt_qos := q; nt_error := false; nt_result := OC_STACK_ERROR |};
          mret (match x with
                | inr result => result
                | inl st => if nt_error st then OC_STACK_ERROR else nt_result st
                end)
      end
  end.

(** ** Finding an observer *)

Definition CheckTimedOutObserver (res observer : positive) : M stack unit :=
  o ← observer_at res observer;
  if ro_TTL o =? 0 then mret tt
  else
    now ← gets coap_clock;
    if ro_TTL o <? now then
      r ← resource_at res; _ ← SendObserveNotification res observer (sequenceNum r) OC_HIGH_QOS; mret tt
    else mret tt.

(** The two loops: what they look for is a test of an observer. *)
Definition look_at (hit : ResourceObserver -> ub bool) (res : positive) (_ : unit) (out : positive)
    : M stack (unit + positive) :=
  o ← observer_at res out;
  b ← lift (hit o);
  if b : bool then mret (inr out) else _ ← CheckTimedOutObserver res out; mret (inl tt).

Definition found {A} (x : unit + A) : option A := match x with inl _ => None | inr a => Some a end.

Definition find_observer (hit : ResourceObserver -> ub bool) (res : positive) : M stack (option positive) :=
  x ← LL_FOREACH (observers_of res) (look_at hit res) tt; mret (found x).

Definition GetObserverUsingId (res : positive) (id : Z) : M stack (option positive) :=
  find_observer (fun o => Some (observeId o =? id)) res.

(** As many bytes of each token as are asked for. *)
Definition GetObserverUsingToken (res : positive) (token : option (list Z)) (tokenLength : Z) : M stack (option positive) :=
  match token with
  | Some t => find_observer (fun o => if tokenLength =? 0 then Some true else memcmp_eq (ro_token o) (Some t) tokenLength) res
  | None => mret None
  end.

Definition IsObservationIdExisting (id : Z) : M stack bool :=
  x ← LL_FOREACH all_resources
        (fun _ res => o ← GetObserverUsingId res id; mret (match o with Some _ => inr tt | None => inl tt end)) tt;
  mret (match x with inr _ => true | inl _ => false end).

(** The resource and the observer. *)
Definition GetObserverFromResourceList (token : option (list Z)) (tokenLength : Z) : M stack (option (positive * positive)) :=
  x ← LL_FOREACH all_resources
        (fun _ res => o ← GetObserverUsingToken res token tokenLength;
                      mret (match o with Some o => inr (res, o) | None => inl tt end)) tt;
  mret (found x).

(** ** Adding and deleting *)

(** The loop ends when the answers do: an identifier is drawn until one is
    free. *)
Fixpoint generate (draws : list (option Z)) : M stack (OCStackResult * option Z) :=
  match draws with
  | [] => undefined
  | None :: rest => _ ← modify (set_random rest); mret (OC_STACK_ERROR, None)
  | Some id :: rest =>
      _ ← modify (set_random rest);
      b ← IsObservationIdExisting id;
      if b : bool then generate rest else mret (OC_STACK_OK, Some id)
  end.

Definition GenerateObserverId : M stack (OCStackResult * option Z) := l ← gets st_random; generate l.

Definition AddObserver (uri queryText : option (list Z)) (obsId : Z) (token : option (list Z)) (tokenLength : Z)
    (resHandle : option positive) (q : OCQualityOfService) (format : OCPayloadFormat) (version : Z) (devAddr : OCDevAddr)
    : M stack OCStackResult :=
  match resHandle with
  | None => mret OC_STACK_INVALID_PARAM
  | Some res =>
      r ← resource_at res;
      if negb (bit (rs_properties r) OC_OBSERVABLE) then mret OC_STACK_RESOURCE_ERROR
      else
        match uri, token with
        | Some u, Some _ =>
            ok ← in_heap (OICCalloc 1 sizeof_ResourceObserver);
            if negb ok then mret OC_STACK_NO_MEMORY
            else
              u' ← in_heap (OICStrdup (Some u));
              match u' with
              | None => _ ← in_heap (OICFree (Some tt)); mret OC_STACK_NO_MEMORY
              | Some u' =>
                  q' ← in_heap (OICStrdup queryText);
                  if bool_decide (is_Some queryText) && bool_decide (q' = None) then
                    _ ← in_heap (OICFree (Some u')); _ ← in_heap (OICFree (Some tt)); mret OC_STACK_NO_MEMORY
                  else
                    t ← in_heap (copy_token token tokenLength);
                    match t with
                    | None =>
                        _ ← in_heap (OICFree (Some u')); _ ← in_heap (OICFree q'); _ ← in_heap (OICFree (Some tt));
                        mret OC_STACK_NO_MEMORY
                    | Some t =>
                        now ← gets coap_clock;
                        let node := {|
                          ro_addr := new_address (observersHead r); observeId := obsId; resUri := u'; ro_query := q';
                          ro_token := t; ro_tokenLength := tokenLength; ro_devAddr := devAddr; ro_qos := q;
                          failedCommCount := 0; lowQosCount := 0; forceHighQos := 0;
                          ro_TTL := if decide (u = chars OC_RSRVD_PRESENCE_URI) then 0 else observer_ttl now;
                          ro_acceptFormat := format; ro_acceptVersion := version |} in
                        _ ← on_resource res (fun r => set_observers (LL_APPEND (observersHead r) node) r);
                        mret OC_STACK_OK
                    end
              end
        | _, _ => mret OC_STACK_INVALID_PARAM
        end
  end.

Definition free_observer (o : ResourceObserver) : M heap unit :=
  _ ← OICFree (Some (resUri o)); _ ← OICFree (ro_query o); _ ← OICFree (ro_token o); OICFree (Some o).

Definition DeleteObserverUsingToken (res : positive) (token : option (list Z)) (tokenLength : Z) : M stack OCStackResult :=
  match token with
  | None => mret OC_STACK_INVALID_PARAM
  | Some _ =>
      obsNode ← GetObserverUsingToken res token tokenLength;
      match obsNode with
      | Some a =>
          o ← observer_at res a;
          _ ← on_resource res (fun r => set_observers (unlink a (observersHead r)) r);
          _ ← in_heap (free_observer o);
          mret OC_STACK_OK
      | None => mret OC_STACK_OK
      end
  end.

(** [LL_FOREACH_SAFE]: the node after the one at hand is remembered before that
    is deleted. *)
Fixpoint delete_all (res : positive) (fuel : nat) (out : option positive) : M stack unit :=
  match out with
  | None => mret tt
  | Some a =>
      match fuel with
      | O => undefined
      | S fuel' =>
          o ← observer_at res a;
          l ← observers_of res;
          tmp ← lift (next_addr a l);
          _ ← DeleteObserverUsingToken res (ro_token o) (ro_tokenLength o);
          delete_all res fuel' tmp
      end
  end.

Definition DeleteObserverList (res : positive) : M stack unit :=
  l ← observers_of res;
  _ ← delete_all res (length l) (head l);
  on_resource res (set_observers []).

(** ** Telling some of the observers *)

Record list_state := { ls_qos : OCQualityOfService; ls_error : bool; ls_sent : Z }.

(** One observer of the list; [inr] when there is no memory for the payload
    and the loop starts over with the same one.  What the payload points to is
    shared with the caller, and its block is not given back on an error. *)
Definition notify_listed (res observer : positive) (p : OCRepPayload) (st : list_state) : M stack (list_state + list_state) :=
  o ← observer_at res observer;
  let '(q, o') := DetermineObserverQoS OC_REST_GET o (ls_qos st) in
  _ ← on_observer res observer (fun _ => o');
  r ← resource_at res;
  '(result, request) ← add_notification o' (sequenceNum r) q;
  let next (result : OCStackResult) sent := {|
    ls_qos := q; ls_error := ls_error st || bool_decide (result <> OC_STACK_OK); ls_sent := sent |} in
  match request with
  | None => mret (inl (next result (ls_sent st)))
  | Some request =>
      _ ← on_request request (set_observeResult OC_STACK_OK);
      match result with
      | OC_STACK_OK =>
          payload ← in_heap OCRepPayloadCreate;
          match payload with
          | None =>
              _ ← in_server (DeleteServerRequest (Some request));
              mret (inr {| ls_qos := q; ls_error := ls_error st; ls_sent := ls_sent st |})
          | Some _ =>
              result ← in_server (OCDoResponse stack_mode (Some (stack_response request (PAYLOAD_TYPE_REPRESENTATION p) [])));
              sent ← (match result with
                      | OC_STACK_OK => _ ← in_heap (OICFree (Some tt)); mret (u8 (ls_sent st + 1))
                      | _ => mret (ls_sent st)
                      end);
              _ ← renew res observer;
              mret (inl (next result sent))
          end
      | _ => _ ← in_server (DeleteServerRequest (Some request)); mret (inl (next result (ls_sent st)))
      end
  end.

(** [n] identifiers are left to do; the loop can start over as often as the
    allocator can still refuse. *)
Fixpoint list_loop (res : positive) (p : OCRepPayload) (fuel : nat) (ids : list Z) (n : nat) (st : list_state)
    : M stack list_state :=
  match n with
  | O => mret st
  | S n' =>
      match fuel with
      | O => undefined
      | S fuel' =>
          id ← lift (head ids);
          observer ← GetObserverUsingId res id;
          match observer with
          | None => list_loop res p fuel' (tail ids) n' st
          | Some o =>
              x ← notify_listed res o p st;
              match x with
              | inl st' => list_loop res p fuel' (tail ids) n' st'
              | inr st' => list_loop res p fuel' ids n st'
              end
          end
      end
  end.

Definition SendListObserverNotification (resource : option positive) (obsIdList : option (list Z)) (numberOfIds : Z)
    (payload : option OCRepPayload) (q : OCQualityOfService) : M stack OCStackResult :=
  match resource, obsIdList, payload with
  | Some res, Some ids, Some p =>
      r ← resource_at res;
      match observersHead r with
      | [] => mret OC_STACK_NO_OBSERVERS
      | _ =>
          s ← get;
          let n := Z.to_nat numberOfIds in
          st ← list_loop res p (n + length (hp_allocs (heap_of s))) ids n {| ls_qos := q; ls_error := false; ls_sent := 0 |};
          mret (if (ls_sent st =? numberOfIds) && negb (ls_error st) then OC_STACK_OK else OC_STACK_ERROR)
      end
  | _, _, _ => mret OC_STACK_INVALID_PARAM
  end.

(** [OCNotifyAllObservers] and [OCNotifyListOfObservers] of [ocstack.c]. *)
Definition OCNotifyAllObservers (handle : option positive) (q : OCQualityOfService) : M stack OCStackResult :=
  presence ← gets presence_handle;
  if decide (handle = presence) then mret OC_STACK_OK
  else
    match handle with
    | None => mret OC_STACK_ERROR
    | Some h =>
        resPtr ← findResource h;
        match resPtr with
        | None => mret OC_STACK_NO_RESOURCE
        | Some res =>
            _ ← on_resource res (fun r => set_sequenceNum (incrementSequenceNumber (sequenceNum r)) r);
            SendAllObserverNotification OC_REST_OBSERVE (Some res) MAX_OBSERVE_AGE OC_PRESENCE_TRIGGER_DELETE None q
        end
    end.

Definition OCNotifyListOfObservers (handle : option positive) (obsIdList : option (list Z)) (numberOfIds : Z)
    (payload : option OCRepPayload) (q : OCQualityOfService) : M stack OCStackResult :=
  match handle, obsIdList, payload with
  | Some h, Some _, Some _ =>
      resPtr ← findResource h;
      match resPtr with
      | Some res =>
          if decide (stack_mode = OC_CLIENT) then mret OC_STACK_NO_RESOURCE
          else
            _ ← on_resource res (fun r => set_sequenceNum (incrementSequenceNumber (sequenceNum r)) r);
            SendListObserverNotification (Some res) obsIdList numberOfIds payload q
      | None => mret OC_STACK_NO_RESOURCE
      end
  | _, _, _ => mret OC_STACK_ERROR
  end.

(** [SendPresenceNotification] and [SendStopNotification]. *)
Definition SendPresenceNotification (rt : option string) (trigger : Z) : M stack OCStackResult :=
  h ← gets presence_handle;
  match h with
  | None => mret OC_STACK_NO_RESOURCE
  | Some h =>
      resPtr ← findResource h;
      match resPtr with
      | None => mret OC_STACK_NO_RESOURCE
      | Some res =>
          r ← resource_at res;
          if bit (rs_properties r) OC_ACTIVE then
            age ← gets presenceTTL; SendAllObserverNotification OC_REST_PRESENCE (Some res) age trigger rt OC_LOW_QOS
          else mret OC_STACK_ERROR
      end
  end.

Definition SendStopNotification : M stack OCStackResult :=
  h ← gets presence_handle;
  match h with
  | None => mret OC_STACK_NO_RESOURCE
  | Some h =>
      resPtr ← findResource h;
      match resPtr with
      | None => mret OC_STACK_NO_RESOURCE
      | Some res => SendAllObserverNotification OC_REST_PRESENCE (Some res) 0 OC_PRESENCE_TRIGGER_DELETE None OC_LOW_QOS
      end
  end.

(** ** What the connectivity layer reports of an observer *)

Definition OC_OBSERVER_NOT_INTERESTED : Z := 0.
Definition OC_OBSERVER_STILL_INTERESTED : Z := 1.
Definition OC_OBSERVER_FAILED_COMM : Z := 2.

(** The application hears that the observer is gone, and it is deleted. *)
Definition leave_observer (res observer : positive) (token : option (list Z)) (tokenLength : Z) : M stack OCStackResult :=
  o ← observer_at res observer;
  '(result, eh) ← FormOCEntityHandlerRequest None OC_REST_NOMETHOD (ro_devAddr o) None None REPRESENTATION OC_FORMAT_CBOR
                     None 0 0 None OC_OBSERVE_DEREGISTER (observeId o) 0;
  match result with
  | OC_STACK_OK =>
      r ← resource_at res;
      handler ← lift (entityHandler r);
      _ ← entity_handler handler OC_OBSERVE_FLAG eh;
      _ ← DeleteObserverUsingToken res token tokenLength;
      mret OC_STACK_OK
  | result => mret result
  end.

Definition OCStackFeedBack (token : option (list Z)) (tokenLength status : Z) : M stack OCStackResult :=
  there ← GetObserverFromResourceList token tokenLength;
  match there with
  | None => mret OC_STACK_OBSERVER_NOT_FOUND
  | Some (res, observer) =>
      if status =? OC_OBSERVER_NOT_INTERESTED then leave_observer res observer token tokenLength
      else if status =? OC_OBSERVER_STILL_INTERESTED then
        _ ← on_observer res observer (set_failures 0 0); mret OC_STACK_OK
      else if status =? OC_OBSERVER_FAILED_COMM then
        o ← observer_at res observer;
        if MAX_OBSERVER_FAILED_COMM <=? failedCommCount o then
          result ← leave_observer res observer token tokenLength;
          mret (if decide (result = OC_STACK_OK) then OC_STACK_OK else OC_STACK_ERROR)
        else
          _ ← on_observer res observer (set_failures (u8 (failedCommCount o + 1)) 1); mret OC_STACK_CONTINUE
      else mret OC_STACK_ERROR
  end.

(** ** Observing /oic/res *)

Definition register_virtual (request res : positive) : M stack OCStackResult :=
  r ← in_server (request_at request);
  obs ← GetObserverUsingToken res (requestToken r) (sr_tokenLength r);
  match obs with
  | Some _ => mret OC_STACK_DUPLICATE_REQUEST
  | None =>
      '(result, id) ← GenerateObserverId;
      result ← (match result, id with
                | OC_STACK_OK, Some id =>
                    AddObserver (Some (resourceUrl r)) (Some (query r)) id (requestToken r) (sr_tokenLength r) (Some res)
                      (qos r) (sr_acceptFormat r) (sr_acceptVersion r) (sr_devAddr r)
                | result, _ => mret result
                end);
      _ ← on_request request (set_observeResult (if decide (result = OC_STACK_OK) then OC_STACK_OK else OC_STACK_ERROR));
      mret OC_STACK_OK
  end.

Definition deregister_virtual (request res : positive) : M stack OCStackResult :=
  r ← in_server (request_at request);
  result ← DeleteObserverUsingToken res (requestToken r) (sr_tokenLength r);
  _ ← (if decide (result = OC_STACK_OK) then
         on_request request (fun r => set_observation (MAX_SEQUENCE_NUMBER + 1) (set_observeResult OC_STACK_OK r))
       else on_request request (set_observeResult OC_STACK_ERROR));
  mret OC_STACK_OK.

Definition HandleVirtualObserveRequest (request : positive) : M stack OCStackResult :=
  r ← in_server (request_at request);
  if notificationFlag r then mret OC_STACK_OK
  else if decide (GetTypeOfVirtualURI (resourceUrl r) <> OC_WELL_KNOWN_URI) then mret OC_STACK_OK
  else
    resourcePtr ← FindResourceByUri (Some (chars OC_RSRVD_WELL_KNOWN_URI));
    match resourcePtr with
    | None => mret OC_STACK_ERROR
    | Some res =>
        if observationOption r =? OC_OBSERVE_REGISTER then register_virtual request res
        else if observationOption r =? OC_OBSERVE_DEREGISTER then deregister_virtual request res
        else mret OC_STACK_OK
    end.
End Observe.

(** ** Every fourth notification is confirmable *)

(** What the service decides for the next [n] notifications. *)
Fixpoint decisions (method : OCMethod) (q : OCQualityOfService) (n : nat) (o : ResourceObserver) : list OCQualityOfService :=
  match n with
  | O => []
  | S n' => let d := DetermineObserverQoS method o q in d.1 :: decisions method q n' d.2
  end.

Lemma decide_low method o q : method <> OC_REST_PRESENCE -> q <> OC_HIGH_QOS -> forceHighQos o = 0 ->
  0 <= lowQosCount o <= 3 ->
  DetermineObserverQoS method o q =
    (if lowQosCount o =? 3 then OC_HIGH_QOS else if decide (q = OC_NA_QOS) then ro_qos o else q,
     set_lowQosCount ((lowQosCount o + 1) mod 4) o).
Proof.
  intros Hm Hq Hf Hc. unfold DetermineObserverQoS, MAX_OBSERVER_NON_COUNT. rewrite (decide_False _ _ Hq), Hf.
  change (0 =? 0) with true. cbn [negb orb]. rewrite (bool_decide_true (method <> OC_REST_PRESENCE)) by done. rewrite andb_true_r.
  destruct (Z.leb_spec 3 (lowQosCount o)) as [H3|H3].
  - assert (lowQosCount o = 3) as -> by lia. done.
  - destruct (Z.eqb_spec (lowQosCount o) 3); [lia|]. rewrite wrap_small, Z.mod_small by lia. done.
Qed.

(** of the notifications to an observer that are not asked to be
    confirmable every fourth is nevertheless, whatever quality of service the
    application or the observer chose; the others go out as chosen. *)
Theorem every_fourth_confirmable method q n o i : method <> OC_REST_PRESENCE -> q <> OC_HIGH_QOS -> forceHighQos o = 0 ->
  0 <= lowQosCount o <= 3 -> (i < n)%nat ->
  decisions method q n o !! i = Some
    (if (lowQosCount o + Z.of_nat i) mod 4 =? 3 then OC_HIGH_QOS else if decide (q = OC_NA_QOS) then ro_qos o else q).
Proof.
  intros Hm Hq. revert o i. induction n as [|n IH]; intros o i Hf Hc Hi; [lia|]. cbn [decisions].
  rewrite decide_low by done. cbn [fst snd]. destruct i as [|i]; cbn [lookup list_lookup].
  - by rewrite Z.add_0_r, (Z.mod_small (lowQosCount o)) by lia.
  - pose proof (Z.mod_pos_bound (lowQosCount o + 1) 4 ltac:(lia)).
    rewrite IH by (cbn; (done || lia)). cbn [lowQosCount set_lowQosCount ro_qos].
    rewrite Z.add_mod_idemp_l by lia.
    by replace (lowQosCount o + 1 + Z.of_nat i) with (lowQosCount o + Z.of_nat (S i)) by lia.
Qed.

(** ** The option of an observation *)

Definition observe_option (flag : Z) : CAHeaderOption_t := {|
  protocolID := CA_COAP_ID; optionID := COAP_OPTION_OBSERVE; optionLength := 1;
  optionData := flag :: replicate (Z.to_nat CA_MAX_HEADER_OPTION_DATA_LENGTH - 1) 0 |}.

Lemma create_observe_option flag l h : Z.of_nat (length l) < 256 -> hp_allocs h = [] ->
  CreateObserveHeaderOption (Some None) (Some l) (Z.of_nat (length l)) flag h =
    Some ((OC_STACK_OK, Some (Some (observe_option flag :: l))), add_live 1 h).
Proof.
  intros Hl Hh. unfold CreateObserveHeaderOption. rewrite (bool_decide_false (Some l = None)) by done. rewrite andb_false_r.
  assert (yields (OICCalloc (Z.of_nat (length l) + 1) sizeof_CAHeaderOption) true 1) as Hc
    by (apply yields_calloc; unfold sizeof_CAHeaderOption, SIZE_MAX; lia).
  rewrite (run_bind _ _ _ _ _ (Hc h Hh)). cbn [negb].
  rewrite (run_bind _ _ _ (optionData (observe_option flag)) _ eq_refl).
  assert ((if Z.of_nat (length l) =? 0 then Some [] else read_at l 0 (Z.of_nat (length l))) = Some l) as ->.
  { destruct (Z.eqb_spec (Z.of_nat (length l)) 0) as [H0|H0]; [by destruct l|].
    rewrite read_at_ok by lia. by rewrite drop_0, Nat2Z.id, firstn_all. }
  by rewrite (run_bind _ _ _ _ _ (run_lift _ _ _ eq_refl)).
Qed.

Lemma byte_after {A} (pre : list A) x l : byte_at (pre ++ x :: l) (Z.of_nat (length pre)) = Some x.
Proof. unfold byte_at. rewrite decide_True by lia. by rewrite Nat2Z.id, list_lookup_middle. Qed.

Lemma shift_step pre x p post n : shift_loop (Z.of_nat (length pre)) (S n) (pre ++ x :: p :: post) =
  shift_loop (Z.of_nat (length pre)) n (pre ++ p :: p :: post).
Proof.
  pose proof (byte_after (pre ++ [x]) p post) as Hb. rewrite length_app, <- app_assoc in Hb. cbn in Hb |- *.
  replace (Z.of_nat (length pre) + 1) with (Z.of_nat (length pre + 1)) by lia. rewrite Hb. cbn.
  by rewrite write_at_one.
Qed.

Lemma shift_loop_one pre o p post n : shift_loop (Z.of_nat (length pre)) (S n) (pre ++ o :: p :: post) =
  Some (pre ++ p :: p :: post).
Proof. rewrite shift_step. induction n as [|n IH]; [done|]. by rewrite shift_step. Qed.

Lemma observe_loop_at pre o post v : Forall (fun x => is_observe x = false) pre -> is_observe o = true ->
  byte_at (optionData o) 0 = Some v -> forall done,
  observe_loop (Z.of_nat (length done)) (length (pre ++ o :: post)) (done ++ pre ++ o :: post) =
    Some (Some v, done ++ pre ++ match post with [] => [o] | p :: _ => p :: post end).
Proof.
  intros Hp Ho Hv. induction Hp as [|x pre Hx Hp IH]; intros d.
  - cbn [app length observe_loop]. rewrite byte_after. cbn. rewrite Ho, Hv. cbn. destruct post as [|p post]; [done|].
    cbn [length]. rewrite shift_loop_one. done.
  - cbn [app length observe_loop]. rewrite byte_after. cbn. rewrite Hx.
    specialize (IH (d ++ [x])). rewrite length_app, <- !app_assoc in IH. cbn in IH.
    replace (Z.of_nat (length d) + 1) with (Z.of_nat (length d + 1)) by lia. exact IH.
Qed.

(** the value of the observe option is read and the option taken out of the
    others; but the loop that closes the gap copies the option behind it again
    and again, so that from two options behind it on the first of them is there
    twice and the last is lost. *)
Theorem observe_option_removed old pre o post v : Forall (fun x => is_observe x = false) pre -> is_observe o = true ->
  byte_at (optionData o) 0 = Some v ->
  exists l', GetObserveHeaderOption (Some old) (Some (pre ++ o :: post)) (Some (Z.of_nat (length (pre ++ o :: post)))) =
      Some (OC_STACK_OK, Some v, Some l', Some (Z.of_nat (length (pre ++ post)))) /\
    take (length (pre ++ post)) l' = pre ++ match post with [] => [] | p :: _ => p :: removelast post end.
Proof.
  intros Hp Ho Hv. unfold GetObserveHeaderOption. rewrite Nat2Z.id.
  pose proof (observe_loop_at pre o post v Hp Ho Hv []) as E. cbn [app length] in E. change (Z.of_nat 0) with 0 in E.
  rewrite E. cbn. eexists. split.
  - do 3 f_equal. rewrite !length_app. cbn. lia.
  - rewrite length_app, take_app. rewrite take_ge by lia. replace (length pre + length post - length pre)%nat with (length post) by lia.
    f_equal. destruct post as [|p post]; [done|]. cbn [length firstn]. f_equal. rewrite removelast_firstn_len. done.
Qed.

(** ** Looking for an observer *)

(** The observer's time to live is not over. *)
Definition awake (now : Z) (o : ResourceObserver) : Prop := ro_TTL o = 0 \/ now <= ro_TTL o.

Record quiet_resource (now : Z) (r : OCResource) : Prop := {
  quiet_addrs : NoDup (addrs (observersHead r));
  quiet_awake : Forall (awake now) (observersHead r);
}.

(** The lists are well formed and no observer is due for a check. *)
Record quiet (s : stack) : Prop := {
  quiet_resources : NoDup (addrs (headResource s));
  quiet_each : Forall (quiet_resource (coap_clock s)) (headResource s);
}.

Section Quiet.
Context `{StackEnv} (ProcessRequest : ResourceHandling -> option positive -> positive -> M stack OCStackResult).

Lemma resource_at_run a r s : node_at a (headResource s) = Some r -> resource_at a s = Some (r, s).
Proof. intros E. unfold resource_at. step (run_gets headResource s). by apply run_lift. Qed.

Lemma observer_at_run res r o s : node_at res (headResource s) = Some r -> NoDup (addrs (observersHead r)) ->
  o ∈ observersHead r -> observer_at res (ro_addr o) s = Some (o, s).
Proof.
  intros E Hd Ho. unfold observer_at. step (resource_at_run _ _ _ E). apply run_lift. by apply (node_at_in (observersHead r) o).
Qed.

Lemma observers_of_run res r s : node_at res (headResource s) = Some r ->
  observers_of res s = Some (addrs (observersHead r), s).
Proof. intros E. unfold observers_of. by step (resource_at_run _ _ _ E). Qed.

Lemma check_awake res r o s : node_at res (headResource s) = Some r -> NoDup (addrs (observersHead r)) ->
  o ∈ observersHead r -> awake (coap_clock s) o -> CheckTimedOutObserver ProcessRequest res (ro_addr o) s = Some (tt, s).
Proof.
  intros E Hd Ho Ha. unfold CheckTimedOutObserver. step (observer_at_run _ _ _ _ E Hd Ho).
  destruct (Z.eqb_spec (ro_TTL o) 0); [done|]. step (run_gets coap_clock s).
  destruct Ha as [Ha|Ha]; [done|]. destruct (Z.ltb_spec (ro_TTL o) (coap_clock s)); [lia|done].
Qed.

(** What the two loops find: the first observer that passes the test. *)
Lemma find_observer_run hit h res r s : node_at res (headResource s) = Some r -> quiet_resource (coap_clock s) r ->
  (forall o, o ∈ observersHead r -> hit o = Some (h o)) ->
  find_observer ProcessRequest hit res s = Some (ro_addr <$> find h (observersHead r), s).
Proof.
  intros E [Hd Ha] Hh. unfold find_observer.
  assert (forall o, o ∈ observersHead r ->
    look_at ProcessRequest hit res tt (ro_addr o) s = Some (if h o then inr (ro_addr o) else inl tt, s)) as Hl.
  { intros o Ho. unfold look_at. step (observer_at_run _ _ _ _ E Hd Ho). step (run_lift _ _ _ (Hh o Ho)).
    destruct (h o); [done|]. rewrite Forall_forall in Ha. by step (check_awake _ _ _ _ E Hd Ho (Ha o Ho)). }
  rewrite (run_bind _ _ _ (match find h (observersHead r) with Some o => inr (ro_addr o) | None => inl tt end) s).
  { by destruct (find h (observersHead r)). }
  rewrite (foreach_each _ _ (fun s' => s' = s) (addrs (observersHead r)) _ s Hd eq_refl).
  - clear Hd Ha Hh E. induction (observersHead r) as [|o l IH]; [done|]. change (addrs (o :: l)) with (ro_addr o :: addrs l). cbn [each find].
    step (Hl o ltac:(left)). destruct (h o); [done|]. apply IH. intros o' Ho'. apply Hl. by right.
  - intros s' ->. by apply observers_of_run.
  - intros [] a s1 x s2 Hx -> Eb. apply list_elem_of_fmap in Hx as (o & -> & Ho). change (node_addr o) with (ro_addr o) in Eb. rewrite (Hl o Ho) in Eb. by inversion Eb.
Qed.

Lemma quiet_at s res r : quiet s -> node_at res (headResource s) = Some r -> quiet_resource (coap_clock s) r.
Proof. intros [_ Hq] E. apply node_at_addr in E as [_ Hr]. rewrite Forall_forall in Hq. by apply Hq. Qed.

Lemma using_id_run res r id s : quiet s -> node_at res (headResource s) = Some r ->
  GetObserverUsingId ProcessRequest res id s = Some (ro_addr <$> find (fun o => observeId o =? id) (observersHead r), s).
Proof. intros Hq E. unfold GetObserverUsingId. apply find_observer_run; [done|by eapply quiet_at|done]. Qed.

(** The identifiers in use. *)
Definition ids_in_use (s : stack) : list Z := headResource s ≫= fun r => observeId <$> observersHead r.

Lemma find_id id l : match find (fun o => observeId o =? id) l with Some _ => true | None => false end =
  bool_decide (id ∈ observeId <$> l).
Proof.
  induction l as [|o l IH]; [done|]. cbn [find fmap list_fmap]. destruct (Z.eqb_spec (observeId o) id) as [Eq|Hn].
  - rewrite bool_decide_true; [done|]. rewrite Eq. left.
  - rewrite IH. apply bool_decide_ext. rewrite elem_of_cons. split; [by right|]. intros [E|Hx]; [by subst|done].
Qed.

Lemma existing_run id s : quiet s -> IsObservationIdExisting ProcessRequest id s = Some (bool_decide (id ∈ ids_in_use s), s).
Proof.
  intros Hq. unfold IsObservationIdExisting.
  set (body := fun (_ : unit) (res : positive) => _).
  assert (forall r, r ∈ headResource s -> body tt (rs_addr r) s =
    Some (if bool_decide (id ∈ observeId <$> observersHead r) then inr tt else inl tt, s)) as Hb.
  { intros r Hr. unfold body. pose proof (node_at_in (headResource s) r (quiet_resources _ Hq) Hr) as E.
    change (node_addr r) with (rs_addr r) in E. step (using_id_run (rs_addr r) r id s Hq E).
    rewrite <- find_id. by destruct (find _ (observersHead r)). }
  assert (LL_FOREACH all_resources body tt s =
    Some (if bool_decide (id ∈ ids_in_use s) then inr tt else inl tt, s)) as ->%(run_bind _ _ _ _ _).
  2: by destruct (bool_decide (id ∈ ids_in_use s)).
  rewrite (foreach_each _ _ (fun s' => s' = s) (addrs (headResource s)) _ s (quiet_resources _ Hq) eq_refl).
  - unfold ids_in_use. clear Hq. induction (headResource s) as [|r l IH]; [done|].
    change (addrs (r :: l)) with (rs_addr r :: addrs l). cbn [each]. step (Hb r ltac:(left)).
    set (ids := fun r => observeId <$> observersHead r) in *. change ((r :: l) ≫= ids) with (ids r ++ (l ≫= ids)).
    destruct (decide (id ∈ ids r)) as [E1|E1].
    + by rewrite !bool_decide_true by (try apply elem_of_app; auto).
    + rewrite bool_decide_false by done. rewrite IH by (intros r' Hr'; apply Hb; by right). do 2 f_equal.
      erewrite bool_decide_ext; [reflexivity|]. rewrite elem_of_app. tauto.
  - by intros s' ->.
  - intros [] a s1 x s2 Hx -> Eb. apply list_elem_of_fmap in Hx as (r & -> & Hr).
    change (node_addr r) with (rs_addr r) in Eb. rewrite (Hb r Hr) in Eb. by inversion Eb.
Qed.

(** ** Identifiers of observations *)

Lemma generate_used draws rest s : quiet s -> Forall (fun id => id ∈ ids_in_use s) draws ->
  generate ProcessRequest (map Some draws ++ rest) s =
    generate ProcessRequest rest (if decide (draws = []) then s else set_random rest s).
Proof.
  intros Hq Hd. revert s Hq Hd. induction draws as [|id draws IH]; intros s Hq Hd; [done|].
  apply Forall_cons in Hd as [Hid Hd]. cbn [map app generate]. step (run_modify _ _).
  set (s1 := set_random (map Some draws ++ rest) s). assert (quiet s1) as Hq1 by (destruct Hq; by split).
  step (existing_run id s1 Hq1). rewrite bool_decide_true by exact Hid. rewrite IH by done.
  rewrite (decide_False (P := id :: draws = [])) by done. f_equal. case_decide as E; [|done]. unfold s1. by rewrite E.
Qed.

(** The first byte drawn that is not in use becomes the identifier. *)
Lemma generate_first_free draws id rest s : quiet s -> st_random s = map Some draws ++ Some id :: rest ->
  Forall (fun id => id ∈ ids_in_use s) draws -> id ∉ ids_in_use s ->
  GenerateObserverId ProcessRequest s = Some ((OC_STACK_OK, Some id), set_random rest s).
Proof.
  intros Hq Er Hd Hid. unfold GenerateObserverId. step (run_gets st_random s). rewrite Er, generate_used by done.
  set (s1 := if decide _ then _ else _). assert (quiet s1 /\ ids_in_use s1 = ids_in_use s /\ set_random rest s1 = set_random rest s) as (Hq1 & Ei & Es).
  { subst s1. case_decide; [done|]. destruct Hq. by repeat split. }
  cbn [generate]. step (run_modify _ _). rewrite Es. assert (quiet (set_random rest s)) as Hq2 by (destruct Hq; by split).
  step (existing_run id _ Hq2). by rewrite bool_decide_false.
Qed.

(** once every value of the one byte that identifies an observation is in
    use no identifier is ever generated: whatever is drawn, the loop goes on
    until drawing itself fails. *)
Theorem ids_exhausted draws s : quiet s -> (forall id, 0 <= id < 256 -> id ∈ ids_in_use s) -> Forall is_byte draws ->
  st_random s = map Some draws ++ [None] ->
  GenerateObserverId ProcessRequest s = Some ((OC_STACK_ERROR, None), set_random [] s).
Proof.
  intros Hq Hall Hd Er. unfold GenerateObserverId. step (run_gets st_random s). rewrite Er, generate_used; [|done|].
  - cbn [generate]. step (run_modify _ _). by case_decide.
  - eapply Forall_impl; [exact Hd|]. intros id Hid. by apply Hall.
Qed.

(** ** The check of observers that may be gone *)

Lemma observer_ttl_last now : observer_ttl now = UINT32_MAX.
Proof. apply GetTicks_long. unfold MAX_OBSERVER_TTL_SECONDS, MILLISECONDS_PER_SECOND. lia. Qed.

(** the check that is to come 24 hours after an observer was heard of never
    comes: no value of the clock is past the time to live an observer gets, so
    that an observer that went away stays. *)
Theorem observer_check_never_comes res r o now s : node_at res (headResource s) = Some r -> NoDup (addrs (observersHead r)) ->
  o ∈ observersHead r -> ro_TTL o = observer_ttl now -> coap_clock s < 2 ^ 32 ->
  CheckTimedOutObserver ProcessRequest res (ro_addr o) s = Some (tt, s).
Proof.
  intros E Hd Ho Et Hc. apply (check_awake res r); [done..|]. right. rewrite Et, observer_ttl_last. unfold UINT32_MAX. lia.
Qed.

(** ** An observer comes and goes *)

Definition long_token (n : Z) (o : ResourceObserver) : Prop := exists tok, ro_token o = Some tok /\ n <= Z.of_nat (length tok).
Definition same_token (t : list Z) (n : Z) (o : ResourceObserver) : bool :=
  bool_decide (take (Z.to_nat n) (default [] (ro_token o)) = take (Z.to_nat n) t).

Lemma using_token_run res r t n s : node_at res (headResource s) = Some r -> quiet_resource (coap_clock s) r ->
  0 < n <= Z.of_nat (length t) -> Forall (long_token n) (observersHead r) ->
  GetObserverUsingToken ProcessRequest res (Some t) n s = Some (ro_addr <$> find (same_token t n) (observersHead r), s).
Proof.
  intros E Hq Hn Ht. apply find_observer_run; [done..|]. intros o Ho. rewrite Forall_forall in Ht.
  destruct (Ht o Ho) as (tok & Et & Hl). destruct (Z.eqb_spec n 0); [lia|]. unfold same_token. rewrite Et. cbn [default].
  unfold memcmp_eq. rewrite !read_at_ok by lia. cbn. by rewrite !drop_0.
Qed.

Lemma set_resources_grow l n s : set_resources l (grow n s) = grow n (set_resources l s).
Proof. done. Qed.

Definition observer_blocks (o : ResourceObserver) : Z := 2 + blk (ro_query o) + blk (ro_token o).

Lemma frees_observer o : frees (free_observer o) (observer_blocks o).
Proof.
  eapply frees_eq; [repeat first [apply frees_bind|apply frees_ptr]|]. unfold observer_blocks. cbn. lia.
Qed.

(** What a resource is registered for. *)
Lemma add_observer_run u q id t n res r qs fmt ver dev s : node_at res (headResource s) = Some r ->
  bit (rs_properties r) OC_OBSERVABLE = true -> 0 < n <= Z.of_nat (length t) -> hp_allocs (stack_heap s) = [] ->
  exists o, AddObserver (Some u) q id (Some t) n (Some res) qs fmt ver dev s =
      Some (OC_STACK_OK, set_resources (on_addr res (fun r => set_observers (observersHead r ++ [o]) r) (headResource s))
                           (grow (observer_blocks o) s)) /\
    ro_addr o = new_address (observersHead r) /\ observeId o = id /\ resUri o = u /\ ro_query o = q /\
    ro_token o = Some (take (Z.to_nat n) t) /\ ro_tokenLength o = n /\
    ro_TTL o = (if decide (u = chars OC_RSRVD_PRESENCE_URI) then 0 else observer_ttl (coap_clock s)).
Proof.
  intros E Hb Hn Hh. unfold AddObserver. step (resource_at_run _ _ _ E). rewrite Hb. cbn [negb].
  assert (forall k, hp_allocs (heap_of (grow k s)) = []) as Hg by (intros k; exact Hh).
  change (hp_allocs (heap_of s) = []) in Hh. assert (yields (OICCalloc 1 sizeof_ResourceObserver) true 1) as Hc by (by apply yields_calloc).
  step (in_heap_yields _ _ _ s Hc Hh). cbn [negb].
  step (in_heap_yields _ _ _ _ (yields_strdup (Some u)) (Hg _)). rewrite grow_grow.
  step (in_heap_yields _ _ _ _ (yields_strdup q) (Hg _)). rewrite grow_grow.
  assert (bool_decide (is_Some q) && bool_decide (q = None) = false) as ->.
  { destruct q; [by rewrite (bool_decide_false (Some l = None)), andb_false_r|done]. }
  destruct (yields_copy_token (Some t) n) as (v & Hv & Ev); [cbn; lia|].
  step (in_heap_yields _ _ _ _ Hv (Hg _)). rewrite grow_grow. step (run_gets coap_clock _). cbn zeta. unfold on_resource.
  step (run_modify _ _). eexists. cbn in Ev.
  destruct (Z.eqb_spec n 0); [lia|]. subst v. split.
  - rewrite run_ret. do 2 f_equal. change (headResource (grow ?k s)) with (headResource s). f_equal.
  - repeat (split; [reflexivity|]). reflexivity.
Qed.

Lemma find_last {A} (h : A -> bool) l x : Forall (fun y => h y = false) l -> h x = true -> find h (l ++ [x]) = Some x.
Proof. intros Hl Hx. induction Hl as [|y l Hy Hl IH]; cbn; [by rewrite Hx|by rewrite Hy]. Qed.

Lemma replaced_resources res f g l : NoDup (addrs l) -> (forall r : OCResource, rs_addr (f r) = rs_addr r) ->
  (forall r, node_at res l = Some r -> g (f r) = r) -> is_Some (node_at res l) -> on_addr res g (on_addr res f l) = l.
Proof.
  intros Hd Hf Hg [r E]. rewrite on_addr_twice by exact Hf.
  rewrite (on_addr_ext res (fun x => g (f x)) (fun x => x) l r Hd E (Hg r E)). apply on_addr_id.
Qed.

(** C10: an observer that registers with a token of its own is the last of the
    resource, is found by the token, and is gone without a trace when the
    token is deregistered: every resource and the memory are as before. *)
Theorem observer_added_and_deleted u q id t n res r qs fmt ver dev s :
  node_at res (headResource s) = Some r -> NoDup (addrs (headResource s)) -> quiet_resource (coap_clock s) r ->
  bit (rs_properties r) OC_OBSERVABLE = true -> 0 < n <= Z.of_nat (length t) -> coap_clock s < 2 ^ 32 ->
  Forall (fun o => long_token n o /\ same_token t n o = false) (observersHead r) -> hp_allocs (stack_heap s) = [] ->
  exists o s', AddObserver (Some u) q id (Some t) n (Some res) qs fmt ver dev s = Some (OC_STACK_OK, s') /\
    node_at res (headResource s') = Some (set_observers (observersHead r ++ [o]) r) /\
    observeId o = id /\ ro_token o = Some (take (Z.to_nat n) t) /\
    GetObserverUsingToken ProcessRequest res (Some t) n s' = Some (Some (ro_addr o), s') /\
    DeleteObserverUsingToken ProcessRequest res (Some t) n s' = Some (OC_STACK_OK, s).
Proof.
  intros E Hd [Hda Haw] Hb Hn Hc Hobs Hh.
  destruct (add_observer_run u q id t n res r qs fmt ver dev s E Hb Hn Hh) as (o & Eadd & Ea & Ei & _ & _ & Et & _ & Ettl).
  set (f := fun r => set_observers (observersHead r ++ [o]) r) in *.
  eexists o, _. split; [exact Eadd|]. set (s' := set_resources _ _).
  assert (node_at res (headResource s') = Some (f r)) as E' by by apply (on_addr_at res f).
  split; [exact E'|]. split; [done|]. split; [done|].
  assert (ro_addr o ∉ addrs (observersHead r)) as Hfresh by (rewrite Ea; apply new_address_fresh).
  assert (quiet_resource (coap_clock s') (f r)) as Hq'.
  { split; cbn [observersHead set_observers f].
    - rewrite addrs_app. apply NoDup_app. split; [done|]. split; [intros x Hx Hx'; apply list_elem_of_singleton in Hx'; by subst x|].
      apply NoDup_singleton.
    - apply Forall_app. split; [exact Haw|]. apply Forall_singleton. unfold awake. rewrite Ettl.
      destruct (decide _); [by left|right]. rewrite observer_ttl_last. change (coap_clock s') with (coap_clock s). unfold UINT32_MAX. lia. }
  assert (find (same_token t n) (observersHead (f r)) = Some o) as Efind.
  { apply find_last; [by eapply Forall_impl; [exact Hobs|]; intros ? []|]. unfold same_token. rewrite Et. cbn.
    by rewrite bool_decide_true by (by rewrite take_take, Nat.min_id). }
  assert (GetObserverUsingToken ProcessRequest res (Some t) n s' = Some (Some (ro_addr o), s')) as Eget.
  { rewrite (using_token_run res (f r)), Efind; [done..|]. apply Forall_app. split; [by eapply Forall_impl; [exact Hobs|]; intros ? []|].
    apply Forall_singleton. exists (take (Z.to_nat n) t). rewrite length_take. split; [done|lia]. }
  split; [exact Eget|]. unfold DeleteObserverUsingToken. step Eget. cbn beta iota.
  assert (o ∈ observersHead (f r)) as Ho by (apply elem_of_app; right; left).
  step (observer_at_run _ _ _ _ E' (quiet_addrs _ _ Hq') Ho). unfold on_resource. step (run_modify _ _).
  step (in_heap_frees _ _ _ (frees_observer o)). rewrite run_ret. do 2 f_equal. unfold s'.
  rewrite !set_resources_grow. change (headResource (grow ?n ?s)) with (headResource s).
  change (headResource (set_resources ?l ?s)) with l. change (set_resources ?l (set_resources ?l' ?s)) with (set_resources l s).
  rewrite (replaced_resources res f); [|done|done| |by eexists].
  - rewrite grow_grow. replace (observer_blocks o + - observer_blocks o) with 0 by lia. rewrite grow_0. by destruct s.
  - intros r' Er. rewrite E in Er. injection Er as <-. unfold f. cbn [observersHead set_observers].
    transitivity (set_observers (observersHead r) r); [|by destruct r].
    exact (f_equal (fun l => set_observers l r) (unlink_last (observersHead r) o Hfresh)).
Qed.

(** ** All observers of a resource go *)

Definition with_token (o : ResourceObserver) : Prop :=
  exists t, ro_token o = Some t /\ 0 < ro_tokenLength o <= Z.of_nat (length t).

Definition all_blocks (l : list ResourceObserver) : Z := foldr (fun o n => observer_blocks o + n) 0 l.

(** The first observer has the token it is asked for, so that nobody is
    checked. *)
Lemma delete_first res r o l s : node_at res (headResource s) = Some r -> NoDup (addrs (observersHead r)) ->
  observersHead r = o :: l -> with_token o ->
  DeleteObserverUsingToken ProcessRequest res (ro_token o) (ro_tokenLength o) s =
    Some (OC_STACK_OK, grow (- observer_blocks o) (set_resources (on_addr res (fun r => set_observers (unlink (ro_addr o) (observersHead r)) r) (headResource s)) s)).
Proof.
  intros E Hd El (t & Et & Hn). assert (o ∈ observersHead r) as Ho by (rewrite El; left).
  assert (GetObserverUsingToken ProcessRequest res (ro_token o) (ro_tokenLength o) s = Some (Some (ro_addr o), s)) as Eget.
  { rewrite Et. unfold GetObserverUsingToken, find_observer, LL_FOREACH.
    rewrite (run_bind _ _ _ (inr (ro_addr o)) s); [done|]. step (observers_of_run _ _ _ E). rewrite El.
    change (length (addrs (o :: l))) with (S (length (addrs l))). cbn [head walk]. change (head (addrs (o :: l))) with (Some (ro_addr o)).
    cbn [walk]. rewrite (run_bind _ _ _ (inr (ro_addr o)) s); [done|]. unfold look_at.
    step (observer_at_run _ _ _ _ E Hd Ho). rewrite Et. destruct (Z.eqb_spec (ro_tokenLength o) 0); [lia|].
    assert (memcmp_eq (Some t) (Some t) (ro_tokenLength o) = Some true) as ->; [|done].
    unfold memcmp_eq. rewrite !read_at_ok by lia. cbn. by rewrite bool_decide_true. }
  unfold DeleteObserverUsingToken. destruct (ro_token o) as [t'|] eqn:Et'; [|done]. step Eget. cbn beta iota.
  step (observer_at_run _ _ _ _ E Hd Ho). unfold on_resource. step (run_modify _ _).
  by step (in_heap_frees _ _ _ (frees_observer o)).
Qed.

Lemma delete_all_run res l r s : node_at res (headResource s) = Some r -> NoDup (addrs (headResource s)) ->
  NoDup (addrs l) -> observersHead r = l -> Forall with_token l ->
  delete_all ProcessRequest res (length l) (head (addrs l)) s =
    Some (tt, grow (- all_blocks l) (set_resources (on_addr res (set_observers []) (headResource s)) s)).
Proof.
  intros E Hr Hd El Ht. revert r s E Hr El. induction l as [|o l IH]; intros r s E Hr El.
  - cbn [length addrs fmap list_fmap head delete_all all_blocks foldr]. change (- 0) with 0. rewrite grow_0.
    rewrite (on_addr_ext res (set_observers []) (fun x => x) _ r Hr E) by (destruct r; cbn in *; by subst).
    rewrite on_addr_id. by destruct s.
  - apply Forall_cons in Ht as [Ho Ht]. assert (NoDup (addrs (observersHead r))) as Hdr by by rewrite El.
    change (addrs (o :: l)) with (ro_addr o :: addrs l) in *. cbn [length head delete_all].
    step (observer_at_run _ _ _ _ E Hdr ltac:(rewrite El; left)). step (observers_of_run _ _ _ E). rewrite El.
    change (addrs (o :: l)) with (ro_addr o :: addrs l). cbn [next_addr]. rewrite decide_True by done.
    step (run_lift _ _ _ eq_refl). step (delete_first res r o l s E Hdr El Ho).
    set (f := fun r => set_observers (unlink (ro_addr o) (observersHead r)) r). set (s1 := grow _ _).
    assert (node_at res (headResource s1) = Some (f r)) as E1 by by apply (on_addr_at res f).
    apply NoDup_cons in Hd as [Hn Hd].
    rewrite (IH Hd Ht (f r) s1 E1).
    + unfold s1. rewrite set_resources_grow, grow_grow. do 3 f_equal.
      * cbn [all_blocks foldr]. fold (all_blocks l). lia.
      * change (headResource (grow ?n ?s)) with (headResource s). change (headResource (set_resources ?l ?s)) with l.
        change (set_resources ?a (set_resources ?b s)) with (set_resources a s). f_equal. by rewrite on_addr_twice.
    + change (headResource s1) with (on_addr res f (headResource s)). by rewrite on_addr_addrs.
    + cbn [f observersHead set_observers]. rewrite El. cbn [unlink]. by rewrite decide_True.
Qed.

(** deleting the observers of a resource, as is done when the resource is
    deleted, gives back what they took and leaves none, when each has a
    token. *)
Theorem all_observers_released res r s : node_at res (headResource s) = Some r -> NoDup (addrs (headResource s)) ->
  NoDup (addrs (observersHead r)) -> Forall with_token (observersHead r) ->
  DeleteObserverList ProcessRequest res s = Some (tt, grow (- all_blocks (observersHead r))
    (set_resources (on_addr res (set_observers []) (headResource s)) s)).
Proof.
  intros E Hr Hd Ht. unfold DeleteObserverList. step (observers_of_run _ _ _ E).
  assert (length (addrs (observersHead r)) = length (observersHead r)) as -> by apply length_fmap.
  step (delete_all_run res _ r s E Hr Hd eq_refl Ht). unfold on_resource. rewrite run_modify. do 2 f_equal.
  rewrite set_resources_grow. f_equal. change (headResource (grow ?n ?s)) with (headResource s).
  change (headResource (set_resources ?l ?s)) with l. change (set_resources ?a (set_resources ?b s)) with (set_resources a s).
  by rewrite on_addr_twice.
Qed.
End Quiet.

(** ** At concrete inputs *)

#[local] Existing Instance sample_env.

(** An application that answers nothing, and no other parts of the stack. *)
Definition sample_stack_env : StackEnv := {|
  stack_server := sample_env; stack_mode := OC_SERVER; with_tcp := true; with_edr := false; with_le := true; with_nfc := false;
  parse_payload := fun _ _ _ => mret (OC_STACK_ERROR, None);
  entity_handler := fun _ _ _ => mret OC_EH_OK;
  default_device_handler := None;
  request_result := fun _ _ _ => CA_STATUS_OK;
  virtual_response := fun _ _ => mret OC_STACK_OK;
  keepalive_response := fun _ _ => mret OC_STACK_OK;
  collection_handler := fun _ _ => mret OC_STACK_OK |}.
#[local] Existing Instance sample_stack_env.

Definition sample_observer (a : positive) (id : Z) (t : list Z) (ttl : Z) : ResourceObserver := {|
  ro_addr := a; observeId := id; resUri := chars "/light"; ro_query := None; ro_token := Some t;
  ro_tokenLength := Z.of_nat (length t); ro_devAddr := sample_dev; ro_qos := OC_LOW_QOS; failedCommCount := 0;
  lowQosCount := 0; forceHighQos := 0; ro_TTL := ttl; ro_acceptFormat := OC_FORMAT_CBOR; ro_acceptVersion := 0 |}.

Definition sample_resource (obs : list ResourceObserver) : OCResource := {|
  rs_addr := 1; rs_uri := Some (chars "/light"); rsrcType := ["core.light"%string];
  rsrcInterface := ["oic.if.baseline"%string]; rsrcAttributes := []; rsrcChildResourcesHead := []; entityHandler := Some 1;
  rs_properties := 3; observersHead := obs; sequenceNum := 5; endpointType := 1 |}.

Definition sample_stack (obs : list ResourceObserver) : stack := {|
  st_server := sample_server []; headResource := [sample_resource obs]; st_random := []; coap_clock := 1000;
  presence_handle := None; presenceTTL := 0; st_posted := [] |}.

Definition first_observer : ResourceObserver := sample_observer 1 7 [1;2;3;4] UINT32_MAX.

Lemma every_fourth_confirmable_witness :
  decisions OC_REST_OBSERVE OC_NA_QOS 8 first_observer !! 7%nat = Some OC_HIGH_QOS /\
  decisions OC_REST_OBSERVE OC_NA_QOS 8 first_observer !! 5%nat = Some OC_LOW_QOS.
Proof.
  split; [apply (every_fourth_confirmable OC_REST_OBSERVE OC_NA_QOS 8 first_observer 7)
         |apply (every_fourth_confirmable OC_REST_OBSERVE OC_NA_QOS 8 first_observer 5)]; cbn; (done || lia).
Defined.

(** Two options with numbers behind the observe option. *)
Definition numbered (n : Z) : CAHeaderOption_t :=
  {| protocolID := CA_COAP_ID; optionID := n; optionLength := 0; optionData := [] |}.

Lemma observe_option_removed_witness :
  exists l', GetObserveHeaderOption (Some 2) (Some [numbered 1; observe_option 0; numbered 11; numbered 12]) (Some 4) =
      Some (OC_STACK_OK, Some 0, Some l', Some 3) /\
    take 3 l' = [numbered 1; numbered 11; numbered 11].
Proof.
  apply (observe_option_removed 2 [numbered 1] (observe_option 0) [numbered 11; numbered 12] 0);
    [by repeat constructor|reflexivity|reflexivity].
Defined.

Lemma observer_check_never_comes_witness :
  CheckTimedOutObserver (fun _ _ _ => mret OC_STACK_OK) 1 1 (sample_stack [first_observer]) =
    Some (tt, sample_stack [first_observer]).
Proof.
  apply (observer_check_never_comes (fun _ _ _ => mret OC_STACK_OK) 1 (sample_resource [first_observer]) first_observer 1000
    (sample_stack [first_observer])); [reflexivity|apply NoDup_singleton|left|reflexivity|reflexivity].
Defined.

Lemma observer_added_and_deleted_witness :
  exists o s', AddObserver (Some (chars "/light")) None 8 (Some [5;6]) 2 (Some 1%positive) OC_LOW_QOS OC_FORMAT_CBOR 0 sample_dev
      (sample_stack [first_observer]) = Some (OC_STACK_OK, s') /\
    node_at 1 (headResource s') = Some (sample_resource [first_observer; o]) /\
    observeId o = 8 /\ ro_token o = Some [5;6] /\
    GetObserverUsingToken (fun _ _ _ => mret OC_STACK_OK) 1 (Some [5;6]) 2 s' = Some (Some (ro_addr o), s') /\
    DeleteObserverUsingToken (fun _ _ _ => mret OC_STACK_OK) 1 (Some [5;6]) 2 s' = Some (OC_STACK_OK, sample_stack [first_observer]).
Proof.
  apply (observer_added_and_deleted (fun _ _ _ => mret OC_STACK_OK) (chars "/light") None 8 [5;6] 2 1
    (sample_resource [first_observer]) OC_LOW_QOS OC_FORMAT_CBOR 0 sample_dev (sample_stack [first_observer])).
  - reflexivity.
  - apply NoDup_singleton.
  - split; [apply NoDup_singleton|]. constructor; [right; by vm_compute|constructor].
  - reflexivity.
  - cbn. lia.
  - reflexivity.
  - constructor; [|constructor]. split; [|reflexivity]. eexists. split; [reflexivity|cbn; lia].
  - reflexivity.
Defined.
