(* ===== verification/Registry.v ===== *)
(** * Registry: creating, changing and deleting resources

    Models what the stack does with its list of resources for the application,
    in [csdk/stack/src/ocstack.c]: [OCCreateResourceWithEp], binding types,
    interfaces, transports, handlers and the members of a collection, deleting,
    the accessors and the presence that is sent on every change; built with
    [WITH_PRESENCE].  Theorems: what a resource takes is given back when it is
    deleted, what holds of every list of resources, and where the code departs
    from that. *)
From S2P Require Import Prelude Effects OicString Heap CaCommon CaMessage StackTypes Payload PayloadSpec Endpoint Discovery ServerRequest Resources Observe.

Definition set_uri (u : option (list Z)) (r : OCResource) : OCResource := {|
  rs_addr := rs_addr r; rs_uri := u; rsrcType := rsrcType r; rsrcInterface := rsrcInterface r;
  rsrcAttributes := rsrcAttributes r; rsrcChildResourcesHead := rsrcChildResourcesHead r;
  entityHandler := entityHandler r; rs_properties := rs_properties r; observersHead := observersHead r;
  sequenceNum := sequenceNum r; endpointType := endpointType r |}.
Definition set_types (l : list string) (r : OCResource) : OCResource := {|
  rs_addr := rs_addr r; rs_uri := rs_uri r; rsrcType := l; rsrcInterface := rsrcInterface r;
  rsrcAttributes := rsrcAttributes r; rsrcChildResourcesHead := rsrcChildResourcesHead r;
  entityHandler := entityHandler r; rs_properties := rs_properties r; observersHead := observersHead r;
  sequenceNum := sequenceNum r; endpointType := endpointType r |}.
Definition set_interfaces (l : list string) (r : OCResource) : OCResource := {|
  rs_addr := rs_addr r; rs_uri := rs_uri r; rsrcType := rsrcType r; rsrcInterface := l;
  rsrcAttributes := rsrcAttributes r; rsrcChildResourcesHead := rsrcChildResourcesHead r;
  entityHandler := entityHandler r; rs_properties := rs_properties r; observersHead := observersHead r;
  sequenceNum := sequenceNum r; endpointType := endpointType r |}.
Definition set_attributes (l : list (option OCAttribute)) (r : OCResource) : OCResource := {|
  rs_addr := rs_addr r; rs_uri := rs_uri r; rsrcType := rsrcType r; rsrcInterface := rsrcInterface r;
  rsrcAttributes := l; rsrcChildResourcesHead := rsrcChildResourcesHead r; entityHandler := entityHandler r;
  rs_properties := rs_properties r; observersHead := observersHead r; sequenceNum := sequenceNum r;
  endpointType := endpointType r |}.
Definition set_children (l : list positive) (r : OCResource) : OCResource := {|
  rs_addr := rs_addr r; rs_uri := rs_uri r; rsrcType := rsrcType r; rsrcInterface := rsrcInterface r;
  rsrcAttributes := rsrcAttributes r; rsrcChildResourcesHead := l; entityHandler := entityHandler r;
  rs_properties := rs_properties r; observersHead := observersHead r; sequenceNum := sequenceNum r;
  endpointType := endpointType r |}.
Definition set_handler (h : option Z) (r : OCResource) : OCResource := {|
  rs_addr := rs_addr r; rs_uri := rs_uri r; rsrcType := rsrcType r; rsrcInterface := rsrcInterface r;
  rsrcAttributes := rsrcAttributes r; rsrcChildResourcesHead := rsrcChildResourcesHead r; entityHandler := h;
  rs_properties := rs_properties r; observersHead := observersHead r; sequenceNum := sequenceNum r;
  endpointType := endpointType r |}.
Definition set_properties (p : Z) (r : OCResource) : OCResource := {|
  rs_addr := rs_addr r; rs_uri := rs_uri r; rsrcType := rsrcType r; rsrcInterface := rsrcInterface r;
  rsrcAttributes := rsrcAttributes r; rsrcChildResourcesHead := rsrcChildResourcesHead r;
  entityHandler := entityHandler r; rs_properties := p; observersHead := observersHead r;
  sequenceNum := sequenceNum r; endpointType := endpointType r |}.
Definition set_endpoints (t : Z) (r : OCResource) : OCResource := {|
  rs_addr := rs_addr r; rs_uri := rs_uri r; rsrcType := rsrcType r; rsrcInterface := rsrcInterface r;
  rsrcAttributes := rsrcAttributes r; rsrcChildResourcesHead := rsrcChildResourcesHead r;
  entityHandler := entityHandler r; rs_properties := rs_properties r; observersHead := observersHead r;
  sequenceNum := sequenceNum r; endpointType := t |}.

Definition CORESPEC : string := "core".
Definition OC_RSRVD_INTERFACE_DEFAULT : string := "oic.if.baseline".
Definition OC_SLOW : Z := 8.
Definition OC_EXPLICIT_DISCOVERABLE : Z := 32.
Definition OC_ALL : Z := 0xffff.
Definition OC_PRESENCE_TRIGGER_CREATE : Z := 0.
Definition OC_PRESENCE_TRIGGER_CHANGE : Z := 1.
Definition OC_MAX_PRESENCE_TTL_SECONDS : Z := 60 * 60 * 24.
Definition OC_DEFAULT_PRESENCE_TTL_SECONDS : Z := 60.
Definition sizeof_OCResource : Z := 136.
Definition sizeof_OCResourceType : Z := 16.
Definition sizeof_OCResourceInterface : Z := 16.
Definition sizeof_OCChildResource : Z := 16.

(** What is random, the selected networks, the security of the build and the
    resources of the security resource manager. *)
Class RegistryEnv := {
  registry_stack :: StackEnv;
  registry_dtls : bool;
  SelectedNetwork : Z;
  OCGetRandom : M stack Z;
  CAGenerateToken : Z -> M stack (CAResult_t * option (list Z));
  SRMDeInitSecureResources : M stack unit;
}.

(** Bytes of a name: of those that begin with "core" the rest is checked. *)
Definition core_char (c : Z) : bool :=
  (c =? 46) || (c =? 45) || ((97 <=? c) && (c <=? 122)) || ((48 <=? c) && (c <=? 57)).
Definition blank_char (c : Z) : bool := (c =? 32) || (c =? 9) || (c =? 13) || (c =? 10).

Definition ValidateResourceTypeInterface (resourceItemName : option string) : bool :=
  match resourceItemName with
  | None => false
  | Some name =>
      if has_prefix (chars CORESPEC) (chars name)
      then forallb core_char (drop (length (chars CORESPEC)) (chars name))
      else forallb (fun c => negb (blank_char c)) (chars name)
  end.

Section Registry.
Context `{RegistryEnv} (ProcessRequest : ResourceHandling -> option positive -> positive -> M stack OCStackResult).

(** ** Presence *)

(** What follows each change. *)
Definition presence_changed (rt : M stack (option string)) (trigger : Z) : M stack unit :=
  h ← gets presence_handle;
  match h with
  | None => mret tt
  | Some h =>
      _ ← resource_at h; n ← OCGetRandom; _ ← on_resource h (set_sequenceNum n);
      rt ← rt; _ ← SendPresenceNotification ProcessRequest rt trigger; mret tt
  end.

(** The name of the first type of a resource. *)
Definition first_type (res : positive) : M stack (option string) := r ← resource_at res; mret (head (rsrcType r)).

Definition OCChangeResourceProperty (inputProperty : option Z) (resourceProperties enable : Z) : OCStackResult * option Z :=
  match inputProperty with
  | None => (OC_STACK_INVALID_PARAM, None)
  | Some p =>
      if OC_ACTIVE ||| OC_DISCOVERABLE ||| OC_OBSERVABLE ||| OC_SLOW <? resourceProperties then (OC_STACK_INVALID_PARAM, Some p)
      else (OC_STACK_OK, Some (if enable =? 0 then Z.ldiff p resourceProperties else p ||| resourceProperties))
  end.

(** The property of a resource. *)
Definition change_property (res : positive) (p enable : Z) : M stack OCStackResult :=
  r ← resource_at res;
  let '(result, q) := OCChangeResourceProperty (Some (rs_properties r)) p enable in
  _ ← on_resource res (set_properties (default 0 q)); mret result.

Definition set_presenceTTL (ttl : Z) (s : stack) : stack := {|
  st_server := st_server s; headResource := headResource s; st_random := st_random s; coap_clock := coap_clock s;
  presence_handle := presence_handle s; presenceTTL := ttl; st_posted := st_posted s |}.

Definition default_device : OCDevAddr := {|
  dev_endpoint := {| adapter := 0; flags := 0; port := 0; addr := []; ifindex := 0; remoteId := [] |}; routeData := [] |}.

(** [initialized] is the static [presenceState], which is returned as well. *)
Definition OCStartPresence (ttl : Z) (initialized : bool) : M stack (OCStackResult * bool) :=
  h ← gets presence_handle;
  match h with
  | None => mret (OC_STACK_ERROR, initialized)
  | Some h =>
      _ ← change_property h OC_ACTIVE 1;
      _ ← modify (set_presenceTTL (if OC_MAX_PRESENCE_TTL_SECONDS <? ttl then OC_MAX_PRESENCE_TTL_SECONDS
                                   else if ttl =? 0 then OC_DEFAULT_PRESENCE_TTL_SECONDS else ttl));
      ok ← (if initialized : bool then mret true
            else
              '(result, token) ← CAGenerateToken CA_MAX_TOKEN_LEN;
              if decide (result <> CA_STATUS_OK) then _ ← in_heap (OICFree token); mret false
              else
                _ ← AddObserver (Some (chars OC_RSRVD_PRESENCE_URI)) None 0 token CA_MAX_TOKEN_LEN (Some h) OC_LOW_QOS
                      OC_FORMAT_UNDEFINED OC_SPEC_VERSION_VALUE default_device;
                _ ← in_heap (OICFree token); mret true);
      if negb ok then mret (OC_STACK_ERROR, true)
      else
        n ← OCGetRandom; _ ← on_resource h (set_sequenceNum n);
        rt ← first_type h; result ← SendPresenceNotification ProcessRequest rt OC_PRESENCE_TRIGGER_CREATE;
        mret (result, true)
  end.

Definition OCStopPresence : M stack OCStackResult :=
  h ← gets presence_handle;
  match h with
  | None => mret OC_STACK_ERROR
  | Some h =>
      n ← OCGetRandom; _ ← on_resource h (set_sequenceNum n);
      result ← change_property h OC_ACTIVE 0;
      match result with
      | OC_STACK_OK => SendStopNotification ProcessRequest
      | result => mret result
      end
  end.

(** ** The list of resources *)

(** The node at an address once it is no longer in the list: what reaches it
    finds it alone. *)
Definition on_detached {A} (r : OCResource) (m : M stack A) : M stack A := fun s =>
  match m (set_resources [r] s) with
  | Some (a, s') => Some (a, set_resources (headResource s) s')
  | None => None
  end.

Definition insertResource (resource : OCResource) : M stack unit :=
  modify (fun s => set_resources (LL_APPEND (headResource s) resource) s).

Definition free_name (n : string) : M heap unit := _ ← OICFree (Some n); OICFree (Some tt).
Fixpoint free_all {A} (free : A -> M heap unit) (l : list A) : M heap unit :=
  match l with [] => mret tt | x :: l' => _ ← free x; free_all free l' end.

Definition deleteResourceType (resourceType : list string) : M heap unit := free_all free_name resourceType.
Definition deleteResourceInterface (resourceInterface : list string) : M heap unit := free_all free_name resourceInterface.

(** The value of the version of the data model is a list; any other value is
    one block to the code. *)
Definition OC_RSRVD_DATA_MODEL_VERSION : string := "dmv".

Definition free_value (v : attr_value) : M heap unit :=
  match v with NoValue => mret tt | _ => OICFree (Some tt) end.

Definition free_attribute (a : OCAttribute) : M heap unit :=
  _ ← (if decide (attrName a = Some OC_RSRVD_DATA_MODEL_VERSION) then
         match attrValue a with
         | NoValue => mret tt
         | ListValue l => OCFreeOCStringLL l
         | TextValue _ => undefined
         end
       else free_value (attrValue a));
  _ ← OICFree (attrName a); OICFree (Some tt).

(** A node that has been freed is not to be followed. *)
Definition OCDeleteResourceAttributes (rsrcAttributes : list (option OCAttribute)) : M heap unit :=
  free_all (fun a => a ← lift a; free_attribute a) rsrcAttributes.

(** The first node of the members is freed, not those after it.  An observer
    whose time is up would be told so; none is ([observer_ttl_last]), and what
    the code would do is left undefined. *)
Definition deleteResourceElements (r : OCResource) : M stack unit :=
  _ ← in_heap (OICFree (rs_uri r));
  _ ← in_heap (deleteResourceType (rsrcType r));
  _ ← in_heap (deleteResourceInterface (rsrcInterface r));
  _ ← in_heap (OICFree (head (rsrcChildResourcesHead r)));
  _ ← in_heap (OCDeleteResourceAttributes (rsrcAttributes r));
  now ← gets coap_clock;
  if existsb (fun o => negb (ro_TTL o =? 0) && (ro_TTL o <? now)) (observersHead r) then undefined
  else on_detached r (DeleteObserverList ProcessRequest (rs_addr r)).

(** The node before an address. *)
Fixpoint node_before (a : positive) (prev : option positive) (l : list positive) : option (option positive) :=
  match l with [] => None | x :: l' => if decide (x = a) then Some prev else node_before a (Some x) l' end.

(** [temp] and [prev] have been found before the application was told: neither
    may have been deleted since, unless [temp] is the first by now. *)
Definition unlink_resource (prev : option positive) (temp : positive) : M stack unit :=
  l ← all_resources;
  if decide (temp ∉ l) then undefined
  else if decide (head l = Some temp) then modify (fun s => set_resources (unlink temp (headResource s)) s)
  else
    match prev with
    | Some p =>
        if decide (p ∈ l) then modify (fun s => set_resources (unlink temp (headResource s)) s) else undefined
    | None => undefined
    end.

Definition deleteResource (resource : option positive) : M stack OCStackResult :=
  match resource with
  | None => mret OC_STACK_INVALID_PARAM
  | Some temp =>
      l ← all_resources;
      match node_before temp None l with
      | None => mret OC_STACK_ERROR
      | Some prev =>
          _ ← on_resource temp (set_properties 0);
          presence ← gets presence_handle;
          _ ← (if decide (resource <> presence) then _ ← OCNotifyAllObservers ProcessRequest resource OC_HIGH_QOS; mret tt
               else mret tt);
          _ ← presence_changed (first_type temp) OC_PRESENCE_TRIGGER_DELETE;
          r ← resource_at temp;
          _ ← unlink_resource prev temp;
          _ ← deleteResourceElements r;
          _ ← in_heap (OICFree (Some r));
          mret OC_STACK_OK
      end
  end.

Definition OCDeleteResource (handle : option positive) : M stack OCStackResult :=
  match handle with
  | None => mret OC_STACK_INVALID_PARAM
  | Some h =>
      resource ← findResource h;
      match resource with
      | None => mret OC_STACK_NO_RESOURCE
      | Some _ =>
          result ← deleteResource handle;
          mret (if decide (result <> OC_STACK_OK) then OC_STACK_ERROR else OC_STACK_OK)
      end
  end.

(** The loop remembers the next node before it deletes one; the handles of the
    stack's own resources are reset in passing. *)
Fixpoint delete_from (fuel : nat) (pointer : option positive) : M stack unit :=
  match pointer with
  | None => mret tt
  | Some p =>
      match fuel with
      | O => undefined
      | S fuel' =>
          l ← all_resources;
          temp ← lift (next_addr p l);
          presence ← gets presence_handle;
          _ ← (if decide (Some p <> presence) then _ ← deleteResource (Some p); mret tt else mret tt);
          delete_from fuel' temp
      end
  end.

Definition set_presence_handle (h : option positive) (s : stack) : stack := {|
  st_server := st_server s; headResource := headResource s; st_random := st_random s; coap_clock := coap_clock s;
  presence_handle := h; presenceTTL := presenceTTL s; st_posted := st_posted s |}.

Definition deleteAllResources : M stack unit :=
  l ← all_resources;
  _ ← delete_from (length l) (head l);
  _ ← SRMDeInitSecureResources;
  h ← gets presence_handle;
  _ ← deleteResource h;
  modify (fun s => set_presenceTTL 0 (set_presence_handle None s)).

(** ** Types, interfaces and transports *)

Definition insertResourceType (resource : positive) (resourceType : string) : M stack unit :=
  r ← resource_at resource;
  if decide (resourceType ∈ rsrcType r) then in_heap (free_name resourceType)
  else on_resource resource (set_types (rsrcType r ++ [resourceType])).

(** The node and the copy of its name. *)
Definition new_name (size : Z) (n : string) : M heap (option string) :=
  ok ← OICCalloc 1 size;
  if negb ok then mret None
  else
    str ← OICStrdup (Some n);
    match str with
    | None => _ ← OICFree (Some tt); mret None
    | Some s => mret (Some s)
    end.

Definition BindResourceTypeToResource (resource : positive) (resourceTypeName : option string) : M stack OCStackResult :=
  match resourceTypeName with
  | None => mret OC_STACK_INVALID_PARAM
  | Some n =>
      if negb (ValidateResourceTypeInterface resourceTypeName) then mret OC_STACK_INVALID_PARAM
      else
        p ← in_heap (new_name sizeof_OCResourceType n);
        match p with
        | None => mret OC_STACK_NO_MEMORY
        | Some p => _ ← insertResourceType resource p; mret OC_STACK_OK
        end
  end.

(** [bind] is the function below.  The first interface of a list that has one
    is not looked past when it gets a successor. *)
Definition insertResourceInterface (bind : positive -> option string -> M stack OCStackResult) (resource : positive)
    (newInterface : string) : M stack unit :=
  r ← resource_at resource;
  match rsrcInterface r with
  | [] =>
      if decide (newInterface = OC_RSRVD_INTERFACE_DEFAULT) then on_resource resource (set_interfaces [newInterface])
      else
        result ← bind resource (Some OC_RSRVD_INTERFACE_DEFAULT);
        if decide (result <> OC_STACK_OK) then in_heap (free_name newInterface)
        else
          r ← resource_at resource;
          match rsrcInterface r with
          | first :: _ => on_resource resource (set_interfaces [first; newInterface])
          | [] => mret tt
          end
  | first :: _ =>
      if decide (newInterface = OC_RSRVD_INTERFACE_DEFAULT) then
        if decide (first = OC_RSRVD_INTERFACE_DEFAULT) then in_heap (free_name newInterface)
        else on_resource resource (set_interfaces (newInterface :: rsrcInterface r))
      else if decide (newInterface ∈ rsrcInterface r) then in_heap (free_name newInterface)
      else on_resource resource (set_interfaces (rsrcInterface r ++ [newInterface]))
  end.

(** Inserting an interface binds the default one before it and that binds
    nothing more: two calls are enough ([bind_interface_enough]). *)
Fixpoint bind_interface (n : nat) (resource : positive) (resourceInterfaceName : option string) : M stack OCStackResult :=
  match n with
  | O => undefined
  | S n' =>
      match resourceInterfaceName with
      | None => mret OC_STACK_INVALID_PARAM
      | Some name =>
          if negb (ValidateResourceTypeInterface resourceInterfaceName) then mret OC_STACK_INVALID_PARAM
          else
            p ← in_heap (new_name sizeof_OCResourceInterface name);
            match p with
            | None => mret OC_STACK_NO_MEMORY
            | Some p => _ ← insertResourceInterface (bind_interface n') resource p; mret OC_STACK_OK
            end
      end
  end.

Definition BindResourceInterfaceToResource : positive -> option string -> M stack OCStackResult := bind_interface 2.

Definition BindTpsTypeToResource (resource : option positive) (resourceTpsTypes : Z) : M stack OCStackResult :=
  match resource with
  | None => mret OC_STACK_INVALID_PARAM
  | Some a =>
      let '(result, supported) := OCGetSupportedEndpointFlags with_tcp with_edr with_le with_nfc registry_dtls SelectedNetwork
                                    resourceTpsTypes (Some OC_NO_TPS) in
      let supportedTps := default OC_NO_TPS supported in
      if decide (result <> OC_STACK_OK) then mret result
      else if supportedTps =? OC_NO_TPS then mret OC_STACK_BAD_ENDPOINT
      else _ ← on_resource a (set_endpoints supportedTps); mret result
  end.

(** ** Creating *)

Definition OC_MASK_RESOURCE_SECURE : Z := OC_NONSECURE ||| OC_SECURE registry_dtls.

Definition allowed_properties : Z :=
  OC_ACTIVE ||| OC_DISCOVERABLE ||| OC_OBSERVABLE ||| OC_SLOW ||| OC_NONSECURE ||| OC_SECURE registry_dtls |||
  OC_EXPLICIT_DISCOVERABLE.

Definition valid_tps : Z :=
  OC_NO_TPS ||| OC_COAP ||| OC_COAPS ||| (if with_tcp then OC_COAP_TCP ||| OC_COAPS_TCP else 0) |||
  (if with_edr then OC_COAP_RFCOMM else 0) ||| (if with_le then OC_COAP_GATT else 0) ||| (if with_nfc then OC_COAP_NFC else 0).

(** [strncmp] with [MAX_URI_LENGTH], over the URIs there are. *)
Fixpoint uri_taken (uri : list Z) (l : list OCResource) : ub bool :=
  match l with
  | [] => Some false
  | r :: l' =>
      u ← rs_uri r;
      if decide (take (Z.to_nat MAX_URI_LENGTH) uri = take (Z.to_nat MAX_URI_LENGTH) u) then Some true else uri_taken uri l'
  end.

Definition zero_resource (a : positive) : OCResource := {|
  rs_addr := a; rs_uri := None; rsrcType := []; rsrcInterface := []; rsrcAttributes := []; rsrcChildResourcesHead := [];
  entityHandler := None; rs_properties := 0; observersHead := []; sequenceNum := OC_OFFSET_SEQUENCE_NUMBER;
  endpointType := 0 |}.

(** From the URI on: what a failure leaves is deleted by the caller. *)
Definition fill_resource (pointer : positive) (uri : list Z) (typeName interfaceName : string) (handler : option Z)
    (resourceProperties resourceTpsTypes : Z) : M stack OCStackResult :=
  u ← in_heap (OICStrdup (Some uri));
  _ ← on_resource pointer (set_uri u);
  match u with
  | None => mret OC_STACK_NO_MEMORY
  | Some _ =>
      let properties := if resourceProperties &&& OC_MASK_RESOURCE_SECURE =? 0 then resourceProperties ||| OC_NONSECURE
                        else resourceProperties in
      _ ← on_resource pointer (set_properties (properties ||| OC_ACTIVE));
      result ← BindResourceTypeToResource pointer (Some typeName);
      if decide (result <> OC_STACK_OK) then mret result
      else
        result ← BindResourceInterfaceToResource pointer (Some interfaceName);
        if decide (result <> OC_STACK_OK) then mret result
        else
          result ← BindTpsTypeToResource (Some pointer) resourceTpsTypes;
          if decide (result <> OC_STACK_OK) then mret result
          else
            _ ← on_resource pointer (set_handler (Some (default defaultResourceEHandler handler)));
            _ ← on_resource pointer (set_children []);
            _ ← on_resource pointer (set_observers []);
            mret OC_STACK_OK
  end.

(** The handle, where it is set.  [handle] says whether there is a place for
    it. *)
Definition OCCreateResourceWithEp (handle : bool) (resourceTypeName resourceInterfaceName : option string)
    (uri : option (list Z)) (handler : option Z) (resourceProperties resourceTpsTypes : Z)
    : M stack (OCStackResult * option positive) :=
  if decide (stack_mode = OC_CLIENT) then mret (OC_STACK_INVALID_PARAM, None)
  else
    match uri with
    | None | Some [] => mret (OC_STACK_INVALID_URI, None)
    | Some u =>
        if MAX_URI_LENGTH <=? Z.of_nat (length u) then mret (OC_STACK_INVALID_URI, None)
        else
          match handle, resourceTypeName with
          | true, Some (String _ _ as typeName) =>
              let interfaceName := match resourceInterfaceName with
                                   | None | Some EmptyString => OC_RSRVD_INTERFACE_DEFAULT
                                   | Some i => i
                                   end in
              if allowed_properties <? resourceProperties then mret (OC_STACK_INVALID_PARAM, None)
              else if (resourceTpsTypes <? OC_COAP) || (negb (resourceTpsTypes =? OC_ALL) && (valid_tps <? resourceTpsTypes))
              then mret (OC_STACK_INVALID_PARAM, None)
              else
                l ← gets headResource;
                taken ← lift (uri_taken u l);
                if taken : bool then mret (OC_STACK_INVALID_PARAM, None)
                else
                  ok ← in_heap (OICCalloc 1 sizeof_OCResource);
                  if negb ok then _ ← deleteResource None; mret (OC_STACK_NO_MEMORY, None)
                  else
                    let pointer := new_address l in
                    _ ← insertResource (zero_resource pointer);
                    result ← fill_resource pointer u typeName interfaceName handler resourceProperties resourceTpsTypes;
                    if decide (result <> OC_STACK_OK) then _ ← deleteResource (Some pointer); mret (result, None)
                    else
                      _ ← presence_changed (first_type pointer) OC_PRESENCE_TRIGGER_CREATE;
                      mret (OC_STACK_OK, Some pointer)
          | _, _ => mret (OC_STACK_INVALID_PARAM, None)
          end
    end.

Definition OCCreateResource (handle : bool) (resourceTypeName resourceInterfaceName : option string) (uri : option (list Z))
    (handler : option Z) (resourceProperties : Z) : M stack (OCStackResult * option positive) :=
  OCCreateResourceWithEp handle resourceTypeName resourceInterfaceName uri handler resourceProperties OC_ALL.

(** ** Collections *)

(** The member is whatever pointer it is. *)
Definition OCBindResource (collectionHandle resourceHandle : option positive) : M stack OCStackResult :=
  match collectionHandle, resourceHandle with
  | Some c, Some m =>
      if decide (c = m) then mret OC_STACK_INVALID_PARAM
      else
        resource ← findResource c;
        match resource with
        | None => mret OC_STACK_INVALID_PARAM
        | Some c =>
            ok ← in_heap (OICCalloc 1 sizeof_OCChildResource);
            if negb ok then mret OC_STACK_ERROR
            else
              _ ← on_resource c (fun r => set_children (rsrcChildResourcesHead r ++ [m]) r);
              _ ← presence_changed (first_type m) OC_PRESENCE_TRIGGER_CHANGE;
              mret OC_STACK_OK
        end
  | _, _ => mret OC_STACK_ERROR
  end.

Fixpoint remove_first (m : positive) (l : list positive) : option (list positive) :=
  match l with [] => None | x :: l' => if decide (x = m) then Some l' else cons x <$> remove_first m l' end.

Definition OCUnBindResource (collectionHandle resourceHandle : option positive) : M stack OCStackResult :=
  match collectionHandle, resourceHandle with
  | Some c, Some m =>
      if decide (c = m) then mret OC_STACK_INVALID_PARAM
      else
        resource ← findResource c;
        match resource with
        | None => mret OC_STACK_INVALID_PARAM
        | Some c =>
            r ← resource_at c;
            match remove_first m (rsrcChildResourcesHead r) with
            | None => mret OC_STACK_ERROR
            | Some l =>
                _ ← in_heap (OICFree (Some tt));
                _ ← on_resource c (set_children l);
                _ ← presence_changed (first_type m) OC_PRESENCE_TRIGGER_CHANGE;
                mret OC_STACK_OK
            end
        end
  | _, _ => mret OC_STACK_ERROR
  end.

Definition OCGetResourceHandleFromCollection (collectionHandle : positive) (index : Z) : M stack (option positive) :=
  resource ← findResource collectionHandle;
  match resource with
  | None => mret None
  | Some c => r ← resource_at c; mret (rsrcChildResourcesHead r !! Z.to_nat index)
  end.

(** ** Changing a resource and looking at it *)

(** An operation on the resource of a handle. *)
Definition with_resource {A} (handle : positive) (missing : A) (m : positive -> M stack A) : M stack A :=
  resource ← findResource handle;
  match resource with None => mret missing | Some a => m a end.

Definition OCBindResourceTypeToResource (handle : positive) (resourceTypeName : option string) : M stack OCStackResult :=
  with_resource handle OC_STACK_ERROR (fun a =>
    result ← BindResourceTypeToResource a resourceTypeName;
    _ ← presence_changed (first_type a) OC_PRESENCE_TRIGGER_CHANGE; mret result).

Definition OCBindResourceInterfaceToResource (handle : positive) (resourceInterfaceName : option string)
    : M stack OCStackResult :=
  with_resource handle OC_STACK_ERROR (fun a =>
    result ← BindResourceInterfaceToResource a resourceInterfaceName;
    _ ← presence_changed (first_type a) OC_PRESENCE_TRIGGER_CHANGE; mret result).

Definition OCBindResourceHandler (handle : option positive) (handler : option Z) : M stack OCStackResult :=
  match handle with
  | None => mret OC_STACK_INVALID_PARAM
  | Some h =>
      with_resource h OC_STACK_ERROR (fun a =>
        _ ← on_resource a (set_handler handler);
        _ ← presence_changed (first_type a) OC_PRESENCE_TRIGGER_CHANGE; mret OC_STACK_OK)
  end.

Definition OCGetResourceHandler (handle : positive) : M stack (option Z) :=
  with_resource handle None (fun a => r ← resource_at a; mret (entityHandler r)).

Definition OCSetResourceProperties (handle : positive) (properties : Z) : M stack OCStackResult :=
  with_resource handle OC_STACK_NO_RESOURCE (fun a =>
    _ ← on_resource a (fun r => set_properties (rs_properties r ||| properties) r); mret OC_STACK_OK).

Definition OCClearResourceProperties (handle : positive) (properties : Z) : M stack OCStackResult :=
  with_resource handle OC_STACK_NO_RESOURCE (fun a =>
    _ ← on_resource a (fun r => set_properties (Z.ldiff (rs_properties r) properties) r); mret OC_STACK_OK).

Definition OCGetResourceProperties (handle : positive) : M stack Z :=
  with_resource handle (u32 (-1)) (fun a => r ← resource_at a; mret (rs_properties r)).

Definition OCGetResourceUri (handle : positive) : M stack (option (list Z)) :=
  with_resource handle None (fun a => r ← resource_at a; mret (rs_uri r)).

(** Counting the nodes of a list in a [uint8_t]. *)
Fixpoint count_from {A} (n : Z) (l : list A) : Z := match l with [] => n | _ :: l' => count_from (u8 (n + 1)) l' end.

(** The number where it is set. *)
Definition OCGetNumberOfResources (numResources : bool) : M stack (OCStackResult * option Z) :=
  if numResources then l ← gets headResource; mret (OC_STACK_OK, Some (count_from 0 l))
  else mret (OC_STACK_INVALID_PARAM, None).

Definition OCGetResourceHandle (index : Z) : M stack (option positive) :=
  l ← all_resources; mret (l !! Z.to_nat index).

Definition number_of (names : OCResource -> list string) (handle : option positive) (out : bool)
    : M stack (OCStackResult * option Z) :=
  match handle, out with
  | Some h, true => n ← with_resource h 0 (fun a => r ← resource_at a; mret (count_from 0 (names r))); mret (OC_STACK_OK, Some n)
  | _, _ => mret (OC_STACK_INVALID_PARAM, None)
  end.

Definition OCGetNumberOfResourceTypes : option positive -> bool -> M stack (OCStackResult * option Z) := number_of rsrcType.
Definition OCGetNumberOfResourceInterfaces : option positive -> bool -> M stack (OCStackResult * option Z) :=
  number_of rsrcInterface.

Definition findResourceTypeAtIndex (handle : positive) (index : Z) : M stack (option string) :=
  with_resource handle None (fun a => r ← resource_at a; mret (rsrcType r !! Z.to_nat index)).
Definition findResourceInterfaceAtIndex (handle : positive) (index : Z) : M stack (option string) :=
  with_resource handle None (fun a => r ← resource_at a; mret (rsrcInterface r !! Z.to_nat index)).

Definition OCGetResourceTypeName : positive -> Z -> M stack (option string) := findResourceTypeAtIndex.
Definition OCGetResourceInterfaceName : positive -> Z -> M stack (option string) := findResourceInterfaceAtIndex.

Definition findResourceType (resourceTypeList : list string) (resourceTypeName : option string) : option string :=
  match resourceTypeName with None => None | Some n => find (fun t => bool_decide (n = t)) resourceTypeList end.
End Registry.
