(* ===== verification/RegistryLaws.v ===== *)
(** * RegistryLaws: what holds of the list of resources

    Theorems about [Registry]: any sequence of calls leaves a list of well-formed
    resources and loses no count of its memory, whatever the allocator answers;
    a resource that is created can be found, and deleting it gives back what
    it took; where the code departs from that.  The calls run without a presence
    resource and without observers, so that the application is not told. *)
From S2P Require Import Prelude Effects Heap CaCommon CaMessage StackTypes Payload PayloadSpec Endpoint Discovery ServerRequest Resources Observe Registry.

(** ** How far an operation reaches

    From [s] to [s'] nothing has changed but the list, the answers of the
    allocator and the number of blocks in use, which has grown by [n]. *)
Definition moves (s : stack) (l : list OCResource) (n : Z) (s' : stack) : Prop :=
  exists h, took (stack_heap s) n h /\ s' = set_stack_heap h (set_resources l s).

Section Moves.
Implicit Types s : stack.

Lemma moves_refl s : moves s (headResource s) 0 s.
Proof. exists (stack_heap s). split; [apply took_refl|]. by destruct s as [[] ? ? ? ? ? ?]. Qed.

Lemma moves_trans s l1 n1 s1 l2 n2 s2 n : moves s l1 n1 s1 -> moves s1 l2 n2 s2 -> n = n1 + n2 -> moves s l2 n s2.
Proof.
  intros (h1 & H1 & ->) (h2 & H2 & ->) ->. exists h2. split; [|done]. eapply took_trans; [exact H1|exact H2|done].
Qed.

Lemma moves_eq s l n s' n' : moves s l n s' -> n = n' -> moves s l n' s'.
Proof. by intros ? <-. Qed.

Lemma moves_resources s l : moves s l 0 (set_resources l s).
Proof. exists (stack_heap s). split; [apply took_refl|]. by destruct s as [[] ? ? ? ? ? ?]. Qed.

Lemma moves_head s l n s' : moves s l n s' -> headResource s' = l.
Proof. by intros (h & _ & ->). Qed.

Lemma moves_presence s l n s' : moves s l n s' -> presence_handle s' = presence_handle s.
Proof. by intros (h & _ & ->). Qed.

Lemma moves_live s l n s' : moves s l n s' -> live (stack_heap s') = live (stack_heap s) + n.
Proof. by intros (h & [H _] & ->). Qed.

Lemma moves_answers s l n s' : moves s l n s' -> hp_allocs (stack_heap s) = [] -> hp_allocs (stack_heap s') = [].
Proof. by intros (h & [_ H] & ->). Qed.

(** With an allocator that does not fail there is one such state. *)
Lemma moves_grow s l n s' : moves s l n s' -> hp_allocs (stack_heap s) = [] -> s' = grow n (set_resources l s).
Proof.
  intros ([al lv] & [Hl Ha] & ->) Hs. specialize (Ha Hs). cbn in Hl, Ha. subst al lv. unfold grow, add_live. cbn.
  by rewrite <- Hs.
Qed.

Lemma moves_heap s h n : took (stack_heap s) n h -> moves s (headResource s) n (with_heap h s).
Proof. intros Hh. exists h. split; [done|]. by destruct s as [[] ? ? ? ? ? ?]. Qed.

Lemma wp_get {A} (f : stack -> A) s (Q : A -> stack -> Prop) : Q (f s) s -> wp (gets f) s Q.
Proof. done. Qed.

Lemma wp_resource a r s (Q : OCResource -> stack -> Prop) : node_at a (headResource s) = Some r -> Q r s -> wp (resource_at a) s Q.
Proof. intros E. apply wp_run. by apply resource_at_run. Qed.

Lemma wp_change a f s (Q : unit -> stack -> Prop) : Q tt (set_resources (on_addr a f (headResource s)) s) -> wp (on_resource a f) s Q.
Proof. done. Qed.

Lemma wp_heap_frees m n s (Q : unit -> stack -> Prop) : frees m n ->
  (forall s', moves s (headResource s) (- n) s' -> Q tt s') -> wp (in_heap m) s Q.
Proof. intros Hm HQ. apply wp_in_heap, (wp_frees _ n); [done|]. intros h Hh. by apply HQ, moves_heap. Qed.
End Moves.

(** ** Names, types and interfaces *)

Definition name_blocks (l : list string) : Z := 2 * Z.of_nat (length l).

Lemma frees_name n : frees (free_name n) 2.
Proof. eapply frees_eq; [apply frees_bind; apply frees_ptr|done]. Qed.

Lemma frees_list {A} (free : A -> M heap unit) (g : A -> Z) l : Forall (fun x => frees (free x) (g x)) l ->
  frees (free_all free l) (total g l).
Proof. intros Hl. induction Hl as [|x l Hx Hl IH]; [apply frees_ret|]. by apply frees_bind. Qed.

Lemma frees_names l : frees (free_all free_name l) (name_blocks l).
Proof.
  eapply frees_eq; [apply (frees_list _ (fun _ => 2)), Forall_forall; intros; apply frees_name|].
  unfold name_blocks. induction l as [|x l IH]; [done|]. change (2 + total (fun _ => 2) l = 2 * Z.of_nat (S (length l))). lia.
Qed.

Lemma wp_new_name size n h (Q : option string -> heap -> Prop) : size <> 0 -> size <= SIZE_MAX ->
  (forall h', took h 2 h' -> Q (Some n) h') -> (hp_allocs h <> [] -> forall h', took h 0 h' -> Q None h') ->
  wp (new_name size n) h Q.
Proof.
  intros Hs Hm Ht Hf. unfold new_name. apply wp_bind. apply wp_asks; [apply asks_calloc; lia| |]; cbn [negb].
  - intros h1 H1. apply wp_bind, wp_strdup.
    + intros h2 H2. apply wp_ret, Ht. by eapply took_trans; [exact H1|exact H2|].
    + intros Hn h2 H2. apply wp_bind. eapply wp_frees; [apply frees_ptr|]. intros h3 H3. apply wp_ret, Hf.
      * intros E. by apply Hn, (took_nil _ _ _ H1).
      * eapply (took_trans h 1); [exact H1|eapply took_trans; [exact H2|exact H3|reflexivity]|done].
  - intros Hn h1 H1. by apply wp_ret, Hf.
Qed.

(** What binding makes of the lists. *)
Definition add_type (t : string) (l : list string) : list string := if decide (t ∈ l) then l else l ++ [t].

Definition add_interface (i : string) (l : list string) : list string :=
  match l with
  | [] => if decide (i = OC_RSRVD_INTERFACE_DEFAULT) then [i] else [OC_RSRVD_INTERFACE_DEFAULT; i]
  | first :: _ =>
      if decide (i = OC_RSRVD_INTERFACE_DEFAULT) then if decide (first = i) then l else i :: l
      else if decide (i ∈ l) then l else l ++ [i]
  end.

Definition added (f : list string -> list string) (l : list string) : Z := name_blocks (f l) - name_blocks l.

Section Bind.
Context `{RegistryEnv}.
Implicit Types s : stack.

Lemma on_addr_same a f (l : list OCResource) r : NoDup (addrs l) -> node_at a l = Some r -> f r = r -> on_addr a f l = l.
Proof. intros Hd E Hf. rewrite (on_addr_ext a f (fun x => x) l r Hd E Hf). apply on_addr_id. Qed.

Lemma set_types_same r : set_types (rsrcType r) r = r.
Proof. by destruct r. Qed.
Lemma set_interfaces_same r : set_interfaces (rsrcInterface r) r = r.
Proof. by destruct r. Qed.

Lemma set_interfaces_twice a l l' rs : on_addr a (set_interfaces l') (on_addr a (set_interfaces l) rs) = on_addr a (set_interfaces l') rs.
Proof. by rewrite on_addr_twice. Qed.

(** A type is bound, or the name or the memory will not do. *)
Lemma bind_type_wp a r t s (Q : OCStackResult -> stack -> Prop) : NoDup (addrs (headResource s)) ->
  node_at a (headResource s) = Some r ->
  (forall s', ValidateResourceTypeInterface (Some t) = true ->
    moves s (on_addr a (set_types (add_type t (rsrcType r))) (headResource s)) (added (add_type t) (rsrcType r)) s' ->
    Q OC_STACK_OK s') ->
  (forall res s', res <> OC_STACK_OK ->
    (ValidateResourceTypeInterface (Some t) = true -> hp_allocs (stack_heap s) <> []) ->
    moves s (headResource s) 0 s' -> Q res s') ->
  wp (BindResourceTypeToResource a (Some t)) s Q.
Proof.
  intros Hd Ea Hok Hno. unfold BindResourceTypeToResource. destruct (ValidateResourceTypeInterface (Some t)) eqn:Ev; cbn [negb].
  2: { apply wp_ret, Hno; [done|done|apply moves_refl]. }
  apply wp_bind, wp_in_heap, wp_new_name; [done|done| |].
  2: { intros Hn h Hh. apply wp_ret, Hno; [done|done|by apply moves_heap]. }
  intros h Hh. pose proof (moves_heap s h 2 Hh) as Hm. set (s1 := with_heap h s) in *. cbn beta iota.
  assert (headResource s1 = headResource s) as Es by done.
  apply wp_bind. unfold insertResourceType. apply wp_bind, (wp_resource a r); [by rewrite Es|].
  unfold added, add_type in *. case_decide.
  - eapply wp_heap_frees; [apply frees_name|]. intros s2 H2. apply wp_ret, Hok; [done|].
    rewrite (on_addr_same a _ _ r Hd Ea (set_types_same r)). eapply moves_trans; [exact Hm| |].
    + rewrite Es in H2. exact H2.
    + lia.
  - apply wp_change, wp_ret, Hok; [done|]. eapply moves_trans; [exact Hm| |].
    + rewrite Es. apply moves_resources.
    + unfold name_blocks. rewrite length_app. cbn. lia.
Qed.

Lemma wp_named n a i s (Q : OCStackResult -> stack -> Prop) :
  (forall s', moves s (headResource s) 2 s' ->
    wp (insertResourceInterface (bind_interface n) a i) s' (fun _ => Q OC_STACK_OK)) ->
  (forall res s', res <> OC_STACK_OK ->
    (ValidateResourceTypeInterface (Some i) = true -> hp_allocs (stack_heap s) <> []) ->
    moves s (headResource s) 0 s' -> Q res s') ->
  wp (bind_interface (S n) a (Some i)) s
    (fun res s' => (res = OC_STACK_OK -> ValidateResourceTypeInterface (Some i) = true) /\ Q res s').
Proof.
  intros Hok Hno. cbn [bind_interface]. destruct (ValidateResourceTypeInterface (Some i)) eqn:Ev; cbn [negb].
  2: { apply wp_ret. split; [done|]. apply Hno; [done|done|apply moves_refl]. }
  apply wp_bind, wp_in_heap, wp_new_name; [done|done| |].
  - intros h Hh. apply wp_bind. eapply wp_mono; [exact (Hok _ (moves_heap s h 2 Hh))|]. intros [] s' HQ. by apply wp_ret.
  - intros Hn h Hh. apply wp_ret. split; [done|]. apply Hno; [done|done|by apply moves_heap].
Qed.

(** The default interface, which binds nothing before it. *)
Lemma bind_default_wp n a r s (Q : OCStackResult -> stack -> Prop) : NoDup (addrs (headResource s)) ->
  node_at a (headResource s) = Some r ->
  (forall s', moves s (on_addr a (set_interfaces (add_interface OC_RSRVD_INTERFACE_DEFAULT (rsrcInterface r))) (headResource s))
      (added (add_interface OC_RSRVD_INTERFACE_DEFAULT) (rsrcInterface r)) s' -> Q OC_STACK_OK s') ->
  (forall res s', res <> OC_STACK_OK -> hp_allocs (stack_heap s) <> [] -> moves s (headResource s) 0 s' -> Q res s') ->
  wp (bind_interface (S n) a (Some OC_RSRVD_INTERFACE_DEFAULT)) s Q.
Proof.
  intros Hd Ea Hok Hno. eapply wp_mono; [apply (wp_named n a _ s Q)|by intros ? ? []].
  2: { intros res s' Hr Ha. apply Hno; [done|]. apply Ha. by vm_compute. }
  intros s1 Hm. pose proof (moves_head _ _ _ _ Hm) as Es. unfold insertResourceInterface.
  apply wp_bind, (wp_resource a r); [by rewrite Es|]. unfold added, add_interface in Hok.
  destruct (rsrcInterface r) as [|first l] eqn:El;
    rewrite !(decide_True (P := OC_RSRVD_INTERFACE_DEFAULT = OC_RSRVD_INTERFACE_DEFAULT)) in * by done.
  - apply wp_change, Hok. eapply moves_trans; [exact Hm|rewrite Es; apply moves_resources|done].
  - revert Hok. destruct (decide (first = OC_RSRVD_INTERFACE_DEFAULT)); intros Hok.
    + eapply wp_heap_frees; [apply frees_name|]. intros s2 H2. rewrite Es in H2. apply Hok.
      rewrite (on_addr_same a _ _ r Hd Ea) by (rewrite <- El; apply set_interfaces_same).
      eapply moves_trans; [exact Hm|exact H2|lia].
    + apply wp_change, Hok. eapply moves_trans; [exact Hm|rewrite Es; apply moves_resources|].
      unfold name_blocks. cbn [length]. lia.
Qed.

(** Any interface; without memory for the default one before it, it is lost and
    the caller does not hear of it. *)
Lemma bind_interface_wp n a r i s (Q : OCStackResult -> stack -> Prop) : NoDup (addrs (headResource s)) ->
  node_at a (headResource s) = Some r ->
  (forall s', ValidateResourceTypeInterface (Some i) = true ->
    moves s (on_addr a (set_interfaces (add_interface i (rsrcInterface r))) (headResource s))
      (added (add_interface i) (rsrcInterface r)) s' -> Q OC_STACK_OK s') ->
  (forall s', ValidateResourceTypeInterface (Some i) = true -> rsrcInterface r = [] -> hp_allocs (stack_heap s) <> [] ->
    moves s (headResource s) 0 s' -> Q OC_STACK_OK s') ->
  (forall res s', res <> OC_STACK_OK ->
    (ValidateResourceTypeInterface (Some i) = true -> hp_allocs (stack_heap s) <> []) ->
    moves s (headResource s) 0 s' -> Q res s') ->
  wp (bind_interface (S (S n)) a (Some i)) s Q.
Proof.
  intros Hd Ea Hok Hlost Hno. destruct (decide (i = OC_RSRVD_INTERFACE_DEFAULT)) as [->|Hi].
  { apply (bind_default_wp (S n) a r); [done|done| |].
    - intros s'. apply Hok. by vm_compute.
    - intros res s' Hr Hn. by apply Hno. }
  destruct (ValidateResourceTypeInterface (Some i)) eqn:Ev.
  2: { cbn [bind_interface]. rewrite Ev. apply wp_ret, Hno; [done|done|apply moves_refl]. }
  eapply wp_mono; [apply (wp_named (S n) a i s Q)|by intros ? ? []].
  2: { intros res s' Hr Ha. apply Hno; [done|]. by rewrite Ev in Ha. }
  intros s1 Hm. pose proof (moves_head _ _ _ _ Hm) as Es. unfold insertResourceInterface.
  apply wp_bind, (wp_resource a r); [by rewrite Es|]. unfold added, add_interface in Hok.
  destruct (rsrcInterface r) as [|first l] eqn:El; rewrite !(decide_False (P := i = OC_RSRVD_INTERFACE_DEFAULT)) in * by done.
  - apply wp_bind, (bind_default_wp n a r); [by rewrite Es|by rewrite Es| |].
    + intros s2 H2. rewrite decide_False by auto. rewrite Es, El in H2.
      pose proof (moves_head _ _ _ _ H2) as E2. unfold add_interface in H2, E2. rewrite decide_True in H2, E2 by done.
      apply wp_bind, (wp_resource a (set_interfaces [OC_RSRVD_INTERFACE_DEFAULT] r)).
      { rewrite E2. by apply on_addr_at. }
      cbn [rsrcInterface set_interfaces]. apply wp_change, Hok; [done|].
      eapply moves_trans; [eapply moves_trans; [exact Hm|exact H2|done]| |].
      * rewrite <- (set_interfaces_twice a [OC_RSRVD_INTERFACE_DEFAULT]), <- E2. apply moves_resources.
      * done.
    + intros res s2 Hr Hn H2. rewrite decide_True by done. eapply wp_heap_frees; [apply frees_name|].
      intros s3 H3. rewrite Es in H2. pose proof (moves_head _ _ _ _ H2) as E2. rewrite E2 in H3.
      apply Hlost; [done|done| |].
      * intros E. by apply Hn, (moves_answers _ _ _ _ Hm).
      * eapply moves_trans; [exact Hm|eapply moves_trans; [exact H2|exact H3|reflexivity]|done].
  - revert Hok. case_decide; intros Hok.
    + eapply wp_heap_frees; [apply frees_name|]. intros s2 H2. rewrite Es in H2. apply Hok; [done|].
      rewrite (on_addr_same a _ _ r Hd Ea) by (rewrite <- El; apply set_interfaces_same).
      eapply moves_trans; [exact Hm|exact H2|lia].
    + apply wp_change, Hok; [done|]. eapply moves_trans; [exact Hm|rewrite Es; apply moves_resources|].
      unfold name_blocks. rewrite length_app. cbn. lia.
Qed.

(** Binding the default interface binds nothing before it: deeper calls do not
    happen. *)
Lemma insert_ext bind bind' a i s :
  (i <> OC_RSRVD_INTERFACE_DEFAULT -> forall s, bind a (Some OC_RSRVD_INTERFACE_DEFAULT) s = bind' a (Some OC_RSRVD_INTERFACE_DEFAULT) s) ->
  insertResourceInterface bind a i s = insertResourceInterface bind' a i s.
Proof.
  intros Hb. unfold insertResourceInterface, mbind, M_bind. destruct (resource_at a s) as [[r s1]|]; [|done].
  destruct (rsrcInterface r); [|done]. destruct (decide (i = _)) as [|Hi]; [done|]. by rewrite (Hb Hi).
Qed.

Lemma bind_default_enough n a s :
  bind_interface (S n) a (Some OC_RSRVD_INTERFACE_DEFAULT) s = bind_interface 1 a (Some OC_RSRVD_INTERFACE_DEFAULT) s.
Proof.
  cbn [bind_interface]. case_match; [done|]. unfold mbind, M_bind. destruct (in_heap _ s) as [[[p|] s1]|] eqn:Ep; try done.
  assert (p = OC_RSRVD_INTERFACE_DEFAULT) as ->; [|by rewrite (insert_ext _ (bind_interface 0))].
  revert Ep. unfold in_heap, new_name, OICStrdup, mbind, M_bind.
  destruct (OICCalloc _ _ _) as [[[] h1]|]; cbn; [|by intros [=]|done].
  destruct (OICMalloc _ h1) as [[[] h2]|]; cbn; [by intros [= <-]|by intros [=]|done].
Qed.

Lemma bind_interface_enough n a i s : bind_interface (S (S n)) a i s = bind_interface 2 a i s.
Proof.
  cbn [bind_interface]. destruct i as [i|]; [|done]. case_match; [done|]. unfold mbind, M_bind.
  destruct (in_heap _ s) as [[[p|] s1]|]; [|done|done].
  by rewrite (insert_ext (bind_interface (S n)) (bind_interface 1)) by (intros; apply bind_default_enough).
Qed.
End Bind.

(** ** What a resource owns *)

Definition value_blocks (v : attr_value) : Z :=
  match v with NoValue => 0 | TextValue _ => 1 | ListValue l => blocks_ll l end.
Definition attribute_blocks (a : option OCAttribute) : Z :=
  match a with Some a => 1 + blk (attrName a) + value_blocks (attrValue a) | None => 0 end.

Definition resource_blocks (r : OCResource) : Z :=
  1 + blk (rs_uri r) + name_blocks (rsrcType r) + name_blocks (rsrcInterface r) +
  Z.of_nat (length (rsrcChildResourcesHead r)) + total attribute_blocks (rsrcAttributes r) + all_blocks (observersHead r).

Lemma blocks_types l r : resource_blocks (set_types l r) = resource_blocks r + (name_blocks l - name_blocks (rsrcType r)).
Proof.
  unfold resource_blocks, set_types. cbn [rs_uri rsrcType rsrcInterface rsrcChildResourcesHead rsrcAttributes observersHead]. lia.
Qed.

Lemma blocks_interfaces l r :
  resource_blocks (set_interfaces l r) = resource_blocks r + (name_blocks l - name_blocks (rsrcInterface r)).
Proof.
  unfold resource_blocks, set_interfaces. cbn [rs_uri rsrcType rsrcInterface rsrcChildResourcesHead rsrcAttributes observersHead]. lia.
Qed.

Lemma blocks_children l r : resource_blocks (set_children l r) =
  resource_blocks r + (Z.of_nat (length l) - Z.of_nat (length (rsrcChildResourcesHead r))).
Proof.
  unfold resource_blocks, set_children. cbn [rs_uri rsrcType rsrcInterface rsrcChildResourcesHead rsrcAttributes observersHead]. lia.
Qed.

(** A resource nobody looks at and without attributes: what a call of the
    application leaves is one. *)
Record plain (r : OCResource) : Prop := {
  pl_observers : observersHead r = [];
  pl_attributes : rsrcAttributes r = [];
}.

(** The resource that creation makes. *)
Definition made (a : positive) (u : list Z) (t : string) (ifs : list string) (handler : option Z) (p e : Z) : OCResource := {|
  rs_addr := a; rs_uri := Some u; rsrcType := [t]; rsrcInterface := ifs; rsrcAttributes := [];
  rsrcChildResourcesHead := []; entityHandler := Some (default defaultResourceEHandler handler); rs_properties := p;
  observersHead := []; sequenceNum := OC_OFFSET_SEQUENCE_NUMBER; endpointType := e |}.

Section Create.
Context `{RegistryEnv}.
Implicit Types s : stack.

Definition made_properties (p : Z) : Z :=
  (if p &&& OC_MASK_RESOURCE_SECURE =? 0 then p ||| OC_NONSECURE else p) ||| OC_ACTIVE.

(** The transports of the build and of the selected networks. *)
Definition supported_tps (tps : Z) : Z :=
  default OC_NO_TPS (OCGetSupportedEndpointFlags with_tcp with_edr with_le with_nfc registry_dtls SelectedNetwork tps
                       (Some OC_NO_TPS)).2.

Lemma node_at_end (l : list OCResource) r a : rs_addr r = a -> a ∉ addrs l -> node_at a (l ++ [r]) = Some r.
Proof. intros <- Ha. exact (node_at_middle l r [] Ha). Qed.

Lemma on_addr_end (l : list OCResource) r a f : rs_addr r = a -> a ∉ addrs l -> on_addr a f (l ++ [r]) = l ++ [f r].
Proof. intros <- Ha. exact (on_addr_last f l r Ha). Qed.

Lemma addrs_end (l : list OCResource) r : NoDup (addrs l) -> rs_addr r ∉ addrs l -> NoDup (addrs (l ++ [r])).
Proof.
  intros Hd Ha. rewrite addrs_app. apply NoDup_app. split; [done|]. split; [|apply NoDup_singleton].
  intros x Hx Hx'. apply list_elem_of_singleton in Hx'. by subst x.
Qed.

(** The new resource is the last of the list. *)
Lemma change_end {s0 l r n s a} f (Q : unit -> stack -> Prop) : moves s0 (l ++ [r]) n s -> rs_addr r = a -> a ∉ addrs l ->
  (forall s', moves s0 (l ++ [f r]) n s' -> Q tt s') -> wp (on_resource a f) s Q.
Proof.
  intros Hm Hr Ha HQ. apply wp_change, HQ. eapply moves_trans; [exact Hm| |symmetry; apply Z.add_0_r].
  rewrite (moves_head _ _ _ _ Hm), on_addr_end by done. apply moves_resources.
Qed.

Lemma bind_type_end s0 l r n s a t (Q : OCStackResult -> stack -> Prop) : moves s0 (l ++ [r]) n s ->
  rs_addr r = a -> NoDup (addrs l) -> a ∉ addrs l ->
  (forall s', ValidateResourceTypeInterface (Some t) = true ->
    moves s0 (l ++ [set_types (add_type t (rsrcType r)) r]) (n + added (add_type t) (rsrcType r)) s' -> Q OC_STACK_OK s') ->
  (forall res s', res <> OC_STACK_OK ->
    (ValidateResourceTypeInterface (Some t) = true -> hp_allocs (stack_heap s0) <> []) -> moves s0 (l ++ [r]) n s' -> Q res s') ->
  wp (BindResourceTypeToResource a (Some t)) s Q.
Proof.
  intros Hm Hr Hd Ha Hok Hno. pose proof (moves_head _ _ _ _ Hm) as Es. subst a.
  apply (bind_type_wp (rs_addr r) r); rewrite ?Es; [by apply addrs_end|by apply node_at_end| |].
  - intros s' Hv. rewrite on_addr_end by done. intros Hm'. apply Hok; [done|]. eapply moves_trans; [exact Hm|exact Hm'|done].
  - intros res s' Hres Hv Hm'. apply Hno; [done| |].
    + intros Hv' E. by apply Hv, (moves_answers _ _ _ _ Hm).
    + eapply moves_trans; [exact Hm|exact Hm'|lia].
Qed.

Lemma bind_interface_end s0 l r n s a i (Q : OCStackResult -> stack -> Prop) : moves s0 (l ++ [r]) n s ->
  rs_addr r = a -> NoDup (addrs l) -> a ∉ addrs l -> rsrcInterface r = [] ->
  (forall ifs s', ValidateResourceTypeInterface (Some i) = true ->
    ifs = add_interface i [] \/ ifs = [] /\ hp_allocs (stack_heap s0) <> [] ->
    moves s0 (l ++ [set_interfaces ifs r]) (n + name_blocks ifs) s' -> Q OC_STACK_OK s') ->
  (forall res s', res <> OC_STACK_OK ->
    (ValidateResourceTypeInterface (Some i) = true -> hp_allocs (stack_heap s0) <> []) -> moves s0 (l ++ [r]) n s' -> Q res s') ->
  wp (BindResourceInterfaceToResource a (Some i)) s Q.
Proof.
  intros Hm Hr Hd Ha Hi Hok Hno. pose proof (moves_head _ _ _ _ Hm) as Es. subst a.
  assert (hp_allocs (stack_heap s) <> [] -> hp_allocs (stack_heap s0) <> []) as Hal
    by (intros Hn E; by apply Hn, (moves_answers _ _ _ _ Hm)).
  apply (bind_interface_wp 0 (rs_addr r) r); rewrite ?Es, ?Hi; [by apply addrs_end|by apply node_at_end| | |].
  - intros s' Hv. rewrite on_addr_end by done. intros Hm'. apply (Hok (add_interface i [])); [done|by left|].
    eapply moves_trans; [exact Hm|exact Hm'|]. unfold added. change (name_blocks []) with 0. lia.
  - intros s' Hv _ Hn Hm'. apply (Hok []); [done|right; auto|].
    rewrite <- Hi, set_interfaces_same. eapply moves_trans; [exact Hm|exact Hm'|]. by rewrite Hi.
  - intros res s' Hres Hv Hm'. apply Hno; [done|auto|]. eapply moves_trans; [exact Hm|exact Hm'|lia].
Qed.

Lemma supported_ok tps : OCGetSupportedEndpointFlags with_tcp with_edr with_le with_nfc registry_dtls SelectedNetwork tps
  (Some OC_NO_TPS) = (OC_STACK_OK, Some (supported_tps tps)).
Proof. reflexivity. Qed.

Lemma fill_wp s0 l a u t i handler p tps s (Q : OCStackResult -> stack -> Prop) : NoDup (addrs l) -> a ∉ addrs l ->
  moves s0 (l ++ [zero_resource a]) 1 s ->
  (forall ifs s', let r := made a u t ifs handler (made_properties p) (supported_tps tps) in
    ValidateResourceTypeInterface (Some t) = true -> ValidateResourceTypeInterface (Some i) = true ->
    supported_tps tps <> 0 -> ifs = add_interface i [] \/ ifs = [] /\ hp_allocs (stack_heap s0) <> [] ->
    moves s0 (l ++ [r]) (resource_blocks r) s' -> Q OC_STACK_OK s') ->
  (forall res r s', res <> OC_STACK_OK ->
    (ValidateResourceTypeInterface (Some t) = true -> ValidateResourceTypeInterface (Some i) = true ->
     supported_tps tps <> 0 -> hp_allocs (stack_heap s0) <> []) ->
    rs_addr r = a -> plain r -> rsrcChildResourcesHead r = [] -> moves s0 (l ++ [r]) (resource_blocks r) s' -> Q res s') ->
  wp (fill_resource a u t i handler p tps) s Q.
Proof.
  intros Hd Ha Hm Hok Hno. unfold fill_resource.
  assert (forall l' n s', moves s0 l' n s' -> hp_allocs (stack_heap s') <> [] -> hp_allocs (stack_heap s0) <> []) as Hal
    by (intros l' n s' Hm' Hn E; by apply Hn, (moves_answers _ _ _ _ Hm')).
  assert (forall m : Z, 2 + added (add_type t) [] + m = 1 + 1 + name_blocks [t] + m + 0 + 0 + 0) as counted
    by (intros m; change (added (add_type t) []) with (name_blocks [t]); lia).
  apply wp_bind, wp_in_heap, wp_strdup.
  2: { intros Hn h Hh. pose proof (moves_trans _ _ _ _ _ _ _ 1 Hm (moves_heap s h 0 Hh) eq_refl) as Hm1.
       rewrite (moves_head _ _ _ _ Hm) in Hm1. apply wp_bind, (change_end _ _ Hm1 eq_refl Ha). intros s2 H2. apply wp_ret.
       apply (Hno OC_STACK_NO_MEMORY (zero_resource a) s2); [done|eauto|done|done|done|exact H2]. }
  intros h Hh. pose proof (moves_trans _ _ _ _ _ _ _ 2 Hm (moves_heap s h 1 Hh) eq_refl) as Hm1.
  rewrite (moves_head _ _ _ _ Hm) in Hm1. apply wp_bind, (change_end _ _ Hm1 eq_refl Ha). clear Hm1. intros s1 Hm1. cbn zeta iota.
  apply wp_bind, (change_end _ _ Hm1 eq_refl Ha). clear Hm1. intros s2 Hm1. fold (made_properties p) in Hm1.
  apply wp_bind. apply (bind_type_end _ _ _ _ _ _ _ _ Hm1 eq_refl Hd Ha); [intros s3 Ht Hm2|intros res s3 Hr Ht Hm2].
  2: { rewrite decide_True by done. apply wp_ret. eapply Hno; [done|auto|..|exact Hm2]; done. }
  rewrite decide_False by tauto. apply wp_bind.
  apply (bind_interface_end _ _ _ _ _ _ _ _ Hm2 eq_refl Hd Ha eq_refl); [intros ifs s4 Hi Hifs Hm3|intros res s4 Hr Hi Hm3].
  2: { rewrite decide_True by done. apply wp_ret. eapply Hno; [done|auto|..|exact Hm3]; done. }
  rewrite decide_False by tauto. unfold BindTpsTypeToResource. rewrite supported_ok.
  change (default OC_NO_TPS (Some (supported_tps tps))) with (supported_tps tps). rewrite decide_False by tauto.
  destruct (Z.eqb_spec (supported_tps tps) OC_NO_TPS) as [Et|Et].
  { apply wp_bind, wp_ret. rewrite decide_True by done. apply wp_ret.
    eapply Hno; [done|..|eapply moves_eq; [exact Hm3|]]; [done..|]. apply counted. }
  apply wp_bind, wp_bind, (change_end _ _ Hm3 eq_refl Ha). intros s5 Hm4. apply wp_ret. rewrite decide_False by tauto.
  apply wp_bind, (change_end _ _ Hm4 eq_refl Ha). clear Hm4. intros s6 Hm4.
  apply wp_bind, (change_end _ _ Hm4 eq_refl Ha). clear Hm4. intros s7 Hm4.
  apply wp_bind, (change_end _ _ Hm4 eq_refl Ha). clear Hm4. intros s8 Hm4.
  apply wp_ret, (Hok ifs); [done|done|done|done|]. eapply moves_eq; [exact Hm4|]. apply counted.
Qed.
End Create.

(** ** Deleting *)

(** What deleting a resource gives back: of the members of a collection one
    block only. *)
Definition freed_blocks (r : OCResource) : Z :=
  1 + blk (rs_uri r) + name_blocks (rsrcType r) + name_blocks (rsrcInterface r) + blk (head (rsrcChildResourcesHead r)).

Section Delete.
Context `{RegistryEnv} (ProcessRequest : ResourceHandling -> option positive -> positive -> M stack OCStackResult).
Implicit Types s : stack.

Lemma presence_none rt trigger s : presence_handle s = None -> presence_changed ProcessRequest rt trigger s = Some (tt, s).
Proof. intros Hp. unfold presence_changed. step (run_gets presence_handle s). by rewrite Hp. Qed.

Lemma wp_presence rt trigger s (Q : unit -> stack -> Prop) : presence_handle s = None -> Q tt s ->
  wp (presence_changed ProcessRequest rt trigger) s Q.
Proof. intros Hp. by apply wp_run, presence_none. Qed.

Lemma node_before_in a p0 l : a ∈ l -> exists prev, node_before a p0 l = Some prev /\
  (head l = Some a \/ exists p, prev = Some p /\ p ∈ l).
Proof.
  revert p0. induction l as [|x l IH]; intros p0 Ha; [by apply not_elem_of_nil in Ha|]. cbn [node_before head].
  case_decide as Ex; [subst x; exists p0; split; [done|by left]|].
  apply elem_of_cons in Ha as [->|Ha]; [done|]. destruct (IH (Some x) Ha) as (prev & E & Hc). exists prev. split; [done|].
  right. destruct Hc as [Hh|(p & -> & Hp)]; [|by exists p; split; [|right]].
  destruct l as [|y l]; [done|]. cbn in E. injection Hh as ->. rewrite decide_True in E by done. injection E as <-.
  exists x. split; [done|left].
Qed.

Lemma unlink_changed f (l1 : list OCResource) r l2 : NoDup (addrs (l1 ++ r :: l2)) -> rs_addr (f r) = rs_addr r ->
  unlink (rs_addr r) (on_addr (rs_addr r) f (l1 ++ r :: l2)) = l1 ++ l2.
Proof.
  intros Hd Hf. pose proof (on_addr_middle f l1 r l2 Hd) as E. change (node_addr r) with (rs_addr r) in E. rewrite E.
  rewrite <- Hf. apply (unlink_middle l1 (f r) l2). change (node_addr (f r)) with (rs_addr (f r)). rewrite Hf.
  unfold addrs in Hd. rewrite fmap_app, fmap_cons in Hd. apply NoDup_app in Hd as (_ & Hd & _).
  intros Hx. apply (Hd _ Hx). left.
Qed.

(** Nobody observes the resource: nobody is told. *)
Lemma notify_none a r s : presence_handle s = None -> node_at a (headResource s) = Some r -> observersHead r = [] ->
  OCNotifyAllObservers ProcessRequest (Some a) OC_HIGH_QOS s = Some (OC_STACK_NO_OBSERVERS,
    set_resources (on_addr a (fun r => set_sequenceNum (incrementSequenceNumber (sequenceNum r)) r) (headResource s)) s).
Proof.
  intros Hp Ea Ho. unfold OCNotifyAllObservers. step (run_gets presence_handle s). rewrite Hp. cbn [decide].
  rewrite decide_False by done. unfold findResource. rewrite (run_bind _ _ _ (Some a) s).
  2: { step (run_gets headResource s). rewrite decide_True; [done|]. by eapply node_at_there. }
  unfold on_resource. step (run_modify _ s). unfold SendAllObserverNotification.
  set (g := fun r => set_sequenceNum (incrementSequenceNumber (sequenceNum r)) r). set (s1 := set_resources _ s).
  assert (node_at a (headResource s1) = Some (g r)) as E1 by by apply (on_addr_at a g).
  step (resource_at_run a (g r) s1 E1).
  change (observersHead (g r)) with (observersHead r). by rewrite Ho.
Qed.

Lemma elements_wp r s (Q : unit -> stack -> Prop) : plain r ->
  (forall s', moves s (headResource s) (1 - freed_blocks r) s' -> Q tt s') -> wp (deleteResourceElements ProcessRequest r) s Q.
Proof.
  intros [Ho Hat] HQ. unfold deleteResourceElements, deleteResourceType, deleteResourceInterface, OCDeleteResourceAttributes.
  apply wp_bind. eapply wp_heap_frees; [apply frees_ptr|]. intros s1 H1.
  apply wp_bind. eapply wp_heap_frees; [apply frees_names|]. intros s2 H2.
  apply wp_bind. eapply wp_heap_frees; [apply frees_names|]. intros s3 H3.
  apply wp_bind. eapply wp_heap_frees; [apply frees_ptr|]. intros s4 H4. rewrite Hat.
  apply wp_bind. eapply wp_heap_frees; [apply frees_ret|]. intros s5 H5.
  apply wp_bind, wp_get. rewrite Ho. cbn [existsb].
  pose proof (moves_head _ _ _ _ H1) as E1. pose proof (moves_head _ _ _ _ H2) as E2. pose proof (moves_head _ _ _ _ H3) as E3.
  pose proof (moves_head _ _ _ _ H4) as E4. rewrite E4, E3, E2, E1 in H5. rewrite E3, E2, E1 in H4. rewrite E2, E1 in H3. rewrite E1 in H2.
  assert (on_detached r (DeleteObserverList ProcessRequest (rs_addr r)) s5 = Some (tt, s5)) as Ed.
  { unfold on_detached, DeleteObserverList. rewrite (run_bind _ _ _ [] (set_resources [r] s5)).
    - cbn [length head delete_all]. unfold on_resource. step (run_ret tt _). rewrite run_modify. do 2 f_equal.
      by destruct s5.
    - rewrite (observers_of_run (rs_addr r) r); [by rewrite Ho|]. cbn. unfold node_at. cbn. by rewrite bool_decide_true. }
  eapply wp_run; [exact Ed|]. apply HQ.
  eapply moves_trans; [exact H1| |].
  - eapply moves_trans; [exact H2| |reflexivity]. eapply moves_trans; [exact H3| |reflexivity].
    eapply moves_trans; [exact H4|exact H5|reflexivity].
  - unfold freed_blocks. lia.
Qed.

Lemma delete_wp l1 r l2 s (Q : OCStackResult -> stack -> Prop) : headResource s = l1 ++ r :: l2 ->
  NoDup (addrs (headResource s)) -> plain r -> presence_handle s = None ->
  (forall s', moves s (l1 ++ l2) (- freed_blocks r) s' -> Q OC_STACK_OK s') ->
  wp (deleteResource ProcessRequest (Some (rs_addr r))) s Q.
Proof.
  intros Es Hd Hr Hp HQ. unfold deleteResource, all_resources.
  assert (r ∈ headResource s) as Hin by (rewrite Es; apply elem_of_app; right; left).
  pose proof (node_at_in (headResource s) r Hd Hin) as Ea. change (node_addr r) with (rs_addr r) in Ea.
  destruct (node_before_in (rs_addr r) None (addrs (headResource s))) as (prev & Eprev & Hprev); [by eapply node_at_there|].
  apply wp_bind, wp_bind, wp_get, wp_ret. rewrite Eprev. apply wp_bind, wp_change. set (s1 := set_resources _ s).
  assert (node_at (rs_addr r) (headResource s1) = Some (set_properties 0 r)) as E1 by by apply (on_addr_at _ (set_properties 0)).
  apply wp_bind, wp_get. change (presence_handle s1) with (presence_handle s). rewrite Hp, decide_True by done.
  apply wp_bind, wp_bind. eapply wp_run; [exact (notify_none _ (set_properties 0 r) s1 Hp E1 (pl_observers _ Hr))|].
  set (g := fun r => set_sequenceNum (incrementSequenceNumber (sequenceNum r)) r). set (s2 := set_resources _ s1).
  assert (headResource s2 = on_addr (rs_addr r) (fun r => g (set_properties 0 r)) (headResource s)) as E2
    by exact (on_addr_twice _ (set_properties 0) g _ ltac:(done)).
  apply wp_ret, wp_bind, wp_presence; [done|]. apply wp_bind, (wp_resource _ (g (set_properties 0 r))).
  { rewrite E2. by apply (on_addr_at _ (fun r => g (set_properties 0 r))). }
  apply wp_bind. unfold unlink_resource, all_resources. apply wp_bind, wp_bind, wp_get, wp_ret.
  assert (addrs (headResource s2) = addrs (headResource s)) as Ead by (rewrite E2; by apply on_addr_addrs).
  rewrite Ead, decide_False by (intros Hx; apply Hx; by eapply node_at_there).
  assert (wp (modify (fun s => set_resources (unlink (rs_addr r) (headResource s)) s)) s2 (fun _ s3 =>
    wp (_ ← deleteResourceElements ProcessRequest (g (set_properties 0 r)); _ ← in_heap (OICFree (Some (g (set_properties 0 r)))); mret OC_STACK_OK) s3 Q)) as Hrest.
  { eapply wp_run; [apply run_modify|]. rewrite E2, Es.
    rewrite (unlink_changed (fun r => g (set_properties 0 r))) by (by rewrite <- ?Es).
    apply wp_bind, elements_wp; [by destruct Hr|]. intros s4 H4. apply wp_bind. eapply wp_heap_frees; [apply frees_ptr|].
    intros s5 H5. apply wp_ret, HQ. rewrite (moves_head _ _ _ _ H4) in H5.
    eapply (moves_trans s (l1 ++ l2) 0 (set_resources (l1 ++ l2) s2)); [apply (moves_resources s)|eapply moves_trans; [exact H4|exact H5|reflexivity]|].
    change (freed_blocks (g (set_properties 0 r))) with (freed_blocks r). cbn [blk]. lia. }
  case_decide; [exact Hrest|]. destruct Hprev as [|(p & -> & Hpin)]; [done|]. by rewrite decide_True.
Qed.
End Delete.

(** ** Creating *)

Definition short (u : list Z) : Prop := Z.of_nat (length u) < MAX_URI_LENGTH.
Definition has_uri (r : OCResource) : Prop := exists u, rs_uri r = Some u /\ u <> [] /\ short u.

Definition interface_of (i : option string) : string :=
  match i with None | Some EmptyString => OC_RSRVD_INTERFACE_DEFAULT | Some i => i end.

Lemma taken_run u l : short u -> Forall has_uri l -> uri_taken u l = Some (bool_decide (Some u ∈ rs_uri <$> l)).
Proof.
  intros Hu Hl. induction Hl as [|r l (x & Ex & _ & Hx) Hl IH]; [done|].
  cbn [uri_taken]. rewrite Ex. cbn [mbind option_bind fmap list_fmap]. unfold short, MAX_URI_LENGTH in *. rewrite !take_ge by lia.
  destruct (decide (u = x)) as [E|E]; [subst; rewrite bool_decide_true; [done|rewrite Ex; left]|]. rewrite IH. f_equal. apply bool_decide_ext.
  rewrite elem_of_cons, Ex. split; [by right|]. intros [[=]|]; [congruence|done].
Qed.

Lemma find_uri_end u (l : list OCResource) r : Some u ∉ rs_uri <$> l -> Forall has_uri l -> rs_uri r = Some u ->
  find_uri u (l ++ [r]) = Some (Some r).
Proof.
  intros Hn Hu Er. induction Hu as [|x l (y & Ey & _) Hu IH]; cbn; [by rewrite Er; cbn; rewrite decide_True|].
  rewrite Ey. cbn. rewrite decide_False; [apply IH|]; intros Hx; apply Hn; cbn; [by right|rewrite Ey, Hx; left].
Qed.

Section Created.
Context `{RegistryEnv} (ProcessRequest : ResourceHandling -> option positive -> positive -> M stack OCStackResult).
Implicit Types s : stack.

(** What a new resource has to be like. *)
Record creatable s (u : list Z) (t i : string) (p tps : Z) : Prop := {
  cr_mode : stack_mode <> OC_CLIENT;
  cr_uri : u <> [] /\ short u;
  cr_new : Some u ∉ rs_uri <$> headResource s;
  cr_type : t <> EmptyString /\ ValidateResourceTypeInterface (Some t) = true;
  cr_interface : ValidateResourceTypeInterface (Some i) = true;
  cr_properties : p <= allowed_properties;
  cr_tps : OC_COAP <= tps /\ (tps = OC_ALL \/ tps <= valid_tps);
  cr_supported : supported_tps tps <> 0;
}.

Definition tidy s : Prop := NoDup (addrs (headResource s)) /\ Forall has_uri (headResource s) /\ presence_handle s = None.

(** A resource is made and put at the end, or nothing is left. *)
Lemma create_wp there t i u handler p tps s (Q : OCStackResult * option positive -> stack -> Prop) : tidy s ->
  (forall u' t' ifs a s', let r := made a u' t' ifs handler (made_properties p) (supported_tps tps) in
    u = Some u' -> t = Some t' -> creatable s u' t' (interface_of i) p tps -> a = new_address (headResource s) ->
    ifs = add_interface (interface_of i) [] \/ ifs = [] /\ hp_allocs (stack_heap s) <> [] ->
    moves s (headResource s ++ [r]) (resource_blocks r) s' -> Q (OC_STACK_OK, Some a) s') ->
  (forall res s', res <> OC_STACK_OK ->
    (forall u' t', there = true -> u = Some u' -> t = Some t' -> creatable s u' t' (interface_of i) p tps ->
      hp_allocs (stack_heap s) <> []) ->
    moves s (headResource s) 0 s' -> Q (res, None) s') ->
  wp (OCCreateResourceWithEp ProcessRequest there t i u handler p tps) s Q.
Proof.
  intros (Hd & Hu & Hp) Hok Hno.
  assert (forall res, res <> OC_STACK_OK ->
    (forall u' t', there = true -> u = Some u' -> t = Some t' -> ~ creatable s u' t' (interface_of i) p tps) ->
    wp (mret (res, None)) s Q) as Hbad.
  { intros res Hr Hc. apply wp_ret, Hno; [done| |apply moves_refl]. intros u' t' H1 H2 H3 H4. by destruct (Hc u' t' H1 H2 H3). }
  unfold OCCreateResourceWithEp. case_decide as Hmode; [apply Hbad; [done|]; by intros ? ? ? ? ? []|].
  destruct u as [[|c u]|]; [apply Hbad; [done|]; intros ? ? ? [= <-] ? []; tauto| |by apply Hbad].
  set (w := c :: u) in *. destruct (Z.leb_spec MAX_URI_LENGTH (Z.of_nat (length w))) as [Hl|Hl].
  { apply Hbad; [done|]. intros ? ? ? [= <-] ? [_ [_ Hs] _ _ _ _ _ _]. unfold short in Hs. lia. }
  destruct there; [|by apply Hbad]. destruct t as [[|ch ts]|]; [apply Hbad; [done|]; intros ? ? ? ? [= <-] []; tauto| |by apply Hbad].
  set (t := String ch ts) in *. fold (interface_of i).
  destruct (Z.ltb_spec allowed_properties p); [apply Hbad; [done|]; intros ? ? ? ? ? []; lia|].
  destruct ((tps <? OC_COAP) || _) eqn:Et.
  { apply Hbad; [done|]. intros ? ? ? ? ? [_ _ _ _ _ _ [H1 H2] _]. apply orb_true_iff in Et as [Et%Z.ltb_lt|Et]; [lia|].
    apply andb_true_iff in Et as [Et%negb_true_iff%Z.eqb_neq Ev%Z.ltb_lt]. destruct H2; lia. }
  assert (OC_COAP <= tps /\ (tps = OC_ALL \/ tps <= valid_tps)) as Htps.
  { apply orb_false_iff in Et as [E1%Z.ltb_ge E2]. split; [lia|].
    destruct (Z.eqb_spec tps OC_ALL); [by left|right]. by apply Z.ltb_ge in E2. }
  clear Et. apply wp_bind, wp_get, wp_bind, (wp_lift _ _ _ _ (taken_run w _ Hl Hu)).
  case_bool_decide as Hnew; [apply Hbad; [done|]; intros ? ? ? [= <-] ? []; tauto|].
  assert (sizeof_OCResource <> 0 /\ 1 * sizeof_OCResource <= SIZE_MAX) as [Hz Hm] by done.
  apply wp_bind, wp_in_heap, wp_asks; [by apply asks_calloc| |]; cbn [negb].
  2: { intros Hn h Hh. apply wp_bind, wp_ret, wp_ret, Hno; [done|done|by apply moves_heap]. }
  intros h Hh. apply wp_bind. unfold insertResource. eapply wp_run; [apply run_modify|].
  pose proof (moves_heap s h 1 Hh) as Hm1. set (s1 := with_heap h s) in *. set (a := new_address (headResource s)) in *.
  pose proof (new_address_fresh (headResource s) : a ∉ addrs (headResource s)) as Ha.
  pose proof (moves_trans _ _ _ _ _ _ _ 1 Hm1 (moves_resources s1 (headResource s ++ [zero_resource a])) eq_refl) as Hm2.
  apply wp_bind, (fill_wp s (headResource s) a w t (interface_of i) handler p tps _ _ Hd Ha Hm2).
  - intros ifs s3 r Hvt Hvi Hs Hifs Hm3. rewrite decide_False by tauto.
    apply wp_bind, wp_presence; [by rewrite (moves_presence _ _ _ _ Hm3)|].
    apply wp_ret, (Hok w t ifs a s3 eq_refl eq_refl); [by split|done|done|exact Hm3].
  - intros res r s3 Hres Hc Hra Hpl Hch Hm3. rewrite decide_True by done. rewrite <- Hra.
    pose proof (moves_head _ _ _ _ Hm3) as E3.
    apply wp_bind, (delete_wp ProcessRequest (headResource s) r []); [done| |done|by rewrite (moves_presence _ _ _ _ Hm3)|].
    { rewrite E3. apply addrs_end; [done|]. by rewrite Hra. }
    intros s4 H4. apply wp_ret, Hno; [done| |].
    + intros ? ? _ [= <-] [= <-] []. apply Hc; tauto.
    + rewrite app_nil_r in H4. eapply moves_trans; [exact Hm3|exact H4|]. destruct Hpl as [Ho Hat].
      unfold resource_blocks, freed_blocks. rewrite Ho, Hat, Hch. cbn. lia.
Qed.
End Created.

(** ** What holds of every list of resources *)

Record resource_ok (r : OCResource) : Prop := {
  ok_plain : plain r;
  ok_uri : has_uri r;
  ok_types : rsrcType r <> [] /\ NoDup (rsrcType r);
  ok_type_names : Forall (fun t => ValidateResourceTypeInterface (Some t) = true) (rsrcType r);
  ok_interfaces : NoDup (rsrcInterface r) /\ (rsrcInterface r = [] \/ head (rsrcInterface r) = Some OC_RSRVD_INTERFACE_DEFAULT);
  ok_interface_names : Forall (fun i => ValidateResourceTypeInterface (Some i) = true) (rsrcInterface r);
}.

(** Well-formedness is about some of the members only. *)
Lemma ok_like r r' : resource_ok r -> observersHead r' = observersHead r -> rsrcAttributes r' = rsrcAttributes r ->
  rs_uri r' = rs_uri r -> rsrcType r' = rsrcType r -> rsrcInterface r' = rsrcInterface r -> resource_ok r'.
Proof.
  intros [[Ho Ha] Hu Ht Htn Hi Hin] Eo Ea Eu Et Ei.
  split; [by split; rewrite ?Eo, ?Ea|by unfold has_uri; rewrite Eu|by rewrite Et|by rewrite Et|by rewrite Ei|by rewrite Ei].
Qed.

Record registry_ok (s : stack) : Prop := {
  rg_addrs : NoDup (addrs (headResource s));
  rg_uris : NoDup (rs_uri <$> headResource s);
  rg_each : Forall resource_ok (headResource s);
  rg_presence : presence_handle s = None;
}.

(** The blocks in use that no resource owns. *)
Definition unowned (s : stack) : Z := live (stack_heap s) - total resource_blocks (headResource s).

Lemma registry_tidy s : registry_ok s -> tidy s.
Proof. intros [Hd _ He Hp]. split; [done|]. split; [|done]. by eapply Forall_impl; [exact He|]; intros r []. Qed.

Lemma add_type_ok t l : ValidateResourceTypeInterface (Some t) = true -> NoDup l ->
  Forall (fun t => ValidateResourceTypeInterface (Some t) = true) l ->
  add_type t l <> [] /\ NoDup (add_type t l) /\ Forall (fun t => ValidateResourceTypeInterface (Some t) = true) (add_type t l).
Proof.
  intros Ht Hd Hl. unfold add_type. case_decide as Hin; [split; [by intros ->; apply not_elem_of_nil in Hin|done]|].
  split; [by destruct l|]. split; [|by apply Forall_app; split; [|apply Forall_singleton]].
  apply NoDup_app. split; [done|]. split; [|apply NoDup_singleton]. intros x Hx Hx'. apply list_elem_of_singleton in Hx'. by subst x.
Qed.

Lemma add_interface_ok i l : ValidateResourceTypeInterface (Some i) = true -> NoDup l ->
  l = [] \/ head l = Some OC_RSRVD_INTERFACE_DEFAULT ->
  Forall (fun i => ValidateResourceTypeInterface (Some i) = true) l ->
  let l' := add_interface i l in NoDup l' /\ head l' = Some OC_RSRVD_INTERFACE_DEFAULT /\
    Forall (fun i => ValidateResourceTypeInterface (Some i) = true) l'.
Proof.
  intros Hi Hd Hh Hl. unfold add_interface. destruct l as [|first l].
  - case_decide as E; [subst i; split; [apply NoDup_singleton|]; split; [done|by apply Forall_singleton]|].
    split; [|split; [done|by repeat constructor]]. apply NoDup_cons. split; [|apply NoDup_singleton].
    intros Hx%list_elem_of_singleton. by apply E.
  - destruct Hh as [|[= ->]]; [done|]. destruct (decide (i = _)) as [->|Hn]; [by rewrite decide_True|].
    destruct (decide (i ∈ _)) as [|Hin]; [done|]. split; [|split; [done|by apply Forall_app; split; [|apply Forall_singleton]]].
    apply NoDup_app. split; [done|]. split; [|apply NoDup_singleton]. intros x Hx Hx'. apply list_elem_of_singleton in Hx'. by subst x.
Qed.

(** A change of one resource that keeps its address and its URI. *)
Lemma changed_ok s a f r n s' : registry_ok s -> node_at a (headResource s) = Some r ->
  rs_addr (f r) = rs_addr r -> rs_uri (f r) = rs_uri r -> resource_ok (f r) -> resource_blocks (f r) <= resource_blocks r + n ->
  moves s (on_addr a f (headResource s)) n s' -> registry_ok s' /\ unowned s <= unowned s'.
Proof.
  intros [Hd Hu He Hp] Ea Hfa Hfu Hr Hb Hm. apply node_at_addr in Ea as [<- Hin].
  apply list_elem_of_split in Hin as (l1 & l2 & Es). unfold unowned. rewrite Es in *.
  pose proof (on_addr_middle f l1 r l2 Hd) as Eon. change (node_addr r) with (rs_addr r) in Eon, Hm. rewrite Eon in Hm.
  pose proof (moves_head _ _ _ _ Hm) as Es'. rewrite Es', (moves_live _ _ _ _ Hm). split; [split|]; rewrite ?Es'.
  - unfold addrs in *. rewrite fmap_app, fmap_cons in *. change (node_addr (f r)) with (rs_addr (f r)). by rewrite Hfa.
  - rewrite fmap_app, fmap_cons in *. by rewrite Hfu.
  - apply Forall_app in He as [H1 H2]. inversion H2. apply Forall_app. split; [done|by constructor].
  - by rewrite (moves_presence _ _ _ _ Hm).
  - rewrite !total_app. change (live (stack_heap s) - (total resource_blocks l1 + (resource_blocks r + total resource_blocks l2)) <=
      live (stack_heap s) + n - (total resource_blocks l1 + (resource_blocks (f r) + total resource_blocks l2))). lia.
Qed.

Lemma unchanged_ok s s' : registry_ok s -> moves s (headResource s) 0 s' -> registry_ok s' /\ unowned s <= unowned s'.
Proof.
  intros [Hd Hu He Hp] Hm. pose proof (moves_head _ _ _ _ Hm) as Es.
  split; [split; rewrite ?Es; [done..|by rewrite (moves_presence _ _ _ _ Hm)]|].
  unfold unowned. rewrite Es, (moves_live _ _ _ _ Hm). lia.
Qed.

Lemma removed_ok s l1 r l2 s' : registry_ok s -> headResource s = l1 ++ r :: l2 -> moves s (l1 ++ l2) (- freed_blocks r) s' ->
  registry_ok s' /\ unowned s <= unowned s'.
Proof.
  intros [Hd Hu He Hp] Es Hm. pose proof (moves_head _ _ _ _ Hm) as Es'.
  assert (resource_ok r) as [[Ho Hat] _ _ _ _ _] by (rewrite Forall_forall in He; apply He; rewrite Es; apply elem_of_app; right; left).
  assert (sublist (l1 ++ l2) (l1 ++ r :: l2)) as Hsub by (apply sublist_app; [done|by apply sublist_cons]).
  split; [split; rewrite ?Es'|].
  - unfold addrs in *. rewrite Es in Hd. eapply sublist_NoDup; [exact Hd|]. by apply fmap_sublist.
  - rewrite Es in Hu. eapply sublist_NoDup; [exact Hu|]. by apply fmap_sublist.
  - rewrite Es in He. apply Forall_app in He as [H1 H2]. inversion H2. by apply Forall_app.
  - by rewrite (moves_presence _ _ _ _ Hm).
  - unfold unowned. rewrite Es', Es, (moves_live _ _ _ _ Hm), !total_app.
    change (total resource_blocks (r :: l2)) with (resource_blocks r + total resource_blocks l2).
    assert (freed_blocks r <= resource_blocks r); [|lia]. unfold freed_blocks, resource_blocks. rewrite Ho, Hat.
    destruct (rsrcChildResourcesHead r); cbn [head blk length total foldr all_blocks]; lia.
Qed.

Lemma created_ok s r s' : registry_ok s -> rs_addr r ∉ addrs (headResource s) -> rs_uri r ∉ rs_uri <$> headResource s ->
  resource_ok r -> moves s (headResource s ++ [r]) (resource_blocks r) s' -> registry_ok s' /\ unowned s <= unowned s'.
Proof.
  intros [Hd Hu He Hp] Ha Hn Hr Hm. pose proof (moves_head _ _ _ _ Hm) as Es'. split; [split; rewrite ?Es'|].
  - by apply addrs_end.
  - rewrite fmap_app. apply NoDup_app. split; [done|]. split; [|apply NoDup_singleton].
    intros x Hx Hx'. apply list_elem_of_singleton in Hx'. by subst x.
  - by apply Forall_app; split; [|apply Forall_singleton].
  - by rewrite (moves_presence _ _ _ _ Hm).
  - unfold unowned. rewrite Es', (moves_live _ _ _ _ Hm), total_app.
    change (total resource_blocks [r]) with (resource_blocks r + 0). lia.
Qed.

(** ** Calls of the application *)

(** The calls that change the list, with whatever arguments; a type and an
    interface are not NULL. *)
Inductive call :=
| Create (there : bool) (t i : option string) (u : option (list Z)) (handler : option Z) (p tps : Z)
| Delete (handle : option positive)
| BindType (handle : positive) (t : string)
| BindInterface (handle : positive) (i : string)
| BindHandler (handle : option positive) (handler : option Z)
| BindMember (collection member : option positive)
| UnbindMember (collection member : option positive)
| SetProperties (handle : positive) (p : Z)
| ClearProperties (handle : positive) (p : Z).

Section Calls.
Context `{RegistryEnv} (ProcessRequest : ResourceHandling -> option positive -> positive -> M stack OCStackResult).
Implicit Types s : stack.

Definition run_call (c : call) : M stack unit :=
  match c with
  | Create there t i u handler p tps => _ ← OCCreateResourceWithEp ProcessRequest there t i u handler p tps; mret tt
  | Delete handle => _ ← OCDeleteResource ProcessRequest handle; mret tt
  | BindType handle t => _ ← OCBindResourceTypeToResource ProcessRequest handle (Some t); mret tt
  | BindInterface handle i => _ ← OCBindResourceInterfaceToResource ProcessRequest handle (Some i); mret tt
  | BindHandler handle handler => _ ← OCBindResourceHandler ProcessRequest handle handler; mret tt
  | BindMember c m => _ ← OCBindResource ProcessRequest c m; mret tt
  | UnbindMember c m => _ ← OCUnBindResource ProcessRequest c m; mret tt
  | SetProperties handle p => _ ← OCSetResourceProperties handle p; mret tt
  | ClearProperties handle p => _ ← OCClearResourceProperties handle p; mret tt
  end.

Fixpoint run_calls (l : list call) : M stack unit :=
  match l with [] => mret tt | c :: l' => _ ← run_call c; run_calls l' end.

Definition kept s : unit -> stack -> Prop := fun _ s' => registry_ok s' /\ unowned s <= unowned s'.

Lemma kept_same s : registry_ok s -> kept s tt s.
Proof. intros Hs. split; [done|lia]. Qed.

Lemma find_wp a s (Q : option positive -> stack -> Prop) : registry_ok s ->
  (forall l1 r l2, headResource s = l1 ++ r :: l2 -> rs_addr r = a -> node_at a (headResource s) = Some r -> Q (Some a) s) ->
  (a ∉ addrs (headResource s) -> Q None s) -> wp (findResource a) s Q.
Proof.
  intros Hs Hin Hout. unfold findResource. apply wp_bind, wp_get, wp_ret. case_decide as Ha; [|by apply Hout].
  apply list_elem_of_fmap in Ha as (r & -> & Hr). pose proof (node_at_in (headResource s) r (rg_addrs _ Hs) Hr) as Ea.
  apply list_elem_of_split in Hr as (l1 & l2 & Es). by apply (Hin l1 r l2).
Qed.

Lemma find_there s a r : registry_ok s -> node_at a (headResource s) = Some r -> resource_ok r /\ rs_addr r = a.
Proof. intros Hs Ea. apply node_at_addr in Ea as [Ha Hin]. pose proof (rg_each _ Hs) as He. rewrite Forall_forall in He. auto. Qed.

(** A call that changes one resource, then sends no presence. *)
Lemma change_kept {A} s a f (x : A) : registry_ok s -> (forall r, rs_addr (f r) = rs_addr r) ->
  (forall r, node_at a (headResource s) = Some r ->
    rs_uri (f r) = rs_uri r /\ (resource_ok r -> resource_ok (f r)) /\ resource_blocks (f r) <= resource_blocks r) ->
  is_Some (node_at a (headResource s)) -> wp (_ ← on_resource a f; mret x) s (fun _ => kept s tt).
Proof.
  intros Hs Hf Hk [r Ea]. destruct (Hk r Ea) as (Hu & Hok & Hb). destruct (find_there s a r Hs Ea) as [Hr _].
  apply wp_bind, wp_change, wp_ret. apply (changed_ok s a f r 0); [done|done|apply Hf|done|auto|lia|apply moves_resources].
Qed.

Lemma create_kept s there t i u handler p tps : registry_ok s ->
  wp (run_call (Create there t i u handler p tps)) s (kept s).
Proof.
  intros Hs. apply wp_bind, create_wp; [by apply registry_tidy| |].
  - intros u' t' ifs a s' r -> -> [_ [Hu1 Hu2] Hn [Ht1 Ht2] Hi _ _ _] -> Hifs Hm. apply wp_ret.
    apply (created_ok s r); [done|apply new_address_fresh|done| |done].
    destruct (add_interface_ok (interface_of i) [] Hi (NoDup_nil_2) (or_introl eq_refl) (Forall_nil_2 _)) as (H1 & H2 & H3).
    split; cbn; [by split|by exists u'|split; [done|apply NoDup_singleton]|by apply Forall_singleton| |];
      destruct Hifs as [->|[-> _]]; [by split; [|right]|split; [apply NoDup_nil_2|by left]|done|done].
  - intros res s' _ _ Hm. apply wp_ret. by apply (unchanged_ok s).
Qed.

Lemma delete_kept s handle : registry_ok s -> wp (run_call (Delete handle)) s (kept s).
Proof.
  intros Hs. destruct handle as [a|]; [|by apply kept_same]. cbn [run_call OCDeleteResource].
  apply wp_bind, wp_bind, find_wp; [done| |].
  - intros l1 r l2 Es <- Ea. destruct (find_there s _ r Hs Ea) as [Hr _].
    apply wp_bind, (delete_wp _ l1 r l2); [done|apply Hs|apply Hr|apply Hs|]. intros s' Hm. apply wp_ret, wp_ret.
    by apply (removed_ok s l1 r l2).
  - intros _. by apply wp_ret, wp_ret, kept_same.
Qed.

Lemma bind_type_kept s a t : registry_ok s -> wp (run_call (BindType a t)) s (kept s).
Proof.
  intros Hs. cbn [run_call]. unfold OCBindResourceTypeToResource, with_resource. apply wp_bind, wp_bind, find_wp; [done| |].
  2: { intros _. by apply wp_ret, wp_ret, kept_same. }
  intros l1 r l2 Es _ Ea. destruct (find_there s _ r Hs Ea) as [Hr _].
  apply wp_bind, (bind_type_wp a r); [apply Hs|done| |].
  - intros s' Hv Hm. apply wp_bind, wp_presence; [by rewrite (moves_presence _ _ _ _ Hm); apply Hs|]. apply wp_ret, wp_ret.
    eapply changed_ok; [exact Hs|exact Ea| | | | |exact Hm]; [done|done| |].
    + destruct Hr as [[Ho Hat] Hu [Ht1 Ht2] Ht3 Hi1 Hi2]. destruct (add_type_ok t _ Hv Ht2 Ht3) as (H1 & H2 & H3). by split.
    + rewrite blocks_types. unfold added. lia.
  - intros res s' _ _ Hm. apply wp_bind, wp_presence; [by rewrite (moves_presence _ _ _ _ Hm); apply Hs|]. apply wp_ret, wp_ret.
    by apply (unchanged_ok s).
Qed.

Lemma bind_interface_kept s a i : registry_ok s -> wp (run_call (BindInterface a i)) s (kept s).
Proof.
  intros Hs. cbn [run_call]. unfold OCBindResourceInterfaceToResource, with_resource. apply wp_bind, wp_bind, find_wp; [done| |].
  2: { intros _. by apply wp_ret, wp_ret, kept_same. }
  intros l1 r l2 Es _ Ea. destruct (find_there s _ r Hs Ea) as [Hr _].
  assert (forall (res : OCStackResult) s', moves s (headResource s) 0 s' ->
    wp (_ ← presence_changed ProcessRequest (first_type a) OC_PRESENCE_TRIGGER_CHANGE; mret res) s' (fun _ s' => wp (mret tt) s' (kept s))) as Hsame.
  { intros res s' Hm. apply wp_bind, wp_presence; [by rewrite (moves_presence _ _ _ _ Hm); apply Hs|]. apply wp_ret, wp_ret.
    by apply (unchanged_ok s). }
  apply wp_bind, (bind_interface_wp 0 a r); [apply Hs|done| |by intros s' _ _ _; apply Hsame|by intros res s' _ _; apply Hsame].
  intros s' Hv Hm. apply wp_bind, wp_presence; [by rewrite (moves_presence _ _ _ _ Hm); apply Hs|]. apply wp_ret, wp_ret.
  eapply changed_ok; [exact Hs|exact Ea| | | | |exact Hm]; [done|done| |].
  - destruct Hr as [[Ho Hat] Hu Ht Ht3 [Hi1 Hi2] Hi3]. destruct (add_interface_ok i _ Hv Hi1 Hi2 Hi3) as (H1 & H2 & H3).
    split; [by split|done|done|done| |done]. split; [done|by right].
  - rewrite blocks_interfaces. unfold added. lia.
Qed.

Lemma with_kept s a f (x y : OCStackResult) : registry_ok s -> (forall r, rs_addr (f r) = rs_addr r) ->
  (forall r, rs_uri (f r) = rs_uri r /\ (resource_ok r -> resource_ok (f r)) /\ resource_blocks (f r) <= resource_blocks r) ->
  wp (_ ← with_resource a x (fun a => _ ← on_resource a f; mret y); mret tt) s (kept s).
Proof.
  intros Hs Hf Hk. unfold with_resource. apply wp_bind, wp_bind, find_wp; [done| |].
  - intros l1 r l2 _ _ Ea. eapply wp_mono; [apply (change_kept s a f y); [done|done|auto|by eexists]|].
    intros res s' Hq. by apply wp_ret.
  - intros _. by apply wp_ret, wp_ret, kept_same.
Qed.

Lemma bind_handler_kept s handle handler : registry_ok s -> wp (run_call (BindHandler handle handler)) s (kept s).
Proof.
  intros Hs. destruct handle as [a|]; [|by apply kept_same]. cbn [run_call OCBindResourceHandler]. unfold with_resource.
  apply wp_bind, wp_bind, find_wp; [done| |].
  2: { intros _. by apply wp_ret, wp_ret, kept_same. }
  intros l1 r l2 _ _ Ea. destruct (find_there s _ r Hs Ea) as [Hr _].
  apply wp_bind, wp_change, wp_bind, wp_presence; [apply Hs|]. apply wp_ret, wp_ret.
  eapply (changed_ok s a (set_handler handler) r 0); [done|done|done|done|by apply (ok_like r)|by rewrite Z.add_0_r|apply moves_resources].
Qed.

Lemma remove_first_length m l l' : remove_first m l = Some l' -> length l = S (length l').
Proof.
  revert l'. induction l as [|x l IH]; intros l'; [done|]. cbn. case_decide; [by intros [= ->]|].
  destruct (remove_first m l) as [k|]; [|done]. intros [= <-]. cbn. f_equal. by apply IH.
Qed.

Lemma bind_member_kept s c m : registry_ok s -> wp (run_call (BindMember c m)) s (kept s).
Proof.
  intros Hs. destruct c as [c|], m as [m|]; try by apply kept_same. cbn [run_call OCBindResource].
  apply wp_bind. case_decide; [by apply wp_ret, wp_ret, kept_same|]. apply wp_bind, find_wp; [done| |].
  2: { intros _. by apply wp_ret, wp_ret, kept_same. }
  intros l1 r l2 _ _ Ea. destruct (find_there s _ r Hs Ea) as [Hr _].
  apply wp_bind, wp_in_heap, wp_asks; [by apply asks_calloc| |]; cbn [negb].
  2: { intros _ h Hh. apply wp_ret, wp_ret, (unchanged_ok s); [done|by apply moves_heap]. }
  intros h Hh. pose proof (moves_heap s h 1 Hh) as Hm. set (s1 := with_heap h s) in *.
  set (f := fun r => set_children (rsrcChildResourcesHead r ++ [m]) r).
  apply wp_bind, wp_change, wp_bind, wp_presence; [apply Hs|]. apply wp_ret, wp_ret.
  apply (changed_ok s c f r 1); [done|done|done|done|by apply (ok_like r)| |].
  - unfold f. rewrite blocks_children, length_app. cbn [length]. lia.
  - eapply moves_trans; [exact Hm|apply (moves_resources s1 (on_addr c f (headResource s)))|done].
Qed.

Lemma unbind_member_kept s c m : registry_ok s -> wp (run_call (UnbindMember c m)) s (kept s).
Proof.
  intros Hs. destruct c as [c|], m as [m|]; try by apply kept_same. cbn [run_call OCUnBindResource].
  apply wp_bind. case_decide; [by apply wp_ret, wp_ret, kept_same|]. apply wp_bind, find_wp; [done| |].
  2: { intros _. by apply wp_ret, wp_ret, kept_same. }
  intros l1 r l2 _ _ Ea. destruct (find_there s _ r Hs Ea) as [Hr _].
  apply wp_bind, (wp_resource c r); [done|]. destruct (remove_first m (rsrcChildResourcesHead r)) as [l|] eqn:El.
  2: by apply wp_ret, wp_ret, kept_same.
  apply wp_bind. eapply wp_heap_frees; [apply frees_ptr|]. intros s1 Hm. pose proof (moves_head _ _ _ _ Hm) as E1.
  apply wp_bind, wp_change, wp_bind, wp_presence; [by cbn; rewrite (moves_presence _ _ _ _ Hm); apply Hs|]. apply wp_ret, wp_ret.
  apply (changed_ok s c (set_children l) r (- 1)); [done|done|done|done|by apply (ok_like r)| |].
  - rewrite blocks_children, (remove_first_length _ _ _ El). lia.
  - eapply moves_trans; [exact Hm|rewrite E1; apply moves_resources|done].
Qed.

Lemma call_kept s c : registry_ok s -> wp (run_call c) s (kept s).
Proof.
  intros Hs. destruct c.
  - by apply create_kept.
  - by apply delete_kept.
  - by apply bind_type_kept.
  - by apply bind_interface_kept.
  - by apply bind_handler_kept.
  - by apply bind_member_kept.
  - by apply unbind_member_kept.
  - apply with_kept; [done|done|]. intros r. split; [done|]. split; [by intros Hr; apply (ok_like r)|done].
  - apply with_kept; [done|done|]. intros r. split; [done|]. split; [by intros Hr; apply (ok_like r)|done].
Qed.

(** C11: whatever the application calls, with whatever arguments and whatever the
    allocator answers, the calls are defined and the list of resources stays
    well formed: no two resources have one URI, each has a type, no type or
    interface twice, every name is legal and the default interface comes first;
    and no block of a resource is given back that is not its own. *)
Theorem registry_invariant calls s : registry_ok s ->
  exists s', run_calls calls s = Some (tt, s') /\ registry_ok s' /\ unowned s <= unowned s'.
Proof.
  revert s. induction calls as [|c calls IH]; intros s Hs; [by exists s|]. cbn [run_calls].
  pose proof (call_kept s c Hs) as Hc. unfold wp in Hc. destruct (run_call c s) as [[[] s1]|] eqn:Ec; [|done].
  destruct Hc as [H1 Hu]. destruct (IH s1 H1) as (s2 & E2 & H2 & Hu2). exists s2. step Ec. split; [done|]. split; [done|lia].
Qed.

(** C12: a resource that is new and legal is created, with its type, the default
    interface before its own, the properties that go without saying and the
    transports of the networks; it is found by its URI, and deleting it gives back
    everything it took: the stack is as before. *)
Theorem created_and_deleted t i u handler p tps s : tidy s -> creatable s u t (interface_of i) p tps ->
  hp_allocs (stack_heap s) = [] ->
  let r := made (new_address (headResource s)) u t (add_interface (interface_of i) []) handler (made_properties p)
             (supported_tps tps) in
  let s' := grow (resource_blocks r) (set_resources (headResource s ++ [r]) s) in
  OCCreateResourceWithEp ProcessRequest true (Some t) i (Some u) handler p tps s = Some ((OC_STACK_OK, Some (rs_addr r)), s') /\
  FindResourceByUri (Some u) s' = Some (Some (rs_addr r), s') /\
  OCDeleteResource ProcessRequest (Some (rs_addr r)) s' = Some (OC_STACK_OK, s).
Proof.
  intros Hs Hc Hh r s'. assert (rs_addr r ∉ addrs (headResource s)) as Ha by apply new_address_fresh.
  destruct Hs as (Hd & Hu & Hp).
  assert (NoDup (addrs (headResource s'))) as Hd' by by apply (addrs_end (headResource s) r).
  split; [|split].
  - assert (wp (OCCreateResourceWithEp ProcessRequest true (Some t) i (Some u) handler p tps) s
      (fun x s1 => (x, s1) = ((OC_STACK_OK, Some (rs_addr r)), s'))) as Hw.
    { apply create_wp; [done| |].
      - intros u' t' ifs a s1 r' [= <-] [= <-] _ -> [->|[_ Hn]] Hm; [|done]. by rewrite (moves_grow _ _ _ _ Hm Hh).
      - intros res s1 _ Hn. by destruct (Hn u t). }
    unfold wp in Hw. by destruct (OCCreateResourceWithEp _ _ _ _ _ _ _ _ s) as [[x s1]|]; [rewrite Hw|].
  - unfold FindResourceByUri. step (run_gets headResource s').
    assert (find_uri u (headResource s ++ [r]) = Some (Some r)) as Ef.
    { apply find_uri_end; [by eapply cr_new|done|done]. }
    by step (run_lift _ _ _ Ef).
  - unfold OCDeleteResource. unfold findResource. rewrite (run_bind _ _ _ (Some (rs_addr r)) s').
    2: { step (run_gets headResource s'). rewrite decide_True; [done|]. change (headResource s') with (headResource s ++ [r]).
         rewrite addrs_app. apply elem_of_app. right. left. }
    assert (wp (deleteResource ProcessRequest (Some (rs_addr r))) s' (fun x s1 => (x, s1) = (OC_STACK_OK, s))) as Hw.
    { apply (delete_wp ProcessRequest (headResource s) r []); [done|done|done|done|]. intros s1 Hm. f_equal.
      rewrite (moves_grow _ _ _ _ Hm) by exact Hh. rewrite app_nil_r. unfold s'.
      rewrite set_resources_grow, grow_grow. replace (_ + _) with 0; [rewrite grow_0; by destruct s|].
      unfold resource_blocks, freed_blocks. cbn. lia. }
    unfold wp in Hw. destruct (deleteResource _ _ s') as [[x s1]|] eqn:Ed; [|done]. step Ed. injection Hw as -> ->.
    by rewrite decide_False by tauto.
Qed.

(** deleting a collection of resources gives back the block of its first
    member only: with [n] members [n - 1] blocks stay in use that nothing leads
    to. *)
Theorem collection_leaks l1 r l2 s : headResource s = l1 ++ r :: l2 -> registry_ok s ->
  exists s', OCDeleteResource ProcessRequest (Some (rs_addr r)) s = Some (OC_STACK_OK, s') /\ headResource s' = l1 ++ l2 /\
    unowned s' = unowned s + Z.of_nat (length (rsrcChildResourcesHead r) - 1).
Proof.
  intros Es Hs. pose proof (rg_each _ Hs) as He. rewrite Es in He. apply Forall_app in He as [_ [Hr _]%Forall_cons_1].
  assert (r ∈ headResource s) as Hin by (rewrite Es; apply elem_of_app; right; left).
  unfold OCDeleteResource, findResource. rewrite (run_bind _ _ _ (Some (rs_addr r)) s).
  2: { step (run_gets headResource s). rewrite decide_True; [done|].
       exact (node_at_there _ _ _ (node_at_in (headResource s) r (rg_addrs _ Hs) Hin)). }
  assert (wp (deleteResource ProcessRequest (Some (rs_addr r))) s (fun x s' => x = OC_STACK_OK /\ moves s (l1 ++ l2) (- freed_blocks r) s')) as Hw.
  { apply (delete_wp ProcessRequest l1 r l2); [done|apply Hs|apply Hr|apply Hs|done]. }
  unfold wp in Hw. destruct (deleteResource _ _ s) as [[x s1]|] eqn:Ed; [|done]. destruct Hw as [-> Hm]. exists s1. step Ed.
  rewrite decide_False by tauto. pose proof (moves_head _ _ _ _ Hm) as E1. split; [done|]. split; [done|].
  unfold unowned. rewrite E1, Es, (moves_live _ _ _ _ Hm), !total_app.
  change (total resource_blocks (r :: l2)) with (resource_blocks r + total resource_blocks l2).
  destruct Hr as [[Ho Hat] _ _ _ _ _]. unfold freed_blocks, resource_blocks. rewrite Ho, Hat.
  destruct (rsrcChildResourcesHead r); cbn [head blk length total foldr all_blocks]; lia.
Qed.
End Calls.

(** ** Where the code departs *)

Lemma new_name_answered size n rest lv : size <> 0 -> size <= SIZE_MAX ->
  new_name size n {| hp_allocs := true :: true :: rest; live := lv |} = Some (Some n, {| hp_allocs := rest; live := lv + 2 |}).
Proof.
  intros Hz Hs. unfold new_name, OICCalloc. destruct (Z.eqb_spec 0 size); [lia|].
  replace (1 * size <=? SIZE_MAX) with true by (symmetry; apply Z.leb_le; lia).
  unfold mbind, M_bind. cbn. unfold OICStrdup, OICMalloc. destruct (Z.eqb_spec 0 (Z.of_nat (text_length n) + 1)); [lia|].
  unfold mbind, M_bind, alloc. cbn. rewrite run_ret. unfold add_live. cbn. by rewrite <- Z.add_assoc.
Qed.

Section Departs.
Context `{RegistryEnv} (ProcessRequest : ResourceHandling -> option positive -> positive -> M stack OCStackResult).
Implicit Types s : stack.

(** The third allocation of binding a first interface is that of the default
    one before it: when it fails, the interface is dropped and the caller is told
    that all is well. *)
Theorem interface_lost a r i s rest : node_at a (headResource s) = Some r -> rsrcInterface r = [] ->
  i <> OC_RSRVD_INTERFACE_DEFAULT -> ValidateResourceTypeInterface (Some i) = true ->
  hp_allocs (stack_heap s) = true :: true :: false :: rest ->
  BindResourceInterfaceToResource a (Some i) s =
    Some (OC_STACK_OK, set_stack_heap {| hp_allocs := rest; live := live (stack_heap s) |} s).
Proof.
  intros Ea Ei Hi Hv Hh. unfold BindResourceInterfaceToResource. cbn [bind_interface]. rewrite Hv. cbn [negb].
  set (s1 := set_stack_heap {| hp_allocs := false :: rest; live := live (stack_heap s) + 2 |} s).
  assert (in_heap (new_name sizeof_OCResourceInterface i) s = Some (Some i, s1)) as E1.
  { unfold s1. change set_stack_heap with (with_heap (S := stack)). apply run_in_heap. change (heap_of s) with (stack_heap s). destruct (stack_heap s) as [al lv].
    cbn [Heap.hp_allocs] in Hh. subst al. by apply new_name_answered. }
  set (s2 := set_stack_heap {| hp_allocs := rest; live := live (stack_heap s) + 2 |} s).
  assert (bind_interface 1 a (Some OC_RSRVD_INTERFACE_DEFAULT) s1 = Some (OC_STACK_NO_MEMORY, s2)) as E2 by reflexivity.
  assert (insertResourceInterface (bind_interface 1) a i s1 = Some (tt, grow (- 2) s2)) as E3.
  { unfold insertResourceInterface. step (resource_at_run a r s1 Ea). rewrite Ei, decide_False by done. step E2.
    rewrite decide_True by done. exact (in_heap_frees _ 2 s2 (frees_name i)). }
  step E1. step E3. rewrite run_ret. do 2 f_equal. unfold grow, s2, add_live. cbn. by rewrite <- Z.add_assoc, Z.add_0_r.
Qed.

(** the number of resources is counted in a byte: 256 resources are none. *)
Theorem resources_counted_in_a_byte s :
  OCGetNumberOfResources true s = Some ((OC_STACK_OK, Some (Z.of_nat (length (headResource s)) mod 256)), s).
Proof.
  unfold OCGetNumberOfResources. step (run_gets headResource s). rewrite run_ret. do 4 f_equal.
  assert (forall (l : list OCResource) n, 0 <= n < 256 -> count_from n l = (n + Z.of_nat (length l)) mod 256) as Hc.
  { induction l as [|r l IH]; intros n Hn; cbn [count_from length]; [rewrite Z.add_0_r; symmetry; by apply Z.mod_small|].
    rewrite IH by (apply (wrap_range 8); lia). change (u8 (n + 1)) with ((n + 1) mod 256).
    rewrite Zplus_mod_idemp_l. f_equal. lia. }
  exact (Hc (headResource s) 0 ltac:(lia)).
Qed.

(** A resource that is deleted stays the member of the collections that have
    it: what they lead to is freed. *)
Theorem deleted_member_stays c l1 m l2 n s : registry_ok s -> headResource s = l1 ++ m :: l2 ->
  c ∈ l1 ++ l2 -> rsrcChildResourcesHead c !! Z.to_nat n = Some (rs_addr m) ->
  exists s', OCDeleteResource ProcessRequest (Some (rs_addr m)) s = Some (OC_STACK_OK, s') /\
    OCGetResourceHandleFromCollection (rs_addr c) n s' = Some (Some (rs_addr m), s') /\
    findResource (rs_addr m) s' = Some (None, s').
Proof.
  intros Hs Es Hc Hn. destruct (collection_leaks ProcessRequest l1 m l2 s Es Hs) as (s' & Ed & E' & _).
  exists s'. split; [done|]. pose proof (rg_addrs _ Hs) as Hd. rewrite Es in Hd. unfold addrs in Hd.
  rewrite fmap_app, fmap_cons in Hd. apply NoDup_app in Hd as (Hd1 & Hd2 & [Hm Hd3]%NoDup_cons).
  assert (NoDup (addrs (headResource s'))) as Hd'.
  { rewrite E', addrs_app. apply NoDup_app. split; [done|]. split; [|done]. intros x Hx Hx'. apply (Hd2 x Hx). by right. }
  assert (rs_addr m ∉ addrs (headResource s')) as Hout.
  { rewrite E', addrs_app, elem_of_app. intros [Hx|Hx]; [|done]. apply (Hd2 _ Hx). left. }
  assert (node_at (rs_addr c) (headResource s') = Some c) as Ec by (apply (node_at_in _ c Hd'); by rewrite E').
  split.
  - unfold OCGetResourceHandleFromCollection, findResource. rewrite (run_bind _ _ _ (Some (rs_addr c)) s').
    + step (resource_at_run _ _ _ Ec). by rewrite Hn.
    + step (run_gets headResource s'). rewrite decide_True; [done|]. by eapply node_at_there.
  - unfold findResource. step (run_gets headResource s'). by rewrite decide_False.
Qed.
End Departs.

(** ** At concrete inputs *)

#[local] Existing Instance sample_stack_env.

(** A server with security, IP only. *)
Definition sample_registry : RegistryEnv := {|
  registry_stack := sample_stack_env; registry_dtls := true; SelectedNetwork := CA_ADAPTER_IP;
  OCGetRandom := mret 4; CAGenerateToken := fun _ => mret (CA_STATUS_FAILED, None); SRMDeInitSecureResources := mret tt |}.
#[local] Existing Instance sample_registry.

Definition no_answer (h : ResourceHandling) (res : option positive) (request : positive) : M stack OCStackResult := mret OC_STACK_OK.

Lemma sample_ok : resource_ok (sample_resource []).
Proof.
  split; [done|by exists (chars "/light")|split; [done|apply NoDup_singleton]|by apply Forall_singleton| |by apply Forall_singleton].
  split; [apply NoDup_singleton|by right].
Qed.

Lemma sample_registry_ok : registry_ok (sample_stack []).
Proof. split; [apply NoDup_singleton|apply NoDup_singleton|by apply Forall_singleton, sample_ok|done]. Qed.

(** A resource with a type that is bound twice, a collection, a failing
    creation and the deletion of what it has. *)
Definition sample_calls : list call :=
  [Create true (Some "core.fan") (Some "oic.if.a") (Some (chars "/fan")) None 3 OC_ALL; BindType 2 "core.fan"; BindInterface 2 "oic.if.b";
   BindMember (Some 2%positive) (Some 1%positive); Create true (Some "core fan") None (Some (chars "/x")) None 3 OC_ALL;
   Delete (Some 1%positive); UnbindMember (Some 2%positive) (Some 1%positive); SetProperties 2 8].

Lemma registry_invariant_witness : registry_ok (sample_stack []) /\
  exists s', run_calls no_answer sample_calls (sample_stack []) = Some (tt, s') /\ registry_ok s' /\
    unowned (sample_stack []) <= unowned s'.
Proof.
  split; [exact sample_registry_ok|].
  exact (registry_invariant no_answer sample_calls (sample_stack []) sample_registry_ok).
Defined.

(** What the calls leave: the fan, with its names and properties. *)
Example sample_calls_leave : (fun x => (fun r => (rs_uri r, rsrcType r, rsrcInterface r, rs_properties r)) <$> headResource x.2) <$>
    run_calls no_answer sample_calls (sample_stack []) =
  Some [(Some (chars "/fan"), ["core.fan"%string], [OC_RSRVD_INTERFACE_DEFAULT; "oic.if.a"%string; "oic.if.b"%string], 64 + 8 + 4 + 3)].
Proof. by vm_compute. Qed.

Lemma fan_creatable : creatable (sample_stack []) (chars "/fan") "core.fan" (interface_of (Some "oic.if.a"%string)) 3 OC_ALL.
Proof. split; try done; [by intros [|Hx%not_elem_of_nil]%elem_of_cons|split; [done|by left]]. Qed.

Lemma created_and_deleted_witness :
  let r := made 2 (chars "/fan") "core.fan" [OC_RSRVD_INTERFACE_DEFAULT; "oic.if.a"%string] (Some 7) (64 + 4 + 3) 3 in
  let s' := grow 8 (set_resources [sample_resource []; r] (sample_stack [])) in
  OCCreateResourceWithEp no_answer true (Some "core.fan"%string) (Some "oic.if.a"%string) (Some (chars "/fan")) (Some 7) 3 OC_ALL
    (sample_stack []) = Some ((OC_STACK_OK, Some 2%positive), s') /\
  FindResourceByUri (Some (chars "/fan")) s' = Some (Some 2%positive, s') /\
  OCDeleteResource no_answer (Some 2%positive) s' = Some (OC_STACK_OK, sample_stack []).
Proof.
  exact (created_and_deleted no_answer "core.fan" (Some "oic.if.a"%string) (chars "/fan") (Some 7) 3 OC_ALL (sample_stack [])
    (registry_tidy _ sample_registry_ok) fan_creatable eq_refl).
Defined.

(** A collection of three: two blocks are lost with it. *)
Definition sample_collection : OCResource := set_children [2; 3; 4]%positive (sample_resource []).

Lemma collection_leaks_witness : exists s',
  OCDeleteResource no_answer (Some 1%positive) (set_resources [sample_collection] (sample_stack [])) = Some (OC_STACK_OK, s') /\
    headResource s' = [] /\ unowned s' = unowned (set_resources [sample_collection] (sample_stack [])) + 2.
Proof.
  refine (collection_leaks no_answer [] sample_collection [] (set_resources [sample_collection] (sample_stack [])) eq_refl _).
  split; [apply NoDup_singleton|apply NoDup_singleton| |done]. apply Forall_singleton, (ok_like (sample_resource [])); [exact sample_ok|done..].
Defined.
