(* ===== verification/Attributes.v ===== *)
(** * Attributes: the properties of the device and the platform

    Models [OCGetAttribute], [OCGetPropertyValue], [SetAttributeInternal],
    [IsDatabaseUpdateNeeded], [OCSetAttribute] and [OCSetPropertyValue] of
    [csdk/stack/src/ocresource.c] with the device properties they keep in
    persistent storage.  The attributes of a resource are a list with the newest
    first; a node that has been freed while the list still leads to it is [None]
    there.  Theorems: the list is a map from names to values, and where a value
    that cannot be made destroys it. *)
From S2P Require Import Prelude Effects OicString Heap CaCommon CaMessage StackTypes Payload PayloadSpec Endpoint Discovery ServerRequest Resources Observe Registry RegistryLaws.

Definition OC_RSRVD_DEVICE_ID : string := "di".
Definition OC_RSRVD_RESOURCE_TYPE : string := "rt".
Definition OC_RSRVD_INTERFACE : string := "if".
Definition OC_RSRVD_DEVICE_DESCRIPTION : string := "ld".
Definition OC_RSRVD_DEVICE_MFG_NAME : string := "dmn".
Definition OC_RSRVD_PROTOCOL_INDEPENDENT_ID : string := "piid".
Definition OC_RSRVD_DEVICE_URI : string := "/oic/d".
Definition OC_RSRVD_PLATFORM_URI : string := "/oic/p".
Definition UUID_STRING_SIZE : Z := 37.
Definition sizeof_OCAttribute : Z := 24.

(** Payload types by what the properties are of. *)
Inductive prop_owner := PAYLOAD_TYPE_DEVICE | PAYLOAD_TYPE_PLATFORM | PAYLOAD_TYPE_OTHER.

(** The identity of the server as a text, [None] when there is none, and the
    storage of the device properties, which the CBOR library writes. *)
Class AttributeEnv := {
  OCGetServerInstanceIDString : option string;
  UpdateDevicePropertiesDatabase : string -> M stack OCStackResult;
}.

(** The values that are lists to [OCGetAttribute] and [SetAttributeInternal]. *)
Definition is_list_name (n : string) : bool :=
  bool_decide (n = OC_RSRVD_DATA_MODEL_VERSION) || bool_decide (n = OC_RSRVD_DEVICE_DESCRIPTION) ||
  bool_decide (n = OC_RSRVD_DEVICE_MFG_NAME).

(** A pointer that is read as a text or as a list. *)
Definition as_text (v : attr_value) : ub (option string) :=
  match v with NoValue => Some None | TextValue s => Some (Some s) | ListValue _ => None end.
Definition as_list (v : attr_value) : ub OCStringLL :=
  match v with NoValue => Some [] | ListValue l => Some l | TextValue _ => None end.
Definition text_value (s : option string) : attr_value := match s with Some s => TextValue s | None => NoValue end.
Definition list_value (l : OCStringLL) : attr_value := match l with [] => NoValue | _ => ListValue l end.

(** The loops over the nodes: the node with a name, and its place. *)
Fixpoint find_attribute (n : string) (l : list (option OCAttribute)) : ub (option (nat * OCAttribute)) :=
  match l with
  | [] => Some None
  | a :: l' =>
      a ← a;
      name ← attrName a;
      if decide (n = name) then Some (Some (O, a)) else x ← find_attribute n l'; Some (option_map (fun x => (S x.1, x.2)) x)
  end.

Section Attributes.
Context `{AttributeEnv}.

Fixpoint add_texts (acc : OCStringLL) (l : list string) : M heap OCStringLL :=
  match l with
  | [] => mret acc
  | s :: l' => '(_, acc) ← OCResourcePayloadAddStringLL acc (Some s); add_texts acc l'
  end.

(** [value] is what the pointer to the result leads to before.  The types and
    interfaces are appended to a node whose [next] is the result: the address of
    the result is taken for that of a node. *)
Definition OCGetAttribute (resource : option positive) (attribute : option string) (value : attr_value)
    : M stack (OCStackResult * attr_value) :=
  match resource, attribute with
  | Some a, Some (String _ _ as n) =>
      r ← resource_at a;
      if decide (n = OC_RSRVD_DEVICE_ID) then
        s ← in_heap (OICStrdup OCGetServerInstanceIDString); mret (OC_STACK_OK, text_value s)
      else if decide (n = OC_RSRVD_RESOURCE_TYPE) then
        l ← in_heap (add_texts [] (rsrcType r)); mret (OC_STACK_OK, list_value l)
      else if decide (n = OC_RSRVD_INTERFACE) then
        l ← in_heap (add_texts [] (rsrcInterface r)); mret (OC_STACK_OK, list_value l)
      else
        x ← lift (find_attribute n (rsrcAttributes r));
        match x with
        | None => mret (OC_STACK_NO_RESOURCE, value)
        | Some (_, x) =>
            if is_list_name n then
              l ← lift (as_list (attrValue x)); l ← in_heap (CloneOCStringLL l); mret (OC_STACK_OK, list_value l)
            else s ← lift (as_text (attrValue x)); s ← in_heap (OICStrdup s); mret (OC_STACK_OK, text_value s)
        end
  | _, _ => mret (OC_STACK_INVALID_PARAM, value)
  end.

Definition path_of (type : prop_owner) : option string :=
  match type with
  | PAYLOAD_TYPE_DEVICE => Some OC_RSRVD_DEVICE_URI
  | PAYLOAD_TYPE_PLATFORM => Some OC_RSRVD_PLATFORM_URI
  | PAYLOAD_TYPE_OTHER => None
  end.

Definition OCGetPropertyValue (type : prop_owner) (prop : option string) (value : attr_value)
    : M stack (OCStackResult * attr_value) :=
  match prop with
  | None | Some EmptyString => mret (OC_STACK_INVALID_PARAM, value)
  | Some _ =>
      match path_of type with
      | None => mret (OC_STACK_NO_RESOURCE, NoValue)
      | Some pathType =>
          resource ← FindResourceByUri (Some (chars pathType));
          match resource with
          | None => mret (OC_STACK_NO_RESOURCE, NoValue)
          | Some _ => OCGetAttribute resource prop NoValue
          end
      end
  end.

(** The structure holds the text cut to the room there is. *)
Definition CreateDeviceProperties (piid : option string) : M heap (OCStackResult * option string) :=
  match piid with
  | None => mret (OC_STACK_INVALID_PARAM, None)
  | Some s =>
      ok ← OICCalloc 1 UUID_STRING_SIZE;
      mret (if ok : bool then (OC_STACK_OK, Some (String.substring 0 (Z.to_nat (UUID_STRING_SIZE - 1)) s))
            else (OC_STACK_NO_MEMORY, None))
  end.

Definition CleanUpDeviceProperties (deviceProperties : option string) : M heap unit := OICFree deviceProperties.

Definition update_database (value : attr_value) : M stack unit :=
  s ← lift (as_text value);
  '(result, deviceProperties) ← in_heap (CreateDeviceProperties s);
  match result, deviceProperties with
  | OC_STACK_OK, Some p => _ ← UpdateDevicePropertiesDatabase p; in_heap (CleanUpDeviceProperties deviceProperties)
  | _, _ => mret tt
  end.

Definition set_attribute_list (a : positive) (l : list (option OCAttribute)) : M stack unit := on_resource a (set_attributes l).

(** Releasing the value that is there. *)
Definition free_old (n : string) (v : attr_value) : M heap unit :=
  if is_list_name n then l ← lift (as_list v); OCFreeOCStringLL l
  else match v with NoValue => mret tt | _ => OICFree (Some tt) end.

(** The new value, as the name has it. *)
Definition new_value (n : string) (value : attr_value) : M heap attr_value :=
  if decide (n = OC_RSRVD_DATA_MODEL_VERSION) then s ← lift (as_text value); l ← OCCreateOCStringLL s; mret (list_value l)
  else if is_list_name n then l ← lift (as_list value); l ← CloneOCStringLL l; mret (list_value l)
  else s ← lift (as_text value); s ← OICStrdup s; mret (text_value s).

(** The place of the node that gets the value; [None] without memory. *)
Definition attribute_place (a : positive) (n : string) : M stack (option nat) :=
  r ← resource_at a;
  x ← lift (find_attribute n (rsrcAttributes r));
  match x with
  | Some (k, x) =>
      _ ← in_heap (free_old n (attrValue x));
      mret (Some k)
  | None =>
      ok ← in_heap (OICCalloc 1 sizeof_OCAttribute);
      if negb ok then _ ← in_heap (OCDeleteResourceAttributes []); mret None
      else
        name ← in_heap (OICStrdup (Some n));
        match name with
        | None => _ ← in_heap (OCDeleteResourceAttributes [Some {| attrName := None; attrValue := NoValue |}]); mret None
        | Some name =>
            _ ← set_attribute_list a (Some {| attrName := Some name; attrValue := NoValue |} :: rsrcAttributes r);
            mret (Some O)
        end
  end.

(** What is freed at the exit is the node with those after it; the list, or
    the node before it, still leads there. *)
Definition SetAttributeInternal (resource : positive) (attribute : option string) (value : attr_value) (updateDatabase : bool)
    : M stack OCStackResult :=
  n ← lift attribute;
  if decide (n = OC_RSRVD_RESOURCE_TYPE) then mret OC_STACK_INVALID_PARAM
  else if decide (n = OC_RSRVD_INTERFACE) then mret OC_STACK_INVALID_PARAM
  else if decide (n = OC_RSRVD_DEVICE_ID) then mret OC_STACK_INVALID_PARAM
  else
    place ← attribute_place resource n;
    match place with
    | None => mret OC_STACK_NO_MEMORY
    | Some k =>
        v ← in_heap (new_value n value);
        r ← resource_at resource;
        let node := {| attrName := Some n; attrValue := v |} in
        match v with
        | NoValue =>
            _ ← in_heap (OCDeleteResourceAttributes (Some node :: drop (S k) (rsrcAttributes r)));
            _ ← set_attribute_list resource (take k (rsrcAttributes r) ++ [None]);
            mret OC_STACK_NO_MEMORY
        | _ =>
            _ ← set_attribute_list resource (<[k := Some node]> (rsrcAttributes r));
            _ ← (if updateDatabase then update_database value else mret tt);
            mret OC_STACK_OK
        end
    end.

(** Whether to update; [strcmp] reads both texts. *)
Definition IsDatabaseUpdateNeeded (attribute : option string) (value : attr_value) : M stack (OCStackResult * bool) :=
  match attribute, value with
  | None, _ | _, NoValue => mret (OC_STACK_INVALID_PARAM, false)
  | Some n, _ =>
      if decide (n = OC_RSRVD_PROTOCOL_INDEPENDENT_ID) then
        '(result, currentPIID) ← OCGetPropertyValue PAYLOAD_TYPE_DEVICE (Some OC_RSRVD_PROTOCOL_INDEPENDENT_ID) NoValue;
        match result with
        | OC_STACK_OK =>
            current ← lift (as_text currentPIID); current ← lift current;
            new ← lift (as_text value); new ← lift new;
            _ ← in_heap (OICFree (Some current));
            mret (OC_STACK_OK, bool_decide (current <> new))
        | OC_STACK_NO_RESOURCE => _ ← in_heap (free_value currentPIID); mret (OC_STACK_OK, true)
        | result => _ ← in_heap (free_value currentPIID); mret (result, false)
        end
      else mret (OC_STACK_OK, false)
  end.

Definition OCSetAttribute (resource : positive) (attribute : option string) (value : attr_value) : M stack OCStackResult :=
  '(result, needed) ← IsDatabaseUpdateNeeded attribute value;
  SetAttributeInternal resource attribute value (bool_decide (result = OC_STACK_OK) && needed).

Definition OCSetPropertyValue (type : prop_owner) (prop : option string) (value : attr_value) : M stack OCStackResult :=
  match prop, value with
  | None, _ | _, NoValue | Some EmptyString, _ => mret OC_STACK_INVALID_PARAM
  | Some _, _ =>
      match path_of type with
      | None => mret OC_STACK_ERROR
      | Some pathType =>
          resource ← FindResourceByUri (Some (chars pathType));
          match resource with
          | None => mret OC_STACK_ERROR
          | Some a => OCSetAttribute a prop value
          end
      end
  end.

Definition UpdateDeviceInfoResourceWithDeviceProperties (deviceProperties : option string) (updateDatabase : bool)
    : M stack OCStackResult :=
  match deviceProperties with
  | None => mret OC_STACK_INVALID_PARAM
  | Some piid =>
      resource ← FindResourceByUri (Some (chars OC_RSRVD_DEVICE_URI));
      match resource with
      | Some a => SetAttributeInternal a (Some OC_RSRVD_PROTOCOL_INDEPENDENT_ID) (TextValue piid) updateDatabase
      | None => mret OC_STACK_NO_RESOURCE
      end
  end.
End Attributes.

(** ** The list as a map *)

Definition node_of (p : string * attr_value) : option OCAttribute := Some {| attrName := Some p.1; attrValue := p.2 |}.

(** A value of the kind its name asks for. *)
Definition fits (p : string * attr_value) : Prop :=
  match p.2 with ListValue l => is_list_name p.1 = true /\ l <> [] | TextValue _ => is_list_name p.1 = false | NoValue => False end.

Definition attributes_of (ps : list (string * attr_value)) : gmap string attr_value := list_to_map ps.

(** A list of attributes and the pairs it stands for. *)
Record holds (l : list (option OCAttribute)) (ps : list (string * attr_value)) : Prop := {
  ho_nodes : l = node_of <$> ps;
  ho_names : NoDup ps.*1;
  ho_fits : Forall fits ps;
}.

(** Names the stack does not answer by itself. *)
Definition generic (n : string) : Prop := n <> OC_RSRVD_DEVICE_ID /\ n <> OC_RSRVD_RESOURCE_TYPE /\ n <> OC_RSRVD_INTERFACE.

Definition pair_blocks (p : string * attr_value) : Z := 2 + value_blocks p.2.

Lemma find_nodes n ps : exists x, find_attribute n (node_of <$> ps) = Some x /\
  match x with
  | None => n ∉ ps.*1
  | Some (k, a) => exists v, ps !! k = Some (n, v) /\ Some a = node_of (n, v)
  end.
Proof.
  induction ps as [|[m v] ps (x & Ex & Hx)]; [by exists None; split; [|apply not_elem_of_nil]|]. cbn. case_decide as E.
  - subst m. eexists. split; [done|]. by exists v.
  - rewrite Ex. cbn. eexists. split; [done|]. destruct x as [[k a]|]; cbn; [done|]. by intros [|]%elem_of_cons.
Qed.

Lemma attributes_insert (ps : list (string * attr_value)) k n v v' : NoDup ps.*1 -> ps !! k = Some (n, v) ->
  attributes_of (<[k := (n, v')]> ps) = <[n := v']> (attributes_of ps).
Proof.
  unfold attributes_of. revert k. induction ps as [|[m w] ps IH]; intros [|k] Hd E; try done.
  - injection E as -> ->. cbn. by rewrite insert_insert, decide_True.
  - cbn in Hd, E. apply NoDup_cons in Hd as [Hm Hd]. change (<[S k := (n, v')]> ((m, w) :: ps)) with ((m, w) :: <[k := (n, v')]> ps).
    rewrite !list_to_map_cons, (IH k Hd E). rewrite insert_insert_ne; [done|].
    intros ->. apply Hm, list_elem_of_fmap. exists (n, v). split; [done|]. by eapply list_elem_of_lookup_2.
Qed.

Lemma insert_names (ps : list (string * attr_value)) k n v v' : ps !! k = Some (n, v) -> (<[k := (n, v')]> ps).*1 = ps.*1.
Proof.
  intros E. rewrite list_fmap_insert. cbn. apply list_insert_id. by rewrite list_lookup_fmap, E.
Qed.

Lemma insert_blocks (ps : list (string * attr_value)) k n v v' : ps !! k = Some (n, v) ->
  total pair_blocks (<[k := (n, v')]> ps) = total pair_blocks ps + value_blocks v' - value_blocks v.
Proof.
  revert k. induction ps as [|p ps IH]; intros [|k] E; try done; cbn in E |- *.
  - injection E as ->. unfold pair_blocks. cbn. lia.
  - specialize (IH k E). change (<[S k := (n, v')]> (p :: ps)) with (p :: <[k := (n, v')]> ps).
    change (pair_blocks p + total pair_blocks (<[k := (n, v')]> ps) = pair_blocks p + total pair_blocks ps + value_blocks v' - value_blocks v). lia.
Qed.

Section Laws.
Context `{AttributeEnv}.
Implicit Types s : stack.

(** What setting an attribute makes of the pairs. *)
Definition put (n : string) (v : attr_value) (ps : list (string * attr_value)) : list (string * attr_value) :=
  match list_find (fun p => p.1 = n) ps with Some (k, _) => <[k := (n, v)]> ps | None => (n, v) :: ps end.

Lemma frees_old n v : fits (n, v) -> frees (free_old n v) (value_blocks v).
Proof.
  unfold fits, free_old. cbn. destruct v; [done| |]; [intros ->; apply (frees_ptr (Some tt))|].
  intros [-> _] h. exact (frees_ll l h).
Qed.

(** The value a caller passes and the value that is kept: the version of the data
    model is passed as a text with commas. *)
Definition accepts (n : string) (value v : attr_value) : Prop :=
  (is_list_name n = false /\ exists t, value = TextValue t /\ v = value) \/
  (is_list_name n = true /\ n <> OC_RSRVD_DATA_MODEL_VERSION /\ exists l, value = ListValue l /\ l <> [] /\ v = value) \/
  (n = OC_RSRVD_DATA_MODEL_VERSION /\ exists l, value = TextValue (joined l) /\ l <> [] /\ Forall element l /\
    v = ListValue (Some <$> l)).

Lemma blocks_texts l : blocks_ll (Some <$> l) = 2 * Z.of_nat (length l).
Proof.
  unfold blocks_ll. induction l as [|t l IH]; [done|]. unfold total in *. cbn [fmap list_fmap foldr length blk]. lia.
Qed.

Lemma yields_new_value n value v : accepts n value v -> yields (new_value n value) v (value_blocks v) /\ fits (n, v).
Proof.
  unfold new_value, fits. intros [(Hn & t & -> & ->)|[(Hn & Hd & l & -> & Hl & ->)|(-> & l & -> & Hl & Hel & ->)]].
  - assert (n <> OC_RSRVD_DATA_MODEL_VERSION) as Hd by (intros ->; by vm_compute in Hn).
    rewrite decide_False, Hn by done. split; [|exact Hn]. cbn [as_text].
    eapply yields_eq; [eapply yields_bind; [by apply yields_lift|eapply yields_bind; [apply yields_strdup|apply yields_ret]]|done].
  - rewrite decide_False, Hn by done. split; [|by split]. cbn [as_list]. destruct l as [|x l]; [done|].
    eapply yields_eq; [eapply yields_bind; [by apply yields_lift|eapply yields_bind; [apply (yields_string_ll [])|apply yields_ret]]|].
    cbn [value_blocks]. lia.
  - rewrite decide_True by done. split; [|by split; [vm_compute|destruct l]]. cbn [as_text value_blocks]. rewrite blocks_texts.
    replace (ListValue (Some <$> l)) with (list_value (Some <$> l)) by by destruct l.
    eapply yields_eq; [eapply yields_bind; [by apply yields_lift|eapply yields_bind; [|apply yields_ret]]|].
    + cbn [OCCreateOCStringLL]. eapply yields_bind; [apply yields_strdup|]. cbn beta iota.
      eapply yields_bind; [apply (token_loop_yields _ l []); [done|pose proof (joined_long l Hel); lia]|].
      eapply yields_bind; [apply yields_frees, frees_ptr|apply yields_ret].
    + cbn [blk]. lia.
Qed.

Definition with_pairs (a : positive) (ps : list (string * attr_value)) (s : stack) : stack :=
  set_resources (on_addr a (set_attributes (node_of <$> ps)) (headResource s)) s.

(** The place of the node, and the pairs with nothing for the name yet. *)
Lemma place_run a r ps n s : node_at a (headResource s) = Some r -> holds (rsrcAttributes r) ps -> hp_allocs (stack_heap s) = [] ->
  (exists k v, ps !! k = Some (n, v) /\ attribute_place a n s = Some (Some k, grow (- value_blocks v) s)) \/
  (n ∉ ps.*1) /\ attribute_place a n s = Some (Some O, grow 2 (with_pairs a ((n, NoValue) :: ps) s)).
Proof.
  intros Ea [El Hd Hf] Hh. unfold attribute_place. destruct (find_nodes n ps) as (x & Ex & Hx). rewrite <- El in Ex.
  destruct x as [[k node]|].
  - left. destruct Hx as (v & Hk & Ek). exists k, v. split; [done|].
    assert (fits (n, v)) as Hfv by (rewrite Forall_forall in Hf; apply Hf; by eapply list_elem_of_lookup_2).
    step (resource_at_run a r s Ea). step (run_lift _ _ _ Ex). injection Ek as ->. cbn [attrValue snd].
    by step (in_heap_frees _ _ _ (frees_old n v Hfv)).
  - right. split; [done|]. step (resource_at_run a r s Ea). step (run_lift _ _ _ Ex).
    assert (yields (OICCalloc 1 sizeof_OCAttribute) true 1) as Hc by by apply yields_calloc.
    change (hp_allocs (heap_of s) = []) in Hh. step (in_heap_yields _ _ _ s Hc Hh). cbn [negb].
    change (hp_allocs (heap_of (grow 1 s)) = []) in Hh.
    step (in_heap_yields _ _ _ (grow 1 s) (yields_strdup (Some n)) Hh). cbn [blk]. rewrite grow_grow.
    unfold set_attribute_list, on_resource. step (run_modify _ _). by rewrite El.
Qed.

Lemma with_pairs_at a r ps s n : node_at a (headResource s) = Some r ->
  node_at a (headResource (grow n (with_pairs a ps s))) = Some (set_attributes (node_of <$> ps) r).
Proof. intros Ea. by apply (on_addr_at a (set_attributes (node_of <$> ps))). Qed.

Lemma with_pairs_twice a ps ps' s n : with_pairs a ps (grow n (with_pairs a ps' s)) = grow n (with_pairs a ps s).
Proof.
  unfold with_pairs. rewrite set_resources_grow. change (headResource (grow ?m ?t)) with (headResource t).
  change (headResource (set_resources ?l s)) with l. change (set_resources ?l (set_resources ?l' s)) with (set_resources l s).
  by rewrite on_addr_twice.
Qed.

(** Setting an attribute, when there is memory. *)
Lemma set_run a r ps n value v s : node_at a (headResource s) = Some r -> holds (rsrcAttributes r) ps -> generic n ->
  accepts n value v -> hp_allocs (stack_heap s) = [] ->
  exists ps', holds (node_of <$> ps') ps' /\ attributes_of ps' = <[n := v]> (attributes_of ps) /\
    SetAttributeInternal a (Some n) value false s =
      Some (OC_STACK_OK, grow (total pair_blocks ps' - total pair_blocks ps) (with_pairs a ps' s)).
Proof.
  intros Ea Hps (G1 & G2 & G3) Hv Hh. destruct (yields_new_value n value v Hv) as [Hy Hfv].
  assert (forall ps1 k s1, hp_allocs (heap_of s1) = [] ->
    node_at a (headResource s1) = Some (set_attributes (node_of <$> ps1) r) -> attribute_place a n s = Some (Some k, s1) ->
    SetAttributeInternal a (Some n) value false s = Some (OC_STACK_OK, grow (value_blocks v) (with_pairs a (<[k := (n, v)]> ps1) s1))) as Hrun.
  { intros ps1 k s1 Hh1 E1 Ep. unfold SetAttributeInternal. step (run_lift (Some n) n s eq_refl).
    rewrite !decide_False by done. step Ep. step (in_heap_yields _ _ _ s1 Hy Hh1).
    rewrite (run_bind _ _ _ (set_attributes (node_of <$> ps1) r) (grow (value_blocks v) s1)) by by apply resource_at_run.
    cbn [rsrcAttributes set_attributes]. unfold fits in Hfv. destruct v; [done| |];
      (unfold set_attribute_list, on_resource; step (run_modify _ _); rewrite (run_bind _ _ _ tt _ (run_ret tt _)), run_ret;
       do 2 f_equal; unfold with_pairs; rewrite list_fmap_insert; by rewrite set_resources_grow). }
  destruct (place_run a r ps n s Ea Hps Hh) as [(k & v0 & Hk & Ep)|[Hn Ep]]; destruct Hps as [El Hd Hf].
  - exists (<[k := (n, v)]> ps). split; [split|split].
    + done.
    + by rewrite (insert_names ps k n v0).
    + by apply Forall_insert.
    + by apply (attributes_insert ps k n v0).
    + rewrite (Hrun ps k (grow (- value_blocks v0) s)); [|exact Hh|by rewrite <- El; destruct r|done].
      do 2 f_equal. rewrite (insert_blocks ps k n v0 v Hk). unfold with_pairs. rewrite set_resources_grow, grow_grow.
      f_equal. lia.
  - exists ((n, v) :: ps). split; [split|split].
    + done.
    + by apply NoDup_cons.
    + by constructor.
    + done.
    + rewrite (Hrun ((n, NoValue) :: ps) O (grow 2 (with_pairs a ((n, NoValue) :: ps) s))); [|exact Hh|by apply with_pairs_at|exact Ep].
      do 2 f_equal. rewrite with_pairs_twice, grow_grow. f_equal. unfold total, pair_blocks. cbn [foldr snd]. lia.
Qed.

(** A copy of a value. *)
Lemma clone_value n v s : fits (n, v) -> hp_allocs (stack_heap s) = [] ->
  (if is_list_name n then
     l ← lift (as_list v); l ← in_heap (CloneOCStringLL l); mret (OC_STACK_OK, list_value l)
   else s ← lift (as_text v); s ← in_heap (OICStrdup s); mret (OC_STACK_OK, text_value s)) s =
    Some ((OC_STACK_OK, v), grow (value_blocks v) s).
Proof.
  unfold fits. cbn [fst snd]. intros Hf Hh. change (hp_allocs (heap_of s) = []) in Hh. destruct v as [|t|l]; [done| |].
  - rewrite Hf. step (run_lift (as_text (TextValue t)) _ s eq_refl). by step (in_heap_yields _ _ _ s (yields_strdup (Some t)) Hh).
  - destruct Hf as [-> Hl]. step (run_lift (as_list (ListValue l)) _ s eq_refl).
    step (in_heap_yields _ _ _ s (yields_string_ll [] l) Hh). by destruct l.
Qed.

(** Reading one. *)
Lemma get_run a r ps n s : node_at a (headResource s) = Some r -> holds (rsrcAttributes r) ps -> generic n -> n <> EmptyString ->
  hp_allocs (stack_heap s) = [] -> forall value,
  OCGetAttribute (Some a) (Some n) value s =
    Some (match attributes_of ps !! n with
          | Some v => ((OC_STACK_OK, v), grow (value_blocks v) s)
          | None => ((OC_STACK_NO_RESOURCE, value), s)
          end).
Proof.
  intros Ea [El Hd Hf] (G1 & G2 & G3) Hne Hh value. destruct n as [|c n']; [done|].
  unfold OCGetAttribute. set (n := String c n') in *. step (resource_at_run a r s Ea). rewrite !decide_False by done.
  destruct (find_nodes n ps) as (x & Ex & Hx). rewrite <- El in Ex. step (run_lift _ _ _ Ex). destruct x as [[k node]|].
  - destruct Hx as (v & Hk & Ek). injection Ek as ->. apply list_elem_of_lookup_2 in Hk as Hin.
    unfold attributes_of. rewrite (elem_of_list_to_map_1 ps n v Hd Hin). rewrite Forall_forall in Hf. specialize (Hf _ Hin).
    by apply clone_value.
  - unfold attributes_of. by rewrite (not_elem_of_list_to_map_1 ps n Hx).
Qed.

Lemma no_update n value s : n <> OC_RSRVD_PROTOCOL_INDEPENDENT_ID -> value <> NoValue ->
  IsDatabaseUpdateNeeded (Some n) value s = Some ((OC_STACK_OK, false), s).
Proof. intros Hn Hv. unfold IsDatabaseUpdateNeeded. destruct value; [done| |]; by rewrite decide_False. Qed.

Lemma accepts_value n value v : accepts n value v -> value <> NoValue.
Proof. intros [(_ & t & -> & _)|[(_ & _ & l & -> & _)|(_ & l & -> & _)]]; done. Qed.

(** C13: the attributes of a resource are a map from names to values: setting
    one whose value is of the kind its name asks for inserts it, whether it was
    there or not, and reading any of them gives a copy of what the map has, or
    that there is nothing. *)
Theorem attribute_set_get a r ps n value v s : node_at a (headResource s) = Some r -> holds (rsrcAttributes r) ps ->
  generic n -> n <> OC_RSRVD_PROTOCOL_INDEPENDENT_ID -> accepts n value v -> hp_allocs (stack_heap s) = [] ->
  exists ps' s', OCSetAttribute a (Some n) value s = Some (OC_STACK_OK, s') /\
    node_at a (headResource s') = Some (set_attributes (node_of <$> ps') r) /\ holds (node_of <$> ps') ps' /\
    live (stack_heap s') = live (stack_heap s) + total pair_blocks ps' - total pair_blocks ps /\
    forall n', generic n' -> n' <> EmptyString ->
      OCGetAttribute (Some a) (Some n') NoValue s' =
        Some (match <[n := v]> (attributes_of ps) !! n' with
              | Some w => ((OC_STACK_OK, w), grow (value_blocks w) s')
              | None => ((OC_STACK_NO_RESOURCE, NoValue), s')
              end).
Proof.
  intros Ea Hps Hg Hn Hv Hh. destruct (set_run a r ps n value v s Ea Hps Hg Hv Hh) as (ps' & Hps' & Em & Es).
  eexists ps', _. split; [|split; [by apply with_pairs_at|split; [done|split]]].
  - unfold OCSetAttribute. step (no_update n value s Hn (accepts_value n value v Hv)). exact Es.
  - change (live (stack_heap s) + (total pair_blocks ps' - total pair_blocks ps) =
      live (stack_heap s) + total pair_blocks ps' - total pair_blocks ps). lia.
  - intros n' Hg' Hne. rewrite <- Em. apply (get_run a (set_attributes (node_of <$> ps') r)); [by apply with_pairs_at|done|done|done|exact Hh].
Qed.

(** ** Where the list is destroyed *)

(** What releasing an attribute gives back: a list that is not the version of
    the data model counts as one block. *)
Definition lost_blocks (p : string * attr_value) : Z :=
  match p.2 with
  | ListValue l => if decide (p.1 = OC_RSRVD_DATA_MODEL_VERSION) then 0 else blocks_ll l - 1
  | _ => 0
  end.

Lemma frees_attribute p : fits p -> frees (a ← lift (node_of p); free_attribute a) (pair_blocks p - lost_blocks p).
Proof.
  destruct p as [n v]. unfold fits, pair_blocks, lost_blocks, node_of. cbn [fst snd]. intros Hf h.
  rewrite (run_bind _ _ _ {| attrName := Some n; attrValue := v |} h eq_refl). revert h.
  change (frees (free_attribute {| attrName := Some n; attrValue := v |}) (2 + value_blocks v -
    match v with ListValue l => if decide (n = OC_RSRVD_DATA_MODEL_VERSION) then 0 else blocks_ll l - 1 | _ => 0 end)).
  unfold free_attribute. cbn [attrName attrValue]. destruct v as [|t|l]; [done| |].
  - rewrite decide_False by (intros [= ->]; by vm_compute in Hf).
    eapply frees_eq; [apply frees_bind; [apply (frees_ptr (Some tt))|apply frees_bind; apply frees_ptr]|]. cbn. lia.
  - destruct (decide (Some n = _)) as [[= ->]|Hn].
    + rewrite decide_True by done. eapply frees_eq; [apply frees_bind; [apply frees_ll|apply frees_bind; apply frees_ptr]|].
      cbn [value_blocks blk]. lia.
    + rewrite decide_False by congruence.
      eapply frees_eq; [apply frees_bind; [apply (frees_ptr (Some tt))|apply frees_bind; apply frees_ptr]|]. cbn [value_blocks blk]. lia.
Qed.

Lemma frees_valueless : frees (a ← lift (node_of (OC_RSRVD_DATA_MODEL_VERSION, NoValue)); free_attribute a) 2.
Proof.
  intros h. rewrite (run_bind _ _ _ {| attrName := Some OC_RSRVD_DATA_MODEL_VERSION; attrValue := NoValue |} h eq_refl). revert h.
  change (frees (free_attribute {| attrName := Some OC_RSRVD_DATA_MODEL_VERSION; attrValue := NoValue |}) 2).
  unfold free_attribute. rewrite decide_True by done.
  eapply frees_eq; [apply frees_bind; [apply frees_ret|apply frees_bind; apply frees_ptr]|done].
Qed.

(** The names and descriptions of the device are lists that are not released
    with their attribute but for the first block. *)
Theorem deleted_attributes_leak ps h : Forall fits ps ->
  OCDeleteResourceAttributes (node_of <$> ps) h = Some (tt, add_live (total lost_blocks ps - total pair_blocks ps) h).
Proof.
  intros Hf. assert (frees (OCDeleteResourceAttributes (node_of <$> ps)) (total pair_blocks ps - total lost_blocks ps)) as Hfr.
  { unfold OCDeleteResourceAttributes. induction Hf as [|p ps Hp Hf IH]; [apply frees_ret|]. cbn [fmap list_fmap free_all].
    eapply frees_eq; [apply frees_bind; [by apply frees_attribute|exact IH]|]. unfold total in *. cbn [foldr]. lia. }
  rewrite (Hfr h). do 2 f_equal. f_equal. lia.
Qed.

Lemma empty_version_yields text : strtok_r text = None ->
  yields (new_value OC_RSRVD_DATA_MODEL_VERSION (TextValue text)) NoValue 0.
Proof.
  intros Ht. unfold new_value. rewrite decide_True by done. cbn [as_text].
  eapply yields_eq; [eapply yields_bind; [by apply yields_lift|eapply (yields_bind _ _ []); [|apply yields_ret]]|].
  - cbn [OCCreateOCStringLL]. eapply yields_bind; [apply yields_strdup|]. cbn beta iota. cbn [token_loop]. rewrite Ht.
    eapply (yields_bind _ _ (Some [])); [apply yields_ret|]. eapply yields_bind; [apply yields_frees, (frees_ptr (Some text))|apply yields_ret].
  - done.
Qed.

(** Releasing a node without a value and those behind it. *)
Lemma release_from ps h : Forall fits ps ->
  OCDeleteResourceAttributes (node_of (OC_RSRVD_DATA_MODEL_VERSION, NoValue) :: (node_of <$> ps)) h =
    Some (tt, add_live (total lost_blocks ps - total pair_blocks ps - 2) h).
Proof.
  intros Hf. unfold OCDeleteResourceAttributes. cbn [free_all]. rewrite (run_bind _ _ _ tt (add_live (- 2) h)); [|exact (frees_valueless h)].
  pose proof (deleted_attributes_leak ps (add_live (- 2) h) Hf) as Ed. unfold OCDeleteResourceAttributes in Ed.
  rewrite Ed, add_live_add. do 2 f_equal. f_equal. lia.
Qed.

(** The nodes from the place [k] on are released, and the list leads there. *)
Lemma dangle_run a r ps k v text s s1 : attribute_place a OC_RSRVD_DATA_MODEL_VERSION s = Some (Some k, s1) ->
  node_at a (headResource s1) = Some (set_attributes (node_of <$> ps) r) -> ps !! k = Some (OC_RSRVD_DATA_MODEL_VERSION, v) ->
  Forall fits (drop (S k) ps) -> strtok_r text = None -> hp_allocs (stack_heap s1) = [] ->
  let left := (node_of <$> take k ps) ++ [None] in
  SetAttributeInternal a (Some OC_RSRVD_DATA_MODEL_VERSION) (TextValue text) false s = Some (OC_STACK_NO_MEMORY,
    grow (total lost_blocks (drop (S k) ps) - total pair_blocks (drop (S k) ps) - 2)
      (set_resources (on_addr a (set_attributes left) (headResource s1)) s1)).
Proof.
  intros Ep E1 Hk Hf Ht Hh left. unfold SetAttributeInternal. step (run_lift (Some OC_RSRVD_DATA_MODEL_VERSION) _ s eq_refl).
  rewrite !decide_False by done. step Ep.
  rewrite (run_bind _ _ _ NoValue s1) by (rewrite (in_heap_yields _ _ 0 s1 (empty_version_yields text Ht)) by exact Hh; by rewrite grow_0).
  step (resource_at_run a _ s1 E1). cbn [rsrcAttributes set_attributes].
  set (g := total lost_blocks (drop (S k) ps) - total pair_blocks (drop (S k) ps) - 2).
  rewrite (run_bind _ _ _ tt (grow g s1)).
  - unfold set_attribute_list, on_resource. step (run_modify _ _). cbn [fst snd]. rewrite <- fmap_take. fold left.
    change (headResource (grow g s1)) with (headResource s1). by rewrite set_resources_grow.
  - apply run_in_heap. rewrite <- fmap_drop.
    exact (release_from (drop (S k) ps) (heap_of s1) Hf).
Qed.

(** Looking through a list that leads to freed memory. *)
Lemma find_before_freed n ps : find_attribute n ((node_of <$> ps) ++ [None]) =
  match find_attribute n (node_of <$> ps) with Some None => None | x => x end.
Proof.
  induction ps as [|[m v] ps IH]; [done|]. cbn. case_decide; [done|]. rewrite IH.
  by destruct (find_attribute n (node_of <$> ps)) as [[x|]|].
Qed.

Lemma delete_freed ps h : Forall fits ps -> OCDeleteResourceAttributes ((node_of <$> ps) ++ [None]) h = None.
Proof.
  unfold OCDeleteResourceAttributes. intros Hf. revert h. induction Hf as [|p ps Hp Hf IH]; intros h; [done|].
  cbn [fmap list_fmap app free_all]. by rewrite (run_bind _ _ _ _ _ (frees_attribute p Hp h)).
Qed.

Lemma get_dangling a r kept n w s : node_at a (headResource s) = Some (set_attributes ((node_of <$> kept) ++ [None]) r) ->
  NoDup kept.*1 -> Forall fits kept -> generic n -> n <> EmptyString -> hp_allocs (stack_heap s) = [] ->
  OCGetAttribute (Some a) (Some n) w s = v ← attributes_of kept !! n; Some ((OC_STACK_OK, v), grow (value_blocks v) s).
Proof.
  intros Ea Hd Hf (G1 & G2 & G3) Hne Hh. destruct n as [|c n']; [done|].
  unfold OCGetAttribute. set (n := String c n') in *. step (resource_at_run a _ s Ea). rewrite !decide_False by done.
  cbn [rsrcAttributes set_attributes]. rewrite find_before_freed. destruct (find_nodes n kept) as (x & Ex & Hx). rewrite Ex.
  destruct x as [[k node]|].
  - destruct Hx as (v & Hk & Ek). injection Ek as ->. apply list_elem_of_lookup_2 in Hk as Hin.
    unfold attributes_of. rewrite (elem_of_list_to_map_1 kept n v Hd Hin). rewrite Forall_forall in Hf. specialize (Hf _ Hin).
    step (run_lift (Some (Some (k, {| attrName := Some n; attrValue := v |}))) _ s eq_refl). cbn beta iota.
    cbn [mbind option_bind]. by apply clone_value.
  - unfold attributes_of. by rewrite (not_elem_of_list_to_map_1 kept n Hx).
Qed.

(** C14: setting the version of the data model to a text without a version in
    it - the empty text, or commas - says that there is no memory, releases the
    attribute and all that stand behind it in the list, those that were set
    before it first was, and leaves the resource with a pointer to what it has
    released: all attributes are lost if the version had not been set.  The
    attributes in front are read as before; reading any other, and deleting the
    resource, is undefined from then on.  (There is memory; the attributes are
    well formed.) *)
Theorem empty_version_dangles a r ps text s : node_at a (headResource s) = Some r -> holds (rsrcAttributes r) ps ->
  strtok_r text = None -> hp_allocs (stack_heap s) = [] ->
  exists kept gone s', ps = kept ++ gone /\
    (OC_RSRVD_DATA_MODEL_VERSION ∉ ps.*1 /\ kept = [] \/ head gone.*1 = Some OC_RSRVD_DATA_MODEL_VERSION) /\
    OCSetAttribute a (Some OC_RSRVD_DATA_MODEL_VERSION) (TextValue text) s = Some (OC_STACK_NO_MEMORY, s') /\
    node_at a (headResource s') = Some (set_attributes ((node_of <$> kept) ++ [None]) r) /\
    live (stack_heap s') = live (stack_heap s) + total lost_blocks gone - total pair_blocks gone /\
    (forall n w, generic n -> n <> EmptyString ->
      OCGetAttribute (Some a) (Some n) w s' =
        v ← attributes_of kept !! n; Some ((OC_STACK_OK, v), grow (value_blocks v) s')) /\
    (forall h, OCDeleteResourceAttributes ((node_of <$> kept) ++ [None]) h = None).
Proof.
  intros Ea Hps Ht Hh. pose proof Hps as [El Hd Hf].
  assert (forall k v ps1 kept gone s1, ps = kept ++ gone -> kept = take k ps1 ->
    attribute_place a OC_RSRVD_DATA_MODEL_VERSION s = Some (Some k, s1) ->
    node_at a (headResource s1) = Some (set_attributes (node_of <$> ps1) r) -> ps1 !! k = Some (OC_RSRVD_DATA_MODEL_VERSION, v) ->
    Forall fits (drop (S k) ps1) -> hp_allocs (stack_heap s1) = [] ->
    live (stack_heap s1) + (total lost_blocks (drop (S k) ps1) - total pair_blocks (drop (S k) ps1) - 2) =
      live (stack_heap s) + total lost_blocks gone - total pair_blocks gone ->
    exists s', OCSetAttribute a (Some OC_RSRVD_DATA_MODEL_VERSION) (TextValue text) s = Some (OC_STACK_NO_MEMORY, s') /\
    node_at a (headResource s') = Some (set_attributes ((node_of <$> kept) ++ [None]) r) /\
    live (stack_heap s') = live (stack_heap s) + total lost_blocks gone - total pair_blocks gone /\
    (forall n w, generic n -> n <> EmptyString ->
      OCGetAttribute (Some a) (Some n) w s' =
        v ← attributes_of kept !! n; Some ((OC_STACK_OK, v), grow (value_blocks v) s')) /\
    (forall h, OCDeleteResourceAttributes ((node_of <$> kept) ++ [None]) h = None)) as Hrun.
  { intros k v ps1 kept gone s1 Eps Ek Ep E1 Hk Hf1 Hh1 Hlive.
    assert (Forall fits kept) as Hfk by (rewrite Eps in Hf; by apply Forall_app in Hf as [? _]).
    assert (NoDup kept.*1) as Hdk by (rewrite Eps, fmap_app in Hd; by apply NoDup_app in Hd as [? _]).
    pose proof (dangle_run a r ps1 k v text s s1 Ep E1 Hk Hf1 Ht Hh1) as E. cbv zeta in E. rewrite <- Ek in E.
    set (s' := grow _ _) in E. exists s'.
    assert (node_at a (headResource s') = Some (set_attributes ((node_of <$> kept) ++ [None]) r)) as E'
      by exact (on_addr_at a (set_attributes ((node_of <$> kept) ++ [None])) (headResource s1) _ ltac:(done) E1).
    split; [|split; [exact E'|split; [exact Hlive|split; [|intros h; by apply delete_freed]]]].
    - unfold OCSetAttribute. step (no_update OC_RSRVD_DATA_MODEL_VERSION (TextValue text) s ltac:(done) ltac:(done)). exact E.
    - intros n w Hg Hne. by apply (get_dangling a r). }
  destruct (place_run a r ps OC_RSRVD_DATA_MODEL_VERSION s Ea Hps Hh) as [(k & v & Hk & Ep)|[Hnew Ep]].
  - exists (take k ps), (drop k ps). pose proof (drop_S _ _ _ Hk) as Edrop.
    destruct (Hrun k v ps (take k ps) (drop k ps) (grow (- value_blocks v) s)) as (s' & Hs'); try done.
    + by rewrite take_drop.
    + rewrite <- El. change (headResource (grow ?m ?t)) with (headResource t). rewrite Ea. by destruct r.
    + by apply Forall_drop.
    + rewrite Edrop. unfold total. cbn [foldr]. unfold pair_blocks at 2, lost_blocks at 2. cbn [fst snd].
      assert ((match v with ListValue l => if decide (OC_RSRVD_DATA_MODEL_VERSION = OC_RSRVD_DATA_MODEL_VERSION) then 0
        else blocks_ll l - 1 | _ => 0 end) = 0) as -> by (destruct v; [done..|]; by rewrite decide_True).
      change (live (stack_heap (grow (- value_blocks v) s))) with (live (stack_heap s) + - value_blocks v). lia.
    + exists s'. split; [by rewrite take_drop|]. split; [right; by rewrite Edrop|exact Hs'].
  - exists [], ps. destruct (Hrun O NoValue ((OC_RSRVD_DATA_MODEL_VERSION, NoValue) :: ps) [] ps
      (grow 2 (with_pairs a ((OC_RSRVD_DATA_MODEL_VERSION, NoValue) :: ps) s))) as (s' & Hs'); try done.
    + by apply with_pairs_at.
    + change (drop 1 (?p :: ps)) with ps.
      change (live (stack_heap s) + 2 + (total lost_blocks ps - total pair_blocks ps - 2) =
        live (stack_heap s) + total lost_blocks ps - total pair_blocks ps). lia.
    + exists s'. split; [done|]. split; [by left|exact Hs'].
Qed.
End Laws.

(** ** At concrete inputs *)

Definition sample_attributes : AttributeEnv := {|
  OCGetServerInstanceIDString := Some "0001"%string;
  UpdateDevicePropertiesDatabase := fun _ => mret OC_STACK_OK |}.
#[local] Existing Instance sample_attributes.

(** A device with a specification version and a description. *)
Definition sample_pairs : list (string * attr_value) :=
  [("ld"%string, ListValue [Some "en"%string; Some "a lamp"%string]); ("icv"%string, TextValue "core.1.1.0")].
Definition sample_device : OCResource := set_attributes (node_of <$> sample_pairs) (sample_resource []).
Definition device_stack : stack := set_resources [sample_device] (sample_stack []).

Lemma sample_holds : holds (rsrcAttributes sample_device) sample_pairs.
Proof.
  split; [done| |by repeat constructor]. apply NoDup_cons. split; [|apply NoDup_singleton]. by intros Hx%list_elem_of_singleton.
Qed.

Lemma attribute_set_get_witness : exists ps' s',
  OCSetAttribute 1%positive (Some OC_RSRVD_DATA_MODEL_VERSION) (TextValue "ocf.res.1.1.0,ocf.sh.1.1.0") device_stack =
    Some (OC_STACK_OK, s') /\
  node_at 1%positive (headResource s') = Some (set_attributes (node_of <$> ps') sample_device) /\ holds (node_of <$> ps') ps' /\
  live (stack_heap s') = live (stack_heap device_stack) + total pair_blocks ps' - total pair_blocks sample_pairs /\
  forall n', generic n' -> n' <> EmptyString ->
    OCGetAttribute (Some 1%positive) (Some n') NoValue s' =
      Some (match <[OC_RSRVD_DATA_MODEL_VERSION := ListValue [Some "ocf.res.1.1.0"; Some "ocf.sh.1.1.0"]%string]>
                    (attributes_of sample_pairs) !! n' with
            | Some w => ((OC_STACK_OK, w), grow (value_blocks w) s')
            | None => ((OC_STACK_NO_RESOURCE, NoValue), s')
            end).
Proof.
  refine (attribute_set_get 1 sample_device sample_pairs OC_RSRVD_DATA_MODEL_VERSION (TextValue "ocf.res.1.1.0,ocf.sh.1.1.0")
    (ListValue [Some "ocf.res.1.1.0"; Some "ocf.sh.1.1.0"]%string) device_stack eq_refl sample_holds _ _ _ eq_refl); [done|done|].
  right. right. split; [done|]. exists ["ocf.res.1.1.0"; "ocf.sh.1.1.0"]%string. split; [done|]. split; [done|].
  split; [by repeat constructor|done].
Defined.

(** The same device with the version of the data model, set between the two. *)
Definition started_pairs : list (string * attr_value) :=
  [("ld"%string, ListValue [Some "en"%string; Some "a lamp"%string]);
   (OC_RSRVD_DATA_MODEL_VERSION, ListValue [Some "ocf.res.1.1.0"%string]); ("icv"%string, TextValue "core.1.1.0")].
Definition started_device : OCResource := set_attributes (node_of <$> started_pairs) (sample_resource []).
Definition started_stack : stack := set_resources [started_device] (sample_stack []).

Lemma empty_version_dangles_witness : exists kept gone s', started_pairs = kept ++ gone /\
  (OC_RSRVD_DATA_MODEL_VERSION ∉ started_pairs.*1 /\ kept = [] \/ head gone.*1 = Some OC_RSRVD_DATA_MODEL_VERSION) /\
  OCSetAttribute 1%positive (Some OC_RSRVD_DATA_MODEL_VERSION) (TextValue ",") started_stack = Some (OC_STACK_NO_MEMORY, s') /\
  node_at 1%positive (headResource s') = Some (set_attributes ((node_of <$> kept) ++ [None]) started_device) /\
  live (stack_heap s') = live (stack_heap started_stack) + total lost_blocks gone - total pair_blocks gone /\
  (forall n w, generic n -> n <> EmptyString ->
    OCGetAttribute (Some 1%positive) (Some n) w s' =
      v ← attributes_of kept !! n; Some ((OC_STACK_OK, v), grow (value_blocks v) s')) /\
  (forall h, OCDeleteResourceAttributes ((node_of <$> kept) ++ [None]) h = None).
Proof.
  apply (empty_version_dangles 1 started_device started_pairs "," started_stack eq_refl).
  - split; [done| |by repeat constructor]. apply (bool_decide_unpack _). vm_compute. exact I.
  - reflexivity.
  - reflexivity.
Defined.

(** Of this device the description is left, and nothing else can be read. *)
Example description_left : match OCSetAttribute 1%positive (Some OC_RSRVD_DATA_MODEL_VERSION) (TextValue ",") started_stack with
  | Some (OC_STACK_NO_MEMORY, s) =>
      match OCGetAttribute (Some 1%positive) (Some "ld"%string) NoValue s, OCGetAttribute (Some 1%positive) (Some "icv"%string) NoValue s with
      | Some ((OC_STACK_OK, ListValue [Some "en"%string; Some "a lamp"%string]), _), None => True
      | _, _ => False
      end
  | _ => False
  end.
Proof. vm_compute. exact I. Qed.
