(* ===== verification/Requests.v ===== *)
(** * Requests: a request from the network to the application and back

    Models the path of a request through [csdk/stack/src/ocstack.c] and
    [ocresource.c]: [HandleCARequests], [OCHandleRequests], [HandleStackRequests],
    [ProcessRequest] and what it calls, [SendDirectStackResponse] and the
    conversions of results.  Built as a routing endpoint with [WITH_PRESENCE].
    The handlers of the application and the answers of /oic/res and of
    collections are members of [StackEnv]. *)
From S2P Require SecureResourceManager.
From S2P Require Import Prelude Effects Heap StackTypes Endpoint Discovery Routing ServerRequest Resources Observe CaCommon CaMessage.

(** ** Conversions *)

Definition CAToOCPayloadFormat (caFormat : CAPayloadFormat_t) : OCPayloadFormat :=
  match caFormat with
  | CA_FORMAT_UNDEFINED => OC_FORMAT_UNDEFINED
  | CA_FORMAT_APPLICATION_CBOR => OC_FORMAT_CBOR
  | CA_FORMAT_APPLICATION_VND_OCF_CBOR => OC_FORMAT_VND_OCF_CBOR
  | _ => OC_FORMAT_UNSUPPORTED
  end.

Definition OCToCAStackResult (ocCode : OCStackResult) (method : OCMethod) : Z :=
  match ocCode with
  | OC_STACK_OK =>
      match method with
      | OC_REST_PUT | OC_REST_POST => CA_CHANGED
      | OC_REST_GET => CA_CONTENT
      | OC_REST_DELETE => CA_DELETED
      | _ => CA_CONTENT
      end
  | OC_STACK_RESOURCE_CREATED => CA_CREATED
  | OC_STACK_RESOURCE_DELETED => CA_DELETED
  | OC_STACK_RESOURCE_CHANGED => CA_CHANGED
  | OC_STACK_INVALID_QUERY => CA_BAD_REQ
  | OC_STACK_INVALID_OPTION => CA_BAD_OPT
  | OC_STACK_NO_RESOURCE => CA_NOT_FOUND
  | OC_STACK_COMM_ERROR => CA_RETRANSMIT_TIMEOUT
  | OC_STACK_GATEWAY_TIMEOUT => CA_RETRANSMIT_TIMEOUT
  | OC_STACK_NOT_ACCEPTABLE => CA_NOT_ACCEPTABLE
  | OC_STACK_UNAUTHORIZED_REQ => CA_UNAUTHORIZED_REQ
  | OC_STACK_FORBIDDEN_REQ => CA_FORBIDDEN_REQ
  | OC_STACK_INTERNAL_SERVER_ERROR => CA_INTERNAL_SERVER_ERROR
  | OC_STACK_BAD_ENDPOINT => CA_BAD_REQ
  | OC_STACK_SERVICE_UNAVAILABLE => CA_SERVICE_UNAVAILABLE
  | OC_STACK_INVALID_METHOD => CA_METHOD_NOT_ALLOWED
  | OC_STACK_TOO_LARGE_REQ => CA_REQUEST_ENTITY_TOO_LARGE
  | _ => CA_INTERNAL_SERVER_ERROR
  end.

Definition OCResultToSuccess (ocResult : OCStackResult) : bool :=
  match ocResult with
  | OC_STACK_OK | OC_STACK_RESOURCE_CREATED | OC_STACK_RESOURCE_DELETED | OC_STACK_CONTINUE
  | OC_STACK_RESOURCE_CHANGED | OC_STACK_SLOW_RESOURCE => true
  | _ => false
  end.

(** The text up to the first ['?'], and what follows it. *)
Fixpoint split_query (uri : list Z) : list Z * option (list Z) :=
  match uri with
  | [] => ([], None)
  | c :: rest => if c =? 63 then ([], Some rest) else let '(u, q) := split_query rest in (c :: u, q)
  end.

(** The query and the URI without it; no block for an empty text. *)
Definition getQueryFromUri (uri : option (list Z)) : M heap (OCStackResult * option (list Z) * option (list Z)) :=
  match uri with
  | None => mret (OC_STACK_INVALID_URI, None, None)
  | Some u =>
      let '(path, q) := split_query u in
      ok ← (match path with [] => mret true | _ => OICCalloc (Z.of_nat (length path) + 1) 1 end);
      if negb ok then mret (OC_STACK_NO_MEMORY, None, None)
      else
        let p := match path with [] => None | _ => Some path end in
        match default [] q with
        | [] => mret (OC_STACK_OK, None, p)
        | q =>
            ok ← OICCalloc (Z.of_nat (length q) + 1) 1;
            if negb ok then _ ← OICFree p; mret (OC_STACK_NO_MEMORY, None, None)
            else mret (OC_STACK_OK, Some q, p)
        end
  end.

Section Requests.
Context `{StackEnv}.

(** ** Responses of the stack itself *)

Definition direct_info (coapID res : Z) (ty : CAMessageType_t) (n : Z) (os : option (list CAHeaderOption_t))
    (tok : option (list Z)) (tokLength : Z) (uri : option (list Z)) (data : CADataType_t) : CAResponseInfo_t := {|
  result := res;
  res_info := {|
    CaMessage.type := ty; CaMessage.messageId := coapID; CaMessage.token := tok; CaMessage.tokenLength := tokLength;
    CaMessage.options := os; CaMessage.numOptions := n; CaMessage.payload := None; CaMessage.payloadSize := 0;
    CaMessage.payloadFormat := CA_FORMAT_UNDEFINED; CaMessage.acceptFormat := CA_FORMAT_UNDEFINED;
    CaMessage.payloadVersion := 0; CaMessage.acceptVersion := 0; CaMessage.resourceUri := uri;
    CaMessage.identity := no_identity; CaMessage.info_dataType := Some data |};
  res_isMulticast := false |}.

(** A client cannot send an empty acknowledgement through a gateway and posts a
    request instead. *)
Definition post_empty (endPoint : OCDevAddr) (info : CAResponseInfo_t) : M stack OCStackResult :=
  let i := res_info info in
  uri ← in_heap (OICStrdup (Some (chars "/oic/gateway")));
  ok ← (if numOptions i =? 0 then mret true else in_heap (OICCalloc (numOptions i) sizeof_CAHeaderOption));
  if negb ok then
    _ ← in_heap (OICFree uri); _ ← in_heap (OICFree (resourceUri i)); _ ← in_heap (OICFree (options i));
    mret OC_STACK_NO_MEMORY
  else
    os ← lift (if numOptions i =? 0 then Some None
               else match options i with Some l => o ← read_at l 0 (numOptions i); Some (Some o) | None => None end);
    let req := {| method := CA_POST; req_isMulticast := false;
      req_info := {|
        CaMessage.type := CA_MSG_NONCONFIRM; CaMessage.messageId := messageId i; CaMessage.token := token i;
        CaMessage.tokenLength := tokenLength i; CaMessage.options := os; CaMessage.numOptions := numOptions i;
        CaMessage.payload := None; CaMessage.payloadSize := 0; CaMessage.payloadFormat := CA_FORMAT_UNDEFINED;
        CaMessage.acceptFormat := CA_FORMAT_UNDEFINED; CaMessage.payloadVersion := 0; CaMessage.acceptVersion := 0;
        CaMessage.resourceUri := uri; CaMessage.identity := no_identity; CaMessage.info_dataType := None |} |} in
    _ ← modify (add_posted endPoint req);
    s ← get;
    let res := request_result s endPoint req in
    _ ← in_heap (OICFree uri); _ ← in_heap (OICFree os);
    _ ← in_heap (OICFree (resourceUri i)); _ ← in_heap (OICFree (options i));
    mret (if decide (res = CA_STATUS_OK) then OC_STACK_OK else CAResultToOCResult res).

Definition SendDirectStackResponse (endPoint : OCDevAddr) (coapID responseResult : Z) (ty : CAMessageType_t) (n : Z)
    (os : option (list CAHeaderOption_t)) (tok : option (list Z)) (tokLength : Z) (uri : option (list Z)) (data : CADataType_t)
    : M stack OCStackResult :=
  ok ← (if n =? 0 then mret true else in_heap (OICCalloc n sizeof_CAHeaderOption));
  if negb ok then mret OC_STACK_NO_MEMORY
  else
    os' ← lift (if n =? 0 then Some None else match os with Some l => o ← read_at l 0 n; Some (Some o) | None => None end);
    uri' ← in_heap (OICStrdup uri);
    a ← in_heap (RMAddInfo stack_mode (Some (routeData endPoint))
                   (ResponseMessage (direct_info coapID responseResult ty n os' tok tokLength uri' data)));
    match ad_message a with
    | RequestMessage _ => undefined
    | ResponseMessage info =>
        match ad_result a with
        | OC_STACK_OK =>
            if ad_post a then post_empty endPoint info
            else
              _ ← in_server (modify (add_sent {| to_endpoint := endPoint; to_send := info |}));
              s ← get;
              let res := send_result (st_server s) endPoint info in
              _ ← in_heap (OICFree uri');
              _ ← in_heap (OICFree (options (res_info info)));
              mret (if decide (res = CA_STATUS_OK) then OC_STACK_OK else CAResultToOCResult res)
        | r =>
            _ ← in_heap (OICFree uri');
            _ ← in_heap (free_options (ad_dangling a) (options (res_info info)));
            mret r
        end
    end.

(** ** Handing a request to the application *)

(** What the result of a handler means for the request. *)
Definition after_handler (request : positive) (ehResult : OCEntityHandlerResult) : M stack OCStackResult :=
  _ ← (match ehResult with
       | OC_EH_SLOW => on_request request (fun r => set_flags (requestComplete r) true r)
       | OC_EH_ERROR => in_server (DeleteServerRequest (Some request))
       | _ => mret tt
       end);
  mret (EntityHandlerCodeToOCStackCode ehResult).

Definition HandleDefaultDeviceEntityHandler (request : positive) : M stack OCStackResult :=
  '(result, eh) ← EHRequest REPRESENTATION request None;
  result ← (match result with
            | OC_STACK_OK =>
                match default_device_handler with
                | None => undefined
                | Some h =>
                    r ← in_server (request_at request);
                    res ← h OC_REQUEST_FLAG eh (resourceUrl r);
                    after_handler request res
                end
            | result => mret result
            end);
  _ ← in_heap (OCPayloadDestroy (eh_body eh));
  mret result.

Definition HandleCollectionResourceDefaultEntityHandler (request resource : positive) : M stack OCStackResult :=
  '(result, eh) ← EHRequest REPRESENTATION request (Some resource);
  result ← (match result with OC_STACK_OK => collection_handler OC_REQUEST_FLAG eh | result => mret result end);
  _ ← in_heap (OCPayloadDestroy (eh_body eh));
  mret result.

Definition with_observation (id : Z) (eh : OCEntityHandlerRequest) : OCEntityHandlerRequest := {|
  eh_resource := eh_resource eh; eh_request := eh_request eh; eh_method := eh_method eh; eh_devAddr := eh_devAddr eh;
  eh_query := eh_query eh; eh_body := eh_body eh; numRcvdOptions := numRcvdOptions eh; rcvdOptions := rcvdOptions eh;
  obs_action := obs_action eh; obs_id := id; eh_messageID := eh_messageID eh |}.

Section Knot.
Context (process : ResourceHandling -> option positive -> positive -> M stack OCStackResult).

(** What becomes of an observe request before the handler is called: [inl] ends
    the request with a result, and says whether the payload is destroyed; [inr]
    goes on to the handler. *)
Definition register_observer (request resource : positive) (eh : OCEntityHandlerRequest)
    : M stack ((OCStackResult * bool) + (Z * OCEntityHandlerRequest)) :=
  r ← in_server (request_at request);
  obs ← GetObserverUsingToken process resource (requestToken r) (sr_tokenLength r);
  match obs with
  | Some _ => _ ← in_server (DeleteServerRequest (Some request)); mret (inl (OC_STACK_OK, false))
  | None =>
      '(result, id) ← GenerateObserverId process;
      match result, id with
      | OC_STACK_OK, Some id =>
          let eh := with_observation id eh in
          r ← in_server (request_at request);
          result ← AddObserver (Some (resourceUrl r)) (Some (query r)) id (requestToken r) (sr_tokenLength r) (Some resource)
                     (qos r) (sr_acceptFormat r) (sr_acceptVersion r) (sr_devAddr r);
          match result with
          | OC_STACK_OK =>
              _ ← on_request request (set_observeResult OC_STACK_OK);
              mret (inr (OC_REQUEST_FLAG ||| OC_OBSERVE_FLAG, eh))
          | OC_STACK_RESOURCE_ERROR =>
              _ ← on_request request (set_observeResult OC_STACK_ERROR); mret (inr (OC_REQUEST_FLAG, eh))
          | result =>
              _ ← on_request request (set_observeResult OC_STACK_ERROR);
              _ ← in_server (DeleteServerRequest (Some request));
              mret (inl (result, true))
          end
      | result, _ => mret (inl (result, true))
      end
  end.

Definition deregister_observer (request resource : positive) (eh : OCEntityHandlerRequest)
    : M stack ((OCStackResult * bool) + (Z * OCEntityHandlerRequest)) :=
  r ← in_server (request_at request);
  resObs ← GetObserverUsingToken process resource (requestToken r) (sr_tokenLength r);
  match resObs with
  | None => mret (inl (OC_STACK_ERROR, true))
  | Some o =>
      obs ← observer_at resource o;
      r ← in_server (request_at request);
      result ← DeleteObserverUsingToken process resource (requestToken r) (sr_tokenLength r);
      match result with
      | OC_STACK_OK =>
          _ ← on_request request (fun r => set_observation (MAX_SEQUENCE_NUMBER + 1) (set_observeResult OC_STACK_OK r));
          mret (inr (OC_REQUEST_FLAG ||| OC_OBSERVE_FLAG, with_observation (observeId obs) eh))
      | result =>
          _ ← on_request request (set_observeResult OC_STACK_ERROR);
          _ ← in_server (DeleteServerRequest (Some request));
          mret (inl (result, true))
      end
  end.

(** The body of the request is [SECURITY] for the resources of [SRMIsSecurityResourceURI]. *)
Definition body_type (uri : list Z) : payload_type :=
  if SecureResourceManager.SRMIsSecurityResourceURI (Some uri) then SECURITY else REPRESENTATION.

Definition HandleResourceWithEntityHandler (request : positive) (resource : option positive) : M stack OCStackResult :=
  match resource with
  | None => mret OC_STACK_INVALID_PARAM
  | Some resource =>
      r ← in_server (request_at request);
      '(result, eh) ← EHRequest (body_type (resourceUrl r)) request (Some resource);
      match result with
      | OC_STACK_OK =>
          next ← (if obs_action eh =? OC_OBSERVE_NO_OPTION then mret (inr (OC_REQUEST_FLAG, eh))
                  else if obs_action eh =? OC_OBSERVE_REGISTER then register_observer request resource eh
                  else if obs_action eh =? OC_OBSERVE_DEREGISTER then deregister_observer request resource eh
                  else mret (inl (OC_STACK_ERROR, true)));
          match next with
          | inl (result, destroy) =>
              _ ← (if destroy : bool then in_heap (OCPayloadDestroy (eh_body eh)) else mret tt); mret result
          | inr (flag, eh) =>
              res ← resource_at resource;
              handler ← lift (entityHandler res);
              ehResult ← entity_handler handler flag eh;
              result ← after_handler request ehResult;
              _ ← in_heap (OCPayloadDestroy (eh_body eh));
              mret result
          end
      | result => _ ← in_heap (OCPayloadDestroy (eh_body eh)); mret result
      end
  end.

(** [HandleVirtualResource] up to where it builds its answer. *)
Definition HandleVirtualResource (request : positive) (resource : option positive) : M stack OCStackResult :=
  match resource with
  | None => mret OC_STACK_INVALID_PARAM
  | Some _ =>
      r ← in_server (request_at request);
      if decide (GetTypeOfVirtualURI (resourceUrl r) = OC_KEEPALIVE_RESOURCE_URI) then keepalive_response request resource
      else
        match sr_method r with
        | OC_REST_PUT | OC_REST_POST | OC_REST_DELETE => mret OC_STACK_UNAUTHORIZED_REQ
        | _ =>
            result ← HandleVirtualObserveRequest process request;
            match result with
            | OC_STACK_DUPLICATE_REQUEST => _ ← in_server (DeleteServerRequest (Some request)); mret OC_STACK_OK
            | OC_STACK_OK => virtual_response request resource
            | result => mret result
            end
        end
  end.

Definition process_step (handling : ResourceHandling) (resource : option positive) (request : positive) : M stack OCStackResult :=
  match handling with
  | OC_RESOURCE_VIRTUAL => HandleVirtualResource request resource
  | OC_RESOURCE_DEFAULT_DEVICE_ENTITYHANDLER => HandleDefaultDeviceEntityHandler request
  | OC_RESOURCE_NOT_COLLECTION_DEFAULT_ENTITYHANDLER => mret OC_STACK_ERROR
  | OC_RESOURCE_NOT_COLLECTION_WITH_ENTITYHANDLER | OC_RESOURCE_COLLECTION_WITH_ENTITYHANDLER =>
      HandleResourceWithEntityHandler request resource
  | OC_RESOURCE_COLLECTION_DEFAULT_ENTITYHANDLER =>
      match resource with
      | None => mret OC_STACK_INVALID_PARAM
      | Some res => HandleCollectionResourceDefaultEntityHandler request res
      end
  | OC_RESOURCE_NOT_SPECIFIED => mret OC_STACK_NO_RESOURCE
  end.
End Knot.

(** Looking for an observer can notify another, which is a request again.
    [process_over deepest n] handles a request, and those it gives rise to
    down to [n] levels; below these [deepest] is called. *)
Fixpoint process_over (deepest : ResourceHandling -> option positive -> positive -> M stack OCStackResult) (levels : nat)
    (handling : ResourceHandling) (resource : option positive) (request : positive) : M stack OCStackResult :=
  match levels with
  | O => deepest handling resource request
  | S levels' => process_step (process_over deepest levels') handling resource request
  end.

(** Two levels are enough ([process_depth]): what is below them is never
    called. *)
Definition process_upto : nat -> ResourceHandling -> option positive -> positive -> M stack OCStackResult :=
  process_over (fun _ _ _ => undefined).

Definition ProcessRequest : ResourceHandling -> option positive -> positive -> M stack OCStackResult := process_upto 2.

(** ** Requests from the network *)

Record OCServerProtocolRequest := {
  pr_observation : Z;
  pr_method : OCMethod;
  pr_payloadFormat : OCPayloadFormat;
  pr_acceptFormat : OCPayloadFormat;
  pr_acceptVersion : Z;
  pr_url : list Z;
  pr_query : list Z;
  pr_payload : option (list Z);
  pr_qos : OCQualityOfService;
  pr_numOptions : Z;
  pr_options : list OCHeaderOption;
  pr_devAddr : OCDevAddr;
  pr_token : option (list Z);
  pr_tokenLength : Z;
  pr_coapID : Z;
  pr_delayed : Z;
  pr_morePacket : bool;
  pr_totalSize : Z;
}.

Definition HandleStackRequests (protocolRequest : option OCServerProtocolRequest) : M stack OCStackResult :=
  match protocolRequest with
  | None => mret OC_STACK_INVALID_PARAM
  | Some p =>
      there ← in_server (GetServerRequestUsingToken (pr_token p) (pr_tokenLength p));
      '(result, request) ←
        (match there with
         | Some a => mret (OC_STACK_OK, Some a)
         | None =>
             '(result, a) ← in_server (AddServerRequest (Some None) (pr_coapID p) (pr_delayed p) false (pr_method p)
                (pr_numOptions p) (pr_observation p) (pr_qos p) (Some (pr_query p)) (Some (pr_options p)) (pr_payloadFormat p)
                (pr_payload p) (pr_token p) (pr_tokenLength p) (Some (pr_url p)) (pr_totalSize p) (pr_acceptFormat p)
                (pr_acceptVersion p) (Some (pr_devAddr p)));
             match result, a with
             | OC_STACK_OK, Some a =>
                 _ ← (if pr_morePacket p then mret tt else on_request a (fun r => set_flags true (slowFlag r) r));
                 mret (OC_STACK_OK, Some a)
             | OC_STACK_OK, None => mret (OC_STACK_NO_MEMORY, None)
             | result, _ => mret (result, None)
             end
         end);
      match request with
      | None => mret result
      | Some a =>
          r ← in_server (request_at a);
          if requestComplete r then
            '(result, handling, resource) ← DetermineResourceHandling a OC_RESOURCE_VIRTUAL None;
            match result with
            | OC_STACK_OK => ProcessRequest handling resource a
            | result => mret result
            end
          else mret OC_STACK_CONTINUE
      end
  end.

(** The URI and the query in arrays of their own, the texts freed; [None] when
    one of them is missing or too long. *)
Definition uri_and_query (uri : option (list Z)) : M heap (option (list Z * list Z)) :=
  '(result, q, u) ← getQueryFromUri uri;
  match result, u with
  | OC_STACK_OK, Some u =>
      _ ← OICFree (Some u);
      if Z.of_nat (length u) <? MAX_URI_LENGTH then
        _ ← OICFree q;
        mret (if Z.of_nat (length (default [] q)) <? MAX_QUERY_LENGTH then Some (u, default [] q) else None)
      else _ ← OICFree q; mret None
  | _, _ => mret None
  end.

Definition oc_method (m : Z) : option OCMethod :=
  if m =? CA_GET then Some OC_REST_GET
  else if m =? CA_PUT then Some OC_REST_PUT
  else if m =? CA_POST then Some OC_REST_POST
  else if m =? CA_DELETE then Some OC_REST_DELETE
  else None.

(** A copy of [n] bytes, when there are any. *)
Definition copy_bytes (src : option (list Z)) (n : Z) : M heap (option (option (list Z))) :=
  if n =? 0 then mret (Some None)
  else
    ok ← OICMalloc n;
    if negb ok then mret None
    else v ← lift (match src with Some l => read_at l 0 n | None => None end); mret (Some (Some v)).

(** The direct response to the request [i]. *)
Definition answer_directly (endPoint : OCDevAddr) (i : CAInfo_t) (os : option (list CAHeaderOption_t)) (code : Z)
    : M stack OCStackResult :=
  SendDirectStackResponse endPoint (messageId i) code
    (if decide (type i = CA_MSG_CONFIRM) then CA_MSG_ACKNOWLEDGE else CA_MSG_NONCONFIRM) (numOptions i) os (token i)
    (tokenLength i) (resourceUri i) CA_RESPONSE_DATA.

(** What is answered once the stack has dealt with the request. *)
Definition answer_result (endPoint : OCDevAddr) (i : CAInfo_t) (os : option (list CAHeaderOption_t)) (observation : Z)
    (m : OCMethod) (requestResult : OCStackResult) : M stack unit :=
  _ ← (if decide (requestResult = OC_STACK_SLOW_RESOURCE) then
         if decide (type i = CA_MSG_CONFIRM) then
           _ ← SendDirectStackResponse endPoint (messageId i) CA_EMPTY CA_MSG_ACKNOWLEDGE 0 None None 0 None CA_RESPONSE_DATA;
           mret tt
         else mret tt
       else mret tt);
  if bool_decide (requestResult = OC_STACK_RESOURCE_ERROR) && (observation =? OC_OBSERVE_REGISTER) then mret tt
  else if OCResultToSuccess requestResult then mret tt
  else _ ← answer_directly endPoint i os (OCToCAStackResult requestResult m); mret tt.

(** The request with its options, handled and answered. *)
Definition handle_options (endPoint : OCDevAddr) (i : CAInfo_t) (m : OCMethod) (u q : list Z) (body tok : option (list Z))
    : M stack unit :=
  '(_, observation, os, tempNum) ← lift (GetObserveHeaderOption (Some OC_OBSERVE_NO_OPTION) (options i) (Some (numOptions i)));
  let observation := default OC_OBSERVE_NO_OPTION observation in
  let tempNum := default 0 tempNum in
  if MAX_HEADER_OPTIONS <? numOptions i then
    _ ← answer_directly endPoint i os CA_BAD_OPT;
    _ ← in_heap (OICFree body); in_heap (OICFree tok)
  else
    rcvd ← lift (match os with
                 | Some l => if tempNum =? 0 then Some zero_options else o ← read_at l 0 tempNum; write_at zero_options 0 o
                 | None => Some zero_options
                 end);
    let accept := CAToOCPayloadFormat (acceptFormat i) in
    requestResult ← HandleStackRequests (Some {|
      pr_observation := observation; pr_method := m;
      pr_payloadFormat := match body with Some _ => CAToOCPayloadFormat (payloadFormat i) | None => OC_FORMAT_CBOR end;
      pr_acceptFormat := accept;
      pr_acceptVersion := match accept with OC_FORMAT_VND_OCF_CBOR => acceptVersion i | _ => 0 end;
      pr_url := u; pr_query := q; pr_payload := body;
      pr_qos := if decide (type i = CA_MSG_CONFIRM) then OC_HIGH_QOS else OC_LOW_QOS; pr_numOptions := tempNum;
      pr_options := rcvd; pr_devAddr := endPoint; pr_token := tok; pr_tokenLength := tokenLength i;
      pr_coapID := messageId i; pr_delayed := 0; pr_morePacket := false;
      pr_totalSize := match body with Some _ => payloadSize i | None => 0 end |});
    _ ← answer_result endPoint i os observation m requestResult;
    _ ← in_heap (OICFree body);
    in_heap (OICFree tok).

Definition OCHandleRequests (endPoint : OCDevAddr) (requestInfo : CARequestInfo_t) : M stack unit :=
  let i := req_info requestInfo in
  if decide (stack_mode = OC_CLIENT) then mret tt
  else
    texts ← in_heap (uri_and_query (resourceUri i));
    match texts with
    | None => mret tt
    | Some (u, q) =>
        body ← in_heap (copy_bytes (payload i) (match payload i with Some _ => payloadSize i | None => 0 end));
        match body with
        | None => mret tt
        | Some body =>
            match oc_method (method requestInfo) with
            | None =>
                _ ← answer_directly endPoint i (options i) CA_BAD_REQ; in_heap (OICFree body)
            | Some m =>
                tok ← in_heap (copy_bytes (token i) (tokenLength i));
                match tok with
                | None => _ ← answer_directly endPoint i (options i) CA_INTERNAL_SERVER_ERROR; in_heap (OICFree body)
                | Some tok => handle_options endPoint i m u q body tok
                end
            end
        end
    end.

(** The routing option is taken off first; the result of that is not looked at. *)
Definition HandleCARequests (endPoint : option OCDevAddr) (requestInfo : option CARequestInfo_t) : M stack unit :=
  match endPoint, requestInfo with
  | Some e, Some r =>
      '(_, os, n, rd) ← in_heap (RMUpdateInfo (options (req_info r)) (numOptions (req_info r)) (routeData e));
      OCHandleRequests {| dev_endpoint := dev_endpoint e; routeData := rd |} (set_req_info (set_options os n) r)
  | _, _ => mret tt
  end.
End Requests.

(** ** Two levels are enough

    Operations that run alike from every state: an equivalence that the binds
    of the monad respect. *)
Definition same_run {S A} (m m' : M S A) : Prop := forall s, m s = m' s.

#[export] Instance same_run_equiv S A : Equivalence (@same_run S A).
Proof. split; [done|by intros ? ? E s; rewrite E|by intros ? ? ? E E' s; rewrite E, E']. Qed.


Lemma bind_same {S A B} (m : M S A) (f g : A -> M S B) s :
  (forall a s', m s = Some (a, s') -> f a s' = g a s') -> (m ≫= f) s = (m ≫= g) s.
Proof. intros Hf. unfold mbind, M_bind. destruct (m s) as [[a s']|]; [by apply Hf|done]. Qed.


Section Depth.
Context `{StackEnv}.






Lemma in_request_run a r s : node_at a (requests (st_server s)) = Some r -> in_server (request_at a) s = Some (r, s).
Proof. intros E. unfold in_server. rewrite (request_at_run a r _ E). by destruct s. Qed.












End Depth.

(** ** A request is answered *)

Section Answered.
Context `{StackEnv}.

Lemma at_server s : set_server (st_server s) s = s.
Proof. by destruct s. Qed.

Lemma server_run {A} (m : M server A) x v v' s : m v = Some (x, v') ->
  in_server m (set_server v s) = Some (x, set_server v' s).
Proof. intros E. unfold in_server. cbn [st_server set_server]. by rewrite E. Qed.

Lemma heap_run {A} (m : M heap A) x n v s : yields m x n -> hp_allocs (sv_heap v) = [] ->
  in_heap m (set_server v s) = Some (x, set_server (grow n v) s).
Proof. intros Hm Hv. exact (in_heap_yields _ _ _ (set_server v s) Hm Hv). Qed.

(** The texts of the URI are copied, and freed again. *)
Lemma yields_uri uri u q : split_query uri = (u, q) -> 0 < Z.of_nat (length u) < MAX_URI_LENGTH ->
  Z.of_nat (length (default [] q)) < MAX_QUERY_LENGTH -> yields (uri_and_query (Some uri)) (Some (u, default [] q)) 0.
Proof.
  intros Es Hu Hq. unfold MAX_URI_LENGTH, MAX_QUERY_LENGTH in *.
  assert (forall n, 0 <= n < 256 -> yields (OICCalloc (n + 1) 1) true 1) as Hc
    by (intros n Hn; apply yields_calloc; unfold SIZE_MAX; lia).
  assert (yields (getQueryFromUri (Some uri))
    (OC_STACK_OK, match default [] q with [] => None | x => Some x end, Some u) (1 + blk (match default [] q with [] => None | x => Some x end))) as Hg.
  { unfold getQueryFromUri. rewrite Es. destruct u as [|x u]; [cbn in Hu; lia|].
    eapply yields_bind; [apply Hc; lia|]. cbn [negb].
    destruct (default [] q) as [|y l] eqn:Eq; [apply yields_ret|].
    eapply yields_eq; [eapply yields_bind; [apply Hc; lia|cbn [negb]; apply yields_ret]|done]. }
  unfold uri_and_query. eapply yields_eq; [eapply yields_bind; [exact Hg|]|]; cbn beta iota.
  - eapply yields_bind; [apply yields_frees, frees_ptr|]. rewrite (proj2 (Z.ltb_lt (Z.of_nat (length u)) MAX_URI_LENGTH) (proj2 Hu)).
    eapply yields_bind; [apply yields_frees, frees_ptr|].
    assert (default [] (match default [] q with [] => None | x => Some x end) = default [] q) as -> by by destruct (default [] q).
    rewrite (proj2 (Z.ltb_lt (Z.of_nat (length (default [] q))) MAX_QUERY_LENGTH) Hq). apply yields_ret.
  - cbn [blk]. lia.
Qed.

Lemma yields_copy_bytes t : 0 < Z.of_nat (length t) -> yields (copy_bytes (Some t) (Z.of_nat (length t))) (Some (Some t)) 1.
Proof.
  intros Hn. unfold copy_bytes. destruct (Z.eqb_spec (Z.of_nat (length t)) 0) as [|_]; [lia|].
  eapply yields_eq; [eapply yields_bind; [apply yields_malloc; lia|]|]; cbn [negb].
  - eapply yields_bind; [by apply (yields_lift _ t), read_at_all|apply yields_ret].
  - lia.
Qed.

(** A request in the table, as the one from the network fills it in. *)
Record request_of (p : OCServerProtocolRequest) (r : OCServerRequest) : Prop := {
  of_method : sr_method r = pr_method p;
  of_url : resourceUrl r = pr_url p;
  of_query : query r = pr_query p;
  of_qos : qos r = pr_qos p;
  of_observation : observationOption r = pr_observation p;
  of_handler : ehResponseHandler r = HandleSingle;
  of_dev : sr_devAddr r = pr_devAddr p;
  of_token : requestToken r = pr_token p;
  of_tokenLength : sr_tokenLength r = pr_tokenLength p;
  of_id : coapID r = pr_coapID p;
  of_slow : slowFlag r = false;
  of_notification : notificationFlag r = false;
  of_payload : sr_payloadSize r = 0;
}.

(** What the stack makes of a request without a payload. *)
Record new_request (p : OCServerProtocolRequest) (t : list Z) : Prop := {
  nw_payload : pr_payload p = None;
  nw_size : pr_totalSize p = 0;
  nw_complete : pr_morePacket p = false;
  nw_options : Z.of_nat (length (pr_options p)) = MAX_HEADER_OPTIONS;
  nw_url : Z.of_nat (length (pr_url p)) < MAX_URI_LENGTH;
  nw_query : Z.of_nat (length (pr_query p)) < MAX_QUERY_LENGTH;
  nw_token : pr_token p = Some t;
  nw_tokenLength : pr_tokenLength p = Z.of_nat (length t);
  nw_some : 0 < Z.of_nat (length t);
}.

Lemma array_text_all n l : Z.of_nat (length l) < n -> array_text n l = l.
Proof. intros Hl. unfold array_text. apply take_ge. lia. Qed.

Lemma add_request_run p t v : new_request p t -> hp_allocs (sv_heap v) = [] ->
  exists r, AddServerRequest (Some None) (pr_coapID p) (pr_delayed p) false (pr_method p) (pr_numOptions p) (pr_observation p)
      (pr_qos p) (Some (pr_query p)) (Some (pr_options p)) (pr_payloadFormat p) (pr_payload p) (pr_token p)
      (pr_tokenLength p) (Some (pr_url p)) (pr_totalSize p) (pr_acceptFormat p) (pr_acceptVersion p) (Some (pr_devAddr p)) v =
    Some ((OC_STACK_OK, Some (sr_addr r)), grow 2 (set_requests (requests v ++ [r]) v)) /\
    sr_addr r ∉ addrs (requests v) /\ request_of p r.
Proof.
  intros [Hp Hz Hm Ho Hu Hq Ht Hn Hs] Hv. rewrite Hp, Hz, Ht, Hn. unfold AddServerRequest. change (0 =? 0) with true. cbn iota.
  assert (yields (OICCalloc 1 (sizeof_OCServerRequest + 1 - 1)) true 1) as Hc
    by (apply yields_calloc; unfold sizeof_OCServerRequest, SIZE_MAX; cbn; lia).
  change (hp_allocs (heap_of v) = []) in Hv. step (in_heap_yields _ _ _ v Hc Hv). cbn [negb].
  assert (read_at (pr_options p) 0 MAX_HEADER_OPTIONS = Some (pr_options p)) as Eo by by apply read_at_all.
  step (run_lift _ _ _ Eo). rewrite (run_bind _ _ _ None _ eq_refl).
  destruct (yields_copy_token (Some t) (Z.of_nat (length t))) as (tk & Hk & Ek); [cbn; lia|].
  cbn in Ek. destruct (Z.eqb_spec (Z.of_nat (length t)) 0); [lia|]. rewrite Nat2Z.id, firstn_all in Ek. subst tk.
  assert (hp_allocs (heap_of (grow 1 v)) = []) as Hv1 by exact Hv. step (in_heap_yields _ _ _ (grow 1 v) Hk Hv1). cbn beta iota.
  step (run_gets requests _). cbn zeta. set (r := {| sr_addr := _ |}). step (run_modify _ _). exists r. split; [|split].
  - rewrite run_ret. do 2 f_equal. by rewrite grow_grow.
  - apply new_address_fresh.
  - split; try done; [by apply array_text_all|by apply array_text_all].
Qed.

(** The resource a request is for, with a handler of its own. *)
Record served (s : stack) (e : OCDevAddr) (u : list Z) (res : OCResource) : Prop := {
  sd_normal : GetTypeOfVirtualURI u = OC_UNKNOWN_URI;
  sd_addrs : NoDup (addrs (headResource s));
  sd_found : find_uri u (headResource s) = Some (Some res);
  sd_endpoint : CheckRequestsEndpoint (Some e) (endpointType res) = OC_STACK_OK;
  sd_handler : exists h, entityHandler res = Some h /\ h <> defaultResourceEHandler;
}.

Lemma find_uri_there u l r : find_uri u l = Some (Some r) -> r ∈ l.
Proof.
  induction l as [|x l IH]; [done|]. cbn. destruct (rs_uri x); [|done]. cbn.
  case_decide; [intros [= ->]; left|intros E; right; by apply IH].
Qed.

Lemma served_at s e u res : served s e u res -> node_at (rs_addr res) (headResource s) = Some res.
Proof.
  intros [_ Hd Hf _ _]. by apply (node_at_in (headResource s) res Hd), (find_uri_there u).
Qed.

Lemma determine_run v s a r e res : served s e (resourceUrl r) res -> resourceUrl r <> [] -> sr_devAddr r = e ->
  node_at a (requests v) = Some r -> exists h, DetermineResourceHandling a OC_RESOURCE_VIRTUAL None (set_server v s) =
    Some ((OC_STACK_OK, h, Some (rs_addr res)), set_server v s) /\
    (h = OC_RESOURCE_COLLECTION_WITH_ENTITYHANDLER \/ h = OC_RESOURCE_NOT_COLLECTION_WITH_ENTITYHANDLER).
Proof.
  intros Hs Hu He Hr. pose proof (served_at s e _ _ Hs) as Ha. destruct Hs as [Hn _ Hf Hc Hh]. unfold DetermineResourceHandling.
  step (in_request_run a r (set_server v s) Hr). rewrite (decide_False (P := GetTypeOfVirtualURI (resourceUrl r) <> OC_UNKNOWN_URI)) by tauto.
  rewrite (decide_False (P := resourceUrl r = [])) by done. unfold FindResourceByUri.
  rewrite (run_bind _ _ _ (Some (rs_addr res)) (set_server v s)).
  2: { step (run_gets headResource (set_server v s)). change (headResource (set_server v s)) with (headResource s).
       by step (run_lift _ _ _ Hf). }
  step (resource_at_run (rs_addr res) res (set_server v s) Ha). rewrite He, Hc.
  destruct Hh as (h & Eh & Hh). rewrite (bool_decide_true (entityHandler res <> _)) by (rewrite Eh; congruence).
  destruct (bool_decide (rsrcChildResourcesHead res <> [])); eauto.
Qed.

(** The handler of the application answers the request it is given at once. *)
Record answers (res : OCResource) (answer : OCEntityHandlerRequest -> OCEntityHandlerResponse) : Prop := {
  an_runs : forall eh s, (handler ← lift (entityHandler res); entity_handler handler OC_REQUEST_FLAG eh) s =
    (_ ← in_server (OCDoResponse stack_mode (Some (answer eh))); mret OC_EH_OK) s;
  an_handle : forall eh, requestHandle (answer eh) = eh_request eh;
  an_ok : forall eh, response_ok (answer eh);
  an_plain : forall eh, vendor_plain (answer eh);
}.

(** Nothing fails on the way out. *)
Record goes_out : Prop := { go_converts : always_converts; go_takes : takes_all }.

Lemma do_response_run eh a r v s : goes_out -> requestHandle eh = Some a -> node_at a (requests v) = Some r ->
  removable r (requests v) ->
  ehResponseHandler r = HandleSingle -> response_ok eh -> vendor_plain eh -> answerable r -> hp_allocs (sv_heap v) = [] ->
  exists tok c, take (Z.to_nat (sr_tokenLength r)) tok = default [] (requestToken r) /\
    in_server (OCDoResponse stack_mode (Some eh)) (set_server v s) = Some (OC_STACK_OK, set_server
      (grow (- blk (requestToken r) - 1) (set_requests (unlink a (requests v)) (add_sent (sent_of r eh tok c) v))) s).
Proof.
  intros [Hc Ht] Ea Hr Hrm Hh Hok Hp Hans Hv. destruct (response_token_run r Hans) as (tok & Etok & Htok).
  destruct (count_ok r eh Hok) as (c & Ec). exists tok, c. split; [exact Htok|]. apply server_run. unfold OCDoResponse. rewrite Ea.
  step (request_at_run a r v Hr). rewrite Hh. apply single_response_run; try done.
  unfold converts. destruct (eh_payload eh); [apply Hc|done].
Qed.

Lemma handler_run p r v s a res answer : goes_out -> answers res answer -> node_at a (requests v) = Some r ->
  removable r (requests v) ->
  request_of p r -> pr_observation p = OC_OBSERVE_NO_OPTION -> answerable r -> node_at (rs_addr res) (headResource s) = Some res ->
  hp_allocs (sv_heap v) = [] -> forall P, exists eh tok c,
    eh_method eh = pr_method p /\ eh_query eh = Some (pr_query p) /\ eh_resource eh = Some (rs_addr res) /\
    take (Z.to_nat (sr_tokenLength r)) tok = default [] (requestToken r) /\
    HandleResourceWithEntityHandler P a (Some (rs_addr res)) (set_server v s) = Some (OC_STACK_OK, set_server
      (grow (- blk (requestToken r) - 1) (set_requests (unlink a (requests v)) (add_sent (sent_of r (answer eh) tok c) v))) s).
Proof.
  intros Hout [Hrun Hhd Hok Hp] Hr Hrm [Om Ou Oq _ Oo Oh _ _ _ _ _ On Oz] Hobs Hans Hres Hv P.
  set (eh := {| eh_resource := Some (rs_addr res); eh_request := Some a; eh_method := sr_method r; eh_devAddr := sr_devAddr r;
    eh_query := Some (query r); eh_body := None; numRcvdOptions := numRcvdVendorSpecificHeaderOptions r;
    rcvdOptions := Some (rcvdVendorSpecificHeaderOptions r); obs_action := OC_OBSERVE_NO_OPTION; obs_id := 0;
    eh_messageID := coapID r |}).
  destruct (do_response_run (answer eh) a r v s Hout (Hhd eh) Hr Hrm Oh (Hok eh) (Hp eh) Hans Hv) as (tok & c & Htok & Erun).
  exists eh, tok, c. split; [exact Om|]. split; [cbn; by rewrite Oq|]. split; [done|]. split; [exact Htok|].
  unfold HandleResourceWithEntityHandler. step (in_request_run a r (set_server v s) Hr).
  assert (EHRequest (body_type (resourceUrl r)) a (Some (rs_addr res)) (set_server v s) = Some ((OC_STACK_OK, eh), set_server v s)) as Eeh.
  { unfold EHRequest. step (in_request_run a r (set_server v s) Hr). unfold FormOCEntityHandlerRequest. by rewrite Oz, On, Oo, Hobs. }
  step Eeh. cbn beta iota. change (obs_action eh =? OC_OBSERVE_NO_OPTION) with true. cbn iota.
  rewrite (run_bind _ _ _ (inr (OC_REQUEST_FLAG, eh)) (set_server v s) eq_refl). cbn beta iota.
  step (resource_at_run (rs_addr res) res (set_server v s) Hres).
  pose proof (Hrun eh (set_server v s)) as He. rewrite (run_bind _ _ _ _ _ Erun) in He.
  destruct (entityHandler res) as [h|]; [|done]. step (run_lift (Some h) h _ eq_refl).
  rewrite (run_bind _ _ _ OC_EH_OK _ He).
  cbn [after_handler]. reflexivity.
Qed.

(** A new request is in the table when its resource is looked for. *)
Lemma stack_request_start p t v s : new_request p t -> find_request (requests v) (Some t) (Z.of_nat (length t)) = Some None ->
  hp_allocs (sv_heap v) = [] ->
  exists r, request_of p r /\ sr_addr r ∉ addrs (requests v) /\ HandleStackRequests (Some p) (set_server v s) =
    ('(result, handling, resource) ← DetermineResourceHandling (sr_addr r) OC_RESOURCE_VIRTUAL None;
     match result with
     | OC_STACK_OK => ProcessRequest handling resource (sr_addr r)
     | result => mret result
     end) (set_server (grow 2 (set_requests (requests v ++ [r]) v)) s).
Proof.
  intros Hnew Hfind Hv. destruct (add_request_run p t v Hnew Hv) as (r0 & Eadd & Hfresh & Hof0).
  destruct Hnew as [_ _ Hm _ _ _ Et En Hsome]. set (r := set_flags true (slowFlag r0) r0). exists r. split; [by destruct Hof0|].
  split; [exact Hfresh|]. set (a := sr_addr r0) in *. set (v1 := grow 2 (set_requests (requests v ++ [r]) v)).
  change (sr_addr r) with a. assert (node_at a (requests v1) = Some r) as Hr by exact (node_at_middle (requests v) r [] Hfresh).
  unfold HandleStackRequests.
  assert (GetServerRequestUsingToken (pr_token p) (pr_tokenLength p) v = Some (None, v)) as Eget.
  { unfold GetServerRequestUsingToken. rewrite Et, En. step (run_gets requests v). by apply run_lift. }
  step (server_run _ _ _ _ s Eget). rewrite Hm.
  rewrite (run_bind _ _ _ (OC_STACK_OK, Some a) (set_server v1 s)).
  2: { step (server_run _ _ _ _ s Eadd). cbn beta iota. rewrite (run_bind _ _ _ tt (set_server v1 s)); [done|].
    unfold on_request. apply server_run. match goal with |- (_ ≫= _) ?x = _ => step (request_at_run a r0 x (node_at_middle (requests v) r0 [] Hfresh)) end.
    rewrite run_modify. do 2 f_equal. rewrite set_requests_grow. unfold v1. f_equal.
    exact (f_equal (fun l => set_requests l v) (on_addr_last (fun r => set_flags true (slowFlag r) r) (requests v) r0 Hfresh)). }
  cbn beta iota. by step (in_request_run a r (set_server v1 s) Hr).
Qed.

Lemma stack_request_run p t v s res answer : goes_out -> answers res answer -> served s (pr_devAddr p) (pr_url p) res ->
  new_request p t -> pr_url p <> [] -> pr_observation p = OC_OBSERVE_NO_OPTION -> Z.of_nat (length t) <= CA_MAX_TOKEN_LEN ->
  adapter (dev_endpoint (pr_devAddr p)) ∈ CAConnTypes -> (6 <= length (routeData (pr_devAddr p)))%nat ->
  find_request (requests v) (Some t) (Z.of_nat (length t)) = Some None -> hp_allocs (sv_heap v) = [] ->
  exists r eh tok c, request_of p r /\ eh_method eh = pr_method p /\ eh_query eh = Some (pr_query p) /\
    eh_resource eh = Some (rs_addr res) /\ take (length t) tok = t /\
    HandleStackRequests (Some p) (set_server v s) =
      Some (OC_STACK_OK, set_server (add_sent (sent_of r (answer eh) tok c) v) s).
Proof.
  intros Hout Hans Hsd Hnew Hu Hobs Hshort Ha Hrd Hfind Hv.
  destruct (stack_request_start p t v s Hnew Hfind Hv) as (r & Hof & Hfresh & Estart).
  destruct Hnew as [_ _ _ _ _ _ Et En _]. set (a := sr_addr r) in *. set (v1 := grow 2 (set_requests (requests v ++ [r]) v)) in *.
  assert (node_at a (requests v1) = Some r) as Hr by exact (node_at_middle (requests v) r [] Hfresh).
  assert (answerable r) as Hok.
  { destruct Hof. split; rewrite ?of_dev0, ?of_token0, ?of_tokenLength0; try done; by rewrite ?Et, En. }
  destruct (determine_run v1 s a r (pr_devAddr p) res) as (h & Edet & Hh); [by rewrite (of_url p r Hof)|by rewrite (of_url p r Hof)|by apply of_dev|done|].
  destruct (handler_run p r v1 s a res answer Hout Hans Hr (removable_last (requests v) r Hfresh) Hof Hobs Hok (served_at _ _ _ _ Hsd) Hv (process_upto 1)) as (eh & tok & c & E1 & E2 & E3 & Htok & Erun).
  exists r, eh, tok, c. split; [done|]. split; [done|]. split; [done|]. split; [done|]. split.
  { rewrite (of_tokenLength p r Hof), (of_token p r Hof), Et, En, Nat2Z.id in Htok. exact Htok. }
  rewrite Estart. step Edet. cbn beta iota.
  transitivity (HandleResourceWithEntityHandler (process_upto 1) a (Some (rs_addr res)) (set_server v1 s)); [by destruct Hh as [-> | ->]|].
  rewrite Erun. do 3 f_equal. assert (unlink a (requests v1) = requests v) as -> by exact (unlink_last (requests v) r Hfresh).
  rewrite (of_token p r Hof), Et. unfold v1. change (add_sent ?x (grow ?n ?y)) with (grow n (add_sent x y)).
  rewrite set_requests_grow, grow_grow. cbn [blk]. rewrite grow_0. by destruct v.
Qed.

(** A request without a payload and without an observe option, whose texts fit
    into their arrays. *)
Record plain_request (e : OCDevAddr) (i : CAInfo_t) (u : list Z) (q : option (list Z)) (t : list Z) : Prop := {
  pq_uri : split_query <$> resourceUri i = Some (u, q);
  pq_path : 0 < Z.of_nat (length u) < MAX_URI_LENGTH;
  pq_query : Z.of_nat (length (default [] q)) < MAX_QUERY_LENGTH;
  pq_token : token i = Some t;
  pq_tokenLength : tokenLength i = Z.of_nat (length t);
  pq_short : 0 < Z.of_nat (length t) <= CA_MAX_TOKEN_LEN;
  pq_payload : payload i = None;
  pq_options : Forall (fun o => is_observe o = false) (default [] (options i));
  pq_numOptions : numOptions i = Z.of_nat (length (default [] (options i)));
  pq_few : numOptions i <= MAX_HEADER_OPTIONS;
  pq_adapter : adapter (dev_endpoint e) ∈ CAConnTypes;
  pq_route : (6 <= length (routeData e))%nat;
}.

Lemma observe_loop_none l : Forall (fun o => is_observe o = false) l -> forall pre,
  observe_loop (Z.of_nat (length pre)) (length l) (pre ++ l) = Some (None, pre ++ l).
Proof.
  induction 1 as [|o l Ho Hl IH]; intros pre; [done|]. cbn [length observe_loop]. rewrite byte_after. cbn. rewrite Ho.
  specialize (IH (pre ++ [o])). rewrite length_app, <- !app_assoc in IH. cbn in IH.
  by replace (Z.of_nat (length pre) + 1) with (Z.of_nat (length pre + 1)) by lia.
Qed.

Lemma no_observe e i u q t x : plain_request e i u q t ->
  GetObserveHeaderOption (Some x) (options i) (Some (numOptions i)) = Some (OC_STACK_OK, Some x, options i, Some (numOptions i)).
Proof.
  intros [_ _ _ _ _ _ _ Ho Hn _ _ _]. unfold GetObserveHeaderOption. destruct (options i) as [l|]; [|done]. cbn in Ho, Hn.
  rewrite Hn, Nat2Z.id. pose proof (observe_loop_none l Ho []) as E. cbn [app length] in E. change (Z.of_nat 0) with 0 in E.
  by rewrite E.
Qed.

(** The options of the request in the array of [MAX_HEADER_OPTIONS]. *)
Lemma options_in_array e i u q t : plain_request e i u q t -> exists rc,
  (match options i with
   | Some l => if numOptions i =? 0 then Some zero_options else o ← read_at l 0 (numOptions i); write_at zero_options 0 o
   | None => Some zero_options
   end) = Some rc /\ Z.of_nat (length rc) = MAX_HEADER_OPTIONS.
Proof.
  intros [_ _ _ _ _ _ _ _ Hn Hf _ _]. destruct (options i) as [l|]; cbn in Hn; [|by exists zero_options].
  destruct (Z.eqb_spec (numOptions i) 0); [by exists zero_options|].
  rewrite (read_at_all l (numOptions i) Hn). cbn [mbind option_bind]. unfold MAX_HEADER_OPTIONS in *.
  destruct (write_at zero_options 0 l) as [rc|] eqn:E.
  - exists rc. split; [done|]. by rewrite (write_at_length _ _ _ _ E).
  - rewrite write_at_prefix in E; [done|]. change (length zero_options) with 50%nat. lia.
Qed.

Lemma answer_ok e i os n m s : answer_result e i os n m OC_STACK_OK s = Some (tt, s).
Proof. done. Qed.

(** What the stack makes of the request, and what is left to do when it is in
    its hands. *)
Lemma handle_start e ri m u q t s : stack_mode <> OC_CLIENT -> plain_request e (req_info ri) u q t ->
  oc_method (method ri) = Some m -> hp_allocs (stack_heap s) = [] ->
  exists p, new_request p t /\ pr_devAddr p = e /\ pr_url p = u /\ pr_query p = default [] q /\ pr_method p = m /\
    pr_observation p = OC_OBSERVE_NO_OPTION /\ pr_coapID p = messageId (req_info ri) /\
    pr_qos p = (if decide (type (req_info ri) = CA_MSG_CONFIRM) then OC_HIGH_QOS else OC_LOW_QOS) /\
    OCHandleRequests e ri s =
      (x ← HandleStackRequests (Some p);
       _ ← answer_result e (req_info ri) (options (req_info ri)) OC_OBSERVE_NO_OPTION m x;
       in_heap (OICFree (Some t))) (set_server (grow 1 (st_server s)) s).
Proof.
  intros Hmode Hi Hm Hs. set (i := req_info ri) in *. destruct (options_in_array e i u q t Hi) as (rc & Erc & Hrc).
  pose proof (no_observe e i u q t OC_OBSERVE_NO_OPTION Hi) as Eobs.
  destruct Hi as [Huri Hu Hq Ht Hn Htl Hp _ Hno Hfew Ha Hr]. destruct (resourceUri i) as [uri|] eqn:Euri; [|done]. injection Huri as Es.
  set (p := {| pr_observation := OC_OBSERVE_NO_OPTION; pr_method := m; pr_payloadFormat := OC_FORMAT_CBOR;
    pr_acceptFormat := CAToOCPayloadFormat (acceptFormat i);
    pr_acceptVersion := match CAToOCPayloadFormat (acceptFormat i) with OC_FORMAT_VND_OCF_CBOR => acceptVersion i | _ => 0 end;
    pr_url := u; pr_query := default [] q; pr_payload := None;
    pr_qos := if decide (type i = CA_MSG_CONFIRM) then OC_HIGH_QOS else OC_LOW_QOS; pr_numOptions := numOptions i;
    pr_options := rc; pr_devAddr := e; pr_token := Some t; pr_tokenLength := tokenLength i; pr_coapID := messageId i;
    pr_delayed := 0; pr_morePacket := false; pr_totalSize := 0 |}).
  exists p. split; [split; cbn; try done; lia|]. repeat (split; [done|]).
  rewrite <- (at_server s) at 1. unfold OCHandleRequests. fold i. rewrite (decide_False (P := stack_mode = OC_CLIENT)) by done.
  rewrite Euri. step (heap_run _ _ _ _ s (yields_uri uri u q Es Hu Hq) Hs). rewrite grow_0. cbn beta iota. rewrite Hp.
  step (heap_run (copy_bytes None 0) (Some None) 0 _ s (yields_ret _) Hs). rewrite grow_0. cbn beta iota. rewrite Hm, Ht, Hn.
  step (heap_run _ _ _ _ s (yields_copy_bytes t (proj1 Htl)) Hs). cbn beta iota. unfold handle_options.
  step (run_lift _ _ _ Eobs). cbn beta iota. cbn [default id]. rewrite (proj2 (Z.ltb_ge _ _) Hfew). step (run_lift _ _ _ Erc).
  cbn zeta. fold p. apply bind_same. intros x s1 _. apply bind_same. intros y s2 _.
  step (in_heap_frees _ _ _ (frees_ptr None)). cbn [blk]. change (- 0) with 0. by rewrite grow_0.
Qed.

(** The token of the request is freed at the end. *)
Lemma free_token (t : list Z) v s : in_heap (OICFree (Some t)) (set_server (grow 1 v) s) = Some (tt, set_server v s).
Proof.
  rewrite (in_heap_frees _ _ _ (frees_ptr (Some t))). cbn [blk]. do 2 f_equal.
  transitivity (set_server (grow (- 1) (grow 1 v)) s); [done|]. by rewrite grow_grow, grow_0.
Qed.

(** C7: a request without a payload for a resource of the application is
    answered: its handler is called with the request, and the response that the
    handler gives is the only thing sent, to where the request came from, with
    its identifier and token and the type that acknowledges it; the table of
    requests and the memory are as before. *)
Theorem request_answered_once e ri m u q t s res answer : stack_mode <> OC_CLIENT -> plain_request e (req_info ri) u q t ->
  oc_method (method ri) = Some m -> goes_out -> served s e u res -> answers res answer ->
  find_request (requests (st_server s)) (Some t) (Z.of_nat (length t)) = Some None -> hp_allocs (stack_heap s) = [] ->
  exists sent eh, OCHandleRequests e ri s = Some (tt, set_server (add_sent sent (st_server s)) s) /\
    eh_method eh = m /\ eh_query eh = Some (default [] q) /\ eh_resource eh = Some (rs_addr res) /\
    to_endpoint sent = CopyDevAddrToEndpoint e /\
    (eh_payload (answer eh) = None -> result (to_send sent) = ConvertEHResultToCAResult (ehResult (answer eh)) m) /\
    let i := res_info (to_send sent) in
    messageId i = messageId (req_info ri) /\ tokenLength i = Z.of_nat (length t) /\ option_map (take (length t)) (token i) = Some t /\
    type i = if decide (type (req_info ri) = CA_MSG_CONFIRM) then CA_MSG_ACKNOWLEDGE else CA_MSG_NONCONFIRM.
Proof.
  intros Hmode Hi Hm Hout Hsd Hans Hfind Hs.
  destruct (handle_start e ri m u q t s Hmode Hi Hm Hs) as (p & Hnew & Ee & Eu & Eq & Em & Eobs & Eid & Eqos & Erun).
  destruct Hi as [_ Hu _ _ _ Htl _ _ _ _ Ha Hr].
  destruct (stack_request_run p t (grow 1 (st_server s)) s res answer) as (r & eh & tok & c & Hof & E1 & E2 & E3 & Etok & Est);
    try done; [by rewrite Ee, Eu|rewrite Eu; intros E; rewrite E in Hu; cbn in Hu; lia|lia|by rewrite Ee|by rewrite Ee|].
  exists (sent_of r (answer eh) tok c), eh. split.
  - rewrite Erun. step Est. step (answer_ok e (req_info ri) (options (req_info ri)) OC_OBSERVE_NO_OPTION m _). exact (free_token t (add_sent (sent_of r (answer eh) tok c) (st_server s)) s).
  - rewrite E1, E2. split; [done|]. split; [by rewrite Eq|]. split; [done|]. destruct Hof. destruct Hnew.
    split; [cbn; by rewrite of_dev0, Ee|]. cbn zeta. split.
    + intros E. cbn. unfold body_of. rewrite E. cbn. by rewrite of_method0, Em.
    + cbn. rewrite of_id0, Eid, of_tokenLength0, nw_tokenLength0, Etok. repeat (split; [done|]). unfold response_type.
      rewrite of_notification0, of_slow0, of_qos0, Eqos. cbn. by destruct (decide (type (req_info ri) = CA_MSG_CONFIRM)).
Qed.

(** ** A request for a resource that is not there *)

(** The array [SendDirectStackResponse] makes of the options. *)
Definition direct_options (os : option (list CAHeaderOption_t)) (n : Z) : option (list CAHeaderOption_t) :=
  if n =? 0 then None else os.

(** The response of the stack itself, as it is sent. *)
Definition direct_sent (e : OCDevAddr) (info : CAResponseInfo_t) : sent_response := {|
  to_endpoint := e;
  to_send := set_res_info (set_options (Some (default [] (options (res_info info)) ++ [routed (routeData e)]))
               (numOptions (res_info info) + 1)) info |}.

Lemma direct_run e id code ty n os tok len uri data v s : code <> CA_EMPTY -> (6 <= length (routeData e))%nat ->
  plain_options os n -> takes_all -> hp_allocs (sv_heap v) = [] ->
  SendDirectStackResponse e id code ty n os tok len (Some uri) data (set_server v s) = Some (OC_STACK_OK,
    set_server (add_sent (direct_sent e (direct_info id code ty n (direct_options os n) tok len (Some uri) data)) v) s).
Proof.
  intros Hc Hr [Hn Hf Hp] Ht Hv. set (os' := direct_options os n). set (info := direct_info id code ty n os' tok len (Some uri) data).
  assert (default [] os' = default [] os) as Eos.
  { unfold os', direct_options. destruct (Z.eqb_spec n 0); [|done]. destruct os as [[|o l]|]; cbn in *; [done|lia|done]. }
  assert (plain_options os' n) as Hp' by (split; by rewrite ?Eos).
  assert (forall k, hp_allocs (sv_heap (grow k v)) = []) as Hg by (intros k; exact Hv).
  set (d := routeData e) in *. unfold SendDirectStackResponse.
  assert ((if n =? 0 then mret true else in_heap (OICCalloc n sizeof_CAHeaderOption)) (set_server v s) =
    Some (true, set_server (grow (blk os') v) s)) as Hcal.
  { unfold os', direct_options. destruct (Z.eqb_spec n 0); [by rewrite grow_0|].
    destruct os as [l|]; cbn in Hn; [|lia]. apply (heap_run (OICCalloc n sizeof_CAHeaderOption) true 1); [|done].
    apply yields_calloc; unfold sizeof_CAHeaderOption, SIZE_MAX; lia. }
  step Hcal. cbn [negb].
  assert ((if n =? 0 then Some None else match os with Some l => o ← read_at l 0 n; Some (Some o) | None => None end) = Some os') as Eread.
  { unfold os', direct_options. destruct (Z.eqb_spec n 0); [done|]. destruct os as [l|]; cbn in Hn; [|lia]. by rewrite (read_at_all l n Hn). }
  step (run_lift _ _ _ Eread). step (heap_run _ _ _ (grow (blk os') v) s (yields_strdup (Some uri)) (Hg _)). fold info. rewrite grow_grow.
  assert (for_endpoint (Some d) (ResponseMessage info) = Some false) as Hfor.
  { unfold for_endpoint. destruct d as [|x d']; [cbn in Hr; lia|]. rewrite byte_at_0. cbn [mbind option_bind].
    cbn [info direct_info result]. rewrite (proj2 (Z.eqb_neq _ _) Hc), andb_false_r. done. }
  assert (empty_message stack_mode (ResponseMessage info) = (ResponseMessage info, None, false)) as He
    by (unfold empty_message; cbn [info direct_info result]; by rewrite (proj2 (Z.eqb_neq _ _) Hc)).
  assert (read_at d 0 4 = Some (take 4 d)) as E1 by (rewrite read_at_ok by lia; by rewrite drop_0).
  assert (read_at d 4 2 = Some (take 2 (drop 4 d))) as E2 by (by rewrite read_at_ok by lia).
  step (heap_run _ _ _ (grow _ v) s (add_yields stack_mode d (ResponseMessage info) _ _ Hfor He Hp' E1 E2) (Hg _)).
  cbn [ad_message ad_result ad_post set_message_options]. fold (routed d). rewrite grow_grow.
  step (server_run _ _ _ _ s (run_modify _ _)). unfold get. rewrite run_bind with (a := _) (s' := _) by reflexivity. cbn zeta.
  step (in_heap_frees _ _ _ (frees_ptr (Some uri))). match goal with |- context [OICFree (options ?x)] => step (in_heap_frees _ _ _ (frees_ptr (options x))) end.
  rewrite Ht, decide_True by done. rewrite run_ret. do 2 f_equal.
  transitivity (set_server (grow (- 1) (grow (- 1) (grow (blk os' + 1 + (1 - blk os')) (add_sent (direct_sent e info) v)))) s); [done|].
  rewrite !grow_grow. replace (_ + _) with 0 by lia. by rewrite grow_0.
Qed.

(** The resource is not there, and nothing stands in for it. *)
Record not_served (s : stack) (u : list Z) : Prop := {
  ns_normal : GetTypeOfVirtualURI u = OC_UNKNOWN_URI;
  ns_found : find_uri u (headResource s) = Some None;
  ns_default : default_device_handler = None;
}.

Lemma determine_none v s a r : not_served s (resourceUrl r) -> resourceUrl r <> [] -> node_at a (requests v) = Some r ->
  DetermineResourceHandling a OC_RESOURCE_VIRTUAL None (set_server v s) =
    Some ((OC_STACK_NO_RESOURCE, OC_RESOURCE_NOT_SPECIFIED, None), set_server v s).
Proof.
  intros [Hn Hf Hd] Hu Hr. unfold DetermineResourceHandling. step (in_request_run a r (set_server v s) Hr).
  rewrite (decide_False (P := GetTypeOfVirtualURI (resourceUrl r) <> OC_UNKNOWN_URI)) by tauto.
  rewrite (decide_False (P := resourceUrl r = [])) by done. unfold FindResourceByUri.
  rewrite (run_bind _ _ _ None (set_server v s)); [by rewrite Hd|].
  step (run_gets headResource (set_server v s)). change (headResource (set_server v s)) with (headResource s).
  by step (run_lift _ _ _ Hf).
Qed.

(** C9: a request for a resource that is not there is answered with 4.04, its
    identifier and its token; but it stays in the table of requests for good,
    with the two blocks of memory it took: every such request costs the server
    memory. *)
Theorem unknown_resource_stays e ri m u q t s : stack_mode <> OC_CLIENT -> plain_request e (req_info ri) u q t ->
  oc_method (method ri) = Some m -> takes_all -> not_served s u -> Forall not_route (default [] (options (req_info ri))) ->
  find_request (requests (st_server s)) (Some t) (Z.of_nat (length t)) = Some None -> hp_allocs (stack_heap s) = [] ->
  exists sent r, OCHandleRequests e ri s =
      Some (tt, set_server (add_sent sent (grow 2 (set_requests (requests (st_server s) ++ [r]) (st_server s)))) s) /\
    resourceUrl r = u /\ requestToken r = Some t /\ to_endpoint sent = e /\ result (to_send sent) = CA_NOT_FOUND /\
    let i := res_info (to_send sent) in
    messageId i = messageId (req_info ri) /\ token i = Some t /\ tokenLength i = Z.of_nat (length t) /\
    type i = if decide (type (req_info ri) = CA_MSG_CONFIRM) then CA_MSG_ACKNOWLEDGE else CA_MSG_NONCONFIRM.
Proof.
  intros Hmode Hi Hm Ht Hns Hopt Hfind Hs.
  destruct (handle_start e ri m u q t s Hmode Hi Hm Hs) as (p & Hnew & _ & Eu & _ & _ & _ & _ & _ & Erun).
  destruct (stack_request_start p t (grow 1 (st_server s)) s) as (r & Hof & Hfresh & Est); try done.
  set (i := req_info ri) in *. destruct Hi as [Euri Hu _ Etok En _ _ _ Eno Hfew _ Hr].
  destruct (resourceUri i) as [uri|] eqn:E; [|done]. set (v1 := grow 2 (set_requests _ _)) in Est.
  assert (node_at (sr_addr r) (requests v1) = Some r) as Hat by exact (node_at_middle (requests (st_server s)) r [] Hfresh).
  assert (resourceUrl r = u) as Eurl by (by rewrite (of_url p r Hof)).
  set (ty := if decide (type i = CA_MSG_CONFIRM) then CA_MSG_ACKNOWLEDGE else CA_MSG_NONCONFIRM).
  set (info := direct_info (messageId i) CA_NOT_FOUND ty (numOptions i) (direct_options (options i) (numOptions i))
                 (Some t) (Z.of_nat (length t)) (Some uri) CA_RESPONSE_DATA).
  exists (direct_sent e info), r. split; [|repeat (split; [done|]); split; [by destruct Hof, Hnew; congruence|done]].
  rewrite Erun. rewrite (run_bind _ _ _ OC_STACK_NO_RESOURCE (set_server v1 s)).
  2: { rewrite Est, (run_bind _ _ _ _ _ (determine_none v1 s (sr_addr r) r ltac:(by rewrite Eurl) ltac:(rewrite Eurl; intros E0; rewrite E0 in Hu; cbn in Hu; lia) Hat)). done. }
  assert (answer_result e i (options i) OC_OBSERVE_NO_OPTION m OC_STACK_NO_RESOURCE (set_server v1 s) =
    Some (tt, set_server (add_sent (direct_sent e info) v1) s)) as Eans.
  { unfold answer_result. rewrite (run_bind _ _ _ tt (set_server v1 s) eq_refl). cbn [OCResultToSuccess].
    change (bool_decide (OC_STACK_NO_RESOURCE = OC_STACK_RESOURCE_ERROR) && (OC_OBSERVE_NO_OPTION =? OC_OBSERVE_REGISTER)) with false.
    cbn iota. unfold answer_directly. rewrite E, Etok, En. cbn [OCToCAStackResult].
    rewrite (run_bind _ _ _ _ _ (direct_run e (messageId i) CA_NOT_FOUND ty (numOptions i) (options i) (Some t) _ uri CA_RESPONSE_DATA v1 s
      ltac:(done) Hr ltac:(split; [exact Eno|unfold MAX_HEADER_OPTIONS in Hfew; lia|exact Hopt]) Ht Hs)). done. }
  step Eans. set (w := set_requests (requests (st_server s) ++ [r]) (st_server s)).
  assert (add_sent (direct_sent e info) v1 = grow 1 (add_sent (direct_sent e info) (grow 2 w))) as ->; [|apply free_token].
  transitivity (add_sent (direct_sent e info) (grow 1 (grow 2 w))); [|done]. f_equal. unfold v1, w.
  change (requests (grow 1 (st_server s))) with (requests (st_server s)). by rewrite set_requests_grow, !grow_grow.
Qed.

(** While a request with the token is in the table, that one is processed,
    whatever the new one asks for and whoever sends it. *)
Theorem repeated_token_serves_old_request p p' a s : pr_token p' = pr_token p -> pr_tokenLength p' = pr_tokenLength p ->
  is_Some (pr_token p) -> find_request (requests (st_server s)) (pr_token p) (pr_tokenLength p) = Some (Some a) ->
  HandleStackRequests (Some p') s = HandleStackRequests (Some p) s.
Proof.
  intros Et En [t Es] Hf. unfold HandleStackRequests.
  assert (in_server (GetServerRequestUsingToken (pr_token p) (pr_tokenLength p)) s = Some (Some a, s)) as Eget.
  { rewrite <- (at_server s) at 1. rewrite (server_run _ (Some a) (st_server s) (st_server s)); [by rewrite at_server|].
    unfold GetServerRequestUsingToken. rewrite Es in *. step (run_gets requests _). by apply run_lift. }
  rewrite Et, En. by do 2 step Eget.
Qed.
End Answered.

(** ** At concrete inputs *)

#[local] Existing Instance sample_env.

(** Every resource answers a request with its state. *)
Definition sample_answer (eh : OCEntityHandlerRequest) : OCEntityHandlerResponse := {|
  requestHandle := eh_request eh; ehResult := OC_EH_CONTENT; eh_payload := None; numSendVendorSpecificHeaderOptions := 0;
  sendVendorSpecificHeaderOptions := zero_options; eh_resourceUri := [] |}.

Definition answering_env : StackEnv := {|
  stack_server := sample_env; stack_mode := OC_SERVER; with_tcp := true; with_edr := false; with_le := true; with_nfc := false;
  parse_payload := fun _ _ _ => mret (OC_STACK_ERROR, None);
  entity_handler := fun _ _ eh => _ ← in_server (OCDoResponse OC_SERVER (Some (sample_answer eh))); mret OC_EH_OK;
  default_device_handler := None;
  request_result := fun _ _ _ => CA_STATUS_OK;
  virtual_response := fun _ _ => mret OC_STACK_OK;
  keepalive_response := fun _ _ => mret OC_STACK_OK;
  collection_handler := fun _ _ => mret OC_STACK_OK |}.
#[local] Existing Instance answering_env.

Definition sample_get (uri : string) : CARequestInfo_t := {|
  method := CA_GET; req_isMulticast := false;
  req_info := {|
    CaMessage.type := CA_MSG_CONFIRM; CaMessage.messageId := 4711; CaMessage.token := Some [9;8;7]; CaMessage.tokenLength := 3;
    CaMessage.options := Some [numbered 17]; CaMessage.numOptions := 1; CaMessage.payload := None; CaMessage.payloadSize := 0;
    CaMessage.payloadFormat := CA_FORMAT_UNDEFINED; CaMessage.acceptFormat := CA_FORMAT_APPLICATION_CBOR;
    CaMessage.payloadVersion := 0; CaMessage.acceptVersion := 0; CaMessage.resourceUri := Some (chars uri);
    CaMessage.identity := no_identity; CaMessage.info_dataType := Some CA_REQUEST_DATA |} |}.

Lemma sample_plain path q : split_query (chars (path ++ "?" ++ q)) = (chars path, Some (chars q)) ->
  0 < Z.of_nat (length (chars path)) < MAX_URI_LENGTH -> Z.of_nat (length (chars q)) < MAX_QUERY_LENGTH ->
  plain_request sample_dev (req_info (sample_get (path ++ "?" ++ q))) (chars path) (Some (chars q)) [9;8;7].
Proof.
  intros Es Hp Hq. split; try done; [cbn; by rewrite Es|by repeat constructor|left|cbn; lia].
Qed.

Lemma answering : goes_out /\ answers (sample_resource []) sample_answer.
Proof.
  split; [by split|]. split; [done|done| |intros eh; constructor].
  intros eh. split; [done|apply Forall_replicate, zero_option_full|by vm_compute|by vm_compute].
Qed.

Lemma light_served : served (sample_stack []) sample_dev (chars "/light") (sample_resource []).
Proof. split; [by vm_compute|apply NoDup_singleton|by vm_compute|by vm_compute|by exists 1]. Qed.

Lemma request_answered_once_witness :
  exists sent eh, OCHandleRequests sample_dev (sample_get "/light?if=oic.if.b") (sample_stack []) =
      Some (tt, set_server (add_sent sent (st_server (sample_stack []))) (sample_stack [])) /\
    eh_method eh = OC_REST_GET /\ eh_query eh = Some (chars "if=oic.if.b") /\ eh_resource eh = Some 1%positive /\
    to_endpoint sent = CopyDevAddrToEndpoint sample_dev /\
    (eh_payload (sample_answer eh) = None ->
      result (to_send sent) = ConvertEHResultToCAResult (ehResult (sample_answer eh)) OC_REST_GET) /\
    let i := res_info (to_send sent) in
    messageId i = 4711 /\ tokenLength i = 3 /\ option_map (take 3) (token i) = Some [9;8;7] /\ type i = CA_MSG_ACKNOWLEDGE.
Proof.
  refine (request_answered_once sample_dev (sample_get "/light?if=oic.if.b") OC_REST_GET (chars "/light") (Some (chars "if=oic.if.b"))
    [9;8;7] (sample_stack []) (sample_resource []) sample_answer _ _ eq_refl (proj1 answering) light_served (proj2 answering) eq_refl eq_refl).
  - done.
  - apply (sample_plain "/light" "if=oic.if.b"); by vm_compute.
Defined.

Lemma unknown_resource_stays_witness :
  exists sent r, OCHandleRequests sample_dev (sample_get "/dark?x=1") (sample_stack []) =
      Some (tt, set_server (add_sent sent (grow 2 (set_requests [r] (st_server (sample_stack []))))) (sample_stack [])) /\
    resourceUrl r = chars "/dark" /\ requestToken r = Some [9;8;7] /\ to_endpoint sent = sample_dev /\
    result (to_send sent) = CA_NOT_FOUND /\
    let i := res_info (to_send sent) in
    messageId i = 4711 /\ token i = Some [9;8;7] /\ tokenLength i = 3 /\ type i = CA_MSG_ACKNOWLEDGE.
Proof.
  refine (unknown_resource_stays sample_dev (sample_get "/dark?x=1") OC_REST_GET (chars "/dark") (Some (chars "x=1"))
    [9;8;7] (sample_stack []) _ _ eq_refl _ _ _ eq_refl eq_refl).
  - done.
  - apply (sample_plain "/dark" "x=1"); by vm_compute.
  - intros s e i. reflexivity.
  - split; [by vm_compute|by vm_compute|done].
  - by repeat constructor.
Defined.
